(* ===== verification/_CoqProject ===== *)
-Q . S2P
Prelude.v
ByteOrder.v
IpProto.v
ChunkBuffer2.v
PacketBuffer.v
PacketProto.v
LinkedLists.v
BPending.v
FlowInterfaces.v
PacketStreamSender.v
InactivityMonitor.v
PacketPassConnector.v
SinglePacketBuffer.v
PacketPassFairQueue.v
BAddr.v
AddrText.v
BSocksClient.v
SearchTree.v
BAVL.v
BAVLTree.v
BAVLLaws.v
CAvl.v
FairQueueTree.v
BReactor.v
BConnection.v
ReactorFrame.v
ReactorCalls.v
ConnectionRun.v
ConnectionLaws.v
ConnectionSetup.v
BDatagram.v
DatagramRun.v
DatagramLaws.v
DatagramSteps.v
DatagramSetup.v
BTap.v
TapLaws.v
BufferWriter.v
UdpGwClient.v
SocksUdpGwAndroid.v
Tun2SocksUdp.v
Tun2SocksTcp.v
Bufferevent.v
Redsocks.v
RelayProto.v
RedsocksSocks.v
RedsocksLaws.v
RedsocksExchange.v
RedsocksBuffers.v
RedsocksSplice.v
RedsocksRun.v
RedsocksAccept.v
