(* ===== verification/Prelude.v ===== *)
(** * tun2socks and redsocks: a verification library

    The programs are badvpn's tun2socks and redsocks as this repository builds them for
    Android (src/ss/src/main/jni/Android.mk), with the libraries of badvpn and the part of
    libevent they are made of. Paths below are relative to src/ss/src/main/jni/badvpn/,
    those that begin with redsocks/ or libevent/ to src/ss/src/main/jni/.

    tun2socks: IP packets arrive from
    a virtual network device. UDP packets are relayed through a SOCKS server, DNS
    queries through a DNS gateway; everything else goes to a TCP/IP stack (lwIP)
    that runs in the process, and every TCP connection it accepts is relayed through
    a SOCKS client of its own. What comes back is written to the device. Everything
    runs in one thread: components call each other through jobs of a pending group
    and through flow interfaces that carry one operation at a time.

    redsocks: TCP connections that the firewall redirects are accepted, each is relayed
    through a proxy that is asked, in a SOCKS protocol, to connect to the address the client
    meant; libevent's bufferevents hold the data, or pipes of the kernel do.

    ** Files and what they model, in the order of the dependencies

    - [Prelude]: machine integers ([u8] .. [u64], [s32]), byte strings indexed by
      [Z], [memcpy] ([mem_read], [mem_write]), record update, the effect monad [M]
      with its rules [wp_*], assertions. An undefined run ([None]) is a failed
      ASSERT, an access outside of a buffer, a null or dangling pointer, or a
      resource used when it is not held; hence a theorem that says a run is [Some]
      says that none of this happens. [mem_read] and [mem_write] alone check nothing:
      where what arrives from outside decides the place of an access ([buf_read] and
      [buf_write] of [BSocksClient], [dec_read] of [PacketProto], [bw_memcpy] of
      [BufferWriter], [copy_to_device_buf], the first packets of [SocksUdpGwAndroid]) the
      definition checks it; elsewhere the bounds are conclusions of the theorems.
    - [ByteOrder]: misc/byteorder.h, read_write_int.h, balign.h, bsize.h.
    - [IpProto]: misc/ipv4_proto.h, ipv6_proto.h, udp_proto.h: layouts, checksums,
      parsers.
    - [ChunkBuffer2]: structure/ChunkBuffer2.h, a circular buffer of packets,
      refined to a queue. [PacketBuffer]: flow/PacketBuffer.c on top of it.
    - [PacketProto]: flow/PacketProtoEncoder.c, PacketProtoDecoder.c: framing.
    - [LinkedLists]: structure/SLinkedList_impl.h and LinkedList1.h in a heap of
      nodes. [BPending]: base/BPending.c, the queue of jobs, refined to a stack; the
      class [JobQueue] is its promise.
    - [FlowInterfaces]: flow/PacketPassInterface, PacketRecvInterface,
      StreamPassInterface, StreamRecvInterface (.h and .c), over [JobQueue].
      [PacketStreamSender]: flow/PacketStreamSender.c, [InactivityMonitor]:
      flowextra/PacketPassInactivityMonitor.c, [PacketPassConnector]:
      flow/PacketPassConnector.c, and [SinglePacketBuffer]:
      flow/SinglePacketBuffer.c, each between two of them.
    - [PacketPassFairQueue]: flow/PacketPassFairQueue.c.
    - [BAddr]: system/BAddr.h, addresses; [AddrText]: their text in the same
      file, printed and parsed. [BSocksClient]: socksclient/BSocksClient.c, the SOCKS5 handshake.
    - [SearchTree]: the class of search trees that keep intrusive nodes, and the
      sequence as its reference. [BAVL], [BAVLTree], [BAVLLaws]: structure/BAVL.h,
      store by store, and the instance of the class. [CAvl]: structure/CAvl_impl.h
      and SAvl_impl.h, the same tree kept through a layer of macros; the class
      [OrderedTree] is what the timers and the fair queue use of it.
      [FairQueueTree]: the queue of [PacketPassFairQueue] kept in such a tree.
    - [BReactor]: system/BReactor_badvpn.c with epoll, and system/BTime: timers in
      three lists and an [OrderedTree], file descriptors, limits, the wait, one
      iteration of the loop and the loop itself, over [JobQueue].
    - [BConnection]: system/BConnection_unix.c, stream sockets, over [BReactor] and
      the stream interfaces. [ReactorFrame]: what the loop and the calls of other
      objects leave alone of an object in the reactor. [ReactorCalls]: its calls in the
      functions that make and release objects. [ConnectionRun]: runs of a
      connection in the loop, its invariant and its protocol. [ConnectionLaws]: every
      step keeps and follows them. [ConnectionSetup]: making and releasing sockets,
      and the properties.
    - [BDatagram]: system/BDatagram_unix.c, datagram sockets, over [BReactor] and the
      packet interfaces. [DatagramRun]: runs of a socket in the loop, its protocol and
      its invariant. [DatagramLaws]: what its handlers and jobs do to them.
      [DatagramSteps]: every step and every run keeps and follows them.
      [DatagramSetup]: making and releasing sockets, and the properties.
    - [BTap]: tuntap/BTap.c as compiled for Linux, the network device, over [BReactor]
      and the packet interfaces. [TapLaws]: its runs, protocol, invariant and properties.
    - [BufferWriter]: flow/BufferWriter.c. [UdpGwClient]: udpgw_client/UdpGwClient.c
      and protocol/udpgw_proto.h, over [SearchTree] and [LinkedLists].
    - [SocksUdpGwAndroid]: tun2socks/SocksUdpGwClient.c as compiled for Android,
      over the same interfaces.
    - [Tun2SocksUdp]: the packet path of tun2socks/tun2socks.c between the device,
      the UDP relay (composed with [SocksUdpGwAndroid]) and the stack.
    - [Tun2SocksTcp]: the TCP relay of tun2socks/tun2socks.c with misc/dead.h.
    - [Bufferevent]: libevent/bufferevent.c and bufferevent_sock.c. [Redsocks]: the
      clients of redsocks/redsocks.c over it. [RelayProto]: the class of proxy protocols.
      [RedsocksSocks]: redsocks/socks5.c and socks4.c, and their instances of it.
      [RedsocksLaws]: the invariant of a client; [RedsocksExchange], [RedsocksBuffers] and
      [RedsocksSplice]: the events of the exchange and of the two ways of relaying keep it.
      [RedsocksRun]: runs of a client and the properties. [RedsocksAccept]: the admission of
      clients in redsocks/redsocks.c, over the effects of [Redsocks].

    ** State, operations, environment

    The state of a component is a record with the fields of its C structure; an
    operation or handler is one definition with the name of the C function. Its
    calls into components that are modelled are calls of their definitions; calls
    into other components are events in the result of the monad. Where a theorem
    is about all behaviours of a component, its environment is a function that
    delivers an event when the contract of the neighbour allows it ([dstep],
    [pstep], [net_step], [step] and so on), and the theorem holds for every list of
    events. Allocation failure, answers of the stack, results of initialisation
    functions and the order of jobs are arguments, hence arbitrary.

    What the kernel may answer: epoll reports, of descriptors that are monitored,
    what is waited for, errors and hang-ups, alone or together; [read], [write] and the like answer what their
    documentation allows for the length asked ([kernel_ok], [dkernel_ok]). Of the sockets
    ([connection_streams] and [datagram_packets] with what follows them) two things more are
    asked: a call gives nothing in a direction that is monitored and was not just
    reported ([not_ready], [dg_not_ready]); and no turn of the loop comes between the
    report of an error and the release, as their documentation demands. The handlers call for such a direction only
    when an error was reported without it, and a socket that gets ready just then
    breaks the code, [connection_error_alone] and [datagram_error_alone]. The device
    ([device_packets]) needs no such condition. [redsocks_admission] asks that the
    clock moves between the first event of a client and the check for idle
    ones ([accept_ok]); [socks_udp_invariant] and [tun_device_packet] that a packet leaves room
    for its header and that jobs that are set run before the next packet
    ([s_submit_ok], [relay_ready]). The theorems that state defects, below, are runs
    without these conditions.

    Objects in memory that share pointers (list nodes, tree nodes, jobs, flows) live
    in finite maps from addresses. [SearchTree], [OrderedTree] and [JobQueue] are
    classes: the clients are proved against the class and the files [BAVLLaws],
    [CAvl] and [BPending] give the instances from the pointer code. In the same way [RelayProto]
    is what the clients of redsocks rely on, and [RedsocksSocks] has its instances.

    ** Theorems

    - Refinement: [chunkbuffer_fifo], [bpending_refines], [avl_refines_sequence],
      [CAvl_refines_sequence], [fairqueue_pointer_tree], [udpgw_table],
      [connection_streams] (the protocol of a connection), [datagram_packets], [device_packets],
      [redsocks_streams].
    - Equivalence with a reference: [avl_lookup_equiv], [tun_netif_output],
      [fairqueue_time_exact] (64-bit times against unbounded ones).
    - Functional behaviour of whole protocols for every fragmentation and order:
      [socks_handshake], [packetproto_roundtrip], [packetbuffer_conserves],
      [packetstream_composition], [single_packet_buffer], [tcp_client_streams], [tun_udp_reply],
      [tun_device_packet], [udpgw_echo], [addr_text_parse], [socks_udp_table], [socks_udp_echo],
      [avl_iteration], [reactor_iteration] (what is dispatched and in which order),
      [reactor_set_timer], [reactor_limits], checksums and byte order.
    - Safety and invariants under all events: [socks_safe], [decoder_safe],
      [fairqueue_invariant], [udpgw_invariant], [socks_udp_invariant],
      [tcp_client_safe], [inactivity_monitor], [packet_connector], [reactor_safe],
      [reactor_no_stale_dispatch], [connection_lifetime], [redsocks_release],
      [redsocks_admission]; the typestate of the flow interfaces
      [ppi_typestate].
    - Bounds, progress and termination: [chunkbuffer_capacity], [avl_search_depth],
      [fairqueue_no_starvation], [udpgw_free], [reactor_wait_returns],
      [reactor_timeout_bounds], [connection_wakeup], [datagram_wakeup],
      [redsocks_progress] (a relayed client is never stuck), [redsocks_accept_resumes].
    - Errors: [tcp_client_abort_result], [ipv4_check_sound], [socket_setup],
      [datagram_lifetime], [device_lifetime], and the theorems that state defects of the code as they are:
      [udp_checksum_zero], [connection_error_alone], [datagram_error_alone],
      [socks_udp_overflow], [socks_udp_stale_dest], [socks_udp_free], [socks_udp_dangling_job],
      [early_data_lost], [abandoned_exchange_leaks], [accept_stops_forever], [accepted_client_freed].

    ** Fuel

    Loops over pointers have fuel: the number of nodes plus one for lists and trees
    ([tree_fuel]), the number of ids for the search of a free connection id, three
    foldings for a 32-bit checksum sum, four nested calls for the release of a TCP
    client, one turn per byte for its write loop, one turn per timer for the loops
    over timers ([timers_fuel]). The wait for events is structural in the list of
    the kernel's answers. The theorems show that runs are
    defined, so the fuel is never used up.

    ** Not modelled

    lwIP, libancillary and, but for its bufferevents, libevent are third-party code; lwIP appears as the answers
    and callbacks its documentation allows, epoll and the clock as the answers of the
    kernel, [getaddrinfo] as a function of the name. Signals are system calls. Data link addresses, the command line,
    logging, and the DebugObject checks of liveness are left out. Of redsocks are left out
    the HTTP protocols, the UDP and DNS redirectors and the configuration. The other programs of badvpn (client, server, ncd, udpgw) are not built here. Of the
    flow components PacketProtoFlow, which only sets up three others, is not modelled. *)
From Stdlib Require Export ZArith Lia.
From stdpp Require Export base option numbers gmap list.
Export stdpp.list_basics.list stdpp.list.

#[global] Set Default Goal Selector "1".
#[export] Set Default Proof Using "Type".
#[export] Set Warnings "-clear-no-such-hyp".

Declare Scope c_scope.
Delimit Scope c_scope with c.
Open Scope Z_scope.

(** ** Machine integers

    A C integer is an element of [Z]; the casts below are the conversions the
    source performs. *)

Definition u8 (x : Z) : Z := x mod 2 ^ 8.
Definition u16 (x : Z) : Z := x mod 2 ^ 16.
Definition u32 (x : Z) : Z := x mod 2 ^ 32.
Definition u64 (x : Z) : Z := x mod 2 ^ 64.
Definition s32 (x : Z) : Z := (x + 2 ^ 31) mod 2 ^ 32 - 2 ^ 31.

Definition INT_MAX : Z := 2147483647.
Definition UINT16_MAX : Z := 65535.
Definition UINT32_MAX : Z := 4294967295.
Definition UINT64_MAX : Z := 18446744073709551615.

(** The three-way comparison of misc/compare.h. *)
Definition B_COMPARE (a b : Z) : Z := Z.b2z (b <? a) - Z.b2z (a <? b).

(** A byte and a byte string. *)
Definition is_byte (b : Z) : Prop := 0 ≤ b < 256.
Abbreviation bytes := (list Z).
Definition wf_bytes (l : bytes) : Prop := Forall is_byte l.

(** ** Byte strings indexed by [Z]

    Lengths and offsets of the source are C integers. *)

Definition zlen {A} (l : list A) : Z := Z.of_nat (length l).
Definition ztake {A} (n : Z) (l : list A) : list A := take (Z.to_nat n) l.
Definition zdrop {A} (n : Z) (l : list A) : list A := drop (Z.to_nat n) l.

(** [memcpy] out of, and into, a region of memory. *)
Definition mem_read (m : bytes) (off len : Z) : bytes := ztake len (zdrop off m).
Definition mem_write (m : bytes) (off : Z) (d : bytes) : bytes :=
  ztake off m ++ d ++ zdrop (off + zlen d) m.

(** Byte [i] of a region; reading outside yields [0], every use is guarded. *)
Definition byte_at (m : bytes) (i : Z) : Z := default 0 (m !! Z.to_nat i).

(** ** Functional update of record fields

    [Eta R] rebuilds a record from its projections; [set] replaces the field
    read by a projection. *)

Class Eta (R : Type) := eta : R → R.
Class Setter {R T : Type} (proj : R → T) := set : (T → T) → R → R.
Arguments set {R T} proj {_} / f r.

Ltac derive_setter :=
  lazymatch goal with
  | |- @Setter ?R ?T ?proj =>
      let h := constr:(_ : Eta R) in
      let f := fresh "f" in
      let r := fresh "r" in
      intros f r;
      let t := eval hnf in (h r) in
      let t := eval pattern (proj r) in t in
      lazymatch t with
      | ?g _ =>
          let v := eval cbv beta in (g (f (proj r))) in
          exact v
      end
  end.

#[export] Hint Extern 1 (Setter _) => derive_setter : typeclass_instances.

Notation "r <| f := v |>" := (set f (λ _, v) r)
  (at level 1, f at level 200, v at level 200, left associativity, format "r  <| f  :=  v |>") : c_scope.
Open Scope c_scope.

(** ** The effect monad of the handlers

    A handler runs on the state of its component, may call into other
    components (the list of effects, in call order) and may violate one of its
    [ASSERT]s, in which case the run is [None]. *)

Definition M (S E A : Type) : Type := S → option (A * S * list E).

#[export] Instance M_ret S E : MRet (M S E) := λ A a s, Some (a, s, []).
#[export] Instance M_bind S E : MBind (M S E) := λ A B k m s,
  match m s with
  | Some (a, s1, e1) =>
      match k a s1 with
      | Some (b, s2, e2) => Some (b, s2, e1 ++ e2)
      | None => None
      end
  | None => None
  end.

Definition get {S E} : M S E S := λ s, Some (s, s, []).
Definition gets {S E A} (f : S → A) : M S E A := λ s, Some (f s, s, []).
Definition modify {S E} (f : S → S) : M S E unit := λ s, Some ((), f s, []).
Definition emit {S E} (e : E) : M S E unit := λ s, Some ((), s, [e]).
Definition assert {S E} (b : bool) : M S E unit := λ s, if b then Some ((), s, []) else None.
Definition stuck {S E A} : M S E A := λ _, None.
Definition lift {S E A} (o : option A) : M S E A := λ s, match o with Some a => Some (a, s, []) | None => None end.
Definition when {S E} (b : bool) (m : M S E unit) : M S E unit := if b then m else mret ().

(** An [ASSERT] of code that only computes. *)
Definition ASSERT (b : bool) : option unit := if b then Some () else None.

(** The run of [m] from [s] violates no assertion and ends as [Q] says. *)
Definition wp {S E A} (m : M S E A) (Q : A → S → list E → Prop) (s : S) : Prop :=
  match m s with Some (a, s', es) => Q a s' es | None => False end.

(** ** Automation *)

Create Rewrite HintDb c_len.
Create HintDb c_wf.

Ltac zify_len := unfold zlen, ztake, zdrop in *.

(** Rewrites lengths of the list expressions of the goal and the context. *)
Ltac len_simpl :=
  autorewrite with c_len in *; zify_len.
Ltac len_lia := len_simpl; try lia.

(** Opens the assertions of the context and the comparisons of the code. *)
Ltac b2p :=
  repeat match goal with
  | H : _ && _ = true |- _ => apply andb_prop in H; destruct H
  | H : _ || _ = false |- _ => apply orb_false_elim in H; destruct H
  | H : negb _ = true |- _ => apply negb_true_iff in H
  | H : negb _ = false |- _ => apply negb_false_iff in H
  | H : (_ <? _) = true |- _ => apply Z.ltb_lt in H
  | H : (_ <? _) = false |- _ => apply Z.ltb_ge in H
  | H : (_ <=? _) = true |- _ => apply Z.leb_le in H
  | H : (_ <=? _) = false |- _ => apply Z.leb_gt in H
  | H : (_ =? _) = true |- _ => apply Z.eqb_eq in H
  | H : (_ =? _) = false |- _ => apply Z.eqb_neq in H
  | H : bool_decide _ = true |- _ => apply bool_decide_eq_true in H
  | H : bool_decide _ = false |- _ => apply bool_decide_eq_false in H
  end.

(** Splits on the innermost condition of the goal. *)
Ltac case_if :=
  match goal with
  | |- context [if ?b then _ else _] =>
      lazymatch b with
      | context [if _ then _ else _] => fail
      | _ => let E := fresh "E" in destruct b eqn:E; b2p
      end
  end.

(** ** Lemmas on machine integers *)

Lemma u8_range x : 0 ≤ u8 x < 256.
Proof. apply Z.mod_pos_bound. lia. Qed.

Lemma u16_range x : 0 ≤ u16 x < 65536.
Proof. apply (Z.mod_pos_bound x (2 ^ 16)). lia. Qed.

Lemma u32_range x : 0 ≤ u32 x < 2 ^ 32.
Proof. apply Z.mod_pos_bound. lia. Qed.

Lemma u64_range x : 0 ≤ u64 x < 2 ^ 64.
Proof. apply Z.mod_pos_bound. lia. Qed.

Lemma u8_small x : 0 ≤ x < 256 → u8 x = x.
Proof. intros. by apply Z.mod_small. Qed.

Lemma u16_small x : 0 ≤ x < 65536 → u16 x = x.
Proof. intros. by apply Z.mod_small. Qed.

Lemma u32_small x : 0 ≤ x < 2 ^ 32 → u32 x = x.
Proof. intros. by apply Z.mod_small. Qed.

Lemma u64_small x : 0 ≤ x < 2 ^ 64 → u64 x = x.
Proof. intros. by apply Z.mod_small. Qed.

Lemma s32_small x : - 2 ^ 31 ≤ x ≤ INT_MAX → s32 x = x.
Proof. intros. unfold s32, INT_MAX in *. rewrite Z.mod_small; lia. Qed.

Lemma s32_range x : - 2 ^ 31 ≤ s32 x ≤ INT_MAX.
Proof. unfold s32, INT_MAX. pose proof (Z.mod_pos_bound (x + 2 ^ 31) (2 ^ 32)). lia. Qed.

(** The three outcomes of [B_COMPARE]. *)
Lemma B_COMPARE_cases a b :
  (B_COMPARE a b = -1 ∧ a < b) ∨ (B_COMPARE a b = 0 ∧ a = b) ∨ (B_COMPARE a b = 1 ∧ b < a).
Proof. unfold B_COMPARE. destruct (b <? a) eqn:E1, (a <? b) eqn:E2; simpl; lia. Qed.

(** ** Lemmas on lists indexed by [Z] *)

Lemma zlen_nonneg {A} (l : list A) : 0 ≤ zlen l.
Proof. unfold zlen. lia. Qed.

Lemma zlen_nil {A} : zlen ([] : list A) = 0.
Proof. done. Qed.

Lemma zlen_cons {A} (x : A) l : zlen (x :: l) = 1 + zlen l.
Proof. unfold zlen. simpl. lia. Qed.

Lemma zlen_app {A} (l k : list A) : zlen (l ++ k) = zlen l + zlen k.
Proof. unfold zlen. rewrite length_app. lia. Qed.

Lemma zlen_ztake {A} n (l : list A) : zlen (ztake n l) = Z.min (Z.max 0 n) (zlen l).
Proof. unfold zlen, ztake. rewrite length_take. lia. Qed.

Lemma zlen_zdrop {A} n (l : list A) : zlen (zdrop n l) = Z.max 0 (zlen l - Z.max 0 n).
Proof. unfold zlen, zdrop. rewrite length_drop. lia. Qed.

Lemma zlen_0_nil {A} (l : list A) : zlen l = 0 → l = [].
Proof. destruct l; [done | rewrite zlen_cons; pose proof (zlen_nonneg l); lia]. Qed.

#[export] Hint Rewrite @zlen_nil @zlen_cons @zlen_app @zlen_ztake @zlen_zdrop
  @length_app @length_take @length_drop @length_replicate : c_len.

Lemma ztake_app_exact {A} (l k : list A) n : n = zlen l → ztake n (l ++ k) = l.
Proof. intros ->. unfold ztake, zlen. rewrite Nat2Z.id. apply take_app_length. Qed.

Lemma zdrop_app_exact {A} (l k : list A) n : n = zlen l → zdrop n (l ++ k) = k.
Proof. intros ->. unfold zdrop, zlen. rewrite Nat2Z.id. apply drop_app_length. Qed.

Lemma ztake_ge {A} n (l : list A) : zlen l ≤ n → ztake n l = l.
Proof. unfold ztake, zlen. intros. apply take_ge. lia. Qed.

Lemma zdrop_ge {A} n (l : list A) : zlen l ≤ n → zdrop n l = [].
Proof. unfold zdrop, zlen. intros. apply drop_ge. lia. Qed.

Lemma zdrop_le0 {A} n (l : list A) : n ≤ 0 → zdrop n l = l.
Proof. unfold zdrop. intros. by replace (Z.to_nat n) with 0%nat by lia. Qed.

Lemma ztake_le0 {A} n (l : list A) : n ≤ 0 → ztake n l = [].
Proof. unfold ztake. intros. by replace (Z.to_nat n) with 0%nat by lia. Qed.

Lemma ztake_zdrop {A} n (l : list A) : ztake n l ++ zdrop n l = l.
Proof. apply take_drop. Qed.

Lemma zdrop_zdrop {A} a b (l : list A) :
  0 ≤ a → 0 ≤ b → zdrop a (zdrop b l) = zdrop (b + a) l.
Proof. intros. unfold zdrop. rewrite drop_drop. f_equal. lia. Qed.

Lemma ztake_ztake {A} a b (l : list A) : ztake a (ztake b l) = ztake (Z.min a b) l.
Proof. unfold ztake. rewrite take_take. f_equal. lia. Qed.

Lemma zdrop_ztake {A} a b (l : list A) :
  0 ≤ a → 0 ≤ b → zdrop a (ztake b l) = ztake (b - a) (zdrop a l).
Proof.
  intros. unfold zdrop, ztake. rewrite take_drop_commute.
  replace (Z.to_nat a + Z.to_nat (b - a))%nat with (Z.to_nat (Z.max a b)) by lia.
  destruct (decide (a ≤ b)); [by replace (Z.max a b) with b by lia |].
  rewrite !drop_ge; [done | rewrite length_take; lia..].
Qed.

Lemma ztake_app_le {A} n (l k : list A) : n ≤ zlen l → ztake n (l ++ k) = ztake n l.
Proof. unfold ztake, zlen. intros. apply take_app_le. lia. Qed.

Lemma ztake_app_ge {A} n (l k : list A) :
  zlen l ≤ n → ztake n (l ++ k) = l ++ ztake (n - zlen l) k.
Proof. unfold ztake, zlen. intros. rewrite take_app_ge by lia. do 2 f_equal. lia. Qed.

Lemma zdrop_app_le {A} n (l k : list A) : n ≤ zlen l → zdrop n (l ++ k) = zdrop n l ++ k.
Proof. unfold zdrop, zlen. intros. apply drop_app_le. lia. Qed.

Lemma zdrop_app_ge {A} n (l k : list A) :
  zlen l ≤ n → zdrop n (l ++ k) = zdrop (n - zlen l) k.
Proof. unfold zdrop, zlen. intros. rewrite drop_app_ge by lia. f_equal. lia. Qed.

(** ** Lemmas on memory regions *)

Lemma zlen_mem_write m off d :
  0 ≤ off → off + zlen d ≤ zlen m → zlen (mem_write m off d) = zlen m.
Proof. intros. unfold mem_write. pose proof (zlen_nonneg d). autorewrite with c_len. lia. Qed.

Lemma zlen_mem_read m off len :
  0 ≤ off → 0 ≤ len → off + len ≤ zlen m → zlen (mem_read m off len) = len.
Proof. intros. unfold mem_read. autorewrite with c_len. lia. Qed.

Lemma zlen_mem_read_le m off n : 0 ≤ n → zlen (mem_read m off n) ≤ n.
Proof. intros. unfold mem_read. rewrite zlen_ztake. lia. Qed.

Lemma mem_read_write_same m off d n :
  n = zlen d → 0 ≤ off → off + zlen d ≤ zlen m → mem_read (mem_write m off d) off n = d.
Proof.
  intros -> ? ?. unfold mem_read, mem_write. pose proof (zlen_nonneg d).
  rewrite zdrop_app_exact; [| autorewrite with c_len; lia].
  by apply ztake_app_exact.
Qed.

Lemma mem_read_write_before m off d a n :
  0 ≤ a → 0 ≤ n → a + n ≤ off → off + zlen d ≤ zlen m →
  mem_read (mem_write m off d) a n = mem_read m a n.
Proof.
  intros. unfold mem_read, mem_write. pose proof (zlen_nonneg d).
  rewrite zdrop_app_le by (autorewrite with c_len; lia).
  rewrite ztake_app_le by (autorewrite with c_len; lia).
  rewrite zdrop_ztake by lia. rewrite ztake_ztake. f_equal. lia.
Qed.

Lemma mem_read_write_after m off d a n :
  0 ≤ off → off + zlen d ≤ a → 0 ≤ n → off + zlen d ≤ zlen m →
  mem_read (mem_write m off d) a n = mem_read m a n.
Proof.
  intros. unfold mem_read, mem_write. pose proof (zlen_nonneg d). f_equal.
  rewrite app_assoc, zdrop_app_ge by (autorewrite with c_len; lia).
  rewrite zdrop_zdrop by (autorewrite with c_len; lia).
  f_equal. autorewrite with c_len. lia.
Qed.

(** ** Lemmas on byte strings *)

Lemma wf_bytes_app l k : wf_bytes (l ++ k) ↔ wf_bytes l ∧ wf_bytes k.
Proof. apply Forall_app. Qed.

Lemma wf_bytes_ztake n l : wf_bytes l → wf_bytes (ztake n l).
Proof. apply Forall_take. Qed.

Lemma wf_bytes_zdrop n l : wf_bytes l → wf_bytes (zdrop n l).
Proof. apply Forall_drop. Qed.

Lemma wf_mem_read m off n : wf_bytes m → wf_bytes (mem_read m off n).
Proof. intros. by apply wf_bytes_ztake, wf_bytes_zdrop. Qed.

#[export] Hint Resolve wf_bytes_ztake wf_bytes_zdrop wf_mem_read : c_wf.

Lemma byte_at_range l i : wf_bytes l → is_byte (byte_at l i).
Proof.
  intros H. unfold byte_at. destruct (l !! Z.to_nat i) eqn:E; simpl; [| unfold is_byte; lia].
  by eapply Forall_lookup_1.
Qed.

(** ** Lemmas on maps *)

Lemma alter_known {A} (h : A → A) (m : gmap nat A) x k : m !! k = Some x → alter h k m = <[k := h x]> m.
Proof.
  intros E. apply map_eq. intros i. destruct (decide (i = k)) as [-> |].
  - by rewrite lookup_alter_eq, lookup_insert_eq, E.
  - by rewrite lookup_alter_ne, lookup_insert_ne by done.
Qed.

(** ** Lemmas on selections from lists *)

Lemma omap_cons_eq {A B} (f : A → option B) x l :
  omap f (x :: l) = match f x with Some y => y :: omap f l | None => omap f l end.
Proof. done. Qed.

Lemma length_omap_le {A B} (f : A → option B) (l : list A) : (length (omap f l) ≤ length l)%nat.
Proof. induction l as [| x l IH]; [done |]. rewrite omap_cons_eq. destruct (f x); cbn [length]; lia. Qed.

Lemma omap_ext_in {A B} (f g : A → option B) (l : list A) : (∀ x, x ∈ l → f x = g x) → omap f l = omap g l.
Proof.
  induction l as [| x l IH]; intros E; [done |]. rewrite !omap_cons_eq, (E x), IH by set_solver. done.
Qed.

Lemma filter_ne_notin {A} `{EqDecision A} (x : A) (l : list A) : x ∉ l → filter (λ y, y ≠ x) l = l.
Proof.
  intros Hx. induction l as [| y l IH]; [done |]. rewrite filter_cons_True by set_solver. f_equal. apply IH. set_solver.
Qed.

Lemma filter_ne_split {A} `{EqDecision A} (x : A) (l1 l2 : list A) :
  NoDup (l1 ++ x :: l2) → filter (λ y, y ≠ x) (l1 ++ x :: l2) = l1 ++ l2.
Proof.
  intros (_ & Hd & [Hx _]%NoDup_cons)%NoDup_app. rewrite filter_app, filter_cons_False by naive_solver.
  rewrite !filter_ne_notin by set_solver. done.
Qed.

(** A list without duplicates is cut at an element in one way. *)
Lemma split_unique {A} (l1 l2 m1 m2 : list A) x : NoDup (l1 ++ x :: l2) → l1 ++ x :: l2 = m1 ++ x :: m2 → l1 = m1 ∧ l2 = m2.
Proof.
  revert m1. induction l1 as [| y l1 IH]; intros [| z m1] Hnd E; simpl in *.
  - by injection E as ->.
  - injection E as -> ->. apply NoDup_cons in Hnd as [Hn _]. destruct Hn. set_solver.
  - injection E as -> _. apply NoDup_cons in Hnd as [Hn _]. destruct Hn. set_solver.
  - injection E as -> E. apply NoDup_cons in Hnd as [_ Hnd]. by destruct (IH m1 Hnd E) as [-> ->].
Qed.

(** ** Rules of the effect monad *)

Lemma ASSERT_seq {A} (b : bool) (k : option A) : b = true → (ASSERT b;; k) = k.
Proof. by intros ->. Qed.

Lemma ASSERT_inv (b : bool) u : ASSERT b = Some u → b = true.
Proof. by destruct b. Qed.

Lemma option_bind_Some {A B} (a : A) (k : A → option B) : (x ← Some a; k x) = k a.
Proof. done. Qed.

Section wp_rules.
Context {S E : Type}.
Implicit Types s : S.

Lemma wp_ret {A} (a : A) (Q : A → S → list E → Prop) s : Q a s [] → wp (mret a) Q s.
Proof. done. Qed.

Lemma wp_bind {A B} (m : M S E A) (k : A → M S E B) (Q : B → S → list E → Prop) s :
  wp m (λ a s1 e1, wp (k a) (λ b s2 e2, Q b s2 (e1 ++ e2)) s1) s → wp (m ≫= k) Q s.
Proof.
  unfold wp, mbind, M_bind. destruct (m s) as [[[a s1] e1] |]; [| done].
  by destruct (k a s1) as [[[b s2] e2] |].
Qed.

Lemma wp_mono {A} (m : M S E A) (P Q : A → S → list E → Prop) s :
  wp m P s → (∀ a s' es, P a s' es → Q a s' es) → wp m Q s.
Proof. unfold wp. destruct (m s) as [[[a s'] es] |]; auto. Qed.

Lemma wp_inv {A} (m : M S E A) (Q : A → S → list E → Prop) s :
  wp m Q s → ∃ a s' es, m s = Some (a, s', es) ∧ Q a s' es.
Proof. unfold wp. destruct (m s) as [[[a s'] es] |]; [eauto | done]. Qed.

Lemma wp_run {A} (m : M S E A) (Q : A → S → list E → Prop) s a s' es :
  wp m Q s → m s = Some (a, s', es) → Q a s' es.
Proof. unfold wp. intros H Em. by rewrite Em in H. Qed.

Lemma wp_get (Q : S → S → list E → Prop) s : Q s s [] → wp get Q s.
Proof. done. Qed.

Lemma wp_gets {A} (f : S → A) (Q : A → S → list E → Prop) s : Q (f s) s [] → wp (gets f) Q s.
Proof. done. Qed.

Lemma wp_modify (f : S → S) (Q : unit → S → list E → Prop) s : Q () (f s) [] → wp (modify f) Q s.
Proof. done. Qed.

Lemma wp_emit (e : E) (Q : unit → S → list E → Prop) s : Q () s [e] → wp (emit e) Q s.
Proof. done. Qed.

Lemma wp_assert (b : bool) (Q : unit → S → list E → Prop) s :
  b = true → Q () s [] → wp (assert b) Q s.
Proof. by intros ->. Qed.

Lemma wp_if {A} (b : bool) (m1 m2 : M S E A) (Q : A → S → list E → Prop) s :
  (b = true → wp m1 Q s) → (b = false → wp m2 Q s) → wp (if b then m1 else m2) Q s.
Proof. destruct b; auto. Qed.

Lemma wp_when (b : bool) (m : M S E unit) (Q : unit → S → list E → Prop) s :
  (b = true → wp m Q s) → (b = false → Q () s []) → wp (when b m) Q s.
Proof. intros H1 H2. destruct b; [by apply H1 | by apply H2]. Qed.

Lemma wp_when_assert (c a : bool) (Q : unit → S → list E → Prop) s : (c = true → a = true) → Q () s [] → wp (when c (assert a)) Q s.
Proof. intros Hc HQ. apply wp_when; [| done]. intros Ec. by apply wp_assert; [apply Hc |]. Qed.

Lemma wp_lift {A} (o : option A) a (Q : A → S → list E → Prop) s : o = Some a → Q a s [] → wp (lift o) Q s.
Proof. by intros ->. Qed.

(** Running a computation whose first part makes no call. *)
Lemma run_nil {A B} (m : M S E A) (k : A → M S E B) s a s1 : m s = Some (a, s1, []) → (m ≫= k) s = k a s1.
Proof. intros H. unfold mbind, M_bind. rewrite H. by destruct (k a s1) as [[[b s2] e2] |]. Qed.

Lemma run_get {B} (k : S → M S E B) s : (get ≫= k) s = k s s.
Proof. by apply run_nil. Qed.

Lemma run_modify {B} f (k : unit → M S E B) s : (modify f ≫= k) s = k () (f s).
Proof. by apply run_nil. Qed.

Lemma run_assert {B} (b : bool) (k : unit → M S E B) s : b = true → (assert b ≫= k) s = k () s.
Proof. intros ->. by apply run_nil. Qed.

Lemma run_ret {A B} (a : A) (k : A → M S E B) s : (mret a ≫= k) s = k a s.
Proof. by apply run_nil. Qed.

Lemma run_lift {A B} (o : option A) (k : A → M S E B) s : (lift o ≫= k) s = match o with Some a => k a s | None => None end.
Proof. destruct o as [a |]; [by apply run_nil | done]. Qed.

Lemma run_assoc {A B C} (m : M S E A) (k : A → M S E B) (k' : B → M S E C) s :
  ((m ≫= k) ≫= k') s = (m ≫= λ a, k a ≫= k') s.
Proof.
  unfold mbind, M_bind. destruct (m s) as [[[a s1] e1] |]; [| done]. destruct (k a s1) as [[[b s2] e2] |]; [| done].
  destruct (k' b s2) as [[[c s3] e3] |]; [| done]. by rewrite app_assoc.
Qed.

End wp_rules.

(** One step of symbolic execution; conditions and assertions are left to the
    caller. *)
Ltac wp_step :=
  lazymatch goal with
  | |- wp (mret _) _ _ => apply wp_ret
  | |- wp (mbind _ _) _ _ => apply wp_bind
  | |- wp get _ _ => apply wp_get
  | |- wp (gets _) _ _ => apply wp_gets
  | |- wp (modify _) _ _ => apply wp_modify
  | |- wp (emit _) _ _ => apply wp_emit
  | |- wp (assert _) _ _ => apply wp_assert
  | |- wp (if _ then _ else _) _ _ => apply wp_if; intro
  | |- wp (when _ _) _ _ => apply wp_when; intro
  | |- wp (match ?x with _ => _ end) _ _ => destruct x eqn:?
  end; simpl; b2p.

(** The same, using a known result for a computation that only reads. *)
Ltac wp_go := first [eapply wp_lift; [eassumption |]; simpl | wp_step].
