(* ===== verification/ByteOrder.v ===== *)
(** * Byte order, integer access and size arithmetic

    misc/byteorder.h (little-endian branch, the one the build selects),
    misc/read_write_int.h, misc/balign.h and misc/bsize.h. An integer object is
    accessed through its bytes in memory, [le_bytes]; [le_val] reads an object
    back. [size_t] is 64 bits wide. *)
From S2P Require Import Prelude.

(** ** Integer objects in little-endian memory *)

Fixpoint le_bytes (n : nat) (x : Z) : bytes :=
  match n with
  | O => []
  | S n => u8 x :: le_bytes n (x / 256)
  end.

Fixpoint le_val (l : bytes) : Z :=
  match l with
  | [] => 0
  | b :: l => b + 256 * le_val l
  end.

(** ** misc/byteorder.h *)

Definition badvpn_reverse16 (x : Z) : Z :=
  let p := le_bytes 2 x in
  le_val [byte_at p 1; byte_at p 0].

Definition badvpn_reverse32 (x : Z) : Z :=
  let p := le_bytes 4 x in
  le_val [byte_at p 3; byte_at p 2; byte_at p 1; byte_at p 0].

Definition badvpn_reverse64 (x : Z) : Z :=
  let p := le_bytes 8 x in
  le_val [byte_at p 7; byte_at p 6; byte_at p 5; byte_at p 4;
          byte_at p 3; byte_at p 2; byte_at p 1; byte_at p 0].

Definition hton8 (x : Z) : Z := x.
Definition htol8 (x : Z) : Z := x.
Definition hton16 (x : Z) : Z := badvpn_reverse16 x.
Definition hton32 (x : Z) : Z := badvpn_reverse32 x.
Definition hton64 (x : Z) : Z := badvpn_reverse64 x.
Definition htol16 (x : Z) : Z := x.
Definition htol32 (x : Z) : Z := x.
Definition htol64 (x : Z) : Z := x.
Definition ntoh8 (x : Z) : Z := hton8 x.
Definition ntoh16 (x : Z) : Z := hton16 x.
Definition ntoh32 (x : Z) : Z := hton32 x.
Definition ntoh64 (x : Z) : Z := hton64 x.
Definition ltoh8 (x : Z) : Z := htol8 x.
Definition ltoh16 (x : Z) : Z := htol16 x.
Definition ltoh32 (x : Z) : Z := htol32 x.
Definition ltoh64 (x : Z) : Z := htol64 x.

(** ** misc/read_write_int.h

    A pointer is the byte string it points to; the writers return the bytes
    they store, lowest address first. *)

Definition badvpn_read_le16 (ptr : bytes) : Z :=
  Z.lor (Z.shiftl (byte_at ptr 1) 8) (Z.shiftl (byte_at ptr 0) 0).

Definition badvpn_read_le32 (ptr : bytes) : Z :=
  Z.lor (Z.lor (Z.lor (Z.shiftl (byte_at ptr 3) 24) (Z.shiftl (byte_at ptr 2) 16))
    (Z.shiftl (byte_at ptr 1) 8)) (Z.shiftl (byte_at ptr 0) 0).

Definition badvpn_read_be16 (ptr : bytes) : Z :=
  Z.lor (Z.shiftl (byte_at ptr 0) 8) (Z.shiftl (byte_at ptr 1) 0).

Definition badvpn_read_be32 (ptr : bytes) : Z :=
  Z.lor (Z.lor (Z.lor (Z.shiftl (byte_at ptr 0) 24) (Z.shiftl (byte_at ptr 1) 16))
    (Z.shiftl (byte_at ptr 2) 8)) (Z.shiftl (byte_at ptr 3) 0).

Definition badvpn_write_le16 (x : Z) : bytes :=
  [u8 (Z.shiftr x 0); u8 (Z.shiftr x 8)].

Definition badvpn_write_le32 (x : Z) : bytes :=
  [u8 (Z.shiftr x 0); u8 (Z.shiftr x 8); u8 (Z.shiftr x 16); u8 (Z.shiftr x 24)].

Definition badvpn_write_be16 (x : Z) : bytes :=
  [u8 (Z.shiftr x 8); u8 (Z.shiftr x 0)].

Definition badvpn_write_be32 (x : Z) : bytes :=
  [u8 (Z.shiftr x 24); u8 (Z.shiftr x 16); u8 (Z.shiftr x 8); u8 (Z.shiftr x 0)].

(** ** misc/balign.h *)

Definition SIZE_MAX : Z := 2 ^ 64 - 1.

Definition bdivide_up (a b : Z) : Z :=
  let r := a mod b in
  if 0 <? r then a / b + 1 else a / b.

(** ** misc/bsize.h *)

Record bsize_t := { is_overflow : bool; bvalue : Z }.

Definition bsize_fromsize (v : Z) : bsize_t := {| is_overflow := false; bvalue := v |}.

Definition bsize_fromint (v : Z) : bsize_t :=
  {| is_overflow := (v <? 0) || (SIZE_MAX <? u64 v); bvalue := u64 v |}.

Definition bsize_toint (s : bsize_t) : option Z :=
  if is_overflow s || (INT_MAX <? bvalue s) then None else Some (s32 (bvalue s)).

Definition bsize_add (s1 s2 : bsize_t) : bsize_t :=
  {| is_overflow := is_overflow s1 || is_overflow s2 || (SIZE_MAX - bvalue s1 <? bvalue s2);
     bvalue := u64 (bvalue s1 + bvalue s2) |}.

Definition bsize_max (s1 s2 : bsize_t) : bsize_t :=
  {| is_overflow := is_overflow s1 || is_overflow s2;
     bvalue := u64 (Z.b2z (bvalue s2 <? bvalue s1) * bvalue s1 +
                    Z.b2z (bvalue s1 <=? bvalue s2) * bvalue s2) |}.

Definition bsize_mul (s1 s2 : bsize_t) : bsize_t :=
  {| is_overflow := is_overflow s1 || is_overflow s2 ||
       (negb (bvalue s1 =? 0) && (SIZE_MAX / bvalue s1 <? bvalue s2));
     bvalue := u64 (bvalue s1 * bvalue s2) |}.

(** ** Object representation *)

Lemma length_le_bytes n x : length (le_bytes n x) = n.
Proof. revert x. induction n; intros; simpl; [done | by rewrite IHn]. Qed.

Lemma zlen_le_bytes n x : zlen (le_bytes n x) = Z.of_nat n.
Proof. unfold zlen. by rewrite length_le_bytes. Qed.

#[export] Hint Rewrite length_le_bytes zlen_le_bytes : c_len.

Lemma wf_le_bytes n x : wf_bytes (le_bytes n x).
Proof.
  revert x. induction n; intros; simpl; constructor; [apply u8_range | apply IHn].
Qed.

#[export] Hint Resolve wf_le_bytes : c_wf.

Lemma le_val_le_bytes n x : le_val (le_bytes n x) = x mod 256 ^ Z.of_nat n.
Proof.
  revert x. induction n as [| n IH]; intros; [by rewrite Z.mod_1_r |].
  cbn [le_bytes le_val]. rewrite IH, Nat2Z.inj_succ, Z.pow_succ_r by lia.
  rewrite Z.rem_mul_r by lia. unfold u8. change (2 ^ 8) with 256. lia.
Qed.

Lemma le_val_bound l : wf_bytes l → 0 ≤ le_val l < 256 ^ zlen l.
Proof.
  induction 1 as [| b l Hb Hl IH]; [split; [done | by compute] |]. unfold is_byte in Hb. cbn [le_val].
  rewrite zlen_cons, Z.pow_add_r, Z.pow_1_r by (pose proof (zlen_nonneg l); lia). lia.
Qed.

Lemma le_bytes_le_val l : wf_bytes l → le_bytes (length l) (le_val l) = l.
Proof.
  induction 1 as [| b l Hb Hl IH]; [done |]. unfold is_byte in Hb.
  cbn [length le_bytes le_val]. f_equal.
  - unfold u8. rewrite (Z.mul_comm 256), Z.mod_add by lia. by apply Z.mod_small.
  - rewrite (Z.mul_comm 256), Z.div_add by lia. by rewrite (Z.div_small b), Z.add_0_l by lia.
Qed.

Lemma le_val_le_bytes_small n x : 0 ≤ x < 256 ^ Z.of_nat n → le_val (le_bytes n x) = x.
Proof. intros. rewrite le_val_le_bytes. by apply Z.mod_small. Qed.

(** ** Byte order conversions *)

Lemma le_bytes_rev n x :
  le_bytes n (le_val (rev (le_bytes n x))) = rev (le_bytes n x).
Proof.
  transitivity (le_bytes (length (rev (le_bytes n x))) (le_val (rev (le_bytes n x)))).
  - by rewrite length_rev, length_le_bytes.
  - apply le_bytes_le_val. apply Forall_rev, wf_le_bytes.
Qed.

Lemma le_val_rev_rev n x :
  0 ≤ x < 256 ^ Z.of_nat n → le_val (rev (le_bytes n (le_val (rev (le_bytes n x))))) = x.
Proof. intros. rewrite le_bytes_rev, rev_involutive. by apply le_val_le_bytes_small. Qed.

Lemma hton16_rev x : hton16 x = le_val (rev (le_bytes 2 x)).
Proof. done. Qed.

Lemma hton32_rev x : hton32 x = le_val (rev (le_bytes 4 x)).
Proof. done. Qed.

Lemma hton64_rev x : hton64 x = le_val (rev (le_bytes 8 x)).
Proof. done. Qed.

Lemma le_bytes_hton16 x : le_bytes 2 (hton16 x) = rev (le_bytes 2 x).
Proof. rewrite hton16_rev. apply le_bytes_rev. Qed.

Lemma le_bytes_hton32 x : le_bytes 4 (hton32 x) = rev (le_bytes 4 x).
Proof. rewrite hton32_rev. apply le_bytes_rev. Qed.

Lemma le_bytes_hton64 x : le_bytes 8 (hton64 x) = rev (le_bytes 8 x).
Proof. rewrite hton64_rev. apply le_bytes_rev. Qed.

Lemma ntoh16_hton16 x : 0 ≤ x < 65536 → ntoh16 (hton16 x) = x.
Proof. apply (le_val_rev_rev 2). Qed.

Lemma hton16_range x : 0 ≤ hton16 x < 65536.
Proof. rewrite hton16_rev. apply (le_val_bound (rev (le_bytes 2 x))), Forall_rev, wf_le_bytes. Qed.

Lemma hton16_inj x y : 0 ≤ x < 65536 → 0 ≤ y < 65536 → hton16 x = hton16 y → x = y.
Proof. intros Hx Hy E. apply (f_equal ntoh16) in E. by rewrite !ntoh16_hton16 in E. Qed.

(** ** Bit-level readers and writers *)

Lemma lor_shiftl_add a b n : 0 ≤ n → 0 ≤ b < 2 ^ n → Z.lor (Z.shiftl a n) b = a * 2 ^ n + b.
Proof.
  intros Hn Hb. rewrite <- Z.shiftl_mul_pow2 by done.
  rewrite <- Z.lxor_lor, Z.add_nocarry_lxor; [done | |].
  all: apply Z.bits_inj'; intros k Hk; rewrite Z.land_spec, Z.bits_0.
  all: destruct (decide (k < n)).
  all: try (rewrite Z.shiftl_spec_low by lia; done).
  all: rewrite <- (Z.mod_small b (2 ^ n)), Z.mod_pow2_bits_high by lia; apply andb_false_r.
Qed.

Lemma byte_at_0 b l : byte_at (b :: l) 0 = b.
Proof. done. Qed.

Lemma byte_at_1 a b l : byte_at (a :: b :: l) 1 = b.
Proof. done. Qed.

Lemma read_be16_cons a b l : is_byte a → is_byte b → badvpn_read_be16 (a :: b :: l) = a * 256 + b.
Proof.
  unfold is_byte. intros. unfold badvpn_read_be16. rewrite byte_at_0, byte_at_1, Z.shiftl_0_r.
  by rewrite lor_shiftl_add by lia.
Qed.

Lemma read_be16_le_val a b l :
  is_byte a → is_byte b → badvpn_read_be16 (a :: b :: l) = le_val [b; a].
Proof. intros. rewrite read_be16_cons by done. simpl. lia. Qed.

Lemma read_be16_range l : wf_bytes l → 0 ≤ badvpn_read_be16 l < 65536.
Proof.
  intros H. unfold badvpn_read_be16. rewrite Z.shiftl_0_r.
  pose proof (byte_at_range l 0 H). pose proof (byte_at_range l 1 H). unfold is_byte in *.
  rewrite lor_shiftl_add by lia. lia.
Qed.

Lemma read_be16_hton16 x l :
  0 ≤ x < 65536 → badvpn_read_be16 (le_bytes 2 (hton16 x) ++ l) = x.
Proof.
  intros. rewrite le_bytes_hton16. cbn [le_bytes rev app].
  rewrite read_be16_le_val by apply u8_range. by apply (le_val_le_bytes_small 2).
Qed.

(** ** Rounding and checked sizes *)

Lemma le_val_range l n : wf_bytes l → zlen l ≤ n → 0 ≤ le_val l < 256 ^ n.
Proof.
  intros Hw Hl. pose proof (le_val_bound l Hw). pose proof (zlen_nonneg l).
  pose proof (Z.pow_le_mono_r 256 (zlen l) n). lia.
Qed.

Lemma le_val_1_small x : 0 ≤ x < 256 → le_val (le_bytes 1 x) = x.
Proof. intros. apply (le_val_le_bytes_small 1). lia. Qed.

Lemma le_val_2_small x : 0 ≤ x < 65536 → le_val (le_bytes 2 x) = x.
Proof. intros. apply (le_val_le_bytes_small 2). lia. Qed.

Lemma bsize_fromint_small v : 0 ≤ v ≤ INT_MAX → bsize_fromint v = bsize_fromsize v.
Proof.
  unfold INT_MAX. intros. unfold bsize_fromint, bsize_fromsize. rewrite u64_small by lia. f_equal.
  apply orb_false_iff. split; apply Z.ltb_ge; unfold SIZE_MAX; lia.
Qed.

Lemma bsize_add_small a b : 0 ≤ a → 0 ≤ b → a + b ≤ SIZE_MAX →
  bsize_add (bsize_fromsize a) (bsize_fromsize b) = bsize_fromsize (a + b).
Proof.
  unfold SIZE_MAX. intros. unfold bsize_add, bsize_fromsize. cbn [is_overflow bvalue orb]. rewrite u64_small by lia. f_equal.
  apply Z.ltb_ge. unfold SIZE_MAX. lia.
Qed.

Lemma bdivide_up_spec a b : 0 < b → 0 ≤ a → a ≤ bdivide_up a b * b < a + b.
Proof.
  intros. unfold bdivide_up. pose proof (Z.div_mod a b). pose proof (Z.mod_pos_bound a b).
  case_if; nia.
Qed.

Lemma bdivide_up_nonneg a b : 0 < b → 0 ≤ a → 0 ≤ bdivide_up a b.
Proof. intros. pose proof (bdivide_up_spec a b). nia. Qed.

Lemma bdivide_up_mono a a' b : 0 < b → 0 ≤ a ≤ a' → bdivide_up a b ≤ bdivide_up a' b.
Proof.
  intros. pose proof (bdivide_up_spec a b). pose proof (bdivide_up_spec a' b). nia.
Qed.

(** ** Properties *)

(** [hton16], [hton32] and [hton64] lay the value out with its most
    significant byte first, and the [ntoh] functions undo them. *)
Theorem byteorder_roundtrip :
  (∀ x, 0 ≤ x < 2 ^ 16 → le_bytes 2 (hton16 x) = rev (le_bytes 2 x) ∧ ntoh16 (hton16 x) = x) ∧
  (∀ x, 0 ≤ x < 2 ^ 32 → le_bytes 4 (hton32 x) = rev (le_bytes 4 x) ∧ ntoh32 (hton32 x) = x) ∧
  (∀ x, 0 ≤ x < 2 ^ 64 → le_bytes 8 (hton64 x) = rev (le_bytes 8 x) ∧ ntoh64 (hton64 x) = x).
Proof.
  split; [| split]; intros x Hx.
  - split; [apply le_bytes_hton16 | by apply (le_val_rev_rev 2)].
  - split; [apply le_bytes_hton32 | by apply (le_val_rev_rev 4)].
  - split; [apply le_bytes_hton64 | by apply (le_val_rev_rev 8)].
Qed.

Lemma byteorder_roundtrip_witness :
  le_bytes 2 (hton16 0x1234) = [0x12; 0x34] ∧ ntoh64 (hton64 0x0102030405060708) = 0x0102030405060708.
Proof.
  split; [reflexivity |].
  apply (proj2 (proj2 byteorder_roundtrip)); lia.
Defined.
