(* ===== verification/IpProto.v ===== *)
(** * IPv4, IPv6 and UDP headers

    misc/ipv4_proto.h, misc/ipv6_proto.h and misc/udp_proto.h: the packed
    headers with their memory layout, the Internet checksum and the parsers.
    Multi-byte fields hold the value the host reads from memory, that is the
    network value byte-swapped. A parser takes exactly the [data_len] bytes it
    may read and returns [None] where the source returns 0. *)
From S2P Require Import Prelude ByteOrder.

Definition IPV4_PROTOCOL_UDP : Z := 17.
Definition IPV6_NEXT_UDP : Z := 17.

Record ipv4_header := mk_ipv4_header {
  version4_ihl4 : Z;
  ds : Z;
  total_length : Z;
  identification : Z;
  flags3_fragmentoffset13 : Z;
  ttl : Z;
  protocol : Z;
  ip_checksum : Z;
  source_address : Z;
  destination_address : Z
}.

#[export] Instance ipv4_header_eta : Eta ipv4_header := λ h,
  mk_ipv4_header (version4_ihl4 h) (ds h) (total_length h) (identification h)
    (flags3_fragmentoffset13 h) (ttl h) (protocol h) (ip_checksum h) (source_address h)
    (destination_address h).

Record ipv6_header := mk_ipv6_header {
  version4_tc4 : Z;
  tc4_fl4 : Z;
  fl : Z;
  payload_length : Z;
  next_header : Z;
  hop_limit : Z;
  source_address6 : bytes;
  destination_address6 : bytes
}.

Record udp_header := mk_udp_header {
  source_port : Z;
  dest_port : Z;
  udp_length : Z;
  udp_cksum : Z
}.

#[export] Instance udp_header_eta : Eta udp_header := λ h,
  mk_udp_header (source_port h) (dest_port h) (udp_length h) (udp_cksum h).

Definition sizeof_ipv4_header : Z := 20.
Definition sizeof_ipv6_header : Z := 40.
Definition sizeof_udp_header : Z := 8.

(** The packed structs in memory, and [memcpy] into one. *)
Definition ipv4_header_mem (h : ipv4_header) : bytes :=
  le_bytes 1 (version4_ihl4 h) ++ le_bytes 1 (ds h) ++ le_bytes 2 (total_length h) ++
  le_bytes 2 (identification h) ++ le_bytes 2 (flags3_fragmentoffset13 h) ++
  le_bytes 1 (ttl h) ++ le_bytes 1 (protocol h) ++ le_bytes 2 (ip_checksum h) ++
  le_bytes 4 (source_address h) ++ le_bytes 4 (destination_address h).

Definition ipv4_header_of (d : bytes) : ipv4_header :=
  mk_ipv4_header (le_val (mem_read d 0 1)) (le_val (mem_read d 1 1)) (le_val (mem_read d 2 2))
    (le_val (mem_read d 4 2)) (le_val (mem_read d 6 2)) (le_val (mem_read d 8 1))
    (le_val (mem_read d 9 1)) (le_val (mem_read d 10 2)) (le_val (mem_read d 12 4))
    (le_val (mem_read d 16 4)).

Definition ipv6_header_mem (h : ipv6_header) : bytes :=
  le_bytes 1 (version4_tc4 h) ++ le_bytes 1 (tc4_fl4 h) ++ le_bytes 2 (fl h) ++
  le_bytes 2 (payload_length h) ++ le_bytes 1 (next_header h) ++ le_bytes 1 (hop_limit h) ++
  source_address6 h ++ destination_address6 h.

Definition ipv6_header_of (d : bytes) : ipv6_header :=
  mk_ipv6_header (le_val (mem_read d 0 1)) (le_val (mem_read d 1 1)) (le_val (mem_read d 2 2))
    (le_val (mem_read d 4 2)) (le_val (mem_read d 6 1)) (le_val (mem_read d 7 1))
    (mem_read d 8 16) (mem_read d 24 16).

Definition udp_header_mem (h : udp_header) : bytes :=
  le_bytes 2 (source_port h) ++ le_bytes 2 (dest_port h) ++ le_bytes 2 (udp_length h) ++
  le_bytes 2 (udp_cksum h).

Definition udp_header_of (d : bytes) : udp_header :=
  mk_udp_header (le_val (mem_read d 0 2)) (le_val (mem_read d 2 2)) (le_val (mem_read d 4 2))
    (le_val (mem_read d 6 2)).

Definition IPV4_GET_VERSION (h : ipv4_header) : Z := Z.shiftr (Z.land (version4_ihl4 h) 0xF0) 4.
Definition IPV4_GET_IHL (h : ipv4_header) : Z := Z.shiftr (Z.land (version4_ihl4 h) 0x0F) 0.
Definition IPV4_MAKE_VERSION_IHL (size : Z) : Z := size / 4 + Z.shiftl 4 4.

(** ** The Internet checksum *)

(** [for (i = 0; i < n; i++) t += badvpn_read_be16(data + 2 * i)] *)
Fixpoint sum_be16 (n : nat) (data : bytes) (t : Z) : Z :=
  match n with
  | O => t
  | S n => sum_be16 n (zdrop 2 data) (u32 (t + badvpn_read_be16 data))
  end.

(** [while (t >> 16) t = (t & 0xFFFF) + (t >> 16)]; [fuel] bounds the iterations,
    by [fold16_cases] three are enough to leave the loop. *)
Fixpoint fold_loop (fuel : nat) (t : Z) : Z :=
  match fuel with
  | O => t
  | S fuel =>
      if negb (Z.shiftr t 16 =? 0)
      then fold_loop fuel (u32 (Z.land t 0xFFFF + Z.shiftr t 16))
      else t
  end.

Definition fold16 (t : Z) : Z := fold_loop 3 t.

Definition ipv4_checksum (header : ipv4_header) (extra : bytes) (extra_len : Z) : Z :=
  let t := sum_be16 (Z.to_nat (sizeof_ipv4_header / 2)) (ipv4_header_mem header) 0 in
  let t := sum_be16 (Z.to_nat (extra_len / 2)) extra t in
  let t := fold16 t in
  hton16 (u16 (u32 (Z.lnot t))).

Definition ipv4_check (data : bytes) : option (ipv4_header * bytes) :=
  let data_len := zlen data in
  if data_len <? sizeof_ipv4_header then None else
  let out_header := ipv4_header_of data in
  if negb (IPV4_GET_VERSION out_header =? 4) then None else
  let header_len := u16 (IPV4_GET_IHL out_header * 4) in
  if header_len <? sizeof_ipv4_header then None else
  if data_len <? header_len then None else
  let total_len := ntoh16 (total_length out_header) in
  if total_len <? header_len then None else
  if data_len <? total_len then None else
  let checksum_in_packet := ip_checksum out_header in
  let checksum_computed :=
    ipv4_checksum (out_header <| ip_checksum := hton16 0 |>) (zdrop sizeof_ipv4_header data)
      (header_len - sizeof_ipv4_header) in
  if negb (checksum_in_packet =? checksum_computed) then None else
  Some (out_header, mem_read data header_len (total_len - header_len)).

Definition ipv6_check (data : bytes) : option (ipv6_header * bytes) :=
  let data_len := zlen data in
  if data_len <? sizeof_ipv6_header then None else
  let out_header := ipv6_header_of data in
  if negb (Z.shiftr (ntoh8 (version4_tc4 out_header)) 4 =? 6) then None else
  let payload_len := ntoh16 (payload_length out_header) in
  if data_len - sizeof_ipv6_header <? payload_len then None else
  Some (out_header, mem_read data sizeof_ipv6_header payload_len).

Definition udp_checksum_summer (data : bytes) (len : Z) : Z :=
  sum_be16 (Z.to_nat (len / 2)) data 0.

(** The callers pass the payload and its length, which the [uint16_t]
    parameter truncates. *)
Definition udp_checksum (header : udp_header) (payload : bytes) (source_addr dest_addr : Z) : Z :=
  let payload_len := u16 (zlen payload) in
  let t := 0 in
  let t := u32 (t + udp_checksum_summer (le_bytes 4 source_addr) 4) in
  let t := u32 (t + udp_checksum_summer (le_bytes 4 dest_addr) 4) in
  let x := hton16 IPV4_PROTOCOL_UDP in
  let t := u32 (t + udp_checksum_summer (le_bytes 2 x) 2) in
  let x := hton16 (u16 (sizeof_udp_header + payload_len)) in
  let t := u32 (t + udp_checksum_summer (le_bytes 2 x) 2) in
  let t := u32 (t + udp_checksum_summer (udp_header_mem header) sizeof_udp_header) in
  let t :=
    if payload_len mod 2 =? 0 then
      u32 (t + udp_checksum_summer payload payload_len)
    else
      let t := u32 (t + udp_checksum_summer payload (payload_len - 1)) in
      let x := hton16 (u16 (Z.shiftl (byte_at payload (payload_len - 1)) 8)) in
      u32 (t + udp_checksum_summer (le_bytes 2 x) 2) in
  let t := fold16 t in
  let t := u32 (Z.lnot t) in
  let t := if t =? 0 then UINT16_MAX else t in
  hton16 (u16 t).

Definition udp_ip6_checksum (header : udp_header) (payload : bytes)
    (source_addr dest_addr : bytes) : Z :=
  let payload_len := u16 (zlen payload) in
  let t := 0 in
  let t := u32 (t + udp_checksum_summer source_addr 16) in
  let t := u32 (t + udp_checksum_summer dest_addr 16) in
  let x := hton32 (u32 (sizeof_udp_header + payload_len)) in
  let t := u32 (t + udp_checksum_summer (le_bytes 4 x) 4) in
  let x := hton32 IPV6_NEXT_UDP in
  let t := u32 (t + udp_checksum_summer (le_bytes 4 x) 4) in
  let t := u32 (t + udp_checksum_summer (udp_header_mem header) sizeof_udp_header) in
  let t :=
    if payload_len mod 2 =? 0 then
      u32 (t + udp_checksum_summer payload payload_len)
    else
      let t := u32 (t + udp_checksum_summer payload (payload_len - 1)) in
      let y := hton16 (u16 (Z.shiftl (byte_at payload (payload_len - 1)) 8)) in
      u32 (t + udp_checksum_summer (le_bytes 2 y) 2) in
  let t := fold16 t in
  let t := u32 (Z.lnot t) in
  let t := if t =? 0 then UINT16_MAX else t in
  hton16 (u16 t).

Definition udp_check (data : bytes) : option (udp_header * bytes) :=
  let data_len := zlen data in
  if data_len <? sizeof_udp_header then None else
  let out_header := udp_header_of data in
  let data := zdrop sizeof_udp_header data in
  let data_len := data_len - sizeof_udp_header in
  let udp_len := ntoh16 (udp_length out_header) in
  if udp_len <? sizeof_udp_header then None else
  if sizeof_udp_header + data_len <? udp_len then None else
  Some (out_header, ztake (udp_len - sizeof_udp_header) data).

(** ** Reference definitions *)

(** The big-endian 16-bit words of a byte string, an odd last byte padded with
    zero, and their plain sum (RFC 1071, before the end-around carry). *)
Fixpoint words_sum (l : bytes) : Z :=
  match l with
  | a :: b :: l => 256 * a + b + words_sum l
  | [a] => 256 * a
  | [] => 0
  end.

Definition ipv4_header_wf (h : ipv4_header) : Prop :=
  0 ≤ version4_ihl4 h < 256 ∧ 0 ≤ ds h < 256 ∧ 0 ≤ total_length h < 65536 ∧
  0 ≤ identification h < 65536 ∧ 0 ≤ flags3_fragmentoffset13 h < 65536 ∧ 0 ≤ ttl h < 256 ∧
  0 ≤ protocol h < 256 ∧ 0 ≤ ip_checksum h < 65536 ∧ 0 ≤ source_address h < 2 ^ 32 ∧
  0 ≤ destination_address h < 2 ^ 32.

Definition udp_header_wf (h : udp_header) : Prop :=
  0 ≤ source_port h < 65536 ∧ 0 ≤ dest_port h < 65536 ∧ 0 ≤ udp_length h < 65536 ∧
  0 ≤ udp_cksum h < 65536.

Definition ipv6_header_wf (h : ipv6_header) : Prop :=
  0 ≤ version4_tc4 h < 256 ∧ 0 ≤ tc4_fl4 h < 256 ∧ 0 ≤ fl h < 65536 ∧
  0 ≤ payload_length h < 65536 ∧ 0 ≤ next_header h < 256 ∧ 0 ≤ hop_limit h < 256 ∧
  zlen (source_address6 h) = 16 ∧ zlen (destination_address6 h) = 16.

(** The words a UDP checksum over IPv4 covers: pseudo header, header, payload. *)
Definition udp_covered (header : udp_header) (payload : bytes) (src dst : Z) : bytes :=
  le_bytes 4 src ++ le_bytes 4 dst ++ [0; IPV4_PROTOCOL_UDP] ++
  le_bytes 2 (hton16 (sizeof_udp_header + zlen payload)) ++ udp_header_mem header ++ payload.

(** ** Sums of words *)

Lemma list_pair_ind {A} (P : list A → Prop) :
  P [] → (∀ a, P [a]) → (∀ a b l, P l → P (a :: b :: l)) → ∀ l, P l.
Proof.
  intros H0 H1 H2. fix IH 1. intros [| a [| b l]]; [exact H0 | apply H1 | apply H2, IH].
Qed.

Lemma words_sum_app l k :
  zlen l mod 2 = 0 → words_sum (l ++ k) = words_sum l + words_sum k.
Proof.
  induction l as [| a | a b l IH] using list_pair_ind; intros Hl; [done | |].
  - done.
  - rewrite !zlen_cons in Hl. cbn [app words_sum]. rewrite IH; [lia |].
    replace (1 + (1 + zlen l)) with (zlen l + 1 * 2) in Hl by lia. by rewrite Z.mod_add in Hl by lia.
Qed.

Lemma words_sum_bound l : wf_bytes l → 0 ≤ 2 * words_sum l ≤ 65535 * (zlen l + 1).
Proof.
  induction l as [| a | a b l IH] using list_pair_ind; intros Hl.
  - unfold zlen. simpl. lia.
  - apply Forall_cons_1 in Hl as [Ha _]. unfold is_byte in Ha. unfold zlen. simpl. lia.
  - apply Forall_cons_1 in Hl as [Ha Hl]. apply Forall_cons_1 in Hl as [Hb Hl].
    unfold is_byte in *. rewrite !zlen_cons. cbn [words_sum]. specialize (IH Hl). lia.
Qed.

Lemma words_sum_ztake_even l n : 0 ≤ n → words_sum (ztake (2 * n) l) + words_sum (zdrop (2 * n) l) = words_sum l.
Proof.
  intros. destruct (decide (2 * n ≤ zlen l)).
  - rewrite <- (ztake_zdrop (2 * n) l) at 3. rewrite words_sum_app; [done |].
    rewrite zlen_ztake. replace (Z.min _ _) with (n * 2) by lia. apply Z.mod_mul. lia.
  - rewrite ztake_ge, zdrop_ge by lia. simpl. lia.
Qed.

Lemma sum_be16_spec n data t :
  wf_bytes data → 2 * Z.of_nat n ≤ zlen data → 0 ≤ t → t + 65535 * Z.of_nat n < 2 ^ 32 →
  sum_be16 n data t = t + words_sum (ztake (2 * Z.of_nat n) data).
Proof.
  revert data t. induction n as [| n IH]; intros data t Hwf Hlen Ht Hmax.
  { rewrite ztake_le0 by lia. simpl. lia. }
  destruct data as [| a [| b l]]; [by rewrite zlen_nil in Hlen; lia | by rewrite zlen_cons, zlen_nil in Hlen; lia |].
  apply Forall_cons_1 in Hwf as [Ha Hl]. apply Forall_cons_1 in Hl as [Hb Hl].
  cbn [sum_be16]. rewrite read_be16_cons by done. rewrite !zlen_cons in Hlen.
  unfold is_byte in *. rewrite u32_small by lia. change (zdrop 2 (a :: b :: l)) with l.
  rewrite IH by (done || lia).
  unfold ztake. replace (Z.to_nat (2 * Z.of_nat (S n))) with (S (S (Z.to_nat (2 * Z.of_nat n)))) by lia.
  cbn [take words_sum]. lia.
Qed.

Lemma summer_spec data len :
  wf_bytes data → 0 ≤ len ≤ zlen data → len mod 2 = 0 → len < 65536 →
  udp_checksum_summer data len = words_sum (ztake len data).
Proof.
  intros. unfold udp_checksum_summer. assert (len = 2 * (len / 2)) by (pose proof (Z.div_mod len 2); lia).
  rewrite sum_be16_spec by (done || lia). rewrite Z2Nat.id, Z.add_0_l by lia.
  by replace (2 * (len / 2)) with len by lia.
Qed.

(** ** The end-around carry *)

Lemma land_ffff t : Z.land t 0xFFFF = t mod 65536.
Proof. change 0xFFFF with (Z.ones 16). by rewrite Z.land_ones by lia. Qed.

Lemma shiftr_16 t : Z.shiftr t 16 = t / 65536.
Proof. by rewrite Z.shiftr_div_pow2 by lia. Qed.

Lemma fold_step t : 0 ≤ t < 2 ^ 32 →
  u32 (Z.land t 0xFFFF + Z.shiftr t 16) = t mod 65536 + t / 65536.
Proof.
  intros. rewrite land_ffff, shiftr_16. apply u32_small.
  pose proof (Z.div_mod t 65536). pose proof (Z.mod_pos_bound t 65536). lia.
Qed.

Lemma fold_loop_S n t : 0 ≤ t < 2 ^ 32 →
  fold_loop (S n) t = if decide (65536 ≤ t) then fold_loop n (t mod 65536 + t / 65536) else t.
Proof.
  intros. cbn [fold_loop]. rewrite fold_step by done. rewrite shiftr_16.
  pose proof (Z.div_mod t 65536). pose proof (Z.mod_pos_bound t 65536).
  case_decide; destruct (t / 65536 =? 0) eqn:E; b2p; simpl; (done || lia).
Qed.

Lemma fold16_cases t : 0 ≤ t < 2 ^ 32 →
  fold16 t = t ∧ t < 65536 ∨
  (let t1 := t mod 65536 + t / 65536 in
   65536 ≤ t ∧ (fold16 t = t1 ∧ t1 < 65536 ∨
   fold16 t = t1 mod 65536 + t1 / 65536 ∧ 65536 ≤ t1 ∧ t1 mod 65536 + t1 / 65536 < 65536)).
Proof.
  intros Ht. unfold fold16. rewrite fold_loop_S by done. case_decide; [right | left; lia].
  set (t1 := t mod 65536 + t / 65536). split; [done |].
  assert (0 ≤ t1 < 2 * 65536 - 1) by (unfold t1; pose proof (Z.div_mod t 65536); pose proof (Z.mod_pos_bound t 65536); lia).
  rewrite fold_loop_S by lia. case_decide; [right | left; lia].
  pose proof (Z.div_mod t1 65536). pose proof (Z.mod_pos_bound t1 65536).
  rewrite fold_loop_S by lia. rewrite decide_False by lia. lia.
Qed.

Lemma fold16_spec t : 0 ≤ t < 2 ^ 32 →
  0 ≤ fold16 t < 65536 ∧ (∃ k, t = fold16 t + 65535 * k) ∧ (0 < t → 0 < fold16 t).
Proof.
  intros Ht. destruct (fold16_cases t Ht) as [[-> ?] | (H1 & [[-> ?] | (-> & H2 & H3)])].
  - split; [lia |]. split; [exists 0; lia | lia].
  - pose proof (Z.div_mod t 65536). pose proof (Z.mod_pos_bound t 65536).
    split; [lia |]. split; [exists (t / 65536); lia | lia].
  - set (t1 := t mod 65536 + t / 65536) in *.
    pose proof (Z.div_mod t 65536). pose proof (Z.mod_pos_bound t 65536).
    pose proof (Z.div_mod t1 65536). pose proof (Z.mod_pos_bound t1 65536).
    split; [lia |]. split; [exists (t / 65536 + t1 / 65536); lia | lia].
Qed.

Lemma fold16_full t : 0 < t < 2 ^ 32 → t mod 65535 = 0 → fold16 t = 65535.
Proof.
  intros Ht Hm. destruct (fold16_spec t) as (Hb & [k Hk] & Hp); [lia |].
  specialize (Hp ltac:(lia)). pose proof (Z.div_mod t 65535). nia.
Qed.

Lemma lnot_u16 f : 0 ≤ f < 65536 → u16 (u32 (Z.lnot f)) = 65535 - f.
Proof.
  intros. unfold Z.lnot, u16, u32. rewrite <- Z.sub_1_r.
  replace (- f - 1) with (2 ^ 32 - 1 - f + (-1) * 2 ^ 32) by lia.
  rewrite Z.mod_add, (Z.mod_small (2 ^ 32 - 1 - f)) by lia.
  replace (2 ^ 32 - 1 - f) with (65535 - f + 65535 * 2 ^ 16) by lia.
  rewrite Z.mod_add by lia. apply Z.mod_small. lia.
Qed.

(** Adding the complement of the folded sum yields the all-ones sum a receiver
    expects. *)
Lemma fold16_verifies t : 0 ≤ t → t + 65535 < 2 ^ 32 → fold16 (t + (65535 - fold16 t)) = 65535.
Proof.
  intros. destruct (fold16_spec t) as (Hb & [k Hk] & Hp); [lia |].
  apply fold16_full.
  - destruct (decide (t = 0)) as [-> |]; [by vm_compute | lia].
  - replace (t + (65535 - fold16 t)) with ((k + 1) * 65535) by lia. apply Z.mod_mul. lia.
Qed.

(** ** Memory layout of the headers *)

Lemma zlen_ipv4_header_mem h : zlen (ipv4_header_mem h) = 20.
Proof. done. Qed.

Lemma zlen_udp_header_mem h : zlen (udp_header_mem h) = 8.
Proof. done. Qed.

#[export] Hint Rewrite zlen_ipv4_header_mem zlen_udp_header_mem : c_len.

Lemma wf_ipv4_header_mem h : wf_bytes (ipv4_header_mem h).
Proof. unfold ipv4_header_mem. rewrite !wf_bytes_app. repeat split; apply wf_le_bytes. Qed.

Lemma wf_udp_header_mem h : wf_bytes (udp_header_mem h).
Proof. unfold udp_header_mem. rewrite !wf_bytes_app. repeat split; apply wf_le_bytes. Qed.

#[export] Hint Resolve wf_ipv4_header_mem wf_udp_header_mem : c_wf.

Lemma ipv4_header_of_mem h rest : ipv4_header_wf h → ipv4_header_of (ipv4_header_mem h ++ rest) = h.
Proof.
  intros (? & ? & ? & ? & ? & ? & ? & ? & ? & ?). destruct h; simpl in *.
  unfold ipv4_header_of. f_equal.
  1,2,6,7: by apply (le_val_le_bytes_small 1).
  1-4: by apply (le_val_le_bytes_small 2).
  all: by apply (le_val_le_bytes_small 4).
Qed.

Lemma udp_header_of_mem h rest : udp_header_wf h → udp_header_of (udp_header_mem h ++ rest) = h.
Proof.
  intros (? & ? & ? & ?). destruct h; simpl in *.
  unfold udp_header_of. f_equal; by apply (le_val_le_bytes_small 2).
Qed.

Lemma zlen_ipv6_header_mem h : ipv6_header_wf h → zlen (ipv6_header_mem h) = 40.
Proof.
  intros (_ & _ & _ & _ & _ & _ & ? & ?). unfold ipv6_header_mem. autorewrite with c_len. lia.
Qed.

Lemma ipv6_header_of_mem h rest : ipv6_header_wf h → ipv6_header_of (ipv6_header_mem h ++ rest) = h.
Proof.
  intros (? & ? & ? & ? & ? & ? & Hs & Hd). destruct h as [v tc f pl nh hl src dst]; simpl in *.
  unfold ipv6_header_of. f_equal.
  1,2,5,6: by apply (le_val_le_bytes_small 1).
  1,2: by apply (le_val_le_bytes_small 2).
  - unfold ipv6_header_mem; simpl. rewrite <- app_assoc. by apply ztake_app_exact.
  - unfold ipv6_header_mem; simpl. rewrite <- app_assoc.
    transitivity (mem_read (src ++ dst ++ rest) 16 16); [done |].
    unfold mem_read. rewrite zdrop_app_exact by done. by apply ztake_app_exact.
Qed.

(** ** Checksums *)

Lemma ipv4_checksum_sum h extra n :
  wf_bytes extra → n mod 2 = 0 → 0 ≤ n ≤ zlen extra → n < 256 →
  ipv4_checksum h extra n =
    hton16 (65535 - fold16 (words_sum (ipv4_header_mem h ++ ztake n extra))).
Proof.
  intros. unfold ipv4_checksum. assert (n = 2 * (n / 2)) by (pose proof (Z.div_mod n 2); lia).
  pose proof (words_sum_bound _ (wf_ipv4_header_mem h)) as Hb. rewrite zlen_ipv4_header_mem in Hb.
  assert (Hs : sum_be16 (Z.to_nat (sizeof_ipv4_header / 2)) (ipv4_header_mem h) 0 =
               words_sum (ipv4_header_mem h)).
  { rewrite sum_be16_spec; [| apply wf_ipv4_header_mem | done | done | done].
    by rewrite ztake_ge by done. }
  rewrite Hs, sum_be16_spec by (done || lia).
  rewrite words_sum_app by done.
  replace (2 * Z.of_nat (Z.to_nat (n / 2))) with n by lia.
  rewrite lnot_u16; [done |].
  pose proof (words_sum_bound (ztake n extra) ltac:(auto with c_wf)) as Hx.
  rewrite zlen_ztake in Hx. apply fold16_spec. lia.
Qed.

Lemma words_sum_hton16 x : 0 ≤ x < 65536 → words_sum (le_bytes 2 (hton16 x)) = x.
Proof.
  intros. rewrite le_bytes_hton16. cbn [le_bytes rev app words_sum].
  pose proof (le_val_le_bytes_small 2 x ltac:(lia)) as E. cbn [le_bytes le_val] in E. lia.
Qed.

(** Storing a big-endian word where a zero word was adds that word. *)
Lemma words_sum_patch l1 l2 x :
  zlen l1 mod 2 = 0 → 0 ≤ x < 65536 →
  words_sum (l1 ++ le_bytes 2 (hton16 x) ++ l2) = words_sum (l1 ++ le_bytes 2 0 ++ l2) + x.
Proof.
  intros. rewrite !words_sum_app by (done || by rewrite zlen_le_bytes).
  rewrite words_sum_hton16 by done. change (words_sum (le_bytes 2 0)) with 0. lia.
Qed.

Lemma ipv4_header_mem_patch h x extra :
  0 ≤ x < 65536 → ip_checksum h = 0 →
  words_sum (ipv4_header_mem (h <| ip_checksum := hton16 x |>) ++ extra) =
  words_sum (ipv4_header_mem h ++ extra) + x.
Proof.
  intros Hx H0. destruct h as [v d tl id ff tt pr ck sa da]; simpl in *; subst.
  pose proof (words_sum_hton16 x Hx) as E. simpl in E.
  change (u8 0) with 0. change (u8 (0 / 256)) with 0. lia.
Qed.

Lemma udp_header_mem_patch h x pre post :
  0 ≤ x < 65536 → zlen pre mod 2 = 0 → udp_cksum h = 0 →
  words_sum (pre ++ udp_header_mem (h <| udp_cksum := hton16 x |>) ++ post) =
  words_sum (pre ++ udp_header_mem h ++ post) + x.
Proof.
  intros Hx He H0. destruct h as [sp dp ln ck]; simpl in *; subst.
  rewrite !(words_sum_app pre) by done.
  pose proof (words_sum_patch (le_bytes 2 sp ++ le_bytes 2 dp ++ le_bytes 2 ln) post x eq_refl Hx) as E.
  cbn [udp_header_mem source_port dest_port udp_length udp_cksum le_bytes app] in *. rewrite E. lia.
Qed.

(** The checksum [ipv4_checksum] puts in a header is the one the Internet
    checksum asks for: the folded sum of all header words, options and checksum
    included, is 0xFFFF, whatever the other fields hold. *)
Theorem ipv4_checksum_valid h extra :
  ip_checksum h = 0 → wf_bytes extra → zlen extra mod 2 = 0 → zlen extra ≤ 40 →
  let h' := h <| ip_checksum := ipv4_checksum h extra (zlen extra) |> in
  fold16 (words_sum (ipv4_header_mem h' ++ extra)) = 65535.
Proof.
  intros H0 Hwf He Hl. cbv zeta. pose proof (zlen_nonneg extra).
  rewrite ipv4_checksum_sum by (done || lia). rewrite ztake_ge by lia.
  pose proof (words_sum_bound (ipv4_header_mem h ++ extra)) as Hb.
  rewrite wf_bytes_app in Hb. specialize (Hb (conj (wf_ipv4_header_mem h) Hwf)).
  rewrite zlen_app, zlen_ipv4_header_mem in Hb.
  destruct (fold16_spec (words_sum (ipv4_header_mem h ++ extra))) as (Hf & _ & _); [lia |].
  rewrite ipv4_header_mem_patch by (done || lia). apply fold16_verifies; lia.
Qed.

Lemma ipv4_checksum_valid_witness :
  let h := mk_ipv4_header 0x45 0 (hton16 84) 0 (hton16 0x4000) 64 17 0 0x0100A8C0 0x0200A8C0 in
  fold16 (words_sum (ipv4_header_mem (h <| ip_checksum := ipv4_checksum h [] 0 |>) ++ [])) = 65535.
Proof. intros h. apply (ipv4_checksum_valid h []); [done | constructor | done | done]. Defined.

Lemma summer_hton16 x : 0 ≤ x < 65536 → udp_checksum_summer (le_bytes 2 (hton16 x)) 2 = x.
Proof.
  intros. rewrite summer_spec; [| apply wf_le_bytes | done | done | done].
  rewrite ztake_ge by done. by apply words_sum_hton16.
Qed.

Lemma summer_all l n : wf_bytes l → n = zlen l → n mod 2 = 0 → n < 65536 →
  udp_checksum_summer l n = words_sum l.
Proof.
  intros ? -> ? ?. pose proof (zlen_nonneg l). rewrite summer_spec by (done || lia). by rewrite ztake_ge by lia.
Qed.

Lemma words_sum_range l n :
  wf_bytes l → zlen l ≤ n → 0 ≤ words_sum l ∧ 2 * words_sum l ≤ 65535 * (n + 1).
Proof. intros Hw Hn. pose proof (words_sum_bound l Hw). lia. Qed.

Lemma last_byte l : 0 < zlen l → zdrop (zlen l - 1) l = [byte_at l (zlen l - 1)].
Proof.
  intros H. assert (∃ b, l !! Z.to_nat (zlen l - 1) = Some b) as [b Hb].
  { apply lookup_lt_is_Some. unfold zlen in *. lia. }
  unfold byte_at. rewrite Hb. simpl. unfold zdrop.
  rewrite (drop_S _ _ _ Hb). rewrite drop_ge; [done |]. unfold zlen in *. lia.
Qed.

(** The two branches of the payload loop add the words of the payload, the last
    one zero-padded. *)
Lemma payload_sum t payload :
  wf_bytes payload → zlen payload < 65536 → 0 ≤ t → t ≤ 2 ^ 31 →
  (if zlen payload mod 2 =? 0 then
     u32 (t + udp_checksum_summer payload (zlen payload))
   else
     u32 (u32 (t + udp_checksum_summer payload (zlen payload - 1)) +
       udp_checksum_summer
         (le_bytes 2 (hton16 (u16 (Z.shiftl (byte_at payload (zlen payload - 1)) 8)))) 2)) =
  t + words_sum payload.
Proof.
  intros Hw Hl Ht Hm. pose proof (zlen_nonneg payload).
  pose proof (words_sum_range payload 65535 Hw ltac:(lia)) as Hr. case_if.
  { rewrite summer_all by done. apply u32_small. lia. }
  assert (0 < zlen payload) by (destruct (decide (zlen payload = 0)) as [E0 |]; [by rewrite E0 in E | lia]).
  set (k := zlen payload - 1) in *.
  assert (Hk : k mod 2 = 0) by (unfold k; pose proof (Z.div_mod (zlen payload) 2); pose proof (Z.mod_pos_bound (zlen payload) 2); apply Z.mod_divide; [lia | exists (zlen payload / 2); lia]).
  pose proof (byte_at_range payload k Hw) as Hb. unfold is_byte in Hb.
  rewrite summer_spec by (done || lia).
  assert (Hs : words_sum payload = words_sum (ztake k payload) + 256 * byte_at payload k).
  { rewrite <- (ztake_zdrop k payload) at 1.
    rewrite words_sum_app by (rewrite zlen_ztake; replace (Z.min _ _) with k by lia; done).
    by replace (zdrop k payload) with [byte_at payload k] by (symmetry; by apply last_byte). }
  rewrite Z.shiftl_mul_pow2 by lia. change (2 ^ 8) with 256. rewrite (u16_small (_ * 256)) by lia.
  rewrite summer_hton16 by lia.
  pose proof (words_sum_range (ztake k payload) 65535 ltac:(auto with c_wf) ltac:(rewrite zlen_ztake; lia)).
  rewrite (u32_small (t + words_sum (ztake k payload))), u32_small by lia. lia.
Qed.

Lemma complement_checksum f : 0 ≤ f < 65536 →
  hton16 (u16 (if u32 (Z.lnot f) =? 0 then UINT16_MAX else u32 (Z.lnot f))) = hton16 (65535 - f).
Proof.
  intros. assert (u32 (Z.lnot f) = 2 ^ 32 - 1 - f) as E.
  { unfold Z.lnot, u32. rewrite <- Z.sub_1_r. replace (- f - 1) with (2 ^ 32 - 1 - f + (-1) * 2 ^ 32) by lia.
    rewrite Z.mod_add by lia. apply Z.mod_small. lia. }
  destruct (u32 (Z.lnot f) =? 0) eqn:E0; b2p; [lia |]. by rewrite lnot_u16.
Qed.

Lemma udp_checksum_sum h payload src dst :
  wf_bytes payload → zlen payload ≤ 65527 →
  udp_checksum h payload src dst = hton16 (65535 - fold16 (words_sum (udp_covered h payload src dst))).
Proof.
  intros Hw Hl. pose proof (zlen_nonneg payload). unfold udp_checksum. cbv zeta.
  rewrite (u16_small (zlen payload)) by lia.
  rewrite (summer_all (le_bytes 4 src)), (summer_all (le_bytes 4 dst)) by (apply wf_le_bytes || done).
  rewrite (summer_hton16 IPV4_PROTOCOL_UDP) by done.
  rewrite (u16_small (sizeof_udp_header + zlen payload)), summer_hton16 by (unfold sizeof_udp_header; lia).
  rewrite (summer_all (udp_header_mem h)) by (apply wf_udp_header_mem || done).
  pose proof (words_sum_range (le_bytes 4 src) 4 (wf_le_bytes _ _) ltac:(done)).
  pose proof (words_sum_range (le_bytes 4 dst) 4 (wf_le_bytes _ _) ltac:(done)).
  pose proof (words_sum_range (udp_header_mem h) 8 (wf_udp_header_mem _) ltac:(done)).
  unfold IPV4_PROTOCOL_UDP, sizeof_udp_header in *.
  set (A := words_sum (le_bytes 4 src)) in *. set (B := words_sum (le_bytes 4 dst)) in *.
  set (H8 := words_sum (udp_header_mem h)) in *.
  rewrite (u32_small (0 + A)), (u32_small (0 + A + B)), (u32_small (0 + A + B + 17)),
    (u32_small (0 + A + B + 17 + (8 + zlen payload))),
    (u32_small (0 + A + B + 17 + (8 + zlen payload) + H8)) by lia.
  rewrite (payload_sum _ payload) by (done || lia).
  assert (Hc : words_sum (udp_covered h payload src dst) =
    0 + A + B + 17 + (8 + zlen payload) + H8 + words_sum payload).
  { unfold udp_covered, sizeof_udp_header, IPV4_PROTOCOL_UDP. rewrite !words_sum_app by done.
    rewrite words_sum_hton16 by lia. change (words_sum [0; 17]) with 17. lia. }
  rewrite Hc. apply complement_checksum.
  pose proof (words_sum_range payload 65535 Hw ltac:(lia)). apply fold16_spec. lia.
Qed.

Lemma wf_udp_covered h payload src dst : wf_bytes payload → wf_bytes (udp_covered h payload src dst).
Proof.
  intros Hp. unfold udp_covered. rewrite !wf_bytes_app.
  assert (wf_bytes [0; IPV4_PROTOCOL_UDP]) by (repeat (apply Forall_cons_2 || apply Forall_nil_2); by compute).
  by eauto 10 using wf_le_bytes, wf_udp_header_mem.
Qed.

(** The checksum [udp_checksum] returns verifies: over the pseudo header,
    the UDP header with that checksum stored and the payload, the folded sum is
    0xFFFF, for every payload a UDP datagram can carry (odd lengths too). *)
Theorem udp_checksum_valid h payload src dst :
  udp_cksum h = 0 → wf_bytes payload → zlen payload ≤ 65527 →
  let h' := h <| udp_cksum := udp_checksum h payload src dst |> in
  fold16 (words_sum (udp_covered h' payload src dst)) = 65535.
Proof.
  intros H0 Hw Hl. cbv zeta. pose proof (zlen_nonneg payload).
  rewrite udp_checksum_sum by done.
  pose proof (words_sum_range (udp_covered h payload src dst) 65547 (wf_udp_covered _ _ _ _ Hw)) as Hr.
  destruct Hr as [Hr1 Hr2].
  { unfold udp_covered. autorewrite with c_len. lia. }
  destruct (fold16_spec (words_sum (udp_covered h payload src dst))) as (Hf & _ & _); [lia |].
  set (x := 65535 - fold16 _) in *.
  replace (words_sum (udp_covered (h <| udp_cksum := hton16 x |>) payload src dst))
    with (words_sum (udp_covered h payload src dst) + x).
  - apply fold16_verifies; lia.
  - unfold udp_covered at 2. rewrite !app_assoc. rewrite <- (app_assoc _ _ payload).
    rewrite udp_header_mem_patch by (done || lia). unfold udp_covered. by rewrite !app_assoc, <- (app_assoc _ _ payload).
Qed.

Lemma udp_checksum_valid_witness :
  let h := mk_udp_header (hton16 53) (hton16 4000) (hton16 11) 0 in
  fold16 (words_sum (udp_covered (h <| udp_cksum := udp_checksum h [1; 2; 3] 5 6 |>) [1; 2; 3] 5 6)) = 65535.
Proof. intros h. apply udp_checksum_valid; [done | | done]. repeat constructor; by compute. Defined.

(** Where the folded sum is 0xFFFF the checksum comes out as 0, the value
    that means "no checksum"; the test for a zero [t] never fires because [t] is
    32 bits wide when it is complemented. *)
Theorem udp_checksum_zero h payload src dst :
  wf_bytes payload → zlen payload ≤ 65527 →
  fold16 (words_sum (udp_covered h payload src dst)) = 65535 →
  udp_checksum h payload src dst = 0.
Proof. intros Hw Hl E. rewrite udp_checksum_sum, E by done. done. Qed.

Lemma udp_checksum_zero_witness :
  udp_checksum (mk_udp_header 0 0 (hton16 10) 0) (le_bytes 2 (hton16 65498)) 0 0 = 0.
Proof. apply udp_checksum_zero; [apply wf_le_bytes | done | reflexivity]. Defined.

(** ** The parsers *)

Lemma mem_read_split d a n b k :
  b = a + n → 0 ≤ a → 0 ≤ n → 0 ≤ k → mem_read d a n ++ mem_read d b k = mem_read d a (n + k).
Proof.
  intros -> ? ? ?. unfold mem_read. rewrite <- (zdrop_zdrop n a) by lia.
  rewrite <- (ztake_zdrop n (ztake (n + k) (zdrop a d))).
  rewrite ztake_ztake, zdrop_ztake by lia. f_equal; f_equal; lia.
Qed.

Lemma le_bytes_mem_read d a n k :
  k = Z.of_nat n → wf_bytes d → 0 ≤ a → a + k ≤ zlen d →
  le_bytes n (le_val (mem_read d a k)) = mem_read d a k.
Proof.
  intros -> Hw Ha Hn. pose proof (zlen_mem_read d a (Z.of_nat n) ltac:(lia) ltac:(lia) ltac:(lia)) as E.
  pose proof (le_bytes_le_val (mem_read d a (Z.of_nat n)) ltac:(auto with c_wf)) as E2.
  unfold zlen in E. by replace (length (mem_read d a (Z.of_nat n))) with n in E2 by lia.
Qed.

Lemma ipv4_header_mem_of d :
  wf_bytes d → 20 ≤ zlen d → ipv4_header_mem (ipv4_header_of d) = ztake 20 d.
Proof.
  intros Hw Hl. unfold ipv4_header_mem, ipv4_header_of.
  cbn [version4_ihl4 ds total_length identification flags3_fragmentoffset13
    ttl protocol ip_checksum source_address destination_address].
  rewrite (le_bytes_mem_read d 0 1 1), (le_bytes_mem_read d 1 1 1), (le_bytes_mem_read d 2 2 2),
    (le_bytes_mem_read d 4 2 2), (le_bytes_mem_read d 6 2 2), (le_bytes_mem_read d 8 1 1),
    (le_bytes_mem_read d 9 1 1), (le_bytes_mem_read d 10 2 2), (le_bytes_mem_read d 12 4 4),
    (le_bytes_mem_read d 16 4 4) by (done || lia).
  rewrite (mem_read_split d 12 4), (mem_read_split d 10 2), (mem_read_split d 9 1),
    (mem_read_split d 8 1), (mem_read_split d 6 2), (mem_read_split d 4 2), (mem_read_split d 2 2),
    (mem_read_split d 1 1), (mem_read_split d 0 1) by lia.
  done.
Qed.

Lemma ihl_range h : 0 ≤ IPV4_GET_IHL h < 16.
Proof.
  unfold IPV4_GET_IHL. rewrite Z.shiftr_0_r. change 0x0F with (Z.ones 4).
  rewrite Z.land_ones by lia. apply Z.mod_pos_bound. lia.
Qed.

(** A packet [ipv4_check] accepts has version 4, a header length of 20 to 60
    bytes inside a total length inside the data, and header words (options
    included) whose folded sum is 0xFFFF; the payload is exactly the bytes
    between header and total length. *)
Theorem ipv4_check_sound data h p :
  wf_bytes data → ipv4_check data = Some (h, p) →
  let hl := IPV4_GET_IHL h * 4 in
  let tl := ntoh16 (total_length h) in
  h = ipv4_header_of data ∧ IPV4_GET_VERSION h = 4 ∧ 20 ≤ hl ≤ 60 ∧ hl ≤ tl ≤ zlen data ∧
  p = mem_read data hl (tl - hl) ∧ zlen p = tl - hl ∧
  fold16 (words_sum (ztake hl data)) = 65535.
Proof.
  intros Hw Hc. cbv zeta. unfold ipv4_check, sizeof_ipv4_header in Hc.
  repeat (case_match; [discriminate |]; b2p). injection Hc as <- <-.
  set (h := ipv4_header_of data) in *. pose proof (ihl_range h) as Hi.
  rewrite (u16_small (IPV4_GET_IHL h * 4)) in * by lia. set (hl := IPV4_GET_IHL h * 4) in *.
  set (tl := ntoh16 (total_length h)) in *.
  split_and!; try (done || lia). { apply zlen_mem_read; lia. }
  assert (Hhl : (hl - 20) mod 2 = 0) by (unfold hl; apply Z.mod_divide; [lia | exists (IPV4_GET_IHL h * 2 - 10); lia]).
  set (opts := ztake (hl - 20) (zdrop 20 data)).
  assert (Hd : ztake hl data = ipv4_header_mem h ++ opts).
  { unfold h. rewrite ipv4_header_mem_of by (done || lia).
    pose proof (mem_read_split data 0 20 20 (hl - 20) ltac:(lia) ltac:(lia) ltac:(lia) ltac:(lia)) as E.
    unfold mem_read in E. rewrite zdrop_le0 in E by lia. unfold opts. rewrite E. f_equal. lia. }
  assert (Hlen : zlen opts = hl - 20) by (unfold opts; autorewrite with c_len; lia).
  set (h0 := h <| ip_checksum := hton16 0 |>) in *.
  rewrite ipv4_checksum_sum in * by (auto with c_wf; rewrite ?zlen_zdrop; lia).
  match goal with H : ip_checksum h = hton16 _ |- _ => rename H into Hck end.
  fold opts in Hck. set (S0 := words_sum (ipv4_header_mem h0 ++ opts)) in *.
  pose proof (words_sum_range (ipv4_header_mem h0 ++ opts) 60) as [Hr1 Hr2].
  { rewrite wf_bytes_app. split; [apply wf_ipv4_header_mem | unfold opts; auto with c_wf]. }
  { rewrite zlen_app, zlen_ipv4_header_mem. lia. }
  fold S0 in Hr1, Hr2. destruct (fold16_spec S0) as (Hf & _ & _); [lia |].
  assert (Hh : h = h0 <| ip_checksum := hton16 (65535 - fold16 S0) |>).
  { rewrite <- Hck. unfold h0. by destruct h. }
  rewrite Hd, Hh, ipv4_header_mem_patch by (done || lia). apply fold16_verifies; lia.
Qed.

Definition sample_ipv4 : ipv4_header :=
  mk_ipv4_header 0x45 0 (hton16 22) 0 0 64 17 0 0x0100A8C0 0x0200A8C0.

Lemma ipv4_check_sound_witness :
  let h := sample_ipv4 <| ip_checksum := ipv4_checksum sample_ipv4 [] 0 |> in
  ipv4_check (ipv4_header_mem h ++ [7; 9]) = Some (h, [7; 9]) ∧ zlen [7; 9] = 22 - 20.
Proof.
  intros h. split; [reflexivity |].
  assert (Hw : wf_bytes (ipv4_header_mem h ++ [7; 9])).
  { apply wf_bytes_app. split; [apply wf_ipv4_header_mem | repeat constructor; by compute]. }
  exact (proj1 (proj2 (proj2 (proj2 (proj2 (proj2 (ipv4_check_sound _ h [7; 9] Hw eq_refl))))))).
Defined.

Lemma sum_be16_0 data t : sum_be16 (Z.to_nat (0 / 2)) data t = t.
Proof. done. Qed.

Lemma ipv4_checksum_no_options h extra : ipv4_checksum h extra 0 = ipv4_checksum h [] 0.
Proof. unfold ipv4_checksum. by rewrite !sum_be16_0. Qed.

(** A packet assembled from a header without options, a payload and possibly
    stray bytes is accepted and split at the same place. *)
Lemma ipv4_check_build h p stray :
  ipv4_header_wf h → version4_ihl4 h = 0x45 → total_length h = hton16 (20 + zlen p) →
  20 + zlen p < 65536 → ip_checksum h = ipv4_checksum (h <| ip_checksum := 0 |>) [] 0 →
  ipv4_check (ipv4_header_mem h ++ p ++ stray) = Some (h, p).
Proof.
  intros Hwf Hv Htl Hmax Hck. pose proof (zlen_nonneg p). pose proof (zlen_nonneg stray).
  unfold ipv4_check. rewrite ipv4_header_of_mem by done.
  unfold IPV4_GET_VERSION, IPV4_GET_IHL, sizeof_ipv4_header. rewrite Hv.
  change (negb (Z.shiftr (Z.land 69 240) 4 =? 4)) with false.
  change (u16 (Z.shiftr (Z.land 69 15) 0 * 4)) with 20. rewrite Htl, ntoh16_hton16 by lia.
  autorewrite with c_len. change (hton16 0) with 0.
  change (20 - 20) with 0. rewrite ipv4_checksum_no_options.
  rewrite <- Hck, Z.eqb_refl. change (negb true) with false.
  repeat (case_if; [lia |]). do 2 f_equal.
  unfold mem_read. rewrite zdrop_app_exact by done. apply ztake_app_exact. lia.
Qed.

Lemma udp_check_build u p stray :
  udp_header_wf u → udp_length u = hton16 (8 + zlen p) → 8 + zlen p < 65536 →
  udp_check (udp_header_mem u ++ p ++ stray) = Some (u, p).
Proof.
  intros Hwf Hl Hmax. pose proof (zlen_nonneg p). pose proof (zlen_nonneg stray).
  unfold udp_check. rewrite udp_header_of_mem by done. unfold sizeof_udp_header.
  rewrite Hl, ntoh16_hton16 by lia. autorewrite with c_len.
  repeat (case_if; [lia |]). do 2 f_equal.
  rewrite zdrop_app_exact by done. apply ztake_app_exact. lia.
Qed.

Lemma ipv6_check_build h p stray :
  ipv6_header_wf h → version4_tc4 h = 0x60 → payload_length h = hton16 (zlen p) → zlen p < 65536 →
  ipv6_check (ipv6_header_mem h ++ p ++ stray) = Some (h, p).
Proof.
  intros Hwf Hv Hl Hmax. pose proof (zlen_nonneg p). pose proof (zlen_nonneg stray).
  pose proof (zlen_ipv6_header_mem h Hwf) as Hm.
  unfold ipv6_check. rewrite ipv6_header_of_mem by done. unfold sizeof_ipv6_header.
  rewrite Hv, Hl, ntoh16_hton16 by lia. autorewrite with c_len. rewrite Hm.
  change (negb (Z.shiftr (ntoh8 96) 4 =? 6)) with false.
  repeat (case_if; [lia |]). do 2 f_equal.
  unfold mem_read. rewrite zdrop_app_exact by done. by apply ztake_app_exact.
Qed.

Lemma udp_check_inv data u p :
  udp_check data = Some (u, p) →
  8 ≤ zlen data ∧ u = udp_header_of data ∧ 8 ≤ ntoh16 (udp_length u) ≤ zlen data ∧
  p = mem_read data 8 (ntoh16 (udp_length u) - 8).
Proof.
  unfold udp_check, sizeof_udp_header. intros H.
  repeat (case_match; [discriminate |]; b2p). injection H as <- <-. split_and!; (done || lia).
Qed.

Lemma ipv6_check_inv data h p :
  ipv6_check data = Some (h, p) →
  40 ≤ zlen data ∧ h = ipv6_header_of data ∧ ntoh16 (payload_length h) ≤ zlen data - 40 ∧
  p = mem_read data 40 (ntoh16 (payload_length h)).
Proof.
  unfold ipv6_check, sizeof_ipv6_header. intros H.
  repeat (case_match; [discriminate |]; b2p). injection H as <- <-. split_and!; (done || lia).
Qed.
