(* ===== verification/ChunkBuffer2.v ===== *)
(** * The circular packet buffer (structure/ChunkBuffer2.h)

    The block array is the byte string it occupies, 4 bytes per block: the
    length header of a packet is written through [blk_set], the packet data by
    the producer through [input_dest]. The [ASSERT]s, including the invariant
    and I/O checks of debug builds, make an operation undefined.

    The buffer implements a queue of byte strings: [rep b q] says that [b] holds
    the packets [q], oldest first. *)
From S2P Require Import Prelude ByteOrder.

Definition sizeof_block : Z := 4.

Record ChunkBuffer2 := mk_ChunkBuffer2 {
  buffer : bytes;
  size : Z;
  wrap : Z;
  start : Z;
  used : Z;
  mtu : Z;
  input_dest : option Z;
  input_avail : Z;
  output_dest : option Z;
  output_avail : Z
}.

#[export] Instance ChunkBuffer2_eta : Eta ChunkBuffer2 := λ b,
  mk_ChunkBuffer2 (buffer b) (size b) (wrap b) (start b) (used b) (mtu b) (input_dest b)
    (input_avail b) (output_dest b) (output_avail b).

(** [buffer[i].len] *)
Definition blk_get (m : bytes) (i : Z) : Z := s32 (le_val (mem_read m (i * sizeof_block) 4)).
Definition blk_set (m : bytes) (i len : Z) : bytes := mem_write m (i * sizeof_block) (le_bytes 4 len).

(** The address of block [i], as an offset into the array. *)
Definition blk_addr (i : Z) : Z := i * sizeof_block.

Definition ChunkBuffer2_end (b : ChunkBuffer2) : Z :=
  if wrap b - start b <=? used b then used b - (wrap b - start b) else start b + used b.

(** [bdivide_up (len, sizeof(struct ChunkBuffer2_block))] stored in an [int]. *)
Definition block_count (len : Z) : Z := s32 (bdivide_up len sizeof_block).

Definition ChunkBuffer2_assert_buffer (b : ChunkBuffer2) : bool :=
  (0 <? size b) && (0 <? wrap b) && (wrap b <=? size b) && (0 <=? start b) &&
  (start b <? wrap b) && (0 <=? used b) && (used b <=? wrap b) &&
  ((wrap b =? size b) || (wrap b - start b <=? used b)) && (0 <=? mtu b).

Definition ChunkBuffer2_assert_io (b : ChunkBuffer2) : bool :=
  let e := ChunkBuffer2_end b in
  (if size b - e - 1 <? mtu b then
     bool_decide (input_dest b = None) && (input_avail b =? -1)
   else
     let free := if wrap b - start b <=? used b then start b - e else size b - e in
     if 0 <? free then
       bool_decide (input_dest b = Some (blk_addr (e + 1))) &&
       (u64 (input_avail b) =? u64 ((free - 1) * sizeof_block))
     else
       bool_decide (input_dest b = None) && (input_avail b =? -1)) &&
  (if 0 <? used b then
     let datalen := blk_get (buffer b) (start b) in
     let blocklen := block_count datalen in
     (0 <=? datalen) && (blocklen <=? used b - 1) && (blocklen <=? wrap b - start b - 1) &&
     bool_decide (output_dest b = Some (blk_addr (start b + 1))) && (output_avail b =? datalen)
   else
     bool_decide (output_dest b = None) && (output_avail b =? -1)).

Definition ChunkBuffer2_update_input (b : ChunkBuffer2) : ChunkBuffer2 :=
  let e := ChunkBuffer2_end b in
  if size b - e - 1 <? mtu b then
    b <| input_dest := None |> <| input_avail := -1 |>
  else
    let free := if wrap b - start b <=? used b then start b - e else size b - e in
    if 0 <? free then
      b <| input_dest := Some (blk_addr (e + 1)) |> <| input_avail := s32 ((free - 1) * sizeof_block) |>
    else
      b <| input_dest := None |> <| input_avail := -1 |>.

Definition ChunkBuffer2_update_output (b : ChunkBuffer2) : option ChunkBuffer2 :=
  if 0 <? used b then
    let datalen := blk_get (buffer b) (start b) in
    ASSERT (0 <=? datalen);;
    let blocklen := block_count datalen in
    ASSERT (blocklen <=? used b - 1);;
    ASSERT (blocklen <=? wrap b - start b - 1);;
    Some (b <| output_dest := Some (blk_addr (start b + 1)) |> <| output_avail := datalen |>)
  else
    Some (b <| output_dest := None |> <| output_avail := -1 |>).

Definition ChunkBuffer2_calc_blocks (chunk_len num : Z) : Z :=
  let chunk_data_blocks := block_count chunk_len in
  if INT_MAX - 1 <? chunk_data_blocks then -1 else
  let chunk_blocks := 1 + chunk_data_blocks in
  if INT_MAX - 1 <? num then -1 else
  let num_chunks := num + 1 in
  if INT_MAX / num_chunks <? chunk_blocks then -1 else
  chunk_blocks * num_chunks.

Definition ChunkBuffer2_Init (array : bytes) (blocks mtu_bytes : Z) : option ChunkBuffer2 :=
  ASSERT (0 <? blocks);;
  ASSERT (0 <=? mtu_bytes);;
  let b := mk_ChunkBuffer2 array blocks blocks 0 0 (block_count mtu_bytes) None (-1) None (-1) in
  ASSERT (ChunkBuffer2_assert_buffer b);;
  b ← ChunkBuffer2_update_output (ChunkBuffer2_update_input b);
  ASSERT (ChunkBuffer2_assert_io b);;
  Some b.

(** The stores of [ChunkBuffer2_SubmitPacket]: header, [used] and [wrap]. *)
Definition submit_store (b : ChunkBuffer2) (e len blocklen : Z) : ChunkBuffer2 :=
  let b := b <| buffer := blk_set (buffer b) e len |> in
  let b := b <| used := used b + (1 + blocklen) |> in
  if (used b <=? wrap b - start b) && (size b - (e + 1 + blocklen) - 1 <? mtu b)
  then b <| wrap := e + 1 + blocklen |> else b.

Definition ChunkBuffer2_SubmitPacket (b : ChunkBuffer2) (len : Z) : option ChunkBuffer2 :=
  ASSERT (bool_decide (is_Some (input_dest b)));;
  ASSERT (0 <=? len);;
  ASSERT (len <=? input_avail b);;
  ASSERT (ChunkBuffer2_assert_buffer b);;
  ASSERT (ChunkBuffer2_assert_io b);;
  let e := ChunkBuffer2_end b in
  let blocklen := block_count len in
  ASSERT (blocklen <=? size b - e - 1);;
  ASSERT ((used b <? wrap b - start b) || (blocklen <=? start b - e - 1));;
  let b := submit_store b e len blocklen in
  ASSERT (ChunkBuffer2_assert_buffer b);;
  let b := ChunkBuffer2_update_input b in
  b ← (if used b =? 1 + blocklen then ChunkBuffer2_update_output b else Some b);
  ASSERT (ChunkBuffer2_assert_io b);;
  Some b.

(** The stores of [ChunkBuffer2_ConsumePacket]: [start], [used] and [wrap]. *)
Definition consume_store (b : ChunkBuffer2) (blocklen : Z) : ChunkBuffer2 :=
  let b := b <| start := start b + (1 + blocklen) |> in
  let b := b <| used := used b - (1 + blocklen) |> in
  if start b =? wrap b then b <| start := 0 |> <| wrap := size b |> else b.

Definition ChunkBuffer2_ConsumePacket (b : ChunkBuffer2) : option ChunkBuffer2 :=
  ASSERT (bool_decide (is_Some (output_dest b)));;
  ASSERT (ChunkBuffer2_assert_buffer b);;
  ASSERT (ChunkBuffer2_assert_io b);;
  ASSERT (1 <=? wrap b - start b);;
  ASSERT (1 <=? used b);;
  let blocklen := block_count (blk_get (buffer b) (start b)) in
  ASSERT (blocklen <=? wrap b - start b - 1);;
  ASSERT (blocklen <=? used b - 1);;
  let data_wrapped := wrap b - start b <=? used b in
  let b := consume_store b blocklen in
  ASSERT (ChunkBuffer2_assert_buffer b);;
  let b := if data_wrapped then ChunkBuffer2_update_input b else b in
  b ← ChunkBuffer2_update_output b;
  ASSERT (ChunkBuffer2_assert_io b);;
  Some b.

(** The producer stores [d] at [input_dest]; the consumer reads the
    [output_avail] bytes at [output_dest]. *)
Definition producer_write (b : ChunkBuffer2) (d : bytes) : ChunkBuffer2 :=
  match input_dest b with
  | Some off => b <| buffer := mem_write (buffer b) off d |>
  | None => b
  end.

Definition consumer_read (b : ChunkBuffer2) : option bytes :=
  match output_dest b with
  | Some off => Some (mem_read (buffer b) off (output_avail b))
  | None => None
  end.

(** ** Representation *)

(** Blocks a packet of [n] bytes takes, header included. *)
Definition packet_blocks (n : Z) : Z := 1 + bdivide_up n sizeof_block.

(** [laid m lim p q e]: the packets [q] lie back to back in blocks [p] to [e],
    each starting at block [lim] or before. *)
Inductive laid (m : bytes) (lim : Z) : Z → list bytes → Z → Prop :=
| laid_nil p : laid m lim p [] p
| laid_cons p d q e :
    0 ≤ p ≤ lim → blk_get m p = zlen d → mem_read m (blk_addr (p + 1)) (zlen d) = d →
    laid m lim (p + packet_blocks (zlen d)) q e → laid m lim p (d :: q) e.

(** What the input and output pointers have to be. *)
Definition in_spec (b : ChunkBuffer2) : option Z * Z :=
  let e := ChunkBuffer2_end b in
  let free := if wrap b - start b <=? used b then start b - e else size b - e in
  if (size b - e - 1 <? mtu b) || (free <=? 0) then (None, -1)
  else (Some (blk_addr (e + 1)), (free - 1) * sizeof_block).

Definition out_spec (b : ChunkBuffer2) : option Z * Z :=
  if 0 <? used b then (Some (blk_addr (start b + 1)), blk_get (buffer b) (start b)) else (None, -1).

Definition io_ok (b : ChunkBuffer2) : Prop :=
  (input_dest b, input_avail b) = in_spec b ∧ (output_dest b, output_avail b) = out_spec b.

(** The region in use is one piece that ends before [lim]. *)
Definition linear (b : ChunkBuffer2) (q : list bytes) : Prop :=
  let lim := size b - mtu b - 1 in
  wrap b = size b ∧ 0 ≤ start b ∧ 0 ≤ used b ∧ start b + used b ≤ lim ∧
  laid (buffer b) lim (start b) q (start b + used b).

(** The region in use is [start, wrap) followed by [0, e). *)
Definition wrapped (b : ChunkBuffer2) (q : list bytes) : Prop :=
  let lim := size b - mtu b - 1 in
  let e := used b - (wrap b - start b) in
  ∃ q1 q2, q = q1 ++ q2 ∧ 0 ≤ start b < wrap b ∧ 0 ≤ e ≤ start b ∧
    lim < wrap b ≤ size b ∧
    laid (buffer b) lim (start b) q1 (wrap b) ∧ laid (buffer b) lim 0 q2 e.

Definition shape (b : ChunkBuffer2) (q : list bytes) : Prop :=
  0 ≤ mtu b ≤ size b - 1 ∧ size b * sizeof_block ≤ INT_MAX ∧
  zlen (buffer b) = size b * sizeof_block ∧ (linear b q ∨ wrapped b q).

(** The buffer holds the packets [q]. *)
Definition rep (b : ChunkBuffer2) (q : list bytes) : Prop := shape b q ∧ io_ok b.

Definition queue_blocks (q : list bytes) : Z := foldr (λ d n, packet_blocks (zlen d) + n) 0 q.

(** ** Blocks *)

Lemma block_count_eq n : 0 ≤ n ≤ INT_MAX → block_count n = bdivide_up n sizeof_block.
Proof.
  intros. unfold block_count. apply s32_small. pose proof (bdivide_up_spec n sizeof_block).
  unfold sizeof_block, INT_MAX in *. lia.
Qed.

Lemma packet_blocks_spec n : 0 ≤ n → 1 ≤ packet_blocks n ∧ n ≤ sizeof_block * (packet_blocks n - 1) < n + 4.
Proof.
  intros. unfold packet_blocks. pose proof (bdivide_up_spec n sizeof_block). unfold sizeof_block in *. lia.
Qed.

Lemma packet_blocks_zlen (d : bytes) :
  1 ≤ packet_blocks (zlen d) ∧ zlen d ≤ sizeof_block * (packet_blocks (zlen d) - 1) < zlen d + 4.
Proof. apply packet_blocks_spec, zlen_nonneg. Qed.

Lemma packet_blocks_mono n m : 0 ≤ n ≤ m → packet_blocks n ≤ packet_blocks m.
Proof. intros. unfold packet_blocks. pose proof (bdivide_up_mono n m sizeof_block). unfold sizeof_block in *. lia. Qed.

Lemma block_count_packet n : 0 ≤ n ≤ INT_MAX → 1 + block_count n = packet_blocks n.
Proof. intros. by rewrite block_count_eq. Qed.

(** [m'] agrees with [m] on the bytes [a, b). *)
Definition agree (m m' : bytes) (a b : Z) : Prop :=
  ∀ off n, a ≤ off → 0 ≤ n → off + n ≤ b → mem_read m' off n = mem_read m off n.

Lemma agree_write m off d a b :
  0 ≤ off → 0 ≤ a → off + zlen d ≤ zlen m → b ≤ off ∨ off + zlen d ≤ a →
  agree m (mem_write m off d) a b.
Proof.
  intros Ho Ha Hm Hd o n Hao Hn Hb. destruct Hd.
  - apply mem_read_write_before; lia.
  - apply mem_read_write_after; lia.
Qed.

Lemma agree_trans m1 m2 m3 a b : agree m1 m2 a b → agree m2 m3 a b → agree m1 m3 a b.
Proof. intros H1 H2 o n ? ? ?. rewrite H2, H1 by lia. done. Qed.

Lemma blk_get_set m i n :
  0 ≤ i → (i + 1) * sizeof_block ≤ zlen m → 0 ≤ n ≤ INT_MAX → blk_get (blk_set m i n) i = n.
Proof.
  unfold sizeof_block, INT_MAX. intros. unfold blk_get, blk_set, sizeof_block.
  rewrite mem_read_write_same by (autorewrite with c_len; lia).
  rewrite le_val_le_bytes_small by lia. apply s32_small. unfold INT_MAX. lia.
Qed.

Lemma blk_get_agree m m' i :
  agree m m' (blk_addr i) (blk_addr (i + 1)) → blk_get m' i = blk_get m i.
Proof.
  unfold agree, blk_get, blk_addr, sizeof_block. intros H. by rewrite H by lia.
Qed.

(** ** Sequences of packets in memory *)

Lemma laid_le m lim p q e : laid m lim p q e → e = p + queue_blocks q.
Proof. induction 1; simpl; lia. Qed.

Lemma queue_blocks_nonneg q : 0 ≤ queue_blocks q.
Proof. induction q as [| d q]; simpl; [lia |]. pose proof (packet_blocks_zlen d). lia. Qed.

Lemma queue_blocks_app q q' : queue_blocks (q ++ q') = queue_blocks q + queue_blocks q'.
Proof. induction q; simpl; lia. Qed.

Lemma laid_mono m lim p q e : laid m lim p q e → p ≤ e.
Proof. intros H. rewrite (laid_le _ _ _ _ _ H). pose proof (queue_blocks_nonneg q). lia. Qed.

Lemma laid_app m lim p q e q' e' :
  laid m lim p q e → laid m lim e q' e' → laid m lim p (q ++ q') e'.
Proof. induction 1; intros; simpl; [done |]. constructor; auto. Qed.

Lemma laid_agree m m' lim p q e :
  laid m lim p q e → agree m m' (blk_addr p) (blk_addr e) → laid m' lim p q e.
Proof.
  induction 1 as [| p d q e Hp Hh Hd Hl IH]; intros Ha; [constructor |].
  pose proof (laid_mono _ _ _ _ _ Hl). pose proof (packet_blocks_zlen d) as [Hb1 Hb2].
  unfold blk_addr, sizeof_block in *.
  constructor; [done | | |].
  - rewrite <- Hh. apply blk_get_agree. unfold blk_addr, sizeof_block.
    intros o n ? ? ?. apply Ha; lia.
  - pose proof (zlen_nonneg d). rewrite <- Hd at 2. apply Ha; unfold blk_addr, sizeof_block; lia.
  - apply IH. intros o n ? ? ?. apply Ha; lia.
Qed.

Lemma laid_one m lim p d :
  0 ≤ p ≤ lim → blk_get m p = zlen d → mem_read m (blk_addr (p + 1)) (zlen d) = d →
  laid m lim p [d] (p + packet_blocks (zlen d)).
Proof. intros. constructor; auto. constructor. Qed.

(** ** The assertions follow from the representation *)

Lemma end_linear b q : 0 ≤ mtu b → linear b q → ChunkBuffer2_end b = start b + used b ∧ (wrap b - start b <=? used b) = false.
Proof.
  intros Hm (Hw & ? & ? & ? & _). unfold ChunkBuffer2_end.
  assert ((wrap b - start b <=? used b) = false) as -> by lia. done.
Qed.

Lemma end_wrapped b q : wrapped b q →
  ChunkBuffer2_end b = used b - (wrap b - start b) ∧ (wrap b - start b <=? used b) = true.
Proof.
  intros (q1 & q2 & _ & ? & ? & _). unfold ChunkBuffer2_end.
  assert ((wrap b - start b <=? used b) = true) as -> by lia. done.
Qed.

Lemma shape_assert_buffer b q : shape b q → ChunkBuffer2_assert_buffer b = true.
Proof.
  intros (Hm & Hs & _ & H). unfold ChunkBuffer2_assert_buffer.
  destruct H as [(? & ? & ? & ? & _) | (q1 & q2 & _ & ? & ? & ? & _)]; lia.
Qed.

(** The packet at [start] lies before [wrap]. *)
Lemma shape_head b q : shape b q → 0 < used b → ∃ d q', q = d :: q' ∧
  blk_get (buffer b) (start b) = zlen d ∧
  mem_read (buffer b) (blk_addr (start b + 1)) (zlen d) = d ∧
  packet_blocks (zlen d) ≤ used b ∧ packet_blocks (zlen d) ≤ wrap b - start b ∧ zlen d ≤ INT_MAX.
Proof.
  intros (Hm & Hs & _ & H) Hu. unfold sizeof_block in Hs.
  destruct H as [(Hw & ? & ? & ? & Hl) | (q1 & q2 & -> & ? & ? & ? & Hl & _)].
  - inversion Hl as [| p d q' e Hp Hh Hd Ht]; subst; [lia |]. exists d, q'.
    apply laid_mono in Ht. pose proof (packet_blocks_zlen d). unfold sizeof_block in *.
    split_and!; (done || lia).
  - inversion Hl as [| p d q' e Hp Hh Hd Ht]; subst; [lia |]. exists d, (q' ++ q2).
    apply laid_mono in Ht. pose proof (packet_blocks_zlen d). unfold sizeof_block in *.
    split_and!; (done || lia).
Qed.

Lemma shape_end b q : shape b q → 0 ≤ ChunkBuffer2_end b ∧ start b ≤ size b.
Proof.
  intros (Hm & _ & _ & [H | H]).
  - destruct (end_linear b q ltac:(lia) H) as [-> _]. destruct H as (? & ? & ? & ? & _). lia.
  - destruct (end_wrapped b q H) as [-> _]. destruct H as (q1 & q2 & _ & ? & ? & ? & _). lia.
Qed.

Lemma update_input_spec b q : shape b q →
  ChunkBuffer2_update_input b = b <| input_dest := (in_spec b).1 |> <| input_avail := (in_spec b).2 |>.
Proof.
  intros H. pose proof (shape_end b q H). destruct H as (Hm & Hs & _).
  unfold ChunkBuffer2_update_input, in_spec. set (e := ChunkBuffer2_end b) in *.
  set (free := if wrap b - start b <=? used b then start b - e else size b - e).
  assert (free ≤ size b) by (unfold free; case_if; lia).
  destruct (size b - e - 1 <? mtu b); [done |]. simpl.
  assert ((free <=? 0) = negb (0 <? free)) as -> by lia.
  destruct (0 <? free) eqn:E; [| done]. b2p. simpl. rewrite s32_small; [done |].
  unfold sizeof_block, INT_MAX in *. lia.
Qed.

Lemma update_output_spec b q : shape b q →
  ChunkBuffer2_update_output b =
    Some (b <| output_dest := (out_spec b).1 |> <| output_avail := (out_spec b).2 |>).
Proof.
  intros H. unfold ChunkBuffer2_update_output, out_spec. destruct (0 <? used b) eqn:Eu; [| done]. b2p.
  destruct (shape_head b q H Eu) as (d & q' & _ & Hh & _ & H1 & H2 & H3).
  rewrite Hh. pose proof (zlen_nonneg d). pose proof (block_count_packet (zlen d) ltac:(lia)).
  unfold ASSERT. repeat (case_if; [simpl | lia]). done.
Qed.

Lemma rep_assert_io b q : rep b q → ChunkBuffer2_assert_io b = true.
Proof.
  intros [H [Hin Hout]]. pose proof (shape_end b q H). pose proof H as (Hm & Hs & _).
  unfold ChunkBuffer2_assert_io. apply andb_true_intro. split.
  - unfold in_spec in Hin. set (e := ChunkBuffer2_end b) in *.
    set (free := if wrap b - start b <=? used b then start b - e else size b - e) in *.
    destruct (size b - e - 1 <? mtu b); simpl in Hin.
    { injection Hin as -> ->. done. }
    assert ((free <=? 0) = negb (0 <? free)) as Ef by lia. rewrite Ef in Hin.
    destruct (0 <? free); injection Hin as -> ->; [| done].
    rewrite bool_decide_true by done. simpl. by rewrite Z.eqb_refl.
  - unfold out_spec in Hout. destruct (0 <? used b) eqn:Eu; injection Hout as -> ->; [| done]. b2p.
    destruct (shape_head b q H Eu) as (d & q' & _ & Hh & _ & H1 & H2 & H3).
    rewrite Hh. pose proof (zlen_nonneg d). pose proof (block_count_packet (zlen d) ltac:(lia)).
    rewrite bool_decide_true by done. lia.
Qed.

(** ** The operations *)

(** The input pointer, when there is one, points past the header of a free
    region [e, e + free) that ends before the data and before [size]. *)
Lemma rep_input b q off : rep b q → input_dest b = Some off →
  let e := ChunkBuffer2_end b in
  off = blk_addr (e + 1) ∧ 0 ≤ e ≤ size b - mtu b - 1 ∧
  ∃ free, 0 < free ∧ input_avail b = (free - 1) * sizeof_block ∧ e + free ≤ size b ∧
    (linear b q ∧ e = start b + used b ∧ free = size b - e ∨
     wrapped b q ∧ e = used b - (wrap b - start b) ∧ free = start b - e).
Proof.
  intros [H [Hin _]] Hd. cbv zeta. pose proof (shape_end b q H). destruct H as (Hm & Hs & _ & H).
  rewrite Hd in Hin. unfold in_spec in Hin.
  destruct H as [H | H].
  - destruct (end_linear b q ltac:(lia) H) as [He Hc]. rewrite Hc in Hin.
    case_match; [discriminate |]. b2p. injection Hin as -> Ha.
    split; [done |]. split; [lia |]. exists (size b - ChunkBuffer2_end b). split_and!; try (done || lia).
    left. done.
  - destruct (end_wrapped b q H) as [He Hc]. rewrite Hc in Hin.
    case_match; [discriminate |]. b2p. injection Hin as -> Ha.
    split; [done |]. split; [lia |]. exists (start b - ChunkBuffer2_end b). split_and!; try (done || lia).
    right. done.
Qed.

(** Stores into the free region keep the packets. *)
Lemma shape_write_free b q off w d :
  rep b q → input_dest b = Some off →
  blk_addr (ChunkBuffer2_end b) ≤ w → w + zlen d ≤ off + input_avail b →
  zlen (mem_write (buffer b) w d) = zlen (buffer b) ∧
  shape (b <| buffer := mem_write (buffer b) w d |>) q ∧
  (0 < used b → blk_get (mem_write (buffer b) w d) (start b) = blk_get (buffer b) (start b)).
Proof.
  intros Hrep Hi Hw Hlen. destruct (rep_input b q off Hrep Hi) as (Ho & He & free & Hf & Ha & Hs & Hc).
  pose proof (zlen_nonneg d). destruct Hrep as [(Hm & Hmax & Hz & _) _].
  unfold blk_addr, sizeof_block in *. set (e := ChunkBuffer2_end b) in *.
  assert (Hzw : zlen (mem_write (buffer b) w d) = zlen (buffer b)) by (apply zlen_mem_write; lia).
  assert (∀ p, 0 ≤ p → p ≤ e → agree (buffer b) (mem_write (buffer b) w d) (blk_addr p) (blk_addr e)) as Hlo.
  { intros p ? ?. apply agree_write; unfold blk_addr, sizeof_block; lia. }
  split; [done |].
  destruct Hc as [(Hlin & Hee & ->) | (Hwr & Hee & ->)].
  - destruct Hlin as (? & ? & ? & ? & Hl). rewrite <- Hee in Hl. split.
    + split_and!; try (simpl; unfold sizeof_block; lia). left. unfold linear. simpl.
      rewrite <- Hee. split_and!; try lia. apply (laid_agree (buffer b)); [done |]. apply Hlo; lia.
    + intros Hu. apply blk_get_agree. intros o n ? ? ?. unfold blk_addr, sizeof_block in *.
      apply (Hlo (start b)); unfold blk_addr, sizeof_block; lia.
  - destruct Hwr as (q1 & q2 & -> & ? & ? & ? & Hl1 & Hl2). rewrite <- Hee in Hl2.
    assert (agree (buffer b) (mem_write (buffer b) w d) (blk_addr (start b)) (blk_addr (wrap b))) as Hhi.
    { apply agree_write; unfold blk_addr, sizeof_block; lia. }
    split.
    + split_and!; try (simpl; unfold sizeof_block; lia). right. exists q1, q2. simpl.
      rewrite <- Hee. split_and!; try (done || lia); [by apply (laid_agree (buffer b)) |].
      apply (laid_agree (buffer b)); [done |]. apply Hlo; lia.
    + intros Hu. apply blk_get_agree. intros o n ? ? ?. unfold blk_addr, sizeof_block in *.
      apply Hhi; unfold blk_addr, sizeof_block; lia.
Qed.

(** The producer may store up to [input_avail] bytes. *)
Lemma rep_producer_write b q d :
  rep b q → is_Some (input_dest b) → zlen d ≤ input_avail b →
  rep (producer_write b d) q ∧
  mem_read (buffer (producer_write b d)) (blk_addr (ChunkBuffer2_end b + 1)) (zlen d) = d.
Proof.
  intros Hrep [off Hi] Hd. unfold producer_write. rewrite Hi.
  destruct (rep_input b q off Hrep Hi) as (Ho & He & free & Hf & Ha & Hs & Hc).
  pose proof (zlen_nonneg d). pose proof Hrep as [(Hm & Hmax & Hz & _) Hio].
  destruct (shape_write_free b q off off d Hrep Hi) as (Hzw & Hsh & Hbg).
  { rewrite Ho. unfold blk_addr, sizeof_block. lia. } { lia. }
  split.
  - split; [done |]. destruct Hio as [Hin Hout]. split; [exact Hin |]. simpl.
    rewrite Hout. unfold out_spec. simpl. destruct (0 <? used b) eqn:Eu; [| done]. b2p. by rewrite Hbg.
  - rewrite <- Ho. simpl. apply mem_read_write_same; [done | |]; unfold blk_addr, sizeof_block in *; lia.
Qed.

Lemma shape_submit b q d :
  rep b q → is_Some (input_dest b) → zlen d ≤ input_avail b →
  mem_read (buffer b) (blk_addr (ChunkBuffer2_end b + 1)) (zlen d) = d →
  shape (submit_store b (ChunkBuffer2_end b) (zlen d) (block_count (zlen d))) (q ++ [d]).
Proof.
  intros Hrep [off Hi] Hd Hmem.
  destruct (rep_input b q off Hrep Hi) as (Ho & He & free & Hf & Ha & Hs & Hc).
  pose proof (zlen_nonneg d). pose proof (packet_blocks_zlen d) as Hp.
  pose proof Hrep as [(Hm & Hmax & Hz & _) _].
  set (e := ChunkBuffer2_end b) in *.
  destruct (shape_write_free b q off (blk_addr e) (le_bytes 4 (zlen d)) Hrep Hi) as (Hzw & Hsh & _).
  { done. } { autorewrite with c_len. unfold blk_addr, sizeof_block in *. lia. }
  set (m' := blk_set (buffer b) e (zlen d)). fold m' in Hzw, Hsh.
  change (mem_write _ _ _) with m' in Hzw, Hsh.
  assert (Hfit : packet_blocks (zlen d) ≤ free) by (unfold sizeof_block in *; lia).
  assert (Hone : laid m' (size b - mtu b - 1) e [d] (e + packet_blocks (zlen d))).
  { apply laid_one; [lia | apply blk_get_set; unfold sizeof_block, INT_MAX in *; lia |].
    rewrite <- Hmem at 2. unfold m', blk_set, blk_addr.
    apply mem_read_write_after; autorewrite with c_len; unfold sizeof_block in *; lia. }
  destruct Hsh as (_ & _ & Hz' & Hq). unfold submit_store. fold m'.
  pose proof (block_count_packet (zlen d) ltac:(unfold sizeof_block, INT_MAX in *; lia)) as Hbc.
  rewrite Hbc. replace (e + 1 + block_count (zlen d)) with (e + packet_blocks (zlen d)) by lia.
  set (n := packet_blocks (zlen d)) in *.
  destruct Hc as [(Hlin & Hee & Hfr) | (Hwr & Hee & Hfr)].
  - destruct Hlin as (Hwrap & ? & ? & ? & _). destruct Hq as [Hq | Hq].
    2:{ destruct Hq as (? & ? & _ & ? & ? & _). simpl in *. lia. }
    destruct Hq as (_ & _ & _ & _ & Hl). simpl in Hl, Hz'. rewrite <- Hee in Hl.
    pose proof (laid_app _ _ _ _ _ _ _ Hl Hone) as Hla. simpl.
    assert ((used b + n <=? wrap b - start b) = true) as -> by lia. simpl.
    destruct (size b - (e + n) - 1 <? mtu b) eqn:Ew; b2p; split_and!; try (simpl; unfold sizeof_block in *; lia).
    + right. exists (q ++ [d]), []. simpl. rewrite app_nil_r. split_and!; try (done || lia).
      replace (used b + n - (e + n - start b)) with 0 by lia. constructor.
    + left. unfold linear. simpl. split_and!; try (done || lia).
      replace (start b + (used b + n)) with (e + n) by lia. done.
  - destruct Hwr as (_ & _ & _ & ? & ? & ? & _). destruct Hq as [Hq | Hq].
    { destruct Hq as (? & ? & ? & ? & _). simpl in *. lia. }
    destruct Hq as (q1 & q2 & -> & _ & _ & _ & Hl1 & Hl2). simpl in Hl1, Hl2, Hz'. rewrite <- Hee in Hl2.
    pose proof (laid_app _ _ _ _ _ _ _ Hl2 Hone) as Hla. simpl.
    assert ((used b + n <=? wrap b - start b) = false) as -> by lia. simpl.
    split_and!; try (simpl; unfold sizeof_block in *; lia).
    right. exists q1, (q2 ++ [d]). simpl. rewrite app_assoc.
    replace (used b + n - (wrap b - start b)) with (e + n) by lia. split_and!; (done || lia).
Qed.

Definition with_io (b : ChunkBuffer2) : ChunkBuffer2 :=
  b <| input_dest := (in_spec b).1 |> <| input_avail := (in_spec b).2 |>
    <| output_dest := (out_spec b).1 |> <| output_avail := (out_spec b).2 |>.

Lemma rep_with_io b q : shape b q → rep (with_io b) q.
Proof.
  intros H. split; [exact H |]. split; symmetry; [exact (surjective_pairing (in_spec b)) |].
  exact (surjective_pairing (out_spec b)).
Qed.

Lemma update_io c q : shape c q →
  ChunkBuffer2_update_output (ChunkBuffer2_update_input c) = Some (with_io c).
Proof.
  intros H. rewrite (update_input_spec _ _ H). rewrite (update_output_spec _ q) by exact H. reflexivity.
Qed.

(** When the head packet is unchanged the output pointers need no update. *)
Lemma update_input_io c q : shape c q → (output_dest c, output_avail c) = out_spec c →
  ChunkBuffer2_update_input c = with_io c.
Proof.
  intros H Ho. rewrite (update_input_spec _ _ H). unfold with_io. rewrite <- Ho. by destruct c.
Qed.

Lemma submit_store_fields b e len n :
  let c := submit_store b e len n in
  used c = used b + (1 + n) ∧ start c = start b ∧ buffer c = blk_set (buffer b) e len ∧
  output_dest c = output_dest b ∧ output_avail c = output_avail b.
Proof. unfold submit_store. case_if; done. Qed.

Lemma update_input_used b : used (ChunkBuffer2_update_input b) = used b.
Proof. unfold ChunkBuffer2_update_input. repeat case_if; done. Qed.

Lemma submit_spec b q d :
  rep b q → is_Some (input_dest b) → zlen d ≤ input_avail b →
  mem_read (buffer b) (blk_addr (ChunkBuffer2_end b + 1)) (zlen d) = d →
  ∃ b', ChunkBuffer2_SubmitPacket b (zlen d) = Some b' ∧ rep b' (q ++ [d]) ∧ mtu b' = mtu b ∧ size b' = size b.
Proof.
  intros Hrep Hi Hd Hmem. pose proof (shape_submit b q d Hrep Hi Hd Hmem) as Hsh.
  pose proof (rep_with_io _ _ Hsh) as Hrep'.
  destruct (submit_store_fields b (ChunkBuffer2_end b) (zlen d) (block_count (zlen d))) as (Hu & Hst & Hbuf & Hod & Hoa).
  assert (Hms : mtu (submit_store b (ChunkBuffer2_end b) (zlen d) (block_count (zlen d))) = mtu b ∧
    size (submit_store b (ChunkBuffer2_end b) (zlen d) (block_count (zlen d))) = size b)
    by (unfold submit_store; case_if; done).
  set (c := submit_store _ _ _ _) in *. exists (with_io c). split; [| done].
  destruct Hi as [off Hi]. pose proof (zlen_nonneg d). pose proof (packet_blocks_zlen d) as Hp.
  destruct (rep_input b q off Hrep Hi) as (Ho & He & free & Hf & Ha & Hs & Hc).
  pose proof Hrep as [Hsh0 Hio]. pose proof Hsh0 as (Hm & Hmax & Hz & _).
  pose proof (block_count_packet (zlen d) ltac:(unfold sizeof_block, INT_MAX in *; lia)) as Hbc.
  set (e := ChunkBuffer2_end b) in *.
  assert (Hfin : (if used (ChunkBuffer2_update_input c) =? 1 + block_count (zlen d)
    then ChunkBuffer2_update_output (ChunkBuffer2_update_input c)
    else Some (ChunkBuffer2_update_input c)) = Some (with_io c)).
  { rewrite update_input_used, Hu, Hbc. case_if; [by apply (update_io c (q ++ [d])) |].
    f_equal. apply (update_input_io c (q ++ [d]) Hsh).
    rewrite Hod, Hoa. destruct Hio as [_ ->]. unfold out_spec. rewrite Hu, Hst, Hbuf.
    pose proof (shape_assert_buffer _ _ Hsh0) as Hab. unfold ChunkBuffer2_assert_buffer in Hab.
    assert ((0 <? used b) = true) as -> by lia. assert ((0 <? used b + (1 + block_count (zlen d))) = true) as -> by lia.
    f_equal. symmetry. apply (shape_write_free b q off); try done; [| lia].
    autorewrite with c_len. unfold blk_addr, sizeof_block in *. lia. }
  unfold ChunkBuffer2_SubmitPacket. fold e. fold c. cbv zeta.
  rewrite ASSERT_seq by (rewrite Hi; by apply bool_decide_true).
  rewrite ASSERT_seq by lia. rewrite ASSERT_seq by lia.
  rewrite ASSERT_seq by exact (shape_assert_buffer _ _ Hsh0).
  rewrite ASSERT_seq by exact (rep_assert_io _ _ Hrep).
  rewrite ASSERT_seq by (unfold sizeof_block in *; lia).
  rewrite ASSERT_seq by (unfold sizeof_block in *;
    destruct Hc as [((? & ? & ? & ? & _) & ? & ?) | (_ & ? & ?)]; lia).
  rewrite ASSERT_seq by exact (shape_assert_buffer _ _ Hsh).
  rewrite Hfin, option_bind_Some. by rewrite ASSERT_seq by exact (rep_assert_io _ _ Hrep').
Qed.

Lemma shape_used_pos b d q : shape b (d :: q) → 0 < used b.
Proof.
  intros (_ & _ & _ & [(? & ? & ? & ? & Hl) | (q1 & q2 & _ & ? & ? & _)]); [| lia].
  apply laid_le in Hl. simpl in Hl. pose proof (packet_blocks_zlen d). pose proof (queue_blocks_nonneg q). lia.
Qed.

Lemma shape_used_zero b q : shape b q → used b = 0 → q = [].
Proof. destruct q as [| d q]; [done |]. intros H E. apply shape_used_pos in H. lia. Qed.

Lemma shape_consume b d q : shape b (d :: q) → zlen d ≤ INT_MAX →
  shape (consume_store b (block_count (zlen d))) q.
Proof.
  intros H Hmax. pose proof (zlen_nonneg d). pose proof (packet_blocks_zlen d) as Hp.
  pose proof (block_count_packet (zlen d) ltac:(lia)) as Hbc.
  destruct H as (Hm & Hs & Hz & H). unfold consume_store. rewrite Hbc. simpl.
  destruct H as [(Hw & ? & ? & ? & Hl) | (q1 & q2 & Hq & ? & ? & ? & Hl1 & Hl2)].
  - inversion Hl as [| p d' q' e Hp' Hh Hd Ht]; subst. pose proof (laid_mono _ _ _ _ _ Ht).
    assert ((start b + packet_blocks (zlen d) =? wrap b) = false) as -> by lia.
    split_and!; try (simpl; lia). left. unfold linear. simpl. split_and!; try lia.
    by replace (start b + packet_blocks (zlen d) + (used b - packet_blocks (zlen d))) with (start b + used b) by lia.
  - inversion Hl1 as [| p d' q' e Hp' Hh Hd Ht]; subst; [lia |]. injection Hq as <- ->.
    pose proof (laid_mono _ _ _ _ _ Ht). case_if.
    + assert (q' = []) as ->.
      { apply laid_le in Ht. destruct q' as [| d2 q']; [done |]. simpl in Ht.
        pose proof (packet_blocks_zlen d2). pose proof (queue_blocks_nonneg q'). lia. }
      split_and!; try (simpl; lia). left. unfold linear. simpl. split_and!; try lia.
      by replace (used b - packet_blocks (zlen d)) with (used b - (wrap b - start b)) by lia.
    + split_and!; try (simpl; lia). right. exists q', q2. simpl.
      replace (used b - packet_blocks (zlen d) - (wrap b - (start b + packet_blocks (zlen d))))
        with (used b - (wrap b - start b)) by lia. split_and!; (done || lia).
Qed.

(** Without wrapped data the input side is not affected by a removal. *)
Lemma consume_input_same b d q : rep b (d :: q) → zlen d ≤ INT_MAX →
  (wrap b - start b <=? used b) = false →
  let c := consume_store b (block_count (zlen d)) in (input_dest c, input_avail c) = in_spec c.
Proof.
  intros [H [Hin _]] Hmax Hc. cbv zeta. pose proof (zlen_nonneg d).
  pose proof (block_count_packet (zlen d) ltac:(lia)) as Hbc.
  pose proof (shape_consume b d q H Hmax) as Hsh.
  destruct H as (Hm & _ & _ & [H | H]).
  2:{ apply end_wrapped in H as [_ ?]. congruence. }
  destruct H as (Hw & ? & ? & ? & Hl). inversion Hl as [| p d' q' e Hp' Hh Hd Ht]; subst.
  pose proof (laid_mono _ _ _ _ _ Ht). unfold consume_store in *. rewrite Hbc in *. simpl in *.
  assert ((start b + packet_blocks (zlen d) =? wrap b) = false) as E by lia. rewrite E in *. simpl.
  rewrite Hin. unfold in_spec, ChunkBuffer2_end. simpl. rewrite Hc.
  assert ((wrap b - (start b + packet_blocks (zlen d)) <=? used b - packet_blocks (zlen d)) = false) as -> by lia.
  by replace (start b + packet_blocks (zlen d) + (used b - packet_blocks (zlen d))) with (start b + used b) by lia.
Qed.

Lemma update_output_io c q : shape c q → (input_dest c, input_avail c) = in_spec c →
  ChunkBuffer2_update_output c = Some (with_io c).
Proof.
  intros H Hi. rewrite (update_output_spec _ _ H). f_equal. unfold with_io. rewrite <- Hi. by destruct c.
Qed.

Lemma consume_run b d q : rep b (d :: q) →
  let b' := with_io (consume_store b (block_count (zlen d))) in
  consumer_read b = Some d ∧ zlen d ≤ INT_MAX ∧
  ChunkBuffer2_ConsumePacket b = Some b' ∧ rep b' q ∧ mtu b' = mtu b ∧ size b' = size b.
Proof.
  intros Hrep b'. subst b'. pose proof Hrep as [Hsh [_ Hout]]. pose proof (shape_used_pos _ _ _ Hsh) as Hu.
  destruct (shape_head _ _ Hsh Hu) as (d' & q' & Hq & Hh & Hd & H1 & H2 & H3). injection Hq as <- <-.
  unfold out_spec in Hout. rewrite (proj2 (Z.ltb_lt 0 (used b)) Hu) in Hout. injection Hout as Hod Hoa.
  pose proof (zlen_nonneg d). pose proof (block_count_packet (zlen d) ltac:(lia)) as Hbc.
  split; [| split; [done |]]. { unfold consumer_read. rewrite Hod, Hoa, Hh. by rewrite Hd. }
  pose proof (shape_consume b d q Hsh H3) as Hsh'. pose proof (rep_with_io _ _ Hsh') as Hrep'.
  assert (Hms : mtu (consume_store b (block_count (zlen d))) = mtu b ∧
    size (consume_store b (block_count (zlen d))) = size b) by (unfold consume_store; case_if; done).
  pose proof (consume_input_same b d q Hrep H3) as Hsame.
  set (c := consume_store b (block_count (zlen d))) in *. split; [| done].
  assert (Hfin : ChunkBuffer2_update_output (if wrap b - start b <=? used b
    then ChunkBuffer2_update_input c else c) = Some (with_io c)).
  { destruct (wrap b - start b <=? used b) eqn:Hc; [by apply (update_io c q) |].
    apply (update_output_io c q Hsh'). by apply Hsame. }
  unfold ChunkBuffer2_ConsumePacket. rewrite Hh. fold c. cbv zeta.
  rewrite ASSERT_seq by (rewrite Hod; by apply bool_decide_true).
  rewrite ASSERT_seq by exact (shape_assert_buffer _ _ Hsh).
  rewrite ASSERT_seq by exact (rep_assert_io _ _ Hrep).
  do 4 (rewrite ASSERT_seq by (pose proof (packet_blocks_zlen d); lia)).
  rewrite ASSERT_seq by exact (shape_assert_buffer _ _ Hsh').
  rewrite Hfin, option_bind_Some. by rewrite ASSERT_seq by exact (rep_assert_io _ _ Hrep').
Qed.

Lemma consume_spec b d q : rep b (d :: q) →
  consumer_read b = Some d ∧
  ∃ b', ChunkBuffer2_ConsumePacket b = Some b' ∧ rep b' q ∧ mtu b' = mtu b ∧ size b' = size b.
Proof. intros H. destruct (consume_run b d q H) as (? & _ & ? & ? & ? & ?). eauto 8. Qed.

(** A removal does not move the place where the producer is writing, and leaves it
    at least as much room. *)
Lemma consume_in_spec b d q off : rep b (d :: q) → zlen d ≤ INT_MAX → input_dest b = Some off →
  ∃ avail, in_spec (consume_store b (block_count (zlen d))) = (Some off, avail) ∧ input_avail b ≤ avail.
Proof.
  intros Hrep Hmax Hoff. pose proof Hrep as [Hsh _]. pose proof (shape_used_pos _ _ _ Hsh) as Hu.
  destruct (shape_head _ _ Hsh Hu) as (d' & q' & Hq & _ & _ & H1 & H2 & _). injection Hq as <- <-.
  pose proof (zlen_nonneg d). pose proof (packet_blocks_zlen d) as [Hp _].
  destruct Hsh as (Hmtu & _).
  destruct (rep_input _ _ _ Hrep Hoff) as (-> & He & free & Hf & -> & Hsz & Hc). cbv zeta in *.
  set (e := ChunkBuffer2_end b) in *. unfold consume_store. rewrite block_count_packet by lia.
  assert (∀ c f, ChunkBuffer2_end c = e → size c = size b → mtu c = mtu b → free ≤ f →
    (if wrap c - start c <=? used c then start c - e else size c - e) = f →
    ∃ avail, in_spec c = (Some (blk_addr (e + 1)), avail) ∧ (free - 1) * sizeof_block ≤ avail) as Hgo.
  { intros c f H3 H4 H5 H6 H7. unfold in_spec. rewrite H3. rewrite H7, H4, H5. eexists.
    rewrite (proj2 (Z.ltb_ge _ _)) by lia. rewrite (proj2 (Z.leb_gt _ _)) by lia. split; [done |].
    unfold sizeof_block. lia. }
  destruct Hc as [((Hw & ? & ? & ? & _) & Hee & ->) | ((q1 & q2 & _ & ? & ? & ? & _) & Hee & ->)].
  - match goal with |- context [in_spec ?x] => set (c := x) end. apply (Hgo c (size b - e)).
    all: unfold c, ChunkBuffer2_end; simpl; repeat (case_if; simpl); simpl in *; try done; lia.
  - match goal with |- context [in_spec ?x] => set (c := x) end.
    apply (Hgo c (if start b + packet_blocks (zlen d) =? wrap b then size b - e else start b + packet_blocks (zlen d) - e)).
    all: unfold c, ChunkBuffer2_end; simpl; repeat (case_if; simpl); simpl in *; try done; lia.
Qed.

(** A removal does not move the place where the producer is writing, and leaves it
    at least as much room. *)
Lemma consume_keeps_input b d q : rep b (d :: q) →
  ∃ b', ChunkBuffer2_ConsumePacket b = Some b' ∧ rep b' q ∧ mtu b' = mtu b ∧ size b' = size b ∧
    (∀ off, input_dest b = Some off → input_dest b' = Some off ∧ input_avail b ≤ input_avail b').
Proof.
  intros Hrep. destruct (consume_run b d q Hrep) as (_ & Hmax & Hrun & Hrep' & Hm & Hs).
  eexists. split; [exact Hrun |]. split_and!; [done.. |]. intros off Hoff.
  destruct (consume_in_spec b d q off Hrep Hmax Hoff) as (avail & Hin & Hle).
  unfold with_io. cbn [input_dest input_avail set]. rewrite Hin. done.
Qed.

Lemma init_spec array blocks mtu_bytes :
  0 ≤ mtu_bytes → packet_blocks mtu_bytes ≤ blocks → blocks * sizeof_block ≤ INT_MAX →
  zlen array = blocks * sizeof_block →
  ∃ b, ChunkBuffer2_Init array blocks mtu_bytes = Some b ∧ rep b [] ∧
    mtu b = packet_blocks mtu_bytes - 1 ∧ size b = blocks.
Proof.
  intros Hm Hb Hmax Hz. pose proof (packet_blocks_spec mtu_bytes Hm) as Hp.
  pose proof (block_count_packet mtu_bytes ltac:(unfold sizeof_block in *; lia)) as Hbc.
  unfold ChunkBuffer2_Init. set (c := mk_ChunkBuffer2 _ _ _ _ _ _ _ _ _ _).
  assert (Hsh : shape c []).
  { unfold c. split_and!; try (simpl; lia). left. unfold linear. simpl. split_and!; try lia. constructor. }
  pose proof (rep_with_io _ _ Hsh) as Hrep. exists (with_io c). split_and!; [| done | unfold c; simpl; lia | done].
  rewrite ASSERT_seq by lia. rewrite ASSERT_seq by lia.
  rewrite ASSERT_seq by exact (shape_assert_buffer _ _ Hsh).
  rewrite (update_io c [] Hsh), option_bind_Some. by rewrite ASSERT_seq by exact (rep_assert_io _ _ Hrep).
Qed.

(** ** The buffer as a queue *)

Inductive op := Push (d : bytes) | Pop.

(** A producer that stores and submits a packet when it fits and a consumer that
    takes the packet on offer. Returns the buffer, the packets handed out and
    the packets accepted. *)
Fixpoint crun (b : ChunkBuffer2) (ops : list op) : option (ChunkBuffer2 * list bytes * list bytes) :=
  match ops with
  | [] => Some (b, [], [])
  | Push d :: ops =>
      if bool_decide (is_Some (input_dest b)) && (zlen d <=? input_avail b) then
        b' ← ChunkBuffer2_SubmitPacket (producer_write b d) (zlen d);
        '(b2, popped, accepted) ← crun b' ops;
        Some (b2, popped, d :: accepted)
      else crun b ops
  | Pop :: ops =>
      match consumer_read b with
      | Some d =>
          b' ← ChunkBuffer2_ConsumePacket b;
          '(b2, popped, accepted) ← crun b' ops;
          Some (b2, d :: popped, accepted)
      | None => crun b ops
      end
  end.

Lemma push_spec b q d :
  rep b q → is_Some (input_dest b) → zlen d ≤ input_avail b →
  ∃ b', ChunkBuffer2_SubmitPacket (producer_write b d) (zlen d) = Some b' ∧ rep b' (q ++ [d]) ∧
    mtu b' = mtu b ∧ size b' = size b.
Proof.
  intros Hrep Hi Hd. destruct (rep_producer_write b q d Hrep Hi Hd) as [Hrep1 Hmem].
  destruct Hi as [off Hi].
  assert (input_dest (producer_write b d) = Some off ∧ input_avail (producer_write b d) = input_avail b ∧
    ChunkBuffer2_end (producer_write b d) = ChunkBuffer2_end b ∧ mtu (producer_write b d) = mtu b ∧
    size (producer_write b d) = size b) as (E1 & E2 & E3 & E4 & E5)
    by (unfold producer_write; rewrite Hi; done).
  rewrite <- E4, <- E5. apply submit_spec; rewrite ?E1, ?E2, ?E3; done.
Qed.

Lemma submit_start b n b' : ChunkBuffer2_SubmitPacket b n = Some b' → start b' = start b.
Proof.
  unfold ChunkBuffer2_SubmitPacket. intros H. do 7 (apply bind_Some in H as (? & _ & H)).
  cbv zeta in H. apply bind_Some in H as (? & _ & H). apply bind_Some in H as (b1 & H1 & H).
  apply bind_Some in H as (? & _ & [= <-]).
  assert (∀ c, start (ChunkBuffer2_update_input c) = start c) as Hi
    by (intros c; unfold ChunkBuffer2_update_input; repeat case_if; done).
  assert (∀ c c', ChunkBuffer2_update_output c = Some c' → start c' = start c) as Ho.
  { intros c c'. unfold ChunkBuffer2_update_output. case_if; [| by intros [= <-]].
    intros E'. do 3 (apply bind_Some in E' as (? & _ & E')). by injection E' as <-. }
  destruct (submit_store_fields b (ChunkBuffer2_end b) n (block_count n)) as (_ & Hst & _).
  revert H1. case_if; intros H1; [rewrite (Ho _ _ H1) | injection H1 as <-]; by rewrite Hi.
Qed.

Lemma crun_spec ops : ∀ b q, rep b q →
  ∃ b' popped accepted q', crun b ops = Some (b', popped, accepted) ∧ rep b' q' ∧ q ++ accepted = popped ++ q'.
Proof.
  induction ops as [| [d |] ops IH]; intros b q Hrep; simpl.
  - exists b, [], [], q. rewrite app_nil_r. done.
  - case_if.
    + destruct (push_spec b q d Hrep) as (b1 & Hs & Hr & _); [done | done |]. rewrite Hs. simpl.
      destruct (IH _ _ Hr) as (b' & po & ac & q' & -> & Hr' & E'). simpl.
      exists b', po, (d :: ac), q'. split_and!; try done. by rewrite <- E', <- app_assoc.
    + by apply IH.
  - destruct q as [| d q].
    + assert (consumer_read b = None) as ->.
      { unfold consumer_read. destruct Hrep as [Hsh [_ Hout]]. unfold out_spec in Hout.
        destruct (0 <? used b) eqn:Eu; [| by injection Hout as -> _]. b2p.
        destruct (shape_head _ _ Hsh Eu) as (? & ? & ? & _). done. }
      by apply IH.
    + destruct (consume_spec b d q Hrep) as (-> & b1 & -> & Hr & _). simpl.
      destruct (IH _ _ Hr) as (b' & po & ac & q' & -> & Hr' & E'). simpl.
      exists b', (d :: po), ac, q'. split_and!; try done. simpl. by rewrite <- E'.
Qed.

(** C3: the circular buffer is a queue of packets. From initialisation, under any
    interleaving of stores and removals, no assertion of the code fails (the
    debug checks of the buffer and I/O invariants included), and the packets
    handed out followed by those still held are the packets accepted, in order
    and byte for byte. *)
Theorem chunkbuffer_fifo array blocks mtu_bytes ops :
  0 ≤ mtu_bytes → packet_blocks mtu_bytes ≤ blocks → blocks * sizeof_block ≤ INT_MAX →
  zlen array = blocks * sizeof_block →
  ∃ b b' popped accepted q,
    ChunkBuffer2_Init array blocks mtu_bytes = Some b ∧
    crun b ops = Some (b', popped, accepted) ∧ rep b' q ∧ accepted = popped ++ q.
Proof.
  intros H1 H2 H3 H4. destruct (init_spec array blocks mtu_bytes H1 H2 H3 H4) as (b & Hi & Hr & _).
  destruct (crun_spec ops b [] Hr) as (b' & po & ac & q & Hc & Hr' & E). by exists b, b', po, ac, q.
Qed.

Lemma chunkbuffer_fifo_witness :
  ∃ b b' popped accepted q,
    ChunkBuffer2_Init (replicate 24 0) 6 5 = Some b ∧
    crun b [Push [1; 2; 3; 4; 5]; Push [6]; Pop; Push [7; 8]; Pop; Pop; Pop] =
      Some (b', popped, accepted) ∧ rep b' q ∧ accepted = popped ++ q.
Proof. apply chunkbuffer_fifo; [lia | by vm_compute | by vm_compute | by vm_compute]. Defined.

Lemma queue_blocks_bound q n :
  0 ≤ n → Forall (λ d : bytes, zlen d ≤ n) q → queue_blocks q ≤ zlen q * packet_blocks n.
Proof.
  intros Hn. induction 1 as [| d q Hd Hq IH]; [done |]. cbn [queue_blocks foldr]. rewrite zlen_cons.
  pose proof (packet_blocks_mono (zlen d) n ltac:(pose proof (zlen_nonneg d); lia)).
  fold (queue_blocks q). lia.
Qed.

Lemma calc_blocks_spec mtu_bytes num n :
  0 ≤ mtu_bytes ≤ INT_MAX → 0 < num → ChunkBuffer2_calc_blocks mtu_bytes num = n → 0 ≤ n →
  n = packet_blocks mtu_bytes * (num + 1).
Proof.
  intros Hm Hnum E Hn. unfold ChunkBuffer2_calc_blocks in E.
  rewrite <- (block_count_packet mtu_bytes Hm). repeat (case_match; [lia |]). done.
Qed.

Lemma chunkbuffer_room b q mtu_bytes num :
  0 ≤ mtu_bytes ≤ INT_MAX → 0 < num → rep b q →
  mtu b = packet_blocks mtu_bytes - 1 → size b = ChunkBuffer2_calc_blocks mtu_bytes num →
  Forall (λ d : bytes, zlen d ≤ mtu_bytes) q → zlen q < num →
  is_Some (input_dest b) ∧ mtu_bytes ≤ input_avail b.
Proof.
  intros Hm Hnum Hrep Hmtu Hsize Hq Hlt. pose proof (packet_blocks_spec mtu_bytes ltac:(lia)) as Hp.
  pose proof (queue_blocks_bound q mtu_bytes ltac:(lia) Hq) as Hqb.
  destruct Hrep as [Hsh [Hin _]]. pose proof Hsh as (Hmm & Hmax & _ & H).
  pose proof (calc_blocks_spec mtu_bytes num (size b) Hm Hnum (eq_sym Hsize) ltac:(lia)) as Hsz.
  set (pb := packet_blocks mtu_bytes) in *. pose proof (zlen_nonneg q).
  assert (zlen q * pb ≤ (num - 1) * pb) by nia. unfold in_spec in Hin.
  destruct H as [H | H].
  - destruct (end_linear b q ltac:(lia) H) as [He Hc]. rewrite Hc in Hin.
    destruct H as (Hw & ? & ? & ? & _).
    assert ((size b - ChunkBuffer2_end b - 1 <? mtu b) || (size b - ChunkBuffer2_end b <=? 0) = false) as Hf by lia.
    rewrite Hf in Hin. injection Hin as -> ->. split; [by eexists |]. unfold sizeof_block in *. lia.
  - destruct (end_wrapped b q H) as [He Hc]. rewrite Hc in Hin.
    destruct H as (q1 & q2 & -> & ? & ? & ? & Hl1 & Hl2). apply laid_le in Hl1, Hl2.
    rewrite queue_blocks_app in Hqb.
    assert ((size b - ChunkBuffer2_end b - 1 <? mtu b) || (start b - ChunkBuffer2_end b <=? 0) = false) as Hf by lia.
    rewrite Hf in Hin. injection Hin as -> ->. split; [by eexists |]. unfold sizeof_block in *. lia.
Qed.

(** A buffer with [ChunkBuffer2_calc_blocks(mtu, num)] blocks always has room
    for another packet of [mtu] bytes while it holds fewer than [num] packets,
    wherever the region in use has wrapped to. *)
Theorem chunkbuffer_capacity b q mtu_bytes num :
  0 ≤ mtu_bytes ≤ INT_MAX → 0 < num → rep b q →
  mtu b = packet_blocks mtu_bytes - 1 → size b = ChunkBuffer2_calc_blocks mtu_bytes num →
  Forall (λ d : bytes, zlen d ≤ mtu_bytes) q → zlen q < num →
  is_Some (input_dest b) ∧ mtu_bytes ≤ input_avail b.
Proof. exact (chunkbuffer_room b q mtu_bytes num). Qed.

Lemma chunkbuffer_capacity_witness :
  ∃ b, ChunkBuffer2_Init (replicate 24 0) (ChunkBuffer2_calc_blocks 5 1) 5 = Some b ∧
    is_Some (input_dest b) ∧ 5 ≤ input_avail b.
Proof.
  destruct (init_spec (replicate 24 0) (ChunkBuffer2_calc_blocks 5 1) 5) as (b & Hi & Hr & Hm & Hs);
    [lia | by vm_compute | by vm_compute | by vm_compute |].
  exists b. split; [exact Hi |].
  apply (chunkbuffer_capacity b [] 5 1).
  - unfold INT_MAX; lia.
  - lia.
  - exact Hr.
  - exact Hm.
  - exact Hs.
  - constructor.
  - rewrite zlen_nil; lia.
Defined.
