(* ===== verification/PacketBuffer.v ===== *)
(** * The packet buffer between a receiver and a sender (flow/PacketBuffer.c)

    The handlers run on the state of the buffer; their calls of the two flow
    interfaces are effects. The environment completes a receive by storing a
    packet at the address it was given and a send by reading the packet at its
    address. The interfaces accept one operation at a time. *)
From S2P Require Import Prelude ByteOrder ChunkBuffer2.

Record PacketBuffer := mk_PacketBuffer { input_mtu : Z; pbuf : ChunkBuffer2 }.
#[export] Instance PacketBuffer_eta : Eta PacketBuffer := λ b, mk_PacketBuffer (input_mtu b) (pbuf b).

(** [PacketRecvInterface_Receiver_Recv] and [PacketPassInterface_Sender_Send]. *)
Inductive pb_call := PbRecv (dest : option Z) | PbSend (data : option Z) (len : Z).

(** A call of an operation of the circular buffer. *)
Definition on_buf {E} (f : ChunkBuffer2 → option ChunkBuffer2) : M PacketBuffer E unit := λ s,
  match f (pbuf s) with Some b => Some ((), s <| pbuf := b |>, []) | None => None end.

Definition input_handler_done (in_len : Z) : M PacketBuffer pb_call unit :=
  s ← get;
  assert (0 <=? in_len);;
  assert (in_len <=? input_mtu s);;
  let was_empty := output_avail (pbuf s) <? 0 in
  on_buf (λ b, ChunkBuffer2_SubmitPacket b in_len);;
  s ← get;
  when (input_mtu s <=? input_avail (pbuf s)) (emit (PbRecv (input_dest (pbuf s))));;
  when was_empty (emit (PbSend (output_dest (pbuf s)) (output_avail (pbuf s)))).

Definition output_handler_done : M PacketBuffer pb_call unit :=
  s ← get;
  let was_full := input_avail (pbuf s) <? input_mtu s in
  on_buf ChunkBuffer2_ConsumePacket;;
  s ← get;
  when (was_full && (input_mtu s <=? input_avail (pbuf s))) (emit (PbRecv (input_dest (pbuf s))));;
  when (0 <=? output_avail (pbuf s)) (emit (PbSend (output_dest (pbuf s)) (output_avail (pbuf s)))).

(** [alloc] is [BAllocArray] for the block array; [None] is an error return. *)
Definition PacketBuffer_Init (alloc : Z → option bytes) (in_mtu out_mtu num_packets : Z)
    : option (option (PacketBuffer * list pb_call)) :=
  ASSERT (in_mtu <=? out_mtu);;
  ASSERT (0 <? num_packets);;
  let num_blocks := ChunkBuffer2_calc_blocks in_mtu num_packets in
  if num_blocks <? 0 then Some None else
  match alloc num_blocks with
  | None => Some None
  | Some array =>
      b ← ChunkBuffer2_Init array num_blocks in_mtu;
      Some (Some (mk_PacketBuffer in_mtu b, [PbRecv (input_dest b)]))
  end.

(** ** The buffer between its neighbours *)

(** [receiving] and [sending] are the operations in progress, [taken] and
    [passed] the packets received and passed on so far. *)
Record psys := mk_psys {
  pb : PacketBuffer; receiving : option Z; sending : option (Z * Z); taken : list bytes; passed : list bytes
}.
#[export] Instance psys_eta : Eta psys := λ s, mk_psys (pb s) (receiving s) (sending s) (taken s) (passed s).

(** An interface call; a second operation while one is in progress, and a null
    address, violate the assertions of the interface. *)
Definition pcall (s : psys) (c : pb_call) : option psys :=
  match c with
  | PbRecv (Some p) => ASSERT (bool_decide (receiving s = None));; Some (s <| receiving := Some p |>)
  | PbSend (Some p) n =>
      ASSERT (bool_decide (sending s = None));; ASSERT (0 <=? n);; Some (s <| sending := Some (p, n) |>)
  | _ => None
  end.

Fixpoint pcalls (s : psys) (cs : list pb_call) : option psys :=
  match cs with [] => Some s | c :: cs => s ← pcall s c; pcalls s cs end.

Inductive pevent := PacketIn (d : bytes) | PacketOut.

Definition penabled (s : psys) (e : pevent) : bool :=
  match e with
  | PacketIn d => bool_decide (is_Some (receiving s)) && (zlen d <=? input_mtu (pb s))
  | PacketOut => bool_decide (is_Some (sending s))
  end.

Definition pstep (s : psys) (e : pevent) : option psys :=
  match e with
  | PacketIn d =>
      p ← receiving s;
      let b := (pb s) <| pbuf := (pbuf (pb s)) <| buffer := mem_write (buffer (pbuf (pb s))) p d |> |> in
      '(_, b, cs) ← input_handler_done (zlen d) b;
      pcalls (mk_psys b None (sending s) (taken s ++ [d]) (passed s)) cs
  | PacketOut =>
      '(p, n) ← sending s;
      let d := mem_read (buffer (pbuf (pb s))) p n in
      '(_, b, cs) ← output_handler_done (pb s);
      pcalls (mk_psys b (receiving s) None (taken s) (passed s ++ [d])) cs
  end.

Fixpoint prun (s : psys) (es : list pevent) : option psys :=
  match es with
  | [] => Some s
  | e :: es => if penabled s e then s' ← pstep s e; prun s' es else prun s es
  end.

Definition pstart (alloc : Z → option bytes) (in_mtu out_mtu num_packets : Z) : option (option psys) :=
  r ← PacketBuffer_Init alloc in_mtu out_mtu num_packets;
  match r with
  | None => Some None
  | Some (b, cs) => s ← pcalls (mk_psys b None None [] []) cs; Some (Some s)
  end.

(** ** Invariant *)

(** A receive is in progress exactly when there is room for a packet, a send
    exactly when a packet is held, and they work on the ends of the queue. *)
Definition pinv (blocks : Z) (s : psys) (q : list bytes) : Prop :=
  let b := pbuf (pb s) in
  rep b q ∧ size b = blocks ∧ 0 ≤ input_mtu (pb s) ≤ INT_MAX ∧ mtu b = packet_blocks (input_mtu (pb s)) - 1 ∧
  receiving s = (if input_mtu (pb s) <=? input_avail b then input_dest b else None) ∧
  sending s = (match q with [] => None | d :: _ => Some (blk_addr (start b + 1), zlen d) end) ∧
  Forall (λ d : bytes, zlen d ≤ input_mtu (pb s)) q ∧ taken s = passed s ++ q.

(** The output side of the circular buffer, from the queue. *)
Lemma rep_output b q : rep b q →
  (output_dest b, output_avail b) =
    match q with [] => (None, -1) | d :: _ => (Some (blk_addr (start b + 1)), zlen d) end.
Proof.
  intros [Hsh [_ ->]]. unfold out_spec. destruct q as [| d q].
  - destruct Hsh as (Hm & Hs & Hb & Hc). destruct (0 <? used b) eqn:E; [| done]. b2p.
    destruct (shape_head b [] ltac:(done) E) as (d & q' & ? & _). done.
  - pose proof (shape_used_pos b d q Hsh) as Hu. destruct (shape_head b _ Hsh Hu) as (d' & q' & Hq & Hh & _).
    injection Hq as <- <-. by rewrite (proj2 (Z.ltb_lt _ _) Hu), Hh.
Qed.

Lemma rep_input_some b q n : rep b q → 0 ≤ n → n ≤ input_avail b → is_Some (input_dest b).
Proof.
  intros [_ [Hin _]] H0 Hn. unfold in_spec in Hin. case_match; injection Hin as H1 H2; rewrite H1; [lia | eauto].
Qed.

Lemma input_run s n b' : 0 ≤ n → n ≤ input_mtu s → ChunkBuffer2_SubmitPacket (pbuf s) n = Some b' →
  input_handler_done n s = Some ((), s <| pbuf := b' |>,
    (if input_mtu s <=? input_avail b' then [PbRecv (input_dest b')] else []) ++
    (if output_avail (pbuf s) <? 0 then [PbSend (output_dest b') (output_avail b')] else [])).
Proof.
  intros H1 H2 H3. unfold input_handler_done, get, assert, when, on_buf, emit, mbind, M_bind, mret, M_ret.
  rewrite (proj2 (Z.leb_le 0 n)) by done. rewrite (proj2 (Z.leb_le n (input_mtu s))) by done.
  rewrite H3. simpl. repeat case_if; done.
Qed.

Lemma output_run s b' : ChunkBuffer2_ConsumePacket (pbuf s) = Some b' →
  output_handler_done s = Some ((), s <| pbuf := b' |>,
    (if (input_avail (pbuf s) <? input_mtu s) && (input_mtu s <=? input_avail b') then [PbRecv (input_dest b')] else []) ++
    (if 0 <=? output_avail b' then [PbSend (output_dest b') (output_avail b')] else [])).
Proof.
  intros H. unfold output_handler_done, get, when, on_buf, emit, mbind, M_bind, mret, M_ret.
  rewrite H. simpl. repeat case_if; done.
Qed.

Lemma pcalls_app cs cs' : ∀ s, pcalls s (cs ++ cs') = (s ← pcalls s cs; pcalls s cs').
Proof. induction cs as [| c cs IH]; intros s; [done |]. simpl. destruct (pcall s c); [apply IH | done]. Qed.

Lemma pstep_in k s q d : pinv k s q → penabled s (PacketIn d) = true →
  ∃ s', pstep s (PacketIn d) = Some s' ∧ pinv k s' (q ++ [d]) ∧ input_mtu (pb s') = input_mtu (pb s).
Proof.
  intros (Hrep & Hsize & Hm & Hmtu & Hrcv & Hsnd & Hq & Hhist) Hen. unfold penabled in Hen. b2p.
  destruct (input_mtu (pb s) <=? input_avail (pbuf (pb s))) eqn:Eav; rewrite Hrcv in *; b2p; [| by destruct H].
  unfold pstep. rewrite Hrcv. destruct (input_dest (pbuf (pb s))) as [p |] eqn:Edest; [| by destruct H].
  set (b := pbuf (pb s)) in *. rewrite option_bind_Some. cbv zeta.
  destruct (push_spec b q d Hrep ltac:(by rewrite Edest) ltac:(lia)) as (b' & Hsub & Hrep' & Hm' & Hs').
  unfold producer_write in Hsub. rewrite Edest in Hsub.
  pose proof (submit_start _ _ _ Hsub) as Hst. simpl in Hst. pose proof (zlen_nonneg d).
  rewrite (input_run _ _ b'); [| done | done | exact Hsub]. rewrite option_bind_Some. simpl.
  pose proof (rep_output b q Hrep) as Hob. pose proof (rep_output b' _ Hrep') as Hob'.
  assert (Hfin : ∀ rc sd, rc = (if input_mtu (pb s) <=? input_avail b' then input_dest b' else None) →
    sd = (match q ++ [d] with [] => None | d :: _ => Some (blk_addr (start b' + 1), zlen d) end) →
    pinv k (mk_psys (mk_PacketBuffer (input_mtu (pb s)) b') rc sd (taken s ++ [d]) (passed s)) (q ++ [d])).
  { intros rc sd -> ->. unfold pinv. simpl. split_and!; try done; try lia; try congruence.
    - apply Forall_app. split; [done |]. by constructor.
    - by rewrite Hhist, app_assoc. }
  assert (is_Some (input_dest b') ∨ (input_mtu (pb s) <=? input_avail b') = false) as Hdst.
  { destruct (_ <=? _) eqn:E; [left | by right]. b2p. eapply rep_input_some; [exact Hrep' | | exact E]. lia. }
  destruct q as [| d0 q]; simpl in Hob'; injection Hob as Ho1 Ho2; injection Hob' as Ho1' Ho2'; rewrite Ho2.
  - change (-1 <? 0) with true. rewrite Hsnd. rewrite Ho1', Ho2'.
    destruct (_ <=? input_avail b') eqn:E'.
    + destruct Hdst as [[p' Hp'] | ?]; [| done]. rewrite Hp'. simpl. rewrite (proj2 (Z.leb_le 0 (zlen d))) by done.
      eexists. split; [done |]. split; [| done]. apply Hfin; [done | done].
    + simpl. rewrite (proj2 (Z.leb_le 0 (zlen d))) by done. eexists. split; [done |]. split; [| done]. apply Hfin; [done | done].
  - pose proof (zlen_nonneg d0). rewrite (proj2 (Z.ltb_ge (zlen d0) 0)) by done. rewrite app_nil_r.
    destruct (_ <=? input_avail b') eqn:E'.
    + destruct Hdst as [[p' Hp'] | ?]; [| done]. rewrite Hp'. simpl. eexists. split; [done |].
      split; [| done]. apply Hfin; [done | simpl; by rewrite Hsnd, Hst].
    + simpl. eexists. split; [done |]. split; [| done]. apply Hfin; [done | simpl; by rewrite Hsnd, Hst].
Qed.

Lemma pstep_out k s q : pinv k s q → penabled s PacketOut = true →
  ∃ s' d q', q = d :: q' ∧ pstep s PacketOut = Some s' ∧ pinv k s' q' ∧ input_mtu (pb s') = input_mtu (pb s).
Proof.
  intros (Hrep & Hsize & Hm & Hmtu & Hrcv & Hsnd & Hq & Hhist) Hen. unfold penabled in Hen. b2p.
  destruct q as [| d q]; [rewrite Hsnd in Hen; by destruct Hen |].
  set (b := pbuf (pb s)) in *. apply Forall_cons_1 in Hq as [Hd Hq].
  destruct (consume_keeps_input b d q Hrep) as (b' & Hcon & Hrep' & Hm' & Hs' & Hkeep).
  destruct (consume_spec b d q Hrep) as [Hread _]. pose proof (rep_output b _ Hrep) as Hob.
  injection Hob as Ho1 Ho2. unfold consumer_read in Hread. rewrite Ho1, Ho2 in Hread. injection Hread as Hread.
  unfold pstep. rewrite Hsnd, option_bind_Some. cbv beta iota zeta. fold b. rewrite Hread.
  rewrite (output_run _ b') by exact Hcon. rewrite option_bind_Some. simpl. fold b.
  pose proof (rep_output b' _ Hrep') as Hob'.
  assert (Hfin : ∀ rc sd, rc = (if input_mtu (pb s) <=? input_avail b' then input_dest b' else None) →
    sd = (match q with [] => None | d :: _ => Some (blk_addr (start b' + 1), zlen d) end) →
    pinv k (mk_psys (mk_PacketBuffer (input_mtu (pb s)) b') rc sd (taken s) (passed s ++ [d])) q).
  { intros rc sd -> ->. unfold pinv. simpl. split_and!; try done; try lia; try congruence. by rewrite Hhist, <- app_assoc. }
  assert (∃ s1, pcalls (mk_psys (mk_PacketBuffer (input_mtu (pb s)) b') (receiving s) None (taken s) (passed s ++ [d]))
      (if (input_avail b <? input_mtu (pb s)) && (input_mtu (pb s) <=? input_avail b') then [PbRecv (input_dest b')] else []) = Some s1 ∧
    s1 = mk_psys (mk_PacketBuffer (input_mtu (pb s)) b')
      (if input_mtu (pb s) <=? input_avail b' then input_dest b' else None) None (taken s) (passed s ++ [d]))
    as (s1 & Hs1 & ->).
  { destruct (input_avail b <? input_mtu (pb s)) eqn:E1; simpl; b2p.
    - rewrite Hrcv. rewrite (proj2 (Z.leb_gt (input_mtu (pb s)) (input_avail b))) by lia. destruct (_ <=? input_avail b') eqn:E2; [| eauto]. b2p.
      destruct (rep_input_some b' q _ Hrep' (proj1 Hm) E2) as [p Hp]. rewrite Hp. simpl. eauto.
    - rewrite Hrcv. rewrite (proj2 (Z.leb_le (input_mtu (pb s)) (input_avail b))) by lia.
      destruct (rep_input_some b _ _ Hrep (proj1 Hm) E1) as [p Hp]. destruct (Hkeep p Hp) as [Hp' Hle].
      rewrite (proj2 (Z.leb_le (input_mtu (pb s)) (input_avail b'))) by lia. rewrite Hp, Hp'. eauto. }
  rewrite pcalls_app, Hs1. simpl. destruct q as [| d1 q]; injection Hob' as Ho1' Ho2'; rewrite Ho2'.
  - simpl. eexists _, d, []. split; [done |]. split; [done |]. split; [by apply Hfin | done].
  - apply Forall_cons_1 in Hq as [Hd1 Hq]. pose proof (zlen_nonneg d1). rewrite (proj2 (Z.leb_le 0 (zlen d1))) by done.
    rewrite Ho1'. simpl. rewrite (proj2 (Z.leb_le 0 (zlen d1))) by done.
    eexists _, d, (d1 :: q). split; [done |]. split; [done |]. split; [by apply Hfin | done].
Qed.

Lemma prun_inv k es : ∀ s q, pinv k s q →
  ∃ s' q', prun s es = Some s' ∧ pinv k s' q' ∧ input_mtu (pb s') = input_mtu (pb s).
Proof.
  induction es as [| e es IH]; intros s q Hi; simpl; [eauto |].
  destruct (penabled s e) eqn:Een; [| eauto]. destruct e as [d |].
  - destruct (pstep_in k s q d Hi Een) as (s1 & -> & Hi1 & E1). simpl.
    destruct (IH s1 _ Hi1) as (s' & q' & ? & ? & ?). exists s', q'. split_and!; [done.. | congruence].
  - destruct (pstep_out k s q Hi Een) as (s1 & d & q1 & _ & -> & Hi1 & E1). simpl.
    destruct (IH s1 _ Hi1) as (s' & q' & ? & ? & ?). exists s', q'. split_and!; [done.. | congruence].
Qed.

(** What [BAllocArray] promises for [n] blocks. *)
Definition alloc_ok (alloc : Z → option bytes) (n : Z) : Prop :=
  ∃ array, alloc n = Some array ∧ zlen array = n * sizeof_block.

Lemma pstart_inv alloc in_mtu out_mtu num :
  let blocks := ChunkBuffer2_calc_blocks in_mtu num in
  0 ≤ in_mtu ≤ out_mtu → in_mtu ≤ INT_MAX → 0 < num → 0 ≤ blocks → blocks * sizeof_block ≤ INT_MAX → alloc_ok alloc blocks →
  ∃ s, pstart alloc in_mtu out_mtu num = Some (Some s) ∧ pinv blocks s [] ∧ input_mtu (pb s) = in_mtu.
Proof.
  intros blocks Hm Hmax Hn Hb Hsz (array & Ha & Hz). pose proof (packet_blocks_spec in_mtu ltac:(lia)) as [Hp1 Hp2].
  pose proof (calc_blocks_spec in_mtu num blocks ltac:(lia) Hn eq_refl Hb) as Hbl.
  destruct (init_spec array blocks in_mtu) as (b & Hi & Hrep & Hbm & Hbs); [lia | nia | done | done |].
  destruct (chunkbuffer_room b [] in_mtu num) as [[p Hp] Hav]; [lia | done | done | done | done | done | done |].
  unfold pstart, PacketBuffer_Init. rewrite ASSERT_seq by lia. rewrite ASSERT_seq by lia. cbv zeta. fold blocks.
  rewrite (proj2 (Z.ltb_ge _ _)) by lia. rewrite Ha, Hi. simpl. rewrite Hp. simpl. eexists. split; [done |]. split; [| done].
  unfold pinv. simpl. split_and!; try done; try lia. rewrite (proj2 (Z.leb_le _ _)) by lia. done.
Qed.

(** [C4] The packet buffer passes packets on unchanged and in order and never
    stalls. For every sequence of arrivals and completed sends: no assertion of
    the buffer or of its interfaces fails, the packets received are the packets
    passed on followed by those held; a send is in progress whenever a packet is
    held, a receive whenever fewer than [num] packets are held, so one of the two
    is always in progress. *)
Theorem packetbuffer_conserves alloc in_mtu out_mtu num es :
  let blocks := ChunkBuffer2_calc_blocks in_mtu num in
  0 ≤ in_mtu ≤ out_mtu → in_mtu ≤ INT_MAX → 0 < num → 0 ≤ blocks → blocks * sizeof_block ≤ INT_MAX → alloc_ok alloc blocks →
  ∃ s s' held, pstart alloc in_mtu out_mtu num = Some (Some s) ∧ prun s es = Some s' ∧
    taken s' = passed s' ++ held ∧ (is_Some (sending s') ↔ held ≠ []) ∧
    (zlen held < num → is_Some (receiving s')) ∧ (is_Some (sending s') ∨ is_Some (receiving s')).
Proof.
  intros blocks Hm Hmax Hn Hb Hsz Ha. destruct (pstart_inv alloc in_mtu out_mtu num Hm Hmax Hn Hb Hsz Ha) as (s & Hs & Hi & E).
  destruct (prun_inv _ es s [] Hi) as (s' & q & Hrun & (Hrep & Hsize & ? & Hmtu & Hrcv & Hsnd & Hq & Hhist) & E').
  exists s, s', q. rewrite E' in *. rewrite E in *.
  assert (zlen q < num → is_Some (receiving s')) as Hroom.
  { intros Hlt. destruct (chunkbuffer_room (pbuf (pb s')) q in_mtu num) as [Hd Hav]; try done.
    rewrite Hrcv. by rewrite (proj2 (Z.leb_le _ _)) by lia. }
  split_and!; try done.
  - rewrite Hsnd. destruct q; split; [by intros [? ?] | done | done | eauto].
  - destruct q as [| d q]; [right; apply Hroom; by rewrite zlen_nil | left; rewrite Hsnd; eauto].
Qed.

Lemma packetbuffer_conserves_witness :
  ∃ s s' held, pstart (λ n, Some (replicate (Z.to_nat (n * 4)) 0)) 5 8 2 = Some (Some s) ∧
    prun s [PacketIn [1; 2; 3; 4; 5]; PacketIn []; PacketOut; PacketIn [6]; PacketOut; PacketOut; PacketIn [7]] = Some s' ∧
    taken s' = passed s' ++ held ∧ (is_Some (sending s') ↔ held ≠ []) ∧
    (zlen held < 2 → is_Some (receiving s')) ∧ (is_Some (sending s') ∨ is_Some (receiving s')).
Proof.
  apply packetbuffer_conserves; [lia | by vm_compute | lia | by vm_compute | by vm_compute |].
  eexists. split; [done |]. by vm_compute.
Defined.
