(* ===== verification/PacketProto.v ===== *)
(** * Framing of packets on a stream (protocol/packetproto.h,
    flow/PacketProtoEncoder.c, flow/PacketProtoDecoder.c)

    The encoder prefixes a packet with its length; the decoder cuts the stream
    back into packets, whatever pieces the stream arrives in. The handlers run in
    the monad of the prelude, their calls into the neighbouring flow interfaces
    are effects. The environment of the decoder (the stream that fills the
    requested region, the receiver that finishes with a packet, the user who
    resets the decoder) is the step function [dstep]. *)
From S2P Require Import Prelude ByteOrder.

#[local] Arguments le_bytes : simpl never.
#[local] Arguments le_val : simpl never.

Definition sizeof_packetproto_header : Z := 2.
Definition PACKETPROTO_ENCLEN (len : Z) : Z := sizeof_packetproto_header + len.
Definition PACKETPROTO_MAXPAYLOAD : Z := UINT16_MAX.

(** ** Encoder *)

(** [output_packet] is an offset into [out_mem], the memory the receiver of the
    output has provided. *)
Record PacketProtoEncoder := mk_PacketProtoEncoder {
  input_mtu : Z;
  output_mtu_enc : Z;
  output_packet : option Z;
  out_mem : bytes
}.
#[export] Instance PacketProtoEncoder_eta : Eta PacketProtoEncoder := λ e,
  mk_PacketProtoEncoder (input_mtu e) (output_mtu_enc e) (output_packet e) (out_mem e).

(** Calls of the encoder: ask the input for a packet, finish the output packet. *)
Inductive enc_call := EncRecv (data : Z) | EncDone (len : Z).

Definition PacketProtoEncoder_Init (mtu : Z) (mem : bytes) : option PacketProtoEncoder :=
  ASSERT (mtu <=? PACKETPROTO_MAXPAYLOAD);;
  Some (mk_PacketProtoEncoder mtu (PACKETPROTO_ENCLEN mtu) None mem).

Definition output_handler_recv (data : Z) : M PacketProtoEncoder enc_call unit :=
  e ← get;
  assert (bool_decide (output_packet e = None));;
  modify (λ e, e <| output_packet := Some data |>);;
  emit (EncRecv (data + sizeof_packetproto_header)).

Definition enc_input_handler_done (in_len : Z) : M PacketProtoEncoder enc_call unit :=
  e ← get;
  match output_packet e with
  | None => stuck
  | Some data =>
      modify (λ e, e <| out_mem := mem_write (out_mem e) data (le_bytes 2 (htol16 (u16 in_len))) |>);;
      modify (λ e, e <| output_packet := None |>);;
      emit (EncDone (PACKETPROTO_ENCLEN in_len))
  end.

(** ** Decoder *)

Record PacketProtoDecoder := mk_PacketProtoDecoder {
  output_mtu : Z;
  buf_size : Z;
  buf_start : Z;
  buf_used : Z;
  buf : bytes
}.
#[export] Instance PacketProtoDecoder_eta : Eta PacketProtoDecoder := λ d,
  mk_PacketProtoDecoder (output_mtu d) (buf_size d) (buf_start d) (buf_used d) (buf d).

(** Calls of the decoder; data pointers are offsets into [buf]. *)
Inductive dec_call := DecSend (data len : Z) | DecRecv (data len : Z) | DecError.

(** [len] bytes of the buffer, all of them inside it. *)
Definition dec_read (off len : Z) : M PacketProtoDecoder dec_call bytes :=
  d ← get;
  assert ((0 <=? off) && (0 <=? len) && (off + len <=? zlen (buf d)));;
  mret (mem_read (buf d) off len).

(** The end of [process_data], after the loop is left by [break]. *)
Definition process_data_receive (was_error : bool) : M PacketProtoDecoder dec_call unit :=
  (if was_error then modify (λ d, d <| buf_start := 0 |> <| buf_used := 0 |>)
   else
     d ← get;
     when (buf_start d + buf_used d =? buf_size d)
       (bs ← dec_read (buf_start d) (buf_used d);
        modify (λ d, d <| buf := mem_write (buf d) 0 bs |> <| buf_start := 0 |>)));;
  d ← get;
  emit (DecRecv (buf_start d + buf_used d) (buf_size d - (buf_start d + buf_used d)));;
  when was_error (emit DecError).

Definition process_data : M PacketProtoDecoder dec_call unit :=
  d ← get;
  let data := buf_start d in
  let left := buf_used d in
  if left <? sizeof_packetproto_header then process_data_receive false else
  header ← dec_read data sizeof_packetproto_header;
  let header_len := le_val header in
  let data := data + sizeof_packetproto_header in
  let left := left - sizeof_packetproto_header in
  let data_len := ltoh16 header_len in
  if output_mtu d <? data_len then process_data_receive true else
  if left <? data_len then process_data_receive false else
  modify (λ d, d <| buf_start := buf_start d + (sizeof_packetproto_header + data_len) |>
                 <| buf_used := buf_used d - (sizeof_packetproto_header + data_len) |>);;
  emit (DecSend data data_len).

Definition input_handler_done (data_len : Z) : M PacketProtoDecoder dec_call unit :=
  d ← get;
  assert (0 <? data_len);;
  assert (data_len <=? buf_size d - (buf_start d + buf_used d));;
  modify (λ d, d <| buf_used := buf_used d + data_len |>);;
  process_data.

Definition output_handler_done : M PacketProtoDecoder dec_call unit := process_data.

(** [out_mtu] is the MTU of the output; [mem] the memory [malloc] returns for a
    request of a given size, [None] when it fails. *)
Definition PacketProtoDecoder_Init (mem : Z → option bytes) (out_mtu : Z)
    : option (PacketProtoDecoder * list dec_call) :=
  let mtu := Z.min out_mtu PACKETPROTO_MAXPAYLOAD in
  let size := PACKETPROTO_ENCLEN mtu in
  b ← mem size;
  Some (mk_PacketProtoDecoder mtu size 0 0 b, [DecRecv 0 size]).

Definition PacketProtoDecoder_Reset (d : PacketProtoDecoder) : PacketProtoDecoder :=
  let d := d <| buf_start := buf_start d + buf_used d |> in
  d <| buf_used := 0 |>.

(** ** The decoder in its environment *)

(** The operation that is outstanding: a request for stream data, or a packet the
    output is working on. *)
Inductive wait := WaitIn (data len : Z) | WaitOut (data len : Z).

(** What the environment does. *)
Inductive devent := StreamData (d : bytes) | OutputDone | UserReset.

Record dsys := mk_dsys { dec : PacketProtoDecoder; outstanding : wait; delivered : list bytes; errors : nat }.

(** The interfaces accept one operation at a time. *)
Definition dcalls (d : PacketProtoDecoder) (out : list bytes) (n : nat) (cs : list dec_call) : option dsys :=
  match cs with
  | [DecSend p l] => Some (mk_dsys d (WaitOut p l) out n)
  | [DecRecv p l] => Some (mk_dsys d (WaitIn p l) out n)
  | [DecRecv p l; DecError] => Some (mk_dsys d (WaitIn p l) out (S n))
  | _ => None
  end.

Definition dstart (mem : Z → option bytes) (out_mtu : Z) : option dsys :=
  '(d, cs) ← PacketProtoDecoder_Init mem out_mtu; dcalls d [] 0 cs.

(** The events that can happen: data fits the request and is not empty. *)
Definition denabled (s : dsys) (e : devent) : bool :=
  match e, outstanding s with
  | StreamData b, WaitIn p l => (0 <? zlen b) && (zlen b <=? l)
  | OutputDone, WaitOut p l => true
  | UserReset, _ => true
  | _, _ => false
  end.

(** A packet counts as delivered with the bytes the output sees when it is done. *)
Definition dstep (s : dsys) (e : devent) : option dsys :=
  let d := dec s in
  match e, outstanding s with
  | StreamData b, WaitIn p l =>
      '(_, d', cs) ← input_handler_done (zlen b) (d <| buf := mem_write (buf d) p b |>);
      dcalls d' (delivered s) (errors s) cs
  | OutputDone, WaitOut p l =>
      '(_, d', cs) ← output_handler_done d;
      dcalls d' (delivered s ++ [mem_read (buf d) p l]) (errors s) cs
  | UserReset, w => Some (mk_dsys (PacketProtoDecoder_Reset d) w (delivered s) (errors s))
  | _, _ => None
  end.

(** Runs the enabled events. *)
Fixpoint drun (s : dsys) (es : list devent) : option dsys :=
  match es with
  | [] => Some s
  | e :: es => if denabled s e then s' ← dstep s e; drun s' es else drun s es
  end.

(** Stream bytes the run of [es] takes from the environment. *)
Fixpoint dinput (s : dsys) (es : list devent) : bytes :=
  match es with
  | [] => []
  | e :: es =>
      if denabled s e then
        (match e with StreamData b => b | _ => [] end) ++
        (match dstep s e with Some s' => dinput s' es | None => [] end)
      else dinput s es
  end.

(** ** Reference encoding *)

Definition encode (p : bytes) : bytes := le_bytes 2 (zlen p) ++ p.
Definition encode_all (ps : list bytes) : bytes := concat (map encode ps).

(** ** Specification of the decoder

    A decoder with no buffer management: the bytes not yet consumed, the packet
    that is being delivered, what was delivered. *)

Inductive parsed := More | Bad | Packet (p rest : bytes).

Definition parse (mtu : Z) (c : bytes) : parsed :=
  if zlen c <? 2 then More else
  let n := le_val (ztake 2 c) in
  if mtu <? n then Bad else
  if zlen c - 2 <? n then More else Packet (ztake n (zdrop 2 c)) (zdrop (2 + n) c).

Record adec := mk_adec { a_content : bytes; a_out : option bytes; a_delivered : list bytes; a_errors : nat }.

Definition aproc (mtu : Z) (c : bytes) (del : list bytes) (n : nat) : adec :=
  match parse mtu c with
  | More => mk_adec c None del n
  | Bad => mk_adec [] None del (S n)
  | Packet p rest => mk_adec rest (Some p) del n
  end.

Definition adstep (mtu : Z) (a : adec) (e : devent) : option adec :=
  match e, a_out a with
  | StreamData b, None => Some (aproc mtu (a_content a ++ b) (a_delivered a) (a_errors a))
  | OutputDone, Some p => Some (aproc mtu (a_content a) (a_delivered a ++ [p]) (a_errors a))
  | UserReset, o => Some (mk_adec [] o (a_delivered a) (a_errors a))
  | _, _ => None
  end.

(** ** Representation *)

Definition content (d : PacketProtoDecoder) : bytes := mem_read (buf d) (buf_start d) (buf_used d).

Definition dshape (d : PacketProtoDecoder) : Prop :=
  0 ≤ output_mtu d ≤ PACKETPROTO_MAXPAYLOAD ∧ buf_size d = PACKETPROTO_ENCLEN (output_mtu d) ∧
  zlen (buf d) = buf_size d ∧ 0 ≤ buf_start d ∧ 0 ≤ buf_used d ∧
  buf_start d + buf_used d ≤ buf_size d ∧ wf_bytes (buf d).

(** The request in progress is inside the buffer and not empty; the packet in
    progress is intact and within the MTU. *)
Definition drep (s : dsys) (a : adec) : Prop :=
  let d := dec s in
  dshape d ∧ a_content a = content d ∧ a_delivered a = delivered s ∧ a_errors a = errors s ∧
  match outstanding s with
  | WaitIn p l =>
      a_out a = None ∧ p = buf_start d + buf_used d ∧ l = buf_size d - p ∧ 0 < l ∧
      parse (output_mtu d) (content d) = More
  | WaitOut p l =>
      a_out a = Some (mem_read (buf d) p l) ∧ 0 ≤ p ∧ 0 ≤ l ≤ output_mtu d ∧ p + l ≤ buf_start d
  end.

Lemma content_len d : dshape d → zlen (content d) = buf_used d.
Proof. intros (? & ? & Hl & ? & ? & ? & _). unfold content. apply zlen_mem_read; lia. Qed.

Lemma content_wf d : dshape d → wf_bytes (content d).
Proof. intros (_ & _ & _ & _ & _ & _ & ?). by apply wf_mem_read. Qed.

Lemma ztake_mem_read m off n k : 0 ≤ k ≤ n → ztake k (mem_read m off n) = mem_read m off k.
Proof. intros. unfold mem_read. rewrite ztake_ztake. f_equal. lia. Qed.

Lemma zdrop_mem_read m off n k : 0 ≤ off → 0 ≤ k ≤ n → zdrop k (mem_read m off n) = mem_read m (off + k) (n - k).
Proof. intros. unfold mem_read. rewrite zdrop_ztake by lia. rewrite zdrop_zdrop by lia. done. Qed.

Lemma wf_mem_write m off b : wf_bytes m → wf_bytes b → wf_bytes (mem_write m off b).
Proof. intros. unfold mem_write. rewrite !wf_bytes_app. auto with c_wf. Qed.

Lemma parse_more_bound d : dshape d → parse (output_mtu d) (content d) = More → buf_used d < buf_size d.
Proof.
  intros Hs Hp. pose proof (content_len d Hs) as Hl. destruct Hs as (? & -> & _). revert Hp.
  unfold parse, PACKETPROTO_ENCLEN, sizeof_packetproto_header. repeat case_if; intros; (done || lia).
Qed.

Lemma dec_read_ok d off len : 0 ≤ off → 0 ≤ len → off + len ≤ zlen (buf d) → dec_read off len d = Some (mem_read (buf d) off len, d, []).
Proof.
  intros H1 H2 H3. unfold dec_read, get, assert, mret, mbind, M_ret, M_bind. by rewrite (proj2 (Z.leb_le 0 off)), (proj2 (Z.leb_le 0 len)), (proj2 (Z.leb_le _ _) H3) by done.
Qed.
Lemma wp_dec_read d off len (Q : bytes → PacketProtoDecoder → list dec_call → Prop) : 0 ≤ off → 0 ≤ len → off + len ≤ zlen (buf d) →
  Q (mem_read (buf d) off len) d [] → wp (dec_read off len) Q d.
Proof. intros H1 H2 H3 HQ. unfold wp. by rewrite dec_read_ok. Qed.

(** [process_data] computes [parse] on the buffered bytes. *)
Lemma receive_spec d (was_error : bool) : dshape d →
  (was_error = false → parse (output_mtu d) (content d) = More) →
  wp (process_data_receive was_error) (λ _ d' cs,
    dshape d' ∧ output_mtu d' = output_mtu d ∧ content d' = (if was_error then [] else content d) ∧
    let p := buf_start d' + buf_used d' in
    0 < buf_size d' - p ∧
    cs = DecRecv p (buf_size d' - p) :: (if was_error then [DecError] else [])) d.
Proof.
  intros Hs Hp. pose proof Hs as (Hm & Hz & Hl & Ha & Hb & Hc & Hw). unfold process_data_receive.
  destruct was_error; repeat first [apply wp_dec_read; [lia | lia | lia |]; simpl | wp_step].
  - unfold dshape, content, PACKETPROTO_ENCLEN, sizeof_packetproto_header in *. simpl.
    split_and!; first [done | lia | by rewrite zdrop_le0 by lia].
  - specialize (Hp eq_refl). pose proof (parse_more_bound d Hs Hp). pose proof (content_len d Hs) as Hcl.
    assert (zlen (mem_write (buf d) 0 (mem_read (buf d) (buf_start d) (buf_used d))) = zlen (buf d)) as Hlen.
    { apply zlen_mem_write; [lia |]. fold (content d). lia. }
    split; [| split; [done |]].
    + unfold dshape. simpl. rewrite Hlen. split_and!; try lia. apply wf_mem_write; [done |]. by apply wf_mem_read.
    + split; [| split; [simpl; lia | done]]. unfold content. simpl.
      rewrite mem_read_write_same; [done | | lia |]; fold (content d); lia.
  - specialize (Hp eq_refl). split_and!; try done. lia.
Qed.

(** The three ways out of the loop of [process_data]. *)
Lemma process_data_cases d : dshape d →
  process_data d =
    match parse (output_mtu d) (content d) with
    | More => process_data_receive false d
    | Bad => process_data_receive true d
    | Packet p rest =>
        Some ((), d <| buf_start := buf_start d + (2 + zlen p) |> <| buf_used := buf_used d - (2 + zlen p) |>,
              [DecSend (buf_start d + 2) (zlen p)])
    end.
Proof.
  intros Hs. pose proof (content_len d Hs) as Hcl. pose proof (content_wf d Hs) as Hcw.
  pose proof Hs as (Hm & Hz & Hl & Ha & Hb & Hc & Hw).
  unfold process_data, parse, sizeof_packetproto_header, ltoh16, htol16.
  unfold get, modify, emit, mbind, M_bind. rewrite Hcl. cbn beta iota.
  destruct (buf_used d <? 2) eqn:E; [by destruct (process_data_receive _ d) as [[[[] ?] ?] |] |]. b2p.
  rewrite dec_read_ok by lia. cbn beta iota.
  unfold content at 1 2 3 4 5. rewrite ztake_mem_read by lia. set (n := le_val _).
  destruct (output_mtu d <? n) eqn:E1; [by destruct (process_data_receive _ d) as [[[[] ?] ?] |] |].
  destruct (buf_used d - 2 <? n) eqn:E2; [by destruct (process_data_receive _ d) as [[[[] ?] ?] |] |]. b2p.
  assert (0 ≤ n) as Hn by (apply le_val_bound; by apply wf_mem_read).
  rewrite zlen_ztake, zlen_zdrop. fold (content d). rewrite Hcl.
  replace (Z.min _ _) with n by lia. done.
Qed.

Lemma parse_packet mtu c p rest : parse mtu c = Packet p rest → wf_bytes c →
  c = le_bytes 2 (zlen p) ++ p ++ rest ∧ zlen p ≤ mtu ∧ zlen p < 65536.
Proof.
  unfold parse. repeat case_if; try done. intros [= <- <-] Hc. set (n := le_val (ztake 2 c)) in *.
  pose proof (le_val_bound (ztake 2 c) ltac:(by apply wf_bytes_ztake)) as Hn. fold n in Hn.
  rewrite zlen_ztake in Hn. replace (Z.min _ _) with 2 in Hn by lia.
  assert (zlen (ztake n (zdrop 2 c)) = n) as Hz by (rewrite zlen_ztake, zlen_zdrop; lia).
  rewrite Hz. split; [| lia].
  rewrite <- (zdrop_zdrop n 2) by lia. rewrite (ztake_zdrop n (zdrop 2 c)).
  rewrite <- (ztake_zdrop 2 c) at 1. f_equal. unfold n.
  rewrite <- (le_bytes_le_val (ztake 2 c)) at 1 by (by apply wf_bytes_ztake). f_equal.
  assert (zlen (ztake 2 c) = 2) as H2 by (rewrite zlen_ztake; lia). unfold zlen in H2. lia.
Qed.

Lemma process_data_spec d del n : dshape d →
  ∃ d' cs s', process_data d = Some ((), d', cs) ∧ dcalls d' del n cs = Some s' ∧
    drep s' (aproc (output_mtu d) (content d) del n) ∧ output_mtu (dec s') = output_mtu d.
Proof.
  intros Hs. rewrite (process_data_cases d Hs). unfold aproc.
  destruct (parse (output_mtu d) (content d)) as [| | p rest] eqn:Hp.
  - destruct (wp_inv _ _ _ (receive_spec d false Hs (λ _, Hp))) as ([] & d' & cs & Hrun & Hs' & Hm & Hc & Hl & ->).
    exists d'. eexists _, _. split; [exact Hrun |]. split; [done |]. split; [| done].
    unfold drep. simpl. rewrite Hm, Hc. split_and!; done.
  - destruct (wp_inv _ _ _ (receive_spec d true Hs ltac:(done))) as ([] & d' & cs & Hrun & Hs' & Hm & Hc & Hl & ->).
    exists d'. eexists _, _. split; [exact Hrun |]. split; [done |]. split; [| done].
    unfold drep. simpl. rewrite Hm, Hc. split_and!; done.
  - eexists _, _, _. split; [done |]. split; [done |]. split; [| done].
    pose proof (content_len d Hs) as Hcl. pose proof (content_wf d Hs) as Hcw.
    destruct (parse_packet _ _ _ _ Hp Hcw) as (Hc & Hpm & _). pose proof Hs as (Hm & Hz & Hl & Ha & Hb & Hu & Hw).
    assert (buf_used d = 2 + (zlen p + zlen rest)) as Hused.
    { rewrite <- Hcl, Hc. rewrite !zlen_app. done. }
    pose proof (zlen_nonneg p). pose proof (zlen_nonneg rest).
    assert (mem_read (buf d) (buf_start d + 2) (buf_used d - 2) = p ++ rest) as Hpr.
    { rewrite <- zdrop_mem_read by lia. fold (content d). rewrite Hc. by apply zdrop_app_exact. }
    unfold drep. simpl. split_and!; try done; try lia.
    + unfold dshape. simpl. split_and!; try done; lia.
    + unfold content. simpl. replace (buf_start d + (2 + zlen p)) with (buf_start d + 2 + zlen p) by lia.
      replace (buf_used d - (2 + zlen p)) with (buf_used d - 2 - zlen p) by lia.
      rewrite <- zdrop_mem_read by lia. rewrite Hpr. symmetry. by apply zdrop_app_exact.
    + f_equal. rewrite <- (ztake_mem_read _ _ (buf_used d - 2)) by lia. rewrite Hpr. symmetry. by apply ztake_app_exact.
Qed.

Definition wf_event (e : devent) : Prop := match e with StreamData b => wf_bytes b | _ => True end.

Lemma mem_read_add m off n k : 0 ≤ off → 0 ≤ n → 0 ≤ k →
  mem_read m off (n + k) = mem_read m off n ++ mem_read m (off + n) k.
Proof.
  intros. rewrite <- (ztake_zdrop n (mem_read m off (n + k))).
  rewrite ztake_mem_read, zdrop_mem_read by lia. do 2 f_equal. lia.
Qed.

(** The stream has stored [b] at the end of the buffered bytes. *)
Lemma content_append d b : dshape d → wf_bytes b → zlen b ≤ buf_size d - (buf_start d + buf_used d) →
  let d1 := d <| buf := mem_write (buf d) (buf_start d + buf_used d) b |> <| buf_used := buf_used d + zlen b |> in
  dshape d1 ∧ content d1 = content d ++ b ∧ output_mtu d1 = output_mtu d.
Proof.
  intros (Hm & Hz & Hl & Ha & Hb & Hu & Hw) Hwb Hlen. pose proof (zlen_nonneg b). cbv zeta. split; [| split; [| done]].
  - unfold dshape. simpl. split_and!; try done; try lia.
    + rewrite zlen_mem_write; lia.
    + by apply wf_mem_write.
  - unfold content. simpl. rewrite mem_read_add by lia.
    rewrite mem_read_write_before, mem_read_write_same by lia. done.
Qed.

Lemma input_handler_done_run d n : 0 < n → n ≤ buf_size d - (buf_start d + buf_used d) →
  input_handler_done n d = process_data (d <| buf_used := buf_used d + n |>).
Proof.
  intros H1 H2. unfold input_handler_done, get, assert, modify, mbind, M_bind.
  rewrite (proj2 (Z.ltb_lt 0 n) H1), (proj2 (Z.leb_le _ _) H2).
  by destruct (process_data _) as [[[[] ?] ?] |].
Qed.

Lemma dstep_sim s a e : drep s a → denabled s e = true → wf_event e →
  ∃ s' a', dstep s e = Some s' ∧ adstep (output_mtu (dec s)) a e = Some a' ∧ drep s' a' ∧
    output_mtu (dec s') = output_mtu (dec s).
Proof.
  intros (Hs & Hc & Hdel & Herr & Hw) Hen Hwf. unfold dstep, adstep, denabled in *.
  destruct e as [b | |]; destruct (outstanding s) as [p l | p l] eqn:Eo; try done.
  - destruct Hw as (-> & -> & -> & Hl & Hmore). b2p. simpl in Hwf.
    destruct (content_append (dec s) b Hs Hwf) as (Hs1 & Hc1 & Hm1); [lia |].
    set (d1 := (dec s) <| buf := _ |> <| buf_used := _ |>) in *.
    destruct (process_data_spec d1 (delivered s) (errors s) Hs1) as (d' & cs & s' & Hrun & Hcalls & Hrep & Hm).
    exists s'. eexists. split; [| split; [done |]].
    + rewrite input_handler_done_run by (simpl; lia). change (process_data _) with (process_data d1).
      by rewrite Hrun.
    + rewrite Hc, Hdel, Herr, <- Hc1, <- Hm1. done.
  - destruct Hw as (Ho & Hp & Hl & Hml).
    destruct (process_data_spec (dec s) (delivered s ++ [mem_read (buf (dec s)) p l]) (errors s) Hs)
      as (d' & cs & s' & Hrun & Hcalls & Hrep & Hm).
    exists s'. rewrite Ho. eexists. split; [| split; [done |]].
    + unfold output_handler_done. by rewrite Hrun.
    + by rewrite Hc, Hdel, Herr.
  - destruct Hw as (Ho & -> & -> & Hl & Hmore). destruct Hs as (Hm & Hz & Hlb & Ha & Hb & Hu & Hw).
    eexists _, _. split; [done |]. split; [done |]. split; [| done].
    unfold drep, dshape, content. simpl. split_and!; try done; try lia.
  - destruct Hw as (Ho & Hp & Hl & Hml). destruct Hs as (Hm & Hz & Hlb & Ha & Hb & Hu & Hw).
    eexists _, _. split; [done |]. split; [done |]. split; [| done].
    unfold drep, dshape, content. simpl. split_and!; try done; lia.
Qed.

(** ** Safety on arbitrary input *)

Lemma drun_safe es : ∀ s a, drep s a → Forall wf_event es → ∃ s' a', drun s es = Some s' ∧ drep s' a'.
Proof.
  induction es as [| e es IH]; intros s a Hr Hwf; simpl; [eauto |]. apply Forall_cons_1 in Hwf as [He Hes].
  destruct (denabled s e) eqn:Een; [| eauto].
  destruct (dstep_sim s a e Hr Een He) as (s1 & a1 & -> & _ & Hr1 & _). simpl. eauto.
Qed.

(** What [malloc] promises: a block of the requested size. *)
Definition malloc_ok (mem : Z → option bytes) (n : Z) : Prop := ∃ b, mem n = Some b ∧ zlen b = n ∧ wf_bytes b.

Lemma dstart_rep mem out_mtu : 0 ≤ out_mtu → malloc_ok mem (PACKETPROTO_ENCLEN (Z.min out_mtu PACKETPROTO_MAXPAYLOAD)) →
  ∃ s, dstart mem out_mtu = Some s ∧ drep s (mk_adec [] None [] 0) ∧ output_mtu (dec s) = Z.min out_mtu PACKETPROTO_MAXPAYLOAD.
Proof.
  intros H0 (b & Hb & Hl & Hw). unfold dstart, PacketProtoDecoder_Init. rewrite Hb. simpl. eexists. split; [done |].
  split; [| done]. unfold drep, dshape, content. simpl.
  unfold PACKETPROTO_ENCLEN, sizeof_packetproto_header, PACKETPROTO_MAXPAYLOAD, UINT16_MAX in *. split_and!; try done; lia.
Qed.

(** The outstanding operation is one the neighbour accepts: a non-empty region
    inside the buffer, or an intact packet within the MTU. *)
Definition request_ok (s : dsys) : Prop :=
  match outstanding s with
  | WaitIn p l => 0 ≤ p ∧ 0 < l ∧ p + l = zlen (buf (dec s))
  | WaitOut p l => 0 ≤ p ∧ 0 ≤ l ≤ output_mtu (dec s) ∧ p + l ≤ zlen (buf (dec s))
  end.

(** [C29] Whatever bytes the stream carries, in whatever pieces and with resets at
    any time, the decoder violates no assertion, reads only bytes of its buffer, always
    has exactly one operation outstanding, asks for a non-empty region inside its
    buffer and sends only packets that lie inside the buffer and fit the MTU of the
    output. *)
Theorem decoder_safe mem out_mtu es :
  0 ≤ out_mtu → malloc_ok mem (PACKETPROTO_ENCLEN (Z.min out_mtu PACKETPROTO_MAXPAYLOAD)) → Forall wf_event es →
  ∃ s s', dstart mem out_mtu = Some s ∧ drun s es = Some s' ∧ request_ok s'.
Proof.
  intros H0 Hm Hwf. destruct (dstart_rep mem out_mtu H0 Hm) as (s & Hs & Hr & _).
  destruct (drun_safe es s _ Hr Hwf) as (s' & a' & Hrun & Hr'). exists s, s'. split_and!; [done.. |].
  destruct Hr' as (Hsh & _ & _ & _ & Hw). destruct Hsh as (? & ? & ? & ? & ? & ? & _). unfold request_ok.
  destruct (outstanding s'); intuition lia.
Qed.

Lemma decoder_safe_witness :
  ∃ s s', dstart (λ n, Some (replicate (Z.to_nat n) 0)) 3 = Some s ∧
    drun s [StreamData [9; 0; 1]; StreamData [2; 0; 7]; UserReset; StreamData [1; 0]; StreamData [5]; OutputDone] = Some s' ∧
    request_ok s'.
Proof.
  apply decoder_safe; [lia | |].
  - eexists. split; [done |]. split; [by vm_compute |]. repeat constructor; lia.
  - repeat constructor; lia.
Defined.

(** ** Round trip *)

(** The encoder serves a request for a packet at [data]: the input stores [p] where
    it was asked to and reports its length. Returns the bytes handed out. *)
Definition encode_packet (e : PacketProtoEncoder) (data : Z) (p : bytes) : option (PacketProtoEncoder * bytes) :=
  '(_, e, cs) ← output_handler_recv data e;
  match cs with
  | [EncRecv q] =>
      '(_, e, cs) ← enc_input_handler_done (zlen p) (e <| out_mem := mem_write (out_mem e) q p |>);
      match cs with [EncDone len] => Some (e, mem_read (out_mem e) data len) | _ => None end
  | _ => None
  end.

Fixpoint encode_stream (e : PacketProtoEncoder) (ps : list bytes) : option (list bytes) :=
  match ps with
  | [] => Some []
  | p :: ps => '(e, out) ← encode_packet e 0 p; outs ← encode_stream e ps; Some (out :: outs)
  end.

Lemma le_bytes_2_u16 n : le_bytes 2 (u16 n) = le_bytes 2 n.
Proof.
  pose proof (le_bytes_le_val (le_bytes 2 n) (wf_le_bytes 2 n)) as H. rewrite le_val_le_bytes in H. exact H.
Qed.

Lemma encode_packet_spec e p : output_packet e = None → PACKETPROTO_ENCLEN (zlen p) ≤ zlen (out_mem e) →
  ∃ e', encode_packet e 0 p = Some (e', encode p) ∧ output_packet e' = None ∧ zlen (out_mem e') = zlen (out_mem e).
Proof.
  intros Ho Hlen. unfold PACKETPROTO_ENCLEN, sizeof_packetproto_header in Hlen. pose proof (zlen_nonneg p).
  unfold encode_packet, output_handler_recv, enc_input_handler_done, get, assert, modify, emit, mbind, M_bind.
  rewrite Ho. simpl. unfold PACKETPROTO_ENCLEN, sizeof_packetproto_header, htol16. rewrite le_bytes_2_u16.
  set (m1 := mem_write (out_mem e) (0 + 2) p).
  assert (zlen m1 = zlen (out_mem e)) as H1 by (apply zlen_mem_write; lia).
  assert (zlen (le_bytes 2 (zlen p)) = 2) as H2 by done.
  exists (mk_PacketProtoEncoder (input_mtu e) (output_mtu_enc e) None (mem_write m1 0 (le_bytes 2 (zlen p)))).
  split; [| split; [done |]]; simpl.
  - do 2 f_equal. rewrite mem_read_add by lia. unfold encode.
    rewrite (mem_read_write_same m1), mem_read_write_after by lia. f_equal. unfold m1.
    by rewrite mem_read_write_same by lia.
  - rewrite zlen_mem_write; [done | lia..].
Qed.

Lemma encode_stream_spec ps : ∀ e, output_packet e = None →
  Forall (λ p, PACKETPROTO_ENCLEN (zlen p) ≤ zlen (out_mem e)) ps → encode_stream e ps = Some (map encode ps).
Proof.
  induction ps as [| p ps IH]; intros e Ho Hps; [done |]. apply Forall_cons_1 in Hps as [Hp Hps]. simpl.
  destruct (encode_packet_spec e p Ho Hp) as (e' & -> & Ho' & Hl'). simpl.
  rewrite (IH e' Ho'); [done |]. by rewrite Hl'.
Qed.

Definition fits (mtu : Z) (p : bytes) : Prop := zlen p ≤ mtu ∧ zlen p ≤ PACKETPROTO_MAXPAYLOAD.

Lemma zlen_encode p : zlen (encode p) = 2 + zlen p.
Proof. unfold encode. by rewrite zlen_app. Qed.

Lemma parse_encode mtu p rest : fits mtu p → parse mtu (encode p ++ rest) = Packet p rest.
Proof.
  intros [H1 H2]. unfold PACKETPROTO_MAXPAYLOAD, UINT16_MAX in H2. pose proof (zlen_nonneg p). pose proof (zlen_nonneg rest).
  unfold parse. rewrite zlen_app, zlen_encode.
  rewrite (proj2 (Z.ltb_ge _ _)) by lia. cbv zeta.
  assert (encode p ++ rest = le_bytes 2 (zlen p) ++ p ++ rest) as E by (unfold encode; by rewrite <- app_assoc).
  rewrite (ztake_app_le 2) by (rewrite zlen_encode; lia).
  assert (ztake 2 (encode p) = le_bytes 2 (zlen p)) as -> by (apply ztake_app_exact; done).
  rewrite le_val_le_bytes_small by (change (256 ^ Z.of_nat 2) with 65536; lia).
  rewrite !(proj2 (Z.ltb_ge _ _)) by lia. f_equal.
  - rewrite E, zdrop_app_exact by done. by apply ztake_app_exact.
  - apply zdrop_app_exact. by rewrite zlen_encode.
Qed.

(** A proper prefix of an encoded packet asks for more. *)
Lemma parse_short mtu p c k : fits mtu p → c ++ k = encode p → k ≠ [] → parse mtu c = More.
Proof.
  intros [H1 H2] E Hk. unfold PACKETPROTO_MAXPAYLOAD, UINT16_MAX in H2. pose proof (zlen_nonneg p).
  assert (zlen c < 2 + zlen p) as Hl.
  { rewrite <- zlen_encode, <- E, zlen_app. destruct k; [done |]. rewrite zlen_cons. pose proof (zlen_nonneg k). lia. }
  unfold parse. case_if; [done |]. cbv zeta.
  assert (ztake 2 c = le_bytes 2 (zlen p)) as ->.
  { rewrite <- (ztake_app_le 2 c k) by lia. rewrite E. apply ztake_app_exact. done. }
  rewrite le_val_le_bytes_small by (change (256 ^ Z.of_nat 2) with 65536; lia).
  rewrite (proj2 (Z.ltb_ge _ _)) by lia. by rewrite (proj2 (Z.ltb_lt _ _)) by lia.
Qed.

Lemma parse_prefix mtu c rs : Forall (fits mtu) rs → c `prefix_of` encode_all rs →
  (parse mtu c = More ∧ (c = encode_all rs → rs = [])) ∨
  ∃ p rs' c', rs = p :: rs' ∧ parse mtu c = Packet p c' ∧ c = encode p ++ c' ∧ c' `prefix_of` encode_all rs'.
Proof.
  intros Hf [k Hk]. destruct rs as [| p rs].
  - left. simpl in Hk. symmetry in Hk. apply app_eq_nil in Hk as [-> ->]. done.
  - apply Forall_cons_1 in Hf as [Hp Hf]. change (encode_all (p :: rs)) with (encode p ++ encode_all rs) in *.
    apply app_eq_inv in Hk as [[c' [Hc Hk]] | [c' [Hc Hk]]].
    + destruct (decide (c' = [])) as [-> | Hne].
      * rewrite app_nil_r in Hc. right. exists p, rs, []. rewrite app_nil_r. split_and!; [done | | done | apply prefix_nil].
        rewrite <- Hc, <- (app_nil_r (encode p)). by apply parse_encode.
      * left. split; [by eapply parse_short |]. intros ->. exfalso. apply Hne.
        apply (f_equal zlen) in Hc. rewrite !zlen_app in Hc. pose proof (zlen_nonneg (encode_all rs)). pose proof (zlen_nonneg c').
        apply zlen_0_nil. lia.
    + right. exists p, rs, c'. subst c. split_and!; [done | by apply parse_encode | done | by exists k].
Qed.

Definition no_reset (e : devent) : Prop := e ≠ UserReset.

(** The decoder has cut [inp], a prefix of the encoding of [ps], correctly. *)
Definition cut (ps : list bytes) (inp : bytes) (a : adec) : Prop :=
  a_errors a = 0%nat ∧ ∃ rs, ps = a_delivered a ++ option_list (a_out a) ++ rs ∧
    inp = encode_all (a_delivered a ++ option_list (a_out a)) ++ a_content a ∧
    a_content a `prefix_of` encode_all rs ∧ (a_out a = None → a_content a = encode_all rs → rs = []).

Lemma encode_all_app ps qs : encode_all (ps ++ qs) = encode_all ps ++ encode_all qs.
Proof. unfold encode_all. by rewrite map_app, concat_app. Qed.

Lemma encode_all_one p : encode_all [p] = encode p.
Proof. apply app_nil_r. Qed.

Lemma aproc_cut mtu ps rs del c : Forall (fits mtu) ps → ps = del ++ rs → c `prefix_of` encode_all rs →
  cut ps (encode_all del ++ c) (aproc mtu c del 0).
Proof.
  intros Hf -> Hc. apply Forall_app in Hf as [_ Hf]. unfold aproc, cut.
  destruct (parse_prefix mtu c rs Hf Hc) as [[-> Hm] | (p & rs' & c' & -> & -> & -> & Hc')]; simpl.
  - split; [done |]. exists rs. rewrite app_nil_r. done.
  - split; [done |]. exists rs'. rewrite encode_all_app, encode_all_one, <- app_assoc. done.
Qed.

Lemma adstep_cut mtu ps inp a e a' : Forall (fits mtu) ps → cut ps inp a → no_reset e →
  inp ++ match e with StreamData b => b | _ => [] end `prefix_of` encode_all ps →
  adstep mtu a e = Some a' → cut ps (inp ++ match e with StreamData b => b | _ => [] end) a'.
Proof.
  intros Hf (He & rs & Hps & Hinp & Hc & _) Hne Hpre Hst. unfold adstep in Hst.
  destruct e as [b | |], (a_out a) as [p |] eqn:Eo; simplify_eq/=; try rewrite He; try (by exfalso; apply Hne).
  - rewrite app_nil_r, <- app_assoc in *. eapply aproc_cut; [done | done |].
    apply prefix_app_inv with (encode_all (a_delivered a)). by rewrite <- encode_all_app.
  - rewrite app_nil_r. eapply aproc_cut; [done | | done]. by rewrite <- app_assoc.
Qed.

Lemma drun_cut ps es : ∀ s a inp, drep s a → cut ps inp a → Forall (fits (output_mtu (dec s))) ps →
  Forall wf_event es → Forall no_reset es → inp ++ dinput s es `prefix_of` encode_all ps →
  ∃ s' a', drun s es = Some s' ∧ drep s' a' ∧ cut ps (inp ++ dinput s es) a'.
Proof.
  induction es as [| e es IH]; intros s a inp Hr Hcut Hf Hwf Hnr Hpre; simpl in *.
  - rewrite app_nil_r. eauto.
  - apply Forall_cons_1 in Hwf as [He Hwf]. apply Forall_cons_1 in Hnr as [Hne Hnr].
    destruct (denabled s e) eqn:Een; [| eauto].
    destruct (dstep_sim s a e Hr Een He) as (s1 & a1 & Hst & Ha & Hr1 & Hm1). rewrite Hst in *. simpl.
    rewrite app_assoc in Hpre |- *. rewrite <- Hm1 in *.
    eapply IH; [done | | done..]. eapply adstep_cut; [done | done | done | | exact Ha].
    by eapply prefix_app_l.
Qed.

(** [C2] Encoding followed by decoding is the identity on packet sequences. The
    encoder turns packets within its MTU into a stream; however the stream is cut
    into pieces and however deliveries interleave with it, the decoder reports no
    error and what it delivers is a prefix of the packets; once the whole stream
    is in and no packet is in progress, it has delivered all of them. *)
Theorem packetproto_roundtrip mem out_mtu mtu m ps :
  0 ≤ mtu ≤ out_mtu → mtu ≤ PACKETPROTO_MAXPAYLOAD → zlen m = PACKETPROTO_ENCLEN mtu →
  malloc_ok mem (PACKETPROTO_ENCLEN (Z.min out_mtu PACKETPROTO_MAXPAYLOAD)) →
  Forall (λ p : bytes, zlen p ≤ mtu) ps →
  ∃ e outs s, PacketProtoEncoder_Init mtu m = Some e ∧ encode_stream e ps = Some outs ∧
    dstart mem out_mtu = Some s ∧
    ∀ es, Forall wf_event es → Forall no_reset es → dinput s es `prefix_of` concat outs →
    ∃ s', drun s es = Some s' ∧ errors s' = 0%nat ∧ delivered s' `prefix_of` ps ∧
      (∀ p l, outstanding s' = WaitIn p l → dinput s es = concat outs → delivered s' = ps).
Proof.
  intros Hm Hmax Hz Hmem Hps. destruct (dstart_rep mem out_mtu ltac:(lia) Hmem) as (s & Hs & Hr & Hmtu).
  unfold PacketProtoEncoder_Init. rewrite ASSERT_seq by lia.
  eexists _, _, s. split; [done |]. split.
  { apply encode_stream_spec; [done |]. eapply Forall_impl; [exact Hps |]. intros p Hp. simpl in *.
    rewrite Hz. unfold PACKETPROTO_ENCLEN. lia. }
  split; [exact Hs |]. intros es Hwf Hnr Hpre.
  destruct (drun_cut ps es s _ [] Hr) as (s' & a' & Hrun & Hr' & Hcut); [| | done | done | exact Hpre |].
  - split; [done |]. exists ps. split_and!; [done | done | apply prefix_nil |]. intros _ H. simpl in H.
    destruct ps as [| p ps]; [done |]. apply (f_equal zlen) in H. change (encode_all (p :: ps)) with (encode p ++ encode_all ps) in H.
    rewrite zlen_app, zlen_encode, zlen_nil in H. pose proof (zlen_nonneg p). pose proof (zlen_nonneg (encode_all ps)). lia.
  - rewrite Hmtu. eapply Forall_impl; [exact Hps |]. intros p Hp. split; simpl in *; lia.
  - destruct Hcut as (He & rs & Hps' & Hinp & Hc & Hall). destruct Hr' as (_ & _ & Hdel & Herr & Hout).
    exists s'. rewrite <- Herr, <- Hdel. split_and!; [done | done | by exists (option_list (a_out a') ++ rs) |].
    intros p l Ho Hfull. rewrite Ho in Hout. destruct Hout as (Hno & _).
    rewrite Hno, app_nil_r in Hinp. rewrite Hno in Hps'. simpl in *.
    rewrite Hfull in Hinp. change (concat (map encode ps)) with (encode_all ps) in Hinp.
    rewrite Hps' in Hinp at 1. rewrite encode_all_app in Hinp. apply app_inv_head in Hinp.
    rewrite (Hall Hno (eq_sym Hinp)), app_nil_r in Hps'. done.
Qed.

Lemma packetproto_roundtrip_witness :
  ∃ e outs s, PacketProtoEncoder_Init 3 (replicate 5 0) = Some e ∧ encode_stream e [[1; 2; 3]; []; [4]] = Some outs ∧
    dstart (λ n, Some (replicate (Z.to_nat n) 0)) 4 = Some s ∧
    ∀ es, Forall wf_event es → Forall no_reset es → dinput s es `prefix_of` concat outs →
    ∃ s', drun s es = Some s' ∧ errors s' = 0%nat ∧ delivered s' `prefix_of` [[1; 2; 3]; []; [4]] ∧
      (∀ p l, outstanding s' = WaitIn p l → dinput s es = concat outs → delivered s' = [[1; 2; 3]; []; [4]]).
Proof.
  apply packetproto_roundtrip; [lia | by vm_compute | by vm_compute | |].
  - eexists. split; [done |]. split; [by vm_compute |]. repeat constructor; lia.
  - repeat constructor; by vm_compute.
Defined.
