(* ===== verification/LinkedLists.v ===== *)
(** * Intrusive linked lists (structure/SLinkedList_impl.h, structure/LinkedList1.h)

    Nodes live in a heap and are named by addresses; [None] is the null pointer.
    Dereferencing a null or dangling pointer makes an operation undefined.
    [SLinkedList] is the instance with [SLINKEDLIST_PARAM_FEATURE_LAST = 0], the
    one base/BPending_list.h asks for: it keeps no last pointer, leaves the
    [prev] field of the first node uninitialised and marks a node that is on no
    list by a [next] field that points to the node itself.

    [dlist strict h l] says that the nodes [l] are linked in this order in [h];
    [strict] says whether the first node has a null [prev]. *)
From S2P Require Import Prelude.

Abbreviation addr := nat.
Abbreviation ptr := (option addr).

Record node := mk_node { n_prev : ptr; n_next : ptr }.
#[export] Instance node_eta : Eta node := λ n, mk_node (n_prev n) (n_next n).

Abbreviation heap := (gmap addr node).

Definition nonnull (p : ptr) : bool := match p with Some _ => true | None => false end.

(** Loads and stores through a pointer. *)
Definition load (h : heap) (p : ptr) : option node := x ← p; h !! x.
Definition load_next (h : heap) (p : ptr) : option ptr := n_next <$> load h p.
Definition load_prev (h : heap) (p : ptr) : option ptr := n_prev <$> load h p.
Definition store_next (h : heap) (p v : ptr) : option heap :=
  x ← p; n ← h !! x; Some (<[x := n <| n_next := v |>]> h).
Definition store_prev (h : heap) (p v : ptr) : option heap :=
  x ← p; n ← h !! x; Some (<[x := n <| n_prev := v |>]> h).

(** ** SLinkedList *)

(** The list object: [first]. *)
Definition SLinkedListMarkRemoved (h : heap) (entry : addr) : option heap :=
  store_next h (Some entry) (Some entry).

Definition SLinkedListIsRemoved (h : heap) (entry : addr) : option bool :=
  n ← load_next h (Some entry); Some (bool_decide (Some entry = n)).

Definition SLinkedList_Init : ptr := None.

Definition SLinkedList_Next (h : heap) (first : ptr) (entry : addr) : option ptr :=
  load_next h (Some entry).

Definition SLinkedList_Prev (h : heap) (first : ptr) (entry : addr) : option ptr :=
  if bool_decide (Some entry = first) then Some None else load_prev h (Some entry).

Definition SLinkedList_Prepend (h : heap) (first : ptr) (entry : addr) : option (heap * ptr) :=
  h ← store_next h (Some entry) first;
  h ← (if nonnull first then store_prev h first (Some entry) else Some h);
  Some (h, Some entry).

Definition SLinkedList_InsertBefore (h : heap) (first : ptr) (entry before_entry : addr)
    : option (heap * ptr) :=
  h ← store_next h (Some entry) (Some before_entry);
  '(h, first) ←
    (if bool_decide (Some before_entry ≠ first) then
       p ← load_prev h (Some before_entry);
       h ← store_prev h (Some entry) p;
       p ← load_prev h (Some before_entry);
       h ← store_next h p (Some entry);
       Some (h, first)
     else Some (h, Some entry));
  h ← store_prev h (Some before_entry) (Some entry);
  Some (h, first).

Definition SLinkedList_InsertAfter (h : heap) (first : ptr) (entry after_entry : addr)
    : option (heap * ptr) :=
  n ← load_next h (Some after_entry);
  h ← store_next h (Some entry) n;
  h ← store_prev h (Some entry) (Some after_entry);
  n ← load_next h (Some after_entry);
  h ← (if nonnull n then store_prev h n (Some entry) else Some h);
  h ← store_next h (Some after_entry) (Some entry);
  Some (h, first).

Definition SLinkedList_Remove (h : heap) (first : ptr) (entry : addr) : option (heap * ptr) :=
  if bool_decide (Some entry ≠ first) then
    p ← load_prev h (Some entry);
    n ← load_next h (Some entry);
    h ← store_next h p n;
    n ← load_next h (Some entry);
    h ← (if nonnull n then p ← load_prev h (Some entry); store_prev h n p else Some h);
    Some (h, first)
  else
    n ← load_next h (Some entry);
    Some (h, n).

Definition SLinkedList_RemoveFirst (h : heap) (first : ptr) : option (heap * ptr) :=
  ASSERT (bool_decide (is_Some first));;
  n ← load_next h first;
  Some (h, n).

Definition SLinkedList_First (first : ptr) : ptr := first.
Definition SLinkedList_IsEmpty (first : ptr) : bool := bool_decide (first = None).

(** ** LinkedList1 *)

Record LinkedList1 := mk_LinkedList1 { l_first : ptr; l_last : ptr }.
#[export] Instance LinkedList1_eta : Eta LinkedList1 := λ l, mk_LinkedList1 (l_first l) (l_last l).

Definition LinkedList1_Init : LinkedList1 := mk_LinkedList1 None None.
Definition LinkedList1_IsEmpty (l : LinkedList1) : bool := bool_decide (l_first l = None).
Definition LinkedList1_GetFirst (l : LinkedList1) : ptr := l_first l.
Definition LinkedList1_GetLast (l : LinkedList1) : ptr := l_last l.

Definition LinkedList1_Prepend (h : heap) (l : LinkedList1) (nd : addr) : option (heap * LinkedList1) :=
  h ← store_prev h (Some nd) None;
  h ← store_next h (Some nd) (l_first l);
  '(h, l) ←
    (if nonnull (l_first l) then h ← store_prev h (l_first l) (Some nd); Some (h, l)
     else Some (h, l <| l_last := Some nd |>));
  Some (h, l <| l_first := Some nd |>).

Definition LinkedList1_Append (h : heap) (l : LinkedList1) (nd : addr) : option (heap * LinkedList1) :=
  h ← store_prev h (Some nd) (l_last l);
  h ← store_next h (Some nd) None;
  '(h, l) ←
    (if nonnull (l_last l) then h ← store_next h (l_last l) (Some nd); Some (h, l)
     else Some (h, l <| l_first := Some nd |>));
  Some (h, l <| l_last := Some nd |>).

Definition LinkedList1_InsertBefore (h : heap) (l : LinkedList1) (nd target : addr)
    : option (heap * LinkedList1) :=
  p ← load_prev h (Some target);
  h ← store_prev h (Some nd) p;
  h ← store_next h (Some nd) (Some target);
  p ← load_prev h (Some target);
  '(h, l) ←
    (if nonnull p then h ← store_next h p (Some nd); Some (h, l)
     else Some (h, l <| l_first := Some nd |>));
  h ← store_prev h (Some target) (Some nd);
  Some (h, l).

Definition LinkedList1_InsertAfter (h : heap) (l : LinkedList1) (nd target : addr)
    : option (heap * LinkedList1) :=
  h ← store_prev h (Some nd) (Some target);
  n ← load_next h (Some target);
  h ← store_next h (Some nd) n;
  n ← load_next h (Some target);
  '(h, l) ←
    (if nonnull n then h ← store_prev h n (Some nd); Some (h, l)
     else Some (h, l <| l_last := Some nd |>));
  h ← store_next h (Some target) (Some nd);
  Some (h, l).

Definition LinkedList1_Remove (h : heap) (l : LinkedList1) (nd : addr) : option (heap * LinkedList1) :=
  p ← load_prev h (Some nd);
  n ← load_next h (Some nd);
  '(h, l) ←
    (if nonnull p then h ← store_next h p n; Some (h, l)
     else Some (h, l <| l_first := n |>));
  p ← load_prev h (Some nd);
  n ← load_next h (Some nd);
  (if nonnull n then h ← store_prev h n p; Some (h, l)
   else Some (h, l <| l_last := p |>)).

Definition LinkedList1Node_Next (h : heap) (nd : addr) : option ptr := load_next h (Some nd).
Definition LinkedList1Node_Prev (h : heap) (nd : addr) : option ptr := load_prev h (Some nd).

(** ** Chains of nodes *)

Definition head_or (l : list addr) (q : ptr) : ptr := match l with [] => q | x :: _ => Some x end.
Definition last_or (l : list addr) (p : ptr) : ptr := match list.last l with None => p | Some x => Some x end.

(** The nodes [l] are linked in order, after [p] and before [q]. *)
Fixpoint seg (strict : bool) (h : heap) (p : ptr) (l : list addr) (q : ptr) : Prop :=
  match l with
  | [] => True
  | x :: l' =>
      ∃ n, h !! x = Some n ∧ n_next n = head_or l' q ∧
        (strict = true ∨ is_Some p → n_prev n = p) ∧ seg strict h (Some x) l' q
  end.

Definition dlist (strict : bool) (h : heap) (l : list addr) : Prop := NoDup l ∧ seg strict h None l None.

Definition sl_rep (h : heap) (first : ptr) (l : list addr) : Prop := dlist false h l ∧ first = head l.
Definition ll1_rep (h : heap) (o : LinkedList1) (l : list addr) : Prop :=
  dlist true h l ∧ l_first o = head l ∧ l_last o = list.last l.

Section chains.
Context (st : bool).
Implicit Types h : heap.

Lemma head_or_app l1 l2 q : head_or (l1 ++ l2) q = head_or l1 (head_or l2 q).
Proof. by destruct l1. Qed.

Lemma head_or_None l : head_or l None = head l.
Proof. by destruct l. Qed.

Lemma last_mid (l : list addr) x k : list.last (l ++ x :: k) = list.last (x :: k).
Proof. rewrite last_app, last_cons. by destruct (list.last k). Qed.

Lemma last_or_snoc l x p : last_or (l ++ [x]) p = Some x.
Proof. unfold last_or. by rewrite last_snoc. Qed.

Lemma last_or_cons x l p : last_or (x :: l) p = last_or l (Some x).
Proof. unfold last_or. rewrite last_cons. by destruct (list.last l). Qed.

Lemma seg_app h l1 : ∀ p l2 q,
  seg st h p (l1 ++ l2) q ↔ seg st h p l1 (head_or l2 q) ∧ seg st h (last_or l1 p) l2 q.
Proof.
  induction l1 as [| x l1 IH]; intros p l2 q; [simpl; tauto |].
  rewrite last_or_cons. simpl. setoid_rewrite IH. rewrite head_or_app.
  split; [intros (n & ? & ? & ? & ? & ?) | intros [(n & ? & ? & ? & ?) ?]]; eauto 8.
Qed.

Lemma seg_frame h x n l : ∀ p q, x ∉ l → seg st h p l q → seg st (<[x := n]> h) p l q.
Proof.
  induction l as [| y l IH]; intros p q Hx; [done |]. apply not_elem_of_cons in Hx as [Hxy Hx].
  intros (m & Hm & Hn & Hp & Hs). exists m. rewrite lookup_insert_ne by done. eauto.
Qed.

Lemma seg_delete h x l : ∀ p q, x ∉ l → seg st h p l q → seg st (delete x h) p l q.
Proof.
  induction l as [| y l IH]; intros p q Hx; [done |]. apply not_elem_of_cons in Hx as [Hxy Hx].
  intros (m & Hm & Hn & Hp & Hs). exists m. rewrite lookup_delete_ne by done. eauto.
Qed.


Lemma seg_weaken h p l q : seg false h p l q → seg false h None l q.
Proof. destruct l as [| x l]; [done |]. intros (n & ? & ? & _ & ?). exists n. split_and!; [done.. | by intros [? | [? ?]] | done]. Qed.

Lemma seg_lookup h p l1 x l2 q : seg st h p (l1 ++ x :: l2) q →
  ∃ n, h !! x = Some n ∧ n_next n = head_or l2 q ∧ (st = true ∨ is_Some (last_or l1 p) → n_prev n = last_or l1 p).
Proof. rewrite seg_app. intros [_ (n & ? & ? & ? & _)]. eauto. Qed.

Lemma seg_In h p l q x : seg st h p l q → x ∈ l → is_Some (h !! x).
Proof.
  intros Hs (l1 & l2 & ->)%list_elem_of_split. destruct (seg_lookup _ _ _ _ _ _ Hs) as (n & -> & _). eauto.
Qed.

End chains.

(** Evaluates loads and stores whose nodes are known. *)
Ltac heap_go :=
  unfold store_next, store_prev, load_next, load_prev, load;
  repeat first
    [ progress simpl
    | rewrite lookup_insert_eq
    | rewrite lookup_insert_ne by congruence
    | rewrite bool_decide_true by congruence
    | rewrite bool_decide_false by congruence
    | match goal with
      | H : ?h !! ?x = Some _ |- context [?h !! ?x] => rewrite H
      | H : n_next ?n = _ |- context [n_next ?n] => rewrite H
      | H : n_prev ?n = _ |- context [n_prev ?n] => rewrite H
      | H : l_first ?n = _ |- context [l_first ?n] => rewrite H
      | H : l_last ?n = _ |- context [l_last ?n] => rewrite H
      end ].

Ltac nodup_tac :=
  repeat match goal with
  | H : NoDup (_ ++ _) |- _ => apply NoDup_app in H as (? & ? & ?)
  | H : NoDup (_ :: _) |- _ => apply NoDup_cons in H as [? ?]
  end.

Ltac nodup_go :=
  repeat first [apply NoDup_app; split_and!; [| set_solver |] | apply NoDup_cons; split; [set_solver |]];
  first [done | apply NoDup_nil_2].

Ltac frame_go := let y := fresh "y" in intros y ?; rewrite ?lookup_insert_ne by set_solver; done.

(** Proves a chain after stores, node by node. *)
Ltac seg_go :=
  repeat first
    [ progress simpl
    | apply seg_app; split
    | apply seg_frame; [set_solver |]
    | assumption
    | exact I
    | match goal with
      | |- ∃ n, _ ∧ _ => eexists; split; [heap_go; reflexivity |]; simpl; split; [try done | split; [try done |]]
      end ].

Lemma ll1_remove_spec h o l1 x l2 : ll1_rep h o (l1 ++ x :: l2) →
  ∃ h' o', LinkedList1_Remove h o x = Some (h', o') ∧ ll1_rep h' o' (l1 ++ l2) ∧
    (∀ y, y ∉ l1 ++ l2 → h' !! y = h !! y).
Proof.
  intros [[Hnd Hs] [Hf Hl]].
  destruct l1 as [| y k _] using rev_ind.
  - simpl in *. destruct Hs as (nx & Hx & Hxn & Hxp & Hs). specialize (Hxp (or_introl eq_refl)).
    destruct l2 as [| z l2]; simpl in *.
    + unfold LinkedList1_Remove. heap_go. eexists _, _. split; [done |]. split; [| done].
      split; [split; [constructor | done] | done].
    + destruct Hs as (nz & Hz & Hzn & Hzp & Hs). specialize (Hzp (or_introl eq_refl)).
      assert (x ≠ z) by set_solver.
      unfold LinkedList1_Remove. heap_go. eexists _, _. split; [done |]. nodup_tac.
      split; [split |].
      * split; [by apply NoDup_cons |]. seg_go.
      * simpl. split; [done |]. rewrite ?Hl. by rewrite !last_cons.
      * frame_go.
  - rewrite <- app_assoc in Hnd, Hs. apply seg_app in Hs as [Hk Hs]. simpl in Hs.
    destruct Hs as (ny & Hy & Hyn & Hyp & nx & Hx & Hxn & Hxp & Hs).
    specialize (Hxp (or_introl eq_refl)).
    destruct l2 as [| z l2]; simpl in *.
    + nodup_tac. assert (x ≠ y) by set_solver.
      unfold LinkedList1_Remove. heap_go. eexists _, _. split; [done |]. rewrite app_nil_r.
      split; [split |].
      * split; [apply NoDup_app; split_and!; [done | set_solver | apply NoDup_singleton] |]. seg_go.
      * simpl. rewrite last_snoc. split; [| done]. rewrite ?Hf. by destruct k.
      * frame_go.
    + destruct Hs as (nz & Hz & Hzn & Hzp & Hs). specialize (Hzp (or_introl eq_refl)).
      nodup_tac. assert (x ≠ y ∧ x ≠ z ∧ y ≠ z) as (? & ? & ?) by set_solver.
      unfold LinkedList1_Remove. heap_go. eexists _, _. split; [done |]. rewrite <- app_assoc.
      split; [split |].
      * split; [apply NoDup_app; split_and!; [done | set_solver |] |].
        -- repeat (apply NoDup_cons; split; [set_solver |]). done.
        -- seg_go.
      * simpl. rewrite ?Hf, ?Hl, <- app_assoc, !last_mid. split; [by destruct k |].
        by etransitivity; [exact (last_mid k y (x :: z :: l2)) |].
      * frame_go.
Qed.

Lemma ll1_rep_frame h ls l x n : ll1_rep h ls l → x ∉ l → ll1_rep (<[x := n]> h) ls l.
Proof. intros [[Hnd Hs] Hr] Hx. split; [| done]. split; [done |]. by apply seg_frame. Qed.

Lemma ll1_rep_delete h ls l x : ll1_rep h ls l → x ∉ l → ll1_rep (delete x h) ls l.
Proof. intros [[Hnd Hs] Hr] Hx. split; [| done]. split; [done |]. by apply seg_delete. Qed.

(** A node off the list that can be stored to. *)
Definition fresh_node (h : heap) (l : list addr) (x : addr) : Prop := (x ∉ l) ∧ is_Some (h !! x).

Lemma ll1_prepend_spec h o l x : ll1_rep h o l → fresh_node h l x →
  ∃ h' o', LinkedList1_Prepend h o x = Some (h', o') ∧ ll1_rep h' o' (x :: l) ∧
    (∀ y, y ∉ (x :: l) → h' !! y = h !! y).
Proof.
  intros [[Hnd Hs] [Hf Hl]] [Hx [nx Hnx]].
  assert (NoDup (x :: l)) by (by apply NoDup_cons).
  destruct l as [| z l]; simpl in *.
  - unfold LinkedList1_Prepend. heap_go. eexists _, _. split; [done |].
    split; [split; [split; [done |] | done] |]; [seg_go |].
    frame_go.
  - destruct Hs as (nz & Hz & Hzn & Hzp & Hs). nodup_tac. assert (x ≠ z) by set_solver.
    unfold LinkedList1_Prepend. heap_go. eexists _, _. split; [done |].
    split; [split; [split; [nodup_go |] |] |].
    + seg_go.
    + done.
    + frame_go.
Qed.

Lemma ll1_append_spec h o l x : ll1_rep h o l → fresh_node h l x →
  ∃ h' o', LinkedList1_Append h o x = Some (h', o') ∧ ll1_rep h' o' (l ++ [x]) ∧
    (∀ y, y ∉ l ++ [x] → h' !! y = h !! y).
Proof.
  intros [[Hnd Hs] [Hf Hl]] [Hx [nx Hnx]].
  assert (NoDup (l ++ [x])) by (apply NoDup_app; split_and!; [done | set_solver | apply NoDup_singleton]).
  destruct l as [| z l _] using rev_ind.
  - simpl in *. unfold LinkedList1_Append. heap_go. eexists _, _. split; [done |].
    split; [split; [split; [done |] | done] |]; [seg_go |].
    frame_go.
  - rewrite last_snoc in Hl. apply seg_app in Hs as [Hs (nz & Hz & Hzn & Hzp & _)].
    assert (x ≠ z) by set_solver. assert (x ∉ l) by set_solver.
    assert (z ∉ l) by (apply NoDup_app in Hnd as (_ & Hd & _); set_solver).
    unfold LinkedList1_Append. heap_go. eexists _, _. split; [done |].
    split; [split; [split; [done |] |] |].
    + rewrite <- app_assoc. seg_go.
    + simpl. rewrite last_snoc, ?Hf. by destruct l.
    + frame_go.
Qed.

(** Moving a node to the end of the list. *)
Lemma ll1_touch_spec h o l1 x l2 : ll1_rep h o (l1 ++ x :: l2) →
  ∃ h1 o1 h2 o2, LinkedList1_Remove h o x = Some (h1, o1) ∧ LinkedList1_Append h1 o1 x = Some (h2, o2) ∧
    ll1_rep h2 o2 (l1 ++ l2 ++ [x]).
Proof.
  intros Hrep. destruct (ll1_remove_spec h o l1 x l2 Hrep) as (h1 & o1 & E1 & H1 & Hf). destruct Hrep as [[Hnd Hs] _].
  assert (x ∉ l1 ++ l2) as Hni by (apply NoDup_app in Hnd as (_ & Hd & [? _]%NoDup_cons); set_solver).
  destruct (ll1_append_spec h1 o1 (l1 ++ l2) x H1) as (h2 & o2 & E2 & H2 & _).
  { split; [done |]. rewrite Hf by done. eapply seg_In; [exact Hs | set_solver]. }
  exists h1, o1, h2, o2. rewrite <- app_assoc in H2. done.
Qed.

Lemma NoDup_insert (l1 l2 : list addr) x : NoDup (l1 ++ l2) → x ∉ l1 ++ l2 → NoDup (l1 ++ x :: l2).
Proof. intros (? & ? & ?)%NoDup_app ?. apply NoDup_app. split_and!; [done | set_solver | apply NoDup_cons; set_solver]. Qed.

Lemma NoDup_delete (l1 l2 : list addr) x : NoDup (l1 ++ x :: l2) → NoDup (l1 ++ l2).
Proof. intros (? & ? & [? ?]%NoDup_cons)%NoDup_app. apply NoDup_app. split_and!; [done | set_solver | done]. Qed.

Lemma ll1_insert_after_spec h o l1 t l2 x : ll1_rep h o (l1 ++ t :: l2) → fresh_node h (l1 ++ t :: l2) x →
  ∃ h' o', LinkedList1_InsertAfter h o x t = Some (h', o') ∧ ll1_rep h' o' (l1 ++ t :: x :: l2) ∧
    (∀ y, y ∉ l1 ++ t :: x :: l2 → h' !! y = h !! y).
Proof.
  intros [[Hnd Hs] [Hf Hl]] [Hx [nx Hnx]].
  assert (NoDup (l1 ++ t :: x :: l2)) as Hnd'.
  { pose proof (NoDup_insert (l1 ++ [t]) l2 x) as H. rewrite <- !app_assoc in H. auto. }
  apply seg_app in Hs as [Hs1 (nt & Ht & Htn & Htp & Hs2)]. nodup_tac.
  assert (x ≠ t) by set_solver. assert (x ∉ l1) by set_solver.
  assert (t ∉ l1) by set_solver. assert (x ∉ l2) by set_solver.
  destruct l2 as [| z l2].
  - simpl in *. rewrite last_mid in Hl. simpl in Hl.
    unfold LinkedList1_InsertAfter. heap_go. eexists _, _. split; [done |].
    split; [split; [split; [nodup_go |] |] |].
    + seg_go.
    + rewrite last_mid. simpl. split; [by destruct l1 | done].
    + frame_go.
  - destruct Hs2 as (nz & Hz & Hzn & Hzp & Hs2). nodup_tac. assert (x ≠ z ∧ t ≠ z) as [? ?] by set_solver.
    simpl in *. rewrite last_mid in Hl. simpl in Hl.
    unfold LinkedList1_InsertAfter. heap_go. eexists _, _. split; [done |].
    split; [split; [split; [nodup_go |] |] |].
    + seg_go.
    + rewrite last_mid. simpl. split; [by destruct l1 | done].
    + frame_go.
Qed.

Lemma ll1_insert_before_spec h o l1 t l2 x : ll1_rep h o (l1 ++ t :: l2) → fresh_node h (l1 ++ t :: l2) x →
  ∃ h' o', LinkedList1_InsertBefore h o x t = Some (h', o') ∧ ll1_rep h' o' (l1 ++ x :: t :: l2) ∧
    (∀ y, y ∉ l1 ++ x :: t :: l2 → h' !! y = h !! y).
Proof.
  intros [[Hnd Hs] [Hf Hl]] [Hx [nx Hnx]].
  destruct l1 as [| z l1 _] using rev_ind.
  - destruct Hs as (nt & Ht & Htn & Htp & Hs). specialize (Htp (or_introl eq_refl)).
    simpl in *. nodup_tac. assert (x ≠ t) by set_solver. assert (x ∉ l2) by set_solver.
    unfold LinkedList1_InsertBefore. heap_go. eexists _, _. split; [done |].
    split; [split; [split; [nodup_go |] |] |]; [seg_go | done | frame_go].
  - rewrite <- app_assoc in *. simpl in *. rewrite last_mid in Hl.
    apply seg_app in Hs as [Hs1 (nz & Hz & Hzn & Hzp & nt & Ht & Htn & Htp & Hs2)].
    specialize (Htp (or_introl eq_refl)). nodup_tac.
    assert (x ≠ t ∧ x ≠ z ∧ t ≠ z) as (? & ? & ?) by set_solver.
    unfold LinkedList1_InsertBefore. heap_go. eexists _, _. split; [done |].
    split; [split; [split; [nodup_go |] |] |]; [seg_go | | frame_go].
    rewrite last_mid. simpl. split; [by destruct l1 | done].
Qed.

(** ** SLinkedList *)

Lemma sl_prepend_spec h first l x : sl_rep h first l → fresh_node h l x →
  ∃ h' first', SLinkedList_Prepend h first x = Some (h', first') ∧ sl_rep h' first' (x :: l) ∧
    (∀ y, y ∉ (x :: l) → h' !! y = h !! y).
Proof.
  intros [[Hnd Hs] ->] [Hx [nx Hnx]]. destruct l as [| z l]; simpl in *.
  - unfold SLinkedList_Prepend. heap_go. eexists _, _. split; [done |].
    split; [split; [split; [nodup_go |] |] |]; [| done | frame_go]. seg_go. by intros [? | [? ?]].
  - destruct Hs as (nz & Hz & Hzn & Hzp & Hs). nodup_tac. assert (x ≠ z) by set_solver.
    unfold SLinkedList_Prepend. heap_go. eexists _, _. split; [done |].
    split; [split; [split; [nodup_go |] |] |]; [| done | frame_go]. seg_go. by intros [? | [? ?]].
Qed.

Lemma sl_remove_first_spec h first x l : sl_rep h first (x :: l) →
  ∃ first', SLinkedList_RemoveFirst h first = Some (h, first') ∧ sl_rep h first' l.
Proof.
  intros [[Hnd Hs] ->]. destruct Hs as (nx & Hx & Hxn & _ & Hs). nodup_tac.
  unfold SLinkedList_RemoveFirst, load_next, load. simpl. rewrite Hx. simpl. eexists. split; [done |].
  rewrite Hxn, head_or_None. split; [split; [done |] | done]. by eapply seg_weaken.
Qed.

Lemma sl_remove_spec h first l1 x l2 : sl_rep h first (l1 ++ x :: l2) →
  ∃ h' first', SLinkedList_Remove h first x = Some (h', first') ∧ sl_rep h' first' (l1 ++ l2) ∧
    (∀ y, y ∉ l1 ++ l2 → h' !! y = h !! y).
Proof.
  intros [[Hnd Hs] ->]. destruct l1 as [| y k _] using rev_ind.
  - destruct Hs as (nx & Hx & Hxn & _ & Hs). simpl in *. nodup_tac. unfold SLinkedList_Remove.
    heap_go. eexists _, _. split; [done |]. split; [| done].
    rewrite head_or_None. split; [split; [done |] | done]. by eapply seg_weaken.
  - rewrite <- app_assoc in Hnd, Hs. apply seg_app in Hs as [Hk Hs]. simpl in *.
    destruct Hs as (ny & Hy & Hyn & Hyp & nx & Hx & Hxn & Hxp & Hs).
    specialize (Hxp (or_intror (mk_is_Some _ _ eq_refl))). nodup_tac. assert (x ≠ y) by set_solver.
    assert (Some x ≠ head ((k ++ [y]) ++ x :: l2)) as Hne by (destruct k; simpl; set_solver).
    destruct l2 as [| z l2]; simpl in *; unfold SLinkedList_Remove; rewrite bool_decide_true by done.
    + heap_go. eexists _, _. split; [done |]. rewrite app_nil_r.
      split; [split; [split; [nodup_go |] |] |]; [seg_go | by destruct k | frame_go].
    + destruct Hs as (nz & Hz & Hzn & Hzp & Hs). nodup_tac.
      assert (x ≠ z ∧ y ≠ z) as (? & ?) by set_solver.
      heap_go. eexists _, _. split; [done |]. rewrite <- app_assoc.
      split; [split; [split; [nodup_go |] |] |]; [seg_go; by rewrite last_or_snoc | by destruct k | frame_go].
Qed.

Lemma sl_insert_after_spec h first l1 t l2 x : sl_rep h first (l1 ++ t :: l2) → fresh_node h (l1 ++ t :: l2) x →
  ∃ h' first', SLinkedList_InsertAfter h first x t = Some (h', first') ∧ sl_rep h' first' (l1 ++ t :: x :: l2) ∧
    (∀ y, y ∉ l1 ++ t :: x :: l2 → h' !! y = h !! y).
Proof.
  intros [[Hnd Hs] ->] [Hx [nx Hnx]]. apply seg_app in Hs as [Hs1 (nt & Ht & Htn & Htp & Hs2)].
  nodup_tac. assert (x ≠ t) by set_solver.
  destruct l2 as [| z l2]; simpl in *.
  - unfold SLinkedList_InsertAfter. heap_go. eexists _, _. split; [done |].
    split; [split; [split; [nodup_go |] |] |]; [seg_go | by destruct l1 | frame_go].
  - destruct Hs2 as (nz & Hz & Hzn & Hzp & Hs2). nodup_tac. assert (x ≠ z ∧ t ≠ z) as [? ?] by set_solver.
    unfold SLinkedList_InsertAfter. heap_go. eexists _, _. split; [done |].
    split; [split; [split; [nodup_go |] |] |]; [seg_go | by destruct l1 | frame_go].
Qed.

Lemma sl_insert_before_spec h first l1 t l2 x : sl_rep h first (l1 ++ t :: l2) → fresh_node h (l1 ++ t :: l2) x →
  ∃ h' first', SLinkedList_InsertBefore h first x t = Some (h', first') ∧ sl_rep h' first' (l1 ++ x :: t :: l2) ∧
    (∀ y, y ∉ l1 ++ x :: t :: l2 → h' !! y = h !! y).
Proof.
  intros [[Hnd Hs] ->] [Hx [nx Hnx]]. destruct l1 as [| z l1 _] using rev_ind.
  - destruct Hs as (nt & Ht & Htn & Htp & Hs). simpl in *. nodup_tac. assert (x ≠ t) by set_solver.
    unfold SLinkedList_InsertBefore. heap_go. eexists _, _. split; [done |].
    split; [split; [split; [nodup_go |] |] |]; [seg_go; by intros [? | [? ?]] | done | frame_go].
  - rewrite <- app_assoc in Hnd, Hs, Hx. apply seg_app in Hs as [Hs1 Hs]. simpl in *.
    destruct Hs as (nz & Hz & Hzn & Hzp & nt & Ht & Htn & Htp & Hs2).
    specialize (Htp (or_intror (mk_is_Some _ _ eq_refl))). nodup_tac.
    assert (x ≠ t ∧ x ≠ z ∧ t ≠ z) as (? & ? & ?) by set_solver.
    assert (Some t ≠ head ((l1 ++ [z]) ++ t :: l2)) as Hne by (destruct l1; simpl; set_solver).
    unfold SLinkedList_InsertBefore. heap_go. eexists _, _. split; [done |]. rewrite <- app_assoc.
    split; [split; [split; [nodup_go |] |] |]; [seg_go; by rewrite last_or_snoc | by destruct l1 | frame_go].
Qed.

Lemma sl_next_spec h first l1 x l2 : sl_rep h first (l1 ++ x :: l2) → SLinkedList_Next h first x = Some (head l2).
Proof.
  intros [[_ Hs] _]. destruct (seg_lookup _ _ _ _ _ _ _ Hs) as (n & Hn & Hnn & _).
  unfold SLinkedList_Next, load_next, load. simpl. rewrite Hn. simpl. by rewrite Hnn, head_or_None.
Qed.

Lemma sl_prev_spec h first l1 x l2 : sl_rep h first (l1 ++ x :: l2) → SLinkedList_Prev h first x = Some (list.last l1).
Proof.
  intros [[Hnd Hs] ->]. destruct (seg_lookup _ _ _ _ _ _ _ Hs) as (n & Hn & _ & Hp).
  unfold SLinkedList_Prev. destruct l1 as [| y l1 _] using rev_ind.
  - by rewrite bool_decide_true.
  - nodup_tac. rewrite bool_decide_false by (destruct l1; simpl; set_solver).
    rewrite last_or_snoc in Hp. specialize (Hp (or_intror (mk_is_Some _ _ eq_refl))).
    unfold load_prev, load. simpl. rewrite Hn, last_snoc. simpl. by rewrite Hp.
Qed.

Lemma sl_first_spec h first l : sl_rep h first l → SLinkedList_First first = head l.
Proof. by intros [_ ->]. Qed.

(** The self pointer of [SLinkedListMarkRemoved] is never the link of a member. *)
Lemma sl_member_not_removed h first l x : sl_rep h first l → x ∈ l → SLinkedListIsRemoved h x = Some false.
Proof.
  intros [[Hnd Hs] _] (l1 & l2 & ->)%list_elem_of_split.
  destruct (seg_lookup _ _ _ _ _ _ _ Hs) as (n & Hn & Hnn & _). nodup_tac.
  unfold SLinkedListIsRemoved, load_next, load. simpl. rewrite Hn. simpl. f_equal.
  apply bool_decide_false. rewrite Hnn, head_or_None. destruct l2; simpl; set_solver.
Qed.
