(* ===== verification/BPending.v ===== *)
(** * The job queue (base/BPending.c)

    A [BPendingGroup] is an intrusive list of job objects; [BSmallPending_Set]
    pushes a job on top, [BPendingGroup_ExecuteJob] pops the top one. [BPending]
    wraps [BSmallPending] with the group it belongs to; there is one group here,
    so the wrappers are the same functions. The [pending] flag of debug builds
    and the assertions on it are part of the model, and so is the counter of
    [DebugCounter].

    The group implements a stack of job identifiers without duplicates:
    [group_rep g js objs] relates it to the stack [js] and to the live objects
    [objs] with their handlers. The clients of the queue are verified against the
    class [JobQueue], which [BPendingGroup] implements. *)
From S2P Require Import Prelude LinkedLists.

(** A job object: its handler (a name for the callback and its argument), its
    list node and the debug flag. The node is kept in the heap of the list. *)
Record BSmallPending := mk_BSmallPending { handler : nat; pending : bool }.
#[export] Instance BSmallPending_eta : Eta BSmallPending := λ o, mk_BSmallPending (handler o) (pending o).

Record BPendingGroup := mk_BPendingGroup {
  nodes : heap;
  objs : gmap addr BSmallPending;
  jobs : ptr;
  pending_ctr : Z
}.
#[export] Instance BPendingGroup_eta : Eta BPendingGroup := λ g,
  mk_BPendingGroup (nodes g) (objs g) (jobs g) (pending_ctr g).

Definition BPendingGroup_Init : BPendingGroup := mk_BPendingGroup ∅ ∅ SLinkedList_Init 0.

(** [DebugCounter_Free] asserts that the counter is zero. *)
Definition BPendingGroup_Free (g : BPendingGroup) : option unit :=
  ASSERT (pending_ctr g =? 0);;
  ASSERT (SLinkedList_IsEmpty (jobs g));;
  Some ().

Definition BPendingGroup_HasJobs (g : BPendingGroup) : bool := negb (SLinkedList_IsEmpty (jobs g)).

(** Returns the handler that is called. *)
Definition BPendingGroup_ExecuteJob (g : BPendingGroup) : option (BPendingGroup * nat) :=
  ASSERT (negb (SLinkedList_IsEmpty (jobs g)));;
  p ← SLinkedList_First (jobs g);
  removed ← SLinkedListIsRemoved (nodes g) p;
  ASSERT (negb removed);;
  o ← objs g !! p;
  ASSERT (pending o);;
  '(h, f) ← SLinkedList_RemoveFirst (nodes g) (jobs g);
  h ← SLinkedListMarkRemoved h p;
  Some (g <| nodes := h |> <| jobs := f |> <| objs := <[p := o <| pending := false |>]> (objs g) |>,
        handler o).

Definition BPendingGroup_PeekJob (g : BPendingGroup) : ptr := SLinkedList_First (jobs g).

(** The object lies at the address [o]; its memory comes to life here. *)
Definition BSmallPending_Init (g : BPendingGroup) (o : addr) (h : nat) : option BPendingGroup :=
  hp ← SLinkedListMarkRemoved (<[o := mk_node None None]> (nodes g)) o;
  Some (g <| nodes := hp |> <| objs := <[o := mk_BSmallPending h false]> (objs g) |>
          <| pending_ctr := pending_ctr g + 1 |>).

(** [ASSERT(o->pending == !BPending__ListIsRemoved(o))] *)
Definition check_flag (g : BPendingGroup) (o : addr) : option (BSmallPending * bool) :=
  ob ← objs g !! o;
  removed ← SLinkedListIsRemoved (nodes g) o;
  ASSERT (Bool.eqb (pending ob) (negb removed));;
  Some (ob, removed).

Definition list_remove (g : BPendingGroup) (o : addr) : option BPendingGroup :=
  '(h, f) ← SLinkedList_Remove (nodes g) (jobs g) o;
  Some (g <| nodes := h |> <| jobs := f |>).

(** After the call the memory of the object is given back. *)
Definition BSmallPending_Free (g : BPendingGroup) (o : addr) : option BPendingGroup :=
  ASSERT (0 <? pending_ctr g);;
  let g := g <| pending_ctr := pending_ctr g - 1 |> in
  '(ob, removed) ← check_flag g o;
  g ← (if negb removed then list_remove g o else Some g);
  Some (g <| nodes := delete o (nodes g) |> <| objs := delete o (objs g) |>).

Definition BSmallPending_SetHandler (g : BPendingGroup) (o : addr) (h : nat) : option BPendingGroup :=
  ob ← objs g !! o;
  Some (g <| objs := <[o := ob <| handler := h |>]> (objs g) |>).

Definition BSmallPending_Set (g : BPendingGroup) (o : addr) : option BPendingGroup :=
  '(ob, removed) ← check_flag g o;
  g ← (if negb removed then list_remove g o else Some g);
  '(h, f) ← SLinkedList_Prepend (nodes g) (jobs g) o;
  Some (g <| nodes := h |> <| jobs := f |> <| objs := <[o := ob <| pending := true |>]> (objs g) |>).

Definition BSmallPending_Unset (g : BPendingGroup) (o : addr) : option BPendingGroup :=
  '(ob, removed) ← check_flag g o;
  if negb removed then
    g ← list_remove g o;
    h ← SLinkedListMarkRemoved (nodes g) o;
    Some (g <| nodes := h |> <| objs := <[o := ob <| pending := false |>]> (objs g) |>)
  else Some g.

Definition BSmallPending_IsSet (g : BPendingGroup) (o : addr) : option bool :=
  '(_, removed) ← check_flag g o;
  Some (negb removed).

Definition BPending_Init := BSmallPending_Init.
Definition BPending_Free := BSmallPending_Free.
Definition BPending_Set := BSmallPending_Set.
Definition BPending_Unset := BSmallPending_Unset.
Definition BPending_IsSet := BSmallPending_IsSet.

(** ** The abstract queue *)

(** The stack of jobs that are set, top first, and the handler of every job. *)
Record aqueue := mk_aqueue { stack : list addr; live : gmap addr nat }.

Definition remove_job (o : addr) (js : list addr) : list addr := filter (λ x, x ≠ o) js.

Inductive cmd :=
| CInit (o : addr) (h : nat) | CFree (o : addr) | CSetHandler (o : addr) (h : nat)
| CSet (o : addr) | CUnset (o : addr) | CIsSet (o : addr) | CHasJobs | CPeek | CExecute.

Inductive answer := ANone | ABool (b : bool) | AJob (p : ptr) | ACall (h : nat).

(** What a call does to the abstract queue; [None] where its precondition fails. *)
Definition astep (q : aqueue) (c : cmd) : option (aqueue * answer) :=
  match c with
  | CInit o h => if decide (live q !! o = None) then Some (mk_aqueue (stack q) (<[o := h]> (live q)), ANone) else None
  | CFree o => live q !! o ≫= λ _, Some (mk_aqueue (remove_job o (stack q)) (delete o (live q)), ANone)
  | CSetHandler o h => live q !! o ≫= λ _, Some (mk_aqueue (stack q) (<[o := h]> (live q)), ANone)
  | CSet o => live q !! o ≫= λ _, Some (mk_aqueue (o :: remove_job o (stack q)) (live q), ANone)
  | CUnset o => live q !! o ≫= λ _, Some (mk_aqueue (remove_job o (stack q)) (live q), ANone)
  | CIsSet o => live q !! o ≫= λ _, Some (q, ABool (bool_decide (o ∈ stack q)))
  | CHasJobs => Some (q, ABool (bool_decide (stack q ≠ [])))
  | CPeek => Some (q, AJob (head (stack q)))
  | CExecute =>
      match stack q with
      | [] => None
      | o :: js => h ← live q !! o; Some (mk_aqueue js (live q), ACall h)
      end
  end.

Definition cstep (g : BPendingGroup) (c : cmd) : option (BPendingGroup * answer) :=
  match c with
  | CInit o h => g ← BSmallPending_Init g o h; Some (g, ANone)
  | CFree o => g ← BSmallPending_Free g o; Some (g, ANone)
  | CSetHandler o h => g ← BSmallPending_SetHandler g o h; Some (g, ANone)
  | CSet o => g ← BSmallPending_Set g o; Some (g, ANone)
  | CUnset o => g ← BSmallPending_Unset g o; Some (g, ANone)
  | CIsSet o => b ← BSmallPending_IsSet g o; Some (g, ABool b)
  | CHasJobs => Some (g, ABool (BPendingGroup_HasJobs g))
  | CPeek => Some (g, AJob (BPendingGroup_PeekJob g))
  | CExecute => '(g, h) ← BPendingGroup_ExecuteJob g; Some (g, ACall h)
  end.

Fixpoint run_cmds {S} (step : S → cmd → option (S * answer)) (s : S) (cs : list cmd) : option (S * list answer) :=
  match cs with
  | [] => Some (s, [])
  | c :: cs => '(s, a) ← step s c; '(s, l) ← run_cmds step s cs; Some (s, a :: l)
  end.

(** ** Representation *)

(** A live object has its handler, its flag says whether it is on the list, and
    off the list its [next] field is the self pointer. *)
Definition obj_ok (g : BPendingGroup) (q : aqueue) (y : addr) : Prop :=
  match live q !! y with
  | None => objs g !! y = None ∧ y ∉ stack q
  | Some h => objs g !! y = Some (mk_BSmallPending h (bool_decide (y ∈ stack q))) ∧
      (y ∉ stack q → n_next <$> nodes g !! y = Some (Some y))
  end.

Definition group_rep (g : BPendingGroup) (q : aqueue) : Prop :=
  sl_rep (nodes g) (jobs g) (stack q) ∧ (∀ y, obj_ok g q y) ∧ pending_ctr g = Z.of_nat (size (live q)).

Lemma elem_of_remove_job o y js : y ∈ remove_job o js ↔ y ≠ o ∧ y ∈ js.
Proof. unfold remove_job. by rewrite list_elem_of_filter. Qed.

Lemma remove_job_notin o js : o ∉ js → remove_job o js = js.
Proof. apply filter_ne_notin. Qed.

Lemma remove_job_split o l1 l2 : NoDup (l1 ++ o :: l2) → remove_job o (l1 ++ o :: l2) = l1 ++ l2.
Proof. apply filter_ne_split. Qed.

Section rep.
#[local] Set Default Proof Using "All".
Context (g : BPendingGroup) (q : aqueue) (Hrep : group_rep g q).

Lemma rep_lookup o h : live q !! o = Some h →
  objs g !! o = Some (mk_BSmallPending h (bool_decide (o ∈ stack q))).
Proof. destruct Hrep as (_ & Hobj & _). intros E. specialize (Hobj o). unfold obj_ok in Hobj. rewrite E in Hobj. apply Hobj. Qed.

Lemma rep_live o : o ∈ stack q → ∃ h, live q !! o = Some h.
Proof.
  destruct Hrep as (_ & Hobj & _). intros Ho. specialize (Hobj o). unfold obj_ok in Hobj.
  destruct (live q !! o); [eauto | naive_solver].
Qed.

Lemma rep_node o h : live q !! o = Some h → is_Some (nodes g !! o).
Proof.
  destruct Hrep as ([[_ Hs] _] & Hobj & _). intros E. specialize (Hobj o). unfold obj_ok in Hobj. rewrite E in Hobj.
  destruct (decide (o ∈ stack q)) as [Hin | Hin].
  - eapply seg_In; eauto.
  - destruct Hobj as [_ Hn]. specialize (Hn Hin). destruct (nodes g !! o); [eauto | done].
Qed.

Lemma is_removed_spec o h : live q !! o = Some h →
  SLinkedListIsRemoved (nodes g) o = Some (negb (bool_decide (o ∈ stack q))).
Proof.
  pose proof Hrep as (Hsl & Hobj & _). intros E. case_bool_decide as Hin; simpl.
  - by eapply sl_member_not_removed.
  - specialize (Hobj o). unfold obj_ok in Hobj. rewrite E in Hobj. destruct Hobj as [_ Hn].
    specialize (Hn Hin). unfold SLinkedListIsRemoved, load_next, load. simpl. rewrite Hn. simpl.
    by rewrite bool_decide_true.
Qed.

Lemma check_flag_spec o h : live q !! o = Some h →
  check_flag g o = Some (mk_BSmallPending h (bool_decide (o ∈ stack q)), negb (bool_decide (o ∈ stack q))).
Proof.
  intros E. unfold check_flag. rewrite (rep_lookup o h E), (is_removed_spec o h E). simpl.
  rewrite negb_involutive, Bool.eqb_reflx. done.
Qed.

(** The conditional removal at the start of [Set], [Unset] and [Free]. *)
Lemma detach_spec o h : live q !! o = Some h →
  ∃ g', (if bool_decide (o ∈ stack q) then list_remove g o else Some g) = Some g' ∧
    objs g' = objs g ∧ pending_ctr g' = pending_ctr g ∧
    sl_rep (nodes g') (jobs g') (remove_job o (stack q)) ∧
    (∀ y, y ∉ remove_job o (stack q) → nodes g' !! y = nodes g !! y).
Proof.
  pose proof Hrep as (Hsl & Hobj & _). intros E. case_bool_decide as Hin.
  - apply list_elem_of_split in Hin as (l1 & l2 & Hst). rewrite Hst in *.
    rewrite remove_job_split by apply Hsl.
    destruct (sl_remove_spec _ _ _ _ _ Hsl) as (h' & f' & Hr & Hsl' & Hf).
    unfold list_remove. rewrite Hr. simpl. eexists. split; [done |]. done.
  - rewrite remove_job_notin by done. eauto 8.
Qed.

End rep.

Lemma store_next_spec (h : heap) x n v :
  h !! x = Some n → store_next h (Some x) v = Some (<[x := n <| n_next := v |>]> h).
Proof. intros E. unfold store_next. simpl. by rewrite E. Qed.

(** Marking a node that is off the list. *)
Lemma sl_rep_frame h f l x n : sl_rep h f l → x ∉ l → sl_rep (<[x := n]> h) f l.
Proof. intros [[? ?] ?] ?. split; [split |]; [done | by apply seg_frame | done]. Qed.

Lemma sl_rep_delete h f l x : sl_rep h f l → x ∉ l → sl_rep (delete x h) f l.
Proof. intros [[? Hs] ?] Hx. split; [split; [done |] | done]. by apply seg_delete. Qed.

(** ** Each operation follows the abstract queue *)

(** Objects other than [o] keep their state when their node and membership do. *)
Lemma obj_ok_other g q g' q' o y :
  obj_ok g q y → y ≠ o → objs g' !! y = objs g !! y → live q' !! y = live q !! y →
  (y ∈ stack q' ↔ y ∈ stack q) → (y ∉ stack q → nodes g' !! y = nodes g !! y) → obj_ok g' q' y.
Proof.
  unfold obj_ok. intros H Hne Ho Hl Hs Hn. rewrite Hl. destruct (live q !! y) as [h |].
  - destruct H as [H1 H2]. rewrite Ho, H1. split.
    + do 2 f_equal. by apply bool_decide_ext.
    + intros Hy. rewrite Hn by (by rewrite <- Hs). apply H2. by rewrite <- Hs.
  - rewrite Ho, Hs. done.
Qed.

Lemma set_spec g q o h : group_rep g q → live q !! o = Some h →
  ∃ g', BSmallPending_Set g o = Some g' ∧ group_rep g' (mk_aqueue (o :: remove_job o (stack q)) (live q)).
Proof.
  intros Hrep Hl. destruct (detach_spec g q Hrep o h Hl) as (g1 & H1 & Ho & Hc & Hsl & Hf).
  unfold BSmallPending_Set. rewrite (check_flag_spec g q Hrep o h Hl). simpl.
  rewrite negb_involutive, H1. simpl.
  assert (o ∉ remove_job o (stack q)) as Hno by (rewrite elem_of_remove_job; naive_solver).
  destruct (sl_prepend_spec (nodes g1) (jobs g1) _ o Hsl) as (h' & f' & Hp & Hsl' & Hf').
  { split; [done |]. rewrite Hf by done. by apply (rep_node g q Hrep o h). }
  rewrite Hp. simpl. eexists. split; [done |]. destruct Hrep as (_ & Hobj & Hctr).
  split; [exact Hsl' |]. split; [| simpl; congruence]. intros y. destruct (decide (y = o)) as [-> | Hy].
  - unfold obj_ok. simpl. rewrite Hl, lookup_insert_eq. split; [| set_solver].
    by rewrite bool_decide_true by set_solver.
  - apply (obj_ok_other g q _ _ o); simpl; [done | done | | done | |].
    + rewrite lookup_insert_ne by done. by rewrite Ho.
    + rewrite elem_of_cons, elem_of_remove_job. naive_solver.
    + intros Hns. rewrite Hf', Hf; [done | rewrite elem_of_remove_job | rewrite elem_of_cons, elem_of_remove_job]; naive_solver.
Qed.

Lemma unset_spec g q o h : group_rep g q → live q !! o = Some h →
  ∃ g', BSmallPending_Unset g o = Some g' ∧ group_rep g' (mk_aqueue (remove_job o (stack q)) (live q)).
Proof.
  intros Hrep Hl. destruct (detach_spec g q Hrep o h Hl) as (g1 & H1 & Ho & Hc & Hsl & Hf).
  unfold BSmallPending_Unset. rewrite (check_flag_spec g q Hrep o h Hl). simpl.
  rewrite negb_involutive. case_bool_decide as Hin.
  - rewrite H1. simpl.
    assert (o ∉ remove_job o (stack q)) as Hno by (rewrite elem_of_remove_job; naive_solver).
    destruct (rep_node g q Hrep o h Hl) as [n Hn]. rewrite <- (Hf o Hno) in Hn.
    unfold SLinkedListMarkRemoved. rewrite (store_next_spec _ _ _ _ Hn). simpl. eexists. split; [done |].
    destruct Hrep as (_ & Hobj & Hctr).
    split; [by apply sl_rep_frame |]. split; [| simpl; congruence]. intros y. destruct (decide (y = o)) as [-> | Hy].
    + unfold obj_ok. simpl. rewrite Hl, !lookup_insert_eq. split; [| done]. by rewrite bool_decide_false.
    + apply (obj_ok_other g q _ _ o); simpl; [done | done | | done | |].
      * rewrite lookup_insert_ne by done. by rewrite Ho.
      * rewrite elem_of_remove_job. naive_solver.
      * intros Hns. rewrite lookup_insert_ne by done. apply Hf. rewrite elem_of_remove_job. naive_solver.
  - exists g. split; [done |]. rewrite remove_job_notin by done. by destruct q.
Qed.

Lemma free_spec g q o h : group_rep g q → live q !! o = Some h →
  ∃ g', BSmallPending_Free g o = Some g' ∧
    group_rep g' (mk_aqueue (remove_job o (stack q)) (delete o (live q))).
Proof.
  intros Hrep Hl. assert (0 < pending_ctr g) as Hpos.
  { destruct Hrep as (_ & _ & ->). assert (size (live q) ≠ 0%nat); [| lia].
    intros E%map_size_empty_inv. by rewrite E, lookup_empty in Hl. }
  unfold BSmallPending_Free. rewrite ASSERT_seq by lia.
  set (g0 := g <| pending_ctr := pending_ctr g - 1 |>).
  destruct (detach_spec g q Hrep o h Hl) as (g1 & H1 & Ho & Hc & Hsl & Hf).
  change (check_flag g0 o) with (check_flag g o). rewrite (check_flag_spec g q Hrep o h Hl).
  rewrite option_bind_Some. rewrite negb_involutive.
  assert (∃ g2, (if bool_decide (o ∈ stack q) then list_remove g0 o else Some g0) = Some g2 ∧
    objs g2 = objs g1 ∧ nodes g2 = nodes g1 ∧ jobs g2 = jobs g1 ∧ pending_ctr g2 = pending_ctr g - 1)
    as (g2 & -> & Ho2 & Hn2 & Hj2 & Hc2).
  { revert H1. case_bool_decide; unfold list_remove; simpl; [| intros [= <-]; eauto 8].
    destruct (SLinkedList_Remove (nodes g) (jobs g) o) as [[? ?] |]; simpl; [intros [= <-]; eauto 8 | done]. }
  assert (o ∉ remove_job o (stack q)) as Hno by (rewrite elem_of_remove_job; naive_solver).
  simpl. eexists. split; [done |]. destruct Hrep as (_ & Hobj & Hctr). rewrite Hn2, Ho2, Ho.
  split; [simpl; rewrite ?Hj2; by apply sl_rep_delete |]. split.
  - intros y. destruct (decide (y = o)) as [-> | Hy].
    + unfold obj_ok. simpl. rewrite !lookup_delete_eq. done.
    + apply (obj_ok_other g q _ _ o); simpl; [done | done | | | |].
      * by rewrite lookup_delete_ne.
      * by rewrite lookup_delete_ne.
      * rewrite elem_of_remove_job. naive_solver.
      * intros Hns. rewrite lookup_delete_ne by done. apply Hf. rewrite elem_of_remove_job. naive_solver.
  - simpl. rewrite Hc2, Hctr. rewrite map_size_delete, Hl. simpl.
    assert (size (live q) ≠ 0%nat); [| lia]. intros E%map_size_empty_inv. by rewrite E, lookup_empty in Hl.
Qed.

Lemma init_obj_spec g q o h : group_rep g q → live q !! o = None →
  ∃ g', BSmallPending_Init g o h = Some g' ∧ group_rep g' (mk_aqueue (stack q) (<[o := h]> (live q))).
Proof.
  intros (Hsl & Hobj & Hctr) Hl. pose proof (Hobj o) as Hoo. unfold obj_ok in Hoo. rewrite Hl in Hoo.
  destruct Hoo as [Hoo Hns]. unfold BSmallPending_Init, SLinkedListMarkRemoved.
  rewrite (store_next_spec _ o _ _ (lookup_insert_eq _ _ _)). simpl. eexists. split; [done |].
  split; [by apply sl_rep_frame; [apply sl_rep_frame |] |]. split.
  - intros y. destruct (decide (y = o)) as [-> | Hy].
    + unfold obj_ok. simpl. rewrite !lookup_insert_eq. split; [by rewrite bool_decide_false | done].
    + apply (obj_ok_other g q _ _ o); simpl; rewrite ?lookup_insert_ne by done; done.
  - simpl. rewrite Hctr, map_size_insert, Hl. simpl. lia.
Qed.

Lemma set_handler_spec g q o h h' : group_rep g q → live q !! o = Some h →
  ∃ g', BSmallPending_SetHandler g o h' = Some g' ∧ group_rep g' (mk_aqueue (stack q) (<[o := h']> (live q))).
Proof.
  intros Hrep Hl. unfold BSmallPending_SetHandler. rewrite (rep_lookup g q Hrep o h Hl). simpl.
  eexists. split; [done |]. destruct Hrep as (Hsl & Hobj & Hctr). split; [done |]. split.
  - intros y. destruct (decide (y = o)) as [-> | Hy].
    + specialize (Hobj o). unfold obj_ok in *. simpl. rewrite Hl in Hobj. rewrite !lookup_insert_eq.
      split; [done | apply Hobj].
    + apply (obj_ok_other g q _ _ o); simpl; rewrite ?lookup_insert_ne by done; done.
  - simpl. rewrite Hctr, map_size_insert, Hl. done.
Qed.

Lemma execute_spec g q o js h : group_rep g q → stack q = o :: js → live q !! o = Some h →
  ∃ g', BPendingGroup_ExecuteJob g = Some (g', h) ∧ group_rep g' (mk_aqueue js (live q)).
Proof.
  intros Hrep Hst Hl. pose proof (is_removed_spec g q Hrep o h Hl) as Hrm.
  pose proof (rep_lookup g q Hrep o h Hl) as Hob. destruct (rep_node g q Hrep o h Hl) as [n Hn].
  destruct Hrep as (Hsl & Hobj & Hctr). rewrite Hst in *.
  rewrite bool_decide_true in Hrm, Hob by set_solver.
  pose proof (proj2 Hsl) as Hj. simpl in Hj. pose proof Hsl as [[Hnd _] _]. nodup_tac.
  destruct (sl_remove_first_spec _ _ _ _ Hsl) as (f' & Hr & Hsl').
  unfold BPendingGroup_ExecuteJob. rewrite Hr, Hj. simpl. rewrite Hrm. simpl. rewrite Hob. simpl.
  unfold SLinkedListMarkRemoved. rewrite (store_next_spec _ _ _ _ Hn). simpl.
  eexists. split; [done |]. split; [by apply sl_rep_frame |]. split; [| done].
  intros y. destruct (decide (y = o)) as [-> | Hy].
  - unfold obj_ok. simpl. rewrite Hl, !lookup_insert_eq. split; [by rewrite bool_decide_false | done].
  - apply (obj_ok_other g q _ _ o); simpl; rewrite ?lookup_insert_ne by done; try done.
    rewrite Hst. set_solver.
Qed.

Lemma step_refines g q c q' a : group_rep g q → astep q c = Some (q', a) →
  ∃ g', cstep g c = Some (g', a) ∧ group_rep g' q'.
Proof.
  intros Hrep. destruct c; simpl.
  - case_decide as Hl; [| done]. intros [= <- <-]. destruct (init_obj_spec g q o h Hrep Hl) as (g' & -> & ?). simpl. eauto.
  - destruct (live q !! o) eqn:Hl; [| done]. intros [= <- <-]. destruct (free_spec g q o _ Hrep Hl) as (g' & -> & ?). simpl. eauto.
  - destruct (live q !! o) eqn:Hl; [| done]. intros [= <- <-]. destruct (set_handler_spec g q o _ h Hrep Hl) as (g' & -> & ?). simpl. eauto.
  - destruct (live q !! o) eqn:Hl; [| done]. intros [= <- <-]. destruct (set_spec g q o _ Hrep Hl) as (g' & -> & ?). simpl. eauto.
  - destruct (live q !! o) eqn:Hl; [| done]. intros [= <- <-]. destruct (unset_spec g q o _ Hrep Hl) as (g' & -> & ?). simpl. eauto.
  - destruct (live q !! o) eqn:Hl; [| done]. intros [= <- <-]. unfold BSmallPending_IsSet.
    rewrite (check_flag_spec g q Hrep o _ Hl). simpl. rewrite negb_involutive. eauto.
  - intros [= <- <-]. exists g. split; [| done]. do 3 f_equal. unfold BPendingGroup_HasJobs, SLinkedList_IsEmpty.
    destruct Hrep as ([_ ->] & _). by destruct (stack q).
  - intros [= <- <-]. exists g. split; [| done]. do 3 f_equal. apply Hrep.
  - destruct (stack q) as [| o js] eqn:Hst; [done |].
    destruct (live q !! o) eqn:Hl; simpl; [| done]. intros [= <- <-].
    destruct (execute_spec g q o js _ Hrep Hst Hl) as (g' & -> & ?). simpl. eauto.
Qed.

(** ** The queue as an interface *)

(** What a client may rely on: the operations follow the abstract queue. *)
Class JobQueue (G : Type) := {
  jq_rep : G → aqueue → Prop;
  jq_step : G → cmd → option (G * answer);
  jq_sim g q c q' a : jq_rep g q → astep q c = Some (q', a) → ∃ g', jq_step g c = Some (g', a) ∧ jq_rep g' q';
  jq_live g q o : jq_rep g q → o ∈ stack q → ∃ h, live q !! o = Some h
}.

#[export] Program Instance BPendingGroup_JobQueue : JobQueue BPendingGroup := {|
  jq_rep := group_rep; jq_step := cstep
|}.
Next Obligation. intros g q c q' a H1 H2. exact (step_refines g q c q' a H1 H2). Qed.
Next Obligation. intros g q o H1 H2. exact (rep_live g q H1 o H2). Qed.

Lemma jq_run {G} `{JobQueue G} cs : ∀ (g : G) q q' l, jq_rep g q → run_cmds astep q cs = Some (q', l) →
  ∃ g', run_cmds jq_step g cs = Some (g', l) ∧ jq_rep g' q'.
Proof.
  induction cs as [| c cs IH]; intros g q q' l Hr E; simpl in *; [simplify_eq; eauto |].
  apply bind_Some in E as ([q1 a] & E1 & E). apply bind_Some in E as ([q2 l2] & E2 & E). simplify_eq.
  destruct (jq_sim g q c q1 a Hr E1) as (g1 & -> & Hr1). simpl.
  destruct (IH g1 q1 q' l2 Hr1 E2) as (g2 & -> & Hr2). simpl. eauto.
Qed.

Definition empty_queue : aqueue := mk_aqueue [] ∅.

Lemma init_group_rep : group_rep BPendingGroup_Init empty_queue.
Proof. split; [split; [split; [constructor | done] | done] |]. split; [| done]. intros y. split; [done | simpl; set_solver]. Qed.

(** [C26] The job queue refines a stack of jobs. On every sequence of calls whose
    preconditions hold, the intrusive list with its self-pointer marks runs
    without a null dereference or a failed assertion, gives the answers of the
    abstract stack (a set job moves to the top, the top job is executed first, a
    freed or unset job is gone) and represents the resulting stack. *)
Theorem bpending_refines cs q' l : run_cmds astep empty_queue cs = Some (q', l) →
  ∃ g', run_cmds cstep BPendingGroup_Init cs = Some (g', l) ∧ group_rep g' q'.
Proof. exact (jq_run cs BPendingGroup_Init empty_queue q' l init_group_rep). Qed.

Lemma bpending_refines_witness :
  ∃ g', run_cmds cstep BPendingGroup_Init
          [CInit 1 11; CInit 2 12; CInit 3 13; CSet 1; CSet 2; CSet 1; CSet 3; CUnset 2; CExecute; CFree 3; CPeek; CExecute; CHasJobs]%nat
        = Some (g', [ANone; ANone; ANone; ANone; ANone; ANone; ANone; ANone; ACall 13; ANone; AJob (Some 1); ACall 11; ABool false])%nat
    ∧ group_rep g' (mk_aqueue [] {[1 := 11; 2 := 12]})%nat.
Proof. apply bpending_refines. vm_compute. reflexivity. Defined.
