(* ===== verification/FlowInterfaces.v ===== *)
(** * The interfaces between flow components
    (flow/PacketPassInterface.h, PacketRecvInterface.h, StreamPassInterface.h,
    StreamRecvInterface.h and the .c files)

    An interface passes operations from its user to its provider and reports back
    when they are done. Both directions go through jobs of the pending group, so
    that no component is called from within its own call. The jobs are used through
    the class [JobQueue]. A job is named by its address, which is also the name of
    its handler and argument; a data pointer is an address, [0] the null pointer.
    An operation gives the new group and interface; [None] is a failed assertion.
    A job handler ends with the call of a handler of the user or of the provider,
    which is its result. *)
From S2P Require Import Prelude LinkedLists BPending.

Inductive if_state := STATE_NONE | STATE_OPERATION_PENDING | STATE_BUSY | STATE_DONE_PENDING.
#[export] Instance if_state_eq_dec : EqDecision if_state.
Proof. solve_decision. Defined.

(** The handlers an interface calls: an operation on data, on a buffer of the
    size of the interface, a request to cancel, the two kinds of done reports. *)
Inductive icall :=
| CallSend (h : nat) (data len : Z)
| CallRecv (h : nat) (data : Z)
| CallCancel (h : nat)
| CallDone (h : nat)
| CallDoneLen (h : nat) (len : Z).
#[export] Instance icall_eq_dec : EqDecision icall.
Proof. solve_decision. Defined.

Record PacketPassInterface := mk_ppi {
  ppi_mtu : Z;
  ppi_handler_operation : nat;
  ppi_handler_requestcancel : option nat;
  ppi_handler_done : option nat;
  ppi_job_operation : addr;
  ppi_job_operation_data : Z;
  ppi_job_operation_len : Z;
  ppi_job_requestcancel : addr;
  ppi_job_done : addr;
  ppi_state : if_state;
  ppi_cancel_requested : bool
}.
#[export] Instance ppi_eta : Eta PacketPassInterface := λ i,
  mk_ppi (ppi_mtu i) (ppi_handler_operation i) (ppi_handler_requestcancel i) (ppi_handler_done i) (ppi_job_operation i)
    (ppi_job_operation_data i) (ppi_job_operation_len i) (ppi_job_requestcancel i) (ppi_job_done i) (ppi_state i) (ppi_cancel_requested i).

Record PacketRecvInterface := mk_pri {
  pri_mtu : Z;
  pri_handler_operation : nat;
  pri_handler_done : option nat;
  pri_job_operation : addr;
  pri_job_operation_data : Z;
  pri_job_done : addr;
  pri_job_done_len : Z;
  pri_state : if_state
}.
#[export] Instance pri_eta : Eta PacketRecvInterface := λ i,
  mk_pri (pri_mtu i) (pri_handler_operation i) (pri_handler_done i) (pri_job_operation i) (pri_job_operation_data i) (pri_job_done i)
    (pri_job_done_len i) (pri_state i).

Record StreamPassInterface := mk_spi {
  spi_handler_operation : nat;
  spi_handler_done : option nat;
  spi_job_operation : addr;
  spi_job_operation_data : Z;
  spi_job_operation_len : Z;
  spi_job_done : addr;
  spi_job_done_len : Z;
  spi_state : if_state
}.
#[export] Instance spi_eta : Eta StreamPassInterface := λ i,
  mk_spi (spi_handler_operation i) (spi_handler_done i) (spi_job_operation i) (spi_job_operation_data i) (spi_job_operation_len i)
    (spi_job_done i) (spi_job_done_len i) (spi_state i).

Definition is_state (s t : if_state) : bool := bool_decide (s = t).
Definition is_set {A} (o : option A) : bool := match o with Some _ => true | None => false end.

Section flow.
Context {G : Type} `{JobQueue G}.

(** ** The calls of the job queue *)

Definition job_init (g : G) (o : addr) : option G := '(g, _) ← jq_step g (CInit o o); Some g.
Definition job_free (g : G) (o : addr) : option G := '(g, _) ← jq_step g (CFree o); Some g.
Definition job_set (g : G) (o : addr) : option G := '(g, _) ← jq_step g (CSet o); Some g.
Definition job_unset (g : G) (o : addr) : option G := '(g, _) ← jq_step g (CUnset o); Some g.

(** Takes the next job, if there is one. *)
Definition next_job (g : G) : option (G * option nat) :=
  match jq_step g CHasJobs with
  | Some (g, ABool true) => match jq_step g CExecute with Some (g, ACall h) => Some (g, Some h) | _ => None end
  | Some (g, ABool false) => Some (g, None)
  | _ => None
  end.

Definition has_jobs (g : G) : option (G * bool) :=
  match jq_step g CHasJobs with Some (g, ABool b) => Some (g, b) | _ => None end.

(** ** PacketPassInterface *)

(** [i] is the memory of the interface before the call. *)
Definition PacketPassInterface_Init (g : G) (i : PacketPassInterface) (mtu : Z) (handler_operation : nat) : option (G * PacketPassInterface) :=
  ASSERT (0 <=? mtu);;
  let i := i <| ppi_mtu := mtu |> <| ppi_handler_operation := handler_operation |> <| ppi_handler_requestcancel := None |>
             <| ppi_handler_done := None |> in
  g ← job_init g (ppi_job_operation i);
  g ← job_init g (ppi_job_requestcancel i);
  g ← job_init g (ppi_job_done i);
  Some (g, i <| ppi_state := STATE_NONE |>).

Definition PacketPassInterface_Free (g : G) (i : PacketPassInterface) : option G :=
  g ← job_free g (ppi_job_done i);
  g ← job_free g (ppi_job_requestcancel i);
  job_free g (ppi_job_operation i).

Definition PacketPassInterface_EnableCancel (i : PacketPassInterface) (handler_requestcancel : nat) : option PacketPassInterface :=
  ASSERT (negb (is_set (ppi_handler_requestcancel i)));;
  ASSERT (negb (is_set (ppi_handler_done i)));;
  Some (i <| ppi_handler_requestcancel := Some handler_requestcancel |>).

Definition PacketPassInterface_Done (g : G) (i : PacketPassInterface) : option (G * PacketPassInterface) :=
  ASSERT (is_state (ppi_state i) STATE_BUSY);;
  g ← job_unset g (ppi_job_requestcancel i);
  g ← job_set g (ppi_job_done i);
  Some (g, i <| ppi_state := STATE_DONE_PENDING |>).

Definition PacketPassInterface_GetMTU (i : PacketPassInterface) : Z := ppi_mtu i.

Definition PacketPassInterface_Sender_Init (i : PacketPassInterface) (handler_done : nat) : option PacketPassInterface :=
  ASSERT (negb (is_set (ppi_handler_done i)));;
  Some (i <| ppi_handler_done := Some handler_done |>).

Definition PacketPassInterface_Sender_Send (g : G) (i : PacketPassInterface) (data data_len : Z) : option (G * PacketPassInterface) :=
  ASSERT (0 <=? data_len);;
  ASSERT (data_len <=? ppi_mtu i);;
  ASSERT (negb (0 <? data_len) || negb (data =? 0));;
  ASSERT (is_state (ppi_state i) STATE_NONE);;
  ASSERT (is_set (ppi_handler_done i));;
  g ← job_set g (ppi_job_operation i);
  Some (g, i <| ppi_job_operation_data := data |> <| ppi_job_operation_len := data_len |>
             <| ppi_state := STATE_OPERATION_PENDING |> <| ppi_cancel_requested := false |>).

Definition PacketPassInterface_Sender_RequestCancel (g : G) (i : PacketPassInterface) : option (G * PacketPassInterface) :=
  ASSERT (is_state (ppi_state i) STATE_OPERATION_PENDING || is_state (ppi_state i) STATE_BUSY || is_state (ppi_state i) STATE_DONE_PENDING);;
  ASSERT (is_set (ppi_handler_requestcancel i));;
  if ppi_cancel_requested i then Some (g, i) else
  let i := i <| ppi_cancel_requested := true |> in
  match ppi_state i with
  | STATE_OPERATION_PENDING =>
      g ← job_unset g (ppi_job_operation i);
      g ← job_set g (ppi_job_done i);
      Some (g, i <| ppi_state := STATE_DONE_PENDING |>)
  | STATE_BUSY => g ← job_set g (ppi_job_requestcancel i); Some (g, i)
  | _ => Some (g, i)
  end.

Definition PacketPassInterface_HasCancel (i : PacketPassInterface) : bool := is_set (ppi_handler_requestcancel i).

Definition _PacketPassInterface_job_operation (i : PacketPassInterface) : option (PacketPassInterface * icall) :=
  ASSERT (is_state (ppi_state i) STATE_OPERATION_PENDING);;
  Some (i <| ppi_state := STATE_BUSY |>, CallSend (ppi_handler_operation i) (ppi_job_operation_data i) (ppi_job_operation_len i)).

Definition _PacketPassInterface_job_requestcancel (i : PacketPassInterface) : option (PacketPassInterface * icall) :=
  ASSERT (is_state (ppi_state i) STATE_BUSY);;
  ASSERT (ppi_cancel_requested i);;
  h ← ppi_handler_requestcancel i;
  Some (i, CallCancel h).

Definition _PacketPassInterface_job_done (i : PacketPassInterface) : option (PacketPassInterface * icall) :=
  ASSERT (is_state (ppi_state i) STATE_DONE_PENDING);;
  h ← ppi_handler_done i;
  Some (i <| ppi_state := STATE_NONE |>, CallDone h).

(** The job whose handler is [h]; a handler of another object is not called here. *)
Definition ppi_job (i : PacketPassInterface) (h : nat) : option (PacketPassInterface * option icall) :=
  if decide (h = ppi_job_operation i) then '(i, c) ← _PacketPassInterface_job_operation i; Some (i, Some c)
  else if decide (h = ppi_job_requestcancel i) then '(i, c) ← _PacketPassInterface_job_requestcancel i; Some (i, Some c)
  else if decide (h = ppi_job_done i) then '(i, c) ← _PacketPassInterface_job_done i; Some (i, Some c)
  else Some (i, None).

(** ** PacketRecvInterface *)

Definition PacketRecvInterface_Init (g : G) (i : PacketRecvInterface) (mtu : Z) (handler_operation : nat) : option (G * PacketRecvInterface) :=
  ASSERT (0 <=? mtu);;
  let i := i <| pri_mtu := mtu |> <| pri_handler_operation := handler_operation |> <| pri_handler_done := None |> in
  g ← job_init g (pri_job_operation i);
  g ← job_init g (pri_job_done i);
  Some (g, i <| pri_state := STATE_NONE |>).

Definition PacketRecvInterface_Free (g : G) (i : PacketRecvInterface) : option G :=
  g ← job_free g (pri_job_done i);
  job_free g (pri_job_operation i).

Definition PacketRecvInterface_Done (g : G) (i : PacketRecvInterface) (data_len : Z) : option (G * PacketRecvInterface) :=
  ASSERT (0 <=? data_len);;
  ASSERT (data_len <=? pri_mtu i);;
  ASSERT (is_state (pri_state i) STATE_BUSY);;
  g ← job_set g (pri_job_done i);
  Some (g, i <| pri_job_done_len := data_len |> <| pri_state := STATE_DONE_PENDING |>).

Definition PacketRecvInterface_GetMTU (i : PacketRecvInterface) : Z := pri_mtu i.

Definition PacketRecvInterface_Receiver_Init (i : PacketRecvInterface) (handler_done : nat) : option PacketRecvInterface :=
  ASSERT (negb (is_set (pri_handler_done i)));;
  Some (i <| pri_handler_done := Some handler_done |>).

Definition PacketRecvInterface_Receiver_Recv (g : G) (i : PacketRecvInterface) (data : Z) : option (G * PacketRecvInterface) :=
  ASSERT (negb (0 <? pri_mtu i) || negb (data =? 0));;
  ASSERT (is_state (pri_state i) STATE_NONE);;
  ASSERT (is_set (pri_handler_done i));;
  g ← job_set g (pri_job_operation i);
  Some (g, i <| pri_job_operation_data := data |> <| pri_state := STATE_OPERATION_PENDING |>).

Definition _PacketRecvInterface_job_operation (i : PacketRecvInterface) : option (PacketRecvInterface * icall) :=
  ASSERT (is_state (pri_state i) STATE_OPERATION_PENDING);;
  Some (i <| pri_state := STATE_BUSY |>, CallRecv (pri_handler_operation i) (pri_job_operation_data i)).

Definition _PacketRecvInterface_job_done (i : PacketRecvInterface) : option (PacketRecvInterface * icall) :=
  ASSERT (is_state (pri_state i) STATE_DONE_PENDING);;
  h ← pri_handler_done i;
  Some (i <| pri_state := STATE_NONE |>, CallDoneLen h (pri_job_done_len i)).

Definition pri_job (i : PacketRecvInterface) (h : nat) : option (PacketRecvInterface * option icall) :=
  if decide (h = pri_job_operation i) then '(i, c) ← _PacketRecvInterface_job_operation i; Some (i, Some c)
  else if decide (h = pri_job_done i) then '(i, c) ← _PacketRecvInterface_job_done i; Some (i, Some c)
  else Some (i, None).

(** ** StreamPassInterface, and StreamRecvInterface, which is the same code *)

Definition StreamPassInterface_Init (g : G) (i : StreamPassInterface) (handler_operation : nat) : option (G * StreamPassInterface) :=
  let i := i <| spi_handler_operation := handler_operation |> <| spi_handler_done := None |> in
  g ← job_init g (spi_job_operation i);
  g ← job_init g (spi_job_done i);
  Some (g, i <| spi_state := STATE_NONE |>).

Definition StreamPassInterface_Free (g : G) (i : StreamPassInterface) : option G :=
  g ← job_free g (spi_job_done i);
  job_free g (spi_job_operation i).

Definition StreamPassInterface_Done (g : G) (i : StreamPassInterface) (data_len : Z) : option (G * StreamPassInterface) :=
  ASSERT (is_state (spi_state i) STATE_BUSY);;
  ASSERT (0 <? data_len);;
  ASSERT (data_len <=? spi_job_operation_len i);;
  g ← job_set g (spi_job_done i);
  Some (g, i <| spi_job_done_len := data_len |> <| spi_state := STATE_DONE_PENDING |>).

Definition StreamPassInterface_Sender_Init (i : StreamPassInterface) (handler_done : nat) : option StreamPassInterface :=
  ASSERT (negb (is_set (spi_handler_done i)));;
  Some (i <| spi_handler_done := Some handler_done |>).

Definition StreamPassInterface_Sender_Send (g : G) (i : StreamPassInterface) (data data_len : Z) : option (G * StreamPassInterface) :=
  ASSERT (0 <? data_len);;
  ASSERT (negb (data =? 0));;
  ASSERT (is_state (spi_state i) STATE_NONE);;
  ASSERT (is_set (spi_handler_done i));;
  g ← job_set g (spi_job_operation i);
  Some (g, i <| spi_job_operation_data := data |> <| spi_job_operation_len := data_len |> <| spi_state := STATE_OPERATION_PENDING |>).

Definition _StreamPassInterface_job_operation (i : StreamPassInterface) : option (StreamPassInterface * icall) :=
  ASSERT (is_state (spi_state i) STATE_OPERATION_PENDING);;
  Some (i <| spi_state := STATE_BUSY |>, CallSend (spi_handler_operation i) (spi_job_operation_data i) (spi_job_operation_len i)).

Definition _StreamPassInterface_job_done (i : StreamPassInterface) : option (StreamPassInterface * icall) :=
  ASSERT (is_state (spi_state i) STATE_DONE_PENDING);;
  h ← spi_handler_done i;
  Some (i <| spi_state := STATE_NONE |>, CallDoneLen h (spi_job_done_len i)).

Definition spi_job (i : StreamPassInterface) (h : nat) : option (StreamPassInterface * option icall) :=
  if decide (h = spi_job_operation i) then '(i, c) ← _StreamPassInterface_job_operation i; Some (i, Some c)
  else if decide (h = spi_job_done i) then '(i, c) ← _StreamPassInterface_job_done i; Some (i, Some c)
  else Some (i, None).

End flow.

Definition StreamRecvInterface := StreamPassInterface.
Definition StreamRecvInterface_Init {G} `{JobQueue G} := StreamPassInterface_Init (G := G).
Definition StreamRecvInterface_Free {G} `{JobQueue G} := StreamPassInterface_Free (G := G).
Definition StreamRecvInterface_Done {G} `{JobQueue G} := StreamPassInterface_Done (G := G).
Definition StreamRecvInterface_Receiver_Init := StreamPassInterface_Sender_Init.
Definition StreamRecvInterface_Receiver_Recv {G} `{JobQueue G} := StreamPassInterface_Sender_Send (G := G).
Definition _StreamRecvInterface_job_operation := _StreamPassInterface_job_operation.
Definition _StreamRecvInterface_job_done := _StreamPassInterface_job_done.

(** ** The queue as a set of pending jobs *)

Section queue.
Context {G : Type} `{JobQueue G}.
Implicit Types (L : gmap addr nat) (P : gset addr).

(** The jobs [L] exist, those in [P] are set. *)
Definition queue (g : G) L P : Prop :=
  ∃ q, jq_rep g q ∧ live q = L ∧ NoDup (stack q) ∧ (∀ o, o ∈ stack q ↔ o ∈ P) ∧ P ⊆ dom L.

Lemma NoDup_remove_job o l : NoDup l → NoDup (remove_job o l).
Proof. apply NoDup_filter. Qed.

Lemma job_set_ok g L P o : queue g L P → o ∈ dom L → ∃ g', job_set g o = Some g' ∧ queue g' L (P ∪ {[o]}).
Proof.
  intros (q & Hr & <- & Hnd & HP & Hsub) [h Ho]%elem_of_dom.
  destruct (jq_sim g q (CSet o) (mk_aqueue (o :: remove_job o (stack q)) (live q)) ANone Hr) as (g' & E & Hr'); [simpl; by rewrite Ho |].
  exists g'. unfold job_set. rewrite E. split; [done |]. eexists. split; [exact Hr' |]. simpl. split; [done |]. split_and!.
  - constructor; [rewrite elem_of_remove_job; naive_solver | by apply NoDup_remove_job].
  - intros x. rewrite elem_of_cons, elem_of_remove_job, elem_of_union, elem_of_singleton, HP. destruct (decide (x = o)); naive_solver.
  - apply elem_of_dom_2 in Ho. set_solver.
Qed.

Lemma job_unset_ok g L P o : queue g L P → o ∈ dom L → ∃ g', job_unset g o = Some g' ∧ queue g' L (P ∖ {[o]}).
Proof.
  intros (q & Hr & <- & Hnd & HP & Hsub) [h Ho]%elem_of_dom.
  destruct (jq_sim g q (CUnset o) (mk_aqueue (remove_job o (stack q)) (live q)) ANone Hr) as (g' & E & Hr'); [simpl; by rewrite Ho |].
  exists g'. unfold job_unset. rewrite E. split; [done |]. eexists. split; [exact Hr' |]. simpl. split; [done |]. split_and!.
  - by apply NoDup_remove_job.
  - intros x. rewrite elem_of_remove_job, elem_of_difference, elem_of_singleton, HP. naive_solver.
  - set_solver.
Qed.

(** Another object sets or unsets a job. *)
Lemma job_toggle_ok g L P o (b : bool) : queue g L P → o ∈ dom L →
  ∃ g' P', (if b then job_set g o else job_unset g o) = Some g' ∧ queue g' L P' ∧ ∀ x, x ≠ o → (x ∈ P' ↔ x ∈ P).
Proof.
  intros Hq Hd. destruct b; [destruct (job_set_ok g L P o Hq Hd) as (g' & E & Hq') | destruct (job_unset_ok g L P o Hq Hd) as (g' & E & Hq')];
    eexists _, _; (split; [exact E |]); (split; [exact Hq' |]); set_solver.
Qed.

Lemma job_init_ok g L P o : queue g L P → L !! o = None → ∃ g', job_init g o = Some g' ∧ queue g' (<[o := o]> L) P.
Proof.
  intros (q & Hr & <- & Hnd & HP & Hsub) Ho.
  destruct (jq_sim g q (CInit o o) (mk_aqueue (stack q) (<[o := o]> (live q))) ANone Hr) as (g' & E & Hr');
    [simpl; by rewrite decide_True |].
  exists g'. unfold job_init. rewrite E. split; [done |]. eexists. split; [exact Hr' |]. simpl. split; [done |]. split_and!; [done | done | set_solver].
Qed.

Lemma job_free_ok g L P o : queue g L P → o ∈ dom L → ∃ g', job_free g o = Some g' ∧ queue g' (delete o L) (P ∖ {[o]}).
Proof.
  intros (q & Hr & <- & Hnd & HP & Hsub) [h Ho]%elem_of_dom.
  destruct (jq_sim g q (CFree o) (mk_aqueue (remove_job o (stack q)) (delete o (live q))) ANone Hr) as (g' & E & Hr'); [simpl; by rewrite Ho |].
  exists g'. unfold job_free. rewrite E. split; [done |]. eexists. split; [exact Hr' |]. simpl. split; [done |]. split_and!.
  - by apply NoDup_remove_job.
  - intros x. rewrite elem_of_remove_job, elem_of_difference, elem_of_singleton, HP. naive_solver.
  - set_solver.
Qed.

Lemma has_jobs_ok g L P : queue g L P → ∃ g' b, has_jobs g = Some (g', b) ∧ queue g' L P ∧ (b = false ↔ P = ∅).
Proof.
  intros (q & Hr & <- & Hnd & HP & Hsub). unfold has_jobs.
  destruct (jq_sim g q CHasJobs q (ABool (bool_decide (stack q ≠ []))) Hr) as (g1 & E1 & Hr1); [done |]. rewrite E1.
  eexists _, _. split; [reflexivity |]. split; [by exists q |]. rewrite bool_decide_eq_false. split.
  - intros Hs%dec_stable. apply set_eq. intros x. rewrite <- HP, Hs. set_solver.
  - intros ->. destruct (stack q) as [| o js]; [naive_solver |]. exfalso. apply (not_elem_of_empty (C := gset addr) o), HP. set_solver.
Qed.

(** The next job is one of those that are set. *)
Lemma next_job_ok g L P : queue g L P →
  (P = ∅ ∧ ∃ g', next_job g = Some (g', None) ∧ queue g' L P) ∨
  (∃ o h g', o ∈ P ∧ L !! o = Some h ∧ next_job g = Some (g', Some h) ∧ queue g' L (P ∖ {[o]})).
Proof.
  intros (q & Hr & <- & Hnd & HP & Hsub). unfold next_job.
  destruct (jq_sim g q CHasJobs q (ABool (bool_decide (stack q ≠ []))) Hr) as (g1 & E1 & Hr1); [done |]. rewrite E1.
  destruct (stack q) as [| o js] eqn:Es.
  - left. rewrite bool_decide_false by naive_solver. split; [apply set_eq; intros x; rewrite <- HP; set_solver |].
    exists g1. split; [done |]. exists q. rewrite Es. done.
  - right. rewrite bool_decide_true by done. assert (o ∈ P) as Ho by (apply HP; set_solver).
    assert (o ∈ dom (live q)) as [h Hh]%elem_of_dom by set_solver.
    destruct (jq_sim g1 q CExecute (mk_aqueue js (live q)) (ACall h) Hr1) as (g2 & E2 & Hr2); [simpl; by rewrite Es, Hh |].
    rewrite E2. exists o, h, g2. split_and!; [done | done | done |]. eexists. split; [exact Hr2 |]. simpl. apply NoDup_cons in Hnd as [Hn Hnd].
    split; [done |]. split_and!; [done | | set_solver]. intros x. rewrite elem_of_difference, elem_of_singleton, <- HP, elem_of_cons. set_solver.
Qed.

End queue.

(** ** The protocol of a PacketPassInterface *)

(** What the two sides have seen: nothing is on the way; a packet was sent but
    the provider was not told; the provider works on it (and whether the sender
    wants to cancel, and the provider was told); the done report is due. *)
Inductive view :=
| VIdle
| VSent (data len : Z)
| VWorking (cancel told : bool)
| VEnding.

(** What the sender and the provider do. *)
Inductive uaction := USend (data len : Z) | UCancel | UFinish.

(** Who uses the interface. *)
Record wiring := mk_wiring { w_mtu : Z; w_operation : nat; w_cancel : option nat; w_done : nat }.

(** The actions the protocol allows: one packet at a time, of at most the size of
    the interface, a cancel request while a packet is on the way, an end of the
    work by the provider that works. *)
Definition allowed (w : wiring) (v : view) (u : uaction) : option view :=
  match v, u with
  | VIdle, USend d l => if (0 <=? l) && (l <=? w_mtu w) && (negb (0 <? l) || negb (d =? 0)) then Some (VSent d l) else None
  | VSent _ _, UCancel => if is_set (w_cancel w) then Some VEnding else None
  | VWorking _ t, UCancel => if is_set (w_cancel w) then Some (VWorking true t) else None
  | VEnding, UCancel => if is_set (w_cancel w) then Some VEnding else None
  | VWorking _ _, UFinish => Some VEnding
  | _, _ => None
  end.

(** The calls the protocol allows: the provider is given what was sent, unless it
    was cancelled, it is told about a cancel request once while it works, the
    sender hears about the end once. *)
Definition expected (w : wiring) (v : view) (c : icall) : option view :=
  match v, c with
  | VSent d l, CallSend h d' l' => if decide (h = w_operation w ∧ d' = d ∧ l' = l) then Some (VWorking false false) else None
  | VWorking true false, CallCancel h => if decide (w_cancel w = Some h) then Some (VWorking true true) else None
  | VEnding, CallDone h => if decide (h = w_done w) then Some VIdle else None
  | _, _ => None
  end.

Inductive pevent := PUser (u : uaction) | PNext | POther (o : addr) (b : bool).

Section protocol.
Context {G : Type} `{JobQueue G}.
Implicit Types (L : gmap addr nat) (P : gset addr) (i : PacketPassInterface).

Definition ppi_user (g : G) i (u : uaction) : option (G * PacketPassInterface) :=
  match u with
  | USend d l => PacketPassInterface_Sender_Send g i d l
  | UCancel => PacketPassInterface_Sender_RequestCancel g i
  | UFinish => PacketPassInterface_Done g i
  end.

(** An action that is allowed, the next job of the queue, or another object that
    sets or unsets a job of its own. A call that is not expected is undefined. *)
Definition pstep (w : wiring) (others : gset addr) (s : view * G * PacketPassInterface) (e : pevent) : option (view * G * PacketPassInterface) :=
  let '(v, g, i) := s in
  match e with
  | PUser u =>
      match allowed w v u with
      | None => Some s
      | Some v' => '(g, i) ← ppi_user g i u; Some (v', g, i)
      end
  | PNext =>
      '(g, h) ← next_job g;
      match h with
      | None => Some (v, g, i)
      | Some h =>
          '(i, c) ← ppi_job i h;
          match c with None => Some (v, g, i) | Some c => v ← expected w v c; Some (v, g, i) end
      end
  | POther o b =>
      if decide (o ∈ others) then g ← (if (b : bool) then job_set g o else job_unset g o); Some (v, g, i) else Some s
  end.

Definition prun w others (s : view * G * PacketPassInterface) (es : list pevent) : option (view * G * PacketPassInterface) :=
  foldl (λ s e, s ≫= λ s, pstep w others s e) (Some s) es.

(** The interface is created by its provider and given to its user. *)
Definition ppi_setup (w : wiring) (g : G) i : option (G * PacketPassInterface) :=
  '(g, i) ← PacketPassInterface_Init g i (w_mtu w) (w_operation w);
  i ← match w_cancel w with Some h => PacketPassInterface_EnableCancel i h | None => Some i end;
  i ← PacketPassInterface_Sender_Init i (w_done w);
  Some (g, i).

Definition ppi_jobs i : list addr := [ppi_job_operation i; ppi_job_requestcancel i; ppi_job_done i].

(** The interface agrees with the jobs that are set. *)
Record ppi_ok L P i : Prop := {
  o_live : ∀ o, o ∈ ppi_jobs i → L !! o = Some o;
  o_dist : NoDup (ppi_jobs i);
  o_op : ppi_job_operation i ∈ P ↔ ppi_state i = STATE_OPERATION_PENDING;
  o_done : ppi_job_done i ∈ P ↔ ppi_state i = STATE_DONE_PENDING;
  o_cancel : ppi_job_requestcancel i ∈ P →
    ppi_state i = STATE_BUSY ∧ ppi_cancel_requested i = true ∧ is_set (ppi_handler_requestcancel i) = true
}.

Definition wired (w : wiring) i : Prop :=
  ppi_mtu i = w_mtu w ∧ ppi_handler_operation i = w_operation w ∧ ppi_handler_requestcancel i = w_cancel w ∧ ppi_handler_done i = Some (w_done w).

(** The interface is in the state its two sides have seen. *)
Definition seen (v : view) P i : Prop :=
  match v with
  | VIdle => ppi_state i = STATE_NONE
  | VSent d l => ppi_state i = STATE_OPERATION_PENDING ∧ ppi_job_operation_data i = d ∧ ppi_job_operation_len i = l ∧ ppi_cancel_requested i = false
  | VWorking c t => ppi_state i = STATE_BUSY ∧ ppi_cancel_requested i = c ∧ (ppi_job_requestcancel i ∈ P ↔ c = true ∧ t = false) ∧ (t = true → c = true)
  | VEnding => ppi_state i = STATE_DONE_PENDING
  end.

Lemma ppi_in_live L P i o : ppi_ok L P i → o ∈ ppi_jobs i → o ∈ dom L.
Proof. intros Hi Ho. apply elem_of_dom. exists o. by apply (o_live _ _ _ Hi). Qed.

Lemma ppi_distinct L P i : ppi_ok L P i →
  ppi_job_operation i ≠ ppi_job_requestcancel i ∧ ppi_job_operation i ≠ ppi_job_done i ∧ ppi_job_requestcancel i ≠ ppi_job_done i.
Proof. intros Hi. pose proof (o_dist _ _ _ Hi) as Hd. unfold ppi_jobs in Hd. rewrite !NoDup_cons in Hd. set_solver. Qed.

(** Other jobs do not matter. *)
Lemma ppi_ok_frame L P P' i : (∀ o, o ∈ ppi_jobs i → (o ∈ P' ↔ o ∈ P)) → ppi_ok L P i → ppi_ok L P' i.
Proof. intros HP []. split; [done | done | | |]; rewrite HP; (done || unfold ppi_jobs; set_solver). Qed.

Lemma seen_frame v P P' i : (∀ o, o ∈ ppi_jobs i → (o ∈ P' ↔ o ∈ P)) → seen v P i → seen v P' i.
Proof. intros HP. destruct v; simpl; rewrite ?HP; (done || unfold ppi_jobs; set_solver). Qed.

(** What a call keeps: the queue, the agreement with it, the wiring, and the jobs of
    other objects. *)
Definition ppi_after (w : wiring) L P i (v' : view) (g' : G) i' : Prop :=
  ∃ P', queue g' L P' ∧ ppi_ok L P' i' ∧ wired w i' ∧ seen v' P' i' ∧ ppi_jobs i' = ppi_jobs i ∧
    (∀ o, o ∉ ppi_jobs i → (o ∈ P' ↔ o ∈ P)).

Lemma ppi_send_ok w g L P i d l : queue g L P → ppi_ok L P i → wired w i → ppi_state i = STATE_NONE →
  0 ≤ l ≤ w_mtu w → (0 < l → d ≠ 0) →
  ∃ g' i', PacketPassInterface_Sender_Send g i d l = Some (g', i') ∧ ppi_after w L P i (VSent d l) g' i'.
Proof.
  intros Hq Hi (Hm & Ho & Hc & Hd) Hst Hl Hnull. destruct (ppi_distinct _ _ _ Hi) as (N1 & N2 & N3).
  destruct (job_set_ok g L P (ppi_job_operation i) Hq) as (g' & E & Hq'); [apply (ppi_in_live _ _ _ _ Hi); unfold ppi_jobs; set_solver |].
  unfold PacketPassInterface_Sender_Send, is_state. rewrite Hd, Hst, Hm, E.
  rewrite !ASSERT_seq; [| done | done | | apply Z.leb_le; lia | apply Z.leb_le; lia].
  2: { destruct (Z.ltb_spec 0 l), (Z.eqb_spec d 0); try done. by specialize (Hnull ltac:(done)). }
  eexists _, _. split; [reflexivity |]. exists (P ∪ {[ppi_job_operation i]}). split; [done |]. destruct Hi as [Hlv Hdi Hop Hdo Hca].
  rewrite Hst in *. split; [split; simpl; [done | done | set_solver | set_solver |] |].
  - rewrite elem_of_union, elem_of_singleton. intros [Hx | Hx]; [by destruct (Hca Hx) | congruence].
  - split; [done |]. split; [done |]. split; [done |]. intros o Hn. unfold ppi_jobs in Hn. set_solver.
Qed.

Lemma ppi_finish_ok w g L P i : queue g L P → ppi_ok L P i → wired w i → ppi_state i = STATE_BUSY →
  ∃ g' i', PacketPassInterface_Done g i = Some (g', i') ∧ ppi_after w L P i VEnding g' i'.
Proof.
  intros Hq Hi Hw Hst. destruct (ppi_distinct _ _ _ Hi) as (N1 & N2 & N3). unfold PacketPassInterface_Done, is_state. rewrite Hst, ASSERT_seq by done.
  destruct (job_unset_ok g L P (ppi_job_requestcancel i) Hq) as (g1 & E1 & Hq1); [apply (ppi_in_live _ _ _ _ Hi); unfold ppi_jobs; set_solver |].
  destruct (job_set_ok g1 L _ (ppi_job_done i) Hq1) as (g2 & E2 & Hq2); [apply (ppi_in_live _ _ _ _ Hi); unfold ppi_jobs; set_solver |].
  rewrite E1, option_bind_Some, E2, option_bind_Some. eexists _, _. split; [reflexivity |]. eexists. split; [exact Hq2 |].
  destruct Hi as [Hlv Hdi Hop Hdo Hca]. rewrite Hst in *. split; [split; simpl; [done | done | set_solver | set_solver | set_solver] |].
  split; [done |]. split; [done |]. split; [done |]. intros o Hn. unfold ppi_jobs in Hn. set_solver.
Qed.

Lemma ppi_cancel_ok w g L P i v v' : queue g L P → ppi_ok L P i → wired w i → seen v P i → allowed w v UCancel = Some v' →
  ∃ g' i', PacketPassInterface_Sender_RequestCancel g i = Some (g', i') ∧ ppi_after w L P i v' g' i'.
Proof.
  intros Hq Hi (Hm & Ho & Hc & Hd) Hs Hall. destruct (ppi_distinct _ _ _ Hi) as (N1 & N2 & N3).
  unfold PacketPassInterface_Sender_RequestCancel. rewrite Hc.
  assert (is_set (w_cancel w) = true) as Hset by (destruct v; simpl in Hall; destruct (is_set (w_cancel w)); done).
  assert (∀ o, o ∈ ppi_jobs i → o ∈ dom L) as Hdom by (intros; by eapply ppi_in_live).
  rewrite (ASSERT_seq (is_set _)) by done. unfold is_state. destruct Hi as [Hlv Hdi Hop Hdo Hca].
  destruct v as [| d l | c t |]; simpl in Hall; rewrite ?Hset in Hall; simplify_eq/=.
  - destruct Hs as (Hst & Hda & Hle & Hcr). rewrite Hst, Hcr in *. simpl. rewrite ?Hst.
    destruct (job_unset_ok g L P (ppi_job_operation i) Hq) as (g1 & E1 & Hq1); [apply Hdom; unfold ppi_jobs; set_solver |].
    destruct (job_set_ok g1 L _ (ppi_job_done i) Hq1) as (g2 & E2 & Hq2); [apply Hdom; unfold ppi_jobs; set_solver |].
    rewrite E1, option_bind_Some, E2, option_bind_Some. eexists _, _. split; [reflexivity |]. eexists. split; [exact Hq2 |].
    split; [split; simpl; [done | done | set_solver | set_solver | set_solver] |].
    split; [done |]. split; [done |]. split; [done |]. intros o Hn. unfold ppi_jobs in Hn. set_solver.
  - destruct Hs as (Hst & Hcr & Hjob & Ht). rewrite Hst in *. simpl. rewrite Hcr. destruct c.
    + eexists _, _. split; [reflexivity |]. exists P. split; [done |]. split; [by split; rewrite ?Hst |]. split; [done |]. by split.
    + destruct (job_set_ok g L P (ppi_job_requestcancel i) Hq) as (g1 & E1 & Hq1); [apply Hdom; unfold ppi_jobs; set_solver |].
      rewrite ?Hst, E1, option_bind_Some. eexists _, _. split; [reflexivity |]. eexists. split; [exact Hq1 |].
      split; [split; simpl; rewrite ?Hst; [done | done | set_solver | set_solver | by rewrite Hc] |].
      split; [done |]. split; [simpl; destruct t; [by specialize (Ht eq_refl) |]; set_solver |].
      split; [done |]. intros o Hn. unfold ppi_jobs in Hn. set_solver.
  - rewrite Hs in *. simpl. destruct (ppi_cancel_requested i) eqn:Hcr.
    + eexists _, _. split; [reflexivity |]. exists P. split; [done |]. split; [by split; rewrite ?Hs, ?Hcr |]. split; [done |]. by split.
    + rewrite ?Hs. eexists _, _. split; [reflexivity |]. exists P. split; [done |]. split; [split; simpl; rewrite ?Hs; naive_solver |]. split; [done |]. by split.
Qed.

Lemma ppi_user_ok w g L P i v u v' : queue g L P → ppi_ok L P i → wired w i → seen v P i → allowed w v u = Some v' →
  ∃ g' i', ppi_user g i u = Some (g', i') ∧ ppi_after w L P i v' g' i'.
Proof.
  intros Hq Hi Hw Hs Hall. destruct u as [d l | |].
  - destruct v; simpl in Hall; try done; [| by destruct (is_set _)..]. 
    destruct ((0 <=? l) && (l <=? w_mtu w) && _) eqn:E; [| done]. simplify_eq.
    apply andb_true_iff in E as [E Hnull]. b2p. apply ppi_send_ok; try done. intros Hl ->. apply Z.ltb_lt in Hl. by rewrite Hl in Hnull.
  - by eapply ppi_cancel_ok.
  - destruct v; simpl in Hall; try done; simplify_eq. apply ppi_finish_ok; try done. by destruct Hs.
Qed.

(** A job of the interface makes a call that is expected. *)
Lemma ppi_job_ok w g L P i v o : queue g L (P ∖ {[o]}) → ppi_ok L P i → wired w i → seen v P i → o ∈ P → o ∈ ppi_jobs i →
  ∃ i' c v', ppi_job i o = Some (i', Some c) ∧ expected w v c = Some v' ∧ ppi_after w L (P ∖ {[o]}) i v' g i'.
Proof.
  intros Hq Hi (Hm & Ho & Hc & Hd) Hs HoP Hoj. destruct (ppi_distinct _ _ _ Hi) as (N1 & N2 & N3).
  destruct Hi as [Hlv Hdi Hop Hdo Hca]. unfold ppi_job. unfold ppi_jobs in Hoj.
  assert (o = ppi_job_operation i ∨ o = ppi_job_requestcancel i ∨ o = ppi_job_done i) as [-> | [-> | ->]] by set_solver.
  - apply Hop in HoP as Hst. rewrite decide_True by done. unfold _PacketPassInterface_job_operation, is_state. rewrite Hst.
    rewrite ASSERT_seq, option_bind_Some by done. destruct v as [| d l | c t |]; simpl in Hs; try (exfalso; first [congruence | destruct Hs; congruence]).
    destruct Hs as (_ & <- & <- & Hcr). eexists _, _, _. split; [reflexivity |]. rewrite Ho. simpl. rewrite decide_True by done.
    split; [reflexivity |]. exists (P ∖ {[ppi_job_operation i]}). split; [done |]. rewrite Hst in *.
    split; [split; simpl; [done | done | set_solver | set_solver | set_solver] |]. split; [done |]. split; [simpl; set_solver | by split].
  - destruct (Hca HoP) as (Hst & Hcr & Hset). rewrite decide_False, decide_True by done. unfold _PacketPassInterface_job_requestcancel, is_state.
    rewrite Hst, Hcr, !ASSERT_seq by done. destruct v as [| d l | c t |]; simpl in Hs; try (exfalso; first [congruence | destruct Hs; congruence]).
    destruct Hs as (_ & Hcr' & Hjob & _). apply Hjob in HoP as [-> ->]. rewrite Hc in *. destruct (w_cancel w) as [h |] eqn:Eh; [| done].
    eexists _, _, _. split; [reflexivity |]. simpl. rewrite Eh, decide_True by done. split; [reflexivity |].
    exists (P ∖ {[ppi_job_requestcancel i]}). split; [done |]. rewrite Hst in *.
    split; [split; rewrite ?Hst; [done | done | set_solver | set_solver | set_solver] |]. split; [by rewrite <- Eh in Hc |].
    split; [simpl; rewrite Hst; set_solver | by split].
  - apply Hdo in HoP as Hst. rewrite !decide_False, decide_True by done. unfold _PacketPassInterface_job_done, is_state. rewrite Hst, Hd.
    rewrite ASSERT_seq, !option_bind_Some by done. destruct v as [| d l | c t |]; simpl in Hs; try (exfalso; first [congruence | destruct Hs; congruence]).
    eexists _, _, _. split; [reflexivity |]. simpl. rewrite decide_True by done.
    split; [reflexivity |]. exists (P ∖ {[ppi_job_done i]}). split; [done |]. rewrite Hst in *.
    split; [split; simpl; [done | done | set_solver | set_solver | set_solver] |]. by split.
Qed.

(** Another job does not touch the interface. *)
Lemma ppi_job_other i h : h ∉ ppi_jobs i → ppi_job i h = Some (i, None).
Proof. intros Hn. unfold ppi_job. unfold ppi_jobs in Hn. rewrite !decide_False by set_solver. done. Qed.

(** The other objects of the group: their jobs and handlers are not those of the
    interface. *)
Definition apart L (others : gset addr) (J : list addr) : Prop :=
  others ⊆ dom L ∧ (∀ o, o ∈ others → o ∉ J) ∧ (∀ o h, L !! o = Some h → o ∉ J → h ∉ J).

Definition pinv (w : wiring) L (J : list addr) (s : view * G * PacketPassInterface) : Prop :=
  let '(v, g, i) := s in ∃ P, queue g L P ∧ ppi_ok L P i ∧ wired w i ∧ seen v P i ∧ ppi_jobs i = J.

Lemma pstep_ok w L others J s e : apart L others J → pinv w L J s → ∃ s', pstep w others s e = Some s' ∧ pinv w L J s'.
Proof.
  intros (Hsub & Hoth & Hnames) Hinv. destruct s as [[v g] i]. pose proof Hinv as (P & Hq & Hi & Hw & Hs & <-). destruct e as [u | | o b]; simpl.
  - destruct (allowed w v u) as [v' |] eqn:Ea; [| by eauto].
    destruct (ppi_user_ok w g L P i v u v' Hq Hi Hw Hs Ea) as (g' & i' & -> & P' & Hq' & Hi' & Hw' & Hs' & HJ & _). simpl.
    eexists. split; [done |]. by exists P'.
  - destruct (next_job_ok g L P Hq) as [(-> & g' & -> & Hq') | (o & h & g' & Ho & Hh & -> & Hq')]; simpl; [eexists; split; [done |]; by exists ∅ |].
    destruct (decide (o ∈ ppi_jobs i)) as [Hoj | Hoj].
    + rewrite (o_live _ _ _ Hi o Hoj) in Hh. injection Hh as <-.
      destruct (ppi_job_ok w g' L P i v o Hq' Hi Hw Hs Ho Hoj) as (i' & c & v' & -> & E & P' & Hq2 & Hi' & Hw' & Hs' & HJ & _). simpl. rewrite E.
      eexists. split; [done |]. by exists P'.
    + rewrite ppi_job_other by (by eapply Hnames). simpl. eexists. split; [done |]. exists (P ∖ {[o]}). split; [done |].
      split; [eapply ppi_ok_frame; [| exact Hi]; set_solver |]. split; [done |]. split; [| done]. eapply seen_frame; [| exact Hs]. set_solver.
  - case_decide as Ho; [| by eauto]. assert (o ∈ dom L) as Hd by set_solver. specialize (Hoth o Ho).
    destruct (job_toggle_ok g L P o b Hq Hd) as (g' & P' & -> & Hq' & HP'). rewrite option_bind_Some. eexists. split; [done |]. exists P'. split; [done |].
    assert (∀ x, x ∈ ppi_jobs i → (x ∈ P' ↔ x ∈ P)) by (intros x Hx; apply HP'; by intros ->).
    split; [by eapply ppi_ok_frame |]. split; [done |]. split; [| done]. by eapply seen_frame.
Qed.

Lemma prun_ok w L others J es : ∀ s, apart L others J → pinv w L J s → ∃ s', prun w others s es = Some s' ∧ pinv w L J s'.
Proof.
  induction es as [| e es IH]; intros s Ha Hi; [by exists s |]. destruct (pstep_ok w L others J s e Ha Hi) as (s1 & E & Hi1).
  destruct (IH s1 Ha Hi1) as (s2 & E2 & Hi2). exists s2. split; [| done]. unfold prun in *. simpl. by rewrite E.
Qed.

(** The group with the jobs of the interface. *)
Definition with_jobs L (J : list addr) : gmap addr nat := foldr (λ o L, <[o := o]> L) L J.

Lemma ppi_setup_ok w g L P i : queue g L P → 0 ≤ w_mtu w → NoDup (ppi_jobs i) → (∀ o, o ∈ ppi_jobs i → L !! o = None) →
  ∃ g' i', ppi_setup w g i = Some (g', i') ∧ ppi_jobs i' = ppi_jobs i ∧ queue g' (with_jobs L (rev (ppi_jobs i))) P ∧
    ppi_ok (with_jobs L (rev (ppi_jobs i))) P i' ∧ wired w i' ∧ ppi_state i' = STATE_NONE.
Proof.
  intros Hq Hm Hnd Hfree.
  assert (ppi_job_operation i ≠ ppi_job_requestcancel i ∧ ppi_job_operation i ≠ ppi_job_done i ∧ ppi_job_requestcancel i ≠ ppi_job_done i) as (N1 & N2 & N3).
  { unfold ppi_jobs in Hnd. rewrite !NoDup_cons in Hnd. set_solver. }
  assert (∀ o, o ∈ ppi_jobs i → o ∉ P) as HnP.
  { intros o Ho HoP. destruct Hq as (q & _ & <- & _ & _ & Hs). apply Hs, elem_of_dom in HoP. rewrite (Hfree o Ho) in HoP. by destruct HoP. }
  assert (∀ o, o ∈ [ppi_job_operation i; ppi_job_requestcancel i; ppi_job_done i] → o ∈ ppi_jobs i) as Hin by done.
  destruct (job_init_ok g L P (ppi_job_operation i) Hq) as (g1 & E1 & Hq1); [apply Hfree, Hin; set_solver |].
  destruct (job_init_ok g1 _ P (ppi_job_requestcancel i) Hq1) as (g2 & E2 & Hq2); [rewrite lookup_insert_ne by done; apply Hfree, Hin; set_solver |].
  destruct (job_init_ok g2 _ P (ppi_job_done i) Hq2) as (g3 & E3 & Hq3); [rewrite !lookup_insert_ne by done; apply Hfree, Hin; set_solver |].
  unfold ppi_setup, PacketPassInterface_Init. rewrite ASSERT_seq by (by apply Z.leb_le). simpl. rewrite E1, option_bind_Some, E2, option_bind_Some, E3, option_bind_Some.
  assert (∀ i', ppi_jobs i' = ppi_jobs i → ppi_state i' = STATE_NONE → ppi_ok (with_jobs L (rev (ppi_jobs i))) P i') as Hok.
  { intros i' HJ Hst. assert (∀ o, o ∈ ppi_jobs i' → o ∉ P) as HnP' by (rewrite HJ; done).
    split; rewrite ?HJ, ?Hst; [| done | split; [| done] | split; [| done] |]; try (intros Hx; exfalso; eapply HnP', Hx; unfold ppi_jobs; set_solver).
    intros o Ho. unfold with_jobs. simpl. unfold ppi_jobs in Ho. rewrite !elem_of_cons in Ho. destruct Ho as [-> | [-> | [-> | []%elem_of_nil]]].
    - rewrite !lookup_insert_ne by done. by rewrite lookup_insert_eq.
    - rewrite lookup_insert_ne by done. by rewrite lookup_insert_eq.
    - by rewrite lookup_insert_eq. }
  unfold PacketPassInterface_EnableCancel, PacketPassInterface_Sender_Init.
  destruct (w_cancel w) as [h |] eqn:Eh; simpl; eexists _, _; (split; [reflexivity |]); (split; [done |]); (split; [done |]); (split; [by apply Hok |]);
    unfold wired; rewrite ?Eh; done.
Qed.

(** The interface before it has a user. *)
Lemma ppi_init_ok g L P i mtu h : queue g L P → 0 ≤ mtu → NoDup (ppi_jobs i) → (∀ o, o ∈ ppi_jobs i → L !! o = None) →
  ∃ g' i', PacketPassInterface_Init g i mtu h = Some (g', i') ∧ ppi_jobs i' = ppi_jobs i ∧ queue g' (with_jobs L (rev (ppi_jobs i))) P ∧
    ppi_ok (with_jobs L (rev (ppi_jobs i))) P i' ∧ ppi_mtu i' = mtu ∧ ppi_handler_operation i' = h ∧ ppi_handler_requestcancel i' = None ∧
    ppi_state i' = STATE_NONE.
Proof.
  intros Hq Hm Hnd Hf. destruct (ppi_setup_ok (mk_wiring mtu h None 0) g L P i Hq Hm Hnd Hf) as (g' & i' & E & HJ & Hq' & Hok & (H1 & H2 & H3 & _) & Hs).
  unfold ppi_setup in E. apply bind_Some in E as ([g1 i1] & Ei & E). cbn [w_mtu w_operation w_cancel w_done] in *. rewrite option_bind_Some in E.
  apply bind_Some in E as (i2 & E2 & [= -> ->]). unfold PacketPassInterface_Sender_Init in E2. apply bind_Some in E2 as (_ & _ & [= <-]).
  exists g', i1. destruct Hok. split_and!; done.
Qed.

Lemma ppi_free_ok g L P i : queue g L P → ppi_ok L P i →
  ∃ g', PacketPassInterface_Free g i = Some g' ∧ queue g' (foldr delete L (ppi_jobs i)) (P ∖ list_to_set (ppi_jobs i)).
Proof.
  intros Hq Hi. destruct (ppi_distinct _ _ _ Hi) as (N1 & N2 & N3). pose proof (ppi_in_live L P i) as Hl.
  destruct (job_free_ok g L P (ppi_job_done i) Hq) as (g1 & E1 & Hq1); [apply Hl; [done | unfold ppi_jobs; set_solver] |].
  destruct (job_free_ok g1 _ _ (ppi_job_requestcancel i) Hq1) as (g2 & E2 & Hq2);
    [rewrite dom_delete; apply elem_of_difference; split; [apply Hl; [done | unfold ppi_jobs; set_solver] | set_solver] |].
  destruct (job_free_ok g2 _ _ (ppi_job_operation i) Hq2) as (g3 & E3 & Hq3);
    [rewrite !dom_delete; repeat (apply elem_of_difference; split; [| set_solver]); apply Hl; [done | unfold ppi_jobs; set_solver] |].
  unfold PacketPassInterface_Free. rewrite E1, option_bind_Some, E2, option_bind_Some. exists g3. split; [done |]. simpl.
  replace (P ∖ _) with (P ∖ {[ppi_job_done i]} ∖ {[ppi_job_requestcancel i]} ∖ {[ppi_job_operation i]}); [done |]. set_solver.
Qed.

End protocol.

(** ** The jobs of two interfaces *)

Lemma elem_of_rev {A} (x : A) l : x ∈ rev l ↔ x ∈ l.
Proof. rewrite !list_elem_of_In. by rewrite <- in_rev. Qed.

Lemma with_jobs_other (L : gmap addr nat) J o : o ∉ J → with_jobs L J !! o = L !! o.
Proof. induction J as [| x J IH]; intros Hn; [done |]. simpl. rewrite lookup_insert_ne by set_solver. apply IH. set_solver. Qed.

Lemma dom_with_jobs (L : gmap addr nat) J : dom (with_jobs L J) = list_to_set J ∪ dom L.
Proof. induction J as [| x J IH]; simpl; [set_solver |]. rewrite dom_insert_L, IH. set_solver. Qed.

(** The jobs and handlers of two interfaces and of other objects do not overlap. *)
Definition jobs_apart (L : gmap addr nat) (J K : list addr) (others : gset addr) : Prop :=
  (∀ o, o ∈ J → o ∉ K) ∧ others ⊆ dom L ∧ (∀ o, o ∈ others → (o ∉ J) ∧ (o ∉ K)) ∧
  (∀ o h, L !! o = Some h → o ∉ J → h ∉ J) ∧ (∀ o h, L !! o = Some h → o ∉ K → h ∉ K).

Lemma with_jobs_lookup (L : gmap addr nat) J o h : with_jobs L J !! o = Some h → o ∈ J ∧ h = o ∨ L !! o = Some h.
Proof.
  induction J as [| x J IH]; intros Ho; [by right |]. simpl in Ho. apply lookup_insert_Some in Ho as [[<- <-] | [_ Ho]]; [left; set_solver |].
  destruct (IH Ho) as [[? ->] |]; [left; set_solver | by right].
Qed.

Lemma jobs_apart_setup (L : gmap addr nat) J K others : NoDup (J ++ K) → (∀ o, o ∈ J ++ K → L !! o = None) → others ⊆ dom L →
  (∀ o h, L !! o = Some h → h ∉ J ++ K) → jobs_apart (with_jobs (with_jobs L (rev K)) (rev J)) J K others.
Proof.
  intros (HdJ & HJK & HdK)%NoDup_app Hf Hsub Hn.
  assert (∀ o h, with_jobs (with_jobs L (rev K)) (rev J) !! o = Some h → (o ∈ J ∨ o ∈ K) ∧ h = o ∨ L !! o = Some h) as Hlk.
  { intros o h [[Hx ->] | [[Hx ->] | Hx]%with_jobs_lookup]%with_jobs_lookup; [| | by right]; rewrite elem_of_rev in Hx; left; tauto. }
  split; [done |]. split; [rewrite !dom_with_jobs; set_solver |]. split; [| split].
  - intros o [h Ho]%Hsub%elem_of_dom. split; intros Hj; rewrite Hf in Ho by set_solver; done.
  - intros o h Ho HoJ. destruct (Hlk o h Ho) as [[_ ->] | Hx]; [done |]. specialize (Hn o h Hx). set_solver.
  - intros o h Ho HoK. destruct (Hlk o h Ho) as [[_ ->] | Hx]; [done |]. specialize (Hn o h Hx). set_solver.
Qed.

(** ** The stream interfaces against the queue *)

Section stream.
Context {G : Type} `{JobQueue G}.
Implicit Types (L : gmap addr nat) (P : gset addr) (i : StreamPassInterface).

Definition spi_jobs i : list addr := [spi_job_operation i; spi_job_done i].

(** The interface agrees with the jobs that are set; its operation has data, and a
    report is of some of it. *)
Record spi_ok L P i : Prop := {
  s_live : ∀ o, o ∈ spi_jobs i → L !! o = Some o;
  s_dist : spi_job_operation i ≠ spi_job_done i;
  s_op : spi_job_operation i ∈ P ↔ spi_state i = STATE_OPERATION_PENDING;
  s_done : spi_job_done i ∈ P ↔ spi_state i = STATE_DONE_PENDING;
  s_len : spi_state i ≠ STATE_NONE → 0 < spi_job_operation_len i;
  s_part : spi_state i = STATE_DONE_PENDING → 0 < spi_job_done_len i ≤ spi_job_operation_len i
}.

Lemma spi_ok_frame L P P' i : (∀ o, o ∈ spi_jobs i → (o ∈ P' ↔ o ∈ P)) → spi_ok L P i → spi_ok L P' i.
Proof. intros HP []. split; [done | done | | | done | done]; rewrite HP; (done || unfold spi_jobs; set_solver). Qed.

(** What a call keeps. *)
Definition spi_after L P i (st : if_state) (g' : G) i' : Prop :=
  ∃ P', queue g' L P' ∧ spi_ok L P' i' ∧ spi_state i' = st ∧ spi_jobs i' = spi_jobs i ∧
    spi_handler_operation i' = spi_handler_operation i ∧ spi_handler_done i' = spi_handler_done i ∧
    (∀ o, o ∉ spi_jobs i → (o ∈ P' ↔ o ∈ P)).

Lemma spi_send_ok g L P i d l : queue g L P → spi_ok L P i → spi_state i = STATE_NONE → is_set (spi_handler_done i) = true → 0 < l → d ≠ 0 →
  ∃ g' i', StreamPassInterface_Sender_Send g i d l = Some (g', i') ∧ spi_after L P i STATE_OPERATION_PENDING g' i' ∧
    spi_job_operation_data i' = d ∧ spi_job_operation_len i' = l.
Proof.
  intros Hq Hi Hst Hd Hl Hn. destruct Hi as [Hlv Hdi Hop Hdo Hle Hpa].
  destruct (job_set_ok g L P (spi_job_operation i) Hq) as (g' & E & Hq'); [apply elem_of_dom; eexists; apply Hlv; unfold spi_jobs; set_solver |].
  unfold StreamPassInterface_Sender_Send, is_state. rewrite Hst, E.
  rewrite !ASSERT_seq; [| done | done | by rewrite (proj2 (Z.eqb_neq d 0) Hn) | by apply Z.ltb_lt].
  eexists _, _. split; [reflexivity |]. split; [| done]. eexists. split; [exact Hq' |]. rewrite Hst in *.
  split; [split; simpl; [done | done | set_solver | set_solver | done | done] |]. do 4 (split; [done |]). intros o Ho. unfold spi_jobs in Ho. set_solver.
Qed.

Lemma spi_finish_ok g L P i k : queue g L P → spi_ok L P i → spi_state i = STATE_BUSY → 0 < k ≤ spi_job_operation_len i →
  ∃ g' i', StreamPassInterface_Done g i k = Some (g', i') ∧ spi_after L P i STATE_DONE_PENDING g' i' ∧
    spi_job_operation_data i' = spi_job_operation_data i ∧ spi_job_operation_len i' = spi_job_operation_len i ∧ spi_job_done_len i' = k.
Proof.
  intros Hq Hi Hst Hk. destruct Hi as [Hlv Hdi Hop Hdo Hle Hpa].
  destruct (job_set_ok g L P (spi_job_done i) Hq) as (g' & E & Hq'); [apply elem_of_dom; eexists; apply Hlv; unfold spi_jobs; set_solver |].
  unfold StreamPassInterface_Done, is_state. rewrite Hst, E.
  rewrite !ASSERT_seq; [| apply Z.leb_le; lia | apply Z.ltb_lt; lia | done].
  eexists _, _. split; [reflexivity |]. split; [| done]. eexists. split; [exact Hq' |]. rewrite Hst in *.
  split; [split; simpl; [done | done | set_solver | set_solver | lia | done] |]. do 4 (split; [done |]). intros o Ho. unfold spi_jobs in Ho. set_solver.
Qed.

(** The jobs: the provider is given the operation, the user the report. *)
Lemma spi_job_ok g L P i o : queue g L (P ∖ {[o]}) → spi_ok L P i → is_set (spi_handler_done i) = true → o ∈ P → o ∈ spi_jobs i →
  (∃ i', spi_job i o = Some (i', Some (CallSend (spi_handler_operation i) (spi_job_operation_data i) (spi_job_operation_len i))) ∧
    spi_state i = STATE_OPERATION_PENDING ∧ spi_after L (P ∖ {[o]}) i STATE_BUSY g i' ∧
    spi_job_operation_data i' = spi_job_operation_data i ∧ spi_job_operation_len i' = spi_job_operation_len i) ∨
  (∃ i' h, spi_job i o = Some (i', Some (CallDoneLen h (spi_job_done_len i))) ∧ spi_handler_done i = Some h ∧
    spi_state i = STATE_DONE_PENDING ∧ spi_after L (P ∖ {[o]}) i STATE_NONE g i').
Proof.
  intros Hq Hi Hset HoP Hoj. destruct Hi as [Hlv Hdi Hop Hdo Hle Hpa]. unfold spi_job. unfold spi_jobs in Hoj.
  assert (o = spi_job_operation i ∨ o = spi_job_done i) as [-> | ->] by set_solver.
  - left. apply Hop in HoP as Hst. rewrite decide_True by done. unfold _StreamPassInterface_job_operation, is_state. rewrite Hst, ASSERT_seq by done.
    eexists. split; [reflexivity |]. split; [done |]. split; [| done]. eexists. split; [exact Hq |]. rewrite Hst in *.
    split; [split; simpl; [done | done | set_solver | set_solver | intros _; by apply Hle | done] |]. done.
  - right. apply Hdo in HoP as Hst. rewrite decide_False, decide_True by done. unfold _StreamPassInterface_job_done, is_state. rewrite Hst, ASSERT_seq by done.
    destruct (spi_handler_done i) as [h |] eqn:Eh; [| done]. exists (i <| spi_state := STATE_NONE |>), h. split; [reflexivity |]. split; [done |]. split; [done |].
    eexists. split; [exact Hq |]. rewrite Hst in *. split; [split; simpl; [done | done | set_solver | set_solver | done | done] |]. done.
Qed.

Lemma spi_job_other i h : h ∉ spi_jobs i → spi_job i h = Some (i, None).
Proof. intros Hn. unfold spi_job. unfold spi_jobs in Hn. rewrite !decide_False by set_solver. done. Qed.

End stream.

(** ** The protocol of a PacketRecvInterface *)

(** Nothing is on the way; the receiver asked for a packet at an address; the provider
    works on it; the report of a packet is due. *)
Inductive rview := RIdle | RAsked (data : Z) | RWorking (data : Z) | REnding (len : Z).

(** The calls of the interface: the provider is told where the packet goes, the
    receiver hears of its length. *)
Definition rexpected (w : wiring) (v : rview) (c : icall) : option rview :=
  match v, c with
  | RAsked d, CallRecv h d' => if decide (h = w_operation w ∧ d' = d) then Some (RWorking d) else None
  | REnding l, CallDoneLen h l' => if decide (h = w_done w ∧ l' = l) then Some RIdle else None
  | _, _ => None
  end.

Section recv.
Context {G : Type} `{JobQueue G}.
Implicit Types (L : gmap addr nat) (P : gset addr) (i : PacketRecvInterface).

Definition pri_jobs i : list addr := [pri_job_operation i; pri_job_done i].

Record pri_ok L P i : Prop := {
  r_live : ∀ o, o ∈ pri_jobs i → L !! o = Some o;
  r_dist : pri_job_operation i ≠ pri_job_done i;
  r_op : pri_job_operation i ∈ P ↔ pri_state i = STATE_OPERATION_PENDING;
  r_done : pri_job_done i ∈ P ↔ pri_state i = STATE_DONE_PENDING
}.

Definition rwired (w : wiring) i : Prop := pri_mtu i = w_mtu w ∧ pri_handler_operation i = w_operation w ∧ pri_handler_done i = Some (w_done w).

Definition rseen (v : rview) i : Prop :=
  match v with
  | RIdle => pri_state i = STATE_NONE
  | RAsked d => pri_state i = STATE_OPERATION_PENDING ∧ pri_job_operation_data i = d
  | RWorking d => pri_state i = STATE_BUSY ∧ pri_job_operation_data i = d
  | REnding l => pri_state i = STATE_DONE_PENDING ∧ pri_job_done_len i = l
  end.

Lemma pri_ok_frame L P P' i : (∀ o, o ∈ pri_jobs i → (o ∈ P' ↔ o ∈ P)) → pri_ok L P i → pri_ok L P' i.
Proof. intros HP []. split; [done | done | |]; rewrite HP; (done || unfold pri_jobs; set_solver). Qed.

Definition pri_after (w : wiring) L P i (v' : rview) (g' : G) i' : Prop :=
  ∃ P', queue g' L P' ∧ pri_ok L P' i' ∧ rwired w i' ∧ rseen v' i' ∧ pri_jobs i' = pri_jobs i ∧ (∀ o, o ∉ pri_jobs i → (o ∈ P' ↔ o ∈ P)).

Lemma pri_recv_ok w g L P i d : queue g L P → pri_ok L P i → rwired w i → pri_state i = STATE_NONE → (0 < w_mtu w → d ≠ 0) →
  ∃ g' i', PacketRecvInterface_Receiver_Recv g i d = Some (g', i') ∧ pri_after w L P i (RAsked d) g' i'.
Proof.
  intros Hq [Hlv Hdi Hop Hdo] (Hm & Ho & Hd) Hst Hnull.
  destruct (job_set_ok g L P (pri_job_operation i) Hq) as (g' & E & Hq'); [apply elem_of_dom; eexists; apply Hlv; unfold pri_jobs; set_solver |].
  unfold PacketRecvInterface_Receiver_Recv, is_state. rewrite Hd, Hst, Hm, E, !ASSERT_seq; [| done | done |].
  2: { destruct (Z.ltb_spec 0 (w_mtu w)), (Z.eqb_spec d 0); try done. by specialize (Hnull ltac:(done)). }
  eexists _, _. split; [reflexivity |]. eexists. split; [exact Hq' |]. rewrite Hst in *.
  split; [split; simpl; [done | done | set_solver | set_solver] |]. do 3 (split; [done |]). intros o Hx. unfold pri_jobs in Hx. set_solver.
Qed.

Lemma pri_finish_ok w g L P i l : queue g L P → pri_ok L P i → rwired w i → pri_state i = STATE_BUSY → 0 ≤ l ≤ w_mtu w →
  ∃ g' i', PacketRecvInterface_Done g i l = Some (g', i') ∧ pri_after w L P i (REnding l) g' i'.
Proof.
  intros Hq [Hlv Hdi Hop Hdo] (Hm & Ho & Hd) Hst Hl.
  destruct (job_set_ok g L P (pri_job_done i) Hq) as (g' & E & Hq'); [apply elem_of_dom; eexists; apply Hlv; unfold pri_jobs; set_solver |].
  unfold PacketRecvInterface_Done, is_state. rewrite Hst, Hm, E, !ASSERT_seq; [| done | apply Z.leb_le; lia | apply Z.leb_le; lia].
  eexists _, _. split; [reflexivity |]. eexists. split; [exact Hq' |]. rewrite Hst in *.
  split; [split; simpl; [done | done | set_solver | set_solver] |]. do 3 (split; [done |]). intros o Hx. unfold pri_jobs in Hx. set_solver.
Qed.

Lemma pri_job_ok w g L P i v o : queue g L (P ∖ {[o]}) → pri_ok L P i → rwired w i → rseen v i → o ∈ P → o ∈ pri_jobs i →
  ∃ i' c v', pri_job i o = Some (i', Some c) ∧ rexpected w v c = Some v' ∧ pri_after w L (P ∖ {[o]}) i v' g i'.
Proof.
  intros Hq [Hlv Hdi Hop Hdo] (Hm & Ho & Hd) Hs HoP Hoj. unfold pri_job. unfold pri_jobs in Hoj.
  assert (o = pri_job_operation i ∨ o = pri_job_done i) as [-> | ->] by set_solver.
  - apply Hop in HoP as Hst. rewrite decide_True by done. unfold _PacketRecvInterface_job_operation, is_state. rewrite Hst, ASSERT_seq, option_bind_Some by done.
    destruct v as [| d | d | l]; simpl in Hs; try (exfalso; first [congruence | destruct Hs; congruence]). destruct Hs as [_ <-].
    eexists _, _, _. split; [reflexivity |]. rewrite Ho. simpl. rewrite decide_True by done. split; [reflexivity |].
    eexists. split; [exact Hq |]. rewrite Hst in *. split; [split; simpl; [done | done | set_solver | set_solver] |]. by split.
  - apply Hdo in HoP as Hst. rewrite decide_False, decide_True by done. unfold _PacketRecvInterface_job_done, is_state.
    rewrite Hst, Hd, ASSERT_seq, !option_bind_Some by done.
    destruct v as [| d | d | l]; simpl in Hs; try (exfalso; first [congruence | destruct Hs; congruence]). destruct Hs as [_ <-].
    eexists _, _, _. split; [reflexivity |]. simpl. rewrite decide_True by done. split; [reflexivity |].
    eexists. split; [exact Hq |]. rewrite Hst in *. split; [split; simpl; [done | done | set_solver | set_solver] |]. by split.
Qed.

Lemma pri_job_other i h : h ∉ pri_jobs i → pri_job i h = Some (i, None).
Proof. intros Hn. unfold pri_job. unfold pri_jobs in Hn. rewrite !decide_False by set_solver. done. Qed.

(** The interface is created by its provider. *)
Lemma pri_init_ok g L P i mtu h : queue g L P → 0 ≤ mtu → NoDup (pri_jobs i) → (∀ o, o ∈ pri_jobs i → L !! o = None) →
  ∃ g' i', PacketRecvInterface_Init g i mtu h = Some (g', i') ∧ pri_jobs i' = pri_jobs i ∧ queue g' (with_jobs L (rev (pri_jobs i))) P ∧
    pri_ok (with_jobs L (rev (pri_jobs i))) P i' ∧ pri_mtu i' = mtu ∧ pri_handler_operation i' = h ∧ pri_handler_done i' = None ∧ pri_state i' = STATE_NONE.
Proof.
  intros Hq Hm Hnd Hfree. assert (pri_job_operation i ≠ pri_job_done i) as N by (unfold pri_jobs in Hnd; rewrite !NoDup_cons in Hnd; set_solver).
  assert (∀ o, o ∈ pri_jobs i → o ∉ P) as HnP.
  { intros o Ho HoP. destruct Hq as (q & _ & <- & _ & _ & Hs). apply Hs, elem_of_dom in HoP. rewrite (Hfree o Ho) in HoP. by destruct HoP. }
  assert (pri_job_operation i ∈ pri_jobs i ∧ pri_job_done i ∈ pri_jobs i) as [H1 H2] by (unfold pri_jobs; set_solver).
  destruct (job_init_ok g L P (pri_job_operation i) Hq) as (g1 & E1 & Hq1); [by apply Hfree |].
  destruct (job_init_ok g1 _ P (pri_job_done i) Hq1) as (g2 & E2 & Hq2); [rewrite lookup_insert_ne by done; by apply Hfree |].
  unfold PacketRecvInterface_Init. rewrite ASSERT_seq by (by apply Z.leb_le). simpl. rewrite E1, option_bind_Some, E2, option_bind_Some.
  eexists _, _. split; [reflexivity |]. split; [done |]. split; [exact Hq2 |]. split; [| done]. split; simpl; [| done | |].
  - intros o Ho. unfold pri_jobs in Ho. rewrite !elem_of_cons in Ho. destruct Ho as [-> | [-> | []%elem_of_nil]]; [| by rewrite lookup_insert_eq].
    rewrite lookup_insert_ne by done. by rewrite lookup_insert_eq.
  - split; [intros Hx; by destruct (HnP _ H1) | done].
  - split; [intros Hx; by destruct (HnP _ H2) | done].
Qed.

Lemma pri_free_ok g L P i : queue g L P → pri_ok L P i →
  ∃ g', PacketRecvInterface_Free g i = Some g' ∧ queue g' (foldr delete L (pri_jobs i)) (P ∖ list_to_set (pri_jobs i)).
Proof.
  intros Hq [Hlv Hdi Hop Hdo]. unfold pri_jobs in *.
  destruct (job_free_ok g L P (pri_job_done i) Hq) as (g1 & E1 & Hq1); [apply elem_of_dom; eexists; apply Hlv; set_solver |].
  destruct (job_free_ok g1 _ _ (pri_job_operation i) Hq1) as (g2 & E2 & Hq2);
    [apply elem_of_dom; rewrite lookup_delete_ne by done; eexists; apply Hlv; set_solver |].
  unfold PacketRecvInterface_Free. rewrite E1, option_bind_Some. exists g2. split; [done |]. simpl.
  replace (P ∖ _) with (P ∖ {[pri_job_done i]} ∖ {[pri_job_operation i]}); [done |]. set_solver.
Qed.

End recv.

Lemma forget_jobs (L : gmap addr nat) i : NoDup (ppi_jobs i) → (∀ o, o ∈ ppi_jobs i → L !! o = None) →
  foldr delete (with_jobs L (rev (ppi_jobs i))) (ppi_jobs i) = L.
Proof.
  intros Hnd Hf. pose proof (Hf (ppi_job_operation i) ltac:(unfold ppi_jobs; set_solver)). pose proof (Hf (ppi_job_requestcancel i) ltac:(unfold ppi_jobs; set_solver)).
  pose proof (Hf (ppi_job_done i) ltac:(unfold ppi_jobs; set_solver)). unfold ppi_jobs in *. rewrite !NoDup_cons in Hnd. simpl.
  rewrite !delete_insert_id; [done | done | | ]; rewrite ?lookup_insert_ne; (done || set_solver).
Qed.

(** [C39] The typestate of a packet interface. In any group of jobs, whatever other
    objects do with theirs and in whatever order the jobs run, as long as the sender
    and the provider act as the protocol allows, no assertion of the interface fails
    and it makes only the calls that are expected: the provider gets exactly what
    was sent, unless it was cancelled before, hears about a cancel request once and
    only while it works, and the sender gets one done report per packet. The
    interface never stalls: while a packet is on the way, either the provider works
    on it or the job that continues is set. At any time the interface can be freed,
    which leaves the jobs of the others. *)
Theorem ppi_typestate {G} `{JobQueue G} w (g : G) L P i others es :
  queue g L P → 0 ≤ w_mtu w → NoDup (ppi_jobs i) → (∀ o, o ∈ ppi_jobs i → L !! o = None) →
  others ⊆ dom L → (∀ o h, L !! o = Some h → h ∉ ppi_jobs i) →
  ∃ g1 i1 v g2 i2 P2,
    ppi_setup w g i = Some (g1, i1) ∧ prun w others (VIdle, g1, i1) es = Some (v, g2, i2) ∧
    queue g2 (with_jobs L (rev (ppi_jobs i))) P2 ∧
    (ppi_job_operation i ∈ P2 ↔ ∃ d l, v = VSent d l) ∧
    (ppi_job_requestcancel i ∈ P2 ↔ v = VWorking true false) ∧
    (ppi_job_done i ∈ P2 ↔ v = VEnding) ∧
    ∃ g3, PacketPassInterface_Free g2 i2 = Some g3 ∧ queue g3 L (P2 ∖ list_to_set (ppi_jobs i)).
Proof.
  intros Hq Hm Hnd Hf Hsub Hn. destruct (ppi_setup_ok w g L P i Hq Hm Hnd Hf) as (g1 & i1 & E1 & HJ1 & Hq1 & Hi1 & Hw1 & Hst).
  assert (apart (with_jobs L (rev (ppi_jobs i))) others (ppi_jobs i)) as Ha.
  { split_and!; simpl.
    - rewrite !dom_insert. set_solver.
    - intros o Ho%Hsub%elem_of_dom Hj. rewrite (Hf o Hj) in Ho. by destruct Ho.
    - intros o h Ho Hj. unfold ppi_jobs in Hj. rewrite !lookup_insert_ne in Ho by set_solver. by eapply Hn. }
  destruct (prun_ok w _ others (ppi_jobs i) es (VIdle, g1, i1) Ha) as ([[v g2] i2] & E2 & P2 & Hq2 & Hi2 & Hw2 & Hs2 & HJ2);
    [by exists P |].
  destruct (ppi_free_ok g2 _ P2 i2 Hq2 Hi2) as (g3 & E3 & Hq3). rewrite HJ2, forget_jobs in Hq3 by done.
  pose proof HJ2 as [= <- <- <-]. exists g1, i1, v, g2, i2, P2. split; [exact E1 |]. split; [exact E2 |]. split; [exact Hq2 |].
  rewrite (o_op _ _ _ Hi2), (o_done _ _ _ Hi2). pose proof (o_cancel _ _ _ Hi2) as Hc.
  destruct v as [| d l | c t |]; simpl in Hs2; [| | | ].
  - rewrite Hs2 in *. split; [split; [done | by intros (? & ? & ?)] |]. split; [naive_solver |]. split; [done |]. by exists g3.
  - destruct Hs2 as [Hs2 _]. rewrite Hs2 in *. split; [split; [by eauto | done] |]. split; [naive_solver |]. split; [done |]. by exists g3.
  - destruct Hs2 as (Hs2 & _ & Hj & _). rewrite Hs2 in *. split; [split; [done | by intros (? & ? & ?)] |]. split; [rewrite Hj; naive_solver |].
    split; [done |]. by exists g3.
  - rewrite Hs2 in *. split; [split; [done | by intros (? & ? & ?)] |]. split; [naive_solver |]. split; [done |]. by exists g3.
Qed.

(** A packet is sent, the work starts, the sender cancels, the provider hears of it
    and finishes; then a second packet is cancelled before the provider hears of it. *)
Definition wit_wiring : wiring := mk_wiring 1500 10 (Some 11%nat) 12.
Definition wit_ppi : PacketPassInterface := mk_ppi 9 9 (Some 9%nat) (Some 9%nat) 1 9 9 2 3 STATE_BUSY true.
Definition wit_pevents : list pevent :=
  [PUser (USend 4096 1500); PNext; PUser UCancel; PNext; PUser UFinish; PNext; PUser (USend 8192 0); PUser UCancel].

Lemma wit_queue : queue BPendingGroup_Init ∅ ∅.
Proof.
  exists empty_queue. split; [exact init_group_rep |]. split; [reflexivity |]. split; [constructor |]. split; [| set_solver].
  intros o. simpl. set_solver.
Qed.

Lemma ppi_typestate_witness : ∃ g1 i1 g2 i2 P2,
  ppi_setup wit_wiring BPendingGroup_Init wit_ppi = Some (g1, i1) ∧
  prun wit_wiring ∅ (VIdle, g1, i1) wit_pevents = Some (VEnding, g2, i2) ∧
  queue g2 {[1 := 1; 2 := 2; 3 := 3]}%nat P2 ∧ 3%nat ∈ P2.
Proof.
  destruct (ppi_typestate wit_wiring BPendingGroup_Init ∅ ∅ wit_ppi ∅ wit_pevents wit_queue) as
    (g1 & i1 & v & g2 & i2 & P2 & E1 & E2 & Hq & _ & _ & Hd & _).
  - vm_compute. discriminate.
  - vm_compute. apply (bool_decide_unpack (NoDup [1; 2; 3]%nat)). exact I.
  - intros o _. reflexivity.
  - set_solver.
  - intros o h Ho. discriminate Ho.
  - assert ((ppi_setup wit_wiring BPendingGroup_Init wit_ppi ≫= λ '(g1, i1), prun wit_wiring ∅ (VIdle, g1, i1) wit_pevents ≫= λ '(v, _, _), Some v) = Some VEnding) as E
      by (vm_compute; reflexivity).
    rewrite E1, option_bind_Some, E2, option_bind_Some in E. injection E as ->.
    exists g1, i1, g2, i2, P2. split; [exact E1 |]. split; [exact E2 |]. split; [| apply Hd; reflexivity].
    assert (with_jobs ∅ (rev (ppi_jobs wit_ppi)) = {[1 := 1; 2 := 2; 3 := 3]}%nat) as <- by (vm_compute; reflexivity). exact Hq.
Defined.
