(* ===== verification/PacketStreamSender.v ===== *)
(** * Sending packets over a stream (flow/PacketStreamSender.c)

    The component takes packets from a [PacketPassInterface] and passes their bytes
    to a [StreamPassInterface], which accepts any part of what it is offered. Both
    interfaces and the job queue under them are the ones of FlowInterfaces.v and
    BPending.v, so that the theorem is about the composition: packets go in at one
    end, jobs run, bytes come out at the other. *)
From S2P Require Import Prelude LinkedLists BPending FlowInterfaces.

(** [pss_output] is the interface the field points to. *)
Record PacketStreamSender := mk_pss {
  pss_input : PacketPassInterface;
  pss_output : StreamPassInterface;
  pss_in_len : Z;
  pss_in : Z;
  pss_in_used : Z
}.
#[export] Instance pss_eta : Eta PacketStreamSender := λ s, mk_pss (pss_input s) (pss_output s) (pss_in_len s) (pss_in s) (pss_in_used s).

Section sender.
Context {G : Type} `{JobQueue G}.

Definition send_data (g : G) (s : PacketStreamSender) : option (G * PacketStreamSender) :=
  ASSERT (0 <=? pss_in_len s);;
  if pss_in_used s <? pss_in_len s then
    '(g, o) ← StreamPassInterface_Sender_Send g (pss_output s) (pss_in s + pss_in_used s) (pss_in_len s - pss_in_used s);
    Some (g, s <| pss_output := o |>)
  else
    let s := s <| pss_in_len := -1 |> in
    '(g, i) ← PacketPassInterface_Done g (pss_input s);
    Some (g, s <| pss_input := i |>).

Definition pss_input_handler_send (g : G) (s : PacketStreamSender) (data data_len : Z) : option (G * PacketStreamSender) :=
  ASSERT (pss_in_len s =? -1);;
  ASSERT (0 <=? data_len);;
  send_data g (s <| pss_in_len := data_len |> <| pss_in := data |> <| pss_in_used := 0 |>).

Definition pss_output_handler_done (g : G) (s : PacketStreamSender) (data_len : Z) : option (G * PacketStreamSender) :=
  ASSERT (0 <=? pss_in_len s);;
  ASSERT (0 <? data_len);;
  ASSERT (data_len <=? pss_in_len s - pss_in_used s);;
  send_data g (s <| pss_in_used := pss_in_used s + data_len |>).

(** [s] is the memory of the object, with the output; the handlers are named. *)
Definition PacketStreamSender_Init (g : G) (s : PacketStreamSender) (mtu : Z) (handler_send handler_done : nat) : option (G * PacketStreamSender) :=
  ASSERT (0 <=? mtu);;
  '(g, i) ← PacketPassInterface_Init g (pss_input s) mtu handler_send;
  o ← StreamPassInterface_Sender_Init (pss_output s) handler_done;
  Some (g, s <| pss_input := i |> <| pss_output := o |> <| pss_in_len := -1 |>).

Definition PacketStreamSender_Free (g : G) (s : PacketStreamSender) : option G := PacketPassInterface_Free g (pss_input s).

(** ** The component between its neighbours *)

(** The packet sender above has [memory], waits for a done report when [above] is
    set and has sent [sent]; the stream below works on [below] and has taken
    [taken]. *)
Record net := mk_net {
  group : G;
  pss : PacketStreamSender;
  memory : bytes;
  above : bool;
  sent : list bytes;
  below : option (Z * Z);
  taken : bytes
}.

Inductive nevent := NSend (d : Z) (data : bytes) | NTake (k : Z) | NNext | NOther (o : addr) (b : bool).

(** The sender writes a packet to its memory and sends it. *)
Definition net_send (w : wiring) (n : net) (d : Z) (data : bytes) : option net :=
  if negb (above n) && (0 <? d) && (d + zlen data <=? zlen (memory n)) && (zlen data <=? w_mtu w) then
    '(g, i) ← PacketPassInterface_Sender_Send (group n) (pss_input (pss n)) d (zlen data);
    Some (mk_net g ((pss n) <| pss_input := i |>) (mem_write (memory n) d data) true (sent n ++ [data]) (below n) (taken n))
  else Some n.

(** The stream takes some of the bytes it is offered. *)
Definition net_take (n : net) (k : Z) : option net :=
  match below n with
  | Some (d, l) =>
      if (0 <? k) && (k <=? l) then
        '(g, o) ← StreamPassInterface_Done (group n) (pss_output (pss n)) k;
        Some (mk_net g ((pss n) <| pss_output := o |>) (memory n) (above n) (sent n) None (taken n ++ mem_read (memory n) d k))
      else Some n
  | None => Some n
  end.

(** A call of the input interface: to the component, or to the sender, which must
    be waiting for it. *)
Definition input_call (w : wiring) (n : net) (c : icall) : option net :=
  match c with
  | CallSend h d l =>
      ASSERT (bool_decide (h = w_operation w));;
      '(g, s) ← pss_input_handler_send (group n) (pss n) d l;
      Some (mk_net g s (memory n) (above n) (sent n) (below n) (taken n))
  | CallDone h =>
      ASSERT (bool_decide (h = w_done w) && above n);;
      Some (mk_net (group n) (pss n) (memory n) false (sent n) (below n) (taken n))
  | _ => None
  end.

(** A call of the output interface: to the stream, which must be free, or to the
    component. *)
Definition output_call (ho hd : nat) (n : net) (c : icall) : option net :=
  match c with
  | CallSend h d l =>
      ASSERT (bool_decide (h = ho) && negb (is_set (below n)));;
      Some (mk_net (group n) (pss n) (memory n) (above n) (sent n) (Some (d, l)) (taken n))
  | CallDoneLen h k =>
      ASSERT (bool_decide (h = hd));;
      '(g, s) ← pss_output_handler_done (group n) (pss n) k;
      Some (mk_net g s (memory n) (above n) (sent n) (below n) (taken n))
  | _ => None
  end.

Definition net_next (w : wiring) (ho hd : nat) (n : net) : option net :=
  '(g, h) ← next_job (group n);
  let n := mk_net g (pss n) (memory n) (above n) (sent n) (below n) (taken n) in
  match h with
  | None => Some n
  | Some h =>
      '(i, c) ← ppi_job (pss_input (pss n)) h;
      let n := mk_net g ((pss n) <| pss_input := i |>) (memory n) (above n) (sent n) (below n) (taken n) in
      match c with
      | Some c => input_call w n c
      | None =>
          '(o, c) ← spi_job (pss_output (pss n)) h;
          let n := mk_net g ((pss n) <| pss_output := o |>) (memory n) (above n) (sent n) (below n) (taken n) in
          match c with Some c => output_call ho hd n c | None => Some n end
      end
  end.

Definition net_step (w : wiring) (ho hd : nat) (others : gset addr) (n : net) (e : nevent) : option net :=
  match e with
  | NSend d data => net_send w n d data
  | NTake k => net_take n k
  | NNext => net_next w ho hd n
  | NOther o b =>
      if decide (o ∈ others) then
        g ← (if (b : bool) then job_set (group n) o else job_unset (group n) o);
        Some (mk_net g (pss n) (memory n) (above n) (sent n) (below n) (taken n))
      else Some n
  end.

Definition net_run w ho hd others (n : net) (es : list nevent) : option net :=
  foldl (λ n e, n ≫= λ n, net_step w ho hd others n e) (Some n) es.

End sender.
Arguments net : clear implicits.

Section proofs.
Context {G : Type} `{JobQueue G}.
Context (w : wiring) (ho hd : nat) (L : gmap addr nat) (J K : list addr).
Implicit Types (n : net G) (s : PacketStreamSender) (P : gset addr).

(** The queue and the two interfaces. [J] and [K] are their jobs. *)
Record wires (g : G) s (v : view) P : Prop := {
  q_queue : queue g L P;
  q_ppi : ppi_ok L P (pss_input s);
  q_wired : wired w (pss_input s);
  q_seen : seen v P (pss_input s);
  q_spi : spi_ok L P (pss_output s);
  q_ho : spi_handler_operation (pss_output s) = ho;
  q_hd : spi_handler_done (pss_output s) = Some hd;
  q_J : ppi_jobs (pss_input s) = J;
  q_K : spi_jobs (pss_output s) = K
}.

(** The component has no packet. *)
Definition empty s (below : option (Z * Z)) : Prop := pss_in_len s = -1 ∧ spi_state (pss_output s) = STATE_NONE ∧ below = None.

(** A packet [p] at address [d]. *)
Definition stored (m : bytes) (d : Z) (p : bytes) : Prop := 0 < d ∧ d + zlen p ≤ zlen m ∧ mem_read m d (zlen p) = p.

(** The bytes of the current packet the stream has taken. *)
Definition progress s : Z :=
  pss_in_used s + (if decide (spi_state (pss_output s) = STATE_DONE_PENDING) then spi_job_done_len (pss_output s) else 0).

(** The component sends the rest of the packet [p]. *)
Record sending s (m : bytes) (below : option (Z * Z)) (p : bytes) : Prop := {
  g_len : pss_in_len s = zlen p;
  g_stored : stored m (pss_in s) p;
  g_used : 0 ≤ pss_in_used s < pss_in_len s;
  g_state : spi_state (pss_output s) ≠ STATE_NONE;
  g_data : spi_job_operation_data (pss_output s) = pss_in s + pss_in_used s;
  g_rest : spi_job_operation_len (pss_output s) = pss_in_len s - pss_in_used s;
  g_below : below = if decide (spi_state (pss_output s) = STATE_BUSY)
            then Some (spi_job_operation_data (pss_output s), spi_job_operation_len (pss_output s)) else None
}.

(** Where the bytes are. *)
Definition whereabouts (v : view) s (m : bytes) (sent : list bytes) (below : option (Z * Z)) (taken : bytes) : Prop :=
  match v with
  | VIdle | VEnding => empty s below ∧ taken = concat sent
  | VSent d l => empty s below ∧ ∃ prev p, sent = prev ++ [p] ∧ l = zlen p ∧ stored m d p ∧ taken = concat prev
  | VWorking _ _ => ∃ prev p, sent = prev ++ [p] ∧ sending s m below p ∧ taken = concat prev ++ ztake (progress s) p
  end.

Definition ninv n : Prop := ∃ v P,
  wires (group n) (pss n) v P ∧ (above n = true ↔ v ≠ VIdle) ∧
  whereabouts v (pss n) (memory n) (sent n) (below n) (taken n).

Context (others : gset addr) (Hap : jobs_apart L J K others).

(** An interface changed; the other one and the other jobs did not. *)
Lemma wires_input g g' s i v v' P P0 : wires g s v P → (∀ o, o ∈ K → (o ∈ P0 ↔ o ∈ P)) → ppi_after w L P0 (pss_input s) v' g' i →
  ∃ P', wires g' (s <| pss_input := i |>) v' P'.
Proof using Hap.
  intros [Hq Hi Hw Hs Ho Hho Hhd HJ0 HK] H0 (P' & Hq' & Hi' & Hw' & Hs' & HJ & HP). destruct Hap as (HJK & _). exists P'.
  split; simpl; try done; [| congruence]. eapply spi_ok_frame; [| exact Ho]. intros o Hko. rewrite HK in Hko.
  rewrite <- (H0 o Hko). apply HP. intros Hj. rewrite HJ0 in Hj. by apply (HJK o Hj).
Qed.

Lemma wires_output g g' s o v st P P0 : wires g s v P → (∀ o, o ∈ J → (o ∈ P0 ↔ o ∈ P)) → spi_after L P0 (pss_output s) st g' o →
  ∃ P', wires g' (s <| pss_output := o |>) v P'.
Proof using Hap.
  intros [Hq Hi Hw Hs Ho Hho Hhd HJ HK0] H0 (P' & Hq' & Ho' & _ & HK & Hho' & Hhd' & HP). destruct Hap as (HJK & _). exists P'.
  assert (∀ x, x ∈ ppi_jobs (pss_input s) → (x ∈ P' ↔ x ∈ P)) as Hfr by (intros x Hx; rewrite HJ in Hx; rewrite <- (H0 x Hx); apply HP; rewrite HK0; by apply HJK).
  split; simpl; try done; [by eapply ppi_ok_frame | by eapply seen_frame | congruence | congruence | congruence].
Qed.

Lemma wires_ext g s s' v P : pss_input s' = pss_input s → pss_output s' = pss_output s → wires g s v P → wires g s' v P.
Proof. intros Ei Eo []. split; by rewrite ?Ei, ?Eo. Qed.

Lemma send_data_ok g s c t P m prev p : wires g s (VWorking c t) P → pss_in_len s = zlen p → stored m (pss_in s) p →
  0 ≤ pss_in_used s ≤ zlen p → spi_state (pss_output s) = STATE_NONE →
  ∃ g' s' v' P', send_data g s = Some (g', s') ∧ wires g' s' v' P' ∧ v' ≠ VIdle ∧
    whereabouts v' s' m (prev ++ [p]) None (concat prev ++ ztake (pss_in_used s) p).
Proof using Hap.
  intros Hw Hlen Hst Hused Hno. unfold send_data. rewrite Hlen, ASSERT_seq by (apply Z.leb_le; lia).
  destruct (pss_in_used s <? zlen p) eqn:E; b2p.
  - destruct (spi_send_ok g L P (pss_output s) (pss_in s + pss_in_used s) (zlen p - pss_in_used s)) as (g' & o & -> & Ha & Hd & Hl);
      [apply Hw | apply Hw | done | by rewrite (q_hd _ _ _ _ Hw) | lia | destruct Hst; lia |]. rewrite option_bind_Some.
    destruct (wires_output g g' s o _ _ P P Hw ltac:(done) Ha) as [P' Hw']. destruct Ha as (_ & _ & _ & Ho & _).
    eexists g', _, (VWorking c t), P'. split; [done |]. split; [done |]. split; [done |]. exists prev, p. split; [done |]. simpl.
    split; [split; simpl; rewrite ?Ho; (done || lia) |]. unfold progress. simpl. rewrite Ho, decide_False by done. do 2 f_equal. lia.
  - destruct (ppi_finish_ok w g L P (pss_input s)) as (g' & i & E' & Ha); [apply Hw | apply Hw | apply Hw | apply (q_seen _ _ _ _ Hw) |].
    cbn [set pss_eta pss_input pss_output pss_in_len pss_in pss_in_used]. rewrite E', option_bind_Some.
    destruct (wires_input g g' (s <| pss_in_len := -1 |>) i (VWorking c t) VEnding P P) as [P' Hw']; [by eapply wires_ext; [| | exact Hw] | done | done |].
    eexists g', _, VEnding, P'. split; [reflexivity |]. split; [exact Hw' |]. split; [done |]. split; [done |].
    rewrite ztake_ge by lia. rewrite concat_app. simpl. by rewrite app_nil_r.
Qed.

Lemma take_on m a p u k : stored m a p → 0 ≤ u → 0 ≤ k → u + k ≤ zlen p → ztake u p ++ mem_read m (a + u) k = ztake (u + k) p.
Proof.
  intros (Ha & Hin & Hp) Hu Hk Huk. assert (mem_read m (a + u) k = ztake k (zdrop u p)) as ->.
  { rewrite <- Hp. unfold mem_read. rewrite zdrop_ztake by lia. rewrite zdrop_zdrop by lia. rewrite ztake_ztake. do 2 f_equal; lia. }
  rewrite <- (ztake_zdrop u p) at 3. rewrite ztake_app_ge by (rewrite zlen_ztake; lia). do 2 f_equal. rewrite zlen_ztake. lia.
Qed.

Lemma net_send_ok n d data : ninv n → ∃ n', net_send w n d data = Some n' ∧ ninv n'.
Proof using Hap.
  intros (v & P & Hw & Hab & Hwh). unfold net_send.
  destruct (negb (above n) && (0 <? d) && (d + zlen data <=? zlen (memory n)) && (zlen data <=? w_mtu w)) eqn:E;
    [| exists n; split; [done |]; by exists v, P]. b2p.
  assert (v = VIdle) as -> by (destruct v; try done; rewrite (proj2 Hab) in * by done; done). destruct Hwh as [Hem Htk].
  destruct (ppi_send_ok w (group n) L P (pss_input (pss n)) d (zlen data)) as (g' & i & -> & Ha);
    [apply Hw | apply Hw | apply Hw | apply (q_seen _ _ _ _ Hw) | pose proof (zlen_nonneg data); lia | lia |].
  rewrite option_bind_Some. destruct (wires_input _ _ _ _ _ _ _ P Hw ltac:(done) Ha) as [P' Hw']. eexists. split; [reflexivity |].
  exists (VSent d (zlen data)), P'. split; [exact Hw' |]. split; [done |]. split; [exact Hem |]. exists (sent n), data.
  split; [done |]. split; [done |]. split; [| exact Htk]. split; [done |]. simpl. rewrite zlen_mem_write by lia. split; [lia |].
  apply mem_read_write_same; lia.
Qed.

Lemma net_take_ok n k : ninv n → ∃ n', net_take n k = Some n' ∧ ninv n'.
Proof using Hap.
  intros (v & P & Hw & Hab & Hwh). unfold net_take. destruct (below n) as [[d l] |] eqn:Eb; [| exists n; split; [done |]; exists v, P; by rewrite Eb].
  destruct ((0 <? k) && (k <=? l)) eqn:E; [| exists n; split; [done |]; exists v, P; by rewrite Eb]. b2p.
  destruct v as [| ? ? | c t |]; [destruct Hwh as [(_ & _ & ?) _]; congruence | destruct Hwh as [(_ & _ & ?) _]; congruence | | destruct Hwh as [(_ & _ & ?) _]; congruence].
  destruct Hwh as (prev & p & Hsent & Hse & Htk). pose proof (g_below _ _ _ _ Hse) as Hbe. case_decide as Hbu; [| done]. injection Hbe as -> ->.
  destruct (spi_finish_ok (group n) L P (pss_output (pss n)) k) as (g' & o & -> & Ha & Hd & Hl & Hk); [apply Hw | apply Hw | done | lia |].
  rewrite option_bind_Some. destruct (wires_output _ _ _ _ _ _ _ P Hw ltac:(done) Ha) as [P' Hw']. destruct Ha as (_ & _ & _ & Ho & _).
  destruct Hse as [G1 G2 G3 G4 G5 G6 _]. eexists. split; [reflexivity |]. exists (VWorking c t), P'. split; [exact Hw' |]. split; [exact Hab |].
  exists prev, p. split; [exact Hsent |]. split; [split; simpl; rewrite ?Ho, ?Hd, ?Hl; done |].
  cbn [taken memory]. rewrite Htk. unfold progress. simpl. rewrite Ho, Hbu, Hk, G5. simpl.
  rewrite Z.add_0_r, <- app_assoc, (take_on _ _ p) by (done || lia). done.
Qed.

(** The component is given a packet. *)
Lemma input_send_ok g s c t P m d l prev p : wires g s (VWorking c t) P → empty s None → l = zlen p → stored m d p →
  ∃ g' s' v' P', pss_input_handler_send g s d l = Some (g', s') ∧ wires g' s' v' P' ∧ v' ≠ VIdle ∧
    whereabouts v' s' m (prev ++ [p]) None (concat prev).
Proof using Hap.
  intros Hw (Hlen & Hno & _) -> Hst. unfold pss_input_handler_send. pose proof (zlen_nonneg p). rewrite Hlen, !ASSERT_seq by (done || by apply Z.leb_le).
  destruct (send_data_ok g (s <| pss_in_len := zlen p |> <| pss_in := d |> <| pss_in_used := 0 |>) c t P m prev p) as (g' & s' & v' & P' & E & Hres);
    [by eapply wires_ext; [| | exact Hw] | done | done | simpl; lia | done |].
  exists g', s', v', P'. split; [exact E |]. simpl in Hres. rewrite ztake_le0, app_nil_r in Hres by lia. done.
Qed.

(** The stream reports what it has taken. *)
Lemma output_done_ok g s c t P m p prev k : wires g s (VWorking c t) P → pss_in_len s = zlen p → stored m (pss_in s) p →
  spi_state (pss_output s) = STATE_NONE → 0 ≤ pss_in_used s → 0 < k → pss_in_used s + k ≤ zlen p →
  ∃ g' s' v' P', pss_output_handler_done g s k = Some (g', s') ∧ wires g' s' v' P' ∧ v' ≠ VIdle ∧
    whereabouts v' s' m (prev ++ [p]) None (concat prev ++ ztake (pss_in_used s + k) p).
Proof using Hap.
  intros Hw Hlen Hst Hno Hu Hk Huk. unfold pss_output_handler_done. rewrite Hlen, !ASSERT_seq by (apply Z.leb_le || apply Z.ltb_lt; lia).
  destruct (send_data_ok g (s <| pss_in_used := pss_in_used s + k |>) c t P m prev p) as (g' & s' & v' & P' & E & Hres);
    [by eapply wires_ext; [| | exact Hw] | done | done | simpl; lia | done |].
  exists g', s', v', P'. split; [exact E | exact Hres].
Qed.

(** Another job runs or is set. *)
Lemma wires_frame g g' s v P P' : queue g' L P' → (∀ o, o ∈ J ∨ o ∈ K → (o ∈ P' ↔ o ∈ P)) → wires g s v P → wires g' s v P'.
Proof.
  intros Hq HP []. assert (∀ o, o ∈ ppi_jobs (pss_input s) → (o ∈ P' ↔ o ∈ P)) by (intros o Ho; apply HP; left; congruence).
  assert (∀ o, o ∈ spi_jobs (pss_output s) → (o ∈ P' ↔ o ∈ P)) by (intros o Ho; apply HP; right; congruence).
  split; try done; [by eapply ppi_ok_frame | by eapply seen_frame | by eapply spi_ok_frame].
Qed.

Lemma pss_input_same s : s <| pss_input := pss_input s |> = s.
Proof. by destruct s. Qed.
Lemma pss_output_same s : s <| pss_output := pss_output s |> = s.
Proof. by destruct s. Qed.

(** A job of the input. *)
Lemma input_call_ok n i c v v' g' P' : w_cancel w = None → (above n = true ↔ v ≠ VIdle) →
  whereabouts v (pss n) (memory n) (sent n) (below n) (taken n) → expected w v c = Some v' →
  wires g' ((pss n) <| pss_input := i |>) v' P' →
  ∃ n', input_call w (mk_net g' ((pss n) <| pss_input := i |>) (memory n) (above n) (sent n) (below n) (taken n)) c = Some n' ∧ ninv n'.
Proof using Hap.
  intros Hnc Hab Hwh Eex Hw'. destruct v as [| d l | [] [] |], c as [h d' l' | | h | h |]; simpl in Eex; try done; case_decide as Hd; simplify_eq.
  - destruct Hd as (-> & -> & ->), Hwh as (Hem & prev & p & Hsent & Hl & Hst & Htk). destruct (Hem) as (_ & _ & Hbe).
    destruct (input_send_ok _ _ _ _ _ (memory n) d l prev p Hw') as (g2 & s2 & v2 & P2 & E & Hw2 & Hn2 & Hwh2); [by rewrite Hbe in Hem | done | done |].
    unfold input_call. rewrite ASSERT_seq by (by apply bool_decide_eq_true). cbn [group pss]. rewrite E, option_bind_Some. eexists. split; [reflexivity |].
    exists v2, P2. cbn [group pss memory sent below taken above]. rewrite Hbe, Htk, Hsent. split; [exact Hw2 |]. split; [| exact Hwh2].
    split; [done |]. intros _. by apply Hab.
  - unfold input_call. rewrite ASSERT_seq by (rewrite (proj2 Hab) by done; by rewrite bool_decide_eq_true_2). eexists. split; [reflexivity |].
    exists VIdle, P'. split; [exact Hw' |]. split; [done | exact Hwh].
Qed.

(** A job of the output. *)
Lemma output_job_ok n o v g' P : wires (group n) (pss n) v P → (above n = true ↔ v ≠ VIdle) →
  whereabouts v (pss n) (memory n) (sent n) (below n) (taken n) → queue g' L (P ∖ {[o]}) → o ∈ P → o ∈ spi_jobs (pss_output (pss n)) →
  ∃ n', ('(x, c) ← spi_job (pss_output (pss n)) o;
         match c with
         | Some c => output_call ho hd (mk_net g' ((pss n) <| pss_output := x |>) (memory n) (above n) (sent n) (below n) (taken n)) c
         | None => Some (mk_net g' ((pss n) <| pss_output := x |>) (memory n) (above n) (sent n) (below n) (taken n))
         end) = Some n' ∧ ninv n'.
Proof using Hap.
  intros Hw Hab Hwh Hq Ho Hoj. pose proof Hap as (HJK & _). assert (∀ x, x ∈ J → (x ∈ P ∖ {[o]} ↔ x ∈ P)) as HJo.
  { intros x Hx. specialize (HJK x Hx). rewrite (q_K _ _ _ _ Hw) in Hoj. set_solver. }
  assert (spi_state (pss_output (pss n)) ≠ STATE_NONE) as Hne.
  { intros Hst. destruct (q_spi _ _ _ _ Hw) as [_ _ H1 H2 _ _]. rewrite Hst in *. unfold spi_jobs in Hoj. set_solver. }
  destruct v as [| ? ? | c t |]; [destruct Hwh as [(_ & ? & _) _]; congruence | destruct Hwh as [(_ & ? & _) _]; congruence | | destruct Hwh as [(_ & ? & _) _]; congruence].
  destruct Hwh as (prev & p & Hsent & Hse & Htk). destruct Hse as [G1 G2 G3 G4 G5 G6 G7].
  destruct (spi_job_ok g' L P (pss_output (pss n)) o Hq) as [(x & -> & Hst & Ha & Hd & Hl) | (x & h & -> & Hh & Hst & Ha)];
    [apply Hw | by rewrite (q_hd _ _ _ _ Hw) | done | done | |]; rewrite option_bind_Some; rewrite Hst, decide_False in G7 by done;
    destruct (wires_output _ _ _ _ _ _ _ (P ∖ {[o]}) Hw HJo Ha) as [P' Hw']; destruct Ha as (_ & _ & _ & Hst' & _).
  - unfold output_call. rewrite ASSERT_seq by (cbn [below]; rewrite G7, (q_ho _ _ _ _ Hw), bool_decide_eq_true_2; done).
    eexists. split; [reflexivity |]. exists (VWorking c t), P'. split; [exact Hw' |]. split; [exact Hab |]. exists prev, p. split; [exact Hsent |].
    split; [split; simpl; rewrite ?Hst', ?Hd, ?Hl; done |]. cbn [taken]. rewrite Htk. unfold progress. simpl. rewrite Hst, Hst'. done.
  - unfold output_call. assert (hd = h) as <- by (rewrite (q_hd _ _ _ _ Hw) in Hh; congruence). rewrite ASSERT_seq by (by apply bool_decide_eq_true). cbn [group pss].
    pose proof (s_part _ _ _ (q_spi _ _ _ _ Hw) Hst) as Hpart.
    destruct (output_done_ok g' ((pss n) <| pss_output := x |>) c t P' (memory n) p prev (spi_job_done_len (pss_output (pss n)))) as (g2 & s2 & v2 & P2 & E & Hw2 & Hn2 & Hwh2);
      [exact Hw' | done | done | done | simpl; lia | lia | simpl; lia |].
    rewrite E, option_bind_Some. eexists. split; [reflexivity |]. exists v2, P2. split; [exact Hw2 |]. split; [split; [done |]; intros _; by apply Hab |].
    cbn [group pss memory sent below taken above]. rewrite Hsent, G7, Htk. unfold progress. rewrite Hst. exact Hwh2.
Qed.

Lemma net_next_ok n : w_cancel w = None → ninv n → ∃ n', net_next w ho hd n = Some n' ∧ ninv n'.
Proof using Hap.
  intros Hnc (v & P & Hw & Hab & Hwh). pose proof Hap as (HJK & _ & _ & HnJ & HnK). unfold net_next.
  destruct (next_job_ok (group n) L P (q_queue _ _ _ _ Hw)) as [(-> & g' & -> & Hq') | (o & h & g' & Ho & Hh & -> & Hq')]; rewrite option_bind_Some.
  { eexists. split; [reflexivity |]. exists v, ∅. split; [by eapply wires_frame; [| | exact Hw] | done]. }
  pose proof (q_J _ _ _ _ Hw) as HJ. pose proof (q_K _ _ _ _ Hw) as HK. cbn [pss]. destruct (decide (o ∈ J)) as [Hoj | Hoj].
  - rewrite (o_live _ _ _ (q_ppi _ _ _ _ Hw) o) in Hh by congruence. injection Hh as <-.
    destruct (ppi_job_ok w g' L P (pss_input (pss n)) v o Hq') as (i & c & v' & -> & Eex & Ha); [apply Hw | apply Hw | apply Hw | done | congruence |].
    rewrite option_bind_Some. destruct (wires_input _ _ _ _ _ _ _ (P ∖ {[o]}) Hw ltac:(intros x Hx; specialize (HJK o Hoj); set_solver) Ha) as [P' Hw'].
    cbn [group pss memory above sent below taken]. apply input_call_ok with v v' P'; done.
  - rewrite ppi_job_other by (rewrite HJ; by eapply HnJ). rewrite option_bind_Some, pss_input_same.
    destruct (decide (o ∈ K)) as [Hok | Hok].
    + rewrite (s_live _ _ _ (q_spi _ _ _ _ Hw) o) in Hh by congruence. injection Hh as <-.
      cbn [group pss memory above sent below taken]. apply output_job_ok with v P; (done || congruence).
    + rewrite spi_job_other by (rewrite HK; by eapply HnK). rewrite option_bind_Some, pss_output_same.
      eexists. split; [reflexivity |]. exists v, (P ∖ {[o]}). split; [| done]. eapply wires_frame; [exact Hq' | | exact Hw]. set_solver.
Qed.

Lemma net_step_ok n e : w_cancel w = None → ninv n → ∃ n', net_step w ho hd others n e = Some n' ∧ ninv n'.
Proof using Hap.
  intros Hnc Hn. destruct e as [d data | k | | o b]; simpl; [by apply net_send_ok | by apply net_take_ok | by apply net_next_ok |].
  case_decide as Ho; [| by eauto]. destruct Hn as (v & P & Hw & Hrest). pose proof Hap as (_ & Hsub & Hoth & _). destruct (Hoth o Ho) as [HoJ HoK].
  assert (o ∈ dom L) as Hd by set_solver. pose proof (q_queue _ _ _ _ Hw) as Hq.
  destruct (job_toggle_ok (group n) L P o b Hq Hd) as (g' & P' & -> & Hq' & HP').
  rewrite option_bind_Some. eexists. split; [reflexivity |]. exists v, P'. split; [| exact Hrest]. eapply wires_frame; [exact Hq' | | exact Hw].
  intros x Hx. apply HP'. intros ->. by destruct Hx.
Qed.

Lemma net_run_ok es : ∀ n, w_cancel w = None → ninv n → ∃ n', net_run w ho hd others n es = Some n' ∧ ninv n'.
Proof using Hap.
  induction es as [| e es IH]; intros n Hnc Hn; [by exists n |]. destruct (net_step_ok n e Hnc Hn) as (n1 & E & Hn1).
  destruct (IH n1 Hnc Hn1) as (n2 & E2 & Hn2). exists n2. split; [| done]. unfold net_run in *. simpl. by rewrite E.
Qed.

End proofs.

(** ** The theorem *)

Section theorem.
Context {G : Type} `{JobQueue G}.
Implicit Types (L : gmap addr nat) (P : gset addr) (s : PacketStreamSender).

(** The stream creates its interface, then the component is created, and its input
    is given to the packet sender. *)
Definition net_setup (w : wiring) (ho hd : nat) (g : G) s (m : bytes) : option (net G) :=
  '(g, o) ← StreamPassInterface_Init g (pss_output s) ho;
  '(g, s) ← PacketStreamSender_Init g (s <| pss_output := o |>) (w_mtu w) (w_operation w) hd;
  i ← PacketPassInterface_Sender_Init (pss_input s) (w_done w);
  Some (mk_net g (s <| pss_input := i |>) m false [] None []).

Definition pss_jobs s : list addr := ppi_jobs (pss_input s) ++ spi_jobs (pss_output s).

(** All jobs once the component is set up. *)
Definition pss_live L s : gmap addr nat :=
  with_jobs (with_jobs L (rev (spi_jobs (pss_output s)))) (rev (ppi_jobs (pss_input s))).

Lemma spi_init_ok g L P i h : queue g L P → NoDup (spi_jobs i) → (∀ o, o ∈ spi_jobs i → L !! o = None) →
  ∃ g' i', StreamPassInterface_Init g i h = Some (g', i') ∧ queue g' (with_jobs L (rev (spi_jobs i))) P ∧
    spi_ok (with_jobs L (rev (spi_jobs i))) P i' ∧ spi_state i' = STATE_NONE ∧ spi_jobs i' = spi_jobs i ∧
    spi_handler_operation i' = h ∧ spi_handler_done i' = None.
Proof.
  intros Hq Hnd Hf. assert (spi_job_operation i ≠ spi_job_done i) as Hne by (unfold spi_jobs in Hnd; rewrite !NoDup_cons in Hnd; set_solver).
  assert (∀ o, o ∈ spi_jobs i → o ∉ P) as HnP.
  { intros o Ho HoP. destruct Hq as (q & _ & <- & _ & _ & Hs). apply Hs, elem_of_dom in HoP. rewrite (Hf o Ho) in HoP. by destruct HoP. }
  destruct (job_init_ok g L P (spi_job_operation i) Hq) as (g1 & E1 & Hq1); [apply Hf; unfold spi_jobs; set_solver |].
  destruct (job_init_ok g1 _ P (spi_job_done i) Hq1) as (g2 & E2 & Hq2); [rewrite lookup_insert_ne by done; apply Hf; unfold spi_jobs; set_solver |].
  unfold StreamPassInterface_Init. cbn [set spi_eta spi_job_operation spi_job_done]. rewrite E1, option_bind_Some, E2, option_bind_Some.
  eexists _, _. split; [reflexivity |]. split; [exact Hq2 |]. split; [| done]. pose proof (HnP (spi_job_operation i) ltac:(unfold spi_jobs; set_solver)).
  pose proof (HnP (spi_job_done i) ltac:(unfold spi_jobs; set_solver)). split; simpl; [| done | done | done | done | done].
  intros o Ho. unfold spi_jobs in Ho. rewrite !elem_of_cons in Ho. destruct Ho as [-> | [-> | []%elem_of_nil]].
  - rewrite lookup_insert_ne by done. by rewrite lookup_insert_eq.
  - by rewrite lookup_insert_eq.
Qed.

Lemma net_setup_ok w ho hd g L P s m : queue g L P → 0 ≤ w_mtu w → w_cancel w = None → NoDup (pss_jobs s) →
  (∀ o, o ∈ pss_jobs s → L !! o = None) →
  ∃ n, net_setup w ho hd g s m = Some n ∧ ninv w ho hd (pss_live L s) (ppi_jobs (pss_input s)) (spi_jobs (pss_output s)) n.
Proof.
  intros Hq Hm Hnc (HdJ & HJK & HdK)%NoDup_app Hf. unfold pss_jobs in *.
  destruct (spi_init_ok g L P (pss_output s) ho Hq HdK) as (g1 & o & E1 & Hq1 & Ho & Hst & HK & Hho & Hhd); [set_solver |].
  destruct (ppi_setup_ok w g1 _ P (pss_input s) Hq1 Hm HdJ) as (g2 & i & E2 & HJ & Hq2 & Hi & Hw & Hsi).
  { intros x Hx. rewrite with_jobs_other by (rewrite elem_of_rev; by apply HJK). apply Hf. set_solver. }
  unfold ppi_setup in E2. rewrite Hnc in E2. apply bind_Some in E2 as ([g2' i0] & Ei & E2). rewrite option_bind_Some in E2.
  apply bind_Some in E2 as (i' & Es & [= -> ->]).
  unfold net_setup, PacketStreamSender_Init. rewrite E1, option_bind_Some. rewrite ASSERT_seq by (by apply Z.leb_le).
  cbn [set pss_eta pss_input pss_output]. rewrite Ei, option_bind_Some. unfold StreamPassInterface_Sender_Init. rewrite Hhd. simpl. rewrite Es.
  eexists. split; [reflexivity |]. exists VIdle, P. split; [| done]. split; simpl; try done.
  destruct Ho as [Hlv Hdi Hop Hdo Hle Hpa]. split; simpl; try done. intros x Hx. change (x ∈ spi_jobs o) in Hx.
  unfold pss_live. rewrite with_jobs_other; [by apply Hlv |]. rewrite elem_of_rev. rewrite HK in Hx. by intros ?%HJK.
Qed.

(** What the invariant says to the outside. *)
Lemma ninv_relay w ho hd L J K (n : net G) : ninv w ho hd L J K n →
  (∃ x, concat (sent n) = taken n ++ x) ∧ (above n = false → taken n = concat (sent n)) ∧
  ∃ P, queue (group n) L P ∧ (above n = true → is_set (below n) = true ∨ ∃ o, o ∈ J ++ K ∧ o ∈ P).
Proof.
  intros (v & P & Hw & Hab & Hwh). pose proof (q_J _ _ _ _ _ _ _ _ _ _ Hw) as HJ. pose proof (q_K _ _ _ _ _ _ _ _ _ _ Hw) as HK.
  pose proof (q_seen _ _ _ _ _ _ _ _ _ _ Hw) as Hs. pose proof (q_ppi _ _ _ _ _ _ _ _ _ _ Hw) as Hi. pose proof (q_spi _ _ _ _ _ _ _ _ _ _ Hw) as Ho.
  assert (queue (group n) L P) as Hq by apply Hw. destruct v as [| d l | c t |]; simpl in Hwh, Hs.
  - destruct Hwh as [_ ->]. split; [exists []; by rewrite app_nil_r |]. split; [done |]. exists P. split; [done |]. intros Ht. by apply Hab in Ht.
  - destruct Hwh as (_ & prev & p & -> & _ & _ & ->). split; [rewrite concat_app; eauto |].
    assert (above n = true) as -> by (by apply Hab). split; [done |]. exists P. split; [done |]. intros _. right. exists (ppi_job_operation (pss_input (pss n))).
    split; [rewrite elem_of_app, <- HJ; left; unfold ppi_jobs; rewrite !elem_of_cons; tauto | apply (o_op _ _ _ Hi); apply Hs].
  - destruct Hwh as (prev & p & -> & Hse & ->). split.
    { exists (zdrop (progress (pss n)) p). rewrite concat_app, <- app_assoc, ztake_zdrop. simpl. by rewrite app_nil_r. }
    assert (above n = true) as -> by (by apply Hab). split; [done |]. exists P. split; [done |]. intros _.
    rewrite (g_below _ _ _ _ Hse). pose proof (g_state _ _ _ _ Hse) as Hne. destruct (spi_state (pss_output (pss n))) eqn:Est; [done | | by left |]; right.
    + exists (spi_job_operation (pss_output (pss n))). split; [rewrite elem_of_app, <- HK; right; unfold spi_jobs; rewrite !elem_of_cons; tauto | by apply (s_op _ _ _ Ho)].
    + exists (spi_job_done (pss_output (pss n))). split; [rewrite elem_of_app, <- HK; right; unfold spi_jobs; rewrite !elem_of_cons; tauto | by apply (s_done _ _ _ Ho)].
  - destruct Hwh as [_ ->]. split; [exists []; by rewrite app_nil_r |]. split; [done |]. exists P. split; [done |]. intros _. right.
    exists (ppi_job_done (pss_input (pss n))). split; [rewrite elem_of_app, <- HJ; left; unfold ppi_jobs; rewrite !elem_of_cons; tauto | by apply (o_done _ _ _ Hi)].
Qed.

End theorem.

(** [C40] Packets over a stream. The component runs between a packet sender and a
    stream, in any group of jobs: no assertion of the component, of the two
    interfaces or of the queue fails, whatever packets are sent (empty ones too),
    however the stream cuts them and in whatever order the jobs run. What the stream
    has taken is always a prefix of the packets sent, one after the other; when the
    sender has its done report, the stream has all of them; until then either the
    stream has bytes to take or a job of the component is set, so nothing stalls. *)
Theorem packetstream_composition {G} `{JobQueue G} w ho hd (g : G) L P s m others es :
  queue g L P → 0 ≤ w_mtu w → w_cancel w = None → NoDup (pss_jobs s) → (∀ o, o ∈ pss_jobs s → L !! o = None) →
  others ⊆ dom L → (∀ o h, L !! o = Some h → h ∉ pss_jobs s) →
  ∃ n0 n P', net_setup w ho hd g s m = Some n0 ∧ net_run w ho hd others n0 es = Some n ∧
    (∃ x, concat (sent n) = taken n ++ x) ∧ (above n = false → taken n = concat (sent n)) ∧
    queue (group n) (pss_live L s) P' ∧
    (above n = true → is_set (below n) = true ∨ ∃ o, o ∈ pss_jobs s ∧ o ∈ P').
Proof.
  intros Hq Hm Hnc Hnd Hf Hsub Hn. destruct (net_setup_ok w ho hd g L P s m Hq Hm Hnc Hnd Hf) as (n0 & E0 & Hi0).
  destruct (net_run_ok w ho hd _ _ _ others (jobs_apart_setup L _ _ others Hnd Hf Hsub Hn) es n0 Hnc Hi0) as (n & E & Hi).
  destruct (ninv_relay _ _ _ _ _ _ n Hi) as (H1 & H2 & P' & H3 & H4). exists n0, n, P'. done.
Qed.

(** Three packets, the second one empty, through a stream that takes at most two
    bytes at a time. *)
Definition wit_net_wiring : wiring := mk_wiring 4 10 None 12.
Definition wit_pss : PacketStreamSender :=
  mk_pss (mk_ppi 0 0 None None 1 0 0 2 3 STATE_NONE false) (mk_spi 0 None 4 0 0 5 0 STATE_NONE) 7 7 7.
Definition wit_net_events : list nevent :=
  [NSend 2 [1; 2; 3]; NNext; NNext; NTake 2; NNext; NNext; NTake 1; NNext; NNext; NSend 1 []; NNext; NNext; NSend 5 [4; 5]; NNext; NNext; NTake 1].

Lemma packetstream_composition_witness : ∃ n0 n,
  net_setup wit_net_wiring 20 21 BPendingGroup_Init wit_pss (replicate 8 0) = Some n0 ∧
  net_run wit_net_wiring 20 21 ∅ n0 wit_net_events = Some n ∧
  concat (sent n) = [1; 2; 3; 4; 5] ∧ ∃ x, [1; 2; 3; 4; 5] = taken n ++ x.
Proof.
  destruct (packetstream_composition wit_net_wiring 20 21 BPendingGroup_Init ∅ ∅ wit_pss (replicate 8 0) ∅ wit_net_events wit_queue)
    as (n0 & n & P' & E0 & E & Hx & _).
  - vm_compute. discriminate.
  - reflexivity.
  - vm_compute. apply (bool_decide_unpack (NoDup [1; 2; 3; 4; 5]%nat)). exact I.
  - intros o _. reflexivity.
  - set_solver.
  - intros o h Ho. discriminate Ho.
  - assert ((net_setup wit_net_wiring 20 21 BPendingGroup_Init wit_pss (replicate 8 0) ≫= λ n0,
             net_run wit_net_wiring 20 21 ∅ n0 wit_net_events ≫= λ n, Some (concat (sent n))) = Some [1; 2; 3; 4; 5]) as Ec by (vm_compute; reflexivity).
    rewrite E0, option_bind_Some, E, option_bind_Some in Ec. injection Ec as Ec. exists n0, n. split; [exact E0 |]. split; [exact E |].
    split; [exact Ec |]. rewrite Ec in Hx. exact Hx.
Defined.
