(* ===== verification/InactivityMonitor.v ===== *)
(** * The inactivity monitor (flowextra/PacketPassInactivityMonitor.c)

    The component passes packets on from one [PacketPassInterface] to another, with
    cancel requests, and runs a timer while no packet is on its way, so that its
    owner hears about inactivity (the UDP gateway client sends keepalives then). The
    timer of the reactor is the flag [pim_timer], set while it runs. *)
From S2P Require Import Prelude LinkedLists BPending FlowInterfaces.

(** [pim_output] is the interface the field points to. *)
Record PacketPassInactivityMonitor := mk_pim {
  pim_output : PacketPassInterface;
  pim_handler : option nat;
  pim_input : PacketPassInterface;
  pim_timer : bool
}.
#[export] Instance pim_eta : Eta PacketPassInactivityMonitor := λ o, mk_pim (pim_output o) (pim_handler o) (pim_input o) (pim_timer o).

Section monitor.
Context {G : Type} `{JobQueue G}.
Implicit Types o : PacketPassInactivityMonitor.

Definition pim_input_handler_send (g : G) o (data data_len : Z) : option (G * PacketPassInactivityMonitor) :=
  '(g, out) ← PacketPassInterface_Sender_Send g (pim_output o) data data_len;
  Some (g, o <| pim_output := out |> <| pim_timer := false |>).

Definition pim_input_handler_requestcancel (g : G) o : option (G * PacketPassInactivityMonitor) :=
  '(g, out) ← PacketPassInterface_Sender_RequestCancel g (pim_output o);
  Some (g, o <| pim_output := out |>).

Definition pim_output_handler_done (g : G) o : option (G * PacketPassInactivityMonitor) :=
  let o := o <| pim_timer := true |> in
  '(g, i) ← PacketPassInterface_Done g (pim_input o);
  Some (g, o <| pim_input := i |>).

(** The timer is not running when it expires. The result is the handler called. *)
Definition pim_timer_handler o : PacketPassInactivityMonitor * option nat := (o <| pim_timer := true |>, pim_handler o).

(** [o] is the memory of the object, with the output; [h_send], [h_cancel] and
    [h_done] name its handlers. *)
Definition PacketPassInactivityMonitor_Init (g : G) o (handler : option nat) (h_send h_cancel h_done : nat) : option (G * PacketPassInactivityMonitor) :=
  let o := o <| pim_handler := handler |> in
  '(g, i) ← PacketPassInterface_Init g (pim_input o) (PacketPassInterface_GetMTU (pim_output o)) h_send;
  i ← (if PacketPassInterface_HasCancel (pim_output o) then PacketPassInterface_EnableCancel i h_cancel else Some i);
  out ← PacketPassInterface_Sender_Init (pim_output o) h_done;
  Some (g, o <| pim_input := i |> <| pim_output := out |> <| pim_timer := true |>).

Definition PacketPassInactivityMonitor_Free (g : G) o : option (G * PacketPassInactivityMonitor) :=
  let o := o <| pim_timer := false |> in
  g ← PacketPassInterface_Free g (pim_input o);
  Some (g, o).

Definition PacketPassInactivityMonitor_SetHandler o (handler : option nat) : PacketPassInactivityMonitor := o <| pim_handler := handler |>.

(** The timer is set to expire at once. *)
Definition PacketPassInactivityMonitor_Force o : PacketPassInactivityMonitor := o <| pim_timer := true |>.

(** ** The monitor between its neighbours *)

(** The sender above has the packet [above] on the way and has asked to cancel it
    when [wants] is set; the provider below works on it when [below] is set and was
    told to cancel when [told] is set. *)
Record mnet := mk_mnet {
  mgroup : G;
  pim : PacketPassInactivityMonitor;
  above : option (Z * Z);
  wants : bool;
  below : bool;
  told : bool;
  reports : list nat
}.

Inductive mevent :=
| MSend (d l : Z) | MCancel | MFinish | MTimer | MForce | MSetHandler (h : option nat) | MNext | MOther (o : addr) (b : bool).

Definition with_pim (n : mnet) (g : G) o : mnet := mk_mnet g o (above n) (wants n) (below n) (told n) (reports n).

(** A call of the input: to the monitor, or to the sender, which must wait for it. *)
Definition min_call (w : wiring) (n : mnet) (c : icall) : option mnet :=
  match c with
  | CallSend h d l =>
      ASSERT (bool_decide (h = w_operation w));; '(g, o) ← pim_input_handler_send (mgroup n) (pim n) d l; Some (with_pim n g o)
  | CallCancel h =>
      ASSERT (bool_decide (w_cancel w = Some h));; '(g, o) ← pim_input_handler_requestcancel (mgroup n) (pim n); Some (with_pim n g o)
  | CallDone h =>
      ASSERT (bool_decide (h = w_done w) && is_set (above n));; Some (mk_mnet (mgroup n) (pim n) None (wants n) (below n) (told n) (reports n))
  | _ => None
  end.

(** A call of the output: to the provider, which must be free and gets the packet of
    the sender, or must work on a packet that the sender wants to cancel and not have
    heard of it; or to the monitor. *)
Definition mout_call (w : wiring) (n : mnet) (c : icall) : option mnet :=
  match c with
  | CallSend h d l =>
      ASSERT (bool_decide (h = w_operation w) && negb (below n) && bool_decide (above n = Some (d, l)));;
      Some (mk_mnet (mgroup n) (pim n) (above n) (wants n) true (told n) (reports n))
  | CallCancel h =>
      ASSERT (bool_decide (w_cancel w = Some h) && below n && wants n && negb (told n));;
      Some (mk_mnet (mgroup n) (pim n) (above n) (wants n) (below n) true (reports n))
  | CallDone h =>
      ASSERT (bool_decide (h = w_done w));; '(g, o) ← pim_output_handler_done (mgroup n) (pim n); Some (with_pim n g o)
  | _ => None
  end.

Definition mnext (wi wo : wiring) (n : mnet) : option mnet :=
  '(g, h) ← next_job (mgroup n);
  match h with
  | None => Some (with_pim n g (pim n))
  | Some h =>
      '(i, c) ← ppi_job (pim_input (pim n)) h;
      let o := (pim n) <| pim_input := i |> in
      match c with
      | Some c => min_call wi (with_pim n g o) c
      | None =>
          '(out, c) ← ppi_job (pim_output o) h;
          let n := with_pim n g (o <| pim_output := out |>) in
          match c with Some c => mout_call wo n c | None => Some n end
      end
  end.

(** The reactor looks at its timers when there are no jobs. A report must come while
    nothing is on the way. *)
Definition mtimer (n : mnet) : option mnet :=
  '(g, busy) ← has_jobs (mgroup n);
  if negb busy && pim_timer (pim n) then
    let '(o, h) := pim_timer_handler (pim n) in
    ASSERT (negb (is_set (above n)) && negb (below n));;
    Some (mk_mnet g o (above n) (wants n) (below n) (told n) (reports n ++ option_list h))
  else Some (with_pim n g (pim n)).

Definition mstep (wi wo : wiring) (others : gset addr) (n : mnet) (e : mevent) : option mnet :=
  match e with
  | MSend d l =>
      if negb (is_set (above n)) && (0 <=? l) && (l <=? w_mtu wi) && (negb (0 <? l) || negb (d =? 0)) then
        '(g, i) ← PacketPassInterface_Sender_Send (mgroup n) (pim_input (pim n)) d l;
        Some (mk_mnet g ((pim n) <| pim_input := i |>) (Some (d, l)) false (below n) false (reports n))
      else Some n
  | MCancel =>
      if is_set (above n) && is_set (w_cancel wi) then
        '(g, i) ← PacketPassInterface_Sender_RequestCancel (mgroup n) (pim_input (pim n));
        Some (mk_mnet g ((pim n) <| pim_input := i |>) (above n) true (below n) (told n) (reports n))
      else Some n
  | MFinish =>
      if below n then
        '(g, out) ← PacketPassInterface_Done (mgroup n) (pim_output (pim n));
        Some (mk_mnet g ((pim n) <| pim_output := out |>) (above n) (wants n) false (told n) (reports n))
      else Some n
  | MTimer => mtimer n
  | MForce => Some (if is_set (above n) then n else with_pim n (mgroup n) (PacketPassInactivityMonitor_Force (pim n)))
  | MSetHandler h => Some (with_pim n (mgroup n) (PacketPassInactivityMonitor_SetHandler (pim n) h))
  | MNext => mnext wi wo n
  | MOther o b =>
      if decide (o ∈ others) then
        g ← (if (b : bool) then job_set (mgroup n) o else job_unset (mgroup n) o); Some (with_pim n g (pim n))
      else Some n
  end.

Definition mrun wi wo others (n : mnet) (es : list mevent) : option mnet :=
  foldl (λ n e, n ≫= λ n, mstep wi wo others n e) (Some n) es.

End monitor.
Arguments mnet : clear implicits.

Section proofs.
Context {G : Type} `{JobQueue G}.
Context (wi wo : wiring) (L : gmap addr nat) (J K : list addr).
Implicit Types (n : mnet G) (o : PacketPassInactivityMonitor) (P : gset addr).

(** The queue and the two interfaces. [J] and [K] are their jobs. *)
Record mwires (g : G) o (vi vo : view) P : Prop := {
  m_queue : queue g L P;
  m_in : ppi_ok L P (pim_input o);
  m_iwired : wired wi (pim_input o);
  m_iseen : seen vi P (pim_input o);
  m_out : ppi_ok L P (pim_output o);
  m_owired : wired wo (pim_output o);
  m_oseen : seen vo P (pim_output o);
  m_J : ppi_jobs (pim_input o) = J;
  m_K : ppi_jobs (pim_output o) = K
}.

Definition working (v : view) : bool := match v with VWorking _ _ => true | _ => false end.

(** How the two interfaces and the timer go together. *)
Definition together (vi vo : view) (timer : bool) (ab : option (Z * Z)) (wt bl td : bool) : Prop :=
  bl = working vo ∧ (timer = true ↔ vo = VIdle) ∧
  match vi with
  | VIdle => ab = None ∧ vo = VIdle
  | VSent d l => ab = Some (d, l) ∧ vo = VIdle ∧ td = false ∧ 0 ≤ l ≤ w_mtu wi ∧ (0 < l → d ≠ 0)
  | VEnding => is_set ab = true ∧ vo = VIdle
  | VWorking c t => is_set ab = true ∧ (c = true → wt = true) ∧
      match vo with
      | VIdle => False
      | VSent d l => ab = Some (d, l) ∧ t = false ∧ td = false
      | VWorking c' t' => c' = t ∧ td = t'
      | VEnding => True
      end
  end.

Definition minv n : Prop := ∃ vi vo P, mwires (mgroup n) (pim n) vi vo P ∧
  together vi vo (pim_timer (pim n)) (above n) (wants n) (below n) (told n).

(** A cancel request can be passed on. *)
Context (others : gset addr) (Hap : jobs_apart L J K others) (Hmtu : w_mtu wi = w_mtu wo) (Hcan : is_set (w_cancel wi) = is_set (w_cancel wo)).

(** An interface changed; the other one and the other jobs did not. *)
Lemma mwires_in g g' o i vi vi' vo P P0 : mwires g o vi vo P → (∀ x, x ∈ K → (x ∈ P0 ↔ x ∈ P)) → ppi_after wi L P0 (pim_input o) vi' g' i →
  ∃ P', mwires g' (o <| pim_input := i |>) vi' vo P'.
Proof using Hap.
  intros [Hq Hi Hw Hs Ho How Hos HJ0 HK0] H0 (P' & Hq' & Hi' & Hw' & Hs' & HJ & HP). destruct Hap as (HJK & _). exists P'.
  assert (∀ x, x ∈ ppi_jobs (pim_output o) → (x ∈ P' ↔ x ∈ P)) as Hfr.
  { intros x Hx. rewrite HK0 in Hx. rewrite <- (H0 x Hx). apply HP. rewrite HJ0. intros Hj. by apply (HJK x Hj). }
  split; simpl; try done; [by eapply ppi_ok_frame | by eapply seen_frame | congruence].
Qed.

Lemma mwires_out g g' o out vi vo vo' P P0 : mwires g o vi vo P → (∀ x, x ∈ J → (x ∈ P0 ↔ x ∈ P)) → ppi_after wo L P0 (pim_output o) vo' g' out →
  ∃ P', mwires g' (o <| pim_output := out |>) vi vo' P'.
Proof using Hap.
  intros [Hq Hi Hw Hs Ho How Hos HJ0 HK0] H0 (P' & Hq' & Hi' & Hw' & Hs' & HK & HP). destruct Hap as (HJK & _). exists P'.
  assert (∀ x, x ∈ ppi_jobs (pim_input o) → (x ∈ P' ↔ x ∈ P)) as Hfr.
  { intros x Hx. rewrite HJ0 in Hx. rewrite <- (H0 x Hx). apply HP. rewrite HK0. by apply HJK. }
  split; simpl; try done; [by eapply ppi_ok_frame | by eapply seen_frame | congruence].
Qed.

Lemma mwires_ext g o o' vi vo P : pim_input o' = pim_input o → pim_output o' = pim_output o → mwires g o vi vo P → mwires g o' vi vo P.
Proof. intros Ei Eo []. split; by rewrite ?Ei, ?Eo. Qed.

Lemma mwires_frame g g' o vi vo P P' : queue g' L P' → (∀ x, x ∈ J ∨ x ∈ K → (x ∈ P' ↔ x ∈ P)) → mwires g o vi vo P → mwires g' o vi vo P'.
Proof.
  intros Hq HP []. assert (∀ x, x ∈ ppi_jobs (pim_input o) → (x ∈ P' ↔ x ∈ P)) by (intros x Hx; apply HP; left; congruence).
  assert (∀ x, x ∈ ppi_jobs (pim_output o) → (x ∈ P' ↔ x ∈ P)) by (intros x Hx; apply HP; right; congruence).
  split; try done; [by eapply ppi_ok_frame | by eapply seen_frame | by eapply ppi_ok_frame | by eapply seen_frame].
Qed.

(** The actions of the neighbours. *)
Lemma msend_ok n d l : minv n → ∃ n', mstep wi wo others n (MSend d l) = Some n' ∧ minv n'.
Proof using Hap.
  intros (vi & vo & P & Hw & Ht). cbn [mstep].
  destruct (negb (is_set (above n)) && (0 <=? l) && (l <=? w_mtu wi) && (negb (0 <? l) || negb (d =? 0))) eqn:E;
    [| exists n; split; [done |]; by exists vi, vo, P]. apply andb_true_iff in E as [E Hnull]. b2p.
  assert (vi = VIdle) as -> by (destruct Ht as (_ & _ & Ht); destruct vi, (above n); naive_solver). destruct Ht as (Hb & Htm & Hab & ->).
  assert (0 < l → d ≠ 0) as Hnn by (intros Hl%Z.ltb_lt ->; by rewrite Hl in Hnull).
  destruct (ppi_send_ok wi (mgroup n) L P (pim_input (pim n)) d l) as (g' & i & -> & Ha);
    [apply Hw | apply Hw | apply Hw | apply (m_iseen _ _ _ _ _ Hw) | lia | done |]. rewrite option_bind_Some.
  destruct (mwires_in _ _ _ _ _ _ _ _ P Hw ltac:(done) Ha) as [P' Hw']. eexists. split; [reflexivity |].
  exists (VSent d l), VIdle, P'. split; [exact Hw' |]. done.
Qed.

Lemma mcancel_ok n : minv n → ∃ n', mstep wi wo others n MCancel = Some n' ∧ minv n'.
Proof using Hap.
  intros (vi & vo & P & Hw & Ht). cbn [mstep]. destruct (is_set (above n) && is_set (w_cancel wi)) eqn:E; [| exists n; split; [done |]; by exists vi, vo, P].
  apply andb_true_iff in E as [Hab Hc]. destruct Ht as (Hb & Htm & Ht).
  assert (∃ vi', allowed wi vi UCancel = Some vi' ∧ together vi' vo (pim_timer (pim n)) (above n) true (below n) (told n)) as (vi' & Hal & Ht').
  { destruct vi as [| d l | c t |]; [by destruct Ht as [Hx _]; rewrite Hx in Hab | ..]; simpl; rewrite ?Hc; (eexists; split; [reflexivity |]); simpl in Ht.
    - destruct Ht as (? & -> & _). done.
    - destruct Ht as (? & ? & Ht). split; [done |]. by split.
    - split; [done |]. by split. }
  destruct (ppi_cancel_ok wi (mgroup n) L P (pim_input (pim n)) vi vi') as (g' & i & -> & Ha); [apply Hw | apply Hw | apply Hw | apply Hw | done |].
  rewrite option_bind_Some. destruct (mwires_in _ _ _ _ _ _ _ _ P Hw ltac:(done) Ha) as [P' Hw']. eexists. split; [reflexivity |].
  exists vi', vo, P'. split; [exact Hw' | exact Ht'].
Qed.

Lemma mfinish_ok n : minv n → ∃ n', mstep wi wo others n MFinish = Some n' ∧ minv n'.
Proof using Hap.
  intros (vi & vo & P & Hw & Ht). cbn [mstep]. destruct (below n) eqn:E; [| exists n; split; [done |]; exists vi, vo, P; by rewrite E].
  destruct Ht as (Hb & Htm & Ht). destruct vo as [| ? ? | c t |]; try done.
  destruct (ppi_finish_ok wo (mgroup n) L P (pim_output (pim n))) as (g' & out & -> & Ha); [apply Hw | apply Hw | apply Hw | apply (m_oseen _ _ _ _ _ Hw) |].
  rewrite option_bind_Some. destruct (mwires_out _ _ _ _ _ _ _ _ P Hw ltac:(done) Ha) as [P' Hw']. eexists. split; [reflexivity |].
  exists vi, VEnding, P'. split; [exact Hw' |]. split; [done |]. split; [split; [intros Hx; by apply Htm in Hx | done] |].
  destruct vi as [| ? ? | ? ? |]; simpl in *; naive_solver.
Qed.

(** The timer only expires while nothing is on the way. *)
Lemma mtimer_ok n : minv n → ∃ n', mtimer n = Some n' ∧ minv n'.
Proof.
  intros (vi & vo & P & Hw & Ht). unfold mtimer. destruct (has_jobs_ok (mgroup n) L P (m_queue _ _ _ _ _ Hw)) as (g' & b & -> & Hq & Hb).
  rewrite option_bind_Some. destruct (negb b && pim_timer (pim n)) eqn:E.
  - apply andb_true_iff in E as [->%negb_true_iff Htm]. assert (P = ∅) as -> by (by apply Hb). pose proof Ht as (Hbl & Htm' & Htv).
    assert (vo = VIdle) as -> by (by apply Htm'). assert (vi = VIdle) as ->.
    { pose proof (m_iseen _ _ _ _ _ Hw) as Hs. destruct (m_in _ _ _ _ _ Hw) as [_ _ Hop Hdo _].
      destruct vi as [| d l | c t |]; simpl in *; [done | | naive_solver |]; exfalso.
      - destruct Hs as [Hs _]. by apply Hop, not_elem_of_empty in Hs.
      - by apply Hdo, not_elem_of_empty in Hs. }
    destruct Htv as [Hab _]. unfold pim_timer_handler. rewrite ASSERT_seq by (by rewrite Hab, Hbl). eexists. split; [reflexivity |].
    exists VIdle, VIdle, ∅. split; [| done]. cbn [mgroup pim]. eapply mwires_ext; [| | eapply mwires_frame; [exact Hq | done | exact Hw]]; done.
  - eexists. split; [reflexivity |]. exists vi, vo, P. split; [| done]. by eapply mwires_frame; [exact Hq | | exact Hw].
Qed.

(** A job of the input. *)
Lemma min_job_ok n i c vi vi' vo g' P' : together vi vo (pim_timer (pim n)) (above n) (wants n) (below n) (told n) →
  expected wi vi c = Some vi' → mwires g' ((pim n) <| pim_input := i |>) vi' vo P' →
  ∃ n', min_call wi (with_pim n g' ((pim n) <| pim_input := i |>)) c = Some n' ∧ minv n'.
Proof using Hap Hmtu Hcan.
  intros Ht Eex Hw. destruct Ht as (Hb & Htm & Ht).
  destruct vi as [| d l | [] [] |], c as [h d' l' | | h | h |]; simpl in Eex; try done; case_decide as Hd; simplify_eq; unfold min_call.
  - destruct Hd as (-> & -> & ->), Ht as (Hab & -> & Htd & Hl & Hnn). rewrite ASSERT_seq by (by apply bool_decide_eq_true).
    cbn [with_pim mgroup pim]. unfold pim_input_handler_send. cbn [set pim_eta pim_output pim_input pim_handler pim_timer].
    destruct (ppi_send_ok wo g' L P' (pim_output (pim n)) d l) as (g2 & out & -> & Ha); [apply Hw | apply Hw | apply Hw | apply (m_oseen _ _ _ _ _ Hw) | lia | done |].
    rewrite !option_bind_Some. destruct (mwires_out _ _ _ _ _ _ _ _ P' Hw ltac:(done) Ha) as [P2 Hw2]. eexists. split; [reflexivity |].
    exists (VWorking false false), (VSent d l), P2. split; [by eapply mwires_ext; [| | exact Hw2] |]. cbn. rewrite Hb, Hab. done.
  - rewrite ASSERT_seq by (by apply bool_decide_eq_true). cbn [with_pim mgroup pim]. unfold pim_input_handler_requestcancel.
    cbn [set pim_eta pim_output pim_input pim_handler pim_timer]. pose proof Hcan as Hcan'. rewrite Hd in Hcan'. simpl in Hcan'. destruct Ht as (Hab & Hwt & Ht).
    assert (∃ vo', allowed wo vo UCancel = Some vo' ∧ together (VWorking true true) vo' (pim_timer (pim n)) (above n) (wants n) (below n) (told n)) as (vo' & Hal & Ht').
    { destruct vo as [| d l | c' t' |]; [done | ..]; simpl; rewrite <- Hcan'; (eexists; split; [reflexivity |]); split; try done; (split; [| naive_solver]);
        (split; [intros Hx; by apply Htm in Hx | done]). }
    destruct (ppi_cancel_ok wo g' L P' (pim_output (pim n)) vo vo') as (g2 & out & -> & Ha); [apply Hw | apply Hw | apply Hw | apply (m_oseen _ _ _ _ _ Hw) | done |].
    rewrite !option_bind_Some. destruct (mwires_out _ _ _ _ _ _ _ _ P' Hw ltac:(done) Ha) as [P2 Hw2]. eexists. split; [reflexivity |].
    exists (VWorking true true), vo', P2. split; [exact Hw2 | exact Ht'].
  - destruct Ht as [Hab ->]. rewrite ASSERT_seq by (cbn [with_pim above]; by rewrite Hab, bool_decide_eq_true_2). eexists. split; [reflexivity |].
    exists VIdle, VIdle, P'. split; [exact Hw |]. done.
Qed.

(** A job of the output. *)
Lemma mout_job_ok n out c vi vo vo' g' P' : together vi vo (pim_timer (pim n)) (above n) (wants n) (below n) (told n) →
  expected wo vo c = Some vo' → mwires g' ((pim n) <| pim_output := out |>) vi vo' P' →
  ∃ n', mout_call wo (with_pim n g' ((pim n) <| pim_output := out |>)) c = Some n' ∧ minv n'.
Proof using Hap.
  intros Ht Eex Hw. destruct Ht as (Hb & Htm & Ht). assert (∃ ci ti, vi = VWorking ci ti) as (ci & ti & ->).
  { destruct vi as [| | ci ti |]; [| | by eauto |]; assert (vo = VIdle) as -> by naive_solver; by destruct c. }
  destruct Ht as (Hab & Hwt & Ht). pose proof (m_iseen _ _ _ _ _ Hw) as (_ & _ & _ & Htc).
  destruct vo as [| d l | [] [] |], c as [h d' l' | | h | h |]; simpl in Eex; try done; case_decide as Hd; simplify_eq; unfold mout_call.
  - destruct Hd as (-> & -> & ->), Ht as (Ha & -> & Htd). rewrite ASSERT_seq; [| cbn [with_pim above below]; by rewrite Hb, Ha, !bool_decide_eq_true_2].
    eexists. split; [reflexivity |]. exists (VWorking ci false), (VWorking false false), P'. split; [exact Hw |]. split; [done |].
    split; [split; [intros Hx; by apply Htm in Hx | done] | done].
  - destruct Ht as [<- Htd]. rewrite ASSERT_seq; [| cbn [with_pim above below wants told]; rewrite Hb, Htd, Hwt, bool_decide_eq_true_2 by auto; done].
    eexists. split; [reflexivity |]. exists (VWorking ci true), (VWorking true true), P'. split; [exact Hw |]. split; [done |].
    split; [split; [intros Hx; by apply Htm in Hx | done] | done].
  - rewrite ASSERT_seq by (by apply bool_decide_eq_true). cbn [with_pim mgroup pim]. unfold pim_output_handler_done.
    cbn [set pim_eta pim_output pim_input pim_handler pim_timer].
    destruct (ppi_finish_ok wi g' L P' (pim_input (pim n))) as (g2 & i & -> & Ha); [apply Hw | apply Hw | apply Hw | apply (m_iseen _ _ _ _ _ Hw) |].
    rewrite !option_bind_Some. destruct (mwires_in _ _ _ _ _ _ _ _ P' Hw ltac:(done) Ha) as [P2 Hw2]. eexists. split; [reflexivity |].
    exists VEnding, VIdle, P2. split; [by eapply mwires_ext; [| | exact Hw2] |]. done.
Qed.

Lemma pim_input_same o : o <| pim_input := pim_input o |> = o.
Proof. by destruct o. Qed.
Lemma pim_output_same o : o <| pim_output := pim_output o |> = o.
Proof. by destruct o. Qed.

Lemma mnext_ok n : minv n → ∃ n', mnext wi wo n = Some n' ∧ minv n'.
Proof using Hap Hmtu Hcan.
  intros (vi & vo & P & Hw & Ht). pose proof Hap as (HJK & _ & _ & HnJ & HnK). unfold mnext.
  destruct (next_job_ok (mgroup n) L P (m_queue _ _ _ _ _ Hw)) as [(-> & g' & -> & Hq') | (x & h & g' & Hx & Hh & -> & Hq')]; rewrite option_bind_Some.
  { eexists. split; [reflexivity |]. exists vi, vo, ∅. split; [by eapply mwires_frame; [exact Hq' | | exact Hw] | done]. }
  pose proof (m_J _ _ _ _ _ Hw) as HJ. pose proof (m_K _ _ _ _ _ Hw) as HK. destruct (decide (x ∈ J)) as [HxJ | HxJ].
  - rewrite (o_live _ _ _ (m_in _ _ _ _ _ Hw) x) in Hh by congruence. injection Hh as <-.
    destruct (ppi_job_ok wi g' L P (pim_input (pim n)) vi x Hq') as (i & c & vi' & -> & Eex & Ha); [apply Hw | apply Hw | apply Hw | done | congruence |].
    rewrite option_bind_Some. destruct (mwires_in _ _ _ _ _ _ _ _ (P ∖ {[x]}) Hw ltac:(intros y Hy; specialize (HJK x HxJ); set_solver) Ha) as [P' Hw'].
    apply min_job_ok with vi vi' vo P'; done.
  - rewrite ppi_job_other by (rewrite HJ; by eapply HnJ). rewrite option_bind_Some, pim_input_same. destruct (decide (x ∈ K)) as [HxK | HxK].
    + rewrite (o_live _ _ _ (m_out _ _ _ _ _ Hw) x) in Hh by congruence. injection Hh as <-.
      destruct (ppi_job_ok wo g' L P (pim_output (pim n)) vo x Hq') as (out & c & vo' & -> & Eex & Ha); [apply Hw | apply Hw | apply Hw | done | congruence |].
      rewrite option_bind_Some. destruct (mwires_out _ _ _ _ _ _ _ _ (P ∖ {[x]}) Hw ltac:(intros y Hy; specialize (HJK y Hy); set_solver) Ha) as [P' Hw'].
      apply mout_job_ok with vi vo vo' P'; done.
    + rewrite ppi_job_other by (rewrite HK; by eapply HnK). rewrite option_bind_Some, pim_output_same.
      eexists. split; [reflexivity |]. exists vi, vo, (P ∖ {[x]}). split; [| done]. eapply mwires_frame; [exact Hq' | | exact Hw]. set_solver.
Qed.

Lemma mstep_ok n e : minv n → ∃ n', mstep wi wo others n e = Some n' ∧ minv n'.
Proof using Hap Hmtu Hcan.
  intros Hn. destruct e as [d l | | | | | h | | x b]; [by apply msend_ok | by apply mcancel_ok | by apply mfinish_ok | by apply mtimer_ok | | | by apply mnext_ok |];
    destruct Hn as (vi & vo & P & Hw & Ht); cbn [mstep].
  - eexists. split; [reflexivity |]. exists vi, vo, P. destruct (above n) as [p |] eqn:Ea; cbn [is_set]; [by rewrite Ea |].
    split; [by eapply mwires_ext; [| | exact Hw] |]. cbn. rewrite Ea. destruct Ht as (Hb & Htm & Ht).
    assert (vi = VIdle ∧ vo = VIdle) as [-> ->] by (destruct vi; naive_solver). split; [done |]. by split.
  - eexists. split; [reflexivity |]. exists vi, vo, P. split; [by eapply mwires_ext; [| | exact Hw] | exact Ht].
  - case_decide as Hx; [| exists n; split; [done |]; by exists vi, vo, P]. pose proof Hap as (_ & Hsub & Hoth & _). destruct (Hoth x Hx) as [HxJ HxK].
    assert (x ∈ dom L) as Hd by set_solver. pose proof (m_queue _ _ _ _ _ Hw) as Hq.
    destruct (job_toggle_ok (mgroup n) L P x b Hq Hd) as (g' & P' & -> & Hq' & HP').
    rewrite option_bind_Some. eexists. split; [reflexivity |]. exists vi, vo, P'. split; [| exact Ht]. eapply mwires_frame; [exact Hq' | | exact Hw].
    intros y Hy. apply HP'. intros ->. by destruct Hy.
Qed.

Lemma mrun_ok es : ∀ n, minv n → ∃ n', mrun wi wo others n es = Some n' ∧ minv n'.
Proof using Hap Hmtu Hcan.
  induction es as [| e es IH]; intros n Hn; [by exists n |]. destruct (mstep_ok n e Hn) as (n1 & E & Hn1).
  destruct (IH n1 Hn1) as (n2 & E2 & Hn2). exists n2. split; [| done]. unfold mrun in *. simpl. by rewrite E.
Qed.

End proofs.

(** ** The theorem *)

Section theorem.
Context {G : Type} `{JobQueue G}.
Implicit Types (L : gmap addr nat) (P : gset addr) (o : PacketPassInactivityMonitor).

(** The provider creates its interface, then the monitor is created, and its input
    is given to the sender. *)
Definition mnet_setup (wi wo : wiring) (g : G) o (handler : option nat) : option (mnet G) :=
  '(g, out) ← PacketPassInterface_Init g (pim_output o) (w_mtu wo) (w_operation wo);
  out ← match w_cancel wo with Some h => PacketPassInterface_EnableCancel out h | None => Some out end;
  '(g, o) ← PacketPassInactivityMonitor_Init g (o <| pim_output := out |>) handler (w_operation wi) (default 0%nat (w_cancel wi)) (w_done wo);
  i ← PacketPassInterface_Sender_Init (pim_input o) (w_done wi);
  Some (mk_mnet g (o <| pim_input := i |>) None false false false []).

Definition pim_jobs o : list addr := ppi_jobs (pim_input o) ++ ppi_jobs (pim_output o).
Definition pim_live L o : gmap addr nat := with_jobs (with_jobs L (rev (ppi_jobs (pim_output o)))) (rev (ppi_jobs (pim_input o))).

Lemma ppi_ok_more L P i J : ppi_ok L P i → (∀ x, x ∈ ppi_jobs i → x ∉ J) → ppi_ok (with_jobs L J) P i.
Proof. intros [Hlv Hdi Hop Hdo Hca] HJ. split; try done. intros x Hx. rewrite with_jobs_other by auto. by apply Hlv. Qed.

Lemma mnet_setup_ok wi wo g L P o handler : queue g L P → 0 ≤ w_mtu wo → w_mtu wi = w_mtu wo → is_set (w_cancel wi) = is_set (w_cancel wo) →
  NoDup (pim_jobs o) → (∀ x, x ∈ pim_jobs o → L !! x = None) →
  ∃ n, mnet_setup wi wo g o handler = Some n ∧ minv wi wo (pim_live L o) (ppi_jobs (pim_input o)) (ppi_jobs (pim_output o)) n.
Proof.
  intros Hq Hm Hmtu Hcan (HdJ & HJK & HdK)%NoDup_app Hf. unfold pim_jobs in *.
  destruct (ppi_setup_ok wo g L P (pim_output o) Hq Hm HdK) as (g1 & out & E1 & HK & Hq1 & Ho & How & Hos); [set_solver |].
  destruct (ppi_setup_ok wi g1 _ P (pim_input o) Hq1) as (g2 & i & E2 & HJ & Hq2 & Hi & Hiw & His); [lia | done | |].
  { intros x Hx. rewrite with_jobs_other by (rewrite elem_of_rev; by apply HJK). apply Hf. set_solver. }
  unfold ppi_setup in E1, E2. apply bind_Some in E1 as ([g1' out0] & Eo0 & E1). apply bind_Some in E1 as (out1 & Eo1 & E1).
  apply bind_Some in E1 as (out2 & Eo2 & [= -> ->]).
  apply bind_Some in E2 as ([g2' i0] & Ei0 & E2). apply bind_Some in E2 as (i1 & Ei1 & E2). apply bind_Some in E2 as (i2 & Ei2 & [= -> ->]).
  assert (PacketPassInterface_GetMTU out1 = w_mtu wi ∧ PacketPassInterface_HasCancel out1 = is_set (w_cancel wi)) as [Hget Hhas].
  { unfold PacketPassInterface_Sender_Init in Eo2. apply bind_Some in Eo2 as (_ & _ & [= <-]). destruct How as (Hx & _ & Hy & _). simpl in Hx, Hy.
    unfold PacketPassInterface_GetMTU, PacketPassInterface_HasCancel. rewrite Hx, Hy. split; congruence. }
  unfold mnet_setup, PacketPassInactivityMonitor_Init. rewrite Eo0, option_bind_Some, Eo1, option_bind_Some.
  cbn [set pim_eta pim_output pim_input pim_handler pim_timer]. rewrite Hget, Hhas, Ei0, option_bind_Some.
  replace (if is_set (w_cancel wi) then PacketPassInterface_EnableCancel i0 (default 0%nat (w_cancel wi)) else Some i0) with (Some i1)
    by (destruct (w_cancel wi); simpl; congruence).
  rewrite option_bind_Some, Eo2, !option_bind_Some. cbn [set pim_eta pim_output pim_input pim_handler pim_timer]. rewrite Ei2, option_bind_Some.
  eexists. split; [reflexivity |]. exists VIdle, VIdle, P. split; [| done]. split; simpl; try done.
  apply ppi_ok_more; [exact Ho |]. intros x. rewrite elem_of_rev. change (x ∈ ppi_jobs out → x ∉ ppi_jobs (pim_input o)).
  rewrite HK. intros Hx Hy. by apply (HJK x Hy).
Qed.

(** What the invariant says to the outside. *)
Lemma minv_progress wi wo L J K (n : mnet G) : minv wi wo L J K n →
  ∃ P, queue (mgroup n) L P ∧ (is_set (above n) = true → below n = true ∨ ∃ x, x ∈ J ++ K ∧ x ∈ P) ∧
    (pim_timer (pim n) = false → is_set (above n) = true).
Proof.
  intros (vi & vo & P & Hw & Hb & Htm & Ht). exists P. split; [apply Hw |]. pose proof (m_J _ _ _ _ _ _ _ _ _ _ Hw) as HJ. pose proof (m_K _ _ _ _ _ _ _ _ _ _ Hw) as HK.
  destruct (m_in _ _ _ _ _ _ _ _ _ _ Hw) as [_ _ Hop Hdo _]. destruct (m_out _ _ _ _ _ _ _ _ _ _ Hw) as [_ _ Hoop Hodo _].
  pose proof (m_iseen _ _ _ _ _ _ _ _ _ _ Hw) as Hs. pose proof (m_oseen _ _ _ _ _ _ _ _ _ _ Hw) as Hos. split.
  - intros Hab. destruct vi as [| d l | c t |]; simpl in *.
    + destruct Ht as [Hx _]. by rewrite Hx in Hab.
    + right. exists (ppi_job_operation (pim_input (pim n))). split; [rewrite elem_of_app, <- HJ; left; unfold ppi_jobs; rewrite !elem_of_cons; tauto | by apply Hop, Hs].
    + destruct Ht as (_ & _ & Ht). destruct vo as [| d l | c' t' |]; [done | | by left |]; right.
      * exists (ppi_job_operation (pim_output (pim n))). split; [rewrite elem_of_app, <- HK; right; unfold ppi_jobs; rewrite !elem_of_cons; tauto | by apply Hoop, Hos].
      * exists (ppi_job_done (pim_output (pim n))). split; [rewrite elem_of_app, <- HK; right; unfold ppi_jobs; rewrite !elem_of_cons; tauto | by apply Hodo].
    + right. exists (ppi_job_done (pim_input (pim n))). split; [rewrite elem_of_app, <- HJ; left; unfold ppi_jobs; rewrite !elem_of_cons; tauto | by apply Hdo].
  - intros Hf. assert (vo ≠ VIdle) as Hne by (intros ->; rewrite (proj2 Htm) in Hf; done). destruct vi; naive_solver.
Qed.

End theorem.

(** The inactivity monitor between a sender and a provider, in any group of
    jobs: no assertion of the monitor, of its two interfaces or of the queue fails;
    the provider gets exactly the packets of the sender, one at a time, hears of a
    cancel request once, only if the sender made it and only while it works; the
    sender gets one report per packet; and the owner is told about inactivity only
    while neither interface has a packet on the way. While the timer is stopped a
    packet is on the way, and while a packet is on the way the provider works or a
    job is set, so that neither packets nor the timer get stuck. *)
Theorem inactivity_monitor {G} `{JobQueue G} wi wo (g : G) L P o handler others es :
  queue g L P → 0 ≤ w_mtu wo → w_mtu wi = w_mtu wo → is_set (w_cancel wi) = is_set (w_cancel wo) → NoDup (pim_jobs o) →
  (∀ x, x ∈ pim_jobs o → L !! x = None) → others ⊆ dom L → (∀ x h, L !! x = Some h → h ∉ pim_jobs o) →
  ∃ n0 n P', mnet_setup wi wo g o handler = Some n0 ∧ mrun wi wo others n0 es = Some n ∧ queue (mgroup n) (pim_live L o) P' ∧
    (is_set (above n) = true → below n = true ∨ ∃ x, x ∈ pim_jobs o ∧ x ∈ P') ∧
    (pim_timer (pim n) = false → is_set (above n) = true).
Proof.
  intros Hq Hm Hmtu Hcan Hnd Hf Hsub Hn. destruct (mnet_setup_ok wi wo g L P o handler Hq Hm Hmtu Hcan Hnd Hf) as (n0 & E0 & Hi0).
  destruct (mrun_ok wi wo _ _ _ others (jobs_apart_setup L _ _ others Hnd Hf Hsub Hn) Hmtu Hcan es n0 Hi0) as (n & E & Hi).
  destruct (minv_progress _ _ _ _ _ n Hi) as (P' & H1 & H2 & H3). exists n0, n, P'. done.
Qed.

(** A report, a packet that is cancelled while the provider works on it, another
    report. *)
Definition wit_wi : wiring := mk_wiring 1500 30 (Some 31%nat) 32.
Definition wit_wo : wiring := mk_wiring 1500 40 (Some 41%nat) 42.
Definition wit_pim : PacketPassInactivityMonitor :=
  mk_pim (mk_ppi 0 0 None None 4 0 0 5 6 STATE_NONE false) None (mk_ppi 0 0 None None 1 0 0 2 3 STATE_NONE false) false.
Definition wit_mevents : list mevent :=
  [MTimer; MSend 4096 100; MNext; MTimer; MNext; MTimer; MCancel; MNext; MNext; MFinish; MNext; MNext; MTimer].

Lemma inactivity_monitor_witness : ∃ n0 n,
  mnet_setup wit_wi wit_wo BPendingGroup_Init wit_pim (Some 7%nat) = Some n0 ∧ mrun wit_wi wit_wo ∅ n0 wit_mevents = Some n ∧
  reports n = [7; 7]%nat ∧ told n = true ∧ (pim_timer (pim n) = false → is_set (above n) = true).
Proof.
  destruct (inactivity_monitor wit_wi wit_wo BPendingGroup_Init ∅ ∅ wit_pim (Some 7%nat) ∅ wit_mevents wit_queue)
    as (n0 & n & P' & E0 & E & _ & _ & Ht).
  - vm_compute. discriminate.
  - reflexivity.
  - reflexivity.
  - vm_compute. apply (bool_decide_unpack (NoDup [1; 2; 3; 4; 5; 6]%nat)). exact I.
  - intros x _. reflexivity.
  - set_solver.
  - intros x h Hx. discriminate Hx.
  - assert ((mnet_setup wit_wi wit_wo BPendingGroup_Init wit_pim (Some 7%nat) ≫= λ n0,
             mrun wit_wi wit_wo ∅ n0 wit_mevents ≫= λ n, Some (reports n, told n)) = Some ([7; 7]%nat, true)) as Ec by (vm_compute; reflexivity).
    rewrite E0, option_bind_Some, E, option_bind_Some in Ec. injection Ec as Hr Hd. exists n0, n. split; [exact E0 |]. split; [exact E |].
    split; [exact Hr |]. split; [exact Hd | exact Ht].
Defined.
