(* ===== verification/PacketPassConnector.v ===== *)
(** * The packet connector (flow/PacketPassConnector.c)

    The component passes packets on from its input to an output that is connected and
    disconnected while the program runs (the UDP gateway client keeps its packets in
    front of one while its connection to the server is made). A packet that is in
    progress when the output goes away is sent again to the next one. *)
From S2P Require Import Prelude LinkedLists BPending FlowInterfaces.

(** [ppc_output] is the interface the field points to. *)
Record PacketPassConnector := mk_ppc {
  ppc_input : PacketPassInterface;
  ppc_input_mtu : Z;
  ppc_in_len : Z;
  ppc_in : Z;
  ppc_output : option PacketPassInterface
}.
#[export] Instance ppc_eta : Eta PacketPassConnector := λ o, mk_ppc (ppc_input o) (ppc_input_mtu o) (ppc_in_len o) (ppc_in o) (ppc_output o).

Section connector.
Context {G : Type} `{JobQueue G}.
Implicit Types o : PacketPassConnector.

Definition ppc_input_handler_send (g : G) o (data data_len : Z) : option (G * PacketPassConnector) :=
  ASSERT (0 <=? data_len);;
  ASSERT (data_len <=? ppc_input_mtu o);;
  ASSERT (ppc_in_len o =? -1);;
  let o := o <| ppc_in_len := data_len |> <| ppc_in := data |> in
  match ppc_output o with
  | Some out => '(g, out) ← PacketPassInterface_Sender_Send g out (ppc_in o) (ppc_in_len o); Some (g, o <| ppc_output := Some out |>)
  | None => Some (g, o)
  end.

Definition ppc_output_handler_done (g : G) o : option (G * PacketPassConnector) :=
  ASSERT (0 <=? ppc_in_len o);;
  ASSERT (is_set (ppc_output o));;
  let o := o <| ppc_in_len := -1 |> in
  '(g, i) ← PacketPassInterface_Done g (ppc_input o);
  Some (g, o <| ppc_input := i |>).

(** [o] is the memory of the object; [h_send] names its handler. *)
Definition PacketPassConnector_Init (g : G) o (mtu : Z) (h_send : nat) : option (G * PacketPassConnector) :=
  ASSERT (0 <=? mtu);;
  let o := o <| ppc_input_mtu := mtu |> in
  '(g, i) ← PacketPassInterface_Init g (ppc_input o) (ppc_input_mtu o) h_send;
  Some (g, o <| ppc_input := i |> <| ppc_in_len := -1 |> <| ppc_output := None |>).

Definition PacketPassConnector_Free (g : G) o : option G := PacketPassInterface_Free g (ppc_input o).

Definition PacketPassConnector_GetInput o : PacketPassInterface := ppc_input o.

Definition PacketPassConnector_ConnectOutput (g : G) o (output : PacketPassInterface) (h_done : nat) : option (G * PacketPassConnector) :=
  ASSERT (negb (is_set (ppc_output o)));;
  ASSERT (ppc_input_mtu o <=? PacketPassInterface_GetMTU output);;
  output ← PacketPassInterface_Sender_Init output h_done;
  let o := o <| ppc_output := Some output |> in
  if 0 <=? ppc_in_len o then
    '(g, output) ← PacketPassInterface_Sender_Send g output (ppc_in o) (ppc_in_len o);
    Some (g, o <| ppc_output := Some output |>)
  else Some (g, o).

Definition PacketPassConnector_DisconnectOutput o : option PacketPassConnector :=
  ASSERT (is_set (ppc_output o));;
  Some (o <| ppc_output := None |>).

(** ** The connector between its neighbours *)

(** The sender has the packet [above] on the way; the provider of the output works on
    it when [below] is set; [served] is set once a provider has finished with it. *)
Record knet := mk_knet { kgroup : G; ppc : PacketPassConnector; above : option (Z * Z); below : bool; served : bool }.

(** The sender sends; a provider makes an interface in some memory and connects it;
    the connector is disconnected and the provider frees its interface; the provider
    finishes; the next job; another object sets or unsets a job of its own. *)
Inductive kevent :=
| KSend (d l : Z) | KConnect (w : wiring) (out : PacketPassInterface) | KDisconnect | KFinish | KNext | KOther (o : addr) (b : bool).

Context (wi : wiring) (h_done : nat) (pool others : gset addr).

Definition kin_call (n : knet) (c : icall) : option knet :=
  match c with
  | CallSend h d l =>
      ASSERT (bool_decide (h = w_operation wi));; '(g, o) ← ppc_input_handler_send (kgroup n) (ppc n) d l;
      Some (mk_knet g o (above n) (below n) (served n))
  | CallDone h =>
      ASSERT (bool_decide (h = w_done wi) && is_set (above n) && served n);; Some (mk_knet (kgroup n) (ppc n) None (below n) (served n))
  | _ => None
  end.

(** The provider must be free, and is given the packet of the sender. *)
Definition kout_call (n : knet) (c : icall) : option knet :=
  match c with
  | CallSend h d l =>
      ASSERT (negb (below n) && bool_decide (above n = Some (d, l)));; Some (mk_knet (kgroup n) (ppc n) (above n) true (served n))
  | CallDone h =>
      ASSERT (bool_decide (h = h_done));; '(g, o) ← ppc_output_handler_done (kgroup n) (ppc n);
      Some (mk_knet g o (above n) (below n) (served n))
  | _ => None
  end.

Definition knext (n : knet) : option knet :=
  '(g, h) ← next_job (kgroup n);
  match h with
  | None => Some (mk_knet g (ppc n) (above n) (below n) (served n))
  | Some h =>
      '(i, c) ← ppi_job (ppc_input (ppc n)) h;
      let o := (ppc n) <| ppc_input := i |> in
      match c with
      | Some c => kin_call (mk_knet g o (above n) (below n) (served n)) c
      | None =>
          match ppc_output o return option knet with
          | None => Some (mk_knet g o (above n) (below n) (served n))
          | Some out =>
              '(out, c) ← ppi_job out h;
              let n := mk_knet g (o <| ppc_output := Some out |>) (above n) (below n) (served n) in
              match c with Some c => kout_call n c | None => Some n end
          end
      end
  end.

(** The memory a new output may use. *)
Definition from_pool (out : PacketPassInterface) : Prop := NoDup (ppi_jobs out) ∧ Forall (λ x, x ∈ pool) (ppi_jobs out).
#[global] Instance from_pool_dec out : Decision (from_pool out).
Proof using Type. unfold from_pool. apply _. Defined.

Definition kstep (n : knet) (e : kevent) : option knet :=
  match e with
  | KSend d l =>
      if negb (is_set (above n)) && (0 <=? l) && (l <=? w_mtu wi) && (negb (0 <? l) || negb (d =? 0)) then
        '(g, i) ← PacketPassInterface_Sender_Send (kgroup n) (ppc_input (ppc n)) d l;
        Some (mk_knet g ((ppc n) <| ppc_input := i |>) (Some (d, l)) (below n) false)
      else Some n
  | KConnect w out =>
      if decide (ppc_output (ppc n) = None ∧ from_pool out ∧ w_mtu wi ≤ w_mtu w) then
        '(g, out) ← PacketPassInterface_Init (kgroup n) out (w_mtu w) (w_operation w);
        out ← match w_cancel w with Some h => PacketPassInterface_EnableCancel out h | None => Some out end;
        '(g, o) ← PacketPassConnector_ConnectOutput g (ppc n) out h_done;
        Some (mk_knet g o (above n) (below n) (served n))
      else Some n
  | KDisconnect =>
      match ppc_output (ppc n) with
      | Some out =>
          o ← PacketPassConnector_DisconnectOutput (ppc n);
          g ← PacketPassInterface_Free (kgroup n) out;
          Some (mk_knet g o (above n) false (served n))
      | None => Some n
      end
  | KFinish =>
      match ppc_output (ppc n) with
      | Some out =>
          if below n then
            '(g, out) ← PacketPassInterface_Done (kgroup n) out;
            Some (mk_knet g ((ppc n) <| ppc_output := Some out |>) (above n) false true)
          else Some n
      | None => Some n
      end
  | KNext => knext n
  | KOther x b =>
      if decide (x ∈ others) then
        g ← (if (b : bool) then job_set (kgroup n) x else job_unset (kgroup n) x);
        Some (mk_knet g (ppc n) (above n) (below n) (served n))
      else Some n
  end.

Definition krun (n : knet) (es : list kevent) : option knet := foldl (λ n e, n ≫= λ n, kstep n e) (Some n) es.

End connector.
Arguments knet : clear implicits.

Section proofs.
Context {G : Type} `{JobQueue G}.
Context (wi : wiring) (h_done : nat) (pool others : gset addr) (L : gmap addr nat) (J : list addr).
Implicit Types (n : knet G) (o : PacketPassConnector) (P : gset addr) (out : PacketPassInterface).

(** The group while the output of [o] exists. *)
Definition klive o : gmap addr nat := match ppc_output o with Some out => with_jobs L (rev (ppi_jobs out)) | None => L end.

Definition out_ok L' P (vo : view) out : Prop :=
  ∃ wo, ppi_ok L' P out ∧ wired wo out ∧ seen vo P out ∧ w_done wo = h_done ∧ w_mtu wi ≤ w_mtu wo ∧ from_pool pool out.

(** The queue and the interfaces. [J] is the jobs of the input. *)
Record kwires (g : G) o (vi vo : view) P : Prop := {
  k_queue : queue g (klive o) P;
  k_in : ppi_ok (klive o) P (ppc_input o);
  k_iwired : wired wi (ppc_input o);
  k_iseen : seen vi P (ppc_input o);
  k_out : match ppc_output o with Some out => out_ok (klive o) P vo out | None => vo = VIdle end;
  k_J : ppi_jobs (ppc_input o) = J;
  k_mtu : ppc_input_mtu o = w_mtu wi
}.

(** How the two interfaces and the packet that is kept go together. *)
Definition link (vi vo : view) o (ab : option (Z * Z)) (bl sv : bool) : Prop :=
  bl = (match vo with VWorking _ _ => true | _ => false end) ∧
  match vi with
  | VIdle => ab = None ∧ vo = VIdle ∧ ppc_in_len o = -1
  | VSent d l => ab = Some (d, l) ∧ vo = VIdle ∧ ppc_in_len o = -1 ∧ 0 ≤ l ≤ w_mtu wi ∧ (0 < l → d ≠ 0)
  | VWorking c _ => c = false ∧ ab = Some (ppc_in o, ppc_in_len o) ∧ 0 ≤ ppc_in_len o ≤ w_mtu wi ∧ (0 < ppc_in_len o → ppc_in o ≠ 0) ∧
      match vo with
      | VIdle => ppc_output o = None
      | VSent d l => ab = Some (d, l)
      | VWorking c _ => c = false
      | VEnding => sv = true
      end
  | VEnding => is_set ab = true ∧ vo = VIdle ∧ ppc_in_len o = -1 ∧ sv = true
  end.

Definition kinv n : Prop := ∃ vi vo P, kwires (kgroup n) (ppc n) vi vo P ∧ link vi vo (ppc n) (above n) (below n) (served n).

(** Outputs are made in memory that nothing else uses. *)
Context (HJ : ∀ x, x ∈ J → L !! x = Some x ∧ x ∉ pool) (Hpool : ∀ x, x ∈ pool → L !! x = None).
Context (Hnames : ∀ x h, L !! x = Some h → (h ∉ pool) ∧ (x ∉ J → h ∉ J)) (Hoth : ∀ x, x ∈ others → x ∈ dom L ∧ x ∉ J).

Lemma pool_apart out x : from_pool pool out → x ∈ ppi_jobs out → L !! x = None ∧ (x ∉ J).
Proof using HJ Hpool.
  intros [_ Hf] Hx. rewrite Forall_forall in Hf. specialize (Hf x Hx). split; [by apply Hpool |]. intros Hj. by destruct (HJ x Hj).
Qed.

Lemma klive_jobs o o' : (ppi_jobs <$> ppc_output o') = (ppi_jobs <$> ppc_output o) → klive o' = klive o.
Proof. unfold klive. destruct (ppc_output o), (ppc_output o'); simpl; intros; simplify_eq; congruence. Qed.

(** One of the interfaces changed; the rest did not. *)
Lemma kwires_in g g' o i vi vi' vo P P0 : kwires g o vi vo P → (∀ x, x ∉ J → (x ∈ P0 ↔ x ∈ P)) → ppi_after wi (klive o) P0 (ppc_input o) vi' g' i →
  ∃ P', kwires g' (o <| ppc_input := i |>) vi' vo P'.
Proof using HJ Hpool.
  intros [Hq Hi Hw Hs Ho HJ0 Hm] H0 (P' & Hq' & Hi' & Hw' & Hs' & HJ1 & HP). exists P'.
  assert (klive (o <| ppc_input := i |>) = klive o) as El by done. split; rewrite ?El; simpl; try done; [| congruence]. destruct (ppc_output o) as [out |] eqn:Eo; [| done].
  destruct Ho as (wo & Ho & How & Hos & Hd & Hmo & Hfp).
  assert (∀ x, x ∈ ppi_jobs out → (x ∈ P' ↔ x ∈ P)) as Hfr.
  { intros x Hx. destruct (pool_apart out x Hfp Hx) as [_ Hn]. rewrite HP by congruence. by apply H0. }
  exists wo. split; [exact (ppi_ok_frame _ _ _ _ Hfr Ho) |]. split; [done |]. split; [exact (seen_frame _ _ _ _ Hfr Hos) | done].
Qed.

Lemma from_pool_same out out' : ppi_jobs out' = ppi_jobs out → from_pool pool out → from_pool pool out'.
Proof. unfold from_pool. by intros ->. Qed.

Lemma kwires_out wo g g' o out out' vi vo vo' P P0 : kwires g o vi vo P → ppc_output o = Some out → from_pool pool out →
  w_done wo = h_done → w_mtu wi ≤ w_mtu wo → (∀ x, x ∈ J → (x ∈ P0 ↔ x ∈ P)) → ppi_after wo (klive o) P0 out vo' g' out' →
  ∃ P', kwires g' (o <| ppc_output := Some out' |>) vi vo' P'.
Proof using HJ Hpool.
  intros [Hq Hi Hw Hs _ HJ0 Hm] Eo Hfp Hd Hmo H0 (P' & Hq' & Hi' & Hw' & Hs' & HJ1 & HP). exists P'.
  assert (klive (o <| ppc_output := Some out' |>) = klive o) as El by (apply klive_jobs; simpl; rewrite Eo; simpl; congruence).
  assert (∀ x, x ∈ ppi_jobs (ppc_input o) → (x ∈ P' ↔ x ∈ P)) as Hfr.
  { intros x Hx. rewrite HJ0 in Hx. rewrite <- (H0 x Hx). apply HP. intros Hy. by destruct (pool_apart out x Hfp Hy). }
  split; rewrite ?El; simpl; try done; [by eapply ppi_ok_frame | by eapply seen_frame |]. exists wo. split_and!; try done. by apply (from_pool_same out).
Qed.

Lemma kwires_frame g g' o vi vo P P' : queue g' (klive o) P' → kwires g o vi vo P →
  (∀ x, x ∈ J ∨ (∃ out, ppc_output o = Some out ∧ x ∈ ppi_jobs out) → (x ∈ P' ↔ x ∈ P)) → kwires g' o vi vo P'.
Proof.
  intros Hq' [Hq Hi Hw Hs Ho HJ0 Hm] HP. assert (∀ x, x ∈ ppi_jobs (ppc_input o) → (x ∈ P' ↔ x ∈ P)) by (intros x Hx; apply HP; left; congruence).
  split; try done; [by eapply ppi_ok_frame | by eapply seen_frame |]. destruct (ppc_output o) as [out |] eqn:Eo; [| done].
  assert (∀ x, x ∈ ppi_jobs out → (x ∈ P' ↔ x ∈ P)) as Hfr by (intros x Hx; apply HP; right; by exists out).
  destruct Ho as (wo & Ho & How & Hos & Hr). exists wo. split; [exact (ppi_ok_frame _ _ _ _ Hfr Ho) |]. split; [done |]. split; [exact (seen_frame _ _ _ _ Hfr Hos) | done].
Qed.

(** The packet that is kept does not matter to the interfaces. *)
Lemma kwires_ext g o o' vi vo P : ppc_input o' = ppc_input o → ppc_output o' = ppc_output o → ppc_input_mtu o' = ppc_input_mtu o →
  kwires g o vi vo P → kwires g o' vi vo P.
Proof. intros Ei Eo Em []. assert (klive o' = klive o) as El by (unfold klive; by rewrite Eo). split; by rewrite ?Ei, ?Eo, ?Em, ?El. Qed.

Lemma ksend_ok n d l : kinv n → ∃ n', kstep wi h_done pool others n (KSend d l) = Some n' ∧ kinv n'.
Proof using HJ Hpool Hnames Hoth.
  intros (vi & vo & P & Hw & Ht). cbn [kstep].
  destruct (negb (is_set (above n)) && (0 <=? l) && (l <=? w_mtu wi) && (negb (0 <? l) || negb (d =? 0))) eqn:E;
    [| exists n; split; [done |]; by exists vi, vo, P]. apply andb_true_iff in E as [E Hnull]. b2p.
  assert (vi = VIdle) as -> by (destruct Ht as (_ & Ht); destruct vi, (above n); naive_solver). destruct Ht as (Hb & Hab & -> & Hlen).
  assert (0 < l → d ≠ 0) as Hnn by (intros Hl%Z.ltb_lt ->; by rewrite Hl in Hnull).
  destruct (ppi_send_ok wi (kgroup n) _ P (ppc_input (ppc n)) d l (k_queue _ _ _ _ _ Hw)) as (g' & i & -> & Ha);
    [apply Hw | apply Hw | apply (k_iseen _ _ _ _ _ Hw) | lia | done |]. rewrite option_bind_Some.
  destruct (kwires_in _ _ _ _ _ _ _ _ P Hw ltac:(done) Ha) as [P' Hw']. eexists. split; [reflexivity |].
  exists (VSent d l), VIdle, P'. split; [exact Hw' |]. done.
Qed.

Lemma kfinish_ok n : kinv n → ∃ n', kstep wi h_done pool others n KFinish = Some n' ∧ kinv n'.
Proof using HJ Hpool Hnames Hoth.
  intros (vi & vo & P & Hw & Ht). cbn [kstep]. destruct (ppc_output (ppc n)) as [out |] eqn:Eo; [| exists n; split; [done |]; by exists vi, vo, P].
  destruct (below n) eqn:E; [| exists n; split; [done |]; exists vi, vo, P; by rewrite E].
  destruct Ht as (Hb & Ht). pose proof (k_out _ _ _ _ _ Hw) as Ho. rewrite Eo in Ho. destruct Ho as (wo & Ho & How & Hos & Hd & Hm & Hfp).
  destruct vo as [| ? ? | c t |]; try done.
  destruct (ppi_finish_ok wo (kgroup n) _ P out (k_queue _ _ _ _ _ Hw) Ho How) as (g' & out' & -> & Ha); [apply Hos |]. rewrite option_bind_Some.
  destruct (kwires_out wo _ _ _ _ _ _ _ _ _ P Hw Eo Hfp Hd Hm ltac:(done) Ha) as [P' Hw']. eexists. split; [reflexivity |].
  exists vi, VEnding, P'. split; [exact Hw' |]. split; [done |]. destruct vi as [| ? ? | ? ? |]; simpl in *; naive_solver.
Qed.

(** The output goes away with its jobs; the packet is kept. *)
Lemma kdisconnect_ok n : kinv n → ∃ n', kstep wi h_done pool others n KDisconnect = Some n' ∧ kinv n'.
Proof using HJ Hpool Hnames Hoth.
  intros (vi & vo & P & Hw & Ht). cbn [kstep]. destruct (ppc_output (ppc n)) as [out |] eqn:Eo; [| exists n; split; [done |]; by exists vi, vo, P].
  unfold PacketPassConnector_DisconnectOutput. rewrite Eo, ASSERT_seq, option_bind_Some by done.
  destruct Hw as [Hq Hi Hwi Hs Ho HJ0 Hm]. rewrite Eo in Ho. destruct Ho as (wo & Ho & How & Hos & Hd & Hmo & Hfp).
  destruct (ppi_free_ok (kgroup n) _ P out Hq Ho) as (g' & -> & Hq'). rewrite option_bind_Some. eexists. split; [reflexivity |].
  assert (klive (ppc n) = with_jobs L (rev (ppi_jobs out))) as El by (unfold klive; by rewrite Eo).
  rewrite El, forget_jobs in Hq' by (apply Hfp || intros x Hx; by apply (pool_apart out)).
  set (P' := P ∖ list_to_set (ppi_jobs out)) in *. exists vi, VIdle, P'. cbn [kgroup ppc above below served].
  assert (∀ x, x ∈ ppi_jobs (ppc_input (ppc n)) → (x ∈ P' ↔ x ∈ P)) as Hfr.
  { intros x Hx. unfold P'. rewrite elem_of_difference, elem_of_list_to_set. rewrite HJ0 in Hx. split; [tauto |]. intros ?. split; [done |]. intros Hy.
    by destruct (pool_apart out x Hfp Hy). }
  split.
  - split; simpl; try done; [| by eapply seen_frame]. apply (ppi_ok_frame L P P' _ Hfr). destruct Hi as [Hlv Hdi Hop Hdo Hca]. split; try done.
    intros x Hx. rewrite HJ0 in Hx. by apply HJ.
  - split; [done |]. destruct Ht as [_ Ht]. destruct vi; simpl in *; naive_solver.
Qed.

Lemma kother_ok n x b : kinv n → ∃ n', kstep wi h_done pool others n (KOther x b) = Some n' ∧ kinv n'.
Proof using HJ Hpool Hnames Hoth.
  intros (vi & vo & P & Hw & Ht). cbn [kstep]. case_decide as Hx; [| exists n; split; [done |]; by exists vi, vo, P]. destruct (Hoth x Hx) as [Hd HxJ].
  assert (x ∈ dom (klive (ppc n))) as Hd'. { unfold klive. destruct (ppc_output (ppc n)); [rewrite dom_with_jobs; set_solver | done]. }
  destruct (job_toggle_ok (kgroup n) _ P x b (k_queue _ _ _ _ _ Hw) Hd') as (g' & P' & -> & Hq' & HP').
  rewrite option_bind_Some. eexists. split; [reflexivity |]. exists vi, vo, P'. split; [| exact Ht]. eapply kwires_frame; [exact Hq' | exact Hw |].
  intros y Hy. apply HP'. intros ->. destruct Hy as [Hy | (out & Eo & Hy)]; [done |]. cbn [ppc] in Eo. pose proof (k_out _ _ _ _ _ Hw) as Ho. rewrite Eo in Ho.
  destruct Ho as (wo & _ & _ & _ & _ & _ & Hfp). destruct (pool_apart out x Hfp Hy) as [HN _]. apply elem_of_dom in Hd as [h Hh]. congruence.
Qed.

(** A new output, and the packet that is kept is sent to it. *)
Lemma connect_ok w g o out vi P bl sv ab : kwires g o vi VIdle P → link vi VIdle o ab bl sv → ppc_output o = None → from_pool pool out → w_mtu wi ≤ w_mtu w → 0 ≤ w_mtu wi →
  ∃ g1 out1 out2 g2 o2 vo P2, PacketPassInterface_Init g out (w_mtu w) (w_operation w) = Some (g1, out1) ∧
    match w_cancel w with Some h => PacketPassInterface_EnableCancel out1 h | None => Some out1 end = Some out2 ∧
    PacketPassConnector_ConnectOutput g1 o out2 h_done = Some (g2, o2) ∧ kwires g2 o2 vi vo P2 ∧ link vi vo o2 ab bl sv.
Proof using HJ Hpool Hnames Hoth.
  intros [Hq Hi Hwi Hs _ HJ0 Hm] Ht Eo Hfp Hmw Hm0. unfold klive in *. rewrite Eo in *. set (wo := mk_wiring (w_mtu w) (w_operation w) (w_cancel w) h_done).
  destruct (ppi_setup_ok wo g L P out Hq) as (g1 & out3 & E1 & HK & Hq1 & Ho & How & Hos); [simpl; lia | apply Hfp | intros x Hx; by apply (pool_apart out) |].
  unfold ppi_setup in E1. apply bind_Some in E1 as ([g1' out1] & Ei & E1). apply bind_Some in E1 as (out2 & Ec & E1).
  apply bind_Some in E1 as (out3' & Es & [= -> ->]). exists g1, out1, out2. simpl in Ei, Ec, Es.
  assert (PacketPassInterface_GetMTU out2 = w_mtu w) as Hget.
  { unfold PacketPassInterface_Sender_Init in Es. apply bind_Some in Es as (_ & _ & [= <-]). by destruct How as (Hx & _). }
  set (o1 := o <| ppc_output := Some out3 |>).
  assert (klive o1 = with_jobs L (rev (ppi_jobs out))) as El by (change (klive o1) with (with_jobs L (rev (ppi_jobs out3))); by rewrite HK).
  assert (kwires g1 o1 vi VIdle P) as Hw1.
  { split; rewrite ?El; unfold o1; cbn [set ppc_eta ppc_input ppc_output ppc_input_mtu]; try done.
    - destruct Hi as [Hlv Hdi Hop Hdo Hca]. split; try done. intros x Hx. rewrite with_jobs_other; [by apply Hlv |].
      rewrite elem_of_rev. intros Hy. rewrite HJ0 in Hx. by destruct (pool_apart out x Hfp Hy).
    - exists wo. split_and!; try done. by apply (from_pool_same out). }
  unfold PacketPassConnector_ConnectOutput. rewrite Eo, Hget, Hm, !ASSERT_seq; [| by apply Z.leb_le | done]. rewrite Es, option_bind_Some.
  change (ppc_in_len (o <| ppc_output := Some out3 |>)) with (ppc_in_len o). change (ppc_in (o <| ppc_output := Some out3 |>)) with (ppc_in o).
  destruct (Z.leb_spec 0 (ppc_in_len o)) as [Hl | Hl].
  - destruct Ht as [Hb Ht]. destruct vi as [| ? ? | c t |]; [lia | lia | | lia]. destruct Ht as (-> & Hab & Hlen & Hnn & _).
    rewrite <- El in Hq1, Ho. destruct (ppi_send_ok wo g1 _ P out3 (ppc_in o) (ppc_in_len o) Hq1 Ho How Hos) as (g2 & out4 & -> & Ha); [simpl; lia | done |].
    rewrite option_bind_Some.
    destruct (kwires_out wo _ _ o1 _ _ _ _ _ _ P Hw1 eq_refl ltac:(by apply (from_pool_same out)) eq_refl Hmw ltac:(done) Ha) as [P' Hw'].
    eexists _, _, (VSent (ppc_in o) (ppc_in_len o)), P'. split; [done |]. split; [done |]. split; [reflexivity |]. split; [exact Hw' |].
    split; [exact Hb |]. done.
  - exists g1, o1, VIdle, P. split; [done |]. split; [done |]. split; [reflexivity |]. split; [exact Hw1 |]. destruct Ht as [Hb Ht]. split; [exact Hb |].
    destruct vi as [| ? ? | c t |]; simpl in *; [done | done | | done]. destruct Ht as (_ & _ & Hx & _). lia.
Qed.

(** A job of the input. *)
Lemma kin_job_ok n i c vi vi' vo g' P' : link vi vo (ppc n) (above n) (below n) (served n) →
  expected wi vi c = Some vi' → kwires g' ((ppc n) <| ppc_input := i |>) vi' vo P' →
  ∃ n', kin_call wi (mk_knet g' ((ppc n) <| ppc_input := i |>) (above n) (below n) (served n)) c = Some n' ∧ kinv n'.
Proof using HJ Hpool Hnames Hoth.
  intros [Hb Ht] Eex Hw. destruct vi as [| d l | [] [] |], c as [h d' l' | | h | h |]; simpl in Eex; try done; case_decide as Hd; simplify_eq; unfold kin_call.
  - destruct Hd as (-> & -> & ->), Ht as (Hab & -> & Hlen & Hl & Hnn). rewrite ASSERT_seq by (by apply bool_decide_eq_true). cbn [kgroup ppc above below served].
    unfold ppc_input_handler_send. pose proof (k_mtu _ _ _ _ _ Hw) as Hm. rewrite Hm.
    rewrite !ASSERT_seq; [| apply Z.eqb_eq; exact Hlen | apply Z.leb_le; lia | apply Z.leb_le; lia].
    set (o1 := (ppc n) <| ppc_input := i |> <| ppc_in_len := l |> <| ppc_in := d |>). change (ppc_output (ppc n)) with (ppc_output o1).
    assert (kwires g' o1 (VWorking false false) VIdle P') as Hw1 by (by eapply kwires_ext; [| | | exact Hw]).
    destruct (ppc_output o1) as [out |] eqn:Eo.
    + pose proof (k_out _ _ _ _ _ Hw1) as Ho. rewrite Eo in Ho. destruct Ho as (wo & Ho & How & Hos & Hd & Hmo & Hfp).
      destruct (ppi_send_ok wo g' _ P' out d l (k_queue _ _ _ _ _ Hw1) Ho How Hos) as (g2 & out4 & E & Ha); [lia | done |].
      change (ppc_in o1) with d. change (ppc_in_len o1) with l. rewrite E, !option_bind_Some.
      destruct (kwires_out wo _ _ o1 _ _ _ _ _ _ P' Hw1 Eo Hfp Hd Hmo ltac:(done) Ha) as [P2 Hw2].
      eexists. split; [reflexivity |]. exists (VWorking false false), (VSent d l), P2. split; [exact Hw2 |]. by rewrite Hab.
    + rewrite option_bind_Some. eexists. split; [reflexivity |]. exists (VWorking false false), VIdle, P'. split; [exact Hw1 |]. split; [done |].
      by rewrite Hab.
  - by destruct Ht.
  - destruct Ht as (Hab & -> & Hlen & Hsv). rewrite ASSERT_seq by (cbn [above served]; by rewrite Hab, Hsv, bool_decide_eq_true_2). eexists. split; [reflexivity |].
    exists VIdle, VIdle, P'. split; [exact Hw |]. done.
Qed.

(** A job of the output. *)
Lemma kout_job_ok wo n out out' c vi vo vo' g' P' : link vi vo (ppc n) (above n) (below n) (served n) → ppc_output (ppc n) = Some out' →
  expected wo vo c = Some vo' → w_done wo = h_done → kwires g' ((ppc n) <| ppc_output := Some out |>) vi vo' P' →
  ∃ n', kout_call h_done (mk_knet g' ((ppc n) <| ppc_output := Some out |>) (above n) (below n) (served n)) c = Some n' ∧ kinv n'.
Proof using HJ Hpool Hnames Hoth.
  intros [Hb Ht] Eo Eex Hdn Hw. assert (∃ ci ti, vi = VWorking ci ti) as (ci & ti & ->).
  { destruct vi as [| | ci ti |]; [| | by eauto |]; assert (vo = VIdle) as -> by naive_solver; by destruct c. }
  destruct Ht as (-> & Hab & Hl & Hnn & Ht).
  destruct vo as [| d l | [] [] |], c as [h d' l' | | h | h |]; simpl in Eex; try done; case_decide as Hd; simplify_eq; unfold kout_call.
  - destruct Hd as (_ & -> & ->). rewrite ASSERT_seq by (cbn [above below]; by rewrite Hb, Hab, bool_decide_eq_true_2).
    eexists. split; [reflexivity |]. exists (VWorking false ti), (VWorking false false), P'. split; [exact Hw |]. done.
  - rewrite ASSERT_seq by (by apply bool_decide_eq_true). cbn [kgroup ppc above below served]. unfold ppc_output_handler_done.
    rewrite !ASSERT_seq; [| done | apply Z.leb_le; cbn; lia].
    set (o1 := (ppc n) <| ppc_output := Some out |> <| ppc_in_len := -1 |>).
    assert (kwires g' o1 (VWorking false ti) VIdle P') as Hw1 by (by eapply kwires_ext; [| | | exact Hw]).
    destruct (ppi_finish_ok wi g' _ P' (ppc_input o1) (k_queue _ _ _ _ _ Hw1)) as (g2 & i & -> & Ha); [apply Hw1 | apply Hw1 | apply (k_iseen _ _ _ _ _ Hw1) |].
    rewrite !option_bind_Some. destruct (kwires_in _ _ _ _ _ _ _ _ P' Hw1 ltac:(done) Ha) as [P2 Hw2]. eexists. split; [reflexivity |].
    exists VEnding, VIdle, P2. split; [exact Hw2 |]. cbn. by rewrite Hb, Hab, Ht.
Qed.

Lemma ppc_input_same o : o <| ppc_input := ppc_input o |> = o.
Proof. by destruct o. Qed.
Lemma ppc_output_same o out : ppc_output o = Some out → o <| ppc_output := Some out |> = o.
Proof. destruct o. cbn. by intros ->. Qed.

Lemma minus_other P x y : y ≠ x → (y ∈ P ∖ {[x]} ↔ y ∈ P).
Proof. rewrite elem_of_difference, elem_of_singleton. tauto. Qed.

(** A job is of the input, of the output, or of another object. *)
Lemma klive_other o vi vo P g x h : kwires g o vi vo P → klive o !! x = Some h → (x ∉ J) →
  (h ∉ J) ∧ ((∃ out, ppc_output o = Some out ∧ x ∈ ppi_jobs out ∧ h = x) ∨ ∀ out, ppc_output o = Some out → (x ∉ ppi_jobs out) ∧ h ∉ ppi_jobs out).
Proof using HJ Hpool Hnames Hoth.
  intros Hw Hx HxJ. pose proof (k_out _ _ _ _ _ Hw) as Ho. unfold klive in Hx. destruct (ppc_output o) as [out |].
  - destruct Ho as (wo & _ & _ & _ & _ & _ & Hfp). apply with_jobs_lookup in Hx as [[Hx%elem_of_rev ->] | Hx].
    + split; [done |]. left. by exists out.
    + destruct (Hnames x h Hx) as [Hp Hj]. split; [by apply Hj |]. right. intros ? [= <-]. split; intros Hy.
      * destruct (pool_apart out x Hfp Hy) as [HN _]. congruence.
      * destruct Hfp as [_ Hfp]. rewrite Forall_forall in Hfp. by apply Hp, Hfp.
  - destruct (Hnames x h Hx) as [Hp Hj]. split; [by apply Hj |]. right. done.
Qed.

Lemma knext_ok n : kinv n → ∃ n', knext wi h_done n = Some n' ∧ kinv n'.
Proof using HJ Hpool Hnames Hoth.
  intros (vi & vo & P & Hw & Ht). unfold knext. pose proof (k_J _ _ _ _ _ Hw) as HJ0.
  destruct (next_job_ok (kgroup n) _ P (k_queue _ _ _ _ _ Hw)) as [(-> & g' & -> & Hq') | (x & h & g' & Hx & Hh & -> & Hq')]; rewrite option_bind_Some.
  { eexists. split; [reflexivity |]. exists vi, vo, ∅. split; [by eapply kwires_frame; [exact Hq' | exact Hw |] | done]. }
  destruct (decide (x ∈ J)) as [HxJ | HxJ].
  - rewrite (o_live _ _ _ (k_in _ _ _ _ _ Hw) x) in Hh by congruence. injection Hh as <-.
    destruct (ppi_job_ok wi g' _ P (ppc_input (ppc n)) vi x Hq') as (i & c & vi' & -> & Eex & Ha); [apply Hw | apply Hw | apply Hw | done | congruence |].
    rewrite option_bind_Some. destruct (kwires_in _ _ _ _ _ _ _ _ (P ∖ {[x]}) Hw ltac:(intros y Hy; apply minus_other; by intros ->) Ha) as [P' Hw'].
    by apply kin_job_ok with vi vi' vo P'.
  - destruct (klive_other _ _ _ _ _ x h Hw Hh HxJ) as [HhJ Hc]. rewrite ppi_job_other by congruence. rewrite option_bind_Some, ppc_input_same.
    assert (kinv (mk_knet g' (ppc n) (above n) (below n) (served n)) ∨ ∃ out, ppc_output (ppc n) = Some out ∧ x ∈ ppi_jobs out ∧ h = x) as Hkeep.
    { destruct Hc as [Hc | Hc]; [by right |]. left. exists vi, vo, (P ∖ {[x]}). split; [| done]. eapply kwires_frame; [exact Hq' | exact Hw |].
      intros y Hy. apply minus_other. intros ->. destruct Hy as [Hy | (out & Eo & Hy)]; [done |]. by destruct (Hc out Eo). }
    destruct (ppc_output (ppc n)) as [out |] eqn:Eo; [| destruct Hkeep as [Hk | (out & ? & _)]; [by eauto | done]].
    destruct Hc as [(? & [= <-] & Hxo & ->) | Hc].
    + pose proof (k_out _ _ _ _ _ Hw) as Ho. rewrite Eo in Ho. destruct Ho as (wo & Ho & How & Hos & Hd & Hm & Hfp).
      destruct (ppi_job_ok wo g' _ P out vo x Hq' Ho How Hos Hx Hxo) as (out' & c & vo' & -> & Eex & Ha). rewrite option_bind_Some.
      destruct (kwires_out wo _ _ _ _ _ _ _ _ _ (P ∖ {[x]}) Hw Eo Hfp Hd Hm ltac:(intros y Hy; apply minus_other; by intros ->) Ha) as [P' Hw'].
      by apply kout_job_ok with wo out vi vo vo' P'.
    + destruct (Hc out eq_refl) as [Hno Hho]. rewrite ppi_job_other by done. rewrite option_bind_Some, (ppc_output_same _ _ Eo).
      destruct Hkeep as [Hk | (? & [= <-] & ? & _)]; [by eauto | done].
Qed.

Context (Hm0 : 0 ≤ w_mtu wi).

Lemma kconnect_ok n w out : kinv n → ∃ n', kstep wi h_done pool others n (KConnect w out) = Some n' ∧ kinv n'.
Proof using HJ Hpool Hnames Hoth Hm0.
  intros (vi & vo & P & Hw & Ht). cbn [kstep]. case_decide as Hx; [| exists n; split; [done |]; by exists vi, vo, P]. destruct Hx as (Eo & Hfp & Hmw).
  assert (vo = VIdle) as -> by (pose proof (k_out _ _ _ _ _ Hw) as Ho; by rewrite Eo in Ho).
  destruct (connect_ok w _ _ out vi P _ _ _ Hw Ht Eo Hfp Hmw Hm0) as (g1 & out1 & out2 & g2 & o2 & vo & P2 & -> & E2 & E3 & Hw2 & Ht2).
  rewrite option_bind_Some, E2, option_bind_Some, E3, option_bind_Some. eexists. split; [reflexivity |]. by exists vi, vo, P2.
Qed.

Lemma krun_ok es : ∀ n, kinv n → ∃ n', krun wi h_done pool others n es = Some n' ∧ kinv n'.
Proof using HJ Hpool Hnames Hoth Hm0.
  induction es as [| e es IH]; intros n Hn; [by exists n |].
  assert (∃ n1, kstep wi h_done pool others n e = Some n1 ∧ kinv n1) as (n1 & E & Hn1)
    by (destruct e; [by apply ksend_ok | by apply kconnect_ok | by apply kdisconnect_ok | by apply kfinish_ok | by apply knext_ok | by apply kother_ok]).
  destruct (IH n1 Hn1) as (n2 & E2 & Hn2). exists n2. split; [| done]. unfold krun in *. simpl. by rewrite E.
Qed.

End proofs.

(** ** The theorem *)

Section theorem.
Context {G : Type} `{JobQueue G}.
Implicit Types (L : gmap addr nat) (P : gset addr) (o : PacketPassConnector).

(** The connector is created and its input is given to the sender. *)
Definition knet_setup (wi : wiring) (g : G) o : option (knet G) :=
  '(g, o) ← PacketPassConnector_Init g o (w_mtu wi) (w_operation wi);
  i ← PacketPassInterface_Sender_Init (PacketPassConnector_GetInput o) (w_done wi);
  Some (mk_knet g (o <| ppc_input := i |>) None false false).

Definition ppc_jobs o : list addr := ppi_jobs (ppc_input o).

Lemma with_jobs_self L J x : x ∈ J → with_jobs L J !! x = Some x.
Proof.
  induction J as [| y J IH]; intros Hx; [by apply elem_of_nil in Hx |]. simpl. destruct (decide (y = x)) as [-> | Hne]; [by rewrite lookup_insert_eq |].
  rewrite lookup_insert_ne by done. apply IH. by apply elem_of_cons in Hx as [-> |].
Qed.

Lemma knet_setup_ok wi h_done pool (g : G) L P o : queue g L P → 0 ≤ w_mtu wi → w_cancel wi = None → NoDup (ppc_jobs o) →
  (∀ x, x ∈ ppc_jobs o → L !! x = None) →
  ∃ n, knet_setup wi g o = Some n ∧ kinv wi h_done pool (with_jobs L (rev (ppc_jobs o))) (ppc_jobs o) n.
Proof.
  intros Hq Hm Hc Hnd Hf. destruct (ppi_setup_ok wi g L P (ppc_input o) Hq Hm Hnd Hf) as (g1 & i & E & HJ & Hq1 & Hi & Hw & Hs).
  unfold ppi_setup in E. rewrite Hc in E. apply bind_Some in E as ([g1' i0] & Ei & E). rewrite option_bind_Some in E.
  apply bind_Some in E as (i1 & Es & [= -> ->]). unfold knet_setup, PacketPassConnector_Init, PacketPassConnector_GetInput. rewrite ASSERT_seq by (by apply Z.leb_le).
  cbn [set ppc_eta ppc_input ppc_output ppc_input_mtu ppc_in_len ppc_in]. rewrite Ei, !option_bind_Some.
  cbn [set ppc_eta ppc_input ppc_output ppc_input_mtu ppc_in_len ppc_in]. rewrite Es, option_bind_Some. eexists. split; [reflexivity |].
  exists VIdle, VIdle, P. split; [| done]. split; try done.
Qed.

(** What the invariant says to the outside. *)
Lemma kinv_progress wi h_done pool L J (n : knet G) : kinv wi h_done pool L J n →
  ∃ P, queue (kgroup n) (klive L (ppc n)) P ∧ ppi_ok (klive L (ppc n)) P (ppc_input (ppc n)) ∧ ppi_jobs (ppc_input (ppc n)) = J ∧
    (is_set (above n) = true → below n = true ∨
      (∃ x, (x ∈ J ∨ ∃ out, ppc_output (ppc n) = Some out ∧ x ∈ ppi_jobs out) ∧ x ∈ P) ∨
      ppc_output (ppc n) = None ∧ above n = Some (ppc_in (ppc n), ppc_in_len (ppc n))).
Proof.
  intros (vi & vo & P & [Hq Hi Hw Hs Ho HJ Hm] & Hb & Ht). exists P. split; [done |]. split; [done |]. split; [done |]. intros Hab.
  pose proof Hi as [_ _ Hop Hdo _]. destruct vi as [| d l | c t |]; simpl in Hs.
  - destruct Ht as [Hx _]. by rewrite Hx in Hab.
  - right. left. exists (ppi_job_operation (ppc_input (ppc n))). split; [left; rewrite <- HJ; unfold ppi_jobs; rewrite !elem_of_cons; tauto | by apply Hop, Hs].
  - destruct Ht as (_ & Ha & _ & _ & Ht). destruct (ppc_output (ppc n)) as [out |]; [| by right; right].
    destruct Ho as (wo & Ho & _ & Hos & _). pose proof Ho as [_ _ Hoop Hodo _]. destruct vo as [| d l | c' t' |]; [done | | by left |]; right; left.
    + exists (ppi_job_operation out). split; [| by apply Hoop, Hos]. right. exists out. split; [done |]. unfold ppi_jobs. rewrite !elem_of_cons. tauto.
    + exists (ppi_job_done out). split; [| by apply Hodo]. right. exists out. split; [done |]. unfold ppi_jobs. rewrite !elem_of_cons. tauto.
  - right. left. exists (ppi_job_done (ppc_input (ppc n))). split; [left; rewrite <- HJ; unfold ppi_jobs; rewrite !elem_of_cons; tauto | by apply Hdo].
Qed.

End theorem.

(** The connector with outputs that come and go, in any group of jobs: no
    assertion of the connector, of its interfaces or of the queue fails; a provider
    that is free is given the packet the sender has on the way, and a packet that was
    in progress when its output went away is given to the next one; the sender hears
    of the end of a packet once, and only after a provider finished it. While a packet
    is on the way, a provider works on it, or a job that carries it on is set, or it is
    kept for the output that is not there yet. A connector without an output can be
    freed, which leaves the jobs of the others. *)
Theorem packet_connector {G} `{JobQueue G} wi h_done (g : G) L P o pool others es :
  queue g L P → 0 ≤ w_mtu wi → w_cancel wi = None → NoDup (ppc_jobs o) → (∀ x, x ∈ ppc_jobs o → L !! x = None ∧ x ∉ pool) →
  (∀ x, x ∈ pool → L !! x = None) → others ⊆ dom L → (∀ x h, L !! x = Some h → (h ∉ ppc_jobs o) ∧ h ∉ pool) →
  ∃ n0 n P', knet_setup wi g o = Some n0 ∧ krun wi h_done pool others n0 es = Some n ∧
    queue (kgroup n) (klive (with_jobs L (rev (ppc_jobs o))) (ppc n)) P' ∧
    (is_set (above n) = true → below n = true ∨
      (∃ x, (x ∈ ppc_jobs o ∨ ∃ out, ppc_output (ppc n) = Some out ∧ x ∈ ppi_jobs out) ∧ x ∈ P') ∨
      ppc_output (ppc n) = None ∧ above n = Some (ppc_in (ppc n), ppc_in_len (ppc n))) ∧
    (ppc_output (ppc n) = None → ∃ g', PacketPassConnector_Free (kgroup n) (ppc n) = Some g' ∧ queue g' L (P' ∖ list_to_set (ppc_jobs o))).
Proof.
  intros Hq Hm Hc Hnd HJ Hpool Hsub Hn. destruct (knet_setup_ok wi h_done pool g L P o Hq Hm Hc Hnd) as (n0 & E0 & Hi0); [intros x Hx; by apply HJ |].
  set (L1 := with_jobs L (rev (ppc_jobs o))) in *.
  destruct (krun_ok wi h_done pool others L1 (ppc_jobs o)) with (es := es) (n := n0) as (n & E & Hi); try done.
  - intros x Hx. split; [| by apply HJ]. apply with_jobs_self. by rewrite elem_of_rev.
  - intros x Hx. unfold L1. rewrite with_jobs_other; [by apply Hpool |]. rewrite elem_of_rev. intros Hj. by destruct (HJ x Hj).
  - intros x h [[Hx%elem_of_rev ->] | Hx]%with_jobs_lookup; [by split; [apply HJ |] |]. destruct (Hn x h Hx). by split.
  - intros x Hx. split; [unfold L1; rewrite dom_with_jobs; set_solver |]. intros Hj. destruct (HJ x Hj) as [HN _]. apply Hsub, elem_of_dom in Hx as [h Hx]. congruence.
  - destruct (kinv_progress _ _ _ _ _ n Hi) as (P' & Hq' & Hi' & HJ' & Hp). exists n0, n, P'. split_and!; try done. intros Eo. unfold PacketPassConnector_Free.
    destruct (ppi_free_ok _ _ _ _ Hq' Hi') as (g' & E' & Hq2). exists g'. split; [done |]. unfold klive in Hq2. rewrite Eo, HJ' in Hq2.
    unfold L1, ppc_jobs in Hq2. rewrite forget_jobs in Hq2; [done | done | intros x Hx; by apply HJ].
Qed.

(** A packet is sent while there is no output, is lost by the first provider and sent
    by the second one. *)
Definition wit_kwi : wiring := mk_wiring 1500 30 None 32.
Definition wit_ppc : PacketPassConnector := mk_ppc (mk_ppi 0 0 None None 1 0 0 2 3 STATE_NONE false) 0 0 0 None.
Definition wit_kout (a b c : addr) : PacketPassInterface := mk_ppi 9 9 None None a 9 9 b c STATE_BUSY true.
Definition wit_kevents : list kevent :=
  [KSend 4096 100; KNext; KConnect (mk_wiring 1500 40 None 0) (wit_kout 4 5 6); KNext; KDisconnect;
   KConnect (mk_wiring 2000 50 (Some 51%nat) 0) (wit_kout 7 8 9); KNext; KFinish; KNext; KNext; KSend 8192 0; KDisconnect; KNext].

Lemma packet_connector_witness : ∃ n0 n P',
  knet_setup wit_kwi BPendingGroup_Init wit_ppc = Some n0 ∧ krun wit_kwi 42 {[4; 5; 6; 7; 8; 9]}%nat ∅ n0 wit_kevents = Some n ∧
  above n = Some (8192, 0) ∧ ppc_in (ppc n) = 8192 ∧ ∃ g', PacketPassConnector_Free (kgroup n) (ppc n) = Some g' ∧ queue g' ∅ (P' ∖ {[1; 2; 3]})%nat.
Proof.
  destruct (packet_connector wit_kwi 42 BPendingGroup_Init ∅ ∅ wit_ppc {[4; 5; 6; 7; 8; 9]}%nat ∅ wit_kevents wit_queue)
    as (n0 & n & P' & E0 & E & _ & _ & Hf).
  - vm_compute. discriminate.
  - reflexivity.
  - apply (bool_decide_unpack (NoDup [1; 2; 3]%nat)). vm_compute. exact I.
  - intros x Hx. split; [reflexivity |]. revert x Hx. apply Forall_forall. apply (bool_decide_unpack (Forall (λ x : nat, x ∉ ({[4; 5; 6; 7; 8; 9]}%nat : gset addr)) [1; 2; 3]%nat)). vm_compute. exact I.
  - intros x _. reflexivity.
  - set_solver.
  - intros x h Hx. discriminate Hx.
  - assert ((knet_setup wit_kwi BPendingGroup_Init wit_ppc ≫= λ n0, krun wit_kwi 42 {[4; 5; 6; 7; 8; 9]}%nat ∅ n0 wit_kevents ≫= λ n,
             Some (above n, ppc_in (ppc n), ppc_output (ppc n))) = Some (Some (8192, 0), 8192, None)) as Ec by (vm_compute; reflexivity).
    rewrite E0, option_bind_Some, E, option_bind_Some in Ec. injection Ec as Ha Hi Ho. exists n0, n, P'. split; [exact E0 |]. split; [exact E |].
    split; [exact Ha |]. split; [exact Hi |]. destruct (Hf Ho) as (g' & Eg & Hq). exists g'. split; [exact Eg |].
    replace (P' ∖ {[1; 2; 3]}%nat) with (P' ∖ list_to_set (ppc_jobs wit_ppc)); [exact Hq |]. f_equal; vm_compute; reflexivity.
Defined.
