(* ===== verification/SinglePacketBuffer.v ===== *)
(** * The single packet buffer (flow/SinglePacketBuffer.c)

    The component receives packets from a [PacketRecvInterface] into one block of
    memory and passes them on to a [PacketPassInterface]: the packets of the device and
    the datagrams of the UDP relay reach their handlers through one. The theorem is
    about the component with both interfaces and the job queue. *)
From S2P Require Import Prelude LinkedLists BPending FlowInterfaces.

(** [spb_input] and [spb_output] are the interfaces the fields point to. *)
Record SinglePacketBuffer := mk_spb { spb_input : PacketRecvInterface; spb_output : PacketPassInterface; spb_buf : Z }.
#[export] Instance spb_eta : Eta SinglePacketBuffer := λ o, mk_spb (spb_input o) (spb_output o) (spb_buf o).

Section buffer.
Context {G : Type} `{JobQueue G}.
Implicit Types o : SinglePacketBuffer.

Definition spb_input_handler_done (g : G) o (in_len : Z) : option (G * SinglePacketBuffer) :=
  '(g, out) ← PacketPassInterface_Sender_Send g (spb_output o) (spb_buf o) in_len;
  Some (g, o <| spb_output := out |>).

Definition spb_output_handler_done (g : G) o : option (G * SinglePacketBuffer) :=
  '(g, i) ← PacketRecvInterface_Receiver_Recv g (spb_input o) (spb_buf o);
  Some (g, o <| spb_input := i |>).

(** [o] is the memory of the object with the two interfaces, [h_in] and [h_out] name its
    handlers, [alloc] is the answer of BAlloc for a block of the size of the input's
    packets, null if there is no memory. The result is that of the function. *)
Definition SinglePacketBuffer_Init (g : G) o (h_in h_out : nat) (alloc : Z) : option (G * SinglePacketBuffer * bool) :=
  ASSERT (PacketRecvInterface_GetMTU (spb_input o) <=? PacketPassInterface_GetMTU (spb_output o));;
  i ← PacketRecvInterface_Receiver_Init (spb_input o) h_in;
  out ← PacketPassInterface_Sender_Init (spb_output o) h_out;
  let o := o <| spb_input := i |> <| spb_output := out |> <| spb_buf := alloc |> in
  if spb_buf o =? 0 then Some (g, o, false)
  else
    '(g, i) ← PacketRecvInterface_Receiver_Recv g (spb_input o) (spb_buf o);
    Some (g, o <| spb_input := i |>, true).

(** The block that is given back. *)
Definition SinglePacketBuffer_Free o : Z := spb_buf o.

(** ** The buffer between its neighbours *)

(** The provider of the input receives to [sin] and has received [got]; the provider of
    the output works on [sout] and has used [given]. *)
Record snet := mk_snet { sgroup : G; spb : SinglePacketBuffer; smem : bytes; sin : option Z; got : list bytes; sout : option (Z * Z); given : list bytes }.

Definition with_spb (n : snet) (g : G) o : snet := mk_snet g o (smem n) (sin n) (got n) (sout n) (given n).

(** The input gets a packet; the provider of the output reads the packet once more and
    ends its work; the next job; another object sets or unsets a job of its own. *)
Inductive sevent := SGive (data : bytes) | SFinish | SNext | SOther (o : addr) (b : bool).

Context (wr wo : wiring) (others : gset addr).

Definition sin_call (n : snet) (c : icall) : option snet :=
  match c with
  | CallRecv h d =>
      ASSERT (bool_decide (h = w_operation wr) && negb (is_set (sin n)));;
      Some (mk_snet (sgroup n) (spb n) (smem n) (Some d) (got n) (sout n) (given n))
  | CallDoneLen h l =>
      ASSERT (bool_decide (h = w_done wr));; '(g, o) ← spb_input_handler_done (sgroup n) (spb n) l; Some (with_spb n g o)
  | _ => None
  end.

Definition sout_call (n : snet) (c : icall) : option snet :=
  match c with
  | CallSend h d l =>
      ASSERT (bool_decide (h = w_operation wo) && negb (is_set (sout n)));;
      Some (mk_snet (sgroup n) (spb n) (smem n) (sin n) (got n) (Some (d, l)) (given n))
  | CallDone h =>
      ASSERT (bool_decide (h = w_done wo));; '(g, o) ← spb_output_handler_done (sgroup n) (spb n); Some (with_spb n g o)
  | _ => None
  end.

Definition snext (n : snet) : option snet :=
  '(g, h) ← next_job (sgroup n);
  match h with
  | None => Some (with_spb n g (spb n))
  | Some h =>
      '(i, c) ← pri_job (spb_input (spb n)) h;
      let n := with_spb n g ((spb n) <| spb_input := i |>) in
      match c with
      | Some c => sin_call n c
      | None =>
          '(out, c) ← ppi_job (spb_output (spb n)) h;
          let n := with_spb n g ((spb n) <| spb_output := out |>) in
          match c with Some c => sout_call n c | None => Some n end
      end
  end.

(** The provider of the input stores no more than the size of the interface, and that
    must be inside of the block of the buffer. *)
Definition sstep (n : snet) (e : sevent) : option snet :=
  match e with
  | SGive data =>
      match sin n with
      | Some d =>
          if zlen data <=? w_mtu wr then
            ASSERT ((spb_buf (spb n) <=? d) && (d + zlen data <=? spb_buf (spb n) + w_mtu wr));;
            '(g, i) ← PacketRecvInterface_Done (sgroup n) (spb_input (spb n)) (zlen data);
            Some (mk_snet g ((spb n) <| spb_input := i |>) (mem_write (smem n) d data) None (got n ++ [data]) (sout n) (given n))
          else Some n
      | None => Some n
      end
  | SFinish =>
      match sout n with
      | Some (d, l) =>
          '(g, out) ← PacketPassInterface_Done (sgroup n) (spb_output (spb n));
          Some (mk_snet g ((spb n) <| spb_output := out |>) (smem n) (sin n) (got n) None (given n ++ [mem_read (smem n) d l]))
      | None => Some n
      end
  | SNext => snext n
  | SOther x b =>
      if decide (x ∈ others) then
        g ← (if (b : bool) then job_set (sgroup n) x else job_unset (sgroup n) x); Some (with_spb n g (spb n))
      else Some n
  end.

Definition srun (n : snet) (es : list sevent) : option snet := foldl (λ n e, n ≫= λ n, sstep n e) (Some n) es.

End buffer.
Arguments snet : clear implicits.

Section proofs.
Context {G : Type} `{JobQueue G}.
Context (wr wo : wiring) (L : gmap addr nat) (J K : list addr) (base : Z).
Implicit Types (n : snet G) (o : SinglePacketBuffer) (P : gset addr).

(** The queue and the two interfaces, with the jobs [J] and [K]. *)
Record swires (g : G) o (vi : rview) (vo : view) P : Prop := {
  w_queue : queue g L P;
  w_in : pri_ok L P (spb_input o);
  w_iwired : rwired wr (spb_input o);
  w_iseen : rseen vi (spb_input o);
  w_out : ppi_ok L P (spb_output o);
  w_owired : wired wo (spb_output o);
  w_oseen : seen vo P (spb_output o);
  w_J : pri_jobs (spb_input o) = J;
  w_K : ppi_jobs (spb_output o) = K;
  w_buf : spb_buf o = base
}.

Definition fits (l : Z) : Prop := 0 ≤ l ≤ w_mtu wr.

(** One operation at a time, and at most one packet in the block. *)
Definition phase (vi : rview) (vo : view) n : Prop :=
  match vi, vo with
  | RAsked d, VIdle => d = base ∧ sin n = None ∧ sout n = None ∧ got n = given n
  | RWorking d, VIdle => d = base ∧ sin n = Some base ∧ sout n = None ∧ got n = given n
  | REnding l, VIdle => sin n = None ∧ sout n = None ∧ fits l ∧ got n = given n ++ [mem_read (smem n) base l]
  | RIdle, VSent d l => d = base ∧ sin n = None ∧ sout n = None ∧ fits l ∧ got n = given n ++ [mem_read (smem n) base l]
  | RIdle, VWorking c _ => c = false ∧ sin n = None ∧ ∃ l, sout n = Some (base, l) ∧ fits l ∧ got n = given n ++ [mem_read (smem n) base l]
  | RIdle, VEnding => sin n = None ∧ sout n = None ∧ got n = given n
  | _, _ => False
  end.

Definition sinv n : Prop := base + w_mtu wr ≤ zlen (smem n) ∧ ∃ vi vo P, swires (sgroup n) (spb n) vi vo P ∧ phase vi vo n.

Context (others : gset addr) (Hap : jobs_apart L J K others) (Hmtu : w_mtu wr ≤ w_mtu wo) (Hbase : 0 < base).

(** An interface changed; the other one did not. *)
Lemma swires_in g g' o i vi vi' vo P P0 : swires g o vi vo P → (∀ x, x ∈ K → (x ∈ P0 ↔ x ∈ P)) → pri_after wr L P0 (spb_input o) vi' g' i →
  ∃ P', swires g' (o <| spb_input := i |>) vi' vo P'.
Proof using Hap.
  intros [Hq Hi Hw Hs Ho How Hos HJ0 HK0 Hb] H0 (P' & Hq' & Hi' & Hw' & Hs' & HJ & HP). destruct Hap as (HJK & _). exists P'.
  assert (∀ x, x ∈ ppi_jobs (spb_output o) → (x ∈ P' ↔ x ∈ P)) as Hfr.
  { intros x Hx. rewrite HK0 in Hx. rewrite <- (H0 x Hx). apply HP. rewrite HJ0. intros Hj. by apply (HJK x Hj). }
  split; simpl; try done; [by eapply ppi_ok_frame | by eapply seen_frame | congruence].
Qed.

Lemma swires_out g g' o out vi vo vo' P P0 : swires g o vi vo P → (∀ x, x ∈ J → (x ∈ P0 ↔ x ∈ P)) → ppi_after wo L P0 (spb_output o) vo' g' out →
  ∃ P', swires g' (o <| spb_output := out |>) vi vo' P'.
Proof using Hap.
  intros [Hq Hi Hw Hs Ho How Hos HJ0 HK0 Hb] H0 (P' & Hq' & Hi' & Hw' & Hs' & HK & HP). destruct Hap as (HJK & _). exists P'.
  assert (∀ x, x ∈ pri_jobs (spb_input o) → (x ∈ P' ↔ x ∈ P)) as Hfr.
  { intros x Hx. rewrite HJ0 in Hx. rewrite <- (H0 x Hx). apply HP. rewrite HK0. by apply HJK. }
  split; simpl; try done; [by eapply pri_ok_frame | congruence].
Qed.

Lemma swires_frame g g' o vi vo P P' : queue g' L P' → (∀ x, x ∈ J ∨ x ∈ K → (x ∈ P' ↔ x ∈ P)) → swires g o vi vo P → swires g' o vi vo P'.
Proof.
  intros Hq HP []. assert (∀ x, x ∈ pri_jobs (spb_input o) → (x ∈ P' ↔ x ∈ P)) by (intros x Hx; apply HP; left; congruence).
  assert (∀ x, x ∈ ppi_jobs (spb_output o) → (x ∈ P' ↔ x ∈ P)) by (intros x Hx; apply HP; right; congruence).
  split; try done; [by eapply pri_ok_frame | by eapply ppi_ok_frame | by eapply seen_frame].
Qed.

Lemma sgive_ok n data : sinv n → ∃ n', sstep wr wo others n (SGive data) = Some n' ∧ sinv n'.
Proof using Hap Hbase.
  intros Hn. pose proof Hn as (Hmem & vi & vo & P & Hw & Ht). cbn [sstep]. destruct (sin n) as [d |] eqn:Es; [| by exists n].
  destruct (Z.leb_spec (zlen data) (w_mtu wr)) as [Hl |]; [| by exists n].
  assert (∃ d', vi = RWorking d' ∧ vo = VIdle) as (d' & -> & ->).
  { destruct vi, vo; simpl in Ht; try done; rewrite Es in Ht; first [by eauto | naive_solver]. }
  destruct Ht as (-> & Es' & Hso & Hgg). rewrite Es' in Es. injection Es as <-. rewrite (w_buf _ _ _ _ _ Hw), ASSERT_seq by lia.
  pose proof (zlen_nonneg data) as Hl0.
  destruct (pri_finish_ok wr (sgroup n) L P (spb_input (spb n)) (zlen data)) as (g' & i & -> & Ha); [apply Hw | apply Hw | apply Hw | apply (w_iseen _ _ _ _ _ Hw) | lia |].
  rewrite option_bind_Some. destruct (swires_in _ _ _ _ _ _ _ _ P Hw ltac:(done) Ha) as [P' Hw']. eexists. split; [reflexivity |].
  split; [cbn [smem]; rewrite zlen_mem_write by lia; done |]. exists (REnding (zlen data)), VIdle, P'. split; [exact Hw' |].
  split; [done |]. split; [done |]. split; [done |]. cbn [got given smem]. rewrite mem_read_write_same by lia. by rewrite Hgg.
Qed.

Lemma sfinish_ok n : sinv n → ∃ n', sstep wr wo others n SFinish = Some n' ∧ sinv n'.
Proof using Hap.
  intros Hn. pose proof Hn as (Hmem & vi & vo & P & Hw & Ht). cbn [sstep]. destruct (sout n) as [[d l] |] eqn:Es; [| by exists n].
  assert (∃ c t, vi = RIdle ∧ vo = VWorking c t) as (c & t & -> & ->).
  { destruct vi, vo; simpl in Ht; try done; rewrite Es in Ht; first [by eauto | naive_solver]. }
  destruct Ht as (-> & Hsi & l' & Es' & Hl & Hgg). rewrite Es' in Es. injection Es as <- <-.
  destruct (ppi_finish_ok wo (sgroup n) L P (spb_output (spb n))) as (g' & out & -> & Ha); [apply Hw | apply Hw | apply Hw | apply (w_oseen _ _ _ _ _ Hw) |].
  rewrite option_bind_Some. destruct (swires_out _ _ _ _ _ _ _ _ P Hw ltac:(done) Ha) as [P' Hw']. eexists. split; [reflexivity |].
  split; [exact Hmem |]. by exists RIdle, VEnding, P'.
Qed.

(** A job of the input: the provider starts, or the packet is passed on. *)
Lemma sin_job_ok n i c vi vi' vo g' P' : base + w_mtu wr ≤ zlen (smem n) → phase vi vo n → rexpected wr vi c = Some vi' →
  swires g' ((spb n) <| spb_input := i |>) vi' vo P' →
  ∃ n', sin_call wr (with_spb n g' ((spb n) <| spb_input := i |>)) c = Some n' ∧ sinv n'.
Proof using Hap Hmtu Hbase.
  intros Hmem Ht Eex Hw. destruct vi as [| d | d | l], c as [h d' l' | h d' | h | h | h l']; simpl in Eex; try done; case_decide as Hd; simplify_eq; unfold sin_call.
  - destruct Hd as [-> ->]. destruct vo; try done. destruct Ht as (-> & Hsi & Hso & Hgg).
    rewrite ASSERT_seq by (cbn [with_spb sin]; by rewrite Hsi, bool_decide_eq_true_2). eexists. split; [reflexivity |]. split; [exact Hmem |].
    by exists (RWorking base), VIdle, P'.
  - destruct Hd as [-> ->]. destruct vo; try done. destruct Ht as (Hsi & Hso & Hl & Hgg). rewrite ASSERT_seq by (by apply bool_decide_eq_true).
    cbn [with_spb sgroup spb]. unfold spb_input_handler_done. rewrite (w_buf _ _ _ _ _ Hw). unfold fits in Hl.
    destruct (ppi_send_ok wo g' L P' (spb_output (spb n)) base l) as (g2 & out & E & Ha);
      [apply Hw | apply Hw | apply Hw | apply (w_oseen _ _ _ _ _ Hw) | lia | lia |].
    cbn [set spb_eta spb_input spb_output spb_buf]. rewrite E, !option_bind_Some.
    destruct (swires_out _ _ _ _ _ _ _ _ P' Hw ltac:(done) Ha) as [P2 Hw2]. eexists. split; [reflexivity |]. split; [exact Hmem |].
    exists RIdle, (VSent base l), P2. split; [exact Hw2 | done].
Qed.

(** A job of the output: the provider starts, or the next packet is asked for. *)
Lemma sout_job_ok n out c vi vo vo' g' P' : base + w_mtu wr ≤ zlen (smem n) → phase vi vo n → expected wo vo c = Some vo' →
  swires g' ((spb n) <| spb_output := out |>) vi vo' P' →
  ∃ n', sout_call wo (with_spb n g' ((spb n) <| spb_output := out |>)) c = Some n' ∧ sinv n'.
Proof using Hap Hbase.
  intros Hmem Ht Eex Hw. assert (vi = RIdle) as -> by (destruct vi, vo; try done; by destruct c).
  destruct vo as [| d l | [] [] |], c as [h d' l' | h d' | h | h | h l']; simpl in Eex; try done; case_decide as Hd; simplify_eq; unfold sout_call.
  - destruct Hd as (-> & -> & ->), Ht as (-> & Hsi & Hso & Hl & Hgg). rewrite ASSERT_seq by (cbn [with_spb sout]; by rewrite Hso, bool_decide_eq_true_2).
    eexists. split; [reflexivity |]. split; [exact Hmem |]. exists RIdle, (VWorking false false), P'. split; [exact Hw |]. split; [done |]. split; [done |]. by exists l.
  - by destruct Ht.
  - destruct Ht as (Hsi & Hso & Hgg). rewrite ASSERT_seq by (by apply bool_decide_eq_true). cbn [with_spb sgroup spb]. unfold spb_output_handler_done.
    rewrite (w_buf _ _ _ _ _ Hw).
    destruct (pri_recv_ok wr g' L P' (spb_input (spb n)) base) as (g2 & i & E & Ha); [apply Hw | apply Hw | apply Hw | apply (w_iseen _ _ _ _ _ Hw) | lia |].
    cbn [set spb_eta spb_input spb_output spb_buf]. rewrite E, !option_bind_Some.
    destruct (swires_in _ _ _ _ _ _ _ _ P' Hw ltac:(done) Ha) as [P2 Hw2]. eexists. split; [reflexivity |]. split; [exact Hmem |].
    exists (RAsked base), VIdle, P2. split; [exact Hw2 | done].
Qed.

Lemma spb_input_same o : o <| spb_input := spb_input o |> = o.
Proof. by destruct o. Qed.
Lemma spb_output_same o : o <| spb_output := spb_output o |> = o.
Proof. by destruct o. Qed.

Lemma snext_ok n : sinv n → ∃ n', snext wr wo n = Some n' ∧ sinv n'.
Proof using Hap Hmtu Hbase.
  intros (Hmem & vi & vo & P & Hw & Ht). pose proof Hap as (HJK & _ & _ & HnJ & HnK). unfold snext.
  destruct (next_job_ok (sgroup n) L P (w_queue _ _ _ _ _ Hw)) as [(-> & g' & -> & Hq') | (x & h & g' & Hx & Hh & -> & Hq')]; rewrite option_bind_Some.
  { eexists. split; [reflexivity |]. split; [exact Hmem |]. exists vi, vo, ∅. split; [by eapply swires_frame; [exact Hq' | | exact Hw] | done]. }
  pose proof (w_J _ _ _ _ _ Hw) as HJ. pose proof (w_K _ _ _ _ _ Hw) as HK. destruct (decide (x ∈ J)) as [HxJ | HxJ].
  - rewrite (r_live _ _ _ (w_in _ _ _ _ _ Hw) x) in Hh by congruence. injection Hh as <-.
    destruct (pri_job_ok wr g' L P (spb_input (spb n)) vi x Hq') as (i & c & vi' & -> & Eex & Ha); [apply Hw | apply Hw | apply Hw | done | congruence |].
    rewrite option_bind_Some. destruct (swires_in _ _ _ _ _ _ _ _ (P ∖ {[x]}) Hw ltac:(intros y Hy; specialize (HJK x HxJ); set_solver) Ha) as [P' Hw'].
    by apply sin_job_ok with vi vi' vo P'.
  - rewrite pri_job_other by (rewrite HJ; by eapply HnJ). rewrite option_bind_Some, spb_input_same. cbn [with_spb spb sgroup].
    destruct (decide (x ∈ K)) as [HxK | HxK].
    + rewrite (o_live _ _ _ (w_out _ _ _ _ _ Hw) x) in Hh by congruence. injection Hh as <-.
      destruct (ppi_job_ok wo g' L P (spb_output (spb n)) vo x Hq') as (out & c & vo' & -> & Eex & Ha); [apply Hw | apply Hw | apply Hw | done | congruence |].
      rewrite option_bind_Some. destruct (swires_out _ _ _ _ _ _ _ _ (P ∖ {[x]}) Hw ltac:(intros y Hy; specialize (HJK y Hy); set_solver) Ha) as [P' Hw'].
      by apply (sout_job_ok n) with vi vo vo' P'.
    + rewrite ppi_job_other by (rewrite HK; by eapply HnK). rewrite option_bind_Some, spb_output_same.
      eexists. split; [reflexivity |]. split; [exact Hmem |]. exists vi, vo, (P ∖ {[x]}). split; [| done]. eapply swires_frame; [exact Hq' | | exact Hw]. set_solver.
Qed.

Lemma srun_ok es : ∀ n, sinv n → ∃ n', srun wr wo others n es = Some n' ∧ sinv n'.
Proof using Hap Hmtu Hbase.
  induction es as [| e es IH]; intros n Hn; [by exists n |].
  assert (∃ n1, sstep wr wo others n e = Some n1 ∧ sinv n1) as (n1 & E & Hn1).
  { destruct e as [data | | | x b]; [by apply sgive_ok | by apply sfinish_ok | by apply snext_ok |]. cbn [sstep].
    case_decide as Hx; [| by exists n]. destruct Hn as (Hmem & vi & vo & P & Hw & Ht). pose proof Hap as (_ & Hsub & Hoth & _).
    destruct (Hoth x Hx) as [HxJ HxK]. pose proof (w_queue _ _ _ _ _ Hw) as Hq.
    destruct (job_toggle_ok (sgroup n) L P x b Hq (Hsub x Hx)) as (g' & P' & -> & Hq' & HP').
    rewrite option_bind_Some. eexists. split; [reflexivity |]. split; [exact Hmem |]. exists vi, vo, P'. split; [| exact Ht].
    eapply swires_frame; [exact Hq' | | exact Hw]. intros y Hy. apply HP'. intros ->. by destruct Hy. }
  destruct (IH n1 Hn1) as (n2 & E2 & Hn2). exists n2. split; [| done]. unfold srun in *. simpl. by rewrite E.
Qed.

(** What the invariant says to the outside. *)
Lemma sinv_progress n : sinv n → ∃ P, queue (sgroup n) L P ∧ SinglePacketBuffer_Free (spb n) = base ∧
  (got n = given n ∨ ∃ p, got n = given n ++ [p]) ∧ (sin n = None → sout n = None → ∃ x, x ∈ J ++ K ∧ x ∈ P).
Proof.
  intros (Hmem & vi & vo & P & [Hq Hi _ Hs Ho _ Hos HJ HK Hb] & Ht). exists P. split; [done |]. split; [done |].
  destruct Hi as [_ _ Hop Hdo]. destruct Ho as [_ _ Hoop Hodo _].
  assert (∀ x, x ∈ pri_jobs (spb_input (spb n)) ∨ x ∈ ppi_jobs (spb_output (spb n)) → x ∈ P → ∃ x, x ∈ J ++ K ∧ x ∈ P) as Hjob.
  { intros x Hx HxP. exists x. split; [rewrite elem_of_app; by rewrite <- HJ, <- HK | done]. }
  unfold pri_jobs, ppi_jobs in Hjob. setoid_rewrite elem_of_cons in Hjob. setoid_rewrite elem_of_cons in Hjob.
  destruct vi, vo; simpl in Ht, Hs, Hos; try done.
  - destruct Ht as (_ & _ & _ & _ & Hgg). split; [by eauto |]. intros _ _. apply (Hjob (ppi_job_operation (spb_output (spb n)))); [tauto | by apply Hoop, Hos].
  - destruct Ht as (_ & _ & l & Hso & _ & Hgg). split; [by eauto |]. intros _ Hn. congruence.
  - destruct Ht as (_ & _ & Hgg). split; [by eauto |]. intros _ _. apply (Hjob (ppi_job_done (spb_output (spb n)))); [| by apply Hodo].
    right. rewrite elem_of_cons. tauto.
  - destruct Ht as (_ & _ & _ & Hgg). split; [by eauto |]. intros _ _. apply (Hjob (pri_job_operation (spb_input (spb n)))); [tauto | by apply Hop, Hs].
  - destruct Ht as (_ & Hsi & _ & Hgg). split; [by eauto |]. intros Hn. congruence.
  - destruct Ht as (_ & _ & _ & Hgg). split; [by eauto |]. intros _ _. apply (Hjob (pri_job_done (spb_input (spb n)))); [tauto | by apply Hdo, Hs].
Qed.

End proofs.

(** ** The theorem *)

Section theorem.
Context {G : Type} `{JobQueue G}.
Implicit Types (L : gmap addr nat) (P : gset addr) (o : SinglePacketBuffer).

(** The providers create their interfaces, then the buffer is created. *)
Definition snet_setup (wr wo : wiring) (g : G) o (alloc : Z) (m : bytes) : option (snet G * bool) :=
  '(g, out) ← PacketPassInterface_Init g (spb_output o) (w_mtu wo) (w_operation wo);
  out ← match w_cancel wo with Some h => PacketPassInterface_EnableCancel out h | None => Some out end;
  '(g, i) ← PacketRecvInterface_Init g (spb_input o) (w_mtu wr) (w_operation wr);
  '(g, o, r) ← SinglePacketBuffer_Init g (o <| spb_input := i |> <| spb_output := out |>) (w_done wr) (w_done wo) alloc;
  Some (mk_snet g o m None [] None [], r).

Definition spb_jobs o : list addr := pri_jobs (spb_input o) ++ ppi_jobs (spb_output o).
Definition spb_live L o : gmap addr nat := with_jobs (with_jobs L (rev (ppi_jobs (spb_output o)))) (rev (pri_jobs (spb_input o))).

Lemma snet_setup_ok wr wo (g : G) L P o alloc m : queue g L P → 0 ≤ w_mtu wr ≤ w_mtu wo → NoDup (spb_jobs o) → (∀ x, x ∈ spb_jobs o → L !! x = None) →
  0 ≤ alloc → alloc + w_mtu wr ≤ zlen m →
  ∃ n, snet_setup wr wo g o alloc m = Some (n, negb (alloc =? 0)) ∧
    (alloc = 0 → queue (sgroup n) (spb_live L o) P) ∧
    (alloc ≠ 0 → sinv wr wo (spb_live L o) (pri_jobs (spb_input o)) (ppi_jobs (spb_output o)) alloc n).
Proof.
  intros Hq Hm (HdJ & HJK & HdK)%NoDup_app Hf Ha0 Hmem. unfold spb_jobs in *.
  destruct (ppi_setup_ok wo g L P (spb_output o) Hq ltac:(lia) HdK) as (g1 & out & E1 & HK & Hq1 & Ho & How & Hos); [set_solver |].
  destruct (pri_init_ok g1 _ P (spb_input o) (w_mtu wr) (w_operation wr) Hq1) as (g2 & i & E2 & HJ & Hq2 & Hi & Him & Hih & Hid & His); [lia | done | |].
  { intros x Hx. rewrite with_jobs_other by (rewrite elem_of_rev; by apply HJK). apply Hf. set_solver. }
  unfold ppi_setup in E1. apply bind_Some in E1 as ([g1' out0] & Eo0 & E1). apply bind_Some in E1 as (out1 & Eo1 & E1).
  apply bind_Some in E1 as (out2 & Eo2 & [= -> ->]).
  assert (PacketPassInterface_GetMTU out1 = w_mtu wo) as Hget.
  { unfold PacketPassInterface_Sender_Init in Eo2. apply bind_Some in Eo2 as (_ & _ & [= <-]). by destruct How as (Hx & _). }
  unfold snet_setup, SinglePacketBuffer_Init, PacketRecvInterface_GetMTU. rewrite Eo0, option_bind_Some, Eo1, option_bind_Some, E2, option_bind_Some.
  cbn [set spb_eta spb_input spb_output spb_buf]. rewrite ASSERT_seq by (rewrite Hget, Him; apply Z.leb_le; lia).
  unfold PacketRecvInterface_Receiver_Init. rewrite Hid, ASSERT_seq, option_bind_Some, Eo2, option_bind_Some by done.
  cbn [set spb_eta spb_input spb_output spb_buf]. set (i1 := i <| pri_handler_done := Some (w_done wr) |>).
  assert (pri_ok (spb_live L o) P i1 ∧ rwired wr i1 ∧ pri_jobs i1 = pri_jobs (spb_input o)) as (Hi1 & Hwi1 & HJ1) by (destruct Hi; split_and!; done).
  destruct (Z.eqb_spec alloc 0) as [-> | Hne]; [eexists; split; [reflexivity |]; split; [done | done] |].
  destruct (pri_recv_ok wr g2 _ P i1 alloc Hq2 Hi1 Hwi1 His ltac:(done)) as (g3 & i2 & E & P' & Hq3 & Hi2 & Hwi2 & Hs2 & HJ2 & HP).
  match goal with |- context [PacketRecvInterface_Receiver_Recv g2 ?x alloc] => change x with i1 end.
  rewrite E, !option_bind_Some. eexists. split; [reflexivity |]. split; [done |]. intros _. split; [exact Hmem |].
  exists (RAsked alloc), VIdle, P'. split; [| done].
  assert (∀ x, x ∈ ppi_jobs out → (x ∈ P' ↔ x ∈ P)) as Hfr by (intros x Hx; apply HP; rewrite HJ1; rewrite HK in Hx; intros Hy; by apply (HJK x Hy)).
  split; cbn [sgroup spb set spb_eta spb_input spb_output spb_buf]; try done; [| congruence].
  apply (ppi_ok_frame _ P _ _ Hfr). destruct Ho as [Hlv Hdi Hop Hdo Hca]. split; try done. intros x Hx. unfold spb_live. rewrite with_jobs_other; [by apply Hlv |].
  rewrite elem_of_rev. rewrite HK in Hx. intros Hy. by apply (HJK x Hy).
Qed.

End theorem.

(** The single packet buffer with both interfaces, in any group of jobs. If there is
    no memory the initialisation fails and sets no job. Otherwise no assertion of the
    buffer, of the interfaces or of the queue fails; the input stores only inside of the
    block; the packets the output has used, which it may read until it ends its work, are
    those the input received, unchanged and in order, all but at most the last one; and
    the buffer never stalls: the input works, or the output works, or a job is set. *)
Theorem single_packet_buffer {G} `{JobQueue G} wr wo (g : G) L P o alloc m others :
  queue g L P → 0 ≤ w_mtu wr ≤ w_mtu wo → NoDup (spb_jobs o) → (∀ x, x ∈ spb_jobs o → L !! x = None) → others ⊆ dom L →
  (∀ x h, L !! x = Some h → h ∉ spb_jobs o) → 0 ≤ alloc → alloc + w_mtu wr ≤ zlen m →
  ∃ n0, snet_setup wr wo g o alloc m = Some (n0, negb (alloc =? 0)) ∧ (alloc = 0 → queue (sgroup n0) (spb_live L o) P) ∧
    (alloc ≠ 0 → ∀ es, ∃ n P', srun wr wo others n0 es = Some n ∧ queue (sgroup n) (spb_live L o) P' ∧ SinglePacketBuffer_Free (spb n) = alloc ∧
      (got n = given n ∨ ∃ p, got n = given n ++ [p]) ∧ (sin n = None → sout n = None → ∃ x, x ∈ spb_jobs o ∧ x ∈ P')).
Proof.
  intros Hq Hm Hnd Hf Hsub Hn Ha Hmem. destruct (snet_setup_ok wr wo g L P o alloc m Hq Hm Hnd Hf Ha Hmem) as (n0 & E0 & H0 & H1).
  exists n0. split; [done |]. split; [done |]. intros Hne es.
  destruct (srun_ok wr wo _ _ _ alloc others (jobs_apart_setup L _ _ others Hnd Hf Hsub Hn)) with (es := es) (n := n0) as (n & E & Hi); [lia | lia | by apply H1 |].
  destruct (sinv_progress _ _ _ _ _ _ n Hi) as (P' & Hr). exists n, P'. done.
Qed.

(** Two packets, the second one still in the block. *)
Definition wit_spb : SinglePacketBuffer := mk_spb (mk_pri 0 0 None 1 0 2 0 STATE_NONE) (mk_ppi 0 0 None None 3 0 0 4 5 STATE_NONE false) 0.
Definition wit_swr : wiring := mk_wiring 4 30 None 32.
Definition wit_swo : wiring := mk_wiring 8 40 (Some 41%nat) 42.
Definition wit_sevents : list sevent :=
  [SGive [9]; SNext; SGive [1; 2; 3]; SNext; SNext; SGive [9]; SFinish; SNext; SNext; SGive [4; 5]; SNext; SNext].

Lemma single_packet_buffer_witness : ∃ n0 n P',
  snet_setup wit_swr wit_swo BPendingGroup_Init wit_spb 2 (replicate 6 0) = Some (n0, true) ∧ srun wit_swr wit_swo ∅ n0 wit_sevents = Some n ∧
  got n = [[1; 2; 3]; [4; 5]] ∧ given n = [[1; 2; 3]] ∧ smem n = [0; 0; 4; 5; 3; 0] ∧ queue (sgroup n) (spb_live ∅ wit_spb) P'.
Proof.
  destruct (single_packet_buffer wit_swr wit_swo BPendingGroup_Init ∅ ∅ wit_spb 2 (replicate 6 0) ∅ wit_queue) as (n0 & E0 & _ & Hr).
  - vm_compute. split; discriminate.
  - apply (bool_decide_unpack (NoDup [1; 2; 3; 4; 5]%nat)). vm_compute. exact I.
  - intros x _. reflexivity.
  - set_solver.
  - intros x h Hx. discriminate Hx.
  - lia.
  - vm_compute. discriminate.
  - destruct (Hr ltac:(lia) wit_sevents) as (n & P' & E & Hq & _). exists n0, n, P'. split; [exact E0 |]. split; [exact E |].
    assert ((snet_setup wit_swr wit_swo BPendingGroup_Init wit_spb 2 (replicate 6 0) ≫= λ '(n0, _), srun wit_swr wit_swo ∅ n0 wit_sevents ≫= λ n,
             Some (got n, given n, smem n)) = Some ([[1; 2; 3]; [4; 5]], [[1; 2; 3]], [0; 0; 4; 5; 3; 0])) as Ec by (vm_compute; reflexivity).
    rewrite E0, option_bind_Some, E, option_bind_Some in Ec. injection Ec as H1 H2 H3.
    split; [exact H1 |]. split; [exact H2 |]. split; [exact H3 | exact Hq].
Defined.
