(* ===== verification/PacketPassFairQueue.v ===== *)
(** * Fair queue of packet flows (flow/PacketPassFairQueue.c)

    Each flow has a 64-bit virtual time; the flow with the least time (ties by
    address) is served, and its time grows by the weight and the length of the
    packet. When a time would overflow, all times are shifted down together.

    [queued_tree] is the in-order sequence of the search tree: insertion places a
    flow according to [compare_flows], removal takes it out by address. Flow
    objects are named by addresses. The schedule job is the flag [schedule_job];
    sending a packet on, finishing a packet of a flow, the busy handler and the
    cancel request are calls into other components. *)
From Stdlib Require Import Sorted.
From S2P Require Import Prelude.

Abbreviation addr := nat.

Definition FAIRQUEUE_MAX_TIME : Z := UINT64_MAX.

Record flow := mk_flow { time : Z; is_queued : bool; data : Z; data_len : Z; handler_busy : option nat }.
#[export] Instance flow_eta : Eta flow := λ f, mk_flow (time f) (is_queued f) (data f) (data_len f) (handler_busy f).

Record PacketPassFairQueue := mk_PacketPassFairQueue {
  out_mtu : Z;
  use_cancel : bool;
  packet_weight : Z;
  sending_flow : option addr;
  sending_len : Z;
  previous_flow : option addr;
  queued_tree : list addr;
  flows_list : list addr;
  flows : gmap addr flow;
  freeing : bool;
  schedule_job : bool
}.
#[export] Instance PacketPassFairQueue_eta : Eta PacketPassFairQueue := λ m,
  mk_PacketPassFairQueue (out_mtu m) (use_cancel m) (packet_weight m) (sending_flow m) (sending_len m)
    (previous_flow m) (queued_tree m) (flows_list m) (flows m) (freeing m) (schedule_job m).

Inductive fq_call := FqSend (data len : Z) | FqDone (f : addr) | FqBusy (h : nat) | FqCancel.

Definition compare_flows (fs : gmap addr flow) (f1 f2 : addr) : option Z :=
  x ← fs !! f1; y ← fs !! f2;
  let cmp := B_COMPARE (time x) (time y) in
  Some (if negb (cmp =? 0) then cmp else B_COMPARE (Z.of_nat f1) (Z.of_nat f2)).

(** Insertion into the tree; fails on an equal entry. *)
Fixpoint Tree_Insert (fs : gmap addr flow) (t : list addr) (f : addr) : option (list addr) :=
  match t with
  | [] => Some [f]
  | g :: t' =>
      c ← compare_flows fs f g;
      if c =? 0 then None
      else if c <? 0 then Some (f :: g :: t')
      else t'' ← Tree_Insert fs t' f; Some (g :: t'')
  end.

Definition Tree_GetFirst (t : list addr) : option addr := head t.
Definition Tree_Remove (t : list addr) (f : addr) : list addr := filter (λ g, g ≠ f) t.

Definition set_time (f : addr) (v : Z) (m : PacketPassFairQueue) : PacketPassFairQueue :=
  m <| flows := alter (λ x, x <| time := v |>) f (flows m) |>.

Definition get_current_time (m : PacketPassFairQueue) : option Z :=
  match sending_flow m with
  | Some f => x ← flows m !! f; Some (time x)
  | None =>
      '(t, have) ←
        (match Tree_GetFirst (queued_tree m) with
         | Some f => x ← flows m !! f; ASSERT (is_queued x);; Some (time x, true)
         | None => Some (0, false)
         end);
      '(t, have) ←
        (match previous_flow m with
         | Some f =>
             x ← flows m !! f;
             Some (if negb have || (time x <? t) then (time x, true) else (t, have))
         | None => Some (t, have)
         end);
      Some (if (have : bool) then t else 0)
  end.

(** The loop over [flows_list] of [increment_sent_flow]. *)
Fixpoint subtract_loop (l : list addr) (fl : addr) (sub : Z) (m : PacketPassFairQueue) : option PacketPassFairQueue :=
  match l with
  | [] => Some m
  | g :: l =>
      x ← flows m !! g;
      m ← (if (time x <? sub) && bool_decide (g ≠ fl) then
             ASSERT (negb (is_queued x));; Some (set_time g 0 m)
           else Some (set_time g (u64 (time x - sub)) m));
      subtract_loop l fl sub m
  end.

Definition increment_sent_flow (m : PacketPassFairQueue) (fl : addr) (amount : Z) : option PacketPassFairQueue :=
  x ← flows m !! fl;
  ASSERT (amount <=? FAIRQUEUE_MAX_TIME);;
  ASSERT (negb (is_queued x));;
  ASSERT (bool_decide (sending_flow m = None));;
  m ← (if FAIRQUEUE_MAX_TIME - time x <? amount then
         sub ← (match Tree_GetFirst (queued_tree m) with
                | None => Some (time x)
                | Some f => y ← flows m !! f; ASSERT (is_queued y);; Some (time y)
                end);
         subtract_loop (flows_list m) fl sub m
       else Some m);
  x ← flows m !! fl;
  Some (set_time fl (u64 (time x + amount)) m).

Definition schedule (m : PacketPassFairQueue) : option (PacketPassFairQueue * list fq_call) :=
  ASSERT (bool_decide (sending_flow m = None));;
  ASSERT (bool_decide (previous_flow m = None));;
  ASSERT (negb (freeing m));;
  q ← Tree_GetFirst (queued_tree m);
  x ← flows m !! q;
  ASSERT (is_queued x);;
  let m := m <| queued_tree := Tree_Remove (queued_tree m) q |>
             <| flows := alter (λ x, x <| is_queued := false |>) q (flows m) |> in
  Some (m <| sending_flow := Some q |> <| sending_len := data_len x |>, [FqSend (data x) (data_len x)]).

Definition schedule_job_handler (m : PacketPassFairQueue) : option (PacketPassFairQueue * list fq_call) :=
  let m := m <| schedule_job := false |> in
  ASSERT (bool_decide (sending_flow m = None));;
  ASSERT (negb (freeing m));;
  let m := m <| previous_flow := None |> in
  if bool_decide (queued_tree m ≠ []) then schedule m else Some (m, []).

Definition input_handler_send (m : PacketPassFairQueue) (f : addr) (d dlen : Z)
    : option (PacketPassFairQueue * list fq_call) :=
  x ← flows m !! f;
  ASSERT (bool_decide (sending_flow m ≠ Some f));;
  ASSERT (negb (is_queued x));;
  ASSERT (negb (freeing m));;
  m ← (if bool_decide (previous_flow m = Some f) then Some (m <| previous_flow := None |>)
       else c ← get_current_time m; Some (set_time f (Z.max (time x) c) m));
  let m := m <| flows := alter (λ x, x <| data := d |> <| data_len := dlen |>) f (flows m) |> in
  t ← Tree_Insert (flows m) (queued_tree m) f;
  let m := m <| queued_tree := t |> <| flows := alter (λ x, x <| is_queued := true |>) f (flows m) |> in
  if bool_decide (sending_flow m = None) && negb (schedule_job m) then schedule m else Some (m, []).

Definition output_handler_done (m : PacketPassFairQueue) : option (PacketPassFairQueue * list fq_call) :=
  f ← sending_flow m;
  x ← flows m !! f;
  ASSERT (bool_decide (previous_flow m = None));;
  ASSERT (negb (schedule_job m));;
  ASSERT (negb (freeing m));;
  ASSERT (negb (is_queued x));;
  let m := m <| sending_flow := None |> in
  let m := m <| previous_flow := Some f |> in
  m ← increment_sent_flow m f (u64 (packet_weight m + sending_len m));
  let m := m <| schedule_job := true |> in
  x ← flows m !! f;
  Some (match handler_busy x with
        | Some h => (m <| flows := alter (λ x, x <| handler_busy := None |>) f (flows m) |>, [FqDone f; FqBusy h])
        | None => (m, [FqDone f])
        end).

(** [None] inside is the error return. *)
Definition PacketPassFairQueue_Init (mtu : Z) (has_cancel use_cancel : bool) (weight : Z)
    : option (option PacketPassFairQueue) :=
  ASSERT (0 <? weight);;
  ASSERT (negb use_cancel || has_cancel);;
  Some (if (mtu <=? FAIRQUEUE_MAX_TIME) && (weight <=? FAIRQUEUE_MAX_TIME - mtu) then
          Some (mk_PacketPassFairQueue mtu use_cancel weight None 0 None [] [] ∅ false false)
        else None).

Definition PacketPassFairQueue_Free (m : PacketPassFairQueue) : option unit :=
  ASSERT (bool_decide (flows_list m = []));;
  ASSERT (bool_decide (queued_tree m = []));;
  ASSERT (bool_decide (previous_flow m = None));;
  ASSERT (bool_decide (sending_flow m = None));;
  Some ().

Definition PacketPassFairQueue_PrepareFree (m : PacketPassFairQueue) : PacketPassFairQueue :=
  m <| freeing := true |>.

Definition PacketPassFairQueueFlow_Init (m : PacketPassFairQueue) (f : addr) : option PacketPassFairQueue :=
  ASSERT (negb (freeing m));;
  Some (m <| flows := <[f := mk_flow 0 false 0 0 None]> (flows m) |> <| flows_list := flows_list m ++ [f] |>).

Definition PacketPassFairQueueFlow_Free (m : PacketPassFairQueue) (f : addr) : option PacketPassFairQueue :=
  x ← flows m !! f;
  ASSERT (freeing m || bool_decide (sending_flow m ≠ Some f));;
  let m := if bool_decide (sending_flow m = Some f) then m <| sending_flow := None |> else m in
  let m := if bool_decide (previous_flow m = Some f) then m <| previous_flow := None |> else m in
  let m := if is_queued x then m <| queued_tree := Tree_Remove (queued_tree m) f |> else m in
  Some (m <| flows_list := filter (λ g, g ≠ f) (flows_list m) |> <| flows := delete f (flows m) |>).

Definition PacketPassFairQueueFlow_IsBusy (m : PacketPassFairQueue) (f : addr) : option bool :=
  ASSERT (negb (freeing m));;
  Some (bool_decide (sending_flow m = Some f)).

Definition PacketPassFairQueueFlow_RequestCancel (m : PacketPassFairQueue) (f : addr) : option (list fq_call) :=
  ASSERT (bool_decide (sending_flow m = Some f));;
  ASSERT (use_cancel m);;
  ASSERT (negb (freeing m));;
  ASSERT (negb (schedule_job m));;
  Some [FqCancel].

Definition PacketPassFairQueueFlow_SetBusyHandler (m : PacketPassFairQueue) (f : addr) (h : option nat)
    : option PacketPassFairQueue :=
  ASSERT (bool_decide (sending_flow m = Some f));;
  ASSERT (negb (freeing m));;
  Some (m <| flows := alter (λ x, x <| handler_busy := h |>) f (flows m) |>).

(** ** The queue in its environment *)

Inductive fevent :=
| EInit (f : addr) | EFree (f : addr) | ESend (f : addr) (d len : Z) | EOutDone | EJob
| EBusy (f : addr) (h : option nat) | ECancel (f : addr) | EPrepareFree.

(** What the users of the queue and the job queue may do: a flow sends one packet
    at a time, the output finishes the packet it was given, the job runs when it
    is set, a flow that is being sent is freed only while the queue is freed. *)
Definition fenabled (m : PacketPassFairQueue) (e : fevent) : bool :=
  match e with
  | EInit f => negb (freeing m) && bool_decide (flows m !! f = None)
  | EFree f => bool_decide (is_Some (flows m !! f)) && (freeing m || bool_decide (sending_flow m ≠ Some f))
  | ESend f d len =>
      negb (freeing m) && bool_decide (is_queued <$> flows m !! f = Some false) &&
      bool_decide (sending_flow m ≠ Some f) && (0 <=? len) && (len <=? out_mtu m)
  | EOutDone => negb (freeing m) && bool_decide (is_Some (sending_flow m))
  | EJob => negb (freeing m) && schedule_job m
  | EBusy f h => negb (freeing m) && bool_decide (sending_flow m = Some f)
  | ECancel f => negb (freeing m) && bool_decide (sending_flow m = Some f) && use_cancel m
  | EPrepareFree => true
  end.

Definition fstep (m : PacketPassFairQueue) (e : fevent) : option (PacketPassFairQueue * list fq_call) :=
  match e with
  | EInit f => m ← PacketPassFairQueueFlow_Init m f; Some (m, [])
  | EFree f => m ← PacketPassFairQueueFlow_Free m f; Some (m, [])
  | ESend f d len => input_handler_send m f d len
  | EOutDone => output_handler_done m
  | EJob => schedule_job_handler m
  | EBusy f h => m ← PacketPassFairQueueFlow_SetBusyHandler m f h; Some (m, [])
  | ECancel f => cs ← PacketPassFairQueueFlow_RequestCancel m f; Some (m, cs)
  | EPrepareFree => Some (PacketPassFairQueue_PrepareFree m, [])
  end.

Fixpoint frun (m : PacketPassFairQueue) (es : list fevent) : option PacketPassFairQueue :=
  match es with
  | [] => Some m
  | e :: es => if fenabled m e then '(m, _) ← fstep m e; frun m es else frun m es
  end.

(** ** Invariant *)

Definition tm (fs : gmap addr flow) (f : addr) : Z := from_option time 0 (fs !! f).

(** Served before: less time, or the same time and a smaller address. *)
Definition before (fs : gmap addr flow) (f g : addr) : Prop :=
  tm fs f < tm fs g ∨ (tm fs f = tm fs g ∧ (f < g)%nat).

Record fcore (m : PacketPassFairQueue) : Prop := {
  fi_cfg : 0 < packet_weight m ∧ 0 ≤ out_mtu m ∧ packet_weight m + out_mtu m ≤ FAIRQUEUE_MAX_TIME;
  fi_sorted : StronglySorted (before (flows m)) (queued_tree m);
  fi_tree f : f ∈ queued_tree m ↔ is_queued <$> flows m !! f = Some true;
  fi_nodup : NoDup (flows_list m);
  fi_list f : f ∈ flows_list m ↔ is_Some (flows m !! f);
  fi_range f x : flows m !! f = Some x →
    0 ≤ time x ≤ FAIRQUEUE_MAX_TIME ∧ (is_queued x = true → 0 ≤ data_len x ≤ out_mtu m);
  fi_sending g : sending_flow m = Some g →
    is_queued <$> flows m !! g = Some false ∧ previous_flow m = None ∧ schedule_job m = false ∧
    0 ≤ sending_len m ≤ out_mtu m ∧ ∀ f, f ∈ queued_tree m → tm (flows m) g ≤ tm (flows m) f;
  fi_previous g : previous_flow m = Some g →
    is_queued <$> flows m !! g = Some false ∧ schedule_job m = true
}.

(** Between calls the queue does not hold packets without working on them. *)
Definition finv (m : PacketPassFairQueue) : Prop :=
  fcore m ∧ (freeing m = false → sending_flow m = None → schedule_job m = false → queued_tree m = []).

(** ** Times *)

(** What serving a flow does to the times: the flow advances by [amount], and all
    times are moved down by [sh], idle flows not below zero. *)
Definition bump (fl : addr) (amount sh : Z) (f : addr) (y : flow) : flow :=
  y <| time := if decide (f = fl) then time y + amount - sh else Z.max 0 (time y - sh) |>.

Definition shift (fl : addr) (sub : Z) (g : addr) (x : flow) : flow :=
  x <| time := if (time x <? sub) && bool_decide (g ≠ fl) then 0 else u64 (time x - sub) |>.

Lemma subtract_loop_spec fl sub l : ∀ m, NoDup l →
  (∀ g, g ∈ l → ∃ x, flows m !! g = Some x ∧ (is_queued x = true → g ≠ fl → sub ≤ time x)) →
  ∃ fs, subtract_loop l fl sub m = Some (m <| flows := fs |>) ∧
    ∀ g, fs !! g = (if decide (g ∈ l) then shift fl sub g <$> flows m !! g else flows m !! g).
Proof.
  induction l as [| g l IH]; intros m Hnd Hl.
  { exists (flows m). split; [by destruct m |]. intros g. case_decide; [set_solver | done]. }
  cbn [subtract_loop].
  apply NoDup_cons in Hnd as [Hg Hnd]. destruct (Hl g ltac:(set_solver)) as (x & Hx & Hqx). rewrite Hx. simpl.
  set (fs1 := <[g := shift fl sub g x]> (flows m)).
  assert ((if (time x <? sub) && bool_decide (g ≠ fl) then ASSERT (negb (is_queued x));; Some (set_time g 0 m)
    else Some (set_time g (u64 (time x - sub)) m)) = Some (m <| flows := fs1 |>)) as ->.
  { assert (∀ v, set_time g v m = m <| flows := <[g := x <| time := v |>]> (flows m) |>) as Hst.
    { intros v. unfold set_time. by rewrite (alter_known _ _ x). }
    unfold fs1, shift. destruct ((time x <? sub) && bool_decide (g ≠ fl)) eqn:E; rewrite Hst; [| done].
    b2p. destruct (is_queued x) eqn:Eq; [| done]. specialize (Hqx eq_refl ltac:(done)). lia. }
  simpl. destruct (IH (m <| flows := fs1 |>) Hnd) as (fs & Hrun & Hfs).
  { intros h Hh. destruct (Hl h ltac:(set_solver)) as (y & Hy & Hqy). exists y. simpl. unfold fs1.
    rewrite lookup_insert_ne by set_solver. done. }
  exists fs. split; [exact Hrun |]. intros h. rewrite Hfs. simpl. unfold fs1. destruct (decide (h = g)) as [-> | Hne].
  - rewrite decide_False by done. rewrite decide_True by set_solver. by rewrite lookup_insert_eq, Hx.
  - rewrite lookup_insert_ne by done. destruct (decide (h ∈ l)); [rewrite decide_True by set_solver | rewrite decide_False by set_solver]; done.
Qed.

Lemma sorted_head fs f t g : StronglySorted (before fs) (f :: t) → g ∈ f :: t → tm fs f ≤ tm fs g.
Proof.
  intros [_ Hf]%StronglySorted_inv Hg. apply elem_of_cons in Hg as [-> | Hg]; [lia |].
  rewrite Forall_forall in Hf. destruct (Hf g Hg); lia.
Qed.

Lemma queued_lookup m f : fcore m → f ∈ queued_tree m → ∃ x, flows m !! f = Some x ∧ is_queued x = true ∧ tm (flows m) f = time x.
Proof.
  intros Hi Hf. apply (fi_tree _ Hi) in Hf. unfold tm. destruct (flows m !! f) as [x |]; [| done].
  injection Hf as Hf. exists x. done.
Qed.

Lemma flow_lookup m f b : is_queued <$> flows m !! f = Some b → ∃ x, flows m !! f = Some x ∧ is_queued x = b ∧ tm (flows m) f = time x.
Proof. unfold tm. destruct (flows m !! f) as [x |]; [| done]. intros [= <-]. exists x. done. Qed.

Lemma tm_lookup fs f x : fs !! f = Some x → tm fs f = time x.
Proof. unfold tm. by intros ->. Qed.

(** The time to subtract is at most the time of every queued flow. *)
Lemma increment_spec m fl x amount : fcore m → sending_flow m = Some fl → flows m !! fl = Some x →
  0 ≤ amount ≤ FAIRQUEUE_MAX_TIME →
  let m1 := m <| sending_flow := None |> <| previous_flow := Some fl |> in
  ∃ fs sh, increment_sent_flow m1 fl amount = Some (m1 <| flows := fs |>) ∧
    0 ≤ sh ∧ (∀ f, f ∈ queued_tree m → sh ≤ tm (flows m) f) ∧ 0 ≤ time x + amount - sh ≤ FAIRQUEUE_MAX_TIME ∧
    ∀ f, fs !! f = bump fl amount sh f <$> flows m !! f.
Proof.
  intros Hi Hs Hx Ha m1. destruct (fi_sending m Hi fl Hs) as (Hq & _ & _ & _ & Hmin).
  rewrite Hx in Hq. injection Hq as Hq. destruct (fi_range m Hi fl x Hx) as [Hr _].
  unfold FAIRQUEUE_MAX_TIME, UINT64_MAX in *.
  unfold increment_sent_flow. change (flows m1) with (flows m). rewrite Hx, option_bind_Some.
  rewrite ASSERT_seq by (unfold FAIRQUEUE_MAX_TIME, UINT64_MAX; lia).
  rewrite ASSERT_seq by (by rewrite Hq). rewrite ASSERT_seq by done.
  unfold FAIRQUEUE_MAX_TIME, UINT64_MAX.
  destruct (18446744073709551615 - time x <? amount) eqn:Eov; b2p.
  - set (sub := match queued_tree m with [] => time x | f :: _ => tm (flows m) f end).
    assert (time x ≤ sub ≤ 18446744073709551615) as Hsub.
    { unfold sub. destruct (queued_tree m) as [| f t] eqn:Et; [lia |].
      destruct (queued_lookup m f Hi) as (y & Hy & _ & Hty); [rewrite Et; set_solver |].
      pose proof (Hmin f ltac:(set_solver)) as Hf. rewrite (tm_lookup _ _ _ Hx) in Hf.
      destruct (fi_range m Hi f y Hy) as [Hry _]. unfold FAIRQUEUE_MAX_TIME, UINT64_MAX in Hry. lia. }
    assert (∀ f, f ∈ queued_tree m → sub ≤ tm (flows m) f) as Hle.
    { unfold sub. pose proof (fi_sorted m Hi) as Hso. destruct (queued_tree m) as [| g t]; [set_solver |].
      intros f. by apply sorted_head. }
    destruct (subtract_loop_spec fl sub (flows_list m) m1 (fi_nodup m Hi)) as (fs & Hrun & Hfs).
    { intros g Hg. apply (fi_list m Hi) in Hg as [y Hy]. exists y. split; [done |]. intros Hqy _.
      rewrite <- (tm_lookup _ _ _ Hy). apply Hle. apply (fi_tree m Hi). by rewrite Hy, <- Hqy. }
    assert (∀ g, fs !! g = shift fl sub g <$> flows m !! g) as Hfs'.
    { intros g. rewrite Hfs. case_decide as Hg; [done |]. rewrite (fi_list m Hi) in Hg.
      change (flows m1) with (flows m). destruct (flows m !! g); [exfalso; eauto | done]. }
    assert ((sub' ← (match Tree_GetFirst (queued_tree m1) with
      | None => Some (time x) | Some f => y ← flows m !! f; ASSERT (is_queued y);; Some (time y) end);
      subtract_loop (flows_list m1) fl sub' m1) = Some (m1 <| flows := fs |>)) as Hsubrun.
    { change (queued_tree m1) with (queued_tree m). unfold sub in *. unfold Tree_GetFirst.
      destruct (queued_tree m) as [| f t] eqn:Et; [exact Hrun |]. simpl.
      destruct (queued_lookup m f Hi) as (y & Hy & Hqy & Hty); [rewrite Et; set_solver |].
      rewrite Hy. simpl. rewrite Hqy. simpl. rewrite <- Hty. exact Hrun. }
    rewrite Hsubrun, option_bind_Some. change (flows (m1 <| flows := fs |>)) with fs. rewrite Hfs', Hx. simpl.
    exists (<[fl := bump fl amount sub fl x]> fs), sub. split; [| split; [lia | split; [exact Hle | split; [lia |]]]].
    + unfold set_time. rewrite (alter_known _ fs (shift fl sub fl x)) by (by rewrite Hfs', Hx).
      assert (u64 (u64 (time x - sub) + amount) = time x + amount - sub) as Hu.
      { unfold u64. rewrite Z.add_mod_idemp_l by lia. rewrite Z.mod_small by lia. lia. }
      do 3 f_equal. unfold bump, shift. simpl. rewrite (bool_decide_false (fl ≠ fl)) by naive_solver.
      rewrite andb_false_r, decide_True by done. by rewrite Hu.
    + intros f. destruct (decide (f = fl)) as [-> | Hne]; [by rewrite lookup_insert_eq, Hx |].
      rewrite lookup_insert_ne, Hfs' by done. destruct (flows m !! f) as [y |] eqn:Ey; [| done]. simpl. f_equal.
      unfold shift, bump. rewrite bool_decide_true, decide_False by done. rewrite andb_true_r.
      destruct (fi_range m Hi f y Ey) as [Hry _]. unfold FAIRQUEUE_MAX_TIME, UINT64_MAX in Hry.
      assert ((if time y <? sub then 0 else u64 (time y - sub)) = Z.max 0 (time y - sub)) as ->; [| done].
      destruct (time y <? sub) eqn:Ey'; b2p; [lia |]. rewrite u64_small by lia. lia.
  - rewrite option_bind_Some. change (flows m1) with (flows m). rewrite Hx. simpl.
    exists (<[fl := bump fl amount 0 fl x]> (flows m)), 0. split; [| split; [lia | split; [| split; [lia |]]]].
    + unfold set_time. change (flows m1) with (flows m). rewrite (alter_known _ _ x) by done. rewrite u64_small by lia.
      do 3 f_equal. unfold bump. rewrite decide_True by done. by rewrite Z.sub_0_r.
    + intros f Hf. destruct (queued_lookup m f Hi Hf) as (y & Hy & _ & ->). by apply (fi_range m Hi f y).
    + intros f. destruct (decide (f = fl)) as [-> | Hne]; [by rewrite lookup_insert_eq, Hx |].
      rewrite lookup_insert_ne by done. destruct (flows m !! f) as [y |] eqn:Ey; [| done]. simpl. f_equal.
      unfold bump. rewrite decide_False by done. destruct (fi_range m Hi f y Ey) as [Hry _]. destruct y. simpl in *. f_equal. lia.
Qed.

Lemma sorted_ext fs fs' t : (∀ f g, f ∈ t → g ∈ t → before fs f g → before fs' f g) →
  StronglySorted (before fs) t → StronglySorted (before fs') t.
Proof.
  intros H. induction 1 as [| f t Hs IH Hf]; constructor.
  - apply IH. intros; apply H; set_solver.
  - rewrite Forall_forall in *. intros g Hg. apply H; [set_solver.. | auto].
Qed.

Lemma before_irrefl fs f : ¬ before fs f f.
Proof. unfold before. lia. Qed.

Lemma before_tm fs fs' f g : tm fs' f = tm fs f → tm fs' g = tm fs g → before fs f g → before fs' f g.
Proof. unfold before. by intros -> ->. Qed.

Lemma tm_alter h k fs f : (∀ x, time (h x) = time x) → tm (alter h k fs) f = tm fs f.
Proof.
  intros Hh. unfold tm. destruct (decide (f = k)) as [-> | Hne]; [rewrite lookup_alter_eq | by rewrite lookup_alter_ne].
  destruct (fs !! k); simpl; [apply Hh | done].
Qed.

Lemma sorted_not_in fs f t : StronglySorted (before fs) (f :: t) → f ∉ t.
Proof.
  intros [_ Hf]%StronglySorted_inv Hin. rewrite Forall_forall in Hf. by eapply before_irrefl, Hf.
Qed.

Lemma Tree_Remove_notin f t : f ∉ t → Tree_Remove t f = t.
Proof. apply filter_ne_notin. Qed.

Lemma Tree_Remove_head f t : f ∉ t → Tree_Remove (f :: t) f = t.
Proof. intros Hf. unfold Tree_Remove. rewrite filter_cons_False by naive_solver. by apply Tree_Remove_notin. Qed.

Lemma elem_of_Tree_Remove g t f : g ∈ Tree_Remove t f ↔ g ≠ f ∧ g ∈ t.
Proof. unfold Tree_Remove. by rewrite list_elem_of_filter. Qed.

Lemma sorted_filter fs t f : StronglySorted (before fs) t → StronglySorted (before fs) (Tree_Remove t f).
Proof.
  induction 1 as [| g t Hs IH Hg]; [constructor |]. unfold Tree_Remove. destruct (decide (g = f)) as [-> | Hne].
  - by rewrite filter_cons_False by naive_solver.
  - rewrite filter_cons_True by done. constructor; [exact IH |]. rewrite Forall_forall in *.
    intros h Hh. apply Hg. by apply elem_of_Tree_Remove in Hh as [_ ?].
Qed.

(** [compare_flows] is the order of the tree. *)
Lemma compare_flows_spec fs f g : is_Some (fs !! f) → is_Some (fs !! g) →
  ∃ c, compare_flows fs f g = Some c ∧ (c = 0 → f = g) ∧ (c < 0 → before fs f g) ∧ (0 < c → before fs g f).
Proof.
  intros [x Hx] [y Hy]. unfold compare_flows. rewrite Hx, Hy. simpl. eexists. split; [done |].
  unfold before. rewrite (tm_lookup _ _ _ Hx), (tm_lookup _ _ _ Hy). unfold B_COMPARE.
  destruct (time y <? time x) eqn:E1, (time x <? time y) eqn:E2; b2p; simpl; try lia.
  destruct (Z.of_nat g <? Z.of_nat f) eqn:E3, (Z.of_nat f <? Z.of_nat g) eqn:E4; b2p; simpl; lia.
Qed.

Lemma Tree_Insert_spec fs f t : is_Some (fs !! f) → (∀ g, g ∈ t → is_Some (fs !! g)) → f ∉ t →
  StronglySorted (before fs) t →
  ∃ t', Tree_Insert fs t f = Some t' ∧ StronglySorted (before fs) t' ∧ ∀ g, g ∈ t' ↔ g = f ∨ g ∈ t.
Proof.
  intros Hf. induction t as [| h t IH]; intros Hall Hnin Hs; simpl.
  - exists [f]. split; [done |]. split; [repeat constructor |]. set_solver.
  - destruct (compare_flows_spec fs f h Hf (Hall h ltac:(set_solver))) as (c & -> & H0 & H1 & H2). simpl.
    apply StronglySorted_inv in Hs as [Hs Hh]. rewrite Forall_forall in Hh.
    destruct (c =? 0) eqn:E0; b2p; [set_solver |]. destruct (c <? 0) eqn:E1; b2p.
    + eexists. split; [done |]. split; [| set_solver]. constructor; [by constructor; [| rewrite Forall_forall] |].
      rewrite Forall_forall. intros g Hg. apply elem_of_cons in Hg as [-> | Hg]; [auto |].
      specialize (Hh g Hg). specialize (H1 ltac:(lia)). unfold before in *. lia.
    + destruct (IH ltac:(set_solver) ltac:(set_solver) Hs) as (t' & -> & Hs' & Ht'). simpl.
      eexists. split; [done |]. split; [| set_solver]. constructor; [done |]. rewrite Forall_forall.
      intros g Hg. apply Ht' in Hg as [-> | Hg]; [apply H2; lia | auto].
Qed.

Lemma lookup_alter_if (h : flow → flow) (k : addr) (fs : gmap addr flow) (f : addr) :
  alter h k fs !! f = (if decide (f = k) then h <$> fs !! f else fs !! f).
Proof. case_decide as E; [subst; apply lookup_alter_eq | by apply lookup_alter_ne]. Qed.

(** ** The operations preserve the invariant *)

Lemma schedule_spec m q t : fcore m → sending_flow m = None → previous_flow m = None → schedule_job m = false →
  freeing m = false → queued_tree m = q :: t →
  ∃ m' x, schedule m = Some (m', [FqSend (data x) (data_len x)]) ∧ flows m !! q = Some x ∧ finv m' ∧
    sending_flow m' = Some q ∧ queued_tree m' = t ∧ (∀ f, tm (flows m') f = tm (flows m) f) ∧
    flows_list m' = flows_list m.
Proof.
  intros Hi Hs Hp Hj Hfr Ht. destruct (queued_lookup m q Hi) as (x & Hx & Hqx & _); [rewrite Ht; set_solver |].
  pose proof (fi_sorted m Hi) as Hso. rewrite Ht in Hso. pose proof (sorted_not_in _ _ _ Hso) as Hnq.
  unfold schedule. rewrite Hs, Hp, Hfr, Ht. simpl. rewrite Hx. simpl. rewrite Hqx. simpl.
  rewrite Tree_Remove_head by done. eexists _, x. split; [done |]. split; [done |].
  assert (∀ f, tm (alter (λ x, x <| is_queued := false |>) q (flows m)) f = tm (flows m) f) as Htm
    by (intros f; by apply tm_alter).
  assert (∀ f, is_Some (alter (λ x, x <| is_queued := false |>) q (flows m) !! f) ↔ is_Some (flows m !! f)) as Hsm.
  { intros f. rewrite lookup_alter_if. case_decide; [| done]. by rewrite fmap_is_Some. }
  split; [| split_and!; done].
  split; [| simpl; done]. constructor; simpl.
  - apply Hi.
  - eapply sorted_ext; [| apply StronglySorted_inv in Hso as [Hso _]; exact Hso]. intros f g _ _. by apply before_tm.
  - intros f. rewrite lookup_alter_if. pose proof (fi_tree m Hi f) as Hf. rewrite Ht, elem_of_cons in Hf.
    case_decide as E; [subst f; rewrite Hx; simpl; naive_solver |]. rewrite <- Hf. naive_solver.
  - apply Hi.
  - intros f. rewrite Hsm. apply Hi.
  - intros f y. rewrite lookup_alter_if. case_decide as E.
    + subst f. rewrite Hx. intros [= <-]. destruct (fi_range m Hi q x Hx) as [? _]. done.
    + apply Hi.
  - intros g [= <-]. rewrite lookup_alter_if, decide_True by done. rewrite Hx. simpl.
    split_and!; try done; try apply (fi_range m Hi q x Hx); try done. intros f Hf. rewrite !Htm.
    eapply sorted_head; [exact Hso | set_solver].
  - by rewrite Hp.
Qed.

Lemma job_spec m : finv m → freeing m = false → schedule_job m = true →
  ∃ m' cs, schedule_job_handler m = Some (m', cs) ∧ finv m' ∧ (∀ f, tm (flows m') f = tm (flows m) f) ∧
    flows_list m' = flows_list m ∧
    match queued_tree m with [] => sending_flow m' = None ∧ queued_tree m' = []
    | q :: t => sending_flow m' = Some q ∧ queued_tree m' = t end.
Proof.
  intros [Hi Hpr] Hfr Hj.
  assert (sending_flow m = None) as Hs.
  { destruct (sending_flow m) as [g |] eqn:E; [| done]. destruct (fi_sending m Hi g E) as (_ & _ & ? & _). congruence. }
  unfold schedule_job_handler. cbv zeta. rewrite ASSERT_seq by (simpl; by rewrite Hs). rewrite ASSERT_seq by (simpl; by rewrite Hfr).
  set (m1 := m <| schedule_job := false |> <| previous_flow := None |>).
  assert (fcore m1) as Hi1.
  { constructor; try apply Hi; simpl; [| done]. intros g E. congruence. }
  case_bool_decide as Hne; change (queued_tree m1) with (queued_tree m) in Hne.
  - destruct (queued_tree m) as [| q t] eqn:Ht; [done |].
    destruct (schedule_spec m1 q t) as (m' & x & Hrun & _ & Hi' & ? & ? & ? & ?); [done.. | ].
    exists m', [FqSend (data x) (data_len x)]. done.
  - rewrite Hne. exists m1, []. split; [done |]. split; [| done].
    split; [done |]. by intros.
Qed.

Lemma current_time_spec m : fcore m → ∃ c, get_current_time m = Some c ∧ 0 ≤ c ≤ FAIRQUEUE_MAX_TIME ∧
  (∀ g, sending_flow m = Some g → c = tm (flows m) g).
Proof.
  intros Hi. unfold get_current_time. destruct (sending_flow m) as [g |] eqn:Es.
  - destruct (fi_sending m Hi g Es) as (Hq & _). destruct (flow_lookup m g _ Hq) as (x & Hx & _ & Htx).
    rewrite Hx. simpl. eexists. split; [done |]. split; [apply (fi_range m Hi g x Hx) |]. intros g' [= <-]. done.
  - assert (∃ t0 (h0 : bool), (match Tree_GetFirst (queued_tree m) with
      | Some f => x ← flows m !! f; ASSERT (is_queued x);; Some (time x, true) | None => Some (0, false) end) = Some (t0, h0)
      ∧ 0 ≤ t0 ≤ FAIRQUEUE_MAX_TIME) as (t0 & h0 & -> & Ht0).
    { unfold Tree_GetFirst. destruct (queued_tree m) as [| f t] eqn:Et; simpl; [by exists 0, false |].
      destruct (queued_lookup m f Hi) as (x & Hx & Hqx & _); [rewrite Et; set_solver |].
      rewrite Hx. simpl. rewrite Hqx. simpl. eexists _, _. split; [done |]. apply (fi_range m Hi f x Hx). }
    rewrite option_bind_Some. destruct (previous_flow m) as [g |] eqn:Ep.
    + destruct (fi_previous m Hi g Ep) as [Hq _]. destruct (flow_lookup m g _ Hq) as (x & Hx & _ & _). rewrite Hx. simpl.
      destruct (fi_range m Hi g x Hx) as [Hr _]. destruct (negb h0 || (time x <? t0)); eexists; (split; [done |]); split; try done; case_match; done.
    + eexists. split; [done |]. split; [| done]. by destruct h0.
Qed.

(** Replacing the entry of a flow that is not queued. *)
Lemma fcore_insert m f x y : fcore m → flows m !! f = Some x → is_queued x = false → is_queued y = false →
  0 ≤ time y ≤ FAIRQUEUE_MAX_TIME → (sending_flow m = Some f → time y ≤ time x) →
  fcore (m <| flows := <[f := y]> (flows m) |>).
Proof.
  intros Hi Hx Hqx Hqy Hr Hs.
  assert (f ∉ queued_tree m) as Hnf by (rewrite (fi_tree m Hi), Hx; simpl; congruence).
  assert (∀ g, g ≠ f → tm (<[f := y]> (flows m)) g = tm (flows m) g) as Htm
    by (intros g Hg; unfold tm; by rewrite lookup_insert_ne).
  assert (∀ g, is_queued <$> <[f := y]> (flows m) !! g = is_queued <$> flows m !! g) as Hqq.
  { intros g. destruct (decide (g = f)) as [-> | Hg]; [rewrite lookup_insert_eq, Hx; simpl; congruence | by rewrite lookup_insert_ne]. }
  constructor; simpl; try apply Hi.
  - eapply sorted_ext; [| apply Hi]. intros g h Hg Hh. apply before_tm; apply Htm; set_solver.
  - intros g. rewrite Hqq. apply Hi.
  - intros g. rewrite (fi_list m Hi). destruct (decide (g = f)) as [-> | Hg]; [rewrite lookup_insert_eq, Hx; split; eauto | by rewrite lookup_insert_ne].
  - intros g z. destruct (decide (g = f)) as [-> | Hg]; [rewrite lookup_insert_eq; intros [= <-]; split; congruence |].
    rewrite lookup_insert_ne by done. apply Hi.
  - intros g E. rewrite Hqq. destruct (fi_sending m Hi g E) as (? & ? & ? & ? & Hmin). split_and!; try done; try lia.
    intros h Hh. specialize (Hmin h Hh). rewrite (Htm h) by set_solver.
    destruct (decide (g = f)) as [-> | Hg]; [| by rewrite Htm]. unfold tm at 1. rewrite lookup_insert_eq. simpl.
    rewrite (tm_lookup _ _ _ Hx) in Hmin. specialize (Hs E). lia.
  - intros g E. rewrite Hqq. by apply (fi_previous m Hi).
Qed.

(** Queueing a flow whose time is not before the flow being sent. *)
Lemma fcore_enqueue m f x t : fcore m → flows m !! f = Some x → is_queued x = false → 0 ≤ data_len x ≤ out_mtu m →
  sending_flow m ≠ Some f → previous_flow m ≠ Some f → (∀ g, sending_flow m = Some g → tm (flows m) g ≤ time x) →
  Tree_Insert (flows m) (queued_tree m) f = Some t →
  fcore (m <| queued_tree := t |> <| flows := alter (λ x, x <| is_queued := true |>) f (flows m) |>) ∧
  (∀ g, g ∈ t ↔ g = f ∨ g ∈ queued_tree m) ∧ StronglySorted (before (flows m)) t.
Proof.
  intros Hi Hx Hqx Hl Hs Hp Hmin Ht.
  assert (f ∉ queued_tree m) as Hnf by (rewrite (fi_tree m Hi), Hx; simpl; congruence).
  destruct (Tree_Insert_spec (flows m) f (queued_tree m)) as (t' & Ht' & Hso & Hin); [eauto | | done | apply Hi |].
  { intros g Hg. destruct (queued_lookup m g Hi Hg) as (y & -> & _). eauto. }
  rewrite Ht in Ht'. injection Ht' as <-. split; [| done].
  assert (∀ g, tm (alter (λ x, x <| is_queued := true |>) f (flows m)) g = tm (flows m) g) as Htm
    by (intros; by apply tm_alter).
  constructor; simpl; try apply Hi.
  - eapply sorted_ext; [| exact Hso]. intros g h _ _. by apply before_tm.
  - intros g. rewrite Hin, lookup_alter_if, (fi_tree m Hi). case_decide as E; [subst g; rewrite Hx; naive_solver |]. naive_solver.
  - intros g. rewrite (fi_list m Hi), lookup_alter_if. case_decide; [| done]. by rewrite fmap_is_Some.
  - intros g y. rewrite lookup_alter_if. case_decide as E; [subst g; rewrite Hx; intros [= <-] | apply Hi].
    simpl. destruct (fi_range m Hi f x Hx). done.
  - intros g E. assert (g ≠ f) by congruence. destruct (fi_sending m Hi g E) as (? & ? & ? & ? & Hg).
    rewrite lookup_alter_if, decide_False by done. split_and!; try done; try lia. intros h. rewrite Hin, !Htm.
    intros [-> | Hh]; [rewrite (tm_lookup _ _ _ Hx) |]; auto.
  - intros g E. assert (g ≠ f) by congruence. rewrite lookup_alter_if, decide_False by done. by apply (fi_previous m Hi).
Qed.

Lemma send_spec m f d len : finv m → fenabled m (ESend f d len) = true →
  ∃ m' cs, input_handler_send m f d len = Some (m', cs) ∧ finv m' ∧
    (∀ g, g ≠ f → tm (flows m') g = tm (flows m) g) ∧ tm (flows m) f ≤ tm (flows m') f ∧
    flows_list m' = flows_list m.
Proof.
  intros [Hi Hpr] Hen. unfold fenabled in Hen. b2p.
  destruct (flow_lookup m f false ltac:(done)) as (x & Hx & Hqx & Htx).
  destruct (fi_range m Hi f x Hx) as [Hr _].
  unfold input_handler_send. rewrite Hx, option_bind_Some.
  rewrite ASSERT_seq by (by apply bool_decide_true). rewrite ASSERT_seq by (by rewrite Hqx).
  rewrite ASSERT_seq by (rewrite H; done).
  assert (∃ m1 v, (if bool_decide (previous_flow m = Some f) then Some (m <| previous_flow := None |>)
      else c ← get_current_time m; Some (set_time f (Z.max (time x) c) m)) = Some m1 ∧
      m1 = m <| previous_flow := previous_flow m1 |> <| flows := <[f := x <| time := v |>]> (flows m) |> ∧
      previous_flow m1 ≠ Some f ∧ (∀ g, previous_flow m1 = Some g → previous_flow m = Some g) ∧
      time x ≤ v ≤ FAIRQUEUE_MAX_TIME ∧ (∀ g, sending_flow m = Some g → tm (flows m) g ≤ v))
    as (m1 & v & -> & Hm1 & Hp1 & Hp2 & Hv & Hsv).
  { case_bool_decide as Hp.
    - exists (m <| previous_flow := None |>), (time x). split; [done |]. split_and!; try done; try lia.
      + rewrite insert_id; [done |]. rewrite Hx. by destruct x.
      + intros g E. destruct (fi_sending m Hi g E) as (_ & E' & _). congruence.
    - destruct (current_time_spec m Hi) as (c & -> & Hc & Hsc). simpl. exists (set_time f (Z.max (time x) c) m), (Z.max (time x) c).
      split; [done |]. unfold set_time. rewrite (alter_known _ _ x) by done. split_and!; try done; try lia.
      intros g E. rewrite (Hsc g E). lia. }
  rewrite option_bind_Some. cbv zeta.
  set (p1 := previous_flow m1) in *. set (y := x <| time := v |> <| data := d |> <| data_len := len |>).
  set (m2 := m <| previous_flow := p1 |> <| flows := <[f := y]> (flows m) |>).
  assert (fcore m2) as Hi2.
  { assert (fcore (m <| previous_flow := p1 |>)) as Hi1; [constructor; try apply Hi; simpl |].
    - intros g E. destruct (fi_sending m Hi g E) as (? & Hpn & ? & ? & ?). split_and!; try done; try lia.
      destruct p1 as [h |] eqn:Eh; [| done]. by rewrite (Hp2 h eq_refl) in Hpn.
    - intros g E. apply (fi_previous m Hi). by apply Hp2.
    - pose proof (fcore_insert _ f x y Hi1 Hx Hqx Hqx) as Hc. apply Hc; [simpl; lia |]. by intros ?. }
  assert (flows m2 !! f = Some y) as Hy by (apply lookup_insert_eq).
  assert (m1 <| flows := alter (λ x, x <| data := d |> <| data_len := len |>) f (flows m1) |> = m2) as ->.
  { rewrite Hm1. unfold m2. cbn [flows set]. rewrite (alter_known _ _ (x <| time := v |>)) by apply lookup_insert_eq.
    by rewrite insert_insert_eq. }
  assert (∀ g, g ≠ f → tm (flows m2) g = tm (flows m) g) as Htm by (intros g Hg; unfold tm; simpl; by rewrite lookup_insert_ne).
  destruct (Tree_Insert_spec (flows m2) f (queued_tree m2)) as (t & Ht & Hso & Hin); [eauto | | | apply Hi2 |].
  { intros g Hg. destruct (queued_lookup m2 g Hi2 Hg) as (z & -> & _). eauto. }
  { rewrite (fi_tree m2 Hi2), Hy. simpl. congruence. }
  rewrite Ht, option_bind_Some.
  destruct (fcore_enqueue m2 f y t Hi2 Hy Hqx ltac:(simpl; lia) ltac:(done) Hp1) as (Hi3 & Hin3 & _); [| exact Ht |].
  { intros g E. rewrite Htm by (intros ->; done). apply Hsv. done. }
  set (m3 := m2 <| queued_tree := t |> <| flows := alter (λ x, x <| is_queued := true |>) f (flows m2) |>) in *.
  assert (∀ g, tm (flows m3) g = tm (flows m2) g) as Htm3 by (intros; by apply tm_alter).
  assert (tm (flows m) f ≤ tm (flows m3) f) as Hup by (rewrite Htm3, (tm_lookup _ _ _ Hy), Htx; simpl; lia).
  change (sending_flow m3) with (sending_flow m). change (schedule_job m3) with (schedule_job m).
  destruct (bool_decide (sending_flow m = None) && negb (schedule_job m)) eqn:Ego.
  - b2p. assert (t = [f]) as Et.
    { change (queued_tree m2) with (queued_tree m) in Ht. rewrite (Hpr ltac:(done) ltac:(done) ltac:(done)) in Ht.
      by injection Ht as <-. }
    destruct (schedule_spec m3 f []) as (m' & z & Hrun & _ & Hi' & _ & _ & Htm' & Hsm); [exact Hi3 | done | | done.. | exact Et |].
    { simpl. destruct p1 as [h |] eqn:Eh; [| done]. destruct (fi_previous m Hi h (Hp2 h eq_refl)) as [_ ?]. congruence. }
    exists m', [FqSend (data z) (data_len z)]. split; [exact Hrun |]. split; [exact Hi' |]. split_and!.
    + intros g Hg. by rewrite Htm', Htm3, Htm.
    + by rewrite Htm'.
    + by rewrite Hsm.
  - exists m3, []. split; [done |]. split; [| split_and!; [intros g Hg; by rewrite Htm3, Htm | done | done]].
    split; [done |]. intros _ Hs0 Hj0. simpl in Hs0, Hj0. rewrite Hs0, Hj0 in Ego. done.
Qed.

Lemma done_spec m g : finv m → freeing m = false → sending_flow m = Some g →
  ∃ m' cs x sh, output_handler_done m = Some (m', cs) ∧ finv m' ∧ flows m !! g = Some x ∧
    sending_flow m' = None ∧ queued_tree m' = queued_tree m ∧ flows_list m' = flows_list m ∧
    0 ≤ sh ∧ (∀ f, f ∈ queued_tree m → sh ≤ tm (flows m) f) ∧
    tm (flows m') g = tm (flows m) g + (packet_weight m + sending_len m) - sh ∧
    (∀ f, f ≠ g → tm (flows m') f = Z.max 0 (tm (flows m) f - sh)).
Proof.
  intros [Hi Hpr] Hfr Hs. destruct (fi_sending m Hi g Hs) as (Hq & Hp & Hj & Hl & Hmin).
  destruct (flow_lookup m g _ Hq) as (x & Hx & Hqx & Htx). pose proof (fi_cfg m Hi) as (Hw & Hmt & Hmax).
  unfold output_handler_done. rewrite Hs, option_bind_Some, Hx, option_bind_Some.
  rewrite ASSERT_seq by (by rewrite Hp). rewrite ASSERT_seq by (by rewrite Hj).
  rewrite ASSERT_seq by (by rewrite Hfr). rewrite ASSERT_seq by (by rewrite Hqx). cbv zeta.
  set (amount := packet_weight m + sending_len m).
  assert (u64 amount = amount) as Ha by (apply u64_small; unfold FAIRQUEUE_MAX_TIME, UINT64_MAX, amount in *; lia).
  destruct (increment_spec m g x amount Hi Hs Hx) as (fs & sh & Hrun & Hsh & Hle & Hrg & Hfs).
  { unfold amount. lia. }
  set (m1 := m <| sending_flow := None |> <| previous_flow := Some g |>) in *.
  change (packet_weight m1 + sending_len m1) with amount. rewrite Ha, Hrun, option_bind_Some.
  assert (∀ f y, flows m !! f = Some y → fs !! f = Some (bump g amount sh f y)) as Hlk by (intros f y Hy; by rewrite Hfs, Hy).
  assert (∀ f, is_queued <$> fs !! f = is_queued <$> flows m !! f) as Hqq.
  { intros f. rewrite Hfs. by destruct (flows m !! f). }
  assert (∀ f, f ∈ queued_tree m → tm fs f = tm (flows m) f - sh) as Htq.
  { intros f Hf. destruct (queued_lookup m f Hi Hf) as (y & Hy & Hqy & Hty). specialize (Hle f Hf).
    rewrite (tm_lookup _ _ _ (Hlk f y Hy)). unfold bump. rewrite decide_False by (intros ->; congruence). simpl. lia. }
  assert (tm fs g = tm (flows m) g + amount - sh) as Htg.
  { rewrite (tm_lookup _ _ _ (Hlk g x Hx)), Htx. unfold bump. by rewrite decide_True. }
  assert (∀ f, f ≠ g → tm fs f = Z.max 0 (tm (flows m) f - sh)) as Hto.
  { intros f Hf. unfold tm. rewrite Hfs. destruct (flows m !! f) as [y |]; simpl; [| lia]. by rewrite decide_False. }
  assert (fcore (m1 <| flows := fs |> <| schedule_job := true |>)) as Hi'.
  { constructor; simpl; try apply Hi.
    - eapply sorted_ext; [| apply Hi]. intros f h Hf Hh. unfold before. rewrite (Htq f), (Htq h) by done. lia.
    - intros f. rewrite Hqq. apply Hi.
    - intros f. rewrite (fi_list m Hi), Hfs. by rewrite fmap_is_Some.
    - intros f y'. rewrite Hfs. destruct (flows m !! f) as [y |] eqn:Ey; [| done]. intros [= <-].
      destruct (fi_range m Hi f y Ey) as [Hry Hly]. unfold bump. simpl. split; [| done].
      case_decide; [subst f; rewrite Hx in Ey; injection Ey as <-; lia | lia].
    - done.
    - intros f [= <-]. rewrite Hqq, Hx. simpl. by rewrite Hqx. }
  change (flows (_ <| schedule_job := true |>)) with fs. rewrite (Hlk g x Hx), option_bind_Some.
  set (m2 := m1 <| flows := fs |> <| schedule_job := true |>) in *.
  assert (finv m2) as Hf2 by (split; [done | by intros]).
  destruct (handler_busy (bump g amount sh g x)) as [h |].
  - exists (m2 <| flows := alter (λ x, x <| handler_busy := None |>) g (flows m2) |>), [FqDone g; FqBusy h], x, sh.
    split; [done |].
    assert (∀ f, tm (alter (λ x, x <| handler_busy := None |>) g fs) f = tm fs f) as Htm by (intros; by apply tm_alter).
    split; [| split_and!; try done; simpl; [by rewrite Htm | intros f Hne; rewrite Htm; by apply Hto]].
    assert (flows m2 !! g = Some (bump g amount sh g x)) as Hb by (apply Hlk; done).
    split; [| by intros]. rewrite (alter_known _ (flows m2) _ _ Hb).
    apply (fcore_insert m2 g (bump g amount sh g x)); try done. apply (fi_range _ Hi' g _ Hb).
  - exists m2, [FqDone g], x, sh. split; [done |]. split; [done |]. split_and!; done.
Qed.

Lemma init_flow_spec m f : finv m → fenabled m (EInit f) = true →
  ∃ m', PacketPassFairQueueFlow_Init m f = Some m' ∧ finv m'.
Proof.
  intros [Hi Hpr] Hen. unfold fenabled in Hen. b2p. unfold PacketPassFairQueueFlow_Init.
  rewrite ASSERT_seq by (by rewrite H). eexists. split; [done |].
  assert (f ∉ flows_list m) as Hnl by (rewrite (fi_list m Hi), H0; by intros [? ?]).
  assert (f ∉ queued_tree m) as Hnq by (rewrite (fi_tree m Hi), H0; done).
  set (x := mk_flow 0 false 0 0 None).
  assert (∀ g, g ≠ f → <[f := x]> (flows m) !! g = flows m !! g) as Hne by (intros; by apply lookup_insert_ne).
  assert (∀ g, g ≠ f → tm (<[f := x]> (flows m)) g = tm (flows m) g) as Htm by (intros g Hg; unfold tm; by rewrite Hne).
  assert (∀ g b, is_queued <$> flows m !! g = Some b → g ≠ f) as Hgf by (intros g b E ->; by rewrite H0 in E).
  split; [| done]. constructor; simpl; try apply Hi.
  - eapply sorted_ext; [| apply Hi]. intros g h Hg Hh. apply before_tm; apply Htm; set_solver.
  - intros g. rewrite (fi_tree m Hi). destruct (decide (g = f)) as [-> | Hg]; [| by rewrite Hne].
    rewrite H0, lookup_insert_eq. done.
  - apply NoDup_app. split_and!; [apply Hi | set_solver | apply NoDup_singleton].
  - intros g. rewrite elem_of_app, (fi_list m Hi), list_elem_of_singleton.
    destruct (decide (g = f)) as [-> | Hg]; [rewrite lookup_insert_eq; split; eauto | rewrite Hne by done; naive_solver].
  - intros g y. destruct (decide (g = f)) as [-> | Hg]; [rewrite lookup_insert_eq; intros [= <-] | rewrite Hne by done; apply Hi].
    simpl. split; [unfold FAIRQUEUE_MAX_TIME, UINT64_MAX; lia | done].
  - intros g E. destruct (fi_sending m Hi g E) as (Hq & ? & ? & ? & Hmin). pose proof (Hgf g _ Hq).
    rewrite Hne by done. split_and!; try done; try lia. intros h Hh. rewrite !Htm by (done || set_solver). by apply Hmin.
  - intros g E. destruct (fi_previous m Hi g E) as [Hq ?]. rewrite Hne by (by eapply Hgf). done.
Qed.

Lemma free_flow_spec m f : finv m → fenabled m (EFree f) = true →
  ∃ m', PacketPassFairQueueFlow_Free m f = Some m' ∧ finv m'.
Proof.
  intros [Hi Hpr] Hen. unfold fenabled in Hen. apply andb_prop in Hen as [H1 H2]. b2p. destruct H1 as [x Hx].
  unfold PacketPassFairQueueFlow_Free. rewrite Hx, option_bind_Some, ASSERT_seq by done. cbv zeta.
  set (s' := if bool_decide (sending_flow m = Some f) then None else sending_flow m).
  set (p' := if bool_decide (previous_flow m = Some f) then None else previous_flow m).
  set (m' := m <| sending_flow := s' |> <| previous_flow := p' |> <| queued_tree := Tree_Remove (queued_tree m) f |>
    <| flows_list := filter (λ g, g ≠ f) (flows_list m) |> <| flows := delete f (flows m) |>).
  exists m'. split.
  { assert (is_queued x = false → Tree_Remove (queued_tree m) f = queued_tree m) as Hrm.
    { intros Hq. apply Tree_Remove_notin. rewrite (fi_tree m Hi), Hx. simpl. congruence. }
    unfold m', s', p'. f_equal. destruct (is_queued x); repeat case_bool_decide; destruct m; simpl in *; try done; by rewrite Hrm by done. }
  assert (∀ g, g ≠ f → delete f (flows m) !! g = flows m !! g) as Hne by (intros; by apply lookup_delete_ne).
  assert (∀ g, g ≠ f → tm (delete f (flows m)) g = tm (flows m) g) as Htm by (intros g Hg; unfold tm; by rewrite Hne).
  assert (∀ (o : option addr) g, (if bool_decide (o = Some f) then None else o) = Some g → o = Some g ∧ g ≠ f) as Hdrop.
  { intros o g. clear H2. case_bool_decide as E; [done |]. intros E'. split; [done |]. congruence. }
  assert (∀ g, s' = Some g → sending_flow m = Some g ∧ g ≠ f) as Hs' by (intros g; apply Hdrop).
  assert (∀ g, p' = Some g → previous_flow m = Some g ∧ g ≠ f) as Hp' by (intros g; apply Hdrop).
  split.
  - constructor; simpl; try apply Hi.
    + eapply sorted_ext; [| apply sorted_filter, Hi]. intros g h Hg Hh.
      apply elem_of_Tree_Remove in Hg as [? _], Hh as [? _]. by apply before_tm; apply Htm.
    + intros g. rewrite elem_of_Tree_Remove, (fi_tree m Hi). destruct (decide (g = f)) as [-> | Hg].
      * rewrite lookup_delete_eq. naive_solver.
      * rewrite Hne by done. naive_solver.
    + apply NoDup_filter, Hi.
    + intros g. rewrite list_elem_of_filter, (fi_list m Hi). destruct (decide (g = f)) as [-> | Hg].
      * rewrite lookup_delete_eq. split; [naive_solver | by intros [? ?]].
      * rewrite Hne by done. naive_solver.
    + intros g y. destruct (decide (g = f)) as [-> | Hg]; [by rewrite lookup_delete_eq | rewrite Hne by done; apply Hi].
    + intros g E. destruct (Hs' g E) as [E' Hg]. destruct (fi_sending m Hi g E') as (? & Hpn & ? & ? & Hmin).
      rewrite Hne by done. split_and!; try done; try lia.
      * unfold p'. by rewrite Hpn.
      * intros h [Hh ?]%elem_of_Tree_Remove. rewrite !Htm by done. by apply Hmin.
    + intros g E. destruct (Hp' g E) as [E' Hg]. rewrite Hne by done. by apply (fi_previous m Hi).
  - simpl. intros Hfr Hs Hj. assert (sending_flow m = None) as Hsn.
    { rewrite Hfr in H2. simpl in H2. b2p. unfold s' in Hs. by rewrite bool_decide_false in Hs by done. }
    by rewrite (Hpr Hfr Hsn Hj).
Qed.

Lemma finv_step m e : finv m → fenabled m e = true → ∃ m' cs, fstep m e = Some (m', cs) ∧ finv m'.
Proof.
  intros Hf Hen. pose proof Hf as [Hi Hpr]. destruct e; cbn [fstep].
  - destruct (init_flow_spec m f Hf Hen) as (m' & -> & ?). simpl. eauto.
  - destruct (free_flow_spec m f Hf Hen) as (m' & -> & ?). simpl. eauto.
  - destruct (send_spec m f d len Hf Hen) as (m' & cs & -> & ? & _). eauto.
  - unfold fenabled in Hen. b2p. destruct H0 as [g Hg].
    destruct (done_spec m g Hf ltac:(done) Hg) as (m' & cs & x & sh & -> & ? & _). eauto.
  - unfold fenabled in Hen. b2p. destruct (job_spec m Hf ltac:(done) ltac:(done)) as (m' & cs & -> & ? & _). eauto.
  - unfold fenabled in Hen. b2p. unfold PacketPassFairQueueFlow_SetBusyHandler.
    rewrite ASSERT_seq by (by apply bool_decide_true). rewrite ASSERT_seq by (by rewrite H). simpl.
    destruct (fi_sending m Hi f ltac:(done)) as (Hq & _). destruct (flow_lookup m f _ Hq) as (x & Hx & Hqx & _).
    eexists _, _. split; [done |]. split; [| done]. rewrite (alter_known _ _ x) by done.
    apply (fcore_insert m f x); try done. apply (fi_range m Hi f x Hx).
  - unfold fenabled in Hen. b2p. unfold PacketPassFairQueueFlow_RequestCancel.
    destruct (fi_sending m Hi f ltac:(done)) as (_ & _ & Hj & _).
    rewrite ASSERT_seq by (by apply bool_decide_true). rewrite ASSERT_seq by done.
    rewrite ASSERT_seq by (by rewrite H). rewrite ASSERT_seq by (by rewrite Hj). simpl. eauto.
  - eexists _, _. split; [done |]. split; [| by intros]. constructor; apply Hi.
Qed.

Lemma frun_inv es : ∀ m, finv m → ∃ m', frun m es = Some m' ∧ finv m'.
Proof.
  induction es as [| e es IH]; intros m Hf; simpl; [eauto |]. destruct (fenabled m e) eqn:E; [| eauto].
  destruct (finv_step m e Hf E) as (m' & cs & -> & Hf'). simpl. eauto.
Qed.

Lemma init_inv mtu hc uc w m : 0 ≤ mtu → PacketPassFairQueue_Init mtu hc uc w = Some (Some m) → finv m.
Proof.
  intros Hm. unfold PacketPassFairQueue_Init. unfold ASSERT. repeat (case_if; simpl; try done). intros [= <-].
  assert (∀ f : addr, (∅ : gmap addr flow) !! f = None) as He by (intros; apply lookup_empty).
  split; [| done]. constructor; simpl; try done; try lia.
  - constructor.
  - intros f. rewrite He. split; [set_solver | done].
  - constructor.
  - intros f. rewrite He. split; [set_solver | by intros [? ?]].
Qed.

(** [C23] The fair queue keeps its invariant. From initialisation, under every
    sequence of calls and completions its users may make, no assertion fails (the
    tree insertion finds no equal entry, the shift of times never takes a queued
    flow below zero), the tree stays sorted by the current times although the
    times of queued flows change, the flow being sent is never after a queued one,
    and the queue never holds packets without sending or having its job set. *)
Theorem fairqueue_invariant mtu has_cancel cancel weight m es :
  0 ≤ mtu → PacketPassFairQueue_Init mtu has_cancel cancel weight = Some (Some m) →
  ∃ m', frun m es = Some m' ∧ finv m'.
Proof. intros Hm Hin. eapply frun_inv, init_inv; eauto. Qed.

Lemma fairqueue_invariant_witness :
  ∃ m', frun (mk_PacketPassFairQueue 100 false 5 None 0 None [] [] ∅ false false)
    [EInit 1; EInit 2; ESend 1 10 50; ESend 2 20 7; EOutDone; ESend 1 11 3; EJob; EFree 1; EOutDone; EJob]%nat = Some m' ∧ finv m'.
Proof. apply (fairqueue_invariant 100 true false 5); [lia | vm_compute; reflexivity]. Defined.

(** [C24] Overflow of the virtual time is invisible. When a packet is done, the
    times change as with unbounded integers: there is one amount [sh], at most the
    time of any queued flow, such that the sender's time becomes its time plus
    the packet's weight minus [sh] and every other time is lowered by [sh] (not
    below zero for idle flows); no 64-bit wrap-around is left in the result. *)
Theorem fairqueue_time_exact m g : finv m → freeing m = false → sending_flow m = Some g →
  ∃ m' cs sh, output_handler_done m = Some (m', cs) ∧ 0 ≤ sh ∧
    (∀ f, f ∈ queued_tree m → sh ≤ tm (flows m) f) ∧
    tm (flows m') g = tm (flows m) g + (packet_weight m + sending_len m) - sh ∧
    (∀ f, f ≠ g → tm (flows m') f = Z.max 0 (tm (flows m) f - sh)) ∧
    ∀ f, is_Some (flows m' !! f) → 0 ≤ tm (flows m') f ≤ FAIRQUEUE_MAX_TIME.
Proof.
  intros Hf Hfr Hs. destruct (done_spec m g Hf Hfr Hs) as (m' & cs & x & sh & H & [Hi' _] & _ & _ & _ & _ & ? & ? & ? & ?).
  exists m', cs, sh. split_and!; try done. intros f [y Hy]. rewrite (tm_lookup _ _ _ Hy). apply (fi_range m' Hi' f y Hy).
Qed.

(** A state with times close to the limit: flow 1 is being sent, flow 2 waits. *)
Definition near_overflow : PacketPassFairQueue :=
  mk_PacketPassFairQueue 100 false 5 (Some 1%nat) 50 None [2%nat] [1; 2; 3]%nat
    {[ 1%nat := mk_flow (FAIRQUEUE_MAX_TIME - 20) false 10 50 None;
       2%nat := mk_flow (FAIRQUEUE_MAX_TIME - 10) true 20 7 None;
       3%nat := mk_flow 4 false 0 0 None ]} false false.

Lemma near_overflow_inv : finv near_overflow.
Proof.
  assert (∀ f x, flows near_overflow !! f = Some x →
    (f = 1%nat ∧ x = mk_flow (FAIRQUEUE_MAX_TIME - 20) false 10 50 None) ∨
    (f = 2%nat ∧ x = mk_flow (FAIRQUEUE_MAX_TIME - 10) true 20 7 None) ∨ (f = 3%nat ∧ x = mk_flow 4 false 0 0 None)) as Hl.
  { intros f x. simpl. rewrite !lookup_insert_Some, lookup_singleton_Some. naive_solver. }
  split; [| done]. constructor; simpl; try done.
  - repeat constructor.
  - intros f. rewrite list_elem_of_singleton. split; [by intros -> |].
    destruct (flows near_overflow !! f) as [x |] eqn:E; change (flows near_overflow) with
      ({[ 1%nat := mk_flow (FAIRQUEUE_MAX_TIME - 20) false 10 50 None; 2%nat := mk_flow (FAIRQUEUE_MAX_TIME - 10) true 20 7 None;
         3%nat := mk_flow 4 false 0 0 None ]} : gmap addr flow) in E; rewrite E; [| done].
    destruct (Hl f x E) as [[-> ->] | [[-> ->] | [-> ->]]]; naive_solver.
  - repeat (constructor; [set_solver |]). constructor.
  - intros f. split; [intros Hf; repeat (apply elem_of_cons in Hf as [-> | Hf]; [vm_compute; eauto |]); set_solver |].
    intros [x Hx]. destruct (Hl f x Hx) as [[-> _] | [[-> _] | [-> _]]]; set_solver.
  - intros f x Hx. destruct (Hl f x Hx) as [[-> ->] | [[-> ->] | [-> ->]]]; simpl; unfold FAIRQUEUE_MAX_TIME, UINT64_MAX; lia.
  - intros g [= <-]. split_and!; try done. intros f ->%list_elem_of_singleton. vm_compute. done.
Qed.

Lemma fairqueue_time_exact_witness :
  ∃ m' cs sh, output_handler_done near_overflow = Some (m', cs) ∧ 0 ≤ sh ∧
    (∀ f, f ∈ queued_tree near_overflow → sh ≤ tm (flows near_overflow) f) ∧
    tm (flows m') 1 = tm (flows near_overflow) 1 + (5 + 50) - sh ∧
    (∀ f, f ≠ 1%nat → tm (flows m') f = Z.max 0 (tm (flows near_overflow) f - sh)) ∧
    ∀ f, is_Some (flows m' !! f) → 0 ≤ tm (flows m') f ≤ FAIRQUEUE_MAX_TIME.
Proof. apply (fairqueue_time_exact near_overflow 1); [exact near_overflow_inv | reflexivity | reflexivity]. Defined.

(** ** No starvation *)

(** Events that create or destroy no flow. *)
Definition ordinary (e : fevent) : Prop :=
  match e with EInit _ | EFree _ | EPrepareFree => False | _ => True end.

(** Packets completed while [f] waits in the queue, in the run of [es]. *)
Fixpoint served_before (f : addr) (m : PacketPassFairQueue) (es : list fevent) : option nat :=
  match es with
  | [] => Some 0%nat
  | e :: es =>
      if fenabled m e then
        '(m', _) ← fstep m e;
        if decide (f ∈ queued_tree m') then
          n ← served_before f m' es; Some (match e with EOutDone => S n | _ => n end)
        else Some 0%nat
      else served_before f m es
  end.

(** How far the other flows are behind [f]. *)
Definition lag (fs : gmap addr flow) (f g : addr) : Z := if decide (g = f) then 0 else Z.max 0 (tm fs f - tm fs g + 1).
Definition backlog (m : PacketPassFairQueue) (f : addr) : Z := foldr (λ g n, lag (flows m) f g + n) 0 (flows_list m).

Lemma sum_mono (a b : addr → Z) l : (∀ g, g ∈ l → a g ≤ b g) →
  foldr (λ g n, a g + n) 0 l ≤ foldr (λ g n, b g + n) 0 l.
Proof. induction l as [| g l IH]; intros H; simpl; [lia |]. pose proof (H g). specialize (IH ltac:(set_solver)). set_solver by lia. Qed.

Lemma sum_strict (a b : addr → Z) l h : (∀ g, g ∈ l → a g ≤ b g) → h ∈ l → a h < b h →
  foldr (λ g n, a g + n) 0 l < foldr (λ g n, b g + n) 0 l.
Proof.
  induction l as [| g l IH]; intros H Hh Hlt; simpl; [set_solver |].
  pose proof (H g ltac:(set_solver)) as Hg. apply elem_of_cons in Hh as [-> | Hh].
  - pose proof (sum_mono a b l ltac:(set_solver)). lia.
  - specialize (IH ltac:(set_solver) Hh Hlt). lia.
Qed.

Lemma sum_nonneg (a : addr → Z) l : (∀ g, 0 ≤ a g) → 0 ≤ foldr (λ g n, a g + n) 0 l.
Proof. intros H. induction l as [| g l IH]; simpl; [lia |]. specialize (H g). lia. Qed.

Lemma step_lag m e m' cs f : finv m → ordinary e → fenabled m e = true → fstep m e = Some (m', cs) → f ∈ queued_tree m →
  flows_list m' = flows_list m ∧ (∀ g, lag (flows m') f g ≤ lag (flows m) f g) ∧
  (e = EOutDone → ∃ g, g ∈ flows_list m ∧ lag (flows m') f g < lag (flows m) f g).
Proof.
  intros Hf Ho Hen Hst Hq. pose proof Hf as [Hi _]. destruct (queued_lookup m f Hi Hq) as (x & Hx & Hqx & _).
  assert (∀ m2, (∀ g, tm (flows m2) g = tm (flows m) g) → ∀ g, lag (flows m2) f g ≤ lag (flows m) f g) as Hsame.
  { intros m2 H g. unfold lag. rewrite !H. lia. }
  destruct e; simpl in Ho; try done; cbn [fstep] in Hst.
  - destruct (send_spec m f0 d len Hf Hen) as (m2 & cs2 & E & _ & Hne & Hle & Hl). rewrite E in Hst. injection Hst as <- <-.
    split; [done |]. split; [| done]. unfold fenabled in Hen. b2p.
    assert (f ≠ f0) as Hff by (intros ->; rewrite Hx in H3; simpl in H3; congruence).
    intros g. unfold lag. case_decide; [lia |]. rewrite (Hne f Hff). destruct (decide (g = f0)) as [-> | Hg]; [lia |]. rewrite (Hne g Hg). lia.
  - unfold fenabled in Hen. b2p. destruct H0 as [g Hg].
    destruct (done_spec m g Hf ltac:(done) Hg) as (m2 & cs2 & y & sh & E & _ & Hy & _ & _ & Hl & Hsh & Hle & Htg & Hto).
    rewrite E in Hst. injection Hst as <- <-. split; [done |].
    destruct (fi_sending m Hi g Hg) as (Hqg & _ & _ & Hsl & Hmin). pose proof (fi_cfg m Hi) as (Hw & _).
    assert (f ≠ g) as Hfg by (intros ->; rewrite Hx in Hqg; simpl in Hqg; congruence).
    specialize (Hle f Hq). specialize (Hmin f Hq).
    assert (lag (flows m2) f g < lag (flows m) f g) as Hlt.
    { unfold lag. rewrite !(decide_False (P := g = f)) by done. rewrite Htg, (Hto f) by done.  lia. }
    split; [| intros _; exists g; split; [apply (fi_list m Hi); eauto | done]].
    intros h. destruct (decide (h = g)) as [-> | Hh]; [lia |]. unfold lag. case_decide; [lia |]. rewrite (Hto f), (Hto h) by done. lia.
  - unfold fenabled in Hen. b2p. destruct (job_spec m Hf ltac:(done) ltac:(done)) as (m2 & cs2 & E & _ & Htm & Hl & _).
    rewrite E in Hst. injection Hst as <- <-. split; [done |]. split; [by apply Hsame | done].
  - unfold PacketPassFairQueueFlow_SetBusyHandler in Hst. apply bind_Some in Hst as (m2 & Hst & [= <- <-]).
    do 2 (apply bind_Some in Hst as (? & _ & Hst)). injection Hst as <-. split; [done |]. split; [| done].
    apply Hsame. intros g. by apply tm_alter.
  - apply bind_Some in Hst as (cs2 & _ & [= <- <-]). split; [done |]. split; [lia | done].
Qed.

Lemma served_bound es : ∀ m f, finv m → f ∈ queued_tree m → Forall ordinary es →
  ∃ n, served_before f m es = Some n ∧ Z.of_nat n ≤ backlog m f.
Proof.
  assert (∀ m f, 0 ≤ backlog m f) as Hnn.
  { intros m f. apply sum_nonneg. intros g. unfold lag. case_decide; lia. }
  induction es as [| e es IH]; intros m f Hf Hq Ho; cbn [served_before]; [exists 0%nat; split; [done | apply Hnn] |].
  apply Forall_cons_1 in Ho as [He Ho]. destruct (fenabled m e) eqn:Een; [| auto].
  destruct (finv_step m e Hf Een) as (m' & cs & Hst & Hf'). rewrite Hst. simpl.
  destruct (step_lag m e m' cs f Hf He Een Hst Hq) as (Hl & Hle & Hlt).
  case_decide as Hq'; [| exists 0%nat; split; [done | apply Hnn]].
  destruct (IH m' f Hf' Hq' Ho) as (n & -> & Hn). simpl. unfold backlog in *. rewrite Hl in Hn.
  pose proof (sum_mono (lag (flows m') f) (lag (flows m) f) (flows_list m) ltac:(auto)) as Hmono.
  destruct e; try (eexists; split; [done |]; lia).
  destruct (Hlt eq_refl) as (g & Hg & Hgl).
  pose proof (sum_strict (lag (flows m') f) (lag (flows m) f) (flows_list m) g ltac:(auto) Hg Hgl).
  eexists. split; [done |]. lia.
Qed.

(** [C25] No flow starves. While a flow waits in the queue, for as long as no flow is
    created or removed ([ordinary]), at most [backlog] packets of other flows are
    completed: the number of units of virtual time by which the flows present are
    behind it. A flow that is created meanwhile starts at the smallest time, so that
    the bound is not one for queues that change. *)
Theorem fairqueue_no_starvation mtu has_cancel cancel weight m0 es0 m f es :
  0 ≤ mtu → PacketPassFairQueue_Init mtu has_cancel cancel weight = Some (Some m0) →
  frun m0 es0 = Some m → f ∈ queued_tree m → Forall ordinary es →
  ∃ n, served_before f m es = Some n ∧ Z.of_nat n ≤ backlog m f.
Proof.
  intros Hm Hin Hrun Hq Ho. destruct (frun_inv es0 m0 (init_inv _ _ _ _ _ Hm Hin)) as (m' & Hrun' & Hf).
  rewrite Hrun in Hrun'. injection Hrun' as <-. by apply served_bound.
Qed.

Definition two_flows : PacketPassFairQueue :=
  let m0 := mk_PacketPassFairQueue 100 false 5 None 0 None [] [] ∅ false false in
  default m0 (frun m0 [EInit 1; EInit 2; ESend 1 10 50; ESend 2 20 7]%nat).

Lemma fairqueue_no_starvation_witness :
  ∃ n, served_before 2%nat two_flows [EOutDone; ESend 1%nat 11 3; EJob; EOutDone] = Some n ∧ Z.of_nat n ≤ backlog two_flows 2%nat.
Proof.
  apply (fairqueue_no_starvation 100 true false 5 (mk_PacketPassFairQueue 100 false 5 None 0 None [] [] ∅ false false)
    [EInit 1; EInit 2; ESend 1 10 50; ESend 2 20 7]%nat).
  - lia.
  - vm_compute. reflexivity.
  - vm_compute. reflexivity.
  - apply (bool_decide_eq_true_1 (2%nat ∈ queued_tree two_flows)). vm_compute. reflexivity.
  - repeat constructor.
Defined.
