(* ===== verification/BAddr.v ===== *)
(** * Socket addresses (system/BAddr.h)

    Ports and IPv4 addresses are kept in network byte order, as the integer the
    little-endian host reads from that memory; an IPv6 address is its 16 bytes.
    Packet (data link) addresses, which only other programs of the repository use,
    are left out. *)
From S2P Require Import Prelude ByteOrder.

Inductive BAddr :=
| BADDR_NONE
| BADDR_IPV4 (ip port : Z)
| BADDR_IPV6 (ip6 : bytes) (port : Z).

#[export] Instance BAddr_eq_dec : EqDecision BAddr.
Proof. solve_decision. Defined.

Definition BAddr_type (a : BAddr) : Z := match a with BADDR_NONE => 0 | BADDR_IPV4 _ _ => 1 | BADDR_IPV6 _ _ => 2 end.

Definition BAddr_MakeNone : BAddr := BADDR_NONE.
Definition BAddr_MakeIPv4 (ip port : Z) : BAddr := BADDR_IPV4 ip port.
Definition BAddr_MakeIPv6 (ip : bytes) (port : Z) : BAddr := BADDR_IPV6 (ztake 16 ip) port.
Definition BAddr_InitNone : BAddr := BAddr_MakeNone.
Definition BAddr_InitIPv4 (ip port : Z) : BAddr := BAddr_MakeIPv4 ip port.
Definition BAddr_InitIPv6 (ip : bytes) (port : Z) : BAddr := BAddr_MakeIPv6 ip port.

(** An address without a port. *)
Inductive BIPAddr := BIPADDR_NONE | BIPADDR_IPV4 (ip : Z) | BIPADDR_IPV6 (ip6 : bytes).
#[export] Instance BIPAddr_eq_dec : EqDecision BIPAddr.
Proof. solve_decision. Defined.

Definition BIPAddr_type (a : BIPAddr) : Z := match a with BIPADDR_NONE => 0 | BIPADDR_IPV4 _ => 1 | BIPADDR_IPV6 _ => 2 end.
Definition BIPAddr_InitInvalid : BIPAddr := BIPADDR_NONE.
Definition BIPAddr_InitIPv4 (ip : Z) : BIPAddr := BIPADDR_IPV4 ip.
Definition BIPAddr_InitIPv6 (ip : bytes) : BIPAddr := BIPADDR_IPV6 (ztake 16 ip).

Definition BAddr_IsInvalid (a : BAddr) : bool := BAddr_type a =? 0.

Definition BAddr_GetPort (a : BAddr) : option Z :=
  match a with BADDR_NONE => None | BADDR_IPV4 _ port => Some port | BADDR_IPV6 _ port => Some port end.

(** [memcmp] of two byte strings of the same length; its sign is what is used. *)
Fixpoint memcmp (l k : bytes) : Z :=
  match l, k with
  | x :: l, y :: k => if x =? y then memcmp l k else x - y
  | _, _ => 0
  end.

Definition BAddr_Compare (a1 a2 : BAddr) : bool :=
  if negb (BAddr_type a1 =? BAddr_type a2) then false else
  match a1, a2 with
  | BADDR_IPV4 ip1 port1, BADDR_IPV4 ip2 port2 => (ip1 =? ip2) && (port1 =? port2)
  | BADDR_IPV6 ip1 port1, BADDR_IPV6 ip2 port2 => (memcmp ip1 ip2 =? 0) && (port1 =? port2)
  | _, _ => false
  end.

Definition BAddr_CompareOrder (a1 a2 : BAddr) : Z :=
  let cmp := B_COMPARE (BAddr_type a1) (BAddr_type a2) in
  if negb (cmp =? 0) then cmp else
  match a1, a2 with
  | BADDR_IPV4 ip1 port1, BADDR_IPV4 ip2 port2 =>
      let cmp := B_COMPARE (ntoh32 ip1) (ntoh32 ip2) in
      if negb (cmp =? 0) then cmp else B_COMPARE (ntoh16 port1) (ntoh16 port2)
  | BADDR_IPV6 ip1 port1, BADDR_IPV6 ip2 port2 =>
      let cmp := memcmp ip1 ip2 in
      if negb (cmp =? 0) then B_COMPARE cmp 0 else B_COMPARE (ntoh16 port1) (ntoh16 port2)
  | _, _ => 0
  end.

Definition BAddr_wf (a : BAddr) : Prop :=
  match a with
  | BADDR_NONE => True
  | BADDR_IPV4 ip port => 0 ≤ ip < 2 ^ 32 ∧ 0 ≤ port < 65536
  | BADDR_IPV6 ip port => zlen ip = 16 ∧ wf_bytes ip ∧ 0 ≤ port < 65536
  end.

(** ** Order *)

Lemma memcmp_zero l : ∀ k, length l = length k → memcmp l k = 0 ↔ l = k.
Proof.
  induction l as [| x l IH]; intros [| y k] Hl; simpl in *; try done. injection Hl as Hl.
  destruct (x =? y) eqn:E; b2p; [subst y; rewrite IH by done; naive_solver |].
  split; [intros; lia | intros [= -> ->]; lia].
Qed.

Lemma memcmp_anti l : ∀ k, memcmp k l = - memcmp l k.
Proof.
  induction l as [| x l IH]; intros [| y k]; simpl; try done. rewrite (Z.eqb_sym y x).
  destruct (x =? y) eqn:E; [apply IH | lia].
Qed.

Lemma memcmp_trans l : ∀ k m, length l = length k → length k = length m →
  memcmp l k < 0 → memcmp k m < 0 → memcmp l m < 0.
Proof.
  induction l as [| x l IH]; intros [| y k] [| z m] H1 H2; simpl in *; try done. injection H1 as H1. injection H2 as H2.
  destruct (x =? y) eqn:E1, (y =? z) eqn:E2; b2p; subst.
  - rewrite Z.eqb_refl. by apply IH.
  - rewrite (proj2 (Z.eqb_neq _ _)) by done. lia.
  - rewrite (proj2 (Z.eqb_neq _ _)) by done. lia.
  - intros. rewrite (proj2 (Z.eqb_neq _ _)) by lia. lia.
Qed.

Lemma ntoh32_inj x y : 0 ≤ x < 2 ^ 32 → 0 ≤ y < 2 ^ 32 → ntoh32 x = ntoh32 y → x = y.
Proof.
  intros Hx Hy E. rewrite <- (le_val_rev_rev 4 x), <- (le_val_rev_rev 4 y) by lia.
  rewrite <- !hton32_rev. unfold ntoh32 in E. by rewrite E.
Qed.

Lemma zlen_length {A} (l : list A) n : zlen l = Z.of_nat n → length l = n.
Proof. unfold zlen. lia. Qed.

Lemma CompareOrder_anti a b : BAddr_CompareOrder b a = - BAddr_CompareOrder a b.
Proof.
  assert (∀ x y, B_COMPARE y x = - B_COMPARE x y) as Ha
    by (intros x y; pose proof (B_COMPARE_cases x y); pose proof (B_COMPARE_cases y x); lia).
  unfold BAddr_CompareOrder. rewrite (Ha (BAddr_type a)).
  destruct a as [| ip1 p1 | ip1 p1], b as [| ip2 p2 | ip2 p2]; try done; cbv zeta;
    change (B_COMPARE _ (BAddr_type _)) with 0; cbn [Z.opp Z.eqb negb].
  - rewrite (Ha (ntoh32 ip1)), (Ha (ntoh16 p1)). pose proof (B_COMPARE_cases (ntoh32 ip1) (ntoh32 ip2)). repeat case_if; lia.
  - rewrite (memcmp_anti ip1 ip2), (Ha (ntoh16 p1)). repeat case_if; try lia.
    pose proof (B_COMPARE_cases (memcmp ip1 ip2) 0). pose proof (B_COMPARE_cases (- memcmp ip1 ip2) 0). lia.
Qed.

Lemma CompareOrder_zero a b : BAddr_wf a → BAddr_wf b → BAddr_CompareOrder a b = 0 ↔ a = b.
Proof.
  intros Ha Hb. split; [| intros ->; pose proof (CompareOrder_anti b b); lia].
  destruct a as [| ip1 p1 | ip1 p1], b as [| ip2 p2 | ip2 p2]; try done; unfold BAddr_CompareOrder; cbv zeta;
    change (B_COMPARE (BAddr_type _) (BAddr_type _)) with 0; cbn [Z.eqb negb]; simpl in Ha, Hb.
  - pose proof (B_COMPARE_cases (ntoh32 ip1) (ntoh32 ip2)). pose proof (B_COMPARE_cases (ntoh16 p1) (ntoh16 p2)).
    case_if; intros E'; [lia |]. f_equal; [apply ntoh32_inj; lia | apply hton16_inj; [lia.. |]; unfold ntoh16 in *; lia].
  - pose proof (B_COMPARE_cases (memcmp ip1 ip2) 0). pose proof (B_COMPARE_cases (ntoh16 p1) (ntoh16 p2)).
    case_if; intros E'; [lia |]. destruct Ha as (Hl1 & _ & ?), Hb as (Hl2 & _ & ?). f_equal.
    + apply memcmp_zero; [unfold zlen in *; lia | lia].
    + apply hton16_inj; [lia.. |]. unfold ntoh16 in *. lia.
Qed.

Lemma CompareOrder_trans a b c : BAddr_wf a → BAddr_wf b → BAddr_wf c →
  BAddr_CompareOrder a b < 0 → BAddr_CompareOrder b c < 0 → BAddr_CompareOrder a c < 0.
Proof.
  intros Ha Hb Hc.
  destruct a as [| ip1 p1 | ip1 p1], b as [| ip2 p2 | ip2 p2], c as [| ip3 p3 | ip3 p3]; try done; unfold BAddr_CompareOrder; cbv zeta;
    change (B_COMPARE (BAddr_type _) (BAddr_type _)) with 0; cbn [Z.eqb negb]; simpl in Ha, Hb, Hc.
  - pose proof (B_COMPARE_cases (ntoh32 ip1) (ntoh32 ip2)). pose proof (B_COMPARE_cases (ntoh16 p1) (ntoh16 p2)).
    pose proof (B_COMPARE_cases (ntoh32 ip2) (ntoh32 ip3)). pose proof (B_COMPARE_cases (ntoh16 p2) (ntoh16 p3)).
    pose proof (B_COMPARE_cases (ntoh32 ip1) (ntoh32 ip3)). pose proof (B_COMPARE_cases (ntoh16 p1) (ntoh16 p3)).
    repeat case_if; lia.
  - destruct Ha as (Hl1 & _), Hb as (Hl2 & _), Hc as (Hl3 & _).
    apply (zlen_length _ 16) in Hl1, Hl2, Hl3.
    assert (∀ l k q r, length l = length k →
      (if negb (memcmp l k =? 0) then B_COMPARE (memcmp l k) 0 else B_COMPARE (ntoh16 q) (ntoh16 r)) < 0 ↔
      memcmp l k < 0 ∨ (l = k ∧ ntoh16 q < ntoh16 r)) as Hlex.
    { intros l k q r Hl. pose proof (B_COMPARE_cases (memcmp l k) 0). pose proof (B_COMPARE_cases (ntoh16 q) (ntoh16 r)).
      pose proof (memcmp_zero l k Hl). case_if; intuition lia. }
    rewrite !Hlex by congruence. intros [H1 | [-> H1]] [H2 | [-> H2]]; [left | by left | by left | right; split; [done | lia]].
    eapply memcmp_trans; [| | exact H1 | exact H2]; congruence.
Qed.

(** The comparator returns one of the three values a search tree expects. *)
Lemma CompareOrder_cases a b : BAddr_CompareOrder a b = -1 ∨ BAddr_CompareOrder a b = 0 ∨ BAddr_CompareOrder a b = 1.
Proof.
  assert (∀ x y, B_COMPARE x y = -1 ∨ B_COMPARE x y = 0 ∨ B_COMPARE x y = 1) as Hc
    by (intros x y; pose proof (B_COMPARE_cases x y); lia).
  unfold BAddr_CompareOrder. destruct a, b; cbv zeta; repeat case_if; auto.
Qed.

(** The order on addresses is a strict total order whose equality is
    [BAddr_Compare]: it is antisymmetric, transitive, and equal exactly on the same
    address, so a search tree keyed by it finds an address it holds. *)
Theorem baddr_order_total a b c : BAddr_wf a → BAddr_wf b → BAddr_wf c →
  BAddr_CompareOrder b a = - BAddr_CompareOrder a b ∧
  (BAddr_CompareOrder a b = 0 ↔ a = b) ∧
  (BAddr_CompareOrder a b < 0 → BAddr_CompareOrder b c < 0 → BAddr_CompareOrder a c < 0) ∧
  (BAddr_IsInvalid a = false → BAddr_Compare a b = true ↔ BAddr_CompareOrder a b = 0).
Proof.
  intros Ha Hb Hc. split; [apply CompareOrder_anti |]. split; [by apply CompareOrder_zero |].
  split; [by apply CompareOrder_trans |]. intros Hv. rewrite CompareOrder_zero by done.
  destruct a as [| ip1 p1 | ip1 p1], b as [| ip2 p2 | ip2 p2]; try done; unfold BAddr_Compare; cbn [BAddr_type Z.eqb negb Pos.eqb].
  - rewrite andb_true_iff, !Z.eqb_eq. naive_solver.
  - simpl in Ha, Hb. rewrite andb_true_iff, !Z.eqb_eq, memcmp_zero by (unfold zlen in *; lia). naive_solver.
Qed.

Lemma baddr_order_total_witness :
  let a := BADDR_IPV4 (hton32 0x0A000001) (hton16 80) in
  let b := BADDR_IPV6 (replicate 16 1) (hton16 53) in
  let c := BADDR_IPV6 (replicate 15 1 ++ [2]) (hton16 53) in
  BAddr_CompareOrder b a = - BAddr_CompareOrder a b ∧
  (BAddr_CompareOrder a b = 0 ↔ a = b) ∧
  (BAddr_CompareOrder a b < 0 → BAddr_CompareOrder b c < 0 → BAddr_CompareOrder a c < 0) ∧
  (BAddr_IsInvalid a = false → BAddr_Compare a b = true ↔ BAddr_CompareOrder a b = 0).
Proof.
  apply baddr_order_total.
  - vm_compute. repeat split; discriminate.
  - repeat split; try (vm_compute; (reflexivity || discriminate)). repeat constructor; vm_compute; (reflexivity || discriminate).
  - repeat split; try (vm_compute; (reflexivity || discriminate)). repeat constructor; vm_compute; (reflexivity || discriminate).
Defined.
