(* ===== verification/AddrText.v ===== *)
(** * Addresses as text (system/BAddr.h)

    Printing of addresses, and the parser of "addr:port" and "[addr]:port" that the
    options of the program go through. Strings are the bytes before the terminator.
    Names are resolved by [getaddrinfo], which is a parameter: for a family and a name,
    with [AI_NUMERICHOST] or not, it gives the first address, or fails. *)
From S2P Require Import Prelude ByteOrder BAddr.

(** ** Text *)

(** The digits of [x] in a base, at most [fuel] of them, as [sprintf] prints them. *)
Definition digit (d : Z) : Z := if d <? 10 then 48 + d else 87 + d.
Fixpoint to_digits (base : Z) (fuel : nat) (x : Z) : bytes :=
  match fuel with
  | O => []
  | S n => if x <? base then [digit x] else to_digits base n (x / base) ++ [digit (x mod base)]
  end.

(** [%PRIu8], [%PRIu16] and [%PRIx16]: at most five, and four, digits. *)
Definition print_dec (x : Z) : bytes := to_digits 10 5 x.
Definition print_hex (x : Z) : bytes := to_digits 16 4 x.

Definition is_space (c : Z) : bool := (c =? 32) || (9 <=? c) && (c <=? 13).
Definition is_digit (c : Z) : bool := (48 <=? c) && (c <=? 57).
Definition LONG_MAX : Z := 2 ^ 63 - 1.

Fixpoint skip_while (f : Z → bool) (l : bytes) : bytes := match l with x :: k => if f x then skip_while f k else l | [] => [] end.
Fixpoint take_while (f : Z → bool) (l : bytes) : bytes := match l with x :: k => if f x then x :: take_while f k else [] | [] => [] end.
Definition dec_value (l : bytes) : Z := foldl (λ a c, a * 10 + (c - 48)) 0 l.

(** [strtol(s, &err, 10)]: white space, a sign, digits; the number and the text that
    [err] points to. *)
Definition strtol10 (s : bytes) : Z * bytes :=
  let t := skip_while is_space s in
  let '(sign, t) := match t with 45 :: t => (-1, t) | 43 :: t => (1, t) | _ => (1, t) end in
  let ds := take_while is_digit t in
  if zlen ds =? 0 then (0, s) else (Z.max (- LONG_MAX - 1) (Z.min LONG_MAX (sign * dec_value ds)), skip_while is_digit t).

(** [while (i < len && str[i] != c) i++], counted from the start of [l]. *)
Fixpoint scan (c : Z) (l : bytes) : Z := match l with [] => 0 | x :: l => if x =? c then 0 else 1 + scan c l end.

(** ** Addresses *)

Definition BADDR_MAX_ADDR_LEN : Z := 128.
Definition BIPADDR_MAX_PRINT_LEN : Z := 40.
Definition BADDR_MAX_PRINT_LEN : Z := 120.

Definition BIPAddr_IsInvalid (a : BIPAddr) : bool := BIPAddr_type a =? 0.

Definition BIPAddr_Compare (a1 a2 : BIPAddr) : bool :=
  if negb (BIPAddr_type a1 =? BIPAddr_type a2) then false else
  match a1, a2 with
  | BIPADDR_IPV4 ip1, BIPADDR_IPV4 ip2 => ip1 =? ip2
  | BIPADDR_IPV6 ip1, BIPADDR_IPV6 ip2 => memcmp ip1 ip2 =? 0
  | _, _ => false
  end.

Definition BAddr_GetIPAddr (a : BAddr) : BIPAddr :=
  match a with BADDR_IPV4 ip _ => BIPAddr_InitIPv4 ip | BADDR_IPV6 ip _ => BIPAddr_InitIPv6 ip | BADDR_NONE => BIPAddr_InitInvalid end.

Definition BAddr_SetPort (a : BAddr) (port : Z) : option BAddr :=
  match a with BADDR_IPV4 ip _ => Some (BADDR_IPV4 ip port) | BADDR_IPV6 ip _ => Some (BADDR_IPV6 ip port) | BADDR_NONE => None end.

Definition BAddr_MakeFromIpaddrAndPort (ipaddr : BIPAddr) (port : Z) : BAddr :=
  match ipaddr with BIPADDR_NONE => BAddr_MakeNone | BIPADDR_IPV4 ip => BAddr_MakeIPv4 ip port | BIPADDR_IPV6 ip => BAddr_MakeIPv6 ip port end.
Definition BAddr_InitFromIpaddrAndPort (ipaddr : BIPAddr) (port : Z) : BAddr := BAddr_MakeFromIpaddrAndPort ipaddr port.

(** Items with a separator between them. *)
Fixpoint separated (sep : Z) (ls : list bytes) : bytes :=
  match ls with [] => [] | [l] => l | l :: ls => l ++ sep :: separated sep ls end.

(** "a.b.c.d", the bytes of the address in memory; "a:b:...:h". *)
Definition print_ipv4 (ip : Z) : bytes := separated 46 (print_dec <$> le_bytes 4 ip).
Definition print_ipv6 (ip : bytes) : bytes := separated 58 ((λ i, print_hex (badvpn_read_be16 (zdrop i ip))) <$> [0; 2; 4; 6; 8; 10; 12; 14]).

Definition none_text : bytes := [40; 110; 111; 110; 101; 41].

Definition BIPAddr_Print (a : BIPAddr) : bytes :=
  match a with BIPADDR_NONE => none_text | BIPADDR_IPV4 ip => print_ipv4 ip | BIPADDR_IPV6 ip => print_ipv6 ip end.

Definition BAddr_Print (a : BAddr) : bytes :=
  match a with
  | BADDR_NONE => none_text
  | BADDR_IPV4 ip port => BIPAddr_Print (BIPAddr_InitIPv4 ip) ++ 58 :: print_dec (ntoh16 port)
  | BADDR_IPV6 ip port => BIPAddr_Print (BIPAddr_InitIPv6 ip) ++ 58 :: print_dec (ntoh16 port)
  end.

(** [getaddrinfo] with the hints of the code. *)
Record resolver := mk_resolver { gai_inet : bytes → bool → option Z; gai_inet6 : bytes → bool → option bytes }.

Definition BIPAddr_Resolve (gai : resolver) (str : bytes) (noresolve : bool) : option BIPAddr :=
  let len := zlen str in
  let brackets := (1 <=? len) && (byte_at str 0 =? 91) && (byte_at str (len - 1) =? 93) in
  let addr_start := if brackets then 1 else 0 in
  let addr_len := if brackets then len - 2 else len in
  if BADDR_MAX_ADDR_LEN <? addr_len then None else
  let addr_str := mem_read str addr_start addr_len in
  if brackets then ip ← gai_inet6 gai addr_str noresolve; Some (BIPADDR_IPV6 (ztake 16 ip))
  else ip ← gai_inet gai addr_str noresolve; Some (BIPADDR_IPV4 ip).

Definition parse_port (port_str : bytes) : option Z :=
  let '(conv_res, err) := strtol10 port_str in
  if (zlen port_str =? 0) || negb (zlen err =? 0) then None else
  if (conv_res <? 0) || (UINT16_MAX <? conv_res) then None else
  Some (hton16 (u16 conv_res)).

(** Where the address and the port are: whether it is IPv6, the start and the length of
    the address, the start of the port. *)
Definition split_addr (str : bytes) : option (bool * Z * Z * Z) :=
  let len := zlen str in
  if byte_at str 0 =? 91 then
    let i := 1 + scan 93 (zdrop 1 str) in
    if len <=? i then None else
    if (len <=? i + 1) || negb (byte_at str (i + 1) =? 58) then None else
    Some (true, 1, i - 1, i + 2)
  else
    let i := scan 58 str in
    if len <=? i then None else
    Some (false, 0, i - 0, i + 1).

(** [name] is the size of the buffer for the name, if there is one. The result is the
    address and what is stored in that buffer; after a failure callers use neither. *)
Definition BAddr_Parse2 (gai : resolver) (str : bytes) (name : option Z) (noresolve : bool) : option (BAddr * option bytes) :=
  let len := zlen str in
  if (len <? 1) || (1000 <? len) then None else
  '(ipv6, addr_start, addr_len, port_start) ← split_addr str;
  let port_len := len - port_start in
  if 128 <=? addr_len then None else
  let addr_str := mem_read str addr_start addr_len in
  if 6 <=? port_len then None else
  let port_str := mem_read str port_start port_len in
  port ← parse_port port_str;
  addr ← (if (ipv6 : bool) then ip ← gai_inet6 gai addr_str noresolve; Some (BADDR_IPV6 (ztake 16 ip) port)
          else ip ← gai_inet gai addr_str noresolve; Some (BADDR_IPV4 ip port));
  match name with
  | None => Some (addr, None)
  | Some name_len => if name_len <=? zlen addr_str then None else Some (addr, Some addr_str)
  end.

Definition BAddr_Parse (gai : resolver) (str : bytes) (name : option Z) : option (BAddr * option bytes) := BAddr_Parse2 gai str name false.

(** ** Digits *)

Lemma digit_dec d : 0 ≤ d < 10 → digit d = 48 + d.
Proof. intros Hd. unfold digit. by rewrite (proj2 (Z.ltb_lt d 10)) by lia. Qed.

Lemma to_digits_value fuel : ∀ x, 0 ≤ x < 10 ^ Z.of_nat fuel →
  dec_value (to_digits 10 fuel x) = x ∧ Forall (λ c, is_digit c = true) (to_digits 10 fuel x).
Proof.
  assert (∀ d, 0 ≤ d < 10 → is_digit (digit d) = true) as Hdig by (intros d Hd; rewrite digit_dec by done; apply andb_true_iff; split; apply Z.leb_le; lia).
  induction fuel as [| n IH]; intros x Hx; [cbn in *; split; [lia | constructor] |]. cbn [to_digits]. destruct (x <? 10) eqn:E; b2p.
  - split; [cbn; rewrite digit_dec by lia; lia |]. repeat constructor. apply Hdig. lia.
  - pose proof (Z.mod_pos_bound x 10 ltac:(lia)). rewrite Nat2Z.inj_succ, Z.pow_succ_r in Hx by lia.
    destruct (IH (x / 10)) as [Hv Hd]; [split; [apply Z.div_pos; lia | apply Z.div_lt_upper_bound; lia] |]. unfold dec_value in *. rewrite foldl_app, Hv.
    cbn [foldl]. rewrite digit_dec by lia. split; [pose proof (Z.div_mod x 10); lia |]. apply Forall_app. split; [done |]. repeat constructor.
    rewrite <- digit_dec by lia. apply Hdig. lia.
Qed.

Lemma to_digits_len base fuel : ∀ x, zlen (to_digits base fuel x) ≤ Z.of_nat fuel.
Proof.
  induction fuel as [| n IH]; intros x; cbn [to_digits]; [done |]. rewrite Nat2Z.inj_succ. destruct (x <? base).
  - rewrite zlen_cons, zlen_nil. lia.
  - rewrite zlen_app, zlen_cons, zlen_nil. specialize (IH (x / base)). lia.
Qed.

Lemma to_digits_nonempty base fuel x : (0 < fuel)%nat → 0 < zlen (to_digits base fuel x).
Proof.
  destruct fuel as [| n]; intros Hf; [lia |]. cbn [to_digits]. unfold zlen. destruct (x <? base); rewrite ?length_app; cbn [length]; lia.
Qed.

(** A digit is neither of the characters between numbers. *)
Lemma to_digits_chars base fuel : 0 < base ≤ 16 → ∀ x, 0 ≤ x → Forall (λ c, 48 ≤ c ≤ 57 ∨ 97 ≤ c ≤ 102) (to_digits base fuel x).
Proof.
  intros Hb. assert (∀ d, 0 ≤ d < 16 → 48 ≤ digit d ≤ 57 ∨ 97 ≤ digit d ≤ 102) as Hd by (intros d Hd; unfold digit; destruct (d <? 10) eqn:E; b2p; lia).
  induction fuel as [| n IH]; intros x Hx; cbn [to_digits]; [constructor |]. pose proof (Z.mod_pos_bound x base ltac:(lia)). destruct (x <? base) eqn:E; b2p.
  - apply Forall_singleton, Hd. lia.
  - apply Forall_app. split; [apply IH, Z.div_pos; lia |]. apply Forall_singleton, Hd. lia.
Qed.

Lemma while_all f l : Forall (λ c, f c = true) l → take_while f l = l ∧ skip_while f l = [].
Proof. induction 1 as [| x l Hx _ [IH1 IH2]]; [done |]. cbn. by rewrite Hx, IH1, IH2. Qed.

(** ** The text of a port *)

(** What a port is written as: white space, a plus or a minus sign, both optional, and
    decimal digits, at least one, with nothing after them. *)
Definition port_text (t : bytes) (n : Z) : Prop :=
  ∃ sp sg ds, t = sp ++ sg ++ ds ∧ Forall (λ c, c = 32 ∨ 9 ≤ c ≤ 13) sp ∧ ds ≠ [] ∧ Forall (λ c, 48 ≤ c ≤ 57) ds ∧
    ((sg = [] ∨ sg = [43]) ∧ n = dec_value ds ∨ sg = [45] ∧ n = - dec_value ds).

Lemma is_space_iff c : is_space c = true ↔ c = 32 ∨ 9 ≤ c ≤ 13.
Proof. unfold is_space. rewrite orb_true_iff, andb_true_iff, Z.eqb_eq, !Z.leb_le. done. Qed.
Lemma is_digit_iff c : is_digit c = true ↔ 48 ≤ c ≤ 57.
Proof. unfold is_digit. by rewrite andb_true_iff, !Z.leb_le. Qed.

Lemma while_split f l : l = take_while f l ++ skip_while f l ∧ Forall (λ c, f c = true) (take_while f l).
Proof.
  induction l as [| x l [IH1 IH2]]; [by split |]. cbn [take_while skip_while]. destruct (f x) eqn:E; [| by split]. split; [cbn; by f_equal | by constructor].
Qed.

Lemma skip_prefix f l k : Forall (λ c, f c = true) l → (∀ c, head k = Some c → f c = false) → skip_while f (l ++ k) = k.
Proof.
  intros Hl Hk. induction Hl as [| x l Hx _ IH]; cbn [app skip_while]; [| by rewrite Hx]. destruct k as [| c k]; [done |]. cbn. by rewrite (Hk c eq_refl).
Qed.

(** The sign of a number, and what is after it. *)
Definition strtol_sign (t : bytes) : Z * bytes := match t with 45 :: t => (-1, t) | 43 :: t => (1, t) | _ => (1, t) end.

Lemma strtol_sign_none c l : c ≠ 45 → c ≠ 43 → strtol_sign (c :: l) = (1, c :: l).
Proof. intros N1 N2. destruct c as [| p | p]; try done; repeat (destruct p as [p | p |]; try done). Qed.

Lemma strtol_sign_cases t : ∃ sg t', t = sg ++ t' ∧ ((sg = [] ∨ sg = [43]) ∧ strtol_sign t = (1, t') ∨ sg = [45] ∧ strtol_sign t = (-1, t')).
Proof.
  destruct t as [| c t]; [exists [], []; split; [done | by left; split; [left |]] |].
  destruct (decide (c = 45)) as [-> | N1]; [exists [45], t; split; [done | by right] |].
  destruct (decide (c = 43)) as [-> | N2]; [exists [43], t; split; [done | by left; split; [right |]] |].
  exists [], (c :: t). split; [done |]. left. split; [by left | by apply strtol_sign_none].
Qed.

(** The value of digits. *)
Lemma dec_value_nonneg l : Forall (λ c, 48 ≤ c ≤ 57) l → 0 ≤ dec_value l.
Proof.
  unfold dec_value. assert (∀ a, 0 ≤ a → Forall (λ c, 48 ≤ c ≤ 57) l → 0 ≤ foldl (λ a c, a * 10 + (c - 48)) a l) as H; [| by apply H].
  induction l as [| x l IH]; intros a Ha Hl; [done |]. apply Forall_cons in Hl as [Hx Hl]. cbn [foldl]. apply IH; [lia | done].
Qed.

(** The conversion takes the text of a number. *)
Lemma strtol_text t n : port_text t n → strtol10 t = (Z.max (- LONG_MAX - 1) (Z.min LONG_MAX n), []).
Proof.
  intros (sp & sg & ds & -> & Hsp & Hne & Hds & Hsg). unfold strtol10.
  assert (Forall (λ c, is_digit c = true) ds) as Hdig by (eapply Forall_impl; [exact Hds |]; intros c; apply is_digit_iff).
  assert (∀ c, head (sg ++ ds) = Some c → is_space c = false) as Hhead.
  { intros c Hc. apply not_true_iff_false. rewrite is_space_iff. destruct ds as [| d ds]; [done |]. apply Forall_cons in Hds as [Hd _].
    destruct Hsg as [[[-> | ->] _] | [-> _]]; cbn in Hc; injection Hc as <-; lia. }
  rewrite skip_prefix; [| eapply Forall_impl; [exact Hsp |]; intros c; apply is_space_iff | done].
  change (match sg ++ ds with 45 :: t => (-1, t) | 43 :: t => (1, t) | _ => (1, sg ++ ds) end) with (strtol_sign (sg ++ ds)).
  assert (∃ sign, strtol_sign (sg ++ ds) = (sign, ds) ∧ n = sign * dec_value ds) as (sign & -> & ->).
  { destruct Hsg as [[[-> | ->] ->] | [-> ->]]; [| by exists 1; split; [| lia] | by exists (-1); split; [| lia]]. exists 1. split; [| lia].
    destruct ds as [| d ds]; [done |]. apply Forall_cons in Hds as [Hd _]. apply strtol_sign_none; lia. }
  destruct (while_all _ _ Hdig) as [-> ->]. rewrite (proj2 (Z.eqb_neq (zlen ds) 0)); [done |]. destruct ds; [done |]. rewrite zlen_cons. pose proof (zlen_nonneg ds). lia.
Qed.

(** The conversion leaves nothing only of the text of a number. *)
Lemma strtol_text_inv t c : strtol10 t = (c, []) → t ≠ [] → ∃ n, port_text t n ∧ c = Z.max (- LONG_MAX - 1) (Z.min LONG_MAX n).
Proof.
  unfold strtol10. intros E Hne. destruct (while_split is_space t) as [Et Hsp]. set (t1 := skip_while is_space t) in *.
  change (match t1 with 45 :: t => (-1, t) | 43 :: t => (1, t) | _ => (1, t1) end) with (strtol_sign t1) in E.
  destruct (strtol_sign_cases t1) as (sg & t2 & E1 & Hsg). destruct (while_split is_digit t2) as [E2 Hds].
  assert (∃ sign, strtol_sign t1 = (sign, t2) ∧ (((sg = [] ∨ sg = [43]) ∧ sign = 1) ∨ (sg = [45] ∧ sign = -1))) as (sign & Es & Hsign)
    by (destruct Hsg as [[H1 H2] | [H1 H2]]; [exists 1 | exists (-1)]; tauto).
  rewrite Es in E. destruct (zlen (take_while is_digit t2) =? 0) eqn:Ez; [injection E as _ E; done |]. injection E as <- Er. rewrite Er, app_nil_r in E2.
  exists (sign * dec_value (take_while is_digit t2)). split; [| done].
  exists (take_while is_space t), sg, (take_while is_digit t2). split; [by rewrite <- E2, <- E1 |].
  split; [eapply Forall_impl; [exact Hsp |]; intros x; apply is_space_iff |]. split; [by intros E0; rewrite E0 in Ez |].
  split; [eapply Forall_impl; [exact Hds |]; intros x; apply is_digit_iff |].
  destruct Hsign as [[H1 ->] | [H1 ->]]; [left; split; [done | lia] | right; split; [done | lia]].
Qed.

(** A port is a text whose number fits 16 bits. *)
Lemma parse_port_exact t p : parse_port t = Some p ↔ ∃ n, port_text t n ∧ 0 ≤ n ≤ 65535 ∧ p = hton16 n.
Proof.
  unfold parse_port. split.
  - destruct (strtol10 t) as [c err] eqn:E. destruct (_ || _) eqn:E1; [done |]. apply orb_false_iff in E1 as [Ht Herr]. destruct (_ || _) eqn:E2; [done |].
    apply orb_false_iff in E2 as [Hlo Hhi]. apply negb_false_iff in Herr. intros [= <-]. b2p.
    destruct err as [| x err]; [| rewrite zlen_cons in Herr; pose proof (zlen_nonneg err); lia].
    destruct (strtol_text_inv t c E) as (n & Hn & ->); [by intros -> |]. exists n. unfold LONG_MAX, UINT16_MAX in *.
    assert (0 ≤ n ≤ 65535) as Hr by lia. split; [done |]. split; [done |]. unfold u16. rewrite Z.mod_small by lia. f_equal. lia.
  - intros (n & Hn & Hr & ->). rewrite (strtol_text t n Hn). unfold LONG_MAX, UINT16_MAX. replace (Z.max _ _) with n by lia.
    assert (zlen t ≠ 0) as Ht.
    { destruct Hn as (sp & sg & ds & -> & _ & Hne & _). destruct ds as [| d ds]; [done |]. rewrite !zlen_app, zlen_cons. pose proof (zlen_nonneg sp). pose proof (zlen_nonneg sg). pose proof (zlen_nonneg ds). lia. }
    rewrite (proj2 (Z.eqb_neq _ _) Ht). change (zlen (@nil Z)) with 0. cbn [Z.eqb negb orb].
    rewrite (proj2 (Z.ltb_ge n 0)), (proj2 (Z.ltb_ge _ n)) by lia. cbn [orb]. unfold u16. by rewrite Z.mod_small by lia.
Qed.

(** A printed port is parsed back. *)
Lemma parse_port_print port : 0 ≤ port < 65536 → parse_port (print_dec (ntoh16 port)) = Some port.
Proof.
  intros Hp. apply parse_port_exact. pose proof (hton16_range port : 0 ≤ ntoh16 port < 65536) as Hr. unfold print_dec.
  destruct (to_digits_value 5 (ntoh16 port)) as [Hv Hd]; [change (10 ^ Z.of_nat 5) with 100000; lia |]. pose proof (to_digits_nonempty 10 5 (ntoh16 port) ltac:(lia)) as Hpos.
  exists (ntoh16 port). split; [| split; [lia | symmetry; exact (ntoh16_hton16 port Hp)]]. exists [], [], (to_digits 10 5 (ntoh16 port)). split; [done |]. split; [constructor |].
  split; [by intros E; rewrite E in Hpos |]. split; [eapply Forall_impl; [exact Hd |]; intros c; apply is_digit_iff |]. left. split; [by left | done].
Qed.

(** The conversion also takes white space and a sign before the digits: a port may be
    written with a space, a plus sign, or as minus zero. *)
Lemma parse_port_loose : parse_port [32; 56; 48] = Some (hton16 80) ∧ parse_port [43; 56; 48] = Some (hton16 80) ∧ parse_port [45; 48] = Some 0.
Proof. done. Qed.

(** ** Splitting *)

Lemma scan_bounds c l : 0 ≤ scan c l ≤ zlen l.
Proof. induction l as [| x l IH]; cbn [scan]; [done |]. rewrite zlen_cons. destruct (x =? c); lia. Qed.

Lemma scan_app c l k : Forall (λ x, x ≠ c) l → scan c (l ++ c :: k) = zlen l.
Proof.
  induction 1 as [| x l Hx _ IH]; cbn [scan app]; [by rewrite Z.eqb_refl |]. rewrite (proj2 (Z.eqb_neq x c)) by done. rewrite zlen_cons, IH. lia.
Qed.

Lemma scan_none c l : Forall (λ x, x ≠ c) l → scan c l = zlen l.
Proof. induction 1 as [| x l Hx _ IH]; cbn [scan]; [done |]. rewrite (proj2 (Z.eqb_neq x c)) by done. rewrite zlen_cons. lia. Qed.

Lemma scan_inv c l : scan c l < zlen l → ∃ l1 l2, l = l1 ++ c :: l2 ∧ Forall (λ x, x ≠ c) l1.
Proof.
  induction l as [| x l IH]; cbn [scan]; [done |]. rewrite zlen_cons. destruct (x =? c) eqn:E; b2p; intros H.
  - subst x. by exists [], l.
  - destruct IH as (l1 & l2 & -> & Hl); [lia |]. exists (x :: l1), l2. by split; [| constructor].
Qed.

(** The text of a host and a port; IPv6 hosts are in brackets. *)
Definition host_port (ipv6 : bool) (host ptext : bytes) : bytes :=
  if ipv6 then 91 :: host ++ 93 :: 58 :: ptext else host ++ 58 :: ptext.
Definition host_ok (ipv6 : bool) (host : bytes) : Prop :=
  Forall (λ c, c ≠ if ipv6 then 93 else 58) host ∧ (ipv6 = false → head host ≠ Some 91).

Lemma byte_at_app_cons l c k i : i = zlen l → byte_at (l ++ c :: k) i = c.
Proof. intros ->. unfold byte_at, zlen. by rewrite Nat2Z.id, list_lookup_middle. Qed.

Lemma byte_at_bracket x host y k : byte_at (x :: host ++ y :: k) (1 + zlen host + 1) = byte_at k 0.
Proof.
  unfold byte_at. f_equal. unfold zlen. replace (Z.to_nat (1 + Z.of_nat (length host) + 1)) with (S (length host + 1)) by lia.
  change ((x :: ?l) !! S ?n) with (l !! n). rewrite lookup_app_r by lia. by replace (length host + 1 - length host)%nat with 1%nat by lia.
Qed.

Lemma split_addr_make ipv6 host ptext : host_ok ipv6 host →
  let s := host_port ipv6 host ptext in
  ∃ a p, split_addr s = Some (ipv6, a, zlen host, p) ∧ mem_read s a (zlen host) = host ∧
         zlen s - p = zlen ptext ∧ mem_read s p (zlen s - p) = ptext.
Proof.
  intros [Hc Hh] s. pose proof (zlen_nonneg host). pose proof (zlen_nonneg ptext). unfold split_addr, mem_read. destruct ipv6; unfold s, host_port; clear s.
  - exists 1, (zlen host + 3). rewrite byte_at_0. cbn [Z.eqb Pos.eqb]. change (zdrop 1 (91 :: ?l)) with l. rewrite scan_app by done.
    rewrite byte_at_bracket.
    rewrite byte_at_0. cbn [Z.eqb Pos.eqb negb]. rewrite orb_false_r. rewrite !zlen_cons, zlen_app, !zlen_cons.
    rewrite !(proj2 (Z.leb_gt _ _)) by lia. repeat split; [by f_equal; rewrite !pair_equal_spec; repeat split; lia | by apply ztake_app_exact | lia |].
    rewrite (app_comm_cons host _ 91). change (93 :: 58 :: ptext) with ([93; 58] ++ ptext). rewrite app_assoc.
    rewrite zdrop_app_exact by (rewrite zlen_app, !zlen_cons, zlen_nil; lia). apply ztake_ge. lia.
  - exists 0, (zlen host + 1). rewrite scan_app by done.
    assert ((byte_at (host ++ 58 :: ptext) 0 =? 91) = false) as ->.
    { destruct host as [| c host]; [done |]. rewrite <- app_comm_cons, byte_at_0. apply Z.eqb_neq. intros ->. by apply (Hh eq_refl). }
    rewrite zlen_app, zlen_cons, (proj2 (Z.leb_gt _ _)) by lia. repeat split; [by f_equal; rewrite !pair_equal_spec; repeat split; lia | by apply ztake_app_exact | lia |].
    change (58 :: ptext) with ([58] ++ ptext). rewrite app_assoc, zdrop_app_exact by (by rewrite zlen_app). apply ztake_ge. lia.
Qed.

Lemma split_addr_inv s r : split_addr s = Some r → ∃ ipv6 host ptext, s = host_port ipv6 host ptext ∧ host_ok ipv6 host.
Proof.
  unfold split_addr. destruct (byte_at s 0 =? 91) eqn:E0; b2p.
  - destruct s as [| c s]; [done |]. rewrite byte_at_0 in E0. subst c. change (zdrop 1 (91 :: s)) with s. rewrite zlen_cons.
    destruct (_ <=? _) eqn:E1; [done |]. b2p. destruct (scan_inv 93 s) as (host & k & -> & Hh); [lia |]. rewrite scan_app, byte_at_bracket by done.
    rewrite zlen_app, zlen_cons. destruct k as [| c k]; [by rewrite (proj2 (Z.leb_le _ _)) by (change (zlen []) with 0; lia) |].
    rewrite byte_at_0. destruct (c =? 58) eqn:E2; [| by rewrite orb_true_r]. b2p. subst c. intros _. by exists true, host, k.
  - destruct (_ <=? _) eqn:E1; [done |]. intros _. b2p. destruct (scan_inv 58 s) as (host & k & -> & Hh); [lia |].
    exists false, host, k. split; [done |]. split; [done |]. intros _. destruct host as [| c host]; [done |]. rewrite <- app_comm_cons, byte_at_0 in E0. by intros [= ->].
Qed.

(** ** Parsing *)

(** What is looked up for a host, and what is given to a caller who asks for the name. *)
Definition resolved (gai : resolver) (noresolve ipv6 : bool) (host : bytes) (port : Z) : option BAddr :=
  if ipv6 then ip ← gai_inet6 gai host noresolve; Some (BADDR_IPV6 (ztake 16 ip) port)
  else ip ← gai_inet gai host noresolve; Some (BADDR_IPV4 ip port).
Definition named (name : option Z) (host : bytes) (addr : BAddr) : option (BAddr * option bytes) :=
  match name with
  | None => Some (addr, None)
  | Some name_len => if name_len <=? zlen host then None else Some (addr, Some host)
  end.

Lemma parse_host_port gai name noresolve ipv6 host ptext : host_ok ipv6 host → zlen host < 128 → zlen ptext < 6 →
  BAddr_Parse2 gai (host_port ipv6 host ptext) name noresolve =
  (port ← parse_port ptext; addr ← resolved gai noresolve ipv6 host port; named name host addr).
Proof.
  intros Hok Hh Hp. destruct (split_addr_make ipv6 host ptext Hok) as (a & p & Hs & Ha & Hl & Ht).
  assert (0 < zlen (host_port ipv6 host ptext) < 140) as Hlen by (pose proof (zlen_nonneg host); pose proof (zlen_nonneg ptext); unfold host_port;
    destruct ipv6; rewrite ?zlen_cons, zlen_app, ?zlen_cons; lia).
  unfold BAddr_Parse2. rewrite (proj2 (Z.ltb_ge _ 1)), (proj2 (Z.ltb_ge 1000 _)) by lia. cbn [orb]. rewrite Hs, option_bind_Some, Ha, Ht, Hl, !(proj2 (Z.leb_gt _ _)) by lia.
  done.
Qed.

Lemma parse_too_long gai name noresolve ipv6 host ptext : host_ok ipv6 host → 128 ≤ zlen host ∨ 6 ≤ zlen ptext →
  BAddr_Parse2 gai (host_port ipv6 host ptext) name noresolve = None.
Proof.
  intros Hok Hl'. destruct (split_addr_make ipv6 host ptext Hok) as (a & p & Hs & Ha & Hl & Ht). unfold BAddr_Parse2. destruct (_ || _); [done |].
  rewrite Hs, option_bind_Some, Hl. destruct (128 <=? _) eqn:E1; [done |]. b2p. by rewrite (proj2 (Z.leb_le 6 _)) by lia.
Qed.

(** The parser accepts exactly the texts of a host and a port. *)
Lemma parse_exact gai name noresolve s r :
  BAddr_Parse2 gai s name noresolve = Some r ↔
  ∃ ipv6 host ptext port addr, s = host_port ipv6 host ptext ∧ host_ok ipv6 host ∧ zlen host < 128 ∧ zlen ptext < 6 ∧
    port_text ptext port ∧ 0 ≤ port ≤ 65535 ∧ resolved gai noresolve ipv6 host (hton16 port) = Some addr ∧ named name host addr = Some r.
Proof.
  split.
  - intros H. destruct (split_addr s) as [t |] eqn:Es; [| unfold BAddr_Parse2 in H; rewrite Es in H; by destruct (_ || _)].
    destruct (split_addr_inv _ _ Es) as (ipv6 & host & ptext & -> & Hok).
    destruct (decide (zlen host < 128 ∧ zlen ptext < 6)) as [[Hh Hp] | N]; [| rewrite parse_too_long in H by (done || lia); done].
    rewrite parse_host_port in H by done. apply bind_Some in H as (port & Hport & H). apply bind_Some in H as (addr & Haddr & H).
    apply parse_port_exact in Hport as (n & Hn & Hr & ->). by exists ipv6, host, ptext, n, addr.
  - intros (ipv6 & host & ptext & port & addr & -> & Hok & Hh & Hp & Hport & Hr & Haddr & Hn). rewrite parse_host_port by done.
    assert (parse_port ptext = Some (hton16 port)) as Hport' by (apply parse_port_exact; by exists port). by rewrite Hport', option_bind_Some, Haddr, option_bind_Some.
Qed.

(** ** Printing *)

Lemma separated_Forall (P : Z → Prop) sep ls : P sep → Forall (Forall P) ls → Forall P (separated sep ls).
Proof.
  intros Hs. induction 1 as [| l ls Hl Hls IH]; [constructor |]. destruct ls as [| k ls]; [done |]. cbn [separated] in *.
  apply Forall_app. by split; [| constructor].
Qed.

Lemma separated_len sep n ls : Forall (λ l, zlen l ≤ n) ls → zlen (separated sep ls) ≤ Z.max 0 ((n + 1) * zlen ls - 1).
Proof.
  induction 1 as [| l ls Hl Hls IH]; [unfold zlen; cbn [separated length]; lia |]. rewrite zlen_cons. destruct ls as [| k ls]; [cbn [separated]; change (zlen []) with 0; lia |].
  change (separated sep (l :: k :: ls)) with (l ++ sep :: separated sep (k :: ls)). rewrite zlen_app, !zlen_cons in *. pose proof (zlen_nonneg ls).
  pose proof (zlen_nonneg l). nia.
Qed.

(** The characters of a printed address: digits, and the separator. *)
Definition addr_char (sep c : Z) : Prop := 48 ≤ c ≤ 57 ∨ 97 ≤ c ≤ 102 ∨ c = sep.

Lemma digits_addr_char base fuel x sep : 0 < base ≤ 16 → 0 ≤ x → Forall (addr_char sep) (to_digits base fuel x).
Proof. intros Hb Hx. eapply Forall_impl; [by apply to_digits_chars |]. unfold addr_char. cbn. tauto. Qed.

Lemma print_ipv4_chars ip : Forall (addr_char 46) (print_ipv4 ip).
Proof.
  apply separated_Forall; [unfold addr_char; tauto |]. apply Forall_fmap. eapply Forall_impl; [apply wf_le_bytes |]. intros x [Hx _]. by apply digits_addr_char.
Qed.

Lemma print_ipv6_chars ip : wf_bytes ip → Forall (addr_char 58) (print_ipv6 ip).
Proof.
  intros Hip. apply separated_Forall; [unfold addr_char; tauto |]. apply Forall_fmap, Forall_true. intros i.
  apply (digits_addr_char 16 4); [done |]. apply read_be16_range. by apply Forall_drop.
Qed.

Lemma print_ipv4_len ip : zlen (print_ipv4 ip) ≤ 23.
Proof.
  etransitivity; [apply (separated_len _ 5) |]; [apply Forall_fmap, Forall_true; intros x; apply (to_digits_len 10 5) |].
  unfold zlen. by rewrite length_fmap, length_le_bytes.
Qed.

Lemma print_ipv6_len ip : zlen (print_ipv6 ip) ≤ 39.
Proof.
  etransitivity; [apply (separated_len _ 4) |]; [apply Forall_fmap, Forall_true; intros i; apply (to_digits_len 16 4) | done].
Qed.

Lemma print_dec_len x : 1 ≤ zlen (print_dec x) ≤ 5.
Proof. pose proof (to_digits_nonempty 10 5 x ltac:(lia)). pose proof (to_digits_len 10 5 x). unfold print_dec. lia. Qed.

(** The printed numeric addresses are hosts. *)
Lemma print_ipv4_host ip : host_ok false (print_ipv4 ip).
Proof.
  pose proof (print_ipv4_chars ip) as H. split; [eapply Forall_impl; [exact H |]; intros c; unfold addr_char; lia |]. intros _.
  destruct (print_ipv4 ip) as [| c l]; [done |]. apply Forall_cons in H as [H _]. intros [= ->]. unfold addr_char in H. lia.
Qed.

Lemma print_ipv6_host ip : wf_bytes ip → host_ok true (print_ipv6 ip).
Proof. intros Hw. split; [eapply Forall_impl; [by apply print_ipv6_chars |]; intros c; unfold addr_char; lia | done]. Qed.

(** A printed IPv6 address is not one that is parsed: the first colon in it is taken to
    end the host, and then too much is left for a port. *)
Lemma print_ipv6_split ip ptext : wf_bytes ip → ∃ host rest, host_ok false host ∧ 6 ≤ zlen rest ∧ print_ipv6 ip ++ 58 :: ptext = host_port false host rest.
Proof.
  intros Hw. pose proof (λ i, to_digits_nonempty 16 4 (badvpn_read_be16 (zdrop i ip)) ltac:(lia)) as Hpos.
  assert (Forall (addr_char 48) (print_hex (badvpn_read_be16 (zdrop 0 ip)))) as Hc by (apply digits_addr_char; [done |]; by apply read_be16_range, Forall_drop).
  unfold print_ipv6. cbn [fmap list_fmap separated]. rewrite <- app_assoc, <- app_comm_cons. eexists _, _. split; [| split; [| reflexivity]].
  - split; [eapply Forall_impl; [exact Hc |]; intros c; unfold addr_char; lia |]. intros _.
    destruct (print_hex _) as [| c l]; [done |]. apply Forall_cons in Hc as [H _]. intros [= ->]. unfold addr_char in H. lia.
  - repeat first [rewrite zlen_app | rewrite zlen_cons]. unfold print_hex. pose proof (Hpos 2). pose proof (Hpos 4). pose proof (Hpos 6). pose proof (Hpos 8). pose proof (Hpos 10).
    pose proof (Hpos 12). pose proof (Hpos 14). pose proof (zlen_nonneg ptext). lia.
Qed.

(** [getaddrinfo] takes the numeric text of the address to be that address. *)
Definition resolves (gai : resolver) (noresolve : bool) (a : BAddr) : Prop :=
  match a with
  | BADDR_NONE => True
  | BADDR_IPV4 ip _ => gai_inet gai (print_ipv4 ip) noresolve = Some ip
  | BADDR_IPV6 ip _ => gai_inet6 gai (print_ipv6 ip) noresolve = Some ip
  end.

(** The text that the parser takes for an address: as printed, but IPv6 in brackets. *)
Definition addr_text (a : BAddr) : bytes :=
  match a with
  | BADDR_IPV6 ip port => host_port true (print_ipv6 ip) (print_dec (ntoh16 port))
  | _ => BAddr_Print a
  end.
Definition ip_text (a : BAddr) : bytes :=
  match a with
  | BADDR_IPV6 ip _ => 91 :: print_ipv6 ip ++ [93]
  | _ => BIPAddr_Print (BAddr_GetIPAddr a)
  end.

Lemma resolve_ipv4 gai noresolve ip : gai_inet gai (print_ipv4 ip) noresolve = Some ip →
  BIPAddr_Resolve gai (print_ipv4 ip) noresolve = Some (BIPADDR_IPV4 ip).
Proof.
  intros Hr. unfold BIPAddr_Resolve. destruct (print_ipv4_host ip) as [_ Hh]. specialize (Hh eq_refl). pose proof (print_ipv4_len ip) as Hl.
  assert ((byte_at (print_ipv4 ip) 0 =? 91) = false) as -> by (destruct (print_ipv4 ip) as [| c l]; [done |]; rewrite byte_at_0; apply Z.eqb_neq; by intros ->).
  rewrite andb_false_r. cbn [andb]. rewrite (proj2 (Z.ltb_ge _ _)) by (unfold BADDR_MAX_ADDR_LEN; lia). unfold mem_read. rewrite zdrop_le0, ztake_ge by lia.
  by rewrite Hr, option_bind_Some.
Qed.

Lemma resolve_ipv6 gai noresolve ip : zlen ip = 16 → gai_inet6 gai (print_ipv6 ip) noresolve = Some ip →
  BIPAddr_Resolve gai (91 :: print_ipv6 ip ++ [93]) noresolve = Some (BIPADDR_IPV6 ip).
Proof.
  intros Hip Hr. unfold BIPAddr_Resolve. pose proof (print_ipv6_len ip) as Hl. pose proof (zlen_nonneg (print_ipv6 ip)). set (h := print_ipv6 ip) in *.
  rewrite byte_at_0. change (91 :: h ++ [93]) with ((91 :: h) ++ [93]). rewrite byte_at_app_cons by (rewrite zlen_app, zlen_cons; change (zlen [93]) with 1; lia).
  rewrite zlen_app, zlen_cons. change (zlen [93]) with 1. rewrite (proj2 (Z.leb_le _ _)) by lia. cbn [andb Z.eqb Pos.eqb].
  rewrite (proj2 (Z.ltb_ge _ _)) by (unfold BADDR_MAX_ADDR_LEN; lia). unfold mem_read. change (zdrop 1 ((91 :: h) ++ [93])) with (h ++ [93]).
  rewrite ztake_app_exact by lia. by rewrite Hr, option_bind_Some, ztake_ge by lia.
Qed.

(** [C27] Addresses and their text. For every string, the parser of "host:port" succeeds
    exactly when the string is a host without the character that ends it, in brackets
    for IPv6, followed by a port; the host has fewer than 128 and the port fewer than 6
    characters; the port is decimal digits, at least one and nothing after them, which
    may have white space and a sign before them ([port_text]), of a number from 0 to
    65535; the host resolves; and its name fits the caller's buffer. So the buffers of the parser are not exceeded. The
    printed text of an address fits the buffers that callers provide. Parsing the text of
    an IPv4 address gives that address back, and so does parsing the text of an IPv6
    address in brackets; the text as printed, which has none, is refused. *)
Theorem addr_text_parse gai noresolve a : BAddr_wf a → resolves gai noresolve a →
  (∀ s name r, BAddr_Parse2 gai s name noresolve = Some r ↔
    ∃ ipv6 host ptext port addr, s = host_port ipv6 host ptext ∧ host_ok ipv6 host ∧ zlen host < 128 ∧ zlen ptext < 6 ∧
      port_text ptext port ∧ 0 ≤ port ≤ 65535 ∧ resolved gai noresolve ipv6 host (hton16 port) = Some addr ∧ named name host addr = Some r) ∧
  zlen (BIPAddr_Print (BAddr_GetIPAddr a)) < BIPADDR_MAX_PRINT_LEN ∧ zlen (BAddr_Print a) < BADDR_MAX_PRINT_LEN ∧
  BAddr_Parse2 gai (addr_text a) None noresolve = (if BAddr_IsInvalid a then None else Some (a, None)) ∧
  (BAddr_IsInvalid a = false → BIPAddr_Resolve gai (ip_text a) noresolve = Some (BAddr_GetIPAddr a)) ∧
  (BAddr_type a = 2 → ∀ name, BAddr_Parse2 gai (BAddr_Print a) name noresolve = None).
Proof.
  intros Hw Hr. split; [intros; apply parse_exact |]. destruct a as [| ip port | ip port]; cbn [BAddr_wf resolves] in *.
  - repeat split; done.
  - destruct Hw as [Hip Hp]. pose proof (print_dec_len (ntoh16 port)). pose proof (print_ipv4_len ip). unfold BADDR_MAX_PRINT_LEN, BIPADDR_MAX_PRINT_LEN.
    cbn [BAddr_Print BAddr_GetIPAddr BIPAddr_InitIPv4 BIPAddr_Print addr_text ip_text]. rewrite zlen_app, zlen_cons. split; [lia |]. split; [lia |]. split; [| split; [| done]].
    + change (print_ipv4 ip ++ 58 :: ?p) with (host_port false (print_ipv4 ip) p). rewrite parse_host_port by (first [apply print_ipv4_host | lia]).
      rewrite parse_port_print, option_bind_Some by done. cbn [resolved]. by rewrite Hr.
    + intros _. by apply resolve_ipv4.
  - destruct Hw as (Hip & Hwf & Hp). pose proof (print_dec_len (ntoh16 port)). pose proof (print_ipv6_len ip). unfold BADDR_MAX_PRINT_LEN, BIPADDR_MAX_PRINT_LEN.
    assert (ztake 16 ip = ip) as Ht by (apply ztake_ge; lia).
    cbn [BAddr_Print BAddr_GetIPAddr]. unfold BIPAddr_InitIPv6. rewrite Ht. cbn [BIPAddr_Print addr_text ip_text]. rewrite zlen_app, zlen_cons.
    split; [lia |]. split; [lia |]. split; [| split].
    + rewrite parse_host_port by (first [by apply print_ipv6_host | lia]).
      rewrite parse_port_print, option_bind_Some by done. cbn [resolved]. by rewrite Hr, option_bind_Some, Ht.
    + intros _. by apply resolve_ipv6.
    + intros _ name. destruct (print_ipv6_split ip (print_dec (ntoh16 port)) Hwf) as (host & rest & Hok & Hl & ->). apply parse_too_long; auto.
Qed.

(** A resolver for full numeric addresses only. *)
Definition split_on (sep : Z) (l : bytes) : list bytes :=
  foldr (λ c ls, if c =? sep then [] :: ls else match ls with l :: ls => (c :: l) :: ls | [] => [[c]] end) [[]] l.
Definition hex_value (l : bytes) : Z := foldl (λ a c, a * 16 + (if is_digit c then c - 48 else c - 87)) 0 l.
Definition demo_gai : resolver := mk_resolver
  (λ s _, Some (le_val (map dec_value (split_on 46 s))))
  (λ s _, Some (flat_map (λ g, [hex_value g / 256; hex_value g mod 256]) (split_on 58 s))).

(** 192.168.0.1:1080, and port 1080 of fe80::ff (in full). *)
Definition demo_addr4 : BAddr := BADDR_IPV4 (le_val [192; 168; 0; 1]) (hton16 1080).
Definition demo_addr6 : BAddr := BADDR_IPV6 [254; 128; 0; 0; 0; 0; 0; 0; 0; 0; 0; 0; 0; 0; 0; 255] (hton16 1080).

Lemma addr_text_parse_witness :
  BAddr_Print demo_addr4 = [49; 57; 50; 46; 49; 54; 56; 46; 48; 46; 49; 58; 49; 48; 56; 48] ∧
  BAddr_Parse2 demo_gai (BAddr_Print demo_addr4) None true = Some (demo_addr4, None) ∧
  BAddr_Parse2 demo_gai (addr_text demo_addr6) None true = Some (demo_addr6, None) ∧
  BAddr_Parse2 demo_gai (BAddr_Print demo_addr6) None true = None.
Proof.
  assert (wf_bytes [254; 128; 0; 0; 0; 0; 0; 0; 0; 0; 0; 0; 0; 0; 0; 255]) as Hw by (repeat constructor; unfold is_byte; lia).
  destruct (addr_text_parse demo_gai true demo_addr4) as (_ & _ & _ & H4 & _); [vm_compute; intuition congruence | by vm_compute |].
  destruct (addr_text_parse demo_gai true demo_addr6) as (_ & _ & _ & H6 & _ & H6n); [split; [done |]; split; [exact Hw | vm_compute; intuition congruence] | by vm_compute |].
  split; [by vm_compute |]. split; [exact H4 |]. split; [exact H6 |]. by apply H6n.
Defined.
