(* ===== verification/BSocksClient.v ===== *)
(** * The SOCKS5 client (socksclient/BSocksClient.c, misc/socks_proto.h)

    The handlers run in the monad of the prelude. [realloc] is the allocator:
    [realloc old n] is the new block, [None] when it fails. Reads and writes of
    the message buffer outside its block make a handler undefined, as do the
    assertions of the code and freeing a resource that is not held. The messages
    sent, the receive requests and the events reported to the user are effects.

    [handshake] is the protocol seen from outside: what the client has sent and
    whether it waits, is up or has failed, as a function of the bytes the server
    has sent. *)
From S2P Require Import Prelude ByteOrder BAddr.

#[local] Arguments le_bytes : simpl never.
#[local] Arguments le_val : simpl never.

Definition SOCKS_VERSION : Z := 5.
Definition SOCKS_METHOD_NO_AUTHENTICATION_REQUIRED : Z := 0.
Definition SOCKS_METHOD_USERNAME_PASSWORD : Z := 2.
Definition SOCKS_CMD_CONNECT : Z := 1.
Definition SOCKS_ATYP_IPV4 : Z := 1.
Definition SOCKS_ATYP_IPV6 : Z := 4.
Definition SOCKS_REP_SUCCEEDED : Z := 0.

(** Sizes of the packed structures. *)
Definition sizeof_client_hello_header : Z := 2.
Definition sizeof_client_hello_method : Z := 1.
Definition sizeof_server_hello : Z := 2.
Definition sizeof_request_header : Z := 4.
Definition sizeof_reply_header : Z := 4.
Definition sizeof_addr_ipv4 : Z := 6.
Definition sizeof_addr_ipv6 : Z := 18.

Record auth_info := mk_auth_info { auth_type : Z; username : bytes; password : bytes }.

Definition BSocksClient_auth_none : auth_info := mk_auth_info SOCKS_METHOD_NO_AUTHENTICATION_REQUIRED [] [].
Definition BSocksClient_auth_password (u p : bytes) : auth_info := mk_auth_info SOCKS_METHOD_USERNAME_PASSWORD u p.

Inductive socks_state :=
| STATE_CONNECTING | STATE_SENDING_HELLO | STATE_SENT_HELLO | STATE_SENDING_PASSWORD | STATE_SENT_PASSWORD
| STATE_SENDING_REQUEST | STATE_SENT_REQUEST | STATE_RECEIVED_REPLY_HEADER | STATE_UP.
#[export] Instance socks_state_eq_dec : EqDecision socks_state.
Proof. solve_decision. Defined.

(** The asynchronous I/O set up on the connection. *)
Inductive socks_io := IoNone | IoControl | IoUp.
#[export] Instance socks_io_eq_dec : EqDecision socks_io.
Proof. solve_decision. Defined.

Inductive socks_event := BSOCKSCLIENT_EVENT_ERROR | BSOCKSCLIENT_EVENT_UP | BSOCKSCLIENT_EVENT_ERROR_CLOSED.

(** [recv_dest] is an offset into the buffer. *)
Record BSocksClient := mk_BSocksClient {
  auths : list auth_info;
  dest_addr : BAddr;
  state : socks_state;
  buffer : option bytes;
  connector : bool;
  con : bool;
  io : socks_io;
  recv_dest : Z;
  recv_len : Z;
  recv_total : Z
}.
#[export] Instance BSocksClient_eta : Eta BSocksClient := λ o,
  mk_BSocksClient (auths o) (dest_addr o) (state o) (buffer o) (connector o) (con o) (io o)
    (recv_dest o) (recv_len o) (recv_total o).

Inductive socks_call := SkSend (data : bytes) | SkRecv (off len : Z) | SkEvent (e : socks_event).

(** ** Operations *)

Section client.
Context (realloc : option bytes → Z → option bytes).

Abbreviation SM := (M BSocksClient socks_call).

Definition report_error (e : socks_event) : SM unit := emit (SkEvent e).

Definition init_control_io : SM unit :=
  o ← get; assert (con o && bool_decide (io o = IoNone));; modify (λ o, o <| io := IoControl |>).
Definition free_control_io : SM unit :=
  o ← get; assert (bool_decide (io o = IoControl));; modify (λ o, o <| io := IoNone |>).
Definition init_up_io : SM unit :=
  o ← get; assert (con o && bool_decide (io o = IoNone));; modify (λ o, o <| io := IoUp |>).
Definition free_up_io : SM unit :=
  o ← get; assert (bool_decide (io o = IoUp));; modify (λ o, o <| io := IoNone |>).

(** [BConnection_Free]: its interfaces must have been freed. *)
Definition free_con : SM unit :=
  o ← get; assert (con o && bool_decide (io o = IoNone));; modify (λ o, o <| con := false |>).

Definition reserve_buffer (size : bsize_t) : SM bool :=
  if is_overflow size then mret false else
  o ← get;
  match realloc (buffer o) (bvalue size) with
  | None => mret false
  | Some b => modify (λ o, o <| buffer := Some b |>);; mret true
  end.

(** [memcpy] into and out of [o->buffer]. *)
Definition buf_write (off : Z) (d : bytes) : SM unit :=
  o ← get;
  match buffer o with
  | None => stuck
  | Some b => assert ((0 <=? off) && (off + zlen d <=? zlen b));; modify (λ o, o <| buffer := Some (mem_write b off d) |>)
  end.
Definition buf_read (off len : Z) : SM bytes :=
  o ← get;
  match buffer o with
  | None => stuck
  | Some b => assert ((0 <=? off) && (off + len <=? zlen b));; mret (mem_read b off len)
  end.

(** [PacketPassInterface_Sender_Send] of the first [len] bytes of the buffer. *)
Definition send_buffer (len : Z) : SM unit := d ← buf_read 0 len; emit (SkSend d).

Definition do_receive : SM unit :=
  o ← get;
  assert (recv_len o <? recv_total o);;
  emit (SkRecv (recv_dest o + recv_len o) (recv_total o - recv_len o)).

Definition start_receive (dest total : Z) : SM unit :=
  assert (0 <? total);;
  modify (λ o, o <| recv_dest := dest |> <| recv_len := 0 |> <| recv_total := total |>);;
  do_receive.

Definition set_state (s : socks_state) : SM unit := modify (λ o, o <| state := s |>).

(** The loop that writes the methods of the hello. *)
Fixpoint write_methods (i : Z) (l : list auth_info) : SM unit :=
  match l with
  | [] => mret ()
  | a :: l =>
      buf_write (sizeof_client_hello_header + i * sizeof_client_hello_method) [u8 (hton8 (u8 (auth_type a)))];;
      write_methods (i + 1) l
  end.

(** [con_ok] is the result of [BConnection_Init]. *)
Definition connector_handler (is_error con_ok : bool) : SM unit :=
  o ← get;
  assert (bool_decide (state o = STATE_CONNECTING));;
  if is_error then report_error BSOCKSCLIENT_EVENT_ERROR else
  if negb con_ok then report_error BSOCKSCLIENT_EVENT_ERROR else
  modify (λ o, o <| con := true |>);;
  init_control_io;;
  let fail1 := free_control_io;; free_con;; report_error BSOCKSCLIENT_EVENT_ERROR in
  let num_auth_info := zlen (auths o) in
  if (num_auth_info =? 0) || (255 <? num_auth_info) then fail1 else
  let size := bsize_add (bsize_fromsize sizeof_client_hello_header)
                (bsize_mul (bsize_fromsize num_auth_info) (bsize_fromsize sizeof_client_hello_method)) in
  ok ← reserve_buffer size;
  if negb ok then fail1 else
  buf_write 0 [hton8 SOCKS_VERSION; hton8 (u8 num_auth_info)];;
  write_methods 0 (auths o);;
  send_buffer (bvalue size);;
  set_state STATE_SENDING_HELLO.

Definition connection_handler (recvclosed : bool) : SM unit :=
  o ← get;
  assert (bool_decide (state o ≠ STATE_CONNECTING));;
  if bool_decide (state o = STATE_UP) && recvclosed then report_error BSOCKSCLIENT_EVENT_ERROR_CLOSED
  else report_error BSOCKSCLIENT_EVENT_ERROR.

Definition auth_finished : SM unit :=
  o ← get;
  let size := bsize_fromsize sizeof_request_header in
  let size := match dest_addr o with
              | BADDR_IPV4 _ _ => bsize_add size (bsize_fromsize sizeof_addr_ipv4)
              | BADDR_IPV6 _ _ => bsize_add size (bsize_fromsize sizeof_addr_ipv6)
              | BADDR_NONE => size
              end in
  ok ← reserve_buffer size;
  if negb ok then report_error BSOCKSCLIENT_EVENT_ERROR else
  atyp ← (match dest_addr o with
          | BADDR_IPV4 ip port =>
              buf_write sizeof_request_header (le_bytes 4 ip ++ le_bytes 2 port);;
              mret (hton8 SOCKS_ATYP_IPV4)
          | BADDR_IPV6 ip port =>
              buf_write sizeof_request_header (ip ++ le_bytes 2 port);;
              mret (hton8 SOCKS_ATYP_IPV6)
          | BADDR_NONE => stuck
          end);
  buf_write 0 [hton8 SOCKS_VERSION; hton8 SOCKS_CMD_CONNECT; hton8 0; atyp];;
  send_buffer (bvalue size);;
  set_state STATE_SENDING_REQUEST.

(** The search for the method the server chose. *)
Fixpoint find_auth (l : list auth_info) (method : Z) : option auth_info :=
  match l with
  | [] => None
  | a :: l => if auth_type a =? method then Some a else find_auth l method
  end.

Definition fail : SM unit := report_error BSOCKSCLIENT_EVENT_ERROR.

Definition received_hello : SM unit :=
  o ← get;
  imsg ← buf_read 0 sizeof_server_hello;
  if negb (ntoh8 (byte_at imsg 0) =? SOCKS_VERSION) then fail else
  match find_auth (auths o) (ntoh8 (byte_at imsg 1)) with
  | None => fail
  | Some ai =>
      if auth_type ai =? SOCKS_METHOD_NO_AUTHENTICATION_REQUIRED then auth_finished
      else if auth_type ai =? SOCKS_METHOD_USERNAME_PASSWORD then
        let username_len := zlen (username ai) in
        let password_len := zlen (password ai) in
        if (username_len =? 0) || (255 <? username_len) || (password_len =? 0) || (255 <? password_len) then fail else
        let size := bsize_fromsize (1 + 1 + username_len + 1 + password_len) in
        ok ← reserve_buffer size;
        if negb ok then fail else
        buf_write 0 [1];;
        buf_write 1 [u8 username_len];;
        buf_write 2 (username ai);;
        buf_write (2 + username_len) [u8 password_len];;
        buf_write (2 + username_len + 1) (password ai);;
        send_buffer (bvalue size);;
        set_state STATE_SENDING_PASSWORD
      else stuck
  end.

Definition received_reply_header : SM unit :=
  imsg ← buf_read 0 sizeof_reply_header;
  if negb (ntoh8 (byte_at imsg 0) =? SOCKS_VERSION) then fail else
  if negb (ntoh8 (byte_at imsg 1) =? SOCKS_REP_SUCCEEDED) then fail else
  if ntoh8 (byte_at imsg 3) =? SOCKS_ATYP_IPV4 then
    start_receive sizeof_reply_header sizeof_addr_ipv4;; set_state STATE_RECEIVED_REPLY_HEADER
  else if ntoh8 (byte_at imsg 3) =? SOCKS_ATYP_IPV6 then
    start_receive sizeof_reply_header sizeof_addr_ipv6;; set_state STATE_RECEIVED_REPLY_HEADER
  else fail.

Definition received_password_reply : SM unit :=
  b ← buf_read 0 2;
  if negb (byte_at b 0 =? 1) then fail else
  if negb (byte_at b 1 =? 0) then fail else auth_finished.

Definition received_reply_rest : SM unit :=
  o ← get;
  assert (bool_decide (is_Some (buffer o)));;
  modify (λ o, o <| buffer := None |>);;
  free_control_io;;
  init_up_io;;
  set_state STATE_UP;;
  emit (SkEvent BSOCKSCLIENT_EVENT_UP).

Definition recv_handler_done (data_len : Z) : SM unit :=
  o ← get;
  assert (0 <=? data_len);;
  assert (data_len <=? recv_total o - recv_len o);;
  modify (λ o, o <| recv_len := recv_len o + data_len |>);;
  o ← get;
  if recv_len o <? recv_total o then do_receive else
  match state o with
  | STATE_SENT_HELLO => received_hello
  | STATE_SENT_REQUEST => received_reply_header
  | STATE_SENT_PASSWORD => received_password_reply
  | STATE_RECEIVED_REPLY_HEADER => received_reply_rest
  | _ => stuck
  end.

Definition send_handler_done : SM unit :=
  o ← get;
  assert (bool_decide (is_Some (buffer o)));;
  match state o with
  | STATE_SENDING_HELLO =>
      let size := bsize_fromsize sizeof_server_hello in
      ok ← reserve_buffer size;
      if negb ok then fail else
      start_receive 0 (bvalue size);; set_state STATE_SENT_HELLO
  | STATE_SENDING_REQUEST =>
      let size := bsize_add (bsize_fromsize sizeof_reply_header)
                    (bsize_max (bsize_fromsize sizeof_addr_ipv4) (bsize_fromsize sizeof_addr_ipv6)) in
      ok ← reserve_buffer size;
      if negb ok then fail else
      start_receive 0 sizeof_reply_header;; set_state STATE_SENT_REQUEST
  | STATE_SENDING_PASSWORD =>
      let size := bsize_fromsize 2 in
      ok ← reserve_buffer size;
      if negb ok then fail else
      start_receive 0 (bvalue size);; set_state STATE_SENT_PASSWORD
  | _ => stuck
  end.

(** [connector_ok] is the result of [BConnector_Init]. *)
Definition BSocksClient_Init (connector_ok : bool) (server_addr : BAddr) (auth_info : list auth_info) (dest : BAddr)
    : option (option BSocksClient) :=
  ASSERT (negb (BAddr_IsInvalid server_addr));;
  ASSERT (negb (BAddr_IsInvalid dest));;
  ASSERT (forallb (λ a, (auth_type a =? SOCKS_METHOD_NO_AUTHENTICATION_REQUIRED) ||
                        (auth_type a =? SOCKS_METHOD_USERNAME_PASSWORD)) auth_info);;
  Some (if connector_ok then Some (mk_BSocksClient auth_info dest STATE_CONNECTING None true false IoNone 0 0 0) else None).

Definition BSocksClient_Free : SM unit :=
  o ← get;
  when (bool_decide (state o ≠ STATE_CONNECTING))
    ((if bool_decide (state o = STATE_UP) then free_up_io else free_control_io);; free_con);;
  o ← get;
  assert (connector o);;
  modify (λ o, o <| connector := false |> <| buffer := None |>).

End client.

(** ** The protocol *)

Definition hello_msg (l : list auth_info) : bytes := [SOCKS_VERSION; zlen l] ++ map auth_type l.
Definition password_msg (a : auth_info) : bytes :=
  [1; zlen (username a)] ++ username a ++ [zlen (password a)] ++ password a.
Definition request_msg (d : BAddr) : bytes :=
  match d with
  | BADDR_IPV4 ip port => [SOCKS_VERSION; SOCKS_CMD_CONNECT; 0; SOCKS_ATYP_IPV4] ++ le_bytes 4 ip ++ le_bytes 2 port
  | BADDR_IPV6 ip port => [SOCKS_VERSION; SOCKS_CMD_CONNECT; 0; SOCKS_ATYP_IPV6] ++ ip ++ le_bytes 2 port
  | BADDR_NONE => []
  end.

Inductive phase := Waiting | Established | Failed | Overrun.

(** Length of the bound address in the reply. *)
Definition addr_len (atyp : Z) : option Z :=
  if atyp =? SOCKS_ATYP_IPV4 then Some sizeof_addr_ipv4
  else if atyp =? SOCKS_ATYP_IPV6 then Some sizeof_addr_ipv6 else None.

Definition reply_phase (r : bytes) : phase :=
  match r with
  | v :: rep :: _ :: atyp :: r =>
      if negb (v =? SOCKS_VERSION) || negb (rep =? SOCKS_REP_SUCCEEDED) then Failed else
      match addr_len atyp with
      | None => Failed
      | Some n => if zlen r <? n then Waiting else if zlen r =? n then Established else Overrun
      end
  | _ => Waiting
  end.

Definition valid_login (a : auth_info) : bool :=
  (0 <? zlen (username a)) && (zlen (username a) <=? 255) && (0 <? zlen (password a)) && (zlen (password a) <=? 255).

(** What the client has sent, and where it stands, after the bytes [r] of the server. *)
Definition handshake (l : list auth_info) (d : BAddr) (r : bytes) : phase * list bytes :=
  match r with
  | v :: m :: r =>
      if negb (v =? SOCKS_VERSION) then (Failed, [hello_msg l]) else
      match find_auth l m with
      | None => (Failed, [hello_msg l])
      | Some a =>
          if auth_type a =? SOCKS_METHOD_NO_AUTHENTICATION_REQUIRED then (reply_phase r, [hello_msg l; request_msg d])
          else if negb (valid_login a) then (Failed, [hello_msg l])
          else match r with
               | v :: s :: r =>
                   if negb (v =? 1) || negb (s =? 0) then (Failed, [hello_msg l; password_msg a])
                   else (reply_phase r, [hello_msg l; password_msg a; request_msg d])
               | _ => (Waiting, [hello_msg l; password_msg a])
               end
      end
  | _ => (Waiting, [hello_msg l])
  end.

(** ** The client and its server *)

Inductive pending := PNone | PSend | PRecv (off len : Z).

(** [sent] are the messages handed to the connection, [got] the bytes received,
    [reported] the events the user has seen. *)
Record ssys := mk_ssys { cl : BSocksClient; pend : pending; sent : list bytes; got : bytes; reported : list socks_event }.

Definition scall (s : ssys) (c : socks_call) : option ssys :=
  match c, pend s with
  | SkSend d, PNone => Some (mk_ssys (cl s) PSend (sent s ++ [d]) (got s) (reported s))
  | SkRecv off len, PNone => Some (mk_ssys (cl s) (PRecv off len) (sent s) (got s) (reported s))
  | SkEvent e, _ => Some (mk_ssys (cl s) (pend s) (sent s) (got s) (reported s ++ [e]))
  | _, _ => None
  end.

Fixpoint scalls (s : ssys) (cs : list socks_call) : option ssys :=
  match cs with [] => Some s | c :: cs => s ← scall s c; scalls s cs end.

Inductive sevent := Connected (is_error con_ok : bool) | SendDone | Data (d : bytes) | ConnectionEvent (recvclosed : bool).

(** Once an error is reported the user frees the client: no event follows. *)
Definition finished (s : ssys) : bool :=
  existsb (λ e, match e with BSOCKSCLIENT_EVENT_UP => false | _ => true end) (reported s).

Definition senabled (s : ssys) (e : sevent) : bool :=
  negb (finished s) &&
  match e, pend s with
  | Connected _ _, _ => bool_decide (state (cl s) = STATE_CONNECTING)
  | SendDone, PSend => true
  | Data d, PRecv off len => (0 <? zlen d) && (zlen d <=? len)
  | ConnectionEvent _, _ => bool_decide (state (cl s) ≠ STATE_CONNECTING)
  | _, _ => false
  end.

Section run.
Context (realloc : option bytes → Z → option bytes).

Definition sstep (s : ssys) (e : sevent) : option ssys :=
  match e with
  | Connected is_error con_ok =>
      '(_, o, cs) ← connector_handler realloc is_error con_ok (cl s);
      scalls (mk_ssys o PNone (sent s) (got s) (reported s)) cs
  | SendDone =>
      '(_, o, cs) ← send_handler_done realloc (cl s);
      scalls (mk_ssys o PNone (sent s) (got s) (reported s)) cs
  | Data d =>
      match pend s with
      | PRecv off len =>
          '(_, o, _) ← buf_write off d (cl s);
          '(_, o, cs) ← recv_handler_done realloc (zlen d) o;
          scalls (mk_ssys o PNone (sent s) (got s ++ d) (reported s)) cs
      | _ => None
      end
  | ConnectionEvent rc =>
      '(_, o, cs) ← connection_handler rc (cl s);
      scalls (mk_ssys o (pend s) (sent s) (got s) (reported s)) cs
  end.

Fixpoint srun (s : ssys) (es : list sevent) : option ssys :=
  match es with
  | [] => Some s
  | e :: es => if senabled s e then s' ← sstep s e; srun s' es else srun s es
  end.

End run.

(** ** Running the handlers *)

(** What the allocator promises: a block of the size asked for. *)
Definition realloc_ok (realloc : option bytes → Z → option bytes) : Prop :=
  ∀ old n b, 0 ≤ n → realloc old n = Some b → zlen b = n.

Definition dest_ok (d : BAddr) : Prop := BAddr_wf d ∧ BAddr_IsInvalid d = false.
Definition auths_ok (l : list auth_info) : Prop :=
  Forall (λ a, auth_type a = SOCKS_METHOD_NO_AUTHENTICATION_REQUIRED ∨ auth_type a = SOCKS_METHOD_USERNAME_PASSWORD) l.

Section runs.
Context (realloc : option bytes → Z → option bytes) (Hre : realloc_ok realloc).
Implicit Types o : BSocksClient.

Lemma buf_write_run o b off d : buffer o = Some b → 0 ≤ off → off + zlen d ≤ zlen b →
  buf_write off d o = Some ((), o <| buffer := Some (mem_write b off d) |>, []).
Proof. intros Hb H1 H2. unfold buf_write. rewrite run_get, Hb. by rewrite run_assert by lia. Qed.

Lemma buf_read_run o b off len : buffer o = Some b → 0 ≤ off → off + len ≤ zlen b →
  buf_read off len o = Some (mem_read b off len, o, []).
Proof. intros Hb H1 H2. unfold buf_read. rewrite run_get, Hb. by rewrite run_assert by lia. Qed.

Lemma send_buffer_run o b len : buffer o = Some b → len ≤ zlen b →
  send_buffer len o = Some ((), o, [SkSend (mem_read b 0 len)]).
Proof. intros Hb H. unfold send_buffer. by rewrite (run_nil _ _ _ _ _ (buf_read_run o b 0 len Hb ltac:(lia) ltac:(lia))). Qed.

Lemma reserve_run o n : reserve_buffer realloc (bsize_fromsize n) o =
  match realloc (buffer o) n with
  | Some b => Some (true, o <| buffer := Some b |>, [])
  | None => Some (false, o, [])
  end.
Proof. unfold reserve_buffer. simpl. rewrite run_get. by destruct (realloc (buffer o) n). Qed.

Lemma start_receive_run o dest total : 0 < total →
  start_receive dest total o = Some ((), o <| recv_dest := dest |> <| recv_len := 0 |> <| recv_total := total |>,
    [SkRecv (dest + 0) (total - 0)]).
Proof.
  intros H. unfold start_receive. rewrite run_assert by lia. rewrite run_modify. unfold do_receive. rewrite run_get.
  by rewrite run_assert by (simpl; lia).
Qed.

(** Writing behind a prefix extends the prefix. *)
Lemma write_extend b p d : zlen p + zlen d ≤ zlen b → ztake (zlen p) b = p →
  ztake (zlen (p ++ d)) (mem_write b (zlen p) d) = p ++ d ∧ zlen (mem_write b (zlen p) d) = zlen b.
Proof.
  intros Hl Hp. pose proof (zlen_nonneg p). pose proof (zlen_nonneg d). split; [| by apply zlen_mem_write].
  unfold mem_write. rewrite Hp, app_assoc. by apply ztake_app_exact.
Qed.

Lemma methods_run l : ∀ o b p i, buffer o = Some b → zlen p = 2 + i → 0 ≤ i → zlen p + zlen l ≤ zlen b → ztake (zlen p) b = p →
  Forall (λ a, 0 ≤ auth_type a < 256) l →
  ∃ b', write_methods i l o = Some ((), o <| buffer := Some b' |>, []) ∧ zlen b' = zlen b ∧
    ztake (zlen (p ++ map auth_type l)) b' = p ++ map auth_type l.
Proof.
  induction l as [| a l IH]; intros o b p i Hb Hp Hi Hl Hpre Hty; cbn [write_methods map].
  - exists b. rewrite app_nil_r. split; [| done]. destruct o. simpl in *. by subst.
  - apply Forall_cons_1 in Hty as [Ha Hty]. rewrite zlen_cons in Hl. pose proof (zlen_nonneg l).
    unfold sizeof_client_hello_header, sizeof_client_hello_method. rewrite Z.mul_1_r, <- Hp.
    replace (u8 (hton8 (u8 (auth_type a)))) with (auth_type a) by (unfold hton8; by rewrite !u8_small by (rewrite ?u8_small; lia)).
    rewrite (run_nil _ _ _ _ _ (buf_write_run o b (zlen p) [auth_type a] Hb ltac:(lia) ltac:(unfold zlen at 2; simpl; lia))).
    destruct (write_extend b p [auth_type a]) as [H1 H2]; [unfold zlen at 2; simpl; lia | done |].
    destruct (IH (o <| buffer := Some (mem_write b (zlen p) [auth_type a]) |>) (mem_write b (zlen p) [auth_type a])
      (p ++ [auth_type a]) (i + 1)) as (b' & Hr & Hz & Hpre'); [done | rewrite zlen_app; unfold zlen at 2; simpl; lia | lia
      | rewrite zlen_app; unfold zlen at 2; simpl; lia | done | done |].
    exists b'. split; [exact Hr |]. split; [lia |]. by rewrite <- app_assoc in Hpre'.
Qed.

(** The end of [auth_finished]: the header is written before the address. *)
Lemma request_tail_run A hdr n b o : zlen A = n → zlen hdr = 4 → zlen b = 4 + n → buffer o = Some (mem_write b 4 A) →
  ∃ b', (buf_write 0 hdr;; send_buffer (4 + n);; set_state STATE_SENDING_REQUEST) o =
    Some ((), o <| buffer := Some b' |> <| state := STATE_SENDING_REQUEST |>, [SkSend (hdr ++ A)]).
Proof.
  intros HA Hh Hb Ho. pose proof (zlen_nonneg A). set (b1 := mem_write b 4 A) in *.
  assert (zlen b1 = 4 + n) as Hb1 by (unfold b1; rewrite zlen_mem_write; lia).
  rewrite (run_nil _ _ _ _ _ (buf_write_run o b1 0 hdr Ho ltac:(lia) ltac:(lia))).
  set (b2 := mem_write b1 0 hdr). assert (zlen b2 = 4 + n) as Hb2 by (unfold b2; rewrite zlen_mem_write; lia).
  exists b2. unfold mbind, M_bind. rewrite (send_buffer_run _ b2 (4 + n)) by (done || lia). simpl.
  do 3 f_equal. assert (mem_read b2 0 (4 + n) = hdr ++ A) as ->; [| done].
  rewrite <- (ztake_zdrop 4 (mem_read b2 0 (4 + n))). unfold mem_read at 1 2. rewrite ztake_ztake.
  replace (Z.min 4 (4 + n)) with 4 by lia. rewrite zdrop_ztake, zdrop_zdrop by lia.
  replace (4 + n - 4) with n by lia. fold (mem_read b2 0 4). fold (mem_read b2 (0 + 4) n). unfold b2.
  rewrite mem_read_write_same, mem_read_write_after by lia. unfold b1. by rewrite mem_read_write_same by lia.
Qed.

Lemma request_size n : 0 ≤ n ≤ 18 → bsize_add (bsize_fromsize sizeof_request_header) (bsize_fromsize n) = bsize_fromsize (4 + n).
Proof.
  intros Hn. unfold bsize_add, bsize_fromsize, sizeof_request_header. cbn [bvalue is_overflow orb].
  rewrite u64_small by lia. f_equal. unfold SIZE_MAX. lia.
Qed.

(** A write at the end of what was written so far. *)
Lemma append_run {B} (k : unit → M BSocksClient socks_call B) o p off dd n :
  (∃ b, buffer o = Some b ∧ zlen b = n ∧ ztake (zlen p) b = p) → off = zlen p → zlen p + zlen dd ≤ n →
  ∃ b', (buf_write off dd ≫= k) o = k () (o <| buffer := Some b' |>) ∧ zlen b' = n ∧ ztake (zlen (p ++ dd)) b' = p ++ dd.
Proof.
  intros (b & Hb & Hn & Hp) -> Hl. destruct (write_extend b p dd ltac:(lia) Hp) as [H1 H2]. pose proof (zlen_nonneg p).
  exists (mem_write b (zlen p) dd). rewrite (run_nil _ _ _ _ _ (buf_write_run o b (zlen p) dd Hb ltac:(lia) ltac:(lia))).
  split; [done |]. split; [lia | done].
Qed.

(** Executes the next write, behind the prefix [p]. *)
Ltac append_step p n b' Hz' Hp' :=
  let E := fresh in
  match goal with
  | |- context [(buf_write ?off ?dd ≫= ?k) ?o] =>
      destruct (append_run k o p off dd n) as (b' & E & Hz' & Hp');
      [ eexists; split; [first [eassumption | reflexivity] | split; [assumption | assumption || reflexivity]]
      | rewrite ?zlen_app; reflexivity | rewrite ?zlen_app; unfold n; rewrite ?zlen_cons, ?zlen_nil; lia
      | rewrite E; clear E ]
  end.

Lemma password_run o b ai : buffer o = Some b → zlen b = 3 + zlen (username ai) + zlen (password ai) → valid_login ai = true →
  ∃ b', (buf_write 0 [1];; buf_write 1 [u8 (zlen (username ai))];; buf_write 2 (username ai);;
     buf_write (2 + zlen (username ai)) [u8 (zlen (password ai))];; buf_write (2 + zlen (username ai) + 1) (password ai);;
     send_buffer (1 + 1 + zlen (username ai) + 1 + zlen (password ai));; set_state STATE_SENDING_PASSWORD) o =
   Some ((), o <| buffer := Some b' |> <| state := STATE_SENDING_PASSWORD |>, [SkSend (password_msg ai)]).
Proof.
  intros Hb Hz Hv. unfold valid_login in Hv. b2p. set (u := username ai) in *. set (w := password ai) in *. set (n := 3 + zlen u + zlen w) in *.
  rewrite !u8_small by lia.
  append_step ([] : bytes) n b1 Hz1 Hp1. append_step [1] n b2 Hz2 Hp2. append_step [1; zlen u] n b3 Hz3 Hp3.
  append_step ([1; zlen u] ++ u) n b4 Hz4 Hp4. append_step (([1; zlen u] ++ u) ++ [zlen w]) n b5 Hz5 Hp5.
  exists b5. unfold mbind, M_bind. rewrite (send_buffer_run _ b5) by (done || lia). simpl. do 3 f_equal.
  assert (mem_read b5 0 (1 + 1 + zlen u + 1 + zlen w) = password_msg ai) as ->; [| done].
  unfold mem_read. rewrite zdrop_le0 by lia. unfold password_msg. fold u w.
  rewrite <- !app_assoc in Hp5. rewrite <- Hp5 at 1. f_equal.
  rewrite !zlen_app, !zlen_cons, zlen_nil. lia.
Qed.

Definition alloc_fails : Prop := ∃ old n, 0 ≤ n ∧ realloc old n = None.

Lemma auth_finished_run o : dest_ok (dest_addr o) →
  (auth_finished realloc o = Some ((), o, [SkEvent BSOCKSCLIENT_EVENT_ERROR]) ∧ alloc_fails) ∨
  ∃ b, auth_finished realloc o = Some ((), o <| buffer := Some b |> <| state := STATE_SENDING_REQUEST |>, [SkSend (request_msg (dest_addr o))]).
Proof using Hre.
  intros [Hwf Hv]. unfold auth_finished. rewrite run_get.
  destruct (dest_addr o) as [| ip port | ip port]; [done | |]; simpl in Hwf; cbn [request_msg].
  - rewrite request_size by (unfold sizeof_addr_ipv4; lia). change (4 + sizeof_addr_ipv4) with 10.
    pose proof (reserve_run o 10) as Hr. destruct (realloc (buffer o) 10) as [b |] eqn:Er; rewrite (run_nil _ _ _ _ _ Hr); cbn [negb].
    + right. pose proof (Hre _ 10 _ ltac:(lia) Er) as Hz. set (A := le_bytes 4 ip ++ le_bytes 2 port).
      assert (zlen A = 6) as HA by done. rewrite run_assoc.
      rewrite (run_nil _ _ _ _ _ (buf_write_run (o <| buffer := Some b |>) b 4 A ltac:(done) ltac:(lia) ltac:(lia))). rewrite run_ret.
      destruct (request_tail_run A [hton8 SOCKS_VERSION; hton8 SOCKS_CMD_CONNECT; hton8 0; hton8 SOCKS_ATYP_IPV4] 6 b
        (o <| buffer := Some b |> <| buffer := Some (mem_write b 4 A) |>)) as (b' & Hrun); [done | done | done | done |].
      exists b'. exact Hrun.
    + left. split; [done | by eexists _, 10].
  - destruct Hwf as (Hl & _ & _). rewrite request_size by (unfold sizeof_addr_ipv6; lia). change (4 + sizeof_addr_ipv6) with 22.
    pose proof (reserve_run o 22) as Hr. destruct (realloc (buffer o) 22) as [b |] eqn:Er; rewrite (run_nil _ _ _ _ _ Hr); cbn [negb].
    + right. pose proof (Hre _ 22 _ ltac:(lia) Er) as Hz. set (A := ip ++ le_bytes 2 port).
      assert (zlen A = 18) as HA by (unfold A; rewrite zlen_app, Hl; done). rewrite run_assoc.
      rewrite (run_nil _ _ _ _ _ (buf_write_run (o <| buffer := Some b |>) b 4 A ltac:(done) ltac:(lia) ltac:(lia))). rewrite run_ret.
      destruct (request_tail_run A [hton8 SOCKS_VERSION; hton8 SOCKS_CMD_CONNECT; hton8 0; hton8 SOCKS_ATYP_IPV6] 18 b
        (o <| buffer := Some b |> <| buffer := Some (mem_write b 4 A) |>)) as (b' & Hrun); [done | done | done | done |].
      exists b'. exact Hrun.
    + left. split; [done | by eexists _, 22].
Qed.

End runs.

(** ** Invariant *)

Section inv.
Context (l : list auth_info) (d : BAddr).

(** A receive of [total] bytes to offset [dest] of a buffer of [blen] bytes, of which
    [part] has arrived. *)
Definition receiving (s : ssys) (dest total blen : Z) (part : bytes) : Prop :=
  ∃ b, buffer (cl s) = Some b ∧ zlen b = blen ∧ 0 ≤ dest ∧ dest + total ≤ blen ∧
    recv_dest (cl s) = dest ∧ recv_total (cl s) = total ∧ recv_len (cl s) = zlen part ∧ zlen part < total ∧
    mem_read b dest (zlen part) = part ∧ pend s = PRecv (dest + zlen part) (total - zlen part).

Definition sending (s : ssys) : Prop := is_Some (buffer (cl s)) ∧ pend s = PSend.

(** The server has accepted an authentication with the bytes [a]; the client has
    sent [msgs] for it. *)
Inductive authed : bytes → list bytes → Prop :=
| authed_none ai : find_auth l 0 = Some ai → auth_type ai = 0 → authed [SOCKS_VERSION; 0] [hello_msg l]
| authed_password ai : find_auth l 2 = Some ai → auth_type ai = 2 → valid_login ai = true →
    authed [SOCKS_VERSION; 2; 1; 0] [hello_msg l; password_msg ai].

Definition sinv (s : ssys) : Prop :=
  let o := cl s in
  auths o = l ∧ dest_addr o = d ∧ connector o = true ∧
  match state o with
  | STATE_CONNECTING =>
      con o = false ∧ io o = IoNone ∧ pend s = PNone ∧ got s = [] ∧ sent s = [] ∧ reported s = []
  | STATE_UP =>
      con o = true ∧ io o = IoUp ∧ pend s = PNone ∧ buffer o = None ∧ reported s = [BSOCKSCLIENT_EVENT_UP] ∧
      handshake l d (got s) = (Established, sent s)
  | st => con o = true ∧ io o = IoControl ∧ reported s = [] ∧
      match st with
      | STATE_SENDING_HELLO => sending s ∧ got s = [] ∧ sent s = [hello_msg l]
      | STATE_SENT_HELLO => receiving s 0 2 2 (got s) ∧ sent s = [hello_msg l]
      | STATE_SENDING_PASSWORD => sending s ∧ got s = [SOCKS_VERSION; 2] ∧
          ∃ ai, find_auth l 2 = Some ai ∧ auth_type ai = 2 ∧ valid_login ai = true ∧ sent s = [hello_msg l; password_msg ai]
      | STATE_SENT_PASSWORD => ∃ part, receiving s 0 2 2 part ∧ got s = [SOCKS_VERSION; 2] ++ part ∧
          ∃ ai, find_auth l 2 = Some ai ∧ auth_type ai = 2 ∧ valid_login ai = true ∧ sent s = [hello_msg l; password_msg ai]
      | STATE_SENDING_REQUEST => sending s ∧ ∃ msgs, authed (got s) msgs ∧ sent s = msgs ++ [request_msg d]
      | STATE_SENT_REQUEST => ∃ a msgs part, authed a msgs ∧ receiving s 0 4 22 part ∧ got s = a ++ part ∧ sent s = msgs ++ [request_msg d]
      | STATE_RECEIVED_REPLY_HEADER => ∃ a msgs r t n part, authed a msgs ∧ addr_len t = Some n ∧ receiving s 4 n 22 part ∧
          got s = a ++ [SOCKS_VERSION; SOCKS_REP_SUCCEEDED; r; t] ++ part ∧ sent s = msgs ++ [request_msg d]
      | _ => True
      end
  end.

(** After an authentication only the reply decides. *)
Lemma handshake_authed a msgs r : authed a msgs →
  handshake l d (a ++ r) = (reply_phase r, msgs ++ [request_msg d]).
Proof.
  intros [ai Hf Ht | ai Hf Ht Hv]; unfold handshake; simpl.
  - rewrite Hf. by rewrite Ht.
  - rewrite Hf, Ht. simpl. by rewrite Hv.
Qed.

(** Between calls the client stands where the protocol says. *)
Lemma sinv_handshake s : sinv s → state (cl s) ≠ STATE_CONNECTING →
  handshake l d (got s) = (if bool_decide (state (cl s) = STATE_UP) then Established else Waiting, sent s).
Proof.
  assert (∀ (k : bytes) n, zlen k < n → n ≤ 4 → n = 2 → k = [] ∨ ∃ x, k = [x]) as Hlt2.
  { intros [| x [| y k]] n H1 H2 ->; eauto. rewrite !zlen_cons in H1. pose proof (zlen_nonneg k). lia. }
  intros (_ & _ & _ & Hs) Hne. destruct (state (cl s)); try done; simpl in *.
  - destruct Hs as (_ & _ & _ & _ & -> & ->). done.
  - destruct Hs as (_ & _ & _ & (b & _ & _ & _ & _ & _ & _ & _ & Hl & _) & ->).
    destruct (Hlt2 (got s) 2) as [-> | [x ->]]; done || lia.
  - destruct Hs as (_ & _ & _ & _ & -> & ai & Hf & Ht & Hv & ->). unfold handshake. simpl. by rewrite Hf, Ht, Hv.
  - destruct Hs as (_ & _ & _ & part & (b & _ & _ & _ & _ & _ & _ & _ & Hl & _) & -> & ai & Hf & Ht & Hv & ->).
    unfold handshake. simpl. rewrite Hf, Ht. simpl. rewrite Hv. simpl. destruct (Hlt2 part 2) as [-> | [x ->]]; done || lia.
  - destruct Hs as (_ & _ & _ & _ & msgs & Ha & ->). rewrite <- (app_nil_r (got s)). by rewrite (handshake_authed _ msgs).
  - destruct Hs as (_ & _ & _ & a & msgs & part & Ha & (b & _ & _ & _ & _ & _ & _ & _ & Hl & _) & -> & ->).
    rewrite (handshake_authed _ msgs) by done. f_equal.
    destruct part as [| x1 [| x2 [| x3 [| x4 k]]]]; try done. rewrite !zlen_cons in Hl. pose proof (zlen_nonneg k). lia.
  - destruct Hs as (_ & _ & _ & a & msgs & r & t & n & part & Ha & Ht & (b & _ & _ & _ & _ & _ & _ & _ & Hl & _) & -> & ->).
    rewrite (handshake_authed _ msgs) by done. f_equal. simpl. rewrite Ht. by rewrite (proj2 (Z.ltb_lt _ _)).
  - by destruct Hs as (_ & _ & _ & _ & _ & ->).
Qed.

End inv.

(** ** The events preserve the invariant *)

(** The resources held are the ones [BSocksClient_Free] releases. *)
Definition res_ok (o : BSocksClient) : Prop :=
  connector o = true ∧
  match state o with
  | STATE_CONNECTING => con o = false ∧ io o = IoNone
  | STATE_UP => con o = true ∧ io o = IoUp
  | _ => con o = true ∧ io o = IoControl
  end.

Lemma sinv_res l d s : sinv l d s → res_ok (cl s).
Proof. intros (_ & _ & Hc & Hs). split; [done |]. destruct (state (cl s)); naive_solver. Qed.

Section steps.
Context (realloc : option bytes → Z → option bytes) (Hre : realloc_ok realloc).
Context (l : list auth_info) (d : BAddr) (Hl : auths_ok l) (Hd : dest_ok d).
#[local] Set Default Proof Using "All".

(** The error was reported; [why] is the reason. *)
Definition broken (why : Prop) (s : ssys) : Prop := finished s = true ∧ res_ok (cl s) ∧ why.

Definition protocol_error (s : ssys) : Prop := handshake l d (got s) = (Failed, sent s).

Lemma broken_error o p st g rep why : rep = [] → res_ok o → why →
  broken why (mk_ssys o p st g (rep ++ [BSOCKSCLIENT_EVENT_ERROR])).
Proof. intros -> Hr Hw. done. Qed.

Lemma data_run s dest total blen part dd : receiving s dest total blen part → 0 < zlen dd ≤ total - zlen part →
  ∃ b', buf_write (dest + zlen part) dd (cl s) = Some ((), (cl s) <| buffer := Some b' |>, []) ∧ zlen b' = blen ∧
    mem_read b' dest (zlen (part ++ dd)) = part ++ dd ∧
    let o2 := (cl s) <| buffer := Some b' |> <| recv_len := zlen (part ++ dd) |> in
    recv_handler_done realloc (zlen dd) ((cl s) <| buffer := Some b' |>) =
      if zlen (part ++ dd) <? total
      then Some ((), o2, [SkRecv (dest + zlen (part ++ dd)) (total - zlen (part ++ dd))])
      else match state (cl s) with
           | STATE_SENT_HELLO => received_hello realloc o2
           | STATE_SENT_REQUEST => received_reply_header o2
           | STATE_SENT_PASSWORD => received_password_reply realloc o2
           | STATE_RECEIVED_REPLY_HEADER => received_reply_rest o2
           | _ => None
           end.
Proof.
  intros (b & Hb & Hz & H0 & H1 & Hdst & Htot & Hln & Hlt & Hm & _) Hdd. pose proof (zlen_nonneg part).
  exists (mem_write b (dest + zlen part) dd). split; [by apply buf_write_run; [done | lia | lia] |].
  split; [rewrite zlen_mem_write; lia |]. split.
  { rewrite zlen_app. rewrite <- (ztake_zdrop (zlen part) (mem_read _ dest (zlen part + zlen dd))). unfold mem_read.
    rewrite ztake_ztake, zdrop_ztake, zdrop_zdrop by lia. replace (Z.min (zlen part) (zlen part + zlen dd)) with (zlen part) by lia.
    replace (zlen part + zlen dd - zlen part) with (zlen dd) by lia.
    fold (mem_read (mem_write b (dest + zlen part) dd) dest (zlen part)).
    fold (mem_read (mem_write b (dest + zlen part) dd) (dest + zlen part) (zlen dd)).
    rewrite mem_read_write_before, mem_read_write_same by lia. by rewrite Hm. }
  cbv zeta. unfold recv_handler_done. rewrite run_get, run_assert by lia. rewrite run_assert by (simpl; lia).
  rewrite run_modify, run_get. cbn [recv_len recv_total set state]. rewrite Hln, Htot, <- zlen_app.
  destruct (zlen (part ++ dd) <? total) eqn:E.
  - unfold do_receive. rewrite run_get, run_assert by (simpl; lia). simpl. by rewrite Hdst, ?Htot.
  - by destruct (state (cl s)).
Qed.

Lemma await_run o n total st' : 0 < total ≤ n →
  (∃ cs, (ok ← reserve_buffer realloc (bsize_fromsize n); if negb ok then fail else start_receive 0 total;; set_state st') o =
     Some ((), o, cs) ∧ cs = [SkEvent BSOCKSCLIENT_EVENT_ERROR] ∧ alloc_fails realloc) ∨
  ∃ b, zlen b = n ∧
    (ok ← reserve_buffer realloc (bsize_fromsize n); if negb ok then fail else start_receive 0 total;; set_state st') o =
      Some ((), o <| buffer := Some b |> <| recv_dest := 0 |> <| recv_len := 0 |> <| recv_total := total |> <| state := st' |>,
            [SkRecv (0 + 0) (total - 0)]).
Proof.
  intros Hn. pose proof (reserve_run realloc o n) as Hr.
  destruct (realloc (buffer o) n) as [b |] eqn:Er; rewrite (run_nil _ _ _ _ _ Hr); cbn [negb].
  - right. exists b. split; [apply (Hre (buffer o)); [lia | done] |].
    unfold mbind, M_bind. rewrite start_receive_run by lia. done.
  - left. eexists. split; [done |]. split; [done |]. exists (buffer o), n. split; [lia | done].
Qed.

Lemma receiving_start o b n total p st g rep : zlen b = n → 0 < total ≤ n → p = PRecv (0 + 0) (total - 0) →
  buffer o = Some b → recv_dest o = 0 → recv_len o = 0 → recv_total o = total →
  receiving (mk_ssys o p st g rep) 0 total n [].
Proof. intros. exists b. simpl. split_and!; rewrite ?zlen_nil; try done; lia. Qed.

Lemma send_done_step s : sinv l d s → senabled s SendDone = true →
  ∃ s', sstep realloc s SendDone = Some s' ∧ (sinv l d s' ∨ broken (alloc_fails realloc) s').
Proof.
  intros Hi Hen. pose proof (sinv_res _ _ _ Hi) as Hr. destruct Hi as (Ha & Hda & Hc & Hs).
  unfold senabled in Hen. apply andb_prop in Hen as [_ Hen]. destruct (pend s) eqn:Hp; try done. clear Hen.
  unfold sstep, send_handler_done. rewrite run_get.
  assert (is_Some (buffer (cl s)) ∧ reported s = []) as [Hb Hrep].
  { destruct (state (cl s)); unfold sending, receiving in Hs; decompose [and ex] Hs; (done || congruence). }
  rewrite run_assert by (by apply bool_decide_true).
  destruct (state (cl s)) eqn:Est; try (unfold sending, receiving in Hs; exfalso; decompose [and ex] Hs; congruence).
  - destruct (await_run (cl s) 2 2 STATE_SENT_HELLO ltac:(lia)) as [(cs & Hrun & -> & Hf) | (b & Hz & Hrun)];
      change (bsize_fromsize sizeof_server_hello) with (bsize_fromsize 2); cbn [bvalue bsize_fromsize]; rewrite Hrun; simpl.
    + eexists. split; [done |]. right. by apply broken_error.
    + eexists. split; [done |]. left. destruct Hs as (? & ? & _ & _ & Hg & Hst). unfold sinv. simpl. rewrite Hg.
      split_and!; try done. by apply (receiving_start _ b); try lia.
  - destruct (await_run (cl s) 2 2 STATE_SENT_PASSWORD ltac:(lia)) as [(cs & Hrun & -> & Hf) | (b & Hz & Hrun)];
      cbn [bvalue bsize_fromsize]; rewrite Hrun; simpl.
    + eexists. split; [done |]. right. by apply broken_error.
    + eexists. split; [done |]. left. destruct Hs as (? & ? & _ & _ & Hg & Hst). unfold sinv. simpl.
      split_and!; try done. exists []. rewrite Hg. split_and!; try done. by apply (receiving_start _ b); try lia.
  - destruct (await_run (cl s) 22 4 STATE_SENT_REQUEST ltac:(lia)) as [(cs & Hrun & -> & Hf) | (b & Hz & Hrun)];
      change (bsize_add _ _) with (bsize_fromsize 22); change sizeof_reply_header with 4; rewrite Hrun; simpl.
    + eexists. split; [done |]. right. by apply broken_error.
    + eexists. split; [done |]. left. destruct Hs as (? & ? & _ & _ & msgs & Hau & Hst). unfold sinv. simpl.
      split_and!; try done. exists (got s), msgs, []. rewrite app_nil_r. split_and!; try done. by apply (receiving_start _ b); try lia.
Qed.

Lemma find_auth_type k m a : find_auth k m = Some a → auth_type a = m ∧ a ∈ k.
Proof.
  induction k as [| x k IH]; simpl; [done |]. case_if; [intros [= <-]; set_solver |]. intros H. destruct (IH H). set_solver.
Qed.

Lemma message_2 (f : bytes) : zlen f = 2 → ∃ x y, f = [x; y].
Proof. destruct f as [| x [| y [| z f]]]; try done; [eauto |]. rewrite !zlen_cons. pose proof (zlen_nonneg f). lia. Qed.

Lemma message_4 (f : bytes) : zlen f = 4 → ∃ x y z t, f = [x; y; z; t].
Proof.
  destruct f as [| x [| y [| z [| t [| u f]]]]]; try done; [eauto 6 |]. rewrite !zlen_cons. pose proof (zlen_nonneg f). lia.
Qed.

(** The reasons for an error while data is processed. *)
Definition data_fault (s : ssys) : Prop := protocol_error s ∨ alloc_fails realloc.

(** The outcome of a handler that got a complete message. *)
Definition outcome (s : ssys) (r : option (unit * BSocksClient * list socks_call)) (g : bytes) : Prop :=
  ∃ o cs s', r = Some ((), o, cs) ∧ scalls (mk_ssys o PNone (sent s) g (reported s)) cs = Some s' ∧
    (sinv l d s' ∨ broken (data_fault s') s').

Lemma outcome_error s o g : reported s = [] → res_ok o → handshake l d g = (Failed, sent s) ∨ alloc_fails realloc →
  outcome s (Some ((), o, [SkEvent BSOCKSCLIENT_EVENT_ERROR])) g.
Proof. intros Hr Ho Hw. eexists _, _, _. split; [done |]. split; [done |]. right. by apply broken_error. Qed.

Lemma auth_finished_outcome s o g msgs : auths o = l → dest_addr o = d → connector o = true → con o = true → io o = IoControl →
  state o ≠ STATE_CONNECTING → state o ≠ STATE_UP → reported s = [] → authed l g msgs → sent s = msgs →
  outcome s (auth_finished realloc o) g.
Proof.
  intros Ha Hda Hc Hcon Hio Hs1 Hs2 Hrep Hau Hst.
  destruct (auth_finished_run realloc Hre o ltac:(by rewrite Hda)) as [[-> Hf] | (b & ->)].
  - apply outcome_error; [done | | by right]. split; [done |]. by destruct (state o).
  - eexists _, _, _. split; [done |]. split; [done |]. left. unfold sinv. simpl. rewrite Hda.
    unfold sending. split_and!; simpl; try done; try (by eexists). exists msgs. split; [done |]. by rewrite Hst.
Qed.

Lemma hello_outcome s o b : sinv l d s → state (cl s) = STATE_SENT_HELLO → buffer o = Some b → zlen b = 2 →
  auths o = l → dest_addr o = d → connector o = true → con o = true → io o = IoControl → state o = STATE_SENT_HELLO →
  outcome s (received_hello realloc o) (mem_read b 0 2).
Proof.
  intros Hi Hst Hb Hz Ha Hda Hc Hcon Hio Hso. destruct Hi as (_ & _ & _ & Hs). rewrite Hst in Hs.
  destruct Hs as (_ & _ & Hrep & _ & Hsent).
  assert (res_ok o) as Hres by (split; [done |]; by rewrite Hso).
  unfold received_hello. rewrite run_get.
  rewrite (run_nil _ _ _ _ _ (buf_read_run o b 0 2 Hb ltac:(lia) ltac:(lia))). rewrite Ha.
  destruct (message_2 (mem_read b 0 2)) as (v & m & Em); [apply zlen_mem_read; lia |]. rewrite Em. cbn [byte_at].
  change (byte_at [v; m] 0) with v. change (byte_at [v; m] 1) with m. unfold ntoh8, hton8.
  destruct (v =? SOCKS_VERSION) eqn:Ev; cbn [negb].
  2: { apply outcome_error; [done | done |]. left. unfold handshake. rewrite Ev. by rewrite Hsent. }
  apply Z.eqb_eq in Ev. subst v.
  destruct (find_auth l m) as [ai |] eqn:Ef.
  2: { apply outcome_error; [done | done |]. left. unfold handshake. simpl. rewrite Ef. by rewrite Hsent. }
  destruct (find_auth_type l m ai Ef) as [Et Hin]. rewrite Et.
  pose proof (proj1 (Forall_forall _ _) Hl ai Hin) as Hty. simpl in Hty. rewrite Et in Hty.
  destruct Hty as [-> | ->]; simpl.
  - eapply auth_finished_outcome; try done; [congruence | congruence | by eapply authed_none].
  - set (u := username ai). set (w := password ai).
    destruct (valid_login ai) eqn:Ev.
    2: { assert ((zlen u =? 0) || (255 <? zlen u) || (zlen w =? 0) || (255 <? zlen w) = true) as ->.
         { pose proof (zlen_nonneg u). pose proof (zlen_nonneg w). unfold valid_login in Ev. fold u w in Ev. lia. }
         apply outcome_error; [done | done |]. left. unfold handshake. simpl. rewrite Ef, Et. simpl. rewrite Ev. by rewrite Hsent. }
    assert ((zlen u =? 0) || (255 <? zlen u) || (zlen w =? 0) || (255 <? zlen w) = false) as ->.
    { unfold valid_login in Ev. fold u w in Ev. b2p. lia. }
    set (n := 1 + 1 + zlen u + 1 + zlen w).
    pose proof (reserve_run realloc o n) as Hr. destruct (realloc (buffer o) n) as [b1 |] eqn:Er;
      rewrite (run_nil _ _ _ _ _ Hr); cbn [negb].
    + assert (0 ≤ n) as Hn by (unfold n, u, w; pose proof (zlen_nonneg (username ai)); pose proof (zlen_nonneg (password ai)); lia).
      destruct (password_run (o <| buffer := Some b1 |>) b1 ai) as (b' & Hrun); [done | rewrite (Hre _ _ _ Hn Er); unfold n, u, w; lia | done |].
      fold u w in Hrun. unfold n. cbn [bvalue bsize_fromsize]. rewrite Hrun. eexists _, _, _. split; [done |]. split; [done |].
      left. unfold sinv, sending. simpl. split_and!; simpl; try done; try (by eexists).
      exists ai. split_and!; try done. by rewrite Hsent.
    + apply outcome_error; [done | done |]. right. exists (buffer o), n. split; [| done].
      unfold n, u, w. pose proof (zlen_nonneg (username ai)). pose proof (zlen_nonneg (password ai)). lia.
Qed.

(** A client that is in the middle of the handshake. *)
Definition busy (o : BSocksClient) (st : socks_state) : Prop :=
  auths o = l ∧ dest_addr o = d ∧ connector o = true ∧ con o = true ∧ io o = IoControl ∧ state o = st.

Lemma busy_res o st : busy o st → st ≠ STATE_CONNECTING → st ≠ STATE_UP → res_ok o.
Proof. intros (_ & _ & Hc & Hcon & Hio & <-) ? ?. split; [done |]. by destruct (state o). Qed.

Lemma password_outcome s o b ai : busy o STATE_SENT_PASSWORD → reported s = [] → buffer o = Some b → zlen b = 2 →
  find_auth l 2 = Some ai → auth_type ai = 2 → valid_login ai = true → sent s = [hello_msg l; password_msg ai] →
  outcome s (received_password_reply realloc o) ([SOCKS_VERSION; 2] ++ mem_read b 0 2).
Proof.
  intros Hbz Hrep Hb Hz Hf Ht Hv Hsent. pose proof (busy_res _ _ Hbz ltac:(done) ltac:(done)) as Hres.
  destruct Hbz as (Ha & Hda & Hc & Hcon & Hio & Hso).
  unfold received_password_reply. rewrite (run_nil _ _ _ _ _ (buf_read_run o b 0 2 Hb ltac:(lia) ltac:(lia))).
  destruct (message_2 (mem_read b 0 2)) as (v & m & Em); [apply zlen_mem_read; lia |]. rewrite Em.
  change (byte_at [v; m] 0) with v. change (byte_at [v; m] 1) with m.
  assert (handshake l d ([SOCKS_VERSION; 2] ++ [v; m]) =
    if negb (v =? 1) || negb (m =? 0) then (Failed, sent s) else (reply_phase [], sent s ++ [request_msg d])) as Hh.
  { unfold handshake. simpl. rewrite Hf, Ht, Hsent. simpl. by rewrite Hv. }
  destruct (v =? 1) eqn:E1; cbn [negb] in *; [| apply outcome_error; [done | done | by left]].
  destruct (m =? 0) eqn:E2; cbn [negb] in *; [| apply outcome_error; [done | done | by left]].
  apply Z.eqb_eq in E1, E2. subst v m.
  apply (auth_finished_outcome s o _ [hello_msg l; password_msg ai]); try done; [congruence | congruence | by apply authed_password].
Qed.

Lemma header_outcome s o b a msgs : busy o STATE_SENT_REQUEST → reported s = [] → buffer o = Some b → zlen b = 22 →
  authed l a msgs → sent s = msgs ++ [request_msg d] → outcome s (received_reply_header o) (a ++ mem_read b 0 4).
Proof.
  intros Hbz Hrep Hb Hz Hau Hsent. pose proof (busy_res _ _ Hbz ltac:(done) ltac:(done)) as Hres.
  destruct Hbz as (Ha & Hda & Hc & Hcon & Hio & Hso).
  unfold received_reply_header. rewrite (run_nil _ _ _ _ _ (buf_read_run o b 0 4 Hb ltac:(lia) ltac:(lia))).
  destruct (message_4 (mem_read b 0 4)) as (v & rep & r & t & Em); [apply zlen_mem_read; lia |]. rewrite Em.
  change (byte_at [v; rep; r; t] 0) with v. change (byte_at [v; rep; r; t] 1) with rep. change (byte_at [v; rep; r; t] 3) with t.
  unfold ntoh8, hton8.
  assert (handshake l d (a ++ [v; rep; r; t]) = (reply_phase [v; rep; r; t], sent s)) as Hh
    by (rewrite Hsent; by apply handshake_authed).
  unfold reply_phase in Hh.
  destruct (v =? SOCKS_VERSION) eqn:E1; cbn [negb orb] in *; [| apply outcome_error; [done | done | by left]].
  destruct (rep =? SOCKS_REP_SUCCEEDED) eqn:E2; cbn [negb orb] in *; [| apply outcome_error; [done | done | by left]].
  apply Z.eqb_eq in E1, E2. subst v rep.
  assert (∀ n, addr_len t = Some n → 0 < n ≤ 18 →
    outcome s ((start_receive sizeof_reply_header n;; set_state STATE_RECEIVED_REPLY_HEADER) o) (a ++ [SOCKS_VERSION; SOCKS_REP_SUCCEEDED; r; t])) as Hgo.
  { intros n Hn Hr. unfold mbind, M_bind. rewrite start_receive_run by lia. eexists _, _, _. split; [done |]. split; [done |]. left.
    unfold sinv. simpl. split_and!; try done. exists a, msgs, r, t, n, []. split_and!; try done.
    exists b. simpl. unfold sizeof_reply_header. change (zlen []) with 0. split_and!; try done; lia. }
  unfold addr_len in *. destruct (t =? SOCKS_ATYP_IPV4) eqn:E3; [apply Hgo; [done | unfold sizeof_addr_ipv4; lia] |].
  destruct (t =? SOCKS_ATYP_IPV6) eqn:E4; [apply Hgo; [done | unfold sizeof_addr_ipv6; lia] |].
  apply outcome_error; [done | done | by left].
Qed.

Lemma rest_outcome s o g : busy o STATE_RECEIVED_REPLY_HEADER → reported s = [] → is_Some (buffer o) →
  handshake l d g = (Established, sent s) → outcome s (received_reply_rest o) g.
Proof.
  intros (Ha & Hda & Hc & Hcon & Hio & Hso) Hrep Hb Hh. unfold received_reply_rest.
  rewrite run_get, run_assert by (by apply bool_decide_true). rewrite run_modify.
  unfold free_control_io. rewrite run_assoc, run_get, run_assoc, run_assert by (simpl; by rewrite Hio). rewrite run_modify.
  unfold init_up_io. rewrite run_assoc, run_get, run_assoc, run_assert by (simpl; by rewrite Hcon). rewrite run_modify.
  unfold set_state. rewrite run_modify. eexists _, _, _. split; [done |]. split; [done |]. left.
  unfold sinv. simpl. rewrite Hrep. split_and!; done.
Qed.

Lemma sinv_busy s st : sinv l d s → state (cl s) = st → st ≠ STATE_CONNECTING → st ≠ STATE_UP →
  busy (cl s) st ∧ reported s = [].
Proof.
  intros (Ha & Hda & Hc & Hs) <- H1 H2. unfold busy. destruct (state (cl s)); try done; destruct Hs as (? & ? & ? & _); done.
Qed.

(** A piece of a message that does not complete it. *)
Lemma more_data s dest total blen part dd b' : receiving s dest total blen part → 0 < zlen dd →
  zlen (part ++ dd) < total → zlen b' = blen → mem_read b' dest (zlen (part ++ dd)) = part ++ dd →
  receiving (mk_ssys ((cl s) <| buffer := Some b' |> <| recv_len := zlen (part ++ dd) |>)
    (PRecv (dest + zlen (part ++ dd)) (total - zlen (part ++ dd))) (sent s) (got s ++ dd) (reported s)) dest total blen (part ++ dd).
Proof. intros (b & Hb & Hz & H0 & H1 & Hdst & Htot & Hln & Hlt & Hm & Hp) Hd0 Hlt' Hz' Hm'. exists b'. simpl. split_and!; done. Qed.

Lemma recv_pend s dest total blen part off len : receiving s dest total blen part → pend s = PRecv off len →
  off = dest + zlen part ∧ len = total - zlen part.
Proof. intros (b & _ & _ & _ & _ & _ & _ & _ & _ & _ & Hp) E. rewrite E in Hp. by injection Hp as -> ->. Qed.

Lemma data_step s dd : sinv l d s → senabled s (Data dd) = true →
  ∃ s', sstep realloc s (Data dd) = Some s' ∧ (sinv l d s' ∨ broken (data_fault s') s').
Proof.
  intros Hi Hen. unfold senabled in Hen. apply andb_prop in Hen as [_ Hen].
  destruct (pend s) as [| | off len] eqn:Hp; try done. b2p. unfold sstep. rewrite Hp.
  assert (∀ dest total blen part st, state (cl s) = st → receiving s dest total blen part → st ≠ STATE_CONNECTING → st ≠ STATE_UP →
    (∀ b', receiving s dest total blen part → zlen b' = blen → zlen (part ++ dd) < total → mem_read b' dest (zlen (part ++ dd)) = part ++ dd →
       sinv l d (mk_ssys ((cl s) <| buffer := Some b' |> <| recv_len := zlen (part ++ dd) |>)
         (PRecv (dest + zlen (part ++ dd)) (total - zlen (part ++ dd))) (sent s) (got s ++ dd) (reported s))) →
    (∀ b' o2, zlen b' = blen → zlen (part ++ dd) = total → mem_read b' dest total = part ++ dd → busy o2 st → buffer o2 = Some b' →
       outcome s (match st with
           | STATE_SENT_HELLO => received_hello realloc o2
           | STATE_SENT_REQUEST => received_reply_header o2
           | STATE_SENT_PASSWORD => received_password_reply realloc o2
           | STATE_RECEIVED_REPLY_HEADER => received_reply_rest o2
           | _ => None
           end) (got s ++ dd)) →
    ∃ s', ('(_, o, _) ← buf_write off dd (cl s); '(_, o, cs) ← recv_handler_done realloc (zlen dd) o;
      scalls (mk_ssys o PNone (sent s) (got s ++ dd) (reported s)) cs) = Some s' ∧ (sinv l d s' ∨ broken (data_fault s') s')) as Hgo.
  { intros dest total blen part st Hst Hrcv Hn1 Hn2 Hmore Hfull.
    destruct (recv_pend _ _ _ _ _ _ _ Hrcv Hp) as [-> ->].
    destruct (data_run s dest total blen part dd Hrcv ltac:(lia)) as (b' & Hw & Hz & Hm & Hrun). cbv zeta in Hrun.
    rewrite Hw, option_bind_Some, Hrun. destruct (zlen (part ++ dd) <? total) eqn:E; b2p.
    - eexists. split; [done |]. left. by apply Hmore.
    - assert (zlen (part ++ dd) = total) as Et by (rewrite zlen_app in *; lia). rewrite Et in *.
      destruct (sinv_busy s st Hi Hst Hn1 Hn2) as [Hbz _]. rewrite Hst.
      set (o2 := (cl s) <| buffer := Some b' |> <| recv_len := total |>).
      destruct (Hfull b' o2 Hz eq_refl Hm Hbz eq_refl) as (o & cs & s' & -> & Hc & Hr). simpl. eauto. }
  pose proof Hi as (Ha & Hda & Hc & Hs). destruct (state (cl s)) eqn:Est; try (unfold sending in Hs; exfalso; decompose [and ex] Hs; congruence).
  - destruct Hs as (? & ? & Hrep & Hrcv & Hsent). apply (Hgo 0 2 2 (got s) STATE_SENT_HELLO); try done.
    + intros b' _ Hz Hlt Hm. unfold sinv. simpl. rewrite Est. split_and!; try done. by apply more_data.
    + intros b' o2 Hz Hlen Hm (? & ? & ? & ? & ? & ?) Hb2. rewrite <- Hm. by apply hello_outcome.
  - destruct Hs as (? & ? & Hrep & part & Hrcv & Hg & ai & Hf & Ht & Hv & Hsent). apply (Hgo 0 2 2 part STATE_SENT_PASSWORD); try done.
    + intros b' _ Hz Hlt Hm. unfold sinv. simpl. rewrite Est. split_and!; try done. exists (part ++ dd).
      split_and!; [by apply more_data | by rewrite Hg, <- app_assoc | eauto 6].
    + intros b' o2 Hz Hlen Hm Hbz Hb2. rewrite Hg, <- app_assoc, <- Hm. by eapply password_outcome.
  - destruct Hs as (? & ? & Hrep & a & msgs & part & Hau & Hrcv & Hg & Hsent). apply (Hgo 0 4 22 part STATE_SENT_REQUEST); try done.
    + intros b' _ Hz Hlt Hm. unfold sinv. simpl. rewrite Est. split_and!; try done. exists a, msgs, (part ++ dd).
      split_and!; try done; [by apply more_data | by rewrite Hg, <- app_assoc].
    + intros b' o2 Hz Hlen Hm Hbz Hb2. rewrite Hg, <- app_assoc, <- Hm. by eapply header_outcome.
  - destruct Hs as (? & ? & Hrep & a & msgs & r & t & n & part & Hau & Ht & Hrcv & Hg & Hsent).
    apply (Hgo 4 n 22 part STATE_RECEIVED_REPLY_HEADER); try done.
    + intros b' _ Hz Hlt Hm. unfold sinv. simpl. rewrite Est. split_and!; try done. exists a, msgs, r, t, n, (part ++ dd).
      split_and!; try done; [by apply more_data | by rewrite Hg, <- app_assoc].
    + intros b' o2 Hz Hlen Hm Hbz Hb2. apply rest_outcome; [done | done | by rewrite Hb2 |].
      rewrite Hg, <- app_assoc, Hsent. rewrite (handshake_authed _ _ _ _ _ Hau). f_equal. simpl. rewrite Ht.
      rewrite Hlen, Z.ltb_irrefl, Z.eqb_refl. done.
Qed.

Lemma hello_size n : 0 < n ≤ 255 →
  bsize_add (bsize_fromsize sizeof_client_hello_header) (bsize_mul (bsize_fromsize n) (bsize_fromsize sizeof_client_hello_method))
  = bsize_fromsize (2 + n).
Proof.
  intros Hn. unfold bsize_add, bsize_mul, bsize_fromsize, sizeof_client_hello_header, sizeof_client_hello_method.
  cbn [bvalue is_overflow orb]. rewrite Z.mul_1_r, (u64_small n) by lia. rewrite u64_small by lia. f_equal.
  assert (1 ≤ SIZE_MAX `div` n) by (apply Z.div_le_lower_bound; unfold SIZE_MAX; lia). unfold SIZE_MAX in *. lia.
Qed.

Lemma hello_run o b : auths o = l → buffer o = Some b → zlen b = 2 + zlen l → 0 < zlen l ≤ 255 →
  ∃ b', (buf_write 0 [hton8 SOCKS_VERSION; hton8 (u8 (zlen l))];; write_methods 0 l;; send_buffer (2 + zlen l);; set_state STATE_SENDING_HELLO) o =
    Some ((), o <| buffer := Some b' |> <| state := STATE_SENDING_HELLO |>, [SkSend (hello_msg l)]).
Proof.
  intros Ha Hb Hz Hn. unfold hton8. rewrite u8_small by lia.
  destruct (append_run (λ _, write_methods 0 l;; send_buffer (2 + zlen l);; set_state STATE_SENDING_HELLO) o [] 0
    [SOCKS_VERSION; zlen l] (2 + zlen l)) as (b1 & -> & Hz1 & Hp1); [by exists b | done | rewrite !zlen_cons, zlen_nil; lia |].
  destruct (methods_run l (o <| buffer := Some b1 |>) b1 [SOCKS_VERSION; zlen l] 0) as (b2 & Hm & Hz2 & Hp2);
    [done | done | lia | rewrite !zlen_cons, zlen_nil; lia | done | |].
  { eapply Forall_impl; [exact Hl |]. intros a [-> | ->]; vm_compute; by split. }
  rewrite (run_nil _ _ _ _ _ Hm). exists b2. unfold mbind, M_bind. rewrite (send_buffer_run _ b2) by (done || lia). simpl. do 3 f_equal.
  assert (mem_read b2 0 (2 + zlen l) = hello_msg l) as ->; [| done]. unfold mem_read. rewrite zdrop_le0 by lia.
  unfold hello_msg. rewrite <- Hp2. f_equal. rewrite zlen_app, !zlen_cons, zlen_nil. unfold zlen. rewrite length_map. lia.
Qed.

Lemma fail1_run o : con o = true → io o = IoControl →
  (free_control_io;; free_con;; report_error BSOCKSCLIENT_EVENT_ERROR) o =
    Some ((), o <| io := IoNone |> <| con := false |>, [SkEvent BSOCKSCLIENT_EVENT_ERROR]).
Proof.
  intros Hc Hi. unfold free_control_io. rewrite run_assoc, run_get, run_assoc, run_assert by (by rewrite Hi). rewrite run_modify.
  unfold free_con. rewrite run_assoc, run_get, run_assoc, run_assert by (simpl; by rewrite Hc). by rewrite run_modify.
Qed.

Lemma connected_step s e c : sinv l d s → senabled s (Connected e c) = true →
  ∃ s', sstep realloc s (Connected e c) = Some s' ∧
    (sinv l d s' ∧ state (cl s') = STATE_SENDING_HELLO ∨
     broken (e = true ∨ c = false ∨ ¬ 0 < zlen l ≤ 255 ∨ alloc_fails realloc) s').
Proof.
  intros Hi Hen. unfold senabled in Hen. apply andb_prop in Hen as [_ Hen]. b2p.
  pose proof (sinv_res _ _ _ Hi) as Hr. destruct Hi as (Ha & Hda & Hc & Hs). rewrite Hen in Hs. destruct Hs as (Hcon & Hio & Hp & Hg & Hst & Hrep).
  unfold sstep, connector_handler. rewrite run_get, run_assert by (by apply bool_decide_true).
  destruct e; [eexists; split; [done |]; right; apply broken_error; eauto |].
  destruct c; cbn [negb]; [| eexists; split; [done |]; right; apply broken_error; eauto].
  rewrite run_modify. unfold init_control_io. rewrite run_assoc, run_get, run_assoc, run_assert by (simpl; by rewrite Hio). rewrite run_modify.
  rewrite Ha. set (o1 := (cl s) <| con := true |> <| io := IoControl |>). cbv zeta.
  destruct ((zlen l =? 0) || (255 <? zlen l)) eqn:En.
  { rewrite fail1_run by done. simpl. eexists. split; [done |]. right. apply broken_error; [done | | right; right; left; lia].
    split; [done |]. simpl. by rewrite Hen. }
  pose proof (zlen_nonneg l). assert (0 < zlen l ≤ 255) as Hn by lia. rewrite (hello_size _ Hn).
  pose proof (reserve_run realloc o1 (2 + zlen l)) as Hrr.
  destruct (realloc (buffer o1) (2 + zlen l)) as [b |] eqn:Er; rewrite (run_nil _ _ _ _ _ Hrr); cbn [negb].
  - destruct (hello_run (o1 <| buffer := Some b |>) b) as (b' & Hrun); [done | done | apply (Hre (buffer o1)); [lia | done] | done |].
    cbn [bvalue bsize_fromsize]. rewrite Hrun. simpl. eexists. split; [done |]. left. split; [| done].
    unfold sinv, sending. simpl. split_and!; try done. by rewrite Hst.
  - rewrite fail1_run by done. simpl. eexists. split; [done |]. right. apply broken_error; [done | |].
    + split; [done |]. simpl. by rewrite Hen.
    + right; right; right. exists (buffer o1), (2 + zlen l). split; [lia | done].
Qed.

Lemma connection_event_step s rc : sinv l d s → senabled s (ConnectionEvent rc) = true →
  ∃ s', sstep realloc s (ConnectionEvent rc) = Some s' ∧ broken True s'.
Proof.
  intros Hi Hen. unfold senabled in Hen. apply andb_prop in Hen as [_ Hen]. b2p. pose proof (sinv_res _ _ _ Hi) as Hr.
  unfold sstep, connection_handler. rewrite run_get, run_assert by (by apply bool_decide_true).
  destruct (bool_decide (state (cl s) = STATE_UP) && rc); (eexists; split; [done |]; split; [| done]); unfold finished; simpl;
    rewrite existsb_app; simpl; by rewrite orb_true_r.
Qed.

Lemma sstep_total s e : sinv l d s → senabled s e = true → ∃ s', sstep realloc s e = Some s' ∧ (sinv l d s' ∨ broken True s').
Proof.
  intros Hi Hen. assert (∀ P s', broken P s' → broken True s') as Hb by (intros P s' (? & ? & _); done). destruct e as [e c | | dd | rc].
  - destruct (connected_step s e c Hi Hen) as (s' & Hr & [[? _] | ?]); eauto.
  - destruct (send_done_step s Hi Hen) as (s' & Hr & [? | ?]); eauto.
  - destruct (data_step s dd Hi Hen) as (s' & Hr & [? | ?]); eauto.
  - destruct (connection_event_step s rc Hi Hen) as (s' & Hr & ?); eauto.
Qed.

Lemma srun_finished es : ∀ s, finished s = true → srun realloc s es = Some s.
Proof. induction es as [| e es IH]; intros s Hf; simpl; [done |]. unfold senabled. rewrite Hf. by apply IH. Qed.

Lemma srun_total es : ∀ s, sinv l d s → ∃ s', srun realloc s es = Some s' ∧ (sinv l d s' ∨ broken True s').
Proof.
  induction es as [| e es IH]; intros s Hi; simpl; [eauto |]. destruct (senabled s e) eqn:Een; [| auto].
  destruct (sstep_total s e Hi Een) as (s1 & -> & [Hi1 | Hb]); simpl; [auto |].
  exists s1. split; [by apply srun_finished, Hb | by right].
Qed.

Lemma free_run o : res_ok o → ∃ o', BSocksClient_Free o = Some ((), o', []) ∧
  connector o' = false ∧ con o' = false ∧ io o' = IoNone ∧ buffer o' = None.
Proof.
  intros [Hc Hs]. unfold BSocksClient_Free. rewrite run_get. case_bool_decide as E; cbn [when].
  - assert (∀ (m : M BSocksClient socks_call unit) o1, m o = Some ((), o1, []) → con o1 = true → io o1 = IoNone → connector o1 = true →
      ∃ o', ((m;; free_con);; o ← get; assert (connector o);; modify (λ o, o <| connector := false |> <| buffer := None |>)) o =
        Some ((), o', []) ∧ connector o' = false ∧ con o' = false ∧ io o' = IoNone ∧ buffer o' = None) as Hgo.
    { intros m o1 Hm Hc1 Hi1 Hn1. rewrite run_assoc, (run_nil _ _ _ _ _ Hm). unfold free_con.
      rewrite run_assoc, run_get, run_assoc, run_assert by (by rewrite Hc1, Hi1). rewrite run_modify, run_get, run_assert by done.
      eexists. split; [done |]. simpl. done. }
    assert (con o = true ∧ io o = (if bool_decide (state o = STATE_UP) then IoUp else IoControl)) as [Hcon Hio]
      by (destruct (state o); done).
    case_bool_decide as Eu; (eapply Hgo; [unfold free_up_io, free_control_io; rewrite run_get, run_assert by (by rewrite Hio); done | done..]).
  - rewrite E in Hs. destruct Hs as [Hcon Hio]. unfold when. rewrite run_ret, run_get, run_assert by done.
    eexists. split; [done |]. simpl. done.
Qed.

End steps.

(** ** Theorems *)

Definition ssys_init (o : BSocksClient) : ssys := mk_ssys o PNone [] [] [].

Lemma init_sinv server l d o : BSocksClient_Init true server l d = Some (Some o) → sinv l d (ssys_init o) ∧ auths_ok l ∧ BAddr_IsInvalid d = false.
Proof.
  intros H. apply bind_Some in H as ([] & _ & H). apply bind_Some in H as ([] & H1 & H). apply bind_Some in H as ([] & H2 & [= <-]).
  apply ASSERT_inv in H1, H2. b2p. split; [done |]. split; [| done]. apply Forall_forall. intros a Ha. rewrite forallb_forall in H2.
  specialize (H2 a ltac:(by apply list_elem_of_In)). apply orb_true_iff in H2 as [E' | E']; apply Z.eqb_eq in E'; auto.
Qed.

(** [C28] The SOCKS client is safe against any server. Whatever bytes arrive, in
    whatever pieces, whatever allocations fail and whenever the connection breaks,
    no handler reads or writes outside its message buffer, violates an assertion
    or starts a second operation; at any time [BSocksClient_Free] releases exactly
    the resources that are held. *)
Theorem socks_safe realloc server l d o es : realloc_ok realloc → BAddr_wf d →
  BSocksClient_Init true server l d = Some (Some o) →
  ∃ s' o', srun realloc (ssys_init o) es = Some s' ∧ BSocksClient_Free (cl s') = Some ((), o', []) ∧
    connector o' = false ∧ con o' = false ∧ io o' = IoNone ∧ buffer o' = None.
Proof.
  intros Hre Hwf Hin. destruct (init_sinv server l d o Hin) as (Hi & Hl & Hv).
  destruct (srun_total realloc Hre l d Hl (conj Hwf Hv) es _ Hi) as (s' & Hrun & Hs).
  assert (res_ok (cl s')) as Hr by (destruct Hs as [Hs | (_ & Hr & _)]; [by eapply sinv_res | done]).
  destruct (free_run realloc Hre l d Hl (conj Hwf Hv) (cl s') Hr) as (o' & ? & ? & ? & ? & ?). exists s', o'. done.
Qed.

(** An allocator that zeroes its blocks, for examples. *)
Definition simple_realloc (old : option bytes) (n : Z) : option bytes := Some (replicate (Z.to_nat n) 0).

Lemma simple_realloc_ok : realloc_ok simple_realloc.
Proof. intros old n b Hn [= <-]. unfold zlen. rewrite length_replicate. lia. Qed.

Definition sample_client : BSocksClient :=
  mk_BSocksClient [BSocksClient_auth_none; BSocksClient_auth_password [97] [98; 99]]
    (BADDR_IPV4 (hton32 0x0A000001) (hton16 80)) STATE_CONNECTING None true false IoNone 0 0 0.

Lemma socks_safe_witness :
  ∃ s' o', srun simple_realloc (ssys_init sample_client)
      [Connected false true; SendDone; Data [5]; Data [2]; SendDone; Data [1; 0]; SendDone; Data [5; 0; 0]; ConnectionEvent true] = Some s' ∧
    BSocksClient_Free (cl s') = Some ((), o', []) ∧ connector o' = false ∧ con o' = false ∧ io o' = IoNone ∧ buffer o' = None.
Proof.
  apply (socks_safe simple_realloc (BADDR_IPV4 1 1) (auths sample_client) (dest_addr sample_client)).
  - exact simple_realloc_ok.
  - vm_compute. repeat split; discriminate.
  - vm_compute. reflexivity.
Defined.

Definition talk (e : sevent) : Prop := match e with SendDone | Data _ => True | _ => False end.

Lemma srun_talk realloc l d (Hre : realloc_ok realloc) (Hl : auths_ok l) (Hd : dest_ok d) es : ¬ alloc_fails realloc → ∀ s,
  sinv l d s → state (cl s) ≠ STATE_CONNECTING → Forall talk es →
  ∃ s', srun realloc s es = Some s' ∧
    (sinv l d s' ∧ state (cl s') ≠ STATE_CONNECTING ∨ broken (protocol_error l d s') s').
Proof.
  intros Hna. induction es as [| e es IH]; intros s Hi Hne Ht; simpl; [eauto |].
  apply Forall_cons_1 in Ht as [He Ht]. destruct (senabled s e) eqn:Een; [| auto].
  assert (∃ s1, sstep realloc s e = Some s1 ∧ (sinv l d s1 ∨ broken (protocol_error l d s1) s1)) as (s1 & Hst & Hs1).
  { destruct e as [| | dd |]; try done.
    - destruct (send_done_step realloc Hre l d Hl Hd s Hi Een) as (s1 & ? & [? | (_ & _ & ?)]); [eauto | done].
    - destruct (data_step realloc Hre l d Hl Hd s dd Hi Een) as (s1 & ? & [? | (? & ? & [? | ?])]); [eauto | | done].
      exists s1. split; [done |]. right. done. }
  rewrite Hst. simpl. destruct Hs1 as [Hi1 | Hb].
  - apply IH; [done | | done]. intros E.
    assert (sent s1 = []) as Hno by (destruct Hi1 as (_ & _ & _ & Hs); rewrite E in Hs; apply Hs).
    assert (∀ c s0 s2, scall s0 c = Some s2 → sent s0 ≠ [] → sent s2 ≠ []) as Hcall.
    { intros c s0 s2. unfold scall. destruct c, (pend s0); intros [= <-]; simpl; try done. by destruct (sent s0). }
    assert (∀ cs s0 s2, scalls s0 cs = Some s2 → sent s0 ≠ [] → sent s2 ≠ []) as Hcalls.
    { induction cs as [| c cs IHc]; intros s0 s2; simpl; [by intros [= <-] |]. intros Hb Hs0.
      apply bind_Some in Hb as (s3 & Hb3 & Hb). eapply IHc; [exact Hb |]. by eapply Hcall. }
    assert (sent s ≠ []) as Hsent.
    { pose proof (sinv_handshake l d s Hi Hne) as Hh. intros E'. rewrite E' in Hh. unfold handshake in Hh. repeat case_match; discriminate. }
    destruct e as [| | dd |]; try done; simpl in Hst.
    + apply bind_Some in Hst as ([[[] o1] cs] & _ & Hst). eapply Hcalls; [exact Hst | done | done].
    + destruct (pend s); try done. apply bind_Some in Hst as ([[[] o1] cs1] & _ & Hst).
      apply bind_Some in Hst as ([[[] o2] cs] & _ & Hst). eapply Hcalls; [exact Hst | done | done].
  - exists s1. split; [eapply srun_finished, Hb; done | by right].
Qed.

(** [C1] The client speaks SOCKS5. Once connected, with 1 to 255 methods and an
    allocator that does not fail, after any deliveries of the server's bytes: the
    messages the client has sent, and whether it waits, is up or has failed, are
    those [handshake] gives for the bytes it has read. In particular it reports
    [UP] exactly on a successful reply, and it never reads beyond the reply, so the
    bytes of the proxied stream are left to its user. *)
Theorem socks_handshake realloc server l d o es : realloc_ok realloc → BAddr_wf d → ¬ alloc_fails realloc →
  0 < zlen l ≤ 255 → BSocksClient_Init true server l d = Some (Some o) → Forall talk es →
  ∃ s', srun realloc (ssys_init o) (Connected false true :: es) = Some s' ∧
    handshake l d (got s') =
      (if finished s' then Failed else if bool_decide (reported s' = []) then Waiting else Established, sent s') ∧
    (finished s' = false → reported s' = [] ∨ reported s' = [BSOCKSCLIENT_EVENT_UP]).
Proof.
  intros Hre Hwf Hna Hn Hin Ht. destruct (init_sinv server l d o Hin) as (Hi & Hl & Hv).
  assert (senabled (ssys_init o) (Connected false true) = true) as Hen.
  { unfold senabled. simpl. apply bool_decide_true. unfold BSocksClient_Init in Hin. do 3 (apply bind_Some in Hin as (? & _ & Hin)).
    by injection Hin as <-. }
  cbn [srun]. rewrite Hen.
  destruct (connected_step realloc Hre l d Hl (conj Hwf Hv) _ false true Hi Hen) as (s1 & -> & [[Hi1 Hs1] | (_ & _ & Hw)]);
    [| exfalso; destruct Hw as [? | [? | [? | ?]]]; done]. simpl.
  destruct (srun_talk realloc l d Hre Hl (conj Hwf Hv) es Hna s1 Hi1 ltac:(by rewrite Hs1) Ht) as (s' & -> & [[Hi' Hne] | (Hf & Hr & Hp)]).
  - exists s'. split; [done |]. rewrite (sinv_handshake l d s' Hi' Hne). destruct Hi' as (_ & _ & _ & Hs').
    destruct (state (cl s')) eqn:E; try done; simpl in Hs'; destruct_and? Hs'; unfold finished;
      match goal with H : reported s' = _ |- _ => rewrite H end; simpl; auto.
  - exists s'. rewrite Hf. split; [done |]. by split.
Qed.

Lemma socks_handshake_witness :
  ∃ s', srun simple_realloc (ssys_init sample_client)
      [Connected false true; SendDone; Data [5]; Data [0]; SendDone; Data [5; 0; 0]; Data [1]; Data [9; 9; 9; 9; 9; 9]] = Some s' ∧
    handshake (auths sample_client) (dest_addr sample_client) (got s') =
      (if finished s' then Failed else if bool_decide (reported s' = []) then Waiting else Established, sent s') ∧
    (finished s' = false → reported s' = [] ∨ reported s' = [BSOCKSCLIENT_EVENT_UP]).
Proof.
  apply (socks_handshake simple_realloc (BADDR_IPV4 1 1)).
  - exact simple_realloc_ok.
  - vm_compute. repeat split; discriminate.
  - intros (old & n & _ & H). discriminate H.
  - vm_compute. split; [reflexivity | discriminate].
  - vm_compute. reflexivity.
  - repeat constructor.
Defined.
