(* ===== verification/SearchTree.v ===== *)
(** * The interface of the search trees (structure/BAVL.h)

    A tree holds intrusive nodes, named by the address of the structure they are
    embedded in; the value of a node is read from that structure when the
    comparator is called. [SearchTree] states what BAVL.h promises to the
    components that keep their objects in such a tree, so that those components
    are verified against the promise: lookup finds the node whose value compares
    equal, insertion keeps the order and refuses a second equal value, removal
    takes out exactly the given node. [seq_tree] is the reference implementation,
    the in-order sequence itself. *)
From Stdlib Require Import Sorted.
From S2P Require Import Prelude LinkedLists.

(** What a comparator must satisfy on the values that occur. *)
Record key_order {K} (P : K → Prop) (cmp : K → K → Z) : Prop := {
  ko_cases : ∀ a b, P a → P b → cmp a b = -1 ∨ cmp a b = 0 ∨ cmp a b = 1;
  ko_zero : ∀ a b, P a → P b → cmp a b = 0 ↔ a = b;
  ko_anti : ∀ a b, P a → P b → cmp b a = - cmp a b;
  ko_trans : ∀ a b c, P a → P b → P c → cmp a b = -1 → cmp b c = -1 → cmp a c = -1
}.

(** The nodes [l] carry values of [P] and are in strictly increasing order. *)
Definition before_key {K} (cmp : K → K → Z) (val : addr → option K) (x y : addr) : Prop :=
  ∃ kx ky, val x = Some kx ∧ val y = Some ky ∧ cmp kx ky = -1.
Definition keyed {K} (P : K → Prop) (val : addr → option K) (l : list addr) : Prop :=
  ∀ x, x ∈ l → ∃ k, val x = Some k ∧ P k.
Definition in_order {K} (P : K → Prop) (cmp : K → K → Z) (val : addr → option K) (l : list addr) : Prop :=
  keyed P val l ∧ StronglySorted (before_key cmp val) l.

(** [None] is a failed assertion or a dangling pointer. *)
Class SearchTree (T : Type) := {
  BAVL_Init : T;
  BAVL_Insert : ∀ {K}, (K → K → Z) → (addr → option K) → T → addr → option (T * bool);
  BAVL_Remove : T → addr → option T;
  BAVL_LookupExact : ∀ {K}, (K → K → Z) → (addr → option K) → T → K → option (option addr);
  tree_ok : T → Prop;
  tree_seq : T → list addr;
  tree_init : tree_ok BAVL_Init ∧ tree_seq BAVL_Init = [];
  tree_insert : ∀ {K} (P : K → Prop) cmp val t x k, key_order P cmp → tree_ok t → in_order P cmp val (tree_seq t) →
    x ∉ tree_seq t → val x = Some k → P k → (∀ y, y ∈ tree_seq t → val y ≠ Some k) →
    ∃ t', BAVL_Insert cmp val t x = Some (t', true) ∧ tree_ok t' ∧
      in_order P cmp val (tree_seq t') ∧ tree_seq t' ≡ₚ x :: tree_seq t;
  tree_remove : ∀ t x, tree_ok t → x ∈ tree_seq t →
    ∃ t', BAVL_Remove t x = Some t' ∧ tree_ok t' ∧ tree_seq t' = filter (λ y, y ≠ x) (tree_seq t);
  tree_lookup : ∀ {K} (P : K → Prop) cmp val t k, key_order P cmp → tree_ok t → in_order P cmp val (tree_seq t) → P k →
    ∃ r, BAVL_LookupExact cmp val t k = Some r ∧
      match r with
      | Some x => x ∈ tree_seq t ∧ val x = Some k
      | None => ∀ x, x ∈ tree_seq t → val x ≠ Some k
      end
}.

(** ** Consequences for clients *)

Lemma in_order_filter {K} (P : K → Prop) cmp val l x :
  in_order P cmp val l → in_order P cmp val (filter (λ y, y ≠ x) l).
Proof.
  intros [Hk Hs]. split.
  - intros y Hy. apply list_elem_of_filter in Hy as [_ Hy]. by apply Hk.
  - clear Hk. induction Hs as [| y l Hs IH Hf]; [constructor |]. rewrite filter_cons. case_decide; [| done].
    constructor; [done |]. rewrite Forall_forall in Hf |- *. intros z Hz. apply list_elem_of_filter in Hz as [_ Hz]. by apply Hf.
Qed.

(** The order only depends on the values of the nodes in the tree. *)
Lemma in_order_ext {K} (P : K → Prop) cmp val val' l :
  (∀ x, x ∈ l → val' x = val x) → in_order P cmp val l → in_order P cmp val' l.
Proof.
  intros He [Hk Hs]. split.
  - intros x Hx. rewrite He by done. by apply Hk.
  - clear Hk. induction Hs as [| x l Hs IH Hf]; [constructor |]. constructor; [apply IH; set_solver |].
    rewrite Forall_forall in Hf |- *. intros z Hz. destruct (Hf z Hz) as (kx & kz & ? & ? & ?).
    exists kx, kz. rewrite !He by set_solver. done.
Qed.

Lemma in_order_NoDup {K} (P : K → Prop) cmp val l : key_order P cmp → in_order P cmp val l → NoDup l.
Proof.
  intros Hko [Hk Hs]. induction Hs as [| x l Hs IH Hf]; [constructor |].
  apply NoDup_cons. split; [| apply IH; intros y Hy; apply Hk; set_solver].
  intros Hx. rewrite Forall_forall in Hf. destruct (Hf x Hx) as (kx & ky & E1 & E2 & E).
  destruct (Hk x) as (k & E3 & HP); [set_solver |]. rewrite E3 in E1, E2. injection E1 as <-. injection E2 as <-.
  assert (cmp k k = 0) by (by apply (ko_zero _ _ Hko)). lia.
Qed.

(** Two nodes of a tree carry different values. *)
Lemma in_order_inj {K} (P : K → Prop) cmp val l x y k : key_order P cmp → in_order P cmp val l →
  x ∈ l → y ∈ l → val x = Some k → val y = Some k → x = y.
Proof.
  intros Hko [Hk Hs] Hx Hy Ex Ey. destruct (Hk x Hx) as (k' & Ek & HP). rewrite Ex in Ek. injection Ek as <-.
  assert (cmp k k = 0) as Hz by (by apply (ko_zero _ _ Hko)).
  revert Hx Hy. clear Hk. induction Hs as [| z l Hs IH Hf]; [set_solver |]. rewrite Forall_forall in Hf.
  intros [-> | Hx]%elem_of_cons [-> | Hy]%elem_of_cons; [done | | | by apply IH].
  - destruct (Hf y Hy) as (? & ? & ? & ? & ?). simplify_eq. lia.
  - destruct (Hf x Hx) as (? & ? & ? & ? & ?). simplify_eq. lia.
Qed.

(** ** Trees as sets of nodes *)

Section tree_rep.
Context {T : Type} `{SearchTree T}.

(** The tree holds the nodes [l], in whatever order the client lists them. *)
Definition tree_rep {K} (P : K → Prop) cmp (val : addr → option K) (t : T) (l : list addr) : Prop :=
  tree_ok t ∧ tree_seq t ≡ₚ l ∧ in_order P cmp val (tree_seq t).

Lemma tree_rep_lookup {K} (P : K → Prop) cmp val t l k : key_order P cmp → tree_rep P cmp val t l → P k →
  ∃ r, BAVL_LookupExact cmp val t k = Some r ∧
    match r with Some x => x ∈ l ∧ val x = Some k | None => ∀ x, x ∈ l → val x ≠ Some k end.
Proof.
  intros Hko (Hok & Hp & Hio) HP. destruct (tree_lookup P cmp val t k Hko Hok Hio HP) as (r & Er & Hr).
  exists r. split; [done |]. destruct r; setoid_rewrite <- Hp; done.
Qed.

Lemma tree_rep_ext {K} (P : K → Prop) cmp (val val' : addr → option K) t l :
  (∀ x, x ∈ l → val' x = val x) → tree_rep P cmp val t l → tree_rep P cmp val' t l.
Proof.
  intros He (? & Hp & Hio). split_and!; [done.. |]. eapply in_order_ext; [| exact Hio].
  intros x Hx. apply He. by rewrite <- Hp.
Qed.

Lemma tree_rep_perm {K} (P : K → Prop) cmp (val : addr → option K) t l l' :
  l' ≡ₚ l → tree_rep P cmp val t l → tree_rep P cmp val t l'.
Proof. intros E (? & Hp & ?). split_and!; [done | by rewrite Hp | done]. Qed.

Lemma tree_rep_insert {K} (P : K → Prop) cmp val t l x k : key_order P cmp → tree_rep P cmp val t l →
  x ∉ l → val x = Some k → P k → (∀ y, y ∈ l → val y ≠ Some k) →
  ∃ t', BAVL_Insert cmp val t x = Some (t', true) ∧ tree_rep P cmp val t' (x :: l).
Proof.
  intros Hko (Hok & Hp & Hio) Hx Ex HP Hne.
  destruct (tree_insert P cmp val t x k Hko Hok Hio) as (t' & E & ? & ? & Hp'); [by rewrite Hp | done | done | |].
  - intros y. rewrite Hp. apply Hne.
  - exists t'. split; [done |]. split_and!; [done | by rewrite Hp', Hp | done].
Qed.

Lemma tree_rep_remove {K} (P : K → Prop) cmp val t l1 x l2 : key_order P cmp → tree_rep P cmp val t (l1 ++ x :: l2) →
  ∃ t', BAVL_Remove t x = Some t' ∧ tree_rep P cmp val t' (l1 ++ l2).
Proof.
  intros Hko (Hok & Hp & Hio).
  assert (NoDup (l1 ++ x :: l2)) as Hnd by (rewrite <- Hp; by eapply in_order_NoDup).
  destruct (tree_remove t x Hok) as (t' & E & ? & Hs); [rewrite Hp; set_solver |].
  exists t'. split; [done |]. split_and!; [done | | rewrite Hs; by apply in_order_filter].
  rewrite Hs, Hp. by rewrite filter_ne_split.
Qed.

End tree_rep.

(** ** The reference implementation *)

Module seq_tree.

Fixpoint insert {K} (cmp : K → K → Z) (val : addr → option K) (t : list addr) (x : addr) : option (list addr * bool) :=
  match t with
  | [] => Some ([x], true)
  | y :: t' =>
      kx ← val x; ky ← val y;
      if cmp kx ky =? 0 then Some (t, false) else
      if cmp kx ky =? 1 then r ← insert cmp val t' x; Some (y :: r.1, r.2) else Some (x :: t, true)
  end.

Fixpoint lookup {K} (cmp : K → K → Z) (val : addr → option K) (t : list addr) (k : K) : option (option addr) :=
  match t with
  | [] => Some None
  | y :: t' => ky ← val y; if cmp k ky =? 0 then Some (Some y) else lookup cmp val t' k
  end.

Lemma insert_spec {K} (P : K → Prop) cmp val x k : key_order P cmp → val x = Some k → P k →
  ∀ t, in_order P cmp val t → (∀ y, y ∈ t → val y ≠ Some k) →
  ∃ t', insert cmp val t x = Some (t', true) ∧ in_order P cmp val t' ∧ t' ≡ₚ x :: t.
Proof.
  intros Hko Ex HP. induction t as [| y t IH]; intros [Hk Hs] Hne; simpl.
  - eexists. split; [done |]. split; [| done]. split; [| by repeat constructor].
    intros z ->%list_elem_of_singleton. eauto.
  - destruct (Hk y) as (ky & Ey & HPy); [set_solver |]. rewrite Ex, Ey. cbn [mbind option_bind].
    assert (cmp k ky ≠ 0).
    { intros E. apply (ko_zero _ _ Hko) in E; [| done..]. subst. apply (Hne y); [set_solver | done]. }
    rewrite (proj2 (Z.eqb_neq _ _)) by done. apply StronglySorted_inv in Hs as [Hs Hf].
    destruct (cmp k ky =? 1) eqn:E; b2p.
    + destruct IH as (t' & Et & [Hk' Hs'] & Hp); [split; [intros z Hz; apply Hk; set_solver | done] | set_solver |].
      rewrite Et. cbn [mbind option_bind fst snd]. eexists. split; [done |]. split; [| rewrite Hp; constructor].
      split; [intros z [-> | Hz]%elem_of_cons; eauto |]. constructor; [done |]. rewrite Hp. constructor; [| done].
      exists ky, k. rewrite (ko_anti _ _ Hko k ky) by done. split_and!; [done.. | lia].
    + eexists. split; [done |]. split; [| done]. split; [intros z [-> | Hz]%elem_of_cons; [eauto | by apply Hk] |].
      assert (cmp k ky = -1) by (destruct (ko_cases _ _ Hko k ky HP HPy) as [? | [? | ?]]; lia).
      constructor; [by constructor |]. constructor; [by exists k, ky |].
      rewrite Forall_forall in Hf |- *. intros z Hz. destruct (Hf z Hz) as (? & kz & ? & Ez & ?). simplify_eq.
      exists k, kz. split_and!; [done.. |]. destruct (Hk z) as (? & ? & ?); [set_solver |]. simplify_eq.
      by apply (ko_trans _ _ Hko k ky kz).
Qed.

Lemma lookup_spec {K} (P : K → Prop) cmp val k : key_order P cmp → P k → ∀ t, keyed P val t →
  ∃ r, lookup cmp val t k = Some r ∧
    match r with Some x => x ∈ t ∧ val x = Some k | None => ∀ x, x ∈ t → val x ≠ Some k end.
Proof.
  intros Hko HP. induction t as [| y t IH]; intros Hk; simpl; [exists None; split; [done | set_solver] |].
  destruct (Hk y) as (ky & Ey & HPy); [set_solver |]. rewrite Ey. cbn [mbind option_bind].
  destruct (cmp k ky =? 0) eqn:E; b2p.
  - apply (ko_zero _ _ Hko) in E; [| done..]. subst ky. exists (Some y). split; [done |]. split; [set_solver | done].
  - destruct IH as (r & Er & Hr); [intros z Hz; apply Hk; set_solver |]. exists r. split; [done |].
    destruct r as [x |]; [split; [set_solver | tauto] |].
    intros x [-> | Hx]%elem_of_cons; [| by apply Hr]. rewrite Ey. intros [= ->]. apply E. by apply (ko_zero _ _ Hko).
Qed.

End seq_tree.

#[export] Instance seq_search_tree : SearchTree (list addr).
Proof.
  refine {| BAVL_Init := []; BAVL_Insert := @seq_tree.insert; BAVL_LookupExact := @seq_tree.lookup;
    BAVL_Remove := λ t x, Some (filter (λ y, y ≠ x) t); tree_ok := λ _, True; tree_seq := λ t, t |}.
  - done.
  - intros K P cmp val t x k Hko _ Ho _ Ex HP Hne.
    destruct (seq_tree.insert_spec P cmp val x k Hko Ex HP t Ho Hne) as (t' & ? & ? & ?). eauto.
  - eauto.
  - intros K P cmp val t k Hko _ [Hk _] HP. by apply (seq_tree.lookup_spec P).
Defined.
