(* ===== verification/BAVL.v ===== *)
(** * AVL trees (structure/BAVL.h)

    The tree is a set of intrusive nodes in a heap, linked by parent and child
    pointers; [None] is the null pointer and dereferencing it, or a dangling
    pointer, makes an operation undefined. [link\[0\]] and [link\[1\]] are selected
    by a boolean, as in the source. The code is translated store by store; the
    proofs relate it to a functional tree with a context (the way up to the root)
    and discharge the interface [SearchTree] that the users of the tree rely on.
    The [BAVL_COUNT] extension, which no program of the build uses, is left out,
    and so is the optional result [ref] of [BAVL_Insert], null in every call. The
    offset of a value in its node is in the function that reads it. *)
From Stdlib Require Import Sorted.
From S2P Require Import Prelude LinkedLists SearchTree.

Record BAVLNode := mk_BAVLNode { a_parent : ptr; a_link0 : ptr; a_link1 : ptr; balance : Z }.
#[export] Instance BAVLNode_eta : Eta BAVLNode := λ n, mk_BAVLNode (a_parent n) (a_link0 n) (a_link1 n) (balance n).

Record BAVL := mk_BAVL { a_nodes : gmap addr BAVLNode; a_root : ptr }.
#[export] Instance BAVL_eta : Eta BAVL := λ t, mk_BAVL (a_nodes t) (a_root t).

Definition BAVL_MAX (a b : Z) : Z := if b <? a then a else b.
Definition BAVL_OPTNEG (a : Z) (neg : bool) : Z := if neg then - a else a.

(** ** Loads and stores *)

Definition a_link (d : bool) (n : BAVLNode) : ptr := if d then a_link1 n else a_link0 n.
Definition a_set_link (d : bool) (v : ptr) (n : BAVLNode) : BAVLNode :=
  if d then n <| a_link1 := v |> else n <| a_link0 := v |>.

Definition rd (t : BAVL) (p : ptr) : option BAVLNode := x ← p; a_nodes t !! x.
Definition wr (f : BAVLNode → BAVLNode) (t : BAVL) (p : ptr) : option BAVL :=
  x ← p; n ← a_nodes t !! x; Some (t <| a_nodes := <[x := f n]> (a_nodes t) |>).

Definition get_link (t : BAVL) (p : ptr) (d : bool) : option ptr := a_link d <$> rd t p.
Definition get_parent (t : BAVL) (p : ptr) : option ptr := a_parent <$> rd t p.
Definition put_link (t : BAVL) (p : ptr) (d : bool) (v : ptr) : option BAVL := wr (a_set_link d v) t p.
Definition put_parent (t : BAVL) (p v : ptr) : option BAVL := wr (λ n, n <| a_parent := v |>) t p.
Definition put_balance (t : BAVL) (p : ptr) (b : Z) : option BAVL := wr (λ n, n <| balance := b |>) t p.

(** [p->link\[q == p->link\[1\]\]] names the side of [q] below [p]. *)
Definition side_of (t : BAVL) (p q : ptr) : option bool :=
  l1 ← get_link t p true; Some (bool_decide (q = l1)).

(** [if (p) p->parent = v]. *)
Definition set_parent_if (t : BAVL) (p v : ptr) : option BAVL :=
  if nonnull p then put_parent t p v else Some t.

(** Makes [n] the child of [p] on [side], or the root when there is no [p]. *)
Definition attach (t : BAVL) (p : ptr) (side : option bool) (n : ptr) : option BAVL :=
  if nonnull p then d ← side; put_link t p d n else Some (t <| a_root := n |>).

(** ** Operations *)

Definition _BAVL_rotate (t : BAVL) (r : ptr) (dir : bool) : option BAVL :=
  nr ← get_link t r (negb dir);
  x ← get_link t nr dir;
  t ← put_link t r (negb dir) x;
  t ← set_parent_if t x r;
  t ← put_link t nr dir r;
  rp ← get_parent t r;
  t ← put_parent t nr rp;
  t ← attach t rp (side_of t rp r) nr;
  put_parent t r nr.

(** The transformations of [_BAVL_rebalance] when the balance factor is wrong:
    the tree, the node now in the place of [node], and the change of height. *)
Definition rebalance_node (t : BAVL) (node : ptr) (delta : Z) : option (BAVL * ptr * Z) :=
  n ← rd t node;
  if (balance n =? 2) || (balance n =? -2) then
    let bside := balance n =? 2 in
    let bsidef := if balance n =? 2 then 1 else -1 in
    child ← get_link t node bside;
    ASSERT (nonnull child);;
    c ← rd t child;
    if balance c * bsidef =? 1 then
      t ← _BAVL_rotate t node (negb bside);
      t ← put_balance t node 0;
      t ← put_balance t child 0;
      Some (t, child, delta - 1)
    else if balance c * bsidef =? 0 then
      t ← _BAVL_rotate t node (negb bside);
      t ← put_balance t node (1 * bsidef);
      t ← put_balance t child (-1 * bsidef);
      Some (t, child, delta)
    else if balance c * bsidef =? -1 then
      gchild ← get_link t child (negb bside);
      ASSERT (nonnull gchild);;
      t ← _BAVL_rotate t child bside;
      t ← _BAVL_rotate t node (negb bside);
      g ← rd t gchild;
      t ← put_balance t node (- BAVL_MAX 0 (balance g * bsidef) * bsidef);
      t ← put_balance t child (BAVL_MAX 0 (- balance g * bsidef) * bsidef);
      t ← put_balance t gchild 0;
      Some (t, gchild, delta - 1)
    else None
  else Some (t, node, delta).

(** The call for the parent is the last thing the function does; [fuel] bounds
    the way up. *)
Fixpoint _BAVL_rebalance (fuel : nat) (t : BAVL) (node : ptr) (side : bool) (deltac : Z) : option BAVL :=
  match fuel with
  | O => None
  | S fuel =>
      n ← rd t node;
      ASSERT ((-1 <=? deltac) && (deltac <=? 1));;
      ASSERT ((-1 <=? balance n) && (balance n <=? 1));;
      if deltac =? 0 then Some t else
      let delta := BAVL_MAX deltac (BAVL_OPTNEG (balance n) side) - BAVL_MAX 0 (BAVL_OPTNEG (balance n) side) in
      ASSERT ((-1 <=? delta) && (delta <=? 1));;
      t ← put_balance t node (balance n - BAVL_OPTNEG deltac side);
      '(t, node, delta) ← rebalance_node t node delta;
      ASSERT ((-1 <=? delta) && (delta <=? 1));;
      p ← get_parent t node;
      if nonnull p then side ← side_of t p node; _BAVL_rebalance fuel t p side delta else Some t
  end.

Definition tree_fuel (t : BAVL) : nat := S (size (a_nodes t)).

Fixpoint subtree_max_loop (fuel : nat) (t : BAVL) (n : ptr) : option ptr :=
  match fuel with
  | O => None
  | S fuel => r ← get_link t n true; if nonnull r then subtree_max_loop fuel t r else Some n
  end.

Definition _BAVL_subtree_max (t : BAVL) (n : ptr) : option ptr :=
  ASSERT (nonnull n);; subtree_max_loop (tree_fuel t) t n.

Definition _BAVL_replace_subtree (t : BAVL) (dest n : ptr) : option BAVL :=
  ASSERT (nonnull dest);;
  dp ← get_parent t dest;
  t ← attach t dp (side_of t dp dest) n;
  set_parent_if t n dp.

(** Swapping nodes that are directly connected, [n1] above [n2]. *)
Definition swap_adjacent (t : BAVL) (n1 n2 : ptr) : option BAVL :=
  side ← side_of t n1 n2;
  c ← get_link t n1 (negb side);
  l0 ← get_link t n2 false;
  t ← put_link t n1 false l0;
  t ← set_parent_if t l0 n1;
  l1 ← get_link t n2 true;
  t ← put_link t n1 true l1;
  t ← set_parent_if t l1 n1;
  p ← get_parent t n1;
  t ← put_parent t n2 p;
  t ← attach t p (side_of t p n1) n2;
  t ← put_link t n2 side n1;
  t ← put_parent t n1 n2;
  t ← put_link t n2 (negb side) c;
  set_parent_if t c n2.

(** Swapping the children on one side of two nodes. *)
Definition swap_children (t : BAVL) (n1 n2 : ptr) (d : bool) : option BAVL :=
  temp ← get_link t n1 d;
  l ← get_link t n2 d;
  t ← put_link t n1 d l;
  t ← set_parent_if t l n1;
  t ← put_link t n2 d temp;
  set_parent_if t temp n2.

Definition swap_apart (t : BAVL) (n1 n2 : ptr) : option BAVL :=
  temp ← get_parent t n1;
  p2 ← get_parent t n2;
  t ← put_parent t n1 p2;
  t ← attach t p2 (side_of t p2 n2) n1;
  t ← put_parent t n2 temp;
  t ← attach t temp (side_of t temp n1) n2;
  t ← swap_children t n1 n2 false;
  swap_children t n1 n2 true.

Definition swap_balance (t : BAVL) (n1 n2 : ptr) : option BAVL :=
  b1 ← rd t n1;
  b2 ← rd t n2;
  t ← put_balance t n1 (balance b2);
  put_balance t n2 (balance b1).

Definition _BAVL_swap_nodes (t : BAVL) (n1 n2 : ptr) : option BAVL :=
  p2 ← get_parent t n2;
  p1 ← get_parent t n1;
  t ← (if bool_decide (p2 = n1) || bool_decide (p1 = n2) then
         if bool_decide (p1 = n2) then swap_adjacent t n2 n1 else swap_adjacent t n1 n2
       else swap_apart t n1 n2);
  swap_balance t n1 n2.

Section compare.
Context {K : Type} (comparator : K → K → Z) (value : addr → option K).

Definition _BAVL_compare_values (v1 v2 : K) : option Z :=
  let res := comparator v1 v2 in
  ASSERT ((res =? -1) || (res =? 0) || (res =? 1));; Some res.

Definition _BAVL_compare_nodes (n1 n2 : addr) : option Z :=
  v1 ← value n1; v2 ← value n2; _BAVL_compare_values v1 v2.

(** The search of [BAVL_Insert]: [inl c] when [c] compares equal, otherwise the
    node to insert to and the side. *)
Fixpoint insert_search (fuel : nat) (t : BAVL) (node c : addr) : option (addr + addr * bool) :=
  match fuel with
  | O => None
  | S fuel =>
      comp ← _BAVL_compare_nodes node c;
      if comp =? 0 then Some (inl c) else
      let side := comp =? 1 in
      l ← get_link t (Some c) side;
      match l with
      | None => Some (inr (c, side))
      | Some c' => insert_search fuel t node c'
      end
  end.

Definition avl_Insert (t : BAVL) (node : addr) : option (BAVL * bool) :=
  match a_root t with
  | None => Some (mk_BAVL (<[node := mk_BAVLNode None None None 0]> (a_nodes t)) (Some node), true)
  | Some c =>
      r ← insert_search (tree_fuel t) t node c;
      match r with
      | inl _ => Some (t, false)
      | inr (c, side) =>
          t ← put_link t (Some c) side (Some node);
          let t := t <| a_nodes := <[node := mk_BAVLNode (Some c) None None 0]> (a_nodes t) |> in
          t ← _BAVL_rebalance (tree_fuel t) t (Some c) side 1;
          Some (t, true)
      end
  end.

Fixpoint lookup_exact_loop (fuel : nat) (t : BAVL) (val : K) (c : addr) : option (option addr) :=
  match fuel with
  | O => None
  | S fuel =>
      v ← value c;
      comp ← _BAVL_compare_values val v;
      if comp =? 0 then Some (Some c) else
      l ← get_link t (Some c) (comp =? 1);
      match l with
      | None => Some None
      | Some c' => lookup_exact_loop fuel t val c'
      end
  end.

Definition avl_LookupExact (t : BAVL) (val : K) : option (option addr) :=
  match a_root t with
  | None => Some None
  | Some c => lookup_exact_loop (tree_fuel t) t val c
  end.

Fixpoint lookup_loop (fuel : nat) (t : BAVL) (val : K) (c : addr) : option (option addr) :=
  match fuel with
  | O => None
  | S fuel =>
      v ← value c;
      comp ← _BAVL_compare_values val v;
      if comp =? 0 then Some (Some c) else
      l ← get_link t (Some c) (comp =? 1);
      match l with
      | None => Some (Some c)
      | Some c' => lookup_loop fuel t val c'
      end
  end.

Definition avl_Lookup (t : BAVL) (val : K) : option (option addr) :=
  match a_root t with
  | None => Some None
  | Some c => lookup_loop (tree_fuel t) t val c
  end.

(** The height of a verified subtree. *)
Fixpoint _BAVL_assert_recurser (fuel : nat) (t : BAVL) (n : addr) : option Z :=
  match fuel with
  | O => None
  | S fuel =>
      x ← a_nodes t !! n;
      ASSERT (-1 <=? balance x);;
      ASSERT (balance x <=? 1);;
      height_left ← match a_link0 x with
        | None => Some 0
        | Some l =>
            pl ← get_parent t (Some l);
            ASSERT (bool_decide (pl = Some n));;
            comp ← _BAVL_compare_nodes l n;
            ASSERT (comp =? -1);;
            _BAVL_assert_recurser fuel t l
        end;
      height_right ← match a_link1 x with
        | None => Some 0
        | Some r =>
            pr ← get_parent t (Some r);
            ASSERT (bool_decide (pr = Some n));;
            comp ← _BAVL_compare_nodes r n;
            ASSERT (comp =? 1);;
            _BAVL_assert_recurser fuel t r
        end;
      ASSERT (balance x =? height_right - height_left);;
      Some (BAVL_MAX height_left height_right + 1)
  end.

Definition avl_Verify (t : BAVL) : option unit :=
  match a_root t with
  | None => Some ()
  | Some r =>
      p ← get_parent t (Some r);
      ASSERT (bool_decide (p = None));;
      _ ← _BAVL_assert_recurser (tree_fuel t) t r;
      Some ()
  end.

End compare.

Definition avl_Init : BAVL := mk_BAVL ∅ None.
Definition avl_IsEmpty (t : BAVL) : bool := bool_decide (a_root t = None).

Definition avl_Remove (t : BAVL) (node : addr) : option BAVL :=
  n ← a_nodes t !! node;
  t ← (if nonnull (a_link0 n) && nonnull (a_link1 n) then
         mx ← _BAVL_subtree_max t (a_link0 n);
         _BAVL_swap_nodes t (Some node) mx
       else Some t);
  n ← a_nodes t !! node;
  ASSERT (negb (nonnull (a_link0 n) && nonnull (a_link1 n)));;
  let parent := a_parent n in
  let child := if nonnull (a_link0 n) then a_link0 n else a_link1 n in
  if nonnull parent then
    side ← side_of t parent (Some node);
    t ← _BAVL_replace_subtree t (Some node) child;
    _BAVL_rebalance (tree_fuel t) t parent side (-1)
  else _BAVL_replace_subtree t (Some node) child.

(** The end of the chain of links on side [d] below [n]. *)
Fixpoint chain_end (fuel : nat) (t : BAVL) (n : addr) (d : bool) : option addr :=
  match fuel with
  | O => None
  | S fuel => l ← get_link t (Some n) d; match l with None => Some n | Some c => chain_end fuel t c d end
  end.

Definition avl_GetFirst (t : BAVL) : option ptr :=
  match a_root t with None => Some None | Some n => Some <$> chain_end (tree_fuel t) t n false end.

Definition avl_GetLast (t : BAVL) : option ptr :=
  match a_root t with None => Some None | Some n => Some <$> chain_end (tree_fuel t) t n true end.

(** Up from [n] while it is the child on side [d] of its parent. *)
Fixpoint climb (fuel : nat) (t : BAVL) (n : addr) (d : bool) : option ptr :=
  match fuel with
  | O => None
  | S fuel =>
      p ← get_parent t (Some n);
      match p with
      | None => Some None
      | Some q =>
          l ← get_link t (Some q) d;
          if bool_decide (Some n = l) then climb fuel t q d else Some (Some q)
      end
  end.

Definition neighbour (t : BAVL) (n : addr) (d : bool) : option ptr :=
  l ← get_link t (Some n) d;
  match l with
  | Some c => Some <$> chain_end (tree_fuel t) t c (negb d)
  | None => climb (tree_fuel t) t n d
  end.

Definition avl_GetNext (t : BAVL) (n : addr) : option ptr := neighbour t n true.
Definition avl_GetPrev (t : BAVL) (n : addr) : option ptr := neighbour t n false.

(** ** Functional trees with a context *)

Inductive tree := Leaf | Node (l : tree) (x : addr) (b : Z) (r : tree).

(** The node [x] with the child [s] on side [d] and [o] on the other one. *)
Definition nd (d : bool) (x : addr) (b : Z) (s o : tree) : tree := if d then Node o x b s else Node s x b o.

(** One step of the way up: the tree below hangs on side [d] of [x], [o] on the
    other one. *)
Record frame := Frame { f_side : bool; f_addr : addr; f_bal : Z; f_sib : tree }.

Definition root_of (t : tree) : ptr := match t with Leaf => None | Node _ x _ _ => Some x end.
Definition par (k : list frame) : ptr := match k with [] => None | f :: _ => Some (f_addr f) end.

Fixpoint addrs (t : tree) : list addr := match t with Leaf => [] | Node l x _ r => addrs l ++ x :: addrs r end.
Fixpoint kaddrs (k : list frame) : list addr :=
  match k with [] => [] | f :: k => f_addr f :: addrs (f_sib f) ++ kaddrs k end.

Definition plug1 (t : tree) (f : frame) : tree := nd (f_side f) (f_addr f) (f_bal f) t (f_sib f).
Fixpoint plug (t : tree) (k : list frame) : tree := match k with [] => t | f :: k => plug (plug1 t f) k end.

Fixpoint height (t : tree) : Z := match t with Leaf => 0 | Node l _ _ r => Z.max (height l) (height r) + 1 end.

(** Every balance factor is the difference of the heights below, and small. *)
Fixpoint avl (t : tree) : Prop :=
  match t with
  | Leaf => True
  | Node l _ b r => b = height r - height l ∧ -1 ≤ b ≤ 1 ∧ avl l ∧ avl r
  end.

(** ** Representation in the heap *)

Fixpoint trep (h : gmap addr BAVLNode) (pp : ptr) (t : tree) : Prop :=
  match t with
  | Leaf => True
  | Node l x b r =>
      h !! x = Some (mk_BAVLNode pp (root_of l) (root_of r) b) ∧ trep h (Some x) l ∧ trep h (Some x) r
  end.

Definition fnode (pp : ptr) (d : bool) (b : Z) (s o : ptr) : BAVLNode :=
  if d then mk_BAVLNode pp o s b else mk_BAVLNode pp s o b.

Fixpoint krep (h : gmap addr BAVLNode) (root p : ptr) (k : list frame) : Prop :=
  match k with
  | [] => root = p
  | f :: k =>
      h !! f_addr f = Some (fnode (par k) (f_side f) (f_bal f) p (root_of (f_sib f))) ∧
      trep h (Some (f_addr f)) (f_sib f) ∧ krep h root (Some (f_addr f)) k
  end.

(** The heap holds the tree [t] in the context [k]. *)
Definition zrep (T : BAVL) (t : tree) (k : list frame) : Prop :=
  trep (a_nodes T) (par k) t ∧ krep (a_nodes T) (a_root T) (root_of t) k ∧ NoDup (addrs t ++ kaddrs k).

Lemma trep_nd h pp d x b s o :
  trep h pp (nd d x b s o) ↔ h !! x = Some (fnode pp d b (root_of s) (root_of o)) ∧ trep h (Some x) s ∧ trep h (Some x) o.
Proof. destruct d; simpl; tauto. Qed.

Lemma root_of_nd d x b s o : root_of (nd d x b s o) = Some x.
Proof. by destruct d. Qed.

Lemma addrs_nd d x b s o : addrs (nd d x b s o) ≡ₚ x :: addrs s ++ addrs o.
Proof. destruct d; simpl; solve_Permutation. Qed.

Lemma kaddrs_perm t f k : addrs (plug1 t f) ++ kaddrs k ≡ₚ addrs t ++ kaddrs (f :: k).
Proof. unfold plug1. rewrite addrs_nd. simpl. solve_Permutation. Qed.

(** Moving the focus. *)
Lemma zrep_up T t f k : zrep T t (f :: k) ↔ zrep T (plug1 t f) k.
Proof.
  unfold zrep, plug1. rewrite trep_nd, root_of_nd. rewrite (kaddrs_perm t f k). simpl. tauto.
Qed.

Lemma zrep_plug T k : ∀ t, zrep T t k ↔ zrep T (plug t k) [].
Proof. induction k as [| f k IH]; intros t; [done |]. rewrite zrep_up. apply IH. Qed.

Lemma trep_frame h pp t x n : x ∉ addrs t → trep h pp t → trep (<[x := n]> h) pp t.
Proof.
  revert pp. induction t as [| l IHl y b r IHr]; intros pp Hx; [done |]. simpl in Hx. intros (Hy & Hl & Hr). simpl.
  rewrite lookup_insert_ne by set_solver. split_and!; [done | apply IHl; [set_solver | done] | apply IHr; [set_solver | done]].
Qed.

Lemma krep_frame h root p k x n : x ∉ kaddrs k → krep h root p k → krep (<[x := n]> h) root p k.
Proof.
  revert p. induction k as [| f k IH]; intros p Hx; [done |]. simpl in Hx. intros (Hf & Hs & Hk). simpl.
  rewrite lookup_insert_ne by set_solver.
  split_and!; [done | apply trep_frame; [set_solver | done] | apply IH; [set_solver | done]].
Qed.

(** The parent pointer of a subtree is that of its root. *)
Lemma trep_reparent h pp t pp' : NoDup (addrs t) → trep h pp t →
  match t with
  | Leaf => True
  | Node l x b r => trep (<[x := mk_BAVLNode pp' (root_of l) (root_of r) b]> h) pp' t
  end.
Proof.
  destruct t as [| l x b r]; [done |]. simpl. intros (_ & Hd & [Hx _]%NoDup_cons)%NoDup_app (_ & Hl & Hr).
  rewrite lookup_insert_eq. split; [done |]. split; apply trep_frame; set_solver.
Qed.

(** ** Parts of the heap that stay *)

Definition agree_on (l : list addr) (h h' : gmap addr BAVLNode) : Prop := ∀ y, y ∈ l → h' !! y = h !! y.

Lemma trep_agree h h' pp t : agree_on (addrs t) h h' → trep h pp t → trep h' pp t.
Proof.
  revert pp. induction t as [| l IHl y b r IHr]; intros pp Ha; [done |]. simpl in Ha. intros (Hy & Hl & Hr). simpl.
  rewrite (Ha y) by set_solver. split_and!; [done | apply IHl; [| done] | apply IHr; [| done]]; intros z Hz; apply Ha; set_solver.
Qed.

Lemma krep_agree h h' root p k : agree_on (kaddrs k) h h' → krep h root p k → krep h' root p k.
Proof.
  revert p. induction k as [| f k IH]; intros p Ha; [done |]. simpl in Ha. intros (Hf & Hs & Hk). simpl.
  rewrite (Ha (f_addr f)) by set_solver.
  split_and!; [done | eapply trep_agree; [| done] | apply IH; [| done]]; intros z Hz; apply Ha; set_solver.
Qed.

(** ** The node with its sides named *)

Lemma fnode_link_s pp d b s o : a_link d (fnode pp d b s o) = s.
Proof. by destruct d. Qed.
Lemma fnode_link_o pp d b s o : a_link (negb d) (fnode pp d b s o) = o.
Proof. by destruct d. Qed.
Lemma fnode_parent pp d b s o : a_parent (fnode pp d b s o) = pp.
Proof. by destruct d. Qed.
Lemma fnode_balance pp d b s o : balance (fnode pp d b s o) = b.
Proof. by destruct d. Qed.
Lemma fnode_set_s pp d b s o v : a_set_link d v (fnode pp d b s o) = fnode pp d b v o.
Proof. by destruct d. Qed.
Lemma fnode_set_o pp d b s o v : a_set_link (negb d) v (fnode pp d b s o) = fnode pp d b s v.
Proof. by destruct d. Qed.
Lemma fnode_set_parent pp d b s o v : (fnode pp d b s o) <| a_parent := v |> = fnode v d b s o.
Proof. by destruct d. Qed.
Lemma fnode_set_balance pp d b s o v : (fnode pp d b s o) <| balance := v |> = fnode pp d v s o.
Proof. by destruct d. Qed.
Lemma fnode_flip pp d b s o : fnode pp (negb d) b s o = fnode pp d b o s.
Proof. by destruct d. Qed.
Lemma nd_flip d x b s o : nd (negb d) x b s o = nd d x b o s.
Proof. by destruct d. Qed.

Create Rewrite HintDb fnode.
#[local] Hint Rewrite fnode_link_s fnode_link_o fnode_parent fnode_balance fnode_set_s fnode_set_o fnode_set_parent
  fnode_set_balance : fnode.

Lemma rd_known T x n : a_nodes T !! x = Some n → rd T (Some x) = Some n.
Proof. done. Qed.

Lemma wr_known f T x n : a_nodes T !! x = Some n → wr f T (Some x) = Some (T <| a_nodes := <[x := f n]> (a_nodes T) |>).
Proof. intros H. unfold wr. rewrite option_bind_Some. by rewrite H. Qed.

(** Setting the parent of a subtree. *)
Lemma set_parent_if_spec T pp t q : trep (a_nodes T) pp t → NoDup (addrs t) →
  ∃ T', set_parent_if T (root_of t) q = Some T' ∧ trep (a_nodes T') q t ∧ a_root T' = a_root T ∧
    ∀ y, y ∉ addrs t → a_nodes T' !! y = a_nodes T !! y.
Proof.
  intros Ht Hnd. destruct t as [| l x b r]; [by exists T |]. pose proof (trep_reparent _ _ _ q Hnd Ht) as Ht'. simpl in Ht.
  eexists. split; [unfold set_parent_if, put_parent; cbn [root_of nonnull]; by rewrite (wr_known _ _ x _ (proj1 Ht)) |].
  simpl. split; [exact Ht' |]. split; [done |]. intros y Hy. rewrite lookup_insert_ne; [done | set_solver].
Qed.

(** The side of the focus below its parent. *)
Lemma side_of_known T x f k : krep (a_nodes T) (a_root T) (Some x) (f :: k) → x ∉ kaddrs (f :: k) →
  side_of T (Some (f_addr f)) (Some x) = Some (f_side f).
Proof.
  destruct f as [d y b s]. simpl. intros (Hy & _ & _) Hx.
  unfold side_of, get_link. rewrite (rd_known _ _ _ Hy). simpl. f_equal. destruct d; simpl; [by apply bool_decide_eq_true |].
  apply bool_decide_eq_false. destruct s; [done |]. simpl in *. intros [= ->]. set_solver.
Qed.

(** Replacing what hangs in the hole of a context. *)
Lemma attach_spec T x k q : krep (a_nodes T) (a_root T) (Some x) k → x ∉ kaddrs k → NoDup (kaddrs k) →
  ∃ T', attach T (par k) (side_of T (par k) (Some x)) q = Some T' ∧ krep (a_nodes T') (a_root T') q k ∧
    ∀ y, y ∉ kaddrs k → a_nodes T' !! y = a_nodes T !! y.
Proof.
  intros Hk Hx Hnd. destruct k as [| f k]; [by eexists |]. cbn [par]. rewrite (side_of_known T x f k Hk Hx).
  destruct f as [d y b s]. simpl in *. destruct Hk as (Hy & Hs & Hk). apply NoDup_cons in Hnd as [Hyn Hnd].
  eexists. split; [unfold attach, put_link; cbn [nonnull]; rewrite option_bind_Some; by rewrite (wr_known _ _ y _ Hy) |].
  simpl. rewrite fnode_set_s. split.
  - split; [apply lookup_insert_eq |]. split; [apply trep_frame; [set_solver | done] | apply krep_frame; [set_solver | done]].
  - intros z Hz. rewrite lookup_insert_ne; [done | set_solver].
Qed.

(** ** Rotation *)

Ltac nodup_split :=
  repeat match goal with
  | H : NoDup (_ :: _) |- _ => apply NoDup_cons in H as [? ?]
  | H : NoDup (_ ++ _) |- _ => apply NoDup_app in H as (? & ? & ?)
  end.

(** Loads and stores of a node whose sides are named. *)
Lemma get_link_s T x pp d b s o : a_nodes T !! x = Some (fnode pp d b s o) → get_link T (Some x) d = Some s.
Proof. intros H. unfold get_link. rewrite (rd_known _ _ _ H). simpl. by rewrite fnode_link_s. Qed.
Lemma get_link_o T x pp d b s o : a_nodes T !! x = Some (fnode pp d b s o) → get_link T (Some x) (negb d) = Some o.
Proof. intros H. unfold get_link. rewrite (rd_known _ _ _ H). simpl. by rewrite fnode_link_o. Qed.
Lemma get_parent_known T x pp d b s o : a_nodes T !! x = Some (fnode pp d b s o) → get_parent T (Some x) = Some pp.
Proof. intros H. unfold get_parent. rewrite (rd_known _ _ _ H). simpl. by rewrite fnode_parent. Qed.
Lemma put_link_s T x pp d b s o v : a_nodes T !! x = Some (fnode pp d b s o) →
  put_link T (Some x) d v = Some (T <| a_nodes := <[x := fnode pp d b v o]> (a_nodes T) |>).
Proof. intros H. unfold put_link. rewrite (wr_known _ _ _ _ H). by rewrite fnode_set_s. Qed.
Lemma put_link_o T x pp d b s o v : a_nodes T !! x = Some (fnode pp d b s o) →
  put_link T (Some x) (negb d) v = Some (T <| a_nodes := <[x := fnode pp d b s v]> (a_nodes T) |>).
Proof. intros H. unfold put_link. rewrite (wr_known _ _ _ _ H). by rewrite fnode_set_o. Qed.
Lemma put_parent_known T x pp d b s o v : a_nodes T !! x = Some (fnode pp d b s o) →
  put_parent T (Some x) v = Some (T <| a_nodes := <[x := fnode v d b s o]> (a_nodes T) |>).
Proof. intros H. unfold put_parent. rewrite (wr_known _ _ _ _ H). by rewrite fnode_set_parent. Qed.
Lemma put_balance_known T x pp d b s o v : a_nodes T !! x = Some (fnode pp d b s o) →
  put_balance T (Some x) v = Some (T <| a_nodes := <[x := fnode pp d v s o]> (a_nodes T) |>).
Proof. intros H. unfold put_balance. rewrite (wr_known _ _ _ _ H). by rewrite fnode_set_balance. Qed.

Lemma rotate_spec T d r b nr b' A B C k :
  zrep T (nd d r b A (nd d nr b' B C)) k →
  ∃ T', _BAVL_rotate T (Some r) d = Some T' ∧ zrep T' (nd d nr b' (nd d r b A B) C) k.
Proof.
  intros (Ht & Hk & Hnd). rewrite trep_nd, trep_nd, root_of_nd in Ht. rewrite root_of_nd in Hk.
  destruct Ht as (Hr & HA & Hnr & HB & HC).
  assert (NoDup (r :: nr :: addrs A ++ addrs B ++ addrs C ++ kaddrs k)) as Hn.
  { eapply NoDup_Permutation_proper; [| exact Hnd]. rewrite !addrs_nd. solve_Permutation. }
  assert (True ∧ NoDup (addrs (nd d nr b' (nd d r b A B) C) ++ kaddrs k)) as Hfin.
  { split; [done |]. eapply NoDup_Permutation_proper; [| exact Hn]. rewrite !addrs_nd. solve_Permutation. }
  clear Hnd. nodup_split. assert (r ≠ nr) by set_solver.
  unfold _BAVL_rotate. rewrite (get_link_o _ _ _ _ _ _ _ Hr), option_bind_Some.
  rewrite (get_link_s _ _ _ _ _ _ _ Hnr), option_bind_Some.
  rewrite (put_link_o _ _ _ _ _ _ _ _ Hr), option_bind_Some. set (T1 := T <| a_nodes := _ |>).
  destruct (set_parent_if_spec T1 (Some nr) B (Some r)) as (T2 & E2 & HB2 & Hroot2 & Hag2);
    [apply trep_frame; [set_solver | done] | done |].
  rewrite E2, option_bind_Some.
  assert (a_nodes T2 !! nr = Some (fnode (Some r) d b' (root_of B) (root_of C))) as Hnr2
    by (rewrite Hag2 by set_solver; subst T1; simpl; by rewrite lookup_insert_ne).
  rewrite (put_link_s _ _ _ _ _ _ _ _ Hnr2), option_bind_Some. set (T3 := T2 <| a_nodes := _ |>).
  assert (a_nodes T3 !! r = Some (fnode (par k) d b (root_of A) (root_of B))) as Hr3.
  { subst T3. simpl. rewrite lookup_insert_ne by done. rewrite Hag2 by set_solver. subst T1. simpl. apply lookup_insert_eq. }
  assert (a_nodes T3 !! nr = Some (fnode (Some r) d b' (Some r) (root_of C))) as Hnr3 by (subst T3; simpl; apply lookup_insert_eq).
  rewrite (get_parent_known _ _ _ _ _ _ _ Hr3), option_bind_Some.
  rewrite (put_parent_known _ _ _ _ _ _ _ _ Hnr3), option_bind_Some. set (T4 := T3 <| a_nodes := _ |>).
  assert (∀ y, y ∉ r :: nr :: addrs B → a_nodes T4 !! y = a_nodes T !! y) as Hag4.
  { intros y Hy. subst T4 T3. simpl. rewrite !lookup_insert_ne by set_solver. rewrite Hag2 by set_solver. subst T1. simpl.
    by rewrite lookup_insert_ne by set_solver. }
  destruct (attach_spec T4 r k (Some nr)) as (T5 & E5 & Hk5 & Hag5); [| set_solver | done |].
  { eapply (krep_agree (a_nodes T)); [intros y Hy; apply Hag4; set_solver |]. subst T4 T3. simpl. rewrite Hroot2. exact Hk. }
  rewrite E5, option_bind_Some.
  assert (a_nodes T5 !! r = Some (fnode (par k) d b (root_of A) (root_of B))) as Hr5.
  { rewrite Hag5 by set_solver. subst T4. simpl. by rewrite lookup_insert_ne. }
  rewrite (put_parent_known _ _ _ _ _ _ _ _ Hr5). set (T6 := T5 <| a_nodes := _ |>). exists T6. split; [done |].
  assert (∀ y, y ∉ r :: kaddrs k → a_nodes T6 !! y = a_nodes T4 !! y) as Hag6.
  { intros y Hy. subst T6. simpl. rewrite lookup_insert_ne by set_solver. apply Hag5. set_solver. }
  split; [| split].
  - rewrite trep_nd, trep_nd, root_of_nd. split_and!.
    + rewrite Hag6 by set_solver. subst T4. simpl. apply lookup_insert_eq.
    + subst T6. simpl. apply lookup_insert_eq.
    + eapply trep_agree; [| exact HA]. intros y Hy. rewrite Hag6 by set_solver. apply Hag4. set_solver.
    + eapply trep_agree; [| exact HB2]. intros y Hy. rewrite Hag6 by set_solver. subst T4 T3. simpl. rewrite !lookup_insert_ne by set_solver. done.
    + eapply trep_agree; [| exact HC]. intros y Hy. rewrite Hag6 by set_solver. apply Hag4. set_solver.
  - rewrite root_of_nd. subst T6. simpl. apply krep_frame; [set_solver | done].
  - apply Hfin.
Qed.

(** ** Balance *)

Lemma zrep_balance T d x b s o k v : zrep T (nd d x b s o) k →
  ∃ T', put_balance T (Some x) v = Some T' ∧ zrep T' (nd d x v s o) k.
Proof.
  intros (Ht & Hk & Hnd). rewrite trep_nd in Ht. destruct Ht as (Hx & Hs & Ho). rewrite root_of_nd in Hk.
  rewrite addrs_nd in Hnd. rewrite (put_balance_known _ _ _ _ _ _ _ v Hx). eexists. split; [done |].
  assert (x ∉ addrs s ++ addrs o ++ kaddrs k) as Hn.
  { rewrite <- app_comm_cons, <- app_assoc in Hnd. by apply NoDup_cons in Hnd as [? _]. }
  split; [| split; [| by rewrite addrs_nd]]; simpl.
  - rewrite trep_nd. split; [apply lookup_insert_eq |]. split; apply trep_frame; set_solver.
  - rewrite root_of_nd. apply krep_frame; [set_solver | done].
Qed.

(** The same below the focus, on either side. *)
Lemma zrep_balance_in T d x b s o k y v e b' s' o' : s = nd e y b' s' o' → zrep T (nd d x b s o) k →
  ∃ T', put_balance T (Some y) v = Some T' ∧ zrep T' (nd d x b (nd e y v s' o') o) k.
Proof.
  intros -> Hz. change (nd d x b (nd e y b' s' o') o) with (plug1 (nd e y b' s' o') (Frame d x b o)) in Hz.
  rewrite <- zrep_up in Hz. destruct (zrep_balance _ _ _ _ _ _ _ v Hz) as (T' & E & Hz'). exists T'. split; [done |].
  by rewrite zrep_up in Hz'.
Qed.

Definition kheight (h0 : Z) (f : frame) : Z := Z.max h0 (height (f_sib f)) + 1.

(** The balance factors of the context are right for a subtree of height [h0]. *)
Fixpoint kavl (h0 : Z) (k : list frame) : Prop :=
  match k with
  | [] => True
  | f :: k =>
      f_bal f = BAVL_OPTNEG (height (f_sib f) - h0) (f_side f) ∧ -1 ≤ height (f_sib f) - h0 ≤ 1 ∧ avl (f_sib f) ∧
      kavl (kheight h0 f) k
  end.

Lemma avl_nd d x b s o : avl (nd d x b s o) ↔ b = BAVL_OPTNEG (height o - height s) d ∧ -1 ≤ height o - height s ≤ 1 ∧ avl s ∧ avl o.
Proof. destruct d; simpl; intuition lia. Qed.

Lemma height_nd d x b s o : height (nd d x b s o) = Z.max (height s) (height o) + 1.
Proof. destruct d; simpl; lia. Qed.

Lemma kavl_plug k : ∀ t h0, avl t → height t = h0 → kavl h0 k → avl (plug t k).
Proof.
  induction k as [| f k IH]; intros t h0 Ht Hh Hk; [done |]. simpl in Hk. destruct Hk as (Hb & Hr & Hs & Hk). simpl.
  eapply IH; [| | exact Hk]; unfold plug1; [apply avl_nd; subst; done | rewrite height_nd; unfold kheight; subst; done].
Qed.

Lemma height_nonneg t : 0 ≤ height t.
Proof. induction t; simpl; lia. Qed.

(** A tree is a leaf or a node seen from either side. *)
Lemma tree_nd d t : t = Leaf ∨ ∃ x b s o, t = nd d x b s o.
Proof. destruct t as [| l x b r]; [by left | right]. destruct d; [by exists x, b, r, l | by exists x, b, l, r]. Qed.

Lemma addrs_rotate d x1 b1 x2 b2 b1' b2' A B C :
  addrs (nd d x2 b2 (nd d x1 b1 A B) C) = addrs (nd d x1 b1' A (nd d x2 b2' B C)).
Proof. destruct d; simpl; by rewrite <- ?app_assoc. Qed.

Lemma rebalance_heavy T d x A Ch k delta :
  zrep T (nd d x (BAVL_OPTNEG 2 d) A Ch) k → avl A → avl Ch → height Ch = height A + 2 →
  ∃ T' t' delta', rebalance_node T (Some x) delta = Some (T', root_of t', delta') ∧ zrep T' t' k ∧ avl t' ∧
    addrs t' = addrs (nd d x (BAVL_OPTNEG 2 d) A Ch) ∧ height t' = height A + 3 + (delta' - delta) ∧
    (delta' = delta ∨ delta' = delta - 1).
Proof.
  intros Hz HA HCh Hh. pose proof (height_nonneg A).
  destruct (tree_nd d Ch) as [-> | (c & bc & B & C & ->)]; [simpl in Hh; lia |].
  rewrite avl_nd in HCh. destruct HCh as (Hbc & Hbr & HB & HC). rewrite height_nd in Hh.
  pose proof Hz as (Ht & _ & _). rewrite trep_nd, trep_nd, root_of_nd in Ht. destruct Ht as (Hx & _ & Hc & _ & _).
  unfold rebalance_node. rewrite (rd_known _ _ _ Hx), option_bind_Some, fnode_balance.
  assert ((BAVL_OPTNEG 2 d =? 2) || (BAVL_OPTNEG 2 d =? -2) = true) as -> by (by destruct d).
  assert ((BAVL_OPTNEG 2 d =? 2) = negb d) as -> by (by destruct d).
  cbv zeta. rewrite (get_link_o _ _ _ _ _ _ _ Hx), option_bind_Some. cbn [nonnull]. rewrite ASSERT_seq by done.
  rewrite (rd_known _ _ _ Hc), option_bind_Some, fnode_balance, negb_involutive.
  set (sf := if negb d then 1 else -1). assert (sf = BAVL_OPTNEG 1 d) as Hsf by (subst sf; by destruct d).
  assert (bc * sf = height C - height B) as -> by (rewrite Hbc, Hsf; destruct d; simpl; lia).
  destruct (rotate_spec T d x _ c bc A B C k Hz) as (T1 & E1 & Hz1).
  destruct (height C - height B =? 1) eqn:Ec1; b2p; [| destruct (height C - height B =? 0) eqn:Ec0; b2p].
  - rewrite E1, option_bind_Some.
    destruct (zrep_balance_in T1 d c _ _ C k x 0 d _ A B eq_refl Hz1) as (T2 & E2 & Hz2). rewrite E2, option_bind_Some.
    destruct (zrep_balance T2 _ _ _ _ _ _ 0 Hz2) as (T3 & E3 & Hz3). rewrite E3, option_bind_Some.
    eexists T3, _, _. split; [by rewrite <- (root_of_nd d c 0 (nd d x 0 A B) C) |]. split; [exact Hz3 |].
    rewrite !avl_nd, !height_nd. split; [| split; [apply addrs_rotate | split; [lia | by right]]].
    replace (height B - height A) with 0 by lia. replace (height C - _) with 0 by lia. destruct d; simpl; intuition lia.
  - rewrite E1, option_bind_Some.
    destruct (zrep_balance_in T1 d c _ _ C k x (1 * sf) d _ A B eq_refl Hz1) as (T2 & E2 & Hz2). rewrite E2, option_bind_Some.
    destruct (zrep_balance T2 _ _ _ _ _ _ (-1 * sf) Hz2) as (T3 & E3 & Hz3). rewrite E3, option_bind_Some.
    eexists T3, _, _. split; [by rewrite <- (root_of_nd d c (-1 * sf) (nd d x (1 * sf) A B) C) |]. split; [exact Hz3 |].
    rewrite !avl_nd, !height_nd. split; [| split; [apply addrs_rotate | split; [lia | by left]]].
    rewrite Hsf. destruct d; simpl; intuition lia.
  - rewrite (proj2 (Z.eqb_eq _ (-1))) by lia. clear T1 E1 Hz1.
    rewrite (get_link_s _ _ _ _ _ _ _ Hc), option_bind_Some.
    destruct (tree_nd (negb d) B) as [-> | (g & bg & G1 & G2 & ->)]; [simpl in *; pose proof (height_nonneg C); lia |].
    rewrite root_of_nd. cbn [nonnull]. rewrite ASSERT_seq by done. rewrite avl_nd in HB. destruct HB as (Hbg & Hgr & HG1 & HG2).
    rewrite height_nd in *.
    assert (zrep T (nd (negb d) c bc C (nd (negb d) g bg G1 G2)) (Frame (negb d) x (BAVL_OPTNEG 2 d) A :: k)) as Hz0.
    { rewrite zrep_up. unfold plug1. simpl. by rewrite !nd_flip in *. }
    destruct (rotate_spec T (negb d) c bc g bg C G1 G2 _ Hz0) as (T1 & E1 & Hz1). rewrite E1, option_bind_Some.
    rewrite zrep_up in Hz1. unfold plug1 in Hz1. simpl in Hz1. rewrite !nd_flip in Hz1.
    destruct (rotate_spec T1 d x _ g bg A G2 (nd d c bc G1 C) k Hz1) as (T2 & E2 & Hz2). rewrite E2, option_bind_Some.
    pose proof Hz2 as (Ht2 & _ & _). rewrite trep_nd in Ht2. destruct Ht2 as (Hg & _ & _).
    rewrite (rd_known _ _ _ Hg), option_bind_Some, fnode_balance.
    set (bx := - BAVL_MAX 0 (bg * sf) * sf). set (by' := BAVL_MAX 0 (- bg * sf) * sf).
    destruct (zrep_balance_in T2 d g _ _ _ k x bx d _ A G2 eq_refl Hz2) as (T3 & E3 & Hz3). rewrite E3, option_bind_Some.
    rewrite <- (nd_flip d g) in Hz3.
    destruct (zrep_balance_in T3 (negb d) g _ _ _ k c by' d _ G1 C eq_refl Hz3) as (T4 & E4 & Hz4). rewrite E4, option_bind_Some.
    destruct (zrep_balance T4 _ _ _ _ _ _ 0 Hz4) as (T5 & E5 & Hz5). rewrite E5, option_bind_Some.
    eexists T5, _, _. split; [by rewrite <- (root_of_nd (negb d) g 0 (nd d c by' G1 C) (nd d x bx A G2)) |]. split; [exact Hz5 |].
    assert (bg * sf = height G1 - height G2) as Hbgs by (rewrite Hbg, Hsf; destruct d; simpl; lia).
    rewrite nd_flip, !avl_nd, !height_nd. split; [| split; [destruct d; simpl; repeat (rewrite <- app_assoc; simpl); done | split; [lia | by right]]].
    subst bx by'. replace (- bg * sf) with (- (bg * sf)) by lia. rewrite Hbgs, Hsf. unfold BAVL_MAX.
    destruct d; simpl; repeat case_if; intuition lia.
Qed.

(** [s] hangs on side [d], its height has changed. *)
Lemma rebalance_node_spec T d x b s o k delta :
  zrep T (nd d x b s o) k → avl s → avl o → b = BAVL_OPTNEG (height o - height s) d → -2 ≤ height o - height s ≤ 2 →
  ∃ T' t' delta', rebalance_node T (Some x) delta = Some (T', root_of t', delta') ∧ zrep T' t' k ∧ avl t' ∧
    addrs t' = addrs (nd d x b s o) ∧ height t' = height (nd d x b s o) + (delta' - delta) ∧
    (delta' = delta ∨ delta' = delta - 1 ∧ (height o - height s = 2 ∨ height o - height s = -2)).
Proof.
  intros Hz Hs Ho Hb Hr. rewrite height_nd.
  destruct (decide (height o - height s = 2)) as [E | N1]; [| destruct (decide (height o - height s = -2)) as [E | N2]].
  - rewrite E in Hb. subst b. destruct (rebalance_heavy T d x s o k delta Hz Hs Ho) as (T' & t' & delta' & ? & ? & ? & ? & ? & ?); [lia |].
    exists T', t', delta'. split_and!; [done.. | lia | intuition lia].
  - assert (b = BAVL_OPTNEG 2 (negb d)) as -> by (rewrite Hb, E; by destruct d).
    rewrite <- (nd_flip d) in Hz |- *.
    destruct (rebalance_heavy T (negb d) x o s k delta Hz Ho Hs) as (T' & t' & delta' & ? & ? & ? & ? & ? & ?); [lia |].
    exists T', t', delta'. split_and!; [done.. | lia | intuition lia].
  - assert (-1 ≤ b ≤ 1) by (rewrite Hb; destruct d; simpl; lia).
    pose proof Hz as (Ht & _ & _). rewrite trep_nd in Ht. destruct Ht as (Hx & _ & _).
    unfold rebalance_node. rewrite (rd_known _ _ _ Hx), option_bind_Some, fnode_balance.
    rewrite (proj2 (Z.eqb_neq b 2)), (proj2 (Z.eqb_neq b (-2))) by lia. cbn [orb].
    eexists T, _, delta. split; [by rewrite <- (root_of_nd d x b s o) |]. split; [done |].
    rewrite avl_nd, height_nd. split_and!; try done; [lia.. | by left].
Qed.

Lemma BAVL_MAX_eq a b : BAVL_MAX a b = Z.max a b.
Proof. unfold BAVL_MAX. destruct (b <? a) eqn:E; b2p; lia. Qed.

Lemma OPTNEG_involutive a d : BAVL_OPTNEG (BAVL_OPTNEG a d) d = a.
Proof. destruct d; simpl; lia. Qed.

Lemma in_range (a : Z) : -1 ≤ a ≤ 1 → (-1 <=? a) && (a <=? 1) = true.
Proof. intros. apply andb_true_iff. split; apply Z.leb_le; lia. Qed.

Lemma root_of_Some T t k : zrep T t k → t ≠ Leaf →
  ∃ x, root_of t = Some x ∧ (x ∉ kaddrs k) ∧ get_parent T (Some x) = Some (par k).
Proof.
  intros (Ht & _ & Hnd) Hl. destruct t as [| l x b r]; [done |]. exists x. split; [done |]. simpl in *. destruct Ht as (Hx & _ & _). split.
  - apply NoDup_app in Hnd as (_ & Hd & _). apply Hd. set_solver.
  - unfold get_parent. by rewrite (rd_known _ _ _ Hx).
Qed.

Lemma addrs_nd_mid d x b s o :
  addrs (nd d x b s o) = (if d then addrs o else addrs s) ++ x :: (if d then addrs s else addrs o).
Proof. by destruct d. Qed.

(** The sequence of nodes only depends on the sequence below the hole. *)
Lemma addrs_plug k : ∀ t1 t2, addrs t1 = addrs t2 → addrs (plug t1 k) = addrs (plug t2 k).
Proof.
  induction k as [| f k IH]; intros t1 t2 Ha; [done |]. simpl. apply IH. unfold plug1. rewrite !addrs_nd_mid. by rewrite Ha.
Qed.

Lemma rebalance_spec fuel : ∀ T t f k dc h0, zrep T t (f :: k) → avl t → height t = h0 + dc → kavl h0 (f :: k) →
  -1 ≤ dc ≤ 1 → (length k < fuel)%nat →
  ∃ T' t', _BAVL_rebalance fuel T (Some (f_addr f)) (f_side f) dc = Some T' ∧ zrep T' t' [] ∧ avl t' ∧
    addrs t' = addrs (plug t (f :: k)).
Proof.
  induction fuel as [| fuel IH]; intros T t f k dc h0 Hz Ht Hh Hk Hdc Hf; [lia |]. destruct f as [d x b s].
  pose proof Hk as (Hb & Hr & Hs & Hk'). simpl in Hb, Hr, Hs. cbn [f_addr f_side].
  pose proof Hz as (_ & (Hx & _ & _) & _). simpl in Hx. cbn [_BAVL_rebalance].
  rewrite (rd_known _ _ _ Hx), option_bind_Some, fnode_balance, ASSERT_seq by (by apply in_range).
  assert (BAVL_OPTNEG b d = height s - h0) as Hob by (rewrite Hb; apply OPTNEG_involutive).
  rewrite ASSERT_seq by (apply in_range; rewrite Hb; destruct d; simpl; lia).
  destruct (dc =? 0) eqn:Edc; b2p.
  - exists T, (plug t (Frame d x b s :: k)). split; [done |]. rewrite zrep_plug in Hz.
    split_and!; [done | | done]. eapply kavl_plug; [done | | exact Hk]. lia.
  - cbv zeta. rewrite !BAVL_MAX_eq, Hob. rewrite ASSERT_seq by (apply in_range; lia).
    rewrite zrep_up in Hz. unfold plug1 in Hz. simpl in Hz.
    destruct (zrep_balance T _ _ _ _ _ _ (b - BAVL_OPTNEG dc d) Hz) as (T1 & E1 & Hz1). rewrite E1, option_bind_Some.
    set (delta := Z.max dc (height s - h0) - Z.max 0 (height s - h0)).
    destruct (rebalance_node_spec T1 d x (b - BAVL_OPTNEG dc d) t s k delta Hz1 Ht Hs)
      as (T2 & t2 & delta2 & E2 & Hz2 & Ht2 & Ha2 & Hh2 & Hd2); [rewrite Hb, Hh; destruct d; simpl; lia | lia |].
    rewrite E2, option_bind_Some. rewrite height_nd, Hh in Hh2.
    rewrite ASSERT_seq by (apply in_range; subst delta; lia).
    assert (t2 ≠ Leaf) as Hl2 by (intros ->; rewrite addrs_nd_mid in Ha2; by apply app_cons_not_nil in Ha2).
    destruct (root_of_Some T2 t2 k Hz2 Hl2) as (y & Ey & Hyn & Ep). rewrite Ey, Ep, option_bind_Some.
    assert (addrs (plug t (Frame d x b s :: k)) = addrs (plug t2 k)) as ->.
    { simpl. apply addrs_plug. rewrite Ha2. unfold plug1. by rewrite !addrs_nd_mid. }
    destruct k as [| f k]; cbn [par nonnull].
    + by exists T2, t2.
    + rewrite (side_of_known T2 y f k), option_bind_Some; [| by destruct Hz2 as (_ & Hk2 & _); rewrite Ey in Hk2 | done].
      apply (IH T2 t2 f k delta2 (kheight h0 (Frame d x b s))); [done | done | | done | subst delta; lia | simpl in Hf; lia].
      unfold kheight. simpl. subst delta. lia.
Qed.
