(* ===== verification/BAVLTree.v ===== *)
(** * The operations of the AVL tree (structure/BAVL.h)

    On top of BAVL.v (the model of BAVL.h, and rotation and rebalancing): the
    descents of insertion and lookup, the exchange of nodes of a removal, and what
    insertion and removal do to the functional tree. *)
From Stdlib Require Import Sorted.
From stdpp Require Import sorting.
From S2P Require Import Prelude LinkedLists SearchTree BAVL.

(** ** Left and right of the hole *)

Fixpoint kl (k : list frame) : list addr :=
  match k with
  | [] => []
  | f :: k => kl k ++ (if f_side f then addrs (f_sib f) ++ [f_addr f] else [])
  end.
Fixpoint kr (k : list frame) : list addr :=
  match k with
  | [] => []
  | f :: k => (if f_side f then [] else f_addr f :: addrs (f_sib f)) ++ kr k
  end.

Lemma addrs_split k : ∀ t, addrs (plug t k) = kl k ++ addrs t ++ kr k.
Proof.
  induction k as [| [d x b s] k IH]; intros t; simpl; [by rewrite app_nil_r |]. rewrite IH. unfold plug1. simpl. rewrite addrs_nd_mid.
  destruct d; by rewrite <- ?app_assoc.
Qed.

Lemma kaddrs_split k : kaddrs k ≡ₚ kl k ++ kr k.
Proof. induction k as [| [d x b s] k IH]; simpl; [done |]. rewrite IH. destruct d; solve_Permutation. Qed.

Lemma plug_app t k1 k2 : plug t (k1 ++ k2) = plug (plug t k1) k2.
Proof. revert t. induction k1 as [| f k1 IH]; intros t; [done |]. apply IH. Qed.

Lemma kl_app k1 k2 : kl (k1 ++ k2) = kl k2 ++ kl k1.
Proof. induction k1 as [| f k1 IH]; simpl; [by rewrite app_nil_r |]. by rewrite IH, app_assoc. Qed.
Lemma kr_app k1 k2 : kr (k1 ++ k2) = kr k1 ++ kr k2.
Proof. induction k1 as [| f k1 IH]; simpl; [done |]. by rewrite IH, app_assoc. Qed.

(** Every node of the tree is the root of a subtree in some context. *)
Lemma plug_focus x : ∀ t k, x ∈ addrs t → ∃ l b r k', plug (Node l x b r) (k' ++ k) = plug t k.
Proof.
  induction t as [| l IHl y b r IHr]; intros k Hx; simpl in Hx; [set_solver |]. rewrite elem_of_app, elem_of_cons in Hx.
  destruct Hx as [Hx | [-> | Hx]].
  - destruct (IHl (Frame false y b r :: k) Hx) as (l' & b' & r' & k' & E). exists l', b', r', (k' ++ [Frame false y b r]).
    by rewrite <- app_assoc.
  - by exists l, b, r, [].
  - destruct (IHr (Frame true y b l :: k) Hx) as (l' & b' & r' & k' & E). exists l', b', r', (k' ++ [Frame true y b l]).
    by rewrite <- app_assoc.
Qed.

Lemma avl_plug k : ∀ t, avl (plug t k) → avl t ∧ kavl (height t) k.
Proof.
  induction k as [| [d x b s] k IH]; intros t; simpl; [done |]. intros [Ha Hk]%IH. unfold plug1 in *. simpl in *.
  rewrite avl_nd in Ha. rewrite height_nd in Hk. unfold kheight. simpl. tauto.
Qed.

(** ** The number of nodes bounds every walk *)

Lemma trep_dom h pp t x : trep h pp t → x ∈ addrs t → x ∈ dom h.
Proof.
  revert pp. induction t as [| l IHl y b r IHr]; intros pp; simpl; [set_solver |]. intros (Hy & Hl & Hr).
  rewrite elem_of_app, elem_of_cons. intros [Hx | [-> | Hx]]; [by eapply IHl | by eapply elem_of_dom_2 | by eapply IHr].
Qed.

Lemma zrep_size T t k : zrep T t k → (length (addrs t) + length k ≤ size (a_nodes T))%nat.
Proof.
  intros Hz. assert (length k ≤ length (kaddrs k))%nat as Hk.
  { clear. induction k as [| f k IH]; simpl; [lia |]. rewrite length_app. lia. }
  assert (length (addrs t ++ kaddrs k) ≤ size (a_nodes T))%nat as H; [| rewrite length_app in H; lia].
  rewrite zrep_plug in Hz. destruct Hz as (Ht & _ & Hnd). simpl in Hnd. rewrite app_nil_r in Hnd.
  assert (addrs t ++ kaddrs k ≡ₚ addrs (plug t k)) as -> by (rewrite addrs_split, kaddrs_split; solve_Permutation).
  rewrite <- size_dom, <- (size_list_to_set (C := gset addr) (addrs (plug t k))) by done. apply subseteq_size.
  intros x Hx%elem_of_list_to_set. by eapply trep_dom.
Qed.

Lemma height_length t : height t ≤ Z.of_nat (length (addrs t)).
Proof. induction t; simpl; [lia |]. rewrite length_app. simpl. pose proof (height_nonneg t1). pose proof (height_nonneg t2). lia. Qed.

Lemma zrep_height_fuel T t k : zrep T t k → height t < Z.of_nat (tree_fuel T).
Proof. intros H%zrep_size. pose proof (height_length t). unfold tree_fuel. lia. Qed.

Lemma zrep_context_fuel T t k : zrep T t k → (length k < tree_fuel T)%nat.
Proof. intros H%zrep_size. unfold tree_fuel. lia. Qed.

(** ** The descent *)

(** Follows the comparison [g] down from [t]: the subtree reached, a leaf when no
    node compares equal, with its context. *)
Fixpoint descend (g : addr → Z) (t : tree) (k : list frame) : tree * list frame :=
  match t with
  | Leaf => (Leaf, k)
  | Node l x b r =>
      if g x =? 0 then (t, k)
      else if g x =? 1 then descend g r (Frame true x b l :: k) else descend g l (Frame false x b r :: k)
  end.

Lemma descend_plug g : ∀ t k, plug (descend g t k).1 (descend g t k).2 = plug t k.
Proof.
  induction t as [| l IHl x b r IHr]; intros k; simpl; [done |].
  destruct (g x =? 0); [done |]. destruct (g x =? 1); [by rewrite IHr | by rewrite IHl].
Qed.

(** The answers of the three searches for the place the descent reaches. *)
Definition found_insert (z : tree * list frame) : option (addr + addr * bool) :=
  match z with
  | (Node _ x _ _, _) => Some (inl x)
  | (Leaf, f :: _) => Some (inr (f_addr f, f_side f))
  | (Leaf, []) => None
  end.
Definition found_exact (z : tree * list frame) : option (option addr) := Some (root_of z.1).
Definition found_near (z : tree * list frame) : option (option addr) :=
  match z with
  | (Node _ x _ _, _) => Some (Some x)
  | (Leaf, k) => Some (par k)
  end.

Lemma in_order_app {K} (P : K → Prop) cmp val l x r : in_order P cmp val (l ++ x :: r) ↔
  in_order P cmp val l ∧ in_order P cmp val r ∧ keyed P val [x] ∧
  Forall (λ y, before_key cmp val y x) l ∧ Forall (before_key cmp val x) r ∧
  (∀ y z, y ∈ l → z ∈ r → before_key cmp val y z).
Proof.
  unfold in_order. rewrite StronglySorted_app, StronglySorted_cons, !Forall_forall. setoid_rewrite elem_of_cons. unfold keyed. split.
  - intros (Hk & Hb & Hs & Hf & Hr). split_and!; try done; [set_solver.. | |]; naive_solver.
  - intros ((Hk1 & Hs1) & (Hk2 & Hs2) & Hx & H1 & H2 & H3). split_and!; try done; [set_solver | naive_solver].
Qed.

Section descent.
Context {K : Type} (P : K → Prop) (cmp : K → K → Z) (val : addr → option K) (key : K).
Context (Hko : key_order P cmp) (HP : P key).

(** The comparison of [key] with the value of a node. *)
Definition against (x : addr) : Z := match val x with Some ky => cmp key ky | None => 0 end.

Lemma compare_ok x : keyed P val [x] → ∃ ky, val x = Some ky ∧ _BAVL_compare_values cmp key ky = Some (against x) ∧
  (against x = -1 ∨ against x = 0 ∨ against x = 1).
Proof using Hko HP.
  intros Hk. destruct (Hk x) as (ky & E & Hy); [set_solver |]. exists ky. unfold against. rewrite E. split; [done |].
  pose proof (ko_cases _ _ Hko key ky HP Hy) as Hc. split; [| done]. unfold _BAVL_compare_values. cbv zeta.
  rewrite ASSERT_seq; [done |]. destruct Hc as [-> | [-> | ->]]; done.
Qed.

Lemma keyed_sub l l' : (∀ x, x ∈ l' → x ∈ l) → keyed P val l → keyed P val l'.
Proof using Type. intros Hs Hk x Hx. by apply Hk, Hs. Qed.

(** One turn of a search, for the three of them. *)
Lemma search_turn {A} (loop : nat → addr → option A) (found : tree * list frame → option A) T l x b r pp k fuel :
  trep (a_nodes T) pp (Node l x b r) → keyed P val (addrs (Node l x b r)) →
  (∀ fuel c, loop (S fuel) c = (v ← val c; comp ← _BAVL_compare_values cmp key v;
     if comp =? 0 then found (Node l c b r, k) else
     nx ← get_link T (Some c) (comp =? 1);
     match nx with None => found (Leaf, Frame (comp =? 1) c b Leaf :: k) | Some c' => loop fuel c' end)) →
  loop (S fuel) x =
    if against x =? 0 then found (Node l x b r, k)
    else match root_of (if against x =? 1 then r else l) with
         | None => found (Leaf, Frame (against x =? 1) x b Leaf :: k)
         | Some c' => loop fuel c'
         end.
Proof using Hko HP.
  intros (Hx & _ & _) Hk ->. destruct (compare_ok x) as (ky & E & Ec & Hc); [eapply keyed_sub; [| exact Hk]; simpl; set_solver |].
  rewrite E, option_bind_Some, Ec, option_bind_Some. destruct (against x =? 0); [done |].
  unfold get_link. rewrite (rd_known _ _ _ Hx). simpl. destruct (against x =? 1); done.
Qed.

(** The three searches follow the descent, within as many turns as the tree is high. *)
Lemma search_loop {A} (loop : nat → addr → option A) (found : tree * list frame → option A) T :
  (∀ l x b r l' b' r' k k', found (Node l x b r, k) = found (Node l' x b' r', k')) →
  (∀ f k f' k', f_addr f = f_addr f' → f_side f = f_side f' → found (Leaf, f :: k) = found (Leaf, f' :: k')) →
  (∀ fuel c, loop (S fuel) c = (v ← val c; comp ← _BAVL_compare_values cmp key v;
     if comp =? 0 then found (Node Leaf c 0 Leaf, []) else
     nx ← get_link T (Some c) (comp =? 1);
     match nx with None => found (Leaf, [Frame (comp =? 1) c 0 Leaf]) | Some c' => loop fuel c' end)) →
  ∀ fuel t k x pp, trep (a_nodes T) pp t → keyed P val (addrs t) → root_of t = Some x → height t ≤ Z.of_nat fuel →
  loop fuel x = found (descend against t k).
Proof using Hko HP.
  intros Hf1 Hf2 Hl. induction fuel as [| fuel IH]; intros t k x pp Ht Hk Hr Hh;
    (destruct t as [| l x' b r]; [done |]; injection Hr as ->; pose proof (height_nonneg l); pose proof (height_nonneg r));
    [simpl in Hh; lia |].
  pose proof Ht as (_ & HTl & HTr). simpl in Hh.
  rewrite (search_turn loop found T l x b r pp k fuel Ht Hk).
  - simpl. destruct (against x =? 0) eqn:E0; [done |]. destruct (against x =? 1) eqn:E1.
    + destruct r as [| r1 y b2 r2]; cbn [root_of]; [by apply Hf2 |]. eapply (IH _ _ _ (Some x)); [done | | done | lia].
      eapply keyed_sub; [| exact Hk]. intros z. simpl. set_solver.
    + destruct l as [| l1 y b2 l2]; cbn [root_of]; [by apply Hf2 |]. eapply (IH _ _ _ (Some x)); [done | | done | lia].
      eapply keyed_sub; [| exact Hk]. intros z. simpl. set_solver.
  - intros f c. rewrite Hl. destruct (val c) as [v |]; [| done]. rewrite !option_bind_Some.
    destruct (_BAVL_compare_values cmp key v) as [comp |]; [| done]. rewrite !option_bind_Some.
    rewrite (Hf1 Leaf c 0 Leaf l b r [] k). destruct (comp =? 0); [done |].
    destruct (get_link T (Some c) (comp =? 1)) as [[] |]; [done | | done]. rewrite !option_bind_Some. by apply Hf2.
Qed.

Lemma lookup_exact_loop_spec T fuel t x pp : trep (a_nodes T) pp t → keyed P val (addrs t) → root_of t = Some x →
  height t ≤ Z.of_nat fuel → lookup_exact_loop cmp val fuel T key x = found_exact (descend against t []).
Proof using Hko HP. apply (search_loop (λ fuel, lookup_exact_loop cmp val fuel T key)); done. Qed.

Lemma lookup_loop_spec T fuel t x pp : trep (a_nodes T) pp t → keyed P val (addrs t) → root_of t = Some x →
  height t ≤ Z.of_nat fuel → lookup_loop cmp val fuel T key x = found_near (descend against t []).
Proof using Hko HP.
  apply (search_loop (λ fuel, lookup_loop cmp val fuel T key)); [done | intros f1 k1 f2 k2 Ha _; simpl; by rewrite Ha | done].
Qed.

Lemma insert_search_spec T fuel t x pp node : val node = Some key →
  trep (a_nodes T) pp t → keyed P val (addrs t) → root_of t = Some x →
  height t ≤ Z.of_nat fuel → insert_search cmp val fuel T node x = found_insert (descend against t []).
Proof using Hko HP.
  intros Hn. apply (search_loop (λ fuel, insert_search cmp val fuel T node)); [done | |].
  - intros f1 k1 f2 k2 Ha Hs. simpl. by rewrite Ha, Hs.
  - intros f c. simpl. unfold _BAVL_compare_nodes. rewrite Hn. cbn [mbind option_bind].
    by destruct (val c).
Qed.

(** The nodes with a smaller, and with a greater, value than [key]. *)
Definition lower (x : addr) : Prop := ∃ ky, val x = Some ky ∧ P ky ∧ cmp ky key = -1.
Definition upper (x : addr) : Prop := ∃ ky, val x = Some ky ∧ P ky ∧ cmp key ky = -1.

Lemma before_lower x y : keyed P val [x] → keyed P val [y] → before_key cmp val x y → lower y → lower x.
Proof using Hko HP.
  intros Hx Hy (kx & ky & Ex & Ey & E) (ky' & Ey' & Hy' & E').
  destruct (Hx x) as (kx' & Ex' & Hkx); [set_solver |]. simplify_eq.
  exists kx. split_and!; [done.. |]. by apply (ko_trans _ _ Hko kx ky key).
Qed.

Lemma before_upper x y : keyed P val [x] → keyed P val [y] → before_key cmp val x y → upper x → upper y.
Proof using Hko HP.
  intros Hx Hy (kx & ky & Ex & Ey & E) (kx' & Ex' & Hx' & E').
  destruct (Hy y) as (ky' & Ey' & Hky); [set_solver |]. simplify_eq.
  exists ky. split_and!; [done.. |]. by apply (ko_trans _ _ Hko key kx ky).
Qed.

Lemma against_cases x : keyed P val [x] →
  (against x = 0 ∧ val x = Some key) ∨ (against x = 1 ∧ lower x) ∨ (against x = -1 ∧ upper x).
Proof using Hko HP.
  intros Hk. destruct (Hk x) as (ky & E & Hy); [set_solver |]. unfold against, lower, upper. rewrite E.
  destruct (ko_cases _ _ Hko key ky HP Hy) as [Hc | [Hc | Hc]].
  - right. right. eauto.
  - left. apply (ko_zero _ _ Hko) in Hc as Heq; [| done..]. by subst.
  - right. left. split; [done |]. exists ky. split_and!; [done.. |]. rewrite (ko_anti _ _ Hko key ky) by done. lia.
Qed.

Lemma descend_order : ∀ t k, in_order P cmp val (addrs t) → Forall lower (kl k) → Forall upper (kr k) →
  match descend against t k with
  | (Leaf, k') => Forall lower (kl k') ∧ Forall upper (kr k')
  | (Node _ x _ _, _) => val x = Some key ∧ x ∈ addrs t
  end.
Proof using Hko HP.
  induction t as [| l IHl x b r IHr]; intros k Ho Hl Hu; [done |]. simpl in Ho. rewrite in_order_app in Ho.
  destruct Ho as (Hol & Hor & Hx & H1 & H2 & _). rewrite !Forall_forall in H1, H2.
  simpl. destruct (against_cases x Hx) as [[-> Hc] | [[-> Hc] | [-> Hc]]]; cbn.
  - set_solver.
  - specialize (IHr (Frame true x b l :: k) Hor). simpl in IHr.
    assert (Forall lower (kl k ++ addrs l ++ [x])) as Hl'.
    { rewrite !Forall_app. split; [done |]. split; [| by repeat constructor]. apply Forall_forall. intros y Hy.
      eapply before_lower; [| done | by apply H1 | done]. eapply keyed_sub; [| apply Hol]. set_solver. }
    specialize (IHr Hl' Hu). destruct (descend against r _) as [[|] ?]; [done | set_solver].
  - specialize (IHl (Frame false x b r :: k) Hol). simpl in IHl. rewrite app_nil_r in IHl.
    assert (Forall upper (x :: addrs r ++ kr k)) as Hu'.
    { rewrite Forall_cons, Forall_app. split_and!; [done | | done]. apply Forall_forall. intros y Hy.
      eapply before_upper; [done | | by apply H2 | done]. eapply keyed_sub; [| apply Hor]. set_solver. }
    specialize (IHl Hl Hu'). destruct (descend against l _) as [[|] ?]; [done | set_solver].
Qed.

(** Between smaller and greater nodes there is room for one more. *)
Lemma in_order_between node l r : val node = Some key → in_order P cmp val (l ++ r) → Forall lower l → Forall upper r →
  in_order P cmp val (l ++ node :: r).
Proof using Hko HP.
  intros Hn [Hk Hs] Hl Hu. rewrite in_order_app. rewrite StronglySorted_app in Hs. destruct Hs as (Hb & Hsl & Hsr). split_and!.
  - split; [eapply keyed_sub; [| exact Hk]; set_solver | done].
  - split; [eapply keyed_sub; [| exact Hk]; set_solver | done].
  - intros z ->%list_elem_of_singleton. eauto.
  - eapply Forall_impl; [exact Hl |]. intros y (ky & ? & ? & ?). by exists ky, key.
  - eapply Forall_impl; [exact Hu |]. intros y (ky & ? & ? & ?). by exists key, ky.
  - done.
Qed.

Lemma lower_ne x : lower x → val x ≠ Some key.
Proof using Hko. intros (ky & -> & HPy & E) [= ->]. assert (cmp key key = 0) by (by apply (ko_zero _ _ Hko)). lia. Qed.
Lemma upper_ne x : upper x → val x ≠ Some key.
Proof using Hko. intros (ky & -> & HPy & E) [= ->]. assert (cmp key key = 0) by (by apply (ko_zero _ _ Hko)). lia. Qed.

End descent.

(** ** Insertion *)

Lemma hang_leaf T f k node : zrep T Leaf (f :: k) → node ∉ kaddrs (f :: k) →
  ∃ T1, put_link T (Some (f_addr f)) (f_side f) (Some node) = Some T1 ∧
    zrep (T1 <| a_nodes := <[node := mk_BAVLNode (Some (f_addr f)) None None 0]> (a_nodes T1) |>)
      (Node Leaf node 0 Leaf) (f :: k).
Proof.
  destruct f as [d y b s]. cbn [f_addr f_side]. intros (_ & (Hy & Hs & Hk) & Hnd) Hn. simpl in Hy, Hs, Hk, Hnd, Hn. apply NoDup_cons in Hnd as Hnd'. destruct Hnd' as [Hyn _].
  rewrite (put_link_s _ _ _ _ _ _ _ _ Hy). eexists. split; [done |].
  split; [| split]; simpl.
  - by rewrite lookup_insert_eq.
  - rewrite lookup_insert_ne, lookup_insert_eq by set_solver. split; [done |].
    split; [repeat apply trep_frame | repeat apply krep_frame]; set_solver.
  - by apply NoDup_cons.
Qed.

Section insert.
Context {K : Type} (P : K → Prop) (cmp : K → K → Z) (val : addr → option K) (key : K).
Context (Hko : key_order P cmp) (HP : P key).

Lemma avl_insert_spec T t node : zrep T t [] → avl t → in_order P cmp val (addrs t) → node ∉ addrs t → val node = Some key →
  (avl_Insert cmp val T node = Some (T, false) ∧ ∃ y, y ∈ addrs t ∧ val y = Some key) ∨
  ((∀ y, y ∈ addrs t → val y ≠ Some key) ∧ ∃ T' t', avl_Insert cmp val T node = Some (T', true) ∧ zrep T' t' [] ∧ avl t' ∧
      in_order P cmp val (addrs t') ∧ addrs t' ≡ₚ node :: addrs t).
Proof using Hko HP.
  intros Hz Ha Ho Hn Hv. unfold avl_Insert. pose proof Hz as (Ht & Hk & Hnd). simpl in Hk. rewrite Hk.
  destruct t as [| l x b r]; cbn [root_of].
  - right. split; [set_solver |]. eexists _, (Node Leaf node 0 Leaf). split; [done |]. split; [| split; [| split]].
    + split; [simpl; by rewrite lookup_insert_eq | split; [done | by apply NoDup_singleton]].
    + done.
    + simpl. split; [intros y ->%list_elem_of_singleton; eauto | by repeat constructor].
    + done.
  - rewrite (insert_search_spec P cmp val key Hko HP T _ (Node l x b r) x None node Hv Ht (proj1 Ho));
      [| done | apply Z.lt_le_incl; by eapply zrep_height_fuel].
    pose proof (descend_plug (against cmp val key) (Node l x b r) []) as Hp.
    pose proof (descend_order P cmp val key Hko HP (Node l x b r) [] Ho) as Hd.
    destruct (descend _ _ _) as [[| l' x' b' r'] k']; simpl in Hp; unfold found_insert.
    + right. destruct Hd as [Hl Hu]; [constructor.. |].
      assert (∀ y, y ∈ addrs (Node l x b r) → val y ≠ Some key) as Hne.
      { rewrite <- Hp, addrs_split. simpl. intros y. rewrite elem_of_app. rewrite Forall_forall in Hl, Hu.
        intros [Hy | Hy]; [by eapply lower_ne, Hl | by eapply upper_ne, Hu]. }
      split; [done |]. destruct k' as [| f k']; [by simpl in Hp |]. rewrite option_bind_Some.
      rewrite <- Hp in Hz, Ha, Ho, Hn |- *. rewrite <- zrep_plug in Hz. apply avl_plug in Ha as [_ Hka].
      rewrite addrs_split in Ho, Hn. simpl in Ho, Hn.
      destruct (hang_leaf T f k' node Hz) as (T1 & E1 & Hz1); [rewrite kaddrs_split; done |].
      rewrite E1, option_bind_Some. cbv zeta. set (T2 := T1 <| a_nodes := _ |>) in *.
      destruct (rebalance_spec (tree_fuel T2) T2 (Node Leaf node 0 Leaf) f k' 1 0 Hz1)
        as (T3 & t3 & E3 & Hz3 & Ha3 & Hs3); [done | done | done | lia | apply zrep_context_fuel in Hz1; simpl in Hz1; lia |].
      rewrite E3, option_bind_Some. exists T3, t3. split; [done |]. rewrite Hs3, !addrs_split. split; [done | split; [done | split]].
      * simpl. by apply (in_order_between P cmp val key Hko HP).
      * simpl. solve_Permutation.
    + left. split; [done |]. destruct Hd as [? ?]; [constructor.. |]. by exists x'.
Qed.
End insert.

(** ** The part of a context between two nodes *)

(** The nearest node above the hole of [k], below a node [top]. *)
Definition par_in (top : ptr) (k : list frame) : ptr := match k with [] => top | f :: _ => Some (f_addr f) end.
(** The topmost node of [k] over the hole [q]. *)
Fixpoint top_of (k : list frame) (q : ptr) : ptr := match k with [] => q | f :: k => top_of k (Some (f_addr f)) end.

(** [krep] for a context that hangs below [top]. *)
Fixpoint kseg (h : gmap addr BAVLNode) (top : ptr) (k : list frame) (q : ptr) : Prop :=
  match k with
  | [] => True
  | f :: k =>
      h !! f_addr f = Some (fnode (par_in top k) (f_side f) (f_bal f) q (root_of (f_sib f))) ∧
      trep h (Some (f_addr f)) (f_sib f) ∧ kseg h top k (Some (f_addr f))
  end.

Lemma par_app k1 k2 : par (k1 ++ k2) = par_in (par k2) k1.
Proof. by destruct k1. Qed.

Lemma krep_app h root k1 k2 : ∀ q, krep h root q (k1 ++ k2) ↔ kseg h (par k2) k1 q ∧ krep h root (top_of k1 q) k2.
Proof. induction k1 as [| f k1 IH]; intros q; simpl; [tauto |]. rewrite IH, par_app. tauto. Qed.

Lemma kaddrs_app k1 k2 : kaddrs (k1 ++ k2) = kaddrs k1 ++ kaddrs k2.
Proof. induction k1 as [| f k1 IH]; simpl; [done |]. by rewrite IH, app_assoc. Qed.

Lemma kseg_agree h h' top k : ∀ q, agree_on (kaddrs k) h h' → kseg h top k q → kseg h' top k q.
Proof.
  induction k as [| f k IH]; intros q Ha; [done |]. simpl in Ha. intros (Hf & Hs & Hk). simpl.
  rewrite (Ha (f_addr f)) by set_solver.
  split_and!; [done | eapply trep_agree; [| done] | apply IH; [| done]]; intros z Hz; apply Ha; set_solver.
Qed.

(** Replacing what hangs in the hole. *)
Lemma kseg_attach T top k x q : k ≠ [] → kseg (a_nodes T) top k (Some x) → x ∉ kaddrs k → NoDup (kaddrs k) →
  ∃ T', attach T (par k) (side_of T (par k) (Some x)) q = Some T' ∧ kseg (a_nodes T') top k q ∧
    a_root T' = a_root T ∧ ∀ y, y ∉ kaddrs k → a_nodes T' !! y = a_nodes T !! y.
Proof.
  intros Hne. destruct k as [| [d y b s] k]; [done |]. cbn [par f_addr f_side kseg kaddrs f_bal f_sib]. intros (Hy & Hs & Hk) Hx Hnd.
  assert (side_of T (Some y) (Some x) = Some d) as ->.
  { unfold side_of, get_link. rewrite (rd_known _ _ _ Hy). simpl. f_equal. destruct d; simpl; [by apply bool_decide_eq_true |].
    apply bool_decide_eq_false. destruct s; [done |]. simpl in *. intros [= ->]. set_solver. }
  apply NoDup_cons in Hnd as [Hyn Hnd].
  eexists. split; [unfold attach; cbn [nonnull]; rewrite option_bind_Some; by rewrite (put_link_s _ _ _ _ _ _ _ _ Hy) |].
  simpl. split_and!.
  - apply lookup_insert_eq.
  - apply trep_frame; [set_solver | done].
  - eapply kseg_agree; [| exact Hk]. intros z Hz. rewrite lookup_insert_ne; [done | set_solver].
  - done.
  - intros z Hz. rewrite lookup_insert_ne; [done | set_solver].
Qed.

(** Changing the parent of the topmost node. *)
Lemma kseg_reparent T top k : ∀ q v, k ≠ [] → kseg (a_nodes T) top k q → NoDup (kaddrs k) →
  ∃ T', set_parent_if T (top_of k q) v = Some T' ∧ kseg (a_nodes T') v k q ∧
    a_root T' = a_root T ∧ ∀ y, y ∉ kaddrs k → a_nodes T' !! y = a_nodes T !! y.
Proof.
  destruct k as [| f k]; [done |]. intros q v _. revert f q v.
  induction k as [| f' k IH]; intros f q v Hk Hnd.
  - destruct f as [d y b s]. cbn in Hk. destruct Hk as (Hy & Hs & _). simpl in Hnd. apply NoDup_cons in Hnd as [Hyn Hnd].
    eexists. split; [unfold set_parent_if; cbn [top_of nonnull f_addr]; by rewrite (put_parent_known _ _ _ _ _ _ _ _ Hy) |].
    simpl. split_and!; [apply lookup_insert_eq | apply trep_frame; [set_solver | done] | done | done |].
    intros z Hz. rewrite lookup_insert_ne; [done | set_solver].
  - change (kaddrs (f :: f' :: k)) with (f_addr f :: addrs (f_sib f) ++ kaddrs (f' :: k)) in *.
    destruct Hk as (Hf & Hs & Hk). apply NoDup_cons in Hnd as [Hfn Hnd]. apply NoDup_app in Hnd as (Hns & Hd & Hnd).
    destruct (IH f' (Some (f_addr f)) v Hk Hnd) as (T' & E & Hk' & Hr & Hag).
    exists T'. split; [exact E |]. split_and!; [| exact Hr | intros z Hz; apply Hag; set_solver].
    split; [rewrite Hag by set_solver; exact Hf |]. split; [| exact Hk'].
    eapply trep_agree; [| exact Hs]. intros z Hz. apply Hag. by apply Hd.
Qed.

Lemma top_of_any k q q' : k ≠ [] → top_of k q = top_of k q'.
Proof. by destruct k. Qed.
Lemma par_in_any top k : k ≠ [] → par_in top k = par k.
Proof. by destruct k. Qed.

(** ** Exchanging two nodes *)

Section swap.
(** [n1] with the right subtree [s] in the context [k]; below its left link the
    context [km], and in its hole [n2] with the subtrees [l2] and [r2]. *)
Context (n1 n2 : addr) (l2 r2 s : tree) (km k : list frame).
Context (Hnd : NoDup (n1 :: n2 :: addrs l2 ++ addrs r2 ++ addrs s ++ kaddrs km ++ kaddrs k)).

(** The parts of the heap, each with the pointers it has to its surroundings. *)
Record pieces (T : BAVL) (v1 v2 : BAVLNode) (pl pr ps q top o : ptr) : Prop := {
  pc_n1 : a_nodes T !! n1 = Some v1;
  pc_n2 : a_nodes T !! n2 = Some v2;
  pc_l2 : trep (a_nodes T) pl l2;
  pc_r2 : trep (a_nodes T) pr r2;
  pc_s : trep (a_nodes T) ps s;
  pc_km : kseg (a_nodes T) top km q;
  pc_k : krep (a_nodes T) (a_root T) o k
}.

(** Which part an address belongs to. *)
Lemma parts_disjoint :
  n1 ≠ n2 ∧ (n1 ∉ addrs l2 ++ addrs r2 ++ addrs s ++ kaddrs km ++ kaddrs k) ∧
  (n2 ∉ addrs l2 ++ addrs r2 ++ addrs s ++ kaddrs km ++ kaddrs k) ∧
  (∀ y, y ∈ addrs l2 → y ∉ addrs r2 ++ addrs s ++ kaddrs km ++ kaddrs k) ∧ (∀ y, y ∈ addrs r2 → y ∉ addrs s ++ kaddrs km ++ kaddrs k) ∧
  (∀ y, y ∈ addrs s → y ∉ kaddrs km ++ kaddrs k) ∧ (∀ y, y ∈ kaddrs km → y ∉ kaddrs k) ∧
  NoDup (addrs l2) ∧ NoDup (addrs r2) ∧ NoDup (addrs s) ∧ NoDup (kaddrs km) ∧ NoDup (kaddrs k).
Proof using Hnd. clear - Hnd. nodup_split. split_and!; try done; set_solver. Qed.

Ltac transport Hag :=
  match goal with
  | |- trep _ _ _ => eapply trep_agree; [| eassumption]; intros ? ?; apply Hag; set_solver
  | |- kseg _ _ _ _ => eapply kseg_agree; [| eassumption]; intros ? ?; apply Hag; set_solver
  | |- krep _ _ _ _ => eapply krep_agree; [| eassumption]; intros ? ?; apply Hag; set_solver
  | |- _ !! _ = _ => rewrite Hag by set_solver; eassumption
  end.

Ltac open_pieces H :=
  destruct parts_disjoint as (Hne & Hn1 & Hn2 & Hl2 & Hr2 & Hs & Hkm & ? & ? & ? & ? & ?); destruct H.

Lemma pieces_n1 f T v1 v2 pl pr ps q top o : pieces T v1 v2 pl pr ps q top o →
  ∃ T', wr f T (Some n1) = Some T' ∧ pieces T' (f v1) v2 pl pr ps q top o.
Proof using Hnd.
  intros H. open_pieces H. rewrite (wr_known _ _ _ v1) by done. eexists. split; [done |].
  assert (∀ y, y ≠ n1 → <[n1 := f v1]> (a_nodes T) !! y = a_nodes T !! y) as Hag by (intros; by rewrite lookup_insert_ne).
  split; cbn [a_nodes a_root set]; [by rewrite lookup_insert_eq | transport Hag..].
Qed.

Lemma pieces_n2 f T v1 v2 pl pr ps q top o : pieces T v1 v2 pl pr ps q top o →
  ∃ T', wr f T (Some n2) = Some T' ∧ pieces T' v1 (f v2) pl pr ps q top o.
Proof using Hnd.
  intros H. open_pieces H. rewrite (wr_known _ _ _ v2) by done. eexists. split; [done |].
  assert (∀ y, y ≠ n2 → <[n2 := f v2]> (a_nodes T) !! y = a_nodes T !! y) as Hag by (intros; by rewrite lookup_insert_ne).
  split; cbn [a_nodes a_root set]; [transport Hag | by rewrite lookup_insert_eq | transport Hag..].
Qed.

Lemma pieces_l2 p T v1 v2 pl pr ps q top o : pieces T v1 v2 pl pr ps q top o →
  ∃ T', set_parent_if T (root_of l2) p = Some T' ∧ pieces T' v1 v2 p pr ps q top o.
Proof using Hnd.
  intros H. open_pieces H. destruct (set_parent_if_spec T pl l2 p) as (T' & E & Ht & Er & Hag); [done.. |].
  exists T'. split; [done |]. split; rewrite ?Er; first [done | transport Hag].
Qed.

Lemma pieces_r2 p T v1 v2 pl pr ps q top o : pieces T v1 v2 pl pr ps q top o →
  ∃ T', set_parent_if T (root_of r2) p = Some T' ∧ pieces T' v1 v2 pl p ps q top o.
Proof using Hnd.
  intros H. open_pieces H. destruct (set_parent_if_spec T pr r2 p) as (T' & E & Ht & Er & Hag); [done.. |].
  exists T'. split; [done |]. split; rewrite ?Er; first [done | transport Hag].
Qed.

Lemma pieces_s p T v1 v2 pl pr ps q top o : pieces T v1 v2 pl pr ps q top o →
  ∃ T', set_parent_if T (root_of s) p = Some T' ∧ pieces T' v1 v2 pl pr p q top o.
Proof using Hnd.
  intros H. open_pieces H. destruct (set_parent_if_spec T ps s p) as (T' & E & Ht & Er & Hag); [done.. |].
  exists T'. split; [done |]. split; rewrite ?Er; first [done | transport Hag].
Qed.

Lemma pieces_hole p x T v1 v2 pl pr ps top o : pieces T v1 v2 pl pr ps (Some x) top o → km ≠ [] → x ∉ kaddrs km →
  ∃ T', attach T (par km) (side_of T (par km) (Some x)) p = Some T' ∧ pieces T' v1 v2 pl pr ps p top o.
Proof using Hnd.
  intros H Hne0 Hx. open_pieces H. destruct (kseg_attach T top km x p) as (T' & E & Ht & Er & Hag); [done.. |].
  exists T'. split; [done |]. split; rewrite ?Er; first [done | transport Hag].
Qed.

Lemma pieces_top p T v1 v2 pl pr ps q top o : pieces T v1 v2 pl pr ps q top o → km ≠ [] →
  ∃ T', set_parent_if T (top_of km q) p = Some T' ∧ pieces T' v1 v2 pl pr ps q p o.
Proof using Hnd.
  intros H Hne0. open_pieces H. destruct (kseg_reparent T top km q p) as (T' & E & Ht & Er & Hag); [done.. |].
  exists T'. split; [done |]. split; rewrite ?Er; first [done | transport Hag].
Qed.

Lemma pieces_out p x T v1 v2 pl pr ps q top : pieces T v1 v2 pl pr ps q top (Some x) → x ∉ kaddrs k →
  ∃ T', attach T (par k) (side_of T (par k) (Some x)) p = Some T' ∧ pieces T' v1 v2 pl pr ps q top p.
Proof using Hnd.
  intros H Hx. open_pieces H. destruct (attach_spec T x k p) as (T' & E & Ht & Hag); [done.. |].
  exists T'. split; [done |]. split; first [done | transport Hag].
Qed.

Lemma pieces_of_zrep T b1 b2 : zrep T (Node l2 n2 b2 r2) (km ++ Frame false n1 b1 s :: k) →
  pieces T (mk_BAVLNode (par k) (top_of km (Some n2)) (root_of s) b1)
    (mk_BAVLNode (par_in (Some n1) km) (root_of l2) (root_of r2) b2)
    (Some n2) (Some n2) (Some n1) (Some n2) (Some n1) (Some n1).
Proof using Type.
  intros (Ht & Hk & _). rewrite krep_app in Hk. rewrite par_app in Ht. simpl in Ht, Hk.
  destruct Ht as (? & ? & ?), Hk as (? & ? & ? & ?). by split.
Qed.

Lemma pieces_swapped T b1 b2 :
  pieces T (mk_BAVLNode (par_in (Some n2) km) (root_of l2) (root_of r2) b2)
    (mk_BAVLNode (par k) (top_of km (Some n1)) (root_of s) b1)
    (Some n1) (Some n1) (Some n2) (Some n1) (Some n2) (Some n2) →
  zrep T (Node l2 n1 b2 r2) (km ++ Frame false n2 b1 s :: k).
Proof using Hnd.
  intros []. split; [| split].
  - rewrite par_app. simpl. done.
  - rewrite krep_app. simpl. split_and!; done.
  - rewrite kaddrs_app. eapply NoDup_Permutation_proper; [| exact Hnd]. simpl. solve_Permutation.
Qed.

(** Executes the next load or store on the parts. *)
Ltac piece_with lem :=
  let T' := fresh "T" in let E := fresh "E" in let H' := fresh "Hp" in
  destruct lem as (T' & E & H'); [try (done || set_solver).. |]; rewrite E; clear E; simpl in H'.
Ltac piece_step :=
  match goal with
  | H : pieces ?T ?v1 _ _ _ _ _ _ _ |- context [get_link ?T (Some n1) ?d] =>
      change (get_link T (Some n1) d) with (a_link d <$> (a_nodes T !! n1)); rewrite (pc_n1 _ _ _ _ _ _ _ _ _ H); cbn [fmap option_fmap option_map a_link a_link0 a_link1]
  | H : pieces ?T _ ?v2 _ _ _ _ _ _ |- context [get_link ?T (Some n2) ?d] =>
      change (get_link T (Some n2) d) with (a_link d <$> (a_nodes T !! n2)); rewrite (pc_n2 _ _ _ _ _ _ _ _ _ H); cbn [fmap option_fmap option_map a_link a_link0 a_link1]
  | H : pieces ?T ?v1 _ _ _ _ _ _ _ |- context [get_parent ?T (Some n1)] =>
      change (get_parent T (Some n1)) with (a_parent <$> (a_nodes T !! n1)); rewrite (pc_n1 _ _ _ _ _ _ _ _ _ H); cbn [fmap option_fmap option_map a_parent]
  | H : pieces ?T _ ?v2 _ _ _ _ _ _ |- context [get_parent ?T (Some n2)] =>
      change (get_parent T (Some n2)) with (a_parent <$> (a_nodes T !! n2)); rewrite (pc_n2 _ _ _ _ _ _ _ _ _ H); cbn [fmap option_fmap option_map a_parent]
  | H : pieces ?T _ _ _ _ _ _ _ _ |- context [wr ?f ?T (Some n1)] => piece_with (pieces_n1 f _ _ _ _ _ _ _ _ _ H)
  | H : pieces ?T _ _ _ _ _ _ _ _ |- context [wr ?f ?T (Some n2)] => piece_with (pieces_n2 f _ _ _ _ _ _ _ _ _ H)
  | H : pieces ?T _ _ _ _ _ _ _ _ |- context [set_parent_if ?T (root_of l2) ?p] => piece_with (pieces_l2 p _ _ _ _ _ _ _ _ _ H)
  | H : pieces ?T _ _ _ _ _ _ _ _ |- context [set_parent_if ?T (root_of r2) ?p] => piece_with (pieces_r2 p _ _ _ _ _ _ _ _ _ H)
  | H : pieces ?T _ _ _ _ _ _ _ _ |- context [set_parent_if ?T (root_of s) ?p] => piece_with (pieces_s p _ _ _ _ _ _ _ _ _ H)
  | H : pieces ?T _ _ _ _ _ _ _ _ |- context [set_parent_if ?T (top_of km _) ?p] => piece_with (pieces_top p _ _ _ _ _ _ _ _ _ H)
  | H : pieces ?T _ _ _ _ _ _ _ _ |- context [attach ?T (par k) (side_of ?T (par k) (Some ?x)) ?p] =>
      piece_with (pieces_out p x _ _ _ _ _ _ _ _ H)
  | H : pieces ?T _ _ _ _ _ _ _ _ |- context [attach ?T (par km) (side_of ?T (par km) (Some ?x)) ?p] =>
      piece_with (pieces_hole p x _ _ _ _ _ _ _ _ H)
  end; rewrite ?option_bind_Some.

Lemma swap_balance_spec T b1 b2 p1 p2 x1 x2 y1 y2 pl pr ps q top o :
  pieces T (mk_BAVLNode p1 x1 y1 b1) (mk_BAVLNode p2 x2 y2 b2) pl pr ps q top o →
  ∃ T', swap_balance T (Some n1) (Some n2) = Some T' ∧
    pieces T' (mk_BAVLNode p1 x1 y1 b2) (mk_BAVLNode p2 x2 y2 b1) pl pr ps q top o.
Proof using Hnd.
  intros H. unfold swap_balance. rewrite (rd_known T n1 _ (pc_n1 _ _ _ _ _ _ _ _ _ H)), option_bind_Some.
  rewrite (rd_known T n2 _ (pc_n2 _ _ _ _ _ _ _ _ _ H)), option_bind_Some. unfold put_balance.
  destruct (pieces_n1 (λ n, n <| balance := balance (mk_BAVLNode p2 x2 y2 b2) |>) _ _ _ _ _ _ _ _ _ H) as (T1 & -> & H1).
  rewrite option_bind_Some.
  destruct (pieces_n2 (λ n, n <| balance := balance (mk_BAVLNode p1 x1 y1 b1) |>) _ _ _ _ _ _ _ _ _ H1) as (T2 & -> & H2). eauto.
Qed.

Lemma swap_apart_spec T b1 b2 : km ≠ [] → zrep T (Node l2 n2 b2 r2) (km ++ Frame false n1 b1 s :: k) →
  ∃ T', (t ← swap_apart T (Some n1) (Some n2); swap_balance t (Some n1) (Some n2)) = Some T' ∧
    zrep T' (Node l2 n1 b2 r2) (km ++ Frame false n2 b1 s :: k).
Proof using Hnd.
  intros Hkm Hp%pieces_of_zrep. destruct parts_disjoint as (Hne & Hn1 & Hn2 & _).
  rewrite par_in_any in Hp by done.
  unfold swap_apart, swap_children, put_link, put_parent.
  repeat piece_step. rewrite (top_of_any km (Some n2) (Some n1)) by done. repeat piece_step.
  match goal with H : pieces ?T _ _ _ _ _ _ _ _ |- context [swap_balance ?T _ _] =>
    destruct (swap_balance_spec _ _ _ _ _ _ _ _ _ _ _ _ _ _ _ H) as (T' & E & Hp') end.
  rewrite E. exists T'. split; [done |]. apply pieces_swapped. rewrite par_in_any by done.
  by rewrite (top_of_any km (Some n1) (Some n2)).
Qed.

Lemma swap_adjacent_spec T b1 b2 : km = [] → zrep T (Node l2 n2 b2 r2) (Frame false n1 b1 s :: k) →
  ∃ T', (t ← swap_adjacent T (Some n1) (Some n2); swap_balance t (Some n1) (Some n2)) = Some T' ∧
    zrep T' (Node l2 n1 b2 r2) (Frame false n2 b1 s :: k).
Proof using Hnd.
  intros Hkm Hz. destruct parts_disjoint as (Hne & Hn1 & Hn2 & _).
  assert (side_of T (Some n1) (Some n2) = Some false) as Hside.
  { pose proof Hz as (_ & Hk & Hnd'). apply (side_of_known T n2 (Frame false n1 b1 s) k Hk). simpl. set_solver. }
  pose proof (pieces_of_zrep T b1 b2) as Hp. rewrite Hkm in Hp. specialize (Hp Hz). cbn [top_of par_in] in Hp.
  unfold swap_adjacent, put_link, put_parent. rewrite Hside, option_bind_Some. cbn [negb].
  repeat piece_step.
  match goal with H : pieces ?T _ _ _ _ _ _ _ _ |- context [swap_balance ?T _ _] =>
    destruct (swap_balance_spec _ _ _ _ _ _ _ _ _ _ _ _ _ _ _ H) as (T' & E & Hp') end.
  rewrite E. exists T'. split; [done |]. pose proof (pieces_swapped T' b1 b2) as Hq. rewrite Hkm in Hq. apply Hq. cbn [top_of par_in].
  destruct Hp'. split; try done. by rewrite Hkm.
Qed.

Lemma swap_nodes_spec T b1 b2 : zrep T (Node l2 n2 b2 r2) (km ++ Frame false n1 b1 s :: k) →
  ∃ T', _BAVL_swap_nodes T (Some n1) (Some n2) = Some T' ∧ zrep T' (Node l2 n1 b2 r2) (km ++ Frame false n2 b1 s :: k).
Proof using Hnd.
  intros Hz. pose proof (pieces_of_zrep T b1 b2 Hz) as Hp. destruct parts_disjoint as (Hne & Hn1 & Hn2 & _).
  unfold _BAVL_swap_nodes. do 2 piece_step.
  assert (par k ≠ Some n2) as Hpk by (destruct k; simpl in *; [done | intros [= E]; set_solver]).
  rewrite (bool_decide_eq_false_2 _ Hpk), orb_false_r.
  destruct (decide (km = [])) as [Hkm | Hkm].
  - pose proof (swap_adjacent_spec T b1 b2 Hkm) as H. rewrite Hkm in Hz |- *. cbn [par_in].
    rewrite bool_decide_eq_true_2 by done. by apply H.
  - rewrite par_in_any by done. rewrite bool_decide_eq_false_2; [by apply swap_apart_spec |].
    destruct km; simpl in *; [done |]. intros [= E]. set_solver.
Qed.

End swap.

(** ** The greatest node of a subtree *)

Lemma subtree_max_spec T fuel : ∀ t k pp, trep (a_nodes T) pp t → t ≠ Leaf → height t ≤ Z.of_nat fuel →
  ∃ ml m mb km, subtree_max_loop fuel T (root_of t) = Some (Some m) ∧ plug t k = plug (Node ml m mb Leaf) (km ++ k) ∧
    t = plug (Node ml m mb Leaf) km ∧ kr km = [].
Proof.
  induction fuel as [| fuel IH]; intros t k pp Ht Hl Hh; (destruct t as [| l x b r]; [done |]);
    pose proof (height_nonneg l); pose proof (height_nonneg r); simpl in Hh; [lia |].
  destruct Ht as (Hx & _ & Hr). simpl. unfold get_link. rewrite (rd_known _ _ _ Hx). simpl. destruct r as [| r1 y b2 r2].
  - simpl. by exists l, x, b, [].
  - cbn [root_of nonnull].
    destruct (IH (Node r1 y b2 r2) (Frame true x b l :: k) (Some x) Hr) as (ml & m & mb & km & E & Ep & Et & Ek); [done | lia |].
    exists ml, m, mb, (km ++ [Frame true x b l]). split_and!; [exact E | by rewrite <- app_assoc | by rewrite plug_app, <- Et |].
    by rewrite kr_app, Ek.
Qed.

(** ** Removal *)

(** The balance of a context does not depend on the addresses in it. *)
Lemma kavl_relabel km d x y b s k : ∀ h, kavl h (km ++ Frame d x b s :: k) → kavl h (km ++ Frame d y b s :: k).
Proof. induction km as [| f km IH]; intros h; [intros H; exact H |]. intros (? & ? & ? & ?). do 3 (split; [done |]). by apply IH. Qed.

(** What the removed node had below it takes its place. *)
Lemma replace_subtree_spec T l x b r c k : zrep T (Node l x b r) k → (l = Leaf ∧ c = r) ∨ (r = Leaf ∧ c = l) →
  ∃ T', _BAVL_replace_subtree T (Some x) (root_of c) = Some T' ∧ zrep T' c k.
Proof.
  intros (Ht & Hk & Hnd) Hc. simpl in Ht, Hk, Hnd. destruct Ht as (Hx & Hl & Hr).
  assert (trep (a_nodes T) (Some x) c) as HC by (by destruct Hc as [[_ ->] | [_ ->]]).
  assert (NoDup (x :: addrs c ++ kaddrs k)) as Hn.
  { eapply NoDup_Permutation_proper; [| exact Hnd]. destruct Hc as [[-> ->] | [-> ->]]; simpl; solve_Permutation. }
  apply NoDup_cons in Hn as [Hxn Hn]. pose proof Hn as (Hnc & Hd & Hnk)%NoDup_app.
  unfold _BAVL_replace_subtree. cbn [nonnull]. rewrite ASSERT_seq by done.
  unfold get_parent. rewrite (rd_known _ _ _ Hx). cbn [fmap option_fmap option_map a_parent]. rewrite option_bind_Some.
  destruct (attach_spec T x k (root_of c) Hk) as (T1 & E1 & Hk1 & Hag1); [set_solver | done |].
  rewrite E1, option_bind_Some.
  destruct (set_parent_if_spec T1 (Some x) c (par k)) as (T2 & E2 & HC2 & Hr2 & Hag2); [| done |].
  { eapply trep_agree; [| exact HC]. intros y Hy. apply Hag1. by apply Hd. }
  exists T2. split; [done |]. split; [done |]. split; [| done]. rewrite Hr2. eapply krep_agree; [| exact Hk1].
  intros y Hy. apply Hag2. intros Hyc. by apply (Hd y).
Qed.

Lemma remove_low T l x b r k : zrep T (Node l x b r) k → avl (plug (Node l x b r) k) → l = Leaf ∨ r = Leaf →
  ∃ T' t', (n ← a_nodes T !! x;
      ASSERT (negb (nonnull (a_link0 n) && nonnull (a_link1 n)));;
      let parent := a_parent n in
      let child := if nonnull (a_link0 n) then a_link0 n else a_link1 n in
      if nonnull parent then
        side ← side_of T parent (Some x);
        t ← _BAVL_replace_subtree T (Some x) child;
        _BAVL_rebalance (tree_fuel t) t parent side (-1)
      else _BAVL_replace_subtree T (Some x) child) = Some T' ∧
    zrep T' t' [] ∧ avl t' ∧ addrs t' = kl k ++ addrs l ++ addrs r ++ kr k.
Proof.
  intros Hz Ha Hlr. pose proof Hz as ((Hx & _ & _) & Hk & Hnd). simpl in Hk. apply avl_plug in Ha as [(Hb & Hb1 & Hal & Har) Hka].
  set (c := match l with Leaf => r | _ => l end).
  assert ((l = Leaf ∧ c = r) ∨ (r = Leaf ∧ c = l)) as Hc
    by (subst c; destruct l; [by left | right; split; [by destruct Hlr | done]]).
  assert (avl c ∧ height c = height (Node l x b r) - 1) as [Hac Hhc].
  { pose proof (height_nonneg l). pose proof (height_nonneg r).
    destruct Hc as [[-> ->] | [-> ->]]; (split; [done |]); simpl in *; lia. }
  rewrite Hx, option_bind_Some. cbn [a_link0 a_link1 a_parent].
  rewrite ASSERT_seq by (destruct Hlr as [-> | ->]; [done | by destruct l]). cbv zeta.
  assert ((if nonnull (root_of l) then root_of l else root_of r) = root_of c) as -> by (subst c; by destruct l).
  destruct (replace_subtree_spec T l x b r c k Hz Hc) as (T1 & E1 & Hz1).
  assert (kl k ++ addrs l ++ addrs r ++ kr k = addrs (plug c k)) as ->
    by (rewrite addrs_split; destruct Hc as [[-> ->] | [-> ->]]; done).
  destruct k as [| f k]; cbn [par nonnull].
  - rewrite E1. by exists T1, c.
  - rewrite (side_of_known T x f k), option_bind_Some; [| exact Hk |].
    2: { apply NoDup_app in Hnd as (_ & Hd & _). apply Hd. simpl. set_solver. }
    rewrite E1, option_bind_Some.
    destruct (rebalance_spec (tree_fuel T1) T1 c f k (-1) (height (Node l x b r)) Hz1) as (T2 & t2 & E2 & H2);
      [done | lia | done | lia | apply zrep_context_fuel in Hz1; simpl in Hz1; lia |].
    by exists T2, t2.
Qed.

Lemma remove_spec T t x : zrep T t [] → avl t → x ∈ addrs t →
  ∃ T' t', avl_Remove T x = Some T' ∧ zrep T' t' [] ∧ avl t' ∧ addrs t' = filter (λ y, y ≠ x) (addrs t).
Proof.
  intros Hz Ha Hx. destruct (plug_focus x t [] Hx) as (l & b & r & k & E). rewrite app_nil_r in E. simpl in E. subst t.
  pose proof Hz as (_ & _ & Hnd). simpl in Hnd. rewrite app_nil_r, addrs_split in Hnd. simpl in Hnd.
  assert (filter (λ y, y ≠ x) (addrs (plug (Node l x b r) k)) = (kl k ++ addrs l) ++ addrs r ++ kr k) as ->.
  { rewrite addrs_split. simpl. rewrite <- app_assoc, <- app_comm_cons, app_assoc. apply filter_ne_split.
    by rewrite <- app_assoc, <- app_comm_cons, app_assoc in Hnd. }
  rewrite <- zrep_plug in Hz. pose proof Hz as ((Hn & Hl & _) & _ & _). unfold avl_Remove. rewrite Hn, option_bind_Some.
  cbn [a_link0 a_link1]. assert ((l = Leaf ∨ r = Leaf) ∨ (l ≠ Leaf ∧ r ≠ Leaf)) as [Hlr | [Hll Hrr]] by (destruct l, r; naive_solver).
  - assert (nonnull (root_of l) && nonnull (root_of r) = false) as -> by (destruct Hlr as [-> | ->]; [done | by destruct l]).
    rewrite option_bind_Some, <- app_assoc. by apply (remove_low T l x b r k).
  - assert (nonnull (root_of l) && nonnull (root_of r) = true) as -> by (by destruct l, r).
    unfold _BAVL_subtree_max. rewrite ASSERT_seq by (by destruct l).
    assert (zrep T l (Frame false x b r :: k)) as Hzl by (by rewrite zrep_up).
    destruct (subtree_max_spec T (tree_fuel T) l (Frame false x b r :: k) (Some x) Hl Hll) as (ml & m & mb & km & -> & Ep & El & Ekm);
      [apply Z.lt_le_incl; by eapply zrep_height_fuel |]. rewrite !option_bind_Some.
    change (plug (Node l x b r) k) with (plug l (Frame false x b r :: k)) in Ha. rewrite Ep in Ha.
    rewrite zrep_plug, Ep, <- zrep_plug in Hzl.
    destruct (swap_nodes_spec x m ml Leaf r km k) with (T := T) (b1 := b) (b2 := mb) as (T1 & -> & Hz1); [| done |].
    { destruct Hzl as (_ & _ & Hnd'). eapply NoDup_Permutation_proper; [| exact Hnd']. rewrite kaddrs_app. simpl. solve_Permutation. }
    rewrite option_bind_Some.
    destruct (remove_low T1 ml x mb Leaf (km ++ Frame false m b r :: k) Hz1) as (T2 & t2 & ER & Hz2 & Ha2 & E2); [| by right |].
    { apply avl_plug in Ha as [Ha1 Ha2]. eapply kavl_plug; [exact Ha1 | reflexivity |]. by eapply kavl_relabel. }
    exists T2, t2. split; [exact ER |]. split; [done |]. split; [done |]. rewrite E2, El, kl_app, kr_app, addrs_split, Ekm. simpl. by rewrite !app_nil_r, <- !app_assoc.
Qed.
