(* ===== verification/BAVLLaws.v ===== *)
(** * What BAVL.h promises

    The in-order sequence of a tree, the theorems on insertion, removal, lookup,
    iteration, verification and height, and the instance of [SearchTree]: the
    components verified against that interface run on the real tree. *)
From Stdlib Require Import Sorted.
From stdpp Require Import sorting.
From S2P Require Import Prelude LinkedLists SearchTree BAVL BAVLTree.

(** ** The sequence a heap holds *)

Fixpoint seq_at (fuel : nat) (h : gmap addr BAVLNode) (p : ptr) : list addr :=
  match fuel, p with
  | S fuel, Some x =>
      match h !! x with
      | Some n => seq_at fuel h (a_link0 n) ++ x :: seq_at fuel h (a_link1 n)
      | None => []
      end
  | _, _ => []
  end.

Definition avl_seq (T : BAVL) : list addr := seq_at (tree_fuel T) (a_nodes T) (a_root T).

(** The heap holds a balanced tree of distinct nodes with consistent links. *)
Definition avl_ok (T : BAVL) : Prop := ∃ t, zrep T t [] ∧ avl t.

Lemma seq_at_trep h fuel : ∀ t pp, trep h pp t → height t ≤ Z.of_nat fuel → seq_at fuel h (root_of t) = addrs t.
Proof.
  induction fuel as [| fuel IH]; intros t pp Ht Hh; (destruct t as [| l x b r]; [done |]);
    pose proof (height_nonneg l); pose proof (height_nonneg r); simpl in Hh; [lia |].
  destruct Ht as (Hx & Hl & Hr). simpl. rewrite Hx. cbn [a_link0 a_link1]. by rewrite (IH l _ Hl), (IH r _ Hr) by lia.
Qed.

Lemma avl_seq_zrep T t : zrep T t [] → avl_seq T = addrs t.
Proof.
  intros Hz. pose proof Hz as (Ht & Hk & _). unfold avl_seq. simpl in Hk. rewrite Hk. eapply seq_at_trep; [done |].
  apply Z.lt_le_incl. by eapply zrep_height_fuel.
Qed.

Lemma avl_ok_open T : avl_ok T → ∃ t, zrep T t [] ∧ avl t ∧ avl_seq T = addrs t.
Proof. intros (t & Hz & Ha). exists t. by rewrite (avl_seq_zrep T t Hz). Qed.

Lemma avl_ok_NoDup T : avl_ok T → NoDup (avl_seq T).
Proof. intros (t & (_ & _ & Hnd) & _ & ->)%avl_ok_open. simpl in Hnd. by rewrite app_nil_r in Hnd. Qed.

Lemma avl_init_ok : avl_ok avl_Init ∧ avl_seq avl_Init = [].
Proof. split; [| done]. exists Leaf. split; [| done]. split_and!; done || constructor. Qed.

(** ** Sequences with the same order *)

Section sorted.
Context {K : Type} (P : K → Prop) (cmp : K → K → Z) (val : addr → option K).
Context (Hko : key_order P cmp).

(** The order determines the sequence. *)
Lemma in_order_unique l1 l2 : in_order P cmp val l1 → in_order P cmp val l2 → l1 ≡ₚ l2 → l1 = l2.
Proof using Hko.
  intros [Hk1 Hs1] [_ Hs2] Hp. apply (StronglySorted_unique_strong (before_key cmp val)); [| done..].
  intros x y Hx Hy (kx & ky & Ex & Ey & E) (ky' & kx' & Ey' & Ex' & E'). simplify_eq.
  destruct (Hk1 x) as (? & ? & ?); [done |]. destruct (Hk1 y) as (? & ? & ?); [by rewrite Hp in * |]. simplify_eq.
  rewrite (ko_anti _ _ Hko kx ky) in E' by done. lia.
Qed.
End sorted.

(** ** Each operation against the sequence *)

Section simulation.
Context {K : Type} (P : K → Prop) (cmp : K → K → Z) (val : addr → option K).
Context (Hko : key_order P cmp).

Lemma seq_insert_dup x y k : val x = Some k → P k → val y = Some k → ∀ t, in_order P cmp val t → y ∈ t →
  seq_tree.insert cmp val t x = Some (t, false).
Proof using Hko.
  intros Ex HP Ey. induction t as [| z t IH]; intros [Hk Hs] Hy; [set_solver |]. simpl.
  destruct (Hk z) as (kz & Ez & HPz); [set_solver |]. rewrite Ex, Ez. cbn [mbind option_bind].
  apply StronglySorted_inv in Hs as [Hs Hf]. rewrite Forall_forall in Hf. destruct (cmp k kz =? 0) eqn:E; [done | b2p].
  assert (y ∈ t) as Hyt.
  { apply elem_of_cons in Hy as [-> | Hy]; [| done]. simplify_eq. exfalso. apply E. by apply (ko_zero _ _ Hko). }
  destruct (Hf y Hyt) as (? & ? & ? & ? & Hc). simplify_eq. rewrite (ko_anti _ _ Hko kz k), Hc by done. cbn.
  rewrite IH; [done | | done]. split; [intros w Hw; apply Hk; set_solver | done].
Qed.

Lemma insert_sim T x k : avl_ok T → in_order P cmp val (avl_seq T) → x ∉ avl_seq T → val x = Some k → P k →
  ∃ T' ok, avl_Insert cmp val T x = Some (T', ok) ∧ avl_ok T' ∧ in_order P cmp val (avl_seq T') ∧
    seq_tree.insert cmp val (avl_seq T) x = Some (avl_seq T', ok).
Proof using Hko.
  intros (t & Hz & Ha & Es)%avl_ok_open Ho Hx Ex HP. rewrite Es in *.
  destruct (avl_insert_spec P cmp val k Hko HP T t x Hz Ha Ho Hx Ex) as [(E & y & Hy & Ey) | (Hne & T' & t' & E & Hz' & Ha' & Ho' & Hp)].
  - exists T, false. rewrite Es. split_and!; [done | by exists t | done | by eapply seq_insert_dup].
  - exists T', true. rewrite (avl_seq_zrep _ _ Hz'). split_and!; [done | by exists t' | done |].
    destruct (seq_tree.insert_spec P cmp val x k Hko Ex HP (addrs t) Ho Hne) as (l & -> & Hol & Hpl).
    do 2 f_equal. apply (in_order_unique P cmp val Hko); [done.. |]. by rewrite Hp, Hpl.
Qed.

Lemma remove_sim T x : avl_ok T → x ∈ avl_seq T →
  ∃ T', avl_Remove T x = Some T' ∧ avl_ok T' ∧ avl_seq T' = filter (λ y, y ≠ x) (avl_seq T).
Proof using Type.
  intros (t & Hz & Ha & ->)%avl_ok_open Hx. destruct (remove_spec T t x Hz Ha Hx) as (T' & t' & E & Hz' & Ha' & Es).
  exists T'. rewrite (avl_seq_zrep _ _ Hz'). split_and!; [done | by exists t' | done].
Qed.

(** Where the descent ends. *)
Lemma descend_found T t k : zrep T t [] → in_order P cmp val (addrs t) → P k →
  match descend (against cmp val k) t [] with
  | (Leaf, k') => (∀ x, x ∈ addrs t → val x ≠ Some k) ∧ addrs t = kl k' ++ kr k' ∧
      Forall (lower P cmp val k) (kl k') ∧ Forall (upper P cmp val k) (kr k')
  | (Node _ x _ _, _) => x ∈ addrs t ∧ val x = Some k
  end.
Proof using Hko.
  intros Hz Ho HP. pose proof (descend_plug (against cmp val k) t []) as Hp.
  pose proof (descend_order P cmp val k Hko HP t [] Ho) as Hd.
  destruct (descend _ _ _) as [[| l x b r] k']; [| by destruct Hd as [? ?]; [constructor.. |]].
  destruct Hd as [Hl Hu]; [constructor.. |]. simpl in Hp. rewrite <- Hp, addrs_split. simpl. split_and!; [| done..].
  intros y. rewrite elem_of_app. rewrite Forall_forall in Hl, Hu.
  intros [Hy | Hy]; [by eapply lower_ne, Hl | by eapply upper_ne, Hu].
Qed.

Lemma lookup_found fuel T t x k : zrep T t [] → in_order P cmp val (addrs t) → P k → root_of t = Some x → height t ≤ Z.of_nat fuel →
  lookup_exact_loop cmp val fuel T k x = seq_tree.lookup cmp val (addrs t) k.
Proof using Hko.
  intros Hz Ho HP Hr Hh. destruct Hz as (Ht & Hk & Hnd).
  rewrite (lookup_exact_loop_spec P cmp val k Hko HP T fuel t x None Ht (proj1 Ho) Hr Hh).
  destruct (seq_tree.lookup_spec P cmp val k Hko HP (addrs t) (proj1 Ho)) as (r & -> & Hr').
  pose proof (descend_found T t k (conj Ht (conj Hk Hnd)) Ho HP) as Hd. unfold found_exact. f_equal.
  destruct (descend _ _ _) as [[| l y b' r'] k']; simpl.
  - destruct r as [y |]; [| done]. destruct Hr' as [Hy Ey]. by destruct (proj1 Hd y Hy).
  - destruct Hd as [Hy Ey]. destruct r as [z |]; [| by destruct (Hr' y Hy)]. destruct Hr' as [Hz Ez].
    f_equal. by eapply (in_order_inj P cmp val (addrs t)).
Qed.

Lemma lookup_sim T k : avl_ok T → in_order P cmp val (avl_seq T) → P k →
  avl_LookupExact cmp val T k = seq_tree.lookup cmp val (avl_seq T) k.
Proof using Hko.
  intros (t & Hz & Ha & Es)%avl_ok_open Ho HP. rewrite Es in *. unfold avl_LookupExact.
  pose proof Hz as (_ & Hk & _). simpl in Hk. rewrite Hk. destruct (root_of t) as [x |] eqn:Er.
  - apply lookup_found; [done.. |]. apply Z.lt_le_incl. by eapply zrep_height_fuel.
  - by destruct t.
Qed.

End simulation.

#[export] Instance avl_search_tree : SearchTree BAVL.
Proof.
  refine {| BAVL_Init := avl_Init; BAVL_Insert := @avl_Insert; BAVL_LookupExact := @avl_LookupExact;
    BAVL_Remove := avl_Remove; tree_ok := avl_ok; tree_seq := avl_seq |}.
  - apply avl_init_ok.
  - intros K P cmp val t x k Hko Hok Ho Hx Ex HP Hne.
    destruct (insert_sim P cmp val Hko t x k Hok Ho Hx Ex HP) as (t' & ok & E & Hok' & Ho' & Es).
    destruct (seq_tree.insert_spec P cmp val x k Hko Ex HP (avl_seq t) Ho Hne) as (l & El & _ & Hp).
    rewrite El in Es. injection Es as -> <-. eauto.
  - apply remove_sim.
  - intros K P cmp val t k Hko Hok Ho HP. rewrite (lookup_sim P cmp val Hko t k Hok Ho HP).
    by apply (seq_tree.lookup_spec P cmp val k Hko HP), Ho.
Defined.

(** ** Iteration *)

(** The end of a sequence on side [d]. *)
Definition edge (d : bool) (l : list addr) : option addr := if d then last l else head l.

Lemma chain_end_spec T d fuel : ∀ t x pp, trep (a_nodes T) pp t → root_of t = Some x → height t ≤ Z.of_nat fuel →
  ∃ y, chain_end fuel T x d = Some y ∧ edge d (addrs t) = Some y.
Proof.
  induction fuel as [| fuel IH]; intros t x pp Ht Hr Hh; (destruct t as [| l x' b r]; [done |]); injection Hr as ->;
    pose proof (height_nonneg l); pose proof (height_nonneg r); simpl in Hh; [lia |].
  destruct Ht as (Hx & Hl & Hr). simpl. unfold get_link. rewrite (rd_known _ _ _ Hx). destruct d; cbn.
  - destruct r as [| r1 y b2 r2]; cbn [root_of].
    + exists x. split; [done |]. simpl. by rewrite last_snoc.
    + destruct (IH _ y _ Hr) as (z & Ez & El); [done | lia |]. exists z. split; [done |]. simpl in El |- *. by rewrite last_app_cons, last_cons, El.
  - destruct l as [| l1 y b2 l2]; cbn [root_of].
    + by exists x.
    + destruct (IH _ y _ Hl) as (z & Ez & El); [done | lia |]. exists z. split; [done |]. simpl in El |- *.
      destruct (addrs l1); simpl in *; done.
Qed.

Lemma climb_spec T d fuel : ∀ t x k, zrep T t k → root_of t = Some x → (length k < fuel)%nat →
  climb fuel T x d = Some (edge (negb d) (if d then kr k else kl k)).
Proof.
  induction fuel as [| fuel IH]; intros t x k Hz Hr Hf; [lia |]. cbn [climb].
  destruct (root_of_Some T t k Hz) as (x' & Ex & Hxk & Ep); [by intros -> |]. rewrite Hr in Ex. injection Ex as <-.
  rewrite Ep, option_bind_Some. destruct k as [| [e q b s] k]; cbn [par f_addr]; [by destruct d |].
  pose proof Hz as (_ & (Hq & _ & _) & _). simpl in Hq. rewrite Hr in Hq.
  destruct (decide (e = d)) as [-> | Hne].
  - rewrite (get_link_s _ _ _ _ _ _ _ Hq), option_bind_Some, bool_decide_eq_true_2 by done.
    rewrite (IH (plug1 t (Frame d q b s)) q k); [| by apply zrep_up | apply root_of_nd | simpl in Hf; lia].
    destruct d; simpl; by rewrite ?app_nil_r.
  - assert (d = negb e) as -> by (by destruct d, e).
    rewrite (get_link_o _ _ _ _ _ _ _ Hq), option_bind_Some, bool_decide_eq_false_2.
    + f_equal. destruct e; simpl; [| done]. by rewrite app_assoc, last_snoc.
    + destruct s; simpl in *; [done |]. intros [= ->]. set_solver.
Qed.

Lemma neighbour_spec T l x b r k : zrep T (Node l x b r) k →
  neighbour T x true = Some (head (addrs r ++ kr k)) ∧ neighbour T x false = Some (last (kl k ++ addrs l)).
Proof.
  intros Hz. pose proof (zrep_height_fuel _ _ _ Hz) as Hf. pose proof (zrep_context_fuel _ _ _ Hz) as Hf'.
  pose proof Hz as ((Hx & Hl & Hr) & _ & _). simpl in Hf. pose proof (height_nonneg l). pose proof (height_nonneg r).
  unfold neighbour, get_link. rewrite (rd_known _ _ _ Hx). cbn [fmap option_fmap option_map a_link a_link0 a_link1].
  rewrite !option_bind_Some. split.
  - destruct r as [| r1 y b2 r2]; cbn [root_of]; [by rewrite (climb_spec T true _ _ x k Hz) |].
    destruct (chain_end_spec T false (tree_fuel T) _ y _ Hr) as (z & Ez & Ee); [done | lia |]. cbn [negb]. rewrite Ez.
    simpl in Ee |- *. destruct (addrs r1); simpl in *; congruence.
  - destruct l as [| l1 y b2 l2]; cbn [root_of]; [rewrite (climb_spec T false _ _ x k Hz) by done; simpl; by rewrite app_nil_r |].
    destruct (chain_end_spec T true (tree_fuel T) _ y _ Hl) as (z & Ez & Ee); [done | lia |]. cbn [negb]. rewrite Ez.
    simpl in Ee |- *. rewrite app_assoc, last_app_cons. rewrite last_app_cons in Ee. by rewrite Ee.
Qed.

Lemma iteration_seq T l1 x l2 : avl_ok T →
  avl_GetFirst T = Some (head (avl_seq T)) ∧ avl_GetLast T = Some (last (avl_seq T)) ∧
  (avl_seq T = l1 ++ x :: l2 → avl_GetNext T x = Some (head l2) ∧ avl_GetPrev T x = Some (last l1)).
Proof.
  intros Hok. pose proof (avl_ok_NoDup T Hok) as Hnd. apply avl_ok_open in Hok as (t & Hz & Ha & Es). rewrite Es in *.
  pose proof Hz as (Ht & Hk & _). simpl in Hk. pose proof (zrep_height_fuel _ _ _ Hz) as Hf.
  assert (∀ d, match a_root T with None => Some None | Some n => Some <$> chain_end (tree_fuel T) T n d end = Some (edge d (addrs t))) as He.
  { intros d. rewrite Hk. destruct (root_of t) as [y |] eqn:Er; [| by destruct t, d].
    destruct (chain_end_spec T d (tree_fuel T) t y None Ht Er) as (z & -> & ->); [lia | done]. }
  split; [apply (He false) |]. split; [apply (He true) |]. intros E.
  destruct (plug_focus x t []) as (l & b & r & k & Ep); [rewrite E; set_solver |]. rewrite app_nil_r in Ep. simpl in Ep. subst t.
  rewrite <- zrep_plug in Hz. destruct (neighbour_spec T l x b r k Hz) as [Hn Hp].
  rewrite addrs_split in E, Hnd. simpl in E, Hnd. rewrite <- app_assoc, <- app_comm_cons, app_assoc in E, Hnd.
  destruct (split_unique _ _ _ _ _ Hnd E) as [<- <-]. done.
Qed.

(** ** The height *)

Lemma height_pow t : avl t → 2 ^ (height t / 2) ≤ Z.of_nat (length (addrs t)) + 1.
Proof.
  induction t as [| l IHl x b r IHr]; intros Ha; [done |]. simpl in Ha. destruct Ha as (Hb & Hr & Hal & Har).
  specialize (IHl Hal). specialize (IHr Har). simpl. rewrite length_app. simpl.
  pose proof (height_nonneg l). pose proof (height_nonneg r). set (m := Z.max (height l) (height r)).
  destruct (decide (m = 0)) as [-> |]; [change (2 ^ ((0 + 1) / 2)) with 1; lia |].
  assert (2 ^ ((m + 1) / 2) = 2 * 2 ^ ((m - 1) / 2)) as ->.
  { replace (m + 1) with (m - 1 + 1 * 2) by lia. rewrite Z.div_add, Z.pow_add_r by (try apply Z.div_pos; lia). lia. }
  assert (∀ h, m - 1 ≤ h → 2 ^ ((m - 1) / 2) ≤ 2 ^ (h / 2)) as Hm.
  { intros h Hh. apply Z.pow_le_mono_r; [lia |]. apply Z.div_le_mono; lia. }
  pose proof (Hm (height l) ltac:(lia)). pose proof (Hm (height r) ltac:(lia)). lia.
Qed.

(** The turns of a descent in a tree of [n] nodes. *)
Definition avl_turns (n : nat) : nat := Z.to_nat (2 * Z.log2 (Z.of_nat n + 1) + 1).

Lemma height_log t : avl t → height t ≤ Z.of_nat (avl_turns (length (addrs t))).
Proof.
  intros Ha. pose proof (height_pow t Ha) as Hp. unfold avl_turns. pose proof (Z.log2_nonneg (Z.of_nat (length (addrs t)) + 1)).
  apply Z.log2_le_pow2 in Hp; [| lia]. pose proof (Z.div_mod (height t) 2 ltac:(lia)).
  pose proof (Z.mod_pos_bound (height t) 2 ltac:(lia)). lia.
Qed.

(** ** Verification *)

Section verify.
Context {K : Type} (P : K → Prop) (cmp : K → K → Z) (val : addr → option K).
Context (Hko : key_order P cmp).

Lemma compare_before x y : keyed P val [x] → keyed P val [y] → before_key cmp val x y →
  _BAVL_compare_nodes cmp val x y = Some (-1) ∧ _BAVL_compare_nodes cmp val y x = Some 1.
Proof using Hko.
  intros Hx Hy (kx & ky & Ex & Ey & E). destruct (Hx x) as (? & ? & ?); [set_solver |].
  destruct (Hy y) as (? & ? & ?); [set_solver |]. simplify_eq.
  unfold _BAVL_compare_nodes, _BAVL_compare_values. rewrite Ex, Ey. cbn [mbind option_bind].
  rewrite (ko_anti _ _ Hko kx ky), E by done. done.
Qed.

Lemma recurser_spec T fuel : ∀ t x pp, trep (a_nodes T) pp t → avl t → in_order P cmp val (addrs t) → root_of t = Some x →
  height t ≤ Z.of_nat fuel → _BAVL_assert_recurser cmp val fuel T x = Some (height t).
Proof using Hko.
  induction fuel as [| fuel IH]; intros t x pp Ht Ha Ho Hr Hh; (destruct t as [| l x' b r]; [done |]); injection Hr as ->;
    pose proof (height_nonneg l); pose proof (height_nonneg r); simpl in Hh; [lia |].
  destruct Ht as (Hx & Hl & Hr), Ha as (Hb & Hb1 & Hal & Har). simpl in Ho. rewrite in_order_app in Ho.
  destruct Ho as (Hol & Hor & Hkx & H1 & H2 & _). rewrite Forall_forall in H1, H2.
  assert (∀ y, y ∈ addrs l → keyed P val [y]) as Hkl by (intros y Hy; eapply keyed_sub; [| apply Hol]; set_solver).
  assert (∀ y, y ∈ addrs r → keyed P val [y]) as Hkr by (intros y Hy; eapply keyed_sub; [| apply Hor]; set_solver).
  cbn [_BAVL_assert_recurser]. rewrite Hx, option_bind_Some. cbn [balance a_link0 a_link1].
  rewrite !ASSERT_seq by (apply Z.leb_le; lia).
  assert (match root_of l with
          | None => Some 0
          | Some y => pl ← get_parent T (Some y); ASSERT (bool_decide (pl = Some x));; comp ← _BAVL_compare_nodes cmp val y x;
              ASSERT (comp =? -1);; _BAVL_assert_recurser cmp val fuel T y
          end = Some (height l)) as ->.
  { destruct l as [| l1 y b2 l2]; [done |]. cbn [root_of]. unfold get_parent. rewrite (rd_known _ _ _ (proj1 Hl)).
    cbn [fmap option_fmap option_map a_parent]. rewrite option_bind_Some, ASSERT_seq by (by apply bool_decide_eq_true).
    assert (y ∈ addrs (Node l1 y b2 l2)) as Hy by (simpl; set_solver).
    rewrite (proj1 (compare_before y x (Hkl y Hy) Hkx (H1 y Hy))), option_bind_Some, ASSERT_seq by done.
    apply (IH _ _ (Some x)); [done.. | lia]. }
  rewrite option_bind_Some.
  assert (match root_of r with
          | None => Some 0
          | Some y => pr ← get_parent T (Some y); ASSERT (bool_decide (pr = Some x));; comp ← _BAVL_compare_nodes cmp val y x;
              ASSERT (comp =? 1);; _BAVL_assert_recurser cmp val fuel T y
          end = Some (height r)) as ->.
  { destruct r as [| r1 y b2 r2]; [done |]. cbn [root_of]. unfold get_parent. rewrite (rd_known _ _ _ (proj1 Hr)).
    cbn [fmap option_fmap option_map a_parent]. rewrite option_bind_Some, ASSERT_seq by (by apply bool_decide_eq_true).
    assert (y ∈ addrs (Node r1 y b2 r2)) as Hy by (simpl; set_solver).
    rewrite (proj2 (compare_before x y Hkx (Hkr y Hy) (H2 y Hy))), option_bind_Some, ASSERT_seq by done.
    apply (IH _ _ (Some x)); [done.. | lia]. }
  rewrite option_bind_Some, ASSERT_seq by (apply Z.eqb_eq; lia). by rewrite BAVL_MAX_eq.
Qed.

Lemma verify_spec T : avl_ok T → in_order P cmp val (avl_seq T) → avl_Verify cmp val T = Some ().
Proof using Hko.
  intros (t & Hz & Ha & Es)%avl_ok_open Ho. rewrite Es in Ho. pose proof (zrep_height_fuel _ _ _ Hz) as Hf.
  destruct Hz as (Ht & Hk & _). simpl in Hk. unfold avl_Verify. rewrite Hk. destruct t as [| l x b r]; [done |]. cbn [root_of].
  unfold get_parent. rewrite (rd_known _ _ _ (proj1 Ht)). cbn [fmap option_fmap option_map a_parent par].
  rewrite option_bind_Some, ASSERT_seq by done. rewrite (recurser_spec T _ _ x None Ht Ha Ho) by (done || lia). done.
Qed.

End verify.

(** ** Programs over a tree *)

Inductive tree_op (K : Type) := OpInsert (x : addr) | OpRemove (x : addr) | OpLookup (k : K).
Arguments OpInsert {K} x.
Arguments OpRemove {K} x.
Arguments OpLookup {K} k.
Inductive tree_res := RInsert (inserted : bool) | RRemove | RLookup (found : option addr).

Section programs.
Context {K : Type} (P : K → Prop) (cmp : K → K → Z) (val : addr → option K).

Definition tree_step {T} `{SearchTree T} (t : T) (op : tree_op K) : option (T * tree_res) :=
  match op with
  | OpInsert x => r ← BAVL_Insert cmp val t x; Some (r.1, RInsert r.2)
  | OpRemove x => t ← BAVL_Remove t x; Some (t, RRemove)
  | OpLookup k => r ← BAVL_LookupExact cmp val t k; Some (t, RLookup r)
  end.

Fixpoint tree_run {T} `{SearchTree T} (ops : list (tree_op K)) (t : T) : option (T * list tree_res) :=
  match ops with
  | [] => Some (t, [])
  | op :: ops => s ← tree_step t op; r ← tree_run ops s.1; Some (r.1, s.2 :: r.2)
  end.

(** What BAVL.h asks of its callers: a node is inserted when it is not in the tree
    and removed when it is. *)
Definition allowed_op (l : list addr) (op : tree_op K) : Prop :=
  match op with
  | OpInsert x => (x ∉ l) ∧ ∃ k, val x = Some k ∧ P k
  | OpRemove x => x ∈ l
  | OpLookup k => P k
  end.

Fixpoint allowed (ops : list (tree_op K)) (l : list addr) : Prop :=
  match ops with
  | [] => True
  | op :: ops => allowed_op l op ∧ match tree_step (T := list addr) l op with Some (l', _) => allowed ops l' | None => False end
  end.

Context (Hko : key_order P cmp).

Lemma tree_step_sim T op : avl_ok T → in_order P cmp val (avl_seq T) → allowed_op (avl_seq T) op →
  ∃ T' r, tree_step T op = Some (T', r) ∧ avl_ok T' ∧ in_order P cmp val (avl_seq T') ∧
    tree_step (avl_seq T) op = Some (avl_seq T', r).
Proof using Hko.
  intros Hok Ho Hal. destruct op as [x | x | k]; simpl in Hal; unfold tree_step; cbn [BAVL_Insert BAVL_Remove BAVL_LookupExact avl_search_tree seq_search_tree].
  - destruct Hal as (Hx & k & Ex & HP). destruct (insert_sim P cmp val Hko T x k Hok Ho Hx Ex HP) as (T' & ok & -> & ? & ? & ->).
    rewrite !option_bind_Some. by exists T', (RInsert ok).
  - destruct (remove_sim T x Hok Hal) as (T' & -> & ? & E). rewrite !option_bind_Some. rewrite <- E. exists T', RRemove.
    split_and!; [done | done | | done]. rewrite E. by apply in_order_filter.
  - rewrite (lookup_sim P cmp val Hko T k Hok Ho Hal).
    destruct (seq_tree.lookup_spec P cmp val k Hko Hal (avl_seq T) (proj1 Ho)) as (r & -> & _). rewrite !option_bind_Some. by exists T, (RLookup r).
Qed.

Lemma tree_run_sim ops : ∀ T, avl_ok T → in_order P cmp val (avl_seq T) → allowed ops (avl_seq T) →
  ∃ T' rs, tree_run ops T = Some (T', rs) ∧ avl_ok T' ∧ in_order P cmp val (avl_seq T') ∧
    tree_run ops (avl_seq T) = Some (avl_seq T', rs).
Proof using Hko.
  induction ops as [| op ops IH]; intros T Hok Ho Hal; [simpl; eauto 6 |]. destruct Hal as [Hop Hal].
  destruct (tree_step_sim T op Hok Ho Hop) as (T1 & r & E1 & Hok1 & Ho1 & E1'). rewrite E1' in Hal.
  destruct (IH T1 Hok1 Ho1 Hal) as (T2 & rs & E2 & Hok2 & Ho2 & E2'). cbn [tree_run].
  rewrite E1, E1', !option_bind_Some. cbn [fst snd]. rewrite E2, E2', !option_bind_Some. eauto 6.
Qed.

End programs.

(** ** Theorems *)

(** [C34] Every program of insertions, removals and lookups that inserts nodes not
    in the tree and removes nodes in it runs on the pointer tree without a failed
    assertion or a bad pointer, gives the answers of the same program on a sorted
    sequence, and leaves a balanced tree holding that sequence, which passes
    [BAVL_Verify]. *)
Theorem avl_refines_sequence {K} (P : K → Prop) cmp val ops : key_order P cmp → allowed P cmp val ops [] →
  ∃ T rs, tree_run cmp val ops avl_Init = Some (T, rs) ∧ tree_run cmp val ops [] = Some (avl_seq T, rs) ∧
    avl_ok T ∧ in_order P cmp val (avl_seq T) ∧ avl_Verify cmp val T = Some ().
Proof.
  intros Hko Hal. destruct avl_init_ok as [Hok Es].
  destruct (tree_run_sim P cmp val Hko ops avl_Init Hok) as (T & rs & E & Hok' & Ho & Es'); rewrite ?Es.
  - split; [by intros x Hx%elem_of_nil | constructor].
  - exact Hal.
  - rewrite Es in Es'. exists T, rs. split_and!; [done.. |]. by apply (verify_spec P cmp val Hko).
Qed.

(** A comparator on integers: [B_COMPARE] as the programs use it. *)
Lemma B_COMPARE_order : key_order (λ _ : Z, True) B_COMPARE.
Proof.
  split; intros; pose proof (B_COMPARE_cases a b); [lia | lia | | ].
  - pose proof (B_COMPARE_cases b a). lia.
  - pose proof (B_COMPARE_cases b c). pose proof (B_COMPARE_cases a c). lia.
Qed.

Definition example_val (x : addr) : option Z := Some (Z.of_nat ((7 * x) mod 11)).
Definition example_ops : list (tree_op Z) :=
  (OpInsert <$> [1; 2; 3; 4; 5; 6; 7; 8; 12]%nat) ++ [OpRemove 5%nat; OpLookup 3; OpRemove 8%nat; OpLookup 9; OpInsert 5%nat].

(** Runs the reference to show that a concrete program keeps the callers' rules. *)
Ltac allowed_step :=
  lazymatch goal with
  | |- allowed _ _ _ [] _ => exact I
  | |- allowed _ _ _ (_ :: _) _ =>
      split;
      [ cbn [allowed_op];
        first [ split; [refine (bool_decide_unpack _ _); vm_compute; exact I | eexists; split; [reflexivity | exact I]]
              | refine (bool_decide_unpack _ _); vm_compute; exact I
              | exact I ]
      | match goal with |- match ?e with _ => _ end => let v := eval vm_compute in e in change e with v; cbv iota end ]
  end.

Lemma avl_refines_sequence_witness :
  ∃ T, tree_run B_COMPARE example_val example_ops avl_Init =
    Some (T, [RInsert true; RInsert true; RInsert true; RInsert true; RInsert true; RInsert true; RInsert true; RInsert true;
              RInsert false; RRemove; RLookup (Some 2%nat); RRemove; RLookup (Some 6%nat); RInsert true]) ∧
    avl_seq T = [5; 2; 7; 4; 1; 6; 3]%nat.
Proof.
  destruct (avl_refines_sequence (λ _ : Z, True) B_COMPARE example_val example_ops B_COMPARE_order) as (T & rs & E & Es & _).
  - let v := eval vm_compute in example_ops in change example_ops with v. repeat allowed_step.
  - exists T. rewrite E.
    match type of Es with ?e = _ => let v := eval vm_compute in e in change e with v in Es end.
    injection Es as E1 E2. rewrite <- E1, <- E2. split; reflexivity.
Defined.

(** A concrete tree with its sequence. *)
Definition example_tree : BAVL := match tree_run B_COMPARE example_val example_ops avl_Init with Some (T, _) => T | None => avl_Init end.

Lemma example_tree_ok : avl_ok example_tree ∧ in_order (λ _ : Z, True) B_COMPARE example_val (avl_seq example_tree).
Proof.
  destruct (tree_run_sim (λ _ : Z, True) B_COMPARE example_val B_COMPARE_order example_ops avl_Init) as (T & rs & E & Hok & Ho & _).
  - apply avl_init_ok.
  - split; [by intros x Hx%elem_of_nil | constructor].
  - let v := eval vm_compute in example_ops in change example_ops with v. change (avl_seq avl_Init) with (@nil addr).
    repeat allowed_step.
  - unfold example_tree. rewrite E. split; assumption.
Qed.

(** Lookup in the pointer tree is lookup in the sorted sequence, and the
    approximate [BAVL_Lookup] gives the equal node or a node next to the place of
    the value: the last smaller or the first greater one. *)
Theorem avl_lookup_equiv {K} (P : K → Prop) cmp val T k : key_order P cmp → avl_ok T → in_order P cmp val (avl_seq T) → P k →
  avl_LookupExact cmp val T k = seq_tree.lookup cmp val (avl_seq T) k ∧
  ∃ r, avl_Lookup cmp val T k = Some r ∧
    match r with
    | None => avl_seq T = []
    | Some x => (x ∈ avl_seq T ∧ val x = Some k) ∨
        ∃ l1 l2, avl_seq T = l1 ++ l2 ∧ Forall (lower P cmp val k) l1 ∧ Forall (upper P cmp val k) l2 ∧
          (last l1 = Some x ∨ head l2 = Some x)
    end.
Proof.
  intros Hko Hok Ho HP. split; [by apply (lookup_sim P cmp val Hko) |]. apply avl_ok_open in Hok as (t & Hz & Ha & Es). rewrite Es in *.
  unfold avl_Lookup. pose proof Hz as (Ht & Hk & _). simpl in Hk. rewrite Hk.
  destruct (root_of t) as [x |] eqn:Er; [| exists None; split; [done | by destruct t]].
  rewrite (lookup_loop_spec P cmp val k Hko HP T _ t x None Ht (proj1 Ho) Er)
    by (apply Z.lt_le_incl; by eapply zrep_height_fuel).
  pose proof (descend_found P cmp val Hko T t k Hz Ho HP) as Hd. pose proof (descend_plug (against cmp val k) t []) as Hp.
  destruct (descend _ _ _) as [[| l y b r] k']; simpl; [| exists (Some y); split; [done | by left]]. destruct Hd as (_ & Ed & Hl & Hu).
  destruct k' as [| [d y b s] k']; simpl in Hp; [by subst t |]. exists (Some y). split; [done |]. right.
  eexists _, _. split; [exact Ed |]. split; [done |]. split; [done |]. simpl.
  destruct d; [left; by rewrite app_assoc, last_snoc | by right].
Qed.

Lemma avl_lookup_equiv_witness : avl_LookupExact B_COMPARE example_val example_tree 8 = Some None ∧
  ∃ r, avl_Lookup B_COMPARE example_val example_tree 8 = Some r ∧ r ≠ None.
Proof.
  destruct example_tree_ok as [Hok Ho].
  destruct (avl_lookup_equiv (λ _ : Z, True) B_COMPARE example_val example_tree 8 B_COMPARE_order Hok Ho I) as [E (r & Er & _)].
  rewrite E. split; [vm_compute; reflexivity |]. exists r. split; [exact Er |]. intros ->. vm_compute in Er. discriminate Er.
Defined.

(** Iteration follows the sorted sequence: the first and the last node are
    its ends, the next and the previous node of a node its neighbours, in both
    directions up to the null pointer. *)
Theorem avl_iteration T l1 x l2 : avl_ok T →
  avl_GetFirst T = Some (head (avl_seq T)) ∧ avl_GetLast T = Some (last (avl_seq T)) ∧
  (avl_seq T = l1 ++ x :: l2 → avl_GetNext T x = Some (head l2) ∧ avl_GetPrev T x = Some (last l1)).
Proof. apply iteration_seq. Qed.

Lemma avl_iteration_witness :
  avl_GetFirst example_tree = Some (Some 5%nat) ∧ avl_GetNext example_tree 4 = Some (Some 1%nat) ∧
  avl_GetPrev example_tree 4 = Some (Some 7%nat).
Proof.
  destruct (avl_iteration example_tree [5; 2; 7]%nat 4%nat [1; 6; 3]%nat (proj1 example_tree_ok)) as (E & _ & H).
  split; [rewrite E; vm_compute; reflexivity |]. destruct H as [H1 H2]; [vm_compute; reflexivity |].
  split; [exact H1 | exact H2].
Defined.

(** A tree of [n] nodes is searched in at most [2 log2 (n + 1) + 1] turns: the
    loops of lookup and insertion, cut off after that many turns, still give their
    result. *)
Theorem avl_search_depth {K} (P : K → Prop) cmp val T k node c : key_order P cmp → avl_ok T → in_order P cmp val (avl_seq T) →
  P k → val node = Some k → a_root T = Some c →
  let turns := avl_turns (length (avl_seq T)) in
  lookup_exact_loop cmp val turns T k c = avl_LookupExact cmp val T k ∧
  insert_search cmp val turns T node c = insert_search cmp val (tree_fuel T) T node c ∧
  ∃ r, insert_search cmp val turns T node c = Some r.
Proof.
  intros Hko Hok Ho HP Hv Hc turns. rewrite (lookup_sim P cmp val Hko T k Hok Ho HP).
  apply avl_ok_open in Hok as (t & Hz & Ha & Es). subst turns. rewrite Es in *.
  pose proof (height_log t Ha) as Hh. pose proof (zrep_height_fuel _ _ _ Hz) as Hf.
  pose proof Hz as (Ht & Hk & _). simpl in Hk. rewrite Hc in Hk. symmetry in Hk.
  split; [by apply (lookup_found P cmp val Hko) |].
  rewrite !(insert_search_spec P cmp val k Hko HP T _ t c None node Hv Ht (proj1 Ho) Hk) by lia. split; [done |].
  pose proof (descend_plug (against cmp val k) t []) as Hp. destruct (descend _ _ _) as [[| ? ? ? ?] [| ? ?]]; simpl in *; eauto.
  by subst t.
Qed.

Lemma avl_search_depth_witness : avl_turns (length (avl_seq example_tree)) = 7%nat ∧
  lookup_exact_loop B_COMPARE example_val 7 example_tree 3 1 = Some (Some 2%nat).
Proof.
  destruct example_tree_ok as [Hok Ho]. split; [vm_compute; reflexivity |].
  destruct (avl_search_depth (λ _ : Z, True) B_COMPARE example_val example_tree 3 2%nat 1%nat B_COMPARE_order Hok Ho I) as [E _];
    [reflexivity | vm_compute; reflexivity |].
  change (avl_turns (length (avl_seq example_tree))) with 7%nat in E. rewrite E. vm_compute. reflexivity.
Defined.
