(* ===== verification/CAvl.v ===== *)
(** * The tree of the reactor and of the queues (structure/CAvl_impl.h, SAvl_impl.h)

    CAvl is a second AVL tree, a template: the reactor instantiates it for its
    timers, and SAvl wraps it for the queues of packet flows. In those instances a
    reference is a link, that is a pointer to the entry ([CAVL_PARAM_FUN_DEREF]
    is the identity), counts, associated values, keys and indices are off. The
    functions are those of BAVL.h with the parents passed as arguments and
    asserted; the heap is that of BAVL.v, and the theorems show that on a
    well-formed tree no assertion of CAvl fails and that each operation does what
    the one of BAVL does, hence what the in-order sequence does. *)
From Stdlib Require Import Sorted.
From S2P Require Import Prelude LinkedLists SearchTree BAVL BAVLTree BAVLLaws.

Definition CAvl_check_parent (t : BAVL) (p c : ptr) : option bool :=
  pc ← get_parent t c;
  if bool_decide (p = pc) then
    if nonnull p then
      l0 ← get_link t p false;
      l1 ← get_link t p true;
      Some (bool_decide (c = l0) || bool_decide (c = l1))
    else Some true
  else Some false.

Definition CAvl_rotate (t : BAVL) (r : ptr) (dir : bool) (r_parent : ptr) : option BAVL :=
  ok ← CAvl_check_parent t r_parent r;
  ASSERT ok;;
  nr ← get_link t r (negb dir);
  x ← get_link t nr dir;
  t ← put_link t r (negb dir) x;
  t ← set_parent_if t x r;
  t ← put_link t nr dir r;
  t ← put_parent t nr r_parent;
  t ← attach t r_parent (side_of t r_parent r) nr;
  put_parent t r nr.

(** [d = false] for the least, [d = true] for the greatest entry below [n]. *)
Definition CAvl_subtree_end (d : bool) (t : BAVL) (n : ptr) : option addr :=
  ASSERT (nonnull n);; n ← n; chain_end (tree_fuel t) t n d.
Definition CAvl_subtree_min : BAVL → ptr → option addr := CAvl_subtree_end false.
Definition CAvl_subtree_max : BAVL → ptr → option addr := CAvl_subtree_end true.

Definition CAvl_replace_subtree_fix_assoc (t : BAVL) (dest n dest_parent : ptr) : option BAVL :=
  ASSERT (nonnull dest);;
  ok ← CAvl_check_parent t dest_parent dest;
  ASSERT ok;;
  t ← attach t dest_parent (side_of t dest_parent dest) n;
  if nonnull n then dp ← get_parent t dest; put_parent t n dp else Some t.

(** The nodes are directly connected, [enode] below [node]. *)
Definition CAvl_swap_adjacent (t : BAVL) (node enode node_parent : ptr) : option BAVL :=
  side ← side_of t node enode;
  c ← get_link t node (negb side);
  l0 ← get_link t enode false;
  t ← put_link t node false l0;
  t ← set_parent_if t l0 node;
  l1 ← get_link t enode true;
  t ← put_link t node true l1;
  t ← set_parent_if t l1 node;
  p ← get_parent t node;
  t ← put_parent t enode p;
  t ← attach t node_parent (side_of t node_parent node) enode;
  t ← put_link t enode side node;
  t ← put_parent t node enode;
  t ← put_link t enode (negb side) c;
  set_parent_if t c enode.

Definition CAvl_swap_apart (t : BAVL) (node enode node_parent enode_parent : ptr) : option BAVL :=
  p ← get_parent t enode;
  t ← put_parent t node p;
  t ← attach t enode_parent (side_of t enode_parent enode) node;
  t ← put_parent t enode node_parent;
  t ← attach t node_parent (side_of t node_parent node) enode;
  t ← swap_children t node enode false;
  swap_children t node enode true.

Definition CAvl_swap_for_remove (t : BAVL) (node enode node_parent enode_parent : ptr) : option BAVL :=
  ok ← CAvl_check_parent t node_parent node;
  ASSERT ok;;
  ok ← CAvl_check_parent t enode_parent enode;
  ASSERT ok;;
  t ← (if bool_decide (enode_parent = node) then CAvl_swap_adjacent t node enode node_parent
       else CAvl_swap_apart t node enode node_parent enode_parent);
  swap_balance t node enode.

(** The transformations of [CAvl_rebalance] when the balance factor is wrong. *)
Definition CAvl_rebalance_node (t : BAVL) (node : ptr) (delta : Z) : option (BAVL * ptr * Z) :=
  n ← rd t node;
  if (balance n =? 2) || (balance n =? -2) then
    let bside := balance n =? 2 in
    let bsidef := if balance n =? 2 then 1 else -1 in
    child ← get_link t node bside;
    ASSERT (nonnull child);;
    c ← rd t child;
    if balance c * bsidef =? 1 then
      p ← get_parent t node;
      t ← CAvl_rotate t node (negb bside) p;
      t ← put_balance t node 0;
      t ← put_balance t child 0;
      Some (t, child, delta - 1)
    else if balance c * bsidef =? 0 then
      p ← get_parent t node;
      t ← CAvl_rotate t node (negb bside) p;
      t ← put_balance t node (1 * bsidef);
      t ← put_balance t child (-1 * bsidef);
      Some (t, child, delta)
    else if balance c * bsidef =? -1 then
      gchild ← get_link t child (negb bside);
      ASSERT (nonnull gchild);;
      t ← CAvl_rotate t child bside node;
      p ← get_parent t node;
      t ← CAvl_rotate t node (negb bside) p;
      g ← rd t gchild;
      t ← put_balance t node (- BAVL_MAX 0 (balance g * bsidef) * bsidef);
      t ← put_balance t child (BAVL_MAX 0 (- balance g * bsidef) * bsidef);
      t ← put_balance t gchild 0;
      Some (t, gchild, delta - 1)
    else None
  else Some (t, node, delta).

Fixpoint CAvl_rebalance (fuel : nat) (t : BAVL) (node : ptr) (side : bool) (deltac : Z) : option BAVL :=
  match fuel with
  | O => None
  | S fuel =>
      n ← rd t node;
      ASSERT ((-1 <=? deltac) && (deltac <=? 1));;
      ASSERT ((-1 <=? balance n) && (balance n <=? 1));;
      if deltac =? 0 then Some t else
      let delta := BAVL_MAX deltac (BAVL_OPTNEG (balance n) side) - BAVL_MAX 0 (BAVL_OPTNEG (balance n) side) in
      ASSERT ((-1 <=? delta) && (delta <=? 1));;
      t ← put_balance t node (balance n - BAVL_OPTNEG deltac side);
      '(t, node, delta) ← CAvl_rebalance_node t node delta;
      ASSERT ((-1 <=? delta) && (delta <=? 1));;
      p ← get_parent t node;
      if nonnull p then side ← side_of t p node; CAvl_rebalance fuel t p side delta else Some t
  end.

Definition CAvl_Init : BAVL := mk_BAVL ∅ None.
Definition CAvl_IsEmpty (t : BAVL) : bool := bool_decide (a_root t = None).

Section compare.
Context {K : Type} (comparator : K → K → Z) (value : addr → option K).

(** The comparator of an instance reads both entries. *)
Definition CAvl_compare_entries (node1 node2 : addr) : option Z :=
  v1 ← value node1; v2 ← value node2;
  let res := comparator v1 v2 in
  ASSERT (-1 <=? res);; ASSERT (res <=? 1);; Some res.

(** The descent of [CAvl_Insert]: [inl c] when [c] compares equal, otherwise the
    entry to insert below and the side. *)
Fixpoint CAvl_insert_search (fuel : nat) (t : BAVL) (node c : addr) : option (addr + addr * bool) :=
  match fuel with
  | O => None
  | S fuel =>
      comp ← CAvl_compare_entries node c;
      if comp =? 0 then Some (inl c) else
      let side := comp =? 1 in
      l ← get_link t (Some c) side;
      match l with
      | None => Some (inr (c, side))
      | Some c' => CAvl_insert_search fuel t node c'
      end
  end.

(** The tree, the result, and what [out_ref] receives: the equal entry, or the one
    the new entry was hung below. *)
Definition CAvl_Insert (t : BAVL) (node : addr) : option (BAVL * bool * ptr) :=
  match a_root t with
  | None => Some (mk_BAVL (<[node := mk_BAVLNode None None None 0]> (a_nodes t)) (Some node), true, None)
  | Some c =>
      r ← CAvl_insert_search (tree_fuel t) t node c;
      match r with
      | inl c => Some (t, false, Some c)
      | inr (c, side) =>
          t ← put_link t (Some c) side (Some node);
          let t := t <| a_nodes := <[node := mk_BAVLNode (Some c) None None 0]> (a_nodes t) |> in
          t ← CAvl_rebalance (tree_fuel t) t (Some c) side 1;
          Some (t, true, Some c)
      end
  end.

(** The height of a verified subtree. *)
Fixpoint CAvl_verify_recurser (fuel : nat) (t : BAVL) (n : addr) : option Z :=
  match fuel with
  | O => None
  | S fuel =>
      x ← a_nodes t !! n;
      ASSERT (-1 <=? balance x);;
      ASSERT (balance x <=? 1);;
      height_left ← match a_link0 x with
        | None => Some 0
        | Some l =>
            pl ← get_parent t (Some l);
            ASSERT (bool_decide (pl = Some n));;
            comp ← CAvl_compare_entries l n;
            ASSERT (comp =? -1);;
            CAvl_verify_recurser fuel t l
        end;
      height_right ← match a_link1 x with
        | None => Some 0
        | Some r =>
            pr ← get_parent t (Some r);
            ASSERT (bool_decide (pr = Some n));;
            comp ← CAvl_compare_entries r n;
            ASSERT (comp =? 1);;
            CAvl_verify_recurser fuel t r
        end;
      ASSERT (balance x =? height_right - height_left);;
      Some (BAVL_MAX height_left height_right + 1)
  end.

Definition CAvl_Verify (t : BAVL) : option unit :=
  match a_root t with
  | None => Some ()
  | Some root =>
      p ← get_parent t (Some root);
      ASSERT (bool_decide (p = None));;
      _ ← CAvl_verify_recurser (tree_fuel t) t root;
      Some ()
  end.

End compare.

Definition CAvl_Remove (t : BAVL) (node : addr) : option BAVL :=
  ASSERT (nonnull (a_root t));;
  n ← a_nodes t !! node;
  t ← (if nonnull (a_link0 n) && nonnull (a_link1 n) then
         mx ← CAvl_subtree_max t (a_link0 n);
         mp ← get_parent t (Some mx);
         CAvl_swap_for_remove t (Some node) (Some mx) (a_parent n) mp
       else Some t);
  n ← a_nodes t !! node;
  ASSERT (negb (nonnull (a_link0 n)) || negb (nonnull (a_link1 n)));;
  let paren := a_parent n in
  let child := if nonnull (a_link0 n) then a_link0 n else a_link1 n in
  if nonnull paren then
    side ← side_of t paren (Some node);
    t ← CAvl_replace_subtree_fix_assoc t (Some node) child paren;
    CAvl_rebalance (tree_fuel t) t paren side (-1)
  else CAvl_replace_subtree_fix_assoc t (Some node) child paren.

Definition CAvl_GetFirst (t : BAVL) : option ptr :=
  if nonnull (a_root t) then Some <$> CAvl_subtree_min t (a_root t) else Some None.

Definition CAvl_GetLast (t : BAVL) : option ptr :=
  if nonnull (a_root t) then Some <$> CAvl_subtree_max t (a_root t) else Some None.

Definition CAvl_GetNext (t : BAVL) (node : addr) : option ptr :=
  ASSERT (nonnull (a_root t));; neighbour t node true.
Definition CAvl_GetPrev (t : BAVL) (node : addr) : option ptr :=
  ASSERT (nonnull (a_root t));; neighbour t node false.

(** ** The wrapper SAvl

    An entry is passed as a pointer, asserted not to be null, and references are
    returned as links. *)

Definition SAvl_Init : BAVL := CAvl_Init.
Definition SAvl_Insert {K} (cmp : K → K → Z) (val : addr → option K) (o : BAVL) (entry : ptr) : option (BAVL * bool * ptr) :=
  ASSERT (nonnull entry);; entry ← entry; CAvl_Insert cmp val o entry.
Definition SAvl_Remove (o : BAVL) (entry : ptr) : option BAVL :=
  ASSERT (nonnull entry);; entry ← entry; CAvl_Remove o entry.
Definition SAvl_GetFirst (o : BAVL) : option ptr := CAvl_GetFirst o.
Definition SAvl_GetLast (o : BAVL) : option ptr := CAvl_GetLast o.
Definition SAvl_GetNext (o : BAVL) (entry : ptr) : option ptr :=
  ASSERT (nonnull entry);; entry ← entry; CAvl_GetNext o entry.
Definition SAvl_GetPrev (o : BAVL) (entry : ptr) : option ptr :=
  ASSERT (nonnull entry);; entry ← entry; CAvl_GetPrev o entry.
Definition SAvl_IsEmpty (o : BAVL) : bool := CAvl_IsEmpty o.
Definition SAvl_Verify {K} (cmp : K → K → Z) (val : addr → option K) (o : BAVL) : option unit := CAvl_Verify cmp val o.

(** ** The parent that is passed is the parent *)

(** The focus of a tree in a context hangs below the node that the context names. *)
Lemma check_parent_zrep T t k x : zrep T t k → root_of t = Some x → CAvl_check_parent T (par k) (Some x) = Some true.
Proof.
  intros Hz Hr. destruct (root_of_Some T t k Hz) as (x' & Ex & _ & Ep); [by intros -> |]. rewrite Hr in Ex. injection Ex as <-.
  unfold CAvl_check_parent. rewrite Ep, option_bind_Some, bool_decide_eq_true_2 by done. destruct k as [| [d y b s] k]; [done |].
  cbn [par nonnull f_addr]. destruct Hz as (_ & (Hy & _) & _). simpl in Hy. rewrite Hr in Hy.
  unfold get_link. rewrite (rd_known _ _ _ Hy). cbn [fmap option_fmap option_map]. rewrite !option_bind_Some. f_equal. apply orb_true_iff.
  destruct d; [right | left]; by apply bool_decide_eq_true.
Qed.

(** Stores that leave the parent pointers alone. *)
Lemma wr_parent f T p T' q : (∀ n, a_parent (f n) = a_parent n) → wr f T p = Some T' → get_parent T' q = get_parent T q.
Proof.
  intros Hf H. unfold wr in H. destruct p as [x |]; [| done]. cbn [mbind option_bind] in H.
  destruct (a_nodes T !! x) as [n |] eqn:E; [| done]. injection H as <-. destruct q as [y |]; [| done].
  unfold get_parent, rd. cbn. rewrite lookup_insert. case_decide as Hxy; [| done]. subst y. rewrite E. cbn. by rewrite Hf.
Qed.

Lemma put_link_parent T p d v T' q : put_link T p d v = Some T' → get_parent T' q = get_parent T q.
Proof. apply wr_parent. intros n. by destruct d. Qed.

Lemma attach_parent T p d v T' q : attach T p d v = Some T' → get_parent T' q = get_parent T q.
Proof.
  unfold attach. destruct (nonnull p); [| by intros [= <-]]. destruct d as [d |]; [| done]. rewrite option_bind_Some. apply put_link_parent.
Qed.

Lemma set_parent_if_other T p v T' q : set_parent_if T p v = Some T' → p ≠ q → get_parent T' q = get_parent T q.
Proof.
  unfold set_parent_if, put_parent, wr. destruct p as [x |]; cbn [nonnull]; [| by intros [= <-]]. rewrite option_bind_Some.
  destruct (a_nodes T !! x) as [n |]; [| done]. rewrite option_bind_Some. intros [= <-] Hne. destruct q as [y |]; [| done].
  unfold get_parent, rd. cbn. rewrite lookup_insert_ne; [done | congruence].
Qed.

(** ** Each operation is that of BAVL *)

Lemma rotate_same T d r b nr b' A B C k : zrep T (nd d r b A (nd d nr b' B C)) k →
  CAvl_rotate T (Some r) d (par k) = _BAVL_rotate T (Some r) d.
Proof.
  intros Hz. unfold CAvl_rotate. rewrite (check_parent_zrep _ _ _ _ Hz (root_of_nd _ _ _ _ _)), option_bind_Some, ASSERT_seq by done.
  destruct (root_of_Some T _ k Hz) as (x & Ex & _ & Ep); [by destruct d |]. rewrite root_of_nd in Ex. injection Ex as <-.
  destruct Hz as (Ht & _ & Hnd). rewrite trep_nd, trep_nd, root_of_nd in Ht. destruct Ht as (Hr & _ & Hnr & HB & _).
  assert (r ∉ addrs B) as HrB by (rewrite !addrs_nd in Hnd; nodup_split; set_solver).
  unfold _BAVL_rotate. rewrite (get_link_o _ _ _ _ _ _ _ Hr), !option_bind_Some.
  rewrite (get_link_s _ _ _ _ _ _ _ Hnr), !option_bind_Some.
  destruct (put_link T (Some r) _ _) as [T1 |] eqn:E1; [| done]. rewrite !option_bind_Some.
  destruct (set_parent_if T1 _ _) as [T2 |] eqn:E2; [| done]. rewrite !option_bind_Some.
  destruct (put_link T2 _ _ _) as [T3 |] eqn:E3; [| done]. rewrite !option_bind_Some.
  rewrite (put_link_parent _ _ _ _ _ _ E3), (set_parent_if_other _ _ _ _ _ E2), (put_link_parent _ _ _ _ _ _ E1), Ep, option_bind_Some;
    [done |]. destruct B as [| B1 y ? B2]; [done |]. intros [= ->]. apply HrB. simpl. set_solver.
Qed.

Lemma replace_same T t k x c : zrep T t k → root_of t = Some x →
  CAvl_replace_subtree_fix_assoc T (Some x) c (par k) = _BAVL_replace_subtree T (Some x) c.
Proof.
  intros Hz Hr. unfold CAvl_replace_subtree_fix_assoc, _BAVL_replace_subtree. cbn [nonnull]. rewrite !ASSERT_seq by done.
  rewrite (check_parent_zrep _ _ _ _ Hz Hr), option_bind_Some, ASSERT_seq by done.
  destruct (root_of_Some T t k Hz) as (x' & Ex & _ & Ep); [by intros -> |]. rewrite Hr in Ex. injection Ex as <-.
  rewrite Ep, option_bind_Some. destruct (attach T _ _ _) as [T1 |] eqn:E1; [| done]. rewrite !option_bind_Some.
  unfold set_parent_if. by rewrite (attach_parent _ _ _ _ _ _ E1), Ep, option_bind_Some.
Qed.

(** The focus moved up over a part of the context. *)
Lemma zrep_app T t k1 k2 : zrep T t (k1 ++ k2) ↔ zrep T (plug t k1) k2.
Proof. by rewrite zrep_plug, plug_app, <- zrep_plug. Qed.

Lemma swap_adjacent_same T n1 n2 b1 b2 l2 r2 s k : zrep T (Node l2 n2 b2 r2) (Frame false n1 b1 s :: k) →
  CAvl_swap_adjacent T (Some n1) (Some n2) (par k) = swap_adjacent T (Some n1) (Some n2).
Proof.
  intros Hz. pose proof Hz as (_ & _ & Hnd). rewrite zrep_up in Hz.
  destruct (root_of_Some T _ k Hz) as (x & Ex & _ & Ep); [done |]. simpl in Ex. injection Ex as <-.
  rewrite <- zrep_up in Hz. destruct Hz as ((Hn2 & Hl & Hr) & _ & _). simpl in Hnd.
  assert (n1 ≠ n2 ∧ root_of l2 ≠ Some n1 ∧ root_of r2 ≠ Some n1) as (Hne & H1 & H2).
  { assert (n1 ∉ addrs l2 ++ n2 :: addrs r2) as Hn1.
    { apply NoDup_app in Hnd as (_ & Hd & _). intros Hin. apply (Hd n1 Hin). apply list_elem_of_here. }
    rewrite elem_of_app, elem_of_cons in Hn1. split; [tauto |].
    assert (∀ t, n1 ∉ addrs t → root_of t ≠ Some n1) as Hroot
      by (clear; intros [| l x b r] H; [done | intros [= ->]; apply H; simpl; rewrite elem_of_app; right; apply list_elem_of_here]).
    split; apply Hroot; tauto. }
  unfold CAvl_swap_adjacent, swap_adjacent.
  destruct (side_of T _ _) as [side |]; [| done]. rewrite !option_bind_Some.
  destruct (get_link T (Some n1) _) as [c |]; [| done]. rewrite !option_bind_Some.
  assert (get_link T (Some n2) false = Some (root_of l2)) as -> by (unfold get_link; by rewrite (rd_known _ _ _ Hn2)).
  rewrite !option_bind_Some.
  destruct (put_link T _ _ _) as [T1 |] eqn:E1; [| done]. rewrite !option_bind_Some.
  destruct (set_parent_if T1 _ _) as [T2 |] eqn:E2; [| done]. rewrite !option_bind_Some.
  destruct (get_link T2 (Some n2) true) as [l1 |] eqn:El; [| done]. rewrite !option_bind_Some.
  assert (l1 ≠ Some n1) as Hl1.
  { assert (l1 = root_of r2) as ->; [| done]. unfold put_link, wr in E1. rewrite option_bind_Some in E1.
    destruct (a_nodes T !! n1) as [m |]; [| done]. injection E1 as <-. unfold get_link, rd in El. cbn [mbind option_bind] in El.
    destruct (a_nodes T2 !! n2) as [m2 |] eqn:Em2; [| done]. injection El as <-.
    unfold set_parent_if, put_parent, wr in E2. destruct (root_of l2) as [y |] eqn:Ey; cbn in E2.
    - destruct (decide (y = n2)) as [-> | Hy].
      + rewrite lookup_insert_ne, Hn2 in E2 by done. injection E2 as <-. simpl in Em2. rewrite lookup_insert_eq in Em2. by injection Em2 as <-.
      + destruct (<[n1:=_]> (a_nodes T) !! y); [| done]. injection E2 as <-. simpl in Em2. rewrite !lookup_insert_ne, Hn2 in Em2 by done. by injection Em2 as <-.
    - injection E2 as <-. simpl in Em2. rewrite lookup_insert_ne, Hn2 in Em2 by done. by injection Em2 as <-. }
  destruct (put_link T2 _ _ _) as [T3 |] eqn:E3; [| done]. rewrite !option_bind_Some.
  destruct (set_parent_if T3 _ _) as [T4 |] eqn:E4; [| done]. rewrite !option_bind_Some.
  assert (get_parent T4 (Some n1) = Some (par k)) as ->; [| by rewrite !option_bind_Some].
  by rewrite (set_parent_if_other _ _ _ _ _ E4), (put_link_parent _ _ _ _ _ _ E3), (set_parent_if_other _ _ _ _ _ E2), (put_link_parent _ _ _ _ _ _ E1).
Qed.

Lemma swap_same T n1 n2 b1 b2 l2 r2 s km k : zrep T (Node l2 n2 b2 r2) (km ++ Frame false n1 b1 s :: k) →
  CAvl_swap_for_remove T (Some n1) (Some n2) (par k) (par (km ++ Frame false n1 b1 s :: k)) =
  _BAVL_swap_nodes T (Some n1) (Some n2).
Proof.
  intros Hz. pose proof Hz as Hz1. rewrite zrep_app, zrep_up in Hz1. unfold plug1 in Hz1. cbn [f_side f_addr f_bal f_sib] in Hz1.
  destruct (root_of_Some T _ _ Hz) as (x & Ex & Hx2 & Ep2); [done |]. simpl in Ex. injection Ex as <-.
  destruct (root_of_Some T _ _ Hz1) as (x & Ex & Hx1 & Ep1); [done |]. simpl in Ex. injection Ex as <-.
  unfold CAvl_swap_for_remove, _BAVL_swap_nodes.
  rewrite (check_parent_zrep _ _ _ _ Hz1 (root_of_nd _ _ _ _ _)), option_bind_Some, ASSERT_seq by done.
  rewrite (check_parent_zrep _ _ _ _ Hz eq_refl), option_bind_Some, ASSERT_seq by done.
  rewrite Ep2, Ep1, !option_bind_Some. rewrite kaddrs_app in Hx2. simpl in Hx2.
  assert (par k ≠ Some n2) as Hpk by (destruct k; simpl in *; [done | intros [= E]; set_solver]).
  rewrite (bool_decide_eq_false_2 _ Hpk), orb_false_r.
  destruct km as [| f km]; cbn [app par f_addr].
  - rewrite bool_decide_eq_true_2 by done. by rewrite (swap_adjacent_same T n1 n2 b1 b2 l2 r2 s k Hz).
  - rewrite bool_decide_eq_false_2; [unfold CAvl_swap_apart, swap_apart; by rewrite Ep1, Ep2, !option_bind_Some |].
    intros [= E]. destruct Hz as (_ & _ & (_ & _ & Hnd)%NoDup_app). simpl in Hnd. apply NoDup_cons in Hnd as [Hnd _]. apply Hnd.
    rewrite kaddrs_app, !elem_of_app, E. right. right. apply list_elem_of_here.
Qed.

(** The hypotheses of [rebalance_heavy]: a child is two higher than the other. *)
Lemma rebalance_heavy_same T d x A Ch k delta :
  zrep T (nd d x (BAVL_OPTNEG 2 d) A Ch) k → avl A → avl Ch → height Ch = height A + 2 →
  CAvl_rebalance_node T (Some x) delta = rebalance_node T (Some x) delta.
Proof.
  intros Hz HA HCh Hh. pose proof (height_nonneg A).
  destruct (tree_nd d Ch) as [-> | (c & bc & B & C & ->)]; [simpl in Hh; lia |].
  rewrite avl_nd in HCh. destruct HCh as (Hbc & Hbr & HB & HC). rewrite height_nd in Hh.
  destruct (root_of_Some T _ k Hz) as (x' & Ex & _ & Ep); [by destruct d |]. rewrite root_of_nd in Ex. injection Ex as <-.
  pose proof (rotate_same T d x _ c bc A B C k Hz) as Hrot.
  pose proof Hz as (Ht & _ & _). rewrite trep_nd, trep_nd, root_of_nd in Ht. destruct Ht as (Hx & _ & Hc & _ & _).
  unfold CAvl_rebalance_node, rebalance_node. rewrite (rd_known _ _ _ Hx), !option_bind_Some, fnode_balance.
  assert ((BAVL_OPTNEG 2 d =? 2) || (BAVL_OPTNEG 2 d =? -2) = true) as -> by (by destruct d).
  assert ((BAVL_OPTNEG 2 d =? 2) = negb d) as -> by (by destruct d).
  cbv zeta. rewrite (get_link_o _ _ _ _ _ _ _ Hx), !option_bind_Some. cbn [nonnull]. rewrite !ASSERT_seq by done.
  rewrite (rd_known _ _ _ Hc), !option_bind_Some, fnode_balance, negb_involutive.
  set (sf := if negb d then 1 else -1). assert (sf = BAVL_OPTNEG 1 d) as Hsf by (subst sf; by destruct d).
  assert (bc * sf = height C - height B) as -> by (rewrite Hbc, Hsf; destruct d; simpl; lia).
  rewrite Ep, !option_bind_Some, Hrot.
  destruct (height C - height B =? 1) eqn:Ec1; b2p; [done |]. destruct (height C - height B =? 0) eqn:Ec0; b2p; [done |].
  rewrite (proj2 (Z.eqb_eq _ (-1))) by lia. rewrite (get_link_s _ _ _ _ _ _ _ Hc), !option_bind_Some.
  destruct (tree_nd (negb d) B) as [-> | (g & bg & G1 & G2 & ->)]; [simpl in *; pose proof (height_nonneg C); lia |].
  rewrite root_of_nd. cbn [nonnull]. rewrite !ASSERT_seq by done.
  assert (zrep T (nd (negb d) c bc C (nd (negb d) g bg G1 G2)) (Frame (negb d) x (BAVL_OPTNEG 2 d) A :: k)) as Hz0.
  { rewrite zrep_up. unfold plug1. simpl. by rewrite !nd_flip in *. }
  pose proof (rotate_same T (negb d) c bc g bg C G1 G2 _ Hz0) as Hrot1. cbn [par f_addr] in Hrot1. rewrite Hrot1.
  destruct (rotate_spec T (negb d) c bc g bg C G1 G2 _ Hz0) as (T1 & E1 & Hz1). rewrite E1, !option_bind_Some.
  rewrite zrep_up in Hz1. unfold plug1 in Hz1. simpl in Hz1. rewrite !nd_flip in Hz1.
  destruct (root_of_Some T1 _ k Hz1) as (x' & Ex & _ & Ep1); [by destruct d |]. rewrite root_of_nd in Ex. injection Ex as <-.
  by rewrite Ep1, option_bind_Some, (rotate_same T1 d x _ g bg A G2 (nd d c bc G1 C) k Hz1).
Qed.

Lemma rebalance_node_same T d x b s o k delta :
  zrep T (nd d x b s o) k → avl s → avl o → b = BAVL_OPTNEG (height o - height s) d → -2 ≤ height o - height s ≤ 2 →
  CAvl_rebalance_node T (Some x) delta = rebalance_node T (Some x) delta.
Proof.
  intros Hz Hs Ho Hb Hr.
  destruct (decide (height o - height s = 2)) as [E | N1]; [| destruct (decide (height o - height s = -2)) as [E | N2]].
  - rewrite E in Hb. subst b. apply (rebalance_heavy_same T d x s o k delta Hz Hs Ho). lia.
  - assert (b = BAVL_OPTNEG 2 (negb d)) as -> by (rewrite Hb, E; by destruct d). rewrite <- (nd_flip d) in Hz.
    apply (rebalance_heavy_same T (negb d) x o s k delta Hz Ho Hs). lia.
  - assert (-1 ≤ b ≤ 1) by (rewrite Hb; destruct d; simpl; lia).
    pose proof Hz as (Ht & _ & _). rewrite trep_nd in Ht. destruct Ht as (Hx & _ & _).
    unfold CAvl_rebalance_node, rebalance_node. rewrite (rd_known _ _ _ Hx), !option_bind_Some, fnode_balance.
    by rewrite (proj2 (Z.eqb_neq b 2)), (proj2 (Z.eqb_neq b (-2))) by lia.
Qed.

Lemma rebalance_same fuel : ∀ T t f k dc h0, zrep T t (f :: k) → avl t → height t = h0 + dc → kavl h0 (f :: k) → -1 ≤ dc ≤ 1 →
  CAvl_rebalance fuel T (Some (f_addr f)) (f_side f) dc = _BAVL_rebalance fuel T (Some (f_addr f)) (f_side f) dc.
Proof.
  induction fuel as [| fuel IH]; intros T t f k dc h0 Hz Ht Hh Hk Hdc; [done |]. destruct f as [d x b s].
  destruct Hk as (Hb & Hr & Hs & Hk'). simpl in Hb, Hr, Hs. cbn [f_addr f_side].
  pose proof Hz as (_ & (Hx & _ & _) & _). simpl in Hx. cbn [_BAVL_rebalance CAvl_rebalance].
  rewrite (rd_known _ _ _ Hx), !option_bind_Some, fnode_balance.
  assert (BAVL_OPTNEG b d = height s - h0) as Hob by (rewrite Hb; apply OPTNEG_involutive).
  rewrite !(ASSERT_seq _ _ (in_range dc Hdc)).
  assert (-1 ≤ b ≤ 1) as Hbr by (rewrite Hb; destruct d; simpl; lia). rewrite !(ASSERT_seq _ _ (in_range b Hbr)).
  destruct (dc =? 0) eqn:Edc; b2p; [done |].
  cbv zeta. rewrite !BAVL_MAX_eq, Hob. repeat rewrite ASSERT_seq by (apply in_range; lia).
  rewrite zrep_up in Hz. unfold plug1 in Hz. simpl in Hz.
  destruct (zrep_balance T _ _ _ _ _ _ (b - BAVL_OPTNEG dc d) Hz) as (T1 & E1 & Hz1). rewrite E1, !option_bind_Some.
  set (delta := Z.max dc (height s - h0) - Z.max 0 (height s - h0)).
  assert (b - BAVL_OPTNEG dc d = BAVL_OPTNEG (height s - height t) d) as Hb' by (rewrite Hb, Hh; destruct d; simpl; lia).
  rewrite (rebalance_node_same T1 d x _ t s k delta Hz1 Ht Hs Hb') by lia.
  destruct (rebalance_node_spec T1 d x (b - BAVL_OPTNEG dc d) t s k delta Hz1 Ht Hs Hb')
    as (T2 & t2 & delta2 & E2 & Hz2 & Ht2 & Ha2 & Hh2 & Hd2); [lia |].
  rewrite E2, !option_bind_Some. rewrite height_nd, Hh in Hh2.
  repeat rewrite ASSERT_seq by (apply in_range; subst delta; lia).
  assert (t2 ≠ Leaf) as Hl2 by (intros ->; rewrite addrs_nd_mid in Ha2; by apply app_cons_not_nil in Ha2).
  destruct (root_of_Some T2 t2 k Hz2 Hl2) as (y & Ey & Hyn & Ep). rewrite Ey, Ep, !option_bind_Some.
  destruct k as [| f k]; cbn [par nonnull]; [done |].
  rewrite (side_of_known T2 y f k), !option_bind_Some; [| by destruct Hz2 as (_ & Hk2 & _); rewrite Ey in Hk2 | done].
  apply (IH T2 t2 f k delta2 (kheight h0 (Frame d x b s))); [done | done | | done | subst delta; lia].
  unfold kheight. simpl. subst delta. lia.
Qed.

Section same.
Context {K : Type} (P : K → Prop) (cmp : K → K → Z) (val : addr → option K).
Context (Hko : key_order P cmp).

Lemma compare_same x y : CAvl_compare_entries cmp val x y = _BAVL_compare_nodes cmp val x y.
Proof using Type.
  unfold CAvl_compare_entries, _BAVL_compare_nodes, _BAVL_compare_values. destruct (val x) as [v1 |]; [| done].
  destruct (val y) as [v2 |]; [| done]. rewrite !option_bind_Some. cbv zeta.
  destruct (-1 <=? cmp v1 v2) eqn:E1, (cmp v1 v2 <=? 1) eqn:E2; b2p.
  - assert ((cmp v1 v2 =? -1) || (cmp v1 v2 =? 0) || (cmp v1 v2 =? 1) = true) as ->; [| done].
    rewrite !orb_true_iff, !Z.eqb_eq. lia.
  - assert ((cmp v1 v2 =? -1) || (cmp v1 v2 =? 0) || (cmp v1 v2 =? 1) = false) as ->; [| done].
    rewrite !orb_false_iff, !Z.eqb_neq. lia.
  - assert ((cmp v1 v2 =? -1) || (cmp v1 v2 =? 0) || (cmp v1 v2 =? 1) = false) as ->; [| done].
    rewrite !orb_false_iff, !Z.eqb_neq. lia.
  - lia.
Qed.

Lemma insert_search_same T node fuel : ∀ c, CAvl_insert_search cmp val fuel T node c = insert_search cmp val fuel T node c.
Proof using Type.
  induction fuel as [| fuel IH]; intros c; [done |]. cbn [CAvl_insert_search insert_search]. rewrite compare_same.
  destruct (_BAVL_compare_nodes _ _ _ _) as [comp |]; [| done]. rewrite !option_bind_Some. destruct (comp =? 0); [done |]. cbv zeta.
  destruct (get_link _ _ _) as [[c' |] |]; [| done..]. rewrite !option_bind_Some. apply IH.
Qed.

Lemma verify_same T : CAvl_Verify cmp val T = avl_Verify cmp val T.
Proof using Type.
  assert (∀ fuel n, CAvl_verify_recurser cmp val fuel T n = _BAVL_assert_recurser cmp val fuel T n) as Hrec.
  { induction fuel as [| fuel IH]; intros n; [done |]. cbn [CAvl_verify_recurser _BAVL_assert_recurser].
    destruct (a_nodes T !! n) as [x |]; [| done]. rewrite !option_bind_Some.
    destruct (a_link0 x) as [l |], (a_link1 x) as [r |]; by rewrite ?compare_same, ?IH. }
  unfold CAvl_Verify, avl_Verify. destruct (a_root T); [by rewrite Hrec | done].
Qed.

Lemma insert_same T t node key : zrep T t [] → avl t → in_order P cmp val (addrs t) → node ∉ addrs t → val node = Some key → P key →
  (λ r, r.1) <$> CAvl_Insert cmp val T node = avl_Insert cmp val T node.
Proof using Hko.
  intros Hz Ha Ho Hn Hv HP. unfold CAvl_Insert, avl_Insert. pose proof Hz as (Ht & Hk & Hnd). simpl in Hk. rewrite Hk.
  destruct t as [| l x b r]; cbn [root_of]; [done |]. rewrite insert_search_same.
  rewrite (insert_search_spec P cmp val key Hko HP T _ (Node l x b r) x None node Hv Ht (proj1 Ho));
    [| done | apply Z.lt_le_incl; by eapply zrep_height_fuel].
  pose proof (descend_plug (against cmp val key) (Node l x b r) []) as Hp.
  destruct (descend _ _ _) as [[| l' x' b' r'] k']; simpl in Hp; unfold found_insert; [| done].
  destruct k' as [| f k']; [by simpl in Hp |]. rewrite !option_bind_Some.
  rewrite <- Hp in Hz, Ha, Ho, Hn. rewrite <- zrep_plug in Hz. apply avl_plug in Ha as [_ Hka].
  rewrite addrs_split in Hn. simpl in Hn.
  destruct (hang_leaf T f k' node Hz) as (T1 & E1 & Hz1); [rewrite kaddrs_split; done |].
  rewrite E1, !option_bind_Some. cbv zeta. set (T2 := T1 <| a_nodes := _ |>) in *.
  rewrite (rebalance_same (tree_fuel T2) T2 (Node Leaf node 0 Leaf) f k' 1 0 Hz1) by done.
  by destruct (_BAVL_rebalance _ _ _ _ _).
Qed.
End same.

Lemma remove_low_same T l x b r k : zrep T (Node l x b r) k → avl (plug (Node l x b r) k) → l = Leaf ∨ r = Leaf →
  (n ← a_nodes T !! x;
   ASSERT (negb (nonnull (a_link0 n)) || negb (nonnull (a_link1 n)));;
   let paren := a_parent n in
   let child := if nonnull (a_link0 n) then a_link0 n else a_link1 n in
   if nonnull paren then
     side ← side_of T paren (Some x);
     t ← CAvl_replace_subtree_fix_assoc T (Some x) child paren;
     CAvl_rebalance (tree_fuel t) t paren side (-1)
   else CAvl_replace_subtree_fix_assoc T (Some x) child paren) =
  (n ← a_nodes T !! x;
   ASSERT (negb (nonnull (a_link0 n) && nonnull (a_link1 n)));;
   let parent := a_parent n in
   let child := if nonnull (a_link0 n) then a_link0 n else a_link1 n in
   if nonnull parent then
     side ← side_of T parent (Some x);
     t ← _BAVL_replace_subtree T (Some x) child;
     _BAVL_rebalance (tree_fuel t) t parent side (-1)
   else _BAVL_replace_subtree T (Some x) child).
Proof.
  intros Hz Ha Hlr. pose proof Hz as ((Hx & _ & _) & Hk & Hnd). apply avl_plug in Ha as [(Hb & Hb1 & Hal & Har) Hka].
  rewrite Hx, !option_bind_Some. cbn [a_link0 a_link1 a_parent]. rewrite negb_andb.
  rewrite !ASSERT_seq by (destruct Hlr as [-> | ->]; [done | by rewrite orb_true_r]). cbv zeta.
  set (c := match l with Leaf => r | _ => l end).
  assert ((l = Leaf ∧ c = r) ∨ (r = Leaf ∧ c = l)) as Hc
    by (subst c; destruct l; [by left | right; split; [by destruct Hlr | done]]).
  assert ((if nonnull (root_of l) then root_of l else root_of r) = root_of c) as -> by (subst c; by destruct l).
  rewrite (replace_same T _ k x (root_of c) Hz eq_refl). destruct k as [| f k]; cbn [par nonnull]; [done |].
  rewrite (side_of_known T x f k), !option_bind_Some; [| exact Hk |].
  2: { apply NoDup_app in Hnd as (_ & Hd & _). apply Hd. simpl. rewrite elem_of_app. right. apply list_elem_of_here. }
  destruct (replace_subtree_spec T l x b r c _ Hz Hc) as (T1 & E1 & Hz1). rewrite E1, !option_bind_Some.
  pose proof (height_nonneg l). pose proof (height_nonneg r).
  apply (rebalance_same _ T1 c f k (-1) (height (Node l x b r)) Hz1); [| | exact Hka | lia].
  - destruct Hc as [[_ ->] | [_ ->]]; done.
  - destruct Hc as [[-> ->] | [-> ->]]; simpl in *; lia.
Qed.

Lemma remove_same T t x : zrep T t [] → avl t → x ∈ addrs t → CAvl_Remove T x = avl_Remove T x.
Proof.
  intros Hz Ha Hx. pose proof Hz as (_ & Hroot & _). simpl in Hroot. unfold CAvl_Remove, avl_Remove.
  rewrite ASSERT_seq by (rewrite Hroot; destruct t; [by apply not_elem_of_nil in Hx | done]).
  destruct (plug_focus x t [] Hx) as (l & b & r & k & E). rewrite app_nil_r in E. simpl in E. subst t.
  rewrite <- zrep_plug in Hz. pose proof Hz as ((Hn & Hl & _) & _ & _). rewrite Hn, !option_bind_Some. cbn [a_link0 a_link1 a_parent].
  assert ((l = Leaf ∨ r = Leaf) ∨ (l ≠ Leaf ∧ r ≠ Leaf)) as [Hlr | [Hll Hrr]] by (destruct l, r; naive_solver).
  - assert (nonnull (root_of l) && nonnull (root_of r) = false) as -> by (destruct Hlr as [-> | ->]; [done | by destruct l]).
    rewrite !option_bind_Some. by apply (remove_low_same T l x b r k).
  - assert (nonnull (root_of l) && nonnull (root_of r) = true) as -> by (by destruct l, r).
    unfold CAvl_subtree_max, CAvl_subtree_end, _BAVL_subtree_max. rewrite !ASSERT_seq by (by destruct l).
    assert (zrep T l (Frame false x b r :: k)) as Hzl by (by rewrite zrep_up).
    destruct (subtree_max_spec T (tree_fuel T) l (Frame false x b r :: k) (Some x) Hl Hll) as (ml & m & mb & km & E & Ep & El & Ekm);
      [apply Z.lt_le_incl; by eapply zrep_height_fuel |].
    rewrite E. rewrite !option_bind_Some.
    destruct (root_of l) as [y |] eqn:Er; [| by destruct l]. rewrite option_bind_Some.
    assert (chain_end (tree_fuel T) T y true = Some m) as ->.
    { destruct (chain_end_spec T true (tree_fuel T) l y (Some x) Hl Er) as (z & Ez & Ee); [apply Z.lt_le_incl; by eapply zrep_height_fuel |].
      rewrite Ez. rewrite El in Ee. unfold edge in Ee. rewrite addrs_split in Ee. simpl in Ee.
      rewrite Ekm, app_nil_r, app_assoc, last_snoc in Ee. congruence. }
    rewrite option_bind_Some. change (plug (Node l x b r) k) with (plug l (Frame false x b r :: k)) in Ha. rewrite Ep in Ha.
    rewrite zrep_plug, Ep, <- zrep_plug in Hzl.
    destruct (root_of_Some T _ _ Hzl) as (m' & Em & _ & Epm); [done |]. simpl in Em. injection Em as <-. rewrite Epm, option_bind_Some.
    rewrite (swap_same T x m b mb ml Leaf r km k Hzl).
    destruct (swap_nodes_spec x m ml Leaf r km k) with (T := T) (b1 := b) (b2 := mb) as (T1 & -> & Hz1); [| done |].
    { destruct Hzl as (_ & _ & Hnd'). eapply NoDup_Permutation_proper; [| exact Hnd']. rewrite kaddrs_app. simpl. solve_Permutation. }
    rewrite !option_bind_Some. apply (remove_low_same T1 ml x mb Leaf _ Hz1); [| by right].
    apply avl_plug in Ha as [Ha1 Ha2]. eapply kavl_plug; [exact Ha1 | reflexivity |]. by eapply kavl_relabel.
Qed.

(** ** Each operation against the sequence *)

Section simulation.
Context {K : Type} (P : K → Prop) (cmp : K → K → Z) (val : addr → option K).
Context (Hko : key_order P cmp).

Lemma CAvl_insert_sim T x k : avl_ok T → in_order P cmp val (avl_seq T) → x ∉ avl_seq T → val x = Some k → P k →
  ∃ T' ok out, CAvl_Insert cmp val T x = Some (T', ok, out) ∧ avl_Insert cmp val T x = Some (T', ok) ∧ avl_ok T' ∧
    in_order P cmp val (avl_seq T') ∧ seq_tree.insert cmp val (avl_seq T) x = Some (avl_seq T', ok).
Proof using Hko.
  intros Hok Ho Hx Ex HP. destruct (insert_sim P cmp val Hko T x k Hok Ho Hx Ex HP) as (T' & ok & E & H).
  pose proof Hok as (t & Hz & Ha & Es)%avl_ok_open. rewrite Es in Ho, Hx.
  pose proof (insert_same P cmp val Hko T t x k Hz Ha Ho Hx Ex HP) as Hs. rewrite E in Hs.
  destruct (CAvl_Insert cmp val T x) as [[[T1 ok1] out] |]; [| done]. cbn in Hs. injection Hs as -> ->. by exists T', ok, out.
Qed.

(** A refused entry is told which entry it equals. *)
Lemma CAvl_insert_refused T x k : avl_ok T → in_order P cmp val (avl_seq T) → x ∉ avl_seq T → val x = Some k → P k →
  ∀ T' out, CAvl_Insert cmp val T x = Some (T', false, out) → ∃ y, out = Some y ∧ y ∈ avl_seq T ∧ val y = Some k.
Proof using Hko.
  intros (t & Hz & Ha & Es)%avl_ok_open Ho Hx Ex HP T' out. rewrite Es in *. unfold CAvl_Insert. pose proof Hz as (Ht & Hk & _).
  simpl in Hk. rewrite Hk. destruct (root_of t) as [c |] eqn:Er; [| done]. rewrite insert_search_same.
  rewrite (insert_search_spec P cmp val k Hko HP T _ t c None x Ex Ht (proj1 Ho) Er) by (apply Z.lt_le_incl; by eapply zrep_height_fuel).
  pose proof (descend_found P cmp val Hko T t k Hz Ho HP) as Hd. destruct (descend _ _ _) as [[| l y b r] k']; unfold found_insert.
  - destruct k' as [| f k']; [done |]. rewrite option_bind_Some. destruct (put_link _ _ _ _); [| done]. rewrite option_bind_Some. cbv zeta.
    by destruct (CAvl_rebalance _ _ _ _ _).
  - intros [= _ <-]. exists y. tauto.
Qed.

Lemma CAvl_remove_sim T x : avl_ok T → x ∈ avl_seq T →
  ∃ T', CAvl_Remove T x = Some T' ∧ avl_Remove T x = Some T' ∧ avl_ok T' ∧ avl_seq T' = filter (λ y, y ≠ x) (avl_seq T).
Proof using Type.
  intros Hok Hx. destruct (remove_sim T x Hok Hx) as (T' & E & H). exists T'. rewrite E.
  apply avl_ok_open in Hok as (t & Hz & Ha & Es). rewrite Es in Hx. by rewrite (remove_same T t x Hz Ha Hx), E.
Qed.

End simulation.

Lemma CAvl_GetFirst_same T : CAvl_GetFirst T = avl_GetFirst T.
Proof. unfold CAvl_GetFirst, avl_GetFirst. by destruct (a_root T). Qed.
Lemma CAvl_GetLast_same T : CAvl_GetLast T = avl_GetLast T.
Proof. unfold CAvl_GetLast, avl_GetLast. by destruct (a_root T). Qed.

Lemma avl_root_seq T : avl_ok T → a_root T = None ↔ avl_seq T = [].
Proof.
  intros (t & (_ & Hk & _) & _ & ->)%avl_ok_open. simpl in Hk. rewrite Hk. destruct t as [| l x b r]; [done |]. simpl.
  split; [done |]. intros E. by destruct (addrs l).
Qed.

Lemma CAvl_neighbour_same T x : avl_ok T → x ∈ avl_seq T → CAvl_GetNext T x = avl_GetNext T x ∧ CAvl_GetPrev T x = avl_GetPrev T x.
Proof.
  intros Hok Hx. assert (nonnull (a_root T) = true) as Hr.
  { destruct (a_root T) eqn:E; [done |]. apply (avl_root_seq T Hok) in E. rewrite E in Hx. by apply not_elem_of_nil in Hx. }
  unfold CAvl_GetNext, CAvl_GetPrev. by rewrite !ASSERT_seq.
Qed.

(** ** The interface for the components with a timer tree or a queue

    What the reactor and the fair queue rely on: an ordered tree whose first entry
    can be read. *)
Class OrderedTree (T : Type) := {
  ot_Init : T;
  ot_Insert : ∀ {K}, (K → K → Z) → (addr → option K) → T → addr → option (T * bool);
  ot_Remove : T → addr → option T;
  ot_GetFirst : T → option ptr;
  ot_IsEmpty : T → bool;
  ot_ok : T → Prop;
  ot_seq : T → list addr;
  ot_init : ot_ok ot_Init ∧ ot_seq ot_Init = [];
  ot_insert : ∀ {K} (P : K → Prop) cmp val t x k, key_order P cmp → ot_ok t → in_order P cmp val (ot_seq t) →
    x ∉ ot_seq t → val x = Some k → P k →
    ∃ t' ok, ot_Insert cmp val t x = Some (t', ok) ∧ ot_ok t' ∧ in_order P cmp val (ot_seq t') ∧
      seq_tree.insert cmp val (ot_seq t) x = Some (ot_seq t', ok);
  ot_remove : ∀ t x, ot_ok t → x ∈ ot_seq t →
    ∃ t', ot_Remove t x = Some t' ∧ ot_ok t' ∧ ot_seq t' = filter (λ y, y ≠ x) (ot_seq t);
  ot_first : ∀ t, ot_ok t → ot_GetFirst t = Some (head (ot_seq t));
  ot_empty : ∀ t, ot_ok t → ot_IsEmpty t = bool_decide (ot_seq t = [])
}.

#[export] Instance CAvl_ordered_tree : OrderedTree BAVL.
Proof.
  refine {| ot_Init := CAvl_Init; ot_Insert := λ K cmp val t x, (λ r, r.1) <$> CAvl_Insert cmp val t x; ot_Remove := CAvl_Remove;
    ot_GetFirst := CAvl_GetFirst; ot_IsEmpty := CAvl_IsEmpty; ot_ok := avl_ok; ot_seq := avl_seq |}.
  - apply avl_init_ok.
  - intros K P cmp val t x k Hko Hok Ho Hx Ex HP.
    destruct (CAvl_insert_sim P cmp val Hko t x k Hok Ho Hx Ex HP) as (T' & ok & out & E & _ & H). exists T', ok. by rewrite E.
  - intros t x Hok Hx. destruct (CAvl_remove_sim t x Hok Hx) as (T' & E & _ & H). by exists T'.
  - intros t Hok. rewrite CAvl_GetFirst_same. apply (iteration_seq t [] 0%nat [] Hok).
  - intros t Hok. unfold CAvl_IsEmpty. apply bool_decide_ext. by apply avl_root_seq.
Defined.

(** ** The order of the timers and of the flows

    By time, and by address at equal times. *)
Definition time_addr_compare (a b : Z * addr) : Z :=
  let cmp := B_COMPARE a.1 b.1 in
  if negb (cmp =? 0) then cmp else B_COMPARE (Z.of_nat a.2) (Z.of_nat b.2).

Definition sooner (a b : Z * addr) : Prop := a.1 < b.1 ∨ (a.1 = b.1 ∧ (a.2 < b.2)%nat).

Lemma time_addr_cases a b :
  (time_addr_compare a b = -1 ∧ sooner a b) ∨ (time_addr_compare a b = 0 ∧ a = b) ∨ (time_addr_compare a b = 1 ∧ sooner b a).
Proof.
  destruct a as [ta a], b as [tb b]. unfold time_addr_compare, sooner, B_COMPARE. cbn [fst snd].
  destruct (tb <? ta) eqn:E1, (ta <? tb) eqn:E2; b2p; simpl; [lia | right; right; lia | left; lia |].
  assert (ta = tb) as -> by lia.
  destruct (Z.of_nat b <? Z.of_nat a) eqn:E3, (Z.of_nat a <? Z.of_nat b) eqn:E4; b2p; simpl; [lia | right; right; lia | left; lia |].
  right. left. assert (a = b) as -> by lia. done.
Qed.

Lemma time_addr_order : key_order (λ _, True) time_addr_compare.
Proof.
  split.
  - intros a b _ _. destruct (time_addr_cases a b) as [[? _] | [[? _] | [? _]]]; lia.
  - intros a b _ _. destruct (time_addr_cases a b) as [[-> H] | [[-> H] | [-> H]]]; (split; [done |]); intros ->; unfold sooner in H; lia.
  - intros a b _ _. destruct (time_addr_cases a b) as [[-> H] | [[-> H] | [-> H]]], (time_addr_cases b a) as [[-> H'] | [[-> H'] | [-> H']]];
      try done; subst; unfold sooner in *; lia.
  - intros a b c _ _ _ H1 H2. destruct (time_addr_cases a b) as [[_ H] | [[? _] | [? _]]]; [| lia..].
    destruct (time_addr_cases b c) as [[_ H'] | [[? _] | [? _]]]; [| lia..].
    destruct (time_addr_cases a c) as [[-> _] | [[_ ->] | [_ H'']]]; [done | unfold sooner in *; lia..].
Qed.

(** ** Theorems *)

(** [C21] The tree of the reactor and of the queues is an ordered sequence: on a
    balanced tree in order, [CAvl_Verify] passes, the first, last, next and previous
    entries are those of the sequence; insertion and removal of an entry run
    without a failed assertion, give the heap that the operations of BAVL.h give,
    keep the tree balanced and in order, and do to the sequence what insertion into
    and removal from a sorted sequence do; a refused entry is told its equal. *)
Theorem CAvl_refines_sequence {K} (P : K → Prop) cmp val T : key_order P cmp → avl_ok T → in_order P cmp val (avl_seq T) →
  CAvl_Verify cmp val T = Some () ∧ CAvl_IsEmpty T = bool_decide (avl_seq T = []) ∧
  CAvl_GetFirst T = Some (head (avl_seq T)) ∧ CAvl_GetLast T = Some (last (avl_seq T)) ∧
  (∀ l1 x l2, avl_seq T = l1 ++ x :: l2 → CAvl_GetNext T x = Some (head l2) ∧ CAvl_GetPrev T x = Some (last l1)) ∧
  (∀ x k, x ∉ avl_seq T → val x = Some k → P k →
    ∃ T' ok out, CAvl_Insert cmp val T x = Some (T', ok, out) ∧ avl_Insert cmp val T x = Some (T', ok) ∧ avl_ok T' ∧
      in_order P cmp val (avl_seq T') ∧ seq_tree.insert cmp val (avl_seq T) x = Some (avl_seq T', ok) ∧
      (ok = false → ∃ y, out = Some y ∧ y ∈ avl_seq T ∧ val y = Some k)) ∧
  (∀ x, x ∈ avl_seq T →
    ∃ T', CAvl_Remove T x = Some T' ∧ avl_Remove T x = Some T' ∧ avl_ok T' ∧ avl_seq T' = filter (λ y, y ≠ x) (avl_seq T)).
Proof.
  intros Hko Hok Ho. rewrite verify_same, CAvl_GetFirst_same, CAvl_GetLast_same.
  destruct (iteration_seq T [] 0%nat [] Hok) as (Hf & Hl & _). split; [by apply (verify_spec P cmp val Hko) |]. split.
  { unfold CAvl_IsEmpty. apply bool_decide_ext. by apply avl_root_seq. }
  split; [done |]. split; [done |]. split.
  { intros l1 x l2 E. destruct (CAvl_neighbour_same T x Hok) as [-> ->]; [rewrite E, elem_of_app; right; apply list_elem_of_here |].
    by apply (iteration_seq T l1 x l2 Hok). }
  split; [| intros x; by apply CAvl_remove_sim]. intros x k Hx Ex HP.
  destruct (CAvl_insert_sim P cmp val Hko T x k Hok Ho Hx Ex HP) as (T' & ok & out & E & E2 & H1 & H2 & H3).
  exists T', ok, out. do 5 (split; [done |]). intros ->. by apply (CAvl_insert_refused P cmp val Hko T x k Hok Ho Hx Ex HP T').
Qed.

Lemma CAvl_refines_sequence_witness :
  CAvl_GetFirst example_tree = Some (Some 5%nat) ∧ ∃ T, CAvl_Remove example_tree 4 = Some T ∧ avl_seq T = [5; 2; 7; 1; 6; 3]%nat.
Proof.
  destruct example_tree_ok as [Hok Ho].
  destruct (CAvl_refines_sequence (λ _ : Z, True) B_COMPARE example_val example_tree B_COMPARE_order Hok Ho) as (_ & _ & E & _ & _ & _ & H).
  split; [rewrite E; vm_compute; reflexivity |].
  destruct (H 4%nat) as (T & ET & _ & _ & Es); [refine (bool_decide_unpack _ _); vm_compute; exact I |].
  exists T. split; [exact ET |]. rewrite Es. vm_compute. reflexivity.
Defined.
