(* ===== verification/FairQueueTree.v ===== *)
(** * The fair queue on the pointer tree (flow/PacketPassFairQueue.c, PacketPassFairQueue_tree.h)

    PacketPassFairQueue.v keeps the queued flows as a sorted sequence. Here that
    sequence is tied to the tree the program uses, SAvl over CAvl: in every state
    of the queue's invariant the calls on the pointer tree do what the calls on the
    sequence do, although the program changes the times of flows that are in the
    tree. *)
From Stdlib Require Import Sorted.
From S2P Require Import Prelude LinkedLists SearchTree BAVL BAVLTree BAVLLaws CAvl PacketPassFairQueue.

(** What [compare_flows] reads of a flow. *)
Definition flow_key (fs : gmap addr flow) (f : addr) : option (Z * addr) := x ← fs !! f; Some (time x, f).

Lemma compare_flows_key fs f g :
  compare_flows fs f g = (kf ← flow_key fs f; kg ← flow_key fs g; Some (time_addr_compare kf kg)).
Proof. unfold compare_flows, flow_key. destruct (fs !! f); [| done]. by destruct (fs !! g). Qed.

(** Insertion into the sequence, where the tree reports a refusal. *)
Lemma Tree_Insert_seq fs f t : is_Some (fs !! f) → (∀ g, g ∈ t → is_Some (fs !! g)) →
  ∃ t' ok, seq_tree.insert time_addr_compare (flow_key fs) t f = Some (t', ok) ∧
    Tree_Insert fs t f = if ok then Some t' else None.
Proof.
  intros Hf. induction t as [| g t IH]; intros Hall; [by exists [f], true |].
  cbn [seq_tree.insert Tree_Insert]. rewrite compare_flows_key. pose proof Hf as [x Hx].
  destruct (Hall g) as [y Hy]; [apply list_elem_of_here |]. 
  assert (flow_key fs f = Some (time x, f)) as -> by (unfold flow_key; by rewrite Hx).
  assert (flow_key fs g = Some (time y, g)) as -> by (unfold flow_key; by rewrite Hy). rewrite !option_bind_Some.
  destruct (time_addr_cases (time x, f) (time y, g)) as [[-> _] | [[-> _] | [-> _]]]; cbn.
  - by exists (f :: g :: t), true.
  - by exists (g :: t), false.
  - destruct IH as (t' & ok & E & E'); [intros h Hh; apply Hall; by apply list_elem_of_further |]. rewrite E, E'. cbn.
    exists (g :: t'), ok. split; [done |]. by destruct ok.
Qed.

Lemma fcore_in_order m : fcore m → in_order (λ _, True) time_addr_compare (flow_key (flows m)) (queued_tree m).
Proof.
  intros Hi. assert (∀ f, f ∈ queued_tree m → flow_key (flows m) f = Some (tm (flows m) f, f)) as Hk.
  { intros f Hf. destruct (queued_lookup m f Hi Hf) as (x & Hx & _ & ->). unfold flow_key. by rewrite Hx. }
  split; [intros f Hf; exists (tm (flows m) f, f); split; [by apply Hk | done] |].
  pose proof (fi_sorted m Hi) as Hs. revert Hk. induction Hs as [| f t Hs IH Hf]; intros Hk; [constructor |].
  constructor; [apply IH; intros g Hg; apply Hk; by apply list_elem_of_further |].
  rewrite Forall_forall in Hf |- *. intros g Hg. exists (tm (flows m) f, f), (tm (flows m) g, g).
  rewrite (Hk f), (Hk g) by (apply elem_of_cons; tauto). split; [done |]. split; [done |].
  destruct (time_addr_cases (tm (flows m) f, f) (tm (flows m) g, g)) as [[-> _] | [[_ [= E1 E2]] | [_ H]]]; [done | |];
    specialize (Hf g Hg); unfold before, sooner in *; cbn [fst snd] in *; lia.
Qed.

(** [C22] The fair queue may run on its pointer tree. In every state the queue
    reaches, a tree that holds the queued flows is in order for their current
    times ([SAvl_Verify] passes), its first entry is the flow the queue serves next,
    and inserting a flow and removing one give a balanced tree holding what the
    queue's sequence becomes; no assertion of the tree fails, and insertion never
    finds an equal flow. *)
Theorem fairqueue_pointer_tree m T : finv m → avl_ok T → avl_seq T = queued_tree m →
  SAvl_Verify time_addr_compare (flow_key (flows m)) T = Some () ∧
  SAvl_GetFirst T = Some (Tree_GetFirst (queued_tree m)) ∧
  (∀ f, is_Some (flows m !! f) → f ∉ queued_tree m →
    ∃ T' out, SAvl_Insert time_addr_compare (flow_key (flows m)) T (Some f) = Some (T', true, out) ∧ avl_ok T' ∧
      Tree_Insert (flows m) (queued_tree m) f = Some (avl_seq T')) ∧
  (∀ f, f ∈ queued_tree m →
    ∃ T', SAvl_Remove T (Some f) = Some T' ∧ avl_ok T' ∧ avl_seq T' = Tree_Remove (queued_tree m) f).
Proof.
  intros [Hi _] Hok Es. pose proof (fcore_in_order m Hi) as Ho. rewrite <- Es in Ho |- *. split.
  { unfold SAvl_Verify. rewrite verify_same. by apply (verify_spec (λ _, True) _ _ time_addr_order). }
  split; [unfold SAvl_GetFirst; rewrite CAvl_GetFirst_same; by apply (iteration_seq T [] 0%nat []) |]. split.
  - intros f [x Hx] Hf. assert (flow_key (flows m) f = Some (time x, f)) as Ek by (unfold flow_key; by rewrite Hx).
    destruct (CAvl_insert_sim (λ _, True) _ _ time_addr_order T f _ Hok Ho Hf Ek I) as (T' & ok & out & E & _ & Hok' & _ & E').
    assert (∀ g, g ∈ avl_seq T → is_Some (flows m !! g)) as Hall.
    { intros g Hg. rewrite Es in Hg. destruct (queued_lookup m g Hi Hg) as (y & Hy & _). eauto. }
    destruct (Tree_Insert_seq (flows m) f (avl_seq T)) as (t' & ok2 & E2 & E3); [eauto | done |].
    rewrite E' in E2. injection E2 as <- <-. rewrite E3.
    assert (ok = true) as ->.
    { destruct (Tree_Insert_spec (flows m) f (avl_seq T)) as (t2 & E4 & _); [eauto | done | done | rewrite Es; apply (fi_sorted m Hi) |].
      rewrite E3 in E4. by destruct ok. }
    exists T', out. unfold SAvl_Insert. cbn [nonnull]. rewrite ASSERT_seq, option_bind_Some by done. done.
  - intros f Hf. destruct (CAvl_remove_sim T f Hok Hf) as (T' & E & _ & Hok' & Es'). exists T'.
    unfold SAvl_Remove. cbn [nonnull]. rewrite ASSERT_seq, option_bind_Some by done. done.
Qed.

(** Three queued flows in a tree, two of them at the same time. *)
Definition three_queued : PacketPassFairQueue :=
  let m0 := mk_PacketPassFairQueue 100 false 5 None 0 None [] [] ∅ false false in
  default m0 (frun m0 [EInit 1; EInit 2; EInit 3; EInit 4; ESend 1 10 50; ESend 2 20 7; ESend 3 30 8; ESend 4 40 9]%nat).
Definition three_tree : BAVL :=
  default CAvl_Init (T ← SAvl_Insert time_addr_compare (flow_key (flows three_queued)) SAvl_Init (Some 3%nat);
    T ← SAvl_Insert time_addr_compare (flow_key (flows three_queued)) T.1.1 (Some 4%nat);
    T ← SAvl_Insert time_addr_compare (flow_key (flows three_queued)) T.1.1 (Some 2%nat); Some T.1.1).

Lemma fairqueue_pointer_tree_witness :
  queued_tree three_queued = [2; 3; 4]%nat ∧ ∃ T', SAvl_Remove three_tree (Some 3%nat) = Some T' ∧ avl_seq T' = [2; 4]%nat.
Proof.
  split; [vm_compute; reflexivity |].
  assert (finv three_queued) as Hi.
  { destruct (frun_inv [EInit 1; EInit 2; EInit 3; EInit 4; ESend 1 10 50; ESend 2 20 7; ESend 3 30 8; ESend 4 40 9]%nat
      (mk_PacketPassFairQueue 100 false 5 None 0 None [] [] ∅ false false)) as (m' & E & Hf).
    - eapply (init_inv 100 true false 5); [lia | vm_compute; reflexivity].
    - unfold three_queued. rewrite E. exact Hf. }
  assert (avl_ok three_tree) as Hok.
  { exists (Node (Node Leaf 2%nat 0 Leaf) 3%nat 0 (Node Leaf 4%nat 0 Leaf)). split; [| vm_compute; repeat split; discriminate].
    split; [vm_compute; repeat split | split; [vm_compute; reflexivity | refine (bool_decide_unpack _ _); vm_compute; exact I]]. }
  destruct (fairqueue_pointer_tree three_queued three_tree Hi Hok) as (_ & _ & _ & H); [vm_compute; reflexivity |].
  destruct (H 3%nat) as (T' & E & _ & Es); [refine (bool_decide_unpack _ _); vm_compute; exact I |].
  exists T'. split; [exact E |]. rewrite Es. vm_compute. reflexivity.
Defined.
