(* ===== verification/BReactor.v ===== *)
(** * The event loop (system/BReactor_badvpn.c, system/BTime.h, misc/overflow.h)

    The reactor with the epoll backend: timers, file descriptors, jobs and limits.
    The timers lie in an ordered tree ([OrderedTree], the interface of CAvl.v) and,
    once expired, in a list; the jobs lie in a queue ([JobQueue], BPending.v).
    Timers, file descriptors and limits are objects named by addresses; the lists
    of expired timers and of active limits are their sequences of objects (the
    intrusive list is that of LinkedLists.v). A [BTimer] is a [BSmallTimer] with
    its default time; a handler and its argument have one name. The pointer into
    the array of results that a file descriptor keeps is the index of the entry.

    What the kernel answers is an argument: the results of [epoll_wait], each with
    the time of its return, the readings of the clock, the results of [epoll_ctl].
    A handler that the loop calls is the sequence of calls it makes into the
    reactor; between two waits any of them may run. *)
From Stdlib Require Import Sorted.
From S2P Require Import Prelude LinkedLists BPending SearchTree BAVL CAvl.

Definition INT64_MIN : Z := -9223372036854775808.
Definition INT64_MAX : Z := 9223372036854775807.

Definition is_int64 (x : Z) : Prop := INT64_MIN ≤ x ≤ INT64_MAX.

(** ** Time *)

(** [1] and [-1] tell the direction of the overflow. *)
Definition add_int64_overflows (a b : Z) : Z :=
  if xorb (a <? 0) (b <? 0) then 0
  else if a <? 0 then - Z.b2z (a <? INT64_MIN - b)
  else Z.b2z (INT64_MAX - b <? a).

Definition btime_add (t1 t2 : Z) : Z :=
  let overflows := add_int64_overflows t1 t2 in
  if negb (overflows =? 0) then
    if 0 <? overflows then INT64_MAX else INT64_MIN
  else t1 + t2.

Definition btime_getpast : Z := INT64_MIN.

(** The readings of the two clocks, [clock_gettime] in seconds and nanoseconds
    ([None] when it fails) and [gettimeofday] in seconds and microseconds, are
    arguments; only the monotonic one is taken relative to the start. *)
Record BTime_global := mk_BTime_global { start_time : Z; use_gettimeofday : bool }.

Definition BTime_Init (monotonic : option (Z * Z)) (tv : Z * Z) : BTime_global :=
  match monotonic with
  | None => mk_BTime_global (tv.1 * 1000 + Z.quot tv.2 1000) true
  | Some ts => mk_BTime_global (ts.1 * 1000 + Z.quot ts.2 1000000) false
  end.
Definition btime_gettime (g : BTime_global) (ts tv : Z * Z) : Z :=
  if use_gettimeofday g then tv.1 * 1000 + Z.quot tv.2 1000
  else (ts.1 * 1000 + Z.quot ts.2 1000000) - start_time g.

(** ** Objects *)

Inductive timer_state := TIMER_STATE_INACTIVE | TIMER_STATE_RUNNING | TIMER_STATE_EXPIRED.
#[export] Instance timer_state_eq_dec : EqDecision timer_state.
Proof. solve_decision. Defined.

Record BSmallTimer := mk_BSmallTimer { tm_handler : nat; absTime : Z; tm_state : timer_state; is_small : bool; msTime : Z }.
#[export] Instance BSmallTimer_eta : Eta BSmallTimer := λ t,
  mk_BSmallTimer (tm_handler t) (absTime t) (tm_state t) (is_small t) (msTime t).

Record BFileDescriptor := mk_BFileDescriptor {
  fd : Z; fd_handler : nat; active : bool; waitEvents : Z; epoll_returned_ptr : option nat
}.
#[export] Instance BFileDescriptor_eta : Eta BFileDescriptor := λ b,
  mk_BFileDescriptor (fd b) (fd_handler b) (active b) (waitEvents b) (epoll_returned_ptr b).

Record BReactorLimit := mk_BReactorLimit { limit : Z; count : Z }.
#[export] Instance BReactorLimit_eta : Eta BReactorLimit := λ l, mk_BReactorLimit (limit l) (count l).

Definition BREACTOR_READ : Z := 1.
Definition BREACTOR_WRITE : Z := 2.
Definition BREACTOR_ERROR : Z := 4.
Definition BREACTOR_HUP : Z := 8.
Definition EPOLLIN : Z := 1.
Definition EPOLLOUT : Z := 4.
Definition EPOLLERR : Z := 8.
Definition EPOLLHUP : Z := 16.
Definition BSYSTEM_MAX_RESULTS : Z := 64.

(** An entry of the array of results: [data.ptr] and [events]. *)
Record epoll_event := mk_epoll_event { data_ptr : ptr; ev_events : Z }.

Record BReactor (T G : Type) := mk_BReactor {
  exiting : bool;
  exit_code : Z;
  pending_jobs : G;
  timers_tree : T;
  timers_expired_list : list addr;
  active_limits_list : list addr;
  epoll_results : list epoll_event;
  epoll_results_num : nat;
  epoll_results_pos : nat;
  timers : gmap addr BSmallTimer;
  fds : gmap addr BFileDescriptor;
  limits : gmap addr BReactorLimit
}.
Arguments mk_BReactor {T G}.
Arguments exiting {T G}.
Arguments exit_code {T G}.
Arguments pending_jobs {T G}.
Arguments timers_tree {T G}.
Arguments timers_expired_list {T G}.
Arguments active_limits_list {T G}.
Arguments epoll_results {T G}.
Arguments epoll_results_num {T G}.
Arguments epoll_results_pos {T G}.
Arguments timers {T G}.
Arguments fds {T G}.
Arguments limits {T G}.
#[export] Instance BReactor_eta T G : Eta (BReactor T G) := λ r,
  mk_BReactor (exiting r) (exit_code r) (pending_jobs r) (timers_tree r) (timers_expired_list r) (active_limits_list r)
    (epoll_results r) (epoll_results_num r) (epoll_results_pos r) (timers r) (fds r) (limits r).

Inductive timer_mode := BTIMER_SET_ABSOLUTE | BTIMER_SET_RELATIVE.

(** What [epoll_wait] answers: interrupted by a signal, another error, or events
    (none when the time is up). *)
Inductive wait_answer := WInterrupted | WError | WReady (events : list epoll_event).

(** What an iteration of the loop does. *)
Inductive dispatch := DJob (h : nat) | DTimer (x : addr) (h : nat) | DFd (x : addr) (h : nat) (events : Z) | DSkipped | DWaited.

(** What the comparator reads of a timer: its time and its address. *)
Definition compare_timers (t1 t2 : Z * addr) : Z :=
  let cmp := B_COMPARE t1.1 t2.1 in
  if negb (cmp =? 0) then cmp else B_COMPARE (Z.of_nat t1.2) (Z.of_nat t2.2).
Definition timer_key (ts : gmap addr BSmallTimer) (x : addr) : option (Z * addr) := t ← ts !! x; Some (absTime t, x).

(** ** Saturation *)

Lemma btime_add_clamp a b : is_int64 a → is_int64 b → btime_add a b = Z.max INT64_MIN (Z.min INT64_MAX (a + b)).
Proof.
  unfold is_int64, btime_add, add_int64_overflows, INT64_MIN, INT64_MAX. intros Ha Hb.
  destruct (a <? 0) eqn:E1, (b <? 0) eqn:E2; b2p; cbn [xorb].
  - destruct (a <? -9223372036854775808 - b) eqn:E3; b2p;
      [change (- Z.b2z true) with (-1) | change (- Z.b2z false) with 0]; cbn [negb Z.eqb Z.ltb Z.compare]; lia.
  - cbn [negb Z.eqb]. lia.
  - cbn [negb Z.eqb]. lia.
  - destruct (9223372036854775807 - b <? a) eqn:E3; b2p; cbn [Z.b2z negb Z.eqb Z.ltb Z.compare]; lia.
Qed.

Lemma btime_add_range a b : is_int64 a → is_int64 b → is_int64 (btime_add a b).
Proof. intros Ha Hb. rewrite btime_add_clamp by done. unfold is_int64, INT64_MIN, INT64_MAX. lia. Qed.

Section reactor.
Context {T G : Type} `{OrderedTree T} `{JobQueue G}.
#[local] Abbreviation reactor := (BReactor T G).

Definition HasJobs (g : G) : option bool :=
  '(_, a) ← jq_step g CHasJobs; match a with ABool b => Some b | _ => None end.
Definition PeekJob (g : G) : option ptr :=
  '(_, a) ← jq_step g CPeek; match a with AJob p => Some p | _ => None end.
Definition ExecuteJob (g : G) : option (G * nat) :=
  '(g, a) ← jq_step g CExecute; match a with ACall h => Some (g, h) | _ => None end.

(** ** Expiry *)

(** Out of the tree, to the end of the expired list. *)
Definition expire (bsys : reactor) (x : addr) : option reactor :=
  tree ← ot_Remove (timers_tree bsys) x;
  t ← timers bsys !! x;
  Some (bsys <| timers_tree := tree |> <| timers_expired_list := timers_expired_list bsys ++ [x] |>
    <| timers := <[x := t <| tm_state := TIMER_STATE_EXPIRED |>]> (timers bsys) |>).

Fixpoint move_expired_loop (fuel : nat) (bsys : reactor) (now : Z) : option (reactor * bool) :=
  match fuel with
  | O => None
  | S fuel =>
      first ← ot_GetFirst (timers_tree bsys);
      match first with
      | None => Some (bsys, false)
      | Some x =>
          t ← timers bsys !! x;
          ASSERT (bool_decide (tm_state t = TIMER_STATE_RUNNING));;
          if now <? absTime t then Some (bsys, false) else
          bsys ← expire bsys x;
          r ← move_expired_loop fuel bsys now;
          Some (r.1, true)
      end
  end.

(** Every turn takes a timer out of the tree. *)
Definition timers_fuel (bsys : reactor) : nat := S (size (timers bsys)).

Definition move_expired_timers (bsys : reactor) (now : Z) : option (reactor * bool) :=
  move_expired_loop (timers_fuel bsys) bsys now.

Fixpoint move_same_time_loop (fuel : nat) (bsys : reactor) (first_time : Z) : option reactor :=
  match fuel with
  | O => None
  | S fuel =>
      first ← ot_GetFirst (timers_tree bsys);
      match first with
      | None => Some bsys
      | Some x =>
          t ← timers bsys !! x;
          ASSERT (bool_decide (tm_state t = TIMER_STATE_RUNNING));;
          ASSERT (first_time <=? absTime t);;
          if first_time <? absTime t then Some bsys else
          bsys ← expire bsys x;
          move_same_time_loop fuel bsys first_time
      end
  end.

Definition move_first_timers (bsys : reactor) : option reactor :=
  first_timer ← ot_GetFirst (timers_tree bsys);
  ASSERT (nonnull first_timer);;
  x ← first_timer;
  t ← timers bsys !! x;
  ASSERT (bool_decide (tm_state t = TIMER_STATE_RUNNING));;
  let first_time := absTime t in
  bsys ← expire bsys x;
  move_same_time_loop (timers_fuel bsys) bsys first_time.

(** ** Waiting *)

Fixpoint set_epoll_fd_pointers (i : nat) (events : list epoll_event) (fs : gmap addr BFileDescriptor) : option (gmap addr BFileDescriptor) :=
  match events with
  | [] => Some fs
  | event :: events =>
      ASSERT (nonnull (data_ptr event));;
      x ← data_ptr event;
      bfd ← fs !! x;
      ASSERT (active bfd);;
      ASSERT (bool_decide (epoll_returned_ptr bfd = None));;
      set_epoll_fd_pointers (S i) events (<[x := bfd <| epoll_returned_ptr := Some i |>]> fs)
  end.

(** The kernel has written the first entries of the array. *)
Definition store_results (bsys : reactor) (events : list epoll_event) : reactor :=
  bsys <| epoll_results := events ++ drop (length events) (epoll_results bsys) |>.

(** The difference of the two times. An overflow of it would be undefined; it has none
    while the timer lies in the future, [reactor_timeout_bounds]. *)
Definition timeout_rel (timeout_abs : option Z) (now : Z) : Z := match timeout_abs with Some ta => ta - now | None => 0 end.
Definition timeout_rel_trunc (timeout_abs : option Z) (now : Z) : Z :=
  let rel := timeout_rel timeout_abs now in
  match timeout_abs with Some _ => if INT_MAX <? rel then INT_MAX else rel | None => rel end.
(** The last argument of [epoll_wait]. *)
Definition epoll_timeout (timeout_abs : option Z) (now : Z) : Z :=
  match timeout_abs with Some _ => timeout_rel_trunc timeout_abs now | None => -1 end.

(** The loop of [wait_for_events]; [timeout_abs] is set when there is a timeout.
    Each turn has the answer of [epoll_wait] and the clock after it. [None] is a
    failed assertion, [Some None] a loop that goes on waiting. *)
Fixpoint wait_loop (timeout_abs : option Z) (now : Z) (bsys : reactor) (ws : list (wait_answer * Z)) : option (option reactor) :=
  match ws with
  | [] => Some None
  | (waitres, clock) :: ws =>
      let try_again :=
        match timeout_abs with
        | Some ta => if ta <=? clock then bsys ← move_first_timers bsys; Some (Some bsys) else wait_loop timeout_abs clock bsys ws
        | None => wait_loop timeout_abs now bsys ws
        end in
      match waitres with
      | WInterrupted => try_again
      | WError => None
      | WReady events =>
          let bsys := store_results bsys events in
          ASSERT (negb (zlen events =? 0) || bool_decide (timeout_abs ≠ None));;
          ASSERT (zlen events <=? BSYSTEM_MAX_RESULTS);;
          if negb (zlen events =? 0) || (timeout_rel_trunc timeout_abs now =? timeout_rel timeout_abs now) then
            if negb (zlen events =? 0) then
              let bsys := bsys <| epoll_results_num := length events |> in
              fs ← set_epoll_fd_pointers 0 (take (epoll_results_num bsys) (epoll_results bsys)) (fds bsys);
              Some (Some (bsys <| fds := fs |>))
            else bsys ← move_first_timers bsys; Some (Some bsys)
          else try_again
      end
  end.

Fixpoint reset_limits (l : list addr) (ls : gmap addr BReactorLimit) : option (gmap addr BReactorLimit) :=
  match l with
  | [] => Some ls
  | x :: l =>
      lim ← ls !! x;
      ASSERT (0 <? count lim);;
      reset_limits l (<[x := lim <| count := 0 |>]> ls)
  end.

Definition wait_for_events (bsys : reactor) (now : Z) (ws : list (wait_answer * Z)) : option (option reactor) :=
  has_jobs ← HasJobs (pending_jobs bsys);
  ASSERT (negb has_jobs);;
  ASSERT (bool_decide (timers_expired_list bsys = []));;
  ASSERT (epoll_results_pos bsys =? epoll_results_num bsys)%nat;;
  let bsys := bsys <| epoll_results_num := 0%nat |> <| epoll_results_pos := 0%nat |> in
  first_timer ← ot_GetFirst (timers_tree bsys);
  '(bsys, moved, timeout_abs) ← match first_timer return option (reactor * bool * option Z) with
    | None => Some (bsys, false, None)
    | Some x =>
        t ← timers bsys !! x;
        ASSERT (bool_decide (tm_state t = TIMER_STATE_RUNNING));;
        '(bsys, moved) ← move_expired_timers bsys now;
        Some (bsys, moved, Some (absTime t))
    end;
  if (moved : bool) then Some (Some bsys) else
  r ← wait_loop timeout_abs now bsys ws;
  match r with
  | None => Some None
  | Some bsys =>
      ls ← reset_limits (active_limits_list bsys) (limits bsys);
      Some (Some (bsys <| limits := ls |> <| active_limits_list := [] |>))
  end.

(** ** The loop *)

(** The events to report: what is monitored, errors and hang-up. *)
Definition report_events (waitEvents events : Z) : Z :=
  let r := 0 in
  let r := if negb (Z.land waitEvents BREACTOR_READ =? 0) && negb (Z.land events EPOLLIN =? 0) then Z.lor r BREACTOR_READ else r in
  let r := if negb (Z.land waitEvents BREACTOR_WRITE =? 0) && negb (Z.land events EPOLLOUT =? 0) then Z.lor r BREACTOR_WRITE else r in
  let r := if negb (Z.land events EPOLLERR =? 0) then Z.lor r BREACTOR_ERROR else r in
  if negb (Z.land events EPOLLHUP =? 0) then Z.lor r BREACTOR_HUP else r.

Definition dispatch_timer (bsys : reactor) (x : addr) (rest : list addr) : option (reactor * dispatch) :=
  t ← timers bsys !! x;
  ASSERT (bool_decide (tm_state t = TIMER_STATE_EXPIRED));;
  Some (bsys <| timers_expired_list := rest |> <| timers := <[x := t <| tm_state := TIMER_STATE_INACTIVE |>]> (timers bsys) |>,
        DTimer x (tm_handler t)).

Definition dispatch_fd (bsys : reactor) : option (reactor * dispatch) :=
  let pos := epoll_results_pos bsys in
  event ← epoll_results bsys !! pos;
  let bsys := bsys <| epoll_results_pos := S pos |> in
  match data_ptr event with
  | None => Some (bsys, DSkipped)
  | Some x =>
      bfd ← fds bsys !! x;
      ASSERT (active bfd);;
      ASSERT (bool_decide (epoll_returned_ptr bfd = Some pos));;
      let bsys := bsys <| fds := <[x := bfd <| epoll_returned_ptr := None |>]> (fds bsys) |> in
      let events := report_events (waitEvents bfd) (ev_events event) in
      if events =? 0 then Some (bsys, DSkipped) else Some (bsys, DFd x (fd_handler bfd) events)
  end.

(** One iteration of the loop of [BReactor_Exec]. *)
Definition exec_iteration (bsys : reactor) (now : Z) (ws : list (wait_answer * Z)) : option (option (reactor * dispatch)) :=
  has_jobs ← HasJobs (pending_jobs bsys);
  if (has_jobs : bool) then
    '(g, h) ← ExecuteJob (pending_jobs bsys); Some (Some (bsys <| pending_jobs := g |>, DJob h))
  else
  match timers_expired_list bsys return option (option (reactor * dispatch)) with
  | x :: rest => r ← dispatch_timer bsys x rest; Some (Some r)
  | [] =>
      if (epoll_results_pos bsys <? epoll_results_num bsys)%nat then r ← dispatch_fd bsys; Some (Some r)
      else
        r ← wait_for_events bsys now ws;
        match r with Some bsys => Some (Some (bsys, DWaited)) | None => Some None end
  end.

(** ** The calls into the reactor *)

Definition BReactor_Quit (bsys : reactor) (code : Z) : reactor := bsys <| exiting := true |> <| exit_code := code |>.

Definition BSmallTimer_Init (bsys : reactor) (bt : addr) (h : nat) : reactor :=
  bsys <| timers := <[bt := mk_BSmallTimer h 0 TIMER_STATE_INACTIVE true 0]> (timers bsys) |>.
Definition BTimer_Init (bsys : reactor) (bt : addr) (ms : Z) (h : nat) : reactor :=
  bsys <| timers := <[bt := mk_BSmallTimer h 0 TIMER_STATE_INACTIVE false ms]> (timers bsys) |>.
Definition BSmallTimer_IsRunning (bsys : reactor) (bt : addr) : option bool :=
  t ← timers bsys !! bt; Some (negb (bool_decide (tm_state t = TIMER_STATE_INACTIVE))).

Definition BReactor_RemoveSmallTimer (bsys : reactor) (bt : addr) : option reactor :=
  t ← timers bsys !! bt;
  match tm_state t with
  | TIMER_STATE_INACTIVE => Some bsys
  | TIMER_STATE_EXPIRED =>
      Some (bsys <| timers_expired_list := filter (λ y, y ≠ bt) (timers_expired_list bsys) |>
        <| timers := <[bt := t <| tm_state := TIMER_STATE_INACTIVE |>]> (timers bsys) |>)
  | TIMER_STATE_RUNNING =>
      tree ← ot_Remove (timers_tree bsys) bt;
      Some (bsys <| timers_tree := tree |> <| timers := <[bt := t <| tm_state := TIMER_STATE_INACTIVE |>]> (timers bsys) |>)
  end.

(** [now] is the clock that the relative mode reads. *)
Definition BReactor_SetSmallTimer (bsys : reactor) (bt : addr) (mode : timer_mode) (time now : Z) : option reactor :=
  bsys ← BReactor_RemoveSmallTimer bsys bt;
  let time := match mode with BTIMER_SET_RELATIVE => btime_add now time | BTIMER_SET_ABSOLUTE => time end in
  t ← timers bsys !! bt;
  let bsys := bsys <| timers := <[bt := t <| absTime := time |> <| tm_state := TIMER_STATE_RUNNING |>]> (timers bsys) |> in
  '(tree, res) ← ot_Insert compare_timers (timer_key (timers bsys)) (timers_tree bsys) bt;
  ASSERT res;;
  Some (bsys <| timers_tree := tree |>).

Definition BReactor_SetTimer (bsys : reactor) (bt : addr) (now : Z) : option reactor :=
  t ← timers bsys !! bt; BReactor_SetSmallTimer bsys bt BTIMER_SET_RELATIVE (msTime t) now.
Definition BReactor_SetTimerAfter (bsys : reactor) (bt : addr) (after now : Z) : option reactor :=
  BReactor_SetSmallTimer bsys bt BTIMER_SET_RELATIVE after now.
Definition BReactor_SetTimerAbsolute (bsys : reactor) (bt : addr) (time : Z) : option reactor :=
  BReactor_SetSmallTimer bsys bt BTIMER_SET_ABSOLUTE time 0.
Definition BReactor_RemoveTimer (bsys : reactor) (bt : addr) : option reactor := BReactor_RemoveSmallTimer bsys bt.

Definition BFileDescriptor_Init (bsys : reactor) (bs : addr) (fdn : Z) (h : nat) : reactor :=
  bsys <| fds := <[bs := mk_BFileDescriptor fdn h false 0 None]> (fds bsys) |>.

(** [added] is what [epoll_ctl] answers. *)
Definition BReactor_AddFileDescriptor (bsys : reactor) (bs : addr) (added : bool) : option (reactor * bool) :=
  bfd ← fds bsys !! bs;
  ASSERT (negb (active bfd));;
  if negb added then Some (bsys, false) else
  Some (bsys <| fds := <[bs := bfd <| epoll_returned_ptr := None |> <| active := true |> <| waitEvents := 0 |>]> (fds bsys) |>, true).

Definition BReactor_RemoveFileDescriptor (bsys : reactor) (bs : addr) (deleted : bool) : option reactor :=
  bfd ← fds bsys !! bs;
  ASSERT (active bfd);;
  let bsys := bsys <| fds := <[bs := bfd <| active := false |>]> (fds bsys) |> in
  ASSERT deleted;;
  match epoll_returned_ptr bfd with
  | None => Some bsys
  | Some i =>
      event ← epoll_results bsys !! i;
      Some (bsys <| epoll_results := <[i := mk_epoll_event None (ev_events event)]> (epoll_results bsys) |>)
  end.

Definition BReactor_SetFileDescriptorEvents (bsys : reactor) (bs : addr) (events : Z) (modified : bool) : option reactor :=
  bfd ← fds bsys !! bs;
  ASSERT (active bfd);;
  ASSERT (Z.land events (Z.lnot (Z.lor BREACTOR_READ BREACTOR_WRITE)) =? 0);;
  if waitEvents bfd =? events then Some bsys else
  ASSERT modified;;
  Some (bsys <| fds := <[bs := bfd <| waitEvents := events |>]> (fds bsys) |>).

Definition BReactorLimit_Init (bsys : reactor) (o : addr) (lim : Z) : option reactor :=
  ASSERT (0 <? lim);;
  Some (bsys <| limits := <[o := mk_BReactorLimit lim 0]> (limits bsys) |>).
Definition BReactorLimit_Free (bsys : reactor) (o : addr) : option reactor :=
  l ← limits bsys !! o;
  let bsys := if 0 <? count l then bsys <| active_limits_list := filter (λ y, y ≠ o) (active_limits_list bsys) |> else bsys in
  Some (bsys <| limits := delete o (limits bsys) |>).
Definition BReactorLimit_Increment (bsys : reactor) (o : addr) : option (reactor * bool) :=
  l ← limits bsys !! o;
  if limit l <=? count l then Some (bsys, false) else
  let c := count l + 1 in
  let bsys := bsys <| limits := <[o := l <| count := c |>]> (limits bsys) |> in
  Some (if c =? 1 then bsys <| active_limits_list := active_limits_list bsys ++ [o] |> else bsys, true).
Definition BReactorLimit_SetLimit (bsys : reactor) (o : addr) (lim : Z) : option reactor :=
  l ← limits bsys !! o;
  ASSERT (0 <? lim);;
  Some (bsys <| limits := <[o := l <| limit := lim |>]> (limits bsys) |>).

(** The calls a handler makes. *)
Inductive rcall :=
| RJob (c : cmd)
| RQuit (code : Z)
| RSmallTimerInit (bt : addr) (h : nat)
| RTimerInit (bt : addr) (ms : Z) (h : nat)
| RSetSmallTimer (bt : addr) (mode : timer_mode) (time now : Z)
| RSetTimer (bt : addr) (now : Z)
| RRemoveTimer (bt : addr)
| RFdInit (bs : addr) (fdn : Z) (h : nat)
| RAddFd (bs : addr) (added : bool)
| RRemoveFd (bs : addr) (deleted : bool)
| RSetFdEvents (bs : addr) (events : Z) (modified : bool)
| RLimitInit (o : addr) (lim : Z)
| RLimitFree (o : addr)
| RLimitIncrement (o : addr)
| RSetLimit (o : addr) (lim : Z).

Definition rstep (bsys : reactor) (c : rcall) : option reactor :=
  match c with
  | RJob c => '(g, _) ← jq_step (pending_jobs bsys) c; Some (bsys <| pending_jobs := g |>)
  | RQuit code => Some (BReactor_Quit bsys code)
  | RSmallTimerInit bt h => Some (BSmallTimer_Init bsys bt h)
  | RTimerInit bt ms h => Some (BTimer_Init bsys bt ms h)
  | RSetSmallTimer bt mode time now => BReactor_SetSmallTimer bsys bt mode time now
  | RSetTimer bt now => BReactor_SetTimer bsys bt now
  | RRemoveTimer bt => BReactor_RemoveSmallTimer bsys bt
  | RFdInit bs fdn h => Some (BFileDescriptor_Init bsys bs fdn h)
  | RAddFd bs added => fst <$> BReactor_AddFileDescriptor bsys bs added
  | RRemoveFd bs deleted => BReactor_RemoveFileDescriptor bsys bs deleted
  | RSetFdEvents bs events modified => BReactor_SetFileDescriptorEvents bsys bs events modified
  | RLimitInit o lim => BReactorLimit_Init bsys o lim
  | RLimitFree o => BReactorLimit_Free bsys o
  | RLimitIncrement o => fst <$> BReactorLimit_Increment bsys o
  | RSetLimit o lim => BReactorLimit_SetLimit bsys o lim
  end.

Fixpoint rcalls (bsys : reactor) (cs : list rcall) : option reactor :=
  match cs with [] => Some bsys | c :: cs => bsys ← rstep bsys c; rcalls bsys cs end.

(** An iteration: the clock and the kernel's answers should it wait, and the calls
    of the handler should one be called. *)
Record turn := mk_turn { tn_now : Z; tn_waits : list (wait_answer * Z); tn_calls : list rcall }.

Definition calls_handler (d : dispatch) : bool := match d with DSkipped | DWaited => false | _ => true end.

(** The reactor, what was dispatched, and the exit code once the loop is left. *)
Fixpoint BReactor_Exec (bsys : reactor) (ts : list turn) : option (reactor * list dispatch * option Z) :=
  if exiting bsys then Some (bsys, [], Some (exit_code bsys)) else
  match ts with
  | [] => Some (bsys, [], None)
  | t :: ts =>
      r ← exec_iteration bsys (tn_now t) (tn_waits t);
      match r with
      | None => Some (bsys, [], None)
      | Some (bsys, d) =>
          bsys ← (if calls_handler d then rcalls bsys (tn_calls t) else Some bsys);
          '(bsys, ds, code) ← BReactor_Exec bsys ts;
          Some (bsys, d :: ds, code)
      end
  end.

(** Executes jobs until the reference job is on top or the loop is left; one list of
    calls for every handler. *)
Fixpoint BReactor_Synchronize (bsys : reactor) (ref : addr) (hs : list (list rcall)) : option (reactor * option bool) :=
  if exiting bsys then Some (bsys, Some false) else
  has_jobs ← HasJobs (pending_jobs bsys);
  ASSERT has_jobs;;
  top ← PeekJob (pending_jobs bsys);
  if bool_decide (top = Some ref) then Some (bsys, Some true) else
  match hs with
  | [] => Some (bsys, None)
  | cs :: hs =>
      '(g, _) ← ExecuteJob (pending_jobs bsys);
      bsys ← rcalls (bsys <| pending_jobs := g |>) cs;
      BReactor_Synchronize bsys ref hs
  end.

(** With the initialised queue and the array as it lies in memory; [None] when
    [epoll_create] fails. *)
Definition BReactor_Init (g : G) (garbage : list epoll_event) (created : bool) : option reactor :=
  if created then Some (mk_BReactor false 0 g ot_Init [] [] garbage 0 0 ∅ ∅ ∅) else None.

(** The jobs, running timers, expired timers and active limits must be gone. *)
Definition BReactor_Free (bsys : reactor) (closed : bool) : option unit :=
  has_jobs ← HasJobs (pending_jobs bsys);
  ASSERT (negb has_jobs);;
  ASSERT (ot_IsEmpty (timers_tree bsys));;
  ASSERT (bool_decide (timers_expired_list bsys = []));;
  ASSERT (bool_decide (active_limits_list bsys = []));;
  ASSERT closed;;
  Some ().

(** ** Invariant *)

Record timers_inv (tree : T) (expired : list addr) (ts : gmap addr BSmallTimer) : Prop := {
  ti_tree : ot_ok tree;
  ti_order : in_order (λ _, True) compare_timers (timer_key ts) (ot_seq tree);
  ti_running x : x ∈ ot_seq tree ↔ tm_state <$> ts !! x = Some TIMER_STATE_RUNNING;
  ti_nodup : NoDup expired;
  ti_expired x : x ∈ expired ↔ tm_state <$> ts !! x = Some TIMER_STATE_EXPIRED;
  ti_range x t : ts !! x = Some t → is_int64 (absTime t) ∧ is_int64 (msTime t)
}.

(** The entries not yet dispatched and the active file descriptors point to each
    other; an entry whose file descriptor was removed is null. *)
Record fds_inv (results : list epoll_event) (num pos : nat) (fs : gmap addr BFileDescriptor) : Prop := {
  fi_bounds : (pos ≤ num ≤ length results)%nat;
  fi_event i x e : (pos ≤ i < num)%nat → results !! i = Some (mk_epoll_event (Some x) e) →
    ∃ b, fs !! x = Some b ∧ active b = true ∧ epoll_returned_ptr b = Some i;
  fi_fd x b i : fs !! x = Some b → active b = true → epoll_returned_ptr b = Some i →
    (pos ≤ i < num)%nat ∧ ∃ e, results !! i = Some (mk_epoll_event (Some x) e);
  fi_wait x b : fs !! x = Some b → active b = true → 0 ≤ waitEvents b ≤ 3
}.

(** The active limits are those with a count. *)
Record limits_inv (l : list addr) (ls : gmap addr BReactorLimit) : Prop := {
  li_nodup : NoDup l;
  li_active x : x ∈ l ↔ ∃ lim, ls !! x = Some lim ∧ 0 < count lim;
  li_count x lim : ls !! x = Some lim → 0 ≤ count lim ∧ 0 < limit lim
}.

Record rinv (bsys : reactor) : Prop := {
  ri_jobs : ∃ q, jq_rep (pending_jobs bsys) q;
  ri_timers : timers_inv (timers_tree bsys) (timers_expired_list bsys) (timers bsys);
  ri_fds : fds_inv (epoll_results bsys) (epoll_results_num bsys) (epoll_results_pos bsys) (fds bsys);
  ri_limits : limits_inv (active_limits_list bsys) (limits bsys)
}.

(** ** Moving timers to the expired list *)

Definition set_expired (t : BSmallTimer) : BSmallTimer := t <| tm_state := TIMER_STATE_EXPIRED |>.

(** From [bsys] to [bsys'] the timers [due], the first of the tree, have expired. *)
Record moved_timers (bsys : reactor) (due : list addr) (bsys' : reactor) : Prop := {
  mv_seq : ot_seq (timers_tree bsys) = due ++ ot_seq (timers_tree bsys');
  mv_expired : timers_expired_list bsys' = timers_expired_list bsys ++ due;
  mv_timers x : timers bsys' !! x = if decide (x ∈ due) then set_expired <$> timers bsys !! x else timers bsys !! x;
  mv_rest : bsys' = bsys <| timers_tree := timers_tree bsys' |> <| timers_expired_list := timers_expired_list bsys' |>
    <| timers := timers bsys' |>
}.

Lemma moved_refl bsys : moved_timers bsys [] bsys.
Proof using Type. split; [done | by rewrite app_nil_r | intros x; by rewrite decide_False by apply not_elem_of_nil | by destruct bsys]. Qed.

Lemma moved_step bsys x bsys1 due bsys2 : NoDup (ot_seq (timers_tree bsys)) →
  moved_timers bsys [x] bsys1 → moved_timers bsys1 due bsys2 → moved_timers bsys (x :: due) bsys2.
Proof using Type.
  intros Hnd [S1 E1 T1 R1] [S2 E2 T2 R2]. split.
  - by rewrite S1, S2.
  - by rewrite E2, E1, <- app_assoc.
  - intros y. rewrite T2, T1. rewrite S1, S2 in Hnd. apply NoDup_cons in Hnd as [Hx _]. rewrite elem_of_app in Hx.
    destruct (decide (y ∈ due)) as [Hy | Hy].
    + rewrite (decide_False (P := y ∈ [x])) by (rewrite list_elem_of_singleton; intros ->; tauto).
      by rewrite decide_True by (apply elem_of_cons; tauto).
    + destruct (decide (y ∈ [x])) as [Hyx | Hyx]; rewrite list_elem_of_singleton in Hyx.
      * by rewrite decide_True by (apply elem_of_cons; tauto).
      * by rewrite decide_False by (rewrite elem_of_cons; tauto).
  - rewrite R2, R1. by destruct bsys.
Qed.

Lemma timer_key_ext ts ts' x : absTime <$> ts' !! x = absTime <$> ts !! x → timer_key ts' x = timer_key ts x.
Proof using Type. unfold timer_key. destruct (ts !! x), (ts' !! x); simpl; congruence. Qed.

Lemma timers_order_ext tree ts ts' : (∀ x, x ∈ ot_seq tree → absTime <$> ts' !! x = absTime <$> ts !! x) →
  in_order (λ _, True) compare_timers (timer_key ts) (ot_seq tree) → in_order (λ _, True) compare_timers (timer_key ts') (ot_seq tree).
Proof using Type. intros He. apply in_order_ext. intros x Hx. by apply timer_key_ext, He. Qed.

Lemma compare_timers_order : key_order (λ _, True) compare_timers.
Proof using Type. exact time_addr_order. Qed.

Lemma tree_NoDup tree expired ts : timers_inv tree expired ts → NoDup (ot_seq tree).
Proof using Type. intros Hi. eapply in_order_NoDup; [exact compare_timers_order | apply (ti_order _ _ _ Hi)]. Qed.

(** The first timer of the tree, and what is left without it. *)
Lemma tree_remove tree expired ts x : timers_inv tree expired ts → x ∈ ot_seq tree →
  ∃ tree' t, ot_Remove tree x = Some tree' ∧ ot_ok tree' ∧ ot_seq tree' = filter (λ y, y ≠ x) (ot_seq tree) ∧
    ts !! x = Some t ∧ tm_state t = TIMER_STATE_RUNNING.
Proof using Type.
  intros Hi Hx. destruct (ot_remove tree x (ti_tree _ _ _ Hi) Hx) as (tree' & E & Hok & Es).
  apply (ti_running _ _ _ Hi) in Hx. destruct (ts !! x) as [t |]; [| done]. injection Hx as Hx. by exists tree', t.
Qed.

(** Taking a timer out of the tree and giving it another state. *)
Lemma timers_inv_leave tree expired ts x tree' t s : timers_inv tree expired ts → x ∈ ot_seq tree → ot_ok tree' →
  ot_seq tree' = filter (λ y, y ≠ x) (ot_seq tree) → ts !! x = Some t → s ≠ TIMER_STATE_RUNNING →
  timers_inv tree' (match s with TIMER_STATE_EXPIRED => expired ++ [x] | _ => expired end) (<[x := t <| tm_state := s |>]> ts).
Proof using Type.
  intros Hi Hx Hok Es Ht Hs. pose proof (proj1 (ti_running _ _ _ Hi x) Hx) as Hrun. rewrite Ht in Hrun. injection Hrun as Hrun.
  assert (x ∉ expired) as Hxe by (rewrite (ti_expired _ _ _ Hi), Ht; simpl; congruence).
  split.
  - done.
  - rewrite Es. eapply in_order_ext; [| apply in_order_filter, (ti_order _ _ _ Hi)]. intros y Hy.
    apply list_elem_of_filter in Hy as [Hy _]. apply timer_key_ext. by rewrite lookup_insert_ne.
  - intros y. rewrite Es, list_elem_of_filter, (ti_running _ _ _ Hi), lookup_insert. case_decide as E.
    + subst y. cbn. split; [by intros [? _] | by intros [= ?]].
    + split; [by intros [_ ?] | done].
  - destruct s; [apply (ti_nodup _ _ _ Hi) | apply (ti_nodup _ _ _ Hi) |].
    apply NoDup_app. split; [apply (ti_nodup _ _ _ Hi) |]. split; [| by apply NoDup_singleton].
    intros y Hy. rewrite list_elem_of_singleton. by intros ->.
  - intros y. rewrite lookup_insert. case_decide as E.
    + subst y. cbn. destruct s; [| done |].
      * split; [done | by intros [= ?]].
      * split; [done |]. intros _. rewrite elem_of_app. right. apply list_elem_of_here.
    + rewrite <- (ti_expired _ _ _ Hi). destruct s; [done | done |].
      rewrite elem_of_app, list_elem_of_singleton. split; [intros [? | ->]; done | tauto].
  - intros y t'. rewrite lookup_insert. case_decide as E; [| apply (ti_range _ _ _ Hi)]. intros [= <-]. cbn.
    by apply (ti_range _ _ _ Hi x).
Qed.

Lemma expire_spec bsys x l : rinv bsys → ot_seq (timers_tree bsys) = x :: l →
  ∃ bsys', expire bsys x = Some bsys' ∧ rinv bsys' ∧ moved_timers bsys [x] bsys'.
Proof using Type.
  intros [Hj Ht Hf Hl] Es. assert (x ∈ ot_seq (timers_tree bsys)) as Hx by (rewrite Es; apply list_elem_of_here).
  destruct (tree_remove _ _ _ _ Ht Hx) as (tree' & t & E & Hok & Es' & Hxt & Hrun).
  unfold expire. rewrite E, option_bind_Some, Hxt, option_bind_Some. eexists. split; [done |]. split.
  - split; [done | | done | done]. cbn. apply (timers_inv_leave _ _ _ _ _ _ TIMER_STATE_EXPIRED Ht Hx Hok Es' Hxt). done.
  - pose proof (tree_NoDup _ _ _ Ht) as Hnd. rewrite Es in Hnd. apply NoDup_cons in Hnd as [Hn _]. split; cbn.
    + rewrite Es', Es. rewrite filter_cons_False by tauto. by rewrite filter_ne_notin.
    + done.
    + intros y. rewrite lookup_insert. case_decide as Exy; [subst y; rewrite decide_True by apply list_elem_of_here; by rewrite Hxt |].
      by rewrite decide_False by (rewrite list_elem_of_singleton; congruence).
    + by destruct bsys.
Qed.

Definition at_time (ts : gmap addr BSmallTimer) (x : addr) : Z := from_option absTime 0 (ts !! x).

Lemma order_head tree expired ts x l : timers_inv tree expired ts → ot_seq tree = x :: l → ∀ y, y ∈ x :: l → at_time ts x ≤ at_time ts y.
Proof using Type.
  intros Hi Es y Hy. pose proof (ti_order _ _ _ Hi) as [_ Hs]. rewrite Es in Hs. apply StronglySorted_inv in Hs as [_ Hf].
  apply elem_of_cons in Hy as [-> | Hy]; [lia |]. rewrite Forall_forall in Hf. destruct (Hf y Hy) as (kx & ky & Ex & Ey & E).
  unfold timer_key, at_time in *. destruct (ts !! x) as [tx |]; [| done]. destruct (ts !! y) as [ty |]; [| done].
  injection Ex as <-. injection Ey as <-. simpl.
  destruct (time_addr_cases (absTime tx, x) (absTime ty, y)) as [[_ Hso] | [[E' _] | [E' _]]]; [unfold sooner in Hso; simpl in Hso; lia | |];
    change time_addr_compare with compare_timers in E'; lia.
Qed.

Lemma timers_fuel_enough bsys : rinv bsys → (length (ot_seq (timers_tree bsys)) < timers_fuel bsys)%nat.
Proof using Type.
  intros [_ Ht _ _]. unfold timers_fuel. pose proof (tree_NoDup _ _ _ Ht) as Hnd.
  rewrite <- size_dom, <- (size_list_to_set (C := gset addr) (ot_seq (timers_tree bsys))) by done.
  assert (list_to_set (ot_seq (timers_tree bsys)) ⊆ dom (timers bsys)) as Hsub; [| apply subseteq_size in Hsub; lia].
  intros x Hx%elem_of_list_to_set. apply (ti_running _ _ _ Ht) in Hx. apply elem_of_dom. by destruct (timers bsys !! x).
Qed.

(** The first timer is in the store, running. *)
Lemma first_running bsys x l : rinv bsys → ot_seq (timers_tree bsys) = x :: l →
  ot_GetFirst (timers_tree bsys) = Some (Some x) ∧ ∃ t, timers bsys !! x = Some t ∧ tm_state t = TIMER_STATE_RUNNING ∧ at_time (timers bsys) x = absTime t.
Proof using Type.
  intros [_ Ht _ _] Es. split; [by rewrite (ot_first _ (ti_tree _ _ _ Ht)), Es |].
  pose proof (proj1 (ti_running _ _ _ Ht x)) as Hx. rewrite Es in Hx. specialize (Hx (list_elem_of_here _ _)).
  unfold at_time. destruct (timers bsys !! x) as [t |]; [| done]. injection Hx as Hx. by exists t.
Qed.

Lemma first_none bsys : rinv bsys → ot_seq (timers_tree bsys) = [] → ot_GetFirst (timers_tree bsys) = Some None.
Proof using Type. intros [_ Ht _ _] Es. by rewrite (ot_first _ (ti_tree _ _ _ Ht)), Es. Qed.

Lemma moved_at_time bsys due bsys' x : moved_timers bsys due bsys' → at_time (timers bsys') x = at_time (timers bsys) x.
Proof using Type. intros [_ _ Hm _]. unfold at_time. rewrite Hm. case_decide; [| done]. by destruct (timers bsys !! x). Qed.

Lemma moved_NoDup bsys : rinv bsys → NoDup (ot_seq (timers_tree bsys)).
Proof using Type. intros [_ Ht _ _]. by eapply tree_NoDup. Qed.

Lemma move_expired_loop_spec now fuel : ∀ bsys, rinv bsys → (length (ot_seq (timers_tree bsys)) < fuel)%nat →
  ∃ bsys' due, move_expired_loop fuel bsys now = Some (bsys', bool_decide (due ≠ [])) ∧ rinv bsys' ∧ moved_timers bsys due bsys' ∧ (due = [] → bsys' = bsys) ∧
    (∀ x, x ∈ due → at_time (timers bsys) x ≤ now) ∧ (∀ x, x ∈ ot_seq (timers_tree bsys') → now < at_time (timers bsys) x).
Proof using Type.
  induction fuel as [| fuel IH]; intros bsys Hi Hf; [lia |]. cbn [move_expired_loop].
  destruct (ot_seq (timers_tree bsys)) as [| x l] eqn:Es.
  - rewrite (first_none bsys Hi Es), option_bind_Some. exists bsys, []. split; [done |]. split; [done |]. split; [apply moved_refl |].
    rewrite Es. split; [done |]. split; by intros x ?%not_elem_of_nil.
  - destruct (first_running bsys x l Hi Es) as (-> & t & Hx & Hrun & Hat). rewrite option_bind_Some, Hx, option_bind_Some.
    rewrite ASSERT_seq by (by apply bool_decide_eq_true). destruct (now <? absTime t) eqn:E; b2p.
    + exists bsys, []. split; [done |]. split; [done |]. split; [apply moved_refl |]. split; [done |]. split; [by intros y ?%not_elem_of_nil |].
      intros y Hy. rewrite Es in Hy. pose proof (order_head _ _ _ _ _ (ri_timers _ Hi) Es y Hy). lia.
    + destruct (expire_spec bsys x l Hi Es) as (bsys1 & -> & Hi1 & Hm1). rewrite option_bind_Some.
      pose proof (mv_seq _ _ _ Hm1) as Hs1. rewrite Es in Hs1. injection Hs1 as Hs1.
      destruct (IH bsys1 Hi1) as (bsys2 & due & -> & Hi2 & Hm2 & _ & Hd & Hr); [rewrite <- Hs1; simpl in Hf; lia |].
      rewrite option_bind_Some. exists bsys2, (x :: due). split; [done |]. split; [done |].
      split; [eapply moved_step; [by apply moved_NoDup | done | done] |]. split; [done |]. split.
      * intros y [-> | Hy]%elem_of_cons; [lia |]. rewrite <- (moved_at_time _ _ _ _ Hm1). by apply Hd.
      * intros y Hy. rewrite <- (moved_at_time _ _ _ _ Hm1). by apply Hr.
Qed.

Lemma move_expired_spec now bsys : rinv bsys →
  ∃ bsys' due, move_expired_timers bsys now = Some (bsys', bool_decide (due ≠ [])) ∧ rinv bsys' ∧ moved_timers bsys due bsys' ∧ (due = [] → bsys' = bsys) ∧
    (∀ x, x ∈ due → at_time (timers bsys) x ≤ now) ∧ (∀ x, x ∈ ot_seq (timers_tree bsys') → now < at_time (timers bsys) x).
Proof using Type. intros Hi. apply move_expired_loop_spec; [done |]. by apply timers_fuel_enough. Qed.

(** The timers of the least time. *)
Lemma move_same_time_spec ft fuel : ∀ bsys, rinv bsys → (length (ot_seq (timers_tree bsys)) < fuel)%nat →
  (∀ x, x ∈ ot_seq (timers_tree bsys) → ft ≤ at_time (timers bsys) x) →
  ∃ bsys' due, move_same_time_loop fuel bsys ft = Some bsys' ∧ rinv bsys' ∧ moved_timers bsys due bsys' ∧
    (∀ x, x ∈ due → at_time (timers bsys) x = ft) ∧ (∀ x, x ∈ ot_seq (timers_tree bsys') → ft < at_time (timers bsys) x).
Proof using Type.
  induction fuel as [| fuel IH]; intros bsys Hi Hf Hge; [lia |]. cbn [move_same_time_loop].
  destruct (ot_seq (timers_tree bsys)) as [| x l] eqn:Es.
  - rewrite (first_none bsys Hi Es), option_bind_Some. exists bsys, []. split; [done |]. split; [done |]. split; [apply moved_refl |].
    rewrite Es. split; by intros x ?%not_elem_of_nil.
  - destruct (first_running bsys x l Hi Es) as (-> & t & Hx & Hrun & Hat). rewrite option_bind_Some, Hx, option_bind_Some.
    rewrite ASSERT_seq by (by apply bool_decide_eq_true). pose proof (Hge x (list_elem_of_here _ _)).
    rewrite ASSERT_seq by (apply Z.leb_le; lia). destruct (ft <? absTime t) eqn:E; b2p.
    + exists bsys, []. split; [done |]. split; [done |]. split; [apply moved_refl |]. split; [by intros y ?%not_elem_of_nil |].
      intros y Hy. rewrite Es in Hy. pose proof (order_head _ _ _ _ _ (ri_timers _ Hi) Es y Hy). lia.
    + destruct (expire_spec bsys x l Hi Es) as (bsys1 & -> & Hi1 & Hm1). rewrite option_bind_Some.
      pose proof (mv_seq _ _ _ Hm1) as Hs1. rewrite Es in Hs1. injection Hs1 as Hs1.
      destruct (IH bsys1 Hi1) as (bsys2 & due & -> & Hi2 & Hm2 & Hd & Hr); [rewrite <- Hs1; simpl in Hf; lia | |].
      { intros y Hy. rewrite (moved_at_time _ _ _ _ Hm1). apply Hge. rewrite <- Hs1 in Hy. by apply list_elem_of_further. }
      exists bsys2, (x :: due). split; [done |]. split; [done |].
      split; [eapply moved_step; [by apply moved_NoDup | done | done] |]. split.
      * intros y [-> | Hy]%elem_of_cons; [lia |]. rewrite <- (moved_at_time _ _ _ _ Hm1). by apply Hd.
      * intros y Hy. rewrite <- (moved_at_time _ _ _ _ Hm1). by apply Hr.
Qed.

Lemma move_first_spec bsys x l : rinv bsys → ot_seq (timers_tree bsys) = x :: l →
  ∃ bsys' due, move_first_timers bsys = Some bsys' ∧ rinv bsys' ∧ moved_timers bsys (x :: due) bsys' ∧
    (∀ y, y ∈ x :: due → at_time (timers bsys) y = at_time (timers bsys) x) ∧
    (∀ y, y ∈ ot_seq (timers_tree bsys') → at_time (timers bsys) x < at_time (timers bsys) y).
Proof using Type.
  intros Hi Es. unfold move_first_timers.
  destruct (first_running bsys x l Hi Es) as (-> & t & Hx & Hrun & Hat). rewrite option_bind_Some. cbn [nonnull].
  rewrite ASSERT_seq, option_bind_Some, Hx, option_bind_Some by done.
  rewrite ASSERT_seq by (by apply bool_decide_eq_true). cbv zeta. rewrite <- Hat.
  destruct (expire_spec bsys x l Hi Es) as (bsys1 & -> & Hi1 & Hm1). rewrite option_bind_Some.
  pose proof (mv_seq _ _ _ Hm1) as Hs1. rewrite Es in Hs1. injection Hs1 as Hs1.
  destruct (move_same_time_spec (at_time (timers bsys) x) (timers_fuel bsys1) bsys1 Hi1 (timers_fuel_enough bsys1 Hi1))
    as (bsys2 & due & -> & Hi2 & Hm2 & Hd & Hr).
  { intros y Hy. rewrite (moved_at_time _ _ _ _ Hm1). apply (order_head _ _ _ _ _ (ri_timers _ Hi) Es). rewrite <- Hs1 in Hy.
    by apply list_elem_of_further. }
  exists bsys2, due. split; [done |]. split; [done |]. split; [eapply moved_step; [by apply moved_NoDup | done | done] |]. split.
  - intros y [-> | Hy]%elem_of_cons; [done |]. rewrite <- (moved_at_time _ _ _ _ Hm1 : at_time _ y = _). by apply Hd.
  - intros y Hy. rewrite <- (moved_at_time _ _ _ _ Hm1 : at_time _ y = _). by apply Hr.
Qed.

(** ** Waiting *)

(** What the kernel may report: distinct registered file descriptors. *)
Definition events_ok (fs : gmap addr BFileDescriptor) (events : list epoll_event) : Prop :=
  NoDup (data_ptr <$> events) ∧
  ∀ e, e ∈ events → ∃ x b, data_ptr e = Some x ∧ fs !! x = Some b ∧ active b = true.

(** What [epoll_wait] promises: the clock does not go back, there is no error but
    an interruption, at most as many events as asked for, and none only when the
    requested time has passed. *)
Fixpoint answers_ok (fs : gmap addr BFileDescriptor) (timeout_abs : option Z) (now : Z) (ws : list (wait_answer * Z)) : Prop :=
  match ws with
  | [] => True
  | (waitres, clock) :: ws =>
      now ≤ clock ∧
      match waitres with
      | WInterrupted => True
      | WError => False
      | WReady events =>
          events_ok fs events ∧ zlen events ≤ BSYSTEM_MAX_RESULTS ∧
          (events = [] → timeout_abs ≠ None ∧ now + epoll_timeout timeout_abs now ≤ clock)
      end ∧ answers_ok fs timeout_abs clock ws
  end.

Lemma set_pointers_spec events : ∀ i fs, NoDup (data_ptr <$> events) →
  (∀ e, e ∈ events → ∃ x b, data_ptr e = Some x ∧ fs !! x = Some b ∧ active b = true ∧ epoll_returned_ptr b = None) →
  ∃ fs', set_epoll_fd_pointers i events fs = Some fs' ∧
    (∀ j x e, events !! j = Some (mk_epoll_event (Some x) e) →
      ∃ b, fs !! x = Some b ∧ fs' !! x = Some (b <| epoll_returned_ptr := Some (i + j)%nat |>)) ∧
    (∀ x, Some x ∉ data_ptr <$> events → fs' !! x = fs !! x).
Proof using Type.
  induction events as [| [p e] events IH]; intros i fs Hnd Hall; [by exists fs |]. cbn [set_epoll_fd_pointers].
  apply NoDup_cons in Hnd as [Hp Hnd]. cbn [data_ptr] in *.
  destruct (Hall (mk_epoll_event p e)) as (x & b & Ep & Hx & Hact & Hret); [apply list_elem_of_here |]. simpl in Ep. subst p. cbn [nonnull].
  rewrite ASSERT_seq, option_bind_Some, Hx, option_bind_Some, ASSERT_seq, ASSERT_seq by (done || by apply bool_decide_eq_true).
  destruct (IH (S i) (<[x := b <| epoll_returned_ptr := Some i |>]> fs) Hnd) as (fs' & E & H1 & H2).
  { intros e' He'. destruct (Hall e') as (y & b' & Ey & Hy & ? & ?); [by apply list_elem_of_further |]. exists y, b'.
    rewrite lookup_insert_ne; [done |]. intros ->. apply Hp. rewrite <- Ey. by apply list_elem_of_fmap_2. }
  exists fs'. split; [done |]. split.
  - intros [| j] y e' Hj; cbn in Hj.
    + injection Hj as <- <-. exists b. split; [done |]. rewrite H2 by done. rewrite lookup_insert_eq. by rewrite Nat.add_0_r.
    + destruct (H1 j y e' Hj) as (b' & Hb' & Hf'). rewrite lookup_insert_ne in Hb'.
      * exists b'. split; [done |]. by rewrite Hf', Nat.add_succ_r.
      * intros ->. apply Hp. change (Some y) with (data_ptr (mk_epoll_event (Some y) e')). apply list_elem_of_fmap_2. by eapply list_elem_of_lookup_2.
  - intros y Hy. cbn [fmap list_fmap data_ptr] in Hy. rewrite elem_of_cons in Hy. rewrite H2 by tauto. apply lookup_insert_ne. intros ->. tauto.
Qed.

(** Before a wait no file descriptor points into the array. *)
Lemma fds_drained results n fs : fds_inv results n n fs → ∀ x b, fs !! x = Some b → active b = true → epoll_returned_ptr b = None.
Proof using Type.
  intros Hi x b Hx Ha. destruct (epoll_returned_ptr b) as [i |] eqn:E; [| done].
  destruct (fi_fd _ _ _ _ Hi x b i Hx Ha E) as [? _]. lia.
Qed.

Lemma fds_inv_clear results n fs : fds_inv results n n fs → fds_inv results 0 0 fs.
Proof using Type.
  intros Hi. split; [lia | lia | | apply (fi_wait _ _ _ _ Hi)]. intros x b i Hx Ha E.
  pose proof (fds_drained _ _ _ Hi x b Hx Ha). congruence.
Qed.

Lemma fds_inv_results results fs events : fds_inv results 0 0 fs → events_ok fs events →
  ∃ fs', set_epoll_fd_pointers 0 events fs = Some fs' ∧
    fds_inv (events ++ drop (length events) results) (length events) 0 fs'.
Proof using Type.
  intros Hi [Hnd Hall].
  destruct (set_pointers_spec events 0 fs Hnd) as (fs' & E & H1 & H2).
  { intros e He. destruct (Hall e He) as (x & b & ? & Hx & Ha). exists x, b. split_and!; [done.. |]. by eapply fds_drained. }
  exists fs'. split; [done |]. split.
  - rewrite length_app. lia.
  - intros i x e Hir Hr. rewrite lookup_app_l in Hr by lia. destruct (H1 i x e Hr) as (b & Hb & Hb').
    destruct (Hall _ (list_elem_of_lookup_2 _ _ _ Hr)) as (y & b0 & Ey & Hy & Ha). simpl in Ey. injection Ey as <-. rewrite Hb in Hy.
    injection Hy as <-. eexists. split; [exact Hb' |]. done.
  - intros x b i Hx Ha Er. destruct (decide (Some x ∈ data_ptr <$> events)) as [Hin | Hin].
    + apply list_elem_of_fmap in Hin as ([p e] & Ep & He). simpl in Ep. subst p. apply list_elem_of_lookup in He as [j Hj].
      destruct (H1 j x e Hj) as (b' & Hb' & Hf'). rewrite Hf' in Hx. injection Hx as <-. cbn in Er. injection Er as <-.
      pose proof (lookup_lt_Some _ _ _ Hj). split; [lia |]. exists e. by rewrite lookup_app_l.
    + rewrite H2 in Hx by done. pose proof (fds_drained _ _ _ Hi x b Hx Ha). congruence.
  - intros x b Hx Ha. destruct (decide (Some x ∈ data_ptr <$> events)) as [Hin | Hin].
    + apply list_elem_of_fmap in Hin as ([p e] & Ep & He). simpl in Ep. subst p. apply list_elem_of_lookup in He as [j Hj].
      destruct (H1 j x e Hj) as (b' & Hb' & Hf'). rewrite Hf' in Hx. injection Hx as <-. cbn in Ha |- *. by apply (fi_wait _ _ _ _ Hi x b').
    + rewrite H2 in Hx by done. by apply (fi_wait _ _ _ _ Hi x b).
Qed.

Lemma reset_limits_spec l : ∀ ls, NoDup l → (∀ x, x ∈ l → ∃ lim, ls !! x = Some lim ∧ 0 < count lim) →
  ∃ ls', reset_limits l ls = Some ls' ∧
    ∀ x, ls' !! x = if decide (x ∈ l) then (λ lim, lim <| count := 0 |>) <$> ls !! x else ls !! x.
Proof using Type.
  induction l as [| x l IH]; intros ls Hnd Hall.
  { exists ls. split; [done |]. intros x. by rewrite decide_False by apply not_elem_of_nil. }
  cbn [reset_limits]. apply NoDup_cons in Hnd as [Hx Hnd]. destruct (Hall x (list_elem_of_here _ _)) as (lim & Hlim & Hc).
  rewrite Hlim, option_bind_Some, ASSERT_seq by (apply Z.ltb_lt; lia).
  destruct (IH (<[x := lim <| count := 0 |>]> ls) Hnd) as (ls' & E & Hls).
  { intros y Hy. rewrite lookup_insert_ne by congruence. apply Hall. by apply list_elem_of_further. }
  exists ls'. split; [done |]. intros y. rewrite Hls. destruct (decide (y = x)) as [-> | Hne].
  - rewrite decide_False by done. rewrite decide_True by apply list_elem_of_here. by rewrite lookup_insert_eq, Hlim.
  - rewrite lookup_insert_ne by done. destruct (decide (y ∈ l)).
    + by rewrite decide_True by (by apply list_elem_of_further).
    + by rewrite decide_False by (rewrite elem_of_cons; tauto).
Qed.

Lemma limits_inv_reset l ls : limits_inv l ls →
  ∃ ls', reset_limits l ls = Some ls' ∧ limits_inv [] ls' ∧ ∀ x, ls' !! x = (λ lim, lim <| count := 0 |>) <$> ls !! x.
Proof using Type.
  intros Hi. destruct (reset_limits_spec l ls (li_nodup _ _ Hi)) as (ls' & E & Hls); [intros x; apply (li_active _ _ Hi) |].
  assert (∀ x, ls' !! x = (λ lim, lim <| count := 0 |>) <$> ls !! x) as Hls'.
  { intros x. rewrite Hls. case_decide as Hx; [done |]. destruct (ls !! x) as [[lm c] |] eqn:Ex; [| done]. cbn.
    assert (c = 0) as ->; [| done]. pose proof (li_count _ _ Hi x _ Ex) as [Hc _]. cbn in Hc.
    rewrite (li_active _ _ Hi) in Hx. apply Z.le_antisymm; [| done]. apply Z.nlt_ge. intros ?. apply Hx. by exists (mk_BReactorLimit lm c). }
  exists ls'. split; [done |]. split; [| done]. split; [constructor | |].
  - intros x. split; [by intros ?%not_elem_of_nil |]. intros (lim & Hx & Hc). rewrite Hls' in Hx. destruct (ls !! x); [| done].
    injection Hx as <-. cbn in Hc. lia.
  - intros x lim Hx. rewrite Hls' in Hx. destruct (ls !! x) as [l0 |] eqn:E0; [| done]. injection Hx as <-. cbn.
    pose proof (li_count _ _ Hi x l0 E0). lia.
Qed.

(** The timeout of the first timer. *)
Definition first_time (bsys : reactor) : option Z := at_time (timers bsys) <$> head (ot_seq (timers_tree bsys)).

Lemma first_time_Some bsys ta : first_time bsys = Some ta → ∃ x l, ot_seq (timers_tree bsys) = x :: l ∧ ta = at_time (timers bsys) x.
Proof using Type. unfold first_time. destruct (ot_seq (timers_tree bsys)) as [| x l]; [done |]. intros [= <-]. by exists x, l. Qed.

(** What a wait that returns has done: timers have reached their time by a reading of
    the clock, or events are to be dispatched. *)
Inductive wait_result (bsys : reactor) (ws : list (wait_answer * Z)) : reactor → Prop :=
| waited_timers due waitres clock bsys' : (waitres, clock) ∈ ws → due ≠ [] → rinv bsys' → moved_timers bsys due bsys' →
    (∀ x, x ∈ due → at_time (timers bsys) x ≤ clock) →
    (∀ x y, x ∈ due → y ∈ ot_seq (timers_tree bsys') → at_time (timers bsys) x < at_time (timers bsys) y) →
    wait_result bsys ws bsys'
| waited_events events clock bsys' fs : (WReady events, clock) ∈ ws → events ≠ [] → rinv bsys' →
    bsys' = (store_results bsys events) <| epoll_results_num := length events |> <| fds := fs |> →
    set_epoll_fd_pointers 0 events (fds bsys) = Some fs → wait_result bsys ws bsys'.

Lemma wait_result_cons bsys w ws bsys' : wait_result bsys ws bsys' → wait_result bsys (w :: ws) bsys'.
Proof using Type.
  destruct 1 as [due a clock ? Hin | events clock ? fs Hin].
  - eapply (waited_timers _ _ due a clock); [by apply list_elem_of_further | done..].
  - eapply (waited_events _ _ events clock _ fs); [by apply list_elem_of_further | done..].
Qed.

Lemma answers_ok_None fs ws : ∀ now now', now ≤ now' → answers_ok fs None now' ws → answers_ok fs None now ws.
Proof using Type.
  destruct ws as [| [a clock] ws]; intros now now' Hle; [done |]. intros (? & Ha & Hws). split; [lia |]. split; [| done].
  destruct a; [done | done |]. destruct Ha as (? & ? & He). split; [done |]. split; [done |]. intros ->. by destruct (He eq_refl).
Qed.

(** The timers of the first time expire at [clock]. *)
Lemma move_first_result bsys ws a clock ta : rinv bsys → first_time bsys = Some ta → ta ≤ clock → (a, clock) ∈ ws →
  ∃ bsys', move_first_timers bsys = Some bsys' ∧ wait_result bsys ws bsys'.
Proof using Type.
  intros Hi (x & l & Es & ->)%first_time_Some Hle Hin.
  destruct (move_first_spec bsys x l Hi Es) as (bsys' & due & E & Hi' & Hm & Hd & Hr). exists bsys'. split; [done |].
  eapply (waited_timers _ _ (x :: due) a clock); [done | done | done | done | |].
  - intros y Hy. rewrite (Hd y Hy). lia.
  - intros y z Hy Hz. rewrite (Hd y Hy). by apply Hr.
Qed.

Lemma store_nothing (bsys : reactor) : store_results bsys [] = bsys.
Proof using Type. by destruct bsys. Qed.

Lemma wait_loop_spec ws : ∀ bsys now, rinv bsys → epoll_results_num bsys = 0%nat → epoll_results_pos bsys = 0%nat →
  (∀ ta, first_time bsys = Some ta → now < ta) → answers_ok (fds bsys) (first_time bsys) now ws →
  ∃ r, wait_loop (first_time bsys) now bsys ws = Some r ∧ ∀ bsys', r = Some bsys' → wait_result bsys ws bsys'.
Proof using Type.
  induction ws as [| [a clock] ws IH]; intros bsys now Hi Hn Hp Hfirst Hok; [by exists None |].
  destruct Hok as (Hclk & Ha & Hok). cbn [wait_loop].
  set (try_again := match first_time bsys with Some ta => _ | None => _ end).
  assert (∃ r, try_again = Some r ∧ ∀ bsys', r = Some bsys' → wait_result bsys ((a, clock) :: ws) bsys') as Htry.
  { subst try_again. destruct (first_time bsys) as [ta |] eqn:Eft.
    - destruct (ta <=? clock) eqn:E; b2p.
      + destruct (move_first_result bsys ((a, clock) :: ws) a clock ta Hi Eft E) as (bsys' & -> & Hw); [apply list_elem_of_here |].
        rewrite option_bind_Some. eexists. split; [done |]. by intros ? [= <-].
      + destruct (IH bsys clock Hi Hn Hp) as (r & Er & Hr); [rewrite Eft; by intros ? [= <-] | by rewrite Eft |].
        rewrite Eft in Er. exists r. split; [done |]. intros bsys' Hb. by apply wait_result_cons, Hr.
    - destruct (IH bsys now Hi Hn Hp) as (r & Er & Hr); [by rewrite Eft | rewrite Eft; by eapply answers_ok_None |].
      rewrite Eft in Er. exists r. split; [done |]. intros bsys' Hb. by apply wait_result_cons, Hr. }
  clearbody try_again. destruct a as [| | events]; [exact Htry | done |].
  destruct Ha as (Hev & Hlen & Hempty). cbv zeta.
  destruct events as [| e events].
  - destruct (Hempty eq_refl) as [Hne Hto]. destruct (first_time bsys) as [ta |] eqn:Eft; [| done].
    rewrite !ASSERT_seq by done. change (negb (zlen [] =? 0)) with false. cbn [orb]. rewrite store_nothing.
    destruct (timeout_rel_trunc (Some ta) now =? timeout_rel (Some ta) now) eqn:E; b2p; [| exact Htry].
    destruct (move_first_result bsys ((WReady [], clock) :: ws) (WReady []) clock ta Hi Eft) as (bsys' & -> & Hw);
      [| apply list_elem_of_here |].
    + unfold epoll_timeout in Hto. rewrite E in Hto. simpl in Hto. lia.
    + rewrite option_bind_Some. eexists. split; [done |]. by intros ? [= <-].
  - assert ((zlen (e :: events) =? 0) = false) as Hz by (apply Z.eqb_neq; unfold zlen; simpl; lia). rewrite Hz. cbn [negb orb].
    rewrite ASSERT_seq, ASSERT_seq by (done || by apply Z.leb_le).
    destruct Hi as [Hj Ht Hf Hl]. rewrite Hn, Hp in Hf.
    destruct (fds_inv_results _ _ (e :: events) Hf Hev) as (fs' & Efs & Hf').
    assert (set_epoll_fd_pointers 0 (take (length (e :: events)) (epoll_results (store_results bsys (e :: events)))) (fds bsys) = Some fs') as Eset.
    { unfold store_results. cbn [epoll_results set]. by rewrite take_app_length. }
    cbn [epoll_results_num epoll_results fds set] in Eset |- *. cbn [fds store_results] in Eset. change (fds (store_results bsys (e :: events))) with (fds bsys).
    rewrite Eset, option_bind_Some. eexists. split; [done |]. intros bsys' [= <-].
    eapply (waited_events _ _ (e :: events) clock _ fs'); [apply list_elem_of_here | done | | done | done].
    split; cbn; [done | done | | done]. rewrite Hp. exact Hf'.
Qed.

(** ** A wait ends *)

(** The answers that end a wait: events, or any answer at or after the timeout. *)
Definition ends_wait (timeout_abs : option Z) (w : wait_answer * Z) : Prop :=
  (∃ e events, w.1 = WReady (e :: events)) ∨ (∃ ta, timeout_abs = Some ta ∧ ta ≤ w.2).

Lemma wait_loop_returns ws : ∀ bsys now, rinv bsys → epoll_results_num bsys = 0%nat → epoll_results_pos bsys = 0%nat →
  (∀ ta, first_time bsys = Some ta → now < ta) → answers_ok (fds bsys) (first_time bsys) now ws →
  Exists (ends_wait (first_time bsys)) ws → ∃ bsys', wait_loop (first_time bsys) now bsys ws = Some (Some bsys').
Proof using Type.
  intros bsys now Hi Hn Hp Hfirst Hok Hex.
  destruct (wait_loop_spec ws bsys now Hi Hn Hp Hfirst Hok) as (r & Er & _). destruct r as [bsys' |]; [by exists bsys' |]. exfalso.
  revert now Hfirst Hok Er. induction Hex as [[a clock] ws Hend | [a clock] ws Hex IH]; intros now Hfirst Hok Er; destruct Hok as (Hclk & Ha & Hok);
    cbn [wait_loop] in Er.
  - destruct Hend as [(e & events & Ea) | (ta & Eta & Hle)]; cbn in *.
    + subst a. change (zlen (e :: events) =? 0) with false in Er. cbn [negb orb] in Er.
      apply bind_Some in Er as (_ & _ & Er). apply bind_Some in Er as (_ & _ & Er). by apply bind_Some in Er as (? & _ & ?).
    + rewrite Eta in Er. assert ((ta <=? clock) = true) as E by (by apply Z.leb_le). rewrite E in Er.
      destruct a as [| | events]; [by apply bind_Some in Er as (? & _ & ?) | done |].
      apply bind_Some in Er as (_ & _ & Er). apply bind_Some in Er as (_ & _ & Er). destruct (_ || _) in Er.
      * destruct (negb _) in Er; by apply bind_Some in Er as (? & _ & ?).
      * by apply bind_Some in Er as (? & _ & ?).
  - assert (match first_time bsys with
            | Some ta => if ta <=? clock then bsys ← move_first_timers bsys; Some (Some bsys) else wait_loop (Some ta) clock bsys ws
            | None => wait_loop None now bsys ws end = Some None → False) as Htry.
    { intros Et. destruct (first_time bsys) as [ta |] eqn:Eft.
      - destruct (ta <=? clock) eqn:E; [by apply bind_Some in Et as (? & _ & ?) |]. b2p. apply (IH clock); [by intros ? [= <-] | done | done].
      - apply (IH now); [done | by eapply answers_ok_None | done]. }
    destruct a as [| | events]; [by destruct (first_time bsys); apply Htry | done |].
    apply bind_Some in Er as (_ & _ & Er). apply bind_Some in Er as (_ & _ & Er). destruct (_ || _) eqn:Eb in Er.
    + destruct (negb _) in Er; by apply bind_Some in Er as (? & _ & ?).
    + destruct events; [| by change (zlen (_ :: _) =? 0) with false in Eb]. by destruct (first_time bsys); apply Htry.
Qed.

(** ** The calls into the reactor *)

Definition call_ok (bsys : reactor) (c : rcall) : Prop :=
  match c with
  | RJob c => c ≠ CExecute ∧ ∃ q q' a, jq_rep (pending_jobs bsys) q ∧ astep q c = Some (q', a)
  | RQuit code => True
  | RSmallTimerInit bt _ => tm_state <$> timers bsys !! bt = None ∨ tm_state <$> timers bsys !! bt = Some TIMER_STATE_INACTIVE
  | RTimerInit bt ms _ =>
      (tm_state <$> timers bsys !! bt = None ∨ tm_state <$> timers bsys !! bt = Some TIMER_STATE_INACTIVE) ∧ is_int64 ms
  | RSetSmallTimer bt mode time now => is_Some (timers bsys !! bt) ∧ is_int64 time ∧ is_int64 now
  | RSetTimer bt now => is_Some (timers bsys !! bt) ∧ is_int64 now
  | RRemoveTimer bt => is_Some (timers bsys !! bt)
  | RFdInit bs _ _ => active <$> fds bsys !! bs ≠ Some true
  | RAddFd bs _ => active <$> fds bsys !! bs = Some false
  | RRemoveFd bs deleted => active <$> fds bsys !! bs = Some true ∧ deleted = true
  | RSetFdEvents bs events modified => active <$> fds bsys !! bs = Some true ∧ 0 ≤ events ≤ 3 ∧ modified = true
  | RLimitInit o lim => limits bsys !! o = None ∧ 0 < lim
  | RLimitFree o | RLimitIncrement o => is_Some (limits bsys !! o)
  | RSetLimit o lim => is_Some (limits bsys !! o) ∧ 0 < lim
  end.

(** Storing a timer that is neither running nor expired, nor was. *)
Lemma timers_inv_idle tree expired ts x t : timers_inv tree expired ts →
  tm_state <$> ts !! x = None ∨ tm_state <$> ts !! x = Some TIMER_STATE_INACTIVE → tm_state t = TIMER_STATE_INACTIVE →
  is_int64 (absTime t) → is_int64 (msTime t) → timers_inv tree expired (<[x := t]> ts).
Proof using Type.
  intros Hi Hx Ht Hr1 Hr2.
  assert (x ∉ ot_seq tree) as Hnt by (rewrite (ti_running _ _ _ Hi); destruct Hx as [-> | ->]; done).
  assert (x ∉ expired) as Hne by (rewrite (ti_expired _ _ _ Hi); destruct Hx as [-> | ->]; done).
  split; [apply (ti_tree _ _ _ Hi) | | | apply (ti_nodup _ _ _ Hi) | |].
  - eapply timers_order_ext; [| apply (ti_order _ _ _ Hi)]. intros y Hy. rewrite lookup_insert_ne by congruence. done.
  - intros y. rewrite lookup_insert. case_decide as E; [subst y; cbn; rewrite Ht; split; done | apply (ti_running _ _ _ Hi)].
  - intros y. rewrite lookup_insert. case_decide as E; [subst y; cbn; rewrite Ht; split; done | apply (ti_expired _ _ _ Hi)].
  - intros y t'. rewrite lookup_insert. case_decide as E; [by intros [= <-] | apply (ti_range _ _ _ Hi)].
Qed.

Lemma remove_timer_spec bsys x : rinv bsys → is_Some (timers bsys !! x) →
  ∃ bsys', BReactor_RemoveSmallTimer bsys x = Some bsys' ∧ rinv bsys' ∧
    (∃ t, timers bsys !! x = Some t ∧ timers bsys' !! x = Some (t <| tm_state := TIMER_STATE_INACTIVE |>)) ∧
    ot_seq (timers_tree bsys') = filter (λ y, y ≠ x) (ot_seq (timers_tree bsys)) ∧
    timers_expired_list bsys' = filter (λ y, y ≠ x) (timers_expired_list bsys) ∧
    bsys' = bsys <| timers_tree := timers_tree bsys' |> <| timers_expired_list := timers_expired_list bsys' |> <| timers := timers bsys' |>.
Proof using Type.
  intros [Hj Ht Hf Hl] [t Hx]. unfold BReactor_RemoveSmallTimer. rewrite Hx, option_bind_Some.
  pose proof (ti_running _ _ _ Ht x) as Hr. pose proof (ti_expired _ _ _ Ht x) as He. rewrite Hx in Hr, He. cbn in Hr, He.
  destruct (tm_state t) eqn:Es.
  - exists bsys. split; [done |]. split; [done |]. split; [exists t; split; [done |]; rewrite Hx; f_equal; destruct t; cbn in *; by subst |].
    rewrite !filter_ne_notin by naive_solver. split_and!; [done.. | by destruct bsys].
  - assert (x ∈ ot_seq (timers_tree bsys)) as Hin by (by apply Hr).
    destruct (tree_remove _ _ _ _ Ht Hin) as (tree' & t' & E & Hok & Es' & Hxt & _). rewrite Hx in Hxt. injection Hxt as <-.
    rewrite E, option_bind_Some. eexists. split; [done |]. split.
    { split; [done | | done | done]. cbn. apply (timers_inv_leave _ _ _ _ _ _ TIMER_STATE_INACTIVE Ht Hin Hok Es' Hx). done. }
    cbn. split; [exists t; split; [done | by rewrite lookup_insert_eq] |]. split; [done |].
    split; [rewrite filter_ne_notin; [done | naive_solver] | by destruct bsys].
  - assert (x ∉ ot_seq (timers_tree bsys)) as Hnt by naive_solver. assert (x ∈ timers_expired_list bsys) as Hin by naive_solver.
    eexists. split; [done |]. split.
    { split; [done | | done | done]. cbn. split; [apply (ti_tree _ _ _ Ht) | | | | |].
      - eapply timers_order_ext; [| apply (ti_order _ _ _ Ht)]. intros y Hy. rewrite lookup_insert_ne by congruence. done.
      - intros y. rewrite lookup_insert. case_decide as E; [subst y; cbn; split; done | apply (ti_running _ _ _ Ht)].
      - apply NoDup_filter, (ti_nodup _ _ _ Ht).
      - intros y. rewrite list_elem_of_filter, lookup_insert, (ti_expired _ _ _ Ht). case_decide as E; [subst y; cbn; naive_solver |].
        split; [by intros [_ ?] | done].
      - intros y t'. rewrite lookup_insert. case_decide as E; [| apply (ti_range _ _ _ Ht)]. intros [= <-]. cbn.
        by apply (ti_range _ _ _ Ht x). }
    cbn. split; [exists t; split; [done | by rewrite lookup_insert_eq] |].
    split; [by rewrite filter_ne_notin | split; [done | by destruct bsys]].
Qed.

Definition set_time (mode : timer_mode) (time now : Z) : Z :=
  match mode with BTIMER_SET_RELATIVE => btime_add now time | BTIMER_SET_ABSOLUTE => time end.

(** A timer that is set is running, at its time, once. *)
Lemma set_timer_spec bsys x mode time now : rinv bsys → is_Some (timers bsys !! x) → is_int64 time → is_int64 now →
  ∃ bsys' t, BReactor_SetSmallTimer bsys x mode time now = Some bsys' ∧ rinv bsys' ∧
    timers bsys' !! x = Some t ∧ tm_state t = TIMER_STATE_RUNNING ∧ absTime t = set_time mode time now ∧
    ot_seq (timers_tree bsys') ≡ₚ x :: filter (λ y, y ≠ x) (ot_seq (timers_tree bsys)) ∧
    timers_expired_list bsys' = filter (λ y, y ≠ x) (timers_expired_list bsys).
Proof using Type.
  intros Hi Hx Htime Hnow. destruct (remove_timer_spec bsys x Hi Hx) as (bsys1 & E1 & [Hj Ht Hf Hl] & (t & Hxt & Hxt1) & Es & Ee & _).
  unfold BReactor_SetSmallTimer. rewrite E1, option_bind_Some. fold (set_time mode time now). set (tm := set_time mode time now).
  assert (is_int64 tm) as Hrange by (subst tm; destruct mode; [done | by apply btime_add_range]).
  cbv zeta. rewrite Hxt1, option_bind_Some. cbn [timers timers_tree set].
  set (t2 := t <| tm_state := TIMER_STATE_INACTIVE |> <| absTime := tm |> <| tm_state := TIMER_STATE_RUNNING |>).
  set (ts2 := <[x := t2]> (timers bsys1)).
  assert (x ∉ ot_seq (timers_tree bsys1)) as Hnt by (rewrite Es, list_elem_of_filter; naive_solver).
  assert (x ∉ timers_expired_list bsys1) as Hne by (rewrite Ee, list_elem_of_filter; naive_solver).
  assert (∀ y, y ≠ x → ts2 !! y = timers bsys1 !! y) as Hother by (intros y Hy; subst ts2; by rewrite lookup_insert_ne).
  assert (timer_key ts2 x = Some (tm, x)) as Hkey by (unfold timer_key; subst ts2; by rewrite lookup_insert_eq).
  assert (in_order (λ _, True) compare_timers (timer_key ts2) (ot_seq (timers_tree bsys1))) as Ho.
  { eapply timers_order_ext; [| apply (ti_order _ _ _ Ht)]. intros y Hy. rewrite Hother by congruence. done. }
  destruct (ot_insert (λ _, True) compare_timers (timer_key ts2) (timers_tree bsys1) x (tm, x) compare_timers_order (ti_tree _ _ _ Ht) Ho Hnt Hkey I)
    as (tree' & ok & Ei & Hok' & Ho' & Eseq).
  destruct (seq_tree.insert_spec (λ _, True) compare_timers (timer_key ts2) x (tm, x) compare_timers_order Hkey I _ Ho) as (l' & El & _ & Hp).
  { intros y Hy E. unfold timer_key in E. destruct (ts2 !! y); [| done]. injection E as _ ->. done. }
  rewrite El in Eseq. injection Eseq as -> <-. change (<[x := _]> (timers bsys1)) with ts2. rewrite Ei, option_bind_Some, ASSERT_seq by done.
  eexists _, t2. split; [reflexivity |]. cbn [timers timers_tree timers_expired_list set]. split; [| split_and!; try done].
  - split; [done | | done | done]. cbn [timers timers_tree timers_expired_list set]. split; [done | done | | apply (ti_nodup _ _ _ Ht) | |].
    + intros y. rewrite Hp, elem_of_cons. destruct (decide (y = x)) as [-> | Hy].
      * subst ts2. rewrite lookup_insert_eq. cbn. split; [done | by left].
      * rewrite Hother by done. rewrite <- (ti_running _ _ _ Ht). split; [intros [? | ?]; done | by right].
    + intros y. destruct (decide (y = x)) as [-> | Hy]; [| rewrite Hother by done; apply (ti_expired _ _ _ Ht)].
      subst ts2. rewrite lookup_insert_eq. cbn. split; done.
    + intros y t'. destruct (decide (y = x)) as [-> | Hy]; [| rewrite Hother by done; apply (ti_range _ _ _ Ht)].
      subst ts2. rewrite lookup_insert_eq. intros [= <-]. cbn. split; [done |]. pose proof (ti_range _ _ _ Ht x _ Hxt1) as [_ Hm]. exact Hm.
  - subst ts2. by rewrite lookup_insert_eq.
  - by rewrite Hp, Es.
Qed.

Lemma active_lookup (fs : gmap addr BFileDescriptor) x v : active <$> fs !! x = Some v → ∃ b, fs !! x = Some b ∧ active b = v.
Proof using Type. destruct (fs !! x) as [b |]; [| done]. intros [= <-]. by exists b. Qed.

(** Storing a file descriptor that no entry points to and that points to none. *)
Lemma fds_inv_idle results num pos fs x b : fds_inv results num pos fs → active <$> fs !! x ≠ Some true →
  (active b = true → epoll_returned_ptr b = None ∧ 0 ≤ waitEvents b ≤ 3) → fds_inv results num pos (<[x := b]> fs).
Proof using Type.
  intros Hi Hx Hb. split; [apply (fi_bounds _ _ _ _ Hi) | | |].
  - intros i y e Hir He. destruct (fi_event _ _ _ _ Hi i y e Hir He) as (b' & Hy & Ha & Hr). exists b'.
    rewrite lookup_insert_ne; [done |]. intros ->. rewrite Hy in Hx. simpl in Hx. congruence.
  - intros y b' i. rewrite lookup_insert. case_decide as E; [| apply (fi_fd _ _ _ _ Hi)]. intros [= <-] Ha Hr.
    destruct (Hb Ha) as [? _]. congruence.
  - intros y b'. rewrite lookup_insert. case_decide as E; [| apply (fi_wait _ _ _ _ Hi)]. intros [= <-] Ha. by apply Hb.
Qed.

(** Removing a file descriptor nulls the entry that points to it. *)
Lemma remove_fd_spec bsys x : rinv bsys → active <$> fds bsys !! x = Some true →
  ∃ bsys', BReactor_RemoveFileDescriptor bsys x true = Some bsys' ∧ rinv bsys' ∧ active <$> fds bsys' !! x = Some false ∧
    ∀ i e, (epoll_results_pos bsys' ≤ i < epoll_results_num bsys')%nat → epoll_results bsys' !! i ≠ Some (mk_epoll_event (Some x) e).
Proof using Type.
  intros [Hj Ht Hf Hl] (b & Hx & Ha)%active_lookup. unfold BReactor_RemoveFileDescriptor.
  rewrite Hx, option_bind_Some, ASSERT_seq by done. cbv zeta. rewrite ASSERT_seq by done.
  assert (∀ fs' results', (∀ y, y ≠ x → fs' !! y = fds bsys !! y) → fs' !! x = Some (b <| active := false |>) →
    (∀ i, epoll_returned_ptr b ≠ Some i → results' !! i = epoll_results bsys !! i) → length results' = length (epoll_results bsys) →
    (∀ i, epoll_returned_ptr b = Some i → ∃ e, results' !! i = Some (mk_epoll_event None e)) →
    fds_inv results' (epoll_results_num bsys) (epoll_results_pos bsys) fs' ∧
    (∀ i e, (epoll_results_pos bsys ≤ i < epoll_results_num bsys)%nat → results' !! i ≠ Some (mk_epoll_event (Some x) e))) as Hgen.
  { intros fs' results' Ho Hx' Hres Hlen Hnull. split; [split |].
    - rewrite Hlen. apply (fi_bounds _ _ _ _ Hf).
    - intros i y e Hir He. destruct (decide (epoll_returned_ptr b = Some i)) as [Ei | Ei].
      { destruct (Hnull i Ei) as (e' & E'). congruence. }
      rewrite Hres in He by done. destruct (fi_event _ _ _ _ Hf i y e Hir He) as (b' & Hy & Ha' & Hr). exists b'.
      rewrite Ho; [done |]. intros ->. rewrite Hx in Hy. injection Hy as <-. done.
    - intros y b' i Hy Ha' Hr. destruct (decide (y = x)) as [-> | Hne]; [rewrite Hx' in Hy; injection Hy as <-; done |].
      rewrite Ho in Hy by done. destruct (fi_fd _ _ _ _ Hf y b' i Hy Ha' Hr) as (Hir & e & He). split; [done |]. exists e.
      rewrite Hres; [done |]. intros Ei. destruct (fi_fd _ _ _ _ Hf x b i Hx Ha Ei) as (_ & e' & He'). congruence.
    - intros y b' Hy Ha'. destruct (decide (y = x)) as [-> | Hne]; [rewrite Hx' in Hy; injection Hy as <-; done |].
      rewrite Ho in Hy by done. by apply (fi_wait _ _ _ _ Hf y b').
    - intros i e Hir He. destruct (decide (epoll_returned_ptr b = Some i)) as [Ei | Ei].
      { destruct (Hnull i Ei) as (e' & E'). congruence. }
      rewrite Hres in He by done. destruct (fi_event _ _ _ _ Hf i x e Hir He) as (b' & Hy & _ & Hr). congruence. }
  assert (∀ y, y ≠ x → <[x := b <| active := false |>]> (fds bsys) !! y = fds bsys !! y) as Hother by (intros y Hy; by rewrite lookup_insert_ne).
  destruct (epoll_returned_ptr b) as [i |] eqn:Er.
  - destruct (fi_fd _ _ _ _ Hf x b i Hx Ha Er) as (Hir & e & He). cbn [epoll_results set]. rewrite He, option_bind_Some.
    destruct (Hgen (<[x := b <| active := false |>]> (fds bsys)) (<[i := mk_epoll_event None e]> (epoll_results bsys))) as [Hf' Hd].
    + done.
    + apply lookup_insert_eq.
    + intros j Hj'. rewrite list_lookup_insert_ne; [done | congruence].
    + apply length_insert.
    + intros j [= <-]. exists e. apply list_lookup_insert_eq. by eapply lookup_lt_Some.
    + eexists. split; [done |]. cbn. split; [split; done |]. rewrite lookup_insert_eq. by split.
  - destruct (Hgen (<[x := b <| active := false |>]> (fds bsys)) (epoll_results bsys)) as [Hf' Hd]; [done | apply lookup_insert_eq | done | done | done |].
    eexists. split; [done |]. cbn. split; [split; done |]. rewrite lookup_insert_eq. by split.
Qed.

(** Storing a limit: its count says whether it is active. *)
Lemma limits_inv_store l ls x lim l' : limits_inv l ls → 0 ≤ count lim → 0 < limit lim → NoDup l' →
  (∀ y, y ∈ l' ↔ if decide (y = x) then 0 < count lim else y ∈ l) → limits_inv l' (<[x := lim]> ls).
Proof using Type.
  intros Hi Hc Hl Hnd Hm. split; [done | |].
  - intros y. rewrite Hm, lookup_insert. case_decide as E; [subst y; rewrite decide_True by done |].
    + split; [by exists lim | by intros (? & [= <-] & ?)].
    + rewrite decide_False by congruence. apply (li_active _ _ Hi).
  - intros y lim'. rewrite lookup_insert. case_decide as E; [by intros [= <-] | apply (li_count _ _ Hi)].
Qed.

Lemma limit_increment_spec bsys o : rinv bsys → is_Some (limits bsys !! o) →
  ∃ bsys' lim, limits bsys !! o = Some lim ∧ BReactorLimit_Increment bsys o = Some (bsys', bool_decide (count lim < limit lim)) ∧ rinv bsys' ∧
    limits bsys' !! o = Some (lim <| count := if decide (count lim < limit lim) then count lim + 1 else count lim |>).
Proof using Type.
  intros [Hj Ht Hf Hl] [lim Hx]. pose proof (li_count _ _ Hl o lim Hx) as [Hc Hp]. unfold BReactorLimit_Increment.
  rewrite Hx, option_bind_Some. destruct (limit lim <=? count lim) eqn:E; b2p.
  - exists bsys, lim. rewrite bool_decide_eq_false_2, decide_False by lia. split_and!; try done. rewrite Hx. f_equal. by destruct lim.
  - cbv zeta. eexists _, lim. rewrite bool_decide_eq_true_2, decide_True by lia. split; [done |]. split; [reflexivity |].
    pose proof (li_active _ _ Hl o) as Ho. destruct (count lim + 1 =? 1) eqn:E1; b2p; cbn.
    + split; [| by rewrite lookup_insert_eq]. split; cbn; [done | done | done |].
      assert (o ∉ active_limits_list bsys) as Hno by (rewrite Ho; intros (l0 & E0 & Hc0); rewrite Hx in E0; injection E0 as <-; lia).
      apply (limits_inv_store _ _ _ _ _ Hl); cbn; [lia | lia | |].
      * apply NoDup_app. split; [apply (li_nodup _ _ Hl) |]. split; [| by apply NoDup_singleton].
        intros y Hy. rewrite list_elem_of_singleton. by intros ->.
      * intros y. rewrite elem_of_app, list_elem_of_singleton. case_decide; [subst; split; [lia | by right] |].
        split; [intros [? | ?]; done | by left].
    + split; [| by rewrite lookup_insert_eq]. split; cbn; [done | done | done |].
      apply (limits_inv_store _ _ _ _ _ Hl); cbn; [lia | lia | apply (li_nodup _ _ Hl) |].
      intros y. case_decide; [| done]. subst y. rewrite Ho. split; [lia |]. intros _. exists lim. split; [done | lia].
Qed.

Lemma rstep_ok bsys c : rinv bsys → call_ok bsys c → ∃ bsys', rstep bsys c = Some bsys' ∧ rinv bsys'.
Proof using Type.
  intros Hi. pose proof Hi as [Hj Ht Hf Hl].
  destruct c as [c | code | bt h | bt ms h | bt mode time now | bt now | bt | bs fdn h | bs added | bs deleted | bs events modified | o lim | o | o | o lim];
    cbn [call_ok rstep].
  - intros (_ & q & q' & a & Hq & Ea). destruct (jq_sim _ _ _ _ _ Hq Ea) as (g' & -> & Hq'). rewrite option_bind_Some.
    eexists. split; [done |]. split; cbn; [by exists q' | done..].
  - intros _. eexists. split; [done |]. by split.
  - intros Hx. eexists. split; [done |]. split; cbn; [done | | done | done]. by apply timers_inv_idle.
  - intros [Hx Hms]. eexists. split; [done |]. split; cbn; [done | | done | done]. by apply timers_inv_idle.
  - intros (Hx & ? & ?). destruct (set_timer_spec bsys bt mode time now Hi Hx) as (bsys' & t & E & Hi' & _); [done.. | eauto].
  - intros [[t Hx] Hnow]. unfold BReactor_SetTimer. rewrite Hx, option_bind_Some. pose proof (ti_range _ _ _ Ht bt t Hx) as [_ Hms].
    destruct (set_timer_spec bsys bt BTIMER_SET_RELATIVE (msTime t) now Hi) as (bsys' & t' & E & Hi' & _); [eauto.. |].
    exists bsys'. by split.
  - intros Hx. destruct (remove_timer_spec bsys bt Hi Hx) as (bsys' & E & Hi' & _). eauto.
  - intros Hx. eexists. split; [done |]. split; cbn; [done | done | | done]. by apply fds_inv_idle.
  - intros (b & Hx & Ha)%active_lookup. unfold BReactor_AddFileDescriptor. rewrite Hx, option_bind_Some, ASSERT_seq by (by rewrite Ha).
    destruct added; cbn; eexists; (split; [done |]); [| done]. split; cbn; [done | done | | done].
    apply fds_inv_idle; [done | rewrite Hx; cbn; congruence | done].
  - intros [Hx ->]. destruct (remove_fd_spec bsys bs Hi Hx) as (bsys' & E & Hi' & _). eauto.
  - intros ((b & Hx & Ha)%active_lookup & Hev & ->). unfold BReactor_SetFileDescriptorEvents. rewrite Hx, option_bind_Some, ASSERT_seq by done.
    assert (events = 0 ∨ events = 1 ∨ events = 2 ∨ events = 3) as He by lia.
    rewrite ASSERT_seq by (destruct He as [-> | [-> | [-> | ->]]]; reflexivity). destruct (waitEvents b =? events); [eauto |].
    rewrite ASSERT_seq by done. eexists. split; [done |]. split; cbn; [done | done | | done]. split; [apply (fi_bounds _ _ _ _ Hf) | | |].
    + intros i y e Hir Hy. destruct (fi_event _ _ _ _ Hf i y e Hir Hy) as (b' & Hb' & Ha' & Hr'). rewrite lookup_insert. case_decide as E; [| by exists b'].
      subst y. rewrite Hx in Hb'. injection Hb' as <-. by eexists.
    + intros y b' i. rewrite lookup_insert. case_decide as E; [| apply (fi_fd _ _ _ _ Hf)]. subst y. intros [= <-]. cbn. by apply (fi_fd _ _ _ _ Hf).
    + intros y b'. rewrite lookup_insert. case_decide as E; [| apply (fi_wait _ _ _ _ Hf)]. by intros [= <-].
  - intros [Hx Hlim]. unfold BReactorLimit_Init. rewrite ASSERT_seq by (by apply Z.ltb_lt). eexists. split; [done |].
    split; cbn; [done | done | done |]. apply (limits_inv_store _ _ _ _ _ Hl); cbn; [lia | done | apply (li_nodup _ _ Hl) |].
    intros y. case_decide; [| done]. subst y. rewrite (li_active _ _ Hl), Hx. split; [by intros (? & ? & ?) | lia].
  - intros [lim Hx]. unfold BReactorLimit_Free. rewrite Hx, option_bind_Some.
    assert ((if 0 <? count lim then bsys <| active_limits_list := filter (λ y, y ≠ o) (active_limits_list bsys) |> else bsys) =
      bsys <| active_limits_list := filter (λ y, y ≠ o) (active_limits_list bsys) |>) as ->.
    { destruct (0 <? count lim) eqn:E; [done |]. b2p. rewrite filter_ne_notin; [by destruct bsys |]. rewrite (li_active _ _ Hl).
      intros (l0 & E0 & ?). rewrite Hx in E0. injection E0 as <-. lia. }
    eexists. split; [done |].
    split; cbn; [done | done | done |].
    split; [apply NoDup_filter, (li_nodup _ _ Hl) | |].
    + intros y. rewrite list_elem_of_filter, (li_active _ _ Hl). destruct (decide (y = o)) as [-> | Hy].
      * rewrite lookup_delete_eq. split; [by intros [? _] | by intros (? & ? & ?)].
      * rewrite lookup_delete_ne by done. split; [by intros [_ ?] | done].
    + intros y lim' Hy. apply lookup_delete_Some in Hy as [_ Hy]. by apply (li_count _ _ Hl y).
  - intros Hx. destruct (limit_increment_spec bsys o Hi Hx) as (bsys' & lim & _ & -> & Hi' & _). cbn. eauto.
  - intros [[l0 Hx] Hlim]. unfold BReactorLimit_SetLimit. rewrite Hx, option_bind_Some, ASSERT_seq by (by apply Z.ltb_lt).
    eexists. split; [done |]. split; cbn; [done | done | done |]. pose proof (li_count _ _ Hl o l0 Hx) as [Hc _].
    apply (limits_inv_store _ _ _ _ _ Hl); cbn; [done | done | apply (li_nodup _ _ Hl) |].
    intros y. case_decide; [| done]. subst y. rewrite (li_active _ _ Hl), Hx. split; [by intros (? & [= <-] & ?) | by exists l0].
Qed.

(** ** One iteration *)

Lemma has_jobs_spec g : (∃ q, jq_rep g q) → ∃ q, jq_rep g q ∧ HasJobs g = Some (bool_decide (stack q ≠ [])).
Proof using Type.
  intros [q Hq]. exists q. split; [done |]. destruct (jq_sim g q CHasJobs q (ABool (bool_decide (stack q ≠ []))) Hq eq_refl) as (g' & E & _).
  unfold HasJobs. by rewrite E.
Qed.

(** Neither results nor their position: the state in which the wait begins. *)
Definition drained (bsys : reactor) : reactor := bsys <| epoll_results_num := 0%nat |> <| epoll_results_pos := 0%nat |>.

Definition reset_limit (lim : BReactorLimit) : BReactorLimit := lim <| count := 0 |>.

Lemma wait_for_events_spec bsys now ws : rinv bsys → HasJobs (pending_jobs bsys) = Some false → timers_expired_list bsys = [] →
  epoll_results_pos bsys = epoll_results_num bsys → answers_ok (fds bsys) (first_time bsys) now ws →
  ∃ r, wait_for_events bsys now ws = Some r ∧ (r = None → ¬ Exists (ends_wait (first_time bsys)) ws) ∧ ∀ bsys', r = Some bsys' → rinv bsys' ∧
    ((∃ due, due ≠ [] ∧ moved_timers (drained bsys) due bsys' ∧ (∀ x, x ∈ due → at_time (timers bsys) x ≤ now) ∧
        ∀ x, x ∈ ot_seq (timers_tree bsys') → now < at_time (timers bsys) x) ∨
     (∃ bsys1 ls, wait_result (drained bsys) ws bsys1 ∧ bsys' = bsys1 <| limits := ls |> <| active_limits_list := [] |> ∧
        ∀ x, ls !! x = reset_limit <$> limits bsys1 !! x)).
Proof using Type.
  intros Hi Hjobs Hexp Hpos Hans. unfold wait_for_events. rewrite Hjobs, option_bind_Some, ASSERT_seq by done.
  rewrite ASSERT_seq by (by apply bool_decide_eq_true). rewrite ASSERT_seq by (by apply Nat.eqb_eq). cbv zeta. fold (drained bsys).
  assert (rinv (drained bsys)) as Hi0.
  { destruct Hi as [Hj Ht Hf Hl]. split; cbn; [done | done | | done]. rewrite Hpos in Hf. by eapply fds_inv_clear. }
  assert (∀ ta, first_time (drained bsys) = ta → (∀ t, ta = Some t → now < t) → ∃ r,
    (r ← wait_loop ta now (drained bsys) ws;
     match r with
     | None => Some None
     | Some bsys => ls ← reset_limits (active_limits_list bsys) (limits bsys); Some (Some (bsys <| limits := ls |> <| active_limits_list := [] |>))
     end) = Some r ∧ (r = None → ¬ Exists (ends_wait (first_time bsys)) ws) ∧ ∀ bsys', r = Some bsys' → rinv bsys' ∧
     (∃ bsys1 ls, wait_result (drained bsys) ws bsys1 ∧ bsys' = bsys1 <| limits := ls |> <| active_limits_list := [] |> ∧
        ∀ x, ls !! x = reset_limit <$> limits bsys1 !! x)) as Hloop.
  { intros ta <- Hlt. destruct (wait_loop_spec ws (drained bsys) now Hi0 eq_refl eq_refl Hlt Hans) as (r & Er & Hr). rewrite Er, option_bind_Some.
    destruct r as [bsys1 |].
    2: { exists None. split; [done |]. split; [| done]. intros _ Hex.
         destruct (wait_loop_returns ws (drained bsys) now Hi0 eq_refl eq_refl Hlt Hans Hex) as (b & Eb). congruence. }
    specialize (Hr bsys1 eq_refl).
    assert (rinv bsys1) as [Hj1 Ht1 Hf1 Hl1] by (by destruct Hr).
    destruct (limits_inv_reset _ _ Hl1) as (ls & -> & Hl2 & Els). rewrite option_bind_Some. eexists. split; [done |].
    split; [done |]. intros bsys' [= <-]. split; [split; done |]. by exists bsys1, ls. }
  destruct (ot_seq (timers_tree (drained bsys))) as [| x l] eqn:Es.
  - rewrite (first_none _ Hi0 Es), !option_bind_Some. cbn match.
    destruct (Hloop None) as (r & -> & Hend & Hr); [unfold first_time; by rewrite Es | done |]. exists r. split; [done |]. split; [done |].
    intros bsys' Hb. destruct (Hr bsys' Hb) as [? ?]. tauto.
  - destruct (first_running _ x l Hi0 Es) as (-> & t & Hx & Hrun & Hat). rewrite option_bind_Some, Hx, option_bind_Some.
    rewrite ASSERT_seq by (by apply bool_decide_eq_true).
    destruct (move_expired_spec now (drained bsys) Hi0) as (bsys1 & due & -> & Hi1 & Hm & Hnil & Hdue & Hrest). rewrite !option_bind_Some.
    case_bool_decide as Hd.
    + eexists. split; [done |]. split; [done |]. intros bsys' [= <-]. split; [done |]. left. by exists due.
    + rewrite (Hnil Hd) in *.
      destruct (Hloop (Some (absTime t))) as (r & -> & Hend & Hr).
      * unfold first_time. rewrite Es. cbn. by rewrite <- Hat.
      * intros t' [= <-]. rewrite <- Hat. apply Hrest. rewrite Es. apply list_elem_of_here.
      * exists r. split; [done |]. split; [done |]. intros bsys' Hb. destruct (Hr bsys' Hb) as [? ?]. tauto.
Qed.

(** Dispatching the first expired timer. *)
Lemma dispatch_timer_spec bsys x rest : rinv bsys → timers_expired_list bsys = x :: rest →
  ∃ t, timers bsys !! x = Some t ∧ tm_state t = TIMER_STATE_EXPIRED ∧
    dispatch_timer bsys x rest = Some (bsys <| timers_expired_list := rest |>
      <| timers := <[x := t <| tm_state := TIMER_STATE_INACTIVE |>]> (timers bsys) |>, DTimer x (tm_handler t)) ∧
    rinv (bsys <| timers_expired_list := rest |> <| timers := <[x := t <| tm_state := TIMER_STATE_INACTIVE |>]> (timers bsys) |>).
Proof using Type.
  intros Hi He. pose proof Hi as [Hj Ht Hf Hl]. pose proof (proj1 (ti_expired _ _ _ Ht x)) as Hx. rewrite He in Hx.
  specialize (Hx (list_elem_of_here _ _)). destruct (timers bsys !! x) as [t |] eqn:Ex; [| done]. injection Hx as Hx.
  pose proof (ti_nodup _ _ _ Ht) as Hnd. rewrite He in Hnd. apply NoDup_cons in Hnd as [Hn _].
  exists t. split; [done |]. split; [done |]. unfold dispatch_timer. rewrite Ex, option_bind_Some, ASSERT_seq by (by apply bool_decide_eq_true).
  split; [done |]. assert (is_Some (timers bsys !! x)) as Hs by (rewrite Ex; eauto).
  destruct (remove_timer_spec bsys x Hi Hs) as (bsys' & E & Hi' & _). unfold BReactor_RemoveSmallTimer in E.
  rewrite Ex, option_bind_Some, Hx in E. injection E as <-. cbn in Hi'. rewrite He in Hi'.
  rewrite filter_cons_False in Hi' by tauto. by rewrite filter_ne_notin in Hi'.
Qed.

(** No reading or writing is reported that is not waited for. *)
Definition monitored (waitEvents events : Z) : Prop :=
  Z.land (Z.land events (Z.lor BREACTOR_READ BREACTOR_WRITE)) (Z.lnot waitEvents) = 0.

Lemma report_events_subset w e : 0 ≤ w ≤ 3 → 0 ≤ report_events w e ≤ 15 ∧ monitored w (report_events w e).
Proof using Type.
  intros Hw. assert (w = 0 ∨ w = 1 ∨ w = 2 ∨ w = 3) as Hc by lia. unfold report_events.
  destruct (Z.land e EPOLLIN =? 0), (Z.land e EPOLLOUT =? 0), (Z.land e EPOLLERR =? 0), (Z.land e EPOLLHUP =? 0);
    destruct Hc as [-> | [-> | [-> | ->]]]; vm_compute; (split; [split; discriminate | reflexivity]).
Qed.

(** Dispatching the next entry: the file descriptor is registered, and every event
    reported of it is monitored, an error or a hang-up. *)
Lemma dispatch_fd_spec bsys : rinv bsys → (epoll_results_pos bsys < epoll_results_num bsys)%nat →
  ∃ bsys' d, dispatch_fd bsys = Some (bsys', d) ∧ rinv bsys' ∧ epoll_results_pos bsys' = S (epoll_results_pos bsys) ∧
    match d with
    | DSkipped => True
    | DFd x h events => ∃ b, fds bsys !! x = Some b ∧ active b = true ∧ h = fd_handler b ∧ 0 < events ≤ 15 ∧ monitored (waitEvents b) events ∧
        fds bsys' !! x = Some (b <| epoll_returned_ptr := None |>)
    | _ => False
    end.
Proof using Type.
  intros [Hj Ht Hf Hl] Hlt. pose proof (fi_bounds _ _ _ _ Hf) as Hb. unfold dispatch_fd. cbv zeta.
  destruct (lookup_lt_is_Some_2 (epoll_results bsys) (epoll_results_pos bsys)) as [[p e] He]; [lia |]. rewrite He, option_bind_Some. cbn [data_ptr ev_events].
  assert (∀ fs', (∀ y, p = Some y → ∃ b, fds bsys !! y = Some b ∧ epoll_returned_ptr b = Some (epoll_results_pos bsys) ∧
        fs' !! y = Some (b <| epoll_returned_ptr := None |>)) → (∀ y, p ≠ Some y → fs' !! y = fds bsys !! y) →
      fds_inv (epoll_results bsys) (epoll_results_num bsys) (S (epoll_results_pos bsys)) fs') as Hgen.
  { intros fs' Hp Ho. split; [lia | | |].
    - intros i y ev Hir Hy. destruct (fi_event _ _ _ _ Hf i y ev) as (b & Hby & Ha & Hr); [lia | done |]. exists b. rewrite Ho; [done |].
      intros ->. destruct (Hp y eq_refl) as (b' & Hb' & Hr' & _). rewrite Hby in Hb'. injection Hb' as <-. rewrite Hr in Hr'. injection Hr' as ->. lia.
    - intros y b i Hy Ha Hr. destruct (decide (p = Some y)) as [-> | Hne].
      { destruct (Hp y eq_refl) as (b' & _ & _ & E'). rewrite Hy in E'. injection E' as ->. done. }
      rewrite Ho in Hy by done. destruct (fi_fd _ _ _ _ Hf y b i Hy Ha Hr) as (Hir & ev & Hev). split; [| by exists ev].
      assert (i ≠ epoll_results_pos bsys); [| lia]. intros ->. rewrite He in Hev. by injection Hev as -> _.
    - intros y b Hy Ha. destruct (decide (p = Some y)) as [-> | Hne].
      + destruct (Hp y eq_refl) as (b' & Hb' & _ & E'). rewrite Hy in E'. injection E' as ->. by apply (fi_wait _ _ _ _ Hf y b').
      + rewrite Ho in Hy by done. by apply (fi_wait _ _ _ _ Hf y b). }
  destruct p as [x |].
  - destruct (fi_event _ _ _ _ Hf (epoll_results_pos bsys) x e) as (b & Hx & Ha & Hr); [lia | exact He |]. cbn [fds set]. rewrite Hx, option_bind_Some.
    rewrite ASSERT_seq, ASSERT_seq by (done || by apply bool_decide_eq_true).
    assert (rinv (bsys <| epoll_results_pos := S (epoll_results_pos bsys) |> <| fds := <[x := b <| epoll_returned_ptr := None |>]> (fds bsys) |>)) as Hi'.
    { split; cbn; [done | done | | done]. apply Hgen.
      - intros y [= <-]. exists b. by rewrite lookup_insert_eq.
      - intros y Hy. rewrite lookup_insert_ne; [done | congruence]. }
    pose proof (report_events_subset (waitEvents b) e (fi_wait _ _ _ _ Hf x b Hx Ha)) as [Hrange Hsub].
    destruct (report_events (waitEvents b) e =? 0) eqn:E; b2p.
    + eexists _, DSkipped. split; [done |]. by split.
    + eexists _, (DFd x (fd_handler b) (report_events (waitEvents b) e)). split; [done |]. split; [done |]. split; [done |].
      exists b. cbn. rewrite lookup_insert_eq. split_and!; [done | done | done | lia | lia | done | done].
  - eexists _, DSkipped. split; [done |]. split; [| by split]. split; cbn; [done | done | | done]. by apply Hgen.
Qed.

(** What the loop waits for, the kernel's answers are those of [answers_ok]. *)
Definition turn_ok (bsys : reactor) (t : turn) : Prop := answers_ok (fds bsys) (first_time bsys) (tn_now t) (tn_waits t).

(** What an iteration may have done. *)
Definition iteration_result (bsys : reactor) (t : turn) (bsys' : reactor) (d : dispatch) : Prop :=
  match d with
  | DJob h => ∃ q o js, jq_rep (pending_jobs bsys) q ∧ stack q = o :: js ∧ live q !! o = Some h
  | DTimer x h => HasJobs (pending_jobs bsys) = Some false ∧ ∃ tm rest, timers_expired_list bsys = x :: rest ∧
      timers bsys !! x = Some tm ∧ tm_state tm = TIMER_STATE_EXPIRED ∧ h = tm_handler tm ∧
      timers bsys' !! x = Some (tm <| tm_state := TIMER_STATE_INACTIVE |>) ∧ timers_expired_list bsys' = rest
  | DFd x h events => HasJobs (pending_jobs bsys) = Some false ∧ timers_expired_list bsys = [] ∧
      ∃ b, fds bsys !! x = Some b ∧ active b = true ∧ h = fd_handler b ∧ 0 < events ≤ 15 ∧ monitored (waitEvents b) events
  | DSkipped => HasJobs (pending_jobs bsys) = Some false ∧ timers_expired_list bsys = [] ∧
      (epoll_results_pos bsys < epoll_results_pos bsys' ≤ epoll_results_num bsys)%nat
  | DWaited => HasJobs (pending_jobs bsys) = Some false ∧ timers_expired_list bsys = [] ∧
      epoll_results_pos bsys = epoll_results_num bsys ∧
      (timers_expired_list bsys' ≠ [] ∨ (epoll_results_pos bsys' < epoll_results_num bsys')%nat) ∧
      ot_seq (timers_tree bsys) = timers_expired_list bsys' ++ ot_seq (timers_tree bsys') ∧
      (∀ x, x ∈ timers_expired_list bsys' → ∃ clock, clock ∈ tn_now t :: (snd <$> tn_waits t) ∧ at_time (timers bsys) x ≤ clock) ∧
      ∀ x y, x ∈ timers_expired_list bsys' → y ∈ ot_seq (timers_tree bsys') → at_time (timers bsys) x < at_time (timers bsys) y
  end.

Lemma wait_iteration bsys t : rinv bsys → HasJobs (pending_jobs bsys) = Some false → timers_expired_list bsys = [] →
  epoll_results_pos bsys = epoll_results_num bsys → turn_ok bsys t →
  ∃ r, wait_for_events bsys (tn_now t) (tn_waits t) = Some r ∧ ∀ bsys', r = Some bsys' → rinv bsys' ∧ iteration_result bsys t bsys' DWaited.
Proof using Type.
  intros Hi Hj He Hp Hok. destruct (wait_for_events_spec bsys _ _ Hi Hj He Hp Hok) as (r & Er & _ & Hr). exists r. split; [done |].
  intros bsys' Hb. destruct (Hr bsys' Hb) as (Hi' & Hcase). split; [done |]. do 3 (split; [done |]).
  destruct Hcase as [(due & Hne & Hm & Hd & Hrest) | (bsys1 & ls & Hw & -> & _)].
  - pose proof (mv_expired _ _ _ Hm) as Ex. change (timers_expired_list (drained bsys)) with (timers_expired_list bsys) in Ex. rewrite He in Ex.
    simpl in Ex. rewrite Ex. split; [by left |]. split; [exact (mv_seq _ _ _ Hm) |]. split.
    + intros x Hx. exists (tn_now t). split; [apply list_elem_of_here | by apply Hd].
    + intros x y Hx Hy. specialize (Hd x Hx). specialize (Hrest y Hy). lia.
  - cbn [timers_expired_list epoll_results_pos epoll_results_num timers_tree set].
    destruct Hw as [due a clock bsys1 Hin Hne _ Hm Hd Hrest | events clock bsys1 fs Hin Hne _ Eb].
    + pose proof (mv_expired _ _ _ Hm) as Ex. change (timers_expired_list (drained bsys)) with (timers_expired_list bsys) in Ex. rewrite He in Ex.
      simpl in Ex. rewrite Ex. split; [by left |]. split; [exact (mv_seq _ _ _ Hm) |]. split; [| exact Hrest].
      intros x Hx. exists clock. split; [| by apply Hd]. apply list_elem_of_further. by apply (list_elem_of_fmap_2 snd _ (a, clock)).
    + subst bsys1. cbn. rewrite He. split; [right; destruct events; [done | cbn; lia] |].
      split; [done |]. split; [by intros x ?%not_elem_of_nil | by intros x y ?%not_elem_of_nil].
Qed.

Lemma iteration_spec bsys t : rinv bsys → turn_ok bsys t →
  ∃ r, exec_iteration bsys (tn_now t) (tn_waits t) = Some r ∧ ∀ bsys' d, r = Some (bsys', d) → rinv bsys' ∧ iteration_result bsys t bsys' d.
Proof using Type.
  intros Hi Hok. destruct (has_jobs_spec _ (ri_jobs _ Hi)) as (q & Hq & Hjobs). unfold exec_iteration. rewrite Hjobs, option_bind_Some.
  case_bool_decide as Hst.
  - destruct (stack q) as [| o js] eqn:Es; [done |].
    destruct (jq_live _ q o Hq) as [h Hh]; [rewrite Es; apply list_elem_of_here |].
    destruct (jq_sim _ q CExecute (mk_aqueue js (live q)) (ACall h) Hq) as (g' & Eg & Hq'); [cbn [astep]; by rewrite Es, Hh |].
    unfold ExecuteJob. rewrite Eg, !option_bind_Some. eexists. split; [done |]. intros bsys' d [= <- <-]. split; [| by exists q, o, js].
    destruct Hi. split; cbn; [by eexists | done..].
  - destruct (timers_expired_list bsys) as [| x rest] eqn:Ee.
    + destruct (epoll_results_pos bsys <? epoll_results_num bsys)%nat eqn:Ep.
      * apply Nat.ltb_lt in Ep. destruct (dispatch_fd_spec bsys Hi Ep) as (bsys' & d & -> & Hi' & Hpos & Hd). rewrite option_bind_Some.
        eexists. split; [done |]. intros b1 d1 [= <- <-]. split; [done |].
        destruct d; try done; cbn [iteration_result].
        -- destruct Hd as (b & ? & ? & ? & ? & ? & _). split; [done |]. split; [done |]. by exists b.
        -- split; [done |]. split; [done |]. rewrite Hpos. lia.
      * apply Nat.ltb_ge in Ep. pose proof (fi_bounds _ _ _ _ (ri_fds _ Hi)).
        destruct (wait_iteration bsys t Hi Hjobs Ee) as (r & -> & Hr); [lia | done |]. rewrite option_bind_Some.
        destruct r as [bsys1 |]; [| by exists None]. eexists. split; [done |]. intros b1 d1 [= <- <-]. by apply Hr.
    + destruct (dispatch_timer_spec bsys x rest Hi Ee) as (tm & Hx & Hs & -> & Hi'). rewrite option_bind_Some.
      eexists. split; [done |]. intros b1 d1 [= <- <-]. split; [done |]. split; [done |]. exists tm, rest. cbn. by rewrite lookup_insert_eq.
Qed.

(** ** The loop *)

Fixpoint calls_ok (bsys : reactor) (cs : list rcall) : Prop :=
  match cs with
  | [] => True
  | c :: cs => call_ok bsys c ∧ ∀ bsys', rstep bsys c = Some bsys' → calls_ok bsys' cs
  end.

(** The kernel keeps its promise, the handlers keep to the rules of the calls. *)
Fixpoint turns_ok (bsys : reactor) (ts : list turn) : Prop :=
  match ts with
  | [] => True
  | t :: ts => exiting bsys = false → turn_ok bsys t ∧
      ∀ bsys' d, exec_iteration bsys (tn_now t) (tn_waits t) = Some (Some (bsys', d)) →
        if calls_handler d then calls_ok bsys' (tn_calls t) ∧ ∀ bsys2, rcalls bsys' (tn_calls t) = Some bsys2 → turns_ok bsys2 ts
        else turns_ok bsys' ts
  end.

Lemma rcalls_ok cs : ∀ bsys, rinv bsys → calls_ok bsys cs → ∃ bsys', rcalls bsys cs = Some bsys' ∧ rinv bsys'.
Proof using Type.
  induction cs as [| c cs IH]; intros bsys Hi Hok; [by exists bsys |]. destruct Hok as [Hc Hcs].
  destruct (rstep_ok bsys c Hi Hc) as (bsys1 & E1 & Hi1). cbn [rcalls]. rewrite E1, option_bind_Some. by apply IH, Hcs.
Qed.

Lemma exec_run ts : ∀ bsys, rinv bsys → turns_ok bsys ts →
  ∃ bsys' ds code, BReactor_Exec bsys ts = Some (bsys', ds, code) ∧ rinv bsys' ∧
    match code with Some c => exiting bsys' = true ∧ c = exit_code bsys' | None => exiting bsys' = false end.
Proof using Type.
  induction ts as [| t ts IH]; intros bsys Hi Hok.
  - cbn [BReactor_Exec]. destruct (exiting bsys) eqn:E; [by exists bsys, [], (Some (exit_code bsys)) | by exists bsys, [], None].
  - cbn [BReactor_Exec]. destruct (exiting bsys) eqn:E; [by exists bsys, [], (Some (exit_code bsys)) |].
    destruct (Hok E) as [Hturn Hnext]. destruct (iteration_spec bsys t Hi Hturn) as (r & Er & Hr). rewrite Er, option_bind_Some.
    destruct r as [[bsys1 d] |]; [| by exists bsys, [], None]. destruct (Hr bsys1 d eq_refl) as [Hi1 _]. specialize (Hnext bsys1 d Er).
    destruct (calls_handler d).
    + destruct Hnext as [Hc Hnext]. destruct (rcalls_ok _ bsys1 Hi1 Hc) as (bsys2 & E2 & Hi2). rewrite E2, option_bind_Some.
      destruct (IH bsys2 Hi2 (Hnext bsys2 E2)) as (bsys3 & ds & code & -> & H3). rewrite option_bind_Some. by exists bsys3, (d :: ds), code.
    + rewrite option_bind_Some. destruct (IH bsys1 Hi1 Hnext) as (bsys3 & ds & code & -> & H3). rewrite option_bind_Some. by exists bsys3, (d :: ds), code.
Qed.

Lemma init_rinv g garbage bsys : (∃ q, jq_rep g q) → BReactor_Init g garbage true = Some bsys → rinv bsys.
Proof using Type.
  intros Hg [= <-]. destruct (ot_init (T := T)) as [Hok Hs]. split; cbn; [done | | |].
  - split; [done | | | constructor | |]; rewrite ?Hs.
    + split; [by intros x ?%not_elem_of_nil | constructor].
    + intros x. rewrite lookup_empty. split; [by intros ?%not_elem_of_nil | done].
    + intros x. rewrite lookup_empty. split; [by intros ?%not_elem_of_nil | done].
    + intros x t. by rewrite lookup_empty.
  - split; [lia | lia | |]; intros x b; by rewrite lookup_empty.
  - split; [constructor | |].
    + intros x. split; [by intros ?%not_elem_of_nil |]. intros (l & Hx & _). by rewrite lookup_empty in Hx.
    + intros x l. by rewrite lookup_empty.
Qed.

(** [BReactor_Synchronize] executes exactly the jobs above the reference job, here
    with handlers that make no calls of their own. *)
Lemma synchronize_reaches ref rest js : ∀ bsys q hs, exiting bsys = false → jq_rep (pending_jobs bsys) q → stack q = js ++ ref :: rest →
  ref ∉ js → (length js ≤ length hs)%nat → Forall (λ cs, cs = []) hs →
  ∃ bsys' q', BReactor_Synchronize bsys ref hs = Some (bsys', Some true) ∧ jq_rep (pending_jobs bsys') q' ∧ stack q' = ref :: rest.
Proof using Type.
  induction js as [| j js IH]; intros bsys q hs Hex Hq Hst Hn Hlen Hall.
  all: assert (BReactor_Synchronize bsys ref hs = if bool_decide (head (stack q) = Some ref) then Some (bsys, Some true) else
    match hs with
    | [] => Some (bsys, None)
    | cs :: hs => '(g, _) ← ExecuteJob (pending_jobs bsys); bsys ← rcalls (bsys <| pending_jobs := g |>) cs; BReactor_Synchronize bsys ref hs
    end) as ->.
  1, 3: destruct (jq_sim _ q CHasJobs q _ Hq eq_refl) as (g1 & E1 & _); destruct (jq_sim _ q CPeek q _ Hq eq_refl) as (g2 & E2 & _);
    assert (HasJobs (pending_jobs bsys) = Some true) as Ehas by
      (unfold HasJobs; rewrite E1, option_bind_Some; rewrite bool_decide_eq_true_2 by (by rewrite Hst); done);
    assert (PeekJob (pending_jobs bsys) = Some (head (stack q))) as Epeek by (unfold PeekJob; by rewrite E2, option_bind_Some);
    destruct hs; cbn [BReactor_Synchronize]; rewrite Hex, Ehas, option_bind_Some, ASSERT_seq, Epeek, option_bind_Some by done; done.
  - rewrite Hst. cbn [app head]. rewrite bool_decide_eq_true_2 by done. exists bsys, q. by rewrite Hst.
  - rewrite Hst. cbn [app head]. rewrite elem_of_cons in Hn. rewrite bool_decide_eq_false_2 by (intros [= ->]; tauto).
    destruct hs as [| cs hs]; [cbn in Hlen; lia |]. apply Forall_cons_1 in Hall as [-> Hall].
    destruct (jq_live _ q j Hq) as [h Hh]; [rewrite Hst; apply list_elem_of_here |].
    destruct (jq_sim _ q CExecute (mk_aqueue (js ++ ref :: rest) (live q)) (ACall h) Hq) as (g' & Eg & Hq'); [cbn [astep]; rewrite Hst; cbn [app]; by rewrite Hh |].
    unfold ExecuteJob. rewrite Eg, !option_bind_Some. cbn [rcalls]. rewrite option_bind_Some.
    apply (IH _ (mk_aqueue (js ++ ref :: rest) (live q))); [done | done | done | tauto | cbn in Hlen; lia | done].
Qed.

End reactor.

(** ** Theorems *)

(** A reactor over the tree and the queue of the program, set up by some calls. *)
Definition demo_setup : list rcall :=
  [RSmallTimerInit 1 101; RTimerInit 2 50 102; RSmallTimerInit 3 103; RFdInit 7 5 207; RFdInit 8 6 208; RAddFd 7 true; RAddFd 8 true;
   RSetFdEvents 7 1 true; RSetFdEvents 8 3 true; RLimitInit 9 2; RLimitIncrement 9;
   RSetSmallTimer 1 BTIMER_SET_RELATIVE 10 0; RSetTimer 2 0; RSetSmallTimer 3 BTIMER_SET_ABSOLUTE 10 0].
Definition demo_init : BReactor BAVL BPendingGroup := mk_BReactor false 0 BPendingGroup_Init CAvl_Init [] [] [] 0 0 ∅ ∅ ∅.
Definition demo_reactor : BReactor BAVL BPendingGroup := default demo_init (rcalls demo_init demo_setup).

(** Descriptor 7 and 8 are ready; the handler of 7 removes 8; then the time passes. *)
Definition demo_turns : list turn :=
  [mk_turn 3 [(WInterrupted, 4); (WReady [mk_epoll_event (Some 7%nat) 1; mk_epoll_event (Some 8%nat) 5], 6)] [];
   mk_turn 6 [] [RRemoveFd 8 true; RRemoveTimer 2]; mk_turn 6 [] []; mk_turn 7 [(WReady [], 10)] [];
   mk_turn 10 [] [RSetSmallTimer 1 BTIMER_SET_RELATIVE 5 10]; mk_turn 10 [] [RQuit 42]].

(** Evaluates the condition of a call or of a turn on a concrete reactor. *)
Ltac demo_call :=
  match goal with
  | |- calls_ok _ [] => exact I
  | |- calls_ok _ (_ :: _) =>
      split;
      [ cbn [call_ok];
        first [ exact I | eexists; vm_compute; reflexivity
              | vm_compute; first [reflexivity | discriminate | left; reflexivity | right; reflexivity]
              | repeat split;
                first [eexists; vm_compute; reflexivity | vm_compute; first [reflexivity | discriminate | left; reflexivity | right; reflexivity]] ]
      | let b := fresh "b" in let E := fresh "E" in intros b E; vm_compute in E; injection E as <- ]
  end.

Lemma demo_calls_ok : calls_ok demo_init demo_setup.
Proof. unfold demo_setup. repeat demo_call. Qed.

Lemma demo_rinv : rinv demo_reactor.
Proof.
  assert (rinv demo_init) as Hi by (apply (init_rinv BPendingGroup_Init []); [exists empty_queue; exact init_group_rep | reflexivity]).
  destruct (rcalls_ok demo_setup demo_init Hi demo_calls_ok) as (b & E & Hb). unfold demo_reactor. by rewrite E.
Qed.

(** The kernel's answers in [demo_turns] keep the promise. *)
Ltac demo_events :=
  split; [refine (bool_decide_unpack _ _); vm_compute; exact I |];
  let e := fresh "e" in let H := fresh "H" in
  intros e H; repeat (apply elem_of_cons in H as [-> | H]; [eexists _, _; split; [reflexivity |]; split; [vm_compute; reflexivity | reflexivity] |]);
  by apply not_elem_of_nil in H.
Ltac demo_answer :=
  match goal with
  | |- answers_ok _ _ _ [] => exact I
  | |- answers_ok _ _ _ ((?w, _) :: _) =>
      split; [lia |]; split;
      [ lazymatch w with
        | WInterrupted => exact I
        | WReady _ => split; [demo_events |]; split; [vm_compute; discriminate | first [discriminate | intros _; split; [vm_compute; discriminate | vm_compute; discriminate]]]
        end | ]
  end.
Ltac demo_turn :=
  match goal with
  | |- turns_ok _ [] => exact I
  | |- turns_ok _ (_ :: _) =>
      let b := fresh "b" in let d := fresh "d" in let E := fresh "E" in
      intros _; split; [unfold turn_ok; cbn [tn_now tn_waits]; repeat demo_answer |]; intros b d E; vm_compute in E; injection E as <- <-; cbn [calls_handler tn_calls];
      try (split; [repeat demo_call |]; let b2 := fresh "b" in let E2 := fresh "E" in intros b2 E2; vm_compute in E2; injection E2 as <-)
  end.

(** [C5] The event loop violates none of its assertions. From initialisation,
    through any calls that keep to the rules of the functions (a job that exists, a
    timer that was initialised, a file descriptor that is registered), and then
    through any number of iterations in which the kernel keeps its promises and the
    handlers keep to the rules, no assertion fails, the tree of timers stays
    balanced and in order of the times, every timer is in the tree, in the expired
    list or in neither as its state says, the entries of the results and the file
    descriptors point to each other, and the loop returns the code given to
    [BReactor_Quit]. *)
Theorem reactor_safe {T G} `{OrderedTree T} `{JobQueue G} (g : G) garbage (bsys : BReactor T G) cs ts :
  (∃ q, jq_rep g q) → BReactor_Init g garbage true = Some bsys → calls_ok bsys cs →
  (∀ bsys1, rcalls bsys cs = Some bsys1 → turns_ok bsys1 ts) →
  ∃ bsys1 bsys' ds code, rcalls bsys cs = Some bsys1 ∧ BReactor_Exec bsys1 ts = Some (bsys', ds, code) ∧ rinv bsys' ∧
    match code with Some c => exiting bsys' = true ∧ c = exit_code bsys' | None => exiting bsys' = false end.
Proof.
  intros Hg Hin Hcs Hts. destruct (rcalls_ok cs bsys (init_rinv g garbage bsys Hg Hin) Hcs) as (bsys1 & E1 & Hi1).
  destruct (exec_run ts bsys1 Hi1 (Hts bsys1 E1)) as (bsys' & ds & code & H3). by exists bsys1, bsys', ds, code.
Qed.

Lemma reactor_safe_witness :
  ∃ bsys', BReactor_Exec demo_reactor demo_turns =
    Some (bsys', [DWaited; DFd 7 207 1; DSkipped; DWaited; DTimer 1 101; DTimer 3 103]%nat, Some 42) ∧ rinv bsys'.
Proof.
  destruct (reactor_safe BPendingGroup_Init [] demo_init demo_setup demo_turns) as (b1 & b2 & ds & code & E1 & E2 & Hi & _).
  - exists empty_queue. exact init_group_rep.
  - reflexivity.
  - exact demo_calls_ok.
  - intros b E. assert (b = demo_reactor) as -> by (unfold demo_reactor; rewrite E; reflexivity). clear E. unfold demo_turns. repeat demo_turn.
  - exists b2. assert (b1 = demo_reactor) as -> by (unfold demo_reactor; rewrite E1; reflexivity). split; [| exact Hi].
    rewrite E2. match goal with |- Some (?a, ?b, ?c) = _ => assert ((b, c) = (([DWaited; DFd 7 207 1; DSkipped; DWaited; DTimer 1 101; DTimer 3 103]%nat, Some 42))) as E3 end.
    + assert ((λ r, (r.1.2, r.2)) <$> BReactor_Exec demo_reactor demo_turns =
        Some ([DWaited; DFd 7 207 1; DSkipped; DWaited; DTimer 1 101; DTimer 3 103]%nat, Some 42)) as E4 by (vm_compute; reflexivity).
      rewrite E2 in E4. injection E4 as -> ->. reflexivity.
    + injection E3 as -> ->. reflexivity.
Defined.

(** [C6] What an iteration of the loop does. Jobs come first (the job on top of the
    stack), then expired timers in the order of their list, then the file
    descriptors of the last wait, and only with none of these left the loop waits.
    A timer is inactive before its handler runs; a file descriptor gets a non-empty
    set of events that it monitors, or errors. A wait always ends with something to
    dispatch, and the timers it expires are the first ones of the tree, in order,
    each at or after its time by a reading of the clock, and before every timer
    left in the tree. *)
Theorem reactor_iteration {T G} `{OrderedTree T} `{JobQueue G} (bsys : BReactor T G) t : rinv bsys → turn_ok bsys t →
  ∃ r, exec_iteration bsys (tn_now t) (tn_waits t) = Some r ∧
    ∀ bsys' d, r = Some (bsys', d) → rinv bsys' ∧ iteration_result bsys t bsys' d.
Proof. apply iteration_spec. Qed.

Lemma reactor_iteration_witness :
  ∃ b d, exec_iteration demo_reactor 12 [] = Some (Some (b, d)) ∧ timers_expired_list b = [1; 3]%nat ∧
    iteration_result demo_reactor (mk_turn 12 [] []) b d.
Proof.
  destruct (reactor_iteration demo_reactor (mk_turn 12 [] []) demo_rinv I) as (r & E & Hr). cbn [tn_now tn_waits] in E.
  assert ((λ r, timers_expired_list r.1) <$> (r ← exec_iteration demo_reactor 12 []; r) = Some [1; 3]%nat) as E2 by (vm_compute; reflexivity).
  rewrite E, option_bind_Some in E2. destruct r as [[b d] |]; [| discriminate E2]. injection E2 as E2.
  exists b, d. split; [exact E |]. split; [exact E2 |]. apply (Hr b d eq_refl).
Defined.

(** A wait ends: with the first answer of the kernel that has events, and at the
    latest with the first one that comes at or after the time of the first timer,
    however often it is interrupted and although a timeout is cut to [INT_MAX]
    milliseconds. *)
Theorem reactor_wait_returns {T G} `{OrderedTree T} `{JobQueue G} (bsys : BReactor T G) now ws : rinv bsys →
  HasJobs (pending_jobs bsys) = Some false → timers_expired_list bsys = [] → epoll_results_pos bsys = epoll_results_num bsys →
  answers_ok (fds bsys) (first_time bsys) now ws → Exists (ends_wait (first_time bsys)) ws →
  ∃ bsys', wait_for_events bsys now ws = Some (Some bsys').
Proof.
  intros Hi Hj He Hp Hans Hex. destruct (wait_for_events_spec bsys now ws Hi Hj He Hp Hans) as (r & Er & Hend & _).
  destruct r as [bsys' |]; [by exists bsys' |]. by destruct (Hend eq_refl).
Qed.

Lemma reactor_wait_returns_witness : ∃ b, wait_for_events demo_reactor 3 [(WInterrupted, 4); (WInterrupted, 11)] = Some (Some b).
Proof.
  apply reactor_wait_returns; [exact demo_rinv | vm_compute; reflexivity.. | | ].
  - repeat demo_answer.
  - apply Exists_cons. right. apply Exists_cons. left. right. exists 10. split; [vm_compute; reflexivity | cbn; lia].
Defined.

(** [C7] What is stopped is not dispatched. A timer that is removed (running, expired
    or neither) is in neither the tree nor the expired list, a file descriptor that
    is removed is in no entry still to be dispatched, even when the last wait
    reported it; no iteration calls their handlers until they are started again. *)
Theorem reactor_no_stale_dispatch {T G} `{OrderedTree T} `{JobQueue G} (bsys : BReactor T G) x : rinv bsys →
  (is_Some (timers bsys !! x) →
    ∃ bsys', BReactor_RemoveSmallTimer bsys x = Some bsys' ∧ rinv bsys' ∧
      (x ∉ ot_seq (timers_tree bsys')) ∧ (x ∉ timers_expired_list bsys') ∧
      ∀ t b h, turn_ok bsys' t → exec_iteration bsys' (tn_now t) (tn_waits t) ≠ Some (Some (b, DTimer x h))) ∧
  (active <$> fds bsys !! x = Some true →
    ∃ bsys', BReactor_RemoveFileDescriptor bsys x true = Some bsys' ∧ rinv bsys' ∧
      (∀ i e, (epoll_results_pos bsys' ≤ i < epoll_results_num bsys')%nat → epoll_results bsys' !! i ≠ Some (mk_epoll_event (Some x) e)) ∧
      ∀ t b h ev, turn_ok bsys' t → exec_iteration bsys' (tn_now t) (tn_waits t) ≠ Some (Some (b, DFd x h ev))).
Proof.
  intros Hi. split.
  - intros Hx. destruct (remove_timer_spec bsys x Hi Hx) as (bsys' & E & Hi' & (t0 & _ & Hx') & Es & Ee & _).
    exists bsys'. split; [done |]. split; [done |].
    split; [rewrite Es, list_elem_of_filter; naive_solver |]. split; [rewrite Ee, list_elem_of_filter; naive_solver |].
    intros t b h Hok Ei. destruct (iteration_spec bsys' t Hi' Hok) as (r & Er & Hr). rewrite Ei in Er. injection Er as <-.
    destruct (Hr b _ eq_refl) as [_ (_ & tm & rest & _ & Ht & Hs & _)]. rewrite Hx' in Ht. by injection Ht as <-.
  - intros Hx. destruct (remove_fd_spec bsys x Hi Hx) as (bsys' & E & Hi' & Hinact & Hno). exists bsys'. do 3 (split; [done |]).
    intros t b h ev Hok Ei. destruct (iteration_spec bsys' t Hi' Hok) as (r & Er & Hr). rewrite Ei in Er. injection Er as <-.
    destruct (Hr b _ eq_refl) as [_ (_ & _ & fb & Hfb & Ha & _)]. rewrite Hfb in Hinact. injection Hinact as Hinact. congruence.
Qed.

Lemma reactor_no_stale_dispatch_witness :
  ∃ b, BReactor_RemoveFileDescriptor demo_reactor 7 true = Some b ∧ rinv b.
Proof.
  destruct (reactor_no_stale_dispatch demo_reactor 7%nat demo_rinv) as [_ H].
  destruct H as (b & E & Hi & _); [vm_compute; reflexivity |]. exists b. split; [exact E | exact Hi].
Defined.

(** Setting a timer, whatever its state, makes it run once: it is in the tree at
    its new time and in no list. A relative time is the clock plus the time, held in
    the range of 64 bits; no value of a 64-bit integer overflows. *)
Theorem reactor_set_timer {T G} `{OrderedTree T} `{JobQueue G} (bsys : BReactor T G) x mode time now : rinv bsys →
  is_Some (timers bsys !! x) → is_int64 time → is_int64 now →
  ∃ bsys' t, BReactor_SetSmallTimer bsys x mode time now = Some bsys' ∧ rinv bsys' ∧
    timers bsys' !! x = Some t ∧ tm_state t = TIMER_STATE_RUNNING ∧
    absTime t = match mode with
      | BTIMER_SET_ABSOLUTE => time
      | BTIMER_SET_RELATIVE => Z.max INT64_MIN (Z.min INT64_MAX (now + time))
      end ∧
    ot_seq (timers_tree bsys') ≡ₚ x :: filter (λ y, y ≠ x) (ot_seq (timers_tree bsys)) ∧
    timers_expired_list bsys' = filter (λ y, y ≠ x) (timers_expired_list bsys).
Proof.
  intros Hi Hx Ht Hn. destruct (set_timer_spec bsys x mode time now Hi Hx Ht Hn) as (bsys' & t & E & Hi' & Hxt & Hs & Ha & H3).
  exists bsys', t. do 4 (split; [done |]). split; [| done]. rewrite Ha. destruct mode; [done |]. cbn [set_time]. by apply btime_add_clamp.
Qed.

Lemma reactor_set_timer_witness :
  ∃ b t, BReactor_SetSmallTimer demo_reactor 1 BTIMER_SET_RELATIVE INT64_MAX 100 = Some b ∧ timers b !! 1%nat = Some t ∧ absTime t = INT64_MAX.
Proof.
  destruct (reactor_set_timer demo_reactor 1%nat BTIMER_SET_RELATIVE INT64_MAX 100 demo_rinv) as (b & t & E & _ & Hx & _ & Ha & _).
  - eexists. vm_compute. reflexivity.
  - split; vm_compute; discriminate.
  - split; vm_compute; discriminate.
  - exists b, t. split; [exact E |]. split; [exact Hx |]. rewrite Ha. vm_compute. reflexivity.
Defined.

(** The timeout given to the kernel is right. While the loop waits for a first
    timer that lies in the future, the difference of the times does not overflow and
    the argument of [epoll_wait] is at least 1 and at most [INT_MAX], never the
    negative value that means no timeout; without a timer it is -1. *)
Theorem reactor_timeout_bounds {T G} `{OrderedTree T} `{JobQueue G} (bsys : BReactor T G) now : rinv bsys → 0 ≤ now ≤ INT64_MAX →
  match first_time bsys with
  | Some ta => now < ta → is_int64 (timeout_rel (Some ta) now) ∧ 1 ≤ epoll_timeout (Some ta) now ≤ INT_MAX ∧
      (ta - now ≤ INT_MAX → now + epoll_timeout (Some ta) now = ta)
  | None => epoll_timeout None now = -1
  end.
Proof.
  intros [_ Ht _ _] Hn. destruct (first_time bsys) as [ta |] eqn:E; [| done]. intros Hlt.
  apply first_time_Some in E as (x & l & Es & ->).
  assert (is_int64 (at_time (timers bsys) x)) as Hr.
  { pose proof (proj1 (ti_running _ _ _ Ht x)) as Hx. rewrite Es in Hx. specialize (Hx (list_elem_of_here _ _)). unfold at_time.
    destruct (timers bsys !! x) as [t |] eqn:Ex; [| done]. cbn. by apply (ti_range _ _ _ Ht x). }
  unfold is_int64, epoll_timeout, timeout_rel_trunc, timeout_rel, INT_MAX, INT64_MIN, INT64_MAX in *. cbv zeta.
  destruct (2147483647 <? at_time (timers bsys) x - now) eqn:E; b2p; lia.
Qed.

Lemma reactor_timeout_bounds_witness : epoll_timeout (Some 10) 3 = 7 ∧ first_time demo_reactor = Some 10.
Proof.
  assert (first_time demo_reactor = Some 10) as E by (vm_compute; reflexivity). split; [| exact E].
  pose proof (reactor_timeout_bounds demo_reactor 3 demo_rinv) as H. rewrite E in H.
  destruct H as (_ & _ & H3); [vm_compute; split; discriminate | lia |]. specialize (H3 ltac:(vm_compute; discriminate)). lia.
Defined.

(** A limit counts up to its value: an increment succeeds exactly when the count
    is below the limit, and then adds one. A wait sets every count to zero; the wait
    that finds expired timers before it begins keeps the counts. *)
Theorem reactor_limits {T G} `{OrderedTree T} `{JobQueue G} (bsys : BReactor T G) o now ws : rinv bsys → is_Some (limits bsys !! o) →
  (∃ bsys' lim, limits bsys !! o = Some lim ∧ BReactorLimit_Increment bsys o = Some (bsys', bool_decide (count lim < limit lim)) ∧ rinv bsys' ∧
    limits bsys' !! o = Some (lim <| count := if decide (count lim < limit lim) then count lim + 1 else count lim |>)) ∧
  (HasJobs (pending_jobs bsys) = Some false → timers_expired_list bsys = [] → epoll_results_pos bsys = epoll_results_num bsys →
    answers_ok (fds bsys) (first_time bsys) now ws → ∀ bsys', wait_for_events bsys now ws = Some (Some bsys') →
    (∀ x lim, limits bsys' !! x = Some lim → count lim = 0) ∨
    (limits bsys' = limits bsys ∧ ∃ x, x ∈ timers_expired_list bsys' ∧ at_time (timers bsys) x ≤ now)).
Proof.
  intros Hi Ho. split; [by apply limit_increment_spec |]. intros Hj He Hp Hok bsys' Ew.
  destruct (wait_for_events_spec bsys now ws Hi Hj He Hp Hok) as (r & Er & _ & Hr). rewrite Ew in Er. injection Er as <-.
  destruct (Hr bsys' eq_refl) as [_ [(due & Hne & Hm & Hd & _) | (bsys1 & ls & _ & -> & Hls)]].
  - right. split; [by rewrite (mv_rest _ _ _ Hm) |]. destruct due as [| x due]; [done |]. exists x.
    rewrite (mv_expired _ _ _ Hm), elem_of_app. split; [right; apply list_elem_of_here | apply Hd, list_elem_of_here].
  - left. intros x lim. cbn. rewrite Hls. destruct (limits bsys1 !! x); [| done]. by intros [= <-].
Qed.

Lemma reactor_limits_witness :
  ∃ b, BReactorLimit_Increment demo_reactor 9 = Some (b, true) ∧ rinv b.
Proof.
  destruct (reactor_limits demo_reactor 9%nat 3 [] demo_rinv) as [(b & lim & E1 & E2 & Hi & _) _]; [eexists; vm_compute; reflexivity |].
  exists b. split; [| exact Hi]. rewrite E2. vm_compute in E1. injection E1 as <-. reflexivity.
Defined.
