(* ===== verification/BConnection.v ===== *)
(** * Stream sockets (system/BConnection_unix.c, BConnection_common.c, BConnection.h)

    A [BConnection] is a stream socket in the event loop: what is sent through its
    [StreamPassInterface] is written to the socket and what its
    [StreamRecvInterface] asks for is read from it, at once if the kernel allows and
    the limits of the reactor are not used up, else when the reactor reports the
    socket ready. A [BConnector] makes an outgoing connection, a [BListener] accepts
    incoming ones; a [BConnection] takes over the socket of either.

    The state is the reactor (BReactor.v), with its jobs, file descriptors and
    limits, and the object with its two interfaces (FlowInterfaces.v). The answers of
    the system calls are arguments. An effect is a system call on the socket or a
    call of a handler of the user. [d_err] is set once the error was reported. *)
From S2P Require Import Prelude LinkedLists BPending FlowInterfaces SearchTree BAVL CAvl BReactor BAddr.

(** ** Calls that change a part of the state *)

Definition upd {S E} (f : S → option S) : M S E unit := λ s, match f s with Some s' => Some ((), s', []) | None => None end.
Definition ask {S E A} (f : S → option (S * A)) : M S E A := λ s, match f s with Some (s', a) => Some (a, s', []) | None => None end.

Lemma wp_update {S E} (f : S → option S) (Q : unit → S → list E → Prop) s s' : f s = Some s' → Q () s' [] → wp (upd f) Q s.
Proof. unfold wp, upd. by intros ->. Qed.
Lemma wp_ask {S E A} (f : S → option (S * A)) (Q : A → S → list E → Prop) s s' a : f s = Some (s', a) → Q a s' [] → wp (ask f) Q s.
Proof. unfold wp, ask. by intros ->. Qed.

(** ** Addresses *)

Definition AF_UNIX : Z := 1.
Definition AF_INET : Z := 2.
Definition AF_INET6 : Z := 10.
Definition sizeof_sockaddr_in : Z := 16.
Definition sizeof_sockaddr_in6 : Z := 28.
Definition offsetof_sun_path : Z := 2.
Definition MAX_UNIX_SOCKET_PATH : Z := 200.

Inductive sockaddr :=
| sockaddr_in (sin_port s_addr : Z)
| sockaddr_in6 (sin6_port sin6_flowinfo : Z) (s6_addr : bytes) (sin6_scope_id : Z)
| sockaddr_other (sa_family : Z).
Record sys_addr := mk_sys_addr { sa_len : Z; sa_addr : sockaddr }.

Definition sa_family (a : sockaddr) : Z :=
  match a with sockaddr_in _ _ => AF_INET | sockaddr_in6 _ _ _ _ => AF_INET6 | sockaddr_other f => f end.

Record unix_addr := mk_unix_addr { ua_len : Z; sun_family : Z; sun_path : bytes }.

(** The path is the bytes before its terminator; [None] when the function returns 0. *)
Definition build_unix_address (socket_path : bytes) : option unix_addr :=
  if MAX_UNIX_SOCKET_PATH <? zlen socket_path then None
  else Some (mk_unix_addr (offsetof_sun_path + zlen socket_path + 1) AF_UNIX (socket_path ++ [0])).

Definition addr_socket_to_sys (addr : BAddr) : option sys_addr :=
  match addr with
  | BADDR_IPV4 ip port => Some (mk_sys_addr sizeof_sockaddr_in (sockaddr_in port ip))
  | BADDR_IPV6 ip port => Some (mk_sys_addr sizeof_sockaddr_in6 (sockaddr_in6 port 0 (ztake 16 ip) 0))
  | BADDR_NONE => None
  end.

Definition addr_sys_to_socket (addr : sys_addr) : option BAddr :=
  match sa_addr addr with
  | sockaddr_in port ip => ASSERT (sa_len addr =? sizeof_sockaddr_in);; Some (BAddr_InitIPv4 ip port)
  | sockaddr_in6 port _ ip _ => ASSERT (sa_len addr =? sizeof_sockaddr_in6);; Some (BAddr_InitIPv6 ip port)
  | sockaddr_other _ => Some BAddr_InitNone
  end.

Definition BConnection_AddressSupported (addr : BAddr) : bool := (BAddr_type addr =? 1) || (BAddr_type addr =? 2).

Inductive BLisCon_from := BLISCON_FROM_ADDR (addr : BAddr) | BLISCON_FROM_UNIX (socket_path : bytes).

(** The address of a socket, of either kind. *)
Inductive any_addr := AnySys (a : sys_addr) | AnyUnix (a : unix_addr).
Definition any_family (a : any_addr) : Z := match a with AnySys a => sa_family (sa_addr a) | AnyUnix a => sun_family a end.

(** The address that is bound or connected to; [Some None] when it is refused. *)
Definition from_sockaddr (from : BLisCon_from) : option (option any_addr) :=
  match from with
  | BLISCON_FROM_UNIX socket_path => Some (AnyUnix <$> build_unix_address socket_path)
  | BLISCON_FROM_ADDR addr =>
      if negb (BConnection_AddressSupported addr) then Some None
      else a ← addr_socket_to_sys addr; Some (Some (AnySys a))
  end.

(** ** Objects *)

Record BListener := mk_BListener { li_unix_socket_path : option bytes; li_fd : Z; li_bfd : addr; li_default_job : addr }.
#[export] Instance BListener_eta : Eta BListener := λ o,
  mk_BListener (li_unix_socket_path o) (li_fd o) (li_bfd o) (li_default_job o).

Record BConnector := mk_BConnector { ct_job : addr; ct_fd : Z; ct_connected : bool; ct_have_bfd : bool; ct_bfd : addr }.
#[export] Instance BConnector_eta : Eta BConnector := λ o,
  mk_BConnector (ct_job o) (ct_fd o) (ct_connected o) (ct_have_bfd o) (ct_bfd o).

Inductive send_state := SEND_STATE_NOT_INITED | SEND_STATE_READY | SEND_STATE_BUSY.
Inductive recv_state :=
  RECV_STATE_NOT_INITED | RECV_STATE_READY | RECV_STATE_BUSY | RECV_STATE_INITED_CLOSED | RECV_STATE_NOT_INITED_CLOSED.
#[export] Instance send_state_eq_dec : EqDecision send_state.
Proof. solve_decision. Defined.
#[export] Instance recv_state_eq_dec : EqDecision recv_state.
Proof. solve_decision. Defined.

Record conn_send := mk_conn_send {
  snd_limit : addr; snd_iface : StreamPassInterface; snd_job : addr; snd_busy_data : Z; snd_busy_data_len : Z; snd_state : send_state
}.
#[export] Instance conn_send_eta : Eta conn_send := λ s,
  mk_conn_send (snd_limit s) (snd_iface s) (snd_job s) (snd_busy_data s) (snd_busy_data_len s) (snd_state s).
Record conn_recv := mk_conn_recv {
  rcv_limit : addr; rcv_iface : StreamRecvInterface; rcv_job : addr; rcv_busy_data : Z; rcv_busy_data_avail : Z; rcv_state : recv_state
}.
#[export] Instance conn_recv_eta : Eta conn_recv := λ s,
  mk_conn_recv (rcv_limit s) (rcv_iface s) (rcv_job s) (rcv_busy_data s) (rcv_busy_data_avail s) (rcv_state s).

Record BConnection := mk_BConnection {
  cn_fd : Z; close_fd : bool; is_hupd : bool; cn_bfd : addr; wait_events : Z; send : conn_send; recv : conn_recv; d_err : bool
}.
#[export] Instance BConnection_eta : Eta BConnection := λ o,
  mk_BConnection (cn_fd o) (close_fd o) (is_hupd o) (cn_bfd o) (wait_events o) (send o) (recv o) (d_err o).

Definition BCONNECTION_SEND_LIMIT : Z := 2.
Definition BCONNECTION_RECV_LIMIT : Z := 2.

Inductive conn_event := BCONNECTION_EVENT_ERROR | BCONNECTION_EVENT_RECVCLOSED.

(** What [read] and [write] answer: a number of bytes, [EAGAIN] or [EWOULDBLOCK],
    another error. *)
Inductive io_result := IoBytes (n : Z) | IoAgain | IoFail.
#[export] Instance io_result_eq_dec : EqDecision io_result.
Proof. solve_decision. Defined.

(** The kernel during one call: [write] and [read] of at most that many bytes, the
    changes of the epoll set. *)
Record kernel := mk_kernel { k_write : Z → io_result; k_read : Z → io_result; k_mod : bool; k_del : bool }.

(** What the system calls that make a socket answer. A descriptor below zero is a
    failure. *)
Inductive connect_result := ConnectOk | ConnectInProgress | ConnectFail.
Inductive unlink_result := UnlinkOk | UnlinkNoEnt | UnlinkFail.
Record connector_answers := mk_connector_answers {
  ca_socket : Z; ca_nonblocking : bool; ca_connect : connect_result; ca_added : bool; ca_mod : bool
}.
Record listener_answers := mk_listener_answers {
  la_strdup : bool; la_socket : Z; la_nonblocking : bool; la_unlink : unlink_result; la_bind : bool; la_listen : bool;
  la_added : bool; la_mod : bool
}.
Record init_answers := mk_init_answers { ia_accept : Z * sys_addr; ia_nonblocking : bool; ia_added : bool }.

(** A connection is made of what a listener accepts (and whether the address of the
    peer is wanted), of a connector, or of a descriptor. *)
Inductive BConnection_source :=
| SOURCE_LISTENER (listener : BListener) (out_addr : bool)
| SOURCE_CONNECTOR (connector : BConnector)
| SOURCE_PIPE (pipefd : Z) (close_it : bool).

Inductive ceffect :=
| XSocket (family fd : Z)
| XBind (fd : Z) (a : any_addr)
| XListen (fd backlog : Z)
| XConnect (fd : Z) (a : any_addr)
| XAccept (fd newfd : Z)
| XWrite (fd data len : Z) (r : io_result)
| XRead (fd data len : Z) (r : io_result)
| XClose (fd : Z)
| XUnlink (path : bytes)
| XStrdup (path : bytes)
| XFreePath (path : bytes)
| XEvent (e : conn_event)
| XSent (c : icall)
| XReceived (c : icall)
| XConnected (is_error : bool)
| XIncoming.

(** The reactor and a connection in it. *)
Record csys (T G : Type) := mk_csys { bsys : BReactor T G; con : BConnection }.
Arguments mk_csys {T G}.
Arguments bsys {T G}.
Arguments con {T G}.
#[export] Instance csys_eta T G : Eta (csys T G) := λ s, mk_csys (bsys s) (con s).

Section connection.
Context {T G : Type} `{OrderedTree T} `{JobQueue G}.
#[local] Abbreviation reactor := (BReactor T G).

#[local] Abbreviation cm := (M (csys T G) ceffect).
#[local] Abbreviation rm := (M reactor ceffect).

Definition with_jobs (f : G → option G) (b : reactor) : option reactor := g ← f (pending_jobs b); Some (b <| pending_jobs := g |>).
Definition con_bsys (f : reactor → option reactor) : cm unit := upd (λ s, b ← f (bsys s); Some (s <| bsys := b |>)).
Definition con_ask (f : reactor → option (reactor * bool)) : cm bool := ask (λ s, '(b, a) ← f (bsys s); Some (s <| bsys := b |>, a)).
Definition con_set (f : BConnection → BConnection) : cm unit := modify (λ s, s <| con := f (con s) |>).

(** A call of the sending, or receiving, interface. *)
Definition con_send_iface (f : G → StreamPassInterface → option (G * StreamPassInterface)) : cm unit :=
  upd (λ s, '(g, i) ← f (pending_jobs (bsys s)) (snd_iface (send (con s)));
    Some (s <| bsys := (bsys s) <| pending_jobs := g |> |> <| con := (con s) <| send := (send (con s)) <| snd_iface := i |> |> |>)).
Definition con_recv_iface (f : G → StreamRecvInterface → option (G * StreamRecvInterface)) : cm unit :=
  upd (λ s, '(g, i) ← f (pending_jobs (bsys s)) (rcv_iface (recv (con s)));
    Some (s <| bsys := (bsys s) <| pending_jobs := g |> |> <| con := (con s) <| recv := (recv (con s)) <| rcv_iface := i |> |> |>)).

Definition set_send_state (st : send_state) : cm unit := con_set (λ o, o <| send := (send o) <| snd_state := st |> |>).
Definition set_recv_state (st : recv_state) : cm unit := con_set (λ o, o <| recv := (recv o) <| rcv_state := st |> |>).

(** ** Sending and receiving *)

(** [o->wait_events |= events; BReactor_SetFileDescriptorEvents(...)] *)
Definition wait_for_fd (k : kernel) (events : Z) : cm unit :=
  con_set (λ o, o <| wait_events := Z.lor (wait_events o) events |>);;
  o ← gets con;
  con_bsys (λ b, BReactor_SetFileDescriptorEvents b (cn_bfd o) (wait_events o) (k_mod k)).

Definition connection_report_error : cm unit :=
  o ← gets con;
  assert (negb (d_err o));;
  con_set (λ o, o <| d_err := true |>);;
  emit (XEvent BCONNECTION_EVENT_ERROR).

Definition connection_send (k : kernel) : cm unit :=
  o ← gets con;
  assert (negb (d_err o));;
  assert (bool_decide (snd_state (send o) = SEND_STATE_BUSY));;
  go ← (if negb (is_hupd o) then con_ask (λ b, BReactorLimit_Increment b (snd_limit (send o))) else mret true);
  if negb go then wait_for_fd k BREACTOR_WRITE else
  let r := k_write k (snd_busy_data_len (send o)) in
  emit (XWrite (cn_fd o) (snd_busy_data (send o)) (snd_busy_data_len (send o)) r);;
  match r with
  | IoAgain => if negb (is_hupd o) then wait_for_fd k BREACTOR_WRITE else connection_report_error
  | IoFail => connection_report_error
  | IoBytes n =>
      assert (0 <? n);;
      assert (n <=? snd_busy_data_len (send o));;
      set_send_state SEND_STATE_READY;;
      con_send_iface (λ g i, StreamPassInterface_Done g i n)
  end.

Definition connection_recv (k : kernel) : cm unit :=
  o ← gets con;
  assert (negb (d_err o));;
  assert (bool_decide (rcv_state (recv o) = RECV_STATE_BUSY));;
  go ← (if negb (is_hupd o) then con_ask (λ b, BReactorLimit_Increment b (rcv_limit (recv o))) else mret true);
  if negb go then wait_for_fd k BREACTOR_READ else
  let r := k_read k (rcv_busy_data_avail (recv o)) in
  emit (XRead (cn_fd o) (rcv_busy_data (recv o)) (rcv_busy_data_avail (recv o)) r);;
  match r with
  | IoAgain => if negb (is_hupd o) then wait_for_fd k BREACTOR_READ else connection_report_error
  | IoFail => connection_report_error
  | IoBytes n =>
      if n =? 0 then set_recv_state RECV_STATE_INITED_CLOSED;; emit (XEvent BCONNECTION_EVENT_RECVCLOSED) else
      assert (0 <? n);;
      assert (n <=? rcv_busy_data_avail (recv o));;
      set_recv_state RECV_STATE_READY;;
      con_recv_iface (λ g i, StreamRecvInterface_Done g i n)
  end.

Definition connection_fd_handler (k : kernel) (events : Z) : cm unit :=
  o ← gets con;
  assert (negb (d_err o));;
  assert (negb (is_hupd o));;
  con_set (λ o, o <| wait_events := Z.land (wait_events o) (Z.lnot events) |>);;
  o ← gets con;
  con_bsys (λ b, BReactor_SetFileDescriptorEvents b (cn_bfd o) (wait_events o) (k_mod k));;
  when (negb (Z.land events BREACTOR_HUP =? 0))
    (con_bsys (λ b, BReactor_RemoveFileDescriptor b (cn_bfd o) (k_del k));; con_set (λ o, o <| is_hupd := true |>));;
  o ← gets con;
  let failed := negb (Z.land events (Z.lor BREACTOR_ERROR BREACTOR_HUP) =? 0) in
  let have_send := negb (Z.land events BREACTOR_WRITE =? 0) || failed && bool_decide (snd_state (send o) = SEND_STATE_BUSY) in
  when have_send (assert (bool_decide (snd_state (send o) = SEND_STATE_BUSY)));;
  let have_recv := negb (Z.land events BREACTOR_READ =? 0) || failed && bool_decide (rcv_state (recv o) = RECV_STATE_BUSY) in
  when have_recv (assert (bool_decide (rcv_state (recv o) = RECV_STATE_BUSY)));;
  if have_send then
    when have_recv (con_bsys (with_jobs (λ g, job_set g (rcv_job (recv o)))));;
    connection_send k
  else if have_recv then connection_recv k
  else when (negb (is_hupd o)) connection_report_error.

Definition connection_send_job_handler (k : kernel) : cm unit :=
  o ← gets con;
  assert (negb (d_err o));;
  assert (bool_decide (snd_state (send o) = SEND_STATE_BUSY));;
  connection_send k.

Definition connection_recv_job_handler (k : kernel) : cm unit :=
  o ← gets con;
  assert (negb (d_err o));;
  assert (bool_decide (rcv_state (recv o) = RECV_STATE_BUSY));;
  connection_recv k.

Definition connection_send_if_handler_send (k : kernel) (data data_len : Z) : cm unit :=
  o ← gets con;
  assert (negb (d_err o));;
  assert (bool_decide (snd_state (send o) = SEND_STATE_READY));;
  assert (0 <? data_len);;
  con_set (λ o, o <| send := (send o) <| snd_busy_data := data |> <| snd_busy_data_len := data_len |> <| snd_state := SEND_STATE_BUSY |> |>);;
  connection_send k.

Definition connection_recv_if_handler_recv (k : kernel) (data data_avail : Z) : cm unit :=
  o ← gets con;
  assert (negb (d_err o));;
  assert (bool_decide (rcv_state (recv o) = RECV_STATE_READY));;
  assert (0 <? data_avail);;
  con_set (λ o, o <| recv := (recv o) <| rcv_busy_data := data |> <| rcv_busy_data_avail := data_avail |> <| rcv_state := RECV_STATE_BUSY |> |>);;
  connection_recv k.

(** ** The two sides *)

(** The names the interfaces have for the two handlers above. *)
Definition send_operation : nat := 1.
Definition recv_operation : nat := 2.

Definition BConnection_SendAsync_Init : cm unit :=
  o ← gets con;
  assert (negb (d_err o));;
  assert (bool_decide (snd_state (send o) = SEND_STATE_NOT_INITED));;
  con_send_iface (λ g i, StreamPassInterface_Init g i send_operation);;
  con_bsys (with_jobs (λ g, job_init g (snd_job (send o))));;
  set_send_state SEND_STATE_READY.

Definition BConnection_SendAsync_Free (k : kernel) : cm unit :=
  o ← gets con;
  assert (bool_decide (snd_state (send o) = SEND_STATE_READY) || bool_decide (snd_state (send o) = SEND_STATE_BUSY));;
  when (negb (is_hupd o))
    (con_set (λ o, o <| wait_events := Z.land (wait_events o) (Z.lnot BREACTOR_WRITE) |>);;
     o ← gets con;
     con_bsys (λ b, BReactor_SetFileDescriptorEvents b (cn_bfd o) (wait_events o) (k_mod k)));;
  con_bsys (with_jobs (λ g, job_free g (snd_job (send o))));;
  con_bsys (with_jobs (λ g, StreamPassInterface_Free g (snd_iface (send o))));;
  set_send_state SEND_STATE_NOT_INITED.

Definition BConnection_RecvAsync_Init : cm unit :=
  o ← gets con;
  assert (negb (d_err o));;
  assert (bool_decide (rcv_state (recv o) = RECV_STATE_NOT_INITED));;
  con_recv_iface (λ g i, StreamRecvInterface_Init g i recv_operation);;
  con_bsys (with_jobs (λ g, job_init g (rcv_job (recv o))));;
  set_recv_state RECV_STATE_READY.

Definition BConnection_RecvAsync_Free (k : kernel) : cm unit :=
  o ← gets con;
  assert (bool_decide (rcv_state (recv o) = RECV_STATE_READY) || bool_decide (rcv_state (recv o) = RECV_STATE_BUSY) ||
          bool_decide (rcv_state (recv o) = RECV_STATE_INITED_CLOSED));;
  when (negb (is_hupd o))
    (con_set (λ o, o <| wait_events := Z.land (wait_events o) (Z.lnot BREACTOR_READ) |>);;
     o ← gets con;
     con_bsys (λ b, BReactor_SetFileDescriptorEvents b (cn_bfd o) (wait_events o) (k_mod k)));;
  con_bsys (with_jobs (λ g, job_free g (rcv_job (recv o))));;
  con_bsys (with_jobs (λ g, StreamRecvInterface_Free g (rcv_iface (recv o))));;
  set_recv_state RECV_STATE_NOT_INITED.

Definition BConnection_Free (k : kernel) : cm unit :=
  o ← gets con;
  assert (bool_decide (snd_state (send o) = SEND_STATE_NOT_INITED));;
  assert (bool_decide (rcv_state (recv o) = RECV_STATE_NOT_INITED) || bool_decide (rcv_state (recv o) = RECV_STATE_NOT_INITED_CLOSED));;
  con_bsys (λ b, BReactorLimit_Free b (rcv_limit (recv o)));;
  con_bsys (λ b, BReactorLimit_Free b (snd_limit (send o)));;
  when (negb (is_hupd o)) (con_bsys (λ b, BReactor_RemoveFileDescriptor b (cn_bfd o) (k_del k)));;
  when (close_fd o) (emit (XClose (cn_fd o))).

(** ** Outgoing connections *)

(** The names the reactor has for the handlers of the descriptors. *)
Definition connector_fd : nat := 3.
Definition listener_fd : nat := 4.
Definition connection_fd : nat := 5.

Definition BConnector_InitFrom (o : BConnector) (from : BLisCon_from) (a : connector_answers) : rm (BConnector * bool) :=
  addr ← lift (from_sockaddr from);
  match addr with
  | None => mret (o, false)
  | Some addr =>
      upd (with_jobs (λ g, job_init g (ct_job o)));;
      let fail1 o := upd (with_jobs (λ g, job_free g (ct_job o)));; mret (o, false) in
      let fail2 o := emit (XClose (ct_fd o));; fail1 o in
      let o := o <| ct_fd := ca_socket a |> in
      emit (XSocket (any_family addr) (ct_fd o));;
      if ct_fd o <? 0 then fail1 o else
      if negb (ca_nonblocking a) then fail2 o else
      emit (XConnect (ct_fd o) addr);;
      match ca_connect a with
      | ConnectFail => fail2 o
      | ConnectInProgress =>
          let o := o <| ct_connected := false |> <| ct_have_bfd := false |> in
          upd (λ b, Some (BFileDescriptor_Init b (ct_bfd o) (ct_fd o) connector_fd));;
          added ← ask (λ b, BReactor_AddFileDescriptor b (ct_bfd o) (ca_added a));
          if negb added then fail2 o else
          upd (λ b, BReactor_SetFileDescriptorEvents b (ct_bfd o) BREACTOR_WRITE (ca_mod a));;
          mret (o <| ct_have_bfd := true |>, true)
      | ConnectOk =>
          let o := o <| ct_connected := false |> <| ct_have_bfd := false |> in
          let o := o <| ct_connected := true |> in
          upd (with_jobs (λ g, job_set g (ct_job o)));;
          mret (o, true)
      end
  end.

Definition BConnector_Init (o : BConnector) (addr : BAddr) (a : connector_answers) : rm (BConnector * bool) :=
  BConnector_InitFrom o (BLISCON_FROM_ADDR addr) a.
Definition BConnector_InitUnix (o : BConnector) (socket_path : bytes) (a : connector_answers) : rm (BConnector * bool) :=
  BConnector_InitFrom o (BLISCON_FROM_UNIX socket_path) a.

Definition BConnector_Free (o : BConnector) (k : kernel) : rm unit :=
  when (ct_have_bfd o) (upd (λ b, BReactor_RemoveFileDescriptor b (ct_bfd o) (k_del k)));;
  when (negb (ct_fd o =? -1)) (emit (XClose (ct_fd o)));;
  upd (with_jobs (λ g, job_free g (ct_job o))).

(** [so_error] is the pending error of the socket, [None] if [getsockopt] fails. *)
Definition connector_fd_handler (o : BConnector) (k : kernel) (so_error : option Z) : rm BConnector :=
  assert (0 <=? ct_fd o);;
  assert (negb (ct_connected o));;
  assert (ct_have_bfd o);;
  upd (λ b, BReactor_RemoveFileDescriptor b (ct_bfd o) (k_del k));;
  let o := o <| ct_have_bfd := false |> in
  let o := if bool_decide (so_error = Some 0) then o <| ct_connected := true |> else o in
  emit (XConnected (negb (ct_connected o)));;
  mret o.

Definition connector_job_handler (o : BConnector) : rm unit :=
  assert (0 <=? ct_fd o);;
  assert (ct_connected o);;
  assert (negb (ct_have_bfd o));;
  emit (XConnected false).

(** ** Incoming connections *)

Definition BCONNECTION_LISTEN_BACKLOG : Z := 128.

(** That [SO_REUSEADDR] cannot be set is only logged. *)
Definition BListener_InitFrom (o : BListener) (from : BLisCon_from) (a : listener_answers) : rm (BListener * bool) :=
  let path := match from with BLISCON_FROM_UNIX p => Some p | _ => None end in
  if negb (la_strdup a) && is_set path then mret (o <| li_unix_socket_path := None |>, false) else
  let o := o <| li_unix_socket_path := path |> in
  match path with Some p => emit (XStrdup p) | None => mret () end;;
  let fail1 o := match path with Some p => emit (XFreePath p) | None => mret () end;; mret (o, false) in
  let fail2 o := emit (XClose (li_fd o));; fail1 o in
  let fail3 o := match path with Some p => emit (XUnlink p) | None => mret () end;; fail2 o in
  addr ← lift (from_sockaddr from);
  match addr with
  | None => fail1 o
  | Some addr =>
      let o := o <| li_fd := la_socket a |> in
      emit (XSocket (any_family addr) (li_fd o));;
      if li_fd o <? 0 then fail1 o else
      if negb (la_nonblocking a) then fail2 o else
      unlinked ← match path with
        | Some p => emit (XUnlink p);; mret (match la_unlink a with UnlinkFail => false | _ => true end)
        | None => mret true
        end;
      if negb unlinked then fail2 o else
      emit (XBind (li_fd o) addr);;
      if negb (la_bind a) then fail2 o else
      emit (XListen (li_fd o) BCONNECTION_LISTEN_BACKLOG);;
      if negb (la_listen a) then fail3 o else
      upd (λ b, Some (BFileDescriptor_Init b (li_bfd o) (li_fd o) listener_fd));;
      added ← ask (λ b, BReactor_AddFileDescriptor b (li_bfd o) (la_added a));
      if negb added then fail3 o else
      upd (λ b, BReactor_SetFileDescriptorEvents b (li_bfd o) BREACTOR_READ (la_mod a));;
      upd (with_jobs (λ g, job_init g (li_default_job o)));;
      mret (o, true)
  end.

Definition BListener_Init (o : BListener) (addr : BAddr) (a : listener_answers) : rm (BListener * bool) :=
  BListener_InitFrom o (BLISCON_FROM_ADDR addr) a.
Definition BListener_InitUnix (o : BListener) (socket_path : bytes) (a : listener_answers) : rm (BListener * bool) :=
  BListener_InitFrom o (BLISCON_FROM_UNIX socket_path) a.

Definition BListener_Free (o : BListener) (k : kernel) : rm unit :=
  upd (with_jobs (λ g, job_free g (li_default_job o)));;
  upd (λ b, BReactor_RemoveFileDescriptor b (li_bfd o) (k_del k));;
  emit (XClose (li_fd o));;
  match li_unix_socket_path o with Some p => emit (XUnlink p) | None => mret () end;;
  match li_unix_socket_path o with Some p => emit (XFreePath p) | None => mret () end.

Definition listener_fd_handler (o : BListener) : rm unit :=
  upd (with_jobs (λ g, job_set g (li_default_job o)));;
  emit XIncoming.

(** [newfd] is what [accept] answers. *)
Definition listener_default_job_handler (o : BListener) (newfd : Z) : rm unit :=
  emit (XAccept (li_fd o) newfd);;
  when (negb (newfd <? 0)) (emit (XClose newfd)).

(** ** Making the connection *)

Definition job_is_set (g : G) (o : addr) : option bool :=
  '(_, a) ← jq_step g (CIsSet o); match a with ABool b => Some b | _ => None end.

(** The descriptor of the source, whether it is to be closed, the source after it
    was taken out of it, the address of the peer if it was asked for. [None] if the
    source gives no descriptor. *)
Definition take_source (src : BConnection_source) (a : init_answers) : rm (option (Z * bool) * BConnection_source * option BAddr) :=
  match src with
  | SOURCE_LISTENER l out_addr =>
      b ← get;
      pending ← lift (job_is_set (pending_jobs b) (li_default_job l));
      assert pending;;
      upd (with_jobs (λ g, job_unset g (li_default_job l)));;
      let '(fd, sysaddr) := ia_accept a in
      emit (XAccept (li_fd l) fd);;
      if fd <? 0 then mret (None, src, None) else
      if negb (ia_nonblocking a) then emit (XClose fd);; mret (None, src, None) else
      peer ← (if (out_addr : bool) then p ← lift (addr_sys_to_socket sysaddr); mret (Some p) else mret None);
      mret (Some (fd, true), src, peer)
  | SOURCE_CONNECTOR c =>
      b ← get;
      assert (0 <=? ct_fd c);;
      assert (ct_connected c);;
      assert (negb (ct_have_bfd c));;
      pending ← lift (job_is_set (pending_jobs b) (ct_job c));
      assert (negb pending);;
      mret (Some (ct_fd c, true), SOURCE_CONNECTOR (c <| ct_fd := -1 |>), None)
  | SOURCE_PIPE fd close_it =>
      assert (0 <=? fd);;
      if negb (ia_nonblocking a) then when close_it (emit (XClose fd));; mret (None, src, None)
      else mret (Some (fd, close_it), src, None)
  end.

Definition BConnection_Init (o : BConnection) (src : BConnection_source) (a : init_answers) :
    rm (option BConnection * BConnection_source * option BAddr) :=
  '(fdc, src, peer) ← take_source src a;
  match fdc with
  | None => mret (None, src, peer)
  | Some (fd, closing) =>
      let o := o <| cn_fd := fd |> <| close_fd := closing |> in
      let o := o <| is_hupd := false |> in
      upd (λ b, Some (BFileDescriptor_Init b (cn_bfd o) (cn_fd o) connection_fd));;
      added ← ask (λ b, BReactor_AddFileDescriptor b (cn_bfd o) (ia_added a));
      if negb added then when (close_fd o) (emit (XClose (cn_fd o)));; mret (None, src, peer) else
      let o := o <| wait_events := 0 |> in
      upd (λ b, BReactorLimit_Init b (snd_limit (send o)) BCONNECTION_SEND_LIMIT);;
      upd (λ b, BReactorLimit_Init b (rcv_limit (recv o)) BCONNECTION_RECV_LIMIT);;
      let o := o <| send := (send o) <| snd_state := SEND_STATE_NOT_INITED |> |>
                 <| recv := (recv o) <| rcv_state := RECV_STATE_NOT_INITED |> |> in
      mret (Some (o <| d_err := false |>), src, peer)
  end.

End connection.
