(* ===== verification/ReactorFrame.v ===== *)
(** * What the reactor keeps of an object

    An object of the program has a file descriptor, two limits and some jobs in the
    reactor (BReactor.v). The lemmas say that the iterations of the loop and the calls
    of other objects leave them alone ([keeps], [jobs_kept]), and what the calls of
    the object itself do to them ([own]). *)
From S2P Require Import Prelude LinkedLists BPending FlowInterfaces SearchTree BAVL CAvl BReactor.

(** ** What the reactor keeps for a connection *)

(** Opens a call that succeeded. *)
Ltac open_call E :=
  repeat (cbv zeta in E;
    lazymatch type of E with
    | mbind _ _ = Some _ => let x := fresh "x" in let Ex := fresh "Ex" in apply bind_Some in E; destruct E as (x & Ex & E)
    | match ?p with _ => _ end = Some _ => let C := fresh "C" in destruct p eqn:C
    | Some _ = Some _ => first [injection E as <- <- | injection E as <-]
    | None = Some _ => discriminate E
    end).

Section frames.
Context {T G : Type} `{OrderedTree T} `{JobQueue G}.
#[local] Abbreviation reactor := (BReactor T G).
Implicit Types (b : reactor) (L : gmap addr nat) (P : gset addr).

Record keeps (bfd l1 l2 : addr) (b b' : reactor) : Prop := {
  kp_fd f : fds b !! bfd = Some f → ∃ f', fds b' !! bfd = Some f' ∧ active f' = active f ∧ waitEvents f' = waitEvents f;
  kp_l1 : is_Some (limits b !! l1) → is_Some (limits b' !! l1);
  kp_l2 : is_Some (limits b !! l2) → is_Some (limits b' !! l2)
}.

Record own (b : reactor) (bfd : addr) (hup : bool) (w : Z) (l1 l2 : addr) : Prop := {
  ow_inv : rinv b;
  ow_fd : ∃ f, fds b !! bfd = Some f ∧ active f = negb hup ∧ (hup = false → waitEvents f = w);
  ow_l1 : is_Some (limits b !! l1);
  ow_l2 : is_Some (limits b !! l2)
}.

Lemma own_keeps b b' bfd hup w l1 l2 : own b bfd hup w l1 l2 → keeps bfd l1 l2 b b' → rinv b' → own b' bfd hup w l1 l2.
Proof using Type.
  intros [Hi (f & Hf & Ha & Hw) H1 H2] [Kf K1 K2] Hi'. destruct (Kf f Hf) as (f' & Hf' & Ea & Ew).
  split; [done | | by apply K1 | by apply K2]. exists f'. rewrite Ea, Ew. done.
Qed.

Lemma keeps_same bfd l1 l2 b b' : fds b' !! bfd = fds b !! bfd → limits b' !! l1 = limits b !! l1 → limits b' !! l2 = limits b !! l2 →
  keeps bfd l1 l2 b b'.
Proof using Type. intros E1 E2 E3. split; [intros f; rewrite E1; eauto | by rewrite E2 | by rewrite E3]. Qed.

Lemma keeps_trans bfd l1 l2 b1 b2 b3 : keeps bfd l1 l2 b1 b2 → keeps bfd l1 l2 b2 b3 → keeps bfd l1 l2 b1 b3.
Proof using Type.
  intros [Kf K1 K2] [Kf' K1' K2']. split; [| tauto | tauto]. intros f Hf.
  destruct (Kf f Hf) as (f' & Hf' & <- & <-). by apply Kf'.
Qed.

(** Other jobs, or other jobs that are set. *)
Lemma own_jobs b bfd hup w l1 l2 g L P : own b bfd hup w l1 l2 → queue g L P → own (b <| pending_jobs := g |>) bfd hup w l1 l2.
Proof using Type.
  intros Ho (q & Hq & _). destruct (ow_inv _ _ _ _ _ _ Ho) as [Hj Ht Hf Hl].
  eapply own_keeps; [exact Ho | by apply keeps_same |]. split; cbn; [by exists q | done..].
Qed.

Lemma restore_jobs b (g : G) : (b <| pending_jobs := g |>) <| pending_jobs := pending_jobs b |> = b.
Proof using Type. by destruct b. Qed.

Lemma own_set_events b bfd w l1 l2 events : own b bfd false w l1 l2 → 0 ≤ events ≤ 3 →
  ∃ b', BReactor_SetFileDescriptorEvents b bfd events true = Some b' ∧ own b' bfd false events l1 l2 ∧ pending_jobs b' = pending_jobs b.
Proof using Type.
  intros [Hi (f & Hf & Ha & Hw) H1 H2] Hev. cbn in Ha.
  destruct (rstep_ok b (RSetFdEvents bfd events true) Hi) as (b' & E & Hi'); [cbn; by rewrite Hf, <- Ha |].
  cbn [rstep] in E. exists b'. split; [done |]. unfold BReactor_SetFileDescriptorEvents in E.
  rewrite Hf, option_bind_Some, (ASSERT_seq _ _ Ha) in E. apply bind_Some in E as (_ & _ & E). destruct (_ =? _) eqn:Ew in E; b2p.
  - injection E as <-. split; [| done]. split; [done | | done..]. exists f. split; [done |]. done.
  - apply bind_Some in E as (_ & _ & [= <-]). split; [| done]. split; [done | | done..]. cbn. rewrite lookup_insert, decide_True by done.
    eexists. split; [done |]. done.
Qed.

Lemma own_remove b bfd w l1 l2 : own b bfd false w l1 l2 →
  ∃ b', BReactor_RemoveFileDescriptor b bfd true = Some b' ∧ own b' bfd true w l1 l2 ∧ pending_jobs b' = pending_jobs b.
Proof using Type.
  intros [Hi (f & Hf & Ha & Hw) H1 H2]. cbn in Ha.
  destruct (rstep_ok b (RRemoveFd bfd true) Hi) as (b' & E & Hi'); [cbn; by rewrite Hf, <- Ha |].
  cbn [rstep] in E. exists b'. split; [done |]. unfold BReactor_RemoveFileDescriptor in E.
  rewrite Hf, option_bind_Some, (ASSERT_seq _ _ Ha) in E. cbv zeta in E. rewrite ASSERT_seq in E by done.
  destruct (epoll_returned_ptr f) as [i |].
  - apply bind_Some in E as (event & Hev & [= <-]). split; [| done]. split; [done | | done..]. cbn. rewrite lookup_insert, decide_True by done. by eexists.
  - injection E as <-. split; [| done]. split; [done | | done..]. cbn. rewrite lookup_insert, decide_True by done. by eexists.
Qed.

Lemma own_increment b bfd hup w l1 l2 l : own b bfd hup w l1 l2 → l = l1 ∨ l = l2 →
  ∃ b' a, BReactorLimit_Increment b l = Some (b', a) ∧ own b' bfd hup w l1 l2 ∧ pending_jobs b' = pending_jobs b.
Proof using Type.
  intros Ho Hl. assert (is_Some (limits b !! l)) as Hs by (destruct Hl as [-> | ->]; [apply (ow_l1 _ _ _ _ _ _ Ho) | apply (ow_l2 _ _ _ _ _ _ Ho)]).
  destruct (limit_increment_spec b l (ow_inv _ _ _ _ _ _ Ho) Hs) as (b' & lim & Hlim & E & Hi' & _).
  exists b', (bool_decide (count lim < limit lim)). split; [done |].
  assert (fds b' = fds b ∧ pending_jobs b' = pending_jobs b ∧ ∀ x, is_Some (limits b !! x) → is_Some (limits b' !! x)) as (Ef & Ej & El).
  { unfold BReactorLimit_Increment in E. rewrite Hlim, option_bind_Some in E. destruct (limit lim <=? count lim); [by injection E as <- _ |].
    injection E as <- _. destruct (_ =? 1); cbn; (do 2 (split; [done |])); intros x Hx; rewrite lookup_insert; (case_decide; [by eexists | done]). }
  split; [| done]. eapply own_keeps; [exact Ho | | done]. split; [rewrite Ef; eauto | apply El | apply El].
Qed.

(** ** One iteration of the loop *)

Lemma moved_keeps bfd l1 l2 b due b' : moved_timers b due b' → keeps bfd l1 l2 b b'.
Proof using Type. intros [_ _ _ E]. apply keeps_same; by rewrite E. Qed.

Lemma set_pointers_keeps x f events : ∀ i fs fs', set_epoll_fd_pointers i events fs = Some fs' → fs !! x = Some f →
  ∃ f', fs' !! x = Some f' ∧ active f' = active f ∧ waitEvents f' = waitEvents f.
Proof using Type.
  revert f. induction events as [| e events IH]; intros f i fs fs' E Hx; cbn [set_epoll_fd_pointers] in E; [injection E as <-; eauto |].
  apply bind_Some in E as (_ & _ & E). apply bind_Some in E as (y & Hy & E). apply bind_Some in E as (g & Hg & E).
  apply bind_Some in E as (_ & _ & E). apply bind_Some in E as (_ & _ & E).
  destruct (decide (y = x)) as [-> | Hne].
  - rewrite Hx in Hg. injection Hg as <-. eapply (IH (f <| epoll_returned_ptr := Some i |>)) in E; [exact E | by rewrite lookup_insert, decide_True].
  - eapply IH; [exact E |]. by rewrite lookup_insert_ne.
Qed.

Lemma wait_keeps bfd l1 l2 b now ws b' : rinv b → HasJobs (pending_jobs b) = Some false → timers_expired_list b = [] →
  epoll_results_pos b = epoll_results_num b → answers_ok (fds b) (first_time b) now ws →
  wait_for_events b now ws = Some (Some b') → keeps bfd l1 l2 b b' ∧ pending_jobs b' = pending_jobs b.
Proof using Type.
  intros Hi Hj He Hp Hok E. destruct (wait_for_events_spec b now ws Hi Hj He Hp Hok) as (r & Er & _ & Hr).
  rewrite Er in E. injection E as ->. destruct (Hr b' eq_refl) as (_ & [(due & _ & Hm & _) | (b1 & ls & Hw & -> & Hls)]).
  - split; [| by rewrite (mv_rest _ _ _ Hm)]. eapply keeps_trans; [| by eapply moved_keeps]. by apply keeps_same.
  - assert (keeps bfd l1 l2 b b1 ∧ pending_jobs b1 = pending_jobs b) as [Hk Hpj].
    { destruct Hw as [due a clock b2 Hin _ _ Hm _ _ | events clock b2 fs Hin _ _ -> Hfs].
      - split; [| by rewrite (mv_rest _ _ _ Hm)]. eapply keeps_trans; [| by eapply moved_keeps]. by apply keeps_same.
      - split; [| done]. split; cbn; [| done | done]. intros f Hf. by eapply set_pointers_keeps. }
    split; [| done]. eapply keeps_trans; [exact Hk |]. split; cbn; [eauto | |]; intros Hs; rewrite Hls; by apply fmap_is_Some.
Qed.

Lemma jobs_of_queue g L P : queue g L P →
  (HasJobs g = Some false ∧ P = ∅) ∨
  (HasJobs g = Some true ∧ ∃ g' h o, ExecuteJob g = Some (g', h) ∧ o ∈ P ∧ L !! o = Some h ∧ queue g' L (P ∖ {[o]})).
Proof using Type.
  intros (q & Hr & HL & Hnd & HP & Hsub).
  destruct (jq_sim g q CHasJobs q (ABool (bool_decide (stack q ≠ []))) Hr eq_refl) as (g1 & E1 & _). unfold HasJobs. rewrite E1.
  destruct (stack q) as [| o js] eqn:Es; [left; split; [done |]; apply set_eq; intros x; rewrite <- HP; set_solver | right].
  split; [done |]. assert (o ∈ P) as Ho by (apply HP; apply list_elem_of_here).
  assert (o ∈ dom (live q)) as [h Hh]%elem_of_dom by (rewrite HL; by apply Hsub).
  destruct (jq_sim g q CExecute (mk_aqueue js (live q)) (ACall h) Hr) as (g2 & E2 & Hr2); [simpl; by rewrite Es, Hh |].
  exists g2, h, o. unfold ExecuteJob. rewrite E2. split; [done |]. split; [done |]. split; [by rewrite <- HL |].
  apply NoDup_cons in Hnd as [Hn Hnd]. eexists. split; [exact Hr2 |]. simpl. split; [done |]. split; [done |]. split; [| set_solver].
  intros x. rewrite elem_of_difference, elem_of_singleton, <- HP, elem_of_cons. split; [intros Hx; split; [by right |]; by intros -> | tauto].
Qed.

(** What the loop does to the jobs, and which events it reports. *)
Definition iteration_jobs b L P b' (d : dispatch) : Prop :=
  match d with
  | DJob h => ∃ o, o ∈ P ∧ L !! o = Some h ∧ queue (pending_jobs b') L (P ∖ {[o]})
  | DFd x h events => P = ∅ ∧ pending_jobs b' = pending_jobs b ∧
      ∃ f e, fds b !! x = Some f ∧ active f = true ∧ events = report_events (waitEvents f) (ev_events e)
  | _ => pending_jobs b' = pending_jobs b
  end.

Lemma dispatch_fd_keeps bfd l1 l2 b b' d L : dispatch_fd b = Some (b', d) → keeps bfd l1 l2 b b' ∧ iteration_jobs b L ∅ b' d.
Proof using Type.
  unfold dispatch_fd. intros E. apply bind_Some in E as (event & Hev & E). cbv zeta in E.
  destruct (data_ptr event) as [x |]; [| injection E as <- <-; split; [by apply keeps_same | done]].
  apply bind_Some in E as (f & Hf & E). apply bind_Some in E as (_ & Ha%ASSERT_inv & E). apply bind_Some in E as (_ & _ & E). cbn in Hf.
  assert (∀ b2 : reactor, fds b2 = <[x := f <| epoll_returned_ptr := None |>]> (fds b) → limits b2 = limits b →
    keeps bfd l1 l2 b b2) as Hk.
  { intros b2 E1 E2. split; [| by rewrite E2 | by rewrite E2]. intros f0 Hf0. rewrite E1, lookup_insert.
    case_decide as Ex; [subst x | by exists f0]. eexists. split; [done |]. rewrite Hf0 in Hf. by injection Hf as <-. }
  destruct (_ =? 0) in E; injection E as <- <-; (split; [by apply Hk |]); [done |]. cbn [iteration_jobs]. split; [done |]. split; [done |].
  exists f, event. done.
Qed.

Lemma iteration_keeps bfd l1 l2 b t b' d L P : rinv b → turn_ok b t →
  queue (pending_jobs b) L P → exec_iteration b (tn_now t) (tn_waits t) = Some (Some (b', d)) →
  keeps bfd l1 l2 b b' ∧ iteration_jobs b L P b' d.
Proof using Type.
  intros Hi Hok Hq E. unfold exec_iteration in E.
  destruct (jobs_of_queue _ _ _ Hq) as [(Hj & ->) | (Hj & g' & h & o & Eg & Ho & Hh & Hq')]; pose proof Hj as Hj'; rewrite Hj, option_bind_Some in E.
  - destruct (timers_expired_list b) as [| x rest] eqn:Ex.
    + destruct (_ <? _)%nat eqn:Ep in E.
      * apply bind_Some in E as (r & Er & [= ->]). by apply (dispatch_fd_keeps bfd l1 l2 b b' d L).
      * apply bind_Some in E as (r & Er & E). destruct r as [b1 |]; [| done]. injection E as <- <-.
        apply Nat.ltb_ge in Ep. pose proof (fi_bounds _ _ _ _ (ri_fds _ Hi)). cbn [iteration_jobs].
        eapply (wait_keeps bfd l1 l2 b (tn_now t) (tn_waits t)); [done | done | done | lia | done | done].
    + apply bind_Some in E as (r & Er & [= ->]). destruct (dispatch_timer_spec b x rest Hi Ex) as (tm & _ & _ & E' & _).
      rewrite E' in Er. injection Er as <- <-. split; [by apply keeps_same | done].
  - rewrite Eg, option_bind_Some in E. injection E as <- <-. split; [by apply keeps_same |]. by exists o.
Qed.

(** ** Calls of other objects *)

(** Other objects call the job queue with jobs of their own. *)
Definition foreign_job (mine : list addr) L (c : cmd) : Prop :=
  match c with
  | CInit o h => (o ∉ mine) ∧ (h ∉ mine) ∧ L !! o = None
  | CSetHandler o h => (o ∉ mine) ∧ (h ∉ mine) ∧ o ∈ dom L
  | CFree o | CSet o | CUnset o => (o ∉ mine) ∧ o ∈ dom L
  | CIsSet o => o ∈ dom L
  | CHasJobs | CPeek => True
  | CExecute => False
  end.

Definition foreign (mine : list addr) (bfd l1 l2 : addr) b (c : rcall) : Prop :=
  match c with
  | RJob c => ∀ L P, queue (pending_jobs b) L P → foreign_job mine L c
  | RFdInit bs _ _ | RAddFd bs _ | RRemoveFd bs _ | RSetFdEvents bs _ _ => bs ≠ bfd
  | RLimitInit o _ | RLimitFree o | RLimitIncrement o | RSetLimit o _ => o ≠ l1 ∧ o ≠ l2
  | _ => True
  end.

(** The jobs [mine] are as before, and no other has taken their names. *)
Definition jobs_kept (mine : list addr) L P L' P' : Prop :=
  (∀ x, x ∈ mine → L' !! x = L !! x ∧ (x ∈ P' ↔ x ∈ P)) ∧ ∀ x h, L' !! x = Some h → h ∈ mine → L !! x = Some h.

Lemma jobs_kept_refl mine L P : jobs_kept mine L P L P.
Proof using Type. by split. Qed.

Lemma foreign_job_queue mine g L P c g' a : queue g L P → foreign_job mine L c → jq_step g c = Some (g', a) →
  ∃ L' P', queue g' L' P' ∧ jobs_kept mine L P L' P'.
Proof using Type.
  intros (q & Hr & HL & Hnd & HP & Hsub) Hc E.
  assert (∀ q' a', astep q c = Some (q', a') → jq_rep g' q') as Hstep.
  { intros q' a' Ea. destruct (jq_sim g q c q' a' Hr Ea) as (g2 & E2 & Hr2). rewrite E in E2. by injection E2 as -> ->. }
  assert (∀ js P', NoDup js → (∀ x, x ∈ js ↔ x ∈ P') → P' ⊆ P → (∀ x, x ∈ mine → x ∈ P → x ∈ P') → ∀ L', jq_rep g' (mk_aqueue js L') →
    P' ⊆ dom L' → (∀ x, x ∈ mine → L' !! x = L !! x) → (∀ x h, L' !! x = Some h → h ∈ mine → L !! x = Some h) →
    ∃ L' P', queue g' L' P' ∧ jobs_kept mine L P L' P') as Hfew.
  { intros js P' H1 H2 H3 H4 L' Hr' H5 H6 H7. exists L', P'. split; [by exists (mk_aqueue js L') |]. split; [| done].
    intros x Hx. split; [by apply H6 |]. split; [apply H3 | by apply H4]. }
  assert (∀ o, o ∉ mine → NoDup (remove_job o (stack q)) ∧ (∀ x, x ∈ remove_job o (stack q) ↔ x ∈ P ∖ {[o]}) ∧
    ∀ x, x ∈ mine → x ∈ P → x ∈ P ∖ {[o]}) as Hrm.
  { intros o Ho. split; [by apply NoDup_remove_job |]. split.
    - intros x. rewrite elem_of_remove_job, elem_of_difference, elem_of_singleton, HP. tauto.
    - intros x Hx HxP. apply elem_of_difference. split; [done |]. rewrite elem_of_singleton. by intros ->. }
  subst L. destruct c as [o h | o | o h | o | o | o | | |]; cbn [foreign_job] in Hc; cbn [astep] in Hstep; [| | | | | | | | done].
  - destruct Hc as (Ho & Hh & Hn). rewrite decide_True in Hstep by done. specialize (Hstep _ _ eq_refl).
    eapply (Hfew _ P); [done | done | done | done | exact Hstep | rewrite dom_insert; set_solver | |].
    + intros x Hx. rewrite lookup_insert_ne; [done |]. by intros ->.
    + intros x h' . rewrite lookup_insert. case_decide as Ex; [by intros [= <-] |]. done.
  - destruct Hc as (Ho & [h Hh]%elem_of_dom). rewrite Hh in Hstep. specialize (Hstep _ _ eq_refl). destruct (Hrm o Ho) as (R1 & R2 & R3).
    eapply (Hfew _ (P ∖ {[o]})); [done | done | set_solver | done | exact Hstep | rewrite dom_delete; set_solver | |].
    + intros x Hx. rewrite lookup_delete_ne; [done |]. by intros ->.
    + intros x h'. rewrite lookup_delete. by case_decide.
  - destruct Hc as (Ho & Hh & [h' Hh']%elem_of_dom). rewrite Hh' in Hstep. specialize (Hstep _ _ eq_refl).
    eapply (Hfew _ P); [done | done | done | done | exact Hstep | rewrite dom_insert; set_solver | |].
    + intros x Hx. rewrite lookup_insert_ne; [done |]. by intros ->.
    + intros x h2. rewrite lookup_insert. case_decide as Ex; [by intros [= <-] |]. done.
  - destruct Hc as (Ho & [h Hh]%elem_of_dom). rewrite Hh in Hstep. specialize (Hstep _ _ eq_refl). destruct (Hrm o Ho) as (R1 & R2 & R3).
    exists (live q), (P ∪ {[o]}). split; [| split; [| done]].
    + eexists. split; [exact Hstep |]. cbn. split; [done |]. split; [| split].
      * constructor; [rewrite elem_of_remove_job; tauto | done].
      * intros x. rewrite elem_of_cons, R2, elem_of_difference, elem_of_union, elem_of_singleton. destruct (decide (x = o)); tauto.
      * apply elem_of_dom_2 in Hh. set_solver.
    + intros x Hx. split; [done |]. rewrite elem_of_union, elem_of_singleton. split; [intros [? | ->]; done | tauto].
  - destruct Hc as (Ho & [h Hh]%elem_of_dom). rewrite Hh in Hstep. specialize (Hstep _ _ eq_refl). destruct (Hrm o Ho) as (R1 & R2 & R3).
    eapply (Hfew _ (P ∖ {[o]})); [done | done | set_solver | done | exact Hstep | set_solver | done | done].
  - apply elem_of_dom in Hc as [h Hh]. rewrite Hh in Hstep. specialize (Hstep _ _ eq_refl). exists (live q), P. split; [by exists q | done].
  - specialize (Hstep _ _ eq_refl). exists (live q), P. split; [by exists q | done].
  - specialize (Hstep _ _ eq_refl). exists (live q), P. split; [by exists q | done].
Qed.

Lemma remove_timer_same b x b' : BReactor_RemoveSmallTimer b x = Some b' →
  fds b' = fds b ∧ limits b' = limits b ∧ pending_jobs b' = pending_jobs b.
Proof using Type. unfold BReactor_RemoveSmallTimer. intros E. open_call E; split_and!; reflexivity. Qed.

Lemma set_timer_same b x mode time now b' : BReactor_SetSmallTimer b x mode time now = Some b' →
  fds b' = fds b ∧ limits b' = limits b ∧ pending_jobs b' = pending_jobs b.
Proof using Type.
  unfold BReactor_SetSmallTimer. intros E. apply bind_Some in E as (b1 & E1%remove_timer_same & E). cbv zeta in E.
  apply bind_Some in E as (t & _ & E). apply bind_Some in E as ([tree res] & _ & E). apply bind_Some in E as (_ & _ & [= <-]). done.
Qed.

Lemma foreign_keeps mine bfd l1 l2 b c b' L P : foreign mine bfd l1 l2 b c → rstep b c = Some b' → queue (pending_jobs b) L P →
  keeps bfd l1 l2 b b' ∧ ∃ L' P', queue (pending_jobs b') L' P' ∧ jobs_kept mine L P L' P'.
Proof using Type.
  intros Hf E Hq.
  assert (∀ b' : reactor, fds b' = fds b ∧ limits b' = limits b ∧ pending_jobs b' = pending_jobs b →
    keeps bfd l1 l2 b b' ∧ ∃ L' P', queue (pending_jobs b') L' P' ∧ jobs_kept mine L P L' P') as Hsame.
  { intros b1 (E1 & E2 & E4). split; [apply keeps_same; congruence |]. rewrite E4. exists L, P. split; [done | apply jobs_kept_refl]. }
  assert (∀ b' : reactor, keeps bfd l1 l2 b b' → pending_jobs b' = pending_jobs b →
    keeps bfd l1 l2 b b' ∧ ∃ L' P', queue (pending_jobs b') L' P' ∧ jobs_kept mine L P L' P') as Hjobs.
  { intros b1 Hk E4. split; [done |]. rewrite E4. exists L, P. split; [done | apply jobs_kept_refl]. }
  destruct c as [c | code | bt h | bt ms h | bt mode time now | bt now | bt | bs fdn h | bs added | bs deleted | bs events modified | o lim | o | o | o lim];
    cbn [rstep foreign] in E, Hf.
  - apply bind_Some in E as ([g' a] & Eg & [= <-]). split; [by apply keeps_same |]. eapply foreign_job_queue; [exact Hq | by eapply Hf | exact Eg].
  - injection E as <-. by apply Hsame.
  - injection E as <-. by apply Hsame.
  - injection E as <-. by apply Hsame.
  - apply Hsame. by eapply set_timer_same.
  - unfold BReactor_SetTimer in E. apply bind_Some in E as (t & _ & E). apply Hsame. by eapply set_timer_same.
  - apply Hsame. by eapply remove_timer_same.
  - injection E as <-. apply Hjobs; [| done]. apply keeps_same; [| done..]. cbn. by rewrite lookup_insert_ne.
  - unfold BReactor_AddFileDescriptor in E. apply fmap_Some in E as ([b1 r] & E & ->). open_call E; apply Hjobs; try done;
      (apply keeps_same; [| done..]); cbn; rewrite ?lookup_insert_ne; done.
  - unfold BReactor_RemoveFileDescriptor in E. open_call E; (apply Hjobs; [| done]); by apply keeps_same; cbn; rewrite ?lookup_insert_ne.
  - unfold BReactor_SetFileDescriptorEvents in E. open_call E; (apply Hjobs; [| done]); apply keeps_same; try done. cbn. by rewrite lookup_insert_ne.
  - unfold BReactorLimit_Init in E. open_call E. apply Hjobs; [| done]. apply keeps_same; cbn; rewrite ?lookup_insert_ne by (intros ->; tauto); done.
  - unfold BReactorLimit_Free in E. open_call E. destruct (0 <? count x); (apply Hjobs; [| done]);
      apply keeps_same; cbn; rewrite ?lookup_delete_ne by (intros ->; tauto); done.
  - unfold BReactorLimit_Increment in E. apply fmap_Some in E as ([b1 r] & E & ->). open_call E; try (destruct (count x + 1 =? 1)); (apply Hjobs; [| done]);
      apply keeps_same; cbn; rewrite ?lookup_insert_ne by (intros ->; tauto); done.
  - unfold BReactorLimit_SetLimit in E. open_call E. apply Hjobs; [| done]. apply keeps_same; cbn; rewrite ?lookup_insert_ne by (intros ->; tauto); done.
Qed.

End frames.

(** ** The events of a descriptor *)

(** The events to wait for, as the two directions. *)
Definition evs (r w : bool) : Z := Z.b2z r + 2 * Z.b2z w.

Lemma evs_range r w : 0 ≤ evs r w ≤ 3.
Proof. destruct r, w; vm_compute; split; discriminate. Qed.
Lemma evs_write r w : Z.lor (evs r w) BREACTOR_WRITE = evs r true.
Proof. by destruct r, w. Qed.
Lemma evs_read r w : Z.lor (evs r w) BREACTOR_READ = evs true w.
Proof. by destruct r, w. Qed.
Lemma evs_no_write r w : Z.land (evs r w) (Z.lnot BREACTOR_WRITE) = evs r false.
Proof. by destruct r, w. Qed.
Lemma evs_no_read r w : Z.land (evs r w) (Z.lnot BREACTOR_READ) = evs false w.
Proof. by destruct r, w. Qed.

(** The events that the reactor reports: readable, writable, error, hang-up. *)
Definition rep (r w e h : bool) : Z := evs r w + 4 * Z.b2z e + 8 * Z.b2z h.

Lemma rep_write r w e h : negb (Z.land (rep r w e h) BREACTOR_WRITE =? 0) = w.
Proof. by destruct r, w, e, h. Qed.
Lemma rep_read r w e h : negb (Z.land (rep r w e h) BREACTOR_READ =? 0) = r.
Proof. by destruct r, w, e, h. Qed.
Lemma rep_hup r w e h : negb (Z.land (rep r w e h) BREACTOR_HUP =? 0) = h.
Proof. by destruct r, w, e, h. Qed.
Lemma rep_failed r w e h : negb (Z.land (rep r w e h) (Z.lor BREACTOR_ERROR BREACTOR_HUP) =? 0) = e || h.
Proof. by destruct r, w, e, h. Qed.
Lemma rep_clear r0 w0 r w e h : Z.land (evs r0 w0) (Z.lnot (rep r w e h)) = evs (r0 && negb r) (w0 && negb w).
Proof. by destruct r0, w0, r, w, e, h. Qed.

(** ** The jobs of one side of an object *)

Section sides.
Implicit Types (L : gmap addr nat) (P : gset addr).

(** The jobs of the queue whose names are those of [mine] are the jobs themselves. *)
Definition named (mine : list addr) L : Prop := ∀ x h, L !! x = Some h → h ∈ mine → x = h.

(** The jobs of one side have changed, and the side with them. *)
Definition side_step (jobs : list addr) L P L' P' : Prop := ∀ x, x ∉ jobs → L' !! x = L !! x ∧ (x ∈ P' ↔ x ∈ P).

Lemma side_add jobs L P x : x ∈ jobs → side_step jobs L P L (P ∪ {[x]}).
Proof. intros Hx y Hy. split; [done |]. rewrite elem_of_union, elem_of_singleton. split; [intros [? | ->]; done | tauto]. Qed.
Lemma side_remove jobs L P x : x ∈ jobs → side_step jobs L P L (P ∖ {[x]}).
Proof. intros Hx y Hy. split; [done |]. rewrite elem_of_difference, elem_of_singleton. split; [tauto |]. intros ?. split; [done |]. by intros ->. Qed.
Lemma side_refl jobs L P : side_step jobs L P L P.
Proof. by intros x. Qed.

Lemma side_init {L P} jobs L' : (∀ x, L' !! x = if decide (x ∈ jobs) then Some x else L !! x) → side_step jobs L P L' P.
Proof. intros HL x Hx. by rewrite HL, decide_False. Qed.

Lemma side_free {L P} jobs L' P' : (∀ x, L' !! x = if decide (x ∈ jobs) then None else L !! x) → (∀ x, x ∈ P' ↔ x ∈ P ∧ x ∉ jobs) → side_step jobs L P L' P'.
Proof. intros HL HP x Hx. rewrite HL, decide_False by done. split; [done |]. rewrite HP. tauto. Qed.

End sides.
