(* ===== verification/ReactorCalls.v ===== *)
(** * The reactor in computations with effects

    What the calls of the job queue, the file descriptors and the limits of the reactor
    (BReactor.v) do in the functions that make and release the objects of the program,
    whatever their effects are. *)
From S2P Require Import Prelude LinkedLists BPending FlowInterfaces SearchTree BAVL CAvl BReactor BConnection ReactorFrame.

(** The function at the head of a term. *)
Ltac head_of m := lazymatch m with ?f _ => head_of f | ?f => constr:(f) end.

Section calls.
Context {T G X : Type} `{OrderedTree T} `{JobQueue G}.
Implicit Types (b : BReactor T G) (L : gmap addr nat) (P : gset addr).

Lemma rinv_jobs b g L P : rinv b → queue g L P → rinv (b <| pending_jobs := g |>).
Proof using Type. intros [Hj Ht Hf Hl] (q & Hq & _). split; cbn; [by exists q | done..]. Qed.

(** A job that is initialised, set or freed. *)
Lemma wp_job_init b L P o (Q : unit → BReactor T G → list X → Prop) : rinv b → queue (pending_jobs b) L P → L !! o = None →
  (∀ g, rinv (b <| pending_jobs := g |>) → queue g (<[o := o]> L) P → Q () (b <| pending_jobs := g |>) []) → wp (upd (with_jobs (λ g, job_init g o))) Q b.
Proof using Type.
  intros Hi Hq Ho HQ. destruct (job_init_ok _ _ _ _ Hq Ho) as (g & E & Hq'). eapply wp_update; [unfold with_jobs; rewrite E; reflexivity |].
  apply HQ; [by eapply rinv_jobs | done].
Qed.
Lemma wp_job_free b L P o (Q : unit → BReactor T G → list X → Prop) : rinv b → queue (pending_jobs b) L P → o ∈ dom L →
  (∀ g, rinv (b <| pending_jobs := g |>) → queue g (delete o L) (P ∖ {[o]}) → Q () (b <| pending_jobs := g |>) []) →
  wp (upd (with_jobs (λ g, job_free g o))) Q b.
Proof using Type.
  intros Hi Hq Ho HQ. destruct (job_free_ok _ _ _ _ Hq Ho) as (g & E & Hq'). eapply wp_update; [unfold with_jobs; rewrite E; reflexivity |].
  apply HQ; [by eapply rinv_jobs | done].
Qed.
Lemma wp_job_set b L P o (Q : unit → BReactor T G → list X → Prop) : rinv b → queue (pending_jobs b) L P → o ∈ dom L →
  (∀ g, rinv (b <| pending_jobs := g |>) → queue g L (P ∪ {[o]}) → Q () (b <| pending_jobs := g |>) []) → wp (upd (with_jobs (λ g, job_set g o))) Q b.
Proof using Type.
  intros Hi Hq Ho HQ. destruct (job_set_ok _ _ _ _ Hq Ho) as (g & E & Hq'). eapply wp_update; [unfold with_jobs; rewrite E; reflexivity |].
  apply HQ; [by eapply rinv_jobs | done].
Qed.
Lemma wp_job_unset b L P o (Q : unit → BReactor T G → list X → Prop) : rinv b → queue (pending_jobs b) L P → o ∈ dom L →
  (∀ g, rinv (b <| pending_jobs := g |>) → queue g L (P ∖ {[o]}) → Q () (b <| pending_jobs := g |>) []) → wp (upd (with_jobs (λ g, job_unset g o))) Q b.
Proof using Type.
  intros Hi Hq Ho HQ. destruct (job_unset_ok _ _ _ _ Hq Ho) as (g & E & Hq'). eapply wp_update; [unfold with_jobs; rewrite E; reflexivity |].
  apply HQ; [by eapply rinv_jobs | done].
Qed.

(** A file descriptor that is initialised and added. *)
Definition idle_fd b (x : addr) : Prop := active <$> fds b !! x ≠ Some true.

Lemma wp_fd_init b x fdn h (Q : unit → BReactor T G → list X → Prop) : rinv b → idle_fd b x →
  (∀ b', rinv b' → fds b' !! x = Some (mk_BFileDescriptor fdn h false 0 None) → (∀ y, y ≠ x → fds b' !! y = fds b !! y) →
    pending_jobs b' = pending_jobs b → limits b' = limits b → epoll_results b' = epoll_results b → Q () b' []) →
  wp (upd (λ b, Some (BFileDescriptor_Init b x fdn h))) Q b.
Proof using Type.
  intros Hi Hx HQ. destruct (rstep_ok b (RFdInit x fdn h) Hi Hx) as (b' & E & Hi'). injection E as E. eapply wp_update; [reflexivity |].
  rewrite E. apply HQ; [done | subst b'; cbn .. ]; try done; [by rewrite lookup_insert, decide_True |]. intros y Hy. by rewrite lookup_insert_ne.
Qed.

Lemma wp_fd_add b x f (added : bool) (Q : bool → BReactor T G → list X → Prop) : rinv b → fds b !! x = Some f → active f = false →
  (added = false → Q false b []) →
  (added = true → ∀ b', rinv b' → fds b' !! x = Some (mk_BFileDescriptor (fd f) (fd_handler f) true 0 None) →
    pending_jobs b' = pending_jobs b → limits b' = limits b → epoll_results b' = epoll_results b → Q true b' []) →
  wp (ask (λ b, BReactor_AddFileDescriptor b x added)) Q b.
Proof using Type.
  intros Hi Hx Ha H1 H2. assert (E : BReactor_AddFileDescriptor b x added = if negb added then Some (b, false) else
    Some (b <| fds := <[x := f <| epoll_returned_ptr := None |> <| active := true |> <| waitEvents := 0 |>]> (fds b) |>, true)).
  { unfold BReactor_AddFileDescriptor. rewrite Hx, option_bind_Some, ASSERT_seq by (by rewrite Ha). done. }
  destruct (rstep_ok b (RAddFd x added) Hi) as (b' & E' & Hi'); [cbn; by rewrite Hx, <- Ha |]. cbn [rstep] in E'. rewrite E in E'.
  destruct added; cbn in E', E; (eapply wp_ask; [exact E |]); [| by apply H1]. injection E' as <-. apply H2; cbn; try done.
  by rewrite lookup_insert, decide_True.
Qed.

Lemma set_events_ok b x f ev : rinv b → fds b !! x = Some f → active f = true → 0 ≤ ev ≤ 3 →
  ∃ b', BReactor_SetFileDescriptorEvents b x ev true = Some b' ∧ rinv b' ∧ fds b' !! x = Some (f <| waitEvents := ev |>) ∧ pending_jobs b' = pending_jobs b.
Proof using Type.
  intros Hi Hx Ha Hev. destruct (rstep_ok b (RSetFdEvents x ev true) Hi) as (b' & E & Hi'); [cbn; by rewrite Hx, <- Ha |]. cbn [rstep] in E.
  exists b'. split; [exact E |]. split; [done |]. unfold BReactor_SetFileDescriptorEvents in E. rewrite Hx, option_bind_Some, (ASSERT_seq _ _ Ha) in E.
  apply bind_Some in E as (_ & _ & E). destruct (waitEvents f =? ev) eqn:Ew; b2p.
  - injection E as <-. split; [| done]. rewrite Hx, <- Ew. by destruct f.
  - cbn in E. injection E as <-. split; [| done]. cbn. by rewrite lookup_insert, decide_True.
Qed.

Lemma wp_fd_events b x f ev (Q : unit → BReactor T G → list X → Prop) : rinv b → fds b !! x = Some f → active f = true → 0 ≤ ev ≤ 3 →
  (∀ b', rinv b' → fds b' !! x = Some (f <| waitEvents := ev |>) → pending_jobs b' = pending_jobs b → Q () b' []) →
  wp (upd (λ b, BReactor_SetFileDescriptorEvents b x ev true)) Q b.
Proof using Type. intros Hi Hx Ha Hev HQ. destruct (set_events_ok b x f ev Hi Hx Ha Hev) as (b' & E & ? & ? & ?). eapply wp_update; [exact E |]. by apply HQ. Qed.

Lemma delete_fresh L P x : L !! x = None → P ⊆ dom L → delete x (<[x := x]> L) = L ∧ P ∖ {[x]} = P.
Proof using Type.
  intros Hx Hs. split; [by rewrite delete_insert_id |]. apply set_eq. intros y. rewrite elem_of_difference, elem_of_singleton. split; [tauto |].
  intros Hy. split; [done |]. intros ->. apply Hs, elem_of_dom in Hy as [? ?]. congruence.
Qed.

Lemma queue_sub (g : G) L P : queue g L P → P ⊆ dom L.
Proof using Type. by intros (q & _ & _ & _ & _ & Hs). Qed.

Lemma job_is_set_ok (g : G) L P x : queue g L P → x ∈ dom L → job_is_set g x = Some (bool_decide (x ∈ P)).
Proof using Type.
  intros (q & Hr & <- & _ & HP & _) [h Hx]%elem_of_dom.
  destruct (jq_sim g q (CIsSet x) q (ABool (bool_decide (x ∈ stack q))) Hr) as (g' & E & _); [simpl; by rewrite Hx |].
  unfold job_is_set. rewrite E. cbn. f_equal. apply bool_decide_ext, HP.
Qed.

Lemma wp_limit_init b l lim (Q : unit → BReactor T G → list X → Prop) : rinv b → limits b !! l = None → 0 < lim →
  (∀ b', rinv b' → limits b' = <[l := mk_BReactorLimit lim 0]> (limits b) → fds b' = fds b → pending_jobs b' = pending_jobs b →
    epoll_results b' = epoll_results b → Q () b' []) →
  wp (upd (λ b, BReactorLimit_Init b l lim)) Q b.
Proof using Type.
  intros Hi Hl Hp HQ. destruct (rstep_ok b (RLimitInit l lim) Hi) as (b' & E & Hi'); [done |]. cbn [rstep] in E. eapply wp_update; [exact E |].
  unfold BReactorLimit_Init in E. rewrite ASSERT_seq in E by (by apply Z.ltb_lt). injection E as <-. by apply HQ.
Qed.

(** A limit is freed. *)
Lemma limit_free_ok b l : rinv b → is_Some (limits b !! l) →
  ∃ b', BReactorLimit_Free b l = Some b' ∧ rinv b' ∧ fds b' = fds b ∧ limits b' = delete l (limits b) ∧ pending_jobs b' = pending_jobs b.
Proof using Type.
  intros Hi Hl. destruct (rstep_ok b (RLimitFree l) Hi Hl) as (b1 & E & Hi1). exists b1. split; [done |]. split; [done |]. cbn [rstep] in E.
  unfold BReactorLimit_Free in E. destruct Hl as [lim El]. rewrite El, option_bind_Some in E. injection E as <-. by destruct (0 <? count lim).
Qed.

End calls.

(** ** What never changes *)

Section preserves.
Context {S X I : Type} (ids : S → I).

(** A computation keeps what [ids] reads of the state. *)
Definition preserves {A} (m : M S X A) : Prop := ∀ s a s' xs, m s = Some (a, s', xs) → ids s' = ids s.

Lemma pres_bind {A B} (m : M S X A) (f : A → M S X B) : preserves m → (∀ a, preserves (f a)) → preserves (m ≫= f).
Proof.
  intros Hm Hf s c s' xs E. unfold mbind, M_bind in E. destruct (m s) as [[[a s1] e1] |] eqn:E1; [| done].
  destruct (f a s1) as [[[c' s2] e2] |] eqn:E2; [| done]. injection E as <- <- <-. rewrite (Hf _ _ _ _ _ E2). by apply (Hm _ _ _ _ E1).
Qed.
Lemma pres_ret {A} (a : A) : preserves (mret a).
Proof. by intros s ? s' xs [= <- <- <-]. Qed.
Lemma pres_gets {A} (f : S → A) : preserves (gets f).
Proof. by intros s ? s' xs [= <- <- <-]. Qed.
Lemma pres_emit (x : X) : preserves (emit x).
Proof. by intros s ? s' xs [= <- <- <-]. Qed.
Lemma pres_assert c : preserves (assert c).
Proof. intros s ? s' xs E. unfold assert in E. destruct c; [by injection E as <- <- <- | done]. Qed.
Lemma pres_stuck {A} : preserves (A := A) stuck.
Proof. done. Qed.
Lemma pres_lift {A} (a : option A) : preserves (lift a).
Proof. intros s ? s' xs E. unfold lift in E. destruct a; [by injection E as <- <- <- | done]. Qed.
Lemma pres_when c m : preserves m → preserves (when c m).
Proof. destruct c; [done | intros _; apply pres_ret]. Qed.
Lemma pres_modify f : (∀ s, ids (f s) = ids s) → preserves (modify f).
Proof. intros Hf s ? s' xs E. injection E as <- <- <-. apply Hf. Qed.
Lemma pres_upd f : (∀ s s', f s = Some s' → ids s' = ids s) → preserves (upd f).
Proof. intros Hf s ? s' xs E. unfold upd in E. destruct (f s) as [s1 |] eqn:E1; [| done]. injection E as <- <- <-. by apply Hf. Qed.
Lemma pres_ask {A} (f : S → option (S * A)) : (∀ s s' a, f s = Some (s', a) → ids s' = ids s) → preserves (ask f).
Proof. intros Hf s ? s' xs E. unfold ask in E. destruct (f s) as [[s1 a1] |] eqn:E1; [| done]. injection E as <- <- <-. by eapply Hf. Qed.

End preserves.

(** Walks through a handler. *)
Ltac pres :=
  repeat lazymatch goal with
  | |- ∀ _, _ => intro
  | |- preserves _ (mret _) => apply pres_ret
  | |- preserves _ (mbind _ _) => apply pres_bind
  | |- preserves _ (gets _) => apply pres_gets
  | |- preserves _ (emit _) => apply pres_emit
  | |- preserves _ (assert _) => apply pres_assert
  | |- preserves _ stuck => apply pres_stuck
  | |- preserves _ (lift _) => apply pres_lift
  | |- preserves _ (when _ _) => apply pres_when
  | |- preserves _ (modify _) => apply pres_modify; reflexivity
  | |- preserves _ (upd _) => apply pres_upd; let E := fresh "E" in intros ? ? E; cbv beta in E; open_call E; reflexivity
  | |- preserves _ (ask _) => apply pres_ask; let E := fresh "E" in intros ? ? ? E; cbv beta in E; open_call E; reflexivity
  | |- preserves _ (let '(_, _) := ?p in _) => destruct p
  | |- preserves _ (if ?c then _ else _) => destruct c
  | |- preserves _ (match ?x with _ => _ end) => destruct x
  | |- preserves _ ?m => let h := head_of m in unfold h
  end.

(** The reactor of the examples has no jobs. *)
Lemma demo_queue : queue (pending_jobs demo_init) ∅ ∅.
Proof. exists empty_queue. split; [exact init_group_rep |]. split; [done |]. split; [constructor |]. split; [| set_solver]. intros o. cbn. set_solver. Qed.

Lemma demo_init_rinv : rinv demo_init.
Proof. apply (init_rinv BPendingGroup_Init []); [exists empty_queue; exact init_group_rep | reflexivity]. Qed.
