(* ===== verification/ConnectionRun.v ===== *)
(** * Connections in the event loop

    Runs of a [BConnection] (BConnection.v) in the loop of the reactor (BReactor.v):
    the user sends and receives through the two interfaces, the loop executes jobs
    and reports the socket, other objects of the program use the reactor in between.
    The invariant [cinv] says when an operation in progress is waited for; the
    protocol [spec_trace] says what the user and the kernel see of each side. *)
From S2P Require Import Prelude LinkedLists BPending FlowInterfaces SearchTree BAVL CAvl BReactor BAddr BConnection ReactorFrame.

(** ** One side of a connection *)

(** Not set up, nothing in progress, an operation in progress, and the receiving side
    after the end of the stream. *)
Inductive phase := PhOff | PhReady | PhBusy | PhClosed.
#[export] Instance phase_eq_dec : EqDecision phase.
Proof. solve_decision. Defined.

Definition send_phase (st : send_state) : phase :=
  match st with SEND_STATE_NOT_INITED => PhOff | SEND_STATE_READY => PhReady | SEND_STATE_BUSY => PhBusy end.
Definition recv_phase (st : recv_state) : phase :=
  match st with
  | RECV_STATE_NOT_INITED | RECV_STATE_NOT_INITED_CLOSED => PhOff
  | RECV_STATE_READY => PhReady
  | RECV_STATE_BUSY => PhBusy
  | RECV_STATE_INITED_CLOSED => PhClosed
  end.

Definition half_jobs (i : StreamPassInterface) (job : addr) : list addr := [spi_job_operation i; spi_job_done i; job].

Section halves.
Context {G : Type} `{JobQueue G}.
Implicit Types (g : G) (L : gmap addr nat) (P : gset addr) (i : StreamPassInterface).

(** The jobs of the side are set as the state of the interface says, the connection
    works on what the interface was given. *)
Record half_on (ph : phase) i (job : addr) (d l : Z) L P : Prop := {
  ho_live x : x ∈ half_jobs i job → L !! x = Some x;
  ho_op : spi_job_operation i ∈ P ↔ spi_state i = STATE_OPERATION_PENDING;
  ho_done : spi_job_done i ∈ P ↔ spi_state i = STATE_DONE_PENDING;
  ho_job : job ∈ P → ph = PhBusy;
  ho_ready : ph = PhReady ↔ spi_state i ≠ STATE_BUSY;
  ho_user : spi_state i ≠ STATE_NONE → is_set (spi_handler_done i) = true ∧ 0 < spi_job_operation_len i;
  ho_data : ph = PhBusy → d = spi_job_operation_data i ∧ l = spi_job_operation_len i;
  ho_len : spi_state i = STATE_DONE_PENDING → 0 < spi_job_done_len i ≤ spi_job_operation_len i
}.

Definition half (ph : phase) i job d l L P : Prop :=
  match ph with PhOff => ∀ x, x ∈ half_jobs i job → L !! x = None | _ => half_on ph i job d l L P end.

Lemma half_is_on ph i job d l L P : half ph i job d l L P → ph ≠ PhOff → half_on ph i job d l L P.
Proof using Type. by destruct ph. Qed.
Lemma half_of_on ph i job d l L P : half_on ph i job d l L P → ph ≠ PhOff → half ph i job d l L P.
Proof using Type. by destruct ph. Qed.

Lemma half_frame ph i job d l L P L' P' : half ph i job d l L P →
  (∀ x, x ∈ half_jobs i job → L' !! x = L !! x ∧ (x ∈ P' ↔ x ∈ P)) → half ph i job d l L' P'.
Proof using Type.
  intros Hh Hag. destruct (decide (ph = PhOff)) as [-> | Hne].
  - intros x Hx. destruct (Hag x Hx) as [-> _]. by apply Hh.
  - apply half_of_on; [| done]. apply half_is_on in Hh as [H1 H2 H3 H4 H5 H6 H7 H8]; [| done].
    unfold half_jobs in Hag. split; try done.
    + intros x Hx. destruct (Hag x Hx) as [-> _]. by apply H1.
    + destruct (Hag (spi_job_operation i)) as [_ ->]; [set_solver | done].
    + destruct (Hag (spi_job_done i)) as [_ ->]; [set_solver | done].
    + destruct (Hag job) as [_ ->]; [set_solver | done].
Qed.

Section side.
Context (i : StreamPassInterface) (job : addr) (Hnd : NoDup (half_jobs i job)).

Lemma side_ne : spi_job_operation i ≠ spi_job_done i ∧ spi_job_operation i ≠ job ∧ spi_job_done i ≠ job.
Proof using Hnd. unfold half_jobs in Hnd. rewrite !NoDup_cons, !elem_of_cons in Hnd. naive_solver. Qed.

Lemma half_init g L P h : queue g L P → (∀ x, x ∈ half_jobs i job → L !! x = None) → (∀ x, x ∈ half_jobs i job → x ∉ P) →
  ∃ g1 g2 i' L', StreamPassInterface_Init g i h = Some (g1, i') ∧ job_init g1 job = Some g2 ∧ queue g2 L' P ∧
    half_jobs i' job = half_jobs i job ∧ spi_state i' = STATE_NONE ∧ (∀ d l, half PhReady i' job d l L' P) ∧
    (∀ x, L' !! x = if decide (x ∈ half_jobs i job) then Some x else L !! x).
Proof using Hnd.
  intros Hq Hn HP. pose proof side_ne as (N1 & N2 & N3). unfold half_jobs in *.
  destruct (job_init_ok g L P (spi_job_operation i) Hq) as (g1 & E1 & Hq1); [apply Hn; set_solver |].
  destruct (job_init_ok g1 _ P (spi_job_done i) Hq1) as (g2 & E2 & Hq2); [rewrite lookup_insert_ne by done; apply Hn; set_solver |].
  destruct (job_init_ok g2 _ P job Hq2) as (g3 & E3 & Hq3); [rewrite !lookup_insert_ne by done; apply Hn; set_solver |].
  exists g2, g3, (i <| spi_handler_operation := h |> <| spi_handler_done := None |> <| spi_state := STATE_NONE |>). eexists.
  split; [| split; [exact E3 | split; [exact Hq3 |]]].
  { unfold StreamPassInterface_Init. cbv zeta. cbn [spi_job_operation spi_job_done set spi_eta eta].
    rewrite E1, option_bind_Some, E2, option_bind_Some. done. }
  assert (∀ x, <[job:=job]> (<[spi_job_done i:=spi_job_done i]> (<[spi_job_operation i:=spi_job_operation i]> L)) !! x =
    if decide (x ∈ [spi_job_operation i; spi_job_done i; job]) then Some x else L !! x) as HL.
  { intros x. rewrite !lookup_insert. case_decide; [subst; by rewrite decide_True by set_solver |].
    case_decide; [subst; by rewrite decide_True by set_solver |]. case_decide; [subst; by rewrite decide_True by set_solver |].
    by rewrite decide_False by set_solver. }
  split; [done |]. split; [done |]. split; [| done]. intros d l.
  assert (∀ x, x ∈ [spi_job_operation i; spi_job_done i; job] → (x ∈ P ↔ False)) as HP' by (intros x Hx; split; [by apply HP | done]).
  split; cbn; try done.
  - intros x Hx. rewrite HL. by rewrite decide_True.
  - by rewrite HP' by set_solver.
  - by rewrite HP' by set_solver.
  - by rewrite HP' by set_solver.
Qed.

Lemma half_free g ph d l L P : queue g L P → half_on ph i job d l L P →
  ∃ g1 g2 L' P', job_free g job = Some g1 ∧ StreamPassInterface_Free g1 i = Some g2 ∧ queue g2 L' P' ∧
    (∀ x, L' !! x = if decide (x ∈ half_jobs i job) then None else L !! x) ∧ (∀ x, x ∈ P' ↔ x ∈ P ∧ x ∉ half_jobs i job).
Proof using Hnd.
  intros Hq Hh. pose proof side_ne as (N1 & N2 & N3). pose proof (ho_live _ _ _ _ _ _ _ Hh) as Hl. unfold half_jobs in *.
  destruct (job_free_ok g L P job Hq) as (g1 & E1 & Hq1); [apply elem_of_dom; rewrite Hl by set_solver; done |].
  destruct (job_free_ok g1 _ _ (spi_job_done i) Hq1) as (g2 & E2 & Hq2);
    [apply elem_of_dom; rewrite lookup_delete_ne, Hl by (done || set_solver); done |].
  destruct (job_free_ok g2 _ _ (spi_job_operation i) Hq2) as (g3 & E3 & Hq3);
    [apply elem_of_dom; rewrite !lookup_delete_ne, Hl by (done || set_solver); done |].
  eexists g1, g3, _, _. split; [exact E1 |]. split; [unfold StreamPassInterface_Free; by rewrite E2, option_bind_Some |].
  split; [exact Hq3 |]. split.
  - intros x. rewrite !lookup_delete. case_decide; [subst; by rewrite decide_True by set_solver |].
    case_decide; [subst; by rewrite decide_True by set_solver |]. case_decide; [subst; by rewrite decide_True by set_solver |].
    by rewrite decide_False by set_solver.
  - intros x. set_solver.
Qed.

Lemma half_send g d0 l0 L P d l : queue g L P → half_on PhReady i job d0 l0 L P → spi_state i = STATE_NONE →
  is_set (spi_handler_done i) = true → 0 < l → d ≠ 0 →
  ∃ g' i', StreamPassInterface_Sender_Send g i d l = Some (g', i') ∧ queue g' L (P ∪ {[spi_job_operation i]}) ∧
    half_jobs i' job = half_jobs i job ∧ half_on PhReady i' job d0 l0 L (P ∪ {[spi_job_operation i]}) ∧
    spi_state i' = STATE_OPERATION_PENDING ∧ spi_job_operation_data i' = d ∧ spi_job_operation_len i' = l.
Proof using Hnd.
  intros Hq Hh Hs Hset Hl Hd. pose proof side_ne as (N1 & N2 & N3). destruct Hh as [H1 H2 H3 H4 H5 H6 H7 H8]. unfold half_jobs in *.
  destruct (job_set_ok g L P (spi_job_operation i) Hq) as (g' & E & Hq'); [apply elem_of_dom; rewrite H1 by set_solver; done |].
  unfold StreamPassInterface_Sender_Send. rewrite ASSERT_seq by (by apply Z.ltb_lt). rewrite ASSERT_seq by (apply negb_true_iff; by apply Z.eqb_neq).
  rewrite ASSERT_seq by (apply bool_decide_eq_true; done). rewrite ASSERT_seq by done. rewrite E, option_bind_Some.
  eexists _, _. split; [done |]. split; [done |]. split; [done |]. split; [| done].
  split; cbn; try done; rewrite ?elem_of_union, ?elem_of_singleton.
  - split; [done |]. by right.
  - rewrite H3, Hs. split; [intros [? | ?]; congruence | done].
  - intros [? | ?]; [by apply H4 | congruence].
Qed.

(** The interface hands the operation to the connection. *)
Lemma half_operation d0 l0 L P : half_on PhReady i job d0 l0 L P → spi_job_operation i ∈ P →
  ∃ i', _StreamPassInterface_job_operation i = Some (i', CallSend (spi_handler_operation i) (spi_job_operation_data i) (spi_job_operation_len i)) ∧
    0 < spi_job_operation_len i ∧ half_jobs i' job = half_jobs i job ∧ spi_state i = STATE_OPERATION_PENDING ∧ spi_state i' = STATE_BUSY ∧
    spi_job_operation_data i' = spi_job_operation_data i ∧ spi_job_operation_len i' = spi_job_operation_len i ∧
    half_on PhBusy i' job (spi_job_operation_data i) (spi_job_operation_len i) L (P ∖ {[spi_job_operation i]}).
Proof using Hnd.
  intros Hh Hp. pose proof side_ne as (N1 & N2 & N3). destruct Hh as [H1 H2 H3 H4 H5 H6 H7 H8]. pose proof (proj1 H2 Hp) as Hs. unfold half_jobs in *.
  unfold _StreamPassInterface_job_operation. rewrite ASSERT_seq by (by apply bool_decide_eq_true). eexists. split; [done |].
  destruct H6 as [Hset Hl]; [congruence |]. do 6 (split; [done |]). split; cbn; try done; rewrite ?elem_of_difference, ?elem_of_singleton.
  - split; [by intros [_ []] | done].
  - rewrite H3. split; [intros [? _]; congruence | done].
Qed.

(** The operation has been carried out. *)
Lemma half_finish g d l L P n : queue g L P → half_on PhBusy i job d l L P → job ∉ P → 0 < n ≤ l →
  ∃ g' i', StreamPassInterface_Done g i n = Some (g', i') ∧ queue g' L (P ∪ {[spi_job_done i]}) ∧ half_jobs i' job = half_jobs i job ∧
    spi_state i' = STATE_DONE_PENDING ∧ spi_job_done_len i' = n ∧ half_on PhReady i' job d l L (P ∪ {[spi_job_done i]}).
Proof using Hnd.
  intros Hq Hh Hj Hn. pose proof side_ne as (N1 & N2 & N3). destruct Hh as [H1 H2 H3 H4 H5 H6 H7 H8]. unfold half_jobs in *.
  destruct (H7 eq_refl) as [-> ->].
  assert (spi_state i = STATE_BUSY) as Hs by (destruct (decide (spi_state i = STATE_BUSY)) as [? | Hne]; [done | apply H5 in Hne; done]).
  destruct (job_set_ok g L P (spi_job_done i) Hq) as (g' & E & Hq'); [apply elem_of_dom; rewrite H1 by set_solver; done |].
  unfold StreamPassInterface_Done. rewrite ASSERT_seq by (by apply bool_decide_eq_true). rewrite ASSERT_seq by (apply Z.ltb_lt; lia).
  rewrite ASSERT_seq by (apply Z.leb_le; lia). rewrite E, option_bind_Some. eexists _, _. do 5 (split; [done |]).
  destruct H6 as [Hset Hl]; [congruence |].
  split; cbn; try done; rewrite ?elem_of_union, ?elem_of_singleton.
  - rewrite H2, Hs. split; [intros [? | ?]; congruence | done].
  - split; [done |]. by right.
  - intros [? | ?]; [done | congruence].
Qed.

(** The user hears of it. *)
Lemma half_report d l L P : half_on PhReady i job d l L P → spi_job_done i ∈ P →
  ∃ i' h, _StreamPassInterface_job_done i = Some (i', CallDoneLen h (spi_job_done_len i)) ∧ spi_handler_done i = Some h ∧ half_jobs i' job = half_jobs i job ∧
    spi_state i = STATE_DONE_PENDING ∧ spi_state i' = STATE_NONE ∧ half_on PhReady i' job d l L (P ∖ {[spi_job_done i]}).
Proof using Hnd.
  intros Hh Hp. pose proof side_ne as (N1 & N2 & N3). destruct Hh as [H1 H2 H3 H4 H5 H6 H7 H8]. pose proof (proj1 H3 Hp) as Hs. unfold half_jobs in *.
  destruct H6 as [Hset Hl]; [congruence |]. destruct (spi_handler_done i) as [h |] eqn:Eh; [| done].
  unfold _StreamPassInterface_job_done. rewrite ASSERT_seq by (by apply bool_decide_eq_true). rewrite Eh, option_bind_Some. eexists _, h. split; [done |].
  do 4 (split; [done |]). split; cbn; try done; rewrite ?elem_of_difference, ?elem_of_singleton.
  - rewrite H2, Hs. split; [intros [? _]; congruence | done].
  - split; [by intros [_ []] | done].
  - intros [? _]. by apply H4.
Qed.

Lemma half_user d l L P h : half_on PhReady i job d l L P → spi_handler_done i = None →
  ∃ i', StreamPassInterface_Sender_Init i h = Some i' ∧ half_jobs i' job = half_jobs i job ∧ spi_state i = STATE_NONE ∧ spi_state i' = STATE_NONE ∧
    half_on PhReady i' job d l L P.
Proof using Hnd.
  intros [H1 H2 H3 H4 H5 H6 H7 H8] Hn. unfold StreamPassInterface_Sender_Init. rewrite Hn, ASSERT_seq by done. eexists. split; [done |]. split; [done |].
  assert (spi_state i = STATE_NONE) as Hs by (destruct (decide (spi_state i = STATE_NONE)) as [? | Hne]; [done | rewrite Hn in H6; by destruct (H6 Hne)]).
  split; [done |]. split; [done |]. split; cbn; try done.
Qed.

Lemma half_close d l L P : half_on PhBusy i job d l L P → job ∉ P → half_on PhClosed i job d l L P.
Proof using Type. intros [H1 H2 H3 H4 H5 H6 H7 H8] Hj. split; try done. rewrite <- H5. split; done. Qed.

Lemma half_set_job d l L P : half_on PhBusy i job d l L P → half_on PhBusy i job d l L (P ∪ {[job]}).
Proof using Hnd.
  intros [H1 H2 H3 H4 H5 H6 H7 H8]. pose proof side_ne as (N1 & N2 & N3).
  split; try done; rewrite ?elem_of_union, ?elem_of_singleton; [rewrite <- H2 | rewrite <- H3]; split; [intros [? | ?]; congruence || done | tauto | intros [? | ?]; congruence || done | tauto].
Qed.

Lemma half_unset_job d l L P : half_on PhBusy i job d l L P → half_on PhBusy i job d l L (P ∖ {[job]}).
Proof using Hnd.
  intros [H1 H2 H3 H4 H5 H6 H7 H8]. pose proof side_ne as (N1 & N2 & N3).
  split; try done; rewrite ?elem_of_difference, ?elem_of_singleton; [rewrite <- H2 | rewrite <- H3]; tauto.
Qed.

End side.
End halves.

(** ** Runs *)

(** What happens: the user sets up, uses and releases the two sides; the loop makes a
    turn, with the kernel's answers to the calls of the handler it may call; another
    object calls the reactor. *)
Inductive cevent :=
| ESendInit | ESenderInit (h : nat) | ESend (data len : Z) | ESendFree (k : kernel)
| ERecvInit | EReceiverInit (h : nat) | ERecv (data len : Z) | ERecvFree (k : kernel)
| ETurn (k : kernel) (now : Z) (ws : list (wait_answer * Z))
| EOther (c : rcall).

(** A side as its user sees it: not set up, idle, with an operation on a buffer,
    about to report a number of bytes, at the end of the stream. *)
Inductive dir := DOff | DIdle | DWork (data len : Z) | DEnding (n : Z) | DClosed.
#[export] Instance dir_eq_dec : EqDecision dir.
Proof. solve_decision. Defined.

(** Both sides, and whether the error was reported. *)
Record cview := mk_view { vw_send : dir; vw_recv : dir; vw_err : bool }.

Definition spec_event (v : cview) (e : cevent) : option cview :=
  match e with
  | ESendInit => if decide (vw_send v = DOff) then Some (mk_view DIdle (vw_recv v) (vw_err v)) else None
  | ERecvInit => if decide (vw_recv v = DOff) then Some (mk_view (vw_send v) DIdle (vw_err v)) else None
  | ESend d l => if decide (vw_send v = DIdle) then Some (mk_view (DWork d l) (vw_recv v) (vw_err v)) else None
  | ERecv d l => if decide (vw_recv v = DIdle) then Some (mk_view (vw_send v) (DWork d l) (vw_err v)) else None
  | ESendFree _ => Some (mk_view DOff (vw_recv v) (vw_err v))
  | ERecvFree _ => Some (mk_view (vw_send v) DOff (vw_err v))
  | _ => Some v
  end.

(** The calls of the connection: [write] and [read] on the buffer of the operation in
    progress, a report of as many bytes as the kernel took or gave, the end of the
    stream after [read] has returned nothing, nothing after the error. *)
Definition spec_effect (sock : Z) (v : cview) (x : ceffect) : option cview :=
  if vw_err v then None else
  match x with
  | XWrite fd d l r =>
      if decide (fd = sock ∧ vw_send v = DWork d l) then
        match r with
        | IoBytes n => if (0 <? n) && (n <=? l) then Some (mk_view (DEnding n) (vw_recv v) false) else None
        | _ => Some v
        end
      else None
  | XRead fd d l r =>
      if decide (fd = sock ∧ vw_recv v = DWork d l) then
        match r with
        | IoBytes n =>
            if n =? 0 then Some (mk_view (vw_send v) DClosed false)
            else if (0 <? n) && (n <=? l) then Some (mk_view (vw_send v) (DEnding n) false) else None
        | _ => Some v
        end
      else None
  | XSent (CallDoneLen _ n) => if decide (vw_send v = DEnding n) then Some (mk_view DIdle (vw_recv v) false) else None
  | XReceived (CallDoneLen _ n) => if decide (vw_recv v = DEnding n) then Some (mk_view (vw_send v) DIdle false) else None
  | XEvent BCONNECTION_EVENT_RECVCLOSED => if decide (vw_recv v = DClosed) then Some v else None
  | XEvent BCONNECTION_EVENT_ERROR => Some (mk_view (vw_send v) (vw_recv v) true)
  | _ => None
  end.

Fixpoint spec_effects (sock : Z) (v : cview) (xs : list ceffect) : option cview :=
  match xs with [] => Some v | x :: xs => v ← spec_effect sock v x; spec_effects sock v xs end.

Fixpoint spec_trace (sock : Z) (v : cview) (tr : list (cevent * list ceffect)) : option cview :=
  match tr with
  | [] => Some v
  | (e, xs) :: tr => v ← spec_event v e; v ← spec_effects sock v xs; spec_trace sock v tr
  end.

Definition dir_of (ph : phase) (i : StreamPassInterface) : dir :=
  match ph with
  | PhOff => DOff
  | PhClosed => DClosed
  | _ =>
      match spi_state i with
      | STATE_NONE => DIdle
      | STATE_OPERATION_PENDING | STATE_BUSY => DWork (spi_job_operation_data i) (spi_job_operation_len i)
      | STATE_DONE_PENDING => DEnding (spi_job_done_len i)
      end
  end.

Definition view_of (o : BConnection) : cview :=
  mk_view (dir_of (send_phase (snd_state (send o))) (snd_iface (send o))) (dir_of (recv_phase (rcv_state (recv o))) (rcv_iface (recv o))) (d_err o).

(** What the kernel promises: at most as many bytes as asked for, a stream socket
    takes at least one, the changes of the epoll set succeed. *)
Definition kernel_ok (k : kernel) : Prop :=
  (∀ len n, 0 < len → k_write k len = IoBytes n → 0 < n ≤ len) ∧ (∀ len n, 0 < len → k_read k len = IoBytes n → 0 ≤ n ≤ len) ∧
  k_mod k = true ∧ k_del k = true.

Definition my_jobs (o : BConnection) : list addr :=
  half_jobs (snd_iface (send o)) (snd_job (send o)) ++ half_jobs (rcv_iface (recv o)) (rcv_job (recv o)).

Section run.
Context {T G : Type} `{OrderedTree T} `{JobQueue G}.
#[local] Abbreviation cm := (M (csys T G) ceffect).

(** The job whose name is [h], if it is one of the connection. *)
Definition conn_job (k : kernel) (h : nat) : cm unit :=
  o ← gets con;
  let si := snd_iface (send o) in
  let ri := rcv_iface (recv o) in
  if decide (h = spi_job_operation si) then
    '(i, c) ← lift (_StreamPassInterface_job_operation si);
    con_send_iface (λ g _, Some (g, i));;
    match c with CallSend _ d l => connection_send_if_handler_send k d l | _ => stuck end
  else if decide (h = spi_job_done si) then
    '(i, c) ← lift (_StreamPassInterface_job_done si);
    con_send_iface (λ g _, Some (g, i));;
    emit (XSent c)
  else if decide (h = snd_job (send o)) then connection_send_job_handler k
  else if decide (h = spi_job_operation ri) then
    '(i, c) ← lift (_StreamRecvInterface_job_operation ri);
    con_recv_iface (λ g _, Some (g, i));;
    match c with CallSend _ d l => connection_recv_if_handler_recv k d l | _ => stuck end
  else if decide (h = spi_job_done ri) then
    '(i, c) ← lift (_StreamRecvInterface_job_done ri);
    con_recv_iface (λ g _, Some (g, i));;
    emit (XReceived c)
  else if decide (h = rcv_job (recv o)) then connection_recv_job_handler k
  else mret ().

Definition conn_dispatch (k : kernel) (d : dispatch) : cm unit :=
  o ← gets con;
  match d with
  | DJob h => conn_job k h
  | DFd x _ events => when (bool_decide (x = cn_bfd o)) (connection_fd_handler k events)
  | _ => mret ()
  end.

(** A wait that goes on is no dispatch. *)
Definition loop_turn (now : Z) (ws : list (wait_answer * Z)) : cm dispatch :=
  ask (λ s, r ← exec_iteration (bsys s) now ws;
    match r with Some (b, d) => Some (s <| bsys := b |>, d) | None => Some (s, DSkipped) end).

Definition conn_step (e : cevent) : cm unit :=
  match e with
  | ESendInit => BConnection_SendAsync_Init
  | ESenderInit h => con_send_iface (λ g i, i ← StreamPassInterface_Sender_Init i h; Some (g, i))
  | ESend d l => con_send_iface (λ g i, StreamPassInterface_Sender_Send g i d l)
  | ESendFree k => BConnection_SendAsync_Free k
  | ERecvInit => BConnection_RecvAsync_Init
  | EReceiverInit h => con_recv_iface (λ g i, i ← StreamRecvInterface_Receiver_Init i h; Some (g, i))
  | ERecv d l => con_recv_iface (λ g i, StreamRecvInterface_Receiver_Recv g i d l)
  | ERecvFree k => BConnection_RecvAsync_Free k
  | ETurn k now ws => d ← loop_turn now ws; conn_dispatch k d
  | EOther c => con_bsys (λ b, rstep b c)
  end.

Fixpoint conn_run (s : csys T G) (es : list cevent) : option (csys T G * list (cevent * list ceffect)) :=
  match es with
  | [] => Some (s, [])
  | e :: es =>
      match conn_step e s with
      | Some (_, s, xs) => '(s, tr) ← conn_run s es; Some (s, (e, xs) :: tr)
      | None => None
      end
  end.

(** The directions that the reactor monitors the socket for when the handler of the
    dispatch runs: those the kernel has just reported are not monitored any more, and
    none is after a hang-up. *)
Definition still_waited (o : BConnection) (d : dispatch) : Z :=
  if is_hupd o then 0 else
  match d with
  | DFd x _ events =>
      if decide (x = cn_bfd o) then (if Z.land events BREACTOR_HUP =? 0 then Z.land (wait_events o) (Z.lnot events) else 0)
      else wait_events o
  | _ => wait_events o
  end.

(** A direction that is monitored, and was not reported, is not ready: the kernel
    reports a descriptor as long as it is ready, so that a call in that direction
    blocks or fails. *)
Definition not_ready (k : kernel) (w : Z) : Prop :=
  (Z.testbit w 1 = true → ∀ len n, k_write k len ≠ IoBytes n) ∧ (Z.testbit w 0 = true → ∀ len n, k_read k len ≠ IoBytes n).

(** When an event may happen. The kernel may report any events of the socket in any
    combination, and may answer the calls of a turn in any way but one: no bytes in
    a direction that is [still_waited] for. *)
Definition ev_ok (s : csys T G) (e : cevent) : Prop :=
  let o := con s in
  match e with
  | ESendInit => d_err o = false ∧ snd_state (send o) = SEND_STATE_NOT_INITED
  | ESenderInit h => snd_state (send o) = SEND_STATE_READY ∧ spi_handler_done (snd_iface (send o)) = None
  | ESend d l => d_err o = false ∧ snd_state (send o) ≠ SEND_STATE_NOT_INITED ∧ spi_state (snd_iface (send o)) = STATE_NONE ∧
      is_set (spi_handler_done (snd_iface (send o))) = true ∧ 0 < l ∧ d ≠ 0
  | ESendFree k => snd_state (send o) ≠ SEND_STATE_NOT_INITED ∧ k_mod k = true
  | ERecvInit => d_err o = false ∧ rcv_state (recv o) = RECV_STATE_NOT_INITED
  | EReceiverInit h => rcv_state (recv o) = RECV_STATE_READY ∧ spi_handler_done (rcv_iface (recv o)) = None
  | ERecv d l => d_err o = false ∧ rcv_state (recv o) ≠ RECV_STATE_NOT_INITED ∧ spi_state (rcv_iface (recv o)) = STATE_NONE ∧
      is_set (spi_handler_done (rcv_iface (recv o))) = true ∧ 0 < l ∧ d ≠ 0
  | ERecvFree k => rcv_state (recv o) ≠ RECV_STATE_NOT_INITED ∧ k_mod k = true
  | ETurn k now ws => d_err o = false ∧ kernel_ok k ∧ turn_ok (bsys s) (mk_turn now ws []) ∧
      ∀ d s1 xs, loop_turn now ws s = Some (d, s1, xs) → not_ready k (still_waited o d)
  | EOther c => call_ok (bsys s) c ∧ foreign (my_jobs o) (cn_bfd o) (snd_limit (send o)) (rcv_limit (recv o)) (bsys s) c
  end.

Fixpoint evs_ok (s : csys T G) (es : list cevent) : Prop :=
  match es with
  | [] => True
  | e :: es => ev_ok s e ∧ match conn_step e s with Some (_, s, _) => evs_ok s es | None => True end
  end.

(** ** Invariant *)

(** A direction is waited for only while its operation is in progress; an operation
    in progress is waited for, or its job is set, or the error was reported. *)
Definition wait_ok (hup err : bool) (w : Z) (sp rp : phase) (rj : Prop) : Prop :=
  ∃ r wr, w = evs r wr ∧ (hup = false → (wr = true → sp = PhBusy) ∧ (r = true → rp = PhBusy)) ∧
    (sp = PhBusy → err = true ∨ (hup = false ∧ wr = true)) ∧ (rp = PhBusy → err = true ∨ rj ∨ (hup = false ∧ r = true)).

Record cbase (s : csys T G) (L : gmap addr nat) (P : gset addr) : Prop := {
  ci_own : own (bsys s) (cn_bfd (con s)) (is_hupd (con s)) (wait_events (con s)) (snd_limit (send (con s))) (rcv_limit (recv (con s)));
  ci_queue : queue (pending_jobs (bsys s)) L P;
  ci_named : named (my_jobs (con s)) L;
  ci_nodup : NoDup (my_jobs (con s));
  ci_send : half (send_phase (snd_state (send (con s)))) (snd_iface (send (con s))) (snd_job (send (con s)))
    (snd_busy_data (send (con s))) (snd_busy_data_len (send (con s))) L P;
  ci_recv : half (recv_phase (rcv_state (recv (con s)))) (rcv_iface (recv (con s))) (rcv_job (recv (con s)))
    (rcv_busy_data (recv (con s))) (rcv_busy_data_avail (recv (con s))) L P;
  ci_sjob : snd_job (send (con s)) ∉ P;
  ci_never : rcv_state (recv (con s)) ≠ RECV_STATE_NOT_INITED_CLOSED
}.

Definition cinv (s : csys T G) : Prop := ∃ L P, cbase s L P ∧
  wait_ok (is_hupd (con s)) (d_err (con s)) (wait_events (con s)) (send_phase (snd_state (send (con s))))
    (recv_phase (rcv_state (recv (con s)))) (rcv_job (recv (con s)) ∈ P).

End run.
