(* ===== verification/ConnectionLaws.v ===== *)
(** * What connections guarantee

    The proofs that every step of a run (ConnectionRun.v) is defined, keeps the
    invariant and follows the protocol, and the properties of connections. *)
From S2P Require Import Prelude LinkedLists BPending FlowInterfaces SearchTree BAVL CAvl BReactor BAddr BConnection ReactorFrame ConnectionRun.

Section laws.
Context {T G : Type} `{OrderedTree T} `{JobQueue G}.
#[local] Abbreviation cm := (M (csys T G) ceffect).
Implicit Types (b : BReactor T G) (o : BConnection) (L : gmap addr nat) (P : gset addr).

#[local] Instance wait_ok_proper hup err w sp rp : Proper (iff ==> iff) (wait_ok hup err w sp rp).
Proof using Type. intros A B HAB. unfold wait_ok. by setoid_rewrite HAB. Qed.

(** ** Pieces of the handlers *)

Lemma wp_limit b o hup w l1 l2 l (Q : bool → csys T G → list ceffect → Prop) :
  own b (cn_bfd o) hup w l1 l2 → l = l1 ∨ l = l2 →
  (∀ b' go, own b' (cn_bfd o) hup w l1 l2 → pending_jobs b' = pending_jobs b → (hup = true → go = true) → Q go (mk_csys b' o) []) →
  wp (if negb hup then con_ask (λ b, BReactorLimit_Increment b l) else mret true) Q (mk_csys b o).
Proof using Type.
  intros Ho Hl HQ. destruct hup; cbn [negb]; [apply wp_ret; by apply HQ |].
  destruct (own_increment _ _ _ _ _ _ _ Ho Hl) as (b' & a & E & Ho' & Ej). eapply wp_ask; [cbn [bsys]; rewrite E; reflexivity |]. by apply HQ.
Qed.

Lemma wp_set_events k b o x w l1 l2 ev (Q : unit → csys T G → list ceffect → Prop) :
  own b x false w l1 l2 → 0 ≤ ev ≤ 3 → k_mod k = true →
  (∀ b', own b' x false ev l1 l2 → pending_jobs b' = pending_jobs b → Q () (mk_csys b' o) []) →
  wp (con_bsys (λ b, BReactor_SetFileDescriptorEvents b x ev (k_mod k))) Q (mk_csys b o).
Proof using Type.
  intros Ho Hev Hk HQ. rewrite Hk. destruct (own_set_events _ _ _ _ _ _ Ho Hev) as (b' & E & Ho' & Ej).
  eapply wp_update; [cbn [bsys]; rewrite E; reflexivity |]. by apply HQ.
Qed.

Lemma wp_wait k b o w l1 l2 ev (Q : unit → csys T G → list ceffect → Prop) :
  own b (cn_bfd o) false w l1 l2 → 0 ≤ Z.lor (wait_events o) ev ≤ 3 → k_mod k = true →
  (∀ b', own b' (cn_bfd o) false (Z.lor (wait_events o) ev) l1 l2 → pending_jobs b' = pending_jobs b →
    Q () (mk_csys b' (o <| wait_events := Z.lor (wait_events o) ev |>)) []) →
  wp (wait_for_fd k ev) Q (mk_csys b o).
Proof using Type.
  intros Ho Hev Hk HQ. unfold wait_for_fd. apply wp_bind, wp_modify. apply wp_bind, wp_gets.
  exact (wp_set_events k b (o <| wait_events := Z.lor (wait_events o) ev |>) (cn_bfd o) w l1 l2 (Z.lor (wait_events o) ev) Q Ho Hev Hk HQ).
Qed.

Lemma wp_report b o (Q : unit → csys T G → list ceffect → Prop) : d_err o = false →
  Q () (mk_csys b (o <| d_err := true |>)) [XEvent BCONNECTION_EVENT_ERROR] → wp connection_report_error Q (mk_csys b o).
Proof using Type.
  intros He HQ. unfold connection_report_error. apply wp_bind, wp_gets, wp_bind, wp_assert; [cbn [con]; by rewrite He |].
  apply wp_bind, wp_modify, wp_emit. exact HQ.
Qed.

(** ** Sending *)

(** Before [connection_send] the socket is not waited for to be writable, unless it is
    not. *)
Definition send_wait (k : kernel) (hup : bool) (w : Z) (rp : phase) (rj : Prop) : Prop :=
  ∃ r wr, w = evs r wr ∧ (hup = false → (wr = true → ∀ len n, k_write k len ≠ IoBytes n) ∧ (r = true → rp = PhBusy)) ∧
    (rp = PhBusy → rj ∨ (hup = false ∧ r = true)).

(** From the view [v] the effects lead to the view of the state [s']. *)
Definition follows (sock : Z) (v : cview) (s' : csys T G) (xs : list ceffect) : Prop :=
  cinv s' ∧ cn_fd (con s') = sock ∧ spec_effects sock v xs = Some (view_of (con s')).

Lemma spec_effects_app sock xs ys : ∀ v, spec_effects sock v (xs ++ ys) = (v ← spec_effects sock v xs; spec_effects sock v ys).
Proof using Type. induction xs as [| x xs IH]; intros v; cbn [app spec_effects]; [done |]. destruct (spec_effect sock v x) as [v' |]; [apply IH | done]. Qed.

Lemma busy_view i job d l L P : half_on PhBusy i job d l L P → 0 < l ∧ dir_of PhBusy i = DWork d l.
Proof using Type.
  intros [H1 H2 H3 H4 H5 H6 H7 H8]. destruct (H7 eq_refl) as [-> ->].
  assert (spi_state i = STATE_BUSY) as Hs by (destruct (decide (spi_state i = STATE_BUSY)) as [? | Hne]; [done | by apply H5 in Hne]).
  unfold dir_of. rewrite Hs. split; [| done]. apply H6. by rewrite Hs.
Qed.

(** What is left of the invariant when only the reactor has changed. *)
Lemma cbase_bsys b o L P b' w : cbase (mk_csys b o) L P → own b' (cn_bfd o) (is_hupd o) w (snd_limit (send o)) (rcv_limit (recv o)) →
  pending_jobs b' = pending_jobs b → cbase (mk_csys b' (o <| wait_events := w |>)) L P.
Proof using Type. intros [Ho Hq Hna Hnd Hs Hr Hj Hn] Ho' Ej. split; try done. cbn. by rewrite Ej. Qed.

Lemma half_names ph i job d l L P x h : half ph i job d l L P → x ∈ half_jobs i job → L !! x = Some h → x = h.
Proof using Type.
  intros Hh Hx E. destruct (decide (ph = PhOff)) as [-> | Hne]; [specialize (Hh x Hx); congruence |].
  apply half_is_on in Hh; [| done]. rewrite (ho_live _ _ _ _ _ _ _ Hh x Hx) in E. by injection E.
Qed.

Lemma sides_apart o x : NoDup (my_jobs o) → x ∈ half_jobs (snd_iface (send o)) (snd_job (send o)) →
  x ∈ half_jobs (rcv_iface (recv o)) (rcv_job (recv o)) → False.
Proof using Type. intros (_ & Hd & _)%NoDup_app Hx Hy. by apply (Hd x). Qed.

Lemma cbase_send b o L P g L' P' i d l st : cbase (mk_csys b o) L P → queue g L' P' →
  half_jobs i (snd_job (send o)) = half_jobs (snd_iface (send o)) (snd_job (send o)) →
  side_step (half_jobs (snd_iface (send o)) (snd_job (send o))) L P L' P' → half (send_phase st) i (snd_job (send o)) d l L' P' → snd_job (send o) ∉ P' →
  cbase (mk_csys (b <| pending_jobs := g |>) (o <| send := mk_conn_send (snd_limit (send o)) i (snd_job (send o)) d l st |>)) L' P' ∧
  (rcv_job (recv o) ∈ P' ↔ rcv_job (recv o) ∈ P).
Proof using Type.
  intros [Ho Hq Hna Hnd Hs Hr Hj Hn] Hq' Ei Hst Hh Hj'. cbn [con bsys] in *.
  assert (∀ x, x ∈ half_jobs (rcv_iface (recv o)) (rcv_job (recv o)) → L' !! x = L !! x ∧ (x ∈ P' ↔ x ∈ P)) as Hag
    by (intros x Hx; apply Hst; intros Hx'; by eapply sides_apart).
  assert (my_jobs (o <| send := mk_conn_send (snd_limit (send o)) i (snd_job (send o)) d l st |>) = my_jobs o) as Emj
    by (unfold my_jobs; cbn [send recv set BConnection_eta eta snd_iface snd_job]; by rewrite Ei).
  split; [| apply Hag; unfold half_jobs; set_solver]. split; cbn [con bsys]; rewrite ?Emj; try done.
  - by eapply own_jobs.
  - intros x h E Hh'. destruct (decide (x ∈ half_jobs (snd_iface (send o)) (snd_job (send o)))) as [Hx | Hx].
    + rewrite <- Ei in Hx. by eapply half_names.
    + destruct (Hst x Hx) as [EL _]. rewrite EL in E. exact (Hna x h E Hh').
  - by eapply half_frame.
Qed.

Lemma cbase_recv b o L P g L' P' i d l st : cbase (mk_csys b o) L P → queue g L' P' →
  half_jobs i (rcv_job (recv o)) = half_jobs (rcv_iface (recv o)) (rcv_job (recv o)) →
  side_step (half_jobs (rcv_iface (recv o)) (rcv_job (recv o))) L P L' P' → half (recv_phase st) i (rcv_job (recv o)) d l L' P' →
  st ≠ RECV_STATE_NOT_INITED_CLOSED →
  cbase (mk_csys (b <| pending_jobs := g |>) (o <| recv := mk_conn_recv (rcv_limit (recv o)) i (rcv_job (recv o)) d l st |>)) L' P'.
Proof using Type.
  intros [Ho Hq Hna Hnd Hs Hr Hj Hn] Hq' Ei Hst Hh Hne. cbn [con bsys] in *.
  assert (∀ x, x ∈ half_jobs (snd_iface (send o)) (snd_job (send o)) → L' !! x = L !! x ∧ (x ∈ P' ↔ x ∈ P)) as Hag
    by (intros x Hx; apply Hst; intros Hx'; by eapply sides_apart).
  assert (my_jobs (o <| recv := mk_conn_recv (rcv_limit (recv o)) i (rcv_job (recv o)) d l st |>) = my_jobs o) as Emj
    by (unfold my_jobs; cbn [send recv set BConnection_eta eta rcv_iface rcv_job]; by rewrite Ei).
  split; cbn [con bsys]; rewrite ?Emj; try done.
  - by eapply own_jobs.
  - intros x h E Hh'. destruct (decide (x ∈ half_jobs (rcv_iface (recv o)) (rcv_job (recv o)))) as [Hx | Hx].
    + rewrite <- Ei in Hx. by eapply half_names.
    + destruct (Hst x Hx) as [EL _]. rewrite EL in E. exact (Hna x h E Hh').
  - by eapply half_frame.
  - destruct (Hag (snd_job (send o))) as [_ ->]; [unfold half_jobs; set_solver | done].
Qed.

Lemma in_op i job : spi_job_operation i ∈ half_jobs i job.
Proof using Type. unfold half_jobs. set_solver. Qed.
Lemma in_done i job : spi_job_done i ∈ half_jobs i job.
Proof using Type. unfold half_jobs. set_solver. Qed.
Lemma in_job i job : job ∈ half_jobs i job.
Proof using Type. unfold half_jobs. set_solver. Qed.

(** The error ends the run of both sides. *)
Lemma report_ok b o L P v pre : cbase (mk_csys b o) L P → d_err o = false →
  (∃ r wr, wait_events o = evs r wr ∧ (is_hupd o = false → (wr = true → send_phase (snd_state (send o)) = PhBusy) ∧
    (r = true → recv_phase (rcv_state (recv o)) = PhBusy))) →
  spec_effects (cn_fd o) v pre = Some (view_of o) →
  wp connection_report_error (λ _ s' xs, follows (cn_fd o) v s' (pre ++ xs)) (mk_csys b o).
Proof using Type.
  intros [Ho Hq Hna Hnd Hs Hr Hj Hn] He (r & wr & Ew & Hw) Hpre. apply wp_report; [done |]. split; [| split; [done |]].
  - exists L, P. split; [by split |]. cbn. exists r, wr. split; [done |]. split; [done |]. split; intros _; by left.
  - rewrite spec_effects_app, Hpre, option_bind_Some. cbn [spec_effects]. unfold spec_effect, view_of. cbn [vw_err]. by rewrite He.
Qed.

Lemma send_waits k b o L P v pre : kernel_ok k → cbase (mk_csys b o) L P → snd_state (send o) = SEND_STATE_BUSY → is_hupd o = false →
  send_wait k (is_hupd o) (wait_events o) (recv_phase (rcv_state (recv o))) (rcv_job (recv o) ∈ P) →
  spec_effects (cn_fd o) v pre = Some (view_of o) →
  wp (wait_for_fd k BREACTOR_WRITE) (λ _ s' xs, follows (cn_fd o) v s' (pre ++ xs)) (mk_csys b o).
Proof using Type.
  intros (_ & _ & Hkm & _) Hb Est Eh (r & wr & Ew & Hw & Hrb) Hpre. pose proof (ci_own _ _ _ Hb) as Ho. cbn [con bsys] in Ho. rewrite Eh in *.
  eapply wp_wait; [exact Ho | rewrite Ew, evs_write; apply evs_range | done |]. intros b' Ho' Ej. rewrite Ew, evs_write in *.
  split; [| split; [done | by rewrite app_nil_r]]. exists L, P. split; [eapply cbase_bsys; [exact Hb | by rewrite Eh | done] |]. cbn. rewrite Est, Eh. cbn [send_phase].
  destruct (Hw eq_refl) as [_ Hr]. exists r, true. split; [done |]. split; [done |]. split; [by right |]. intros Hp. right. by apply Hrb.
Qed.

Lemma connection_send_ok k s L P : kernel_ok k → cbase s L P → snd_state (send (con s)) = SEND_STATE_BUSY → d_err (con s) = false →
  send_wait k (is_hupd (con s)) (wait_events (con s)) (recv_phase (rcv_state (recv (con s)))) (rcv_job (recv (con s)) ∈ P) →
  wp (connection_send k) (λ _, follows (cn_fd (con s)) (view_of (con s))) s.
Proof using Type.
  destruct s as [b o]. intros Hk Hb Est Eerr Hw. cbn [con bsys] in *.
  pose proof (ci_send _ _ _ Hb) as Hs. cbn [con] in Hs. rewrite Est in Hs. cbn [send_phase half] in Hs. destruct (busy_view _ _ _ _ _ _ Hs) as [Hl Hdir].
  assert (view_of o = mk_view (DWork (snd_busy_data (send o)) (snd_busy_data_len (send o))) (vw_recv (view_of o)) false) as Hview
    by (unfold view_of; rewrite Est, Eerr; cbn [send_phase]; by rewrite Hdir).
  unfold connection_send. apply wp_bind, wp_gets. cbn [con]. rewrite Eerr, Est.
  apply wp_bind, wp_assert; [done |]. apply wp_bind, wp_assert; [done |]. apply wp_bind.
  eapply wp_limit; [exact (ci_own _ _ _ Hb) | by left |]. intros b' go Ho' Ej Hgo. cbn [app].
  assert (cbase (mk_csys b' o) L P) as Hb' by (eapply (cbase_bsys _ _ _ _ b' (wait_events o)) in Hb; [by destruct o | done | done]).
  destruct go; cbn [negb].
  2: { eapply (send_waits k b' o L P _ []); try done. by destruct (is_hupd o); [specialize (Hgo eq_refl) |]. }
  apply wp_bind, wp_emit.
  assert (∀ r, spec_effect (cn_fd o) (view_of o) (XWrite (cn_fd o) (snd_busy_data (send o)) (snd_busy_data_len (send o)) r) =
    match r with
    | IoBytes n => if (0 <? n) && (n <=? snd_busy_data_len (send o)) then Some (mk_view (DEnding n) (vw_recv (view_of o)) false) else None
    | _ => Some (view_of o)
    end) as Hspec.
  { intros r. rewrite Hview. unfold spec_effect. cbn [vw_err vw_send vw_recv]. by rewrite decide_True. }
  destruct (k_write k (snd_busy_data_len (send o))) as [n | |] eqn:Ek.
  - destruct Hk as (Hkw & _). destruct (Hkw _ _ Hl Ek) as [Hn1 Hn2].
    apply wp_bind, wp_assert; [by apply Z.ltb_lt |]. apply wp_bind, wp_assert; [by apply Z.leb_le |].
    apply wp_bind, wp_modify. pose proof (ci_queue _ _ _ Hb') as Hq. pose proof (ci_sjob _ _ _ Hb') as Hj. cbn [con bsys] in Hj.
    pose proof (proj1 (proj1 (NoDup_app _ _) (ci_nodup _ _ _ Hb'))) as Hnd1. cbn [con] in Hnd1.
    destruct (half_finish _ _ Hnd1 _ _ _ _ _ n Hq Hs Hj ltac:(lia)) as (g' & i' & E & Hq' & Ejobs & Est' & Elen & Hs').
    eapply wp_update; [cbn; cbn in E; rewrite E; reflexivity |].
    destruct (cbase_send _ _ _ _ g' L (P ∪ {[spi_job_done (snd_iface (send o))]}) i' (snd_busy_data (send o)) (snd_busy_data_len (send o)) SEND_STATE_READY
      Hb' Hq' Ejobs (side_add _ _ _ _ (in_done _ _)) Hs') as [Hb2 Hrj].
    { rewrite elem_of_union, elem_of_singleton. intros [? | Heq]; [by apply Hj |]. by destruct (side_ne _ _ Hnd1) as (_ & _ & []). }
    split; [| split; [done |]].
    + exists L, (P ∪ {[spi_job_done (snd_iface (send o))]}). split; [exact Hb2 |]. cbn. rewrite Eerr.
      destruct Hw as (r & wr & Ew & Hw & Hrb). exists r, wr. split; [done |]. rewrite Hrj. split; [| split; [done | intros Hp; right; by apply Hrb]].
      intros Eh. destruct (Hw Eh) as [Hnw Hr]. split; [| done]. intros Et. by destruct (Hnw Et _ _ Ek).
    + cbn [spec_effects app con]. rewrite Hspec, (proj2 (Z.ltb_lt _ _)), (proj2 (Z.leb_le _ _)) by done. cbn [andb].
      rewrite option_bind_Some. unfold view_of. cbn. rewrite Est', Elen, Eerr. done.
  - destruct (is_hupd o) eqn:Eh; cbn [negb].
    + apply (report_ok b' o L P _ [_] Hb' Eerr); [| cbn [spec_effects]; by rewrite Hspec]. destruct Hw as (r & wr & Ew & _). exists r, wr. split; [done |]. congruence.
    + eapply (send_waits k b' o L P _ [_]); try done; [by rewrite Eh |]. cbn [spec_effects]. by rewrite Hspec.
  - apply (report_ok b' o L P _ [_] Hb' Eerr); [| cbn [spec_effects]; by rewrite Hspec]. destruct Hw as (r & wr & Ew & Hw & Hrb). exists r, wr. split; [done |].
    intros Eh. destruct (Hw Eh) as [_ Hr]. by rewrite Est.
Qed.

(** ** Receiving *)

Definition recv_wait (k : kernel) (hup : bool) (w : Z) (sp : phase) : Prop :=
  ∃ r wr, w = evs r wr ∧ (hup = false → (r = true → ∀ len n, k_read k len ≠ IoBytes n) ∧ (wr = true → sp = PhBusy)) ∧ (sp = PhBusy → hup = false ∧ wr = true).

Lemma recv_waits k b o L P v pre : kernel_ok k → cbase (mk_csys b o) L P → rcv_state (recv o) = RECV_STATE_BUSY → is_hupd o = false →
  rcv_job (recv o) ∉ P → recv_wait k (is_hupd o) (wait_events o) (send_phase (snd_state (send o))) →
  spec_effects (cn_fd o) v pre = Some (view_of o) →
  wp (wait_for_fd k BREACTOR_READ) (λ _ s' xs, follows (cn_fd o) v s' (pre ++ xs)) (mk_csys b o).
Proof using Type.
  intros (_ & _ & Hkm & _) Hb Est Eh Hnj (r & wr & Ew & Hw & Hsb) Hpre. pose proof (ci_own _ _ _ Hb) as Ho. cbn [con bsys] in Ho. rewrite Eh in *.
  eapply wp_wait; [exact Ho | rewrite Ew, evs_read; apply evs_range | done |]. intros b' Ho' Ej. rewrite Ew, evs_read in *.
  split; [| split; [done | by rewrite app_nil_r]]. exists L, P. split; [eapply cbase_bsys; [exact Hb | by rewrite Eh | done] |]. cbn. rewrite Est, Eh. cbn [recv_phase].
  destruct (Hw eq_refl) as [_ Hr]. exists true, wr. split; [done |]. split; [done |]. split; [intros Hp; right; by apply Hsb |].
  intros _. right. by right.
Qed.

Lemma connection_recv_ok k s L P : kernel_ok k → cbase s L P → rcv_state (recv (con s)) = RECV_STATE_BUSY → d_err (con s) = false →
  rcv_job (recv (con s)) ∉ P → recv_wait k (is_hupd (con s)) (wait_events (con s)) (send_phase (snd_state (send (con s)))) →
  wp (connection_recv k) (λ _, follows (cn_fd (con s)) (view_of (con s))) s.
Proof using Type.
  destruct s as [b o]. intros Hk Hb Est Eerr Hnj Hw. cbn [con bsys] in *.
  pose proof (ci_recv _ _ _ Hb) as Hs. cbn [con] in Hs. rewrite Est in Hs. cbn [recv_phase half] in Hs. destruct (busy_view _ _ _ _ _ _ Hs) as [Hl Hdir].
  assert (view_of o = mk_view (vw_send (view_of o)) (DWork (rcv_busy_data (recv o)) (rcv_busy_data_avail (recv o))) false) as Hview
    by (unfold view_of; rewrite Est, Eerr; cbn [recv_phase]; by rewrite Hdir).
  unfold connection_recv. apply wp_bind, wp_gets. cbn [con]. rewrite Eerr, Est.
  apply wp_bind, wp_assert; [done |]. apply wp_bind, wp_assert; [done |]. apply wp_bind.
  eapply wp_limit; [exact (ci_own _ _ _ Hb) | by right |]. intros b' go Ho' Ej Hgo. cbn [app].
  assert (cbase (mk_csys b' o) L P) as Hb' by (eapply (cbase_bsys _ _ _ _ b' (wait_events o)) in Hb; [by destruct o | done | done]).
  destruct go; cbn [negb].
  2: { eapply (recv_waits k b' o L P _ []); try done. by destruct (is_hupd o); [specialize (Hgo eq_refl) |]. }
  apply wp_bind, wp_emit.
  assert (∀ r, spec_effect (cn_fd o) (view_of o) (XRead (cn_fd o) (rcv_busy_data (recv o)) (rcv_busy_data_avail (recv o)) r) =
    match r with
    | IoBytes n =>
        if n =? 0 then Some (mk_view (vw_send (view_of o)) DClosed false)
        else if (0 <? n) && (n <=? rcv_busy_data_avail (recv o)) then Some (mk_view (vw_send (view_of o)) (DEnding n) false) else None
    | _ => Some (view_of o)
    end) as Hspec.
  { intros r. rewrite Hview. unfold spec_effect. cbn [vw_err vw_send vw_recv]. by rewrite decide_True. }
  pose proof (ci_queue _ _ _ Hb') as Hq. cbn [bsys] in Hq.
  pose proof (proj2 (proj2 (proj1 (NoDup_app _ _) (ci_nodup _ _ _ Hb')))) as Hnd1. cbn [con] in Hnd1.
  destruct (k_read k (rcv_busy_data_avail (recv o))) as [n | |] eqn:Ek.
  - destruct Hk as (_ & Hkr & _). destruct (Hkr _ _ Hl Ek) as [Hn1 Hn2]. destruct (n =? 0) eqn:En; b2p.
    + subst n. apply wp_bind, wp_modify, wp_emit.
      pose proof (cbase_recv _ _ _ _ (pending_jobs b') L P (rcv_iface (recv o)) (rcv_busy_data (recv o)) (rcv_busy_data_avail (recv o)) RECV_STATE_INITED_CLOSED
        Hb' Hq eq_refl (side_refl _ _ _) (half_close _ _ _ _ _ _ Hs Hnj) ltac:(done)) as Hb2.
      replace (b' <| pending_jobs := pending_jobs b' |>) with b' in Hb2 by (by destruct b').
      split; [| split; [done |]].
      * exists L, P. split; [exact Hb2 |]. cbn. rewrite Eerr. destruct Hw as (r & wr & Ew & Hw & Hsb). exists r, wr. split; [done |].
        split; [intros Eh; destruct (Hw Eh) as [Hnr Hr]; split; [done |]; intros Et; by destruct (Hnr Et _ _ Ek) |].
        split; [intros Hp; right; by apply Hsb | done].
      * cbn [spec_effects app con]. rewrite Hspec. cbn [Z.eqb]. rewrite option_bind_Some. cbn [spec_effect vw_err vw_recv]. rewrite decide_True by done.
        rewrite option_bind_Some. unfold view_of. cbn. rewrite Eerr. done.
    + apply wp_bind, wp_assert; [apply Z.ltb_lt; lia |]. apply wp_bind, wp_assert; [by apply Z.leb_le |]. apply wp_bind, wp_modify.
      destruct (half_finish _ _ Hnd1 _ _ _ _ _ n Hq Hs Hnj ltac:(lia)) as (g' & i' & E & Hq' & Ejobs & Est' & Elen & Hs').
      eapply wp_update; [cbn; cbn in E; unfold StreamRecvInterface_Done; rewrite E; reflexivity |].
      pose proof (cbase_recv _ _ _ _ g' L (P ∪ {[spi_job_done (rcv_iface (recv o))]}) i' (rcv_busy_data (recv o)) (rcv_busy_data_avail (recv o)) RECV_STATE_READY
        Hb' Hq' Ejobs (side_add _ _ _ _ (in_done _ _)) Hs' ltac:(done)) as Hb2.
      split; [| split; [done |]].
      * eexists L, _. split; [exact Hb2 |]. cbn. rewrite Eerr. destruct Hw as (r & wr & Ew & Hw & Hsb). exists r, wr. split; [done |].
        split; [intros Eh; destruct (Hw Eh) as [Hnr Hr]; split; [done |]; intros Et; by destruct (Hnr Et _ _ Ek) |].
        split; [intros Hp; right; by apply Hsb | done].
      * cbn [spec_effects app con]. rewrite Hspec. rewrite (proj2 (Z.eqb_neq _ _) En), (proj2 (Z.ltb_lt _ _)), (proj2 (Z.leb_le _ _)) by lia. cbn [andb].
        rewrite option_bind_Some. unfold view_of. cbn. rewrite Est', Elen, Eerr. done.
  - destruct (is_hupd o) eqn:Eh; cbn [negb].
    + apply (report_ok b' o L P _ [_] Hb' Eerr); [| cbn [spec_effects]; by rewrite Hspec]. destruct Hw as (r & wr & Ew & _). exists r, wr. split; [done |]. congruence.
    + eapply (recv_waits k b' o L P _ [_]); try done; [by rewrite Eh |]. cbn [spec_effects]. by rewrite Hspec.
  - apply (report_ok b' o L P _ [_] Hb' Eerr); [| cbn [spec_effects]; by rewrite Hspec]. destruct Hw as (r & wr & Ew & Hw & Hsb). exists r, wr. split; [done |].
    intros Eh. destruct (Hw Eh) as [_ Hr]. by rewrite Est.
Qed.

(** ** The handler of the descriptor *)

(** Only what is waited for is reported. *)
Lemma report_events_rep r0 w0 raw :
  ∃ r w e h, report_events (evs r0 w0) raw = rep r w e h ∧ (r = true → r0 = true) ∧ (w = true → w0 = true).
Proof using Type.
  unfold report_events.
  exists (r0 && negb (Z.land raw EPOLLIN =? 0)), (w0 && negb (Z.land raw EPOLLOUT =? 0)), (negb (Z.land raw EPOLLERR =? 0)), (negb (Z.land raw EPOLLHUP =? 0)).
  destruct (Z.land raw EPOLLIN =? 0), (Z.land raw EPOLLOUT =? 0), (Z.land raw EPOLLERR =? 0), (Z.land raw EPOLLHUP =? 0);
    destruct r0, w0; (split; [reflexivity |]); done.
Qed.

(** The invariant while the queue is empty and no error was reported. *)
Lemma wait_idle hup w sp rp rj : wait_ok hup false w sp rp rj → ¬ rj →
  ∃ r wr, w = evs r wr ∧ (hup = false → (wr = true → sp = PhBusy) ∧ (r = true → rp = PhBusy)) ∧
    (sp = PhBusy → hup = false ∧ wr = true) ∧ (rp = PhBusy → hup = false ∧ r = true).
Proof using Type.
  intros (r & wr & Ew & Hw & Hs & Hr) Hnj. exists r, wr. split; [done |]. split; [done |].
  split; [intros Hp; by destruct (Hs Hp) | intros Hp; by destruct (Hr Hp) as [? | [? | ?]]].
Qed.

Lemma send_busy st : send_phase st = PhBusy ↔ st = SEND_STATE_BUSY.
Proof using Type. by destruct st. Qed.
Lemma recv_busy st : recv_phase st = PhBusy ↔ st = RECV_STATE_BUSY.
Proof using Type. by destruct st. Qed.

(** The socket was reported, and removed from the reactor if it hung up. *)
Lemma wp_hup k b o l1 l2 (hu : bool) (Q : unit → csys T G → list ceffect → Prop) :
  own b (cn_bfd o) false (wait_events o) l1 l2 → is_hupd o = false → k_del k = true →
  (∀ b', own b' (cn_bfd o) hu (wait_events o) l1 l2 → pending_jobs b' = pending_jobs b → Q () (mk_csys b' (o <| is_hupd := hu |>)) []) →
  wp (when hu (con_bsys (λ b, BReactor_RemoveFileDescriptor b (cn_bfd o) (k_del k));; con_set (λ o, o <| is_hupd := true |>))) Q (mk_csys b o).
Proof using Type.
  intros Ho Eh Hk HQ. destruct hu; apply wp_when; try done; intros _.
  - destruct (own_remove _ _ _ _ _ Ho) as (b' & E & Ho' & Ej). apply wp_bind. rewrite Hk.
    eapply wp_update; [cbn [bsys]; rewrite E; reflexivity |]. apply wp_modify. by apply HQ.
  - specialize (HQ b Ho eq_refl). replace o with (o <| is_hupd := false |>) at 1 by (destruct o; cbn in *; by subst). exact HQ.
Qed.

(** A direction that is in progress and not served now is still waited for. *)
Lemma not_served (r0 r e h hb : bool) : (r0 = true ↔ hb = true) → r || (e || h) && hb = false → hb = true → h = false ∧ r0 && negb r = true.
Proof using Type. intros H3. destruct r0, r, e, h, hb; cbn; try done; by destruct H3 as [_ H3]; specialize (H3 eq_refl). Qed.

Lemma still_reported o x h r0 w0 r w e hu : is_hupd o = false → wait_events o = evs r0 w0 → x = cn_bfd o →
  still_waited o (DFd x h (rep r w e hu)) = if hu then 0 else evs (r0 && negb r) (w0 && negb w).
Proof using Type.
  intros Eh Ew ->. unfold still_waited. rewrite Eh, decide_True, Ew, rep_clear by done. pose proof (rep_hup r w e hu) as Hh.
  destruct (_ =? 0), hu; done.
Qed.

Lemma evs_bits r w : Z.testbit (evs r w) 1 = w ∧ Z.testbit (evs r w) 0 = r.
Proof using Type. by destruct r, w. Qed.

Lemma fd_handler_ok k b o L raw : kernel_ok k → cbase (mk_csys b o) L ∅ → d_err o = false → is_hupd o = false →
  (∀ h, not_ready k (still_waited o (DFd (cn_bfd o) h (report_events (wait_events o) raw)))) →
  wait_ok false false (wait_events o) (send_phase (snd_state (send o))) (recv_phase (rcv_state (recv o))) (rcv_job (recv o) ∈ (∅ : gset addr)) →
  wp (connection_fd_handler k (report_events (wait_events o) raw)) (λ _, follows (cn_fd o) (view_of o)) (mk_csys b o).
Proof using Type.
  intros Hk Hb Eerr Eh Hraw Hw. apply wait_idle in Hw as (r0 & w0 & Ew & Hw & Hsb & Hrb); [| set_solver]. destruct (Hw eq_refl) as [Hws Hwr].
  destruct (report_events_rep r0 w0 raw) as (r & w & e & h & Erep & Hr & Hww). rewrite Ew, Erep in *.
  specialize (Hraw 0%nat). rewrite (still_reported o _ _ r0 w0 r w e h Eh Ew eq_refl) in Hraw.
  assert (h = false → (w0 && negb w = true → ∀ len n, k_write k len ≠ IoBytes n) ∧ (r0 && negb r = true → ∀ len n, k_read k len ≠ IoBytes n)) as Hstale.
  { intros ->. unfold not_ready in Hraw. destruct (evs_bits (r0 && negb r) (w0 && negb w)) as [-> ->] in Hraw. done. }
  clear Hraw Erep.
  unfold connection_fd_handler. apply wp_bind, wp_gets. cbn [con]. rewrite Eerr, Eh. apply wp_bind, wp_assert; [done |]. apply wp_bind, wp_assert; [done |].
  apply wp_bind, wp_modify. cbn [con set csys_eta eta bsys]. apply wp_bind, wp_gets. apply wp_bind.
  pose proof Hk as (_ & _ & Hkm & Hkd). pose proof (ci_own _ _ _ Hb) as Ho. cbn [con bsys] in Ho. rewrite Eh in Ho.
  rewrite Ew, rep_clear.
  set (o1 := o <| wait_events := evs (r0 && negb r) (w0 && negb w) |>).
  apply (wp_set_events k b o1 (cn_bfd o) (wait_events o) _ _ _ _ Ho (evs_range _ _) Hkm). intros b1 Ho1 Ej1.
  rewrite rep_hup, rep_failed, rep_write, rep_read. apply wp_bind. cbn [con].
  apply (wp_hup k b1 o1 (snd_limit (send o)) (rcv_limit (recv o)) h); [exact Ho1 | exact Eh | done |]. intros b2 Ho2 Ej2.
  apply wp_bind, wp_gets. cbn [con app]. set (o2 := o1 <| is_hupd := h |>).
  change (snd_state (send o2)) with (snd_state (send o)). change (rcv_state (recv o2)) with (rcv_state (recv o)).
  assert (cbase (mk_csys b2 o2) L ∅) as Hb2.
  { destruct Hb as [_ Hq Hna Hnd Hs Hrr Hj Hn]. split; try done. cbn [bsys]. by rewrite Ej2, Ej1. }
  assert (view_of o2 = view_of o ∧ cn_fd o2 = cn_fd o ∧ d_err o2 = false) as (Ev & Efd & Eerr2) by done. rewrite <- Ev, <- Efd.
  set (sb := bool_decide (snd_state (send o) = SEND_STATE_BUSY)). set (rb := bool_decide (rcv_state (recv o) = RECV_STATE_BUSY)).
  assert (sb = true ↔ send_phase (snd_state (send o)) = PhBusy) as Hsbb by (unfold sb; by rewrite bool_decide_eq_true, send_busy).
  assert (rb = true ↔ recv_phase (rcv_state (recv o)) = PhBusy) as Hrbb by (unfold rb; by rewrite bool_decide_eq_true, recv_busy).
  rewrite <- Hsbb in Hws, Hsb. rewrite <- Hrbb in Hwr, Hrb. clear Hw.
  pose proof (not_served w0 w e h sb ltac:(split; [done | by intros [_ ?]%Hsb])) as Hsn.
  pose proof (not_served r0 r e h rb ltac:(split; [done | by intros [_ ?]%Hrb])) as Hrn.
  assert (w || (e || h) && sb = true → sb = true) as Hs1 by (intros [E | [_ E]%andb_prop]%orb_prop; [by apply Hws, Hww | done]).
  assert (r || (e || h) && rb = true → rb = true) as Hr1 by (intros [E | [_ E]%andb_prop]%orb_prop; [by apply Hwr, Hr | done]).
  apply wp_bind, wp_when_assert; [done |]. apply wp_bind, wp_when_assert; [done |]. cbn [app].
  destruct (w || (e || h) && sb) eqn:Ehs.
  - assert (snd_state (send o) = SEND_STATE_BUSY) as Hbusy by (by apply send_busy, Hsbb, Hs1).
    apply wp_bind, wp_when; intros Ehr.
    + assert (rcv_state (recv o) = RECV_STATE_BUSY) as Hbusyr by (by apply recv_busy, Hrbb, Hr1).
      pose proof (ci_recv _ _ _ Hb2) as Hrv. cbn [con] in Hrv. change (recv o2) with (recv o) in Hrv. rewrite Hbusyr in Hrv. cbn [recv_phase half] in Hrv.
      pose proof (ci_queue _ _ _ Hb2) as Hq2. cbn [bsys] in Hq2.
      pose proof (proj2 (proj2 (proj1 (NoDup_app _ _) (ci_nodup _ _ _ Hb2)))) as Hndr. cbn [con] in Hndr. change (recv o2) with (recv o) in Hndr.
      destruct (job_set_ok _ L ∅ (rcv_job (recv o)) Hq2) as (g & E & Hq);
        [apply elem_of_dom; rewrite (ho_live _ _ _ _ _ _ _ Hrv _ (in_job _ _)); done |].
      eapply wp_update; [cbn [bsys]; unfold with_jobs; change (recv o2) with (recv o); rewrite E; reflexivity |]. cbn [app].
      pose proof (cbase_recv _ _ _ _ g L (∅ ∪ {[rcv_job (recv o)]}) (rcv_iface (recv o)) (rcv_busy_data (recv o)) (rcv_busy_data_avail (recv o)) RECV_STATE_BUSY
        Hb2 Hq eq_refl (side_add _ _ _ _ (in_job _ _)) (half_set_job _ _ Hndr _ _ _ _ Hrv) ltac:(done)) as Hb3.
      replace (o2 <| recv := _ |>) with o2 in Hb3 by (destruct o as [? ? ? ? ? ? [] ?]; cbn in Hbusyr; subst; reflexivity).
      eapply (connection_send_ok k (mk_csys _ o2)); [done | exact Hb3 | done | done |]. cbn [con is_hupd wait_events recv o2 o1].
      exists (r0 && negb r), (w0 && negb w). split; [done |]. split.
      * intros E2. split; [by apply Hstale |]. intros _. by apply recv_busy.
      * intros _. left. apply elem_of_union. right. by apply elem_of_singleton.
    + cbn [app]. eapply (connection_send_ok k (mk_csys _ o2)); [done | exact Hb2 | done | done |]. cbn [con is_hupd wait_events recv o2 o1].
      exists (r0 && negb r), (w0 && negb w). split; [done |]. split.
      * intros E2. split; [by apply Hstale |]. intros [E3 _]%andb_prop. by apply Hrbb, Hwr.
      * intros Hp. right. by apply Hrn, Hrbb.
  - assert (sb = true → h = false ∧ w0 && negb w = true) as Hsn' by (by apply Hsn). destruct (r || (e || h) && rb) eqn:Ehr.
    + assert (rcv_state (recv o) = RECV_STATE_BUSY) as Hbusyr by (by apply recv_busy, Hrbb, Hr1).
      eapply (connection_recv_ok k (mk_csys _ o2)); [done | exact Hb2 | done | done | apply not_elem_of_empty |]. cbn [con is_hupd wait_events send o2 o1].
      exists (r0 && negb r), (w0 && negb w). split; [done |]. split; [| by intros ?%Hsbb%Hsn'].
      intros E2. split; [by apply Hstale |]. intros [E3 _]%andb_prop. by apply Hsbb, Hws.
    + apply wp_when; change (is_hupd o2) with h; intros E2; b2p.
      * apply (report_ok b2 o2 L ∅ _ [] Hb2 Eerr2); [| done]. exists (r0 && negb r), (w0 && negb w). split; [done |]. intros _.
        split; intros [E3 _]%andb_prop; [by apply Hsbb, Hws | by apply Hrbb, Hwr].
      * split; [| done]. exists L, ∅. split; [exact Hb2 |]. cbn [con is_hupd wait_events send recv o2 o1]. exists (r0 && negb r), (w0 && negb w).
        split; [done |]. split; [intros Hf; change (h = false) in Hf; congruence |]. split; [intros [? _]%Hsbb%Hsn'; congruence | intros [? _]%Hrbb%(Hrn eq_refl); congruence].
Qed.

(** ** Other objects *)

Lemma in_send o x : x ∈ half_jobs (snd_iface (send o)) (snd_job (send o)) → x ∈ my_jobs o.
Proof using Type. unfold my_jobs. rewrite elem_of_app. tauto. Qed.
Lemma in_recv o x : x ∈ half_jobs (rcv_iface (recv o)) (rcv_job (recv o)) → x ∈ my_jobs o.
Proof using Type. unfold my_jobs. rewrite elem_of_app. tauto. Qed.

Lemma cinv_frame b o b' L P L' P' : cbase (mk_csys b o) L P →
  wait_ok (is_hupd o) (d_err o) (wait_events o) (send_phase (snd_state (send o))) (recv_phase (rcv_state (recv o))) (rcv_job (recv o) ∈ P) →
  rinv b' → keeps (cn_bfd o) (snd_limit (send o)) (rcv_limit (recv o)) b b' → queue (pending_jobs b') L' P' → jobs_kept (my_jobs o) L P L' P' →
  cinv (mk_csys b' o).
Proof using Type.
  intros [Ho Hq Hna Hnd Hs Hr Hj Hn] Hw Hi Hk Hq' [Hag Hnew]. cbn [con bsys] in *. exists L', P'. split.
  - split; cbn [con bsys]; try done.
    + by eapply own_keeps.
    + intros x h E Hh. apply (Hna x h); [by apply Hnew | done].
    + eapply half_frame; [exact Hs |]. intros x Hx. by apply Hag, in_send.
    + eapply half_frame; [exact Hr |]. intros x Hx. by apply Hag, in_recv.
    + destruct (Hag (snd_job (send o))) as [_ ->]; [apply in_send, in_job | done].
  - cbn [con]. destruct Hw as (r & wr & Ew & Hw). exists r, wr. split; [done |].
    destruct (Hag (rcv_job (recv o))) as [_ Hj']; [apply in_recv, in_job |]. by rewrite Hj'.
Qed.

(** ** Jobs *)

(** The reactor took a job from its queue; then a side changed. *)
Lemma cbase_before b o L P b' : cbase (mk_csys b o) L P → rinv b' → keeps (cn_bfd o) (snd_limit (send o)) (rcv_limit (recv o)) b b' →
  cbase (mk_csys (b' <| pending_jobs := pending_jobs b |>) o) L P.
Proof using Type.
  intros [Ho Hq Hna Hnd Hs Hr Hj Hn] Hi Hk. cbn [con bsys] in *. split; try done. cbn [con bsys]. eapply own_jobs; [| exact Hq]. by eapply own_keeps.
Qed.

Lemma half_alive ph i job d l L P x : half ph i job d l L P → x ∈ half_jobs i job → x ∈ dom L → half_on ph i job d l L P.
Proof using Type.
  intros Hh Hx Hd. apply half_is_on; [done |]. intros ->. specialize (Hh x Hx). apply elem_of_dom in Hd as [? Hd]. congruence.
Qed.

Lemma pending_op ph i job d l L P : half_on ph i job d l L P → spi_job_operation i ∈ P → ph = PhReady.
Proof using Type. intros Hh Hp. apply (ho_ready _ _ _ _ _ _ _ Hh). apply (ho_op _ _ _ _ _ _ _ Hh) in Hp. congruence. Qed.
Lemma pending_done ph i job d l L P : half_on ph i job d l L P → spi_job_done i ∈ P → ph = PhReady.
Proof using Type. intros Hh Hp. apply (ho_ready _ _ _ _ _ _ _ Hh). apply (ho_done _ _ _ _ _ _ _ Hh) in Hp. congruence. Qed.

Lemma queue_live (g : G) L P x : queue g L P → x ∈ P → x ∈ dom L.
Proof using Type. intros (q & _ & _ & _ & _ & Hsub). apply Hsub. Qed.

Lemma wp_put_send b o i (Q : unit → csys T G → list ceffect → Prop) :
  Q () (mk_csys b (o <| send := (send o) <| snd_iface := i |> |>)) [] → wp (con_send_iface (λ g _, Some (g, i))) Q (mk_csys b o).
Proof using Type. intros HQ. eapply wp_update; [reflexivity |]. by destruct b. Qed.
Lemma wp_put_recv b o i (Q : unit → csys T G → list ceffect → Prop) :
  Q () (mk_csys b (o <| recv := (recv o) <| rcv_iface := i |> |>)) [] → wp (con_recv_iface (λ g _, Some (g, i))) Q (mk_csys b o).
Proof using Type. intros HQ. eapply wp_update; [reflexivity |]. by destruct b. Qed.

(** A connection from whose queue the job [x] was taken. *)
Section popped.
Context (b b' : BReactor T G) (o : BConnection) (L : gmap addr nat) (P : gset addr) (x : addr).
Context (Hb : cbase (mk_csys b o) L P) (Hi : rinv b') (Hk : keeps (cn_bfd o) (snd_limit (send o)) (rcv_limit (recv o)) b b').
Context (Hx : x ∈ P) (Hq : queue (pending_jobs b') L (P ∖ {[x]})).
Context (Hw : wait_ok (is_hupd o) (d_err o) (wait_events o) (send_phase (snd_state (send o))) (recv_phase (rcv_state (recv o))) (rcv_job (recv o) ∈ P)).
Context (Eerr : d_err o = false).

Lemma popped_live : x ∈ dom L.
Proof using Hb Hx. exact (queue_live _ _ _ _ (ci_queue _ _ _ Hb) Hx). Qed.

Lemma popped_send i d l st : half_jobs i (snd_job (send o)) = half_jobs (snd_iface (send o)) (snd_job (send o)) →
  x ∈ half_jobs (snd_iface (send o)) (snd_job (send o)) → half (send_phase st) i (snd_job (send o)) d l L (P ∖ {[x]}) →
  cbase (mk_csys b' (o <| send := mk_conn_send (snd_limit (send o)) i (snd_job (send o)) d l st |>)) L (P ∖ {[x]}) ∧
  (rcv_job (recv o) ∈ P ∖ {[x]} ↔ rcv_job (recv o) ∈ P).
Proof using Hb Hi Hk Hq.
  intros Ei Hm Hh.
  destruct (cbase_send _ _ _ _ (pending_jobs b') L (P ∖ {[x]}) i d l st (cbase_before _ _ _ _ _ Hb Hi Hk) Hq Ei (side_remove _ _ _ _ Hm) Hh) as [Hb' Hrj];
    [intros [Hj _]%elem_of_difference; exact (ci_sjob _ _ _ Hb Hj) |].
  by rewrite restore_jobs in Hb'.
Qed.

Lemma popped_recv i d l st : half_jobs i (rcv_job (recv o)) = half_jobs (rcv_iface (recv o)) (rcv_job (recv o)) →
  x ∈ half_jobs (rcv_iface (recv o)) (rcv_job (recv o)) → half (recv_phase st) i (rcv_job (recv o)) d l L (P ∖ {[x]}) →
  st ≠ RECV_STATE_NOT_INITED_CLOSED →
  cbase (mk_csys b' (o <| recv := mk_conn_recv (rcv_limit (recv o)) i (rcv_job (recv o)) d l st |>)) L (P ∖ {[x]}).
Proof using Hb Hi Hk Hq.
  intros Ei Hm Hh Hne.
  pose proof (cbase_recv _ _ _ _ (pending_jobs b') L (P ∖ {[x]}) i d l st (cbase_before _ _ _ _ _ Hb Hi Hk) Hq Ei (side_remove _ _ _ _ Hm) Hh Hne) as Hb'.
  by rewrite restore_jobs in Hb'.
Qed.

Lemma send_nodup : NoDup (half_jobs (snd_iface (send o)) (snd_job (send o))).
Proof using Hb. exact (proj1 (proj1 (NoDup_app _ _) (ci_nodup _ _ _ Hb))). Qed.
Lemma recv_nodup : NoDup (half_jobs (rcv_iface (recv o)) (rcv_job (recv o))).
Proof using Hb. exact (proj2 (proj2 (proj1 (NoDup_app _ _) (ci_nodup _ _ _ Hb)))). Qed.

Abbreviation runs m := (wp m (λ _, follows (cn_fd o) (view_of o)) (mk_csys b' o)).

Lemma job_send_operation k : kernel_ok k → x = spi_job_operation (snd_iface (send o)) → runs (conn_job k x).
Proof using Hb Hi Hk Hx Hq Hw Eerr.
  intros Hkk Ex. assert (spi_job_operation (snd_iface (send o)) ∈ P) as Hp by congruence.
  pose proof (half_alive _ _ _ _ _ _ _ x (ci_send _ _ _ Hb) ltac:(rewrite Ex; apply in_op) popped_live) as Hs. cbn [con] in Hs.
  pose proof (pending_op _ _ _ _ _ _ _ Hs Hp) as Hr. rewrite Hr in Hs.
  assert (snd_state (send o) = SEND_STATE_READY) as Est by (by destruct (snd_state (send o))).
  destruct (half_operation _ _ send_nodup _ _ _ _ Hs Hp) as (i' & E & Hlen & Ej & Es1 & Es2 & Ed & El & Hs').
  unfold conn_job. apply wp_bind, wp_gets. cbn [con]. rewrite decide_True by done. apply wp_bind. eapply wp_lift; [exact E |].
  apply wp_bind, wp_put_send. unfold connection_send_if_handler_send. apply wp_bind, wp_gets.
  apply wp_bind, wp_assert; [cbn; by rewrite Eerr |]. apply wp_bind, wp_assert; [cbn; by rewrite Est |].
  apply wp_bind, wp_assert; [by apply Z.ltb_lt |]. apply wp_bind, wp_modify. cbn [app].
  rewrite <- Ex in Hs'. destruct (popped_send i' _ _ SEND_STATE_BUSY Ej ltac:(rewrite Ex; apply in_op) Hs') as [Hb2 Hrj].
  assert (view_of o = view_of (o <| send := mk_conn_send (snd_limit (send o)) i' (snd_job (send o)) (spi_job_operation_data (snd_iface (send o)))
    (spi_job_operation_len (snd_iface (send o))) SEND_STATE_BUSY |>)) as ->
    by (unfold view_of; rewrite Est; cbn; by rewrite Es1, Es2, Ed, El).
  match type of Hb2 with cbase ?s _ _ => apply (connection_send_ok k s _ _ Hkk Hb2 eq_refl Eerr) end. cbn [con is_hupd wait_events recv set BConnection_eta eta].
  rewrite Hr, Eerr in Hw. destruct Hw as (r & wr & Ew & Hw1 & _ & Hw3). exists r, wr. split; [done |]. split.
  - intros Eh. destruct (Hw1 Eh) as [H1 H2]. split; [| done]. intros Et. by specialize (H1 Et).
  - intros Hp'. rewrite Hrj. by destruct (Hw3 Hp').
Qed.

Lemma job_send_done k : x = spi_job_done (snd_iface (send o)) → runs (conn_job k x).
Proof using Hb Hi Hk Hx Hq Hw Eerr.
  intros Ex. assert (spi_job_done (snd_iface (send o)) ∈ P) as Hp by congruence.
  pose proof (half_alive _ _ _ _ _ _ _ x (ci_send _ _ _ Hb) ltac:(rewrite Ex; apply in_done) popped_live) as Hs. cbn [con] in Hs.
  pose proof (pending_done _ _ _ _ _ _ _ Hs Hp) as Hr. rewrite Hr in Hs.
  assert (snd_state (send o) = SEND_STATE_READY) as Est by (by destruct (snd_state (send o))).
  destruct (half_report _ _ send_nodup _ _ _ _ Hs Hp) as (i' & h & E & Eh & Ej & Es1 & Es2 & Hs').
  pose proof (side_ne _ _ send_nodup) as (N1 & N2 & N3).
  unfold conn_job. apply wp_bind, wp_gets. cbn [con]. rewrite decide_False by congruence. rewrite decide_True by done. apply wp_bind. eapply wp_lift; [exact E |].
  apply wp_bind, wp_put_send, wp_emit. cbn [app].
  rewrite <- Ex in Hs'. destruct (popped_send i' (snd_busy_data (send o)) (snd_busy_data_len (send o)) SEND_STATE_READY Ej ltac:(rewrite Ex; apply in_done) Hs')
    as [Hb2 Hrj].
  split; [| split; [done |]].
  - exists L, (P ∖ {[x]}). split; [rewrite <- Est in Hb2; exact Hb2 |]. cbn. rewrite Hrj. done.
  - cbn [spec_effects]. unfold view_of. cbn. rewrite Est, Eerr. cbn. rewrite Es1, Es2. by rewrite decide_True.
Qed.

Lemma job_send_never : x ≠ snd_job (send o).
Proof using Hb Hx. intros E. pose proof Hx as Hx'. rewrite E in Hx'. exact (ci_sjob _ _ _ Hb Hx'). Qed.

(** The names of the other side are others. *)
Lemma recv_not_send : x ∈ half_jobs (rcv_iface (recv o)) (rcv_job (recv o)) →
  x ≠ spi_job_operation (snd_iface (send o)) ∧ x ≠ spi_job_done (snd_iface (send o)) ∧ x ≠ snd_job (send o).
Proof using Hb.
  intros Hm. split; [| split]; intros E; eapply (sides_apart o x (ci_nodup _ _ _ Hb)); [| exact Hm | | exact Hm | | exact Hm]; rewrite E;
    [apply in_op | apply in_done | apply in_job].
Qed.

Lemma job_recv_operation k : kernel_ok k → x = spi_job_operation (rcv_iface (recv o)) → runs (conn_job k x).
Proof using Hb Hi Hk Hx Hq Hw Eerr.
  intros Hkk Ex. assert (spi_job_operation (rcv_iface (recv o)) ∈ P) as Hp by congruence.
  assert (x ∈ half_jobs (rcv_iface (recv o)) (rcv_job (recv o))) as Hm by (rewrite Ex; apply in_op).
  pose proof (half_alive _ _ _ _ _ _ _ x (ci_recv _ _ _ Hb) Hm popped_live) as Hs. cbn [con] in Hs.
  pose proof (pending_op _ _ _ _ _ _ _ Hs Hp) as Hr. rewrite Hr in Hs.
  assert (rcv_state (recv o) = RECV_STATE_READY) as Est by (by destruct (rcv_state (recv o))).
  destruct (half_operation _ _ recv_nodup _ _ _ _ Hs Hp) as (i' & E & Hlen & Ej & Es1 & Es2 & Ed & El & Hs').
  destruct (recv_not_send Hm) as (M1 & M2 & M3).
  unfold conn_job. apply wp_bind, wp_gets. cbn [con]. do 3 (rewrite decide_False by done). rewrite decide_True by done.
  apply wp_bind. eapply wp_lift; [exact E |].
  apply wp_bind, wp_put_recv. unfold connection_recv_if_handler_recv. apply wp_bind, wp_gets.
  apply wp_bind, wp_assert; [cbn; by rewrite Eerr |]. apply wp_bind, wp_assert; [cbn; by rewrite Est |].
  apply wp_bind, wp_assert; [by apply Z.ltb_lt |]. apply wp_bind, wp_modify. cbn [app].
  rewrite <- Ex in Hs'. pose proof (popped_recv i' _ _ RECV_STATE_BUSY Ej Hm Hs' ltac:(done)) as Hb2.
  assert (view_of o = view_of (o <| recv := mk_conn_recv (rcv_limit (recv o)) i' (rcv_job (recv o)) (spi_job_operation_data (rcv_iface (recv o)))
    (spi_job_operation_len (rcv_iface (recv o))) RECV_STATE_BUSY |>)) as ->
    by (unfold view_of; rewrite Est; cbn; by rewrite Es1, Es2, Ed, El).
  assert (rcv_job (recv o) ∉ P) as Hnj by (intros Hj; by apply (ho_job _ _ _ _ _ _ _ Hs) in Hj).
  match type of Hb2 with cbase ?s _ _ => apply (connection_recv_ok k s _ _ Hkk Hb2 eq_refl Eerr) end.
  - by intros [? _]%elem_of_difference.
  - cbn [con is_hupd wait_events send set BConnection_eta eta].
    rewrite Hr, Eerr in Hw. destruct Hw as (r & wr & Ew & Hw1 & Hw2 & _). exists r, wr. split; [done |]. split.
    + intros Eh. destruct (Hw1 Eh) as [H1 H2]. split; [| done]. intros Et. by specialize (H2 Et).
    + intros Hp'. by destruct (Hw2 Hp').
Qed.

Lemma job_recv_done k : x = spi_job_done (rcv_iface (recv o)) → runs (conn_job k x).
Proof using Hb Hi Hk Hx Hq Hw Eerr.
  intros Ex. assert (spi_job_done (rcv_iface (recv o)) ∈ P) as Hp by congruence.
  assert (x ∈ half_jobs (rcv_iface (recv o)) (rcv_job (recv o))) as Hm by (rewrite Ex; apply in_done).
  pose proof (half_alive _ _ _ _ _ _ _ x (ci_recv _ _ _ Hb) Hm popped_live) as Hs. cbn [con] in Hs.
  pose proof (pending_done _ _ _ _ _ _ _ Hs Hp) as Hr. rewrite Hr in Hs.
  assert (rcv_state (recv o) = RECV_STATE_READY) as Est by (by destruct (rcv_state (recv o))).
  destruct (half_report _ _ recv_nodup _ _ _ _ Hs Hp) as (i' & h & E & Eh & Ej & Es1 & Es2 & Hs').
  pose proof (side_ne _ _ recv_nodup) as (N1 & N2 & N3). destruct (recv_not_send Hm) as (M1 & M2 & M3).
  unfold conn_job. apply wp_bind, wp_gets. cbn [con]. do 3 (rewrite decide_False by done). rewrite decide_False by congruence.
  rewrite decide_True by done. apply wp_bind. eapply wp_lift; [exact E |].
  apply wp_bind, wp_put_recv, wp_emit. cbn [app].
  rewrite <- Ex in Hs'. pose proof (popped_recv i' (rcv_busy_data (recv o)) (rcv_busy_data_avail (recv o)) RECV_STATE_READY Ej Hm Hs' ltac:(done)) as Hb2.
  split; [| split; [done |]].
  - exists L, (P ∖ {[x]}). split; [rewrite <- Est in Hb2; exact Hb2 |]. cbn. rewrite elem_of_difference, elem_of_singleton.
    assert (rcv_job (recv o) ∈ P ∧ rcv_job (recv o) ≠ x ↔ rcv_job (recv o) ∈ P) as -> by (split; [tauto | intros; split; [done | congruence]]). done.
  - cbn [spec_effects]. unfold view_of. cbn. rewrite Est, Eerr. cbn. rewrite Es1, Es2. by rewrite decide_True.
Qed.

Lemma job_recv_again k : kernel_ok k → (is_hupd o = false → not_ready k (wait_events o)) → x = rcv_job (recv o) → runs (conn_job k x).
Proof using Hb Hi Hk Hx Hq Hw Eerr.
  intros Hkk Hnr Ex. assert (rcv_job (recv o) ∈ P) as Hp by congruence.
  assert (x ∈ half_jobs (rcv_iface (recv o)) (rcv_job (recv o))) as Hm by (rewrite Ex; apply in_job).
  pose proof (half_alive _ _ _ _ _ _ _ x (ci_recv _ _ _ Hb) Hm popped_live) as Hs. cbn [con] in Hs.
  pose proof (ho_job _ _ _ _ _ _ _ Hs Hp) as Hr. rewrite Hr in Hs.
  assert (rcv_state (recv o) = RECV_STATE_BUSY) as Est by (by apply recv_busy).
  pose proof (side_ne _ _ recv_nodup) as (N1 & N2 & N3). destruct (recv_not_send Hm) as (M1 & M2 & M3).
  unfold conn_job. apply wp_bind, wp_gets. cbn [con]. do 3 (rewrite decide_False by done). do 2 (rewrite decide_False by congruence).
  rewrite decide_True by done. unfold connection_recv_job_handler. apply wp_bind, wp_gets. cbn [con]. rewrite Eerr, Est.
  apply wp_bind, wp_assert; [done |]. apply wp_bind, wp_assert; [done |]. cbn [app].
  assert (half_on PhBusy (rcv_iface (recv o)) (rcv_job (recv o)) (rcv_busy_data (recv o)) (rcv_busy_data_avail (recv o)) L (P ∖ {[x]})) as Hs'.
  { rewrite Ex. by apply half_unset_job; [apply recv_nodup |]. }
  pose proof (popped_recv _ _ _ RECV_STATE_BUSY eq_refl Hm Hs' ltac:(done)) as Hb2.
  replace (o <| recv := _ |>) with o in Hb2 by (clear -Est; destruct o as [? ? ? ? ? ? [] ?]; cbn in Est; subst; reflexivity).
  apply (connection_recv_ok k _ _ _ Hkk Hb2 Est Eerr).
  - rewrite elem_of_difference, elem_of_singleton. cbn [con]. intros [_ Hne]. congruence.
  - cbn [con]. rewrite Hr, Eerr in Hw. destruct Hw as (r & wr & Ew & Hw1 & Hw2 & _). exists r, wr. split; [done |]. split.
    + intros Eh. destruct (Hw1 Eh) as [H1 H2]. split; [| done]. destruct (Hnr Eh) as [_ Hr0]. rewrite Ew, (proj2 (evs_bits r wr)) in Hr0. exact Hr0.
    + intros Hp'. by destruct (Hw2 Hp').
Qed.

(** The job of another object. *)
Lemma job_other k h : L !! x = Some h → x ∉ my_jobs o → runs (conn_job k h).
Proof using Hb Hi Hk Hx Hq Hw Eerr.
  intros Eh Hn. assert (h ∉ my_jobs o) as Hh by (intros Hh; pose proof (ci_named _ _ _ Hb x h Eh Hh); congruence).
  unfold conn_job. apply wp_bind, wp_gets. cbn [con].
  rewrite decide_False by (intros ->; apply Hh, in_send, in_op). rewrite decide_False by (intros ->; apply Hh, in_send, in_done).
  rewrite decide_False by (intros ->; apply Hh, in_send, in_job). rewrite decide_False by (intros ->; apply Hh, in_recv, in_op).
  rewrite decide_False by (intros ->; apply Hh, in_recv, in_done). rewrite decide_False by (intros ->; apply Hh, in_recv, in_job).
  apply wp_ret. split; [| done]. eapply cinv_frame; [exact Hb | done | done | done | exact Hq |]. split; [| done].
  intros y Hy. split; [done |]. rewrite elem_of_difference, elem_of_singleton. split; [tauto |]. intros Hp. split; [done |]. by intros ->.
Qed.

Lemma job_runs k h : kernel_ok k → (is_hupd o = false → not_ready k (wait_events o)) → L !! x = Some h → runs (conn_job k h).
Proof using Hb Hi Hk Hx Hq Hw Eerr.
  intros Hkk Hnr Eh. destruct (decide (x ∈ my_jobs o)) as [Hm | Hm]; [| by apply job_other]. pose proof Hm as Hm'. apply elem_of_app in Hm as [Hm | Hm].
  - rewrite <- (half_names _ _ _ _ _ _ _ _ _ (ci_send _ _ _ Hb) Hm Eh). unfold half_jobs in Hm. rewrite !elem_of_cons in Hm.
    destruct Hm as [? | [? | [? | []%not_elem_of_nil]]]; [by apply job_send_operation | by apply job_send_done | by destruct job_send_never].
  - rewrite <- (half_names _ _ _ _ _ _ _ _ _ (ci_recv _ _ _ Hb) Hm Eh). unfold half_jobs in Hm. rewrite !elem_of_cons in Hm.
    destruct Hm as [? | [? | [? | []%not_elem_of_nil]]]; [by apply job_recv_operation | by apply job_recv_done | by apply job_recv_again].
Qed.

End popped.

(** ** The calls of the user *)

Section user.
Context (b : BReactor T G) (o : BConnection) (L : gmap addr nat) (P : gset addr).
Context (Hb : cbase (mk_csys b o) L P).
Context (Hw : wait_ok (is_hupd o) (d_err o) (wait_events o) (send_phase (snd_state (send o))) (recv_phase (rcv_state (recv o))) (rcv_job (recv o) ∈ P)).

(** The user may do [e], and then the connection goes on from there. *)
Definition goes (e : cevent) : Prop :=
  ∃ v, spec_event (view_of o) e = Some v ∧ wp (conn_step e) (λ _, follows (cn_fd o) v) (mk_csys b o).

Lemma off_not_set i job d l x : half PhOff i job d l L P → x ∈ half_jobs i job → x ∉ P.
Proof using Hb.
  intros Hh Hx HP. pose proof (queue_live _ _ _ _ (ci_queue _ _ _ Hb) HP) as [h E]%elem_of_dom. specialize (Hh x Hx). congruence.
Qed.

Lemma goes_send_init : ev_ok (mk_csys b o) ESendInit → goes ESendInit.
Proof using Hb Hw.
  intros [Eerr Est]. cbn [con] in *. pose proof (ci_send _ _ _ Hb) as Hs. cbn [con] in Hs. rewrite Est in Hs, Hw. cbn [send_phase] in Hs, Hw.
  destruct (half_init _ _ (send_nodup _ _ _ _ Hb) _ _ _ send_operation (ci_queue _ _ _ Hb) Hs) as (g1 & g2 & i & L' & E1 & E2 & Hq & Ej & Ei & Hh & HL);
    [by intros x; eapply off_not_set |].
  exists (mk_view DIdle (vw_recv (view_of o)) false). split.
  { cbn [spec_event]. unfold view_of. rewrite Est, Eerr. done. }
  cbn [conn_step]. unfold BConnection_SendAsync_Init. apply wp_bind, wp_gets. cbn [con]. rewrite Eerr, Est.
  apply wp_bind, wp_assert; [done |]. apply wp_bind, wp_assert; [done |]. apply wp_bind. eapply wp_update; [cbn; cbn in E1; rewrite E1; reflexivity |].
  apply wp_bind. eapply wp_update; [unfold with_jobs; cbn; rewrite E2; reflexivity |]. apply wp_modify. cbn [app].
  destruct (cbase_send _ _ _ _ g2 L' P i (snd_busy_data (send o)) (snd_busy_data_len (send o)) SEND_STATE_READY Hb Hq Ej (side_init _ _ HL) (Hh _ _))
    as [Hb2 Hrj]; [apply (ci_sjob _ _ _ Hb) |].
  split; [| split; [done |]].
  - exists L', P. split; [exact Hb2 |]. cbn. destruct Hw as (r & wr & Ew & Hw1 & _ & Hw3). exists r, wr. split; [done |]. split; [| done].
    intros Eh. destruct (Hw1 Eh) as [H1 H2]. split; [| done]. by intros ?%H1.
  - cbn [spec_effects]. unfold view_of. cbn. rewrite Ei, Eerr. done.
Qed.

Lemma goes_recv_init : ev_ok (mk_csys b o) ERecvInit → goes ERecvInit.
Proof using Hb Hw.
  intros [Eerr Est]. cbn [con] in *. pose proof (ci_recv _ _ _ Hb) as Hs. cbn [con] in Hs. rewrite Est in Hs, Hw. cbn [recv_phase] in Hs, Hw.
  destruct (half_init _ _ (recv_nodup _ _ _ _ Hb) _ _ _ recv_operation (ci_queue _ _ _ Hb) Hs) as (g1 & g2 & i & L' & E1 & E2 & Hq & Ej & Ei & Hh & HL);
    [by intros x; eapply off_not_set |].
  exists (mk_view (vw_send (view_of o)) DIdle false). split.
  { cbn [spec_event]. unfold view_of. rewrite Est, Eerr. done. }
  cbn [conn_step]. unfold BConnection_RecvAsync_Init. apply wp_bind, wp_gets. cbn [con]. rewrite Eerr, Est.
  apply wp_bind, wp_assert; [done |]. apply wp_bind, wp_assert; [done |]. apply wp_bind.
  eapply wp_update; [cbn; unfold StreamRecvInterface_Init; cbn in E1; rewrite E1; reflexivity |].
  apply wp_bind. eapply wp_update; [unfold with_jobs; cbn; rewrite E2; reflexivity |]. apply wp_modify. cbn [app].
  pose proof (cbase_recv _ _ _ _ g2 L' P i (rcv_busy_data (recv o)) (rcv_busy_data_avail (recv o)) RECV_STATE_READY Hb Hq Ej (side_init _ _ HL) (Hh _ _) ltac:(done))
    as Hb2.
  split; [| split; [done |]].
  - exists L', P. split; [exact Hb2 |]. cbn. destruct Hw as (r & wr & Ew & Hw1 & Hw2 & _). exists r, wr. split; [done |]. split; [| done].
    intros Eh. destruct (Hw1 Eh) as [H1 H2]. split; [done |]. intros Er. by specialize (H2 Er).
  - cbn [spec_effects]. unfold view_of. cbn. rewrite Ei, Eerr. done.
Qed.

Lemma goes_sender_init h : ev_ok (mk_csys b o) (ESenderInit h) → goes (ESenderInit h).
Proof using Hb Hw.
  intros [Est Hd]. cbn [con] in *. pose proof (ci_send _ _ _ Hb) as Hs. cbn [con] in Hs. rewrite Est in Hs. cbn [send_phase half] in Hs.
  destruct (half_user _ _ (send_nodup _ _ _ _ Hb) _ _ _ _ h Hs Hd) as (i & E & Ej & E1 & E2 & Hh). exists (view_of o). split; [done |].
  cbn [conn_step]. eapply wp_update; [cbn; cbn in E; rewrite E; reflexivity |].
  destruct (cbase_send _ _ _ _ (pending_jobs b) L P i (snd_busy_data (send o)) (snd_busy_data_len (send o)) SEND_STATE_READY Hb (ci_queue _ _ _ Hb) Ej
    (side_refl _ _ _) Hh) as [Hb2 Hrj]; [apply (ci_sjob _ _ _ Hb) |].
  split; [| split; [done |]].
  - exists L, P. split; [rewrite <- Est in Hb2; exact Hb2 | exact Hw].
  - cbn [spec_effects]. unfold view_of. cbn. rewrite Est. cbn. by rewrite E1, E2.
Qed.

Lemma goes_receiver_init h : ev_ok (mk_csys b o) (EReceiverInit h) → goes (EReceiverInit h).
Proof using Hb Hw.
  intros [Est Hd]. cbn [con] in *. pose proof (ci_recv _ _ _ Hb) as Hs. cbn [con] in Hs. rewrite Est in Hs. cbn [recv_phase half] in Hs.
  destruct (half_user _ _ (recv_nodup _ _ _ _ Hb) _ _ _ _ h Hs Hd) as (i & E & Ej & E1 & E2 & Hh). exists (view_of o). split; [done |].
  cbn [conn_step]. eapply wp_update; [cbn; unfold StreamRecvInterface_Receiver_Init; cbn in E; rewrite E; reflexivity |].
  pose proof (cbase_recv _ _ _ _ (pending_jobs b) L P i (rcv_busy_data (recv o)) (rcv_busy_data_avail (recv o)) RECV_STATE_READY Hb (ci_queue _ _ _ Hb) Ej
    (side_refl _ _ _) Hh ltac:(done)) as Hb2.
  split; [| split; [done |]].
  - exists L, P. split; [rewrite <- Est in Hb2; exact Hb2 | exact Hw].
  - cbn [spec_effects]. unfold view_of. cbn. rewrite Est. cbn. by rewrite E1, E2.
Qed.

(** A side whose interface is idle is ready. *)
Lemma idle_ready ph i job d l : half ph i job d l L P → ph ≠ PhOff → spi_state i = STATE_NONE → half_on PhReady i job d l L P ∧ ph = PhReady.
Proof using Type.
  intros Hh Hne Hs. apply half_is_on in Hh; [| done]. assert (ph = PhReady) as -> by (apply (ho_ready _ _ _ _ _ _ _ Hh); congruence). done.
Qed.

Lemma goes_send d l : ev_ok (mk_csys b o) (ESend d l) → goes (ESend d l).
Proof using Hb Hw.
  intros (Eerr & Hon & Hidle & Hset & Hl & Hd). cbn [con] in *.
  destruct (idle_ready _ _ _ _ _ (ci_send _ _ _ Hb)) as [Hs Hr]; cbn [con] in *; [by destruct (snd_state (send o)) | done |].
  assert (snd_state (send o) = SEND_STATE_READY) as Est by (by destruct (snd_state (send o))).
  destruct (half_send _ _ (send_nodup _ _ _ _ Hb) _ _ _ _ _ d l (ci_queue _ _ _ Hb) Hs Hidle Hset Hl Hd) as (g & i & E & Hq & Ej & Hh & E1 & E2 & E3).
  exists (mk_view (DWork d l) (vw_recv (view_of o)) false). split.
  { cbn [spec_event]. unfold view_of. rewrite Est, Eerr. cbn. by rewrite Hidle. }
  cbn [conn_step]. eapply wp_update; [cbn; cbn in E; rewrite E; reflexivity |].
  destruct (cbase_send _ _ _ _ g L _ i (snd_busy_data (send o)) (snd_busy_data_len (send o)) SEND_STATE_READY Hb Hq Ej
    (side_add _ _ _ _ (in_op _ _)) Hh) as [Hb2 Hrj].
  { rewrite elem_of_union, elem_of_singleton. intros [Hj | Hj]; [exact (ci_sjob _ _ _ Hb Hj) |]. by destruct (side_ne _ _ (send_nodup _ _ _ _ Hb)) as (_ & [] & _). }
  split; [| split; [done |]].
  - eexists L, _. split; [rewrite <- Est in Hb2; exact Hb2 |]. cbn. rewrite Hrj. exact Hw.
  - cbn [spec_effects]. unfold view_of. cbn. rewrite Est, Eerr. cbn. by rewrite E1, E2, E3.
Qed.

Lemma goes_recv d l : ev_ok (mk_csys b o) (ERecv d l) → goes (ERecv d l).
Proof using Hb Hw.
  intros (Eerr & Hon & Hidle & Hset & Hl & Hd). cbn [con] in *.
  destruct (idle_ready _ _ _ _ _ (ci_recv _ _ _ Hb)) as [Hs Hr]; cbn [con] in *;
    [pose proof (ci_never _ _ _ Hb) as Hn; cbn [con] in Hn; by destruct (rcv_state (recv o)) | done |].
  assert (rcv_state (recv o) = RECV_STATE_READY) as Est by (by destruct (rcv_state (recv o))).
  destruct (half_send _ _ (recv_nodup _ _ _ _ Hb) _ _ _ _ _ d l (ci_queue _ _ _ Hb) Hs Hidle Hset Hl Hd) as (g & i & E & Hq & Ej & Hh & E1 & E2 & E3).
  exists (mk_view (vw_send (view_of o)) (DWork d l) false). split.
  { cbn [spec_event]. unfold view_of. rewrite Est, Eerr. cbn. by rewrite Hidle. }
  cbn [conn_step]. eapply wp_update; [cbn; unfold StreamRecvInterface_Receiver_Recv; cbn in E; rewrite E; reflexivity |].
  pose proof (cbase_recv _ _ _ _ g L _ i (rcv_busy_data (recv o)) (rcv_busy_data_avail (recv o)) RECV_STATE_READY Hb Hq Ej
    (side_add _ _ _ _ (in_op _ _)) Hh ltac:(done)) as Hb2.
  split; [| split; [done |]].
  - eexists L, _. split; [rewrite <- Est in Hb2; exact Hb2 |]. cbn.
    assert (rcv_job (recv o) ∈ P ∪ {[spi_job_operation (rcv_iface (recv o))]} ↔ rcv_job (recv o) ∈ P) as ->; [| exact Hw].
    rewrite elem_of_union, elem_of_singleton. split; [| tauto]. intros [? | Hj]; [done |]. by destruct (side_ne _ _ (recv_nodup _ _ _ _ Hb)) as (_ & [] & _).
  - cbn [spec_effects]. unfold view_of. cbn. rewrite Est, Eerr. cbn. by rewrite E1, E2, E3.
Qed.


(** A direction is no longer waited for. *)
Definition cleared (ev : Z) : Z := if is_hupd o then wait_events o else Z.land (wait_events o) (Z.lnot ev).

Lemma wp_clear k ev (Q : unit → csys T G → list ceffect → Prop) : k_mod k = true → 0 ≤ Z.land (wait_events o) (Z.lnot ev) ≤ 3 →
  (∀ b', own b' (cn_bfd o) (is_hupd o) (cleared ev) (snd_limit (send o)) (rcv_limit (recv o)) → pending_jobs b' = pending_jobs b →
    Q () (mk_csys b' (o <| wait_events := cleared ev |>)) []) →
  wp (when (negb (is_hupd o))
    (con_set (λ o, o <| wait_events := Z.land (wait_events o) (Z.lnot ev) |>);;
     o ← gets con;
     con_bsys (λ b, BReactor_SetFileDescriptorEvents b (cn_bfd o) (wait_events o) (k_mod k)))) Q (mk_csys b o).
Proof using Hb Hw.
  intros Hkm Hev HQ. pose proof (ci_own _ _ _ Hb) as Ho. cbn [con bsys] in Ho. unfold cleared in HQ. apply wp_when; intros E;
    [apply (proj1 (negb_true_iff _)) in E | apply (proj1 (negb_false_iff _)) in E]; rewrite E in Ho, HQ.
  - apply wp_bind, wp_modify. apply wp_bind, wp_gets.
    exact (wp_set_events k b (o <| wait_events := Z.land (wait_events o) (Z.lnot ev) |>) (cn_bfd o) (wait_events o) _ _ _ Q Ho Hev Hkm HQ).
  - specialize (HQ b Ho eq_refl). replace (o <| wait_events := wait_events o |>) with o in HQ by (by destruct o). exact HQ.
Qed.

Lemma goes_send_free k : ev_ok (mk_csys b o) (ESendFree k) → goes (ESendFree k).
Proof using Hb Hw.
  intros [Hon Hkm]. cbn [con] in *. pose proof (half_is_on _ _ _ _ _ _ _ (ci_send _ _ _ Hb)) as Hs. cbn [con] in Hs. specialize (Hs ltac:(by destruct (snd_state (send o)))).
  destruct Hw as (r & wr & Ew & Hw1 & _ & Hw3).
  exists (mk_view DOff (vw_recv (view_of o)) (d_err o)). split; [done |]. cbn [conn_step]. unfold BConnection_SendAsync_Free. apply wp_bind, wp_gets. cbn [con].
  apply wp_bind, wp_assert; [by destruct (snd_state (send o)) |]. apply wp_bind.
  apply wp_clear; [done | rewrite Ew, evs_no_write; apply evs_range |]. intros b1 Ho1 Ej1.
  assert (cbase (mk_csys b1 (o <| wait_events := cleared BREACTOR_WRITE |>)) L P) as Hb1 by (eapply cbase_bsys; [exact Hb | done | done]).
  destruct (half_free _ _ (send_nodup _ _ _ _ Hb) _ _ _ _ _ _ (ci_queue _ _ _ Hb1) Hs) as (g1 & g2 & L' & P' & E1 & E2 & Hq & HL & HP).
  apply wp_bind. eapply wp_update; [unfold with_jobs; cbn; cbn in E1; rewrite E1; reflexivity |].
  apply wp_bind. eapply wp_update; [unfold with_jobs; cbn; rewrite E2; reflexivity |]. apply wp_modify. cbn [app].
  destruct (cbase_send _ _ _ _ g2 L' P' (snd_iface (send o)) (snd_busy_data (send o)) (snd_busy_data_len (send o)) SEND_STATE_NOT_INITED Hb1 Hq eq_refl
    (side_free _ _ _ HL HP)) as [Hb2 Hrj].
  { intros x Hx. by rewrite HL, decide_True. }
  { rewrite HP. intros [_ []]. apply in_job. }
  split; [| done]. exists L', P'. split; [exact Hb2 |].
  change (wait_ok (is_hupd o) (d_err o) (cleared BREACTOR_WRITE) PhOff (recv_phase (rcv_state (recv o))) (rcv_job (recv o) ∈ P')).
  change (rcv_job (recv (o <| wait_events := cleared BREACTOR_WRITE |>))) with (rcv_job (recv o)) in Hrj. rewrite Hrj. unfold cleared.
  destruct (is_hupd o) eqn:Eh; [exists r, wr; rewrite Ew; split; [done |]; split; [done |]; by split |].
  rewrite Ew, evs_no_write. exists r, false. split; [done |]. destruct (Hw1 eq_refl) as [_ H2]. by split.
Qed.

Lemma goes_recv_free k : ev_ok (mk_csys b o) (ERecvFree k) → goes (ERecvFree k).
Proof using Hb Hw.
  intros [Hon Hkm]. cbn [con] in *. pose proof (ci_never _ _ _ Hb) as Hn. cbn [con] in Hn.
  pose proof (half_is_on _ _ _ _ _ _ _ (ci_recv _ _ _ Hb)) as Hs. cbn [con] in Hs. specialize (Hs ltac:(by destruct (rcv_state (recv o)))).
  destruct Hw as (r & wr & Ew & Hw1 & Hw2 & _).
  exists (mk_view (vw_send (view_of o)) DOff (d_err o)). split; [done |]. cbn [conn_step]. unfold BConnection_RecvAsync_Free. apply wp_bind, wp_gets. cbn [con].
  apply wp_bind, wp_assert; [by destruct (rcv_state (recv o)) |]. apply wp_bind.
  apply wp_clear; [done | rewrite Ew, evs_no_read; apply evs_range |]. intros b1 Ho1 Ej1.
  assert (cbase (mk_csys b1 (o <| wait_events := cleared BREACTOR_READ |>)) L P) as Hb1 by (eapply cbase_bsys; [exact Hb | done | done]).
  destruct (half_free _ _ (recv_nodup _ _ _ _ Hb) _ _ _ _ _ _ (ci_queue _ _ _ Hb1) Hs) as (g1 & g2 & L' & P' & E1 & E2 & Hq & HL & HP).
  apply wp_bind. eapply wp_update; [unfold with_jobs; cbn; cbn in E1; rewrite E1; reflexivity |].
  apply wp_bind. eapply wp_update; [unfold with_jobs; cbn; unfold StreamRecvInterface_Free; rewrite E2; reflexivity |]. apply wp_modify. cbn [app].
  pose proof (cbase_recv _ _ _ _ g2 L' P' (rcv_iface (recv o)) (rcv_busy_data (recv o)) (rcv_busy_data_avail (recv o)) RECV_STATE_NOT_INITED Hb1 Hq eq_refl
    (side_free _ _ _ HL HP) ltac:(intros x Hx; by rewrite HL, decide_True) ltac:(done)) as Hb2.
  split; [| done]. exists L', P'. split; [exact Hb2 |].
  change (wait_ok (is_hupd o) (d_err o) (cleared BREACTOR_READ) (send_phase (snd_state (send o))) PhOff (rcv_job (recv o) ∈ P')). unfold cleared.
  destruct (is_hupd o) eqn:Eh; [exists r, wr; rewrite Ew; split; [done |]; split; [done |]; by split |].
  rewrite Ew, evs_no_read. exists false, wr. split; [done |]. destruct (Hw1 eq_refl) as [H1 _]. by split.
Qed.

Lemma goes_other c : ev_ok (mk_csys b o) (EOther c) → goes (EOther c).
Proof using Hb Hw.
  intros [Hc Hf]. cbn [con bsys] in *. destruct (rstep_ok b c (ow_inv _ _ _ _ _ _ (ci_own _ _ _ Hb)) Hc) as (b' & E & Hi').
  destruct (foreign_keeps _ _ _ _ _ _ _ _ _ Hf E (ci_queue _ _ _ Hb)) as (Hk & L' & P' & Hq & Hkept).
  exists (view_of o). split; [done |]. cbn [conn_step]. eapply wp_update; [cbn; rewrite E; reflexivity |].
  split; [| done]. eapply cinv_frame; [exact Hb | exact Hw | done | exact Hk | exact Hq | exact Hkept].
Qed.

Lemma goes_turn k now ws : ev_ok (mk_csys b o) (ETurn k now ws) → goes (ETurn k now ws).
Proof using Hb Hw.
  intros (Eerr & Hk & Hturn & Hnr). cbn [con bsys] in *. pose proof (ow_inv _ _ _ _ _ _ (ci_own _ _ _ Hb)) as Hi. cbn [bsys] in Hi.
  destruct (iteration_spec b (mk_turn now ws []) Hi Hturn) as (r & E & Hr). cbn [tn_now tn_waits] in E.
  exists (view_of o). split; [done |]. cbn [conn_step]. apply wp_bind. destruct r as [[b' d] |].
  2: { eapply wp_ask; [cbn [bsys]; rewrite E; reflexivity |]. cbn [app]. apply wp_bind, wp_gets, wp_ret. split; [by exists L, P | done]. }
  destruct (Hr b' d eq_refl) as [Hi' _].
  destruct (iteration_keeps (cn_bfd o) (snd_limit (send o)) (rcv_limit (recv o)) b (mk_turn now ws []) b' d L P Hi Hturn (ci_queue _ _ _ Hb) E) as [Hkp Hjobs].
  specialize (Hnr d (mk_csys b' o) []). unfold loop_turn, ask in Hnr. cbn [bsys] in Hnr. rewrite E in Hnr. specialize (Hnr eq_refl).
  eapply wp_ask; [cbn [bsys]; rewrite E; reflexivity |]. cbn [app set csys_eta eta bsys con].
  assert (pending_jobs b' = pending_jobs b → cinv (mk_csys b' o)) as Hsame.
  { intros Ej. eapply cinv_frame; [exact Hb | exact Hw | done | exact Hkp | rewrite Ej; exact (ci_queue _ _ _ Hb) | apply jobs_kept_refl]. }
  unfold conn_dispatch. apply wp_bind, wp_gets. cbn [con app]. destruct d as [h | x h | x h events | |]; cbn [iteration_jobs] in Hjobs.
  - destruct Hjobs as (x & Hx & Hh & Hq). apply (job_runs b b' o L P x Hb Hi' Hkp Hx Hq Hw Eerr k h); [done | | done].
    intros Eh. unfold still_waited in Hnr. by rewrite Eh in Hnr.
  - apply wp_ret. split; [by apply Hsame | done].
  - destruct Hjobs as (HP & Ej & f & e & Hf & Ha & ->). apply wp_when; intros Ex; b2p; [| split; [by apply Hsame | done]].
    destruct (ci_own _ _ _ Hb) as [_ (f' & Hf' & Ha' & Hwe) _ _]. cbn [con bsys] in *. rewrite <- Ex, Hf in Hf'. injection Hf' as <-.
    rewrite Ha in Ha'. assert (is_hupd o = false) as Eh by (by destruct (is_hupd o)). rewrite (Hwe Eh) in *.
    assert (P = ∅) as -> by done. apply (fd_handler_ok k b' o L); [done | | done | done | | by rewrite Eh, Eerr in Hw].
    + pose proof (cbase_before _ _ _ _ _ Hb Hi' Hkp) as Hb'. rewrite <- Ej in Hb'. by destruct b'.
    + intros h'. by rewrite <- Ex.
  - apply wp_ret. split; [by apply Hsame | done].
  - apply wp_ret. split; [by apply Hsame | done].
Qed.

Lemma goes_any e : ev_ok (mk_csys b o) e → goes e.
Proof using Hb Hw.
  destruct e; [apply goes_send_init | apply goes_sender_init | apply goes_send | apply goes_send_free | apply goes_recv_init | apply goes_receiver_init |
    apply goes_recv | apply goes_recv_free | apply goes_turn | apply goes_other].
Qed.

End user.

(** Every run is defined, keeps the invariant and follows the protocol. *)
Lemma conn_run_ok es : ∀ s : csys T G, cinv s → evs_ok s es →
  ∃ s' tr, conn_run s es = Some (s', tr) ∧ cinv s' ∧ cn_fd (con s') = cn_fd (con s) ∧
    spec_trace (cn_fd (con s)) (view_of (con s)) tr = Some (view_of (con s')).
Proof using Type.
  induction es as [| e es IH]; intros s Hc Hok; [by exists s, [] |]. destruct Hok as [He Hok]. destruct s as [b o]. pose proof Hc as (L & P & Hb & Hw).
  destruct (goes_any b o L P Hb Hw e He) as (v & Ev & Hwp). apply wp_inv in Hwp as ([] & s1 & xs & E & Hi1 & Efd & Exs).
  rewrite E in Hok. destruct (IH s1 Hi1 Hok) as (s' & tr & Er & Hi' & Efd' & Etr). exists s', ((e, xs) :: tr).
  cbn [conn_run spec_trace con]. rewrite E, Er, option_bind_Some, Ev, option_bind_Some, Exs, option_bind_Some.
  split; [done |]. split; [done |]. split; [congruence |]. by rewrite Efd in Etr.
Qed.

End laws.
