(* ===== verification/ConnectionSetup.v ===== *)
(** * Making and releasing sockets

    What the functions of BConnection.v that make sockets do on every answer of the
    system calls: a [BConnector] or [BListener] that fails to initialise has released
    what it took, one that succeeds holds exactly its socket, its job and its file
    descriptor; a [BConnection] starts in its invariant (ConnectionRun.v), and its
    socket is closed once. *)
From S2P Require Import Prelude LinkedLists BPending FlowInterfaces SearchTree BAVL CAvl BReactor BAddr BConnection ReactorFrame ReactorCalls ConnectionRun ConnectionLaws.

(** The descriptors that were made, and closed; the strings that were copied, and
    freed. *)
Definition opens (xs : list ceffect) : list Z :=
  omap (λ x, match x with XSocket _ fd | XAccept _ fd => if fd <? 0 then None else Some fd | _ => None end) xs.
Definition closes (xs : list ceffect) : list Z := omap (λ x, match x with XClose fd => Some fd | _ => None end) xs.
Definition copies (xs : list ceffect) : list bytes := omap (λ x, match x with XStrdup p => Some p | _ => None end) xs.
Definition frees (xs : list ceffect) : list bytes := omap (λ x, match x with XFreePath p => Some p | _ => None end) xs.

Section setup.
Context {T G : Type} `{OrderedTree T} `{JobQueue G}.
Implicit Types (b : BReactor T G) (L : gmap addr nat) (P : gset addr).

(** ** Connectors *)

(** What a connector that was initialised holds. *)
Definition connector_holds (o : BConnector) b L P : Prop :=
  (ct_connected o = true ∧ ct_have_bfd o = false ∧ queue (pending_jobs b) (<[ct_job o := ct_job o]> L) (P ∪ {[ct_job o]})) ∨
  (ct_connected o = false ∧ ct_have_bfd o = true ∧ queue (pending_jobs b) (<[ct_job o := ct_job o]> L) P ∧
    fds b !! ct_bfd o = Some (mk_BFileDescriptor (ct_fd o) connector_fd true BREACTOR_WRITE None)).

(** A connector that failed has nothing. *)
Definition connector_failed b L P x b' xs : Prop := rinv b' ∧ queue (pending_jobs b') L P ∧ closes xs = opens xs ∧ idle_fd b' x.

Lemma connector_fail1 b L P o r (Q : BConnector * bool → BReactor T G → list ceffect → Prop) : rinv b → queue (pending_jobs b) (<[ct_job o := ct_job o]> L) P →
  L !! ct_job o = None → P ⊆ dom L → (∀ b', rinv b' → queue (pending_jobs b') L P → fds b' = fds b → Q (r, false) b' []) →
  wp (upd (with_jobs (λ g, job_free g (ct_job o)));; mret (r, false)) Q b.
Proof using Type.
  intros Hi Hq Ho Hs HQ. apply wp_bind. eapply wp_job_free; [done | exact Hq | apply elem_of_dom; by rewrite lookup_insert, decide_True |].
  intros g Hi' Hq'. destruct (delete_fresh L P (ct_job o) Ho Hs) as [E1 E2]. rewrite E1, E2 in Hq'. apply wp_ret. by apply HQ.
Qed.

Lemma connector_init_ok b L P o from a : rinv b → queue (pending_jobs b) L P → L !! ct_job o = None → idle_fd b (ct_bfd o) → ca_mod a = true →
  wp (BConnector_InitFrom o from a) (λ r b' xs,
    if r.2 then ∃ addr, from_sockaddr from = Some (Some addr) ∧ rinv b' ∧ connector_holds r.1 b' L P ∧ ct_fd r.1 = ca_socket a ∧ 0 ≤ ct_fd r.1 ∧
      ct_job r.1 = ct_job o ∧ ct_bfd r.1 = ct_bfd o ∧ xs = [XSocket (any_family addr) (ct_fd r.1); XConnect (ct_fd r.1) addr]
    else connector_failed b L P (ct_bfd o) b' xs) b.
Proof using Type.
  intros Hi Hq Ho Hfd Hmod. unfold BConnector_InitFrom. apply wp_bind.
  assert (∃ x, from_sockaddr from = Some x) as [x Ex].
  { destruct from as [addr | path]; cbn; [| by eexists]. destruct addr; cbn; by eexists. }
  eapply wp_lift; [exact Ex |]. destruct x as [addr |]; [| apply wp_ret; done].
  pose proof (queue_sub _ _ _ Hq) as Hs. apply wp_bind. eapply wp_job_init; [done | exact Hq | done |]. intros g Hi1 Hq1. cbv zeta. cbn [app].
  apply wp_bind, wp_emit. cbn [ct_fd set BConnector_eta eta ct_job].
  destruct (ca_socket a <? 0) eqn:Esock.
  { eapply connector_fail1; [done | exact Hq1 | done | done |]. intros b' Hi' Hq' Ef. do 2 (split; [done |]). cbn. rewrite Esock. split; [done |].
    unfold idle_fd. by rewrite Ef. }
  apply wp_if; intros Enb; b2p.
  { apply wp_bind, wp_emit. eapply connector_fail1; [done | exact Hq1 | done | done |]. intros b' Hi' Hq' Ef. do 2 (split; [done |]). cbn.
    destruct (ca_socket a <? 0) eqn:E; b2p; [lia |]. split; [done |]. unfold idle_fd. by rewrite Ef. }
  apply wp_bind, wp_emit. destruct (ca_connect a).
  - apply wp_bind. eapply wp_job_set; [done | exact Hq1 | cbn; apply elem_of_dom; by rewrite lookup_insert, decide_True |]. intros g2 Hi2 Hq2. apply wp_ret.
    exists addr. cbn. do 2 (split; [done |]). split; [by left |]. done.
  - apply wp_bind. eapply wp_fd_init; [done | exact Hfd |]. intros b2 Hi2 Hx2 Hy2 Ej2 El2 Er2. apply wp_bind.
    eapply wp_fd_add; [done | exact Hx2 | done | |]; intros Eadd.
    + cbn [negb app]. apply wp_bind, wp_emit. eapply connector_fail1; [done | rewrite Ej2; exact Hq1 | done | done |]. intros b' Hi' Hq' Ef.
      do 2 (split; [done |]). cbn. destruct (ca_socket a <? 0) eqn:E; b2p; [lia |]. split; [done |]. unfold idle_fd. cbn in Hx2. by rewrite Ef, Hx2.
    + intros b3 Hi3 Hx3 Ej3 El3 Er3. cbn [negb app]. rewrite Hmod. apply wp_bind. eapply wp_fd_events; [done | exact Hx3 | done | done |].
      intros b4 Hi4 Hx4 Ej4. apply wp_ret. exists addr. cbn. do 2 (split; [done |]). split; [| done]. right. do 2 (split; [done |]).
      rewrite Ej4, Ej3, Ej2. done.
  - apply wp_bind, wp_emit. eapply connector_fail1; [done | exact Hq1 | done | done |]. intros b' Hi' Hq' Ef. do 2 (split; [done |]). cbn.
    destruct (ca_socket a <? 0) eqn:E; b2p; [lia |]. split; [done |]. unfold idle_fd. by rewrite Ef.
Qed.

(** The socket of a connector that waits was reported. *)
Lemma connector_handler_ok b L P o k so : rinv b → queue (pending_jobs b) (<[ct_job o := ct_job o]> L) P → L !! ct_job o = None → P ⊆ dom L →
  0 ≤ ct_fd o → ct_connected o = false → ct_have_bfd o = true → active <$> fds b !! ct_bfd o = Some true → k_del k = true →
  wp (connector_fd_handler o k so) (λ o' b' xs, xs = [XConnected (negb (bool_decide (so = Some 0)))] ∧ ct_fd o' = ct_fd o ∧ rinv b' ∧ idle_fd b' (ct_bfd o) ∧
    ct_connected o' = bool_decide (so = Some 0) ∧ ct_have_bfd o' = false ∧ ct_job o' ∈ dom (<[ct_job o := ct_job o]> L) ∧ ct_job o' ∉ P) b.
Proof using Type.
  intros Hi Hq Ho Hs Hfd Ec Eb Ha Hk. unfold connector_fd_handler. apply wp_bind, wp_assert; [by apply Z.leb_le |].
  apply wp_bind, wp_assert; [by rewrite Ec |]. apply wp_bind, wp_assert; [done |]. apply wp_bind. rewrite Hk.
  destruct (remove_fd_spec b (ct_bfd o) Hi Ha) as (b' & E & Hi' & Ha' & _). eapply wp_update; [exact E |]. cbv zeta. apply wp_bind, wp_emit, wp_ret.
  assert (ct_job o ∉ P) as Hn by (intros [? ?]%Hs%elem_of_dom; congruence).
  assert (ct_job o ∈ dom (<[ct_job o := ct_job o]> L)) as Hd by (apply elem_of_dom; by rewrite lookup_insert, decide_True).
  assert (idle_fd b' (ct_bfd o)) as Hid by (unfold idle_fd; by rewrite Ha').
  case_bool_decide; cbn; rewrite ?Ec; done.
Qed.

(** Its socket is closed unless a connection has taken it. *)
Lemma connector_free_ok b L P o k : rinv b → queue (pending_jobs b) L P → ct_job o ∈ dom L → k_del k = true →
  (if ct_have_bfd o then active <$> fds b !! ct_bfd o = Some true else idle_fd b (ct_bfd o)) →
  wp (BConnector_Free o k) (λ _ b' xs, closes xs = (if ct_fd o =? -1 then [] else [ct_fd o]) ∧ rinv b' ∧ idle_fd b' (ct_bfd o) ∧
    queue (pending_jobs b') (delete (ct_job o) L) (P ∖ {[ct_job o]})) b.
Proof using Type.
  intros Hi Hq Hj Hk Ha. unfold BConnector_Free. apply wp_bind.
  assert (∀ b', rinv b' → queue (pending_jobs b') L P → idle_fd b' (ct_bfd o) →
    wp (when (negb (ct_fd o =? -1)) (emit (XClose (ct_fd o)));; upd (with_jobs (λ g, job_free g (ct_job o)))) (λ _ b' xs,
      closes xs = (if ct_fd o =? -1 then [] else [ct_fd o]) ∧ rinv b' ∧ idle_fd b' (ct_bfd o) ∧ queue (pending_jobs b') (delete (ct_job o) L) (P ∖ {[ct_job o]})) b') as Hend.
  { intros b' Hi' Hq' Hid. apply wp_bind. destruct (ct_fd o =? -1); apply wp_when; try done; intros _; [| apply wp_emit];
      (eapply wp_job_free; [done | exact Hq' | done |]); by intros g Hi2 Hq2. }
  rewrite Hk. destruct (ct_have_bfd o); apply wp_when; try done; intros _; [| by apply Hend].
  destruct (remove_fd_spec b (ct_bfd o) Hi Ha) as (b' & E & Hi' & Ha' & _). eapply wp_update; [exact E |].
  apply Hend; [done | | unfold idle_fd; by rewrite Ha']. unfold BReactor_RemoveFileDescriptor in E. open_call E; done.
Qed.

(** ** Listeners *)

Definition from_path (from : BLisCon_from) : option bytes := match from with BLISCON_FROM_UNIX p => Some p | BLISCON_FROM_ADDR _ => None end.

Definition listener_holds (o : BListener) b L P : Prop :=
  rinv b ∧ queue (pending_jobs b) (<[li_default_job o := li_default_job o]> L) P ∧
  fds b !! li_bfd o = Some (mk_BFileDescriptor (li_fd o) listener_fd true BREACTOR_READ None).

Definition listener_failed b' L P x xs : Prop :=
  rinv b' ∧ queue (pending_jobs b') L P ∧ idle_fd b' x ∧ closes xs = opens xs ∧ frees xs = copies xs.

(** The end of an initialisation that fails. *)
Ltac listener_fails Esock :=
  repeat first [apply wp_bind, wp_emit | apply wp_bind, wp_ret]; apply wp_ret; cbn [snd app]; unfold listener_failed;
  (do 3 (split; [done |])); cbn; rewrite ?Esock; done.

Lemma listener_init_ok b L P o from a : rinv b → queue (pending_jobs b) L P → L !! li_default_job o = None → idle_fd b (li_bfd o) → la_mod a = true →
  wp (BListener_InitFrom o from a) (λ r b' xs,
    if r.2 then listener_holds r.1 b' L P ∧ li_unix_socket_path r.1 = from_path from ∧ li_default_job r.1 = li_default_job o ∧ li_bfd r.1 = li_bfd o ∧
      0 ≤ li_fd r.1 ∧ opens xs = [li_fd r.1] ∧ closes xs = [] ∧ copies xs = option_list (from_path from) ∧ frees xs = []
    else listener_failed b' L P (li_bfd o) xs) b.
Proof using Type.
  intros Hi Hq Ho Hfd Hmod. unfold BListener_InitFrom. change (match from with BLISCON_FROM_UNIX p => Some p | _ => None end) with (from_path from).
  apply wp_if; intros Edup; [apply wp_ret; done |]. clear Edup. apply wp_bind. cbv zeta.
  assert (∀ Q : unit → BReactor T G → list ceffect → Prop, (∀ ys, ys = XStrdup <$> option_list (from_path from) → Q () b ys) →
    wp (match from_path from with Some p => emit (XStrdup p) | None => mret () end) Q b) as Hdup
    by (intros Q HQ; destruct (from_path from); [apply wp_emit | apply wp_ret]; by apply HQ).
  apply Hdup. intros ys ->. clear Hdup. apply wp_bind.
  assert (∃ x, from_sockaddr from = Some x) as [x Ex].
  { destruct from as [addr | path]; cbn; [| by eexists]. destruct addr; cbn; by eexists. }
  eapply wp_lift; [exact Ex |]. destruct x as [addr |]; [| destruct from; listener_fails Ex].
  apply wp_bind, wp_emit. cbn [li_fd set BListener_eta eta].
  destruct (la_socket a <? 0) eqn:Esock; [destruct from; listener_fails Esock |].
  apply wp_if; intros Enb; [destruct from; listener_fails Esock |]. apply wp_bind.
  assert (∀ Q : bool → BReactor T G → list ceffect → Prop, (∀ u ys, ys = XUnlink <$> option_list (from_path from) → Q u b ys) →
    wp (match from_path from with Some p => emit (XUnlink p);; mret (match la_unlink a with UnlinkFail => false | _ => true end) | None => mret true end) Q b) as Hunl
    by (intros Q HQ; destruct (from_path from); [apply wp_bind, wp_emit, wp_ret | apply wp_ret]; by apply HQ).
  apply Hunl. intros u ys ->. clear Hunl. apply wp_if; intros Eu; [destruct from; listener_fails Esock |].
  apply wp_bind, wp_emit. apply wp_if; intros Ebind; [destruct from; listener_fails Esock |].
  apply wp_bind, wp_emit. apply wp_if; intros Elis; [destruct from; listener_fails Esock |].
  apply wp_bind. eapply wp_fd_init; [done | exact Hfd |]. intros b2 Hi2 Hx2 Hy2 Ej2 El2 Er2. cbn [li_bfd li_fd] in Hx2. apply wp_bind.
  eapply wp_fd_add; [done | exact Hx2 | done | |]; intros Eadd.
  - cbn [negb]. rewrite <- Ej2 in Hq. assert (idle_fd b2 (li_bfd o)) as Hfd2 by (unfold idle_fd; by rewrite Hx2). destruct from; listener_fails Esock.
  - intros b3 Hi3 Hx3 Ej3 El3 Er3. cbn [negb]. rewrite Hmod. apply wp_bind. eapply wp_fd_events; [done | exact Hx3 | done | done |].
    intros b4 Hi4 Hx4 Ej4. apply wp_bind. rewrite <- Ej2, <- Ej3, <- Ej4 in Hq. eapply wp_job_init; [done | exact Hq | exact Ho |]. intros g Hi5 Hq5. apply wp_ret.
    cbn [snd fst]. split; [by split |]. do 3 (split; [done |]). cbn. apply Z.ltb_ge in Esock as Hpos. split; [done |]. destruct from; cbn; rewrite ?Esock; done.
Qed.

Lemma listener_free_ok b L P o k : listener_holds o b L P → L !! li_default_job o = None → P ⊆ dom L → k_del k = true →
  wp (BListener_Free o k) (λ _ b' xs, rinv b' ∧ queue (pending_jobs b') L P ∧ idle_fd b' (li_bfd o) ∧ closes xs = [li_fd o] ∧
    frees xs = option_list (li_unix_socket_path o)) b.
Proof using Type.
  intros (Hi & Hq & Hf) Ho Hs Hk. unfold BListener_Free. apply wp_bind. eapply wp_job_free; [done | exact Hq | apply elem_of_dom; by rewrite lookup_insert, decide_True |].
  intros g Hi1 Hq1. destruct (delete_fresh L P (li_default_job o) Ho Hs) as [E1 E2]. rewrite E1, E2 in Hq1. apply wp_bind. rewrite Hk.
  destruct (remove_fd_spec _ (li_bfd o) Hi1) as (b' & E & Hi' & Ha' & _); [cbn; by rewrite Hf |]. eapply wp_update; [exact E |].
  assert (pending_jobs b' = g) as Ej by (unfold BReactor_RemoveFileDescriptor in E; open_call E; done).
  apply wp_bind, wp_emit. assert (idle_fd b' (li_bfd o)) as Hid by (unfold idle_fd; by rewrite Ha'). rewrite <- Ej in Hq1.
  destruct (li_unix_socket_path o); [apply wp_bind, wp_emit, wp_emit | apply wp_bind, wp_ret, wp_ret]; done.
Qed.

(** ** Connections *)

(** The descriptor that a source gives, and whether it is the connection's to close. *)
Definition source_fd (src : BConnection_source) (a : init_answers) : option (Z * bool) :=
  match src with
  | SOURCE_LISTENER _ _ => if (ia_accept a).1 <? 0 then None else Some ((ia_accept a).1, true)
  | SOURCE_CONNECTOR c => Some (ct_fd c, true)
  | SOURCE_PIPE fd close_it => Some (fd, close_it)
  end.
Definition closing (f : option (Z * bool)) : list Z := match f with Some (fd, true) => [fd] | _ => [] end.

(** When a source may be used: a listener that has reported a connection, a connector
    that has reported success, a descriptor. *)
Definition source_ok L P (src : BConnection_source) (a : init_answers) : Prop :=
  match src with
  | SOURCE_LISTENER l _ => li_default_job l ∈ P ∧ is_Some (addr_sys_to_socket (ia_accept a).2)
  | SOURCE_CONNECTOR c => 0 ≤ ct_fd c ∧ ct_connected c = true ∧ ct_have_bfd c = false ∧ ct_job c ∈ dom L ∧ ct_job c ∉ P
  | SOURCE_PIPE fd _ => 0 ≤ fd
  end.

(** The source afterwards. *)
Definition source_left (src : BConnection_source) : BConnection_source :=
  match src with SOURCE_CONNECTOR c => SOURCE_CONNECTOR (c <| ct_fd := -1 |>) | _ => src end.
Definition source_jobs (src : BConnection_source) P : gset addr :=
  match src with SOURCE_LISTENER l _ => P ∖ {[li_default_job l]} | _ => P end.

Lemma take_source_ok b L P src a : rinv b → queue (pending_jobs b) L P → source_ok L P src a →
  wp (take_source src a) (λ r b' xs, r.1.2 = source_left src ∧ (∃ g, b' = b <| pending_jobs := g |> ∧ queue g L (source_jobs src P)) ∧ rinv b' ∧
    ((r.1.1 = source_fd src a ∧ closes xs = []) ∨ (r.1.1 = None ∧ closes xs = closing (source_fd src a)))) b.
Proof using Type.
  intros Hi Hq Hsrc. destruct src as [l out | c | fd ci]; cbn [take_source source_ok source_left source_jobs source_fd] in *.
  - destruct Hsrc as [Hl [peer Hp]]. assert (li_default_job l ∈ dom L) as Hd by (by eapply queue_live). apply wp_bind, wp_get, wp_bind.
    eapply wp_lift; [by apply (job_is_set_ok _ _ _ _ Hq) |]. apply wp_bind, wp_assert; [by apply bool_decide_eq_true |]. apply wp_bind.
    eapply wp_job_unset; [done | exact Hq | done |]. intros g Hi' Hq'. destruct (ia_accept a) as [fd sa]. cbn [fst snd] in *. apply wp_bind, wp_emit.
    apply wp_if; intros E1; [rewrite ?E1; apply wp_ret; cbn; split; [done |]; split; [by exists g |]; split; [done |]; by left |].
    rewrite ?E1. apply wp_if; intros E2.
    + apply wp_bind, wp_emit, wp_ret. cbn. split; [done |]. split; [by exists g |]. split; [done |]. by right.
    + apply wp_bind. assert (∀ Q : option BAddr → BReactor T G → list ceffect → Prop, (∀ pr, Q pr (b <| pending_jobs := g |>) []) →
        wp (if (out : bool) then p ← lift (addr_sys_to_socket sa); mret (Some p) else mret None) Q (b <| pending_jobs := g |>)) as Hpeer.
      { intros Q HQ. destruct out; [apply wp_bind; eapply wp_lift; [exact Hp |] |]; apply wp_ret; by apply HQ. }
      apply Hpeer. intros pr. apply wp_ret. cbn. split; [done |]. split; [by exists g |]. split; [done |]. by left.
  - destruct Hsrc as (H1 & H2 & H3 & H4 & H5). apply wp_bind, wp_get. apply wp_bind, wp_assert; [by apply Z.leb_le |]. apply wp_bind, wp_assert; [done |].
    apply wp_bind, wp_assert; [by rewrite H3 |]. apply wp_bind. eapply wp_lift; [by apply (job_is_set_ok _ _ _ _ Hq) |].
    apply wp_bind, wp_assert; [by rewrite bool_decide_false |]. apply wp_ret. cbn. split; [done |]. split; [exists (pending_jobs b); by destruct b |]. split; [done |]. by left.
  - apply wp_bind, wp_assert; [by apply Z.leb_le |]. assert (∃ g, b = b <| pending_jobs := g |> ∧ queue g L P) as Hg by (exists (pending_jobs b); by destruct b).
    apply wp_if; intros E.
    + apply wp_bind. destruct ci; [apply wp_emit | apply wp_ret]; apply wp_ret; cbn; do 3 (split; [done |]); by right.
    + apply wp_ret. cbn. do 3 (split; [done |]). by left.
Qed.

(** The memory of a connection that is not in use: its descriptor is not monitored,
    its limits and jobs do not exist, nobody uses their names. *)
Record conn_fresh (o : BConnection) b L : Prop := {
  cf_fd : idle_fd b (cn_bfd o);
  cf_l1 : limits b !! snd_limit (send o) = None;
  cf_l2 : limits b !! rcv_limit (recv o) = None;
  cf_ne : snd_limit (send o) ≠ rcv_limit (recv o);
  cf_nodup : NoDup (my_jobs o);
  cf_jobs x : x ∈ my_jobs o → L !! x = None;
  cf_names x h : L !! x = Some h → h ∉ my_jobs o
}.

Lemma source_sub L P src : P ⊆ dom L → ∀ x, L !! x = None → x ∉ source_jobs src P.
Proof using Type. intros Hs x Hx Hin. assert (x ∈ P) as [h E]%Hs%elem_of_dom by (destruct src; cbn in Hin; set_solver). congruence. Qed.

(** What [BConnection_Init] has done. *)
Definition init_result (o : BConnection) b L P src a (r : option BConnection) b' xs : Prop :=
  match r with
  | Some o' => source_fd src a = Some (cn_fd o', close_fd o') ∧ closes xs = [] ∧ cinv (mk_csys b' o') ∧ view_of o' = mk_view DOff DOff false ∧
      cn_bfd o' = cn_bfd o ∧ snd_limit (send o') = snd_limit (send o) ∧ rcv_limit (recv o') = rcv_limit (recv o)
  | None => closes xs = closing (source_fd src a) ∧ rinv b' ∧ idle_fd b' (cn_bfd o) ∧ limits b' = limits b ∧ queue (pending_jobs b') L (source_jobs src P)
  end.

Lemma connection_init_ok b L P o src a : rinv b → queue (pending_jobs b) L P → conn_fresh o b L → source_ok L P src a →
  wp (BConnection_Init o src a) (λ r b' xs, r.1.2 = source_left src ∧ init_result o b L P src a r.1.1 b' xs) b.
Proof using Type.
  intros Hi Hq Hf Hsrc. unfold BConnection_Init. apply wp_bind. eapply wp_mono; [by apply (take_source_ok b L P src a) |].
  intros [[fdc src'] peer] b1 xs1. cbn [fst snd]. intros (-> & (g & -> & Hq1) & Hi1 & Hcase). destruct fdc as [[fd cl] |].
  2: { apply wp_ret. split; [done |]. cbn [fst]. rewrite app_nil_r. split; [| by split; [| split; [apply Hf | split]]].
       destruct Hcase as [[E ->] | [_ ->]]; [by rewrite <- E | done]. }
  destruct Hcase as [[Esrc Ecl] | [? _]]; [| done]. cbv zeta. apply wp_bind.
  cbn [cn_bfd cn_fd set BConnection_eta eta close_fd send recv].
  eapply wp_fd_init; [done | exact (cf_fd _ _ _ Hf) |]. intros b2 Hi2 Hx2 Hy2 Ej2 El2 Er2. apply wp_bind.
  eapply wp_fd_add; [done | exact Hx2 | done | |]; intros Eadd; [| intros b3 Hi3 Hx3 Ej3 El3 Er3]; cbn [negb app].
  - apply wp_bind. assert (idle_fd b2 (cn_bfd o)) as Hidle by (unfold idle_fd; by rewrite Hx2).
    assert (∀ ys, closes (xs1 ++ ys) = closes ys) as Ecl' by (intros ys; unfold closes in *; by rewrite omap_app, Ecl).
    apply wp_when; intros Ec; [apply wp_emit |]; apply wp_ret; cbn [fst snd app]; (split; [done |]); cbn [init_result]; rewrite Ecl', <- Esrc, Ec;
      (split; [done |]); (split; [done |]); (split; [done |]); rewrite El2, Ej2; done.
  - apply wp_bind. eapply wp_limit_init; [done | rewrite El3, El2; exact (cf_l1 _ _ _ Hf) | done |]. intros b4 Hi4 El4 Ef4 Ej4 Er4.
    apply wp_bind. eapply wp_limit_init; [done | | done |].
    { rewrite El4, El3, El2. cbn. rewrite lookup_insert_ne by exact (cf_ne _ _ _ Hf). exact (cf_l2 _ _ _ Hf). }
    intros b5 Hi5 El5 Ef5 Ej5 Er5. apply wp_ret. cbn [fst snd app]. split; [done |]. cbn [init_result]. split; [done |]. rewrite app_nil_r.
    split; [done |]. split; [| done]. exists L, (source_jobs src P). pose proof (source_sub L P src (queue_sub _ _ _ Hq)) as Hnot.
    split; [split; cbn; try done |].
    + split; [done | | |].
      * rewrite Ef5, Ef4, Hx3. by eexists.
      * rewrite El5, El4. rewrite lookup_insert_ne by (apply not_eq_sym, (cf_ne _ _ _ Hf)). rewrite lookup_insert, decide_True by done. done.
      * rewrite El5. by rewrite lookup_insert, decide_True.
    + rewrite Ej5, Ej4, Ej3, Ej2. done.
    + intros x h E Hh. by destruct (cf_names _ _ _ Hf x h E).
    + exact (cf_nodup _ _ _ Hf).
    + intros x Hx. apply (cf_jobs _ _ _ Hf). by apply in_send.
    + intros x Hx. apply (cf_jobs _ _ _ Hf). by apply in_recv.
    + apply Hnot, (cf_jobs _ _ _ Hf), in_send, in_job.
    + cbn. exists false, false. split; [done |]. done.
Qed.

(** Both sides were released. *)
Lemma connection_free_ok s k : cinv s → vw_send (view_of (con s)) = DOff → vw_recv (view_of (con s)) = DOff → k_del k = true →
  snd_limit (send (con s)) ≠ rcv_limit (recv (con s)) →
  wp (BConnection_Free k) (λ _ s' xs, closes xs = (if close_fd (con s) then [cn_fd (con s)] else []) ∧ rinv (bsys s') ∧ idle_fd (bsys s') (cn_bfd (con s)) ∧
    limits (bsys s') !! snd_limit (send (con s)) = None ∧ limits (bsys s') !! rcv_limit (recv (con s)) = None ∧
    ∃ q, jq_rep (pending_jobs (bsys s')) q ∧ ∀ x, x ∈ my_jobs (con s) → live q !! x = None ∧ x ∉ stack q) s.
Proof using Type.
  destruct s as [b o]. intros (L & P & Hb & _) Hs Hr Hk Hne. cbn [con bsys] in *.
  assert (snd_state (send o) = SEND_STATE_NOT_INITED) as Es.
  { unfold view_of, dir_of in Hs. cbn in Hs. destruct (snd_state (send o)); [done | |]; cbn in Hs; by destruct (spi_state (snd_iface (send o))). }
  assert (rcv_state (recv o) = RECV_STATE_NOT_INITED) as Er.
  { pose proof (ci_never _ _ _ Hb) as Hn. cbn [con] in Hn. unfold view_of, dir_of in Hr. cbn in Hr.
    destruct (rcv_state (recv o)); try done; cbn in Hr; by destruct (spi_state (rcv_iface (recv o))). }
  destruct (ci_own _ _ _ Hb) as [Hi (f & Hf & Ha & _) Hl1 Hl2]. cbn [con bsys] in *.
  unfold BConnection_Free. apply wp_bind, wp_gets. cbn [con]. rewrite Es, Er. apply wp_bind, wp_assert; [done |]. apply wp_bind, wp_assert; [done |].
  destruct (limit_free_ok b (rcv_limit (recv o)) Hi Hl2) as (b1 & E1 & Hi1 & Ef1 & El1 & Ej1). apply wp_bind. eapply wp_update; [cbn [bsys]; rewrite E1; reflexivity |].
  destruct (limit_free_ok b1 (snd_limit (send o)) Hi1) as (b2 & E2 & Hi2 & Ef2 & El2 & Ej2); [by rewrite El1, lookup_delete_ne by done |].
  apply wp_bind. eapply wp_update; [cbn [bsys set csys_eta eta]; rewrite E2; reflexivity |].
  assert (limits b2 !! snd_limit (send o) = None ∧ limits b2 !! rcv_limit (recv o) = None) as [N1 N2].
  { rewrite El2, El1. split; [by rewrite lookup_delete, decide_True |]. rewrite lookup_delete_ne, lookup_delete, decide_True; done. }
  assert (∃ q, jq_rep (pending_jobs b) q ∧ ∀ x, x ∈ my_jobs o → live q !! x = None ∧ x ∉ stack q) as Hgone.
  { pose proof (ci_send _ _ _ Hb) as Hs0. pose proof (ci_recv _ _ _ Hb) as Hr0. cbn [con] in Hs0, Hr0. rewrite Es in Hs0. rewrite Er in Hr0. cbn in Hs0, Hr0.
    destruct (ci_queue _ _ _ Hb) as (q & Hrep & HL & _ & HP & Hsub). cbn [bsys] in Hrep. exists q. split; [done |]. intros x Hx. rewrite HL, HP.
    assert (L !! x = None) as Hn by (apply elem_of_app in Hx as [?%Hs0 | ?%Hr0]; done). split; [done |]. intros [h E]%Hsub%elem_of_dom. congruence. }
  assert (∀ b3, rinv b3 → idle_fd b3 (cn_bfd o) → limits b3 = limits b2 → pending_jobs b3 = pending_jobs b2 → wp (when (close_fd o) (emit (XClose (cn_fd o)))) (λ _ s' xs,
    closes xs = (if close_fd o then [cn_fd o] else []) ∧ rinv (bsys s') ∧ idle_fd (bsys s') (cn_bfd o) ∧
    limits (bsys s') !! snd_limit (send o) = None ∧ limits (bsys s') !! rcv_limit (recv o) = None ∧
    ∃ q, jq_rep (pending_jobs (bsys s')) q ∧ ∀ x, x ∈ my_jobs o → live q !! x = None ∧ x ∉ stack q) (mk_csys b3 o)) as Hend.
  { intros b3 Hi3 Hid El3 Ej3. rewrite Ej2, Ej1 in Ej3. apply wp_when; intros ->; [apply wp_emit |]; cbn [bsys]; rewrite El3, Ej3; done. }
  apply wp_bind, wp_when; intros Eh; b2p.
  - rewrite Eh in Ha. destruct (remove_fd_spec b2 (cn_bfd o) Hi2) as (b3 & E3 & Hi3 & Ha3 & _); [rewrite Ef2, Ef1, Hf; cbn; by rewrite Ha |].
    rewrite Hk. eapply wp_update; [cbn [bsys set csys_eta eta]; rewrite E3; reflexivity |]. unfold BReactor_RemoveFileDescriptor in E3.
    apply Hend; [done | unfold idle_fd; cbn; by rewrite Ha3 | open_call E3; done | open_call E3; done].
  - rewrite Eh in Ha. apply Hend; [done | | done | done]. unfold idle_fd. cbn. rewrite Ef2, Ef1, Hf. cbn. by rewrite Ha.
Qed.

(** The protocol of the sides has no release of the socket. *)
Lemma spec_no_close sock xs : ∀ v v', spec_effects sock v xs = Some v' → closes xs = [].
Proof using Type.
  induction xs as [| x xs IH]; intros v v' E; [done |]. cbn [spec_effects] in E. apply bind_Some in E as (v1 & E1 & E).
  assert (closes (x :: xs) = closes xs) as ->; [| by eapply IH]. destruct x; try done. unfold spec_effect in E1. by destruct (vw_err v).
Qed.

Lemma trace_no_close sock tr : ∀ v v', spec_trace sock v tr = Some v' → closes (concat (snd <$> tr)) = [].
Proof using Type.
  induction tr as [| [e xs] tr IH]; intros v v' E; [done |]. cbn [spec_trace] in E. apply bind_Some in E as (v1 & _ & E).
  apply bind_Some in E as (v2 & E2 & E). cbn. unfold closes. rewrite omap_app. fold (closes xs). rewrite (spec_no_close _ _ _ _ E2).
  by eapply IH.
Qed.

(** ** What never changes *)

Definition ids (o : BConnection) : Z * bool * addr * addr * addr := (cn_fd o, close_fd o, cn_bfd o, snd_limit (send o), rcv_limit (recv o)).
Lemma conn_step_ids e : preserves (λ s : csys T G, ids (con s)) (conn_step e).
Proof using Type. destruct e; cbn [conn_step]; pres. Qed.

Lemma run_ids es : ∀ (s s' : csys T G) tr, conn_run s es = Some (s', tr) → ids (con s') = ids (con s).
Proof using Type.
  induction es as [| e es IH]; intros s s' tr E; cbn [conn_run] in E; [by injection E as <- <- |].
  destruct (conn_step e s) as [[[u s1] xs] |] eqn:E1; [| done]. apply bind_Some in E as ([s2 tr2] & E2 & [= -> <-]).
  rewrite (IH _ _ _ E2). by apply (conn_step_ids _ _ _ _ _ E1).
Qed.

End setup.

(** ** An example *)

Definition demo_iface (op dn : addr) : StreamPassInterface := mk_spi 0 None op 0 0 dn 0 STATE_NONE.
Definition demo_con : BConnection :=
  mk_BConnection 0 false false 20 0 (mk_conn_send 21 (demo_iface 11 12) 10 0 0 SEND_STATE_NOT_INITED)
    (mk_conn_recv 22 (demo_iface 14 15) 13 0 0 RECV_STATE_NOT_INITED) false.
Definition demo_source : BConnection_source := SOURCE_PIPE 5 true.
Definition demo_answers : init_answers := mk_init_answers (-1, mk_sys_addr 0 (sockaddr_other 0)) true true.
Definition demo_made := BConnection_Init demo_con demo_source demo_answers demo_init.
Definition demo_sys : csys BAVL BPendingGroup :=
  match demo_made with Some (Some o, _, _, b, _) => mk_csys b o | _ => mk_csys demo_init demo_con end.

Lemma demo_fresh : conn_fresh demo_con demo_init ∅.
Proof.
  split; [discriminate | reflexivity | reflexivity | discriminate | | reflexivity | by intros x h ?%lookup_empty_Some].
  vm_compute. repeat (constructor; [set_solver |]). constructor.
Qed.

Lemma demo_init_eq : BConnection_Init demo_con demo_source demo_answers demo_init = Some (Some (con demo_sys), demo_source, None, bsys demo_sys, []).
Proof. vm_compute. reflexivity. Qed.

(** The kernel takes, and gives, at most so many bytes. *)
Definition demo_kernel (wr rd : Z) : kernel := mk_kernel (λ len, IoBytes (Z.min wr len)) (λ len, IoBytes (Z.min rd len)) true true.
Definition sending_kernel (wr : Z) : kernel := mk_kernel (λ len, IoBytes (Z.min wr len)) (λ _, IoAgain) true true.
Definition blocked_kernel : kernel := mk_kernel (λ _, IoAgain) (λ _, IoAgain) true true.

Lemma sending_kernel_ok wr : 0 < wr → kernel_ok (sending_kernel wr).
Proof. intros Hw. split; [| done]. intros len n Hl [= <-]; lia. Qed.
Lemma blocked_kernel_ok : kernel_ok blocked_kernel.
Proof. by split. Qed.

Definition demo_next (s : csys BAVL BPendingGroup) (e : cevent) : csys BAVL BPendingGroup :=
  match conn_step e s with Some (_, s, _) => s | None => s end.

Lemma evs_ok_cons (s : csys BAVL BPendingGroup) e es : ev_ok s e → evs_ok (demo_next s e) es → evs_ok s (e :: es).
Proof. intros He Hes. cbn [evs_ok]. split; [done |]. unfold demo_next in Hes. by destruct (conn_step e s) as [[[? ?] ?] |]. Qed.

(** What is still waited for in a turn, computed. *)
Lemma turn_ready (s : csys BAVL BPendingGroup) k now ws w : (λ r, still_waited (con s) r.1.1) <$> loop_turn now ws s = Some w → not_ready k w →
  ∀ d s1 xs, loop_turn now ws s = Some (d, s1, xs) → not_ready k (still_waited (con s) d).
Proof. intros E Hk d s1 xs E1. rewrite E1 in E. cbn in E. injection E as ->. exact Hk. Qed.

Lemma sending_not_ready wr w : Z.testbit w 1 = false → not_ready (sending_kernel wr) w.
Proof. intros E. split; [congruence | done]. Qed.
Lemma blocked_not_ready w : not_ready blocked_kernel w.
Proof. split; done. Qed.

(** Checks the answers of the kernel in a turn of a concrete run. *)
Ltac demo_ready :=
  eapply turn_ready; [vm_compute; reflexivity | first [apply blocked_not_ready | apply sending_not_ready; vm_compute; reflexivity]].
Ltac demo_answers :=
  lazymatch goal with
  | |- turn_ok _ (mk_turn _ [] _) => exact I
  | |- turn_ok _ (mk_turn _ ((WReady [_], _) :: []) _) =>
      unfold turn_ok; cbn [tn_now tn_waits answers_ok]; split; [lia |]; split; [| exact I]; split; [| split; [vm_compute; discriminate | discriminate]];
      split; [constructor; [apply not_elem_of_nil | constructor] |];
      let e := fresh in intros e ->%list_elem_of_singleton; eexists _, _; split; [reflexivity |]; split; [vm_compute; reflexivity | vm_compute; reflexivity]
  end.

(** Checks an event of a concrete run. *)
Ltac demo_event :=
  apply evs_ok_cons;
  [lazymatch goal with
   | |- ev_ok _ (ETurn _ _ _) => split; [vm_compute; reflexivity |]; split; [first [exact blocked_kernel_ok | by apply sending_kernel_ok] | split; [demo_answers | demo_ready]]
   | |- ev_ok _ ESendInit => split; vm_compute; reflexivity
   | |- ev_ok _ ERecvInit => split; vm_compute; reflexivity
   | |- ev_ok _ (ESenderInit _) => split; vm_compute; reflexivity
   | |- ev_ok _ (EReceiverInit _) => split; vm_compute; reflexivity
   | |- ev_ok _ (ESendFree _) => split; [vm_compute; discriminate | reflexivity]
   | |- ev_ok _ (ERecvFree _) => split; [vm_compute; discriminate | reflexivity]
   | |- ev_ok _ (ESend _ _) => do 4 (split; [vm_compute; (reflexivity || discriminate) |]); split; lia
   | |- ev_ok _ (ERecv _ _) => do 4 (split; [vm_compute; (reflexivity || discriminate) |]); split; lia
   end |].

(** A receive has to wait while a packet is sent; then the kernel reports an error of
    the socket and nothing else, and the receive is tried again, and waits on. *)
Definition demo_events : list cevent :=
  [ESendInit; ESenderInit 7; ERecvInit; EReceiverInit 8; ERecv 900 8; ETurn blocked_kernel 0 []; ESend 500 10;
   ETurn (sending_kernel 4) 0 []; ETurn (sending_kernel 4) 0 [];
   ETurn blocked_kernel 0 [(WReady [mk_epoll_event (Some 20%nat) EPOLLERR], 1)]; ETurn blocked_kernel 1 []].

Lemma demo_events_ok : evs_ok demo_sys demo_events.
Proof. unfold demo_events. do 11 demo_event. exact I. Qed.

Definition demo_release : list cevent := demo_events ++ [ESendFree blocked_kernel; ERecvFree blocked_kernel].

Lemma demo_release_ok : evs_ok demo_sys demo_release.
Proof. unfold demo_release, demo_events. cbn [app]. do 13 demo_event. exact I. Qed.

(** ** Properties *)

(** [C8] A connection, from its initialisation on and for every sequence of calls of
    its user, turns of the event loop, reports and answers of the kernel and calls of
    other objects ([evs_ok]), never fails an assertion nor uses an object it does not
    hold, and follows its protocol: it writes from the buffer of the send in progress
    and reads into the buffer of the receive in progress, each operation is answered
    by one report, of as many bytes as the kernel took or gave, the end of the stream
    is reported once, and nothing follows the report of an error.

    The kernel may report readiness, errors and hang-ups in every combination; of its
    answers to [read] and [write] the theorem asks ([kernel_ok], [not_ready]) that they
    are no longer than the buffer, that a [write] takes at least one byte, and that a
    call gives no bytes in a direction that the reactor still monitors and that was
    not just reported. A socket that becomes ready between the wait and the call, in
    a turn in which an error alone was reported, breaks the last;
    [connection_error_alone] shows what then happens. *)
Theorem connection_streams {T G} `{OrderedTree T} `{JobQueue G} (b b' : BReactor T G) L P o o' src a src' peer xs es :
  rinv b → queue (pending_jobs b) L P → conn_fresh o b L → source_ok L P src a →
  BConnection_Init o src a b = Some (Some o', src', peer, b', xs) → evs_ok (mk_csys b' o') es →
  ∃ s' tr, conn_run (mk_csys b' o') es = Some (s', tr) ∧ cinv s' ∧ spec_trace (cn_fd o') (mk_view DOff DOff false) tr = Some (view_of (con s')).
Proof.
  intros Hi Hq Hf Hsrc E Hes. pose proof (wp_run _ _ _ _ _ _ (connection_init_ok b L P o src a Hi Hq Hf Hsrc) E) as (_ & _ & _ & Hc & Hv & _).
  destruct (conn_run_ok es _ Hc Hes) as (s' & tr & Er & Hi' & _ & Htr). cbn [con] in Htr. rewrite Hv in Htr. by exists s', tr.
Qed.

Lemma connection_streams_witness :
  ∃ s' tr, conn_run demo_sys demo_events = Some (s', tr) ∧
    concat (snd <$> tr) = [XRead 5 900 8 IoAgain; XWrite 5 500 10 (IoBytes 4); XSent (CallDoneLen 7 4); XRead 5 900 8 IoAgain] ∧
    spec_trace 5 (mk_view DOff DOff false) tr = Some (mk_view DIdle (DWork 900 8) false).
Proof.
  destruct (connection_streams demo_init (bsys demo_sys) ∅ ∅ demo_con (con demo_sys) demo_source demo_answers demo_source None [] demo_events
    demo_init_rinv demo_queue demo_fresh) as (s' & tr & E & _ & Htr).
  - vm_compute. discriminate.
  - exact demo_init_eq.
  - exact demo_events_ok.
  - change (mk_csys (bsys demo_sys) (con demo_sys)) with demo_sys in E. exists s', tr. split; [exact E |].
    assert ((λ r, concat (snd <$> r.2)) <$> conn_run demo_sys demo_events =
      Some [XRead 5 900 8 IoAgain; XWrite 5 500 10 (IoBytes 4); XSent (CallDoneLen 7 4); XRead 5 900 8 IoAgain]) as E2 by (vm_compute; reflexivity).
    assert ((λ r, view_of (con r.1)) <$> conn_run demo_sys demo_events = Some (mk_view DIdle (DWork 900 8) false)) as E3 by (vm_compute; reflexivity).
    assert (cn_fd (con demo_sys) = 5) as E4 by (vm_compute; reflexivity).
    rewrite E in E2, E3. injection E2 as E2. split; [exact E2 |]. rewrite E4 in Htr. rewrite Htr. exact E3.
Defined.

(** [C9] No operation is forgotten: as long as no error was reported, the reactor monitors the
    socket for writing exactly when a send is in progress, and for reading or has the
    job that reads again set when a receive is in progress; and it monitors the socket
    for nothing else, so that it is never reported ready with nothing to do. After a
    hang-up, when the socket is not monitored any more, no send stays in progress.
    The runs are those of [evs_ok]: every report of the kernel, and no bytes in
    a direction that is monitored and was not just reported. *)
Theorem connection_wakeup {T G} `{OrderedTree T} `{JobQueue G} (b b' : BReactor T G) L P o o' src a src' peer xs es s' tr :
  rinv b → queue (pending_jobs b) L P → conn_fresh o b L → source_ok L P src a →
  BConnection_Init o src a b = Some (Some o', src', peer, b', xs) → evs_ok (mk_csys b' o') es →
  conn_run (mk_csys b' o') es = Some (s', tr) → d_err (con s') = false →
  ∃ f, fds (bsys s') !! cn_bfd (con s') = Some f ∧
    (snd_state (send (con s')) = SEND_STATE_BUSY ↔ active f = true ∧ Z.testbit (waitEvents f) 1 = true) ∧
    (active f = true ∧ Z.testbit (waitEvents f) 0 = true → rcv_state (recv (con s')) = RECV_STATE_BUSY) ∧
    (rcv_state (recv (con s')) = RECV_STATE_BUSY → (active f = true ∧ Z.testbit (waitEvents f) 0 = true) ∨
      ∃ q, jq_rep (pending_jobs (bsys s')) q ∧ rcv_job (recv (con s')) ∈ stack q).
Proof.
  intros Hi Hq Hf Hsrc E Hes Er Eerr. pose proof (wp_run _ _ _ _ _ _ (connection_init_ok b L P o src a Hi Hq Hf Hsrc) E) as (_ & _ & _ & Hc & Hv & _).
  destruct (conn_run_ok es _ Hc Hes) as (s1 & tr1 & Er1 & (L1 & P1 & Hb & Hw) & _). rewrite Er in Er1. injection Er1 as <- <-.
  destruct (ci_own _ _ _ Hb) as [_ (f & Hfd & Ha & Hwe) _ _]. exists f. split; [done |]. rewrite Eerr in Hw.
  destruct Hw as (r & wr & Ew & Hw1 & Hw2 & Hw3). rewrite !send_busy, !recv_busy in Hw1. rewrite send_busy in Hw2. rewrite recv_busy in Hw3.
  assert (∀ x : bool, is_hupd (con s') = false ∧ x = true → active f = true ∧ waitEvents f = evs r wr) as Hon.
  { intros x [Eh _]. rewrite Ha, Eh, (Hwe Eh). done. }
  assert (Z.testbit (evs r wr) 1 = wr ∧ Z.testbit (evs r wr) 0 = r) as [T1 T0] by (by destruct r, wr).
  assert (active f = true → is_hupd (con s') = false) as Hhup by (rewrite Ha; by destruct (is_hupd (con s'))).
  split; [split | split].
  - intros [? | Hs]%Hw2; [done |]. destruct (Hon _ Hs) as [-> ->]. rewrite T1. by destruct Hs.
  - intros [Hact Hbit]. specialize (Hhup Hact). rewrite (Hwe Hhup), Ew, T1 in Hbit. by apply Hw1.
  - intros [Hact Hbit]. specialize (Hhup Hact). rewrite (Hwe Hhup), Ew, T0 in Hbit. by apply Hw1.
  - intros [? | [Hj | Hs]]%Hw3; [done | |].
    + right. destruct (ci_queue _ _ _ Hb) as (q & Hr & _ & _ & HP & _). exists q. by rewrite HP.
    + left. destruct (Hon _ Hs) as [-> ->]. rewrite T0. by destruct Hs.
Qed.

Lemma connection_wakeup_witness :
  ∃ s' tr f, conn_run demo_sys demo_events = Some (s', tr) ∧ rcv_state (recv (con s')) = RECV_STATE_BUSY ∧
    fds (bsys s') !! cn_bfd (con s') = Some f ∧ active f = true ∧ waitEvents f = 1.
Proof.
  destruct (conn_run demo_sys demo_events) as [[s' tr] |] eqn:E; [| exfalso; vm_compute in E; discriminate E].
  destruct (connection_wakeup demo_init (bsys demo_sys) ∅ ∅ demo_con (con demo_sys) demo_source demo_answers demo_source None [] demo_events s' tr
    demo_init_rinv demo_queue demo_fresh) as (f & Hf & _).
  - vm_compute. discriminate.
  - exact demo_init_eq.
  - exact demo_events_ok.
  - exact E.
  - assert ((λ r, d_err (con r.1)) <$> conn_run demo_sys demo_events = Some false) as E2 by (vm_compute; reflexivity). rewrite E in E2. injection E2 as E2. exact E2.
  - exists s', tr, f. split; [reflexivity |].
    assert ((λ r, (rcv_state (recv (con r.1)), (λ f, (active f, waitEvents f)) <$> fds (bsys r.1) !! cn_bfd (con r.1))) <$> conn_run demo_sys demo_events =
      Some (RECV_STATE_BUSY, Some (true, 1))) as E2 by (vm_compute; reflexivity).
    rewrite E in E2. injection E2 as E2 E3. rewrite Hf in E3. injection E3 as E3 E4. split; [exact E2 |]. split; [exact Hf |]. split; [exact E3 | exact E4].
Defined.

(** [C10] A connection closes its socket once: if the initialisation fails, at once,
    and the reactor is as before; else, after any run ([evs_ok]) that ends with both
    sides released, when it is released, and then its descriptor is monitored no more,
    and its two limits and its jobs exist no more in the reactor. A descriptor
    that is not the connection's to close is never closed, and a connector whose
    socket was taken holds it no more. The call that removes the socket from epoll is
    taken to succeed ([k_del]). A pipe is closed as its source says
    ([close_it]); the comment of BConnection_Free says that it never is. *)
Theorem connection_lifetime {T G} `{OrderedTree T} `{JobQueue G} (b : BReactor T G) L P o src a k :
  rinv b → queue (pending_jobs b) L P → conn_fresh o b L → source_ok L P src a → k_del k = true →
  ∃ r peer b' xs, BConnection_Init o src a b = Some (r, source_left src, peer, b', xs) ∧ rinv b' ∧
    match r with
    | None => closes xs = closing (source_fd src a) ∧ idle_fd b' (cn_bfd o) ∧ limits b' = limits b ∧ queue (pending_jobs b') L (source_jobs src P)
    | Some o' => ∀ es s' tr, evs_ok (mk_csys b' o') es → conn_run (mk_csys b' o') es = Some (s', tr) →
        vw_send (view_of (con s')) = DOff → vw_recv (view_of (con s')) = DOff →
        ∃ s2 xs2, BConnection_Free k s' = Some ((), s2, xs2) ∧ closes (xs ++ concat (snd <$> tr) ++ xs2) = closing (source_fd src a) ∧
          rinv (bsys s2) ∧ idle_fd (bsys s2) (cn_bfd o) ∧ limits (bsys s2) !! snd_limit (send o) = None ∧ limits (bsys s2) !! rcv_limit (recv o) = None ∧
          ∃ q, jq_rep (pending_jobs (bsys s2)) q ∧ ∀ x, x ∈ my_jobs (con s') → live q !! x = None ∧ x ∉ stack q
    end.
Proof.
  intros Hi Hq Hf Hsrc Hk. destruct (wp_inv _ _ _ (connection_init_ok b L P o src a Hi Hq Hf Hsrc)) as ([[r sl] peer] & b' & xs & E & Esl & Hr).
  cbn [fst snd] in Hr, Esl. subst sl. exists r, peer, b', xs. split; [done |]. destruct r as [o' |]; cbn [init_result] in Hr; [| by destruct Hr as (? & ? & ? & ? & ?)].
  destruct Hr as (Esrc & Ecl & Hc & Hv & Hbfd & El1 & El2). split; [by destruct Hc as (? & ? & [[? _ _ _] _ _ _ _ _ _ _] & _) |].
  intros es s' tr Hes Er Hs Hr'. destruct (conn_run_ok es _ Hc Hes) as (s1 & tr1 & Er1 & Hc1 & Efd & Htr). rewrite Er in Er1. injection Er1 as <- <-.
  pose proof (run_ids es _ _ _ Er) as Hids. injection Hids as E1 E2 E3 E4 E5. cbn [con] in *.
  destruct (wp_inv _ _ _ (connection_free_ok s' k Hc1 Hs Hr' Hk ltac:(rewrite E4, E5, El1, El2; exact (cf_ne _ _ _ Hf)))) as ([] & s2 & xs2 & Ef & Ecl2 & Hi2 & Hid & N1 & N2 & Hjobs).
  exists s2, xs2. split; [done |]. split; [| rewrite E3, Hbfd in Hid; rewrite E4, El1 in N1; rewrite E5, El2 in N2; done]. unfold closes in *. rewrite !omap_app, Ecl, Ecl2. fold (closes (concat (snd <$> tr))).
  rewrite (trace_no_close _ _ _ _ Htr), Esrc, E1, E2. cbn. by destruct (close_fd o').
Qed.

Lemma connection_lifetime_witness :
  ∃ s' tr s2 xs2, conn_run demo_sys demo_release = Some (s', tr) ∧ BConnection_Free blocked_kernel s' = Some ((), s2, xs2) ∧
    closes (concat (snd <$> tr) ++ xs2) = [5].
Proof.
  destruct (connection_lifetime demo_init ∅ ∅ demo_con demo_source demo_answers blocked_kernel demo_init_rinv demo_queue demo_fresh)
    as (r & peer & b' & xs & E & _ & Hr); [vm_compute; discriminate | reflexivity |].
  pose proof demo_init_eq as E'. rewrite E in E'. injection E' as -> _ -> ->.
  destruct (conn_run demo_sys demo_release) as [[s' tr] |] eqn:Er; [| exfalso; vm_compute in Er; discriminate Er].
  assert ((λ r, (vw_send (view_of (con r.1)), vw_recv (view_of (con r.1)))) <$> conn_run demo_sys demo_release = Some (DOff, DOff)) as Ev by (vm_compute; reflexivity).
  rewrite Er in Ev. injection Ev as E1 E2.
  destruct (Hr demo_release s' tr demo_release_ok Er E1 E2) as (s2 & xs2 & Ef & Ecl & _).
  exists s', tr, s2, xs2. split; [reflexivity |]. split; [exact Ef |]. exact Ecl.
Defined.

(** [C11] Whatever the kernel answers, a connector or a listener that fails to
    initialise has closed the socket it made, freed the path it copied, and left the
    jobs and file descriptors of the reactor as they were. A connector that succeeds
    has asked for a connection to the address it was given and either is connected,
    with its job set, or waits for the socket to become writable; when it is, the
    user hears whether it is connected, and then it can be made a connection. A
    listener that succeeds waits for connections, and releases all of this when it is
    freed. *)
Theorem socket_setup {T G} `{OrderedTree T} `{JobQueue G} (b : BReactor T G) L P from k :
  rinv b → queue (pending_jobs b) L P → k_del k = true →
  (∀ o a, L !! ct_job o = None → idle_fd b (ct_bfd o) → ca_mod a = true →
    ∃ o' ok b' xs, BConnector_InitFrom o from a b = Some (o', ok, b', xs) ∧
    if ok then rinv b' ∧ connector_holds o' b' L P ∧
      (∃ addr, from_sockaddr from = Some (Some addr) ∧ xs = [XSocket (any_family addr) (ct_fd o'); XConnect (ct_fd o') addr]) ∧
      ∀ so, ct_have_bfd o' = true → ∃ o2 b2, connector_fd_handler o' k so b' = Some (o2, b2, [XConnected (negb (bool_decide (so = Some 0)))]) ∧
        rinv b2 ∧ idle_fd b2 (ct_bfd o) ∧ ∀ a2, so = Some 0 → source_ok (<[ct_job o := ct_job o]> L) P (SOURCE_CONNECTOR o2) a2
    else connector_failed b L P (ct_bfd o) b' xs) ∧
  (∀ o a, L !! li_default_job o = None → idle_fd b (li_bfd o) → la_mod a = true →
    ∃ o' ok b' xs, BListener_InitFrom o from a b = Some (o', ok, b', xs) ∧
    if ok then listener_holds o' b' L P ∧ opens xs = [li_fd o'] ∧ closes xs = [] ∧
      ∃ b2 xs2, BListener_Free o' k b' = Some ((), b2, xs2) ∧ rinv b2 ∧ queue (pending_jobs b2) L P ∧ idle_fd b2 (li_bfd o) ∧
        closes xs2 = [li_fd o'] ∧ frees xs2 = copies xs
    else listener_failed b' L P (li_bfd o) xs).
Proof.
  intros Hi Hq Hk. pose proof (queue_sub _ _ _ Hq) as Hs. split; intros o a Ho Hfd Hmod.
  - destruct (wp_inv _ _ _ (connector_init_ok b L P o from a Hi Hq Ho Hfd Hmod)) as ([o' ok] & b' & xs & E & Hr). cbn [fst snd] in Hr.
    exists o', ok, b', xs. split; [done |]. destruct ok; [| done]. destruct Hr as (addr & Ea & Hi' & Hh & Esock & Hpos & Ejob & Ebfd & Exs).
    split; [done |]. split; [done |]. split; [by exists addr |]. intros so Hb.
    destruct Hh as [(_ & Hnb & _) | (Hnc & _ & Hq' & Hf)]; [congruence |]. rewrite <- Ejob in Ho.
    destruct (wp_inv _ _ _ (connector_handler_ok b' L P o' k so Hi' Hq' Ho Hs Hpos Hnc Hb ltac:(by rewrite Hf) Hk)) as (o2 & b2 & xs2 & E2 & -> & Efd & Hi2 & Hid & Hc2 & Hb2 & Hd & Hn).
    exists o2, b2. split; [done |]. split; [done |]. rewrite <- Ebfd. split; [done |]. intros a2 ->. cbn. rewrite Efd, Hc2, <- Ejob. done.
  - destruct (wp_inv _ _ _ (listener_init_ok b L P o from a Hi Hq Ho Hfd Hmod)) as ([o' ok] & b' & xs & E & Hr). cbn [fst snd] in Hr.
    exists o', ok, b', xs. split; [done |]. destruct ok; [| done]. destruct Hr as (Hh & Ep & Ej & Eb & _ & Eo & Ec & Ecp & _). do 3 (split; [done |]).
    rewrite <- Ej in Ho. destruct (wp_inv _ _ _ (listener_free_ok b' L P o' k Hh Ho Hs Hk)) as ([] & b2 & xs2 & E2 & Hi2 & Hq2 & Hid & Hcl & Hfr).
    exists b2, xs2. split; [done |]. do 2 (split; [done |]). rewrite <- Eb. split; [done |]. split; [done |]. by rewrite Hfr, Ecp, Ep.
Qed.

Lemma socket_setup_witness :
  ∃ o' b' xs, BConnector_InitFrom (mk_BConnector 30 0 false false 31) (BLISCON_FROM_ADDR (BADDR_IPV4 16777343 20480))
      (mk_connector_answers 6 true ConnectInProgress true true) demo_init = Some (o', true, b', xs) ∧ ct_have_bfd o' = true ∧ opens xs = [6].
Proof.
  destruct (socket_setup demo_init ∅ ∅ (BLISCON_FROM_ADDR (BADDR_IPV4 16777343 20480)) blocked_kernel demo_init_rinv demo_queue eq_refl) as [Hc _].
  destruct (Hc (mk_BConnector 30 0 false false 31) (mk_connector_answers 6 true ConnectInProgress true true)) as (o' & ok & b' & xs & E & _);
    [reflexivity | discriminate | reflexivity |].
  assert ((λ r, (r.1.1.2, ct_have_bfd r.1.1.1, opens r.2)) <$> BConnector_InitFrom (mk_BConnector 30 0 false false 31) (BLISCON_FROM_ADDR (BADDR_IPV4 16777343 20480))
    (mk_connector_answers 6 true ConnectInProgress true true) demo_init = Some (true, true, [6])) as E2 by (vm_compute; reflexivity).
  rewrite E in E2. injection E2 as E2 E3 E4. subst ok. exists o', b', xs. split; [exact E |]. split; [exact E3 | exact E4].
Defined.

(** A receive that has to wait; the kernel reports an error of the socket alone, and
    five bytes arrive before the handler asks for them. *)
Definition error_alone_events : list cevent :=
  [ERecvInit; EReceiverInit 8; ERecv 900 8; ETurn blocked_kernel 0 [];
   ETurn blocked_kernel 0 [(WReady [mk_epoll_event (Some 20%nat) EPOLLERR], 1)]; ETurn (demo_kernel 1 5) 1 []; ETurn (demo_kernel 1 5) 1 []].

(** The handler of the socket tries an operation on an error without taking back the
    wait for it. If bytes arrive between the report of an error alone and the read
    that follows, the receive is over and reported, but
    the socket stays monitored for reading with no receive in progress; the next time
    it is readable the assertion of the handler fails. *)
Theorem connection_error_alone :
  ∃ s tr, conn_run demo_sys error_alone_events = Some (s, tr) ∧
    concat (snd <$> tr) = [XRead 5 900 8 IoAgain; XRead 5 900 8 (IoBytes 5); XReceived (CallDoneLen 8 5)] ∧
    rcv_state (recv (con s)) = RECV_STATE_READY ∧ wait_events (con s) = BREACTOR_READ ∧
    conn_run s [ETurn (demo_kernel 1 5) 1 [(WReady [mk_epoll_event (Some 20%nat) EPOLLIN], 2)]; ETurn (demo_kernel 1 5) 2 []] = None.
Proof.
  destruct (conn_run demo_sys error_alone_events) as [[s tr] |] eqn:E; [| exfalso; vm_compute in E; discriminate E]. exists s, tr. split; [reflexivity |].
  assert ((λ r, (concat (snd <$> r.2), rcv_state (recv (con r.1)), wait_events (con r.1),
      conn_run r.1 [ETurn (demo_kernel 1 5) 1 [(WReady [mk_epoll_event (Some 20%nat) EPOLLIN], 2)]; ETurn (demo_kernel 1 5) 2 []])) <$>
      conn_run demo_sys error_alone_events =
    Some ([XRead 5 900 8 IoAgain; XRead 5 900 8 (IoBytes 5); XReceived (CallDoneLen 8 5)], RECV_STATE_READY, BREACTOR_READ, None)) as E2 by (vm_compute; reflexivity).
  rewrite E in E2. injection E2 as E2 E3 E4 E5. split; [exact E2 |]. split; [exact E3 |]. split; [exact E4 | exact E5].
Qed.

(** ** Addresses *)

(** The kernel is given, and gives, the addresses of the program. *)
Lemma sockaddr_roundtrip addr : BConnection_AddressSupported addr = true → BAddr_wf addr →
  ∃ sa, addr_socket_to_sys addr = Some sa ∧ addr_sys_to_socket sa = Some addr.
Proof.
  intros Hs Hwf. destruct addr as [| ip port | ip port]; [done | by eexists |]. eexists. split; [done |]. cbn. unfold BAddr_InitIPv6, BAddr_MakeIPv6.
  destruct Hwf as (Hl & _). by rewrite ztake_ztake, ztake_ge by lia.
Qed.
