(* ===== verification/BDatagram.v ===== *)
(** * Datagram sockets (system/BDatagram_unix.c, BDatagram_unix.h)

    A [BDatagram] is a datagram socket in the event loop. A packet of its
    [PacketPassInterface] is sent once the addresses to send to are known; a packet
    that its [PacketRecvInterface] asks for is received once the socket has an address
    of its own, because it was bound or has sent. Either is done when the kernel allows
    it and the limits of the reactor are not used up, else when the reactor reports the
    socket ready.

    State and effects are as in BConnection.v. Packet (data link) addresses are left
    out, as in BAddr.v. *)
From S2P Require Import Prelude LinkedLists BPending FlowInterfaces SearchTree BAVL CAvl BReactor BAddr BConnection.

(** ** Addresses *)

Definition BDatagram_AddressFamilySupported (family : Z) : bool := (family =? 1) || (family =? 2).

Definition family_socket_to_sys (family : Z) : option Z :=
  if family =? 1 then Some AF_INET else if family =? 2 then Some AF_INET6 else None.

Definition dg_addr_socket_to_sys (addr : BAddr) : option sys_addr :=
  match addr with
  | BADDR_IPV4 ip port => Some (mk_sys_addr sizeof_sockaddr_in (sockaddr_in port ip))
  | BADDR_IPV6 ip port => Some (mk_sys_addr sizeof_sockaddr_in6 (sockaddr_in6 port 0 (ztake 16 ip) 0))
  | BADDR_NONE => None
  end.

Definition dg_addr_sys_to_socket (addr : sys_addr) : option BAddr :=
  match sa_addr addr with
  | sockaddr_in port ip => ASSERT (sa_len addr =? sizeof_sockaddr_in);; Some (BAddr_InitIPv4 ip port)
  | sockaddr_in6 port _ ip _ => ASSERT (sa_len addr =? sizeof_sockaddr_in6);; Some (BAddr_InitIPv6 ip port)
  | sockaddr_other _ => Some BAddr_InitNone
  end.

(** Control messages: the local address of a datagram. *)
Inductive cmsg :=
| IP_PKTINFO (ipi_spec_dst ipi_addr : Z)
| IPV6_PKTINFO (ipi6_addr : bytes)
| CMSG_OTHER (cmsg_level cmsg_type : Z).

#[export] Instance sockaddr_eq_dec : EqDecision sockaddr.
Proof. solve_decision. Defined.
#[export] Instance sys_addr_eq_dec : EqDecision sys_addr.
Proof. solve_decision. Defined.
#[export] Instance cmsg_eq_dec : EqDecision cmsg.
Proof. solve_decision. Defined.

(** The control message that is sent with a datagram, if the local address is given. *)
Definition send_control (local_addr : BIPAddr) : option cmsg :=
  match local_addr with
  | BIPADDR_IPV4 ip => Some (IP_PKTINFO ip 0)
  | BIPADDR_IPV6 ip => Some (IPV6_PKTINFO (ztake 16 ip))
  | BIPADDR_NONE => None
  end.

(** The local address in the control messages of a datagram; the last one counts. *)
Definition recv_control (control : list cmsg) : BIPAddr :=
  foldl (λ a c, match c with
    | IP_PKTINFO _ ip => BIPAddr_InitIPv4 ip
    | IPV6_PKTINFO ip => BIPAddr_InitIPv6 ip
    | CMSG_OTHER _ _ => a
    end) BIPAddr_InitInvalid control.

(** ** Objects *)

Record dgram_send := mk_dgram_send {
  ds_limit : addr; ds_have_addrs : bool; ds_remote_addr : BAddr; ds_local_addr : BIPAddr; ds_inited : bool; ds_mtu : Z;
  ds_iface : PacketPassInterface; ds_job : addr; ds_busy : bool; ds_busy_data : Z; ds_busy_data_len : Z
}.
#[export] Instance dgram_send_eta : Eta dgram_send := λ s,
  mk_dgram_send (ds_limit s) (ds_have_addrs s) (ds_remote_addr s) (ds_local_addr s) (ds_inited s) (ds_mtu s)
    (ds_iface s) (ds_job s) (ds_busy s) (ds_busy_data s) (ds_busy_data_len s).
Record dgram_recv := mk_dgram_recv {
  dr_limit : addr; dr_started : bool; dr_have_addrs : bool; dr_remote_addr : BAddr; dr_local_addr : BIPAddr; dr_inited : bool; dr_mtu : Z;
  dr_iface : PacketRecvInterface; dr_job : addr; dr_busy : bool; dr_busy_data : Z
}.
#[export] Instance dgram_recv_eta : Eta dgram_recv := λ s,
  mk_dgram_recv (dr_limit s) (dr_started s) (dr_have_addrs s) (dr_remote_addr s) (dr_local_addr s) (dr_inited s) (dr_mtu s)
    (dr_iface s) (dr_job s) (dr_busy s) (dr_busy_data s).
Record BDatagram := mk_BDatagram { dg_fd : Z; dg_bfd : addr; dg_wait_events : Z; dg_send : dgram_send; dg_recv : dgram_recv; dg_err : bool }.
#[export] Instance BDatagram_eta : Eta BDatagram := λ o,
  mk_BDatagram (dg_fd o) (dg_bfd o) (dg_wait_events o) (dg_send o) (dg_recv o) (dg_err o).

Definition BDATAGRAM_SEND_LIMIT : Z := 2.
Definition BDATAGRAM_RECV_LIMIT : Z := 2.

(** What [recvmsg] answers: a datagram with its sender and control messages, [EAGAIN]
    or [EWOULDBLOCK], another error. *)
Inductive recvmsg_result := MsgBytes (n : Z) (name : sys_addr) (control : list cmsg) | MsgAgain | MsgFail.

(** The kernel during one call. *)
Record dkernel := mk_dkernel { dk_sendmsg : Z → io_result; dk_recvmsg : Z → recvmsg_result; dk_mod : bool; dk_del : bool }.

Record dgram_answers := mk_dgram_answers { da_socket : Z; da_nonblocking : bool; da_added : bool }.

Inductive deffect :=
| YSocket (family fd : Z)
| YPktinfo (fd family : Z)
| YReuseAddr (fd : Z) (reuse : bool)
| YBind (fd : Z) (a : sys_addr)
| YSendmsg (fd : Z) (name : sys_addr) (control : option cmsg) (data len : Z) (r : io_result)
| YRecvmsg (fd data len : Z) (r : recvmsg_result)
| YClose (fd : Z)
| YError
| YSent (c : icall)
| YReceived (c : icall).

(** The reactor and a socket in it. *)
Record dsys (T G : Type) := mk_dsys { drea : BReactor T G; dg : BDatagram }.
Arguments mk_dsys {T G}.
Arguments drea {T G}.
Arguments dg {T G}.
#[export] Instance dsys_eta T G : Eta (dsys T G) := λ s, mk_dsys (drea s) (dg s).

Section datagram.
Context {T G : Type} `{OrderedTree T} `{JobQueue G}.
#[local] Abbreviation reactor := (BReactor T G).
#[local] Abbreviation dm := (M (dsys T G) deffect).
#[local] Abbreviation rm := (M reactor deffect).

Definition dg_rea (f : reactor → option reactor) : dm unit := upd (λ s, b ← f (drea s); Some (s <| drea := b |>)).
Definition dg_ask (f : reactor → option (reactor * bool)) : dm bool := ask (λ s, '(b, a) ← f (drea s); Some (s <| drea := b |>, a)).
Definition dg_set (f : BDatagram → BDatagram) : dm unit := modify (λ s, s <| dg := f (dg s) |>).
Definition set_send (f : dgram_send → dgram_send) : dm unit := dg_set (λ o, o <| dg_send := f (dg_send o) |>).
Definition set_recv (f : dgram_recv → dgram_recv) : dm unit := dg_set (λ o, o <| dg_recv := f (dg_recv o) |>).

(** A call of the sending, or receiving, interface. *)
Definition dg_send_iface (f : G → PacketPassInterface → option (G * PacketPassInterface)) : dm unit :=
  upd (λ s, '(g, i) ← f (pending_jobs (drea s)) (ds_iface (dg_send (dg s)));
    Some (s <| drea := (drea s) <| pending_jobs := g |> |> <| dg := (dg s) <| dg_send := (dg_send (dg s)) <| ds_iface := i |> |> |>)).
Definition dg_recv_iface (f : G → PacketRecvInterface → option (G * PacketRecvInterface)) : dm unit :=
  upd (λ s, '(g, i) ← f (pending_jobs (drea s)) (dr_iface (dg_recv (dg s)));
    Some (s <| drea := (drea s) <| pending_jobs := g |> |> <| dg := (dg s) <| dg_recv := (dg_recv (dg s)) <| dr_iface := i |> |> |>)).

(** ** Sending and receiving *)

(** [BReactor_SetFileDescriptorEvents(o->reactor, &o->bfd, o->wait_events)] *)
Definition dg_update_events (k : dkernel) : dm unit :=
  o ← gets dg;
  dg_rea (λ b, BReactor_SetFileDescriptorEvents b (dg_bfd o) (dg_wait_events o) (dk_mod k)).

Definition dg_wait_for_fd (k : dkernel) (events : Z) : dm unit :=
  dg_set (λ o, o <| dg_wait_events := Z.lor (dg_wait_events o) events |>);;
  dg_update_events k.

Definition report_error : dm unit :=
  o ← gets dg;
  assert (negb (dg_err o));;
  dg_set (λ o, o <| dg_err := true |>);;
  emit YError.

(** If receiving was not started yet, start it. *)
Definition start_recv : dm unit :=
  o ← gets dg;
  when (negb (dr_started (dg_recv o)))
    (set_recv (λ r, r <| dr_started := true |>);;
     when (dr_inited (dg_recv o) && dr_busy (dg_recv o)) (dg_rea (with_jobs (λ g, job_set g (dr_job (dg_recv o)))))).

Definition do_send (k : dkernel) : dm unit :=
  o ← gets dg;
  let s := dg_send o in
  assert (negb (dg_err o));;
  assert (ds_inited s);;
  assert (ds_busy s);;
  assert (ds_have_addrs s);;
  go ← dg_ask (λ b, BReactorLimit_Increment b (ds_limit s));
  if negb go then dg_wait_for_fd k BREACTOR_WRITE else
  sysaddr ← lift (dg_addr_socket_to_sys (ds_remote_addr s));
  let r := dk_sendmsg k (ds_busy_data_len s) in
  emit (YSendmsg (dg_fd o) sysaddr (send_control (ds_local_addr s)) (ds_busy_data s) (ds_busy_data_len s) r);;
  match r with
  | IoAgain => dg_wait_for_fd k BREACTOR_WRITE
  | IoFail => report_error
  | IoBytes n =>
      assert (0 <=? n);;
      assert (n <=? ds_busy_data_len s);;
      start_recv;;
      set_send (λ s, s <| ds_busy := false |>);;
      dg_send_iface PacketPassInterface_Done
  end.

Definition do_recv (k : dkernel) : dm unit :=
  o ← gets dg;
  let r := dg_recv o in
  assert (negb (dg_err o));;
  assert (dr_inited r);;
  assert (dr_busy r);;
  assert (dr_started r);;
  go ← dg_ask (λ b, BReactorLimit_Increment b (dr_limit r));
  if negb go then dg_wait_for_fd k BREACTOR_READ else
  let m := dk_recvmsg k (dr_mtu r) in
  emit (YRecvmsg (dg_fd o) (dr_busy_data r) (dr_mtu r) m);;
  match m with
  | MsgAgain => dg_wait_for_fd k BREACTOR_READ
  | MsgFail => report_error
  | MsgBytes n name control =>
      assert (0 <=? n);;
      assert (n <=? dr_mtu r);;
      remote ← lift (dg_addr_sys_to_socket name);
      set_recv (λ r, r <| dr_remote_addr := remote |> <| dr_local_addr := recv_control control |> <| dr_have_addrs := true |> <| dr_busy := false |>);;
      dg_recv_iface (λ g i, PacketRecvInterface_Done g i n)
  end.

Definition dg_fd_handler (k : dkernel) (events : Z) : dm unit :=
  o ← gets dg;
  assert (negb (dg_err o));;
  dg_set (λ o, o <| dg_wait_events := Z.land (dg_wait_events o) (Z.lnot events) |>);;
  dg_update_events k;;
  let s := dg_send o in
  let r := dg_recv o in
  let failed := negb (Z.land events (Z.lor BREACTOR_ERROR BREACTOR_HUP) =? 0) in
  let have_send := negb (Z.land events BREACTOR_WRITE =? 0) || failed && ds_inited s && ds_busy s && ds_have_addrs s in
  when have_send (assert (ds_inited s && ds_busy s && ds_have_addrs s));;
  let have_recv := negb (Z.land events BREACTOR_READ =? 0) || failed && dr_inited r && dr_busy r && dr_started r in
  when have_recv (assert (dr_inited r && dr_busy r && dr_started r));;
  if have_send then
    when have_recv (dg_rea (with_jobs (λ g, job_set g (dr_job r))));;
    do_send k
  else if have_recv then do_recv k
  else report_error.

Definition send_job_handler (k : dkernel) : dm unit :=
  o ← gets dg;
  assert (negb (dg_err o));;
  assert (ds_inited (dg_send o));;
  assert (ds_busy (dg_send o));;
  assert (ds_have_addrs (dg_send o));;
  do_send k.

Definition recv_job_handler (k : dkernel) : dm unit :=
  o ← gets dg;
  assert (negb (dg_err o));;
  assert (dr_inited (dg_recv o));;
  assert (dr_busy (dg_recv o));;
  assert (dr_started (dg_recv o));;
  do_recv k.

Definition send_if_handler_send (data data_len : Z) : dm unit :=
  o ← gets dg;
  assert (negb (dg_err o));;
  assert (ds_inited (dg_send o));;
  assert (negb (ds_busy (dg_send o)));;
  assert (0 <=? data_len);;
  assert (data_len <=? ds_mtu (dg_send o));;
  set_send (λ s, s <| ds_busy_data := data |> <| ds_busy_data_len := data_len |> <| ds_busy := true |>);;
  when (ds_have_addrs (dg_send o)) (dg_rea (with_jobs (λ g, job_set g (ds_job (dg_send o))))).

Definition recv_if_handler_recv (data : Z) : dm unit :=
  o ← gets dg;
  assert (negb (dg_err o));;
  assert (dr_inited (dg_recv o));;
  assert (negb (dr_busy (dg_recv o)));;
  set_recv (λ r, r <| dr_busy_data := data |> <| dr_busy := true |>);;
  when (dr_started (dg_recv o)) (dg_rea (with_jobs (λ g, job_set g (dr_job (dg_recv o))))).

(** ** The socket *)

(** The names of the handlers. *)
Definition dg_send_operation : nat := 6.
Definition dg_recv_operation : nat := 7.
Definition datagram_fd : nat := 8.

(** That packet information cannot be enabled is only logged. *)
Definition set_pktinfo (fd family : Z) : rm unit := emit (YPktinfo fd family).

Definition BDatagram_Init (o : BDatagram) (family : Z) (a : dgram_answers) : rm (BDatagram * bool) :=
  assert (BDatagram_AddressFamilySupported family);;
  af ← lift (family_socket_to_sys family);
  let fail1 o := emit (YClose (dg_fd o));; mret (o, false) in
  let o := o <| dg_fd := da_socket a |> in
  emit (YSocket af (dg_fd o));;
  if dg_fd o <? 0 then mret (o, false) else
  if negb (da_nonblocking a) then fail1 o else
  set_pktinfo (dg_fd o) family;;
  upd (λ b, Some (BFileDescriptor_Init b (dg_bfd o) (dg_fd o) datagram_fd));;
  added ← ask (λ b, BReactor_AddFileDescriptor b (dg_bfd o) (da_added a));
  if negb added then fail1 o else
  let o := o <| dg_wait_events := 0 |> in
  upd (λ b, BReactorLimit_Init b (ds_limit (dg_send o)) BDATAGRAM_SEND_LIMIT);;
  upd (λ b, BReactorLimit_Init b (dr_limit (dg_recv o)) BDATAGRAM_RECV_LIMIT);;
  mret (o <| dg_send := (dg_send o) <| ds_have_addrs := false |> <| ds_inited := false |> |>
          <| dg_recv := (dg_recv o) <| dr_have_addrs := false |> <| dr_started := false |> <| dr_inited := false |> |>
          <| dg_err := false |>, true).

Definition BDatagram_Free (k : dkernel) : dm unit :=
  o ← gets dg;
  assert (negb (dr_inited (dg_recv o)));;
  assert (negb (ds_inited (dg_send o)));;
  dg_rea (λ b, BReactorLimit_Free b (dr_limit (dg_recv o)));;
  dg_rea (λ b, BReactorLimit_Free b (ds_limit (dg_send o)));;
  dg_rea (λ b, BReactor_RemoveFileDescriptor b (dg_bfd o) (dk_del k));;
  emit (YClose (dg_fd o)).

(** [bound] is whether [bind] succeeds. *)
Definition BDatagram_Bind (addr : BAddr) (bound : bool) : dm bool :=
  o ← gets dg;
  assert (negb (dg_err o));;
  assert (BDatagram_AddressFamilySupported (BAddr_type addr));;
  sysaddr ← lift (dg_addr_socket_to_sys addr);
  emit (YBind (dg_fd o) sysaddr);;
  if negb bound then mret false else start_recv;; mret true.

Definition BDatagram_SetSendAddrs (remote_addr : BAddr) (local_addr : BIPAddr) : dm unit :=
  o ← gets dg;
  assert (negb (dg_err o));;
  assert (BDatagram_AddressFamilySupported (BAddr_type remote_addr));;
  assert ((BIPAddr_type local_addr =? 0) || BDatagram_AddressFamilySupported (BIPAddr_type local_addr));;
  set_send (λ s, s <| ds_remote_addr := remote_addr |> <| ds_local_addr := local_addr |>);;
  when (negb (ds_have_addrs (dg_send o)))
    (set_send (λ s, s <| ds_have_addrs := true |>);;
     when (ds_inited (dg_send o) && ds_busy (dg_send o)) (dg_rea (with_jobs (λ g, job_set g (ds_job (dg_send o)))))).

Definition BDatagram_GetLastReceiveAddrs (o : BDatagram) : option (BAddr * BIPAddr) :=
  if negb (dr_have_addrs (dg_recv o)) then None else Some (dr_remote_addr (dg_recv o), dr_local_addr (dg_recv o)).

(** [done] is whether [setsockopt] succeeds. *)
Definition BDatagram_SetReuseAddr (reuse done : bool) : dm bool :=
  o ← gets dg;
  emit (YReuseAddr (dg_fd o) reuse);;
  mret done.

Definition BDatagram_SendAsync_Init (mtu : Z) : dm unit :=
  o ← gets dg;
  assert (negb (dg_err o));;
  assert (negb (ds_inited (dg_send o)));;
  assert (0 <=? mtu);;
  set_send (λ s, s <| ds_mtu := mtu |>);;
  dg_send_iface (λ g i, PacketPassInterface_Init g i mtu dg_send_operation);;
  dg_rea (with_jobs (λ g, job_init g (ds_job (dg_send o))));;
  set_send (λ s, s <| ds_busy := false |> <| ds_inited := true |>).

Definition BDatagram_SendAsync_Free (k : dkernel) : dm unit :=
  o ← gets dg;
  assert (ds_inited (dg_send o));;
  dg_set (λ o, o <| dg_wait_events := Z.land (dg_wait_events o) (Z.lnot BREACTOR_WRITE) |>);;
  dg_update_events k;;
  dg_rea (with_jobs (λ g, job_free g (ds_job (dg_send o))));;
  dg_rea (with_jobs (λ g, PacketPassInterface_Free g (ds_iface (dg_send o))));;
  set_send (λ s, s <| ds_inited := false |>).

Definition BDatagram_RecvAsync_Init (mtu : Z) : dm unit :=
  o ← gets dg;
  assert (negb (dg_err o));;
  assert (negb (dr_inited (dg_recv o)));;
  assert (0 <=? mtu);;
  set_recv (λ r, r <| dr_mtu := mtu |>);;
  dg_recv_iface (λ g i, PacketRecvInterface_Init g i mtu dg_recv_operation);;
  dg_rea (with_jobs (λ g, job_init g (dr_job (dg_recv o))));;
  set_recv (λ r, r <| dr_busy := false |> <| dr_inited := true |>).

Definition BDatagram_RecvAsync_Free (k : dkernel) : dm unit :=
  o ← gets dg;
  assert (dr_inited (dg_recv o));;
  dg_set (λ o, o <| dg_wait_events := Z.land (dg_wait_events o) (Z.lnot BREACTOR_READ) |>);;
  dg_update_events k;;
  dg_rea (with_jobs (λ g, job_free g (dr_job (dg_recv o))));;
  dg_rea (with_jobs (λ g, PacketRecvInterface_Free g (dr_iface (dg_recv o))));;
  set_recv (λ r, r <| dr_inited := false |>).

End datagram.
