(* ===== verification/DatagramRun.v ===== *)
(** * Datagram sockets in the event loop

    Runs of a [BDatagram] (BDatagram.v) in the loop of the reactor, among other objects:
    the protocol of its two sides as its user and the kernel see it ([spec_trace]), and
    the invariant [dinv], which relates a state of the protocol to a state of the
    socket. *)
From S2P Require Import Prelude LinkedLists BPending FlowInterfaces SearchTree BAVL CAvl BReactor BAddr BConnection BDatagram ReactorFrame.

(** ** The protocol *)

(** The sending side: not set up, idle, with a packet, about to report. The receiving
    side: the same, with the buffer, or the length of the packet. *)
Inductive sdir := SOff | SIdle | SWork (data len : Z) | SEnding.
Inductive gdir := GOff | GIdle | GWork (data : Z) | GEnding (n : Z).
#[export] Instance sdir_eq_dec : EqDecision sdir.
Proof. solve_decision. Defined.
#[export] Instance gdir_eq_dec : EqDecision gdir.
Proof. solve_decision. Defined.

(** Both sides, the addresses to send to, whether the socket has an address of its own,
    the addresses of the last packet, the size of packets to receive, the error. *)
Record dview := mk_dview {
  v_send : sdir; v_recv : gdir; v_addrs : option (BAddr * BIPAddr); v_started : bool; v_last : option (BAddr * BIPAddr); v_rmtu : Z; v_err : bool
}.
#[export] Instance dview_eta : Eta dview := λ v, mk_dview (v_send v) (v_recv v) (v_addrs v) (v_started v) (v_last v) (v_rmtu v) (v_err v).

(** The user sets up, uses and releases the two sides, binds the socket and gives the
    addresses; the loop makes a turn; another object calls the reactor. *)
Inductive devent :=
| DSendInit (mtu : Z) | DSenderInit (h : nat) | DSend (data len : Z) | DSendFree (k : dkernel)
| DRecvInit (mtu : Z) | DReceiverInit (h : nat) | DRecv (data : Z) | DRecvFree (k : dkernel)
| DBind (a : BAddr) (bound : bool) | DSetSendAddrs (ra : BAddr) (la : BIPAddr)
| DTurn (k : dkernel) (now : Z) (ws : list (wait_answer * Z))
| DOther (c : rcall).

Definition dspec_event (v : dview) (e : devent) : option dview :=
  match e with
  | DSendInit _ => if decide (v_send v = SOff) then Some (v <| v_send := SIdle |>) else None
  | DSend d l => if decide (v_send v = SIdle) then Some (v <| v_send := SWork d l |>) else None
  | DSendFree _ => Some (v <| v_send := SOff |>)
  | DRecvInit mtu => if decide (v_recv v = GOff) then Some (v <| v_recv := GIdle |> <| v_rmtu := mtu |>) else None
  | DRecv d => if decide (v_recv v = GIdle) then Some (v <| v_recv := GWork d |>) else None
  | DRecvFree _ => Some (v <| v_recv := GOff |>)
  | DBind _ bound => Some (v <| v_started := v_started v || bound |>)
  | DSetSendAddrs ra la => Some (v <| v_addrs := Some (ra, la) |>)
  | _ => Some v
  end.

(** A packet is sent to the address that was given, from its buffer, and reported when
    the kernel has taken it. Receiving starts only when the socket has an address, into
    the buffer that was given, with its size; the length and the addresses are those of
    the kernel. Nothing happens after the error. *)
Definition dspec_effect (sock : Z) (v : dview) (x : deffect) : option dview :=
  if v_err v then None else
  match x with
  | YBind fd _ => if decide (fd = sock) then Some v else None
  | YSendmsg fd name control d l r =>
      '(ra, la) ← v_addrs v;
      if decide (fd = sock ∧ v_send v = SWork d l ∧ dg_addr_socket_to_sys ra = Some name ∧ control = send_control la) then
        match r with
        | IoBytes n => if (0 <=? n) && (n <=? l) then Some (v <| v_send := SEnding |> <| v_started := true |>) else None
        | _ => Some v
        end
      else None
  | YRecvmsg fd d l r =>
      if decide (fd = sock ∧ v_recv v = GWork d ∧ l = v_rmtu v ∧ v_started v = true) then
        match r with
        | MsgBytes n name control =>
            remote ← dg_addr_sys_to_socket name;
            if (0 <=? n) && (n <=? l) then Some (v <| v_recv := GEnding n |> <| v_last := Some (remote, recv_control control) |>) else None
        | _ => Some v
        end
      else None
  | YSent (CallDone _) => if decide (v_send v = SEnding) then Some (v <| v_send := SIdle |>) else None
  | YReceived (CallDoneLen _ n) => if decide (v_recv v = GEnding n) then Some (v <| v_recv := GIdle |>) else None
  | YError => Some (v <| v_err := true |>)
  | _ => None
  end.

Fixpoint dspec_effects (sock : Z) (v : dview) (xs : list deffect) : option dview :=
  match xs with [] => Some v | x :: xs => v ← dspec_effect sock v x; dspec_effects sock v xs end.

Fixpoint dspec_trace (sock : Z) (v : dview) (tr : list (devent * list deffect)) : option dview :=
  match tr with
  | [] => Some v
  | (e, xs) :: tr => v ← dspec_event v e; v ← dspec_effects sock v xs; dspec_trace sock v tr
  end.

(** ** Runs *)

Definition send_jobs (s : dgram_send) : list addr := ppi_jobs (ds_iface s) ++ [ds_job s].
Definition recv_jobs (r : dgram_recv) : list addr := pri_jobs (dr_iface r) ++ [dr_job r].
Definition dg_jobs (o : BDatagram) : list addr := send_jobs (dg_send o) ++ recv_jobs (dg_recv o).

(** What the kernel promises: a datagram is taken whole or in part, at most as much as
    there is room for is given, addresses have the length of their family, the changes
    of the epoll set succeed. *)
Definition dkernel_ok (k : dkernel) : Prop :=
  (∀ len n, 0 ≤ len → dk_sendmsg k len = IoBytes n → 0 ≤ n ≤ len) ∧
  (∀ len n name control, 0 ≤ len → dk_recvmsg k len = MsgBytes n name control → 0 ≤ n ≤ len ∧ is_Some (dg_addr_sys_to_socket name)) ∧
  dk_mod k = true ∧ dk_del k = true.

Section run.
Context {T G : Type} `{OrderedTree T} `{JobQueue G}.
#[local] Abbreviation dm := (M (dsys T G) deffect).

(** The calls of the interfaces. *)
Definition dg_send_call (c : icall) : dm unit :=
  match c with CallSend _ d l => send_if_handler_send d l | CallDone _ => emit (YSent c) | _ => stuck end.
Definition dg_recv_call (c : icall) : dm unit :=
  match c with CallRecv _ d => recv_if_handler_recv d | CallDoneLen _ _ => emit (YReceived c) | _ => stuck end.

(** The job whose name is [h], if it is one of the socket. *)
Definition dg_job (k : dkernel) (h : nat) : dm unit :=
  o ← gets dg;
  '(i, c) ← lift (ppi_job (ds_iface (dg_send o)) h);
  match c with
  | Some c => dg_send_iface (λ g _, Some (g, i));; dg_send_call c
  | None =>
      if decide (h = ds_job (dg_send o)) then send_job_handler k else
      '(i, c) ← lift (pri_job (dr_iface (dg_recv o)) h);
      match c with
      | Some c => dg_recv_iface (λ g _, Some (g, i));; dg_recv_call c
      | None => if decide (h = dr_job (dg_recv o)) then recv_job_handler k else mret ()
      end
  end.

Definition dg_dispatch (k : dkernel) (d : dispatch) : dm unit :=
  o ← gets dg;
  match d with
  | DJob h => dg_job k h
  | DFd x _ events => when (bool_decide (x = dg_bfd o)) (dg_fd_handler k events)
  | _ => mret ()
  end.

Definition dg_turn (now : Z) (ws : list (wait_answer * Z)) : dm dispatch :=
  ask (λ s, r ← exec_iteration (drea s) now ws;
    match r with Some (b, d) => Some (s <| drea := b |>, d) | None => Some (s, DSkipped) end).

Definition dg_step (e : devent) : dm unit :=
  match e with
  | DSendInit mtu => BDatagram_SendAsync_Init mtu
  | DSenderInit h => dg_send_iface (λ g i, i ← PacketPassInterface_Sender_Init i h; Some (g, i))
  | DSend d l => dg_send_iface (λ g i, PacketPassInterface_Sender_Send g i d l)
  | DSendFree k => BDatagram_SendAsync_Free k
  | DRecvInit mtu => BDatagram_RecvAsync_Init mtu
  | DReceiverInit h => dg_recv_iface (λ g i, i ← PacketRecvInterface_Receiver_Init i h; Some (g, i))
  | DRecv d => dg_recv_iface (λ g i, PacketRecvInterface_Receiver_Recv g i d)
  | DRecvFree k => BDatagram_RecvAsync_Free k
  | DBind a bound => _ ← BDatagram_Bind a bound; mret ()
  | DSetSendAddrs ra la => BDatagram_SetSendAddrs ra la
  | DTurn k now ws => d ← dg_turn now ws; dg_dispatch k d
  | DOther c => dg_rea (λ b, rstep b c)
  end.

Fixpoint dg_run (s : dsys T G) (es : list devent) : option (dsys T G * list (devent * list deffect)) :=
  match es with
  | [] => Some (s, [])
  | e :: es =>
      match dg_step e s with
      | Some (_, s, xs) => '(s, tr) ← dg_run s es; Some (s, (e, xs) :: tr)
      | None => None
      end
  end.

(** The directions that the reactor monitors the socket for when the handler of the
    dispatch runs: those the kernel has just reported are not monitored any more. *)
Definition dg_still_waited (o : BDatagram) (d : dispatch) : Z :=
  match d with
  | DFd x _ events => if decide (x = dg_bfd o) then Z.land (dg_wait_events o) (Z.lnot events) else dg_wait_events o
  | _ => dg_wait_events o
  end.

(** A direction that is monitored, and was not reported, is not ready: the kernel
    reports a descriptor as long as it is ready, so that a call in that direction
    blocks or fails. *)
Definition dg_not_ready (k : dkernel) (w : Z) : Prop :=
  (Z.testbit w 1 = true → ∀ len n, dk_sendmsg k len ≠ IoBytes n) ∧
  (Z.testbit w 0 = true → ∀ len n name control, dk_recvmsg k len ≠ MsgBytes n name control).

(** When an event may happen. The kernel may report any events of the socket in any
    combination, and may answer the calls of a turn in any way but one: no packet is
    taken or given in a direction that is [dg_still_waited] for. *)
Definition dev_ok (s : dsys T G) (e : devent) : Prop :=
  let o := dg s in
  match e with
  | DSendInit mtu => dg_err o = false ∧ ds_inited (dg_send o) = false ∧ 0 ≤ mtu
  | DSenderInit h => ds_inited (dg_send o) = true ∧ ppi_handler_done (ds_iface (dg_send o)) = None
  | DSend d l => dg_err o = false ∧ ds_inited (dg_send o) = true ∧ ppi_state (ds_iface (dg_send o)) = STATE_NONE ∧
      is_set (ppi_handler_done (ds_iface (dg_send o))) = true ∧ 0 ≤ l ≤ ds_mtu (dg_send o) ∧ (0 < l → d ≠ 0)
  | DSendFree k => ds_inited (dg_send o) = true ∧ dk_mod k = true
  | DRecvInit mtu => dg_err o = false ∧ dr_inited (dg_recv o) = false ∧ 0 ≤ mtu
  | DReceiverInit h => dr_inited (dg_recv o) = true ∧ pri_handler_done (dr_iface (dg_recv o)) = None
  | DRecv d => dg_err o = false ∧ dr_inited (dg_recv o) = true ∧ pri_state (dr_iface (dg_recv o)) = STATE_NONE ∧
      is_set (pri_handler_done (dr_iface (dg_recv o))) = true ∧ (0 < dr_mtu (dg_recv o) → d ≠ 0)
  | DRecvFree k => dr_inited (dg_recv o) = true ∧ dk_mod k = true
  | DBind a _ => dg_err o = false ∧ a ≠ BADDR_NONE
  | DSetSendAddrs ra _ => dg_err o = false ∧ ra ≠ BADDR_NONE
  | DTurn k now ws => dg_err o = false ∧ dkernel_ok k ∧ turn_ok (drea s) (mk_turn now ws []) ∧
      ∀ d s1 xs, dg_turn now ws s = Some (d, s1, xs) → dg_not_ready k (dg_still_waited o d)
  | DOther c => call_ok (drea s) c ∧ foreign (dg_jobs o) (dg_bfd o) (ds_limit (dg_send o)) (dr_limit (dg_recv o)) (drea s) c
  end.

Fixpoint devs_ok (s : dsys T G) (es : list devent) : Prop :=
  match es with
  | [] => True
  | e :: es => dev_ok s e ∧ match dg_step e s with Some (_, s, _) => devs_ok s es | None => True end
  end.

(** ** The sides and the protocol *)

(** The state of the interface, and what the socket keeps of its operation. *)
Definition send_rel (d : sdir) (v : view) (s : dgram_send) : Prop :=
  match d, v with
  | SIdle, VIdle | SEnding, VEnding => ds_busy s = false
  | SWork a l, VSent a' l' => a' = a ∧ l' = l ∧ ds_busy s = false ∧ 0 ≤ l ≤ ds_mtu s
  | SWork a l, VWorking false false => ds_busy s = true ∧ ds_busy_data s = a ∧ ds_busy_data_len s = l ∧ 0 ≤ l ≤ ds_mtu s
  | _, _ => False
  end.

Record send_on (d : sdir) (v : view) (s : dgram_send) (L : gmap addr nat) (P : gset addr) : Prop := {
  so_ok : ppi_ok L P (ds_iface s);
  so_seen : seen v P (ds_iface s);
  so_job : L !! ds_job s = Some (ds_job s);
  so_mtu : ppi_mtu (ds_iface s) = ds_mtu s;
  so_op : ppi_handler_operation (ds_iface s) = dg_send_operation;
  so_nocancel : ppi_handler_requestcancel (ds_iface s) = None;
  so_user : v ≠ VIdle → is_set (ppi_handler_done (ds_iface s)) = true;
  so_rel : send_rel d v s
}.

Definition send_side (d : sdir) (s : dgram_send) L P : Prop :=
  match d with
  | SOff => ds_inited s = false ∧ ∀ x, x ∈ send_jobs s → L !! x = None
  | _ => ds_inited s = true ∧ ∃ v, send_on d v s L P
  end.

Definition recv_rel (d : gdir) (v : rview) (r : dgram_recv) : Prop :=
  match d, v with
  | GIdle, RIdle => dr_busy r = false
  | GWork a, RAsked a' => a' = a ∧ dr_busy r = false
  | GWork a, RWorking a' => a' = a ∧ dr_busy r = true ∧ dr_busy_data r = a
  | GEnding n, REnding n' => n' = n ∧ dr_busy r = false
  | _, _ => False
  end.

Record recv_on (d : gdir) (v : rview) (r : dgram_recv) (L : gmap addr nat) (P : gset addr) : Prop := {
  ro_ok : pri_ok L P (dr_iface r);
  ro_seen : rseen v (dr_iface r);
  ro_job : L !! dr_job r = Some (dr_job r);
  ro_mtu : pri_mtu (dr_iface r) = dr_mtu r ∧ 0 ≤ dr_mtu r;
  ro_op : pri_handler_operation (dr_iface r) = dg_recv_operation;
  ro_user : v ≠ RIdle → is_set (pri_handler_done (dr_iface r)) = true;
  ro_rel : recv_rel d v r
}.

Definition recv_side (d : gdir) (r : dgram_recv) L P : Prop :=
  match d with
  | GOff => dr_inited r = false ∧ ∀ x, x ∈ recv_jobs r → L !! x = None
  | _ => dr_inited r = true ∧ ∃ v, recv_on d v r L P
  end.

Definition addrs_of (s : dgram_send) : option (BAddr * BIPAddr) := if ds_have_addrs s then Some (ds_remote_addr s, ds_local_addr s) else None.
Definition last_of (r : dgram_recv) : option (BAddr * BIPAddr) := if dr_have_addrs r then Some (dr_remote_addr r, dr_local_addr r) else None.
Definition addr_ok (s : dgram_send) : Prop := ds_have_addrs s = true → ds_remote_addr s ≠ BADDR_NONE.

(** An operation that can go on. *)
Definition send_ready (s : dgram_send) : bool := ds_inited s && ds_busy s && ds_have_addrs s.
Definition recv_ready (r : dgram_recv) : bool := dr_inited r && dr_busy r && dr_started r.

(** A direction is waited for, or its job is set, only while its operation can go on;
    an operation that can go on has one of the two, unless the error was
    reported. *)
Definition waiting (flag ready err : bool) (job : Prop) : Prop :=
  (flag = true → ready = true) ∧ (job → ready = true) ∧ (ready = true → err = true ∨ job ∨ flag = true).

Definition waits (o : BDatagram) (P : gset addr) : Prop :=
  ∃ r w, dg_wait_events o = evs r w ∧
    waiting w (send_ready (dg_send o)) (dg_err o) (ds_job (dg_send o) ∈ P) ∧ waiting r (recv_ready (dg_recv o)) (dg_err o) (dr_job (dg_recv o) ∈ P).

Record dbase (v : dview) (s : dsys T G) (L : gmap addr nat) (P : gset addr) : Prop := {
  db_own : own (drea s) (dg_bfd (dg s)) false (dg_wait_events (dg s)) (ds_limit (dg_send (dg s))) (dr_limit (dg_recv (dg s)));
  db_queue : queue (pending_jobs (drea s)) L P;
  db_named : named (dg_jobs (dg s)) L;
  db_nodup : NoDup (dg_jobs (dg s));
  db_send : send_side (v_send v) (dg_send (dg s)) L P;
  db_recv : recv_side (v_recv v) (dg_recv (dg s)) L P;
  db_addrs : v_addrs v = addrs_of (dg_send (dg s));
  db_addr_ok : addr_ok (dg_send (dg s));
  db_started : v_started v = dr_started (dg_recv (dg s));
  db_last : v_last v = last_of (dg_recv (dg s));
  db_rmtu : v_rmtu v = dr_mtu (dg_recv (dg s));
  db_err : v_err v = dg_err (dg s)
}.

Definition dinv (v : dview) (s : dsys T G) : Prop := ∃ L P, dbase v s L P ∧ waits (dg s) P.

End run.
