(* ===== verification/DatagramLaws.v ===== *)
(** * What datagram sockets guarantee

    The proofs that every step of a run (DatagramRun.v) is defined, keeps the invariant
    and follows the protocol. *)
From S2P Require Import Prelude LinkedLists BPending FlowInterfaces SearchTree BAVL CAvl BReactor BAddr BConnection BDatagram ReactorFrame DatagramRun.

Section laws.
Context {T G : Type} `{OrderedTree T} `{JobQueue G}.
Implicit Types (b : BReactor T G) (o : BDatagram) (s : dgram_send) (r : dgram_recv) (v : dview) (L : gmap addr nat) (P : gset addr).

#[local] Instance waiting_proper flag ready err : Proper (iff ==> iff) (waiting flag ready err).
Proof using Type. intros A B HAB. unfold waiting. by rewrite HAB. Qed.

(** ** The sides *)

Lemma send_in x s : x ∈ send_jobs s ↔ x ∈ ppi_jobs (ds_iface s) ∨ x = ds_job s.
Proof using Type. unfold send_jobs. by rewrite elem_of_app, list_elem_of_singleton. Qed.
Lemma recv_in x r : x ∈ recv_jobs r ↔ x ∈ pri_jobs (dr_iface r) ∨ x = dr_job r.
Proof using Type. unfold recv_jobs. by rewrite elem_of_app, list_elem_of_singleton. Qed.

Lemma send_side_frame d s L P L' P' : send_side d s L P → (∀ x, x ∈ send_jobs s → L' !! x = L !! x) →
  (∀ x, x ∈ ppi_jobs (ds_iface s) → (x ∈ P' ↔ x ∈ P)) → send_side d s L' P'.
Proof using Type.
  intros Hs HL HP. assert (send_side SOff s L P → send_side SOff s L' P') as Hoff.
  { intros [Hi Hn]. split; [done |]. intros x Hx. rewrite HL by done. by apply Hn. }
  assert (∀ u, send_on d u s L P → send_on d u s L' P') as Hon.
  { intros u [Hok Hsn Hj Hm Hop Hnc Hu Hr]. apply (ppi_ok_frame _ _ _ _ HP) in Hok. apply (seen_frame _ _ _ _ HP) in Hsn. split; try done.
    - destruct Hok. split; try done. intros x Hx. rewrite HL by (apply send_in; by left). auto.
    - by rewrite HL by (apply send_in; by right). }
  destruct d; [by apply Hoff | destruct Hs as [? [u Hv]]; split; [done |]; exists u; by apply Hon ..].
Qed.

Lemma recv_side_frame d r L P L' P' : recv_side d r L P → (∀ x, x ∈ recv_jobs r → L' !! x = L !! x) →
  (∀ x, x ∈ pri_jobs (dr_iface r) → (x ∈ P' ↔ x ∈ P)) → recv_side d r L' P'.
Proof using Type.
  intros Hs HL HP. assert (recv_side GOff r L P → recv_side GOff r L' P') as Hoff.
  { intros [Hi Hn]. split; [done |]. intros x Hx. rewrite HL by done. by apply Hn. }
  assert (∀ u, recv_on d u r L P → recv_on d u r L' P') as Hon.
  { intros u [Hok Hsn Hj Hm Hop Hu Hr]. apply (pri_ok_frame _ _ _ _ HP) in Hok. split; try done.
    - destruct Hok. split; try done. intros x Hx. rewrite HL by (apply recv_in; by left). auto.
    - by rewrite HL by (apply recv_in; by right). }
  destruct d; [by apply Hoff | destruct Hs as [? [u Hv]]; split; [done |]; exists u; by apply Hon ..].
Qed.

(** A side that is set up, or not. *)
Lemma send_side_on d s L P : send_side d s L P → ds_inited s = true → ∃ u, send_on d u s L P.
Proof using Type. destruct d; [intros [? _]; congruence | by intros [_ ?] ..]. Qed.
Lemma send_side_of d u s L P : ds_inited s = true → send_on d u s L P → send_side d s L P.
Proof using Type. intros Hi Hs. destruct d; [by destruct (so_rel _ _ _ _ _ Hs) | split; [done |]; by exists u ..]. Qed.
Lemma send_side_off d s L P : send_side d s L P → ds_inited s = false → d = SOff ∧ ∀ x, x ∈ send_jobs s → L !! x = None.
Proof using Type. destruct d; [by intros [_ ?] | intros [? _]; congruence ..]. Qed.
Lemma recv_side_on d r L P : recv_side d r L P → dr_inited r = true → ∃ u, recv_on d u r L P.
Proof using Type. destruct d; [intros [? _]; congruence | by intros [_ ?] ..]. Qed.
Lemma recv_side_of d u r L P : dr_inited r = true → recv_on d u r L P → recv_side d r L P.
Proof using Type. intros Hi Hs. destruct d; [by destruct (ro_rel _ _ _ _ _ Hs) | split; [done |]; by exists u ..]. Qed.
Lemma recv_side_off d r L P : recv_side d r L P → dr_inited r = false → d = GOff ∧ ∀ x, x ∈ recv_jobs r → L !! x = None.
Proof using Type. destruct d; [by intros [_ ?] | intros [? _]; congruence ..]. Qed.

Lemma send_names d s L P x h : send_side d s L P → x ∈ send_jobs s → L !! x = Some h → x = h.
Proof using Type.
  intros Hs Hx E. destruct (ds_inited s) eqn:Ei.
  - destruct (send_side_on _ _ _ _ Hs Ei) as (u & Hv). apply send_in in Hx as [Hx | ->]; [rewrite (o_live _ _ _ (so_ok _ _ _ _ _ Hv) x Hx) in E | rewrite (so_job _ _ _ _ _ Hv) in E]; by injection E.
  - destruct (send_side_off _ _ _ _ Hs Ei) as [_ Hn]. rewrite (Hn x Hx) in E. done.
Qed.
Lemma recv_names d r L P x h : recv_side d r L P → x ∈ recv_jobs r → L !! x = Some h → x = h.
Proof using Type.
  intros Hs Hx E. destruct (dr_inited r) eqn:Ei.
  - destruct (recv_side_on _ _ _ _ Hs Ei) as (u & Hv). apply recv_in in Hx as [Hx | ->]; [rewrite (r_live _ _ _ (ro_ok _ _ _ _ _ Hv) x Hx) in E | rewrite (ro_job _ _ _ _ _ Hv) in E]; by injection E.
  - destruct (recv_side_off _ _ _ _ Hs Ei) as [_ Hn]. rewrite (Hn x Hx) in E. done.
Qed.

Lemma sides_disjoint o x : NoDup (dg_jobs o) → x ∈ send_jobs (dg_send o) → x ∈ recv_jobs (dg_recv o) → False.
Proof using Type. intros (_ & Hd & _)%NoDup_app Hx Hy. by apply (Hd x). Qed.

Lemma send_job_apart o : NoDup (dg_jobs o) → ds_job (dg_send o) ∉ ppi_jobs (ds_iface (dg_send o)).
Proof using Type. intros (Hn & _)%NoDup_app. apply NoDup_app in Hn as (_ & Hd & _). intros Hx. apply (Hd _ Hx), list_elem_of_singleton. done. Qed.
Lemma recv_job_apart o : NoDup (dg_jobs o) → dr_job (dg_recv o) ∉ pri_jobs (dr_iface (dg_recv o)).
Proof using Type. intros (_ & _ & Hn)%NoDup_app. apply NoDup_app in Hn as (_ & Hd & _). intros Hx. apply (Hd _ Hx), list_elem_of_singleton. done. Qed.

(** One side has changed, with its jobs. *)
Lemma dbase_send v v' b o L P g L' P' s' : dbase v (mk_dsys b o) L P → queue g L' P' → ds_limit s' = ds_limit (dg_send o) →
  send_jobs s' = send_jobs (dg_send o) → side_step (send_jobs (dg_send o)) L P L' P' → send_side (v_send v') s' L' P' → addr_ok s' →
  v_addrs v' = addrs_of s' → v_recv v' = v_recv v → v_started v' = v_started v → v_last v' = v_last v → v_rmtu v' = v_rmtu v → v_err v' = v_err v →
  dbase v' (mk_dsys (b <| pending_jobs := g |>) (o <| dg_send := s' |>)) L' P' ∧ (dr_job (dg_recv o) ∈ P' ↔ dr_job (dg_recv o) ∈ P).
Proof using Type.
  intros [Ho Hq Hna Hnd Hs Hr Ha Hao Hst Hla Hrm He] Hq' El Ej Hss Hs' Hao' Ea' E1 E2 E3 E4 E5. cbn [dg drea] in *.
  assert (∀ x, x ∈ recv_jobs (dg_recv o) → L' !! x = L !! x ∧ (x ∈ P' ↔ x ∈ P)) as Hag by (intros x Hx; apply Hss; intros Hx'; by eapply sides_disjoint).
  assert (dg_jobs (o <| dg_send := s' |>) = dg_jobs o) as Emj by (unfold dg_jobs; cbn [dg_send dg_recv set BDatagram_eta eta]; by rewrite Ej).
  split; [| apply Hag, recv_in; by right]. split; cbn [dg drea]; rewrite ?Emj; try (cbn; congruence); try done.
  - cbn. rewrite El. by eapply own_jobs.
  - intros x h E Hh'. destruct (decide (x ∈ send_jobs (dg_send o))) as [Hx | Hx].
    + rewrite <- Ej in Hx. by eapply send_names.
    + destruct (Hss x Hx) as [EL _]. rewrite EL in E. exact (Hna x h E Hh').
  - rewrite E1. eapply recv_side_frame; [exact Hr | intros x Hx; by apply Hag | intros x Hx; apply Hag, recv_in; by left].
Qed.

Lemma dbase_recv v v' b o L P g L' P' r' : dbase v (mk_dsys b o) L P → queue g L' P' → dr_limit r' = dr_limit (dg_recv o) →
  recv_jobs r' = recv_jobs (dg_recv o) → side_step (recv_jobs (dg_recv o)) L P L' P' → recv_side (v_recv v') r' L' P' →
  v_started v' = dr_started r' → v_last v' = last_of r' → v_rmtu v' = dr_mtu r' → v_send v' = v_send v → v_addrs v' = v_addrs v → v_err v' = v_err v →
  dbase v' (mk_dsys (b <| pending_jobs := g |>) (o <| dg_recv := r' |>)) L' P' ∧ (ds_job (dg_send o) ∈ P' ↔ ds_job (dg_send o) ∈ P).
Proof using Type.
  intros [Ho Hq Hna Hnd Hs Hr Ha Hao Hst Hla Hrm He] Hq' El Ej Hss Hs' Est' Ela' Erm' E1 E2 E3. cbn [dg drea] in *.
  assert (∀ x, x ∈ send_jobs (dg_send o) → L' !! x = L !! x ∧ (x ∈ P' ↔ x ∈ P)) as Hag by (intros x Hx; apply Hss; intros Hx'; by eapply sides_disjoint).
  assert (dg_jobs (o <| dg_recv := r' |>) = dg_jobs o) as Emj by (unfold dg_jobs; cbn [dg_send dg_recv set BDatagram_eta eta]; by rewrite Ej).
  split; [| apply Hag, send_in; by right]. split; cbn [dg drea]; rewrite ?Emj; try (cbn; congruence); try done.
  - cbn. rewrite El. by eapply own_jobs.
  - intros x h E Hh'. destruct (decide (x ∈ recv_jobs (dg_recv o))) as [Hx | Hx].
    + rewrite <- Ej in Hx. by eapply recv_names.
    + destruct (Hss x Hx) as [EL _]. rewrite EL in E. exact (Hna x h E Hh').
  - rewrite E1. eapply send_side_frame; [exact Hs | intros x Hx; by apply Hag | intros x Hx; apply Hag, send_in; by left].
Qed.

(** Only the reactor, or what is waited for, has changed. *)
Lemma dbase_rea v b o L P b' w : dbase v (mk_dsys b o) L P → own b' (dg_bfd o) false w (ds_limit (dg_send o)) (dr_limit (dg_recv o)) →
  pending_jobs b' = pending_jobs b → dbase v (mk_dsys b' (o <| dg_wait_events := w |>)) L P.
Proof using Type. intros [] Ho' Ej. split; try done. cbn. by rewrite Ej. Qed.

Lemma same_wait o : o <| dg_wait_events := dg_wait_events o |> = o.
Proof using Type. by destruct o. Qed.

(** The error was reported. *)
Lemma dbase_err v b o L P : dbase v (mk_dsys b o) L P → dbase (v <| v_err := true |>) (mk_dsys b (o <| dg_err := true |>)) L P.
Proof using Type. intros []. by split. Qed.

Lemma waiting_err flag ready job : waiting flag ready false job → waiting flag ready true job.
Proof using Type. intros (H1 & H2 & H3). split; [done |]. split; [done |]. by left. Qed.
Lemma waiting_off err job : ¬ job → waiting false false err job.
Proof using Type. intros Hn. split; [done |]. by split. Qed.
Lemma waiting_none flag err job : waiting flag false err job → flag = false ∧ ¬ job.
Proof using Type. intros (H1 & H2 & _). split; [destruct flag; [by specialize (H1 eq_refl) | done] |]. intros Hj. by specialize (H2 Hj). Qed.
Lemma waiting_job flag ready err job : job → ready = true → waiting flag ready err job.
Proof using Type. intros Hj Hr. split; [done |]. split; [done |]. right. by left. Qed.
Lemma waiting_flag ready err job : ready = true → waiting true ready err job.
Proof using Type. intros Hr. split; [done |]. split; [done |]. right. by right. Qed.

(** From the view [v] the effects lead to a view of the state. *)
Definition follows (sock : Z) v (s' : dsys T G) (xs : list deffect) : Prop :=
  ∃ v', dspec_effects sock v xs = Some v' ∧ dinv v' s' ∧ dg_fd (dg s') = sock.

Lemma dspec_effects_app sock xs ys : ∀ v, dspec_effects sock v (xs ++ ys) = (v ← dspec_effects sock v xs; dspec_effects sock v ys).
Proof using Type. induction xs as [| x xs IH]; intros v; cbn [app dspec_effects]; [done |]. destruct (dspec_effect sock v x) as [v' |]; [apply IH | done]. Qed.

(** ** Pieces of the handlers *)

Abbreviation owns b o w := (own b (dg_bfd o) false w (ds_limit (dg_send o)) (dr_limit (dg_recv o))).

Lemma wp_update_events k b o w (Q : unit → dsys T G → list deffect → Prop) :
  owns b o w → 0 ≤ dg_wait_events o ≤ 3 → dk_mod k = true →
  (∀ b', owns b' o (dg_wait_events o) → pending_jobs b' = pending_jobs b → Q () (mk_dsys b' o) []) → wp (dg_update_events k) Q (mk_dsys b o).
Proof using Type.
  intros Ho Hev Hk HQ. unfold dg_update_events. apply wp_bind, wp_gets. cbn [dg]. rewrite Hk.
  destruct (own_set_events _ _ _ _ _ _ Ho Hev) as (b' & E & Ho' & Ej). eapply wp_update; [cbn [drea]; rewrite E; reflexivity |]. by apply HQ.
Qed.

Lemma wp_dlimit v b o L P l (Q : bool → dsys T G → list deffect → Prop) : dbase v (mk_dsys b o) L P →
  l = ds_limit (dg_send o) ∨ l = dr_limit (dg_recv o) → (∀ b' go, dbase v (mk_dsys b' o) L P → Q go (mk_dsys b' o) []) →
  wp (dg_ask (λ b, BReactorLimit_Increment b l)) Q (mk_dsys b o).
Proof using Type.
  intros Hb Hl HQ. destruct (own_increment _ _ _ _ _ _ l (db_own _ _ _ _ Hb) Hl) as (b' & a & E & Ho' & Ej).
  eapply wp_ask; [cbn [drea]; cbn [drea dg] in E; rewrite E; reflexivity |]. apply HQ.
  pose proof (dbase_rea _ _ _ _ _ _ _ Hb Ho' Ej) as Hb'. by rewrite same_wait in Hb'.
Qed.

(** A direction is waited for. *)
Lemma wp_dg_wait k v b o L P rf wf ev (Q : unit → dsys T G → list deffect → Prop) : dbase v (mk_dsys b o) L P → dk_mod k = true →
  Z.lor (dg_wait_events o) ev = evs rf wf → (∀ b', dbase v (mk_dsys b' (o <| dg_wait_events := evs rf wf |>)) L P → Q () (mk_dsys b' (o <| dg_wait_events := evs rf wf |>)) []) →
  wp (dg_wait_for_fd k ev) Q (mk_dsys b o).
Proof using Type.
  intros Hb Hk Ew HQ. unfold dg_wait_for_fd. apply wp_bind, wp_modify. cbn [set dsys_eta eta drea dg]. rewrite Ew.
  pose proof (db_own _ _ _ _ Hb) as Ho. cbn [drea dg] in Ho.
  set (o1 := o <| dg_wait_events := evs rf wf |>). refine (wp_update_events k b o1 (dg_wait_events o) Q Ho (evs_range rf wf) Hk _).
  intros b' Ho' Ej. apply HQ. by eapply dbase_rea.
Qed.

Lemma dg_report_ok v v0 b o L P pre : dbase v (mk_dsys b o) L P → dg_err o = false →
  (∃ rf wf, dg_wait_events o = evs rf wf ∧ waiting wf (send_ready (dg_send o)) true (ds_job (dg_send o) ∈ P) ∧
    waiting rf (recv_ready (dg_recv o)) true (dr_job (dg_recv o) ∈ P)) → dspec_effects (dg_fd o) v0 pre = Some v →
  wp report_error (λ _ z xs, follows (dg_fd o) v0 z (pre ++ xs)) (mk_dsys b o).
Proof using Type.
  intros Hb He (r & w & Ew & Hs & Hr) Hpre. unfold report_error. apply wp_bind, wp_gets, wp_bind, wp_assert; [cbn [dg]; by rewrite He |].
  apply wp_bind, wp_modify, wp_emit. exists (v <| v_err := true |>). split; [| split; [| done]].
  - rewrite dspec_effects_app, Hpre, option_bind_Some. cbn [app dspec_effects]. unfold dspec_effect. rewrite (db_err _ _ _ _ Hb). cbn [dg]. by rewrite He.
  - exists L, P. split; [by apply dbase_err |]. by exists r, w.
Qed.

(** A call of the interface of a side. *)
Definition send_wiring s (h : nat) : wiring := mk_wiring (ds_mtu s) dg_send_operation None h.
Definition recv_wiring r (h : nat) : wiring := mk_wiring (dr_mtu r) dg_recv_operation None h.

Lemma send_wired d u s L P : send_on d u s L P → is_set (ppi_handler_done (ds_iface s)) = true → ∃ h, wired (send_wiring s h) (ds_iface s).
Proof using Type. intros [Hok Hsn Hj Hm Hop Hnc Hu Hr] Hset. destruct (ppi_handler_done (ds_iface s)) as [h |] eqn:E; [| done]. by exists h. Qed.
Lemma recv_wired d u r L P : recv_on d u r L P → is_set (pri_handler_done (dr_iface r)) = true → ∃ h, rwired (recv_wiring r h) (dr_iface r).
Proof using Type. intros [Hok Hsn Hj [Hm _] Hop Hu Hr] Hset. destruct (pri_handler_done (dr_iface r)) as [h |] eqn:E; [| done]. by exists h. Qed.

Lemma send_on_after d' u' s s' h L P0 g' : L !! ds_job s = Some (ds_job s) → ppi_after (send_wiring s h) L P0 (ds_iface s) u' g' (ds_iface s') →
  ds_mtu s' = ds_mtu s → ds_job s' = ds_job s → ds_inited s' = true → send_rel d' u' s' →
  ∃ P', queue g' L P' ∧ send_side d' s' L P' ∧ send_jobs s' = send_jobs s ∧ (∀ x, x ∉ ppi_jobs (ds_iface s) → (x ∈ P' ↔ x ∈ P0)).
Proof using Type.
  intros Hj (P' & Hq & Hok & (Hm & Ho & Hc & Hd) & Hsn & Ejobs & HP) Em Ej Ei Hr. exists P'. split; [done |]. split; [| split; [| done]].
  - eapply (send_side_of _ u'); [done |]. split; try done; rewrite ?Em, ?Ej; try done. by rewrite Hd.
  - unfold send_jobs. by rewrite Ejobs, Ej.
Qed.

Lemma recv_on_after d' u' r r' h L P0 g' : L !! dr_job r = Some (dr_job r) → 0 ≤ dr_mtu r → pri_after (recv_wiring r h) L P0 (dr_iface r) u' g' (dr_iface r') →
  dr_mtu r' = dr_mtu r → dr_job r' = dr_job r → dr_inited r' = true → recv_rel d' u' r' →
  ∃ P', queue g' L P' ∧ recv_side d' r' L P' ∧ recv_jobs r' = recv_jobs r ∧ (∀ x, x ∉ pri_jobs (dr_iface r) → (x ∈ P' ↔ x ∈ P0)).
Proof using Type.
  intros Hj H0m (P' & Hq & Hok & (Hm & Ho & Hd) & Hsn & Ejobs & HP) Em Ej Ei Hr. exists P'. split; [done |]. split; [| split; [| done]].
  - eapply (recv_side_of _ u'); [done |]. split; try done; rewrite ?Em, ?Ej; try done. by rewrite Hd.
  - unfold recv_jobs. by rewrite Ejobs, Ej.
Qed.

(** The other jobs are as they were. *)
Lemma send_stays s L P P' : (∀ x, x ∉ ppi_jobs (ds_iface s) → (x ∈ P' ↔ x ∈ P)) → side_step (send_jobs s) L P L P'.
Proof using Type. intros HP x Hx. split; [done |]. apply HP. intros Hy. apply Hx, send_in. by left. Qed.
Lemma recv_stays r L P P' : (∀ x, x ∉ pri_jobs (dr_iface r) → (x ∈ P' ↔ x ∈ P)) → side_step (recv_jobs r) L P L P'.
Proof using Type. intros HP x Hx. split; [done |]. apply HP. intros Hy. apply Hx, recv_in. by left. Qed.

(** ** Sending *)

Lemma recv_side_started d r L P (st : bool) : recv_side d r L P → recv_side d (r <| dr_started := st |>) L P.
Proof using Type. destruct d; [done | intros [Hi (u & Hu)]; (split; [done |]); exists u; by destruct Hu ..]. Qed.

Lemma started_same o : dr_started (dg_recv o) = true → o <| dg_recv := (dg_recv o) <| dr_started := true |> |> = o.
Proof using Type. destruct o as [? ? ? ? [] ?]. cbn. by intros ->. Qed.
Lemma v_started_same v : v_started v = true → v <| v_started := true |> = v.
Proof using Type. destruct v. cbn. by intros ->. Qed.

Lemma recv_job_live v b o L P : dbase v (mk_dsys b o) L P → dr_inited (dg_recv o) = true → dr_job (dg_recv o) ∈ dom L.
Proof using Type. intros Hb Hi. destruct (recv_side_on _ _ _ _ (db_recv _ _ _ _ Hb) Hi) as (u & Hu). apply elem_of_dom. eexists. exact (ro_job _ _ _ _ _ Hu). Qed.
Lemma send_job_live v b o L P : dbase v (mk_dsys b o) L P → ds_inited (dg_send o) = true → ds_job (dg_send o) ∈ dom L.
Proof using Type. intros Hb Hi. destruct (send_side_on _ _ _ _ (db_send _ _ _ _ Hb) Hi) as (u & Hu). apply elem_of_dom. eexists. exact (so_job _ _ _ _ _ Hu). Qed.

Lemma union_other P x y : y ≠ x → (y ∈ P ∪ {[x]} ↔ y ∈ P).
Proof using Type. rewrite elem_of_union, elem_of_singleton. tauto. Qed.
Lemma minus_iff P x y : y ≠ x → (y ∈ P ∖ {[x]} ↔ y ∈ P).
Proof using Type. rewrite elem_of_difference, elem_of_singleton. tauto. Qed.

(** The job of the receiving side is set. *)
Lemma dbase_recv_job v v' b o L P r' g : dbase v (mk_dsys b o) L P → queue g L (P ∪ {[dr_job (dg_recv o)]}) →
  recv_side (v_recv v') r' L P → dr_limit r' = dr_limit (dg_recv o) → dr_job r' = dr_job (dg_recv o) → dr_iface r' = dr_iface (dg_recv o) →
  v_started v' = dr_started r' → v_last v' = last_of r' → v_rmtu v' = dr_mtu r' → v_send v' = v_send v → v_addrs v' = v_addrs v → v_err v' = v_err v →
  dbase v' (mk_dsys (b <| pending_jobs := g |>) (o <| dg_recv := r' |>)) L (P ∪ {[dr_job (dg_recv o)]}).
Proof using Type.
  intros Hb Hq Hr El Ej Ei E1 E2 E3 E4 E5 E6. assert (recv_jobs r' = recv_jobs (dg_recv o)) as Ejobs by (unfold recv_jobs; by rewrite Ei, Ej).
  eapply dbase_recv; try done.
  - apply side_add, recv_in. by right.
  - eapply recv_side_frame; [exact Hr | done |]. intros x Hx. apply union_other. intros ->. rewrite Ei in Hx.
    by apply (recv_job_apart _ (db_nodup _ _ _ _ Hb)).
Qed.

Lemma start_recv_ok v b o L P (rf : bool) (Q : unit → dsys T G → list deffect → Prop) : dbase v (mk_dsys b o) L P →
  waiting rf (recv_ready (dg_recv o)) (dg_err o) (dr_job (dg_recv o) ∈ P) →
  (∀ b' P', dbase (v <| v_started := true |>) (mk_dsys b' (o <| dg_recv := (dg_recv o) <| dr_started := true |> |>)) L P' →
    (∀ x, x ≠ dr_job (dg_recv o) → (x ∈ P' ↔ x ∈ P)) →
    waiting rf (recv_ready ((dg_recv o) <| dr_started := true |>)) (dg_err o) (dr_job (dg_recv o) ∈ P') →
    Q () (mk_dsys b' (o <| dg_recv := (dg_recv o) <| dr_started := true |> |>)) []) →
  wp start_recv Q (mk_dsys b o).
Proof using Type.
  intros Hb Hw HQ. unfold start_recv. apply wp_bind, wp_gets. cbn [dg]. pose proof (db_started _ _ _ _ Hb) as Est. cbn [dg] in Est. apply wp_when; intros Es.
  - apply negb_true_iff in Es. assert (recv_ready (dg_recv o) = false) as Er by (unfold recv_ready; rewrite Es; by rewrite andb_false_r).
    rewrite Er in Hw. apply waiting_none in Hw as [-> Hj]. apply wp_bind, wp_modify. cbn [set dsys_eta eta drea dg].
    set (r' := (dg_recv o) <| dr_started := true |>) in *. set (o' := o <| dg_recv := r' |>) in *.
    assert (recv_side (v_recv v) r' L P) as Hr by exact (recv_side_started _ _ _ _ true (db_recv _ _ _ _ Hb)).
    apply wp_when; intros Eb.
    + pose proof Eb as [Ei _]%andb_true_iff. destruct (job_set_ok _ L P (dr_job (dg_recv o)) (db_queue _ _ _ _ Hb)) as (g & E & Hq); [by eapply recv_job_live |].
      cbn [drea] in E. eapply wp_update; [cbn [drea]; unfold with_jobs; rewrite E; reflexivity |]. apply (HQ _ (P ∪ {[dr_job (dg_recv o)]})).
      * eapply dbase_recv_job; try done; [apply (db_last _ _ _ _ Hb) | apply (db_rmtu _ _ _ _ Hb)].
      * intros x Hx. by apply union_other.
      * apply waiting_job; [apply elem_of_union; right; by apply elem_of_singleton |]. unfold recv_ready, r'. cbn. by rewrite Eb.
    + apply (HQ b P); [| done |].
      * assert (dbase (v <| v_started := true |>) (mk_dsys (b <| pending_jobs := pending_jobs b |>) o') L P) as Hb2.
        { eapply dbase_recv; try done; [apply (db_queue _ _ _ _ Hb) | apply (db_last _ _ _ _ Hb) | apply (db_rmtu _ _ _ _ Hb)]. }
        by destruct b.
      * unfold recv_ready, r'. cbn. rewrite Eb. by apply waiting_off.
  - apply negb_false_iff in Es. specialize (HQ b P). rewrite started_same, v_started_same in HQ by congruence. apply HQ; [done | done |].
    replace ((dg_recv o) <| dr_started := true |>) with (dg_recv o); [done |]. clear -Es. destruct (dg_recv o). cbn in *. by rewrite Es.
Qed.

(** The packet in progress. *)
Lemma send_working v b o L P : dbase v (mk_dsys b o) L P → send_ready (dg_send o) = true →
  send_on (SWork (ds_busy_data (dg_send o)) (ds_busy_data_len (dg_send o))) (VWorking false false) (dg_send o) L P ∧
  v_send v = SWork (ds_busy_data (dg_send o)) (ds_busy_data_len (dg_send o)) ∧
  v_addrs v = Some (ds_remote_addr (dg_send o), ds_local_addr (dg_send o)) ∧
  0 ≤ ds_busy_data_len (dg_send o) ∧ ∃ name, dg_addr_socket_to_sys (ds_remote_addr (dg_send o)) = Some name.
Proof using Type.
  intros Hb [[Hi Hbu]%andb_true_iff Hh]%andb_true_iff. destruct (send_side_on _ _ _ _ (db_send _ _ _ _ Hb) Hi) as (u & Hu). cbn [dg] in Hu.
  pose proof (so_rel _ _ _ _ _ Hu) as Hrel. pose proof (db_addrs _ _ _ _ Hb) as Ha. cbn [dg] in Ha. unfold addrs_of in Ha. rewrite Hh in Ha.
  destruct (v_send v) as [| | a l |], u as [| a' l' | [] [] |]; cbn [send_rel] in Hrel; try done; try congruence; [destruct Hrel as (_ & _ & ? & _); congruence |].
  destruct Hrel as (_ & <- & <- & Hl). split; [done |]. split; [done |]. split; [done |]. split; [lia |].
  pose proof (db_addr_ok _ _ _ _ Hb Hh) as Hne. cbn [dg] in Hne. destruct (ds_remote_addr (dg_send o)); [done | by eexists ..].
Qed.

(** The sending side ends its operation. *)
Lemma send_finish v b o L P : dbase v (mk_dsys b o) L P → send_ready (dg_send o) = true → ds_job (dg_send o) ∉ P →
  ∃ g i P', PacketPassInterface_Done (pending_jobs b) (ds_iface (dg_send o)) = Some (g, i) ∧
    dbase (v <| v_send := SEnding |>) (mk_dsys (b <| pending_jobs := g |>) (o <| dg_send := (dg_send o) <| ds_busy := false |> <| ds_iface := i |> |>)) L P' ∧
    (ds_job (dg_send o) ∉ P') ∧ (dr_job (dg_recv o) ∈ P' ↔ dr_job (dg_recv o) ∈ P).
Proof using Type.
  intros Hb Hr Hj. destruct (send_working _ _ _ _ _ Hb Hr) as (Hon & _ & Ha & _ & _). pose proof Hr as [[Hi _]%andb_true_iff _]%andb_true_iff.
  destruct (send_wired _ _ _ _ _ Hon) as (h & Hwi); [by apply (so_user _ _ _ _ _ Hon) |].
  destruct (ppi_finish_ok _ _ _ _ _ (db_queue _ _ _ _ Hb) (so_ok _ _ _ _ _ Hon) Hwi) as (g & i & E & Haf); [apply (so_seen _ _ _ _ _ Hon) |].
  set (s' := (dg_send o) <| ds_busy := false |> <| ds_iface := i |>).
  destruct (send_on_after SEnding VEnding (dg_send o) s' h L P g (so_job _ _ _ _ _ Hon) Haf) as (P' & Hq & Hs & Ej & HP); try done.
  exists g, i, P'. split; [done |].
  set (v' := v <| v_send := SEnding |>).
  destruct (dbase_send v v' b o L P g L P' s' Hb Hq eq_refl Ej (send_stays _ _ _ _ HP) Hs (db_addr_ok _ _ _ _ Hb)
    (db_addrs _ _ _ _ Hb) eq_refl eq_refl eq_refl eq_refl eq_refl) as [Hb2 Hrj].
  split; [exact Hb2 |]. split; [| done]. by rewrite HP by (apply send_job_apart, (db_nodup _ _ _ _ Hb)).
Qed.

(** What is waited for when an operation is tried again. *)
Definition send_retry k o P (rf wf : bool) : Prop :=
  dg_wait_events o = evs rf wf ∧ (wf = true → ∀ len n, dk_sendmsg k len ≠ IoBytes n) ∧ (ds_job (dg_send o) ∉ P) ∧ waiting rf (recv_ready (dg_recv o)) false (dr_job (dg_recv o) ∈ P).

Lemma dg_send_waits k v v0 b o L P rf wf pre : dkernel_ok k → dbase v (mk_dsys b o) L P → dg_err o = false → send_ready (dg_send o) = true →
  send_retry k o P rf wf → dspec_effects (dg_fd o) v0 pre = Some v →
  wp (dg_wait_for_fd k BREACTOR_WRITE) (λ _ z xs, follows (dg_fd o) v0 z (pre ++ xs)) (mk_dsys b o).
Proof using Type.
  intros (_ & _ & Hk & _) Hb He Hr (Ew & _ & Hj & Hw) Hpre. apply (wp_dg_wait k v b o L P rf true); [done | done | by rewrite Ew, evs_write |].
  intros b' Hb'. exists v. split; [by rewrite app_nil_r |]. split; [| done]. exists L, P. split; [done |]. exists rf, true. split; [done |].
  split; [by apply waiting_flag |]. cbn. by rewrite He.
Qed.

Lemma do_send_ok k v b o L P rf wf : dkernel_ok k → dbase v (mk_dsys b o) L P → dg_err o = false → send_ready (dg_send o) = true → send_retry k o P rf wf →
  wp (do_send k) (λ _, follows (dg_fd o) v) (mk_dsys b o).
Proof using Type.
  intros Hk Hb0 He Hr Hw. pose proof Hr as [[Hi Hbu]%andb_true_iff Hh]%andb_true_iff.
  unfold do_send. apply wp_bind, wp_gets. cbn [dg]. rewrite He, Hi, Hbu, Hh. do 4 (apply wp_bind, wp_assert; [done |]). apply wp_bind.
  eapply wp_dlimit; [exact Hb0 | by left |]. intros b1 go Hb. cbn [app].
  destruct (send_working _ _ _ _ _ Hb Hr) as (_ & Ev & Ea & Hl & name & En).
  destruct go; cbn [negb]; [| by apply (dg_send_waits k v v b1 o L P rf wf [])]. apply wp_bind. eapply wp_lift; [exact En |]. apply wp_bind, wp_emit. cbn [app].
  set (x := YSendmsg _ _ _ _ _ _).
  assert (dspec_effect (dg_fd o) v x = match dk_sendmsg k (ds_busy_data_len (dg_send o)) with
    | IoBytes n => if (0 <=? n) && (n <=? ds_busy_data_len (dg_send o)) then Some (v <| v_send := SEnding |> <| v_started := true |>) else None
    | _ => Some v
    end) as Hx.
  { unfold x, dspec_effect. rewrite (db_err _ _ _ _ Hb), Ea, option_bind_Some. cbn [dg]. rewrite He. by rewrite decide_True. }
  destruct (dk_sendmsg k (ds_busy_data_len (dg_send o))) as [n | |] eqn:Ek.
  - destruct Hk as (Hks & _). pose proof (Hks _ _ Hl Ek) as Hn. apply wp_bind, wp_assert; [apply Z.leb_le; lia |].
    apply wp_bind, wp_assert; [apply Z.leb_le; lia |]. destruct Hw as (Ew & Hnr & Hj & Hwr). apply wp_bind.
    assert (wf = false) as -> by (destruct wf; [by destruct (Hnr eq_refl _ _ Ek) | done]). rewrite (proj2 (Z.leb_le 0 n)), (proj2 (Z.leb_le n _)) in Hx by lia. cbn [andb] in Hx.
    apply (start_recv_ok v b1 o L P rf _ Hb); [by rewrite He |]. intros b2 P2 Hb2 HP2 Hwr2. apply wp_bind, wp_modify. cbn [app].
    set (o2 := o <| dg_recv := (dg_recv o) <| dr_started := true |> |>) in *.
    assert (ds_job (dg_send o) ∉ P2) as Hj2.
    { rewrite HP2; [done |]. intros Ex. eapply (sides_disjoint o (ds_job (dg_send o)) (db_nodup _ _ _ _ Hb)); [apply send_in; by right |]. apply recv_in. by right. }
    destruct (send_finish _ b2 o2 L P2 Hb2 Hr Hj2) as (g & i & P3 & E & Hb3 & Hj3 & Hrj).
    eapply wp_update; [cbn; cbn in E; rewrite E; reflexivity |].
    exists (v <| v_send := SEnding |> <| v_started := true |>). cbn [dspec_effects app]. rewrite Hx, option_bind_Some. split; [done |]. split; [| done].
    exists L, P3. split; [exact Hb3 |]. exists rf, false. split; [done |]. cbn. split.
    + unfold send_ready. cbn. rewrite Hi. by apply waiting_off.
    + change (waiting rf (recv_ready (dg_recv o2)) (dg_err o) (dr_job (dg_recv o2) ∈ P3)). by rewrite Hrj.
  - apply (dg_send_waits k v v b1 o L P rf wf [x]); try done. cbn [dspec_effects]. by rewrite Hx.
  - apply (dg_report_ok v v b1 o L P [x]); [done | done | | cbn [dspec_effects]; by rewrite Hx]. destruct Hw as (Ew & _ & Hj & Hwr).
    exists rf, wf. split; [done |]. split; [| by apply waiting_err]. split; [done |]. split; [done |]. by left.
Qed.

(** ** Receiving *)

Lemma recv_working v b o L P : dbase v (mk_dsys b o) L P → recv_ready (dg_recv o) = true →
  recv_on (GWork (dr_busy_data (dg_recv o))) (RWorking (dr_busy_data (dg_recv o))) (dg_recv o) L P ∧
  v_recv v = GWork (dr_busy_data (dg_recv o)) ∧ v_started v = true ∧ 0 ≤ dr_mtu (dg_recv o).
Proof using Type.
  intros Hb [[Hi Hbu]%andb_true_iff Hh]%andb_true_iff. destruct (recv_side_on _ _ _ _ (db_recv _ _ _ _ Hb) Hi) as (u & Hu). cbn [dg] in Hu.
  pose proof (ro_rel _ _ _ _ _ Hu) as Hrel. pose proof (db_started _ _ _ _ Hb) as Hst. cbn [dg] in Hst. rewrite Hh in Hst.
  destruct (v_recv v) as [| | a | n], u as [| a' | a' | n']; cbn [recv_rel] in Hrel; try done; try congruence; try (destruct Hrel; congruence).
  destruct Hrel as (-> & _ & <-). split; [done |]. split; [done |]. split; [done |]. apply (ro_mtu _ _ _ _ _ Hu).
Qed.

Lemma recv_finish v b o L P n ra la : dbase v (mk_dsys b o) L P → recv_ready (dg_recv o) = true → dr_job (dg_recv o) ∉ P → 0 ≤ n ≤ dr_mtu (dg_recv o) →
  ∃ g i P', PacketRecvInterface_Done (pending_jobs b) (dr_iface (dg_recv o)) n = Some (g, i) ∧
    dbase (v <| v_recv := GEnding n |> <| v_last := Some (ra, la) |>) (mk_dsys (b <| pending_jobs := g |>)
      (o <| dg_recv := (dg_recv o) <| dr_remote_addr := ra |> <| dr_local_addr := la |> <| dr_have_addrs := true |> <| dr_busy := false |> <| dr_iface := i |> |>)) L P' ∧
    (dr_job (dg_recv o) ∉ P') ∧ (ds_job (dg_send o) ∈ P' ↔ ds_job (dg_send o) ∈ P).
Proof using Type.
  intros Hb Hr Hj Hn. destruct (recv_working _ _ _ _ _ Hb Hr) as (Hon & _ & Hst & Hm). pose proof Hr as [[Hi _]%andb_true_iff _]%andb_true_iff.
  destruct (recv_wired _ _ _ _ _ Hon) as (h & Hwi); [by apply (ro_user _ _ _ _ _ Hon) |].
  destruct (pri_finish_ok _ _ _ _ _ n (db_queue _ _ _ _ Hb) (ro_ok _ _ _ _ _ Hon) Hwi) as (g & i & E & Haf); [apply (ro_seen _ _ _ _ _ Hon) | done |].
  set (r' := (dg_recv o) <| dr_remote_addr := ra |> <| dr_local_addr := la |> <| dr_have_addrs := true |> <| dr_busy := false |> <| dr_iface := i |>).
  destruct (recv_on_after (GEnding n) (REnding n) (dg_recv o) r' h L P g (ro_job _ _ _ _ _ Hon) Hm Haf) as (P' & Hq & Hs & Ej & HP); try done.
  exists g, i, P'. split; [done |]. set (v' := v <| v_recv := GEnding n |> <| v_last := Some (ra, la) |>).
  destruct (dbase_recv v v' b o L P g L P' r' Hb Hq eq_refl Ej (recv_stays _ _ _ _ HP) Hs (db_started _ _ _ _ Hb) eq_refl
    (db_rmtu _ _ _ _ Hb) eq_refl eq_refl eq_refl) as [Hb2 Hsj].
  split; [exact Hb2 |]. split; [| done]. by rewrite HP by (apply recv_job_apart, (db_nodup _ _ _ _ Hb)).
Qed.

Definition recv_retry k o P (rf wf : bool) : Prop :=
  dg_wait_events o = evs rf wf ∧ (rf = true → ∀ len n name control, dk_recvmsg k len ≠ MsgBytes n name control) ∧ (dr_job (dg_recv o) ∉ P) ∧ waiting wf (send_ready (dg_send o)) false (ds_job (dg_send o) ∈ P).

Lemma dg_recv_waits k v v0 b o L P rf wf pre : dkernel_ok k → dbase v (mk_dsys b o) L P → dg_err o = false → recv_ready (dg_recv o) = true →
  recv_retry k o P rf wf → dspec_effects (dg_fd o) v0 pre = Some v →
  wp (dg_wait_for_fd k BREACTOR_READ) (λ _ z xs, follows (dg_fd o) v0 z (pre ++ xs)) (mk_dsys b o).
Proof using Type.
  intros (_ & _ & Hk & _) Hb He Hr (Ew & _ & Hj & Hw) Hpre. apply (wp_dg_wait k v b o L P true wf); [done | done | by rewrite Ew, evs_read |].
  intros b' Hb'. exists v. split; [by rewrite app_nil_r |]. split; [| done]. exists L, P. split; [done |]. exists true, wf. split; [done |].
  split; [| by apply waiting_flag]. cbn. by rewrite He.
Qed.

Lemma do_recv_ok k v b o L P rf wf : dkernel_ok k → dbase v (mk_dsys b o) L P → dg_err o = false → recv_ready (dg_recv o) = true → recv_retry k o P rf wf →
  wp (do_recv k) (λ _, follows (dg_fd o) v) (mk_dsys b o).
Proof using Type.
  intros Hk Hb0 He Hr Hw. pose proof Hr as [[Hi Hbu]%andb_true_iff Hh]%andb_true_iff.
  unfold do_recv. apply wp_bind, wp_gets. cbn [dg]. rewrite He, Hi, Hbu, Hh. do 4 (apply wp_bind, wp_assert; [done |]). apply wp_bind.
  eapply wp_dlimit; [exact Hb0 | by right |]. intros b1 go Hb. cbn [app].
  destruct (recv_working _ _ _ _ _ Hb Hr) as (_ & Ev & Est & Hm).
  destruct go; cbn [negb]; [| by apply (dg_recv_waits k v v b1 o L P rf wf [])]. apply wp_bind, wp_emit. cbn [app].
  set (x := YRecvmsg _ _ _ _).
  assert (dspec_effect (dg_fd o) v x = match dk_recvmsg k (dr_mtu (dg_recv o)) with
    | MsgBytes n name control =>
        remote ← dg_addr_sys_to_socket name;
        if (0 <=? n) && (n <=? dr_mtu (dg_recv o)) then Some (v <| v_recv := GEnding n |> <| v_last := Some (remote, recv_control control) |>) else None
    | _ => Some v
    end) as Hx.
  { unfold x, dspec_effect. rewrite (db_err _ _ _ _ Hb). cbn [dg]. rewrite He. rewrite decide_True; [done |]. by rewrite (db_rmtu _ _ _ _ Hb). }
  destruct (dk_recvmsg k (dr_mtu (dg_recv o))) as [n name control | |] eqn:Ek.
  - destruct Hk as (_ & Hkr & _). destruct (Hkr _ _ _ _ Hm Ek) as [Hn [ra Era]]. apply wp_bind, wp_assert; [apply Z.leb_le; lia |].
    apply wp_bind, wp_assert; [apply Z.leb_le; lia |]. destruct Hw as (Ew & Hnr & Hj & Hws).
    assert (rf = false) as -> by (destruct rf; [by destruct (Hnr eq_refl _ _ _ _ Ek) | done]). apply wp_bind. eapply wp_lift; [exact Era |]. apply wp_bind, wp_modify.
    rewrite Era, option_bind_Some, (proj2 (Z.leb_le 0 n)), (proj2 (Z.leb_le n _)) in Hx by lia. cbn [andb] in Hx.
    destruct (recv_finish _ b1 o L P n ra (recv_control control) Hb Hr Hj Hn) as (g & i & P3 & E & Hb3 & Hj3 & Hsj).
    eapply wp_update; [cbn; cbn in E; rewrite E; reflexivity |].
    eexists. cbn [dspec_effects app]. rewrite Hx, option_bind_Some. split; [reflexivity |]. split; [| done].
    exists L, P3. split; [exact Hb3 |]. exists false, wf. split; [done |]. cbn. rewrite He, Hsj. split; [done |].
    unfold recv_ready. cbn. rewrite Hi. by apply waiting_off.
  - apply (dg_recv_waits k v v b1 o L P rf wf [x]); try done. cbn [dspec_effects]. by rewrite Hx.
  - apply (dg_report_ok v v b1 o L P [x]); [done | done | | cbn [dspec_effects]; by rewrite Hx]. destruct Hw as (Ew & _ & Hj & Hws).
    exists rf, wf. split; [done |]. split; [by apply waiting_err |]. split; [done |]. split; [done |]. by left.
Qed.

(** ** The handler of the descriptor *)

(** Only what is waited for is reported. *)
Lemma report_events_some (r0 w0 : bool) raw :
  ∃ rf wf e h : bool, report_events (evs r0 w0) raw = rep rf wf e h ∧ (rf = true → r0 = true) ∧ (wf = true → w0 = true).
Proof using Type.
  unfold report_events.
  exists (r0 && negb (Z.land raw EPOLLIN =? 0)), (w0 && negb (Z.land raw EPOLLOUT =? 0)), (negb (Z.land raw EPOLLERR =? 0)), (negb (Z.land raw EPOLLHUP =? 0)).
  destruct (Z.land raw EPOLLIN =? 0), (Z.land raw EPOLLOUT =? 0), (Z.land raw EPOLLERR =? 0), (Z.land raw EPOLLHUP =? 0);
    destruct r0, w0; (split; [reflexivity |]); done.
Qed.

(** What the kernel does not answer in a direction that is still waited for. *)
Lemma not_ready_evs k (r w : bool) : dg_not_ready k (evs r w) →
  (w = true → ∀ len n, dk_sendmsg k len ≠ IoBytes n) ∧ (r = true → ∀ len n name control, dk_recvmsg k len ≠ MsgBytes n name control).
Proof using Type. unfold dg_not_ready. by destruct r, w. Qed.

(** While no job is set and no error was reported, a direction is waited for exactly
    while its operation can go on. *)
Lemma waiting_idle flag ready job : waiting flag ready false job → ¬ job → ready = flag.
Proof using Type. intros (H1 & H2 & H3) Hj. destruct flag, ready; try done; [by specialize (H1 eq_refl) | by destruct (H3 eq_refl) as [? | [? | ?]]]. Qed.

(** A direction that is served is waited for, one that is not stays as it is. *)
Lemma serves (r0 rf e : bool) : (rf = true → r0 = true) →
  (rf || e && r0 = true → r0 = true) ∧ (rf || e && r0 = false → r0 && negb rf = r0).
Proof using Type. destruct r0, rf, e; cbn; try done; intros H1; by specialize (H1 eq_refl). Qed.

Lemma dg_fd_handler_ok k v b o L raw : dkernel_ok k → dbase v (mk_dsys b o) L ∅ → dg_err o = false →
  (∀ h, dg_not_ready k (dg_still_waited o (DFd (dg_bfd o) h (report_events (dg_wait_events o) raw)))) → waits o ∅ →
  wp (dg_fd_handler k (report_events (dg_wait_events o) raw)) (λ _, follows (dg_fd o) v) (mk_dsys b o).
Proof using Type.
  intros Hk Hb He Hnr (r0 & w0 & Ew & Hws & Hwr). rewrite He in Hws, Hwr. specialize (Hnr 0%nat). cbn [dg_still_waited] in Hnr. rewrite decide_True in Hnr by done.
  destruct (report_events_some r0 w0 raw) as (rf & wf & e & h & Erep & Hr & Hw). rewrite Ew, Erep in *. rewrite rep_clear in Hnr.
  apply not_ready_evs in Hnr as [Hns Hnr].
  pose proof (waiting_idle _ _ _ Hws (not_elem_of_empty _)) as Esr. pose proof (waiting_idle _ _ _ Hwr (not_elem_of_empty _)) as Err.
  unfold dg_fd_handler. apply wp_bind, wp_gets. cbn [dg]. rewrite He. apply wp_bind, wp_assert; [done |]. apply wp_bind, wp_modify.
  cbn [set dsys_eta eta drea dg]. rewrite Ew, rep_clear, rep_failed, rep_write, rep_read.
  set (o1 := o <| dg_wait_events := evs (r0 && negb rf) (w0 && negb wf) |>). apply wp_bind.
  pose proof (db_own _ _ _ _ Hb) as Ho. cbn [drea dg] in Ho. pose proof Hk as (_ & _ & Hkm & _).
  refine (wp_update_events k b o1 (dg_wait_events o) _ Ho (evs_range _ _) Hkm _). intros b1 Ho1 Ej1.
  assert (dbase v (mk_dsys b1 o1) L ∅) as Hb1 by (by eapply dbase_rea).
  rewrite <- !andb_assoc. rewrite !(andb_assoc (ds_inited _)), !(andb_assoc (dr_inited _)).
  fold (send_ready (dg_send o)) (recv_ready (dg_recv o)). rewrite Esr, Err.
  destruct (serves w0 wf (e || h) Hw) as [Hs1 Hs0]. destruct (serves r0 rf (e || h) Hr) as [Hr1 Hr0].
  apply wp_bind, wp_when_assert; [done |]. apply wp_bind, wp_when_assert; [done |]. cbn [app].
  destruct (wf || (e || h) && w0) eqn:Ehs.
  - rewrite (Hs1 eq_refl) in Esr. apply wp_bind, wp_when; intros Ehr.
    + rewrite (Hr1 Ehr) in Err. assert (dr_inited (dg_recv o) = true) as Hri by (by pose proof Err as [[? _]%andb_true_iff _]%andb_true_iff).
      destruct (job_set_ok _ L ∅ (dr_job (dg_recv o)) (db_queue _ _ _ _ Hb1)) as (g & E & Hq); [by eapply recv_job_live |].
      cbn [drea] in E. eapply wp_update; [cbn [drea]; unfold with_jobs; rewrite E; reflexivity |]. cbn [app].
      assert (dbase v (mk_dsys (b1 <| pending_jobs := g |>) (o1 <| dg_recv := dg_recv o1 |>)) L (∅ ∪ {[dr_job (dg_recv o)]})) as Hb2.
      { eapply (dbase_recv_job v v b1 o1 L ∅ (dg_recv o1) g Hb1); try done;
          [apply (db_recv _ _ _ _ Hb1) | apply (db_started _ _ _ _ Hb1) | apply (db_last _ _ _ _ Hb1) | apply (db_rmtu _ _ _ _ Hb1)]. }
      replace (o1 <| dg_recv := dg_recv o1 |>) with o1 in Hb2 by (by destruct o).
      eapply (do_send_ok k v _ o1 L _ (r0 && negb rf) (w0 && negb wf) Hk Hb2 He Esr). split; [done |]. split; [done |]. split.
      * rewrite union_other; [apply not_elem_of_empty |]. intros Ex. eapply (sides_disjoint o (ds_job (dg_send o)) (db_nodup _ _ _ _ Hb)); [apply send_in; by right |].
        apply recv_in. by right.
      * apply waiting_job; [apply elem_of_union; right; by apply elem_of_singleton | exact Err].
    + cbn [app]. eapply (do_send_ok k v _ o1 L _ (r0 && negb rf) (w0 && negb wf) Hk Hb1 He Esr). split; [done |]. split; [done |]. split; [apply not_elem_of_empty |].
      by rewrite (Hr0 Ehr).
  - specialize (Hs0 eq_refl). destruct (rf || (e || h) && r0) eqn:Ehr.
    + rewrite (Hr1 eq_refl) in Err. eapply (do_recv_ok k v _ o1 L _ (r0 && negb rf) (w0 && negb wf) Hk Hb1 He Err).
      split; [done |]. split; [done |]. split; [apply not_elem_of_empty |]. by rewrite Hs0.
    + specialize (Hr0 eq_refl). apply (dg_report_ok v v b1 o1 L ∅ []); [done | done | | done]. exists (r0 && negb rf), (w0 && negb wf). split; [done |].
      rewrite Hs0, Hr0. split; by apply waiting_err.
Qed.

(** ** Other objects *)

Lemma dbase_frame v b o b' L P L' P' : dbase v (mk_dsys b o) L P → rinv b' → keeps (dg_bfd o) (ds_limit (dg_send o)) (dr_limit (dg_recv o)) b b' →
  queue (pending_jobs b') L' P' → (∀ x, x ∈ dg_jobs o → L' !! x = L !! x) → (∀ x h, L' !! x = Some h → h ∈ dg_jobs o → L !! x = Some h) →
  (∀ x, x ∈ ppi_jobs (ds_iface (dg_send o)) ++ pri_jobs (dr_iface (dg_recv o)) → (x ∈ P' ↔ x ∈ P)) → dbase v (mk_dsys b' o) L' P'.
Proof using Type.
  intros [Ho Hq Hna Hnd Hs Hr Ha Hao Hst Hla Hrm He] Hi Hk Hq' HL Hnew HP. cbn [dg drea] in *. split; cbn [dg drea]; try done.
  - by eapply own_keeps.
  - intros x h E Hh. apply (Hna x h); [by apply Hnew | done].
  - eapply send_side_frame; [exact Hs | |]; intros x Hx; [apply HL, elem_of_app; by left | apply HP, elem_of_app; by left].
  - eapply recv_side_frame; [exact Hr | |]; intros x Hx; [apply HL, elem_of_app; by right | apply HP, elem_of_app; by right].
Qed.

Lemma iface_jobs o x : x ∈ ppi_jobs (ds_iface (dg_send o)) ++ pri_jobs (dr_iface (dg_recv o)) → x ∈ dg_jobs o.
Proof using Type. unfold dg_jobs. rewrite !elem_of_app, send_in, recv_in. tauto. Qed.
Lemma my_send_job o : ds_job (dg_send o) ∈ dg_jobs o.
Proof using Type. unfold dg_jobs. rewrite elem_of_app, send_in. tauto. Qed.
Lemma my_recv_job o : dr_job (dg_recv o) ∈ dg_jobs o.
Proof using Type. unfold dg_jobs. rewrite elem_of_app, recv_in. tauto. Qed.

Lemma waits_frame o P P' : waits o P → (ds_job (dg_send o) ∈ P' ↔ ds_job (dg_send o) ∈ P) → (dr_job (dg_recv o) ∈ P' ↔ dr_job (dg_recv o) ∈ P) → waits o P'.
Proof using Type. intros (rf & wf & Ew & Hs & Hr) E1 E2. exists rf, wf. by rewrite E1, E2. Qed.

Lemma dinv_frame v b o b' L P L' P' : dbase v (mk_dsys b o) L P → waits o P → rinv b' →
  keeps (dg_bfd o) (ds_limit (dg_send o)) (dr_limit (dg_recv o)) b b' → queue (pending_jobs b') L' P' → jobs_kept (dg_jobs o) L P L' P' →
  dinv v (mk_dsys b' o).
Proof using Type.
  intros Hb Hw Hi Hk Hq' [Hag Hnew]. exists L', P'. split.
  - eapply dbase_frame; try done; intros x Hx; apply Hag; [done | by apply iface_jobs].
  - eapply waits_frame; [exact Hw | apply Hag, my_send_job | apply Hag, my_recv_job].
Qed.

(** A job of the socket is set. *)
Lemma dbase_set_job v b o L P g x : dbase v (mk_dsys b o) L P → x = ds_job (dg_send o) ∨ x = dr_job (dg_recv o) → queue g L (P ∪ {[x]}) →
  dbase v (mk_dsys (b <| pending_jobs := g |>) o) L (P ∪ {[x]}).
Proof using Type.
  intros Hb Hx Hq. pose proof (db_nodup _ _ _ _ Hb) as Hnd. cbn [dg] in Hnd. pose proof (own_jobs _ _ _ _ _ _ _ _ _ (db_own _ _ _ _ Hb) Hq) as Ho.
  eapply dbase_frame; [exact Hb | apply Ho | by apply keeps_same | exact Hq | done | done |]. intros y Hy. apply union_other. intros ->. apply elem_of_app in Hy.
  destruct Hx as [-> | ->], Hy as [Hy | Hy].
  - by apply (send_job_apart _ Hnd).
  - eapply (sides_disjoint o _ Hnd); [apply send_in; by right | apply recv_in; by left].
  - eapply (sides_disjoint o _ Hnd); [apply send_in; by left | apply recv_in; by right].
  - by apply (recv_job_apart _ Hnd).
Qed.

(** ** Jobs *)

Lemma wp_dg_put_send b' o i (Q : unit → dsys T G → list deffect → Prop) :
  Q () (mk_dsys b' (o <| dg_send := (dg_send o) <| ds_iface := i |> |>)) [] → wp (dg_send_iface (λ g _, Some (g, i))) Q (mk_dsys b' o).
Proof using Type. intros HQ. eapply wp_update; [reflexivity |]. by destruct b'. Qed.
Lemma wp_dg_put_recv b' o i (Q : unit → dsys T G → list deffect → Prop) :
  Q () (mk_dsys b' (o <| dg_recv := (dg_recv o) <| dr_iface := i |> |>)) [] → wp (dg_recv_iface (λ g _, Some (g, i))) Q (mk_dsys b' o).
Proof using Type. intros HQ. eapply wp_update; [reflexivity |]. by destruct b'. Qed.

(** The reactor has taken the job [x] from its queue. *)
Section popped.
Context (v : dview) (b b' : BReactor T G) (o : BDatagram) (L : gmap addr nat) (P : gset addr) (x : addr).
Context (Hb : dbase v (mk_dsys b o) L P) (Hi : rinv b') (Hk : keeps (dg_bfd o) (ds_limit (dg_send o)) (dr_limit (dg_recv o)) b b').
Context (Hx : x ∈ P) (Hq : queue (pending_jobs b') L (P ∖ {[x]})) (Hw : waits o P) (Eerr : dg_err o = false).

Abbreviation runs m := (wp m (λ _, follows (dg_fd o) v) (mk_dsys b' o)).

Lemma popped_before : dbase v (mk_dsys (b' <| pending_jobs := pending_jobs b |>) o) L P.
Proof using Hb Hi Hk.
  pose proof (own_keeps _ _ _ _ _ _ _ (db_own _ _ _ _ Hb) Hk Hi) as Ho. cbn [dg drea] in Ho.
  pose proof (own_jobs _ _ _ _ _ _ _ _ _ Ho (db_queue _ _ _ _ Hb)) as Ho'.
  destruct Hb. split; try done.
Qed.

(** The job is none of the interfaces. *)
Lemma popped_plain : x ∉ ppi_jobs (ds_iface (dg_send o)) ++ pri_jobs (dr_iface (dg_recv o)) → dbase v (mk_dsys b' o) L (P ∖ {[x]}).
Proof using Hb Hi Hk Hq. intros Hn. eapply dbase_frame; try done. intros y Hy. apply minus_iff. by intros ->. Qed.

Lemma send_job_plain : ds_job (dg_send o) ∉ ppi_jobs (ds_iface (dg_send o)) ++ pri_jobs (dr_iface (dg_recv o)).
Proof using Hb.
  pose proof (db_nodup _ _ _ _ Hb) as Hnd. cbn [dg] in Hnd. intros [Hy | Hy]%elem_of_app; [by apply (send_job_apart _ Hnd) |].
  eapply (sides_disjoint o _ Hnd); [apply send_in; by right | apply recv_in; by left].
Qed.
Lemma recv_job_plain : dr_job (dg_recv o) ∉ ppi_jobs (ds_iface (dg_send o)) ++ pri_jobs (dr_iface (dg_recv o)).
Proof using Hb.
  pose proof (db_nodup _ _ _ _ Hb) as Hnd. cbn [dg] in Hnd. intros [Hy | Hy]%elem_of_app; [| by apply (recv_job_apart _ Hnd)].
  eapply (sides_disjoint o _ Hnd); [apply send_in; by left | apply recv_in; by right].
Qed.
Lemma jobs_differ : ds_job (dg_send o) ≠ dr_job (dg_recv o).
Proof using Hb.
  pose proof (db_nodup _ _ _ _ Hb) as Hnd. cbn [dg] in Hnd. intros E. eapply (sides_disjoint o _ Hnd); [apply send_in; by right | apply recv_in; by right].
Qed.

Lemma job_send k : dkernel_ok k → dg_not_ready k (dg_wait_events o) → x = ds_job (dg_send o) → runs (dg_job k x).
Proof using Hb Hi Hk Hq Hw Eerr Hx.
  intros Hkk Hnr Ex. pose proof Hx as Hx'. rewrite Ex in Hx'. pose proof send_job_plain as Hpl. pose proof (popped_plain ltac:(by rewrite Ex)) as Hb1.
  unfold dg_job. apply wp_bind, wp_gets. cbn [dg]. apply wp_bind. eapply wp_lift; [apply ppi_job_other; rewrite Ex; set_solver |]. rewrite decide_True by done.
  destruct Hw as (rf & wf & Ew & (Hs1 & Hs2 & Hs3) & Hr). pose proof (Hs2 Hx') as Hrd. pose proof Hrd as [[E1 E2]%andb_true_iff E3]%andb_true_iff.
  unfold send_job_handler. apply wp_bind, wp_gets. cbn [dg]. rewrite Eerr, E1, E2, E3. do 4 (apply wp_bind, wp_assert; [done |]). cbn [app].
  rewrite Ew in Hnr. apply not_ready_evs in Hnr as [Hns _].
  apply (do_send_ok k v b' o L (P ∖ {[x]}) rf wf Hkk Hb1 Eerr Hrd). split; [done |]. split; [done |]. split.
  - rewrite <- Ex, elem_of_difference, elem_of_singleton. tauto.
  - rewrite Eerr in Hr. rewrite minus_iff; [done |]. rewrite Ex. intros E. by apply jobs_differ.
Qed.

Lemma job_recv k : dkernel_ok k → dg_not_ready k (dg_wait_events o) → x = dr_job (dg_recv o) → runs (dg_job k x).
Proof using Hb Hi Hk Hq Hw Eerr Hx.
  intros Hkk Hnr Ex. pose proof Hx as Hx'. rewrite Ex in Hx'. pose proof recv_job_plain as Hpl. pose proof (popped_plain ltac:(by rewrite Ex)) as Hb1.
  unfold dg_job. apply wp_bind, wp_gets. cbn [dg]. apply wp_bind. eapply wp_lift; [apply ppi_job_other; rewrite Ex; set_solver |].
  rewrite decide_False by (rewrite Ex; intros E; by apply jobs_differ). apply wp_bind. eapply wp_lift; [apply pri_job_other; rewrite Ex; set_solver |]. rewrite decide_True by done.
  destruct Hw as (rf & wf & Ew & Hs & (Hr1 & Hr2 & Hr3)). pose proof (Hr2 Hx') as Hrd. pose proof Hrd as [[E1 E2]%andb_true_iff E3]%andb_true_iff.
  unfold recv_job_handler. apply wp_bind, wp_gets. cbn [dg]. rewrite Eerr, E1, E2, E3. do 4 (apply wp_bind, wp_assert; [done |]). cbn [app].
  rewrite Ew in Hnr. apply not_ready_evs in Hnr as [_ Hnr].
  apply (do_recv_ok k v b' o L (P ∖ {[x]}) rf wf Hkk Hb1 Eerr Hrd). split; [done |]. split; [done |]. split.
  - rewrite <- Ex, elem_of_difference, elem_of_singleton. tauto.
  - rewrite Eerr in Hs. rewrite minus_iff; [done |]. rewrite Ex. apply jobs_differ.
Qed.

Lemma dg_popped_live : ∃ h, L !! x = Some h.
Proof using Hb Hx. destruct (db_queue _ _ _ _ Hb) as (q & _ & _ & _ & _ & Hsub). by apply elem_of_dom, Hsub. Qed.

(** The sending side after a job of its interface. *)
Lemma dg_popped_send v' u' s' h : ppi_after (send_wiring (dg_send o) h) L (P ∖ {[x]}) (ds_iface (dg_send o)) u' (pending_jobs b') (ds_iface s') →
  L !! ds_job (dg_send o) = Some (ds_job (dg_send o)) → x ∈ ppi_jobs (ds_iface (dg_send o)) → send_rel (v_send v') u' s' →
  v' = v <| v_send := v_send v' |> → s' = (dg_send o) <| ds_iface := ds_iface s' |> <| ds_busy_data := ds_busy_data s' |>
    <| ds_busy_data_len := ds_busy_data_len s' |> <| ds_busy := ds_busy s' |> → ds_inited (dg_send o) = true →
  ∃ P', dbase v' (mk_dsys b' (o <| dg_send := s' |>)) L P' ∧ (ds_job (dg_send o) ∈ P' ↔ ds_job (dg_send o) ∈ P) ∧ (dr_job (dg_recv o) ∈ P' ↔ dr_job (dg_recv o) ∈ P).
Proof using Hb Hi Hk.
  intros Haf Hj Hin Hrel Ev Es Ein.
  assert (ds_mtu s' = ds_mtu (dg_send o) ∧ ds_job s' = ds_job (dg_send o) ∧ ds_inited s' = true ∧ ds_limit s' = ds_limit (dg_send o) ∧
    addrs_of s' = addrs_of (dg_send o) ∧ addr_ok s') as (E1 & E2 & E3 & E4 & E5 & E6).
  { rewrite Es. split_and!; try done. exact (db_addr_ok _ _ _ _ Hb). }
  destruct (send_on_after _ u' (dg_send o) s' h L (P ∖ {[x]}) _ Hj Haf E1 E2 E3 Hrel) as (P' & Hq' & Hs & Ej & HP). exists P'.
  pose proof popped_before as Hb0.
  assert (∀ y, y ∉ ppi_jobs (ds_iface (dg_send o)) → (y ∈ P' ↔ y ∈ P)) as HP0 by (intros y Hy; rewrite HP by done; apply minus_iff; by intros ->).
  destruct (dbase_send v v' _ o L P (pending_jobs b') L P' s' Hb0 Hq' E4 Ej (send_stays _ _ _ _ HP0) Hs E6) as [Hb2 Hrj]; try (rewrite Ev; done).
  { rewrite Ev, E5. exact (db_addrs _ _ _ _ Hb). }
  rewrite restore_jobs in Hb2. split; [done |]. split; [| done]. apply HP0, send_job_apart, (db_nodup _ _ _ _ Hb).
Qed.

Lemma job_send_iface k : x ∈ ppi_jobs (ds_iface (dg_send o)) → runs (dg_job k x).
Proof using Hb Hi Hk Hq Hw Eerr Hx.
  intros Hin. destruct dg_popped_live as (hx & Hlx). pose proof (db_send _ _ _ _ Hb) as Hs. cbn [dg] in Hs.
  assert (ds_inited (dg_send o) = true) as Ein.
  { destruct (ds_inited (dg_send o)) eqn:E; [done |]. destruct (send_side_off _ _ _ _ Hs E) as [_ Hn]. rewrite Hn in Hlx by (apply send_in; by left). done. }
  destruct (send_side_on _ _ _ _ Hs Ein) as (u & Hon). pose proof (so_rel _ _ _ _ _ Hon) as Hrel. pose proof (db_err _ _ _ _ Hb) as Ev. cbn [dg] in Ev. rewrite Eerr in Ev.
  assert (u ≠ VIdle) as Hne.
  { intros ->. pose proof (so_seen _ _ _ _ _ Hon) as Hst. cbn [seen] in Hst. pose proof (so_ok _ _ _ _ _ Hon) as [_ _ Hop Hdo Hca].
    unfold ppi_jobs in Hin. rewrite !elem_of_cons in Hin. destruct Hin as [E | [E | [E | []%elem_of_nil]]]; rewrite E in Hx.
    - apply Hop in Hx. congruence.
    - destruct (Hca Hx). congruence.
    - apply Hdo in Hx. congruence. }
  destruct (send_wired _ _ _ _ _ Hon (so_user _ _ _ _ _ Hon Hne)) as (h & Hwi).
  destruct (ppi_job_ok _ _ _ _ _ _ x Hq (so_ok _ _ _ _ _ Hon) Hwi (so_seen _ _ _ _ _ Hon) Hx Hin) as (i & c & u' & E & Eex & Haf).
  unfold dg_job. apply wp_bind, wp_gets. cbn [dg]. apply wp_bind. eapply wp_lift; [exact E |]. apply wp_bind, wp_dg_put_send. cbn [app].
  destruct Hw as (rf & wf & Ew & Hws & Hwr).
  destruct u as [| d l | [] [] |], c as [hh d' l' | hh d' | hh | hh | hh l']; cbn [expected] in Eex; try done; case_decide as Hd; simplify_eq;
    destruct (v_send v) as [| | a len |] eqn:Esv; cbn [send_rel] in Hrel; try done.
  - destruct Hd as (-> & -> & ->), Hrel as (-> & -> & Ebu & Hl). unfold dg_send_call, send_if_handler_send. apply wp_bind, wp_gets.
    apply wp_bind, wp_assert; [cbn; by rewrite Eerr |]. apply wp_bind, wp_assert; [done |]. apply wp_bind, wp_assert; [cbn; by rewrite Ebu |].
    apply wp_bind, wp_assert; [apply Z.leb_le; lia |]. apply wp_bind, wp_assert; [cbn; apply Z.leb_le; lia |]. apply wp_bind, wp_modify. cbn [app].
    set (s' := (dg_send o) <| ds_iface := i |> <| ds_busy_data := a |> <| ds_busy_data_len := len |> <| ds_busy := true |>).
    destruct (dg_popped_send v (VWorking false false) s' h Haf (so_job _ _ _ _ _ Hon) Hin) as (P' & Hb2 & Hsj & Hrj); [by rewrite Esv | by destruct v | done | done |].
    assert (send_ready (dg_send o) = false) as Hnr by (unfold send_ready; by rewrite Ebu, andb_false_r).
    rewrite Hnr in Hws. apply waiting_none in Hws as [-> Hnj]. apply wp_when; intros Eh; cbn in Eh.
    + destruct (job_set_ok _ L P' (ds_job (dg_send o)) (db_queue _ _ _ _ Hb2)) as (g & Eg & Hqg); [by eapply (send_job_live _ _ _ _ _ Hb) |].
      cbn [drea] in Eg. eapply wp_update; [cbn; unfold with_jobs; rewrite Eg; reflexivity |]. exists v. split; [done |]. split; [| done].
      exists L, (P' ∪ {[ds_job (dg_send o)]}). split; [exact (dbase_set_job _ _ _ _ _ _ _ Hb2 (or_introl eq_refl) Hqg) |]. exists rf, false. split; [done |]. split.
      * apply waiting_job; [apply elem_of_union; right; by apply elem_of_singleton |]. unfold send_ready. cbn. by rewrite Ein, Eh.
      * change (waiting rf (recv_ready (dg_recv o)) (dg_err o) (dr_job (dg_recv o) ∈ P' ∪ {[ds_job (dg_send o)]})).
        rewrite union_other by (intros E'; by apply jobs_differ). by rewrite Hrj.
    + exists v. split; [done |]. split; [| done]. exists L, P'. split; [exact Hb2 |]. exists rf, false. split; [done |]. split.
      * unfold send_ready. cbn. rewrite Eh, andb_false_r. apply waiting_off. by rewrite Hsj.
      * change (waiting rf (recv_ready (dg_recv o)) (dg_err o) (dr_job (dg_recv o) ∈ P')). by rewrite Hrj.
  - unfold dg_send_call. apply wp_emit.
    set (s' := (dg_send o) <| ds_iface := i |>). set (v' := v <| v_send := SIdle |>).
    destruct (dg_popped_send v' VIdle s' _ Haf (so_job _ _ _ _ _ Hon) Hin) as (P' & Hb2 & Hsj & Hrj); [exact Hrel | done | by destruct (dg_send o) | done |].
    exists v'. split; [cbn [dspec_effects]; unfold dspec_effect; by rewrite Ev, decide_True |]. split; [| done].
    exists L, P'. split; [exact Hb2 |]. exists rf, wf. split; [done |]. split; [| change (waiting rf (recv_ready (dg_recv o)) (dg_err o) (dr_job (dg_recv o) ∈ P')); by rewrite Hrj].
    change (waiting wf (send_ready (dg_send o)) (dg_err o) (ds_job (dg_send o) ∈ P')). by rewrite Hsj.
Qed.

Lemma dg_popped_recv v' u' r' h : pri_after (recv_wiring (dg_recv o) h) L (P ∖ {[x]}) (dr_iface (dg_recv o)) u' (pending_jobs b') (dr_iface r') →
  L !! dr_job (dg_recv o) = Some (dr_job (dg_recv o)) → 0 ≤ dr_mtu (dg_recv o) → x ∈ pri_jobs (dr_iface (dg_recv o)) → recv_rel (v_recv v') u' r' →
  v' = v <| v_recv := v_recv v' |> → r' = (dg_recv o) <| dr_iface := dr_iface r' |> <| dr_busy_data := dr_busy_data r' |> <| dr_busy := dr_busy r' |> →
  dr_inited (dg_recv o) = true →
  ∃ P', dbase v' (mk_dsys b' (o <| dg_recv := r' |>)) L P' ∧ (ds_job (dg_send o) ∈ P' ↔ ds_job (dg_send o) ∈ P) ∧ (dr_job (dg_recv o) ∈ P' ↔ dr_job (dg_recv o) ∈ P).
Proof using Hb Hi Hk.
  intros Haf Hj Hm Hin Hrel Ev Es Ein.
  assert (dr_mtu r' = dr_mtu (dg_recv o) ∧ dr_job r' = dr_job (dg_recv o) ∧ dr_inited r' = true ∧ dr_limit r' = dr_limit (dg_recv o) ∧
    last_of r' = last_of (dg_recv o) ∧ dr_started r' = dr_started (dg_recv o)) as (E1 & E2 & E3 & E4 & E5 & E6) by (by rewrite Es).
  destruct (recv_on_after _ u' (dg_recv o) r' h L (P ∖ {[x]}) _ Hj Hm Haf E1 E2 E3 Hrel) as (P' & Hq' & Hs & Ej & HP). exists P'.
  pose proof popped_before as Hb0.
  assert (∀ y, y ∉ pri_jobs (dr_iface (dg_recv o)) → (y ∈ P' ↔ y ∈ P)) as HP0 by (intros y Hy; rewrite HP by done; apply minus_iff; by intros ->).
  destruct (dbase_recv v v' _ o L P (pending_jobs b') L P' r' Hb0 Hq' E4 Ej (recv_stays _ _ _ _ HP0) Hs) as [Hb2 Hsj]; try (rewrite Ev; done).
  - rewrite Ev, E6. exact (db_started _ _ _ _ Hb).
  - rewrite Ev, E5. exact (db_last _ _ _ _ Hb).
  - rewrite Ev, E1. exact (db_rmtu _ _ _ _ Hb).
  - rewrite restore_jobs in Hb2. split; [done |]. split; [done |]. apply HP0, recv_job_apart, (db_nodup _ _ _ _ Hb).
Qed.

Lemma job_recv_iface k : x ∈ pri_jobs (dr_iface (dg_recv o)) → runs (dg_job k x).
Proof using Hb Hi Hk Hq Hw Eerr Hx.
  intros Hin. destruct dg_popped_live as (hx & Hlx). pose proof (db_recv _ _ _ _ Hb) as Hs. cbn [dg] in Hs. pose proof (db_nodup _ _ _ _ Hb) as Hnd. cbn [dg] in Hnd.
  assert (dr_inited (dg_recv o) = true) as Ein.
  { destruct (dr_inited (dg_recv o)) eqn:E; [done |]. destruct (recv_side_off _ _ _ _ Hs E) as [_ Hn]. rewrite Hn in Hlx by (apply recv_in; by left). done. }
  destruct (recv_side_on _ _ _ _ Hs Ein) as (u & Hon). pose proof (ro_rel _ _ _ _ _ Hon) as Hrel. pose proof (db_err _ _ _ _ Hb) as Ev. cbn [dg] in Ev. rewrite Eerr in Ev.
  assert (u ≠ RIdle) as Hne.
  { intros ->. pose proof (ro_seen _ _ _ _ _ Hon) as Hst. cbn [rseen] in Hst. pose proof (ro_ok _ _ _ _ _ Hon) as [_ _ Hop Hdo].
    unfold pri_jobs in Hin. rewrite !elem_of_cons in Hin. destruct Hin as [E | [E | []%elem_of_nil]]; rewrite E in Hx; [apply Hop in Hx | apply Hdo in Hx]; congruence. }
  destruct (recv_wired _ _ _ _ _ Hon (ro_user _ _ _ _ _ Hon Hne)) as (h & Hwi).
  destruct (pri_job_ok _ _ _ _ _ _ x Hq (ro_ok _ _ _ _ _ Hon) Hwi (ro_seen _ _ _ _ _ Hon) Hx Hin) as (i & c & u' & E & Eex & Haf).
  assert (x ∉ send_jobs (dg_send o)) as Hns by (intros Hy; eapply (sides_disjoint o x Hnd Hy), recv_in; by left).
  rewrite send_in in Hns. unfold dg_job. apply wp_bind, wp_gets. cbn [dg]. apply wp_bind. eapply wp_lift; [apply ppi_job_other; tauto |].
  rewrite decide_False by tauto. apply wp_bind. eapply wp_lift; [exact E |]. apply wp_bind, wp_dg_put_recv. cbn [app].
  destruct Hw as (rf & wf & Ew & Hws & Hwr). pose proof (ro_mtu _ _ _ _ _ Hon) as [_ Hm].
  destruct u as [| d | d | l], c as [hh d' l' | hh d' | hh | hh | hh l']; cbn [rexpected] in Eex; try done; case_decide as Hd; simplify_eq;
    destruct (v_recv v) as [| | a | n] eqn:Esv; cbn [recv_rel] in Hrel; try done.
  - destruct Hd as [-> ->], Hrel as [-> Ebu]. unfold dg_recv_call, recv_if_handler_recv. apply wp_bind, wp_gets.
    apply wp_bind, wp_assert; [cbn; by rewrite Eerr |]. apply wp_bind, wp_assert; [done |]. apply wp_bind, wp_assert; [cbn; by rewrite Ebu |].
    apply wp_bind, wp_modify. cbn [app].
    set (r' := (dg_recv o) <| dr_iface := i |> <| dr_busy_data := a |> <| dr_busy := true |>).
    destruct (dg_popped_recv v (RWorking a) r' h Haf (ro_job _ _ _ _ _ Hon) Hm Hin) as (P' & Hb2 & Hsj & Hrj); [by rewrite Esv | by destruct v | done | done |].
    assert (recv_ready (dg_recv o) = false) as Hnr by (unfold recv_ready; by rewrite Ebu, andb_false_r).
    rewrite Hnr in Hwr. apply waiting_none in Hwr as [-> Hnj]. apply wp_when; intros Eh; cbn in Eh.
    + destruct (job_set_ok _ L P' (dr_job (dg_recv o)) (db_queue _ _ _ _ Hb2)) as (g & Eg & Hqg); [by eapply (recv_job_live _ _ _ _ _ Hb) |].
      cbn [drea] in Eg. eapply wp_update; [cbn; unfold with_jobs; rewrite Eg; reflexivity |]. exists v. split; [done |]. split; [| done].
      exists L, (P' ∪ {[dr_job (dg_recv o)]}). split; [exact (dbase_set_job _ _ _ _ _ _ _ Hb2 (or_intror eq_refl) Hqg) |]. exists false, wf. split; [done |]. split.
      * change (waiting wf (send_ready (dg_send o)) (dg_err o) (ds_job (dg_send o) ∈ P' ∪ {[dr_job (dg_recv o)]})).
        rewrite union_other by (exact jobs_differ). by rewrite Hsj.
      * apply waiting_job; [apply elem_of_union; right; by apply elem_of_singleton |]. unfold recv_ready. cbn. by rewrite Ein, Eh.
    + exists v. split; [done |]. split; [| done]. exists L, P'. split; [exact Hb2 |]. exists false, wf. split; [done |]. split.
      * change (waiting wf (send_ready (dg_send o)) (dg_err o) (ds_job (dg_send o) ∈ P')). by rewrite Hsj.
      * unfold recv_ready. cbn. rewrite Eh, andb_false_r. apply waiting_off. by rewrite Hrj.
  - destruct Hrel as [-> Ebu], Hd as [-> ->]. unfold dg_recv_call. apply wp_emit.
    set (r' := (dg_recv o) <| dr_iface := i |>). set (v' := v <| v_recv := GIdle |>).
    destruct (dg_popped_recv v' RIdle r' _ Haf (ro_job _ _ _ _ _ Hon) Hm Hin) as (P' & Hb2 & Hsj & Hrj); [exact Ebu | done | by destruct (dg_recv o) | done |].
    exists v'. split; [cbn [dspec_effects]; unfold dspec_effect; by rewrite Ev, decide_True |]. split; [| done].
    exists L, P'. split; [exact Hb2 |]. exists rf, wf. split; [done |]. split; [change (waiting wf (send_ready (dg_send o)) (dg_err o) (ds_job (dg_send o) ∈ P')); by rewrite Hsj |].
    change (waiting rf (recv_ready (dg_recv o)) (dg_err o) (dr_job (dg_recv o) ∈ P')). by rewrite Hrj.
Qed.

(** Any job. *)
Lemma dg_job_runs k h : dkernel_ok k → dg_not_ready k (dg_wait_events o) → L !! x = Some h → runs (dg_job k h).
Proof using Hb Hi Hk Hq Hw Eerr Hx.
  intros Hkk Hnr Hh. destruct (decide (x ∈ dg_jobs o)) as [Hm | Hm].
  - assert (x = h) as <-.
    { unfold dg_jobs in Hm. apply elem_of_app in Hm as [Hm | Hm]; [exact (send_names _ _ _ _ _ _ (db_send _ _ _ _ Hb) Hm Hh) | exact (recv_names _ _ _ _ _ _ (db_recv _ _ _ _ Hb) Hm Hh)]. }
    unfold dg_jobs in Hm. rewrite elem_of_app, send_in, recv_in in Hm.
    destruct Hm as [[Hm | Hm] | [Hm | Hm]]; [by apply job_send_iface | by apply job_send | by apply job_recv_iface | by apply job_recv].
  - assert (h ∉ dg_jobs o) as Hn by (intros Hn; apply Hm; by rewrite (db_named _ _ _ _ Hb x h Hh Hn)).
    assert (∀ y, y ∈ dg_jobs o → y ≠ x ∧ y ≠ h) as Hdiff by (intros y Hy; split; by intros ->).
    unfold dg_job. apply wp_bind, wp_gets. cbn [dg]. apply wp_bind.
    eapply wp_lift; [apply ppi_job_other; intros Hy; apply Hn, iface_jobs, elem_of_app; by left |].
    rewrite decide_False by (intros ->; apply Hn, my_send_job). apply wp_bind.
    eapply wp_lift; [apply pri_job_other; intros Hy; apply Hn, iface_jobs, elem_of_app; by right |].
    rewrite decide_False by (intros ->; apply Hn, my_recv_job). apply wp_ret. exists v. split; [done |]. split; [| done]. exists L, (P ∖ {[x]}). split.
    + apply popped_plain. intros Hy. by apply Hm, iface_jobs.
    + eapply waits_frame; [exact Hw | apply minus_iff, (Hdiff _ (my_send_job o)) | apply minus_iff, (Hdiff _ (my_recv_job o))].
Qed.

End popped.

End laws.
