(* ===== verification/DatagramSteps.v ===== *)
(** * The steps of a datagram socket

    The proofs that every event of a run (DatagramRun.v) that is allowed is defined,
    keeps the invariant and follows the protocol, and so does every run. *)
From S2P Require Import Prelude LinkedLists BPending FlowInterfaces SearchTree BAVL CAvl BReactor BAddr BConnection BDatagram ReactorFrame DatagramRun DatagramLaws.

(** The jobs of an interface, with one more, are made, or freed. *)
Lemma jobs_made (L : gmap addr nat) J j x :
  <[j := j]> (FlowInterfaces.with_jobs L (rev J)) !! x = if decide (x ∈ J ++ [j]) then Some x else L !! x.
Proof.
  rewrite lookup_insert. case_decide as Ej; [subst; rewrite decide_True; [done |]; apply elem_of_app; right; by apply list_elem_of_singleton |].
  case_decide as Hx.
  - apply elem_of_app in Hx as [Hx | ->%list_elem_of_singleton]; [| done]. rewrite <- elem_of_rev in Hx. revert Hx. generalize (rev J) as K. intros K Hx.
    induction K as [| y K IH]; [by apply elem_of_nil in Hx |]. cbn [FlowInterfaces.with_jobs foldr]. rewrite lookup_insert. case_decide; [by subst |].
    apply IH. apply elem_of_cons in Hx as [-> |]; done.
  - rewrite with_jobs_other; [done |]. rewrite elem_of_rev. intros Hy. apply Hx, elem_of_app. by left.
Qed.

Lemma jobs_gone (L : gmap addr nat) J j x : foldr delete (delete j L) J !! x = if decide (x ∈ J ++ [j]) then None else L !! x.
Proof.
  induction J as [| y J IH]; cbn [foldr app].
  - rewrite lookup_delete. apply decide_ext. by rewrite list_elem_of_singleton.
  - rewrite lookup_delete, IH. destruct (decide (y = x)) as [-> | Ey]; [rewrite decide_True; [done | apply list_elem_of_here] |].
    apply decide_ext. rewrite elem_of_cons. split; [by right | intros [-> |]; done].
Qed.

Lemma set_gone (P : gset addr) J j x : x ∈ P ∖ {[j]} ∖ list_to_set J ↔ x ∈ P ∧ x ∉ J ++ [j].
Proof. rewrite !elem_of_difference, elem_of_singleton, elem_of_list_to_set, elem_of_app, list_elem_of_singleton. tauto. Qed.

Section steps.
Context {T G : Type} `{OrderedTree T} `{JobQueue G}.

(** ** Making and freeing a side *)

Lemma send_made (s : dgram_send) (g : G) L P mtu : queue g L P → 0 ≤ mtu → NoDup (send_jobs s) → (∀ x, x ∈ send_jobs s → L !! x = None) →
  ∃ g1 g2 i L', PacketPassInterface_Init g (ds_iface s) mtu dg_send_operation = Some (g1, i) ∧ job_init g1 (ds_job s) = Some g2 ∧ queue g2 L' P ∧
    (∀ x, L' !! x = if decide (x ∈ send_jobs s) then Some x else L !! x) ∧
    let s' := s <| ds_mtu := mtu |> <| ds_iface := i |> <| ds_busy := false |> <| ds_inited := true |> in
    send_jobs s' = send_jobs s ∧ send_side SIdle s' L' P.
Proof using Type.
  intros Hq Hm Hnd Hn. pose proof Hnd as (Hnd1 & Hd & _)%NoDup_app.
  destruct (ppi_init_ok g L P (ds_iface s) mtu dg_send_operation Hq Hm Hnd1) as (g1 & i & E1 & Ej & Hq1 & Hok & Em & Eop & Enc & Est).
  { intros x Hx. apply Hn, send_in. by left. }
  destruct (job_init_ok g1 _ P (ds_job s) Hq1) as (g2 & E2 & Hq2).
  { rewrite with_jobs_other; [apply Hn, send_in; by right |]. rewrite elem_of_rev. intros Hx. apply (Hd _ Hx), list_elem_of_singleton. done. }
  pose proof (jobs_made L (ppi_jobs (ds_iface s)) (ds_job s)) as HL. revert Hq2 HL. generalize (<[ds_job s := ds_job s]> (FlowInterfaces.with_jobs L (rev (ppi_jobs (ds_iface s))))) as L'. intros L' Hq2 HL.
  exists g1, g2, i, L'. split; [done |]. split; [done |]. split; [exact Hq2 |]. split; [exact HL |]. cbv zeta. assert (send_jobs (s <| ds_mtu := mtu |> <| ds_iface := i |> <| ds_busy := false |> <| ds_inited := true |>) = send_jobs s) as Ejs.
  { unfold send_jobs. cbn [ds_iface ds_job set dgram_send_eta eta]. by rewrite Ej. }
  split; [done |]. split; [done |]. exists VIdle. split; cbn; try done.
  - destruct Hok as [H1 H2 H3 H4 H5]. split; try done. intros x Hx. rewrite HL, decide_True; [done |]. rewrite <- Ej. apply elem_of_app. by left.
  - rewrite HL, decide_True; [done |]. apply elem_of_app. right. by apply list_elem_of_singleton.
Qed.

Lemma recv_made (r : dgram_recv) (g : G) L P mtu : queue g L P → 0 ≤ mtu → NoDup (recv_jobs r) → (∀ x, x ∈ recv_jobs r → L !! x = None) →
  ∃ g1 g2 i L', PacketRecvInterface_Init g (dr_iface r) mtu dg_recv_operation = Some (g1, i) ∧ job_init g1 (dr_job r) = Some g2 ∧ queue g2 L' P ∧
    (∀ x, L' !! x = if decide (x ∈ recv_jobs r) then Some x else L !! x) ∧
    let r' := r <| dr_mtu := mtu |> <| dr_iface := i |> <| dr_busy := false |> <| dr_inited := true |> in
    recv_jobs r' = recv_jobs r ∧ recv_side GIdle r' L' P.
Proof using Type.
  intros Hq Hm Hnd Hn. pose proof Hnd as (Hnd1 & Hd & _)%NoDup_app.
  destruct (pri_init_ok g L P (dr_iface r) mtu dg_recv_operation Hq Hm Hnd1) as (g1 & i & E1 & Ej & Hq1 & Hok & Em & Eop & Edn & Est).
  { intros x Hx. apply Hn, recv_in. by left. }
  destruct (job_init_ok g1 _ P (dr_job r) Hq1) as (g2 & E2 & Hq2).
  { rewrite with_jobs_other; [apply Hn, recv_in; by right |]. rewrite elem_of_rev. intros Hx. apply (Hd _ Hx), list_elem_of_singleton. done. }
  pose proof (jobs_made L (pri_jobs (dr_iface r)) (dr_job r)) as HL. revert Hq2 HL. generalize (<[dr_job r := dr_job r]> (FlowInterfaces.with_jobs L (rev (pri_jobs (dr_iface r))))) as L'. intros L' Hq2 HL.
  exists g1, g2, i, L'. split; [done |]. split; [done |]. split; [exact Hq2 |]. split; [exact HL |]. cbv zeta. assert (recv_jobs (r <| dr_mtu := mtu |> <| dr_iface := i |> <| dr_busy := false |> <| dr_inited := true |>) = recv_jobs r) as Ejs.
  { unfold recv_jobs. cbn [dr_iface dr_job set dgram_recv_eta eta]. by rewrite Ej. }
  split; [done |]. split; [done |]. exists RIdle. split; cbn; try done.
  - destruct Hok as [H1 H2 H3 H4]. split; try done. intros x Hx. rewrite HL, decide_True; [done |]. rewrite <- Ej. apply elem_of_app. by left.
  - rewrite HL, decide_True; [done |]. apply elem_of_app. right. by apply list_elem_of_singleton.
Qed.

Lemma send_freed d u (s : dgram_send) (g : G) L P : queue g L P → send_on d u s L P → NoDup (send_jobs s) →
  ∃ g1 g2 L' P', job_free g (ds_job s) = Some g1 ∧ PacketPassInterface_Free g1 (ds_iface s) = Some g2 ∧ queue g2 L' P' ∧
    (∀ x, L' !! x = if decide (x ∈ send_jobs s) then None else L !! x) ∧ (∀ x, x ∈ P' ↔ x ∈ P ∧ x ∉ send_jobs s).
Proof using Type.
  intros Hq Hon (_ & Hd & _)%NoDup_app. assert (ds_job s ∉ ppi_jobs (ds_iface s)) as Hj by (intros Hx; apply (Hd _ Hx), list_elem_of_singleton; done).
  destruct (job_free_ok g L P (ds_job s) Hq) as (g1 & E1 & Hq1); [apply elem_of_dom; eexists; exact (so_job _ _ _ _ _ Hon) |].
  assert (ppi_ok (delete (ds_job s) L) (P ∖ {[ds_job s]}) (ds_iface s)) as Hok.
  { assert (∀ x, x ∈ ppi_jobs (ds_iface s) → x ≠ ds_job s) as Hne by (by intros x Hx ->).
    pose proof (ppi_ok_frame L P (P ∖ {[ds_job s]}) _ (λ x Hx, minus_iff P _ x (Hne x Hx)) (so_ok _ _ _ _ _ Hon)) as [H1 H2 H3 H4 H5]. split; try done.
    intros x Hx. rewrite lookup_delete_ne by (apply not_eq_sym; by apply Hne). by apply H1. }
  destruct (ppi_free_ok g1 _ _ _ Hq1 Hok) as (g2 & E2 & Hq2). eexists g1, g2, _, _. split; [done |]. split; [done |]. split; [exact Hq2 |].
  split; intros x; [apply jobs_gone | apply set_gone].
Qed.

Lemma recv_freed d u (r : dgram_recv) (g : G) L P : queue g L P → recv_on d u r L P → NoDup (recv_jobs r) →
  ∃ g1 g2 L' P', job_free g (dr_job r) = Some g1 ∧ PacketRecvInterface_Free g1 (dr_iface r) = Some g2 ∧ queue g2 L' P' ∧
    (∀ x, L' !! x = if decide (x ∈ recv_jobs r) then None else L !! x) ∧ (∀ x, x ∈ P' ↔ x ∈ P ∧ x ∉ recv_jobs r).
Proof using Type.
  intros Hq Hon (_ & Hd & _)%NoDup_app. assert (dr_job r ∉ pri_jobs (dr_iface r)) as Hj by (intros Hx; apply (Hd _ Hx), list_elem_of_singleton; done).
  destruct (job_free_ok g L P (dr_job r) Hq) as (g1 & E1 & Hq1); [apply elem_of_dom; eexists; exact (ro_job _ _ _ _ _ Hon) |].
  assert (pri_ok (delete (dr_job r) L) (P ∖ {[dr_job r]}) (dr_iface r)) as Hok.
  { assert (∀ x, x ∈ pri_jobs (dr_iface r) → x ≠ dr_job r) as Hne by (by intros x Hx ->).
    pose proof (pri_ok_frame L P (P ∖ {[dr_job r]}) _ (λ x Hx, minus_iff P _ x (Hne x Hx)) (ro_ok _ _ _ _ _ Hon)) as [H1 H2 H3 H4]. split; try done.
    intros x Hx. rewrite lookup_delete_ne by (apply not_eq_sym; by apply Hne). by apply H1. }
  destruct (pri_free_ok g1 _ _ _ Hq1 Hok) as (g2 & E2 & Hq2). eexists g1, g2, _, _. split; [done |]. split; [done |]. split; [exact Hq2 |].
  split; intros x; [apply jobs_gone | apply set_gone].
Qed.

(** ** The user *)

Section user.
Context (v : dview) (b : BReactor T G) (o : BDatagram) (L : gmap addr nat) (P : gset addr).
Context (Hb : dbase v (mk_dsys b o) L P) (Hw : waits o P).

(** The user may do [e], and then the socket goes on from there. *)
Definition proceeds (e : devent) : Prop := ∃ v1, dspec_event v e = Some v1 ∧ wp (dg_step e) (λ _, follows (dg_fd o) v1) (mk_dsys b o).

Lemma send_side_nodup : NoDup (send_jobs (dg_send o)).
Proof using Hb. by pose proof (db_nodup _ _ _ _ Hb) as (? & _)%NoDup_app. Qed.
Lemma recv_side_nodup : NoDup (recv_jobs (dg_recv o)).
Proof using Hb. by pose proof (db_nodup _ _ _ _ Hb) as (_ & _ & ?)%NoDup_app. Qed.

Lemma proceeds_send_init mtu : dev_ok (mk_dsys b o) (DSendInit mtu) → proceeds (DSendInit mtu).
Proof using Hb Hw.
  intros (Eerr & Ei & Hm). cbn [dg] in *. destruct (send_side_off _ _ _ _ (db_send _ _ _ _ Hb) Ei) as [Ev Hn]. cbn [dg] in Hn.
  destruct (send_made (dg_send o) _ L P mtu (db_queue _ _ _ _ Hb) Hm send_side_nodup Hn) as (g1 & g2 & i & L' & E1 & E2 & Hq & HL & Ej & Hs). cbn [drea] in E1.
  set (v1 := v <| v_send := SIdle |>). exists v1. split; [cbn [dspec_event]; by rewrite decide_True |].
  cbn [dg_step]. unfold BDatagram_SendAsync_Init. apply wp_bind, wp_gets. cbn [dg]. rewrite Eerr, Ei.
  do 2 (apply wp_bind, wp_assert; [done |]). apply wp_bind, wp_assert; [by apply Z.leb_le |]. apply wp_bind, wp_modify.
  apply wp_bind. eapply wp_update; [cbn; rewrite E1; reflexivity |]. apply wp_bind. eapply wp_update; [unfold with_jobs; cbn; rewrite E2; reflexivity |].
  apply wp_modify. cbn [app]. set (s' := (dg_send o) <| ds_mtu := mtu |> <| ds_iface := i |> <| ds_busy := false |> <| ds_inited := true |>) in *.
  destruct (dbase_send v v1 b o L P g2 L' P s' Hb Hq eq_refl Ej (side_init _ _ HL) Hs (db_addr_ok _ _ _ _ Hb) (db_addrs _ _ _ _ Hb)) as [Hb2 Hrj]; try done.
  exists v1. split; [done |]. split; [| done]. exists L', P. split; [exact Hb2 |]. destruct Hw as (rf & wf & Ew & Hws & Hwr). exists rf, wf. split; [done |].
  split; [| done]. unfold send_ready in Hws. rewrite Ei in Hws. exact Hws.
Qed.

Lemma proceeds_recv_init mtu : dev_ok (mk_dsys b o) (DRecvInit mtu) → proceeds (DRecvInit mtu).
Proof using Hb Hw.
  intros (Eerr & Ei & Hm). cbn [dg] in *. destruct (recv_side_off _ _ _ _ (db_recv _ _ _ _ Hb) Ei) as [Ev Hn]. cbn [dg] in Hn.
  destruct (recv_made (dg_recv o) _ L P mtu (db_queue _ _ _ _ Hb) Hm recv_side_nodup Hn) as (g1 & g2 & i & L' & E1 & E2 & Hq & HL & Ej & Hs). cbn [drea] in E1.
  set (v1 := v <| v_recv := GIdle |> <| v_rmtu := mtu |>). exists v1. split; [cbn [dspec_event]; by rewrite decide_True |].
  cbn [dg_step]. unfold BDatagram_RecvAsync_Init. apply wp_bind, wp_gets. cbn [dg]. rewrite Eerr, Ei.
  do 2 (apply wp_bind, wp_assert; [done |]). apply wp_bind, wp_assert; [by apply Z.leb_le |]. apply wp_bind, wp_modify.
  apply wp_bind. eapply wp_update; [cbn; rewrite E1; reflexivity |]. apply wp_bind. eapply wp_update; [unfold with_jobs; cbn; rewrite E2; reflexivity |].
  apply wp_modify. cbn [app]. set (r' := (dg_recv o) <| dr_mtu := mtu |> <| dr_iface := i |> <| dr_busy := false |> <| dr_inited := true |>) in *.
  destruct (dbase_recv v v1 b o L P g2 L' P r' Hb Hq eq_refl Ej (side_init _ _ HL) Hs (db_started _ _ _ _ Hb) (db_last _ _ _ _ Hb)) as [Hb2 Hsj]; try done.
  exists v1. split; [done |]. split; [| done]. exists L', P. split; [exact Hb2 |]. destruct Hw as (rf & wf & Ew & Hws & Hwr). exists rf, wf. split; [done |].
  split; [done |]. unfold recv_ready in Hwr. rewrite Ei in Hwr. exact Hwr.
Qed.

(** The user of a side is known. *)
Lemma proceeds_sender_init h : dev_ok (mk_dsys b o) (DSenderInit h) → proceeds (DSenderInit h).
Proof using Hb Hw.
  intros [Ei Hd]. cbn [dg] in *. exists v. split; [done |]. cbn [dg_step]. set (i := (ds_iface (dg_send o)) <| ppi_handler_done := Some h |>).
  assert (PacketPassInterface_Sender_Init (ds_iface (dg_send o)) h = Some i) as E by (unfold PacketPassInterface_Sender_Init; by rewrite Hd, ASSERT_seq).
  eapply wp_update; [cbn; rewrite E; reflexivity |].
  destruct (send_side_on _ _ _ _ (db_send _ _ _ _ Hb) Ei) as (u & Hon). cbn [dg] in Hon.
  set (s' := (dg_send o) <| ds_iface := i |>).
  assert (send_side (v_send v) s' L P) as Hs by (destruct Hon as [[] ? ? ? ? ? ? ?]; eapply (send_side_of _ u); [done |]; split; try done; by split).
  destruct (dbase_send v v b o L P (pending_jobs b) L P s' Hb (db_queue _ _ _ _ Hb) eq_refl eq_refl (side_refl _ _ _) Hs (db_addr_ok _ _ _ _ Hb) (db_addrs _ _ _ _ Hb))
    as [Hb2 _]; try done.
  exists v. split; [done |]. split; [| done]. by exists L, P.
Qed.

Lemma proceeds_receiver_init h : dev_ok (mk_dsys b o) (DReceiverInit h) → proceeds (DReceiverInit h).
Proof using Hb Hw.
  intros [Ei Hd]. cbn [dg] in *. exists v. split; [done |]. cbn [dg_step]. set (i := (dr_iface (dg_recv o)) <| pri_handler_done := Some h |>).
  assert (PacketRecvInterface_Receiver_Init (dr_iface (dg_recv o)) h = Some i) as E by (unfold PacketRecvInterface_Receiver_Init; by rewrite Hd, ASSERT_seq).
  eapply wp_update; [cbn; rewrite E; reflexivity |].
  destruct (recv_side_on _ _ _ _ (db_recv _ _ _ _ Hb) Ei) as (u & Hon). cbn [dg] in Hon.
  set (r' := (dg_recv o) <| dr_iface := i |>).
  assert (recv_side (v_recv v) r' L P) as Hs by (destruct Hon as [[] ? ? ? ? ? ?]; eapply (recv_side_of _ u); [done |]; split; try done; by split).
  destruct (dbase_recv v v b o L P (pending_jobs b) L P r' Hb (db_queue _ _ _ _ Hb) eq_refl eq_refl (side_refl _ _ _) Hs (db_started _ _ _ _ Hb) (db_last _ _ _ _ Hb)
    (db_rmtu _ _ _ _ Hb)) as [Hb2 _]; try done.
  exists v. split; [done |]. split; [| done]. by exists L, P.
Qed.

Lemma proceeds_send d l : dev_ok (mk_dsys b o) (DSend d l) → proceeds (DSend d l).
Proof using Hb Hw.
  intros (Eerr & Ei & Hidle & Hset & Hl & Hd). cbn [dg] in *. destruct (send_side_on _ _ _ _ (db_send _ _ _ _ Hb) Ei) as (u & Hon). cbn [dg] in Hon.
  assert (v_send v = SIdle ∧ ds_busy (dg_send o) = false) as [Ev Ebu].
  { pose proof (so_rel _ _ _ _ _ Hon) as Hrel. pose proof (so_seen _ _ _ _ _ Hon) as Hsn.
    destruct (v_send v), u as [| ? ? | [] [] |]; cbn [send_rel seen] in Hrel, Hsn; try done; first [congruence | destruct Hsn; congruence]. }
  destruct (send_wired _ _ _ _ _ Hon Hset) as (h & Hwi).
  destruct (ppi_send_ok _ _ _ _ _ d l (db_queue _ _ _ _ Hb) (so_ok _ _ _ _ _ Hon) Hwi Hidle Hl Hd) as (g & i & E & Haf). cbn [drea] in E.
  set (s' := (dg_send o) <| ds_iface := i |>). set (v1 := v <| v_send := SWork d l |>).
  destruct (send_on_after (SWork d l) (VSent d l) (dg_send o) s' h L P g (so_job _ _ _ _ _ Hon) Haf) as (P' & Hq & Hs & Ej & HP); try done.
  destruct (dbase_send v v1 b o L P g L P' s' Hb Hq eq_refl Ej (send_stays _ _ _ _ HP) Hs (db_addr_ok _ _ _ _ Hb) (db_addrs _ _ _ _ Hb)) as [Hb2 Hrj]; try done.
  exists v1. split; [cbn [dspec_event]; by rewrite decide_True |]. cbn [dg_step]. eapply wp_update; [cbn; rewrite E; reflexivity |].
  exists v1. split; [done |]. split; [| done]. exists L, P'. split; [exact Hb2 |].
  apply (waits_frame o P P' Hw); [| done]. apply HP, send_job_apart, (db_nodup _ _ _ _ Hb).
Qed.

Lemma proceeds_recv d : dev_ok (mk_dsys b o) (DRecv d) → proceeds (DRecv d).
Proof using Hb Hw.
  intros (Eerr & Ei & Hidle & Hset & Hd). cbn [dg] in *. destruct (recv_side_on _ _ _ _ (db_recv _ _ _ _ Hb) Ei) as (u & Hon). cbn [dg] in Hon.
  assert (v_recv v = GIdle ∧ dr_busy (dg_recv o) = false) as [Ev Ebu].
  { pose proof (ro_rel _ _ _ _ _ Hon) as Hrel. pose proof (ro_seen _ _ _ _ _ Hon) as Hsn.
    destruct (v_recv v), u; cbn [recv_rel rseen] in Hrel, Hsn; try done; first [congruence | destruct Hsn; congruence]. }
  destruct (recv_wired _ _ _ _ _ Hon Hset) as (h & Hwi). pose proof (ro_mtu _ _ _ _ _ Hon) as [_ Hm].
  destruct (pri_recv_ok _ _ _ _ _ d (db_queue _ _ _ _ Hb) (ro_ok _ _ _ _ _ Hon) Hwi Hidle Hd) as (g & i & E & Haf). cbn [drea] in E.
  set (r' := (dg_recv o) <| dr_iface := i |>). set (v1 := v <| v_recv := GWork d |>).
  destruct (recv_on_after (GWork d) (RAsked d) (dg_recv o) r' h L P g (ro_job _ _ _ _ _ Hon) Hm Haf) as (P' & Hq & Hs & Ej & HP); try done.
  destruct (dbase_recv v v1 b o L P g L P' r' Hb Hq eq_refl Ej (recv_stays _ _ _ _ HP) Hs (db_started _ _ _ _ Hb) (db_last _ _ _ _ Hb) (db_rmtu _ _ _ _ Hb)) as [Hb2 Hsj]; try done.
  exists v1. split; [cbn [dspec_event]; by rewrite decide_True |]. cbn [dg_step]. eapply wp_update; [cbn; rewrite E; reflexivity |].
  exists v1. split; [done |]. split; [| done]. exists L, P'. split; [exact Hb2 |].
  apply (waits_frame o P P' Hw); [done |]. apply HP, recv_job_apart, (db_nodup _ _ _ _ Hb).
Qed.

(** A side is released. *)
Lemma proceeds_send_free k : dev_ok (mk_dsys b o) (DSendFree k) → proceeds (DSendFree k).
Proof using Hb Hw.
  intros [Ei Hk]. cbn [dg] in *. destruct (send_side_on _ _ _ _ (db_send _ _ _ _ Hb) Ei) as (u & Hon). cbn [dg] in Hon.
  set (v1 := v <| v_send := SOff |>). exists v1. split; [done |]. cbn [dg_step]. unfold BDatagram_SendAsync_Free. apply wp_bind, wp_gets. cbn [dg].
  apply wp_bind, wp_assert; [done |]. apply wp_bind, wp_modify. destruct Hw as (rf & wf & Ew & Hws & Hwr).
  cbn [set dsys_eta eta drea dg]. rewrite Ew, evs_no_write. set (o1 := o <| dg_wait_events := evs rf false |>). apply wp_bind.
  refine (wp_update_events k b o1 (dg_wait_events o) _ (db_own _ _ _ _ Hb) (evs_range _ _) Hk _). intros b1 Ho1 Ej1.
  assert (dbase v (mk_dsys b1 o1) L P) as Hb1 by (by eapply dbase_rea).
  destruct (send_freed _ _ _ _ _ _ (db_queue _ _ _ _ Hb1) Hon send_side_nodup) as (g1 & g2 & L' & P' & E1 & E2 & Hq & HL & HP). cbn [drea] in E1.
  apply wp_bind. eapply wp_update; [unfold with_jobs; cbn; rewrite E1; reflexivity |].
  apply wp_bind. eapply wp_update; [unfold with_jobs; cbn; rewrite E2; reflexivity |]. apply wp_modify. cbn [app].
  set (s' := (dg_send o) <| ds_inited := false |>).
  assert (send_side SOff s' L' P') as Hs by (split; [done |]; intros x Hx; by rewrite HL, decide_True).
  destruct (dbase_send v v1 b1 o1 L P g2 L' P' s' Hb1 Hq eq_refl eq_refl (side_free _ _ _ HL HP) Hs (db_addr_ok _ _ _ _ Hb) (db_addrs _ _ _ _ Hb)) as [Hb2 Hrj]; try done.
  exists v1. split; [done |]. split; [| done]. exists L', P'. split; [exact Hb2 |]. exists rf, false. split; [done |]. split.
  - apply waiting_off. cbn. rewrite HP. intros [_ []]. apply send_in. by right.
  - change (waiting rf (recv_ready (dg_recv o)) (dg_err o) (dr_job (dg_recv o) ∈ P')). unfold waiting in *. cbn in Hrj. by rewrite Hrj.
Qed.

Lemma proceeds_recv_free k : dev_ok (mk_dsys b o) (DRecvFree k) → proceeds (DRecvFree k).
Proof using Hb Hw.
  intros [Ei Hk]. cbn [dg] in *. destruct (recv_side_on _ _ _ _ (db_recv _ _ _ _ Hb) Ei) as (u & Hon). cbn [dg] in Hon.
  set (v1 := v <| v_recv := GOff |>). exists v1. split; [done |]. cbn [dg_step]. unfold BDatagram_RecvAsync_Free. apply wp_bind, wp_gets. cbn [dg].
  apply wp_bind, wp_assert; [done |]. apply wp_bind, wp_modify. destruct Hw as (rf & wf & Ew & Hws & Hwr).
  cbn [set dsys_eta eta drea dg]. rewrite Ew, evs_no_read. set (o1 := o <| dg_wait_events := evs false wf |>). apply wp_bind.
  refine (wp_update_events k b o1 (dg_wait_events o) _ (db_own _ _ _ _ Hb) (evs_range _ _) Hk _). intros b1 Ho1 Ej1.
  assert (dbase v (mk_dsys b1 o1) L P) as Hb1 by (by eapply dbase_rea).
  destruct (recv_freed _ _ _ _ _ _ (db_queue _ _ _ _ Hb1) Hon recv_side_nodup) as (g1 & g2 & L' & P' & E1 & E2 & Hq & HL & HP). cbn [drea] in E1.
  apply wp_bind. eapply wp_update; [unfold with_jobs; cbn; rewrite E1; reflexivity |].
  apply wp_bind. eapply wp_update; [unfold with_jobs; cbn; rewrite E2; reflexivity |]. apply wp_modify. cbn [app].
  set (r' := (dg_recv o) <| dr_inited := false |>).
  assert (recv_side GOff r' L' P') as Hs by (split; [done |]; intros x Hx; by rewrite HL, decide_True).
  destruct (dbase_recv v v1 b1 o1 L P g2 L' P' r' Hb1 Hq eq_refl eq_refl (side_free _ _ _ HL HP) Hs (db_started _ _ _ _ Hb) (db_last _ _ _ _ Hb) (db_rmtu _ _ _ _ Hb)) as [Hb2 Hsj]; try done.
  exists v1. split; [done |]. split; [| done]. exists L', P'. split; [exact Hb2 |]. exists false, wf. split; [done |]. split.
  - change (waiting wf (send_ready (dg_send o)) (dg_err o) (ds_job (dg_send o) ∈ P')). unfold waiting in *. cbn in Hsj. by rewrite Hsj.
  - apply waiting_off. cbn. rewrite HP. intros [_ []]. apply recv_in. by right.
Qed.

(** The socket gets an address of its own. *)
Lemma proceeds_bind a bound : dev_ok (mk_dsys b o) (DBind a bound) → proceeds (DBind a bound).
Proof using Hb Hw.
  intros [Eerr Ha]. cbn [dg] in *. set (v1 := v <| v_started := v_started v || bound |>). exists v1. split; [done |].
  assert (∃ sa, dg_addr_socket_to_sys a = Some sa) as [sa Esa] by (destruct a; [done | by eexists ..]).
  assert (dspec_effects (dg_fd o) v1 [YBind (dg_fd o) sa] = Some v1) as Ev1.
  { cbn [dspec_effects]. unfold dspec_effect. cbn. pose proof (db_err _ _ _ _ Hb) as Ee. cbn [dg] in Ee. by rewrite Ee, Eerr, decide_True. }
  cbn [dg_step]. unfold BDatagram_Bind. apply wp_bind, wp_bind, wp_gets. cbn [dg]. rewrite Eerr. apply wp_bind, wp_assert; [done |].
  apply wp_bind, wp_assert; [by destruct a |]. apply wp_bind. eapply wp_lift; [exact Esa |]. apply wp_bind, wp_emit. cbn [app].
  destruct bound; cbn [negb].
  - destruct Hw as (rf & wf & Ew & Hws & Hwr). apply wp_bind, (start_recv_ok v b o L P rf _ Hb Hwr). intros b' P' Hb' HP Hwr'. apply wp_ret, wp_ret. cbn [app].
    exists v1. split; [done |]. split; [| done]. exists L, P'. split; [unfold v1; by rewrite orb_true_r |]. exists rf, wf. split; [done |].
    split; [| exact Hwr']. change (waiting wf (send_ready (dg_send o)) (dg_err o) (ds_job (dg_send o) ∈ P')).
    unfold waiting in *. rewrite HP; [done |]. by eapply jobs_differ.
  - apply wp_ret, wp_ret. cbn [app]. exists v1. split; [done |]. split; [| done]. exists L, P. split; [| done].
    unfold v1. rewrite orb_false_r. clear -Hb. by destruct v.
Qed.

(** The addresses to send to are given. *)
Lemma send_side_addrs d s ra la have : send_side d s L P → send_side d (s <| ds_remote_addr := ra |> <| ds_local_addr := la |> <| ds_have_addrs := have |>) L P.
Proof using Type. destruct d; [done | intros [Hi (u & Hu)]; (split; [done |]); exists u; by destruct Hu ..]. Qed.

Lemma proceeds_set_addrs ra la : dev_ok (mk_dsys b o) (DSetSendAddrs ra la) → proceeds (DSetSendAddrs ra la).
Proof using Hb Hw.
  intros [Eerr Ha]. cbn [dg] in *. set (v1 := v <| v_addrs := Some (ra, la) |>). exists v1. split; [done |].
  set (s' := (dg_send o) <| ds_remote_addr := ra |> <| ds_local_addr := la |> <| ds_have_addrs := true |>). set (o' := o <| dg_send := s' |>).
  destruct (dbase_send v v1 b o L P (pending_jobs b) L P s' Hb (db_queue _ _ _ _ Hb) eq_refl eq_refl (side_refl _ _ _)
    (send_side_addrs _ _ _ _ _ (db_send _ _ _ _ Hb)) (λ _, Ha)) as [Hb2 _]; try done.
  replace (b <| pending_jobs := pending_jobs b |>) with b in Hb2 by (by destruct b).
  cbn [dg_step]. unfold BDatagram_SetSendAddrs. apply wp_bind, wp_gets. cbn [dg]. rewrite Eerr. apply wp_bind, wp_assert; [done |].
  apply wp_bind, wp_assert; [by destruct ra |]. apply wp_bind, wp_assert; [by destruct la |]. apply wp_bind, wp_modify. destruct Hw as (rf & wf & Ew & Hws & Hwr).
  apply wp_when; intros Eh.
  - apply negb_true_iff in Eh. apply wp_bind, wp_modify. cbn [app].
    assert (send_ready (dg_send o) = false) as Er by (unfold send_ready; by rewrite Eh, andb_false_r). rewrite Er in Hws. apply waiting_none in Hws as [-> Hnj].
    apply wp_when; intros Eb.
    + pose proof Eb as [Ein _]%andb_true_iff. destruct (job_set_ok _ L P (ds_job (dg_send o)) (db_queue _ _ _ _ Hb)) as (g & E & Hq); [by eapply (send_job_live _ _ _ _ _ Hb) |].
      cbn [drea] in E. eapply wp_update; [cbn; unfold with_jobs; rewrite E; reflexivity |]. exists v1. split; [done |]. split; [| done].
      exists L, (P ∪ {[ds_job (dg_send o)]}). split; [exact (dbase_set_job v1 b o' L P g _ Hb2 (or_introl eq_refl) Hq) |]. exists rf, false. split; [done |]. split.
      * apply waiting_job; [apply elem_of_union; right; by apply elem_of_singleton |]. unfold send_ready. cbn. by rewrite Eb.
      * change (waiting rf (recv_ready (dg_recv o)) (dg_err o) (dr_job (dg_recv o) ∈ P ∪ {[ds_job (dg_send o)]})).
        unfold waiting in *. rewrite union_other; [done |]. apply not_eq_sym. by eapply jobs_differ.
    + exists v1. split; [done |]. split; [| done]. exists L, P. split; [exact Hb2 |]. exists rf, false. split; [done |]. split; [| done].
      unfold send_ready. cbn. rewrite Eb. by apply waiting_off.
  - apply negb_false_iff in Eh. assert (s' = (dg_send o) <| ds_remote_addr := ra |> <| ds_local_addr := la |>) as Es by (unfold s'; cbn; by rewrite Eh).
    exists v1. split; [done |]. split; [| done]. exists L, P. split; [rewrite Es in Hb2; exact Hb2 |]. exists rf, wf. split; [done |]. split; [| done]. exact Hws.
Qed.

(** ** The loop *)

Lemma proceeds_other c : dev_ok (mk_dsys b o) (DOther c) → proceeds (DOther c).
Proof using Hb Hw.
  intros [Hc Hf]. cbn [dg drea] in *. destruct (rstep_ok b c (ow_inv _ _ _ _ _ _ (db_own _ _ _ _ Hb)) Hc) as (b' & E & Hi').
  destruct (foreign_keeps _ _ _ _ _ _ _ _ _ Hf E (db_queue _ _ _ _ Hb)) as (Hk & L' & P' & Hq & Hkept).
  exists v. split; [done |]. cbn [dg_step]. eapply wp_update; [cbn; rewrite E; reflexivity |].
  exists v. split; [done |]. split; [| done]. eapply dinv_frame; [exact Hb | exact Hw | done | exact Hk | exact Hq | exact Hkept].
Qed.

Lemma proceeds_turn k now ws : dev_ok (mk_dsys b o) (DTurn k now ws) → proceeds (DTurn k now ws).
Proof using Hb Hw.
  intros (Eerr & Hk & Hturn & Hnr). cbn [dg drea] in *. pose proof (ow_inv _ _ _ _ _ _ (db_own _ _ _ _ Hb)) as Hi. cbn [drea] in Hi.
  destruct (iteration_spec b (mk_turn now ws []) Hi Hturn) as (r & E & Hr). cbn [tn_now tn_waits] in E.
  exists v. split; [done |]. cbn [dg_step]. apply wp_bind. destruct r as [[b' d] |].
  2: { eapply wp_ask; [cbn [drea]; rewrite E; reflexivity |]. cbn [app]. apply wp_bind, wp_gets, wp_ret. exists v. split; [done |]. split; [by exists L, P | done]. }
  destruct (Hr b' d eq_refl) as [Hi' _].
  destruct (iteration_keeps (dg_bfd o) (ds_limit (dg_send o)) (dr_limit (dg_recv o)) b (mk_turn now ws []) b' d L P Hi Hturn (db_queue _ _ _ _ Hb) E) as [Hkp Hjobs].
  specialize (Hnr d (mk_dsys b' o) []). unfold dg_turn, ask in Hnr. cbn [drea] in Hnr. rewrite E in Hnr. specialize (Hnr eq_refl).
  eapply wp_ask; [cbn [drea]; rewrite E; reflexivity |]. cbn [app set dsys_eta eta drea dg].
  assert (pending_jobs b' = pending_jobs b → follows (dg_fd o) v (mk_dsys b' o) []) as Hsame.
  { intros Ej. exists v. split; [done |]. split; [| done].
    eapply dinv_frame; [exact Hb | exact Hw | done | exact Hkp | rewrite Ej; exact (db_queue _ _ _ _ Hb) | apply jobs_kept_refl]. }
  unfold dg_dispatch. apply wp_bind, wp_gets. cbn [dg app]. destruct d as [h | x h | x h events | |]; cbn [iteration_jobs] in Hjobs.
  - destruct Hjobs as (x & Hx & Hh & Hq). by apply (dg_job_runs v b b' o L P x Hb Hi' Hkp Hx Hq Hw Eerr k h).
  - apply wp_ret. by apply Hsame.
  - destruct Hjobs as (-> & Ej & f & e & Hf & Ha & ->). apply wp_when; intros Ex; b2p; [| by apply Hsame].
    destruct (db_own _ _ _ _ Hb) as [_ (f' & Hf' & _ & Hwe) _ _]. cbn [dg drea] in *. rewrite <- Ex, Hf in Hf'. injection Hf' as <-.
    rewrite (Hwe eq_refl) in *. apply (dg_fd_handler_ok k v b' o L); [done | | done | | done].
    + pose proof (popped_before v b b' o L ∅ Hb Hi' Hkp) as Hb'. rewrite <- Ej in Hb'. by destruct b'.
    + intros h'. by rewrite <- Ex.
  - apply wp_ret. by apply Hsame.
  - apply wp_ret. by apply Hsame.
Qed.

Lemma proceeds_any e : dev_ok (mk_dsys b o) e → proceeds e.
Proof using Hb Hw.
  destruct e; [apply proceeds_send_init | apply proceeds_sender_init | apply proceeds_send | apply proceeds_send_free | apply proceeds_recv_init | apply proceeds_receiver_init |
    apply proceeds_recv | apply proceeds_recv_free | apply proceeds_bind | apply proceeds_set_addrs | apply proceeds_turn | apply proceeds_other].
Qed.

End user.

(** Every run is defined, keeps the invariant and follows the protocol. *)
Lemma dg_run_ok es : ∀ (v : dview) (s : dsys T G), dinv v s → devs_ok s es →
  ∃ s' tr v', dg_run s es = Some (s', tr) ∧ dspec_trace (dg_fd (dg s)) v tr = Some v' ∧ dinv v' s' ∧ dg_fd (dg s') = dg_fd (dg s).
Proof using Type.
  induction es as [| e es IH]; intros v s Hc Hok; [by exists s, [], v |]. destruct Hok as [He Hok]. destruct s as [b o]. pose proof Hc as (L & P & Hb & Hw).
  destruct (proceeds_any v b o L P Hb Hw e He) as (v1 & Ev & Hwp). apply wp_inv in Hwp as ([] & s1 & xs & E & v2 & Exs & Hi1 & Efd).
  rewrite E in Hok. destruct (IH v2 s1 Hi1 Hok) as (s' & tr & v' & Er & Etr & Hi' & Efd'). exists s', ((e, xs) :: tr), v'.
  cbn [dg_run dspec_trace dg]. rewrite E, Er, option_bind_Some, Ev, option_bind_Some, Exs, option_bind_Some.
  rewrite Efd in Etr. split; [done |]. split; [exact Etr |]. split; [done |]. cbn [dg]. congruence.
Qed.

End steps.
