(* ===== verification/DatagramSetup.v ===== *)
(** * Making, using and releasing datagram sockets

    What [BDatagram_Init] and [BDatagram_Free] (BDatagram.v) do on every answer of the
    system calls, and the properties of a socket from its initialisation to its
    release. *)
From S2P Require Import Prelude LinkedLists BPending FlowInterfaces SearchTree BAVL CAvl BReactor BAddr BConnection BDatagram ReactorFrame ReactorCalls DatagramRun DatagramLaws DatagramSteps.

(** The sockets that were made, and closed. *)
Definition made (xs : list deffect) : list Z := omap (λ x, match x with YSocket _ fd => if fd <? 0 then None else Some fd | _ => None end) xs.
Definition closed (xs : list deffect) : list Z := omap (λ x, match x with YClose fd => Some fd | _ => None end) xs.

(** The view of a socket that was just made. *)
Definition dview_init (rmtu : Z) : dview := mk_dview SOff GOff None false None rmtu false.

Section setup.
Context {T G : Type} `{OrderedTree T} `{JobQueue G}.
Implicit Types (b : BReactor T G) (L : gmap addr nat) (P : gset addr).

(** The memory of a socket that is not in use: its descriptor is not monitored, its
    limits and jobs do not exist, nobody uses their names. *)
Record dgram_fresh (o : BDatagram) b L : Prop := {
  df_fd : idle_fd b (dg_bfd o);
  df_l1 : limits b !! ds_limit (dg_send o) = None;
  df_l2 : limits b !! dr_limit (dg_recv o) = None;
  df_ne : ds_limit (dg_send o) ≠ dr_limit (dg_recv o);
  df_nodup : NoDup (dg_jobs o);
  df_jobs x : x ∈ dg_jobs o → L !! x = None;
  df_names x h : L !! x = Some h → h ∉ dg_jobs o
}.

(** What identifies a socket. *)
Definition dg_ids (o : BDatagram) : Z * addr * addr * addr := (dg_fd o, dg_bfd o, ds_limit (dg_send o), dr_limit (dg_recv o)).

(** What [BDatagram_Init] has done. *)
Definition dg_init_result (o : BDatagram) b L P (a : dgram_answers) (o' : BDatagram) (ok : bool) b' xs : Prop :=
  if ok then made xs = [da_socket a] ∧ closed xs = [] ∧ dg_ids o' = dg_ids (o <| dg_fd := da_socket a |>) ∧ dinv (dview_init (dr_mtu (dg_recv o))) (mk_dsys b' o')
  else closed xs = made xs ∧ rinv b' ∧ idle_fd b' (dg_bfd o) ∧ limits b' = limits b ∧ queue (pending_jobs b') L P.

Lemma datagram_init_ok b L P o family a : rinv b → queue (pending_jobs b) L P → dgram_fresh o b L → BDatagram_AddressFamilySupported family = true →
  wp (BDatagram_Init o family a) (λ r, dg_init_result o b L P a r.1 r.2) b.
Proof using Type.
  intros Hi Hq Hf Hfam. unfold BDatagram_Init. apply wp_bind, wp_assert; [done |]. apply wp_bind.
  assert (∃ af, family_socket_to_sys family = Some af) as [af Eaf].
  { unfold BDatagram_AddressFamilySupported in Hfam. unfold family_socket_to_sys. destruct (family =? 1), (family =? 2); (done || by eexists). }
  eapply wp_lift; [exact Eaf |]. cbv zeta. apply wp_bind, wp_emit. cbn [dg_fd dg_bfd set BDatagram_eta eta app dg_send dg_recv].
  destruct (da_socket a <? 0) eqn:Esock.
  { apply wp_ret. cbn. rewrite Esock. split; [done |]. split; [done |]. by split; [apply Hf |]. }
  apply wp_if; intros Enb.
  { apply wp_bind, wp_emit, wp_ret. cbn. rewrite Esock. split; [done |]. split; [done |]. by split; [apply Hf |]. }
  apply wp_bind, wp_emit, wp_bind. eapply wp_fd_init; [done | exact (df_fd _ _ _ Hf) |]. intros b2 Hi2 Hx2 Hy2 Ej2 El2 Er2. apply wp_bind.
  eapply wp_fd_add; [done | exact Hx2 | done | |]; intros Eadd; [| intros b3 Hi3 Hx3 Ej3 El3 Er3]; cbn [negb app].
  - apply wp_bind, wp_emit, wp_ret. cbn. rewrite Esock, El2, Ej2. split; [done |]. split; [done |]. split; [unfold idle_fd; by rewrite Hx2 | done].
  - apply wp_bind. eapply wp_limit_init; [done | rewrite El3, El2; exact (df_l1 _ _ _ Hf) | done |]. intros b4 Hi4 El4 Ef4 Ej4 Er4.
    apply wp_bind. eapply wp_limit_init; [done | | done |].
    { rewrite El4, El3, El2. rewrite lookup_insert_ne by exact (df_ne _ _ _ Hf). exact (df_l2 _ _ _ Hf). }
    intros b5 Hi5 El5 Ef5 Ej5 Er5. apply wp_ret. cbn [fst snd app]. unfold dg_init_result. cbn [made closed omap list_omap]. rewrite Esock.
    do 3 (split; [done |]). exists L, P. assert (∀ x, x ∈ dg_jobs o → x ∉ P) as Hnot.
    { intros x Hx [? ?]%(queue_sub _ _ _ Hq)%elem_of_dom. pose proof (df_jobs _ _ _ Hf x Hx). congruence. }
    split; [split; try done |].
    + split; [done | | |].
      * cbn. rewrite Ef5, Ef4, Hx3. by eexists.
      * cbn. rewrite El5, El4. rewrite lookup_insert_ne by (apply not_eq_sym, (df_ne _ _ _ Hf)). by rewrite lookup_insert, decide_True.
      * cbn. rewrite El5. by rewrite lookup_insert, decide_True.
    + cbn. rewrite Ej5, Ej4, Ej3, Ej2. done.
    + intros x h E Hh. by destruct (df_names _ _ _ Hf x h E).
    + exact (df_nodup _ _ _ Hf).
    + split; [done |]. intros x Hx. apply (df_jobs _ _ _ Hf), elem_of_app. by left.
    + split; [done |]. intros x Hx. apply (df_jobs _ _ _ Hf), elem_of_app. by right.
    + exists false, false. split; [done |]. split; apply waiting_off, Hnot; [exact (my_send_job o) | exact (my_recv_job o)].
Qed.

(** Both sides were released. *)
Lemma datagram_free_ok v (s : dsys T G) k : dinv v s → v_send v = SOff → v_recv v = GOff → dk_del k = true →
  ds_limit (dg_send (dg s)) ≠ dr_limit (dg_recv (dg s)) →
  wp (BDatagram_Free k) (λ _ s' xs, xs = [YClose (dg_fd (dg s))] ∧ rinv (drea s') ∧ idle_fd (drea s') (dg_bfd (dg s)) ∧
    limits (drea s') = delete (ds_limit (dg_send (dg s))) (delete (dr_limit (dg_recv (dg s))) (limits (drea s))) ∧
    (∃ L P, queue (pending_jobs (drea s')) L P ∧ ∀ x, x ∈ dg_jobs (dg s) → L !! x = None)) s.
Proof using Type.
  destruct s as [b o]. intros (L & P & Hb & _) Hs Hr Hk Hne. cbn [dg drea] in *. pose proof (db_send _ _ _ _ Hb) as Hss. pose proof (db_recv _ _ _ _ Hb) as Hrs.
  rewrite Hs in Hss. rewrite Hr in Hrs. destruct Hss as [Eis Hsn], Hrs as [Eir Hrn]. cbn [dg] in *.
  destruct (db_own _ _ _ _ Hb) as [Hi (f & Hf & Ha & _) Hl1 Hl2]. cbn [dg drea] in *.
  unfold BDatagram_Free. apply wp_bind, wp_gets. cbn [dg]. rewrite Eis, Eir. do 2 (apply wp_bind, wp_assert; [done |]).
  destruct (limit_free_ok b (dr_limit (dg_recv o)) Hi Hl2) as (b1 & E1 & Hi1 & Ef1 & El1 & Ej1). apply wp_bind. eapply wp_update; [cbn [drea]; rewrite E1; reflexivity |].
  destruct (limit_free_ok b1 (ds_limit (dg_send o)) Hi1) as (b2 & E2 & Hi2 & Ef2 & El2 & Ej2); [by rewrite El1, lookup_delete_ne by done |].
  apply wp_bind. eapply wp_update; [cbn [drea set dsys_eta eta]; rewrite E2; reflexivity |].
  destruct (remove_fd_spec b2 (dg_bfd o) Hi2) as (b3 & E3 & Hi3 & Ha3 & _); [rewrite Ef2, Ef1, Hf; cbn; by rewrite Ha |].
  rewrite Hk. apply wp_bind. eapply wp_update; [cbn [drea set dsys_eta eta]; rewrite E3; reflexivity |]. apply wp_emit. cbn [app drea set dsys_eta eta].
  assert (limits b3 = limits b2 ∧ pending_jobs b3 = pending_jobs b2) as [El3 Ej3] by (unfold BReactor_RemoveFileDescriptor in E3; open_call E3; done).
  split; [done |]. split; [done |]. split; [unfold idle_fd; by rewrite Ha3 |]. split; [by rewrite El3, El2, El1 |].
  exists L, P. split; [rewrite Ej3, Ej2, Ej1; exact (db_queue _ _ _ _ Hb) |]. intros x [Hx | Hx]%elem_of_app; [by apply Hsn | by apply Hrn].
Qed.

(** A packet that is in work has a job that is set, or is waited for, or cannot go on. *)
Lemma send_alive v b o L P (wf : bool) : dbase v (mk_dsys b o) L P → waiting wf (send_ready (dg_send o)) false (ds_job (dg_send o) ∈ P) →
  v_send v ≠ SOff → v_send v ≠ SIdle → (∃ x, x ∈ send_jobs (dg_send o) ∧ x ∈ P) ∨ wf = true ∨ v_addrs v = None.
Proof using Type.
  intros Hb (_ & _ & Hw) N1 N2. pose proof (db_send _ _ _ _ Hb) as Hs. cbn [dg] in Hs.
  assert (ds_inited (dg_send o) = true ∧ ∃ u, send_on (v_send v) u (dg_send o) L P) as [Ei (u & Hon)] by (by destruct (v_send v)).
  pose proof (so_rel _ _ _ _ _ Hon) as Hrel. pose proof (so_seen _ _ _ _ _ Hon) as Hsn. pose proof (so_ok _ _ _ _ _ Hon) as [_ _ Hop Hdo _].
  destruct (v_send v) as [| | d l |], u as [| d' l' | [] [] |]; cbn [send_rel seen] in Hrel, Hsn; try done.
  - left. exists (ppi_job_operation (ds_iface (dg_send o))). destruct Hsn as [Hst _]. split; [apply send_in; left; unfold ppi_jobs; set_solver | by apply Hop].
  - rewrite (db_addrs _ _ _ _ Hb). unfold addrs_of. cbn [dg]. destruct (ds_have_addrs (dg_send o)) eqn:Eh; [| by right; right].
    destruct Hw as [? | [Hj | Hfl]]; [unfold send_ready; destruct Hrel as [-> _]; by rewrite Ei, Eh | done | | by right; left].
    left. exists (ds_job (dg_send o)). split; [apply send_in; by right | done].
  - left. exists (ppi_job_done (ds_iface (dg_send o))). split; [apply send_in; left; unfold ppi_jobs; set_solver | by apply Hdo].
Qed.

Lemma recv_alive v b o L P (rf : bool) : dbase v (mk_dsys b o) L P → waiting rf (recv_ready (dg_recv o)) false (dr_job (dg_recv o) ∈ P) →
  v_recv v ≠ GOff → v_recv v ≠ GIdle → (∃ x, x ∈ recv_jobs (dg_recv o) ∧ x ∈ P) ∨ rf = true ∨ v_started v = false.
Proof using Type.
  intros Hb (_ & _ & Hw) N1 N2. pose proof (db_recv _ _ _ _ Hb) as Hs. cbn [dg] in Hs.
  assert (dr_inited (dg_recv o) = true ∧ ∃ u, recv_on (v_recv v) u (dg_recv o) L P) as [Ei (u & Hon)] by (by destruct (v_recv v)).
  pose proof (ro_rel _ _ _ _ _ Hon) as Hrel. pose proof (ro_seen _ _ _ _ _ Hon) as Hsn. pose proof (ro_ok _ _ _ _ _ Hon) as [_ _ Hop Hdo].
  destruct (v_recv v) as [| | d | n], u as [| d' | d' | n']; cbn [recv_rel rseen] in Hrel, Hsn; try done.
  - left. exists (pri_job_operation (dr_iface (dg_recv o))). destruct Hsn as [Hst _]. split; [apply recv_in; left; unfold pri_jobs; set_solver | by apply Hop].
  - rewrite (db_started _ _ _ _ Hb). cbn [dg]. destruct (dr_started (dg_recv o)) eqn:Eh; [| by right; right].
    destruct Hw as [? | [Hj | Hfl]]; [unfold recv_ready; destruct Hrel as (_ & -> & _); by rewrite Ei, Eh | done | | by right; left].
    left. exists (dr_job (dg_recv o)). split; [apply recv_in; by right | done].
  - left. exists (pri_job_done (dr_iface (dg_recv o))). destruct Hsn as [Hst _]. split; [apply recv_in; left; unfold pri_jobs; set_solver | by apply Hdo].
Qed.

(** The protocol has no release of the socket. *)
Lemma dspec_no_close sock xs : ∀ v v', dspec_effects sock v xs = Some v' → closed xs = [].
Proof using Type.
  induction xs as [| x xs IH]; intros v v' E; [done |]. cbn [dspec_effects] in E. apply bind_Some in E as (v1 & E1 & E).
  assert (closed (x :: xs) = closed xs) as ->; [| by eapply IH]. destruct x; try done. unfold dspec_effect in E1. by destruct (v_err v).
Qed.

Lemma dtrace_no_close sock tr : ∀ v v', dspec_trace sock v tr = Some v' → closed (concat (snd <$> tr)) = [].
Proof using Type.
  induction tr as [| [e xs] tr IH]; intros v v' E; [done |]. cbn [dspec_trace] in E. apply bind_Some in E as (v1 & _ & E).
  apply bind_Some in E as (v2 & E2 & E). cbn. unfold closed. rewrite omap_app. fold (closed xs). rewrite (dspec_no_close _ _ _ _ E2).
  by eapply IH.
Qed.

Lemma dg_step_ids e : preserves (λ s : dsys T G, dg_ids (dg s)) (dg_step e).
Proof using Type. destruct e; cbn [dg_step]; pres. Qed.

Lemma dg_run_ids es : ∀ (s s' : dsys T G) tr, dg_run s es = Some (s', tr) → dg_ids (dg s') = dg_ids (dg s).
Proof using Type.
  induction es as [| e es IH]; intros s s' tr E; cbn [dg_run] in E; [by injection E as <- <- |].
  destruct (dg_step e s) as [[[u s1] xs] |] eqn:E1; [| done]. apply bind_Some in E as ([s2 tr2] & E2 & [= -> <-]).
  rewrite (IH _ _ _ E2). by apply (dg_step_ids _ _ _ _ _ E1).
Qed.

End setup.

(** ** An example *)

Definition demo_dgram : BDatagram :=
  mk_BDatagram 0 20 0
    (mk_dgram_send 21 false BADDR_NONE BIPADDR_NONE false 0 (mk_ppi 0 0 None None 11 0 0 12 13 STATE_NONE false) 10 false 0 0)
    (mk_dgram_recv 22 false false BADDR_NONE BIPADDR_NONE false 0 (mk_pri 0 0 None 15 0 16 0 STATE_NONE) 14 false 0) false.
Definition demo_dgram_answers : dgram_answers := mk_dgram_answers 5 true true.
Definition demo_dsys : dsys BAVL BPendingGroup :=
  match BDatagram_Init demo_dgram 1 demo_dgram_answers demo_init with Some ((o, _), b, _) => mk_dsys b o | None => mk_dsys demo_init demo_dgram end.

Lemma demo_dgram_fresh : dgram_fresh demo_dgram demo_init ∅.
Proof.
  split; [discriminate | reflexivity | reflexivity | discriminate | | reflexivity | by intros x h ?%lookup_empty_Some].
  vm_compute. repeat (constructor; [set_solver |]). constructor.
Qed.

Lemma demo_dgram_init : BDatagram_Init demo_dgram 1 demo_dgram_answers demo_init = Some ((dg demo_dsys, true), drea demo_dsys, [YSocket 2 5; YPktinfo 5 1]).
Proof. vm_compute. reflexivity. Qed.

(** The kernel takes what is sent; packets of nine bytes arrive from 10.0.0.1:53, sent
    to 10.0.0.2. *)
Definition dns_server : BAddr := BADDR_IPV4 16777226 13568.
Definition demo_dkernel : dkernel :=
  mk_dkernel (λ len, IoBytes len) (λ len, MsgBytes (Z.min 9 len) (mk_sys_addr sizeof_sockaddr_in (sockaddr_in 13568 16777226)) [IP_PKTINFO 0 33554442]) true true.
Definition blocked_dkernel : dkernel := mk_dkernel (λ _, IoAgain) (λ _, MsgAgain) true true.

Lemma demo_dkernel_ok : dkernel_ok demo_dkernel.
Proof.
  split; [| split; [| done]]; cbn [dk_sendmsg dk_recvmsg demo_dkernel].
  - intros len n Hl [= <-]. lia.
  - intros len n name control Hl [= <- <- <-]. split; [lia |]. vm_compute. by eexists.
Qed.
Lemma blocked_dkernel_ok : dkernel_ok blocked_dkernel.
Proof. by split. Qed.

Definition demo_dnext (s : dsys BAVL BPendingGroup) (e : devent) : dsys BAVL BPendingGroup :=
  match dg_step e s with Some (_, s, _) => s | None => s end.

Lemma devs_ok_cons (s : dsys BAVL BPendingGroup) e es : dev_ok s e → devs_ok (demo_dnext s e) es → devs_ok s (e :: es).
Proof. intros He Hes. cbn [devs_ok]. split; [done |]. unfold demo_dnext in Hes. by destruct (dg_step e s) as [[[? ?] ?] |]. Qed.

(** What is still waited for in a turn, computed. *)
Lemma dg_turn_ready (s : dsys BAVL BPendingGroup) k now ws w : (λ r, dg_still_waited (dg s) r.1.1) <$> dg_turn now ws s = Some w → dg_not_ready k w →
  ∀ d s1 xs, dg_turn now ws s = Some (d, s1, xs) → dg_not_ready k (dg_still_waited (dg s) d).
Proof. intros E Hk d s1 xs E1. rewrite E1 in E. cbn in E. injection E as ->. exact Hk. Qed.

Lemma blocked_dnot_ready w : dg_not_ready blocked_dkernel w.
Proof. split; done. Qed.

Ltac demo_dready := eapply dg_turn_ready; [vm_compute; reflexivity | first [apply blocked_dnot_ready | split; discriminate]].
Ltac demo_danswers :=
  lazymatch goal with
  | |- turn_ok _ (mk_turn _ [] _) => exact I
  | |- turn_ok _ (mk_turn _ ((WReady [_], _) :: []) _) =>
      unfold turn_ok; cbn [tn_now tn_waits answers_ok]; split; [lia |]; split; [| exact I]; split; [| split; [vm_compute; discriminate | discriminate]];
      split; [constructor; [apply not_elem_of_nil | constructor] |];
      let e := fresh in intros e ->%list_elem_of_singleton; eexists _, _; split; [reflexivity |]; split; [vm_compute; reflexivity | vm_compute; reflexivity]
  end.

(** Checks an event of a concrete run. *)
Ltac demo_devent :=
  apply devs_ok_cons;
  [lazymatch goal with
   | |- dev_ok _ (DTurn _ _ _) =>
       split; [vm_compute; reflexivity |]; split; [first [exact blocked_dkernel_ok | exact demo_dkernel_ok] |]; split; [demo_danswers | demo_dready]
   | |- dev_ok _ (DSend _ _) => do 4 (split; [vm_compute; reflexivity |]); split; [split; vm_compute; discriminate | discriminate]
   | |- dev_ok _ (DRecv _) => do 4 (split; [vm_compute; reflexivity |]); discriminate
   | |- _ => repeat (split; [vm_compute; (reflexivity || discriminate) |]); vm_compute; (reflexivity || discriminate)
   end |].

(** A packet is given and a buffer asked for before the socket has addresses; the
    packet is sent once the addresses are given, and that starts the receiving. *)
Definition demo_devents : list devent :=
  [DSendInit 1500; DSenderInit 7; DRecvInit 1500; DReceiverInit 8; DRecv 900; DTurn blocked_dkernel 0 []; DSend 500 30; DTurn blocked_dkernel 0 [];
   DSetSendAddrs dns_server BIPADDR_NONE; DTurn demo_dkernel 0 []; DTurn demo_dkernel 0 []; DTurn demo_dkernel 0 []; DTurn demo_dkernel 0 []].

Lemma demo_devents_ok : devs_ok demo_dsys demo_devents.
Proof. unfold demo_devents. do 13 demo_devent. exact I. Qed.

(** ** Properties *)

(** [C12] A datagram socket, from its initialisation on and for every sequence of calls
    of its user, turns of the event loop, reports and answers of the kernel and calls
    of other objects ([devs_ok]), never fails an assertion nor uses an object it does not hold, and follows
    its protocol: a packet is sent from its own buffer to the address that was
    given last and from the local address given with it, and not before one was given;
    a packet is received only once the socket was bound or has sent, into the buffer
    that was asked for and no larger than its size; each packet is answered by one
    report, of the length the kernel gave; nothing follows the report of an error. The
    addresses of the last packet are those the kernel gave with it.

    The kernel may report readiness, errors and hang-ups in every combination; of its
    answers the theorem asks ([dkernel_ok], [dg_not_ready]) that they are no longer than
    the buffer, that addresses have the length of their family, and that no packet is
    taken or given in a direction that the reactor still monitors and that was not
    just reported. A socket that becomes ready between the wait and the call, in
    a turn in which an error alone was reported, breaks the last;
    [datagram_error_alone] shows what then happens. *)
Theorem datagram_packets {T G} `{OrderedTree T} `{JobQueue G} (b b' : BReactor T G) L P o o' family a xs es :
  rinv b → queue (pending_jobs b) L P → dgram_fresh o b L → BDatagram_AddressFamilySupported family = true →
  BDatagram_Init o family a b = Some ((o', true), b', xs) → devs_ok (mk_dsys b' o') es →
  ∃ s' tr v, dg_run (mk_dsys b' o') es = Some (s', tr) ∧ dspec_trace (da_socket a) (dview_init (dr_mtu (dg_recv o))) tr = Some v ∧ dinv v s' ∧
    BDatagram_GetLastReceiveAddrs (dg s') = v_last v.
Proof.
  intros Hi Hq Hf Hfam E Hes. pose proof (wp_run _ _ _ _ _ _ (datagram_init_ok b L P o family a Hi Hq Hf Hfam) E) as (_ & _ & Eid & Hc). cbn [fst] in Eid, Hc.
  destruct (dg_run_ok es _ _ Hc Hes) as (s' & tr & v & Er & Htr & Hi' & _). cbn [dg] in Htr. injection Eid as Efd _ _ _. rewrite Efd in Htr.
  exists s', tr, v. do 3 (split; [done |]). destruct Hi' as (L' & P' & Hb & _). rewrite (db_last _ _ _ _ Hb). unfold BDatagram_GetLastReceiveAddrs, last_of.
  by destruct (dr_have_addrs (dg_recv (dg s'))).
Qed.

Lemma datagram_packets_witness :
  ∃ s' tr, dg_run demo_dsys demo_devents = Some (s', tr) ∧
    concat (snd <$> tr) = [YSendmsg 5 (mk_sys_addr 16 (sockaddr_in 13568 16777226)) None 500 30 (IoBytes 30); YSent (CallDone 7);
      YRecvmsg 5 900 1500 (MsgBytes 9 (mk_sys_addr 16 (sockaddr_in 13568 16777226)) [IP_PKTINFO 0 33554442]); YReceived (CallDoneLen 8 9)] ∧
    BDatagram_GetLastReceiveAddrs (dg s') = Some (dns_server, BIPADDR_IPV4 33554442).
Proof.
  destruct (datagram_packets demo_init (drea demo_dsys) ∅ ∅ demo_dgram (dg demo_dsys) 1 demo_dgram_answers [YSocket 2 5; YPktinfo 5 1] demo_devents
    demo_init_rinv demo_queue demo_dgram_fresh eq_refl demo_dgram_init demo_devents_ok) as (s' & tr & v & E & Htr & _ & Hl).
  change (mk_dsys (drea demo_dsys) (dg demo_dsys)) with demo_dsys in E. exists s', tr. split; [exact E |].
  assert ((λ r, (concat (snd <$> r.2), dspec_trace 5 (dview_init 0) r.2 ≫= v_last)) <$> dg_run demo_dsys demo_devents =
    Some ([YSendmsg 5 (mk_sys_addr 16 (sockaddr_in 13568 16777226)) None 500 30 (IoBytes 30); YSent (CallDone 7);
      YRecvmsg 5 900 1500 (MsgBytes 9 (mk_sys_addr 16 (sockaddr_in 13568 16777226)) [IP_PKTINFO 0 33554442]); YReceived (CallDoneLen 8 9)],
      Some (dns_server, BIPADDR_IPV4 33554442))) as E2 by (vm_compute; reflexivity).
  rewrite E in E2. injection E2 as E2 E3. split; [exact E2 |]. rewrite Hl.
  change (da_socket demo_dgram_answers) with 5 in Htr. change (dr_mtu (dg_recv demo_dgram)) with 0 in Htr. cbn [snd] in E3. rewrite Htr in E3. exact E3.
Defined.

(** [C13] No packet is forgotten: in every state a datagram socket can reach without an
    error, a packet that was given is about to be taken over, being sent or about to be
    reported: one of the jobs of the sending side is set, or the reactor monitors the
    socket for writing, or the addresses to send to are missing; a buffer that was asked
    for is about to be filled in the same way, or the socket has no address yet. The
    reactor monitors the socket for nothing else, so that it is never reported ready
    with nothing to do. The runs are those of [devs_ok]: every report of the kernel,
    and no packet in a direction that is monitored and was not just reported. *)
Theorem datagram_wakeup {T G} `{OrderedTree T} `{JobQueue G} (b b' : BReactor T G) L P o o' family a xs es s' tr v :
  rinv b → queue (pending_jobs b) L P → dgram_fresh o b L → BDatagram_AddressFamilySupported family = true →
  BDatagram_Init o family a b = Some ((o', true), b', xs) → devs_ok (mk_dsys b' o') es →
  dg_run (mk_dsys b' o') es = Some (s', tr) → dspec_trace (da_socket a) (dview_init (dr_mtu (dg_recv o))) tr = Some v → v_err v = false →
  ∃ f q, fds (drea s') !! dg_bfd (dg s') = Some f ∧ active f = true ∧ jq_rep (pending_jobs (drea s')) q ∧
    (v_send v ≠ SOff → v_send v ≠ SIdle → (∃ x, x ∈ send_jobs (dg_send (dg s')) ∧ x ∈ stack q) ∨ Z.testbit (waitEvents f) 1 = true ∨ v_addrs v = None) ∧
    (v_recv v ≠ GOff → v_recv v ≠ GIdle → (∃ x, x ∈ recv_jobs (dg_recv (dg s')) ∧ x ∈ stack q) ∨ Z.testbit (waitEvents f) 0 = true ∨ v_started v = false) ∧
    (Z.testbit (waitEvents f) 1 = true → (∃ d l, v_send v = SWork d l) ∧ v_addrs v ≠ None) ∧
    (Z.testbit (waitEvents f) 0 = true → (∃ d, v_recv v = GWork d) ∧ v_started v = true).
Proof.
  intros Hi Hq Hf Hfam E Hes Er Htr Ev. pose proof (wp_run _ _ _ _ _ _ (datagram_init_ok b L P o family a Hi Hq Hf Hfam) E) as (_ & _ & Eid & Hc). cbn [fst] in Eid, Hc.
  destruct (dg_run_ok es _ _ Hc Hes) as (s1 & tr1 & v1 & Er1 & Htr1 & (L1 & P1 & Hb & Hw) & _). rewrite Er in Er1. injection Er1 as <- <-.
  injection Eid as Efd _ _ _. cbn [dg] in Htr1. rewrite Efd, Htr in Htr1. injection Htr1 as <-. destruct s' as [b2 o2]. cbn [dg drea] in *.
  destruct (db_own _ _ _ _ Hb) as [_ (f & Hfd & Ha & Hwe) _ _]. specialize (Hwe eq_refl). cbn [dg drea] in *.
  destruct (db_queue _ _ _ _ Hb) as (q & Hr & _ & _ & HP & _). exists f, q. do 3 (split; [done |]).
  assert (dg_err o2 = false) as Eerr by (rewrite <- Ev; symmetry; exact (db_err _ _ _ _ Hb)).
  destruct Hw as (rf & wf & Ew & Hws & Hwr). rewrite Eerr in Hws, Hwr.
  assert (Z.testbit (waitEvents f) 1 = wf ∧ Z.testbit (waitEvents f) 0 = rf) as [-> ->] by (rewrite Hwe, Ew; by destruct rf, wf).
  split; [| split; [| split]].
  - intros N1 N2. destruct (send_alive _ _ _ _ _ _ Hb Hws N1 N2) as [(x & Hx & HxP) | Hor]; [left; exists x; by rewrite HP | by right].
  - intros N1 N2. destruct (recv_alive _ _ _ _ _ _ Hb Hwr N1 N2) as [(x & Hx & HxP) | Hor]; [left; exists x; by rewrite HP | by right].
  - intros ->. destruct Hws as (Hs & _). pose proof (Hs eq_refl) as Hrd. destruct (send_working _ _ _ _ _ Hb Hrd) as (_ & E1 & E2 & _). split; [by eauto |]. by rewrite E2.
  - intros ->. destruct Hwr as (Hs & _). pose proof (Hs eq_refl) as Hrd. destruct (recv_working _ _ _ _ _ Hb Hrd) as (_ & E1 & E2 & _). split; [by eauto | done].
Qed.

(** The packet is sent, and no answer has arrived, also when the kernel reports an error
    of the socket and nothing else. *)
Definition demo_dwaiting : list devent :=
  take 10 demo_devents ++ [DTurn blocked_dkernel 0 []; DTurn blocked_dkernel 0 [];
    DTurn blocked_dkernel 0 [(WReady [mk_epoll_event (Some 20%nat) EPOLLERR], 1)]; DTurn blocked_dkernel 1 []].

Lemma demo_dwaiting_ok : devs_ok demo_dsys demo_dwaiting.
Proof. unfold demo_dwaiting, demo_devents. cbn [take app]. do 14 demo_devent. exact I. Qed.

Lemma datagram_wakeup_witness :
  ∃ s' tr v f, dg_run demo_dsys demo_dwaiting = Some (s', tr) ∧ dspec_trace 5 (dview_init 0) tr = Some v ∧ v_recv v = GWork 900 ∧
    fds (drea s') !! 20%nat = Some f ∧ active f = true ∧ waitEvents f = 1.
Proof.
  destruct (dg_run demo_dsys demo_dwaiting) as [[s' tr] |] eqn:E; [| exfalso; vm_compute in E; discriminate E].
  assert ((λ r, ((λ v, (v_recv v, v_err v)) <$> dspec_trace 5 (dview_init 0) r.2, dg_bfd (dg r.1), waitEvents <$> fds (drea r.1) !! 20%nat)) <$> dg_run demo_dsys demo_dwaiting =
    Some (Some (GWork 900, false), 20%nat, Some 1)) as E2 by (vm_compute; reflexivity).
  rewrite E in E2. cbn [fmap option_fmap option_map fst snd] in E2. destruct (dspec_trace 5 (dview_init 0) tr) as [v |] eqn:Ev; [| discriminate E2].
  injection E2 as E2 E3 E4 E5.
  destruct (datagram_wakeup demo_init (drea demo_dsys) ∅ ∅ demo_dgram (dg demo_dsys) 1 demo_dgram_answers [YSocket 2 5; YPktinfo 5 1] demo_dwaiting s' tr v
    demo_init_rinv demo_queue demo_dgram_fresh eq_refl demo_dgram_init demo_dwaiting_ok E Ev E3) as (f & q & Hf & Ha & _).
  rewrite E4 in Hf. rewrite Hf in E5. injection E5 as E5. exists s', tr, v, f. split; [reflexivity |]. split; [exact Ev |]. split; [exact E2 |].
  split; [exact Hf |]. split; [exact Ha | exact E5].
Defined.

(** [C14] A datagram socket is closed once: if the initialisation fails, whatever the
    kernel answers, at once, if there is one, and the descriptors, limits and jobs
    of the reactor are as before; else, after any run ([devs_ok]: every report of the
    kernel, and no packet in a direction that is monitored and was not just reported)
    that ends with both sides released, when it is released, and then its descriptor, its limits and its jobs
    have left the reactor. *)
Theorem datagram_lifetime {T G} `{OrderedTree T} `{JobQueue G} (b : BReactor T G) L P o family a k :
  rinv b → queue (pending_jobs b) L P → dgram_fresh o b L → BDatagram_AddressFamilySupported family = true → dk_del k = true →
  ∃ o' ok b' xs, BDatagram_Init o family a b = Some ((o', ok), b', xs) ∧
    if ok then made xs = [da_socket a] ∧ closed xs = [] ∧ ∀ es s' tr v, devs_ok (mk_dsys b' o') es → dg_run (mk_dsys b' o') es = Some (s', tr) →
        dspec_trace (da_socket a) (dview_init (dr_mtu (dg_recv o))) tr = Some v → v_send v = SOff → v_recv v = GOff →
        ∃ s2 xs2, BDatagram_Free k s' = Some ((), s2, xs2) ∧ closed (concat (snd <$> tr) ++ xs2) = [da_socket a] ∧
          rinv (drea s2) ∧ idle_fd (drea s2) (dg_bfd o) ∧
          limits (drea s2) !! ds_limit (dg_send o) = None ∧ limits (drea s2) !! dr_limit (dg_recv o) = None ∧
          ∃ L2 P2, queue (pending_jobs (drea s2)) L2 P2 ∧ ∀ x, x ∈ dg_jobs (dg s') → L2 !! x = None
    else closed xs = made xs ∧ rinv b' ∧ idle_fd b' (dg_bfd o) ∧ limits b' = limits b ∧ queue (pending_jobs b') L P.
Proof.
  intros Hi Hq Hf Hfam Hk. destruct (wp_inv _ _ _ (datagram_init_ok b L P o family a Hi Hq Hf Hfam)) as ([o' ok] & b' & xs & E & Hr). cbn [fst snd] in Hr.
  exists o', ok, b', xs. split; [done |]. destruct ok; cbn [dg_init_result] in Hr; [| done]. destruct Hr as (Em & Ec & Eid & Hc). do 2 (split; [done |]).
  intros es s' tr v Hes Er Htr Hs Hrv. destruct (dg_run_ok es _ _ Hc Hes) as (s1 & tr1 & v1 & Er1 & Htr1 & Hc1 & Efd). rewrite Er in Er1. injection Er1 as <- <-.
  pose proof (dg_run_ids es _ _ _ Er) as Hids. cbn [dg] in *. rewrite Eid in Hids. injection Eid as E1 _ _ _. rewrite E1, Htr in Htr1. injection Htr1 as <-.
  injection Hids as F1 F2 F3 F4.
  destruct (wp_inv _ _ _ (datagram_free_ok v s' k Hc1 Hs Hrv Hk ltac:(rewrite F3, F4; exact (df_ne _ _ _ Hf)))) as ([] & s2 & xs2 & Ef & -> & Hi2 & Hid & El & Hjobs).
  exists s2, [YClose (dg_fd (dg s'))]. split; [done |]. split.
  { unfold closed. rewrite omap_app. fold (closed (concat (snd <$> tr))). rewrite (dtrace_no_close _ _ _ _ Htr). cbn. by rewrite F1. }
  rewrite <- F2, <- F3, <- F4. split; [done |]. split; [done |]. rewrite El. split; [by rewrite lookup_delete, decide_True |]. split; [| done].
  rewrite lookup_delete. case_decide; [done |]. by rewrite lookup_delete, decide_True.
Qed.

Definition demo_drelease : list devent := demo_dwaiting ++ [DSendFree blocked_dkernel; DRecvFree blocked_dkernel].

Lemma demo_drelease_ok : devs_ok demo_dsys demo_drelease.
Proof. unfold demo_drelease, demo_dwaiting, demo_devents. cbn [take app]. do 16 demo_devent. exact I. Qed.

Lemma datagram_lifetime_witness :
  ∃ s' tr s2 xs2, dg_run demo_dsys demo_drelease = Some (s', tr) ∧ BDatagram_Free blocked_dkernel s' = Some ((), s2, xs2) ∧
    closed (concat (snd <$> tr) ++ xs2) = [5] ∧ idle_fd (drea s2) 20.
Proof.
  destruct (datagram_lifetime demo_init ∅ ∅ demo_dgram 1 demo_dgram_answers blocked_dkernel demo_init_rinv demo_queue demo_dgram_fresh eq_refl eq_refl)
    as (o' & ok & b' & xs & E & Hr).
  pose proof demo_dgram_init as E'. rewrite E in E'. injection E' as -> -> -> ->. destruct Hr as (_ & _ & Hr).
  destruct (dg_run demo_dsys demo_drelease) as [[s' tr] |] eqn:Er; [| exfalso; vm_compute in Er; discriminate Er].
  assert ((λ r, (λ v, (v_send v, v_recv v)) <$> dspec_trace 5 (dview_init 0) r.2) <$> dg_run demo_dsys demo_drelease = Some (Some (SOff, GOff))) as E2 by (vm_compute; reflexivity).
  rewrite Er in E2. cbn [fmap option_fmap option_map fst snd] in E2. destruct (dspec_trace 5 (dview_init 0) tr) as [v |] eqn:Ev; [| discriminate E2]. injection E2 as E2 E3.
  destruct (Hr demo_drelease s' tr v demo_drelease_ok Er Ev E2 E3) as (s2 & xs2 & Ef & Ecl & _ & Hid & _).
  exists s', tr, s2, xs2. split; [reflexivity |]. split; [exact Ef |]. split; [exact Ecl | exact Hid].
Defined.

(** The receive of [demo_dwaiting] waits; the kernel reports an error of the socket
    alone, and a packet arrives before the handler asks for it. *)
Definition derror_alone_events : list devent :=
  [DTurn blocked_dkernel 1 [(WReady [mk_epoll_event (Some 20%nat) EPOLLERR], 2)]; DTurn demo_dkernel 2 []; DTurn demo_dkernel 2 []].

(** The handler of a datagram socket tries an operation on an error without taking
    back the wait for it. If a packet arrives between the report of an error alone
    and the receive that follows, the packet is reported, but the socket stays
    monitored for reading with no buffer asked for; the next time it is readable the
    assertion of the handler fails. *)
Theorem datagram_error_alone :
  ∃ s tr, dg_run demo_dsys (demo_dwaiting ++ derror_alone_events) = Some (s, tr) ∧
    last (concat (snd <$> tr)) = Some (YReceived (CallDoneLen 8 9)) ∧
    dr_busy (dg_recv (dg s)) = false ∧ dg_wait_events (dg s) = BREACTOR_READ ∧
    dg_run s [DTurn demo_dkernel 2 [(WReady [mk_epoll_event (Some 20%nat) EPOLLIN], 3)]; DTurn demo_dkernel 3 []] = None.
Proof.
  destruct (dg_run demo_dsys (demo_dwaiting ++ derror_alone_events)) as [[s tr] |] eqn:E; [| exfalso; vm_compute in E; discriminate E]. exists s, tr. split; [reflexivity |].
  assert ((λ r, (last (concat (snd <$> r.2)), dr_busy (dg_recv (dg r.1)), dg_wait_events (dg r.1),
      dg_run r.1 [DTurn demo_dkernel 2 [(WReady [mk_epoll_event (Some 20%nat) EPOLLIN], 3)]; DTurn demo_dkernel 3 []])) <$>
      dg_run demo_dsys (demo_dwaiting ++ derror_alone_events) =
    Some (Some (YReceived (CallDoneLen 8 9)), false, BREACTOR_READ, None)) as E2 by (vm_compute; reflexivity).
  rewrite E in E2. injection E2 as E2 E3 E4 E5. split; [exact E2 |]. split; [exact E3 |]. split; [exact E4 | exact E5].
Qed.

(** The kernel is given, and gives, the addresses of the program. *)
Lemma dgram_sockaddr_roundtrip addr : BDatagram_AddressFamilySupported (BAddr_type addr) = true → BAddr_wf addr →
  ∃ sa, dg_addr_socket_to_sys addr = Some sa ∧ dg_addr_sys_to_socket sa = Some addr.
Proof.
  intros Hs Hwf. destruct addr as [| ip port | ip port]; [done | by eexists |]. eexists. split; [done |]. cbn. unfold BAddr_InitIPv6, BAddr_MakeIPv6.
  destruct Hwf as (Hl & _). by rewrite ztake_ztake, ztake_ge by lia.
Qed.

(** A local address given to the kernel is the one it gives back. *)
Lemma dgram_local_roundtrip la c : send_control la = Some c → (∀ ip, la = BIPADDR_IPV6 ip → zlen ip = 16) →
  recv_control [match c with IP_PKTINFO ip _ => IP_PKTINFO 0 ip | _ => c end] = la.
Proof.
  intros E Hl. destruct la as [| ip | ip]; cbn in E; [done | by injection E as <- |]. injection E as <-. cbn. unfold BIPAddr_InitIPv6.
  pose proof (Hl ip eq_refl). rewrite ?ztake_ztake, ?ztake_ge; (done || lia).
Qed.
