(* ===== verification/BTap.v ===== *)
(** * The network device (tuntap/BTap.c, BTap.h)

    A [BTap] is a TUN or TAP device in the event loop. Packets that its
    [PacketRecvInterface] asks for are read from the device, at once if there is one,
    else when the reactor reports it readable; packets to send are written to it and
    errors of that are ignored.

    The code compiled for Linux is modelled. State and effects are as in
    BConnection.v; the answers of the system calls are arguments. *)
From S2P Require Import Prelude LinkedLists BPending FlowInterfaces SearchTree BAVL CAvl BReactor BAddr BConnection ReactorFrame ReactorCalls.

Definition BTAP_ETHERNET_HEADER_LENGTH : Z := 14.
Definition IFNAMSIZ : Z := 16.
Definition IFF_TUN : Z := 1.
Definition IFF_TAP : Z := 2.
Definition IFF_NO_PI : Z := 4096.

Inductive BTap_dev_type := BTAP_DEV_TUN | BTAP_DEV_TAP.

(** The name is the bytes before its terminator; [None] is the null pointer. *)
Inductive BTap_init := BTAP_INIT_STRING (string : option bytes) | BTAP_INIT_FD (fd mtu : Z).
Record BTap_init_data := mk_BTap_init_data { dev_type : BTap_dev_type; tap_init : BTap_init }.

(** The null pointer is [0]; [tap_err] is set once the error was reported. *)
Record BTap := mk_BTap {
  frame_mtu : Z; tap_output : PacketRecvInterface; output_packet : Z; tap_close_fd : bool; tap_fd : Z; tap_bfd : addr; poll_events : Z; tap_err : bool
}.
#[export] Instance BTap_eta : Eta BTap := λ o,
  mk_BTap (frame_mtu o) (tap_output o) (output_packet o) (tap_close_fd o) (tap_fd o) (tap_bfd o) (poll_events o) (tap_err o).

(** The kernel during one call. *)
Record tkernel := mk_tkernel { tk_read : Z → io_result; tk_mod : bool; tk_del : bool; tk_close : bool }.

(** The answers during the initialisation: of [open], the name the device got, the
    socket for the query of the MTU, and the rest. *)
Record tap_answers := mk_tap_answers {
  ta_open : Z; ta_name : option bytes; ta_sock : Z; ta_mtu : option Z; ta_nonblocking : bool; ta_added : bool; ta_close : bool
}.

Inductive teffect :=
| TOpen (fd : Z)
| TSetIff (fd flags : Z) (name : bytes)
| TSocket (fd : Z)
| TGetMtu (fd : Z) (name : bytes)
| TRead (fd data len : Z) (r : io_result)
| TWrite (fd data len : Z)
| TClose (fd : Z)
| TError
| TReceived (c : icall).

(** The reactor and the device in it. *)
Record tsys (T G : Type) := mk_tsys { trea : BReactor T G; tap : BTap }.
Arguments mk_tsys {T G}.
Arguments trea {T G}.
Arguments tap {T G}.
#[export] Instance tsys_eta T G : Eta (tsys T G) := λ s, mk_tsys (trea s) (tap s).

Section device.
Context {T G : Type} `{OrderedTree T} `{JobQueue G}.
#[local] Abbreviation reactor := (BReactor T G).
#[local] Abbreviation tm := (M (tsys T G) teffect).
#[local] Abbreviation rm := (M reactor teffect).

Definition tap_rea (f : reactor → option reactor) : tm unit := upd (λ s, b ← f (trea s); Some (s <| trea := b |>)).
Definition tap_set (f : BTap → BTap) : tm unit := modify (λ s, s <| tap := f (tap s) |>).

(** A call of the output interface. *)
Definition tap_iface (f : G → PacketRecvInterface → option (G * PacketRecvInterface)) : tm unit :=
  upd (λ s, '(g, i) ← f (pending_jobs (trea s)) (tap_output (tap s));
    Some (s <| trea := (trea s) <| pending_jobs := g |> |> <| tap := (tap s) <| tap_output := i |> |>)).

(** [BReactor_SetFileDescriptorEvents(o->reactor, &o->bfd, o->poll_events)] *)
Definition tap_update_events (k : tkernel) : tm unit :=
  o ← gets tap;
  tap_rea (λ b, BReactor_SetFileDescriptorEvents b (tap_bfd o) (poll_events o) (tk_mod k)).

Definition tap_report_error : tm unit :=
  o ← gets tap;
  assert (negb (tap_err o));;
  tap_set (λ o, o <| tap_err := true |>);;
  emit TError.

Definition tap_fd_handler (k : tkernel) (events : Z) : tm unit :=
  o ← gets tap;
  assert (negb (tap_err o));;
  when (negb (Z.land events BREACTOR_READ =? 0))
    (assert (negb (output_packet o =? 0));;
     let r := tk_read k (frame_mtu o) in
     emit (TRead (tap_fd o) (output_packet o) (frame_mtu o) r);;
     match r with
     | IoAgain => mret ()
     | IoFail => tap_report_error
     | IoBytes n =>
         if n <=? 0 then mret () else
         assert (n <=? frame_mtu o);;
         tap_set (λ o, o <| output_packet := 0 |>);;
         tap_set (λ o, o <| poll_events := Z.land (poll_events o) (Z.lnot BREACTOR_READ) |>);;
         tap_update_events k;;
         tap_iface (λ g i, PacketRecvInterface_Done g i n)
     end).

Definition output_handler_recv (k : tkernel) (data : Z) : tm unit :=
  o ← gets tap;
  assert (negb (tap_err o));;
  assert (negb (data =? 0));;
  assert (output_packet o =? 0);;
  let r := tk_read k (frame_mtu o) in
  emit (TRead (tap_fd o) data (frame_mtu o) r);;
  let retry :=
    tap_set (λ o, o <| output_packet := data |>);;
    tap_set (λ o, o <| poll_events := Z.lor (poll_events o) BREACTOR_READ |>);;
    tap_update_events k in
  match r with
  | IoAgain => retry
  | IoFail => tap_report_error
  | IoBytes n =>
      if n <=? 0 then retry else
      assert (n <=? frame_mtu o);;
      tap_iface (λ g i, PacketRecvInterface_Done g i n)
  end.

(** ** The device *)

(** The names of the handlers. *)
Definition tap_operation : nat := 16.
Definition tap_fd_name : nat := 17.

(** [fail1]: the descriptor is closed unless the user gave it. *)
Definition tap_fail1 (o : BTap) (a : tap_answers) : rm (BTap * bool) :=
  (when (tap_close_fd o) (assert (ta_close a);; emit (TClose (tap_fd o))));; mret (o, false).

(** The MTU of the device is asked for; the result is the object, and whether to go on. *)
Definition tap_query_mtu (o : BTap) (dev : BTap_dev_type) (devname_real : bytes) (a : tap_answers) : rm (BTap * bool) :=
  emit (TSocket (ta_sock a));;
  if ta_sock a <? 0 then tap_fail1 o a else
  emit (TGetMtu (ta_sock a) devname_real);;
  match ta_mtu a with
  | None => emit (TClose (ta_sock a));; tap_fail1 o a
  | Some ifr_mtu =>
      let o := o <| frame_mtu := match dev with BTAP_DEV_TUN => ifr_mtu | BTAP_DEV_TAP => ifr_mtu + BTAP_ETHERNET_HEADER_LENGTH end |> in
      emit (TClose (ta_sock a));;
      mret (o, true)
  end.

(** [BTAP_INIT_STRING]: the device is opened and configured. *)
Definition tap_open (o : BTap) (dev : BTap_dev_type) (string : option bytes) (a : tap_answers) : rm (BTap * bool) :=
  let o := o <| tap_fd := ta_open a |> in
  emit (TOpen (tap_fd o));;
  if tap_fd o <? 0 then mret (o, false) else
  let flags := Z.lor IFF_NO_PI (match dev with BTAP_DEV_TUN => IFF_TUN | BTAP_DEV_TAP => IFF_TAP end) in
  emit (TSetIff (tap_fd o) flags (match string with Some s => ztake (IFNAMSIZ - 1) s | None => [] end));;
  match ta_name a with
  | None => tap_fail1 o a
  | Some devname_real => tap_query_mtu o dev devname_real a
  end.

(** [BTAP_INIT_FD]: the descriptor is given. *)
Definition tap_given (o : BTap) (dev : BTap_dev_type) (fd mtu : Z) : rm (BTap * bool) :=
  assert (0 <=? fd);;
  assert (0 <=? mtu);;
  assert (match dev with BTAP_DEV_TAP => BTAP_ETHERNET_HEADER_LENGTH <=? mtu | BTAP_DEV_TUN => true end);;
  mret (o <| tap_fd := fd |> <| frame_mtu := mtu |>, true).

(** The rest, with a descriptor. *)
Definition tap_finish (o : BTap) (a : tap_answers) : rm (BTap * bool) :=
  if negb (ta_nonblocking a) then tap_fail1 o a else
  upd (λ b, Some (BFileDescriptor_Init b (tap_bfd o) (tap_fd o) tap_fd_name));;
  added ← ask (λ b, BReactor_AddFileDescriptor b (tap_bfd o) (ta_added a));
  if negb added then tap_fail1 o a else
  let o := o <| poll_events := 0 |> in
  i ← ask (λ b, '(g, i) ← PacketRecvInterface_Init (pending_jobs b) (tap_output o) (frame_mtu o) tap_operation; Some (b <| pending_jobs := g |>, i));
  mret (o <| tap_output := i |> <| output_packet := 0 |> <| tap_err := false |>, true).

Definition BTap_Init2 (o : BTap) (d : BTap_init_data) (a : tap_answers) : rm (BTap * bool) :=
  let o := o <| tap_close_fd := match tap_init d with BTAP_INIT_FD _ _ => false | BTAP_INIT_STRING _ => true end |> in
  '(o, opened) ← match tap_init d with
    | BTAP_INIT_FD fd mtu => tap_given o (dev_type d) fd mtu
    | BTAP_INIT_STRING string => tap_open o (dev_type d) string a
    end;
  if negb (opened : bool) then mret (o, false) else tap_finish o a.

Definition BTap_Init (o : BTap) (devname : option bytes) (tun : bool) (a : tap_answers) : rm (BTap * bool) :=
  BTap_Init2 o (mk_BTap_init_data (if tun then BTAP_DEV_TUN else BTAP_DEV_TAP) (BTAP_INIT_STRING devname)) a.

Definition BTap_Free (k : tkernel) : tm unit :=
  o ← gets tap;
  tap_rea (with_jobs (λ g, PacketRecvInterface_Free g (tap_output o)));;
  tap_rea (λ b, BReactor_RemoveFileDescriptor b (tap_bfd o) (tk_del k));;
  when (tap_close_fd o) (assert (tk_close k);; emit (TClose (tap_fd o))).

Definition BTap_GetMTU (o : BTap) : Z := frame_mtu o.

(** What [write] answers does not matter. *)
Definition BTap_Send (data data_len : Z) : tm unit :=
  o ← gets tap;
  assert (negb (tap_err o));;
  assert (0 <=? data_len);;
  assert (data_len <=? frame_mtu o);;
  emit (TWrite (tap_fd o) data data_len).

(** ** Runs *)

(** A call of the output interface by its job. *)
Definition tap_job (k : tkernel) (h : nat) : tm unit :=
  o ← gets tap;
  '(i, c) ← lift (pri_job (tap_output o) h);
  match c with
  | Some (CallRecv _ d) => tap_iface (λ g _, Some (g, i));; output_handler_recv k d
  | Some (CallDoneLen h n) => tap_iface (λ g _, Some (g, i));; emit (TReceived (CallDoneLen h n))
  | Some _ => stuck
  | None => mret ()
  end.

Definition tap_dispatch (k : tkernel) (d : dispatch) : tm unit :=
  o ← gets tap;
  match d with
  | DJob h => tap_job k h
  | DFd x _ events => when (bool_decide (x = tap_bfd o)) (tap_fd_handler k events)
  | _ => mret ()
  end.

Definition tap_turn (now : Z) (ws : list (wait_answer * Z)) : tm dispatch :=
  ask (λ s, r ← exec_iteration (trea s) now ws;
    match r with Some (b, d) => Some (s <| trea := b |>, d) | None => Some (s, DSkipped) end).

End device.

(** The user of the device connects to its output, asks for a packet, sends one; the
    loop makes a turn; another object calls the reactor. *)
Inductive tevent :=
| TReceiverInit (h : nat) | TRecv (data : Z) | TSend (data len : Z)
| TTurn (k : tkernel) (now : Z) (ws : list (wait_answer * Z)) | TOther (c : rcall).
