(* ===== verification/TapLaws.v ===== *)
(** * What the network device guarantees

    Runs of a [BTap] (BTap.v) in the loop of the reactor, among other objects: its
    protocol as its user and the kernel see it ([tspec_trace]), the invariant [tinv],
    the proofs that every run is defined, keeps the invariant and follows the protocol,
    and what [BTap_Init2] and [BTap_Free] do on every answer of the kernel. *)
From S2P Require Import Prelude LinkedLists BPending FlowInterfaces SearchTree BAVL CAvl BReactor BAddr BConnection ReactorFrame ReactorCalls BTap.

(** ** The protocol *)

(** No packet is asked for, one is, with its buffer, one is about to be reported, with
    its length. *)
Inductive tdir := TIdle | TWork (data : Z) | TEnding (n : Z).
#[export] Instance tdir_eq_dec : EqDecision tdir.
Proof. solve_decision. Defined.
Record tview := mk_tview { tv_dir : tdir; tv_err : bool }.

Definition tspec_event (v : tview) (e : tevent) : option tview :=
  match e with
  | TRecv d => if decide (tv_dir v = TIdle) then Some (mk_tview (TWork d) (tv_err v)) else None
  | _ => Some v
  end.

(** The device is read only while a packet is asked for, into the buffer that was given
    and no more than its size; a read that gives nothing is tried again. *)
Definition tspec_effect (sock mtu : Z) (v : tview) (x : teffect) : option tview :=
  if tv_err v then None else
  match x with
  | TRead fd d l r =>
      if decide (fd = sock ∧ tv_dir v = TWork d ∧ l = mtu) then
        match r with IoBytes n => if n <=? 0 then Some v else if n <=? mtu then Some (mk_tview (TEnding n) false) else None | _ => Some v end
      else None
  | TWrite fd _ l => if decide (fd = sock ∧ 0 ≤ l ≤ mtu) then Some v else None
  | TReceived (CallDoneLen _ n) => if decide (tv_dir v = TEnding n) then Some (mk_tview TIdle false) else None
  | TError => Some (mk_tview (tv_dir v) true)
  | _ => None
  end.

Fixpoint tspec_effects (sock mtu : Z) (v : tview) (xs : list teffect) : option tview :=
  match xs with [] => Some v | x :: xs => v ← tspec_effect sock mtu v x; tspec_effects sock mtu v xs end.

Fixpoint tspec_trace (sock mtu : Z) (v : tview) (tr : list (tevent * list teffect)) : option tview :=
  match tr with
  | [] => Some v
  | (e, xs) :: tr => v ← tspec_event v e; v ← tspec_effects sock mtu v xs; tspec_trace sock mtu v tr
  end.

(** What the kernel promises: it reads at most as much as there is room for, and the
    changes of the epoll set succeed. *)
Definition tkernel_ok (k : tkernel) : Prop := (∀ len n, 0 ≤ len → tk_read k len = IoBytes n → n ≤ len) ∧ tk_mod k = true.

Section laws.
Context {T G : Type} `{OrderedTree T} `{JobQueue G}.
#[local] Abbreviation tm := (M (tsys T G) teffect).
Implicit Types (b : BReactor T G) (o : BTap) (i : PacketRecvInterface) (L : gmap addr nat) (P : gset addr) (v : tview).

Definition tap_step (e : tevent) : tm unit :=
  match e with
  | TReceiverInit h => tap_iface (λ g i, i ← PacketRecvInterface_Receiver_Init i h; Some (g, i))
  | TRecv d => tap_iface (λ g i, PacketRecvInterface_Receiver_Recv g i d)
  | TSend d l => BTap_Send d l
  | TTurn k now ws => d ← tap_turn now ws; tap_dispatch k d
  | TOther c => tap_rea (λ b, rstep b c)
  end.

Fixpoint tap_run (s : tsys T G) (es : list tevent) : option (tsys T G * list (tevent * list teffect)) :=
  match es with
  | [] => Some (s, [])
  | e :: es =>
      match tap_step e s with
      | Some (_, s, xs) => '(s, tr) ← tap_run s es; Some (s, (e, xs) :: tr)
      | None => None
      end
  end.

(** When an event may happen. *)
Definition tev_ok (s : tsys T G) (e : tevent) : Prop :=
  let o := tap s in
  match e with
  | TReceiverInit h => pri_handler_done (tap_output o) = None
  | TRecv d => tap_err o = false ∧ pri_state (tap_output o) = STATE_NONE ∧ is_set (pri_handler_done (tap_output o)) = true ∧ d ≠ 0
  | TSend d l => tap_err o = false ∧ 0 ≤ l ≤ frame_mtu o
  | TTurn k now ws => tap_err o = false ∧ tkernel_ok k ∧ turn_ok (trea s) (mk_turn now ws [])
  | TOther c => call_ok (trea s) c ∧ ∃ l1 l2, foreign (pri_jobs (tap_output o)) (tap_bfd o) l1 l2 (trea s) c
  end.

Fixpoint tevs_ok (s : tsys T G) (es : list tevent) : Prop :=
  match es with
  | [] => True
  | e :: es => tev_ok s e ∧ match tap_step e s with Some (_, s, _) => tevs_ok s es | None => True end
  end.

(** ** The invariant *)

(** The descriptor [x] is monitored for [w]. *)
Definition held b (x : addr) (w : Z) : Prop := rinv b ∧ ∃ f, fds b !! x = Some f ∧ active f = true ∧ waitEvents f = w.

Lemma held_jobs b x w g L P : held b x w → queue g L P → held (b <| pending_jobs := g |>) x w.
Proof using Type. intros [Hi Hf] Hq. split; [by eapply rinv_jobs | done]. Qed.
Lemma held_keeps b b' x w l1 l2 : held b x w → keeps x l1 l2 b b' → rinv b' → held b' x w.
Proof using Type. intros [_ (f & Hf & Ha & Hw)] [Hk _ _] Hi. split; [done |]. destruct (Hk f Hf) as (f' & Hf' & Ea & Ew). exists f'. by rewrite Ea, Ew. Qed.
Lemma held_set b x w ev : held b x w → 0 ≤ ev ≤ 3 →
  ∃ b', BReactor_SetFileDescriptorEvents b x ev true = Some b' ∧ held b' x ev ∧ pending_jobs b' = pending_jobs b.
Proof using Type.
  intros [Hi (f & Hf & Ha & _)] Hev. destruct (set_events_ok b x f ev Hi Hf Ha Hev) as (b' & E & Hi' & Hf' & Ej). exists b'. split; [done |]. split; [| done].
  split; [done |]. eexists. split; [exact Hf' |]. done.
Qed.

(** Nothing is read. *)
Definition quiet o : Prop := output_packet o = 0 ∧ poll_events o = 0.

(** The packet that the interface asks for is the one that is waited for. *)
Definition trel (d : tdir) (u : rview) o : Prop :=
  match d, u with
  | TIdle, RIdle => quiet o
  | TWork a, RAsked a' => a' = a ∧ a ≠ 0 ∧ quiet o
  | TWork a, RWorking a' => a' = a ∧ a ≠ 0 ∧ (tap_err o = true ∨ output_packet o = a ∧ poll_events o = BREACTOR_READ)
  | TEnding n, REnding n' => n' = n ∧ quiet o
  | _, _ => False
  end.

Record tbase v (s : tsys T G) L P (u : rview) : Prop := {
  tb_held : held (trea s) (tap_bfd (tap s)) (poll_events (tap s));
  tb_queue : queue (pending_jobs (trea s)) L P;
  tb_named : named (pri_jobs (tap_output (tap s))) L;
  tb_ok : pri_ok L P (tap_output (tap s));
  tb_seen : rseen u (tap_output (tap s));
  tb_mtu : pri_mtu (tap_output (tap s)) = frame_mtu (tap s) ∧ 0 ≤ frame_mtu (tap s);
  tb_op : pri_handler_operation (tap_output (tap s)) = tap_operation;
  tb_user : u ≠ RIdle → is_set (pri_handler_done (tap_output (tap s))) = true;
  tb_rel : trel (tv_dir v) u (tap s);
  tb_err : tv_err v = tap_err (tap s)
}.

Definition tinv v (s : tsys T G) : Prop := ∃ L P u, tbase v s L P u.

Definition tap_wiring (mtu : Z) (h : nat) : wiring := mk_wiring mtu tap_operation None h.

Lemma tap_wired v s L P u : tbase v s L P u → is_set (pri_handler_done (tap_output (tap s))) = true → ∃ h, rwired (tap_wiring (frame_mtu (tap s)) h) (tap_output (tap s)).
Proof using Type. intros Hb Hset. destruct (pri_handler_done (tap_output (tap s))) as [h |] eqn:E; [| done]. exists h. destruct Hb as [_ _ _ _ _ [? _] ? _ _ _]. by split. Qed.

(** The interface has made a step. *)
Lemma tap_after v b o i L P u g h : held b (tap_bfd o) (poll_events o) → named (pri_jobs i) L → 0 ≤ frame_mtu o →
  pri_after (tap_wiring (frame_mtu o) h) L P i u g (tap_output o) → trel (tv_dir v) u o → tv_err v = tap_err o →
  tinv v (mk_tsys (b <| pending_jobs := g |>) o).
Proof using Type.
  intros Hh Hn Hm (P' & Hq & Hok & (Em & Eo & Ed) & Hs & Ej & _) Hr He. exists L, P', u. split; cbn [trea tap]; try done.
  - by eapply held_jobs.
  - by rewrite Ej.
  - intros _. by rewrite Ed.
Qed.

(** From the view [v] the effects lead to a view of the state, which is of the same
    device. *)
Definition tap_ids o : Z * Z * addr * bool := (tap_fd o, frame_mtu o, tap_bfd o, tap_close_fd o).
Definition tfollows o v (s' : tsys T G) (xs : list teffect) : Prop :=
  ∃ v', tspec_effects (tap_fd o) (frame_mtu o) v xs = Some v' ∧ tinv v' s' ∧ tap_ids (tap s') = tap_ids o.

Lemma wp_tap_events k b o w (Q : unit → tsys T G → list teffect → Prop) : held b (tap_bfd o) w → 0 ≤ poll_events o ≤ 3 → tk_mod k = true →
  (∀ b', held b' (tap_bfd o) (poll_events o) → pending_jobs b' = pending_jobs b → Q () (mk_tsys b' o) []) → wp (tap_update_events k) Q (mk_tsys b o).
Proof using Type.
  intros Hh Hev Hk HQ. unfold tap_update_events. apply wp_bind, wp_gets. cbn [tap]. rewrite Hk. destruct (held_set _ _ _ _ Hh Hev) as (b' & E & Hh' & Ej).
  eapply wp_update; [cbn [trea]; rewrite E; reflexivity |]. by apply HQ.
Qed.

(** The error is reported. *)
Lemma tspec_effects_app sock mtu xs ys : ∀ v, tspec_effects sock mtu v (xs ++ ys) = (v ← tspec_effects sock mtu v xs; tspec_effects sock mtu v ys).
Proof using Type. induction xs as [| x xs IH]; intros v; cbn [app tspec_effects]; [done |]. destruct (tspec_effect sock mtu v x) as [v' |]; [apply IH | done]. Qed.

Lemma tap_report_ok v v0 b o pre : tap_err o = false → tv_err v = false → tinv (mk_tview (tv_dir v) true) (mk_tsys b (o <| tap_err := true |>)) →
  tspec_effects (tap_fd o) (frame_mtu o) v0 pre = Some v → wp tap_report_error (λ _ z xs, tfollows o v0 z (pre ++ xs)) (mk_tsys b o).
Proof using Type.
  intros He Ev Hi Hpre. unfold tap_report_error. apply wp_bind, wp_gets. cbn [tap]. rewrite He. apply wp_bind, wp_assert; [done |]. apply wp_bind, wp_modify, wp_emit. cbn [app].
  exists (mk_tview (tv_dir v) true). split; [| by split]. rewrite tspec_effects_app, Hpre, option_bind_Some. cbn [tspec_effects]. unfold tspec_effect. by rewrite Ev.
Qed.

(** ** The handlers *)

(** What is reported for a descriptor that is not waited for. *)
Lemma report_not_waited raw : Z.land (report_events 0 raw) BREACTOR_READ = 0.
Proof using Type. unfold report_events. cbn [Z.land Z.eqb negb andb]. by destruct (negb (Z.land raw EPOLLERR =? 0)), (negb (Z.land raw EPOLLHUP =? 0)). Qed.

Lemma tap_fd_handler_ok k v b o L P u raw : tkernel_ok k → tbase v (mk_tsys b o) L P u → tap_err o = false →
  wp (tap_fd_handler k (report_events (poll_events o) raw)) (λ _, tfollows o v) (mk_tsys b o).
Proof using Type.
  intros [Hk Hkm] Hb He. pose proof (tb_rel _ _ _ _ _ Hb) as Hrel. pose proof (tb_err _ _ _ _ _ Hb) as Ev. cbn [tap] in Hrel, Ev. rewrite He in Ev.
  pose proof (tb_mtu _ _ _ _ _ Hb) as [Em Hm]. cbn [tap] in Em, Hm.
  unfold tap_fd_handler. apply wp_bind, wp_gets. cbn [tap]. rewrite He. apply wp_bind, wp_assert; [done |]. apply wp_when; intros Er.
  2: { exists v. split; [done |]. split; [| done]. by exists L, P, u. }
  assert (∃ a, tv_dir v = TWork a ∧ u = RWorking a ∧ a ≠ 0 ∧ output_packet o = a ∧ poll_events o = BREACTOR_READ) as (a & Ed & -> & Ha & Eop & Epe).
  { assert (¬ quiet o) as Hnq by (intros [_ Ep]; rewrite Ep, report_not_waited in Er; done).
    destruct (tv_dir v), u; cbn [trel] in Hrel; try done; try tauto. destruct Hrel as (-> & ? & [? | [? ?]]); [congruence |]. by eexists. }
  rewrite Eop. apply wp_bind, wp_assert; [by apply negb_true_iff, Z.eqb_neq |]. cbv zeta. apply wp_bind, wp_emit. cbn [app].
  set (x := TRead _ _ _ _).
  assert (tspec_effect (tap_fd o) (frame_mtu o) v x = match tk_read k (frame_mtu o) with
    | IoBytes n => if n <=? 0 then Some v else if n <=? frame_mtu o then Some (mk_tview (TEnding n) false) else None | _ => Some v end) as Hx
    by (unfold x, tspec_effect; by rewrite Ev, decide_True).
  assert (tspec_effect (tap_fd o) (frame_mtu o) v x = Some v → tfollows o v (mk_tsys b o) ([x] ++ [])) as Hagain.
  { intros E1. exists v. cbn [app tspec_effects]. rewrite E1. split; [done |]. split; [| done]. by exists L, P, (RWorking a). }
  destruct (tk_read k (frame_mtu o)) as [n | |] eqn:Ek.
  - apply wp_if; intros En; rewrite En in Hx; [apply wp_ret; by apply Hagain |]. b2p. pose proof (Hk _ _ Hm Ek) as Hn. rewrite (proj2 (Z.leb_le n _)) in Hx by done.
    apply wp_bind, wp_assert; [by apply Z.leb_le |]. apply wp_bind, wp_modify, wp_bind, wp_modify. cbn [set tsys_eta eta trea tap BTap_eta app poll_events].
    rewrite Epe. change (Z.land BREACTOR_READ (Z.lnot BREACTOR_READ)) with 0. set (o1 := o <| output_packet := 0 |> <| poll_events := 0 |>). apply wp_bind.
    refine (wp_tap_events k b o1 (poll_events o) _ (tb_held _ _ _ _ _ Hb) ltac:(split; [reflexivity | discriminate]) Hkm _). intros b1 Hh1 Ej1. cbn [app].
    destruct (tap_wired _ _ _ _ _ Hb) as (h & Hwi); [by apply (tb_user _ _ _ _ _ Hb) |]. cbn [tap] in Hwi.
    destruct (pri_finish_ok _ _ _ _ _ n (tb_queue _ _ _ _ _ Hb) (tb_ok _ _ _ _ _ Hb) Hwi) as (g & i & E & Haf);
      [apply (tb_seen _ _ _ _ _ Hb) | cbn; lia |].
    cbn [trea tap] in E. eapply wp_update; [cbn; rewrite Ej1, E; reflexivity |].
    exists (mk_tview (TEnding n) false). split; [cbn [app tspec_effects]; by rewrite Hx |]. split; [| done].
    set (o2 := o1 <| tap_output := i |>). exact (tap_after (mk_tview (TEnding n) false) b1 o2 (tap_output o) L P (REnding n) g h Hh1 (tb_named _ _ _ _ _ Hb) Hm Haf
      (conj eq_refl (conj eq_refl eq_refl)) (eq_sym He)).
  - apply wp_ret. by apply Hagain.
  - apply (tap_report_ok v v b o [x]); [done | done | | cbn [tspec_effects]; by rewrite Hx]. exists L, P, (RWorking a). destruct Hb. split; try done.
    cbn [tap tv_dir]. rewrite Ed. split; [done |]. split; [done |]. by left.
Qed.

(** The interface has asked for a packet. *)
Lemma output_handler_ok k v b o L P i a h : tkernel_ok k → held b (tap_bfd o) (poll_events o) → named (pri_jobs i) L → 0 ≤ frame_mtu o → tap_err o = false → tv_err v = false →
  tv_dir v = TWork a → a ≠ 0 → quiet o → pri_after (tap_wiring (frame_mtu o) h) L P i (RWorking a) (pending_jobs b) (tap_output o) →
  wp (output_handler_recv k a) (λ _, tfollows o v) (mk_tsys b o).
Proof using Type.
  intros [Hk Hkm] Hh Hnm Hm He Ev Ed Ha [Eop Epe] Haf. unfold output_handler_recv. apply wp_bind, wp_gets. cbn [tap]. rewrite He, Eop.
  apply wp_bind, wp_assert; [done |]. apply wp_bind, wp_assert; [by apply negb_true_iff, Z.eqb_neq |]. apply wp_bind, wp_assert; [done |].
  cbv zeta. apply wp_bind, wp_emit. cbn [app]. set (x := TRead _ _ _ _).
  assert (tspec_effect (tap_fd o) (frame_mtu o) v x = match tk_read k (frame_mtu o) with
    | IoBytes n => if n <=? 0 then Some v else if n <=? frame_mtu o then Some (mk_tview (TEnding n) false) else None | _ => Some v end) as Hx
    by (unfold x, tspec_effect; by rewrite Ev, decide_True).
  assert (∀ b' : BReactor T G, b' <| pending_jobs := pending_jobs b' |> = b') as Hsame by (by intros []).
  assert (tspec_effect (tap_fd o) (frame_mtu o) v x = Some v →
    wp (tap_set (λ o, o <| output_packet := a |>);; tap_set (λ o, o <| poll_events := Z.lor (poll_events o) BREACTOR_READ |>);; tap_update_events k)
      (λ _ z xs, tfollows o v z ([x] ++ xs)) (mk_tsys b o)) as Hretry.
  { intros Ex. apply wp_bind, wp_modify, wp_bind, wp_modify. cbn [set tsys_eta eta trea tap BTap_eta app poll_events]. rewrite Epe.
    change (Z.lor 0 BREACTOR_READ) with BREACTOR_READ. set (o1 := o <| output_packet := a |> <| poll_events := BREACTOR_READ |>).
    refine (wp_tap_events k b o1 (poll_events o) _ Hh ltac:(split; [discriminate | discriminate]) Hkm _). intros b1 Hh1 Ej1. cbn [app].
    exists v. split; [cbn [app tspec_effects]; by rewrite Ex |]. split; [| done]. rewrite <- Ej1 in Haf.
    assert (trel (tv_dir v) (RWorking a) o1) as Hrel1 by (rewrite Ed; split; [done |]; split; [done |]; by right).
    pose proof (tap_after v b1 o1 i L P (RWorking a) _ h Hh1 Hnm Hm Haf Hrel1 ltac:(by rewrite Ev)) as Hi. by rewrite Hsame in Hi. }
  destruct (tk_read k (frame_mtu o)) as [n | |] eqn:Ek.
  - apply wp_if; intros En; rewrite En in Hx; [by apply Hretry |]. b2p. pose proof (Hk _ _ Hm Ek) as Hn. rewrite (proj2 (Z.leb_le n _)) in Hx by done.
    apply wp_bind, wp_assert; [by apply Z.leb_le |]. destruct Haf as (P' & Hq & Hok & Hwi & Hsn & Ej & HP).
    destruct (pri_finish_ok _ _ _ _ _ n Hq Hok Hwi) as (g & i' & E & Haf'); [apply Hsn | cbn; lia |].
    eapply wp_update; [cbn; rewrite E; reflexivity |]. exists (mk_tview (TEnding n) false). split; [cbn [app tspec_effects]; by rewrite Hx |]. split; [| done].
    rewrite <- Ej in Hnm. set (o2 := o <| tap_output := i' |>).
    exact (tap_after (mk_tview (TEnding n) false) b o2 (tap_output o) L P' (REnding n) g h Hh Hnm Hm Haf' (conj eq_refl (conj Eop Epe)) (eq_sym He)).
  - by apply Hretry.
  - apply (tap_report_ok v v b o [x]); [done | done | | cbn [tspec_effects]; by rewrite Hx]. set (o1 := o <| tap_err := true |>).
    assert (trel (TWork a) (RWorking a) o1) as Hrel1 by (split; [done |]; split; [done |]; by left).
    pose proof (tap_after (mk_tview (tv_dir v) true) b o1 i L P (RWorking a) _ h Hh Hnm Hm Haf ltac:(cbn [tv_dir]; by rewrite Ed) eq_refl) as Hi. by rewrite Hsame in Hi.
Qed.

(** ** Jobs and the loop *)

Lemma tap_same b : b <| pending_jobs := pending_jobs b |> = b.
Proof using Type. by destruct b. Qed.

(** The reactor has taken a job from its queue. *)
Lemma tap_job_ok k v b b' o L P u x h l1 l2 : tkernel_ok k → tbase v (mk_tsys b o) L P u → tap_err o = false → rinv b' → keeps (tap_bfd o) l1 l2 b b' →
  x ∈ P → L !! x = Some h → queue (pending_jobs b') L (P ∖ {[x]}) → wp (tap_job k h) (λ _, tfollows o v) (mk_tsys b' o).
Proof using Type.
  intros Hk Hb He Hi' Hkp Hx Hh Hq. pose proof (held_keeps _ _ _ _ _ _ (tb_held _ _ _ _ _ Hb) Hkp Hi') as Hheld. cbn [trea tap] in Hheld.
  pose proof (tb_named _ _ _ _ _ Hb) as Hnm. pose proof (tb_err _ _ _ _ _ Hb) as Ev. pose proof (tb_rel _ _ _ _ _ Hb) as Hrel. pose proof (tb_mtu _ _ _ _ _ Hb) as [_ Hm].
  cbn [tap] in *. rewrite He in Ev. unfold tap_job. apply wp_bind, wp_gets. cbn [tap].
  destruct (decide (x ∈ pri_jobs (tap_output o))) as [Hmine | Hother].
  - assert (h = x) as -> by (pose proof (r_live _ _ _ (tb_ok _ _ _ _ _ Hb) x Hmine); cbn [tap] in *; congruence).
    assert (u ≠ RIdle) as Hne.
    { intros ->. pose proof (tb_seen _ _ _ _ _ Hb) as Hst. cbn [tap rseen] in Hst. pose proof (tb_ok _ _ _ _ _ Hb) as [_ _ Hop Hdo]. cbn [tap] in Hop, Hdo.
      unfold pri_jobs in Hmine. rewrite !elem_of_cons in Hmine. destruct Hmine as [E | [E | []%elem_of_nil]]; rewrite E in Hx; [apply Hop in Hx | apply Hdo in Hx]; congruence. }
    destruct (tap_wired _ _ _ _ _ Hb (tb_user _ _ _ _ _ Hb Hne)) as (hd & Hwi). cbn [tap] in Hwi.
    destruct (pri_job_ok _ _ _ _ _ _ x Hq (tb_ok _ _ _ _ _ Hb) Hwi (tb_seen _ _ _ _ _ Hb) Hx Hmine) as (i & c & u' & E & Eex & Haf). cbn [tap] in E, Haf.
    apply wp_bind. eapply wp_lift; [exact E |]. set (o1 := o <| tap_output := i |>).
    assert (∀ (Q : unit → tsys T G → list teffect → Prop), Q () (mk_tsys b' o1) [] → wp (tap_iface (λ g _, Some (g, i))) Q (mk_tsys b' o)) as Hput.
    { intros Q HQ. eapply wp_update; [reflexivity |]. by destruct b'. }
    destruct u as [| d | d | n], c as [hh d' l' | hh d' | hh | hh | hh l']; cbn [rexpected] in Eex; try done; case_decide as Hd; simplify_eq;
      destruct (tv_dir v) as [| a | n'] eqn:Ed; cbn [trel] in Hrel; try done; apply wp_bind, Hput; cbn [app].
    + destruct Hd as [-> ->], Hrel as (-> & Ha & Hqu). exact (output_handler_ok k v b' o1 L _ (tap_output o) a hd Hk Hheld Hnm Hm He Ev Ed Ha Hqu Haf).
    + destruct Hd as [-> ->], Hrel as [-> Hqu]. apply wp_emit. cbn [app]. exists (mk_tview TIdle false).
      split; [cbn [tspec_effects]; unfold tspec_effect; by rewrite Ev, decide_True |]. split; [| done].
      pose proof (tap_after (mk_tview TIdle false) b' o1 (tap_output o) L _ RIdle _ hd Hheld Hnm Hm Haf Hqu (eq_sym He)) as Hi. by rewrite tap_same in Hi.
  - assert (h ∉ pri_jobs (tap_output o)) as Hn by (intros Hn; apply Hother; by rewrite (Hnm x h Hh Hn)).
    apply wp_bind. eapply wp_lift; [by apply pri_job_other |]. apply wp_ret. exists v. split; [done |]. split; [| done]. exists L, (P ∖ {[x]}), u.
    destruct Hb as [? ? ? Hok ? ? ? ? ? ?]. split; try done. cbn [tap]. eapply pri_ok_frame; [| exact Hok]. intros y Hy.
    rewrite elem_of_difference, elem_of_singleton. split; [tauto |]. intros ?. split; [done |]. by intros ->.
Qed.

Lemma tap_frame v b o b' L P u L' P' l1 l2 : tbase v (mk_tsys b o) L P u → rinv b' → keeps (tap_bfd o) l1 l2 b b' →
  queue (pending_jobs b') L' P' → jobs_kept (pri_jobs (tap_output o)) L P L' P' → tinv v (mk_tsys b' o).
Proof using Type.
  intros [Hh Hq Hn Hok Hs Hm Ho Hu Hr He] Hi Hk Hq' [Hag Hnew]. cbn [trea tap] in *. exists L', P', u. split; cbn [trea tap]; try done.
  - by eapply held_keeps.
  - intros x h E Hx. apply (Hn x h); [by apply Hnew | done].
  - apply (pri_ok_frame _ P P') in Hok; [| intros x Hx; by apply Hag]. destruct Hok as [H1 H2 H3 H4]. split; try done.
    intros x Hx. destruct (Hag x Hx) as [-> _]. by apply H1.
Qed.

(** Every event that is allowed. *)
Definition tap_goes v (s : tsys T G) (e : tevent) : Prop := ∃ v1, tspec_event v e = Some v1 ∧ wp (tap_step e) (λ _, tfollows (tap s) v1) s.

Lemma tap_goes_turn v b o L P u k now ws : tbase v (mk_tsys b o) L P u → tev_ok (mk_tsys b o) (TTurn k now ws) → tap_goes v (mk_tsys b o) (TTurn k now ws).
Proof using Type.
  intros Hb (Eerr & Hk & Hturn). cbn [tap trea] in *. pose proof (proj1 (tb_held _ _ _ _ _ Hb)) as Hi. cbn [trea] in Hi.
  destruct (iteration_spec b (mk_turn now ws []) Hi Hturn) as (r & E & Hr). cbn [tn_now tn_waits] in E.
  exists v. split; [done |]. cbn [tap_step]. apply wp_bind.
  assert (tfollows o v (mk_tsys b o) []) as Hstay by (exists v; split; [done |]; split; [by exists L, P, u | done]).
  destruct r as [[b' d] |]; [| eapply wp_ask; [cbn [trea]; rewrite E; reflexivity |]; cbn [app]; apply wp_bind, wp_gets, wp_ret; done].
  destruct (Hr b' d eq_refl) as [Hi' _].
  destruct (iteration_keeps (tap_bfd o) 0%nat 0%nat b (mk_turn now ws []) b' d L P Hi Hturn (tb_queue _ _ _ _ _ Hb) E) as [Hkp Hjobs].
  eapply wp_ask; [cbn [trea]; rewrite E; reflexivity |]. cbn [app set tsys_eta eta trea tap].
  assert (pending_jobs b' = pending_jobs b → tfollows o v (mk_tsys b' o) []) as Hsame.
  { intros Ej. exists v. split; [done |]. split; [| done].
    eapply tap_frame; [exact Hb | done | exact Hkp | rewrite Ej; exact (tb_queue _ _ _ _ _ Hb) | apply jobs_kept_refl]. }
  unfold tap_dispatch. apply wp_bind, wp_gets. cbn [tap app]. destruct d as [h | x h | x h events | |]; cbn [iteration_jobs] in Hjobs.
  - destruct Hjobs as (x & Hx & Hh & Hq). by eapply tap_job_ok.
  - apply wp_ret. by apply Hsame.
  - destruct Hjobs as (-> & Ej & f & e & Hf & Ha & ->). apply wp_when; intros Ex; b2p; [| by apply Hsame].
    pose proof (tb_held _ _ _ _ _ Hb) as [_ (f' & Hf' & _ & Hwe)]. cbn [tap trea] in *. rewrite <- Ex, Hf in Hf'. injection Hf' as <-. rewrite Hwe.
    apply (tap_fd_handler_ok k v b' o L ∅ u); [done | | done]. pose proof (held_keeps _ _ _ _ _ _ (tb_held _ _ _ _ _ Hb) Hkp Hi') as Hheld.
    destruct Hb. split; try done. cbn [trea]. by rewrite Ej.
  - apply wp_ret. by apply Hsame.
  - apply wp_ret. by apply Hsame.
Qed.

Lemma tap_goes_any v b o L P u e : tbase v (mk_tsys b o) L P u → tev_ok (mk_tsys b o) e → tap_goes v (mk_tsys b o) e.
Proof using Type.
  intros Hb He. destruct e as [h | d | d l | k now ws | c].
  - cbn [tev_ok tap] in He. exists v. split; [done |]. cbn [tap_step]. set (i := (tap_output o) <| pri_handler_done := Some h |>).
    assert (PacketRecvInterface_Receiver_Init (tap_output o) h = Some i) as E by (unfold PacketRecvInterface_Receiver_Init; by rewrite He, ASSERT_seq).
    eapply wp_update; [cbn; rewrite E; reflexivity |]. set (o1 := o <| tap_output := i |>).
    assert (tbase v (mk_tsys b o1) L P u) as Hb1 by (destruct Hb as [? ? ? [] ? ? ? ? ? ?]; split; try done; by split).
    exists v. split; [done |]. split; [| done]. exists L, P, u. by destruct b.
  - destruct He as (Eerr & Hidle & Hset & Hd). cbn [tap] in *. pose proof (tb_rel _ _ _ _ _ Hb) as Hrel. pose proof (tb_seen _ _ _ _ _ Hb) as Hsn. cbn [tap] in Hrel, Hsn.
    assert (tv_dir v = TIdle ∧ quiet o) as [Ed Hqu].
    { destruct (tv_dir v), u; cbn [trel rseen] in Hrel, Hsn; try done; first [congruence | destruct Hsn; congruence]. }
    destruct (tap_wired _ _ _ _ _ Hb Hset) as (h & Hwi). cbn [tap] in Hwi.
    destruct (pri_recv_ok _ _ _ _ _ d (tb_queue _ _ _ _ _ Hb) (tb_ok _ _ _ _ _ Hb) Hwi Hidle (λ _, Hd)) as (g & i & E & Haf). cbn [trea tap] in E.
    set (v1 := mk_tview (TWork d) (tv_err v)). exists v1. split; [cbn [tspec_event]; by rewrite decide_True |]. cbn [tap_step].
    eapply wp_update; [cbn; rewrite E; reflexivity |]. exists v1. split; [done |]. split; [| done]. set (o1 := o <| tap_output := i |>).
    exact (tap_after v1 b o1 (tap_output o) L P (RAsked d) g h (tb_held _ _ _ _ _ Hb) (tb_named _ _ _ _ _ Hb) (proj2 (tb_mtu _ _ _ _ _ Hb)) Haf
      (conj eq_refl (conj Hd Hqu)) (tb_err _ _ _ _ _ Hb)).
  - destruct He as [Eerr Hl]. cbn [tap] in *. exists v. split; [done |]. cbn [tap_step]. unfold BTap_Send. apply wp_bind, wp_gets. cbn [tap]. rewrite Eerr.
    apply wp_bind, wp_assert; [done |]. apply wp_bind, wp_assert; [apply Z.leb_le; lia |]. apply wp_bind, wp_assert; [apply Z.leb_le; lia |]. apply wp_emit. cbn [app].
    exists v. split; [| split; [by exists L, P, u | done]]. cbn [tspec_effects]. unfold tspec_effect.
    pose proof (tb_err _ _ _ _ _ Hb) as Ev. cbn [tap] in Ev. rewrite Ev, Eerr. by rewrite decide_True.
  - by eapply tap_goes_turn.
  - destruct He as [Hc (l1 & l2 & Hf)]. cbn [tap trea] in *. destruct (rstep_ok b c (proj1 (tb_held _ _ _ _ _ Hb)) Hc) as (b' & E & Hi').
    destruct (foreign_keeps _ _ _ _ _ _ _ _ _ Hf E (tb_queue _ _ _ _ _ Hb)) as (Hk & L' & P' & Hq & Hkept).
    exists v. split; [done |]. cbn [tap_step]. eapply wp_update; [cbn; rewrite E; reflexivity |]. exists v. split; [done |]. split; [| done].
    eapply tap_frame; [exact Hb | done | exact Hk | exact Hq | exact Hkept].
Qed.

(** Every run is defined, keeps the invariant and follows the protocol. *)
Lemma tap_run_ok es : ∀ v (s : tsys T G), tinv v s → tevs_ok s es →
  ∃ s' tr v', tap_run s es = Some (s', tr) ∧ tspec_trace (tap_fd (tap s)) (frame_mtu (tap s)) v tr = Some v' ∧ tinv v' s' ∧ tap_ids (tap s') = tap_ids (tap s).
Proof using Type.
  induction es as [| e es IH]; intros v s Hc Hok; [by exists s, [], v |]. destruct Hok as [He Hok]. destruct s as [b o]. pose proof Hc as (L & P & u & Hb).
  destruct (tap_goes_any v b o L P u e Hb He) as (v1 & Ev & Hwp). apply wp_inv in Hwp as ([] & s1 & xs & E & v2 & Exs & Hi1 & Eid). cbn [tap] in *.
  rewrite E in Hok. destruct (IH v2 s1 Hi1 Hok) as (s' & tr & v' & Er & Etr & Hi' & Eid'). exists s', ((e, xs) :: tr), v'.
  cbn [tap_run tspec_trace tap]. rewrite E, Er, option_bind_Some, Ev, option_bind_Some, Exs, option_bind_Some.
  rewrite Eid in Eid'. injection Eid as E1 E2 _ _. rewrite E1, E2 in Etr. done.
Qed.

End laws.

(** ** Making and releasing the device *)

(** The descriptors that were made, and closed. *)
Definition tap_made (xs : list teffect) : list Z := omap (λ x, match x with TOpen fd | TSocket fd => if fd <? 0 then None else Some fd | _ => None end) xs.
Definition tap_closed (xs : list teffect) : list Z := omap (λ x, match x with TClose fd => Some fd | _ => None end) xs.

(** When a device may be initialised: a descriptor of the user comes with the size of its
    packets. *)
Definition init_data_ok (d : BTap_init_data) : Prop :=
  match tap_init d with
  | BTAP_INIT_FD fd mtu => 0 ≤ fd ∧ 0 ≤ mtu ∧ (dev_type d = BTAP_DEV_TAP → BTAP_ETHERNET_HEADER_LENGTH ≤ mtu)
  | BTAP_INIT_STRING _ => True
  end.

(** What the kernel promises: descriptors can be closed, an MTU is not negative. *)
Definition tap_answers_ok (a : tap_answers) : Prop := ta_close a = true ∧ ∀ m, ta_mtu a = Some m → 0 ≤ m.

(** The size of the packets of the device. *)
Definition device_mtu (d : BTap_init_data) (a : tap_answers) : Z :=
  match tap_init d with
  | BTAP_INIT_FD _ mtu => mtu
  | BTAP_INIT_STRING _ => default 0 (ta_mtu a) + match dev_type d with BTAP_DEV_TUN => 0 | BTAP_DEV_TAP => BTAP_ETHERNET_HEADER_LENGTH end
  end.
Definition device_fd (d : BTap_init_data) (a : tap_answers) : Z := match tap_init d with BTAP_INIT_FD fd _ => fd | BTAP_INIT_STRING _ => ta_open a end.
Definition owns_fd (d : BTap_init_data) : bool := match tap_init d with BTAP_INIT_FD _ _ => false | BTAP_INIT_STRING _ => true end.

Section setup.
Context {T G : Type} `{OrderedTree T} `{JobQueue G}.
Implicit Types (b : BReactor T G) (o : BTap) (L : gmap addr nat) (P : gset addr).

(** The memory of a device that is not in use. *)
Record tap_fresh o b L : Prop := {
  tf_fd : idle_fd b (tap_bfd o);
  tf_nodup : NoDup (pri_jobs (tap_output o));
  tf_jobs x : x ∈ pri_jobs (tap_output o) → L !! x = None;
  tf_names x h : L !! x = Some h → h ∉ pri_jobs (tap_output o)
}.

(** What [BTap_Init2] has done: a device that failed has closed what it made, one that
    works still has its descriptor. *)
Definition tap_init_result o b L P d a o' (ok : bool) b' xs : Prop :=
  if ok then tap_made xs = (if owns_fd d then [device_fd d a] else []) ++ tap_closed xs ∧ tap_ids o' = (device_fd d a, device_mtu d a, tap_bfd o, owns_fd d) ∧
    tinv (mk_tview TIdle false) (mk_tsys b' o') ∧ (owns_fd d = false → tap_closed xs = [])
  else tap_closed xs ≡ₚ tap_made xs ∧ rinv b' ∧ idle_fd b' (tap_bfd o) ∧ queue (pending_jobs b') L P.

Lemma tap_open_ok b o dev string a : tap_answers_ok a → tap_close_fd o = true →
  wp (tap_open o dev string a) (λ r b' xs, b' = b ∧ tap_bfd r.1 = tap_bfd o ∧ tap_output r.1 = tap_output o ∧ tap_close_fd r.1 = true ∧
    if r.2 then tap_made xs = ta_open a :: tap_closed xs ∧ tap_fd r.1 = ta_open a ∧ 0 ≤ frame_mtu r.1 ∧
      frame_mtu r.1 = device_mtu (mk_BTap_init_data dev (BTAP_INIT_STRING string)) a
    else tap_closed xs ≡ₚ tap_made xs) b.
Proof using Type.
  intros [Hc Hm] Hcl. unfold tap_open, tap_query_mtu, tap_fail1. cbv zeta. cbn [set BTap_eta eta tap_fd tap_close_fd]. rewrite Hc, Hcl. apply wp_bind, wp_emit. cbn [app].
  destruct (ta_open a <? 0) eqn:Eo; [apply wp_ret; cbn; by rewrite Eo |]. apply wp_bind, wp_emit. cbn [app]. destruct (ta_name a) as [name |].
  2: { apply wp_bind, wp_bind, wp_assert; [done |]. apply wp_emit, wp_ret. cbn. by rewrite Eo. }
  apply wp_bind, wp_emit. cbn [app]. apply wp_if; intros Es.
  { apply wp_bind, wp_bind, wp_assert; [done |]. apply wp_emit, wp_ret. cbn. by rewrite Eo, Es. }
  apply wp_bind, wp_emit. destruct (ta_mtu a) as [m |] eqn:Em.
  - apply wp_bind, wp_emit, wp_ret. cbn. rewrite Eo, Es. cbn. do 6 (split; [done |]). unfold device_mtu. cbn. rewrite Em. cbn.
    pose proof (Hm m eq_refl). unfold BTAP_ETHERNET_HEADER_LENGTH. destruct dev; lia.
  - apply wp_bind, wp_emit. apply wp_bind, wp_bind, wp_assert; [done |]. apply wp_emit, wp_ret. cbn. rewrite Eo, Es. cbn. do 4 (split; [done |]). apply perm_swap.
Qed.

(** The rest of the initialisation, with a descriptor [fd]. *)
Lemma tap_init_rest b L P o a pre : rinv b → queue (pending_jobs b) L P → tap_fresh o b L → ta_close a = true → 0 ≤ frame_mtu o →
  tap_made pre = (if tap_close_fd o then [tap_fd o] else []) ++ tap_closed pre →
  wp (tap_finish o a)
    (λ r b' xs, if r.2 then tap_made (pre ++ xs) = (if tap_close_fd o then [tap_fd o] else []) ++ tap_closed (pre ++ xs) ∧ tap_ids r.1 = tap_ids o ∧
        tinv (mk_tview TIdle false) (mk_tsys b' r.1) ∧ xs = []
      else tap_closed (pre ++ xs) ≡ₚ tap_made (pre ++ xs) ∧ rinv b' ∧ idle_fd b' (tap_bfd o) ∧ queue (pending_jobs b') L P) b.
Proof using Type.
  intros Hi Hq Hf Hc Hm Hpre. unfold tap_finish, tap_fail1. rewrite Hc.
  assert (∀ b', rinv b' → queue (pending_jobs b') L P → idle_fd b' (tap_bfd o) →
    wp ((when (tap_close_fd o) (assert true;; emit (TClose (tap_fd o))));; mret (o, false)) (λ r b' xs,
      if r.2 then tap_made (pre ++ xs) = (if tap_close_fd o then [tap_fd o] else []) ++ tap_closed (pre ++ xs) ∧ tap_ids r.1 = tap_ids o ∧
        tinv (mk_tview TIdle false) (mk_tsys b' r.1) ∧ xs = []
      else tap_closed (pre ++ xs) ≡ₚ tap_made (pre ++ xs) ∧ rinv b' ∧ idle_fd b' (tap_bfd o) ∧ queue (pending_jobs b') L P) b') as Hfail.
  { intros b' Hi' Hq' Hid. apply wp_bind. unfold tap_made, tap_closed in *.
    apply wp_when; intros Ec; rewrite Ec in Hpre; [apply wp_bind, wp_assert; [done |]; apply wp_emit |]; apply wp_ret; cbn [snd fst app];
      rewrite !omap_app, Hpre; cbn; rewrite ?app_nil_r; (split; [| done]); [apply Permutation_app_comm | done]. }
  apply wp_if; intros Enb; [by apply Hfail; [| | apply Hf] |]. apply wp_bind. eapply wp_fd_init; [done | exact (tf_fd _ _ _ Hf) |]. intros b2 Hi2 Hx2 Hy2 Ej2 El2 Er2. apply wp_bind.
  eapply wp_fd_add; [done | exact Hx2 | done | |]; intros Eadd; [| intros b3 Hi3 Hx3 Ej3 El3 Er3]; cbn [negb app].
  { apply Hfail; [done | by rewrite Ej2 | unfold idle_fd; by rewrite Hx2]. }
  rewrite <- Ej2, <- Ej3 in Hq. destruct (pri_init_ok _ L P (tap_output o) (frame_mtu o) tap_operation Hq Hm (tf_nodup _ _ _ Hf) (tf_jobs _ _ _ Hf))
    as (g & i & E & EJ & Hq' & Hok & Em & Eop & Edn & Est).
  apply wp_bind. eapply wp_ask; [cbn; rewrite E; reflexivity |]. apply wp_ret. cbn [snd fst app]. unfold tap_made, tap_closed in *. rewrite !omap_app, Hpre. cbn.
  rewrite !app_nil_r. split; [done |]. split; [done |]. split; [| done]. exists (FlowInterfaces.with_jobs L (rev (pri_jobs (tap_output o)))), P, RIdle. split; try done.
  - eapply held_jobs; [| exact Hq']. split; [done |]. eexists. split; [exact Hx3 |]. done.
  - intros x h E2 Hh. cbn [tap] in Hh. change (h ∈ pri_jobs i) in Hh. rewrite EJ in Hh. apply with_jobs_lookup in E2 as [[_ ->] | E2]; [done |]. by destruct (tf_names _ _ _ Hf x h E2).
Qed.

Lemma tap_init2_ok b L P o d a : rinv b → queue (pending_jobs b) L P → tap_fresh o b L → init_data_ok d → tap_answers_ok a →
  wp (BTap_Init2 o d a) (λ r, tap_init_result o b L P d a r.1 r.2) b.
Proof using Type.
  intros Hi Hq Hf Hd Ha. unfold BTap_Init2. cbv zeta. apply wp_bind. unfold init_data_ok in Hd. destruct d as [dev [string | fd mtu]]; cbn [tap_init dev_type] in *.
  - eapply wp_mono; [apply (tap_open_ok b); [exact Ha | done] |]. intros [o1 ok] b1 xs1 (-> & Ebfd & Eout & Ecl & Hr). cbn [fst snd] in *. cbn [set BTap_eta eta tap_bfd tap_output] in *.
    destruct ok; cbn [negb].
    + destruct Hr as (Hmade & Efd & Hm & Emtu). eapply wp_mono; [apply (tap_init_rest b L P o1 a xs1 Hi Hq) |].
      * destruct Hf. split; rewrite ?Ebfd, ?Eout; done.
      * apply Ha.
      * done.
      * by rewrite Ecl, Efd.
      * intros [o2 ok2] b2 xs2. cbn [fst snd]. unfold tap_init_result, owns_fd, device_fd. cbn [tap_init]. rewrite Ecl, Efd, Ebfd. destruct ok2; [| done].
        intros (? & Eid & ? & _). split; [done |]. split; [| done]. rewrite Eid. unfold tap_ids. by rewrite Efd, Emtu, Ebfd, Ecl.
    + apply wp_ret. cbn [fst snd tap_init_result]. rewrite app_nil_r. split; [done |]. split; [done |]. by split; [apply Hf |].
  - destruct Hd as (H1 & H2 & H3). unfold tap_given. apply wp_bind, wp_assert; [by apply Z.leb_le |]. apply wp_bind, wp_assert; [by apply Z.leb_le |].
    apply wp_bind, wp_assert; [destruct dev; [done | apply Z.leb_le; auto] |]. apply wp_ret. cbn [app negb]. set (o1 := o <| tap_close_fd := false |> <| tap_fd := fd |> <| frame_mtu := mtu |>).
    eapply wp_mono; [apply (tap_init_rest b L P o1 a [] Hi Hq); [by destruct Hf | apply Ha | exact H2 | done] |].
    intros [o2 ok2] b2 xs2. cbn [fst snd app]. unfold tap_init_result. destruct ok2; [| done]. by intros (? & ? & ? & ->).
Qed.

Lemma tap_free_ok v (s : tsys T G) k : tinv v s → tk_del k = true → tk_close k = true →
  wp (BTap_Free k) (λ _ s' xs, xs = (if tap_close_fd (tap s) then [TClose (tap_fd (tap s))] else []) ∧ rinv (trea s') ∧ idle_fd (trea s') (tap_bfd (tap s)) ∧
    ∃ L P, queue (pending_jobs (trea s')) L P ∧ ∀ x, x ∈ pri_jobs (tap_output (tap s)) → L !! x = None) s.
Proof using Type.
  destruct s as [b o]. intros (L & P & u & Hb) Hk1 Hk2. cbn [tap trea]. unfold BTap_Free. apply wp_bind, wp_gets. cbn [tap]. rewrite Hk1, Hk2.
  destruct (pri_free_ok _ _ _ _ (tb_queue _ _ _ _ _ Hb) (tb_ok _ _ _ _ _ Hb)) as (g & E & Hq). cbn [trea tap] in E, Hq.
  apply wp_bind. eapply (wp_update _ _ _ (mk_tsys (b <| pending_jobs := g |>) o)); [unfold with_jobs; cbn; rewrite E; reflexivity |].
  pose proof (held_jobs _ _ _ _ _ _ (tb_held _ _ _ _ _ Hb) Hq) as [Hi (f & Hf & Ha & _)]. cbn [trea tap] in Hi, Hf.
  destruct (remove_fd_spec (b <| pending_jobs := g |>) (tap_bfd o) Hi) as (b3 & E3 & Hi3 & Ha3 & _); [by rewrite Hf; cbn; rewrite Ha |]. revert E3. set (b1 := b <| pending_jobs := g |>). intros E3.
  apply wp_bind. eapply wp_update; [cbn [trea]; rewrite E3; reflexivity |].
  assert (pending_jobs b3 = g) as Ej3 by (unfold BReactor_RemoveFileDescriptor in E3; open_call E3; done).
  assert (rinv b3 ∧ idle_fd b3 (tap_bfd o) ∧ ∃ L P, queue (pending_jobs b3) L P ∧ ∀ x, x ∈ pri_jobs (tap_output o) → L !! x = None) as Hend.
  { split; [done |]. split; [unfold idle_fd; by rewrite Ha3 |]. eexists _, _. rewrite Ej3. split; [exact Hq |]. intros x Hx. unfold pri_jobs in *. cbn [foldr].
    rewrite !lookup_delete. rewrite !elem_of_cons in Hx. repeat case_decide; try done. destruct Hx as [? | [? | []%elem_of_nil]]; congruence. }
  apply wp_when; intros Ec; rewrite Ec; [apply wp_bind, wp_assert; [done |]; by apply wp_emit |]. done.
Qed.

End setup.

Section closes.
(** The protocol has no release of the device. *)
Lemma tspec_no_close sock mtu xs : ∀ v v', tspec_effects sock mtu v xs = Some v' → tap_closed xs = [].
Proof.
  induction xs as [| x xs IH]; intros v v' E; [done |]. cbn [tspec_effects] in E. apply bind_Some in E as (v1 & E1 & E).
  assert (tap_closed (x :: xs) = tap_closed xs) as ->; [| by eapply IH]. destruct x; try done. unfold tspec_effect in E1. by destruct (tv_err v).
Qed.

Lemma ttrace_no_close sock mtu tr : ∀ v v', tspec_trace sock mtu v tr = Some v' → tap_closed (concat (snd <$> tr)) = [].
Proof.
  induction tr as [| [e xs] tr IH]; intros v v' E; [done |]. cbn [tspec_trace] in E. apply bind_Some in E as (v1 & _ & E).
  apply bind_Some in E as (v2 & E2 & E). cbn. unfold tap_closed. rewrite omap_app. fold (tap_closed xs). rewrite (tspec_no_close _ _ _ _ _ E2).
  by eapply IH.
Qed.
End closes.

(** ** An example *)

Definition demo_tap : BTap := mk_BTap 0 (mk_pri 0 0 None 11 0 12 0 STATE_NONE) 0 false 0 20 0 false.
Definition demo_tap_data : BTap_init_data := mk_BTap_init_data BTAP_DEV_TUN (BTAP_INIT_FD 5 1500).
Definition demo_tap_answers : tap_answers := mk_tap_answers (-1) None (-1) None true true true.
Definition demo_tsys : tsys BAVL BPendingGroup :=
  match BTap_Init2 demo_tap demo_tap_data demo_tap_answers demo_init with Some ((o, _), b, _) => mk_tsys b o | None => mk_tsys demo_init demo_tap end.

Lemma demo_tap_fresh : tap_fresh demo_tap demo_init ∅.
Proof.
  split; [discriminate | | reflexivity | by intros x h ?%lookup_empty_Some]. vm_compute. repeat (constructor; [set_solver |]). constructor.
Qed.
Lemma demo_tap_init : BTap_Init2 demo_tap demo_tap_data demo_tap_answers demo_init = Some ((tap demo_tsys, true), trea demo_tsys, []).
Proof. vm_compute. reflexivity. Qed.
Lemma demo_tap_data_ok : init_data_ok demo_tap_data.
Proof. split; [discriminate |]. split; [discriminate |]. discriminate. Qed.
Lemma demo_tap_answers_ok : tap_answers_ok demo_tap_answers.
Proof. split; [reflexivity |]. discriminate. Qed.

(** A packet of 60 bytes arrives, or nothing. *)
Definition demo_tkernel : tkernel := mk_tkernel (λ len, IoBytes (Z.min 60 len)) true true true.
Definition empty_tkernel : tkernel := mk_tkernel (λ _, IoBytes 0) true true true.
Lemma demo_tkernel_ok : tkernel_ok demo_tkernel.
Proof. split; [| done]. intros len n Hl [= <-]. lia. Qed.
Lemma empty_tkernel_ok : tkernel_ok empty_tkernel.
Proof. split; [| done]. by intros len n Hl [= <-]. Qed.

Lemma tevs_ok_cons (s : tsys BAVL BPendingGroup) e es : tev_ok s e → tevs_ok (match tap_step e s with Some (_, s, _) => s | None => s end) es → tevs_ok s (e :: es).
Proof. intros He Hes. cbn [tevs_ok]. split; [done |]. by destruct (tap_step e s) as [[[? ?] ?] |]. Qed.

(** Checks an event of a concrete run. *)
Ltac demo_tevent :=
  apply tevs_ok_cons;
  [lazymatch goal with
   | |- tev_ok _ (TTurn empty_tkernel _ []) => split; [vm_compute; reflexivity |]; split; [exact empty_tkernel_ok | exact I]
   | |- tev_ok _ (TTurn demo_tkernel _ []) => split; [vm_compute; reflexivity |]; split; [exact demo_tkernel_ok | exact I]
   | |- tev_ok _ (TRecv _) => do 3 (split; [vm_compute; reflexivity |]); discriminate
   | |- tev_ok _ (TSend _ _) => split; [vm_compute; reflexivity |]; split; vm_compute; discriminate
   | |- _ => vm_compute; reflexivity
   end |].

(** A packet is asked for and is there; the next one is not; one is sent. *)
Definition demo_tevents : list tevent :=
  [TReceiverInit 8; TRecv 900; TTurn demo_tkernel 0 []; TTurn demo_tkernel 0 []; TRecv 900; TTurn empty_tkernel 0 []; TSend 500 40].

Lemma demo_tevents_ok : tevs_ok demo_tsys demo_tevents.
Proof. unfold demo_tevents. do 7 demo_tevent. exact I. Qed.

(** ** Properties *)

(** [C15] The network device, from its initialisation on and for every sequence of calls
    of its user, turns of the event loop, answers and reports of the kernel (errors and
    hang-ups included) and calls of other objects, never fails an assertion nor uses an
    object it does not hold, and follows its protocol: the device is read only while a
    packet is asked for, into its buffer and at most its size, a read of nothing is
    tried again, every packet is reported once, with its length, and nothing follows the
    report of an error. No packet is forgotten: while one is asked for and no error was
    reported, a job of the interface is set or the reactor monitors the device; and it
    monitors it at no other time. *)
Theorem device_packets {T G} `{OrderedTree T} `{JobQueue G} (b b' : BReactor T G) L P o o' d a xs es :
  rinv b → queue (pending_jobs b) L P → tap_fresh o b L → init_data_ok d → tap_answers_ok a →
  BTap_Init2 o d a b = Some ((o', true), b', xs) → tevs_ok (mk_tsys b' o') es →
  ∃ s' tr v f q, tap_run (mk_tsys b' o') es = Some (s', tr) ∧ tspec_trace (device_fd d a) (device_mtu d a) (mk_tview TIdle false) tr = Some v ∧
    fds (trea s') !! tap_bfd o = Some f ∧ active f = true ∧ jq_rep (pending_jobs (trea s')) q ∧
    (tv_dir v ≠ TIdle → tv_err v = false → (∃ x, x ∈ pri_jobs (tap_output (tap s')) ∧ x ∈ stack q) ∨ waitEvents f = BREACTOR_READ) ∧
    (tv_err v = false → waitEvents f ≠ 0 → ∃ data, tv_dir v = TWork data).
Proof.
  intros Hi Hq Hf Hd Ha E Hes. pose proof (wp_run _ _ _ _ _ _ (tap_init2_ok b L P o d a Hi Hq Hf Hd Ha) E) as (_ & Eid & Hc & _). cbn [fst] in Eid, Hc.
  destruct (tap_run_ok es _ _ Hc Hes) as (s' & tr & v & Er & Htr & (L' & P' & u & Hb) & Eid'). cbn [tap] in Htr, Eid'. rewrite Eid in Eid'.
  injection Eid as E1 E2 _ _. injection Eid' as _ _ F3 _. rewrite E1, E2 in Htr. destruct (tb_held _ _ _ _ _ Hb) as [_ (f & Hfd & Hact & Hwe)]. rewrite F3 in Hfd.
  destruct (tb_queue _ _ _ _ _ Hb) as (q & Hr & _ & _ & HP & _). exists s', tr, v, f, q. do 5 (split; [done |]).
  pose proof (tb_rel _ _ _ _ _ Hb) as Hrel. pose proof (tb_seen _ _ _ _ _ Hb) as Hsn. pose proof (tb_ok _ _ _ _ _ Hb) as [_ _ Hop Hdo]. pose proof (tb_err _ _ _ _ _ Hb) as Ev.
  rewrite Hwe. split; [intros Hne Herr | intros Herr Hnz].
  - destruct (tv_dir v), u; cbn [trel rseen] in Hrel, Hsn; try done.
    + left. exists (pri_job_operation (tap_output (tap s'))). split; [unfold pri_jobs; set_solver |]. apply HP, Hop, Hsn.
    + right. destruct Hrel as (_ & _ & [? | [_ ?]]); [congruence | done].
    + left. exists (pri_job_done (tap_output (tap s'))). split; [unfold pri_jobs; set_solver |]. apply HP, Hdo, Hsn.
  - destruct (tv_dir v), u; cbn [trel] in Hrel; try done; try (by eexists); [by destruct Hrel | by destruct Hrel as [_ [_ ?]]].
Qed.

Lemma device_packets_witness :
  ∃ s' tr f, tap_run demo_tsys demo_tevents = Some (s', tr) ∧
    concat (snd <$> tr) = [TRead 5 900 1500 (IoBytes 60); TReceived (CallDoneLen 8 60); TRead 5 900 1500 (IoBytes 0); TWrite 5 500 40] ∧
    fds (trea s') !! 20%nat = Some f ∧ waitEvents f = BREACTOR_READ.
Proof.
  destruct (device_packets demo_init (trea demo_tsys) ∅ ∅ demo_tap (tap demo_tsys) demo_tap_data demo_tap_answers [] demo_tevents
    demo_init_rinv demo_queue demo_tap_fresh demo_tap_data_ok demo_tap_answers_ok demo_tap_init demo_tevents_ok) as (s' & tr & v & f & q & E & _ & Hf & _).
  change (mk_tsys (trea demo_tsys) (tap demo_tsys)) with demo_tsys in E. exists s', tr, f. split; [exact E |].
  assert ((λ r, (concat (snd <$> r.2), waitEvents <$> fds (trea r.1) !! 20%nat)) <$> tap_run demo_tsys demo_tevents =
    Some ([TRead 5 900 1500 (IoBytes 60); TReceived (CallDoneLen 8 60); TRead 5 900 1500 (IoBytes 0); TWrite 5 500 40], Some BREACTOR_READ)) as E2 by (vm_compute; reflexivity).
  rewrite E in E2. injection E2 as E2 E3. split; [exact E2 |]. change (tap_bfd demo_tap) with 20%nat in Hf. cbn [fst] in E3. rewrite Hf in E3. injection E3 as E3.
  split; [exact Hf | exact E3].
Defined.

(** Whatever the kernel answers, the device closes the descriptors it made: if the
    initialisation fails, all of them, and the reactor keeps nothing of it; else the
    socket for the query of the MTU, and, after any run, the descriptor of the device
    when it is released, unless it was given by the user, whose descriptor is never
    closed; then neither its descriptor nor its jobs are left in the reactor. *)
Theorem device_lifetime {T G} `{OrderedTree T} `{JobQueue G} (b : BReactor T G) L P o d a k :
  rinv b → queue (pending_jobs b) L P → tap_fresh o b L → init_data_ok d → tap_answers_ok a → tk_del k = true → tk_close k = true →
  ∃ o' ok b' xs, BTap_Init2 o d a b = Some ((o', ok), b', xs) ∧
    if ok then BTap_GetMTU o' = device_mtu d a ∧ ∀ es s' tr, tevs_ok (mk_tsys b' o') es → tap_run (mk_tsys b' o') es = Some (s', tr) →
        ∃ s2 xs2, BTap_Free k s' = Some ((), s2, xs2) ∧
          (let ys := xs ++ concat (snd <$> tr) ++ xs2 in tap_closed ys ≡ₚ tap_made xs ∧ (owns_fd d = false → tap_closed ys = [])) ∧
          rinv (trea s2) ∧ idle_fd (trea s2) (tap_bfd o) ∧
          ∃ L2 P2, queue (pending_jobs (trea s2)) L2 P2 ∧ ∀ x, x ∈ pri_jobs (tap_output (tap s')) → L2 !! x = None
    else tap_closed xs ≡ₚ tap_made xs ∧ rinv b' ∧ idle_fd b' (tap_bfd o) ∧ queue (pending_jobs b') L P.
Proof.
  intros Hi Hq Hf Hd Ha Hk1 Hk2. destruct (wp_inv _ _ _ (tap_init2_ok b L P o d a Hi Hq Hf Hd Ha)) as ([o' ok] & b' & xs & E & Hr). cbn [fst snd] in Hr.
  exists o', ok, b', xs. split; [done |]. destruct ok; cbn [tap_init_result] in Hr; [| done]. destruct Hr as (Hmade & Eid & Hc & Hnone).
  pose proof Eid as [= _ Emtu _ _]. split; [exact Emtu |]. intros es s' tr Hes Er.
  destruct (tap_run_ok es _ _ Hc Hes) as (s1 & tr1 & v & Er1 & Htr & Hc1 & Eid'). rewrite Er in Er1. injection Er1 as <- <-. cbn [tap] in Eid'. rewrite Eid in Eid'.
  injection Eid' as F1 _ F3 F4.
  destruct (wp_inv _ _ _ (tap_free_ok v s' k Hc1 Hk1 Hk2)) as ([] & s2 & xs2 & Ef & -> & Hi2 & Hid & Hjobs). eexists s2, _. split; [exact Ef |].
  rewrite F3 in Hid. split; [| done]. unfold tap_closed in *. cbv zeta. rewrite !omap_app. fold (tap_closed (concat (snd <$> tr))). rewrite (ttrace_no_close _ _ _ _ _ Htr), F1, F4, Hmade.
  cbn [app]. destruct (owns_fd d) eqn:Eo.
  - split; [apply Permutation_app_comm | done].
  - cbn [omap list_omap app] in *. rewrite app_nil_r. split; [done |]. exact Hnone.
Qed.

Definition demo_tap_opened : BTap_init_data := mk_BTap_init_data BTAP_DEV_TAP (BTAP_INIT_STRING (Some [116; 97; 112; 48])).
Definition demo_open_answers : tap_answers := mk_tap_answers 5 (Some [116; 97; 112; 48]) 6 (Some 1500) true true true.

Lemma device_lifetime_witness :
  ∃ o' b' xs s2 xs2, BTap_Init2 demo_tap demo_tap_opened demo_open_answers demo_init = Some ((o', true), b', xs) ∧
    BTap_GetMTU o' = 1514 ∧ BTap_Free demo_tkernel (mk_tsys b' o') = Some ((), s2, xs2) ∧ tap_closed (xs ++ xs2) = [6; 5] ∧ idle_fd (trea s2) 20.
Proof.
  destruct (device_lifetime demo_init ∅ ∅ demo_tap demo_tap_opened demo_open_answers demo_tkernel demo_init_rinv demo_queue demo_tap_fresh I) as (o' & ok & b' & xs & E & Hr);
    [split; [reflexivity |]; intros m [= <-]; lia | reflexivity | reflexivity |].
  assert ((λ r, (r.1.1.2, (λ f, tap_closed (r.2 ++ f.2)) <$> BTap_Free demo_tkernel (mk_tsys r.1.2 r.1.1.1))) <$> BTap_Init2 demo_tap demo_tap_opened demo_open_answers demo_init =
    Some (true, Some [6; 5])) as E2 by (vm_compute; reflexivity).
  rewrite E in E2. injection E2 as E2 E3. subst ok. destruct Hr as [Hm Hr]. destruct (Hr [] (mk_tsys b' o') [] I eq_refl) as (s2 & xs2 & Ef & _ & _ & Hid & _).
  cbn [fst snd] in E3. rewrite Ef in E3. injection E3 as E3. exists o', b', xs, s2, xs2. split; [exact E |]. split; [exact Hm |]. split; [exact Ef |]. split; [exact E3 | exact Hid].
Defined.
