(* ===== verification/BufferWriter.v ===== *)
(** * Writing packets into a buffer on demand (flow/BufferWriter.c)

    The downstream component hands the writer a region of [mtu] bytes through its
    receive interface; the owner fills it and ends the packet. [out] is that
    region. A store that leaves the region is undefined behaviour, here [None]. *)
From S2P Require Import Prelude.

Record BufferWriter := mk_BufferWriter { out_have : bool; out : bytes; d_mtu : Z; d_writing : bool }.
#[export] Instance BufferWriter_eta : Eta BufferWriter := λ w,
  mk_BufferWriter (out_have w) (out w) (d_mtu w) (d_writing w).

Definition BufferWriter_Init (mtu : Z) : option BufferWriter :=
  ASSERT (0 <=? mtu);;
  Some (mk_BufferWriter false [] mtu false).

(** [output_handler_recv]: the receiver provides the region of the next packet. *)
Definition bw_output_handler_recv (w : BufferWriter) (data : bytes) : option BufferWriter :=
  ASSERT (negb (out_have w));;
  Some (w <| out_have := true |> <| out := data |>).

Definition BufferWriter_StartPacket (w : BufferWriter) : option (BufferWriter * bool) :=
  ASSERT (negb (d_writing w));;
  if negb (out_have w) then Some (w, false) else Some (w <| d_writing := true |>, true).

(** The owner's [memcpy] to [out + off]. *)
Definition bw_memcpy (w : BufferWriter) (off : Z) (d : bytes) : option BufferWriter :=
  ASSERT ((0 <=? off) && (off + zlen d <=? zlen (out w)));;
  Some (w <| out := mem_write (out w) off d |>).

(** Ends the packet; what the receiver gets is the first [len] bytes of the region. *)
Definition BufferWriter_EndPacket (w : BufferWriter) (len : Z) : option (BufferWriter * bytes) :=
  ASSERT (0 <=? len);; ASSERT (len <=? d_mtu w);; ASSERT (out_have w);; ASSERT (d_writing w);;
  Some (w <| out_have := false |> <| d_writing := false |>, ztake len (out w)).

(** Between packets: not writing, and a region on offer has the promised size. *)
Definition writer_ok (mtu : Z) (w : BufferWriter) : Prop :=
  d_mtu w = mtu ∧ d_writing w = false ∧ (out_have w = true → zlen (out w) = mtu).

(** Writing consecutive pieces. *)
Fixpoint bw_write_all (w : BufferWriter) (off : Z) (ds : list bytes) : option BufferWriter :=
  match ds with
  | [] => Some w
  | d :: ds => w ← bw_memcpy w off d; bw_write_all w (off + zlen d) ds
  end.

Lemma mem_write_end m off d : 0 ≤ off → off + zlen d ≤ zlen m →
  ztake (off + zlen d) (mem_write m off d) = ztake off m ++ d.
Proof.
  intros. pose proof (zlen_nonneg d). unfold mem_write. rewrite app_assoc. apply ztake_app_exact. autorewrite with c_len. lia.
Qed.

Lemma bw_write_all_spec ds : ∀ w off, 0 ≤ off → off + zlen (concat ds) ≤ zlen (out w) →
  ∃ w', bw_write_all w off ds = Some w' ∧ ztake (off + zlen (concat ds)) (out w') = ztake off (out w) ++ concat ds ∧
    zlen (out w') = zlen (out w) ∧ out_have w' = out_have w ∧ d_mtu w' = d_mtu w ∧ d_writing w' = d_writing w.
Proof.
  induction ds as [| d ds IH]; intros w off Hoff Hl; simpl in *.
  - eexists. split; [done |]. split_and!; [| done..]. rewrite app_nil_r. f_equal. rewrite zlen_nil. lia.
  - rewrite zlen_app in *. pose proof (zlen_nonneg d). pose proof (zlen_nonneg (concat ds)).
    unfold bw_memcpy. rewrite ASSERT_seq by (apply andb_true_iff; split; apply Z.leb_le; lia).
    rewrite option_bind_Some.
    destruct (IH (w <| out := mem_write (out w) off d |>) (off + zlen d)) as (w' & E & Ht & Hz & ? & ? & ?); simpl in *.
    { lia. }
    { rewrite zlen_mem_write by lia. lia. }
    exists w'. split; [done |]. rewrite zlen_mem_write in Hz by lia. split_and!; [| done..].
    rewrite mem_write_end in Ht by lia. rewrite <- app_assoc in Ht. rewrite <- Ht. f_equal. lia.
Qed.

(** A packet of at most [mtu] bytes, started, written in pieces and ended, is
    handed over complete, and the writer is ready for the next region. *)
Lemma bw_packet mtu w ds : writer_ok mtu w → out_have w = true → zlen (concat ds) ≤ mtu →
  ∃ w1 w2 w3, BufferWriter_StartPacket w = Some (w1, true) ∧ bw_write_all w1 0 ds = Some w2 ∧
    BufferWriter_EndPacket w2 (zlen (concat ds)) = Some (w3, concat ds) ∧ writer_ok mtu w3 ∧ out_have w3 = false.
Proof.
  intros (Hm & Hw & Hz) Ho Hl. specialize (Hz Ho). pose proof (zlen_nonneg (concat ds)).
  unfold BufferWriter_StartPacket. rewrite Hw, Ho. simpl.
  destruct (bw_write_all_spec ds (w <| d_writing := true |>) 0) as (w2 & E & Ht & Hz2 & Eo & Em & Ed); simpl in *; [lia.. |].
  eexists _, w2, _. split; [done |]. split; [exact E |].
  unfold BufferWriter_EndPacket. rewrite Eo, Em, Ed, Ho, Hm.
  rewrite (ASSERT_seq (0 <=? _)), (ASSERT_seq (_ <=? mtu)) by (apply Z.leb_le; lia). simpl.
  change (ztake (zlen (concat ds)) (out w2) = concat ds) in Ht. rewrite Ht. split; [done |]. split; [| done]. repeat split; simpl; congruence.
Qed.

(** A packet that does not fit makes one of the stores leave the region. *)
Lemma bw_write_all_overflow ds : ∀ w off, 0 ≤ off ≤ zlen (out w) → zlen (out w) < off + zlen (concat ds) →
  bw_write_all w off ds = None.
Proof.
  induction ds as [| d ds IH]; intros w off Hoff Hl; cbn [concat bw_write_all] in *; [rewrite zlen_nil in Hl; lia |].
  rewrite zlen_app in Hl. pose proof (zlen_nonneg d). unfold bw_memcpy.
  destruct ((0 <=? off) && (off + zlen d <=? zlen (out w))) eqn:E; [| done]. b2p.
  rewrite ASSERT_seq by done. rewrite option_bind_Some. apply IH; simpl; rewrite zlen_mem_write by lia; lia.
Qed.
