(* ===== verification/UdpGwClient.v ===== *)
(** * The UDP gateway client (udpgw_client/UdpGwClient.c, protocol/udpgw_proto.h)

    The client multiplexes UDP packets over one connection to a gateway: every
    pair of a local and a remote address has a connection with a 16-bit id. The
    connections are kept in two search trees, by address pair and by id, and in a
    list from the least to the most recently used one; when the table is full the
    least recently used id is rebound to the new address pair.

    The state is that of [UdpGwClient] and of the connections it has allocated; the
    list is the intrusive [LinkedList1] in a heap of nodes, the trees are used
    through the interface [SearchTree]. The jobs and flow components a connection
    owns appear as the flag of its first job, its buffer writer and the calls made
    on them. *)
From S2P Require Import Prelude ByteOrder PacketProto LinkedLists SearchTree BAddr BufferWriter.

#[local] Arguments le_bytes : simpl never.
#[local] Arguments le_val : simpl never.

(** ** protocol/udpgw_proto.h *)

Definition UDPGW_CLIENT_FLAG_KEEPALIVE : Z := 1.
Definition UDPGW_CLIENT_FLAG_REBIND : Z := 2.
Definition UDPGW_CLIENT_FLAG_DNS : Z := 4.
Definition UDPGW_CLIENT_FLAG_IPV6 : Z := 8.

Record udpgw_header := mk_udpgw_header { h_flags : Z; h_conid : Z }.
Definition sizeof_udpgw_header : Z := 3.
Definition udpgw_header_mem (h : udpgw_header) : bytes := le_bytes 1 (h_flags h) ++ le_bytes 2 (h_conid h).
Definition udpgw_header_of (m : bytes) : udpgw_header :=
  mk_udpgw_header (le_val (mem_read m 0 1)) (le_val (mem_read m 1 2)).

Record udpgw_addr_ipv4 := mk_udpgw_addr_ipv4 { addr4_ip : Z; addr4_port : Z }.
Definition sizeof_udpgw_addr_ipv4 : Z := 6.
Definition udpgw_addr_ipv4_mem (a : udpgw_addr_ipv4) : bytes := le_bytes 4 (addr4_ip a) ++ le_bytes 2 (addr4_port a).
Definition udpgw_addr_ipv4_of (m : bytes) : udpgw_addr_ipv4 :=
  mk_udpgw_addr_ipv4 (le_val (mem_read m 0 4)) (le_val (mem_read m 4 2)).

Record udpgw_addr_ipv6 := mk_udpgw_addr_ipv6 { addr6_ip : bytes; addr6_port : Z }.
Definition sizeof_udpgw_addr_ipv6 : Z := 18.
Definition udpgw_addr_ipv6_mem (a : udpgw_addr_ipv6) : bytes := addr6_ip a ++ le_bytes 2 (addr6_port a).
Definition udpgw_addr_ipv6_of (m : bytes) : udpgw_addr_ipv6 :=
  mk_udpgw_addr_ipv6 (mem_read m 0 16) (le_val (mem_read m 16 2)).

(** The Android build reserves room for the SOCKS UDP header instead. *)
Definition sizeof_socks_udp_header : Z := 4.
Definition udpgw_compute_mtu (android : bool) (dgram_mtu : Z) : Z :=
  let bs :=
    bsize_add (if android then bsize_fromsize sizeof_socks_udp_header else bsize_fromsize sizeof_udpgw_header)
      (bsize_add (bsize_max (bsize_fromsize sizeof_udpgw_addr_ipv4) (bsize_fromsize sizeof_udpgw_addr_ipv6))
        (bsize_fromint dgram_mtu)) in
  match bsize_toint bs with None => -1 | Some s => s end.

(** ** State *)

Record conaddr := mk_conaddr { local_addr : BAddr; remote_addr : BAddr }.
#[export] Instance conaddr_eq_dec : EqDecision conaddr.
Proof. solve_decision. Defined.

(** [first_data] is a pointer into the caller's memory. *)
Record connection := mk_connection {
  con_addr : conaddr;
  first_flags : Z;
  first_data : Z;
  first_data_len : Z;
  con_id : Z;
  first_job : bool;
  send_if : BufferWriter
}.
#[export] Instance connection_eta : Eta connection := λ c,
  mk_connection (con_addr c) (first_flags c) (first_data c) (first_data_len c) (con_id c) (first_job c) (send_if c).

Record UdpGwClient {T : Type} := mk_UdpGwClient {
  udp_mtu : Z;
  max_connections : Z;
  send_buffer_size : Z;
  udpgw_mtu : Z;
  pp_mtu : Z;
  tree_by_conaddr : T;
  tree_by_conid : T;
  list_nodes : heap;
  connections_list : LinkedList1;
  num_connections : Z;
  next_conid : Z;
  conns : gmap addr connection;
  keepalive_packet : bytes;
  keepalive_sending : bool;
  have_server : bool
}.
Arguments UdpGwClient T : clear implicits.
Arguments mk_UdpGwClient {T}.
#[export] Instance UdpGwClient_eta T : Eta (UdpGwClient T) := λ o,
  mk_UdpGwClient (udp_mtu o) (max_connections o) (send_buffer_size o) (udpgw_mtu o) (pp_mtu o) (tree_by_conaddr o)
    (tree_by_conid o) (list_nodes o) (connections_list o) (num_connections o) (next_conid o) (conns o)
    (keepalive_packet o) (keepalive_sending o) (have_server o).

(** Calls into the neighbours: accept the received packet, deliver a packet to
    the user, report a server error, send the keepalive packet, hand a packet to the
    flow of a connection, set up or release the flow of a connection and the
    connection to the server. *)
Inductive ucall :=
| URecvDone
| UReceived (local remote : BAddr) (data : bytes)
| UServerError
| UKeepalive (data : bytes)
| USend (con : addr) (packet : bytes)
| UFlowInit (con : addr) (mtu num_packets : Z)
| UFlowFree (con : addr)
| UServerInit (mtu : Z)
| UServerFree.

Definition uint16_comparator (v1 v2 : Z) : Z := B_COMPARE v1 v2.

Definition conaddr_comparator (v1 v2 : conaddr) : Z :=
  let r := BAddr_CompareOrder (remote_addr v1) (remote_addr v2) in
  if negb (r =? 0) then r else BAddr_CompareOrder (local_addr v1) (local_addr v2).

Definition conaddr_wf (a : conaddr) : Prop := BAddr_wf (local_addr a) ∧ BAddr_wf (remote_addr a).

Section client.
Context {T : Type} `{SearchTree T}.
Abbreviation C := (M (UdpGwClient T) ucall).
Implicit Types o : UdpGwClient T.

(** The values the tree nodes of a connection carry. *)
Definition node_conaddr (cs : gmap addr connection) (x : addr) : option conaddr := con_addr <$> cs !! x.
Definition node_conid (cs : gmap addr connection) (x : addr) : option Z := con_id <$> cs !! x.

Definition find_connection_by_conaddr o (a : conaddr) : option (option addr) :=
  BAVL_LookupExact conaddr_comparator (node_conaddr (conns o)) (tree_by_conaddr o) a.

Definition find_connection_by_conid o (conid : Z) : option (option addr) :=
  BAVL_LookupExact uint16_comparator (node_conid (conns o)) (tree_by_conid o) conid.

(** [find_unused_conid]; the table has a free id, so [max_connections] rounds are
    enough. *)
Fixpoint find_unused_loop (fuel : nat) o : option (Z * UdpGwClient T) :=
  match fuel with
  | O => None
  | S fuel =>
      r ← find_connection_by_conid o (u16 (next_conid o));
      match r with
      | None => Some (u16 (next_conid o), o)
      | Some _ =>
          if next_conid o =? max_connections o - 1
          then find_unused_loop fuel (o <| next_conid := 0 |>)
          else find_unused_loop fuel (o <| next_conid := next_conid o + 1 |>)
      end
  end.

Definition find_unused_conid o : option (Z * UdpGwClient T) :=
  ASSERT (num_connections o <? max_connections o);;
  find_unused_loop (Z.to_nat (max_connections o)) o.

(** ** Sending *)

Definition con_update (con : addr) (f : connection → connection) o : UdpGwClient T :=
  o <| conns := alter f con (conns o) |>.

Definition address_bytes (a : BAddr) : bytes :=
  match a with
  | BADDR_IPV4 ip port => udpgw_addr_ipv4_mem (mk_udpgw_addr_ipv4 ip port)
  | BADDR_IPV6 ip port => udpgw_addr_ipv6_mem (mk_udpgw_addr_ipv6 ip port)
  | BADDR_NONE => []
  end.

Definition connection_send (con : addr) (flags : Z) (data : bytes) : C unit :=
  o ← get;
  c ← lift (conns o !! con);
  assert (zlen data <=? udp_mtu o);;
  st ← lift (BufferWriter_StartPacket (send_if c));
  let w := st.1 in
  if negb st.2 then mret () else
  let flags := match remote_addr (con_addr c) with BADDR_IPV6 _ _ => Z.lor flags UDPGW_CLIENT_FLAG_IPV6 | _ => flags end in
  let header := mk_udpgw_header (ltoh8 flags) (ltoh16 (con_id c)) in
  w ← lift (bw_memcpy w 0 (udpgw_header_mem header));
  let out_pos := sizeof_udpgw_header in
  let a := address_bytes (remote_addr (con_addr c)) in
  w ← lift (bw_memcpy w out_pos a);
  let out_pos := out_pos + zlen a in
  w ← lift (bw_memcpy w out_pos data);
  let out_pos := out_pos + zlen data in
  res ← lift (BufferWriter_EndPacket w out_pos);
  modify (con_update con (λ c, c <| send_if := res.1 |>));;
  emit (USend con res.2).

(** The job that sends the first packet of a connection. *)
Definition connection_first_job_handler (mem : bytes) (con : addr) : C unit :=
  o ← get;
  c ← lift (conns o !! con);
  connection_send con (Z.lor UDPGW_CLIENT_FLAG_REBIND (first_flags c)) (mem_read mem (first_data c) (first_data_len c)).

(** ** The connection table *)

Definition list_append (con : addr) : C unit :=
  o ← get;
  r ← lift (LinkedList1_Append (list_nodes o) (connections_list o) con);
  modify (λ o, o <| list_nodes := r.1 |> <| connections_list := r.2 |>).

Definition list_remove (con : addr) : C unit :=
  o ← get;
  r ← lift (LinkedList1_Remove (list_nodes o) (connections_list o) con);
  modify (λ o, o <| list_nodes := r.1 |> <| connections_list := r.2 |>).

Definition insert_by_conaddr (con : addr) : C unit :=
  o ← get;
  r ← lift (BAVL_Insert conaddr_comparator (node_conaddr (conns o)) (tree_by_conaddr o) con);
  assert r.2;;
  modify (λ o, o <| tree_by_conaddr := r.1 |>).

Definition insert_by_conid (con : addr) : C unit :=
  o ← get;
  r ← lift (BAVL_Insert uint16_comparator (node_conid (conns o)) (tree_by_conid o) con);
  assert r.2;;
  modify (λ o, o <| tree_by_conid := r.1 |>).

Definition remove_by_conaddr (con : addr) : C unit :=
  o ← get;
  t ← lift (BAVL_Remove (tree_by_conaddr o) con);
  modify (λ o, o <| tree_by_conaddr := t |>).

Definition remove_by_conid (con : addr) : C unit :=
  o ← get;
  t ← lift (BAVL_Remove (tree_by_conid o) con);
  modify (λ o, o <| tree_by_conid := t |>).

Definition is_null (r : option addr) : bool := bool_decide (r = None).

(** [malloc] is the address [malloc] returns, [ppflow] says whether
    [PacketProtoFlow_Init] finds the memory it needs; the packet is at [data] in
    the caller's memory. *)
Definition connection_init (malloc : option addr) (ppflow : bool) (a : conaddr) (flags data data_len : Z) : C unit :=
  o ← get;
  assert (num_connections o <? max_connections o);;
  r ← lift (find_connection_by_conaddr o a);
  assert (is_null r);;
  assert (0 <=? data_len);;
  assert (data_len <=? udp_mtu o);;
  match malloc with
  | None => mret ()
  | Some con =>
      (* the conid is taken before the connection is in the trees *)
      io ← lift (find_unused_conid o);
      modify (λ _, io.2);;
      emit (UFlowInit con (udpgw_mtu o) (send_buffer_size o));;
      if negb ppflow then emit (UFlowFree con) else
      w ← lift (BufferWriter_Init (udpgw_mtu o));
      modify (λ o, o <| conns := <[con := mk_connection a flags data data_len io.1 true w]> (conns o) |>
                     <| list_nodes := <[con := mk_node None None]> (list_nodes o) |>);;
      insert_by_conaddr con;;
      insert_by_conid con;;
      list_append con;;
      modify (λ o, o <| num_connections := num_connections o + 1 |>)
  end.

Definition connection_free (con : addr) : C unit :=
  o ← get;
  _ ← lift (conns o !! con);
  modify (λ o, o <| num_connections := num_connections o - 1 |>);;
  list_remove con;;
  remove_by_conid con;;
  remove_by_conaddr con;;
  emit (UFlowFree con);;
  modify (λ o, o <| conns := delete con (conns o) |> <| list_nodes := delete con (list_nodes o) |>).

Definition reuse_connection (a : conaddr) : C addr :=
  o ← get;
  r ← lift (find_connection_by_conaddr o a);
  assert (is_null r);;
  assert (0 <? num_connections o);;
  con ← lift (LinkedList1_GetFirst (connections_list o));
  remove_by_conaddr con;;
  modify (con_update con (λ c, c <| con_addr := a |>));;
  insert_by_conaddr con;;
  mret con.

(** ** Handlers *)

Definition free_server : C unit := emit UServerFree.

Definition decoder_handler_error : C unit :=
  o ← get;
  assert (have_server o);;
  emit UServerError.

(** The remote address that follows the header, and what is left after it. *)
Definition parse_address (flags : Z) (data : bytes) : option (BAddr * bytes) :=
  if negb (Z.land flags UDPGW_CLIENT_FLAG_IPV6 =? 0) then
    if zlen data <? sizeof_udpgw_addr_ipv6 then None else
    let a := udpgw_addr_ipv6_of data in
    Some (BAddr_InitIPv6 (addr6_ip a) (addr6_port a), zdrop sizeof_udpgw_addr_ipv6 data)
  else
    if zlen data <? sizeof_udpgw_addr_ipv4 then None else
    let a := udpgw_addr_ipv4_of data in
    Some (BAddr_InitIPv4 (addr4_ip a) (addr4_port a), zdrop sizeof_udpgw_addr_ipv4 data).

(** The rest of the handler, once the packet is parsed. *)
Definition deliver_packet (conid : Z) (remote : BAddr) (data : bytes) : C unit :=
  o ← get;
  if udp_mtu o <? zlen data then mret () else
  r ← lift (find_connection_by_conid o conid);
  match r with
  | None => mret ()
  | Some con =>
      c ← lift (conns o !! con);
      if negb (BAddr_CompareOrder (remote_addr (con_addr c)) remote =? 0) then mret () else
      list_remove con;;
      list_append con;;
      emit (UReceived (local_addr (con_addr c)) (remote_addr (con_addr c)) data)
  end.

Definition recv_interface_handler_send (data : bytes) : C unit :=
  o ← get;
  assert (have_server o);;
  assert (zlen data <=? udpgw_mtu o);;
  emit URecvDone;;
  if zlen data <? sizeof_udpgw_header then mret () else
  let header := udpgw_header_of data in
  let flags := ltoh8 (h_flags header) in
  let conid := ltoh16 (h_conid header) in
  match parse_address flags (zdrop sizeof_udpgw_header data) with
  | None => mret ()
  | Some (remote, data) => deliver_packet conid remote data
  end.

Definition send_monitor_handler : C unit :=
  o ← get;
  if keepalive_sending o then mret () else
  emit (UKeepalive (keepalive_packet o));;
  modify (λ o, o <| keepalive_sending := true |>).

Definition keepalive_if_handler_done : C unit :=
  o ← get;
  assert (keepalive_sending o);;
  modify (λ o, o <| keepalive_sending := false |>).

(** ** Public operations *)

(** [queue] says whether [PacketPassFairQueue_Init] succeeds. *)
Definition UdpGwClient_Init (android queue : bool) (mtu max_conn send_buf : Z) : option (option (UdpGwClient T)) :=
  let gw_mtu := udpgw_compute_mtu android mtu in
  ASSERT (0 <=? mtu);; ASSERT (0 <=? gw_mtu);; ASSERT (gw_mtu <=? PACKETPROTO_MAXPAYLOAD);;
  ASSERT (0 <? max_conn);; ASSERT (0 <? send_buf);;
  let max_conn := if UINT16_MAX + 1 <? max_conn then UINT16_MAX + 1 else max_conn in
  if negb queue then Some None else
  Some (Some (mk_UdpGwClient mtu max_conn send_buf gw_mtu (gw_mtu + sizeof_packetproto_header) BAVL_Init BAVL_Init ∅
    LinkedList1_Init 0 0 ∅
    (le_bytes 2 sizeof_udpgw_header ++ udpgw_header_mem (mk_udpgw_header UDPGW_CLIENT_FLAG_KEEPALIVE 0)) false false)).

Fixpoint free_connections (fuel : nat) : C unit :=
  match fuel with
  | O => stuck
  | S fuel =>
      o ← get;
      match LinkedList1_GetFirst (connections_list o) with
      | None => mret ()
      | Some con => connection_free con;; free_connections fuel
      end
  end.

Definition UdpGwClient_Free : C unit :=
  o ← get;
  free_connections (S (Z.to_nat (num_connections o)));;
  if have_server o then free_server else mret ().

Definition has_ip_type (a : BAddr) : bool := (BAddr_type a =? 1) || (BAddr_type a =? 2).

(** The packet is at [ptr] in the caller's memory and its bytes are [data]. *)
Definition UdpGwClient_SubmitPacket (malloc : option addr) (ppflow : bool) (local remote : BAddr) (is_dns : bool)
    (ptr : Z) (data : bytes) : C unit :=
  o ← get;
  assert (has_ip_type local);;
  assert (has_ip_type remote);;
  assert (zlen data <=? udp_mtu o);;
  let a := mk_conaddr local remote in
  r ← lift (find_connection_by_conaddr o a);
  let flags := if is_dns then Z.lor 0 UDPGW_CLIENT_FLAG_DNS else 0 in
  cf ← (if is_null r && (num_connections o =? max_connections o)
        then con ← reuse_connection a; mret (Some con, Z.lor flags UDPGW_CLIENT_FLAG_REBIND)
        else mret (r, flags));
  match cf.1 with
  | None => connection_init malloc ppflow a cf.2 ptr (zlen data)
  | Some con => list_remove con;; list_append con;; connection_send con cf.2 data
  end.

(** [decoder] says whether [PacketProtoDecoder_Init] succeeds. *)
Definition UdpGwClient_ConnectServer (decoder : bool) : C bool :=
  o ← get;
  assert (negb (have_server o));;
  if negb decoder then mret false else
  emit (UServerInit (udpgw_mtu o));;
  modify (λ o, o <| have_server := true |>);;
  mret true.

Definition UdpGwClient_DisconnectServer : C unit :=
  o ← get;
  assert (have_server o);;
  free_server;;
  modify (λ o, o <| have_server := false |>).

(** ** Invariant

    [l] is the list of the connections from the least to the most recently used. *)

Definition conid_ok (k : Z) : Prop := 0 ≤ k < 65536.

Record con_ok o (c : connection) : Prop := {
  co_id : 0 ≤ con_id c < max_connections o;
  co_writer : writer_ok (udpgw_mtu o) (send_if c);
  co_first : 0 ≤ first_data_len c ≤ udp_mtu o;
  co_type : has_ip_type (remote_addr (con_addr c)) = true
}.

Record uinv o (l : list addr) : Prop := {
  u_list : ll1_rep (list_nodes o) (connections_list o) l;
  u_dom : ∀ x, x ∈ l ↔ is_Some (conns o !! x);
  u_num : num_connections o = zlen l;
  u_max : zlen l ≤ max_connections o ∧ 0 < max_connections o ≤ 65536;
  u_next : 0 ≤ next_conid o < max_connections o;
  u_conaddr : tree_rep conaddr_wf conaddr_comparator (node_conaddr (conns o)) (tree_by_conaddr o) l;
  u_conid : tree_rep conid_ok uint16_comparator (node_conid (conns o)) (tree_by_conid o) l;
  u_con : ∀ x c, conns o !! x = Some c → con_ok o c;
  u_mtu : 0 ≤ udp_mtu o ∧ 21 + udp_mtu o ≤ udpgw_mtu o
}.

(** The abstract table: address pairs and ids, least recently used first. *)
Abbreviation atable := (list (conaddr * Z)).
Definition table (cs : gmap addr connection) (l : list addr) : atable :=
  omap (λ x, (λ c, (con_addr c, con_id c)) <$> cs !! x) l.
#[local] Arguments table : simpl never.

Lemma conid_order : key_order conid_ok uint16_comparator.
Proof.
  split; intros; unfold uint16_comparator in *.
  - pose proof (B_COMPARE_cases a b). lia.
  - pose proof (B_COMPARE_cases a b). lia.
  - pose proof (B_COMPARE_cases a b). pose proof (B_COMPARE_cases b a). lia.
  - pose proof (B_COMPARE_cases a b). pose proof (B_COMPARE_cases b c). pose proof (B_COMPARE_cases a c). lia.
Qed.

Lemma conaddr_order : key_order conaddr_wf conaddr_comparator.
Proof.
  split; unfold conaddr_comparator; cbv zeta.
  - intros [la ra] [lb rb] _ _; simpl. pose proof (CompareOrder_cases ra rb). pose proof (CompareOrder_cases la lb). case_if; lia.
  - intros [la ra] [lb rb] [Hla Hra] [Hlb Hrb]; simpl in *.
    pose proof (CompareOrder_zero ra rb Hra Hrb). pose proof (CompareOrder_zero la lb Hla Hlb).
    case_if; (split; [intros; try lia; f_equal; tauto | intros [= -> ->]; tauto]).
  - intros [la ra] [lb rb] _ _; simpl. rewrite (CompareOrder_anti ra rb), (CompareOrder_anti la lb). repeat case_if; lia.
  - intros [la ra] [lb rb] [lc rc] [Hla Hra] [Hlb Hrb] [Hlc Hrc]; simpl in *.
    pose proof (CompareOrder_trans ra rb rc Hra Hrb Hrc) as Hr. pose proof (CompareOrder_trans la lb lc Hla Hlb Hlc) as Hl.
    pose proof (CompareOrder_zero ra rb Hra Hrb). pose proof (CompareOrder_zero rb rc Hrb Hrc).
    pose proof (CompareOrder_cases ra rc). pose proof (CompareOrder_cases la lc).
    destruct (decide (ra = rb)) as [-> |]; [| destruct (decide (rb = rc)) as [-> |]]; repeat case_if; intros; intuition lia.
Qed.

Section with_inv.
Context (o : UdpGwClient T) (l : list addr) (Hinv : uinv o l).

Lemma uinv_lookup x : x ∈ l → ∃ c, conns o !! x = Some c ∧ con_ok o c.
Proof using Hinv.
  intros Hx. apply (u_dom _ _ Hinv) in Hx as [c Hc]. exists c. split; [done |]. by eapply u_con.
Qed.

Lemma find_conaddr_spec a : conaddr_wf a → ∃ r, find_connection_by_conaddr o a = Some r ∧
  match r with
  | Some x => ∃ c, conns o !! x = Some c ∧ con_addr c = a
  | None => ∀ x c, conns o !! x = Some c → con_addr c ≠ a
  end.
Proof using Hinv.
  intros Ha. destruct (tree_rep_lookup _ _ _ _ l a conaddr_order (u_conaddr _ _ Hinv) Ha) as (r & Er & Hr).
  exists r. split; [done |]. unfold node_conaddr in Hr. destruct r as [x |].
  - destruct Hr as [_ (c & -> & ?)%fmap_Some]. eauto.
  - intros x c Hc <-. apply (Hr x); [apply (u_dom _ _ Hinv); eauto | by rewrite Hc].
Qed.

Lemma find_conid_spec k : conid_ok k → ∃ r, find_connection_by_conid o k = Some r ∧
  match r with
  | Some x => ∃ c, conns o !! x = Some c ∧ con_id c = k
  | None => ∀ x c, conns o !! x = Some c → con_id c ≠ k
  end.
Proof using Hinv.
  intros Ha. destruct (tree_rep_lookup _ _ _ _ l k conid_order (u_conid _ _ Hinv) Ha) as (r & Er & Hr).
  exists r. split; [done |]. unfold node_conid in Hr. destruct r as [x |].
  - destruct Hr as [_ (c & -> & ?)%fmap_Some]. eauto.
  - intros x c Hc <-. apply (Hr x); [apply (u_dom _ _ Hinv); eauto | by rewrite Hc].
Qed.

(** Connections are told apart by their id and by their address pair. *)
Lemma conid_inj x y cx cy : conns o !! x = Some cx → conns o !! y = Some cy → con_id cx = con_id cy → x = y.
Proof using Hinv.
  intros Hx Hy E. destruct (u_conid _ _ Hinv) as (_ & Hp & Hio).
  apply (in_order_inj conid_ok uint16_comparator (node_conid (conns o)) _ x y (con_id cx) conid_order Hio).
  - rewrite Hp. apply (u_dom _ _ Hinv). eauto.
  - rewrite Hp. apply (u_dom _ _ Hinv). eauto.
  - unfold node_conid. by rewrite Hx.
  - unfold node_conid. rewrite Hy. simpl. congruence.
Qed.

Lemma conaddr_inj x y cx cy : conns o !! x = Some cx → conns o !! y = Some cy → con_addr cx = con_addr cy → x = y.
Proof using Hinv.
  intros Hx Hy E. destruct (u_conaddr _ _ Hinv) as (_ & Hp & Hio).
  apply (in_order_inj conaddr_wf conaddr_comparator (node_conaddr (conns o)) _ x y (con_addr cx) conaddr_order Hio).
  - rewrite Hp. apply (u_dom _ _ Hinv). eauto.
  - rewrite Hp. apply (u_dom _ _ Hinv). eauto.
  - unfold node_conaddr. by rewrite Hx.
  - unfold node_conaddr. rewrite Hy. simpl. congruence.
Qed.

(** A full round over the ids meets a free one. *)
Lemma free_id_exists : zlen l < max_connections o →
  ∃ k, 0 ≤ k < max_connections o ∧ ∀ x c, conns o !! x = Some c → con_id c ≠ k.
Proof using Hinv.
  intros Hl. set (ids := omap (λ x, con_id <$> conns o !! x) l).
  assert (length ids ≤ length l)%nat as Hids.
  { apply length_omap_le. }
  destruct (decide (Forall (λ k, k ∈ ids) (seqZ 0 (max_connections o)))) as [Hall | Hex].
  - exfalso. assert (seqZ 0 (max_connections o) ⊆+ ids) as Hs%submseteq_length.
    { apply NoDup_submseteq; [apply NoDup_seqZ |]. by apply Forall_forall. }
    rewrite length_seqZ in Hs. unfold zlen in Hl. lia.
  - apply not_Forall_Exists in Hex; [| apply _]. apply Exists_exists in Hex as (k & Hk & Hn). apply elem_of_seqZ in Hk.
    exists k. split; [lia |]. intros x c Hc <-. apply Hn. subst ids. apply list_elem_of_omap. exists x.
    split; [apply (u_dom _ _ Hinv); eauto | by rewrite Hc].
Qed.

End with_inv.

(** Only the position of the search changes. *)
Lemma uinv_next o l k : uinv o l → 0 ≤ k < max_connections o → uinv (o <| next_conid := k |>) l.
Proof. intros [] Hk. split; simpl; try done. intros x c Hc. destruct (u_con0 x c Hc). by split. Qed.

Lemma find_unused_loop_spec l k : ∀ fuel o, uinv o l → (Z.to_nat ((k - next_conid o) mod max_connections o) < fuel)%nat →
  0 ≤ k < max_connections o → (∀ x c, conns o !! x = Some c → con_id c ≠ k) →
  ∃ id, find_unused_loop fuel o = Some (id, o <| next_conid := id |>) ∧ 0 ≤ id < max_connections o ∧
    ∀ x c, conns o !! x = Some c → con_id c ≠ id.
Proof.
  induction fuel as [| fuel IH]; intros o Hinv Hf Hk Hfree; [lia |]. cbn [find_unused_loop].
  pose proof (u_next _ _ Hinv) as Hn. pose proof (u_max _ _ Hinv) as [_ Hm].
  rewrite u16_small by lia.
  destruct (find_conid_spec o l Hinv (next_conid o)) as (r & -> & Hr); [unfold conid_ok; lia |]. cbn [mbind option_bind].
  destruct r as [y |].
  - destruct Hr as (c & Hc & Hid).
    assert (k ≠ next_conid o) as Hne by (rewrite <- Hid; intros ->; by eapply Hfree).
    set (n' := if next_conid o =? max_connections o - 1 then 0 else next_conid o + 1).
    assert ((if next_conid o =? max_connections o - 1 then find_unused_loop fuel (o <| next_conid := 0 |>)
      else find_unused_loop fuel (o <| next_conid := next_conid o + 1 |>)) = find_unused_loop fuel (o <| next_conid := n' |>)) as ->
      by (subst n'; by destruct (next_conid o =? max_connections o - 1)).
    assert (0 ≤ n' < max_connections o) as Hn' by (subst n'; case_if; lia).
    assert ((k - next_conid o) mod max_connections o = (k - n') mod max_connections o + 1) as Hmod.
    { subst n'. set (m := max_connections o) in *. set (x := next_conid o) in *.
      destruct (x =? m - 1) eqn:E; b2p.
      - replace (k - x) with (k + 1 + (-1) * m) by lia. rewrite Z_mod_plus_full, !Z.mod_small; lia.
      - destruct (decide (x < k)); [rewrite !Z.mod_small; lia |].
        replace (k - x) with (k - x + m + (-1) * m) by lia. replace (k - (x + 1)) with (k - x + m - 1 + (-1) * m) by lia.
        rewrite !Z_mod_plus_full, !Z.mod_small; lia. }
    pose proof (Z.mod_pos_bound (k - n') (max_connections o)).
    destruct (IH (o <| next_conid := n' |>)) as (id & E & Hid' & Hfr); [by apply uinv_next | simpl; lia | done | done |].
    exists id. split; [rewrite E; by destruct o |]. done.
  - exists (next_conid o). split; [by destruct o |]. done.
Qed.

Lemma find_unused_spec o l : uinv o l → zlen l < max_connections o →
  ∃ id, find_unused_conid o = Some (id, o <| next_conid := id |>) ∧ 0 ≤ id < max_connections o ∧
    ∀ x c, conns o !! x = Some c → con_id c ≠ id.
Proof.
  intros Hinv Hl. destruct (free_id_exists o l Hinv Hl) as (k & Hk & Hfree).
  unfold find_unused_conid. rewrite ASSERT_seq by (apply Z.ltb_lt; rewrite (u_num _ _ Hinv); lia).
  apply (find_unused_loop_spec l k); try done.
  pose proof (Z.mod_pos_bound (k - next_conid o) (max_connections o)). pose proof (u_max _ _ Hinv). lia.
Qed.

(** ** Preservation of the invariant *)

Lemma uinv_set_con o l con c c' : uinv o l → conns o !! con = Some c → con_addr c' = con_addr c → con_id c' = con_id c →
  con_ok o c' → uinv (o <| conns := <[con := c']> (conns o) |>) l ∧ table (<[con := c']> (conns o)) l = table (conns o) l.
Proof.
  intros [] Hc Ea Ei Hok.
  assert (∀ x, node_conaddr (<[con := c']> (conns o)) x = node_conaddr (conns o) x) as Hna.
  { intros x. unfold node_conaddr. destruct (decide (x = con)) as [-> |]; [rewrite lookup_insert_eq, Hc; simpl; by rewrite Ea |].
    by rewrite lookup_insert_ne. }
  assert (∀ x, node_conid (<[con := c']> (conns o)) x = node_conid (conns o) x) as Hni.
  { intros x. unfold node_conid. destruct (decide (x = con)) as [-> |]; [rewrite lookup_insert_eq, Hc; simpl; by rewrite Ei |].
    by rewrite lookup_insert_ne. }
  split; [split; simpl; try done |].
  - intros x. rewrite u_dom0. destruct (decide (x = con)) as [-> |]; [rewrite lookup_insert_eq, Hc; naive_solver |].
    by rewrite lookup_insert_ne.
  - eapply tree_rep_ext; [| exact u_conaddr0]. auto.
  - eapply tree_rep_ext; [| exact u_conid0]. auto.
  - intros x y. rewrite lookup_insert_Some. intros [[-> <-] | [_ Hx]]; [by destruct Hok | by destruct (u_con0 x y Hx)].
  - apply omap_ext_in. intros x _. destruct (decide (x = con)) as [-> |]; [| by rewrite lookup_insert_ne].
    rewrite lookup_insert_eq, Hc. simpl. by rewrite Ea, Ei.
Qed.

Lemma uinv_relist o l l' h ls : uinv o l → l' ≡ₚ l → ll1_rep h ls l' →
  uinv (o <| list_nodes := h |> <| connections_list := ls |>) l'.
Proof.
  intros [] Hp Hl. assert (zlen l' = zlen l) as Hz by (unfold zlen; by rewrite Hp).
  split; simpl; try done; rewrite ?Hz; try done.
  - intros x. rewrite Hp. apply u_dom0.
  - by eapply tree_rep_perm.
  - by eapply tree_rep_perm.
  - intros x c Hc. by destruct (u_con0 x c Hc).
Qed.

(** ** Moving a connection to the end of the list *)

Lemma touch_spec o l1 con l2 (Q : unit → UdpGwClient T → list ucall → Prop) : uinv o (l1 ++ con :: l2) →
  (∀ h ls, let o' := o <| list_nodes := h |> <| connections_list := ls |> in
    uinv o' (l1 ++ l2 ++ [con]) → Q () o' []) →
  wp (list_remove con;; list_append con) Q o.
Proof.
  intros Hinv HQ. destruct (ll1_touch_spec _ _ l1 con l2 (u_list _ _ Hinv)) as (h1 & ls1 & h2 & ls2 & E1 & E2 & H2).
  unfold list_remove, list_append. repeat wp_go.
  apply (HQ h2 ls2). eapply uinv_relist; [exact Hinv | solve_Permutation | done].
Qed.

(** ** Sending a packet *)

Definition packet_flags (flags : Z) (remote : BAddr) : Z :=
  match remote with BADDR_IPV6 _ _ => Z.lor flags UDPGW_CLIENT_FLAG_IPV6 | _ => flags end.

(** The packet the gateway gets. *)
Definition udpgw_packet (flags conid : Z) (remote : BAddr) (data : bytes) : bytes :=
  udpgw_header_mem (mk_udpgw_header (packet_flags flags remote) conid) ++ address_bytes remote ++ data.

(** What the handlers leave alone. *)
Definition config o : Z * Z * Z * bool := (udp_mtu o, udpgw_mtu o, max_connections o, have_server o).

Lemma uinv_wf o l x c : uinv o l → conns o !! x = Some c → conaddr_wf (con_addr c).
Proof.
  intros Hinv Hc. destruct (u_conaddr _ _ Hinv) as (_ & Hp & Hk & _).
  destruct (Hk x) as (a & Ea & Ha); [rewrite Hp; apply (u_dom _ _ Hinv); eauto |].
  unfold node_conaddr in Ea. rewrite Hc in Ea. by injection Ea as ->.
Qed.

Lemma zlen_header f k : zlen (udpgw_header_mem (mk_udpgw_header f k)) = 3.
Proof. unfold udpgw_header_mem. autorewrite with c_len. lia. Qed.

Lemma zlen_address a : BAddr_wf a → zlen (address_bytes a) ≤ 18.
Proof.
  destruct a as [| ip port | ip port]; simpl; [rewrite zlen_nil; lia | |];
    unfold udpgw_addr_ipv4_mem, udpgw_addr_ipv6_mem; simpl; autorewrite with c_len; lia.
Qed.

Lemma connection_send_spec o l con c flags data (Q : unit → UdpGwClient T → list ucall → Prop) :
  uinv o l → conns o !! con = Some c → zlen data ≤ udp_mtu o →
  (∀ o', uinv o' l → table (conns o') l = table (conns o) l → config o' = config o → num_connections o' = num_connections o →
    Q () o' (if out_have (send_if c) then [USend con (udpgw_packet flags (con_id c) (remote_addr (con_addr c)) data)] else [])) →
  wp (connection_send con flags data) Q o.
Proof.
  intros Hinv Hc Hl HQ. pose proof (u_con _ _ Hinv con c Hc) as Hok. destruct (uinv_wf o l con c Hinv Hc) as [_ Hwf].
  unfold connection_send. do 3 wp_go. wp_go. wp_go. wp_step; [by apply Z.leb_le |]. wp_go.
  destruct (out_have (send_if c)) eqn:Eo.
  - set (a := address_bytes (remote_addr (con_addr c))). set (fl := packet_flags flags (remote_addr (con_addr c))).
    set (hd := udpgw_header_mem (mk_udpgw_header fl (con_id c))).
    destruct (bw_packet (udpgw_mtu o) (send_if c) [hd; a; data]) as (w1 & w2 & w3 & E1 & E2 & E3 & Hw & _);
      [apply Hok | done | |].
    { cbn [concat]. rewrite !zlen_app, zlen_nil. pose proof (zlen_address _ Hwf). subst hd a. rewrite zlen_header.
      pose proof (u_mtu _ _ Hinv). lia. }
    assert (zlen (concat [hd; a; data]) = sizeof_udpgw_header + zlen a + zlen data) as Ez.
    { cbn [concat]. rewrite !zlen_app, zlen_nil. subst hd. rewrite zlen_header. unfold sizeof_udpgw_header. lia. }
    rewrite Ez in E3. cbn [bw_write_all] in E2. rewrite Z.add_0_l in E2.
    assert (zlen hd = sizeof_udpgw_header) as Eh by (subst hd; apply zlen_header). rewrite Eh in E2.
    destruct (bw_memcpy w1 0 hd) as [v1 |] eqn:F1; [| done]. cbn [mbind option_bind] in E2.
    destruct (bw_memcpy v1 sizeof_udpgw_header a) as [v2 |] eqn:F2; [| done]. cbn [mbind option_bind] in E2.
    destruct (bw_memcpy v2 (sizeof_udpgw_header + zlen a) data) as [v3 |] eqn:F3; [| done]. injection E2 as ->.
    eapply wp_lift; [exact E1 |]. cbn [fst snd negb]. cbv zeta. fold fl.
    apply wp_bind. eapply wp_lift; [exact F1 |]. apply wp_bind. eapply wp_lift; [exact F2 |].
    apply wp_bind. eapply wp_lift; [exact F3 |]. apply wp_bind. eapply wp_lift; [exact E3 |].
    apply wp_bind, wp_modify, wp_emit. cbn [fst snd app concat]. rewrite app_nil_r.
    set (c' := c <| send_if := w3 |>).
    destruct (uinv_set_con o l con c c' Hinv Hc eq_refl eq_refl) as [Hi Ht]; [by destruct Hok |].
    unfold con_update. rewrite (alter_known _ _ c) by done.
    apply HQ; [exact Hi | exact Ht | done | done].
  - eapply wp_lift; [unfold BufferWriter_StartPacket; destruct (co_writer _ _ Hok) as (_ & -> & _); by rewrite Eo |].
    simpl. wp_step. by apply HQ.
Qed.

(** ** Adding, freeing and rebinding a connection *)

Lemma table_snoc cs l x c : cs !! x = Some c → table cs (l ++ [x]) = table cs l ++ [(con_addr c, con_id c)].
Proof. intros Hc. unfold table. rewrite omap_app. f_equal. by rewrite omap_cons_eq, Hc. Qed.

Lemma table_insert cs l x c : x ∉ l → table (<[x := c]> cs) l = table cs l.
Proof. intros Hx. apply omap_ext_in. intros y Hy. rewrite lookup_insert_ne by set_solver. done. Qed.

Lemma uinv_fresh o l con : uinv o l → conns o !! con = None → con ∉ l.
Proof. intros Hinv Hn Hx. apply (u_dom _ _ Hinv) in Hx as [? ?]. congruence. Qed.

Lemma connection_init_spec o l malloc ppflow a flags ptr len (Q : unit → UdpGwClient T → list ucall → Prop) :
  uinv o l → conaddr_wf a → has_ip_type (remote_addr a) = true → zlen l < max_connections o → 0 ≤ len ≤ udp_mtu o →
  (∀ con, malloc = Some con → conns o !! con = None) → (∀ x c, conns o !! x = Some c → con_addr c ≠ a) →
  ((malloc = None ∨ ppflow = false) → ∀ o' es, uinv o' l → conns o' = conns o → config o' = config o →
    (∀ con p, USend con p ∉ es) → Q () o' es) →
  (∀ con id o', malloc = Some con → ppflow = true → uinv o' (l ++ [con]) →
    table (conns o') (l ++ [con]) = table (conns o) l ++ [(a, id)] →
    conns o' = <[con := mk_connection a flags ptr len id true (mk_BufferWriter false [] (udpgw_mtu o) false)]> (conns o) →
    config o' = config o → Q () o' [UFlowInit con (udpgw_mtu o) (send_buffer_size o)]) →
  wp (connection_init malloc ppflow a flags ptr len) Q o.
Proof.
  intros Hinv Ha Hty Hl Hlen Hmal Hnew HQ1 HQ2. pose proof (u_num _ _ Hinv) as Hnum. pose proof (u_mtu _ _ Hinv) as Hmtu.
  destruct (find_conaddr_spec o l Hinv a Ha) as (r & Er & Hr).
  assert (r = None) as -> by (destruct r as [x |]; [destruct Hr as (c & Hc & ?); by destruct (Hnew x c Hc) | done]).
  destruct (find_unused_spec o l Hinv Hl) as (id & Eid & Hid & Hidf).
  unfold connection_init. do 2 wp_go. wp_go. wp_step; [apply Z.ltb_lt; lia |]. do 3 wp_go. wp_step; [done |].
  wp_go. wp_step; [apply Z.leb_le; lia |]. wp_go. wp_step; [apply Z.leb_le; lia |].
  destruct malloc as [con |]; [| wp_step; apply HQ1; [by left | done.. | set_solver]].
  specialize (Hmal con eq_refl). pose proof (uinv_fresh o l con Hinv Hmal) as Hni.
  assert (uinv (o <| next_conid := id |>) l) as Hinv' by (by apply uinv_next).
  do 6 wp_go. wp_step; [wp_step; apply HQ1; [by right | done.. | set_solver] |].
  apply wp_bind. eapply wp_lift; [unfold BufferWriter_Init; rewrite ASSERT_seq by (apply Z.leb_le; lia); reflexivity |].
  set (c := mk_connection _ _ _ _ _ _ _). set (cs := <[con := c]> (conns o)).
  assert (∀ x, x ∈ l → cs !! x = conns o !! x) as Hcs by (intros x Hx; subst cs; rewrite lookup_insert_ne by set_solver; done).
  destruct (tree_rep_insert conaddr_wf conaddr_comparator (node_conaddr cs) (tree_by_conaddr o) l con a)
    as (t1 & Et1 & Ht1); [apply conaddr_order | | done | | done | |].
  { eapply tree_rep_ext; [| apply (u_conaddr _ _ Hinv)]. intros x Hx. unfold node_conaddr. by rewrite Hcs. }
  { unfold node_conaddr. subst cs. by rewrite lookup_insert_eq. }
  { intros y Hy. unfold node_conaddr. rewrite Hcs by done. destruct (uinv_lookup o l Hinv y Hy) as (cy & Ey & _).
    rewrite Ey. simpl. intros [= E]. by eapply Hnew. }
  destruct (tree_rep_insert conid_ok uint16_comparator (node_conid cs) (tree_by_conid o) l con id)
    as (t2 & Et2 & Ht2); [apply conid_order | | done | | unfold conid_ok; pose proof (u_max _ _ Hinv); lia | |].
  { eapply tree_rep_ext; [| apply (u_conid _ _ Hinv)]. intros x Hx. unfold node_conid. by rewrite Hcs. }
  { unfold node_conid. subst cs. by rewrite lookup_insert_eq. }
  { intros y Hy. unfold node_conid. rewrite Hcs by done. destruct (uinv_lookup o l Hinv y Hy) as (cy & Ey & _).
    rewrite Ey. simpl. intros [= E]. by eapply Hidf. }
  destruct (ll1_append_spec (<[con := mk_node None None]> (list_nodes o)) (connections_list o) l con)
    as (h & ls & Els & Hls & _); [apply ll1_rep_frame; [apply (u_list _ _ Hinv) | done] | split; [done | rewrite lookup_insert_eq; eauto] |].
  unfold insert_by_conaddr, insert_by_conid, list_append.
  repeat first [wp_go | done]. apply (HQ2 con id); [done | done | | | done | done].
  - split; simpl; try done.
    + intros x. rewrite elem_of_app, list_elem_of_singleton, (u_dom _ _ Hinv). subst cs.
      destruct (decide (x = con)) as [-> |]; [rewrite lookup_insert_eq; naive_solver | rewrite lookup_insert_ne by done; naive_solver].
    + rewrite zlen_app, zlen_cons, zlen_nil. lia.
    + rewrite zlen_app, zlen_cons, zlen_nil. pose proof (u_max _ _ Hinv). lia.
    + eapply tree_rep_perm; [| exact Ht1]. solve_Permutation.
    + eapply tree_rep_perm; [| exact Ht2]. solve_Permutation.
    + intros x cx. subst cs. rewrite lookup_insert_Some. intros [[_ <-] | [_ Hx]]; [by split | by destruct (u_con _ _ Hinv x cx Hx)].
  - simpl. fold cs. rewrite (table_snoc cs l con c) by (apply lookup_insert_eq). f_equal. by apply table_insert.
Qed.

Lemma reuse_connection_spec o con l a (Q : addr → UdpGwClient T → list ucall → Prop) :
  uinv o (con :: l) → conaddr_wf a → has_ip_type (remote_addr a) = true → (∀ x c, conns o !! x = Some c → con_addr c ≠ a) →
  (∀ o' c, conns o !! con = Some c → conns o' = <[con := c <| con_addr := a |>]> (conns o) →
    uinv o' (con :: l) → config o' = config o → Q con o' []) →
  wp (reuse_connection a) Q o.
Proof.
  intros Hinv Ha Hty Hnew HQ. destruct (find_conaddr_spec o _ Hinv a Ha) as (r & Er & Hr).
  assert (r = None) as -> by (destruct r as [x |]; [destruct Hr as (c & Hc & ?); by destruct (Hnew x c Hc) | done]).
  pose proof (u_num _ _ Hinv) as Hnum. rewrite zlen_cons in Hnum. pose proof (zlen_nonneg l).
  destruct (uinv_lookup o _ Hinv con) as (c & Hc & Hok); [set_solver |].
  assert (LinkedList1_GetFirst (connections_list o) = Some con) as Ef by apply (u_list _ _ Hinv).
  destruct (tree_rep_remove conaddr_wf conaddr_comparator (node_conaddr (conns o)) (tree_by_conaddr o) [] con l conaddr_order
    (u_conaddr _ _ Hinv)) as (t1 & Et1 & Ht1).
  set (c' := c <| con_addr := a |>). set (cs := <[con := c']> (conns o)).
  assert (NoDup (con :: l)) as [Hni Hnd]%NoDup_cons by apply (u_list _ _ Hinv).
  assert (∀ x, x ∈ l → cs !! x = conns o !! x) as Hcs by (intros x Hx; subst cs; rewrite lookup_insert_ne by set_solver; done).
  destruct (tree_rep_insert conaddr_wf conaddr_comparator (node_conaddr cs) t1 l con a)
    as (t2 & Et2 & Ht2); [apply conaddr_order | | done | | done | |].
  { eapply tree_rep_ext; [| exact Ht1]. intros x Hx. unfold node_conaddr. by rewrite Hcs. }
  { unfold node_conaddr. subst cs. by rewrite lookup_insert_eq. }
  { intros y Hy. unfold node_conaddr. rewrite Hcs by done. destruct (uinv_lookup o _ Hinv y) as (cy & Ey & _); [set_solver |].
    rewrite Ey. simpl. intros [= E]. by eapply Hnew. }
  unfold reuse_connection. do 4 wp_go. wp_go. wp_step; [done |]. wp_go. wp_step; [apply Z.ltb_lt; lia |].
  unfold remove_by_conaddr, insert_by_conaddr, con_update. repeat first [progress rewrite (alter_known _ _ c) by done | wp_go | done].
  apply (HQ _ c); [done | done | | done].
  destruct Hinv. split; simpl; try done.
  - intros x. rewrite u_dom0. destruct (decide (x = con)) as [-> |]; [rewrite lookup_insert_eq, Hc; naive_solver |].
    by rewrite lookup_insert_ne.
  - eapply tree_rep_ext; [| exact u_conid0]. intros x _. unfold node_conid.
    destruct (decide (x = con)) as [-> |]; [by rewrite lookup_insert_eq, Hc | by rewrite lookup_insert_ne].
  - intros x cx. rewrite lookup_insert_Some. intros [[_ <-] | [_ Hx]]; [by destruct Hok | by destruct (u_con0 x cx Hx)].
Qed.

(** ** Submitting a packet *)

Definition submit_flags (is_dns : bool) : Z := if is_dns then UDPGW_CLIENT_FLAG_DNS else 0.

(** The packet leaves through connection [con] with id [id], unless that
    connection has no buffer on offer. *)
Definition sends o (id flags : Z) (remote : BAddr) (data : bytes) (es : list ucall) : Prop :=
  ∃ con c, conns o !! con = Some c ∧ con_id c = id ∧
    es = if out_have (send_if c) then [USend con (udpgw_packet flags id remote data)] else [].

(** What submitting a packet for the address pair [a] does to the table. *)
Inductive submitted o (a : conaddr) (mem : bool) (flags ptr : Z) (data : bytes) : atable → atable → UdpGwClient T → list ucall → Prop :=
| submit_known t1 id t2 o' es :
    sends o id flags (remote_addr a) data es →
    submitted o a mem flags ptr data (t1 ++ (a, id) :: t2) (t1 ++ t2 ++ [(a, id)]) o' es
| submit_rebind b id t o' es :
    a ∉ ((b, id) :: t).*1 → zlen ((b, id) :: t) = max_connections o →
    sends o id (Z.lor flags UDPGW_CLIENT_FLAG_REBIND) (remote_addr a) data es →
    submitted o a mem flags ptr data ((b, id) :: t) (t ++ [(a, id)]) o' es
| submit_new t id con o' :
    mem = true → a ∉ t.*1 → zlen t < max_connections o → id ∉ t.*2 →
    conns o' !! con = Some (mk_connection a flags ptr (zlen data) id true (mk_BufferWriter false [] (udpgw_mtu o) false)) →
    submitted o a mem flags ptr data t (t ++ [(a, id)]) o' [UFlowInit con (udpgw_mtu o) (send_buffer_size o)]
| submit_nomem t o' es :
    mem = false → a ∉ t.*1 → zlen t < max_connections o → (∀ con p, USend con p ∉ es) →
    submitted o a mem flags ptr data t t o' es.

Lemma table_app cs l1 l2 : table cs (l1 ++ l2) = table cs l1 ++ table cs l2.
Proof. apply omap_app. Qed.

Lemma table_cons cs x l c : cs !! x = Some c → table cs (x :: l) = (con_addr c, con_id c) :: table cs l.
Proof. intros Hc. unfold table. by rewrite omap_cons_eq, Hc. Qed.

Lemma elem_of_table cs l e : e ∈ table cs l → ∃ x c, cs !! x = Some c ∧ e = (con_addr c, con_id c).
Proof. unfold table. rewrite list_elem_of_omap. intros (x & _ & (c & Hc & ->)%fmap_Some). eauto. Qed.

Lemma elem_of_table_in cs l e : e ∈ table cs l → ∃ x c, (x ∈ l ∧ cs !! x = Some c) ∧ e = (con_addr c, con_id c).
Proof. unfold table. rewrite list_elem_of_omap. intros (x & Hx & (c & Hc & ->)%fmap_Some). eauto 6. Qed.

Lemma zlen_table o l : uinv o l → zlen (table (conns o) l) = zlen l.
Proof.
  intros Hinv. assert (∀ x, x ∈ l → is_Some (conns o !! x)) as Hd by (intros; by apply (u_dom _ _ Hinv)).
  clear Hinv. induction l as [| x l IH]; [done |]. destruct (Hd x) as [c Hc]; [set_solver |].
  rewrite (table_cons _ _ _ c) by done. rewrite !zlen_cons, IH by set_solver. done.
Qed.

Lemma not_in_table cs l a : (∀ x c, cs !! x = Some c → con_addr c ≠ a) → a ∉ (table cs l).*1.
Proof. intros Hn (e & -> & (x & c & Hc & ->)%elem_of_table)%list_elem_of_fmap. by eapply Hn. Qed.

Lemma not_in_ids cs l k : (∀ x c, cs !! x = Some c → con_id c ≠ k) → k ∉ (table cs l).*2.
Proof. intros Hn (e & -> & (x & c & Hc & ->)%elem_of_table)%list_elem_of_fmap. by eapply Hn. Qed.

(** Conditions on the caller: real addresses, a packet that fits, fresh memory. *)
Record submit_ok o (malloc : option addr) (local remote : BAddr) (data : bytes) : Prop := {
  so_local : BAddr_wf local ∧ has_ip_type local = true;
  so_remote : BAddr_wf remote ∧ has_ip_type remote = true;
  so_len : zlen data ≤ udp_mtu o;
  so_malloc : ∀ con, malloc = Some con → conns o !! con = None
}.

(** The packet goes to the connection just moved to the end of the list. *)
Lemma touch_send_spec o l1 con l2 c flags data (Q : unit → UdpGwClient T → list ucall → Prop) :
  uinv o (l1 ++ con :: l2) → conns o !! con = Some c → zlen data ≤ udp_mtu o →
  (∀ o', uinv o' (l1 ++ l2 ++ [con]) → table (conns o') (l1 ++ l2 ++ [con]) = table (conns o) (l1 ++ l2 ++ [con]) →
    config o' = config o →
    Q () o' (if out_have (send_if c) then [USend con (udpgw_packet flags (con_id c) (remote_addr (con_addr c)) data)] else [])) →
  wp (list_remove con;; list_append con;; connection_send con flags data) Q o.
Proof.
  intros Hinv Hc Hl HQ.
  assert (wp ((list_remove con;; list_append con);; connection_send con flags data) Q o) as Hw.
  { apply wp_bind. apply (touch_spec o l1 con l2); [done |]. intros h ls o1 Hinv'.
    eapply (connection_send_spec _ _ con c); [exact Hinv' | done | done |]. intros o' Hi Ht Hcf _.
    by apply HQ. }
  unfold wp in Hw |- *. by rewrite run_assoc in Hw.
Qed.

Lemma gw_submit_spec o l malloc ppflow local remote is_dns ptr data : uinv o l → submit_ok o malloc local remote data →
  wp (UdpGwClient_SubmitPacket malloc ppflow local remote is_dns ptr data) (λ _ o' es, ∃ l', uinv o' l' ∧ config o' = config o ∧
    submitted o (mk_conaddr local remote) (negb (is_null malloc) && ppflow) (submit_flags is_dns) ptr data
      (table (conns o) l) (table (conns o') l') o' es) o.
Proof.
  intros Hinv [[Hwl Htl] [Hwr Htr] Hlen Hmal]. set (a := mk_conaddr local remote).
  assert (conaddr_wf a) as Ha by done. pose proof (u_num _ _ Hinv) as Hnum. pose proof (zlen_table o l Hinv) as Hzt.
  destruct (find_conaddr_spec o l Hinv a Ha) as (r & Er & Hr).
  unfold UdpGwClient_SubmitPacket. do 2 wp_go. wp_go. wp_step; [done |]. wp_go. wp_step; [done |].
  wp_go. wp_step; [by apply Z.leb_le |]. do 2 wp_go. apply wp_bind. destruct r as [con |].
  - destruct Hr as (c & Hc & Eca). simpl. wp_step. simpl.
    assert (con ∈ l) as (l1 & l2 & ->)%list_elem_of_split by (apply (u_dom _ _ Hinv); eauto).
    eapply touch_send_spec; [exact Hinv | done | done |]. intros o' Hi Ht Hcf. eexists. split; [exact Hi |]. split; [done |].
    rewrite Ht, !table_app, !(table_cons _ con _ c) by done. rewrite Eca. apply submit_known. by exists con, c.
  - pose proof (not_in_table _ l a Hr) as Hnt. destruct (num_connections o =? max_connections o) eqn:Efull; b2p; simpl.
    + destruct l as [| con l]; [pose proof (u_max _ _ Hinv); rewrite zlen_nil in *; lia |].
      apply wp_bind. apply (reuse_connection_spec o con l a); [done.. |]. intros o1 c Hc Ecs Hinv1 Hcf1. wp_step. simpl.
      set (c' := c <| con_addr := a |>) in *.
      assert (conns o1 !! con = Some c') as Hc' by (rewrite Ecs; apply lookup_insert_eq).
      eapply (touch_send_spec o1 [] con l c'); [exact Hinv1 | done | injection Hcf1 as E1 _ _ _; by rewrite E1 |].
      intros o' Hi Ht Hcf. eexists. split; [exact Hi |]. split; [congruence |].
      rewrite Ht. simpl. rewrite (table_cons _ con _ c) by done. rewrite (table_snoc _ _ con c') by done.
      assert (NoDup (con :: l)) as [Hni _]%NoDup_cons by apply (u_list _ _ Hinv).
      rewrite Ecs, table_insert by done. rewrite (table_cons _ con _ c) in Hnt, Hzt by done.
      apply submit_rebind; [done | etransitivity; [exact Hzt | lia] |]. by exists con, c.
    + wp_step. simpl. pose proof (u_max _ _ Hinv). pose proof (zlen_nonneg data).
      apply (connection_init_spec o l); try done; [lia.. | |].
      * intros Hmem o' es Hi Ecs Hcf Hes. exists l. split; [done |]. split; [done |]. rewrite Ecs. apply submit_nomem; [| done | lia | done].
        destruct Hmem as [-> | ->]; [done | by rewrite andb_false_r].
      * intros con id o' -> -> Hi Ht Ecs Hcf. exists (l ++ [con]). split; [done |]. split; [done |]. rewrite Ht.
        apply submit_new; [done | done | lia | | by rewrite Ecs, lookup_insert_eq].
        apply not_in_ids. intros x c Hc E.
        assert (x = con) as ->; [| by specialize (Hmal con eq_refl); simplify_eq].
        eapply (conid_inj o' _ Hi x con c); [| rewrite Ecs; apply lookup_insert_eq | done].
        rewrite Ecs, lookup_insert_ne; [done |]. intros <-. specialize (Hmal con eq_refl). simplify_eq.
Qed.

(** ** Receiving a packet *)

Lemma header_roundtrip f k rest : 0 ≤ f < 256 → 0 ≤ k < 65536 →
  let m := udpgw_header_mem (mk_udpgw_header f k) ++ rest in le_val (mem_read m 0 1) = f ∧ le_val (mem_read m 1 2) = k.
Proof.
  intros Hf Hk. unfold udpgw_header_mem, mem_read. cbn [h_flags h_conid]. rewrite <- app_assoc. split.
  - rewrite zdrop_le0, ztake_app_exact by (autorewrite with c_len; lia). by apply le_val_1_small.
  - rewrite zdrop_app_exact, ztake_app_exact by (autorewrite with c_len; lia). apply le_val_2_small; lia.
Qed.

(** Parsing the address a packet of this client carries. *)
Lemma parse_address_bytes flags a data : BAddr_wf a → has_ip_type a = true → Z.land flags UDPGW_CLIENT_FLAG_IPV6 = 0 →
  parse_address (packet_flags flags a) (address_bytes a ++ data) = Some (a, data).
Proof.
  intros Hwf Hty Hfl. unfold parse_address. pose proof (zlen_nonneg data). destruct a as [| ip port | ip port]; [done | |];
    cbn [BAddr_wf packet_flags address_bytes] in *.
  - rewrite Hfl. cbn [negb Z.eqb]. unfold udpgw_addr_ipv4_mem, udpgw_addr_ipv4_of, mem_read; cbn [addr4_ip addr4_port].
    rewrite (proj2 (Z.ltb_ge _ _)) by (unfold sizeof_udpgw_addr_ipv4; autorewrite with c_len; lia).
    rewrite (zdrop_app_exact _ data sizeof_udpgw_addr_ipv4) by (autorewrite with c_len; done).
    rewrite <- app_assoc. unfold BAddr_InitIPv4, BAddr_MakeIPv4. do 3 f_equal.
    + rewrite zdrop_le0, ztake_app_exact by (autorewrite with c_len; lia). apply (le_val_le_bytes_small 4). simpl. lia.
    + rewrite zdrop_app_exact, ztake_app_exact by (autorewrite with c_len; lia). apply le_val_2_small; lia.
  - rewrite Z.land_lor_distr_l, Hfl. change (Z.lor 0 _) with 8. cbn [negb Z.eqb].
    destruct Hwf as (Hl & _ & Hp). unfold udpgw_addr_ipv6_mem, udpgw_addr_ipv6_of, mem_read; cbn [addr6_ip addr6_port].
    rewrite (proj2 (Z.ltb_ge _ _)) by (unfold sizeof_udpgw_addr_ipv6; autorewrite with c_len; lia).
    rewrite (zdrop_app_exact _ data sizeof_udpgw_addr_ipv6) by (autorewrite with c_len; unfold sizeof_udpgw_addr_ipv6; lia).
    rewrite <- app_assoc. unfold BAddr_InitIPv6, BAddr_MakeIPv6. do 3 f_equal.
    + rewrite zdrop_le0, (ztake_app_exact ip) by lia. apply ztake_ge. lia.
    + rewrite zdrop_app_exact, ztake_app_exact by (autorewrite with c_len; lia). apply le_val_2_small; lia.
Qed.

(** What a parsed packet does: it is dropped, or delivered to the user of the
    connection that has its id and its remote address. *)
Lemma deliver_spec o l conid remote data (Q : unit → UdpGwClient T → list ucall → Prop) : uinv o l → conid_ok conid →
  BAddr_wf remote →
  ((udp_mtu o < zlen data ∨ ∀ a, (a, conid) ∈ table (conns o) l → remote_addr a ≠ remote) → Q () o []) →
  (∀ l1 con l2 c h ls, l = l1 ++ con :: l2 → conns o !! con = Some c → con_id c = conid → remote_addr (con_addr c) = remote →
    zlen data ≤ udp_mtu o →
    let o' := o <| list_nodes := h |> <| connections_list := ls |> in
    uinv o' (l1 ++ l2 ++ [con]) → Q () o' [UReceived (local_addr (con_addr c)) remote data]) →
  wp (deliver_packet conid remote data) Q o.
Proof.
  intros Hinv Hid Hwf HQ1 HQ2. unfold deliver_packet. do 2 wp_go. wp_step; [wp_step; apply HQ1; by left |].
  destruct (find_conid_spec o l Hinv conid Hid) as (r & Er & Hr). do 2 wp_go. destruct r as [con |].
  - destruct Hr as (c & Hc & Eid). do 2 wp_go. pose proof (uinv_wf o l con c Hinv Hc) as [_ Hwc].
    pose proof (CompareOrder_zero _ _ Hwc Hwf) as Hz. wp_step.
    + wp_step. apply HQ1. right. intros a Ha E. apply elem_of_table in Ha as (y & cy & Hy & [= -> Ey]).
      assert (y = con) as -> by (apply (conid_inj o l Hinv y con cy c Hy Hc); congruence). simplify_eq. tauto.
    + assert (con ∈ l) as (l1 & l2 & El)%list_elem_of_split by (apply (u_dom _ _ Hinv); eauto). rewrite El in Hinv.
      assert (wp ((list_remove con;; list_append con);;
        emit (UReceived (local_addr (con_addr c)) (remote_addr (con_addr c)) data)) Q o) as Hw.
      { apply wp_bind. apply (touch_spec o l1 con l2); [done |]. intros h ls o1 Hi. apply wp_emit. cbn [app].
        rewrite (proj1 Hz) by done. apply (HQ2 l1 con l2 c); [done.. | by apply Hz | done | exact Hi]. }
      unfold wp in Hw |- *. by rewrite run_assoc in Hw.
  - wp_step. apply HQ1. right. intros a Ha. apply elem_of_table in Ha as (y & cy & Hy & [= -> Ey]). by destruct (Hr y cy).
Qed.

(** ** Releasing connections *)

Lemma connection_free_spec o l1 con l2 (Q : unit → UdpGwClient T → list ucall → Prop) : uinv o (l1 ++ con :: l2) →
  (∀ o', uinv o' (l1 ++ l2) → conns o' = delete con (conns o) → config o' = config o → Q () o' [UFlowFree con]) →
  wp (connection_free con) Q o.
Proof.
  intros Hinv HQ. destruct (uinv_lookup o _ Hinv con) as (c & Hc & _); [set_solver |].
  destruct (ll1_remove_spec _ _ l1 con l2 (u_list _ _ Hinv)) as (h & ls & El & Hl & _).
  destruct (tree_rep_remove _ _ _ _ l1 con l2 conaddr_order (u_conaddr _ _ Hinv)) as (t1 & Et1 & Ht1).
  destruct (tree_rep_remove _ _ _ _ l1 con l2 conid_order (u_conid _ _ Hinv)) as (t2 & Et2 & Ht2).
  assert (NoDup (l1 ++ con :: l2)) as (_ & Hd & [Hni _]%NoDup_cons)%NoDup_app by apply (u_list _ _ Hinv).
  assert (con ∉ l1 ++ l2) as Hn by set_solver.
  unfold connection_free, list_remove, remove_by_conid, remove_by_conaddr. repeat wp_go.
  apply HQ; [| done | done]. destruct Hinv. rewrite zlen_app, zlen_cons in *.
  assert (∀ x, x ∈ l1 ++ l2 → delete con (conns o) !! x = conns o !! x) as Hcs
    by (intros x Hx; rewrite lookup_delete_ne by set_solver; done).
  split; simpl; try done; rewrite ?zlen_app; try lia.
  - by apply ll1_rep_delete.
  - intros x. destruct (decide (x = con)) as [-> |]; [rewrite lookup_delete_eq; split; [done | by intros [? ?]] |].
    rewrite lookup_delete_ne by done. rewrite <- u_dom0. set_solver.
  - eapply tree_rep_ext; [| exact Ht1]. intros x Hx. unfold node_conaddr. by rewrite Hcs.
  - eapply tree_rep_ext; [| exact Ht2]. intros x Hx. unfold node_conid. by rewrite Hcs.
  - intros x cx [_ Hx]%lookup_delete_Some. by destruct (u_con0 x cx Hx).
Qed.

Lemma free_connections_spec l : ∀ fuel o, uinv o l → (length l < fuel)%nat →
  wp (free_connections fuel) (λ _ o' es, uinv o' [] ∧ config o' = config o ∧ es = UFlowFree <$> l) o.
Proof.
  induction l as [| con l IH]; intros fuel o Hinv Hf; (destruct fuel as [| fuel]; [simpl in Hf; lia |]); cbn [free_connections].
  - do 2 wp_go. assert (LinkedList1_GetFirst (connections_list o) = None) as -> by apply (u_list _ _ Hinv). by wp_step.
  - do 2 wp_go. assert (LinkedList1_GetFirst (connections_list o) = Some con) as -> by apply (u_list _ _ Hinv).
    wp_go. apply (connection_free_spec o [] con l); [exact Hinv |]. intros o1 Hi _ Hcf. eapply wp_mono; [apply IH; [exact Hi | simpl in Hf; lia] |].
    intros _ o' es (Hi' & Hcf' & ->). split; [done |]. split; [congruence | done].
Qed.

(** ** Events *)

Inductive uevent :=
| ESubmit (malloc : option addr) (ppflow : bool) (local remote : BAddr) (is_dns : bool) (ptr : Z) (data : bytes)
| EFirstJob (con : addr) (mem : bytes)
| EReady (con : addr) (region : bytes)
| ERecv (data : bytes)
| EDecoderError
| EMonitor
| EKeepaliveDone
| EConnect (decoder : bool)
| EDisconnect.

(** When the environment may cause an event: the first job of a connection runs
    if it is set and the packet is still in memory; the flow of a connection offers
    a region of the agreed size when it has none on offer. *)
Definition ulegal o (e : uevent) : Prop :=
  match e with
  | ESubmit malloc _ local remote _ _ data => submit_ok o malloc local remote data
  | EFirstJob con mem => ∃ c, conns o !! con = Some c ∧ first_job c = true ∧ 0 ≤ first_data c ∧
      first_data c + first_data_len c ≤ zlen mem
  | EReady con region => ∃ c, conns o !! con = Some c ∧ out_have (send_if c) = false ∧ zlen region = udpgw_mtu o
  | ERecv data => have_server o = true ∧ zlen data ≤ udpgw_mtu o ∧ wf_bytes data
  | EDecoderError => have_server o = true
  | EMonitor => True
  | EKeepaliveDone => keepalive_sending o = true
  | EConnect _ => have_server o = false
  | EDisconnect => have_server o = true
  end.

Definition ustep (e : uevent) : C unit :=
  match e with
  | ESubmit malloc ppflow local remote is_dns ptr data => UdpGwClient_SubmitPacket malloc ppflow local remote is_dns ptr data
  | EFirstJob con mem =>
      modify (con_update con (λ c, c <| first_job := false |>));;
      connection_first_job_handler mem con
  | EReady con region =>
      o ← get; c ← lift (conns o !! con);
      w ← lift (bw_output_handler_recv (send_if c) region);
      modify (con_update con (λ c, c <| send_if := w |>))
  | ERecv data => recv_interface_handler_send data
  | EDecoderError => decoder_handler_error
  | EMonitor => send_monitor_handler
  | EKeepaliveDone => keepalive_if_handler_done
  | EConnect decoder => UdpGwClient_ConnectServer decoder;; mret ()
  | EDisconnect => UdpGwClient_DisconnectServer
  end.

Fixpoint urun o (es : list uevent) : option (UdpGwClient T) :=
  match es with
  | [] => Some o
  | e :: es => match ustep e o with Some (_, o', _) => urun o' es | None => None end
  end.

Fixpoint ulegal_run o (es : list uevent) : Prop :=
  match es with
  | [] => True
  | e :: es => ulegal o e ∧ ∀ o' cs, ustep e o = Some ((), o', cs) → ulegal_run o' es
  end.

Lemma parse_address_wf flags data a rest : wf_bytes data → parse_address flags data = Some (a, rest) → BAddr_wf a.
Proof.
  intros Hw. unfold parse_address. repeat case_if; intros [= <- _]; simpl.
  - unfold sizeof_udpgw_addr_ipv6 in *. rewrite ztake_ge by (apply zlen_mem_read_le; lia).
    rewrite zlen_mem_read by lia. split_and!; [done | by apply wf_mem_read |..];
      apply (le_val_range _ 2); (by apply wf_mem_read) || by apply zlen_mem_read_le.
  - split; [apply (le_val_range _ 4) | apply (le_val_range _ 2)]; (by apply wf_mem_read) || by apply zlen_mem_read_le.
Qed.

Lemma recv_spec o l data : uinv o l → ulegal o (ERecv data) →
  wp (recv_interface_handler_send data) (λ _ o' _, ∃ l', uinv o' l') o.
Proof.
  intros Hinv (Hs & Hl & Hw). unfold recv_interface_handler_send. do 2 wp_go. wp_go. wp_step; [done |].
  wp_go. wp_step; [by apply Z.leb_le |]. do 2 wp_go. wp_step; [wp_step; eauto |].
  destruct (parse_address _ _) as [[a d] |] eqn:Ep; [| wp_step; eauto].
  apply parse_address_wf in Ep; [| by apply wf_bytes_zdrop].
  apply (deliver_spec o l); [done | | done | eauto | eauto].
  apply (le_val_range _ 2); [by apply wf_mem_read | by apply zlen_mem_read_le].
Qed.

(** The flags of a connection, its first packet and its writer may change. *)
Lemma uinv_alter o l con c f : uinv o l → conns o !! con = Some c → con_addr (f c) = con_addr c → con_id (f c) = con_id c →
  con_ok o (f c) → uinv (con_update con f o) l.
Proof. intros Hinv Hc Ea Ei Hok. unfold con_update. rewrite (alter_known _ _ c) by done. by eapply uinv_set_con. Qed.

Lemma ustep_inv o l e : uinv o l → ulegal o e → wp (ustep e) (λ _ o' _, ∃ l', uinv o' l') o.
Proof.
  intros Hinv He. destruct e as [malloc ppflow local remote is_dns ptr data | con mem | con region | data | | | | decoder |]; cbn [ustep].
  - eapply wp_mono; [by eapply gw_submit_spec |]. intros _ o' es (l' & ? & _). eauto.
  - destruct He as (c & Hc & _ & Hf & Hm). pose proof (u_con _ _ Hinv con c Hc) as Hok. apply wp_bind, wp_modify.
    set (o1 := con_update con (λ c, c <| first_job := false |>) o).
    assert (uinv o1 l) as Hi by (eapply uinv_alter; [done | done | done | done | by destruct Hok]).
    assert (conns o1 !! con = Some (c <| first_job := false |>)) as Hc1
      by (subst o1; unfold con_update; simpl; by rewrite lookup_alter_eq, Hc).
    unfold connection_first_job_handler. do 4 wp_go. eapply (connection_send_spec _ _ con); [exact Hi | exact Hc1 | | eauto].
    pose proof (co_first _ _ Hok). simpl. etransitivity; [apply zlen_mem_read_le; lia |]. simpl. lia.
  - destruct He as (c & Hc & Ho & Hr). pose proof (u_con _ _ Hinv con c Hc) as [Hid Hw Hfd Hty].
    do 4 wp_go. apply wp_bind. eapply wp_lift; [unfold bw_output_handler_recv; by rewrite Ho |]. wp_step. exists l.
    eapply uinv_alter; [done | done | done | done |]. split; [done | | done | done]. destruct Hw as (? & ? & _). done.
  - by apply (recv_spec o l).
  - simpl in He. unfold decoder_handler_error. repeat first [wp_go | done | eauto].
  - unfold send_monitor_handler. do 3 wp_go; [wp_step; eauto |]. repeat wp_go. exists l.
    destruct Hinv. split; simpl; try done. intros x c Hc. by destruct (u_con0 x c Hc).
  - simpl in He. unfold keepalive_if_handler_done. do 3 wp_go. wp_step; [done |]. wp_step. exists l.
    destruct Hinv. split; simpl; try done. intros x c Hc. by destruct (u_con0 x c Hc).
  - simpl in He. unfold UdpGwClient_ConnectServer. do 4 wp_go. wp_step; [by rewrite He |]. wp_step; [repeat wp_go; eauto |].
    repeat wp_go. exists l. destruct Hinv. split; simpl; try done. intros x c Hc. by destruct (u_con0 x c Hc).
  - simpl in He. unfold UdpGwClient_DisconnectServer, free_server. do 3 wp_go. wp_step; [done |]. repeat wp_go. exists l.
    destruct Hinv. split; simpl; try done. intros x c Hc. by destruct (u_con0 x c Hc).
Qed.

Lemma urun_inv es : ∀ o l, uinv o l → ulegal_run o es → ∃ o' l', urun o es = Some o' ∧ uinv o' l'.
Proof.
  induction es as [| e es IH]; intros o l Hinv Hleg; [by exists o, l |]. destruct Hleg as [He Hleg].
  destruct (wp_inv _ _ _ (ustep_inv o l e Hinv He)) as ([] & o1 & cs & E & l1 & Hi).
  cbn [urun]. rewrite E. apply (IH o1 l1); eauto.
Qed.

Lemma compute_mtu_room android mtu : 0 ≤ mtu ≤ INT_MAX → 0 ≤ udpgw_compute_mtu android mtu →
  21 + mtu ≤ udpgw_compute_mtu android mtu.
Proof.
  intros Hm. unfold udpgw_compute_mtu. rewrite bsize_fromint_small by done.
  change (bsize_max _ _) with (bsize_fromsize 18). unfold INT_MAX in Hm.
  destruct android; rewrite !bsize_add_small by (unfold sizeof_socks_udp_header, sizeof_udpgw_header, SIZE_MAX; lia);
    unfold bsize_toint, bsize_fromsize; cbn [is_overflow bvalue orb]; (case_if; [lia |]); intros _;
    unfold sizeof_socks_udp_header, sizeof_udpgw_header in *; (rewrite s32_small by (unfold INT_MAX in *; lia)); lia.
Qed.

Lemma init_uinv android queue mtu max_conn send_buf o : mtu ≤ INT_MAX →
  UdpGwClient_Init android queue mtu max_conn send_buf = Some (Some o) → uinv o [].
Proof.
  intros Hmtu. unfold UdpGwClient_Init. cbv zeta.
  destruct (ASSERT (0 <=? mtu)) eqn:E1; [| done]. rewrite option_bind_Some.
  destruct (ASSERT (0 <=? udpgw_compute_mtu android mtu)) eqn:E2; [| done]. rewrite option_bind_Some.
  destruct (ASSERT (udpgw_compute_mtu android mtu <=? _)) eqn:E3; [| done]. rewrite option_bind_Some.
  destruct (ASSERT (0 <? max_conn)) eqn:E4; [| done]. rewrite option_bind_Some.
  destruct (ASSERT (0 <? send_buf)) eqn:E5; [| done]. rewrite option_bind_Some.
  apply ASSERT_inv in E1, E2, E4. b2p. destruct queue; [| done]. intros [= <-].
  destruct tree_init as [Hok Hseq]. unfold UINT16_MAX.
  split; cbn; try done; try (case_if; lia).
  - split; [split; [constructor | done] | done].
  - intros x. rewrite lookup_empty. split; [set_solver | by intros [? ?]].
  - rewrite zlen_nil. case_if; lia.
  - split_and!; [done | by rewrite Hseq |]. rewrite Hseq. split; [intros ? ?; set_solver | constructor].
  - split_and!; [done | by rewrite Hseq |]. rewrite Hseq. split; [intros ? ?; set_solver | constructor].
  - split; [lia |]. apply compute_mtu_room; lia.
Qed.

Lemma NoDup_table {K} (f : conaddr * Z → K) o l : uinv o l →
  (∀ x y cx cy, conns o !! x = Some cx → conns o !! y = Some cy →
    f (con_addr cx, con_id cx) = f (con_addr cy, con_id cy) → x = y) →
  NoDup (f <$> table (conns o) l).
Proof.
  intros Hinv Hinj. assert (NoDup l) as Hnd by apply (u_list _ _ Hinv).
  assert (∀ x, x ∈ l → is_Some (conns o !! x)) as Hd by (intros; by apply (u_dom _ _ Hinv)). clear Hinv.
  induction Hnd as [| x l Hx Hnd IH]; [constructor |]. destruct (Hd x) as [c Hc]; [set_solver |].
  rewrite (table_cons _ _ _ c) by done. cbn. apply NoDup_cons. split; [| apply IH; set_solver].
  intros (e & Ee & (y & cy & Hy & ->)%elem_of_table_in)%list_elem_of_fmap. destruct Hy as [Hyl Hy].
  by rewrite (Hinj x y c cy) in Hx.
Qed.

Lemma NoDup_addrs o l : uinv o l → NoDup (table (conns o) l).*1.
Proof. intros Hinv. apply (NoDup_table fst); [done |]. intros x y cx cy. by apply (conaddr_inj o l). Qed.

Lemma NoDup_ids o l : uinv o l → NoDup (table (conns o) l).*2.
Proof. intros Hinv. apply (NoDup_table snd); [done |]. intros x y cx cy. by apply (conid_inj o l). Qed.

(** ** Theorems *)

(** A reply with the id and the remote address of a connection reaches its owner. *)
Lemma reply_spec o l a id flags payload : uinv o l → (a, id) ∈ table (conns o) l → have_server o = true →
  zlen payload ≤ udp_mtu o → 0 ≤ flags < 8 →
  ∃ o' l', recv_interface_handler_send (udpgw_packet flags id (remote_addr a) payload) o =
    Some ((), o', [URecvDone; UReceived (local_addr a) (remote_addr a) payload]) ∧ uinv o' l'.
Proof.
  intros Hinv Hin Hs Hl Hf. destruct (elem_of_table _ _ _ Hin) as (con & c & Hc & [= -> ->]).
  destruct (uinv_wf o l con c Hinv Hc) as [_ Hwf]. pose proof (u_con _ _ Hinv con c Hc) as Hok.
  pose proof (zlen_address _ Hwf) as Hza. pose proof (u_mtu _ _ Hinv). pose proof (u_max _ _ Hinv). pose proof (co_id _ _ Hok).
  set (remote := remote_addr (con_addr c)) in *. set (pkt := udpgw_packet flags (con_id c) remote payload).
  assert (zlen pkt = 3 + zlen (address_bytes remote) + zlen payload) as Hz.
  { subst pkt. unfold udpgw_packet. rewrite !zlen_app, zlen_header. lia. }
  assert (Z.land flags UDPGW_CLIENT_FLAG_IPV6 = 0 ∧ 0 ≤ packet_flags flags remote < 256) as [Hland Hpf].
  { assert (flags = 0 ∨ flags = 1 ∨ flags = 2 ∨ flags = 3 ∨ flags = 4 ∨ flags = 5 ∨ flags = 6 ∨ flags = 7) as Hcase by lia.
    destruct Hcase as [-> | [-> | [-> | [-> | [-> | [-> | [-> | ->]]]]]]]; (split; [done |]); destruct remote; vm_compute; intuition discriminate. }
  assert (wp (recv_interface_handler_send pkt) (λ _ o' es, es = [URecvDone; UReceived (local_addr (con_addr c)) remote payload] ∧
    ∃ l', uinv o' l') o) as Hw.
  { unfold recv_interface_handler_send. do 2 wp_go. wp_go. wp_step; [done |]. wp_go. wp_step; [apply Z.leb_le; lia |].
    do 2 wp_go. pose proof (zlen_nonneg (address_bytes remote)). pose proof (zlen_nonneg payload).
    rewrite (proj2 (Z.ltb_ge _ _)) by (unfold sizeof_udpgw_header; lia).
    subst pkt. unfold udpgw_packet.
    destruct (header_roundtrip (packet_flags flags remote) (con_id c) (address_bytes remote ++ payload)) as [Ef Ek]; [lia.. |].
    rewrite Ef, Ek, zdrop_app_exact by (by rewrite zlen_header).
    unfold ltoh8, htol8. rewrite parse_address_bytes by (done || apply Hok).
    unfold ltoh16, htol16. apply (deliver_spec o l); [done | unfold conid_ok; lia | done | |].
    - intros [? | Hne]; [lia |]. exfalso. by apply (Hne (con_addr c)).
    - intros l1 con' l2 c' h ls -> Hc' Eid Er _ o1 Hi. assert (con' = con) as -> by (by apply (conid_inj o _ Hinv con' con c' c)).
      simplify_eq. split; [done | eauto]. }
  apply wp_inv in Hw as ([] & o' & es & E & -> & l' & Hi). eauto.
Qed.

(** [C30] Submitting a packet keeps the connection table a table of distinct
    address pairs and ids in order of use: a known pair moves to the end and its
    connection sends the packet; a new pair gets an unused id while there is room,
    otherwise it takes over the least recently used connection, which tells the
    gateway with the rebind flag. The search for an id ends, no assertion fails. *)
Theorem udpgw_table o l malloc ppflow local remote is_dns ptr data :
  uinv o l → submit_ok o malloc local remote data →
  ∃ o' l' es, UdpGwClient_SubmitPacket malloc ppflow local remote is_dns ptr data o = Some ((), o', es) ∧
    uinv o' l' ∧ NoDup (table (conns o') l').*1 ∧ NoDup (table (conns o') l').*2 ∧
    submitted o (mk_conaddr local remote) (negb (is_null malloc) && ppflow) (submit_flags is_dns) ptr data
      (table (conns o) l) (table (conns o') l') o' es.
Proof.
  intros Hinv Hok. apply (gw_submit_spec o l malloc ppflow local remote is_dns ptr data Hinv), wp_inv in Hok
    as ([] & o' & es & E & l' & Hi & _ & Hs).
  exists o', l', es. split_and!; [done | done | by apply NoDup_addrs | by apply NoDup_ids | done].
Qed.

(** A packet that was submitted and sent can be answered: when the gateway
    replies with the header and the address of the packet it got, the reply is
    delivered, unchanged, from the remote to the local address of the submission. *)
Theorem udpgw_echo o l malloc ppflow local remote is_dns ptr data o1 es con pkt payload :
  uinv o l → submit_ok o malloc local remote data → have_server o = true → zlen payload ≤ udp_mtu o →
  UdpGwClient_SubmitPacket malloc ppflow local remote is_dns ptr data o = Some ((), o1, es) → USend con pkt ∈ es →
  ∃ o2, recv_interface_handler_send (ztake (zlen pkt - zlen data) pkt ++ payload) o1 =
    Some ((), o2, [URecvDone; UReceived local remote payload]).
Proof.
  intros Hinv Hok Hs Hp Hrun Hin. set (a := mk_conaddr local remote).
  destruct (wp_run _ _ _ _ _ _ (gw_submit_spec o l malloc ppflow local remote is_dns ptr data Hinv Hok) Hrun)
    as (l' & Hi & Hcf & Hsub).
  assert (∃ id flags, (a, id) ∈ table (conns o1) l' ∧ 0 ≤ flags < 8 ∧ pkt = udpgw_packet flags id remote data) as (id & flags & Hat & Hfl & ->).
  { assert (∀ flags id, sends o id flags remote data es → pkt = udpgw_packet flags id remote data) as Hse.
    { intros flags id (con' & c & _ & _ & ->). destruct (out_have (send_if c)); set_solver. }
    inversion Hsub as [t1 id t2 o' es' Hsend | b id t o' es' _ _ Hsend | | ]; subst.
    - exists id, (submit_flags is_dns). split; [set_solver |]. split; [destruct is_dns; vm_compute; intuition discriminate | by apply Hse].
    - eexists id, _. split; [set_solver |]. split; [| by apply Hse]. destruct is_dns; vm_compute; intuition discriminate.
    - set_solver.
    - set_solver. }
  assert (zlen (udpgw_packet flags id remote data) - zlen data =
    zlen (udpgw_header_mem (mk_udpgw_header (packet_flags flags remote) id) ++ address_bytes remote)) as ->
    by (unfold udpgw_packet; rewrite !zlen_app; lia).
  unfold udpgw_packet. rewrite app_assoc, ztake_app_exact, <- app_assoc by done.
  injection Hcf as E1 _ _ E2.
  destruct (reply_spec o1 l' a id flags payload Hi Hat) as (o2 & _ & E & _); [congruence | lia | done |]. exists o2. exact E.
Qed.

(** Whatever packets are submitted and received, jobs run, buffers offered
    and servers connected, in any order, no assertion of the client fails, no
    packet leaves its buffer and no pointer dangles; lists, trees and counters agree. *)
Theorem udpgw_invariant android queue mtu max_conn send_buf o es : mtu ≤ INT_MAX →
  UdpGwClient_Init android queue mtu max_conn send_buf = Some (Some o) → ulegal_run o es →
  ∃ o' l, urun o es = Some o' ∧ uinv o' l.
Proof.
  intros Hmtu Hinit. apply init_uinv in Hinit; [| done]. by apply (urun_inv es o []).
Qed.

(** [C31] Freeing the client releases every connection exactly once and leaves
    none behind, then releases the server connection if there is one. *)
Theorem udpgw_free o l : uinv o l →
  ∃ o', UdpGwClient_Free o = Some ((), o', (UFlowFree <$> l) ++ if have_server o then [UServerFree] else []) ∧
    conns o' = ∅ ∧ num_connections o' = 0 ∧ tree_seq (tree_by_conaddr o') = [] ∧ tree_seq (tree_by_conid o') = [].
Proof.
  intros Hinv.
  assert (wp UdpGwClient_Free (λ _ o' es, uinv o' [] ∧
    es = (UFlowFree <$> l) ++ if have_server o then [UServerFree] else []) o) as Hw.
  { unfold UdpGwClient_Free. apply wp_bind, wp_get, wp_bind. eapply wp_mono; [apply (free_connections_spec l); [done |] |].
    { rewrite (u_num _ _ Hinv). unfold zlen. lia. }
    intros _ o1 es (Hi & Hcf & ->). unfold free_server. destruct (have_server o); wp_step; done. }
  apply wp_inv in Hw as ([] & o' & es & E & Hi & ->). exists o'. split; [done |].
  split; [| split; [apply (u_num _ _ Hi) | split]].
  - apply map_eq. intros x. rewrite lookup_empty. destruct (conns o' !! x) eqn:Ex; [| done].
    assert (x ∈ @nil addr) by (apply (u_dom _ _ Hi); eauto). set_solver.
  - destruct (u_conaddr _ _ Hi) as (_ & Hp & _). by apply Permutation_nil_r.
  - destruct (u_conid _ _ Hi) as (_ & Hp & _). by apply Permutation_nil_r.
Qed.

End client.

(** ** Example: a table of one connection, taken over by a second address pair *)

Definition ex_local : BAddr := BADDR_IPV4 (hton32 0x0A000002) (hton16 4000).
Definition ex_dns : BAddr := BADDR_IPV4 (hton32 0x08080808) (hton16 53).
Definition ex_v6 : BAddr := BADDR_IPV6 (replicate 16 1) (hton16 443).

Definition ex_init : UdpGwClient (list addr) :=
  mk_UdpGwClient 4 1 10 25 27 [] [] ∅ LinkedList1_Init 0 0 ∅
    (le_bytes 2 sizeof_udpgw_header ++ udpgw_header_mem (mk_udpgw_header UDPGW_CLIENT_FLAG_KEEPALIVE 0)) false false.

Definition ex_events : list uevent :=
  [EConnect true; ESubmit (Some 5%nat) true ex_local ex_dns true 0 [1; 2; 3]; EReady 5%nat (replicate 25 0)].

Definition ex_full : UdpGwClient (list addr) := default ex_init (urun ex_init ex_events).

Lemma ex_init_eq : UdpGwClient_Init false true 4 1 10 = Some (Some ex_init).
Proof. vm_compute. reflexivity. Qed.

Lemma ex_wf : (BAddr_wf ex_local ∧ has_ip_type ex_local = true) ∧ (BAddr_wf ex_dns ∧ has_ip_type ex_dns = true) ∧
  (BAddr_wf ex_v6 ∧ has_ip_type ex_v6 = true).
Proof.
  repeat split; try (vm_compute; (reflexivity || discriminate)).
  repeat constructor; vm_compute; (reflexivity || discriminate).
Qed.

Lemma ex_legal : ulegal_run ex_init ex_events.
Proof.
  split; [vm_compute; reflexivity |]. intros o' cs E. vm_compute in E. injection E as <- <-.
  split; [split; [apply ex_wf | apply ex_wf | vm_compute; discriminate | by intros con [= <-]] |].
  intros o' cs E. vm_compute in E. injection E as <- <-.
  split; [eexists; split; [vm_compute; reflexivity | split; vm_compute; reflexivity] | done].
Qed.

Lemma ex_full_inv : ∃ l, uinv ex_full l.
Proof.
  destruct (urun_inv ex_events ex_init [] (init_uinv false true 4 1 10 ex_init ltac:(done) ex_init_eq) ex_legal)
    as (o' & l & E & Hi). exists l. unfold ex_full. by rewrite E.
Qed.

Lemma ex_submit_ok : submit_ok ex_full None ex_local ex_v6 [7; 8].
Proof. split; [apply ex_wf | apply ex_wf | vm_compute; discriminate | done]. Qed.

Lemma udpgw_table_witness : ∃ l o' l' es,
  UdpGwClient_SubmitPacket None true ex_local ex_v6 false 0 [7; 8] ex_full = Some ((), o', es) ∧
  uinv o' l' ∧ NoDup (table (conns o') l').*1 ∧ NoDup (table (conns o') l').*2 ∧
  submitted ex_full (mk_conaddr ex_local ex_v6) false (submit_flags false) 0 [7; 8] (table (conns ex_full) l)
    (table (conns o') l') o' es.
Proof.
  destruct ex_full_inv as [l Hl]. exists l.
  apply (udpgw_table ex_full l None true ex_local ex_v6 false 0 [7; 8] Hl ex_submit_ok).
Defined.

Definition ex_run : option (() * UdpGwClient (list addr) * list ucall) :=
  UdpGwClient_SubmitPacket None true ex_local ex_v6 false 0 [7; 8] ex_full.

Lemma udpgw_echo_witness : ∃ o1 pkt, ex_run = Some ((), o1, [USend 5%nat pkt]) ∧
  ∃ o2, recv_interface_handler_send (ztake (zlen pkt - 2) pkt ++ [9; 9; 9]) o1 =
    Some ((), o2, [URecvDone; UReceived ex_local ex_v6 [9; 9; 9]]).
Proof.
  destruct ex_full_inv as [l Hl].
  assert (∃ o1 pkt, ex_run = Some ((), o1, [USend 5%nat pkt])) as (o1 & pkt & E) by (vm_compute; eauto).
  exists o1, pkt. split; [exact E |].
  apply (udpgw_echo ex_full l None true ex_local ex_v6 false 0 [7; 8] o1 [USend 5%nat pkt] 5%nat pkt [9; 9; 9] Hl ex_submit_ok);
    [vm_compute; reflexivity | vm_compute; discriminate | exact E | set_solver].
Defined.

Lemma udpgw_invariant_witness : ∃ o' l, urun ex_init ex_events = Some o' ∧ uinv o' l.
Proof. apply (udpgw_invariant false true 4 1 10 ex_init ex_events); [done | apply ex_init_eq | apply ex_legal]. Defined.

Lemma udpgw_free_witness : ∃ l o', UdpGwClient_Free ex_full = Some ((), o', (UFlowFree <$> l) ++ [UServerFree]) ∧ conns o' = ∅.
Proof.
  destruct ex_full_inv as [l Hl]. exists l. destruct (udpgw_free ex_full l Hl) as (o' & E & H & _). exists o'. split; [exact E | exact H].
Defined.
