(* ===== verification/SocksUdpGwAndroid.v ===== *)
(** * UDP relay through a SOCKS server, the Android build
    (tun2socks/SocksUdpGwClient.c with [__ANDROID__])

    Every local address has a connection with a datagram socket of its own. Packets
    go to the SOCKS server behind a SOCKS UDP header, or, when they are DNS queries,
    as they are to the DNS gateway; what comes back is delivered to the local
    address. The connections are kept in a search tree by local address and in a
    list from the least to the most recently used one.

    As in [UdpGwClient] the list is the intrusive list in a heap of nodes and the
    tree is used through [SearchTree]. The sub-objects of a connection (job,
    socket, buffers, interfaces) are resources whose acquisition and release are
    calls; whether an initialisation succeeds is an argument. The jobs of connections
    that are set are a part of the state of their own, as they are in the queue of
    jobs: releasing a connection does not take its job out. *)
From S2P Require Import Prelude ByteOrder BSocksClient LinkedLists SearchTree BAddr BufferWriter UdpGwClient.

#[local] Arguments le_bytes : simpl never.
#[local] Arguments le_val : simpl never.

(** ** State *)

(** [s_dest] is the address the socket of the connection sends to. *)
Record sconnection := mk_sconnection {
  s_conaddr : conaddr;
  s_first_data : Z;
  s_first_data_len : Z;
  s_is_dns : bool;
  s_dest : BAddr;
  udp_send_writer : BufferWriter
}.
#[export] Instance sconnection_eta : Eta sconnection := λ c,
  mk_sconnection (s_conaddr c) (s_first_data c) (s_first_data_len c) (s_is_dns c) (s_dest c) (udp_send_writer c).

Record SocksUdpGwClient {T : Type} := mk_SocksUdpGwClient {
  s_udp_mtu : Z;
  s_udpgw_mtu : Z;
  s_max_connections : Z;
  socks_server_addr : BAddr;
  dnsgw : BAddr;
  connections_tree : T;
  s_list_nodes : heap;
  s_connections_list : LinkedList1;
  s_num_connections : Z;
  s_conns : gmap addr sconnection;
  s_pending : gset addr
}.
Arguments SocksUdpGwClient T : clear implicits.
Arguments mk_SocksUdpGwClient {T}.
#[export] Instance SocksUdpGwClient_eta T : Eta (SocksUdpGwClient T) := λ o,
  mk_SocksUdpGwClient (s_udp_mtu o) (s_udpgw_mtu o) (s_max_connections o) (socks_server_addr o) (dnsgw o)
    (connections_tree o) (s_list_nodes o) (s_connections_list o) (s_num_connections o) (s_conns o) (s_pending o).

(** The parts of a connection. *)
Inductive resource := RMem | RJob | RDgram | RDgramIfs | RWriter | RSendBuffer | RRecvIf | RRecvBuffer.
#[export] Instance resource_eq_dec : EqDecision resource.
Proof. solve_decision. Defined.

Inductive scall :=
| SAcquire (con : addr) (r : resource)
| SRelease (con : addr) (r : resource)
| SSend (con : addr) (dest : BAddr) (packet : bytes)
| SRecvDone (con : addr)
| SReceived (local remote : BAddr) (data : bytes).

(** The SOCKS UDP request header. *)
Record socks_udp_header := mk_socks_udp_header { rsv : Z; frag : Z; atyp : Z }.
Definition socks_udp_header_mem (h : socks_udp_header) : bytes :=
  le_bytes 2 (rsv h) ++ le_bytes 1 (frag h) ++ le_bytes 1 (atyp h).
Definition socks_udp_header_of (m : bytes) : socks_udp_header :=
  mk_socks_udp_header (le_val (mem_read m 0 2)) (le_val (mem_read m 2 1)) (le_val (mem_read m 3 1)).

Definition CONNECTION_UDP_BUFFER_SIZE : Z := 64.

Section client.
Context {T : Type} `{SearchTree T}.
Abbreviation SC := (M (SocksUdpGwClient T) scall).
Implicit Types o : SocksUdpGwClient T.

(** The comparator of the tree only looks at the local address, which is the
    value of a node here. *)
Definition s_node_local (cs : gmap addr sconnection) (x : addr) : option BAddr := (λ c, local_addr (s_conaddr c)) <$> cs !! x.
Definition s_conaddr_comparator (l1 l2 : BAddr) : Z := BAddr_CompareOrder l1 l2.

(** The condition [!con && con->is_dns != is_dns] is only reached with a
    connection at hand. *)
Definition find_connection o (a : conaddr) (is_dns : bool) : option (option addr) :=
  tree_node ← BAVL_LookupExact s_conaddr_comparator (s_node_local (s_conns o)) (connections_tree o) (local_addr a);
  match tree_node with
  | None => Some None
  | Some con =>
      if is_null (Some con)
      then c ← s_conns o !! con; if negb (Bool.eqb (s_is_dns c) is_dns) then Some None else Some (Some con)
      else Some (Some con)
  end.

Definition s_con_update (con : addr) (f : sconnection → sconnection) o : SocksUdpGwClient T :=
  o <| s_conns := alter f con (s_conns o) |>.

Definition reset_connection (con : addr) (a : conaddr) (is_dns : bool) : SC unit :=
  modify (s_con_update con (λ c, c <| s_conaddr := a |> <| s_is_dns := is_dns |>)).

(** Returns whether the packet had to be dropped. *)
Definition s_connection_send (con : addr) (data : bytes) : SC bool :=
  o ← get;
  c ← lift (s_conns o !! con);
  st ← lift (BufferWriter_StartPacket (udp_send_writer c));
  let w := st.1 in
  if negb st.2 then mret true else
  wp ← (if negb (s_is_dns c) then
          let remote := remote_addr (s_conaddr c) in
          let header := mk_socks_udp_header 0 0 (match remote with BADDR_IPV4 _ _ => SOCKS_ATYP_IPV4 | _ => SOCKS_ATYP_IPV6 end) in
          w ← lift (bw_memcpy w 0 (socks_udp_header_mem header));
          let out_pos := sizeof_socks_udp_header in
          let a := address_bytes remote in
          w ← lift (bw_memcpy w out_pos a);
          mret (w, out_pos + zlen a)
        else mret (w, 0));
  w ← lift (bw_memcpy wp.1 wp.2 data);
  res ← lift (BufferWriter_EndPacket w (wp.2 + zlen data));
  modify (s_con_update con (λ c, c <| udp_send_writer := res.1 |>));;
  emit (SSend con (s_dest c) res.2);;
  mret false.

(** [first_data] points into [mem], the buffer of the device. *)
Definition s_connection_first_job_handler (mem : bytes) (con : addr) : SC unit :=
  o ← get;
  c ← lift (s_conns o !! con);
  assert ((0 <=? s_first_data c) && (s_first_data c + s_first_data_len c <=? zlen mem));;
  _ ← s_connection_send con (mem_read mem (s_first_data c) (s_first_data_len c));
  mret ().

Definition s_list_append (con : addr) : SC unit :=
  o ← get;
  r ← lift (LinkedList1_Append (s_list_nodes o) (s_connections_list o) con);
  modify (λ o, o <| s_list_nodes := r.1 |> <| s_connections_list := r.2 |>).

Definition s_list_remove (con : addr) : SC unit :=
  o ← get;
  r ← lift (LinkedList1_Remove (s_list_nodes o) (s_connections_list o) con);
  modify (λ o, o <| s_list_nodes := r.1 |> <| s_connections_list := r.2 |>).

Definition s_tree_insert (con : addr) : SC unit :=
  o ← get;
  r ← lift (BAVL_Insert s_conaddr_comparator (s_node_local (s_conns o)) (connections_tree o) con);
  assert r.2;;
  modify (λ o, o <| connections_tree := r.1 |>).

Definition s_tree_remove (con : addr) : SC unit :=
  o ← get;
  t ← lift (BAVL_Remove (connections_tree o) con);
  modify (λ o, o <| connections_tree := t |>).

(** What the initialisations a connection needs return. *)
Record init_results := mk_init_results {
  malloc_ok : option addr;
  dgram_init : bool;
  set_reuse_addr : bool;
  packet_buffer_init : bool;
  single_buffer_init : bool
}.

Definition release_all (con : addr) (rs : list resource) : SC unit :=
  foldr (λ r k, emit (SRelease con r);; k) (mret ()) rs.
#[local] Arguments release_all : simpl never.

(** [BPending_Init] and [BPending_Set] on the job of a connection, whose memory must
    not be that of a job that is still set, and [BPending_Free]. *)
Definition s_set_job (con : addr) : SC unit :=
  o ← get;
  assert (bool_decide (con ∉ s_pending o));;
  emit (SAcquire con RJob);;
  modify (λ o, o <| s_pending := s_pending o ∪ {[con]} |>).
Definition s_free_job (con : addr) : SC unit :=
  emit (SRelease con RJob);;
  modify (λ o, o <| s_pending := s_pending o ∖ {[con]} |>).

(** The end of an initialisation that fails, after the parts [rs] were made. *)
Definition s_init_fail (con : addr) (rs : list resource) : SC (option addr) :=
  release_all con rs;;
  s_free_job con;;
  emit (SRelease con RMem);;
  mret None.

Definition s_connection_init (r : init_results) (a : conaddr) (data data_len : Z) (is_dns : bool) : SC (option addr) :=
  o ← get;
  match malloc_ok r with
  | None => mret None
  | Some con =>
      emit (SAcquire con RMem);;
      s_set_job con;;
      if negb (dgram_init r) then s_init_fail con [] else
      emit (SAcquire con RDgram);;
      if negb (set_reuse_addr r) then s_init_fail con [RDgram] else
      let dest := if is_dns then dnsgw o else socks_server_addr o in
      emit (SAcquire con RDgramIfs);;
      w ← lift (BufferWriter_Init (s_udp_mtu o));
      emit (SAcquire con RWriter);;
      if negb (packet_buffer_init r) then s_init_fail con [RWriter; RDgramIfs; RDgram] else
      emit (SAcquire con RSendBuffer);;
      emit (SAcquire con RRecvIf);;
      if negb (single_buffer_init r)
      then s_init_fail con [RRecvIf; RSendBuffer; RWriter; RDgramIfs; RDgram] else
      emit (SAcquire con RRecvBuffer);;
      modify (λ o, o <| s_conns := <[con := mk_sconnection a data data_len is_dns dest w]> (s_conns o) |>
                     <| s_list_nodes := <[con := mk_node None None]> (s_list_nodes o) |>);;
      s_tree_insert con;;
      s_list_append con;;
      modify (λ o, o <| s_num_connections := s_num_connections o + 1 |>);;
      mret (Some con)
  end.

(** The job is not freed. *)
Definition s_connection_free (con : addr) : SC unit :=
  o ← get;
  _ ← lift (s_conns o !! con);
  modify (λ o, o <| s_num_connections := s_num_connections o - 1 |>);;
  s_list_remove con;;
  s_tree_remove con;;
  release_all con [RRecvBuffer; RRecvIf; RSendBuffer; RWriter; RDgramIfs; RDgram; RMem];;
  modify (λ o, o <| s_conns := delete con (s_conns o) |> <| s_list_nodes := delete con (s_list_nodes o) |>).

Definition remove_lru_connection (a : conaddr) (is_dns : bool) : SC unit :=
  o ← get;
  r ← lift (find_connection o a is_dns);
  assert (is_null r);;
  assert (0 <? s_num_connections o);;
  con ← lift (LinkedList1_GetFirst (s_connections_list o));
  s_connection_free con.

(** ** Receiving *)

Definition s_parse_address (aty : Z) (data : bytes) : option (BAddr * bytes) :=
  if aty =? SOCKS_ATYP_IPV6 then
    if zlen data <? sizeof_udpgw_addr_ipv6 then None else
    let a := udpgw_addr_ipv6_of data in
    Some (BAddr_InitIPv6 (addr6_ip a) (addr6_port a), zdrop sizeof_udpgw_addr_ipv6 data)
  else
    if zlen data <? sizeof_udpgw_addr_ipv4 then None else
    let a := udpgw_addr_ipv4_of data in
    Some (BAddr_InitIPv4 (addr4_ip a) (addr4_port a), zdrop sizeof_udpgw_addr_ipv4 data).

(** The header of a packet of the SOCKS server; [None] drops the packet. *)
Definition parse_socks_packet (data : bytes) : option (BAddr * bytes) :=
  if zlen data <? sizeof_socks_udp_header then None else
  let header := socks_udp_header_of data in
  if negb (frag header =? 0) then None else
  s_parse_address (atyp header) (zdrop sizeof_socks_udp_header data).

Definition s_deliver (con : addr) (data : bytes) : SC unit :=
  o ← get;
  c ← lift (s_conns o !! con);
  if s_udp_mtu o <? zlen data then mret () else
  emit (SReceived (local_addr (s_conaddr c)) (remote_addr (s_conaddr c)) data).

Definition dgram_handler_received (con : addr) (data : bytes) : SC unit :=
  o ← get;
  c ← lift (s_conns o !! con);
  assert (zlen data <=? s_udpgw_mtu o);;
  emit (SRecvDone con);;
  if negb (s_is_dns c) then
    match parse_socks_packet data with
    | None => mret ()
    | Some (remote, data) =>
        modify (s_con_update con (λ c, c <| s_conaddr := (mk_conaddr (local_addr (s_conaddr c)) remote) |>));;
        s_deliver con data
    end
  else s_deliver con data.

(** ** Public operations *)

(** [num] is what the memory of [num_connections] holds before: it is not set. *)
Definition SocksUdpGwClient_Init (num mtu max_conn : Z) (server dns : BAddr) : option (SocksUdpGwClient T) :=
  ASSERT (negb (BAddr_IsInvalid server));;
  Some (mk_SocksUdpGwClient mtu (udpgw_compute_mtu true mtu)
    (if UINT16_MAX + 1 <? max_conn then UINT16_MAX + 1 else max_conn) server dns BAVL_Init ∅ LinkedList1_Init num ∅ ∅).

Fixpoint s_free_connections (fuel : nat) : SC unit :=
  match fuel with
  | O => stuck
  | S fuel =>
      o ← get;
      match LinkedList1_GetFirst (s_connections_list o) with
      | None => mret ()
      | Some con => s_connection_free con;; s_free_connections fuel
      end
  end.

Definition SocksUdpGwClient_Free : SC unit :=
  o ← get;
  s_free_connections (S (Z.to_nat (s_num_connections o))).

Definition SocksUdpGwClient_SubmitPacket (r : init_results) (local remote : BAddr) (is_dns : bool) (ptr : Z) (data : bytes) : SC unit :=
  o ← get;
  assert (has_ip_type local);;
  assert (has_ip_type remote);;
  assert (zlen data <=? s_udp_mtu o);;
  let a := mk_conaddr local remote in
  found ← lift (find_connection o a is_dns);
  when (is_null found && (s_num_connections o =? s_max_connections o)) (remove_lru_connection a is_dns);;
  match found with
  | None => _ ← s_connection_init r a ptr (zlen data) is_dns; mret ()
  | Some con =>
      reset_connection con a is_dns;;
      res ← s_connection_send con data;
      if (res : bool) then mret () else
      s_list_remove con;;
      s_list_append con
  end.

(** ** Invariant *)

(** Bytes in front of the payload. *)
Definition overhead (is_dns : bool) (remote : BAddr) : Z := if is_dns then 0 else sizeof_socks_udp_header + zlen (address_bytes remote).

(** The datagram that leaves. *)
Definition socks_packet (is_dns : bool) (remote : BAddr) (data : bytes) : bytes :=
  if is_dns then data else
  socks_udp_header_mem (mk_socks_udp_header 0 0 (match remote with BADDR_IPV4 _ _ => SOCKS_ATYP_IPV4 | _ => SOCKS_ATYP_IPV6 end)) ++
    address_bytes remote ++ data.

Record scon_ok o (c : sconnection) : Prop := {
  sco_wf : conaddr_wf (s_conaddr c);
  sco_type : has_ip_type (remote_addr (s_conaddr c)) = true;
  sco_writer : writer_ok (s_udp_mtu o) (udp_send_writer c)
}.

Record sinv o (l : list addr) : Prop := {
  s_list : ll1_rep (s_list_nodes o) (s_connections_list o) l;
  s_dom : ∀ x, x ∈ l ↔ is_Some (s_conns o !! x);
  s_num : s_num_connections o = zlen l;
  s_max : zlen l ≤ s_max_connections o ∧ 0 < s_max_connections o;
  s_tree : tree_rep BAddr_wf s_conaddr_comparator (s_node_local (s_conns o)) (connections_tree o) l;
  s_con : ∀ x c, s_conns o !! x = Some c → scon_ok o c;
  s_mtu : 0 ≤ s_udp_mtu o
}.

(** A job that is set is that of a connection that exists, whose first packet leaves
    room for its header. *)
Definition sjobs_ok o : Prop := ∀ x, x ∈ s_pending o → ∃ c, s_conns o !! x = Some c ∧ 0 ≤ s_first_data_len c ∧
  overhead (s_is_dns c) (remote_addr (s_conaddr c)) + s_first_data_len c ≤ s_udp_mtu o.

Lemma sinv_pending o l P : sinv o l → sinv (o <| s_pending := P |>) l.
Proof. intros []. split; try done. intros x c Hx. by destruct (s_con0 x c Hx). Qed.

Lemma local_order : key_order BAddr_wf s_conaddr_comparator.
Proof.
  split; unfold s_conaddr_comparator; intros.
  - apply CompareOrder_cases.
  - by apply CompareOrder_zero.
  - apply CompareOrder_anti.
  - pose proof (CompareOrder_cases a c). pose proof (CompareOrder_trans a b c). intuition lia.
Qed.

Definition s_config o : Z * Z * Z * BAddr * BAddr :=
  (s_udp_mtu o, s_udpgw_mtu o, s_max_connections o, socks_server_addr o, dnsgw o).

Lemma sinv_lookup o l x : sinv o l → x ∈ l → ∃ c, s_conns o !! x = Some c ∧ scon_ok o c.
Proof. intros Hinv Hx. apply (s_dom _ _ Hinv) in Hx as [c Hc]. exists c. split; [done |]. by eapply s_con. Qed.

Lemma s_find_spec o l a is_dns : sinv o l → BAddr_wf (local_addr a) → ∃ r, find_connection o a is_dns = Some r ∧
  match r with
  | Some x => ∃ c, s_conns o !! x = Some c ∧ local_addr (s_conaddr c) = local_addr a
  | None => ∀ x c, s_conns o !! x = Some c → local_addr (s_conaddr c) ≠ local_addr a
  end.
Proof.
  intros Hinv Ha. unfold find_connection.
  destruct (tree_rep_lookup _ _ _ _ l _ local_order (s_tree _ _ Hinv) Ha) as (r & -> & Hr). rewrite option_bind_Some.
  unfold s_node_local in Hr. destruct r as [x |]; cbn [is_null]; eexists; (split; [done |]).
  - destruct Hr as [_ (c & -> & ?)%fmap_Some]. eauto.
  - intros x c Hc E. apply (Hr x); [apply (s_dom _ _ Hinv); eauto | rewrite Hc; simpl; by rewrite E].
Qed.

Lemma local_inj o l x y cx cy : sinv o l → s_conns o !! x = Some cx → s_conns o !! y = Some cy →
  local_addr (s_conaddr cx) = local_addr (s_conaddr cy) → x = y.
Proof.
  intros Hinv Hx Hy E. destruct (s_tree _ _ Hinv) as (_ & Hp & Hio).
  apply (in_order_inj BAddr_wf s_conaddr_comparator (s_node_local (s_conns o)) _ x y (local_addr (s_conaddr cx)) local_order Hio).
  - rewrite Hp. apply (s_dom _ _ Hinv). eauto.
  - rewrite Hp. apply (s_dom _ _ Hinv). eauto.
  - unfold s_node_local. by rewrite Hx.
  - unfold s_node_local. rewrite Hy. simpl. congruence.
Qed.

(** ** Preservation *)

(** A connection may change everything but its local address. *)
Lemma sinv_set_con o l con c c' : sinv o l → s_conns o !! con = Some c →
  local_addr (s_conaddr c') = local_addr (s_conaddr c) → scon_ok o c' →
  sinv (o <| s_conns := <[con := c']> (s_conns o) |>) l.
Proof.
  intros [] Hc El Hok. split; simpl; try done.
  - intros x. rewrite s_dom0. destruct (decide (x = con)) as [-> |]; [rewrite lookup_insert_eq, Hc; naive_solver |].
    by rewrite lookup_insert_ne.
  - eapply tree_rep_ext; [| exact s_tree0]. intros x _. unfold s_node_local.
    destruct (decide (x = con)) as [-> |]; [rewrite lookup_insert_eq, Hc; simpl; by rewrite El | by rewrite lookup_insert_ne].
  - intros x y. rewrite lookup_insert_Some. intros [[-> <-] | [_ Hx]]; [by destruct Hok | by destruct (s_con0 x y Hx)].
Qed.

Lemma sinv_alter o l con c f : sinv o l → s_conns o !! con = Some c →
  local_addr (s_conaddr (f c)) = local_addr (s_conaddr c) → scon_ok o (f c) → sinv (s_con_update con f o) l.
Proof. intros Hinv Hc El Hok. unfold s_con_update. rewrite (alter_known _ _ c) by done. by eapply sinv_set_con. Qed.

Lemma sinv_relist o l l' h ls : sinv o l → l' ≡ₚ l → ll1_rep h ls l' →
  sinv (o <| s_list_nodes := h |> <| s_connections_list := ls |>) l'.
Proof.
  intros [] Hp Hl. assert (zlen l' = zlen l) as Hz by (unfold zlen; by rewrite Hp).
  split; simpl; try done; rewrite ?Hz; try done.
  - intros x. rewrite Hp. apply s_dom0.
  - by eapply tree_rep_perm.
  - intros x c Hc. by destruct (s_con0 x c Hc).
Qed.

Lemma s_touch_spec o l1 con l2 (Q : unit → SocksUdpGwClient T → list scall → Prop) : sinv o (l1 ++ con :: l2) →
  (∀ h ls, let o' := o <| s_list_nodes := h |> <| s_connections_list := ls |> in
    sinv o' (l1 ++ l2 ++ [con]) → Q () o' []) →
  wp (s_list_remove con;; s_list_append con) Q o.
Proof.
  intros Hinv HQ. destruct (ll1_touch_spec _ _ l1 con l2 (s_list _ _ Hinv)) as (h1 & ls1 & h2 & ls2 & E1 & E2 & H2).
  unfold s_list_remove, s_list_append. repeat wp_go.
  apply (HQ h2 ls2). eapply sinv_relist; [exact Hinv | solve_Permutation | done].
Qed.

(** ** Sending *)

Lemma zlen_socks_header h : zlen (socks_udp_header_mem h) = 4.
Proof. unfold socks_udp_header_mem. autorewrite with c_len. lia. Qed.

Lemma zlen_socks_packet is_dns remote data : zlen (socks_packet is_dns remote data) = overhead is_dns remote + zlen data.
Proof.
  unfold socks_packet, overhead. destruct is_dns; [lia |]. rewrite !zlen_app, zlen_socks_header. unfold sizeof_socks_udp_header. lia.
Qed.

(** The pieces written one after the other are the packet. *)
Definition socks_pieces (is_dns : bool) (remote : BAddr) (data : bytes) : list bytes :=
  if is_dns then [data] else
  [socks_udp_header_mem (mk_socks_udp_header 0 0 (match remote with BADDR_IPV4 _ _ => SOCKS_ATYP_IPV4 | _ => SOCKS_ATYP_IPV6 end));
   address_bytes remote; data].

Lemma concat_socks_pieces is_dns remote data : concat (socks_pieces is_dns remote data) = socks_packet is_dns remote data.
Proof. unfold socks_pieces, socks_packet. destruct is_dns; cbn [concat]; by rewrite ?app_nil_r. Qed.

(** The run of [connection_send] in terms of the pieces. *)
Lemma s_connection_send_run o con c data : s_conns o !! con = Some c → d_writing (udp_send_writer c) = false →
  out_have (udp_send_writer c) = true →
  s_connection_send con data o =
    (w ← bw_write_all ((udp_send_writer c) <| d_writing := true |>) 0 (socks_pieces (s_is_dns c) (remote_addr (s_conaddr c)) data);
     res ← BufferWriter_EndPacket w (zlen (socks_packet (s_is_dns c) (remote_addr (s_conaddr c)) data));
     Some (false, s_con_update con (λ c, c <| udp_send_writer := res.1 |>) o, [SSend con (s_dest c) res.2])).
Proof.
  intros Hc Hw Ho. unfold s_connection_send. rewrite run_get. erewrite run_nil by (unfold lift; by rewrite Hc).
  erewrite run_nil by (unfold lift, BufferWriter_StartPacket; by rewrite Hw, Ho). cbn [fst snd negb]. cbv zeta.
  set (w0 := (udp_send_writer c) <| d_writing := true |>). rewrite zlen_socks_packet. unfold socks_pieces, overhead.
  destruct (s_is_dns c); cbn [negb bw_write_all].
  - rewrite run_ret, run_lift. cbn [fst snd]. rewrite Z.add_0_l.
    destruct (bw_memcpy w0 0 data) as [w1 |]; [| done]. rewrite !option_bind_Some, run_lift.
    by destruct (BufferWriter_EndPacket w1 _) as [[w2 p] |].
  - set (hd := socks_udp_header_mem _). set (a := address_bytes _). rewrite run_assoc, run_lift.
    assert (zlen hd = sizeof_socks_udp_header) as Eh by apply zlen_socks_header. rewrite Z.add_0_l, Eh.
    destruct (bw_memcpy w0 0 hd) as [w1 |]; [| done]. rewrite !option_bind_Some, run_assoc, run_lift.
    destruct (bw_memcpy w1 sizeof_socks_udp_header a) as [w2 |]; [| done]. rewrite !option_bind_Some, run_ret, run_lift. cbn [fst snd].
    destruct (bw_memcpy w2 (sizeof_socks_udp_header + zlen a) data) as [w3 |]; [| done]. rewrite !option_bind_Some, run_lift.
    by destruct (BufferWriter_EndPacket w3 _) as [[w4 p] |].
Qed.

Lemma s_connection_send_spec o l con c data (Q : bool → SocksUdpGwClient T → list scall → Prop) :
  sinv o l → s_conns o !! con = Some c →
  overhead (s_is_dns c) (remote_addr (s_conaddr c)) + zlen data ≤ s_udp_mtu o →
  (out_have (udp_send_writer c) = false → Q true o []) →
  (out_have (udp_send_writer c) = true → ∀ w, let o' := s_con_update con (λ c, c <| udp_send_writer := w |>) o in
    sinv o' l → Q false o' [SSend con (s_dest c) (socks_packet (s_is_dns c) (remote_addr (s_conaddr c)) data)]) →
  wp (s_connection_send con data) Q o.
Proof.
  intros Hinv Hc Hfit HQ1 HQ2. pose proof (s_con _ _ Hinv con c Hc) as [Hwf Hty Hw].
  destruct (out_have (udp_send_writer c)) eqn:Eo.
  - unfold wp. rewrite (s_connection_send_run o con c) by (done || apply Hw).
    destruct (bw_packet (s_udp_mtu o) (udp_send_writer c) (socks_pieces (s_is_dns c) (remote_addr (s_conaddr c)) data))
      as (w1 & w2 & w3 & E1 & E2 & E3 & Hw3 & _); [done | done | by rewrite concat_socks_pieces, zlen_socks_packet |].
    unfold BufferWriter_StartPacket in E1. destruct Hw as (_ & Hd & _). rewrite Hd, Eo in E1.
    assert (w1 = (udp_send_writer c) <| d_writing := true |>) as -> by (by injection E1). rewrite concat_socks_pieces in E3.
    rewrite E2, option_bind_Some, E3, option_bind_Some. cbn [fst snd].
    apply (HQ2 eq_refl w3). eapply sinv_alter; [done | done | done |]. by split.
  - unfold s_connection_send. do 4 wp_go. apply wp_bind. eapply wp_lift.
    + unfold BufferWriter_StartPacket. destruct Hw as (_ & -> & _). by rewrite Eo.
    + simpl. wp_step. by apply HQ1.
Qed.

(** ** Creating and releasing connections *)

Lemma release_all_run con rs o : release_all con rs o = Some ((), o, SRelease con <$> rs).
Proof.
  induction rs as [| r rs IH]; [done |]. change (release_all con (r :: rs)) with (emit (SRelease con r);; release_all con rs).
  unfold mbind, M_bind, emit. by rewrite IH.
Qed.

Lemma wp_release con rs (Q : unit → SocksUdpGwClient T → list scall → Prop) o :
  Q () o (SRelease con <$> rs) → wp (release_all con rs) Q o.
Proof. intros HQ. unfold wp. by rewrite release_all_run. Qed.

(** What a call sequence has acquired and not released. *)
Fixpoint balance (held : list resource) (es : list scall) : list resource :=
  match es with
  | [] => held
  | SAcquire _ r :: es => balance (r :: held) es
  | SRelease _ r :: es => balance (filter (λ x, x ≠ r) held) es
  | _ :: es => balance held es
  end.

(** Whether all the initialisations of a connection succeed. *)
Definition init_ok (r : init_results) : bool :=
  negb (is_null (malloc_ok r)) && dgram_init r && set_reuse_addr r && packet_buffer_init r && single_buffer_init r.

(** All the parts of a connection, the last one first. *)
Definition s_parts : list resource := [RRecvBuffer; RRecvIf; RSendBuffer; RWriter; RDgramIfs; RDgram; RJob; RMem].

Definition s_initialised (is_dns : bool) (a : conaddr) (ptr len : Z) o : sconnection :=
  mk_sconnection a ptr len is_dns (if is_dns then dnsgw o else socks_server_addr o) (mk_BufferWriter false [] (s_udp_mtu o) false).

Lemma pending_fresh o con : con ∉ s_pending o → (o <| s_pending := s_pending o ∪ {[con]} |>) <| s_pending := (s_pending o ∪ {[con]}) ∖ {[con]} |> = o.
Proof. intros Hn. assert ((s_pending o ∪ {[con]}) ∖ {[con]} = s_pending o) as E by set_solver. cbn. rewrite E. by destruct o. Qed.

(** The job of a connection is set; then everything is released. *)
Lemma s_init_fail_spec o con rs (Q : option addr → SocksUdpGwClient T → list scall → Prop) : con ∉ s_pending o →
  Q None o (SRelease con <$> (rs ++ [RJob; RMem])) → wp (s_init_fail con rs) Q (o <| s_pending := s_pending o ∪ {[con]} |>).
Proof.
  intros Hn HQ. unfold s_init_fail, s_free_job. wp_step. apply wp_release. wp_step. wp_step. wp_step. apply wp_modify.
  cbn [s_pending set SocksUdpGwClient_eta eta]. wp_step. wp_step. wp_step. rewrite fmap_app in HQ.
  match goal with |- Q _ ?o' _ => assert (o' = o) as -> by (by apply pending_fresh) end. exact HQ.
Qed.

Lemma s_connection_init_spec o l r a ptr len is_dns (Q : option addr → SocksUdpGwClient T → list scall → Prop) :
  sinv o l → conaddr_wf a → has_ip_type (remote_addr a) = true → zlen l < s_max_connections o →
  (∀ con, malloc_ok r = Some con → s_conns o !! con = None ∧ con ∉ s_pending o) →
  (∀ x c, s_conns o !! x = Some c → local_addr (s_conaddr c) ≠ local_addr a) →
  (∀ es, init_ok r = false → balance [] es = [] → (∀ con d p, SSend con d p ∉ es) → Q None o es) →
  (∀ con o' es, malloc_ok r = Some con → init_ok r = true → sinv o' (l ++ [con]) →
    s_conns o' = <[con := s_initialised is_dns a ptr len o]> (s_conns o) → s_pending o' = s_pending o ∪ {[con]} → s_config o' = s_config o →
    balance [] es = s_parts → (∀ con d p, SSend con d p ∉ es) → Q (Some con) o' es) →
  wp (s_connection_init r a ptr len is_dns) Q o.
Proof.
  intros Hinv Ha Hty Hl Hmal Hnew HQ1 HQ2. pose proof (s_num _ _ Hinv) as Hnum. unfold init_ok in HQ1, HQ2.
  unfold s_connection_init. do 2 wp_go. destruct (malloc_ok r) as [con |]; [| wp_step; apply HQ1; [done | done | set_solver]].
  destruct (Hmal con eq_refl) as [Hn Hpend].
  assert (con ∉ l) as Hni by (intros Hx; apply (s_dom _ _ Hinv) in Hx as [? ?]; congruence).
  change (is_null (Some con)) with false in HQ1, HQ2. cbn [negb andb] in HQ1, HQ2.
  do 2 wp_go. apply wp_bind. unfold s_set_job. do 2 wp_go. wp_go. wp_step; [by apply bool_decide_eq_true |]. do 2 wp_go. apply wp_modify.
  apply wp_if; intros E1; apply (proj1 (negb_true_iff _)) in E1 || apply (proj1 (negb_false_iff _)) in E1; rewrite E1 in HQ1, HQ2; cbn [andb] in HQ1, HQ2.
  { apply s_init_fail_spec; [done |]. apply HQ1; [done | done | set_solver]. }
  do 2 wp_go.
  apply wp_if; intros E2; apply (proj1 (negb_true_iff _)) in E2 || apply (proj1 (negb_false_iff _)) in E2; rewrite E2 in HQ1, HQ2; cbn [andb] in HQ1, HQ2.
  { apply s_init_fail_spec; [done |]. apply HQ1; [done | done | set_solver]. }
  cbv zeta. do 2 wp_go. apply wp_bind. eapply wp_lift; [unfold BufferWriter_Init; rewrite ASSERT_seq by (apply Z.leb_le, s_mtu with l, Hinv); reflexivity |].
  do 2 wp_go.
  apply wp_if; intros E3; apply (proj1 (negb_true_iff _)) in E3 || apply (proj1 (negb_false_iff _)) in E3; rewrite E3 in HQ1, HQ2; cbn [andb] in HQ1, HQ2.
  { apply s_init_fail_spec; [done |]. apply HQ1; [done | done | set_solver]. }
  do 4 wp_go.
  apply wp_if; intros E4; apply (proj1 (negb_true_iff _)) in E4 || apply (proj1 (negb_false_iff _)) in E4; rewrite E4 in HQ1, HQ2.
  { apply s_init_fail_spec; [done |]. apply HQ1; [done | done | set_solver]. }
  set (c := mk_sconnection _ _ _ _ _ _). set (cs := <[con := c]> (s_conns o)).
  assert (∀ x, x ∈ l → cs !! x = s_conns o !! x) as Hcs by (intros x Hx; subst cs; rewrite lookup_insert_ne by set_solver; done).
  destruct (tree_rep_insert BAddr_wf s_conaddr_comparator (s_node_local cs) (connections_tree o) l con (local_addr a))
    as (t1 & Et1 & Ht1); [apply local_order | | done | | apply Ha | |].
  { eapply tree_rep_ext; [| apply (s_tree _ _ Hinv)]. intros x Hx. unfold s_node_local. by rewrite Hcs. }
  { unfold s_node_local. subst cs. by rewrite lookup_insert_eq. }
  { intros y Hy. unfold s_node_local. rewrite Hcs by done. destruct (sinv_lookup o l y Hinv Hy) as (cy & Ey & _).
    rewrite Ey. simpl. intros [= E]. by eapply Hnew. }
  destruct (ll1_append_spec (<[con := mk_node None None]> (s_list_nodes o)) (s_connections_list o) l con)
    as (h & ls & Els & Hls & _); [apply ll1_rep_frame; [apply (s_list _ _ Hinv) | done] | split; [done | rewrite lookup_insert_eq; eauto] |].
  unfold s_tree_insert, s_list_append. repeat first [wp_go | done]. apply HQ2; [done | done | | done | done | done | done | set_solver].
  split; simpl; try done.
  - intros x. rewrite elem_of_app, list_elem_of_singleton, (s_dom _ _ Hinv). subst cs.
    destruct (decide (x = con)) as [-> |]; [rewrite lookup_insert_eq; naive_solver | rewrite lookup_insert_ne by done; naive_solver].
  - rewrite zlen_app, zlen_cons, zlen_nil. lia.
  - rewrite zlen_app, zlen_cons, zlen_nil. pose proof (s_max _ _ Hinv). lia.
  - eapply tree_rep_perm; [| exact Ht1]. solve_Permutation.
  - intros x cx. subst cs. rewrite lookup_insert_Some. intros [[_ <-] | [_ Hx]]; [by split | by destruct (s_con _ _ Hinv x cx Hx)].
  - apply (s_mtu _ _ Hinv).
Qed.

Lemma s_connection_free_spec o l1 con l2 (Q : unit → SocksUdpGwClient T → list scall → Prop) : sinv o (l1 ++ con :: l2) →
  (∀ o', sinv o' (l1 ++ l2) → s_conns o' = delete con (s_conns o) → s_pending o' = s_pending o → s_config o' = s_config o →
    Q () o' (SRelease con <$> filter (λ r, r ≠ RJob) s_parts)) →
  wp (s_connection_free con) Q o.
Proof.
  intros Hinv HQ. destruct (sinv_lookup o _ con Hinv) as (c & Hc & _); [set_solver |].
  destruct (ll1_remove_spec _ _ l1 con l2 (s_list _ _ Hinv)) as (h & ls & El & Hl & _).
  destruct (tree_rep_remove _ _ _ _ l1 con l2 local_order (s_tree _ _ Hinv)) as (t1 & Et1 & Ht1).
  assert (NoDup (l1 ++ con :: l2)) as (_ & Hd & [Hni _]%NoDup_cons)%NoDup_app by apply (s_list _ _ Hinv).
  assert (con ∉ l1 ++ l2) as Hn by set_solver.
  unfold s_connection_free, s_list_remove, s_tree_remove. repeat first [apply wp_release | wp_go].
  apply HQ; [| done | done | done]. destruct Hinv. rewrite zlen_app, zlen_cons in *.
  assert (∀ x, x ∈ l1 ++ l2 → delete con (s_conns o) !! x = s_conns o !! x) as Hcs
    by (intros x Hx; rewrite lookup_delete_ne by set_solver; done).
  split; simpl; try done; rewrite ?zlen_app; try lia.
  - by apply ll1_rep_delete.
  - intros x. destruct (decide (x = con)) as [-> |]; [rewrite lookup_delete_eq; split; [done | by intros [? ?]] |].
    rewrite lookup_delete_ne by done. rewrite <- s_dom0. set_solver.
  - eapply tree_rep_ext; [| exact Ht1]. intros x Hx. unfold s_node_local. by rewrite Hcs.
  - intros x cx [_ Hx]%lookup_delete_Some. by destruct (s_con0 x cx Hx).
Qed.

(** ** Submitting a packet *)

(** The table after making room: the least recently used connection goes when
    the table is full. *)
Definition make_room o (l : list addr) : list addr := if s_num_connections o =? s_max_connections o then tail l else l.

Definition room_conns o (l : list addr) : gmap addr sconnection :=
  match l with con :: _ => if s_num_connections o =? s_max_connections o then delete con (s_conns o) else s_conns o | [] => s_conns o end.
Definition room_calls o (l : list addr) : list scall :=
  match l with con :: _ => if s_num_connections o =? s_max_connections o then SRelease con <$> filter (λ r, r ≠ RJob) s_parts else [] | [] => [] end.

(** The ways a packet for the address pair [a] can go: it is sent on the connection of
    the local address, or dropped because that connection has no buffer, and the
    connection has the new remote address; or no connection has the local address
    and a new one is made, with all of its parts and its job set; or that fails,
    because one of its initialisations did, and what was made is released. *)
Inductive s_submitted o (r : init_results) (a : conaddr) (is_dns : bool) (ptr : Z) (data : bytes) (l : list addr) :
  list addr → SocksUdpGwClient T → list scall → Prop :=
| s_sent l1 con l2 c w o' :
    l = l1 ++ con :: l2 → s_conns o !! con = Some c → local_addr (s_conaddr c) = local_addr a → out_have (udp_send_writer c) = true →
    s_conns o' = <[con := c <| s_conaddr := a |> <| s_is_dns := is_dns |> <| udp_send_writer := w |>]> (s_conns o) → s_pending o' = s_pending o →
    s_submitted o r a is_dns ptr data l (l1 ++ l2 ++ [con]) o' [SSend con (s_dest c) (socks_packet is_dns (remote_addr a) data)]
| s_dropped con c o' :
    s_conns o !! con = Some c → local_addr (s_conaddr c) = local_addr a → out_have (udp_send_writer c) = false →
    s_conns o' = <[con := c <| s_conaddr := a |> <| s_is_dns := is_dns |>]> (s_conns o) → s_pending o' = s_pending o →
    s_submitted o r a is_dns ptr data l l o' []
| s_created con o' es :
    (∀ x c, s_conns o !! x = Some c → local_addr (s_conaddr c) ≠ local_addr a) → init_ok r = true → malloc_ok r = Some con →
    s_conns o' = <[con := s_initialised is_dns a ptr (zlen data) o]> (room_conns o l) → s_pending o' = s_pending o ∪ {[con]} →
    balance [] es = s_parts → (∀ con d p, SSend con d p ∉ es) →
    s_submitted o r a is_dns ptr data l (make_room o l ++ [con]) o' (room_calls o l ++ es)
| s_failed o' es :
    (∀ x c, s_conns o !! x = Some c → local_addr (s_conaddr c) ≠ local_addr a) → init_ok r = false →
    s_conns o' = room_conns o l → s_pending o' = s_pending o → balance [] es = [] → (∀ con d p, SSend con d p ∉ es) →
    s_submitted o r a is_dns ptr data l (make_room o l) o' (room_calls o l ++ es).

(** Conditions on the caller: real addresses, a packet that fits with the header
    in front of it, memory that is free once the table has room, no first packet
    still waiting to be sent (the event loop executes the jobs that are set before it
    reads the next packet from the device). *)
Record s_submit_ok o (r : init_results) (local remote : BAddr) (is_dns : bool) (data : bytes) : Prop := {
  sso_local : BAddr_wf local ∧ has_ip_type local = true;
  sso_remote : BAddr_wf remote ∧ has_ip_type remote = true;
  sso_len : overhead is_dns remote + zlen data ≤ s_udp_mtu o;
  sso_malloc : ∀ con, malloc_ok r = Some con → s_conns o !! con = None ∨
    s_num_connections o = s_max_connections o ∧ LinkedList1_GetFirst (s_connections_list o) = Some con;
  sso_jobs : s_pending o = ∅
}.

Lemma overhead_nonneg is_dns remote : 0 ≤ overhead is_dns remote.
Proof. unfold overhead, sizeof_socks_udp_header. destruct is_dns; pose proof (zlen_nonneg (address_bytes remote)); lia. Qed.

(** Room is made for a connection that does not exist. *)
Lemma make_room_spec o l r a is_dns : sinv o l → find_connection o a is_dns = Some None → s_pending o = ∅ →
  (∀ con, malloc_ok r = Some con → s_conns o !! con = None ∨
    s_num_connections o = s_max_connections o ∧ LinkedList1_GetFirst (s_connections_list o) = Some con) →
  wp (when (s_num_connections o =? s_max_connections o) (remove_lru_connection a is_dns)) (λ _ o1 es1,
    sinv o1 (make_room o l) ∧ zlen (make_room o l) < s_max_connections o1 ∧ s_config o1 = s_config o ∧ s_conns o1 = room_conns o l ∧
    s_pending o1 = ∅ ∧ es1 = room_calls o l ∧ ∀ con, malloc_ok r = Some con → s_conns o1 !! con = None) o.
Proof.
  intros Hinv Ef Hp Hmal. pose proof (s_num _ _ Hinv) as Hnum. unfold make_room, room_conns, room_calls.
  apply wp_when; intros Efull; rewrite Efull; b2p; pose proof (s_max _ _ Hinv) as Hmax.
  - destruct l as [| con l]; [rewrite zlen_nil in *; lia |]. rewrite zlen_cons in *. pose proof (zlen_nonneg l).
    assert (LinkedList1_GetFirst (s_connections_list o) = Some con) as Egf by apply (s_list _ _ Hinv).
    unfold remove_lru_connection. do 4 wp_go. wp_go. wp_step; [done |]. wp_go. wp_step; [apply Z.ltb_lt; lia |].
    do 2 wp_go. apply (s_connection_free_spec o [] con l); [done |]. intros o1 Hi1 Ecs Epd Hcf.
    split_and!; [done | injection Hcf as _ _ -> _ _; simpl; lia | done | done | congruence | by rewrite ?app_nil_r |].
    intros con' Em. rewrite Ecs. destruct (Hmal con' Em) as [Hn | [_ Hn]]; [by rewrite lookup_delete_None; right |]. simplify_eq. apply lookup_delete_eq.
  - split_and!; [done | lia | done | by destruct l | done | by destruct l |]. intros con' Em. destruct (Hmal con' Em) as [? | [? _]]; done.
Qed.

Lemma room_conns_sub o l x c : room_conns o l !! x = Some c → s_conns o !! x = Some c.
Proof. unfold room_conns. destruct l; [done |]. case_if; [by intros [_ ?]%lookup_delete_Some | done]. Qed.

Lemma s_submit_spec o l r local remote is_dns ptr data : sinv o l → s_submit_ok o r local remote is_dns data →
  wp (SocksUdpGwClient_SubmitPacket r local remote is_dns ptr data) (λ _ o' es, ∃ l', sinv o' l' ∧ s_config o' = s_config o ∧
    s_submitted o r (mk_conaddr local remote) is_dns ptr data l l' o' es) o.
Proof.
  intros Hinv [[Hwl Htl] [Hwr Htr] Hlen Hmal Hjobs]. set (a := mk_conaddr local remote).
  assert (conaddr_wf a) as Ha by done. pose proof (overhead_nonneg is_dns remote). pose proof (zlen_nonneg data).
  destruct (s_find_spec o l a is_dns Hinv Hwl) as (found & Ef & Hf).
  unfold SocksUdpGwClient_SubmitPacket. do 2 wp_go. wp_go. wp_step; [done |]. wp_go. wp_step; [done |].
  wp_go. wp_step; [apply Z.leb_le; lia |]. do 2 wp_go. apply wp_bind. destruct found as [con |]; cbn [is_null].
  - destruct Hf as (c & Hc & El). change (is_null (Some con)) with false. cbn [andb when]. wp_step.
    pose proof (s_con _ _ Hinv con c Hc) as Hok. apply wp_bind, wp_modify.
    set (c1 := c <| s_conaddr := a |> <| s_is_dns := is_dns |>).
    set (o1 := s_con_update con (λ c, c <| s_conaddr := a |> <| s_is_dns := is_dns |>) o).
    assert (sinv o1 l) as Hi1 by (eapply sinv_alter; [done | done | done |]; by destruct Hok).
    assert (s_conns o1 = <[con := c1]> (s_conns o)) as Ecs1 by (unfold o1, s_con_update; cbn; by rewrite (alter_known _ _ c)).
    assert (s_conns o1 !! con = Some c1) as Hc1 by (by rewrite Ecs1, lookup_insert_eq).
    apply wp_bind, (s_connection_send_spec o1 l con c1); [done | done | done | |].
    + intros Eo. wp_step. exists l. split; [done |]. split; [done |]. by apply (s_dropped o r a is_dns ptr data l con c).
    + intros Eo w o2 Hi2. simpl.
      assert (con ∈ l) as (l1 & l2 & ->)%list_elem_of_split by (apply (s_dom _ _ Hinv); eauto).
      apply (s_touch_spec o2 l1 con l2); [done |]. intros h ls o3 Hi3. eexists. split; [exact Hi3 |]. split; [done |].
      apply (s_sent o r a is_dns ptr data _ l1 con l2 c w o3); try done.
      change (s_conns o3) with (alter (λ c, c <| udp_send_writer := w |>) con (s_conns o1)). rewrite (alter_known _ _ c1) by done.
      rewrite Ecs1. apply insert_insert_eq.
  - change (is_null None) with true. cbn [andb].
    eapply wp_mono; [by apply (make_room_spec o l r) |]. intros _ o1 es1 (Hi1 & Hz1 & Hcf1 & Ecs1 & Epd1 & -> & Hmal1).
    pose proof Hcf1 as Hcf1'. injection Hcf1' as Emtu _ Emax Eserv Edns.
    apply wp_bind, (s_connection_init_spec o1 (make_room o l)); try done; [| by intros x c Hc; rewrite Ecs1 in Hc; apply room_conns_sub in Hc; apply (Hf x c) | |].
    + intros con Em. split; [by apply Hmal1 | rewrite Epd1; set_solver].
    + intros es Hfail Hbal Hes. wp_step. rewrite app_nil_r. exists (make_room o l). split; [done |]. split; [done |]. apply s_failed; try done. congruence.
    + intros con o2 es Em Hok Hi2 Ecs Epd Hcf2 Hbal Hes. wp_step. rewrite app_nil_r. exists (make_room o l ++ [con]). split; [done |]. split; [congruence |].
      apply s_created; try done; [| congruence]. rewrite Ecs, Ecs1. unfold s_initialised. by rewrite Emtu, Eserv, Edns.
Qed.

(** The first packets that wait still leave room for their header. *)
Lemma s_submitted_jobs o r local remote is_dns ptr data l l' o' es : s_submit_ok o r local remote is_dns data → s_config o' = s_config o →
  s_submitted o r (mk_conaddr local remote) is_dns ptr data l l' o' es → sjobs_ok o'.
Proof.
  intros Hok Hcf Hs. injection Hcf as Emtu _ _ _ _. pose proof (sso_jobs _ _ _ _ _ _ Hok) as Hj. pose proof (sso_len _ _ _ _ _ _ Hok) as Hlen.
  destruct Hs as [? con ? c w o' _ _ _ _ _ Epd | con c o' _ _ _ _ Epd | con o' es _ _ _ Ecs Epd _ _ | o' es _ _ _ Epd _ _]; intros x Hx; rewrite Epd, Hj in Hx;
    try set_solver. assert (x = con) as -> by set_solver. rewrite Ecs, lookup_insert_eq. eexists. split; [done |]. cbn. rewrite Emtu. split; [apply zlen_nonneg | exact Hlen].
Qed.

(** ** Receiving *)

(** The two header formats share the address layout. *)
Lemma s_parse_address_eq aty data : s_parse_address aty data = parse_address (if aty =? SOCKS_ATYP_IPV6 then 8 else 0) data.
Proof. unfold s_parse_address, parse_address. by destruct (aty =? SOCKS_ATYP_IPV6). Qed.

Lemma parse_socks_packet_wf data remote rest : wf_bytes data → parse_socks_packet data = Some (remote, rest) →
  BAddr_wf remote ∧ has_ip_type remote = true.
Proof.
  intros Hw. unfold parse_socks_packet. repeat case_if; try done. rewrite s_parse_address_eq. intros Hp. split.
  - eapply parse_address_wf; [| exact Hp]. by apply wf_bytes_zdrop.
  - unfold parse_address in Hp. repeat case_match; try done; by injection Hp as <- _.
Qed.

Lemma parse_socks_packet_packet remote data : BAddr_wf remote → has_ip_type remote = true →
  parse_socks_packet (socks_packet false remote data) = Some (remote, data).
Proof.
  intros Hwf Hty. unfold parse_socks_packet. set (p := socks_packet false remote data).
  pose proof (zlen_nonneg (address_bytes remote)). pose proof (zlen_nonneg data).
  assert (zlen p = 4 + zlen (address_bytes remote) + zlen data) as Hz.
  { subst p. rewrite zlen_socks_packet. unfold overhead, sizeof_socks_udp_header. lia. }
  rewrite (proj2 (Z.ltb_ge _ _)) by (unfold sizeof_socks_udp_header; lia).
  set (aty := match remote with BADDR_IPV4 _ _ => SOCKS_ATYP_IPV4 | _ => SOCKS_ATYP_IPV6 end).
  assert (p = le_bytes 2 0 ++ le_bytes 1 0 ++ le_bytes 1 aty ++ address_bytes remote ++ data) as ->.
  { subst p. unfold socks_packet, socks_udp_header_mem. cbn [rsv frag atyp]. by rewrite <- !app_assoc. }
  assert (0 ≤ aty < 256) as Haty by (subst aty; destruct remote; vm_compute; intuition discriminate).
  assert (frag (socks_udp_header_of (le_bytes 2 0 ++ le_bytes 1 0 ++ le_bytes 1 aty ++ address_bytes remote ++ data)) = 0 ∧
    atyp (socks_udp_header_of (le_bytes 2 0 ++ le_bytes 1 0 ++ le_bytes 1 aty ++ address_bytes remote ++ data)) = aty) as [-> ->].
  { unfold socks_udp_header_of, mem_read. cbn [frag atyp]. split.
    - rewrite zdrop_app_exact, ztake_app_exact by (autorewrite with c_len; lia). by apply le_val_1_small.
    - rewrite app_assoc, zdrop_app_exact, ztake_app_exact by (autorewrite with c_len; lia). by apply le_val_1_small. }
  cbn [negb Z.eqb]. rewrite !app_assoc. rewrite <- (app_assoc _ (address_bytes remote) data).
  rewrite zdrop_app_exact by (autorewrite with c_len; done). rewrite s_parse_address_eq.
  assert ((if aty =? SOCKS_ATYP_IPV6 then 8 else 0) = packet_flags 0 remote) as -> by (subst aty; by destruct remote).
  by apply parse_address_bytes.
Qed.

(** Conditions under which a connection's socket hands over a datagram. *)
Record s_recv_ok o (con : addr) (c : sconnection) (data : bytes) : Prop := {
  sro_con : s_conns o !! con = Some c;
  sro_len : zlen data ≤ s_udpgw_mtu o;
  sro_wf : wf_bytes data;
  sro_job : con ∉ s_pending o
}.

Lemma s_deliver_spec o con c data (Q : unit → SocksUdpGwClient T → list scall → Prop) : s_conns o !! con = Some c →
  Q () o (if s_udp_mtu o <? zlen data then [] else [SReceived (local_addr (s_conaddr c)) (remote_addr (s_conaddr c)) data]) →
  wp (s_deliver con data) Q o.
Proof. intros Hc HQ. unfold s_deliver. do 4 wp_go. by destruct (s_udp_mtu o <? zlen data); wp_step. Qed.

(** A datagram is dropped or delivered to the local address; the remote address of
    a SOCKS datagram is the one in its header. *)
Definition s_accepted (c : sconnection) (data : bytes) : option (BAddr * bytes) :=
  if s_is_dns c then Some (remote_addr (s_conaddr c), data) else parse_socks_packet data.

Lemma s_received_spec o l con c data (Q : unit → SocksUdpGwClient T → list scall → Prop) :
  sinv o l → s_recv_ok o con c data →
  (∀ o', sinv o' l → (sjobs_ok o → sjobs_ok o') → match s_accepted c data with
    | None => Q () o' [SRecvDone con]
    | Some (remote, rest) => Q () o' (SRecvDone con ::
        if s_udp_mtu o <? zlen rest then [] else [SReceived (local_addr (s_conaddr c)) remote rest])
    end) →
  wp (dgram_handler_received con data) Q o.
Proof.
  intros Hinv [Hc Hl Hw Hj] HQ. unfold dgram_handler_received, s_accepted in *. do 4 wp_go. wp_go. wp_step; [by apply Z.leb_le |].
  do 2 wp_go. destruct (s_is_dns c); cbn [negb].
  - eapply s_deliver_spec; [done |]. by apply HQ.
  - destruct (parse_socks_packet data) as [[remote rest] |] eqn:Ep; [| wp_step; by apply HQ].
    destruct (parse_socks_packet_wf data remote rest Hw Ep) as [Hwr Htr].
    apply wp_bind, wp_modify. set (f := λ c : sconnection, _). set (o1 := s_con_update con f o).
    assert (s_conns o1 !! con = Some (f c)) as Hc1 by (subst o1; unfold s_con_update; simpl; by rewrite lookup_alter_eq, Hc).
    assert (sinv o1 l) as Hi1 by (eapply sinv_alter; [done | done | done |]; pose proof (s_con _ _ Hinv con c Hc) as [[] ? ?]; by split).
    assert (sjobs_ok o → sjobs_ok o1) as Hj1.
    { intros Hjo x Hx. destruct (Hjo x Hx) as (cx & Hcx & Hfit). exists cx. split; [| done]. unfold o1, s_con_update. simpl. rewrite lookup_alter_ne; [done |]. by intros ->. }
    eapply s_deliver_spec; [exact Hc1 |]. by apply HQ.
Qed.

(** ** Events *)

(** A packet is submitted; the loop executes the job of a connection that is set, with
    what is in the buffer of the device; a connection is given a buffer to write to;
    a datagram arrives on its socket. *)
Inductive sevent :=
| SESubmit (r : init_results) (local remote : BAddr) (is_dns : bool) (ptr : Z) (data : bytes)
| SEFirstJob (con : addr) (mem : bytes)
| SEReady (con : addr) (region : bytes)
| SERecv (con : addr) (data : bytes).

Definition slegal o (e : sevent) : Prop :=
  match e with
  | SESubmit r local remote is_dns _ data => s_submit_ok o r local remote is_dns data
  | SEFirstJob con mem => con ∈ s_pending o ∧ ∀ c, s_conns o !! con = Some c → 0 ≤ s_first_data c ∧ s_first_data c + s_first_data_len c ≤ zlen mem
  | SEReady con region => ∃ c, s_conns o !! con = Some c ∧ out_have (udp_send_writer c) = false ∧ zlen region = s_udp_mtu o
  | SERecv con data => ∃ c, s_recv_ok o con c data
  end.

Definition sstep (e : sevent) : SC unit :=
  match e with
  | SESubmit r local remote is_dns ptr data => SocksUdpGwClient_SubmitPacket r local remote is_dns ptr data
  | SEFirstJob con mem =>
      modify (λ o, o <| s_pending := s_pending o ∖ {[con]} |>);;
      s_connection_first_job_handler mem con
  | SEReady con region =>
      o ← get; c ← lift (s_conns o !! con);
      w ← lift (bw_output_handler_recv (udp_send_writer c) region);
      modify (s_con_update con (λ c, c <| udp_send_writer := w |>))
  | SERecv con data => dgram_handler_received con data
  end.

Fixpoint srun o (es : list sevent) : option (SocksUdpGwClient T) :=
  match es with
  | [] => Some o
  | e :: es => match sstep e o with Some (_, o', _) => srun o' es | None => None end
  end.

Fixpoint slegal_run o (es : list sevent) : Prop :=
  match es with
  | [] => True
  | e :: es => slegal o e ∧ ∀ o' cs, sstep e o = Some ((), o', cs) → slegal_run o' es
  end.

Lemma sjobs_writer o con c w : s_conns o !! con = Some c → sjobs_ok o → sjobs_ok (s_con_update con (λ c, c <| udp_send_writer := w |>) o).
Proof.
  intros Hc Hj x Hx. destruct (Hj x Hx) as (cx & Hcx & Hfit). unfold s_con_update. simpl. destruct (decide (x = con)) as [-> | Hne].
  - rewrite Hc in Hcx. injection Hcx as <-. rewrite lookup_alter_eq, Hc. by eexists.
  - exists cx. by rewrite lookup_alter_ne.
Qed.

Lemma sstep_inv o l e : sinv o l → sjobs_ok o → slegal o e → wp (sstep e) (λ _ o' _, (∃ l', sinv o' l') ∧ sjobs_ok o') o.
Proof.
  intros Hinv Hjo He. destruct e as [r local remote is_dns ptr data | con mem | con region | con data]; cbn [sstep].
  - eapply wp_mono; [by eapply s_submit_spec |]. intros _ o' es (l' & ? & Hcf & Hs). split; [by eauto |]. by eapply s_submitted_jobs.
  - destruct He as (Hj & Hm). destruct (Hjo con Hj) as (c & Hc & H0 & Hfit). destruct (Hm c Hc) as [Hm1 Hm2].
    apply wp_bind, wp_modify. set (o1 := o <| s_pending := s_pending o ∖ {[con]} |>).
    assert (sinv o1 l) as Hi by (by apply sinv_pending).
    assert (sjobs_ok o1) as Hj1 by (intros x Hx; apply Hjo; unfold o1 in Hx; cbn in Hx; set_solver).
    assert (s_conns o1 !! con = Some c) as Hc1 by done.
    unfold s_connection_first_job_handler. do 4 wp_go. wp_step. wp_step; [apply andb_true_iff; split; apply Z.leb_le; lia |]. apply wp_bind.
    apply (s_connection_send_spec o1 l con c); [done | done | | |].
    + pose proof (zlen_mem_read_le mem (s_first_data c) (s_first_data_len c)). change (s_udp_mtu o1) with (s_udp_mtu o). lia.
    + intros _. wp_step. by eauto.
    + intros _ w o2 Hi2. wp_step. split; [by eauto |]. by eapply sjobs_writer.
  - destruct He as (c & Hc & Ho & Hr). pose proof (s_con _ _ Hinv con c Hc) as [Hwf Hty Hw].
    do 4 wp_go. apply wp_bind. eapply wp_lift; [unfold bw_output_handler_recv; by rewrite Ho |]. wp_step. split; [exists l | by eapply sjobs_writer].
    eapply sinv_alter; [done | done | done |]. split; [done | done |]. destruct Hw as (? & ? & _). done.
  - destruct He as [c He]. apply (s_received_spec o l con c data); [done | done |].
    intros o' Hi Hj. destruct (s_accepted c data) as [[remote rest] |]; eauto.
Qed.

Lemma srun_inv es : ∀ o l, sinv o l → sjobs_ok o → slegal_run o es → ∃ o' l', srun o es = Some o' ∧ sinv o' l' ∧ sjobs_ok o'.
Proof.
  induction es as [| e es IH]; intros o l Hinv Hjo Hleg; [by exists o, l |]. destruct Hleg as [He Hleg].
  destruct (wp_inv _ _ _ (sstep_inv o l e Hinv Hjo He)) as ([] & o1 & cs & E & (l1 & Hi) & Hj1).
  cbn [srun]. rewrite E. apply (IH o1 l1); eauto.
Qed.

Lemma s_init_inv mtu max_conn server dns o : 0 ≤ mtu → 0 < max_conn →
  SocksUdpGwClient_Init 0 mtu max_conn server dns = Some o → sinv o [] ∧ s_pending o = ∅.
Proof.
  intros Hmtu Hmax. unfold SocksUdpGwClient_Init. destruct (ASSERT _); [| done]. rewrite option_bind_Some. intros [= <-]. split; [| done].
  destruct tree_init as [Hok Hseq]. unfold UINT16_MAX. split; cbn; try done; try (case_if; lia).
  - split; [split; [constructor | done] | done].
  - intros x. rewrite lookup_empty. split; [set_solver | by intros [? ?]].
  - rewrite zlen_nil. case_if; lia.
  - split_and!; [done | by rewrite Hseq |]. rewrite Hseq. split; [intros ? ?; set_solver | constructor].
Qed.

Lemma s_free_connections_spec l : ∀ fuel o, sinv o l → (length l < fuel)%nat →
  wp (s_free_connections fuel) (λ _ o' es, sinv o' [] ∧ ∀ con, SRelease con RJob ∉ es) o.
Proof.
  induction l as [| con l IH]; intros fuel o Hinv Hf; (destruct fuel as [| fuel]; [simpl in Hf; lia |]); cbn [s_free_connections].
  - do 2 wp_go. assert (LinkedList1_GetFirst (s_connections_list o) = None) as -> by apply (s_list _ _ Hinv). wp_step. split; [done | set_solver].
  - do 2 wp_go. assert (LinkedList1_GetFirst (s_connections_list o) = Some con) as -> by apply (s_list _ _ Hinv).
    wp_go. apply (s_connection_free_spec o [] con l); [exact Hinv |]. intros o1 Hi _ _ _.
    eapply wp_mono; [apply IH; [exact Hi | simpl in Hf; lia] |].
    intros _ o' es (Hi' & Hes). split; [done |]. intros con'. specialize (Hes con'). set_solver.
Qed.

(** ** Theorems *)

(** [C32] Submitting a packet that leaves room for its header, while no first packet
    waits ([s_submit_ok]), fails no assertion and does one of four things: the
    connection of the local address takes over the new remote address, sends the
    packet in the right format and becomes the most recently used one; or, if it has
    no buffer to write to, it takes over the address and the packet is dropped; or
    the local address is new, all initialisations succeed, and it gets a connection of
    its own with all its parts and its job set, in a full table after the least
    recently used one is gone; or one of them fails and what was made is released.
    No other connection changes. *)
Theorem socks_udp_table o l r local remote is_dns ptr data : sinv o l → s_submit_ok o r local remote is_dns data →
  ∃ o' l' es, SocksUdpGwClient_SubmitPacket r local remote is_dns ptr data o = Some ((), o', es) ∧ sinv o' l' ∧
    s_submitted o r (mk_conaddr local remote) is_dns ptr data l l' o' es.
Proof.
  intros Hinv Hok. apply (s_submit_spec o l r local remote is_dns ptr data Hinv), wp_inv in Hok
    as ([] & o' & es & E & l' & Hi & _ & Hs). by exists o', l', es.
Qed.

(** A datagram of the relay, formatted as this client formats its own, is
    delivered unchanged to the local address of the connection it arrives on, as
    coming from the address in its header (for DNS, from the server last asked). *)
Theorem socks_udp_echo o l con c remote payload :
  sinv o l → s_recv_ok o con c (socks_packet (s_is_dns c) remote payload) → BAddr_wf remote → has_ip_type remote = true →
  zlen payload ≤ s_udp_mtu o →
  ∃ o', dgram_handler_received con (socks_packet (s_is_dns c) remote payload) o =
    Some ((), o', [SRecvDone con; SReceived (local_addr (s_conaddr c)) (if s_is_dns c then remote_addr (s_conaddr c) else remote) payload]).
Proof.
  intros Hinv Hok Hwf Hty Hl.
  assert (wp (dgram_handler_received con (socks_packet (s_is_dns c) remote payload)) (λ _ o' es, es =
    [SRecvDone con; SReceived (local_addr (s_conaddr c)) (if s_is_dns c then remote_addr (s_conaddr c) else remote) payload]) o) as Hw.
  { apply (s_received_spec o l con c); [done | done |]. intros o' _ _. unfold s_accepted. destruct (s_is_dns c).
    - cbn [socks_packet]. by rewrite (proj2 (Z.ltb_ge _ _)).
    - rewrite parse_socks_packet_packet by done. by rewrite (proj2 (Z.ltb_ge _ _)). }
  apply wp_inv in Hw as ([] & o' & es & E & ->). by exists o'.
Qed.

(** [C33] For every sequence in which packets are submitted, jobs that are set are
    executed, buffers are offered and datagrams arrive, no assertion fails, no access
    leaves its buffer, no pointer dangles, the table stays consistent and every job
    that is set is that of a connection that exists. What is asked ([slegal]): submitted
    packets are between IP addresses and leave room for the header; no job is
    set when a packet is submitted, nor that of its connection when a datagram arrives, as when
    the loop executes all jobs first; the bytes of a first packet are still in memory when its
    job runs; [malloc] gives memory that is not in use; offered buffers have the size of
    the UDP MTU and datagrams fit theirs. And the counter of connections is zero before the
    initialisation, which leaves it alone. [socks_udp_overflow] and
    [socks_udp_dangling_job] show what happens without room and with a job set. *)
Theorem socks_udp_invariant mtu max_conn server dns o es : 0 ≤ mtu → 0 < max_conn →
  SocksUdpGwClient_Init 0 mtu max_conn server dns = Some o → slegal_run o es →
  ∃ o' l, srun o es = Some o' ∧ sinv o' l ∧ sjobs_ok o'.
Proof.
  intros Hmtu Hmax [Hinv Hp]%s_init_inv Hleg; [| done..]. apply (srun_inv es o []); [done | | done]. intros x Hx. rewrite Hp in Hx. set_solver.
Qed.

(** The buffer of a connection holds [udp_mtu] bytes, which the assertions
    allow for the payload alone: a packet for the SOCKS server is written past the
    end of the buffer exactly when it does not leave room for its header. *)
Theorem socks_udp_overflow o l con c data : sinv o l → s_conns o !! con = Some c → out_have (udp_send_writer c) = true →
  s_connection_send con data o = None ↔ s_udp_mtu o < overhead (s_is_dns c) (remote_addr (s_conaddr c)) + zlen data.
Proof.
  intros Hinv Hc Ho. pose proof (s_con _ _ Hinv con c Hc) as [_ _ (Em & Hd & Hz)]. specialize (Hz Ho). split.
  - intros Hn. destruct (decide (s_udp_mtu o < overhead (s_is_dns c) (remote_addr (s_conaddr c)) + zlen data)) as [| Hge]; [done |].
    exfalso. assert (wp (s_connection_send con data) (λ _ _ _, True) o) as Hw.
    { apply (s_connection_send_spec o l con c); [done | done | lia | done | done]. }
    unfold wp in Hw. by rewrite Hn in Hw.
  - intros Hgt. rewrite (s_connection_send_run o con c) by done. rewrite bw_write_all_overflow; [done | |].
    + simpl. pose proof (zlen_nonneg (out (udp_send_writer c))). lia.
    + simpl. rewrite concat_socks_pieces, zlen_socks_packet. lia.
Qed.

(** The destination of a connection is fixed when it is created: after its
    local address has sent a DNS query, a packet for the SOCKS server from the same
    local address goes, SOCKS header included, to the DNS gateway. *)
Theorem socks_udp_stale_dest o l con c r local remote ptr data : sinv o l → s_submit_ok o r local remote false data →
  s_conns o !! con = Some c → local_addr (s_conaddr c) = local → s_dest c = dnsgw o → out_have (udp_send_writer c) = true →
  ∃ o', SocksUdpGwClient_SubmitPacket r local remote false ptr data o =
    Some ((), o', [SSend con (dnsgw o) (socks_packet false remote data)]).
Proof.
  intros Hinv Hok Hc El Ed Ho.
  destruct (wp_inv _ _ _ (s_submit_spec o l r local remote false ptr data Hinv Hok)) as ([] & o' & es & E & l' & Hi & _ & Hs).
  exists o'. rewrite E. do 2 f_equal. subst local.
  assert (∀ con' c', s_conns o !! con' = Some c' → local_addr (s_conaddr c') = local_addr (s_conaddr c) → con' = con ∧ c' = c) as Huniq.
  { intros con' c' Hc' El'. assert (con' = con) as -> by (by eapply (local_inj o l con' con c' c)). simplify_eq. done. }
  inversion Hs as [l1 con' l2 c' w o2 _ Hc' El' _ _ _ | con' c' o2 Hc' El' Ho' | con' o2 es2 Hnew | o2 es2 Hnew]; subst.
  - destruct (Huniq con' c' Hc' El') as [-> ->]. by rewrite Ed.
  - destruct (Huniq con' c' Hc' El') as [-> ->]. congruence.
  - exfalso. by apply (Hnew con c Hc).
  - exfalso. by apply (Hnew con c Hc).
Qed.

(** Freeing the client frees every connection, but not the job a connection
    was created with. *)
Theorem socks_udp_free o l : sinv o l →
  ∃ o' es, SocksUdpGwClient_Free o = Some ((), o', es) ∧ s_conns o' = ∅ ∧ s_num_connections o' = 0 ∧
    ∀ con, SRelease con RJob ∉ es.
Proof.
  intros Hinv.
  assert (wp SocksUdpGwClient_Free (λ _ o' es, sinv o' [] ∧ ∀ con, SRelease con RJob ∉ es) o) as Hw.
  { unfold SocksUdpGwClient_Free. apply wp_bind, wp_get. apply (s_free_connections_spec l); [done |].
    rewrite (s_num _ _ Hinv). unfold zlen. lia. }
  apply wp_inv in Hw as ([] & o' & es & E & Hi & Hes). exists o', es. split_and!; [done | | apply (s_num _ _ Hi) | done].
  apply map_eq. intros x. rewrite lookup_empty. destruct (s_conns o' !! x) eqn:Ex; [| done].
  assert (x ∈ @nil addr) by (apply (s_dom _ _ Hi); eauto). set_solver.
Qed.

End client.

(** ** Example: a DNS query, then another packet from the same local address *)

Definition ex_server : BAddr := BADDR_IPV4 (hton32 0x7F000001) (hton16 1080).
Definition ex_dnsgw : BAddr := BADDR_IPV4 (hton32 0x7F000001) (hton16 8153).
Definition ex_results : init_results := mk_init_results (Some 7%nat) true true true true.

Definition sex_init : SocksUdpGwClient (list addr) :=
  mk_SocksUdpGwClient 40 62 2 ex_server ex_dnsgw [] ∅ LinkedList1_Init 0 ∅ ∅.

Definition sex_events : list sevent :=
  [SESubmit ex_results ex_local ex_dns true 0 [1; 2; 3]; SEReady 7%nat (replicate 40 0); SEFirstJob 7%nat [1; 2; 3];
   SEReady 7%nat (replicate 40 0)].

Definition sex_ready : SocksUdpGwClient (list addr) := default sex_init (srun sex_init sex_events).
Definition sex_con : sconnection :=
  mk_sconnection (mk_conaddr ex_local ex_dns) 0 3 true ex_dnsgw (mk_BufferWriter true (replicate 40 0) 40 false).

Lemma sex_init_eq : SocksUdpGwClient_Init 0 40 2 ex_server ex_dnsgw = Some sex_init.
Proof. vm_compute. reflexivity. Qed.

Lemma sex_legal : slegal_run sex_init sex_events.
Proof.
  split; [split; [apply ex_wf | apply ex_wf | vm_compute; discriminate | by intros con [= <-]; left | reflexivity] |].
  intros o' cs E. vm_compute in E. injection E as <- <-.
  split; [eexists; split; [vm_compute; reflexivity | split; vm_compute; reflexivity] |].
  intros o' cs E. vm_compute in E. injection E as <- <-.
  split; [split; [by vm_compute |]; intros c Ec; vm_compute in Ec; injection Ec as <-; split; vm_compute; discriminate |].
  intros o' cs E. vm_compute in E. injection E as <- <-.
  split; [eexists; split; [vm_compute; reflexivity | split; vm_compute; reflexivity] | done].
Qed.

Lemma sex_inv : ∃ l, sinv sex_ready l.
Proof.
  destruct (s_init_inv 40 2 ex_server ex_dnsgw sex_init ltac:(done) ltac:(done) sex_init_eq) as [Hi0 Hp0].
  destruct (srun_inv sex_events sex_init [] Hi0) as (o' & l & E & Hi & _); [by intros x Hx; rewrite Hp0 in Hx | apply sex_legal |].
  exists l. unfold sex_ready. by rewrite E.
Qed.

Lemma sex_lookup : s_conns sex_ready !! 7%nat = Some sex_con.
Proof. vm_compute. reflexivity. Qed.

Lemma sex_jobs : s_pending sex_ready = ∅.
Proof. vm_compute. reflexivity. Qed.

Lemma sex_submit_ok : s_submit_ok sex_ready (mk_init_results None true true true true) ex_local ex_v6 false [9; 9].
Proof. split; [apply ex_wf | apply ex_wf | vm_compute; discriminate | done | apply sex_jobs]. Qed.

Lemma sex_recv_ok payload : zlen payload ≤ 40 → wf_bytes payload →
  s_recv_ok sex_ready 7%nat sex_con (socks_packet (s_is_dns sex_con) ex_dns payload).
Proof. intros Hl Hw. split; [apply sex_lookup | etransitivity; [exact Hl |]; vm_compute; discriminate | done | by rewrite sex_jobs]. Qed.

Lemma socks_udp_table_witness : ∃ l o' l' es,
  SocksUdpGwClient_SubmitPacket (mk_init_results None true true true true) ex_local ex_v6 false 0 [9; 9] sex_ready = Some ((), o', es) ∧
  sinv o' l' ∧ s_submitted sex_ready (mk_init_results None true true true true) (mk_conaddr ex_local ex_v6) false 0 [9; 9] l l' o' es.
Proof. destruct sex_inv as [l Hl]. exists l. apply (socks_udp_table sex_ready l _ _ _ _ _ _ Hl sex_submit_ok). Defined.

Lemma socks_udp_echo_witness : ∃ o',
  dgram_handler_received 7%nat [5; 6] sex_ready = Some ((), o', [SRecvDone 7%nat; SReceived ex_local ex_dns [5; 6]]).
Proof.
  destruct sex_inv as [l Hl].
  apply (socks_udp_echo sex_ready l 7%nat sex_con ex_dns [5; 6] Hl);
    [apply sex_recv_ok; [vm_compute; discriminate | repeat constructor; vm_compute; (reflexivity || discriminate)]
    | apply ex_wf | apply ex_wf | vm_compute; discriminate].
Defined.

Lemma socks_udp_invariant_witness : ∃ o' l, srun sex_init sex_events = Some o' ∧ sinv o' l ∧ sjobs_ok o'.
Proof. apply (socks_udp_invariant 40 2 ex_server ex_dnsgw sex_init sex_events); [done | done | apply sex_init_eq | apply sex_legal]. Defined.

Definition sex_socks : SocksUdpGwClient (list addr) := s_con_update 7%nat (λ c, c <| s_is_dns := false |>) sex_ready.
Definition sex_socks_con : sconnection := sex_con <| s_is_dns := false |>.

Lemma socks_udp_overflow_witness : s_connection_send 7%nat (replicate 40 0) sex_socks = None.
Proof.
  destruct sex_inv as [l Hl].
  apply (socks_udp_overflow sex_socks l 7%nat sex_socks_con (replicate 40 0));
    [eapply sinv_alter; [exact Hl | apply sex_lookup | done |] | vm_compute; reflexivity | done | vm_compute; reflexivity].
  destruct (s_con _ _ Hl 7%nat sex_con sex_lookup). by split.
Defined.

Lemma socks_udp_stale_dest_witness : ∃ o',
  SocksUdpGwClient_SubmitPacket (mk_init_results None true true true true) ex_local ex_v6 false 0 [9; 9] sex_ready =
    Some ((), o', [SSend 7%nat ex_dnsgw (socks_packet false ex_v6 [9; 9])]).
Proof.
  destruct sex_inv as [l Hl].
  apply (socks_udp_stale_dest sex_ready l 7%nat sex_con _ ex_local ex_v6 0 [9; 9] Hl sex_submit_ok sex_lookup); done.
Defined.

Lemma socks_udp_free_witness : ∃ o' es, SocksUdpGwClient_Free sex_ready = Some ((), o', es) ∧ s_conns o' = ∅.
Proof.
  destruct sex_inv as [l Hl]. destruct (socks_udp_free sex_ready l Hl) as (o' & es & E & Hc & _). exists o', es. split; [exact E | exact Hc].
Defined.

(** A table of one connection: a packet of one local address, and, before the job of
    its connection has run, a packet of another one. *)
Definition sex_single : SocksUdpGwClient (list addr) := mk_SocksUdpGwClient 40 62 1 ex_server ex_dnsgw [] ∅ LinkedList1_Init 0 ∅ ∅.
Definition sex_evict : list sevent :=
  [SESubmit ex_results ex_local ex_dns true 0 [1; 2; 3]; SESubmit (mk_init_results (Some 8%nat) true true true true) ex_dns ex_local false 0 [4]].

(** The connection that is released leaves its job in the queue, and when the loop
    executes it, its memory is used although it was freed. *)
Theorem socks_udp_dangling_job : ∃ o, srun sex_single sex_evict = Some o ∧ s_conns o !! 7%nat = None ∧ 7%nat ∈ s_pending o ∧
  sstep (SEFirstJob 7%nat [1; 2; 3]) o = None.
Proof.
  destruct (srun sex_single sex_evict) as [o |] eqn:E; [| exfalso; vm_compute in E; discriminate E]. exists o. split; [reflexivity |].
  assert ((λ o, (s_conns o !! 7%nat, bool_decide (7%nat ∈ s_pending o), sstep (SEFirstJob 7%nat [1; 2; 3]) o)) <$> srun sex_single sex_evict =
    Some (None, true, None)) as E2 by (vm_compute; reflexivity).
  rewrite E in E2. injection E2 as E2 E3 E4. split; [exact E2 |]. split; [by apply bool_decide_eq_true in E3 | exact E4].
Qed.
