(* ===== verification/Tun2SocksUdp.v ===== *)
(** * The packet path of tun2socks (tun2socks/tun2socks.c)

    Packets read from the device: UDP goes to the relay of
    SocksUdpGwAndroid.v, the rest to the TCP/IP stack. Packets written to the
    device: the replies of the relay, for which the IP and UDP headers are built
    here, and the packets of the stack, which come in chains of buffers. The stack
    (lwIP) and the device are parameters: what they answer is an argument, what
    they are asked is an event. *)
From S2P Require Import Prelude ByteOrder IpProto BAddr LinkedLists SearchTree UdpGwClient SocksUdpGwAndroid.

(** The command-line options the packet path reads (whether the pointer is set),
    and the MTU of the device. *)
Record tun_options := mk_tun_options {
  opt_udpgw_remote_server_addr : bool;
  opt_netif_ip6addr : bool;
  opt_dnsgw : bool;
  device_mtu : Z
}.

(** [udp_mtu] as [main] computes it. *)
Definition compute_udp_mtu (opt : tun_options) : Z :=
  let mtu := device_mtu opt - (sizeof_ipv4_header + sizeof_udp_header) in
  let ip6_mtu := device_mtu opt - (sizeof_ipv6_header + sizeof_udp_header) in
  let mtu := if opt_netif_ip6addr opt && (mtu <? ip6_mtu) then ip6_mtu else mtu in
  if mtu <? 0 then 0 else mtu.

(** ** Parsing packets of the device *)

Definition sizeof_DnsHeader : Z := 12.

(** The header is read in place; [qr] is the top bit of byte 2, [rcode] the low
    half of byte 3. *)
Definition dns_query (data : bytes) : bool :=
  if zlen data <? sizeof_DnsHeader then false else
  (Z.shiftr (byte_at data 2) 7 =? 0) && (Z.land (byte_at data 3) 15 =? 0) &&
  (le_val (mem_read data 6 2) =? 0) && (le_val (mem_read data 8 2) =? 0).

(** A UDP packet of the device: the place of its payload, addresses, payload. *)
Record udp_in := mk_udp_in {
  in_offset : Z;
  in_local : BAddr;
  in_remote : BAddr;
  in_is_dns : bool;
  in_data : bytes
}.

Definition parse_device_ipv4 (opt : tun_options) (data : bytes) : option udp_in :=
  if (zlen data <? sizeof_ipv4_header) || negb (byte_at data 9 =? IPV4_PROTOCOL_UDP) then None else
  '(iph, ip_payload) ← ipv4_check data;
  '(udph, payload) ← udp_check ip_payload;
  let checksum_in_packet := udp_cksum udph in
  let checksum_computed := udp_checksum (udph <| udp_cksum := 0 |>) payload (source_address iph) (destination_address iph) in
  if negb (checksum_in_packet =? checksum_computed) then None else
  let is_dns := opt_dnsgw opt && (dest_port udph =? hton16 53) in
  let is_dns := if is_dns then dns_query payload else is_dns in
  Some (mk_udp_in (IPV4_GET_IHL iph * 4 + sizeof_udp_header)
    (BAddr_InitIPv4 (source_address iph) (source_port udph)) (BAddr_InitIPv4 (destination_address iph) (dest_port udph)) is_dns payload).

Definition parse_device_ipv6 (opt : tun_options) (data : bytes) : option udp_in :=
  if negb (opt_netif_ip6addr opt) then None else
  if (zlen data <? sizeof_ipv6_header) || negb (byte_at data 6 =? IPV6_NEXT_UDP) then None else
  '(iph, ip_payload) ← ipv6_check data;
  '(udph, payload) ← udp_check ip_payload;
  let checksum_in_packet := udp_cksum udph in
  let checksum_computed := udp_ip6_checksum (udph <| udp_cksum := 0 |>) payload (source_address6 iph) (destination_address6 iph) in
  if negb (checksum_in_packet =? checksum_computed) then None else
  Some (mk_udp_in (sizeof_ipv6_header + sizeof_udp_header)
    (BAddr_InitIPv6 (source_address6 iph) (source_port udph)) (BAddr_InitIPv6 (destination_address6 iph) (dest_port udph)) false payload).

Definition ip_version (data : bytes) : Z := if 0 <? zlen data then Z.shiftr (byte_at data 0) 4 else 0.

(** The packet that [process_device_udp_packet] submits; [None] is [goto fail]. *)
Definition parse_device_udp (opt : tun_options) (data : bytes) : option udp_in :=
  if negb (opt_udpgw_remote_server_addr opt) then None else
  p ← (if ip_version data =? 4 then parse_device_ipv4 opt data
       else if ip_version data =? 6 then parse_device_ipv6 opt data else None);
  if compute_udp_mtu opt <? zlen (in_data p) then None else Some p.

(** ** State and effects *)

Record tun {T : Type} := mk_tun { quitting : bool; device_write_buf : bytes; relay : SocksUdpGwClient T }.
Arguments tun T : clear implicits.
Arguments mk_tun {T}.
#[export] Instance tun_eta T : Eta (tun T) := λ s, mk_tun (quitting s) (device_write_buf s) (relay s).

Inductive tun_call :=
| TReadDone
| TRelay (c : scall)
| TSend (packet : bytes)
| TPbufAlloc
| TPbufFree
| TIpInput (packet : bytes)
| TIp6Input (packet : bytes).

Section tun.
Context {T : Type} `{SearchTree T}.

Abbreviation TM := (M (tun T) tun_call).

(** An operation of the relay, on its own state. *)
Definition on_relay {A} (m : M (SocksUdpGwClient T) scall A) : TM A := λ s,
  match m (relay s) with
  | Some (a, r, es) => Some (a, s <| relay := r |>, TRelay <$> es)
  | None => None
  end.

(** [memcpy] to [device_write_buf + off], inside the buffer. *)
Definition copy_to_device_buf (off : Z) (d : bytes) : TM unit :=
  s ← get;
  assert ((0 <=? off) && (off + zlen d <=? zlen (device_write_buf s)));;
  modify (λ s, s <| device_write_buf := mem_write (device_write_buf s) off d |>).

Definition send_device_buf (len : Z) : TM unit :=
  s ← get; emit (TSend (ztake len (device_write_buf s))).

(** ** From the device *)

(** The packet is at [ptr] in memory. *)
Definition process_device_udp_packet (opt : tun_options) (r : init_results) (ptr : Z) (data : bytes) : TM bool :=
  match parse_device_udp opt data with
  | None => mret false
  | Some p =>
      on_relay (SocksUdpGwClient_SubmitPacket r (in_local p) (in_remote p) (in_is_dns p) (ptr + in_offset p) (in_data p));;
      mret true
  end.

(** Whether the stack accepts the packet is its answer [ok]. *)
Definition netif_input_func (opt : tun_options) (ok : bool) (p : bytes) : TM bool :=
  if ip_version p =? 4 then emit (TIpInput p);; mret ok
  else if (ip_version p =? 6) && opt_netif_ip6addr opt then emit (TIp6Input p);; mret ok
  else emit TPbufFree;; mret true.

(** [alloc] is the result of [pbuf_alloc]. *)
Definition device_read_handler_send (opt : tun_options) (r : init_results) (alloc ok : bool) (ptr : Z) (data : bytes) : TM unit :=
  s ← get;
  assert (negb (quitting s));;
  emit TReadDone;;
  udp ← process_device_udp_packet opt r ptr data;
  if (udp : bool) then mret () else
  if UINT16_MAX <? zlen data then mret () else
  if negb alloc then mret () else
  emit TPbufAlloc;;
  taken ← netif_input_func opt ok data;
  when (negb taken) (emit TPbufFree).

(** ** To the device *)

(** The copies of the chunks of a packet into the buffer; [None] when it is full. *)
Fixpoint output_chunks (opt : tun_options) (ps : list bytes) (len : Z) : TM (option Z) :=
  match ps with
  | [] => mret (Some len)
  | p :: ps =>
      if device_mtu opt - len <? zlen p then mret None else
      copy_to_device_buf len p;;
      output_chunks opt ps (len + zlen p)
  end.

(** The packet is the chain of buffers [p :: ps]. *)
Definition common_netif_output (opt : tun_options) (p : bytes) (ps : list bytes) : TM unit :=
  s ← get;
  if quitting s then mret () else
  match ps with
  | [] => if device_mtu opt <? zlen p then mret () else emit (TSend p)
  | _ :: _ =>
      r ← output_chunks opt (p :: ps) 0;
      match r with None => mret () | Some len => send_device_buf len end
  end.

Definition build_ipv4 (src dst : Z) (len : Z) : ipv4_header :=
  let iph := mk_ipv4_header (IPV4_MAKE_VERSION_IHL sizeof_ipv4_header) (hton8 0) (hton16 (sizeof_ipv4_header + sizeof_udp_header + len))
    (hton16 0) (hton16 0) (hton8 64) (hton8 IPV4_PROTOCOL_UDP) (hton16 0) src dst in
  iph <| ip_checksum := ipv4_checksum iph [] 0 |>.

Definition build_ipv6 (src dst : bytes) (len : Z) : ipv6_header :=
  mk_ipv6_header (hton8 (Z.shiftl 6 4)) (hton8 0) (hton16 0) (hton16 (sizeof_udp_header + len)) (hton8 IPV6_NEXT_UDP) (hton8 64) src dst.

Definition udpgw_client_handler_received (opt : tun_options) (local remote : BAddr) (data : bytes) : TM unit :=
  assert (opt_udpgw_remote_server_addr opt);;
  assert (has_ip_type local);;
  assert (BAddr_type local =? BAddr_type remote);;
  match local, remote with
  | BADDR_IPV4 local_ip local_port, BADDR_IPV4 remote_ip remote_port =>
      if (UINT16_MAX - (sizeof_ipv4_header + sizeof_udp_header) <? zlen data) ||
         (device_mtu opt - (sizeof_ipv4_header + sizeof_udp_header) <? zlen data) then mret () else
      let iph := build_ipv4 remote_ip local_ip (zlen data) in
      let udph := mk_udp_header remote_port local_port (hton16 (sizeof_udp_header + zlen data)) (hton16 0) in
      let udph := udph <| udp_cksum := udp_checksum udph data (source_address iph) (destination_address iph) |> in
      copy_to_device_buf 0 (ipv4_header_mem iph);;
      copy_to_device_buf sizeof_ipv4_header (udp_header_mem udph);;
      copy_to_device_buf (sizeof_ipv4_header + sizeof_udp_header) data;;
      send_device_buf (sizeof_ipv4_header + sizeof_udp_header + zlen data)
  | BADDR_IPV6 local_ip local_port, BADDR_IPV6 remote_ip remote_port =>
      if negb (opt_netif_ip6addr opt) then mret () else
      if (UINT16_MAX - sizeof_udp_header <? zlen data) ||
         (device_mtu opt - (sizeof_ipv6_header + sizeof_udp_header) <? zlen data) then mret () else
      let iph := build_ipv6 remote_ip local_ip (zlen data) in
      let udph := mk_udp_header remote_port local_port (hton16 (sizeof_udp_header + zlen data)) (hton16 0) in
      let udph := udph <| udp_cksum := udp_ip6_checksum udph data (source_address6 iph) (destination_address6 iph) |> in
      copy_to_device_buf 0 (ipv6_header_mem iph);;
      copy_to_device_buf sizeof_ipv6_header (udp_header_mem udph);;
      copy_to_device_buf (sizeof_ipv6_header + sizeof_udp_header) data;;
      send_device_buf (sizeof_ipv6_header + sizeof_udp_header + zlen data)
  | _, _ => stuck
  end.

(** ** The device buffer *)

Lemma ztake_mem_write m off d : 0 ≤ off → off + zlen d ≤ zlen m → ztake (off + zlen d) (mem_write m off d) = ztake off m ++ d.
Proof.
  intros H1 H2. pose proof (zlen_nonneg d). unfold mem_write. rewrite app_assoc. apply ztake_app_exact.
  rewrite zlen_app, zlen_ztake by lia. lia.
Qed.

(** Appending to what the buffer holds. *)
Lemma wp_append opt s pre d (Q : unit → tun T → list tun_call → Prop) :
  zlen (device_write_buf s) = device_mtu opt → ztake (zlen pre) (device_write_buf s) = pre → zlen pre + zlen d ≤ device_mtu opt →
  (∀ s', quitting s' = quitting s → relay s' = relay s → zlen (device_write_buf s') = device_mtu opt →
    ztake (zlen (pre ++ d)) (device_write_buf s') = pre ++ d → Q () s' []) →
  wp (copy_to_device_buf (zlen pre) d) Q s.
Proof.
  intros Hl Hp Hf HQ. pose proof (zlen_nonneg pre). unfold copy_to_device_buf. do 2 wp_go. wp_step.
  wp_step; [apply andb_true_iff; split; apply Z.leb_le; lia |]. wp_step. apply HQ; simpl; try done.
  - rewrite zlen_mem_write; lia.
  - rewrite zlen_app, ztake_mem_write by lia. by rewrite Hp.
Qed.

(** ** Building and parsing *)





Lemma ipv4_mem_version iph : 0 ≤ version4_ihl4 iph < 256 → byte_at (ipv4_header_mem iph) 0 = version4_ihl4 iph.
Proof. intros H0. unfold ipv4_header_mem, byte_at. simpl. apply Z.mod_small. lia. Qed.
Lemma ipv6_mem_version iph : 0 ≤ version4_tc4 iph < 256 → byte_at (ipv6_header_mem iph) 0 = version4_tc4 iph.
Proof. intros H0. unfold ipv6_header_mem, byte_at. simpl. apply Z.mod_small. lia. Qed.










(** ** What parsing accepts *)

Lemma mem_read_mem_read d a n b k : 0 ≤ a → 0 ≤ b → 0 ≤ k → b + k ≤ n → mem_read (mem_read d a n) b k = mem_read d (a + b) k.
Proof.
  intros. unfold mem_read. rewrite zdrop_ztake, ztake_ztake, zdrop_zdrop by lia. f_equal; lia || (f_equal; lia).
Qed.

Lemma ipv4_check_inv data h p : ipv4_check data = Some (h, p) →
  let hl := IPV4_GET_IHL h * 4 in let tl := ntoh16 (total_length h) in
  h = ipv4_header_of data ∧ 20 ≤ hl ∧ hl ≤ tl ≤ zlen data ∧ p = mem_read data hl (tl - hl).
Proof.
  intros Hc. cbv zeta. unfold ipv4_check, sizeof_ipv4_header in Hc. repeat (case_match; [discriminate |]; b2p). injection Hc as <- <-.
  pose proof (ihl_range (ipv4_header_of data)). rewrite (u16_small (IPV4_GET_IHL (ipv4_header_of data) * 4)) in * by lia.
  split_and!; first [done | lia].
Qed.

Lemma le_val_mem data off n : wf_bytes data → 0 ≤ n → 0 ≤ le_val (mem_read data off n) < 256 ^ n.
Proof. intros Hw Hn. apply le_val_range; [by apply wf_mem_read | by apply zlen_mem_read_le]. Qed.

(** A packet to submit: real addresses of one kind, a payload inside the packet. *)
Record udp_in_ok (opt : tun_options) (data : bytes) (p : udp_in) : Prop := {
  ui_local : BAddr_wf (in_local p) ∧ has_ip_type (in_local p) = true;
  ui_remote : BAddr_wf (in_remote p) ∧ has_ip_type (in_remote p) = true;
  ui_type : BAddr_type (in_local p) = BAddr_type (in_remote p);
  ui_data : in_data p = mem_read data (in_offset p) (zlen (in_data p));
  ui_place : 0 ≤ in_offset p ∧ in_offset p + zlen (in_data p) ≤ zlen data;
  ui_mtu : zlen (in_data p) ≤ compute_udp_mtu opt
}.

Lemma payload_place data a n u payload : 0 ≤ a → 0 ≤ n → a + n ≤ zlen data → udp_check (mem_read data a n) = Some (u, payload) →
  u = udp_header_of (mem_read data a n) ∧ payload = mem_read data (a + 8) (zlen payload) ∧ a + 8 + zlen payload ≤ zlen data.
Proof.
  intros Ha Hn Hf (Hl & -> & Hu & ->)%udp_check_inv. rewrite (zlen_mem_read data a n) in * by lia.
  rewrite mem_read_mem_read by lia. rewrite !zlen_mem_read by lia. split_and!; [done | done | lia].
Qed.

Lemma parse_ipv4_ok opt data p : wf_bytes data → parse_device_ipv4 opt data = Some p → zlen (in_data p) ≤ compute_udp_mtu opt →
  udp_in_ok opt data p.
Proof.
  intros Hw Hp Hm. unfold parse_device_ipv4 in Hp. case_match; [done |].
  destruct (ipv4_check data) as [[iph ip_payload] |] eqn:E1; [| done]. rewrite option_bind_Some in Hp.
  destruct (udp_check ip_payload) as [[udph payload] |] eqn:E2; [| done]. rewrite option_bind_Some in Hp.
  case_match; [done |]. injection Hp as <-. cbn [in_data] in Hm.
  apply ipv4_check_inv in E1 as (-> & Hhl & Htl & ->). apply payload_place in E2 as (-> & Epl & Hpl); [| lia..].
  split; cbn [in_local in_remote in_offset in_data in_is_dns]; unfold sizeof_udp_header.
  - split; [| done]. split; [apply (le_val_mem data 12 4 Hw); lia | apply le_val_mem; [by apply wf_mem_read | lia]].
  - split; [| done]. split; [apply (le_val_mem data 16 4 Hw); lia | apply le_val_mem; [by apply wf_mem_read | lia]].
  - done.
  - exact Epl.
  - lia.
  - done.
Qed.

Lemma parse_ipv6_ok opt data p : wf_bytes data → parse_device_ipv6 opt data = Some p → zlen (in_data p) ≤ compute_udp_mtu opt →
  udp_in_ok opt data p.
Proof.
  intros Hw Hp Hm. unfold parse_device_ipv6 in Hp. case_match; [done |]. case_match; [done |].
  destruct (ipv6_check data) as [[iph ip_payload] |] eqn:E1; [| done]. rewrite option_bind_Some in Hp.
  destruct (udp_check ip_payload) as [[udph payload] |] eqn:E2; [| done]. rewrite option_bind_Some in Hp.
  case_match; [done |]. injection Hp as <-. cbn [in_data] in Hm.
  apply ipv6_check_inv in E1 as (Hl & -> & Htl & ->). pose proof (hton16_range (payload_length (ipv6_header_of data))) as Hr.
  change (hton16 (payload_length (ipv6_header_of data))) with (ntoh16 (payload_length (ipv6_header_of data))) in Hr.
  apply payload_place in E2 as (-> & Epl & Hpl); [| lia..].
  assert (∀ off, off + 16 ≤ 40 → 0 ≤ off → zlen (ztake 16 (mem_read data off 16)) = 16) as Hz.
  { intros off Ho1 Ho2. rewrite zlen_ztake, zlen_mem_read; lia. }
  split; cbn [in_local in_remote in_offset in_data in_is_dns]; unfold sizeof_ipv6_header, sizeof_udp_header.
  - split; [| done]. split_and!; [apply Hz; lia | apply wf_bytes_ztake; by apply wf_mem_read | |]; (apply le_val_mem; [by apply wf_mem_read | lia]).
  - split; [| done]. split_and!; [apply Hz; lia | apply wf_bytes_ztake; by apply wf_mem_read | |]; (apply le_val_mem; [by apply wf_mem_read | lia]).
  - done.
  - exact Epl.
  - lia.
  - done.
Qed.

Lemma parse_device_ok opt data p : wf_bytes data → parse_device_udp opt data = Some p → udp_in_ok opt data p.
Proof.
  intros Hw Hp. unfold parse_device_udp in Hp. case_match; [done |]. apply bind_Some in Hp as (p' & Hp & Hm).
  case_match; [done |]. injection Hm as ->. b2p. repeat case_match; [by apply parse_ipv4_ok | by apply parse_ipv6_ok | done].
Qed.

(** ** Packets of the device *)

Lemma wp_on_relay {A} (m : M (SocksUdpGwClient T) scall A) (P : A → SocksUdpGwClient T → list scall → Prop)
    (Q : A → tun T → list tun_call → Prop) s :
  wp m P (relay s) → (∀ a r es, P a r es → Q a (s <| relay := r |>) (TRelay <$> es)) → wp (on_relay m) Q s.
Proof. unfold wp, on_relay. destruct (m (relay s)) as [[[a r] es] |]; [| done]. intros Hp HQ. by apply HQ. Qed.

(** What the relay asks of a packet that parsing lets through: the payload leaves
    room for the header the relay puts in front of it, the memory it gets is free,
    no first packet is pending. *)
Record relay_ready (o : SocksUdpGwClient T) (r : init_results) (p : udp_in) : Prop := {
  rr_room : overhead (in_is_dns p) (in_remote p) + zlen (in_data p) ≤ s_udp_mtu o;
  rr_malloc : ∀ con, malloc_ok r = Some con → s_conns o !! con = None ∨
    s_num_connections o = s_max_connections o ∧ LinkedList1_GetFirst (s_connections_list o) = Some con;
  rr_jobs : s_pending o = ∅
}.

Lemma relay_submit_ok opt o r data p : udp_in_ok opt data p → relay_ready o r p →
  s_submit_ok o r (in_local p) (in_remote p) (in_is_dns p) (in_data p).
Proof. intros [] []. by split. Qed.

(** The calls the stack and the device see for a packet that is not UDP. *)
Definition stack_calls (opt : tun_options) (alloc ok : bool) (data : bytes) : list tun_call :=
  if (UINT16_MAX <? zlen data) || negb alloc then [] else
  TPbufAlloc :: (
    if ip_version data =? 4 then TIpInput data :: (if ok then [] else [TPbufFree])
    else if (ip_version data =? 6) && opt_netif_ip6addr opt then TIp6Input data :: (if ok then [] else [TPbufFree])
    else [TPbufFree]).

Lemma device_read_spec opt s l r alloc ok ptr data : sinv (relay s) l → quitting s = false → wf_bytes data →
  (∀ p, parse_device_udp opt data = Some p → relay_ready (relay s) r p) →
  wp (device_read_handler_send opt r alloc ok ptr data) (λ _ s' es,
    match parse_device_udp opt data with
    | Some p => ∃ o' l' cs, s' = s <| relay := o' |> ∧ es = TReadDone :: (TRelay <$> cs) ∧ sinv o' l' ∧ udp_in_ok opt data p ∧
        s_submitted (relay s) r (mk_conaddr (in_local p) (in_remote p)) (in_is_dns p) (ptr + in_offset p) (in_data p) l l' o' cs
    | None => s' = s ∧ es = TReadDone :: stack_calls opt alloc ok data
    end) s.
Proof.
  intros Hinv Hq Hw Hready. unfold device_read_handler_send. do 2 wp_go. wp_step. wp_step; [by rewrite Hq |]. do 2 wp_go.
  apply wp_bind. unfold process_device_udp_packet. destruct (parse_device_udp opt data) as [p |] eqn:Ep.
  - pose proof (parse_device_ok opt data p Hw Ep) as Hok. apply wp_bind.
    eapply wp_on_relay; [by eapply s_submit_spec; [exact Hinv | eapply relay_submit_ok; [exact Hok | by apply Hready]] |].
    intros _ o' es (l' & Hi & _ & Hs). do 2 wp_step. exists o', l', es. split_and!; try done. simpl. by rewrite !app_nil_r.
  - wp_step. unfold stack_calls, netif_input_func. wp_step; [rewrite (proj2 (Z.ltb_lt _ _)) by lia; wp_step; done |].
    rewrite (proj2 (Z.ltb_ge _ _)) by lia. cbn [orb]. destruct alloc; cbn [negb]; [| wp_step; done]. do 2 wp_step.
    destruct (ip_version data =? 4); [| destruct ((ip_version data =? 6) && opt_netif_ip6addr opt)];
      repeat wp_step; destruct ok; done.
Qed.

(** ** Packets of the stack *)

Lemma output_chunks_spec opt ps : ∀ s pre, zlen (device_write_buf s) = device_mtu opt → ztake (zlen pre) (device_write_buf s) = pre →
  wp (output_chunks opt ps (zlen pre)) (λ r s' es, es = [] ∧ quitting s' = quitting s ∧ relay s' = relay s ∧
    zlen (device_write_buf s') = device_mtu opt ∧
    if zlen (pre ++ concat ps) <=? device_mtu opt
    then r = Some (zlen (pre ++ concat ps)) ∧ ztake (zlen (pre ++ concat ps)) (device_write_buf s') = pre ++ concat ps
    else r = None) s.
Proof.
  induction ps as [| p ps IH]; intros s pre Hl Ht; cbn [output_chunks concat].
  - wp_step. rewrite app_nil_r. split_and!; try done. rewrite (proj2 (Z.leb_le _ _)); [done |].
    rewrite <- Ht, zlen_ztake, Hl. pose proof (zlen_nonneg pre). lia.
  - pose proof (zlen_nonneg (concat ps)). pose proof (zlen_nonneg pre). wp_step.
    + wp_step. split_and!; try done. rewrite !zlen_app, (proj2 (Z.leb_gt _ _)); [done | lia].
    + apply wp_bind, (wp_append opt s pre p); [done | done | lia |]. intros s1 Hq1 Hr1 Hl1 Ht1.
      rewrite <- zlen_app. eapply wp_mono; [by apply (IH s1 (pre ++ p)) |].
      intros r s' es (-> & Hq & Hr & Hl' & Hres). rewrite <- app_assoc in Hres. split_and!; try done; congruence.
Qed.

Lemma netif_output_spec opt s p ps : zlen (device_write_buf s) = device_mtu opt →
  wp (common_netif_output opt p ps) (λ _ s' es, quitting s' = quitting s ∧ relay s' = relay s ∧
    zlen (device_write_buf s') = device_mtu opt ∧
    es = if negb (quitting s) && (zlen (concat (p :: ps)) <=? device_mtu opt) then [TSend (concat (p :: ps))] else []) s.
Proof.
  intros Hl. unfold common_netif_output. do 2 wp_go. destruct (quitting s) eqn:Eq; [wp_step; by rewrite Eq |]. cbn [negb andb].
  destruct ps as [| p2 ps].
  - cbn [concat]. rewrite app_nil_r. wp_step; wp_step; rewrite ?Eq; [rewrite (proj2 (Z.leb_gt _ _)) by lia; done |].
    rewrite (proj2 (Z.leb_le _ _)) by lia. done.
  - apply wp_bind. eapply wp_mono; [apply (output_chunks_spec opt (p :: p2 :: ps) s []); [done | done] |].
    intros r s' es (-> & Hq & Hr & Hl' & Hres). cbn [app concat] in Hres |- *. generalize dependent (p ++ p2 ++ concat ps).
    intros q Hres. destruct (zlen q <=? device_mtu opt).
    + destruct Hres as [-> Ht]. unfold send_device_buf. do 2 wp_go. wp_step. rewrite Ht. split_and!; try done; congruence.
    + rewrite Hres. wp_step. split_and!; try done; congruence.
Qed.

(** ** Theorems *)


(** [C38] Every packet the device delivers is taken exactly once. A UDP packet that
    parses, and for which the relay is ready ([relay_ready]: its payload leaves room for
    the header that the relay puts in front of it in a buffer of the UDP MTU, no first
    packet waits, and [malloc] gives unused memory), is submitted to the relay with real addresses and a payload inside
    the packet, the table of the relay changes as its specification says and stays
    consistent; anything else leaves the state alone and goes to the stack, or
    nowhere, and its buffer is freed exactly when the stack did not take it. *)
Theorem tun_device_packet opt s l r alloc ok ptr data : sinv (relay s) l → quitting s = false → wf_bytes data →
  (∀ p, parse_device_udp opt data = Some p → relay_ready (relay s) r p) →
  ∃ s' es, device_read_handler_send opt r alloc ok ptr data s = Some ((), s', es) ∧
    match parse_device_udp opt data with
    | Some p => ∃ o' l' cs, s' = s <| relay := o' |> ∧ es = TReadDone :: (TRelay <$> cs) ∧ sinv o' l' ∧ udp_in_ok opt data p ∧
        s_submitted (relay s) r (mk_conaddr (in_local p) (in_remote p)) (in_is_dns p) (ptr + in_offset p) (in_data p) l l' o' cs
    | None => s' = s ∧ es = TReadDone :: stack_calls opt alloc ok data
    end.
Proof.
  intros Hinv Hq Hw Hready.
  destruct (wp_inv _ _ _ (device_read_spec opt s l r alloc ok ptr data Hinv Hq Hw Hready)) as ([] & s' & es & E & Hres).
  by exists s', es.
Qed.

(** Output of the stack: a packet in a chain of buffers leaves as the
    concatenation of the buffers exactly when that fits the device, as a packet in
    one buffer does, and the copy never leaves the device buffer; nothing is sent
    while the program is quitting. *)
Theorem tun_netif_output opt s p ps : zlen (device_write_buf s) = device_mtu opt →
  ∃ s', common_netif_output opt p ps s =
    Some ((), s', if negb (quitting s) && (zlen (concat (p :: ps)) <=? device_mtu opt) then [TSend (concat (p :: ps))] else []) ∧
    zlen (device_write_buf s') = device_mtu opt ∧ relay s' = relay s.
Proof.
  intros Hl. destruct (wp_inv _ _ _ (netif_output_spec opt s p ps Hl)) as ([] & s' & es & E & _ & Hr & Hb & ->). by exists s'.
Qed.

End tun.

(** ** Examples *)

Definition ex_opt : tun_options := mk_tun_options true true true 100.
Definition ex_tun : tun (list addr) := mk_tun false (replicate 100 0) sex_ready.


(** The packet of a UDP datagram from the local address, as the device delivers it. *)
Definition ex_device_packet : bytes :=
  match udpgw_client_handler_received ex_opt ex_dns ex_local [9; 9] ex_tun with Some (_, _, [TSend p]) => p | _ => [] end.

Lemma tun_device_packet_witness : ∃ s' es,
  device_read_handler_send ex_opt (mk_init_results None true true true true) true true 0 ex_device_packet ex_tun = Some ((), s', es) ∧
  ∃ o' l', s' = ex_tun <| relay := o' |> ∧ sinv o' l'.
Proof.
  destruct sex_inv as [l Hl].
  destruct (tun_device_packet ex_opt ex_tun l (mk_init_results None true true true true) true true 0 ex_device_packet Hl)
    as (s' & es & E & Hres).
  - reflexivity.
  - apply (bool_decide_unpack _). vm_compute. exact I.
  - intros p Ep. vm_compute in Ep. injection Ep as <-. split; [vm_compute; discriminate | done | apply sex_jobs].
  - assert (∃ p, parse_device_udp ex_opt ex_device_packet = Some p) as [p Ep] by (eexists; vm_compute; reflexivity).
    rewrite Ep in Hres. destruct Hres as (o' & l' & cs & -> & -> & Hi & _). eexists _, _. split; [exact E |]. exists o', l'. split; [reflexivity | exact Hi].
Defined.

Lemma tun_netif_output_witness : ∃ s', common_netif_output ex_opt [69; 0] [[1; 2]; [3]] ex_tun = Some ((), s', [TSend [69; 0; 1; 2; 3]]).
Proof. destruct (tun_netif_output ex_opt ex_tun [69; 0] [[1; 2]; [3]]) as (s' & E & _); [reflexivity |]. exists s'. exact E. Defined.
