(* ===== verification/Tun2SocksTcp.v ===== *)
(** * The TCP relay of tun2socks (tun2socks/tun2socks.c)

    One accepted connection: the state [struct tcp_client] and the callbacks of the
    TCP stack (lwIP) and of the SOCKS client that drive it. The program and its
    environment are modelled separately:
    - [tcp_client] is the structure, [None] once it is freed, so that a use after
      the release makes a run undefined;
    - [env] is what the stack and the SOCKS client hold: whether the protocol
      control block and the SOCKS client exist, the callbacks set on the control
      block, the stream operations in progress, and the answers they will give.
      An operation on an object that does not exist, or a second operation on a
      stream that is busy, makes a run undefined;
    - [fire] and [step] deliver an event when the contract of the environment
      allows it, so that a run is any list of events.
    The jobs that run inside a callback of the stack between [SYNC_FROMHERE] and
    [SYNC_COMMIT] are an argument of the callback. The variable of misc/dead.h, with
    which a callback learns what these jobs did to its client, is a cell in memory
    that lives as long as the callback. *)
From S2P Require Import Prelude.

Definition TCP_WND : Z := 4 * 1460.
Definition CLIENT_SOCKS_RECV_BUF_SIZE : Z := 8192.
Definition ERR_OK : Z := 0.
Definition ERR_MEM : Z := -1.
Definition ERR_ABRT : Z := -13.

Record tcp_client := mk_tcp_client {
  aborted : bool;
  dead_aborted : option nat;
  client_closed : bool;
  buf : bytes;
  buf_used : Z;
  socks_up : bool;
  socks_closed : bool;
  socks_recv_buf : bytes;
  socks_recv_buf_used : Z;
  socks_recv_buf_sent : Z;
  socks_recv_waiting : bool;
  socks_recv_tcp_pending : Z
}.
#[export] Instance tcp_client_eta : Eta tcp_client := λ c,
  mk_tcp_client (aborted c) (dead_aborted c) (client_closed c) (buf c) (buf_used c) (socks_up c) (socks_closed c) (socks_recv_buf c)
    (socks_recv_buf_used c) (socks_recv_buf_sent c) (socks_recv_waiting c) (socks_recv_tcp_pending c).

(** The environment. [unacked] counts the bytes written to the control block and
    not yet acknowledged. The logs hold the bytes taken from the local side, the
    bytes the SOCKS server was sent, the bytes received from it while the local
    side was connected and the bytes written to the local side; the flags say
    that a side went away by itself. *)
Record env := mk_env {
  pcb_open : bool;
  cb_err : bool;
  cb_recv : bool;
  cb_sent : bool;
  unacked : Z;
  socks_open : bool;
  socks_ready : bool;
  send_busy : option bytes;
  recv_busy : bool;
  log_in : bytes;
  log_out : bytes;
  log_rin : bytes;
  log_rout : bytes;
  peer_gone : bool;
  server_gone : bool
}.
#[export] Instance env_eta : Eta env := λ e,
  mk_env (pcb_open e) (cb_err e) (cb_recv e) (cb_sent e) (unacked e) (socks_open e) (socks_ready e) (send_busy e) (recv_busy e)
    (log_in e) (log_out e) (log_rin e) (log_rout e) (peer_gone e) (server_gone e).

(** The answers of the stack, in the order it is asked; when a list is used up, it
    has room and succeeds. *)
Record answers := mk_answers { ans_close : list Z; ans_sndbuf : list Z; ans_write : list Z; ans_output : list Z }.
#[export] Instance answers_eta : Eta answers := λ a, mk_answers (ans_close a) (ans_sndbuf a) (ans_write a) (ans_output a).

Record sys := mk_sys { client : option tcp_client; num_clients : Z; en : env; ans : answers; cells : gmap nat Z }.
#[export] Instance sys_eta : Eta sys := λ s, mk_sys (client s) (num_clients s) (en s) (ans s) (cells s).

Inductive tcall := TcpAbort | TcpClose | SocksFree | ClientFree | ListAppend | ListRemove.

Abbreviation TM := (M sys tcall).

(** ** The structure and the environment *)

Definition cl : TM tcp_client := s ← get; lift (client s).
Definition upd (f : tcp_client → tcp_client) : TM unit := modify (λ s, s <| client := f <$> client s |>).
Definition genv : TM env := s ← get; mret (en s).
Definition uenv (f : env → env) : TM unit := modify (λ s, s <| en := f (en s) |>).

(** An operation on the control block, or on the SOCKS client, needs it. *)
Definition need_pcb : TM unit := e ← genv; assert (pcb_open e).
Definition need_socks : TM unit := e ← genv; assert (socks_open e).

Definition answer (get_l : answers → list Z) (put_l : list Z → answers → answers) (default : Z) : TM Z :=
  s ← get;
  match get_l (ans s) with
  | [] => mret default
  | x :: l => modify (λ s, s <| ans := put_l l (ans s) |>);; mret x
  end.

Definition tcp_err (on : bool) : TM unit := need_pcb;; uenv (λ e, e <| cb_err := on |>).
Definition tcp_recv (on : bool) : TM unit := need_pcb;; uenv (λ e, e <| cb_recv := on |>).
Definition tcp_sent (on : bool) : TM unit := need_pcb;; uenv (λ e, e <| cb_sent := on |>).
Definition tcp_recved (n : Z) : TM unit := need_pcb;; assert (0 <? n).

Definition tcp_abort : TM unit :=
  need_pcb;; uenv (λ e, e <| pcb_open := false |> <| peer_gone := true |>);; emit TcpAbort.

(** The control block belongs to the stack when [tcp_close] succeeds. *)
Definition tcp_close : TM Z :=
  need_pcb;;
  err ← answer ans_close (λ l a, a <| ans_close := l |>) ERR_OK;
  when (err =? ERR_OK) (uenv (λ e, e <| pcb_open := false |>);; emit TcpClose);;
  mret err.

Definition tcp_sndbuf : TM Z :=
  need_pcb;; n ← answer ans_sndbuf (λ l a, a <| ans_sndbuf := l |>) UINT16_MAX; mret (u16 n).

Definition tcp_write (data : bytes) : TM Z :=
  need_pcb;;
  err ← answer ans_write (λ l a, a <| ans_write := l |>) ERR_OK;
  when (err =? ERR_OK) (uenv (λ e, e <| unacked := unacked e + zlen data |> <| log_rout := log_rout e ++ data |>));;
  mret err.

Definition tcp_output : TM Z := need_pcb;; answer ans_output (λ l a, a <| ans_output := l |>) ERR_OK.

Definition BSocksClient_Free : TM unit :=
  need_socks;; uenv (λ e, e <| socks_open := false |> <| send_busy := None |> <| recv_busy := false |>);; emit SocksFree.

Definition StreamPassInterface_Sender_Send (data : bytes) : TM unit :=
  need_socks;; e ← genv; assert (socks_ready e && bool_decide (send_busy e = None) && (0 <? zlen data));;
  uenv (λ e, e <| send_busy := Some data |>).

Definition StreamRecvInterface_Receiver_Recv : TM unit :=
  need_socks;; e ← genv; assert (socks_ready e && negb (recv_busy e));;
  uenv (λ e, e <| recv_busy := true |>).

(** ** misc/dead.h *)

(** A fresh cell. *)
Definition DEAD_ENTER : TM (nat * option nat) :=
  c ← cl; s ← get;
  let n := fresh (dom (cells s)) in
  modify (λ s, s <| cells := <[n := 0]> (cells s) |>);;
  upd (λ c, c <| dead_aborted := Some n |>);;
  mret (n, dead_aborted c).

Definition store_cell (n : nat) (v : Z) : TM unit :=
  s ← get; _ ← lift (cells s !! n); modify (λ s, s <| cells := <[n := v]> (cells s) |>).

Definition DEAD_KILL_WITH (v : Z) : TM unit :=
  c ← cl; match dead_aborted c with None => mret () | Some n => store_cell n v end.

(** The value is [DEAD_KILLED]; the cell is gone with its scope. *)
Definition DEAD_LEAVE2 (d : nat * option nat) : TM Z :=
  s ← get;
  dead ← lift (cells s !! d.1);
  when (dead =? 0) (_ ← cl; upd (λ c, c <| dead_aborted := d.2 |>));;
  match d.2 with None => mret () | Some m => store_cell m dead end;;
  modify (λ s, s <| cells := delete d.1 (cells s) |>);;
  mret dead.

(** ** Release *)

Definition client_dealloc : TM unit :=
  c ← cl;
  assert (client_closed c);;
  assert (socks_closed c);;
  s ← get;
  assert (0 <? num_clients s);;
  modify (λ s, s <| num_clients := num_clients s - 1 |>);;
  emit ListRemove;;
  when (negb (aborted c)) (DEAD_KILL_WITH (-1));;
  modify (λ s, s <| client := None |>);;
  emit ClientFree.

Definition client_abort_pcb : TM unit :=
  c ← cl;
  assert (negb (aborted c));;
  tcp_abort;;
  upd (λ c, c <| aborted := true |>);;
  DEAD_KILL_WITH 1.

(** The three functions call each other, each time with one more side closed;
    [fuel] bounds the calls. *)
Fixpoint client_handle_freed_client (fuel : nat) : TM unit :=
  match fuel with
  | O => stuck
  | S fuel =>
      c ← cl;
      assert (negb (client_closed c));;
      upd (λ c, c <| client_closed := true |>);;
      if (0 <? buf_used c) && negb (socks_closed c) then mret ()
      else if negb (socks_closed c) then client_free_socks fuel
      else client_dealloc
  end
with client_free_client (fuel : nat) : TM unit :=
  match fuel with
  | O => stuck
  | S fuel =>
      c ← cl;
      assert (negb (client_closed c));;
      tcp_err false;; tcp_recv false;; tcp_sent false;;
      err ← tcp_close;
      when (negb (err =? ERR_OK)) client_abort_pcb;;
      client_handle_freed_client fuel
  end
with client_free_socks (fuel : nat) : TM unit :=
  match fuel with
  | O => stuck
  | S fuel =>
      c ← cl;
      assert (negb (socks_closed c));;
      when (socks_up c && negb (client_closed c)) (tcp_recv false);;
      BSocksClient_Free;;
      upd (λ c, c <| socks_closed := true |>);;
      if socks_up c && ((0 <=? socks_recv_buf_used c) || (0 <? socks_recv_tcp_pending c)) && negb (client_closed c) then mret ()
      else if negb (client_closed c) then client_free_client fuel
      else client_dealloc
  end.

(** A function closes one side and calls the next at most three times. *)
Definition call_depth : nat := 4.

Definition client_abort_client : TM unit :=
  c ← cl;
  assert (negb (client_closed c));;
  tcp_err false;; tcp_recv false;; tcp_sent false;;
  client_abort_pcb;;
  client_handle_freed_client call_depth.

Definition client_murder : TM unit :=
  c ← cl;
  when (negb (client_closed c))
    (tcp_err false;; tcp_recv false;; tcp_sent false;; client_abort_pcb;; upd (λ c, c <| client_closed := true |>));;
  c ← cl;
  when (negb (socks_closed c)) (BSocksClient_Free;; upd (λ c, c <| socks_closed := true |>));;
  client_dealloc.

(** ** From the local side to the server *)

Definition client_send_to_socks : TM unit :=
  c ← cl;
  assert (negb (socks_closed c));;
  assert (socks_up c);;
  assert (0 <? buf_used c);;
  StreamPassInterface_Sender_Send (ztake (buf_used c) (buf c)).

Definition client_socks_send_handler_done (data_len : Z) : TM unit :=
  c ← cl;
  assert (negb (socks_closed c));;
  assert (socks_up c);;
  assert (0 <? buf_used c);;
  assert ((0 <? data_len) && (data_len <=? buf_used c));;
  upd (λ c, c <| buf := mem_write (buf c) 0 (mem_read (buf c) data_len (buf_used c - data_len)) |>
              <| buf_used := buf_used c - data_len |>);;
  when (negb (client_closed c)) (tcp_recved data_len);;
  c ← cl;
  if 0 <? buf_used c then StreamPassInterface_Sender_Send (ztake (buf_used c) (buf c))
  else if client_closed c then client_free_socks call_depth
  else mret ().

(** ** From the server to the local side *)

Definition client_socks_recv_initiate : TM unit :=
  c ← cl;
  assert (negb (client_closed c));;
  assert (negb (socks_closed c));;
  assert (socks_up c);;
  assert (socks_recv_buf_used c =? -1);;
  StreamRecvInterface_Receiver_Recv.

(** How the loop of [client_socks_recv_send_out] ends. *)
Inductive write_result := WDone | WAborted.

(** The [do]/[while] loop; every turn but the last writes at least one byte. *)
Fixpoint send_out_loop (fuel : nat) : TM write_result :=
  match fuel with
  | O => stuck
  | S fuel =>
      c ← cl;
      sndbuf ← tcp_sndbuf;
      let to_write := Z.min (socks_recv_buf_used c - socks_recv_buf_sent c) sndbuf in
      if to_write =? 0 then mret WDone else
      err ← tcp_write (mem_read (socks_recv_buf c) (socks_recv_buf_sent c) to_write);
      if negb (err =? ERR_OK) then
        if err =? ERR_MEM then mret WDone else client_abort_client;; mret WAborted
      else
        upd (λ c, c <| socks_recv_buf_sent := socks_recv_buf_sent c + to_write |>
                    <| socks_recv_tcp_pending := socks_recv_tcp_pending c + to_write |>);;
        c ← cl;
        if socks_recv_buf_sent c <? socks_recv_buf_used c then send_out_loop fuel else mret WDone
  end.

(** [true] is the return value [-1]. *)
Definition client_socks_recv_send_out : TM bool :=
  c ← cl;
  assert (negb (client_closed c));;
  assert (socks_up c);;
  assert (0 <? socks_recv_buf_used c);;
  assert (socks_recv_buf_sent c <? socks_recv_buf_used c);;
  assert (negb (socks_recv_waiting c));;
  r ← send_out_loop (S (Z.to_nat (socks_recv_buf_used c)));
  match r with
  | WAborted => mret true
  | WDone =>
      err ← tcp_output;
      if negb (err =? ERR_OK) then client_abort_client;; mret true else
      c ← cl;
      if socks_recv_buf_sent c <? socks_recv_buf_used c then
        if socks_recv_tcp_pending c =? 0 then client_abort_client;; mret true else
        upd (λ c, c <| socks_recv_waiting := true |>);; mret false
      else
        upd (λ c, c <| socks_recv_buf_used := -1 |>);; mret false
  end.

Definition client_socks_recv_handler_done (data_len : Z) : TM unit :=
  c ← cl;
  assert ((0 <? data_len) && (data_len <=? CLIENT_SOCKS_RECV_BUF_SIZE));;
  assert (negb (socks_closed c));;
  assert (socks_up c);;
  assert (socks_recv_buf_used c =? -1);;
  if client_closed c then mret () else
  upd (λ c, c <| socks_recv_buf_used := data_len |> <| socks_recv_buf_sent := 0 |> <| socks_recv_waiting := false |>);;
  r ← client_socks_recv_send_out;
  if (r : bool) then mret () else
  c ← cl;
  when (socks_recv_buf_used c =? -1) client_socks_recv_initiate.

(** ** The SOCKS client *)

Definition socks_event_up : TM unit :=
  c ← cl;
  assert (negb (socks_closed c));;
  assert (negb (socks_up c));;
  upd (λ c, c <| socks_recv_buf_used := -1 |> <| socks_recv_tcp_pending := 0 |>);;
  when (negb (client_closed c)) (tcp_sent true);;
  upd (λ c, c <| socks_up := true |>);;
  c ← cl;
  when (0 <? buf_used c) client_send_to_socks;;
  when (negb (client_closed c)) client_socks_recv_initiate.

Definition socks_event_error : TM unit := c ← cl; assert (negb (socks_closed c));; client_free_socks call_depth.

Definition socks_event_closed : TM unit :=
  c ← cl; assert (negb (socks_closed c));; assert (socks_up c);; client_free_socks call_depth.

(** What the SOCKS client reports: it is up, it failed, the server closed, data
    was sent, data was received. *)
Inductive socks_job := JUp | JError | JClosed | JSendDone (n : Z) | JRecv (data : bytes).

(** Delivers a report when the SOCKS client can make it. The data of a stream
    operation has to stay in the buffer while the operation lasts; received data
    is in the buffer when it is reported. *)
Definition fire (j : socks_job) : TM unit :=
  e ← genv;
  match j with
  | JUp => when (socks_open e && negb (socks_ready e)) (uenv (λ e, e <| socks_ready := true |>);; socks_event_up)
  | JError => when (socks_open e) (uenv (λ e, e <| server_gone := true |>);; socks_event_error)
  | JClosed => when (socks_open e && socks_ready e) (uenv (λ e, e <| server_gone := true |>);; socks_event_closed)
  | JSendDone n =>
      match send_busy e with
      | None => mret ()
      | Some d =>
          when ((0 <? n) && (n <=? zlen d))
            (c ← cl; assert (bool_decide (ztake (zlen d) (buf c) = d));;
             uenv (λ e, e <| send_busy := None |> <| log_out := log_out e ++ ztake n d |>);;
             client_socks_send_handler_done n)
      end
  | JRecv data =>
      when (recv_busy e && (0 <? zlen data) && (zlen data <=? CLIENT_SOCKS_RECV_BUF_SIZE))
        (_ ← cl;
         uenv (λ e, e <| recv_busy := false |> <| log_rin := if pcb_open e then log_rin e ++ data else log_rin e |>);;
         upd (λ c, c <| socks_recv_buf := mem_write (socks_recv_buf c) 0 data |>);;
         client_socks_recv_handler_done (zlen data))
  end.

(** The jobs between [SYNC_FROMHERE] and [SYNC_COMMIT]. *)
Fixpoint synchronize (js : list socks_job) : TM unit :=
  match js with [] => mret () | j :: js => fire j;; synchronize js end.

(** ** Callbacks of the stack *)

Definition client_err_func : TM unit :=
  c ← cl; assert (negb (client_closed c));; client_handle_freed_client call_depth.

(** [pbuf_free] of a packet whose bytes were copied. *)
Definition pbuf_taken (data : bytes) : TM unit := uenv (λ e, e <| log_in := log_in e ++ data |>).

Definition abort_result (killed : Z) : Z := if 0 <? killed then ERR_ABRT else ERR_OK.

(** A null packet is [None]. *)
Definition client_recv_func (p : option bytes) (js : list socks_job) : TM Z :=
  c ← cl;
  assert (negb (client_closed c));;
  d ← DEAD_ENTER;
  match p with
  | None => client_free_client call_depth;; k ← DEAD_LEAVE2 d; mret (abort_result k)
  | Some data =>
      assert (0 <? zlen data);;
      if TCP_WND - buf_used c <? zlen data then DEAD_LEAVE2 d;; mret ERR_MEM else
      upd (λ c, c <| buf := mem_write (buf c) (buf_used c) data |> <| buf_used := buf_used c + zlen data |>);;
      pbuf_taken data;;
      c ← cl;
      when ((buf_used c =? zlen data) && socks_up c)
        (assert (negb (socks_closed c));; client_send_to_socks;; synchronize js);;
      k ← DEAD_LEAVE2 d; mret (abort_result k)
  end.

Definition client_sent_func (len : Z) (js : list socks_job) : TM Z :=
  c ← cl;
  assert (negb (client_closed c));;
  assert (socks_up c);;
  assert ((0 <? len) && (len <=? socks_recv_tcp_pending c));;
  d ← DEAD_ENTER;
  upd (λ c, c <| socks_recv_tcp_pending := socks_recv_tcp_pending c - len |>);;
  c ← cl;
  (if 0 <? socks_recv_buf_used c then
     assert (socks_recv_waiting c);;
     assert (socks_recv_buf_sent c <? socks_recv_buf_used c);;
     upd (λ c, c <| socks_recv_waiting := false |>);;
     r ← client_socks_recv_send_out;
     if (r : bool) then mret () else
     c ← cl;
     assert (0 <? socks_recv_tcp_pending c);;
     when ((socks_recv_buf_used c =? -1) && negb (socks_closed c)) (client_socks_recv_initiate;; synchronize js)
   else when (socks_closed c && (socks_recv_tcp_pending c =? 0)) (client_free_client call_depth));;
  k ← DEAD_LEAVE2 d; mret (abort_result k).

(** [malloc] and [BSocksClient_Init] may fail; the fields that are not set keep
    what the memory [m] holds. *)
Definition listener_accept_func (malloc_ok init_ok : bool) (m : tcp_client) (js : list socks_job) : TM Z :=
  if negb malloc_ok then mret ERR_MEM else
  if negb init_ok then mret ERR_MEM else
  uenv (λ e, e <| socks_open := true |>);;
  modify (λ s, s <| client := Some m |>);;
  upd (λ c, c <| aborted := false |> <| dead_aborted := None |>);;
  emit ListAppend;;
  s ← get;
  assert (0 <=? num_clients s);;
  modify (λ s, s <| num_clients := num_clients s + 1 |>);;
  upd (λ c, c <| client_closed := false |>);;
  tcp_err true;; tcp_recv true;;
  upd (λ c, c <| buf_used := 0 |> <| socks_up := false |> <| socks_closed := false |>);;
  d ← DEAD_ENTER;
  synchronize js;;
  k ← DEAD_LEAVE2 d; mret (abort_result k).

(** ** Runs *)

Inductive event :=
| LErr
| LRecv (data : bytes) (js : list socks_job)
| LFin
| LSent (n : Z) (js : list socks_job)
| LJob (j : socks_job)
| LMurder.

(** Delivers an event when the contract of the stack allows it: callbacks are set
    and removed with [tcp_err], [tcp_recv] and [tcp_sent], acknowledgements are of
    bytes written before, an error report means the control block is gone. The
    value is what the callback returned. *)
Definition step (ev : event) : TM (option Z) :=
  e ← genv;
  match ev with
  | LErr =>
      if pcb_open e && cb_err e
      then uenv (λ e, e <| pcb_open := false |> <| peer_gone := true |>);; client_err_func;; mret None else mret None
  | LRecv data js =>
      if pcb_open e && cb_recv e && (0 <? zlen data) then r ← client_recv_func (Some data) js; mret (Some r) else mret None
  | LFin =>
      if pcb_open e && cb_recv e
      then uenv (λ e, e <| peer_gone := true |>);; r ← client_recv_func None []; mret (Some r) else mret None
  | LSent n js =>
      if pcb_open e && cb_sent e && (0 <? n) && (n <=? unacked e)
      then uenv (λ e, e <| unacked := unacked e - n |>);; r ← client_sent_func n js; mret (Some r) else mret None
  | LJob j => fire j;; mret None
  | LMurder =>
      s ← get;
      match client s with
      | None => mret None
      | Some _ => uenv (λ e, e <| peer_gone := true |> <| server_gone := true |>);; client_murder;; mret None
      end
  end.

Fixpoint run (evs : list event) : TM unit := match evs with [] => mret () | ev :: evs => step ev;; run evs end.

(** ** Invariant *)

Definition rest (c : tcp_client) : bytes :=
  if socks_up c && (0 <=? socks_recv_buf_used c)
  then mem_read (socks_recv_buf c) (socks_recv_buf_sent c) (socks_recv_buf_used c - socks_recv_buf_sent c) else [].

(** What holds whatever the local side does: the SOCKS client and its operations,
    the data on its way to the server. *)
Record core (c : tcp_client) (e : env) : Prop := {
  i_socks : socks_open e = negb (socks_closed c);
  i_ready : socks_closed c = false → socks_ready e = socks_up c;
  i_buf : zlen (buf c) = TCP_WND ∧ 0 ≤ buf_used c ≤ TCP_WND;
  i_rbuf : zlen (socks_recv_buf c) = CLIENT_SOCKS_RECV_BUF_SIZE;
  i_send : socks_closed c = false → match send_busy e with
    | Some d => socks_up c = true ∧ 0 < zlen d ≤ buf_used c ∧ ztake (zlen d) (buf c) = d
    | None => socks_up c = true → buf_used c = 0
    end;
  i_idle : socks_closed c = true → send_busy e = None ∧ recv_busy e = false ∧ server_gone e = true;
  i_recving : recv_busy e = true → socks_up c = true ∧ socks_recv_buf_used c = -1;
  i_login : log_in e = log_out e ++ ztake (buf_used c) (buf c);
  i_prefix : ∃ x, log_rin e = log_rout e ++ x
}.

(** The local side while it is connected. *)
Record connected (c : tcp_client) (e : env) : Prop := {
  i_err : cb_err e = true;
  i_recv : cb_recv e = negb (socks_closed c);
  i_sent : cb_sent e = socks_up c;
  i_listen : socks_closed c = false → socks_up c = true → socks_recv_buf_used c = -1 → recv_busy e = true;
  i_down : socks_up c = false → unacked e = 0;
  i_pending : socks_up c = true → 0 ≤ socks_recv_tcp_pending c ∧ socks_recv_tcp_pending c = unacked e ∧
    (socks_recv_buf_used c = -1 ∨
     0 ≤ socks_recv_buf_sent c < socks_recv_buf_used c ∧ socks_recv_buf_used c ≤ CLIENT_SOCKS_RECV_BUF_SIZE ∧
     socks_recv_waiting c = true ∧ 0 < socks_recv_tcp_pending c);
  i_drain : socks_closed c = true → socks_up c = true ∧ (0 ≤ socks_recv_buf_used c ∨ 0 < socks_recv_tcp_pending c);
  i_logr : log_rin e = log_rout e ++ rest c
}.

Record cinv (c : tcp_client) (e : env) : Prop := {
  i_core : core c e;
  i_pcb : pcb_open e = negb (client_closed c);
  i_one : client_closed c = true → socks_closed c = false;
  i_ab : aborted c = true → client_closed c = true;
  i_conn : client_closed c = false → connected c e;
  i_wait : client_closed c = true → 0 < buf_used c ∧ peer_gone e = true
}.

(** The end: everything is released, and data is only lost when a side was gone. *)
Record ended (e : env) : Prop := {
  d_pcb : pcb_open e = false;
  d_socks : socks_open e = false;
  d_ops : send_busy e = None ∧ recv_busy e = false;
  d_out : ∃ x, log_in e = log_out e ++ x;
  d_rout : ∃ x, log_rin e = log_rout e ++ x;
  d_all_out : server_gone e = false → log_out e = log_in e;
  d_all_rout : peer_gone e = false → log_rout e = log_rin e
}.

(** The variable a callback on the way watches: after the calls [es] of the
    callback it holds [1] when the control block was aborted, [-1] when the client
    was freed without, and [0] otherwise. Outside a callback there is none. *)
Definition watched (D : option nat) (es : list tcall) (s : sys) : Prop :=
  match D with
  | None => ∀ c, client s = Some c → aborted c = false → dead_aborted c = None
  | Some n => ∃ v, cells s !! n = Some v ∧
      ((v = 0 ∧ (TcpAbort ∉ es) ∧ ∃ c, client s = Some c ∧ aborted c = false ∧ dead_aborted c = Some n) ∨
       (v = 1 ∧ TcpAbort ∈ es ∧ ∀ c, client s = Some c → aborted c = true) ∨
       (v = -1 ∧ (TcpAbort ∉ es) ∧ client s = None))
  end.

(** The state between two jobs; [n] clients exist besides this one. *)
Definition inv (n : Z) (s : sys) : Prop :=
  0 ≤ n ∧
  match client s with
  | Some c => cinv c (en s) ∧ num_clients s = n + 1
  | None => ended (en s) ∧ num_clients s = n
  end.

(** ** The watched variable *)

Definition same_dead (oc oc' : option tcp_client) : Prop :=
  match oc, oc' with
  | Some c, Some c' => aborted c' = aborted c ∧ dead_aborted c' = dead_aborted c
  | None, None => True
  | _, _ => False
  end.

Lemma watched_ext D es s s' : cells s' = cells s → same_dead (client s) (client s') → watched D es s → watched D es s'.
Proof.
  intros Hc Hd. unfold watched. destruct D as [n |].
  - rewrite Hc. intros (v & Hv & H). exists v. split; [done |].
    destruct (client s) as [c |], (client s') as [c' |]; try done. destruct Hd as [Ea Ed].
    destruct H as [(? & ? & c0 & [= <-] & ? & ?) | [(? & ? & Hx) | (? & ? & ?)]].
    + left. split_and!; [done.. |]. exists c'. by rewrite Ea, Ed.
    + right. left. split_and!; [done.. |]. intros c0 [= <-]. rewrite Ea. by apply Hx.
    + done.
  - destruct (client s) as [c |], (client s') as [c' |]; try done. destruct Hd as [Ea Ed].
    intros H c0 [= <-]. rewrite Ea, Ed. by apply H.
Qed.

Lemma watched_app D es es' s : TcpAbort ∉ es' → watched D es s → watched D (es ++ es') s.
Proof.
  intros Hn. unfold watched. destruct D as [n |]; [| done]. intros (v & Hv & H). exists v. split; [done |].
  destruct H as [(? & ? & ?) | [(? & ? & ?) | (? & ? & ?)]]; [left | right; left | right; right]; split_and!; (done || set_solver).
Qed.

(** ** Rules for the operations *)

Lemma wp_cl {c} {nc : Z} {e a m} (Q : tcp_client → sys → list tcall → Prop) : Q c (mk_sys (Some c) nc e a m) [] → wp cl Q (mk_sys (Some c) nc e a m).
Proof. done. Qed.
Lemma wp_upd {c} {nc : Z} {e a m} f (Q : unit → sys → list tcall → Prop) : Q () (mk_sys (Some (f c)) nc e a m) [] → wp (upd f) Q (mk_sys (Some c) nc e a m).
Proof. done. Qed.
Lemma wp_genv {nc e a m} oc (Q : env → sys → list tcall → Prop) : Q e (mk_sys oc nc e a m) [] → wp genv Q (mk_sys oc nc e a m).
Proof. done. Qed.
Lemma wp_uenv {nc e a m} oc f (Q : unit → sys → list tcall → Prop) : Q () (mk_sys oc nc (f e) a m) [] → wp (uenv f) Q (mk_sys oc nc e a m).
Proof. done. Qed.
Lemma wp_need_pcb {c} {nc : Z} {e a m} (Q : unit → sys → list tcall → Prop) : pcb_open e = true → Q () (mk_sys (Some c) nc e a m) [] → wp need_pcb Q (mk_sys (Some c) nc e a m).
Proof. intros Hp HQ. unfold need_pcb. apply wp_bind, wp_genv, wp_assert; done. Qed.
Lemma wp_need_socks {c} {nc : Z} {e a m} (Q : unit → sys → list tcall → Prop) : socks_open e = true → Q () (mk_sys (Some c) nc e a m) [] → wp need_socks Q (mk_sys (Some c) nc e a m).
Proof. intros Hp HQ. unfold need_socks. apply wp_bind, wp_genv, wp_assert; done. Qed.
Lemma wp_tcp_err {c} {nc : Z} {e a m} on (Q : unit → sys → list tcall → Prop) : pcb_open e = true →
  Q () (mk_sys (Some c) nc (e <| cb_err := on |>) a m) [] → wp (tcp_err on) Q (mk_sys (Some c) nc e a m).
Proof. intros. by apply wp_bind, wp_need_pcb. Qed.
Lemma wp_tcp_recv {c} {nc : Z} {e a m} on (Q : unit → sys → list tcall → Prop) : pcb_open e = true →
  Q () (mk_sys (Some c) nc (e <| cb_recv := on |>) a m) [] → wp (tcp_recv on) Q (mk_sys (Some c) nc e a m).
Proof. intros. by apply wp_bind, wp_need_pcb. Qed.
Lemma wp_tcp_sent {c} {nc : Z} {e a m} on (Q : unit → sys → list tcall → Prop) : pcb_open e = true →
  Q () (mk_sys (Some c) nc (e <| cb_sent := on |>) a m) [] → wp (tcp_sent on) Q (mk_sys (Some c) nc e a m).
Proof. intros. by apply wp_bind, wp_need_pcb. Qed.
Lemma wp_tcp_recved {c} {nc : Z} {e a m} n (Q : unit → sys → list tcall → Prop) : pcb_open e = true → 0 < n → Q () (mk_sys (Some c) nc e a m) [] → wp (tcp_recved n) Q (mk_sys (Some c) nc e a m).
Proof. intros. apply wp_bind, wp_need_pcb; [done |]. apply wp_assert; [by apply Z.ltb_lt | done]. Qed.
Lemma wp_socks_free {c} {nc : Z} {e a m} (Q : unit → sys → list tcall → Prop) : socks_open e = true →
  Q () (mk_sys (Some c) nc (e <| socks_open := false |> <| send_busy := None |> <| recv_busy := false |>) a m) [SocksFree] →
  wp BSocksClient_Free Q (mk_sys (Some c) nc e a m).
Proof. intros. by apply wp_bind, wp_need_socks. Qed.

(** The answer to a question is some number; only the answers left change. *)
Lemma wp_answer {c} {nc : Z} {e a m} g p d (Q : Z → sys → list tcall → Prop) :
  (∀ x a', Q x (mk_sys (Some c) nc e a' m) []) → wp (answer g p d) Q (mk_sys (Some c) nc e a m).
Proof. intros HQ. unfold answer. apply wp_bind, wp_get. simpl. destruct (g a); [apply wp_ret, HQ |]. apply wp_bind, wp_modify, wp_ret, HQ. Qed.

Lemma wp_tcp_close {c} {nc : Z} {e a m} (Q : Z → sys → list tcall → Prop) : pcb_open e = true →
  (∀ a', Q ERR_OK (mk_sys (Some c) nc (e <| pcb_open := false |>) a' m) [TcpClose]) →
  (∀ err a', err ≠ ERR_OK → Q err (mk_sys (Some c) nc e a' m) []) → wp tcp_close Q (mk_sys (Some c) nc e a m).
Proof.
  intros Hp H1 H2. unfold tcp_close. apply wp_bind, wp_need_pcb; [done |]. apply wp_bind, wp_answer. intros x a'. 
  destruct (x =? ERR_OK) eqn:E; b2p.
  - subst x. apply wp_bind, wp_when; [intros _ | done]. apply wp_bind, wp_uenv, wp_emit, wp_ret. apply H1.
  - apply wp_bind, wp_when; [intros; lia |]. intros _. by apply wp_ret, H2.
Qed.

Lemma wp_kill {c} {nc : Z} {e a m} v D es c0 e0 a0 (Q : unit → sys → list tcall → Prop) : aborted c0 = false → dead_aborted c = dead_aborted c0 →
  watched D es (mk_sys (Some c0) nc e0 a0 m) →
  (∀ m', (∀ n, D = Some n → m' !! n = Some v) → Q () (mk_sys (Some c) nc e a m') []) → wp (DEAD_KILL_WITH v) Q (mk_sys (Some c) nc e a m).
Proof.
  intros Ha Ed Hw HQ. unfold DEAD_KILL_WITH. apply wp_bind, wp_cl. rewrite Ed. destruct D as [n |]; simpl in Hw.
  - destruct Hw as (w & Hn & [(-> & _ & c' & [= <-] & _ & Hd) | [(_ & _ & H) | (_ & _ & H)]]); [| specialize (H c0 eq_refl); congruence | done].
    rewrite Hd. unfold store_cell. apply wp_bind, wp_get. apply wp_bind. eapply wp_lift; [done |]. apply wp_modify.
    apply HQ. intros n' [= <-]. apply lookup_insert_eq.
  - rewrite (Hw c0 eq_refl Ha). apply wp_ret. by apply HQ.
Qed.

(** Aborting the control block. *)
Lemma wp_abort_pcb {c} {nc : Z} {e a m} D es (Q : unit → sys → list tcall → Prop) : aborted c = false → pcb_open e = true → watched D es (mk_sys (Some c) nc e a m) →
  (∀ m', let s' := mk_sys (Some (c <| aborted := true |>)) nc (e <| pcb_open := false |> <| peer_gone := true |>) a m' in
    watched D (es ++ [TcpAbort]) s' → Q () s' [TcpAbort]) →
  wp client_abort_pcb Q (mk_sys (Some c) nc e a m).
Proof.
  intros Ha Hp Hw HQ. unfold client_abort_pcb. apply wp_bind, wp_cl. apply wp_bind, wp_assert; [by rewrite Ha |].
  apply wp_bind. unfold tcp_abort. apply wp_bind, wp_need_pcb; [done |]. apply wp_bind, wp_uenv, wp_emit.
  apply wp_bind, wp_upd. apply (wp_kill 1 D es c e a); [done | done | done |]. intros m' Hm'. apply HQ.
  destruct D as [n |]; simpl; [| by intros ? [= <-]]. exists 1. split; [by apply Hm' |]. right. left.
  split_and!; [done | set_solver | by intros ? [= <-]].
Qed.


(** ** Release *)

(** What every handler achieves. *)
Definition post (n : Z) (D : option nat) (es0 : list tcall) : unit → sys → list tcall → Prop :=
  λ _ s' es, inv n s' ∧ watched D (es0 ++ es) s'.

Lemma dealloc_none n D es0 c e a m : 0 ≤ n → client_closed c = true → socks_closed c = true → ended e →
  watched D es0 (mk_sys (Some c) (n + 1) e a m) →
  wp client_dealloc (λ u s' es, client s' = None ∧ post n D es0 u s' es) (mk_sys (Some c) (n + 1) e a m).
Proof.
  intros Hn Hc Hs He Hw. unfold client_dealloc. apply wp_bind, wp_cl. apply wp_bind, wp_assert; [done |].
  apply wp_bind, wp_assert; [done |]. apply wp_bind, wp_get. apply wp_bind, wp_assert; [apply Z.ltb_lt; simpl; lia |].
  apply wp_bind, wp_modify. apply wp_bind, wp_emit. cbn [set client num_clients en ans cells sys_eta].
  replace (n + 1 - 1) with n by lia.
  apply wp_bind. apply wp_when; intros Ha; [apply negb_true_iff in Ha | apply negb_false_iff in Ha].
  - apply (wp_kill (-1) D es0 c e a); [done | done | by eapply watched_ext; [| | exact Hw] |]. intros m' Hm'.
    apply wp_bind, wp_modify, wp_emit. split; [done |]. split; [done |]. destruct D as [i |]; [| by intros ? [=]].
    exists (-1). split; [by apply Hm' |]. right. right.
    destruct Hw as (v & _ & [(_ & Hni & _) | [(_ & _ & Hx) | (_ & _ & [=])]]); [| specialize (Hx c eq_refl); congruence].
    split_and!; [done | set_solver | done].
  - apply wp_bind, wp_modify, wp_emit. split; [done |]. split; [done |]. destruct D as [i |]; [| by intros ? [=]].
    destruct Hw as (v & Hv & [(_ & _ & c' & [= <-] & ? & _) | [(-> & Hi & _) | (_ & _ & [=])]]); [congruence |].
    exists 1. split; [exact Hv |]. right. left. split_and!; [done | set_solver | by intros ? [=]].
Qed.

Lemma dealloc_spec n D es0 c e a m : 0 ≤ n → client_closed c = true → socks_closed c = true → ended e →
  watched D es0 (mk_sys (Some c) (n + 1) e a m) → wp client_dealloc (post n D es0) (mk_sys (Some c) (n + 1) e a m).
Proof. intros. eapply wp_mono; [by apply (dealloc_none n D es0) |]. by intros ? ? ? [_ ?]. Qed.

(** The end of a client: both sides are closed, and each loses data only if it
    went away by itself. *)
Lemma core_ended c e : core c e → pcb_open e = false → socks_closed c = true → peer_gone e = true ∨ log_rin e = log_rout e → ended e.
Proof.
  intros Hc Hp Hs Hr. pose proof (i_socks _ _ Hc) as Ho. rewrite Hs in Ho. destruct (i_idle _ _ Hc Hs) as (? & ? & Hg).
  split; try done.
  - eexists. apply (i_login _ _ Hc).
  - apply (i_prefix _ _ Hc).
  - congruence.
  - intros Hpg. destruct Hr; congruence.
Qed.

Lemma core_freed_ended c e : core c e → pcb_open e = false → buf_used c = 0 ∨ server_gone e = true →
  peer_gone e = true ∨ log_rin e = log_rout e →
  ended (e <| socks_open := false |> <| send_busy := None |> <| recv_busy := false |>).
Proof.
  intros Hc Hp Hs Hr. split; try done; simpl.
  - eexists. apply (i_login _ _ Hc).
  - apply (i_prefix _ _ Hc).
  - intros Hg. destruct Hs as [Hb |]; [| congruence]. rewrite (i_login _ _ Hc), Hb, ztake_le0, app_nil_r by lia. done.
  - intros Hpg. destruct Hr; congruence.
Qed.

(** The SOCKS client goes when the local side is gone. *)
Lemma free_socks_gone k n D es0 c e a m : 0 ≤ n → core c e → client_closed c = true → socks_closed c = false → pcb_open e = false →
  buf_used c = 0 ∨ server_gone e = true → peer_gone e = true ∨ log_rin e = log_rout e →
  watched D es0 (mk_sys (Some c) (n + 1) e a m) →
  wp (client_free_socks (S k)) (post n D es0) (mk_sys (Some c) (n + 1) e a m).
Proof.
  intros Hn Hc Hcc Hsc Hp Hb Hr Hw. pose proof (i_socks _ _ Hc) as Ho. rewrite Hsc in Ho. cbn [client_free_socks].
  apply wp_bind, wp_cl. apply wp_bind, wp_assert; [by rewrite Hsc |]. rewrite Hcc, !andb_false_r. cbn [when negb].
  apply wp_bind, wp_ret. apply wp_bind, wp_socks_free; [done |]. apply wp_bind, wp_upd.
  eapply wp_mono; [apply (dealloc_spec n D (es0 ++ [SocksFree])); [done | done | done | by apply (core_freed_ended c) |] |].
  - apply watched_app; [set_solver |]. by eapply watched_ext; [| | exact Hw].
  - intros [] s' es [Hi Hw']. split; [done |]. by rewrite <- app_assoc in Hw'.
Qed.

Lemma core_close c e : core c e → core (c <| client_closed := true |>) e.
Proof. intros []. by split. Qed.

(** The control block is gone. *)
Lemma handle_freed_spec k n D es0 c e a m : 0 ≤ n → core c e → client_closed c = false → pcb_open e = false →
  peer_gone e = true ∨ socks_closed c = true ∧ log_rin e = log_rout e →
  watched D es0 (mk_sys (Some c) (n + 1) e a m) →
  wp (client_handle_freed_client (S (S k))) (post n D es0) (mk_sys (Some c) (n + 1) e a m).
Proof.
  intros Hn Hc Hcc Hp Hr Hw. remember (S k) as k1. cbn [client_handle_freed_client]. apply wp_bind, wp_cl.
  apply wp_bind, wp_assert; [by rewrite Hcc |]. apply wp_bind, wp_upd.
  apply core_close in Hc as Hc'. set (c' := c <| client_closed := true |>) in *.
  assert (watched D es0 (mk_sys (Some c') (n + 1) e a m)) as Hw' by (by eapply watched_ext; [| | exact Hw]).
  destruct (socks_closed c) eqn:Es; cbn [negb]; rewrite ?andb_false_r, ?andb_true_r; cbv iota.
  - apply (dealloc_spec n D es0); [done | done | done | | done]. apply (core_ended c'); [done.. |]. naive_solver.
  - destruct Hr as [Hr | [? _]]; [| done]. destruct (0 <? buf_used c) eqn:Eb; b2p.
    + apply wp_ret. split; [| by rewrite app_nil_r]. split; [done |]. split; [| done]. by split.
    + subst k1. apply free_socks_gone; try done; [left; pose proof (i_buf _ _ Hc); simpl; lia | by left].
Qed.

(** Closing the control block. *)
Lemma free_client_spec k n D es0 c e a m : 0 ≤ n → core c e → client_closed c = false → aborted c = false → pcb_open e = true →
  peer_gone e = true ∨ socks_closed c = true ∧ log_rin e = log_rout e →
  watched D es0 (mk_sys (Some c) (n + 1) e a m) →
  wp (client_free_client (S (S (S k)))) (post n D es0) (mk_sys (Some c) (n + 1) e a m).
Proof.
  intros Hn Hc Hcc Hab Hp Hr Hw. remember (S (S k)) as k1. cbn [client_free_client]. apply wp_bind, wp_cl.
  apply wp_bind, wp_assert; [by rewrite Hcc |]. apply wp_bind, wp_tcp_err; [done |]. apply wp_bind, wp_tcp_recv; [done |].
  apply wp_bind, wp_tcp_sent; [done |]. set (e1 := e <| cb_err := false |> <| cb_recv := false |> <| cb_sent := false |>).
  assert (core c e1) as Hc1 by (destruct Hc; by split).
  apply wp_bind, wp_tcp_close; [done | |].
  - intros a'. apply wp_bind, wp_ret. subst k1.
    eapply wp_mono; [apply (handle_freed_spec k n D (es0 ++ [TcpClose])); try done |].
    + destruct Hc1. by split.
    + apply watched_app; [set_solver |]. by eapply watched_ext; [| | exact Hw].
    + intros [] s' es [Hi Hw']. split; [done |]. by rewrite <- app_assoc in Hw'.
  - intros err a' Herr. apply wp_bind, wp_when; [intros _ | intros He%negb_false_iff%Z.eqb_eq; done].
    apply (wp_abort_pcb D es0); [done | done | by eapply watched_ext; [| | exact Hw] |]. intros m' s1 Hw1. subst k1.
    eapply wp_mono; [apply (handle_freed_spec k n D (es0 ++ [TcpAbort])); try done |].
    + destruct Hc1. by split.
    + by left.
    + intros [] s' es [Hi Hw']. split; [done |]. by rewrite <- app_assoc in Hw'.
Qed.

(** The SOCKS client goes while the local side is connected. *)
Lemma free_socks_connected k n D es0 c e a m : 0 ≤ n → core c e → client_closed c = false → socks_closed c = false →
  aborted c = false → pcb_open e = true → connected c e → server_gone e = true →
  watched D es0 (mk_sys (Some c) (n + 1) e a m) →
  wp (client_free_socks (S (S (S (S k))))) (post n D es0) (mk_sys (Some c) (n + 1) e a m).
Proof.
  intros Hn Hc Hcc Hsc Hab Hp Hcon Hg Hw. remember (S (S (S k))) as k1. cbn [client_free_socks]. apply wp_bind, wp_cl.
  apply wp_bind, wp_assert; [by rewrite Hsc |]. rewrite Hcc. cbn [negb]. rewrite !andb_true_r.
  set (e1 := if socks_up c then e <| cb_recv := false |> else e).
  apply wp_bind. assert (∀ Q : unit → sys → list tcall → Prop, Q () (mk_sys (Some c) (n + 1) e1 a m) [] →
    wp (when (socks_up c) (tcp_recv false)) Q (mk_sys (Some c) (n + 1) e a m)) as Hwhen.
  { intros Q HQ. subst e1. destruct (socks_up c); [by apply wp_tcp_recv | by apply wp_ret]. }
  apply Hwhen. clear Hwhen. pose proof (i_socks _ _ Hc) as Ho. rewrite Hsc in Ho.
  apply wp_bind, wp_socks_free; [subst e1; by destruct (socks_up c) |]. apply wp_bind, wp_upd.
  set (e2 := e1 <| socks_open := false |> <| send_busy := None |> <| recv_busy := false |>). set (c' := c <| socks_closed := true |>).
  assert (core c' e2) as Hc2.
  { destruct Hc. subst e2 c' e1. destruct (socks_up c) eqn:Eu; split; simpl; rewrite ?Eu; done. }
  assert (watched D (es0 ++ [SocksFree]) (mk_sys (Some c') (n + 1) e2 a m)) as Hw2
    by (apply watched_app; [set_solver | by eapply watched_ext; [| | exact Hw]]).
  assert (pcb_open e2 = true) as Hp2 by (subst e2 e1; by destruct (socks_up c)).
  destruct (socks_up c && ((0 <=? socks_recv_buf_used c) || (0 <? socks_recv_tcp_pending c))) eqn:Ewait.
  - apply andb_true_iff in Ewait as [Eu Ed]. apply wp_ret. split; [| by rewrite app_nil_r]. split; [done |]. split; [| done].
    split; try (subst c'; simpl); try done; try congruence; [rewrite Hcc; exact Hp2 |]. intros _.
    subst e2. replace e1 with (e <| cb_recv := false |>) by (subst e1; by rewrite Eu).
    destruct Hcon. split; simpl; try done. intros _. split; [done |]. apply orb_true_iff in Ed as [Ed | Ed]; b2p; [by left | by right].
  - subst k1. eapply wp_mono; [apply (free_client_spec k n D (es0 ++ [SocksFree])); try done |].
    + right. split; [done |].
      assert (rest c = []) as Er by (unfold rest; destruct (socks_up c); simpl in Ewait |- *; [by destruct (0 <=? socks_recv_buf_used c) | done]).
      pose proof (i_logr _ _ Hcon) as Hl. rewrite Er, app_nil_r in Hl. subst e2 e1. by destruct (socks_up c).
    + intros [] s' es [Hi Hw']. split; [done |]. by rewrite <- app_assoc in Hw'.
Qed.

(** Either way. *)
Lemma free_socks_spec n D es0 c e a m : 0 ≤ n → cinv c e → socks_closed c = false → server_gone e = true →
  watched D es0 (mk_sys (Some c) (n + 1) e a m) →
  wp (client_free_socks call_depth) (post n D es0) (mk_sys (Some c) (n + 1) e a m).
Proof.
  intros Hn [Hc Hp Hone Hab Hcon Hwait] Hsc Hg Hw. destruct (client_closed c) eqn:Ec.
  - apply free_socks_gone; try done; [by right |]. left. by apply Hwait.
  - apply free_socks_connected; try done; [| by apply Hcon]. destruct (aborted c); [by specialize (Hab eq_refl) | done].
Qed.

(** Aborting the local side from the middle of a handler: the conditions on the
    data for the local side need not hold. *)
Lemma abort_client_spec n D es0 c e a m : 0 ≤ n → core c e → client_closed c = false → aborted c = false → pcb_open e = true →
  watched D es0 (mk_sys (Some c) (n + 1) e a m) →
  wp client_abort_client (post n D es0) (mk_sys (Some c) (n + 1) e a m).
Proof.
  intros Hn Hc Hcc Hab Hp Hw. unfold client_abort_client. apply wp_bind, wp_cl. apply wp_bind, wp_assert; [by rewrite Hcc |].
  apply wp_bind, wp_tcp_err; [done |]. apply wp_bind, wp_tcp_recv; [done |]. apply wp_bind, wp_tcp_sent; [done |].
  apply wp_bind, (wp_abort_pcb D es0); [done | done | by eapply watched_ext; [| | exact Hw] |]. intros m' s1 Hw1.
  eapply wp_mono; [apply (handle_freed_spec 2 n D (es0 ++ [TcpAbort])); try done |].
  - destruct Hc. by split.
  - by left.
  - intros [] s' es [Hi Hw']. split; [done |]. by rewrite <- app_assoc in Hw'.
Qed.

(** ** To the server *)

Lemma wp_stream_send {c} {nc : Z} {e a m} data (Q : unit → sys → list tcall → Prop) :
  socks_open e = true → socks_ready e = true → send_busy e = None → 0 < zlen data →
  Q () (mk_sys (Some c) nc (e <| send_busy := Some data |>) a m) [] →
  wp (StreamPassInterface_Sender_Send data) Q (mk_sys (Some c) nc e a m).
Proof.
  intros Ho Hr Hb Hl HQ. unfold StreamPassInterface_Sender_Send. apply wp_bind, wp_need_socks; [done |]. apply wp_bind, wp_genv.
  apply wp_bind, wp_assert; [| by apply wp_uenv]. rewrite Hr, Hb, bool_decide_eq_true_2, (proj2 (Z.ltb_lt _ _)); done.
Qed.

Lemma wp_stream_recv {c} {nc : Z} {e a m} (Q : unit → sys → list tcall → Prop) :
  socks_open e = true → socks_ready e = true → recv_busy e = false →
  Q () (mk_sys (Some c) nc (e <| recv_busy := true |>) a m) [] →
  wp StreamRecvInterface_Receiver_Recv Q (mk_sys (Some c) nc e a m).
Proof.
  intros Ho Hr Hb HQ. unfold StreamRecvInterface_Receiver_Recv. apply wp_bind, wp_need_socks; [done |]. apply wp_bind, wp_genv.
  apply wp_bind, wp_assert; [by rewrite Hr, Hb | by apply wp_uenv].
Qed.

(** Moving the rest of the buffer to the front. *)
Lemma memmove_front b used n : zlen b = TCP_WND → 0 < n → n ≤ used ≤ TCP_WND →
  let b' := mem_write b 0 (mem_read b n (used - n)) in
  zlen b' = TCP_WND ∧ ztake (used - n) b' = mem_read b n (used - n) ∧ ztake used b = ztake n b ++ mem_read b n (used - n).
Proof.
  intros Hl Hn Hu b'. assert (zlen (mem_read b n (used - n)) = used - n) as Hr by (apply zlen_mem_read; lia). split_and!.
  - subst b'. rewrite zlen_mem_write; lia.
  - subst b'. unfold mem_write. rewrite (ztake_le0 0) by lia. cbn [app]. by apply ztake_app_exact.
  - unfold mem_read. rewrite <- (ztake_zdrop n (ztake used b)). rewrite ztake_ztake, zdrop_ztake by lia. f_equal; f_equal; lia.
Qed.

Lemma ztake_shorter {A} (l d : list A) n : 0 ≤ n ≤ zlen d → ztake (zlen d) l = d → ztake n d = ztake n l.
Proof. intros Hn <-. rewrite ztake_ztake. f_equal. lia. Qed.

Lemma ztake_zlen {A} (l : list A) n : 0 ≤ n ≤ zlen l → zlen (ztake n l) = n.
Proof. intros. rewrite zlen_ztake. lia. Qed.

Lemma send_done_spec n D es0 c e a m k d : 0 ≤ n → cinv c e → watched D es0 (mk_sys (Some c) (n + 1) e a m) →
  send_busy e = Some d → 0 < k ≤ zlen d →
  wp (client_socks_send_handler_done k) (post n D es0)
    (mk_sys (Some c) (n + 1) (e <| send_busy := None |> <| log_out := log_out e ++ ztake k d |>) a m).
Proof.
  intros Hn [Hc Hp Hone Hab Hcon Hwait] Hw Hb Hk. pose proof Hc as [Hso Hrd [Hbl Hbu] Hrb Hsnd Hidle Hrv Hli Hpre].
  assert (socks_closed c = false) as Hsc by (destruct (socks_closed c); [destruct (Hidle eq_refl); congruence | done]).
  specialize (Hsnd Hsc). rewrite Hb in Hsnd. destruct Hsnd as (Hup & Hdl & Hdb). specialize (Hrd Hsc).
  destruct (memmove_front (buf c) (buf_used c) k Hbl) as (Hl' & Ht' & Hsplit); [lia | lia |].
  unfold client_socks_send_handler_done. apply wp_bind, wp_cl. apply wp_bind, wp_assert; [by rewrite Hsc |].
  apply wp_bind, wp_assert; [done |]. apply wp_bind, wp_assert; [apply Z.ltb_lt; lia |].
  apply wp_bind, wp_assert; [apply andb_true_iff; split; [apply Z.ltb_lt | apply Z.leb_le]; lia |]. apply wp_bind, wp_upd.
  set (c' := c <| buf := _ |> <| buf_used := buf_used c - k |>). set (e1 := e <| send_busy := None |> <| log_out := _ |>).
  assert (log_in e1 = log_out e1 ++ ztake (buf_used c') (buf c')) as Hli'.
  { subst c' e1. simpl. rewrite Hli, Ht', Hsplit, app_assoc. by rewrite (ztake_shorter (buf c) d k) by (done || lia). }
  assert (watched D es0 (mk_sys (Some c') (n + 1) e1 a m)) as Hw1 by (by eapply watched_ext; [| | exact Hw]).
  assert (wp (when (negb (client_closed c)) (tcp_recved k)) (λ _ s es, s = mk_sys (Some c') (n + 1) e1 a m ∧ es = [])
    (mk_sys (Some c') (n + 1) e1 a m)) as Hrecved.
  { destruct (client_closed c) eqn:Ec; [by apply wp_ret |]. apply wp_tcp_recved; [| lia | done]. subst e1. simpl. by rewrite Hp. }
  apply wp_bind. eapply wp_mono; [exact Hrecved |]. intros [] s es [-> ->]. apply wp_bind, wp_cl. clear Hrecved.
  assert (∀ e2, e2 = e1 ∨ e2 = e1 <| send_busy := Some (ztake (buf_used c') (buf c')) |> → (0 < buf_used c' ↔ send_busy e2 ≠ None) →
    core c' e2 ∧ (client_closed c = false → connected c' e2)) as Hfin.
  { intros e2 He2 Hs2. assert (zlen (ztake (buf_used c') (buf c')) = buf_used c') as Hzl by (apply ztake_zlen; subst c'; simpl; lia).
    destruct He2 as [-> | ->]; (split; [| intros Ec; destruct (Hcon Ec); by split]); (split; try done; simpl).
    - split; [done |]. lia.
    - intros _ _. subst c'. simpl in Hs2 |- *. destruct (decide (0 < buf_used c - k)); [tauto | lia].
    - congruence.
    - split; [done |]. lia.
    - intros _. split; [done |]. subst c'. simpl in *. rewrite Hzl. split; [| done]. split; [| lia]. apply Hs2. done.
    - congruence. }
  destruct (0 <? buf_used c') eqn:Eb; b2p.
  - apply wp_stream_send; [by subst e1; simpl; rewrite Hso, Hsc | subst e1; simpl; congruence | done | |].
    { rewrite ztake_zlen; [done |]. subst c'. simpl. lia. }
    destruct (Hfin (e1 <| send_busy := Some (ztake (buf_used c') (buf c')) |>)) as [Hc2 Hcon2]; [by right | by simpl |].
    split; [| by rewrite app_nil_r; eapply watched_ext; [| | exact Hw1]]. split; [done |]. split; [| done].
    split; try done. intros Hcl. split; [done |]. by apply Hwait.
  - destruct (Hfin e1) as [Hc2 Hcon2]; [by left | split; [intros ?; lia | done] |].
    destruct (client_closed c') eqn:Ec'.
    + apply free_socks_gone; try done; [subst e1; simpl; by rewrite Hp; subst c'; simpl in Ec'; rewrite Ec' | left; subst c'; simpl in *; lia |].
      left. apply Hwait. done.
    + apply wp_ret. split; [| by rewrite app_nil_r]. split; [done |]. split; [| done]. split; try done. congruence.
Qed.

Lemma socks_up_spec n D es0 c e a m : 0 ≤ n → cinv c e → watched D es0 (mk_sys (Some c) (n + 1) e a m) →
  socks_open e = true → socks_ready e = false →
  wp socks_event_up (post n D es0) (mk_sys (Some c) (n + 1) (e <| socks_ready := true |>) a m).
Proof.
  intros Hn [Hc Hp Hone Hab Hcon Hwait] Hw Ho Hr. pose proof Hc as [Hso Hrd [Hbl Hbu] Hrb Hsnd Hidle Hrv Hli Hpre].
  assert (socks_closed c = false) as Hsc by (rewrite Ho in Hso; by destruct (socks_closed c)).
  specialize (Hrd Hsc). rewrite Hr in Hrd. symmetry in Hrd. specialize (Hsnd Hsc).
  assert (send_busy e = None) as Hsb by (destruct (send_busy e); [destruct Hsnd; congruence | done]).
  assert (recv_busy e = false) as Hrbz by (destruct (recv_busy e); [destruct (Hrv eq_refl); congruence | done]).
  unfold socks_event_up. apply wp_bind, wp_cl. apply wp_bind, wp_assert; [by rewrite Hsc |].
  apply wp_bind, wp_assert; [by rewrite Hrd |]. apply wp_bind, wp_upd.
  set (e1 := if client_closed c then e <| socks_ready := true |> else e <| socks_ready := true |> <| cb_sent := true |>).
  set (c1 := c <| socks_recv_buf_used := -1 |> <| socks_recv_tcp_pending := 0 |>).
  apply wp_bind. assert (∀ Q : unit → sys → list tcall → Prop, Q () (mk_sys (Some c1) (n + 1) e1 a m) [] →
    wp (when (negb (client_closed c)) (tcp_sent true)) Q (mk_sys (Some c1) (n + 1) (e <| socks_ready := true |>) a m)) as Hwhen.
  { intros Q HQ. subst e1. destruct (client_closed c) eqn:Ec; [by apply wp_ret | apply wp_tcp_sent; [done | done]]. }
  apply Hwhen. clear Hwhen. apply wp_bind, wp_upd. set (c2 := c1 <| socks_up := true |>). apply wp_bind, wp_cl.
  set (e2 := if 0 <? buf_used c then e1 <| send_busy := Some (ztake (buf_used c) (buf c)) |> else e1).
  apply wp_bind. assert (∀ Q : unit → sys → list tcall → Prop, Q () (mk_sys (Some c2) (n + 1) e2 a m) [] →
    wp (when (0 <? buf_used c2) client_send_to_socks) Q (mk_sys (Some c2) (n + 1) e1 a m)) as Hwhen.
  { intros Q HQ. subst e2. change (buf_used c2) with (buf_used c). destruct (0 <? buf_used c) eqn:Eb; [| by apply wp_ret]. cbn [when].
    unfold client_send_to_socks. apply wp_bind, wp_cl. apply wp_bind, wp_assert; [by subst c2 c1; simpl; rewrite Hsc |].
    apply wp_bind, wp_assert; [done |]. apply wp_bind, wp_assert; [done |]. b2p.
    apply wp_stream_send; [subst e1; by destruct (client_closed c) | subst e1; by destruct (client_closed c)
      | subst e1; by destruct (client_closed c) | | exact HQ]. change (buf_used c2) with (buf_used c). change (buf c2) with (buf c).
    rewrite ztake_zlen; lia. }
  apply Hwhen. clear Hwhen.
  assert (watched D es0 (mk_sys (Some c2) (n + 1) e2 a m)) as Hw2 by (by eapply watched_ext; [| | exact Hw]).
  assert (core c2 e2 ∧ (socks_open e2 = true ∧ socks_ready e2 = true ∧ recv_busy e2 = false) ∧
    (pcb_open e2 = pcb_open e ∧ peer_gone e2 = peer_gone e ∧ cb_err e2 = cb_err e ∧ cb_recv e2 = cb_recv e ∧ unacked e2 = unacked e ∧
     log_rin e2 = log_rin e ∧ log_rout e2 = log_rout e) ∧ (client_closed c = false → cb_sent e2 = true))
    as (Hc2 & (Ho2 & Hr2 & Hb2) & (Hp2 & Hg2 & He2 & Hrc2 & Hu2 & Hri2 & Hro2) & Hs2).
  { subst e2 e1 c2 c1. destruct (client_closed c), (0 <? buf_used c) eqn:Eb; b2p; split_and!; try done; (split; simpl; try done; try congruence);
      intros _; rewrite ?Hsb, ?ztake_zlen by lia; try (split_and!; done || lia); lia. }
  clearbody e2 e1.
  destruct (client_closed c) eqn:Ec; change (client_closed c2) with (client_closed c); rewrite Ec; cbn [negb when].
  - apply wp_ret. split; [| by rewrite app_nil_r]. split; [done |]. split; [| done]. split; simpl; try (done || congruence).
    intros _. rewrite Hg2. by apply Hwait.
  - unfold client_socks_recv_initiate. apply wp_bind, wp_cl. apply wp_bind, wp_assert; [by simpl; rewrite Ec |].
    apply wp_bind, wp_assert; [by simpl; rewrite Hsc |]. apply wp_bind, wp_assert; [done |]. apply wp_bind, wp_assert; [done |].
    apply wp_stream_recv; [done.. |]. split; [| by rewrite app_nil_r; eapply watched_ext; [| | exact Hw2]].
    split; [done |]. split; [| done]. split; simpl; try (done || congruence).
    + destruct Hc2. split; try done. simpl. congruence.
    + intros Ha. by specialize (Hab Ha).
    + intros _. destruct (Hcon eq_refl) as [H1 H2 H3 H4 H5 H6 H7 H8]. split; simpl; try (done || congruence).
      * by apply Hs2.
      * intros _. rewrite Hu2, H5 by done. split_and!; [lia | done | by left].
      * rewrite Hri2, Hro2, H8. unfold rest. by rewrite Hrd.
Qed.

(** ** To the local side *)

(** In the middle of writing received data. *)
Record sending (c : tcp_client) (e : env) : Prop := {
  s_core : core c e;
  s_flags : client_closed c = false ∧ aborted c = false ∧ socks_up c = true;
  s_pcb : pcb_open e = true ∧ cb_err e = true ∧ cb_recv e = negb (socks_closed c) ∧ cb_sent e = true;
  s_pending : 0 ≤ socks_recv_tcp_pending c ∧ socks_recv_tcp_pending c = unacked e;
  s_place : 0 ≤ socks_recv_buf_sent c ≤ socks_recv_buf_used c ∧ 0 < socks_recv_buf_used c ≤ CLIENT_SOCKS_RECV_BUF_SIZE;
  s_log : log_rin e = log_rout e ++
    mem_read (socks_recv_buf c) (socks_recv_buf_sent c) (socks_recv_buf_used c - socks_recv_buf_sent c)
}.

(** The client after [x] bytes of the buffer are written. *)
Definition written (x : Z) (c : tcp_client) : tcp_client :=
  c <| socks_recv_buf_sent := x |> <| socks_recv_tcp_pending := socks_recv_tcp_pending c + (x - socks_recv_buf_sent c) |>.

Lemma sending_write c e w : sending c e → 0 < w → socks_recv_buf_sent c + w ≤ socks_recv_buf_used c →
  sending (written (socks_recv_buf_sent c + w) c)
    (e <| unacked := unacked e + w |> <| log_rout := log_rout e ++ mem_read (socks_recv_buf c) (socks_recv_buf_sent c) w |>).
Proof.
  intros [Hc Hf Hp [Hp1 Hp2] Hpl Hl] Hw Hle. unfold written.
  assert (log_rin e = (log_rout e ++ mem_read (socks_recv_buf c) (socks_recv_buf_sent c) w) ++
    mem_read (socks_recv_buf c) (socks_recv_buf_sent c + w) (socks_recv_buf_used c - (socks_recv_buf_sent c + w))) as Hl'.
  { rewrite Hl, <- app_assoc. f_equal. unfold mem_read. rewrite <- (ztake_zdrop w (ztake _ (zdrop (socks_recv_buf_sent c) _))).
    rewrite ztake_ztake, zdrop_ztake, zdrop_zdrop by lia.
    rewrite Z.min_l by lia. do 2 f_equal. lia. }
  split; simpl; try done; try lia. destruct Hc. split; try done. by eexists.
Qed.

Lemma send_out_loop_spec n D es0 m fuel : ∀ c e a, 0 ≤ n → sending c e → socks_recv_buf_sent c < socks_recv_buf_used c →
  socks_recv_buf_used c - socks_recv_buf_sent c ≤ Z.of_nat fuel →
  watched D es0 (mk_sys (Some c) (n + 1) e a m) →
  wp (send_out_loop fuel) (λ r s' es,
    match r with
    | WDone => es = [] ∧ ∃ x e' a', s' = mk_sys (Some (written x c)) (n + 1) e' a' m ∧ sending (written x c) e' ∧ socks_recv_buf_sent c ≤ x
    | WAborted => post n D es0 () s' es
    end) (mk_sys (Some c) (n + 1) e a m).
Proof.
  induction fuel as [| fuel IH]; intros c e a Hn Hs Hlt Hf Hw; [lia |]. pose proof Hs as [Hc (Hcc & Hab & Hup) (Hp & _) Hpd Hpl Hl].
  assert (∀ a', ∃ x e' a'', mk_sys (Some c) (n + 1) e a' m = mk_sys (Some (written x c)) (n + 1) e' a'' m ∧
    sending (written x c) e' ∧ socks_recv_buf_sent c ≤ x) as Hsame.
  { intros a'. exists (socks_recv_buf_sent c), e, a'. assert (written (socks_recv_buf_sent c) c = c) as ->; [| split_and!; done || lia].
    unfold written. rewrite Z.sub_diag, Z.add_0_r. by destruct c. }
  cbn [send_out_loop]. apply wp_bind, wp_cl. apply wp_bind. unfold tcp_sndbuf. apply wp_bind, wp_need_pcb; [done |].
  apply wp_bind, wp_answer. intros sb a1. apply wp_ret.
  assert (0 ≤ u16 sb) as Hsb by (unfold u16; apply Z.mod_pos_bound; lia).
  cbv zeta. set (w := Z.min (socks_recv_buf_used c - socks_recv_buf_sent c) (u16 sb)).
  destruct (w =? 0) eqn:Ew; b2p; [apply wp_ret; split; [done | apply Hsame] |].
  apply wp_bind. unfold tcp_write. apply wp_bind, wp_need_pcb; [done |]. apply wp_bind, wp_answer. intros err a2.
  assert (zlen (mem_read (socks_recv_buf c) (socks_recv_buf_sent c) w) = w) as Hzw
    by (apply zlen_mem_read; [lia | lia | rewrite (i_rbuf _ _ Hc); lia]).
  destruct (err =? ERR_OK) eqn:Ee; b2p.
  - apply wp_bind, wp_when; [intros _ | done]. apply wp_uenv, wp_ret. cbn [negb]. subst err.
    change (negb (ERR_OK =? ERR_OK)) with false. cbv iota. apply wp_bind, wp_upd. rewrite Hzw.
    pose proof (sending_write c e w Hs ltac:(lia) ltac:(lia)) as Hs'. set (e' := e <| unacked := _ |> <| log_rout := _ |>) in *.
    assert (c <| socks_recv_buf_sent := socks_recv_buf_sent c + w |> <| socks_recv_tcp_pending := socks_recv_tcp_pending c + w |> =
      written (socks_recv_buf_sent c + w) c) as -> by (unfold written; simpl; f_equal; lia).
    set (c' := written (socks_recv_buf_sent c + w) c) in *. apply wp_bind, wp_cl.
    destruct (socks_recv_buf_sent c' <? socks_recv_buf_used c') eqn:Elt; b2p.
    + eapply wp_mono; [apply IH; [done | exact Hs' | done | subst c'; simpl in *; lia | by eapply watched_ext; [| | exact Hw]] |].
      intros [] s' es; [| done]. intros (-> & x & e2 & a3 & -> & Hs2 & Hle). split; [done |].
      assert (written x c' = written x c) as Ewr by (subst c'; unfold written; simpl; f_equal; lia).
      rewrite Ewr in *. exists x, e2, a3. split_and!; [done | done | subst c'; simpl in Hle; lia].
    + apply wp_ret. split; [done |]. exists (socks_recv_buf_sent c + w), e', a2. split_and!; [done | done | lia].
  - apply wp_bind, wp_when; [intros; lia |]. intros _. apply wp_ret. rewrite (proj2 (Z.eqb_neq _ _)) by done. cbn [negb].
    destruct (err =? ERR_MEM); [apply wp_ret; split; [done | apply Hsame] |].
    apply wp_bind. eapply wp_mono; [apply (abort_client_spec n D es0); try done; by eapply watched_ext; [| | exact Hw] |].
    intros [] s' es Hpost. apply wp_ret. cbn [app]. by rewrite app_nil_r.
Qed.

(** After everything that fits was written: the rest waits for an acknowledgement,
    or the buffer is empty and nothing is being received. *)
Record sent_out (c c' : tcp_client) (e : env) : Prop := {
  o_core : core c' e;
  o_flags : client_closed c' = false ∧ aborted c' = false ∧ socks_up c' = true;
  o_same : dead_aborted c' = dead_aborted c ∧ socks_closed c' = socks_closed c;
  o_pcb : pcb_open e = true ∧ cb_err e = true ∧ cb_recv e = negb (socks_closed c') ∧ cb_sent e = true ∧ recv_busy e = false;
  o_pending : 0 < socks_recv_tcp_pending c' ∧ socks_recv_tcp_pending c' = unacked e;
  o_buf : socks_recv_buf_used c' = -1 ∨
    0 ≤ socks_recv_buf_sent c' < socks_recv_buf_used c' ∧ socks_recv_buf_used c' ≤ CLIENT_SOCKS_RECV_BUF_SIZE ∧ socks_recv_waiting c' = true;
  o_log : log_rin e = log_rout e ++ rest c'
}.

Lemma sending_idle c e : sending c e → recv_busy e = false.
Proof.
  intros [Hc _ _ _ Hpl _]. pose proof (i_recving _ _ Hc) as H. destruct (recv_busy e); [destruct (H eq_refl); lia | done].
Qed.

Lemma send_out_spec n D es0 c e a m : 0 ≤ n → sending c e → socks_recv_buf_sent c < socks_recv_buf_used c → socks_recv_waiting c = false →
  watched D es0 (mk_sys (Some c) (n + 1) e a m) →
  wp client_socks_recv_send_out (λ r s' es,
    if (r : bool) then post n D es0 () s' es
    else es = [] ∧ ∃ c' e' a', s' = mk_sys (Some c') (n + 1) e' a' m ∧ sent_out c c' e') (mk_sys (Some c) (n + 1) e a m).
Proof.
  intros Hn Hs Hlt Hwt Hw. pose proof Hs as [Hc (Hcc & Hab & Hup) (Hp & _) Hpd Hpl Hl].
  unfold client_socks_recv_send_out. apply wp_bind, wp_cl. apply wp_bind, wp_assert; [by rewrite Hcc |].
  apply wp_bind, wp_assert; [done |]. apply wp_bind, wp_assert; [apply Z.ltb_lt; lia |].
  apply wp_bind, wp_assert; [by apply Z.ltb_lt |]. apply wp_bind, wp_assert; [by rewrite Hwt |].
  apply wp_bind. eapply wp_mono; [apply (send_out_loop_spec n D es0); [done | exact Hs | done | lia | exact Hw] |].
  intros [] s1 es1; [| intros Hpost; apply wp_ret; cbn [app]; by rewrite app_nil_r].
  intros (-> & x & e1 & a1 & -> & Hs1 & Hx). set (c1 := written x c) in *.
  pose proof Hs1 as [Hc1 (Hcc1 & Hab1 & Hup1) (Hp1 & Hcb) [Hpd1 Hpu1] Hpl1 Hl1].
  assert (∀ a', watched D es0 (mk_sys (Some c1) (n + 1) e1 a' m)) as Hw1 by (intros a'; by eapply watched_ext; [| | exact Hw]).
  assert (∀ a' (Q : bool → sys → list tcall → Prop), (∀ s' es, post n D es0 () s' es → Q true s' es) →
    wp (client_abort_client;; mret true) Q (mk_sys (Some c1) (n + 1) e1 a' m)) as Habort.
  { intros a' Q HQ. apply wp_bind. eapply wp_mono; [by apply (abort_client_spec n D es0) |].
    intros [] s' es Hpost. apply wp_ret. rewrite app_nil_r. by apply HQ. }
  apply wp_bind. unfold tcp_output. apply wp_bind, wp_need_pcb; [done |]. apply wp_answer. intros err a2.
  destruct (err =? ERR_OK); cbn [negb]; [| by apply Habort]. apply wp_bind, wp_cl.
  pose proof (sending_idle _ _ Hs1) as Hidle1.
  assert ((dead_aborted c1 = dead_aborted c ∧ socks_closed c1 = socks_closed c) ∧ socks_recv_buf_used c1 = socks_recv_buf_used c ∧
    socks_recv_buf_sent c1 = x ∧ socks_recv_tcp_pending c1 = socks_recv_tcp_pending c + (x - socks_recv_buf_sent c))
    as (Hsame & Eu & Ex & Epx) by done.
  clearbody c1. destruct (socks_recv_buf_sent c1 <? socks_recv_buf_used c1) eqn:Elt; b2p.
  - destruct (socks_recv_tcp_pending c1 =? 0) eqn:Epd; b2p; [by apply Habort |].
    apply wp_bind, wp_upd, wp_ret. split; [done |]. eexists _, e1, a2. split; [done |].
    split; cbn [set client_closed aborted socks_up dead_aborted socks_closed socks_recv_tcp_pending socks_recv_buf_used socks_recv_buf_sent
      socks_recv_waiting tcp_client_eta]; try (done || tauto).
    + destruct Hc1. by split.
    + lia.
    + rewrite Hl1. unfold rest. cbn [socks_up socks_recv_buf_used socks_recv_buf socks_recv_buf_sent set tcp_client_eta].
      rewrite Hup1, (proj2 (Z.leb_le _ _)) by lia. done.
  - apply wp_bind, wp_upd, wp_ret. split; [done |]. eexists _, e1, a2. split; [done |].
    assert (socks_recv_buf_used c1 - socks_recv_buf_sent c1 = 0) as Ez by lia.
    split; cbn [set client_closed aborted socks_up dead_aborted socks_closed socks_recv_tcp_pending socks_recv_buf_used socks_recv_buf_sent
      socks_recv_waiting tcp_client_eta]; try (done || tauto).
    + destruct Hc1. split; try done; simpl; congruence.
    + lia.
    + rewrite Hl1, Ez. unfold rest, mem_read. cbn [socks_up socks_recv_buf_used set tcp_client_eta].
      rewrite ztake_le0 by lia. by rewrite andb_false_r.
Qed.

(** The state after a successful write is an invariant state, except that data has
    to be asked for again when the SOCKS client is still there. *)
Lemma sent_out_cinv c c' e : sent_out c c' e → (socks_closed c' = false → socks_recv_buf_used c' ≠ -1) → cinv c' e.
Proof.
  intros [Hc (Hcc & Hab & Hup) Hsame (Hp & He & Hr & Hst & Hrb) [Hpd Hpu] Hb Hl] Hnl. split; try (done || congruence).
  - by rewrite Hcc.
  - intros _. split; try (done || congruence || tauto).
    + intros _. split_and!; [lia | done |]. destruct Hb as [Hb | (? & ? & ?)]; [by left | right; split_and!; done || lia].
Qed.

Lemma sent_out_initiate n D es0 c c' e a m : 0 ≤ n → sent_out c c' e → socks_closed c' = false → socks_recv_buf_used c' = -1 →
  watched D es0 (mk_sys (Some c') (n + 1) e a m) → wp client_socks_recv_initiate (post n D es0) (mk_sys (Some c') (n + 1) e a m).
Proof.
  intros Hn [Hc (Hcc & Hab & Hup) Hsame (Hp & He & Hr & Hst & Hrb) [Hpd Hpu] Hb Hl] Hsc Hu Hw.
  unfold client_socks_recv_initiate. apply wp_bind, wp_cl. apply wp_bind, wp_assert; [by rewrite Hcc |].
  apply wp_bind, wp_assert; [by rewrite Hsc |]. apply wp_bind, wp_assert; [done |]. apply wp_bind, wp_assert; [by rewrite Hu |].
  apply wp_stream_recv; [by rewrite (i_socks _ _ Hc), Hsc | by rewrite (i_ready _ _ Hc) | done |].
  split; [| by rewrite app_nil_r; eapply watched_ext; [| | exact Hw]]. split; [done |]. split; [| done].
  split; try (done || congruence).
  - destruct Hc. split; try done. simpl. congruence.
  - simpl. by rewrite Hcc.
  - intros _. split; simpl; try (done || congruence || tauto).
    + intros _. split_and!; [lia | done | by left].
Qed.

Lemma recv_done_spec n D es0 c e a m data : 0 ≤ n → cinv c e → watched D es0 (mk_sys (Some c) (n + 1) e a m) →
  recv_busy e = true → 0 < zlen data ≤ CLIENT_SOCKS_RECV_BUF_SIZE →
  wp (client_socks_recv_handler_done (zlen data)) (post n D es0)
    (mk_sys (Some (c <| socks_recv_buf := mem_write (socks_recv_buf c) 0 data |>)) (n + 1)
      (e <| recv_busy := false |> <| log_rin := if pcb_open e then log_rin e ++ data else log_rin e |>) a m).
Proof.
  intros Hn [Hc Hp Hone Hab Hcon Hwait] Hw Hrb Hd. pose proof (i_recving _ _ Hc Hrb) as [Hup Hu].
  assert (socks_closed c = false) as Hsc by (destruct (socks_closed c) eqn:E; [destruct (i_idle _ _ Hc E) as (? & ? & _); congruence | done]).
  pose proof (i_rbuf _ _ Hc) as Hrl. set (b := mem_write (socks_recv_buf c) 0 data).
  assert (zlen b = CLIENT_SOCKS_RECV_BUF_SIZE) as Hbl by (subst b; rewrite zlen_mem_write; lia).
  assert (mem_read b 0 (zlen data) = data) as Hbd by (subst b; apply mem_read_write_same; lia).
  clearbody b. unfold client_socks_recv_handler_done. apply wp_bind, wp_cl.
  apply wp_bind, wp_assert; [apply andb_true_iff; split; [apply Z.ltb_lt | apply Z.leb_le]; lia |].
  apply wp_bind, wp_assert; [by simpl; rewrite Hsc |]. apply wp_bind, wp_assert; [done |]. apply wp_bind, wp_assert; [by simpl; rewrite Hu |].
  change (client_closed (c <| socks_recv_buf := b |>)) with (client_closed c). destruct (client_closed c) eqn:Ec.
  - apply wp_ret. split; [| rewrite app_nil_r; by eapply watched_ext; [| | exact Hw]]. split; [done |]. split; [| done].
    rewrite Hp. cbn [negb]. destruct (Hwait eq_refl). split; simpl; try (done || congruence). destruct Hc. split; simpl; try (done || congruence).
  - apply wp_bind, wp_upd. replace (if pcb_open e then log_rin e ++ data else log_rin e) with (log_rin e ++ data) by (by rewrite Hp).
    cbn [negb] in Hp.
    set (c1 := c <| socks_recv_buf := b |> <| socks_recv_buf_used := zlen data |> <| socks_recv_buf_sent := 0 |> <| socks_recv_waiting := false |>).
    set (e1 := e <| recv_busy := false |> <| log_rin := log_rin e ++ data |>).
    destruct (Hcon eq_refl) as [H1 H2 H3 H4 H5 H6 H7 H8].
    assert (log_rin e = log_rout e) as Hlog by (rewrite H8; unfold rest; rewrite Hu, andb_false_r; by rewrite app_nil_r).
    assert (aborted c = false) as Hnab by (destruct (aborted c); [by specialize (Hab eq_refl) | done]).
    assert (sending c1 e1) as Hs.
    { subst c1 e1. destruct (H6 Hup) as (? & ? & _). split; simpl; try (done || lia || congruence).
      - destruct Hc. split; simpl; try (done || congruence). exists data. congruence.
      - split_and!; congruence.
      - rewrite Hlog. f_equal. rewrite Z.sub_0_r. done. }
    assert (watched D es0 (mk_sys (Some c1) (n + 1) e1 a m)) as Hw1 by (by eapply watched_ext; [| | exact Hw]).
    apply wp_bind. eapply wp_mono; [apply (send_out_spec n D es0); [done | exact Hs | simpl; lia | done | exact Hw1] |].
    intros [] s' es; [intros Hpost; apply wp_ret; cbn [app]; by rewrite app_nil_r |].
    intros (-> & c2 & e2 & a2 & -> & Hso). apply wp_bind, wp_cl.
    assert (watched D es0 (mk_sys (Some c2) (n + 1) e2 a2 m)) as Hw2.
    { eapply watched_ext; [| | exact Hw1]; [done |]. pose proof (o_same _ _ _ Hso) as [? _]. pose proof (o_flags _ _ _ Hso) as (_ & ? & _).
      split; [transitivity false; [done | by symmetry] | done]. }
    destruct (socks_recv_buf_used c2 =? -1) eqn:Eu; b2p; cbn [when].
    + eapply (sent_out_initiate n D es0); try done. pose proof (o_same _ _ _ Hso) as [_ ?]. simpl in *. congruence.
    + apply wp_ret. split; [| by rewrite app_nil_r]. split; [done |]. split; [| done]. by eapply sent_out_cinv.
Qed.

(** ** The jobs *)

Lemma fire_spec n D es0 j s : inv n s → watched D es0 s → wp (fire j) (post n D es0) s.
Proof.
  intros [Hn Hi] Hw. destruct s as [oc nc e a m]. simpl in Hi. unfold fire. apply wp_bind, wp_genv.
  destruct oc as [c |].
  - destruct Hi as [Hi ->].
    assert (post n D es0 () (mk_sys (Some c) (n + 1) e a m) []) as Hsame by (split; [done | by rewrite app_nil_r]).
    pose proof Hi as [Hc Hp Hone Hab Hcon Hwait]. pose proof (i_socks _ _ Hc) as Hso.
    assert (∀ x, cinv c (e <| server_gone := x || server_gone e |>)) as Hgone.
    { intros x. split; try done; [destruct Hc; split; try done | intros Hcc; destruct (Hcon Hcc); by split].
      simpl. intros Hsc. destruct (i_idle0 Hsc) as (? & ? & ->). by rewrite orb_true_r. }
    destruct j as [| | | k | data].
    + apply wp_when; [| intros; exact Hsame]. intros [Ho Hr%negb_true_iff]%andb_true_iff. apply wp_bind, wp_uenv. by apply socks_up_spec.
    + apply wp_when; [| intros; exact Hsame]. intros Ho. apply wp_bind, wp_uenv. unfold socks_event_error. apply wp_bind, wp_cl.
      assert (socks_closed c = false) as Hsc by (rewrite Ho in Hso; by destruct (socks_closed c)).
      apply wp_bind, wp_assert; [by rewrite Hsc |]. apply free_socks_spec; try done. apply (Hgone true).
    + apply wp_when; [| intros; exact Hsame]. intros [Ho Hr]%andb_true_iff. apply wp_bind, wp_uenv. unfold socks_event_closed. apply wp_bind, wp_cl.
      assert (socks_closed c = false) as Hsc by (rewrite Ho in Hso; by destruct (socks_closed c)).
      apply wp_bind, wp_assert; [by rewrite Hsc |]. apply wp_bind, wp_assert; [by rewrite <- (i_ready _ _ Hc Hsc) |].
      apply free_socks_spec; try done. apply (Hgone true).
    + destruct (send_busy e) as [d |] eqn:Eb; [| apply wp_ret; exact Hsame].
      apply wp_when; [| intros; exact Hsame]. intros Hk. b2p. apply wp_bind, wp_cl.
      assert (socks_closed c = false) as Hsc by (destruct (socks_closed c) eqn:E; [destruct (i_idle _ _ Hc E) as (? & ? & _); congruence | done]).
      pose proof (i_send _ _ Hc Hsc) as Hs. rewrite Eb in Hs.
      apply wp_bind, wp_assert; [apply bool_decide_eq_true; tauto |]. apply wp_bind, wp_uenv. by apply send_done_spec.
    + apply wp_when; [| intros; exact Hsame]. intros Hk. b2p. apply wp_bind, wp_cl. apply wp_bind, wp_uenv. apply wp_bind, wp_upd.
      by apply recv_done_spec.
  - destruct Hi as [Hi ->]. assert (post n D es0 () (mk_sys None n e a m) []) as Hsame by (split; [done | by rewrite app_nil_r]).
    pose proof (d_socks _ Hi) as Ho. pose proof (d_ops _ Hi) as [Hb Hr]. destruct j; rewrite ?Ho, ?Hb, ?Hr; exact Hsame.
Qed.

Lemma synchronize_spec n D js : ∀ es0 s, inv n s → watched D es0 s → wp (synchronize js) (post n D es0) s.
Proof.
  induction js as [| j js IH]; intros es0 s Hi Hw; cbn [synchronize].
  - apply wp_ret. split; [done | by rewrite app_nil_r].
  - apply wp_bind. eapply wp_mono; [by apply (fire_spec n D es0) |]. intros [] s1 es1 [Hi1 Hw1].
    eapply wp_mono; [by apply (IH (es0 ++ es1)) |]. intros [] s2 es2 [Hi2 Hw2]. split; [done |]. by rewrite app_assoc.
Qed.

(** ** Callbacks *)

Lemma cinv_dead c e d : cinv c e → cinv (c <| dead_aborted := d |>) e.
Proof.
  intros [Hc Hp Hone Hab Hcon Hwait]. split; try done; [destruct Hc; by split |]. intros Hcc. destruct (Hcon Hcc). by split.
Qed.

(** Entering a callback. *)
Lemma wp_dead_enter {c} {nc : Z} {e a m} (Q : nat * option nat → sys → list tcall → Prop) :
  aborted c = false → watched None [] (mk_sys (Some c) nc e a m) →
  (∀ i, let s' := mk_sys (Some (c <| dead_aborted := Some i |>)) nc e a (<[i := 0]> m) in watched (Some i) [] s' → Q (i, None) s' []) →
  wp DEAD_ENTER Q (mk_sys (Some c) nc e a m).
Proof.
  intros Ha Hw HQ. unfold DEAD_ENTER. apply wp_bind, wp_cl. apply wp_bind, wp_get. cbv zeta. apply wp_bind, wp_modify. apply wp_bind, wp_upd.
  apply wp_ret. rewrite (Hw c eq_refl Ha). apply HQ. exists 0. split; [apply lookup_insert_eq |]. left.
  split_and!; [done | set_solver | by eexists].
Qed.

(** Leaving it: the value says whether the control block was aborted. *)
Lemma dead_leave_spec n i es s : inv n s → watched (Some i) es s →
  wp (DEAD_LEAVE2 (i, None)) (λ k s' es', es' = [] ∧ inv n s' ∧ watched None [] s' ∧ en s' = en s ∧ (client s' = None ↔ client s = None) ∧
    (0 < k ↔ TcpAbort ∈ es)) s.
Proof.
  intros [Hn Hi] (v & Hv & Hcase). destruct s as [oc nc e a m]. simpl in Hv, Hcase, Hi. unfold DEAD_LEAVE2.
  apply wp_bind, wp_get. apply wp_bind. eapply wp_lift; [exact Hv |]. cbn [fst snd].
  destruct Hcase as [(-> & Hni & c & -> & Ha & Hd) | [(-> & Hin & Hc) | (-> & Hni & ->)]].
  - apply wp_bind, wp_when; [intros _ | done]. apply wp_bind, wp_cl, wp_upd. apply wp_bind, wp_ret. apply wp_bind, wp_modify, wp_ret.
    split; [done |]. split; [| split; [by intros ? [= <-] |]].
    + split; [done |]. destruct Hi. split; [by apply cinv_dead | done].
    + split; [done |]. split; [done |]. split; [lia | done].
  - apply wp_bind, wp_when; [done | intros _]. apply wp_bind, wp_ret. apply wp_bind, wp_modify, wp_ret.
    split; [done |]. split; [by split |]. split; [| done]. intros c Hoc Hab. specialize (Hc c Hoc). congruence.
  - apply wp_bind, wp_when; [done | intros _]. apply wp_bind, wp_ret. apply wp_bind, wp_modify, wp_ret.
    split; [done |]. split; [by split |]. split; [done |]. split; [done |]. split; [done |]. split; [lia | done].
Qed.

(** A callback ends with the right return value. *)
Definition returned (n : Z) : Z → sys → list tcall → Prop :=
  λ r s' es, inv n s' ∧ watched None [] s' ∧ (r = ERR_ABRT ↔ TcpAbort ∈ es) ∧ (r = ERR_ABRT ∨ r = ERR_OK ∨ r = ERR_MEM).

Lemma leave_returned n i es s : inv n s → watched (Some i) es s →
  wp (k ← DEAD_LEAVE2 (i, None); mret (abort_result k)) (λ r s' es', returned n r s' (es ++ es')) s.
Proof.
  intros Hi Hw. apply wp_bind. eapply wp_mono; [by apply (dead_leave_spec n i es) |].
  intros k s' es' (-> & Hi' & Hw' & _ & _ & Hk). apply wp_ret. unfold returned, abort_result. rewrite app_nil_r.
  split_and!; try done; destruct (0 <? k) eqn:Ek; b2p; try tauto. split; [done | intros ?; exfalso; apply Hk in H; lia].
Qed.

Lemma err_func_spec n c e a m : 0 ≤ n → cinv c e → client_closed c = false → watched None [] (mk_sys (Some c) (n + 1) e a m) →
  wp client_err_func (post n None []) (mk_sys (Some c) (n + 1) (e <| pcb_open := false |> <| peer_gone := true |>) a m).
Proof.
  intros Hn [Hc Hp Hone Hab Hcon Hwait] Hcc Hw. unfold client_err_func. apply wp_bind, wp_cl. apply wp_bind, wp_assert; [by rewrite Hcc |].
  apply (handle_freed_spec 2 n None []); try done; [destruct Hc; by split | by left].
Qed.

Lemma fin_spec n c e a m : 0 ≤ n → cinv c e → client_closed c = false → watched None [] (mk_sys (Some c) (n + 1) e a m) →
  wp (client_recv_func None []) (returned n) (mk_sys (Some c) (n + 1) (e <| peer_gone := true |>) a m).
Proof.
  intros Hn [Hc Hp Hone Hab Hcon Hwait] Hcc Hw. unfold client_recv_func. apply wp_bind, wp_cl. apply wp_bind, wp_assert; [by rewrite Hcc |].
  assert (aborted c = false) as Hnab by (destruct (aborted c); [specialize (Hab eq_refl); congruence | done]).
  apply wp_bind, wp_dead_enter; [done | by eapply watched_ext; [| | exact Hw] |]. intros i s1 Hw1. apply wp_bind.
  eapply wp_mono; [apply (free_client_spec 1 n (Some i) []); try done |].
  - destruct Hc. by split.
  - simpl. by rewrite Hp, Hcc.
  - by left.
  - intros [] s' es [Hi Hw']. by apply leave_returned.
Qed.

(** New data behind what the buffer holds. *)
Lemma append_buf b used data : zlen b = TCP_WND → 0 ≤ used → used + zlen data ≤ TCP_WND →
  zlen (mem_write b used data) = TCP_WND ∧ ztake (used + zlen data) (mem_write b used data) = ztake used b ++ data ∧
  ∀ k, k ≤ used → ztake k (mem_write b used data) = ztake k b.
Proof.
  intros Hl Hu Hf. pose proof (zlen_nonneg data). assert (zlen (ztake used b) = used) as Hz by (apply ztake_zlen; lia). split_and!.
  - rewrite zlen_mem_write; lia.
  - unfold mem_write. rewrite app_assoc. apply ztake_app_exact. rewrite zlen_app. lia.
  - intros k Hk. unfold mem_write. rewrite ztake_app_le by lia. rewrite ztake_ztake. f_equal. lia.
Qed.

Lemma recv_func_spec n c e a m data js : 0 ≤ n → cinv c e → client_closed c = false → socks_closed c = false → 0 < zlen data →
  watched None [] (mk_sys (Some c) (n + 1) e a m) →
  wp (client_recv_func (Some data) js) (returned n) (mk_sys (Some c) (n + 1) e a m).
Proof.
  intros Hn Hi0 Hcc Hsc Hd Hw. pose proof Hi0 as [Hc Hp Hone Hab Hcon Hwait]. unfold client_recv_func.
  apply wp_bind, wp_cl. apply wp_bind, wp_assert; [by rewrite Hcc |].
  assert (aborted c = false) as Hnab by (destruct (aborted c); [specialize (Hab eq_refl); congruence | done]).
  apply wp_bind, wp_dead_enter; [done | done |]. intros i s1 Hw1. apply wp_bind, wp_assert; [by apply Z.ltb_lt |].
  destruct (TCP_WND - buf_used c <? zlen data) eqn:Efull; b2p.
  - apply wp_bind. eapply wp_mono; [apply (dead_leave_spec n i []); [| exact Hw1] |].
    { split; [done |]. split; [by apply cinv_dead | done]. }
    intros k s' es' (-> & Hi' & Hw' & _). apply wp_ret. unfold returned. split; [done |]. split; [done |].
    split; [split; [done | set_solver] | by right; right].
  - destruct (i_buf _ _ Hc) as [Hbl Hbu]. destruct (append_buf (buf c) (buf_used c) data Hbl) as (Hl' & Ht' & Hpre); [lia | lia |].
    subst s1. apply wp_bind, wp_upd. cbn [set buf buf_used tcp_client_eta]. unfold pbuf_taken. apply wp_bind, wp_uenv. apply wp_bind, wp_cl.
    cbn [buf_used socks_up socks_closed].
    set (c1 := mk_tcp_client _ _ _ _ _ _ _ _ _ _ _ _). set (e1 := e <| log_in := log_in e ++ data |>).
    assert (log_in e1 = log_out e1 ++ ztake (buf_used c1) (buf c1)) as Hli'.
    { subst c1 e1. simpl. rewrite Ht', (i_login _ _ Hc). by rewrite app_assoc. }
    assert (watched (Some i) [] (mk_sys (Some c1) (n + 1) e1 a (<[i := 0]> m))) as Hw2 by (by eapply watched_ext; [| | exact Hw1]).
    assert (∀ e2, (socks_up c = true → buf_used c = 0 → e2 = e1 <| send_busy := Some (ztake (buf_used c1) (buf c1)) |>) →
      (buf_used c ≠ 0 ∨ socks_up c = false → e2 = e1) → cinv c1 e2) as Hinv.
    { intros e2 H1 H2. assert (zlen (ztake (buf_used c1) (buf c1)) = buf_used c1) as Hz by (apply ztake_zlen; subst c1; simpl; lia).
      destruct (decide (socks_up c = true ∧ buf_used c = 0)) as [[Hu Hb] | Hno].
      - rewrite H1 by done. split; try done; [| intros Hcc'; destruct (Hcon Hcc); by split | subst c1; simpl; congruence].
        destruct Hc. split; try done; simpl; [lia | |].
        + intros _. simpl in Hz. rewrite Hz. split_and!; [done | lia | lia | done].
        + congruence.
      - rewrite H2 by (destruct (socks_up c); [left; tauto | by right]). split; try done; [| intros Hcc'; destruct (Hcon Hcc); by split | subst c1; simpl; congruence].
        destruct Hc. split; try done; simpl; [lia |]. intros _. specialize (i_send0 Hsc). destruct (send_busy e) as [d |].
        + destruct i_send0 as (? & ? & Hdd). split_and!; [done | lia | lia |]. by rewrite Hpre by lia.
        + intros Hu. specialize (i_send0 Hu). destruct Hno. by split. }
    apply wp_bind.
    destruct ((buf_used c + zlen data =? zlen data) && socks_up c) eqn:Estart; cbn [when].
    + apply andb_true_iff in Estart as [Hb0 Hu]. b2p. assert (buf_used c = 0) as Hb by lia.
      apply wp_bind, wp_assert; [by rewrite Hsc |]. apply wp_bind. unfold client_send_to_socks. apply wp_bind, wp_cl.
      apply wp_bind, wp_assert; [subst c1; simpl; by rewrite Hsc |]. apply wp_bind, wp_assert; [done |].
      apply wp_bind, wp_assert; [apply Z.ltb_lt; subst c1; simpl; lia |].
      assert (send_busy e = None) as Hsb.
      { pose proof (i_send _ _ Hc Hsc) as Hs. destruct (send_busy e); [lia | done]. }
      apply wp_stream_send; [subst e1; simpl; by rewrite (i_socks _ _ Hc), Hsc | subst e1; simpl; by rewrite (i_ready _ _ Hc) | done | |].
      { rewrite ztake_zlen; subst c1; simpl; lia. }
      eapply wp_mono; [apply (synchronize_spec n (Some i) js []) |].
      * split; [done |]. split; [| done]. apply Hinv; [done |]. intros [? | ?]; congruence.
      * by eapply watched_ext; [| | exact Hw2].
      * intros [] s' es [Hi' Hw']. by apply leave_returned.
    + apply wp_ret. eapply wp_mono; [apply (leave_returned n i []) |].
      * split; [done |]. split; [| done]. apply Hinv; [| done]. intros Hu Hb. rewrite Hu, Hb in Estart. simpl in Estart. by rewrite Z.eqb_refl in Estart.
      * done.
      * intros r s' es Hr. done.
Qed.

Lemma sent_func_spec n c e a m k js : 0 ≤ n → cinv c e → client_closed c = false → socks_up c = true → 0 < k ≤ unacked e →
  watched None [] (mk_sys (Some c) (n + 1) e a m) →
  wp (client_sent_func k js) (returned n) (mk_sys (Some c) (n + 1) (e <| unacked := unacked e - k |>) a m).
Proof.
  intros Hn Hi0 Hcc Hup Hk Hw. pose proof Hi0 as [Hc Hp Hone Hab Hcon Hwait]. rewrite Hcc in Hp. cbn [negb] in Hp.
  assert (aborted c = false) as Hnab by (destruct (aborted c); [specialize (Hab eq_refl); congruence | done]).
  destruct (Hcon Hcc) as [H1 H2 H3 H4 H5 H6 H7 H8]. destruct (H6 Hup) as (Hpd & Hpu & Hbuf).
  unfold client_sent_func. apply wp_bind, wp_cl. apply wp_bind, wp_assert; [by rewrite Hcc |]. apply wp_bind, wp_assert; [done |].
  apply wp_bind, wp_assert; [apply andb_true_iff; split; [apply Z.ltb_lt | apply Z.leb_le]; lia |].
  set (e1 := e <| unacked := unacked e - k |>).
  apply wp_bind, wp_dead_enter; [done | by eapply watched_ext; [| | exact Hw] |]. intros i s1 Hw1. subst s1.
  apply wp_bind, wp_upd. apply wp_bind, wp_cl. set (c1 := c <| dead_aborted := Some i |>) in *.
  set (c2 := c1 <| socks_recv_tcp_pending := socks_recv_tcp_pending c1 - k |>).
  assert (core c2 e1) as Hc2 by (destruct Hc; by split). set (m' := <[i := 0]> m) in *.
  assert (watched (Some i) [] (mk_sys (Some c2) (n + 1) e1 a m')) as Hw2 by (by eapply watched_ext; [| | exact Hw1]).
  apply wp_bind. change (socks_recv_buf_used c2) with (socks_recv_buf_used c).
  destruct (0 <? socks_recv_buf_used c) eqn:Eu; b2p.
  - destruct Hbuf as [? | (Hpl & Hsz & Hwt & _)]; [lia |].
    apply wp_bind, wp_assert; [done |]. apply wp_bind, wp_assert; [apply Z.ltb_lt; simpl; lia |]. apply wp_bind, wp_upd.
    set (c3 := c2 <| socks_recv_waiting := false |>).
    assert (sending c3 e1) as Hs.
    { subst c3 c2 c1 e1. split; simpl; try (done || lia).
      - destruct Hc2. by split.
      - split_and!; congruence.
      - rewrite H8. unfold rest. rewrite Hup, (proj2 (Z.leb_le _ _)) by lia. done. }
    apply wp_bind. eapply wp_mono; [apply (send_out_spec n (Some i) []); [done | exact Hs | simpl; lia | done | by eapply watched_ext; [| | exact Hw2]] |].
    intros [] s' es; [intros [Hi' Hw']; apply wp_ret; cbn [app]; rewrite app_nil_r; by apply leave_returned |].
    intros (-> & c4 & e4 & a4 & -> & Hso). apply wp_bind, wp_cl.
    apply wp_bind, wp_assert; [apply Z.ltb_lt; apply (o_pending _ _ _ Hso) |].
    assert (watched (Some i) [] (mk_sys (Some c4) (n + 1) e4 a4 m')) as Hw4.
    { eapply watched_ext; [| | exact Hw2]; [done |]. pose proof (o_same _ _ _ Hso) as [? _]. pose proof (o_flags _ _ _ Hso) as (_ & ? & _).
      split; [transitivity false; [done | by symmetry] | done]. }
    destruct ((socks_recv_buf_used c4 =? -1) && negb (socks_closed c4)) eqn:Eagain; cbn [when].
    + apply andb_true_iff in Eagain as [Hu4 Hs4%negb_true_iff]. b2p. apply wp_bind.
      eapply wp_mono; [by apply (sent_out_initiate n (Some i) [] c3) |]. intros [] s5 es5 [Hi5 Hw5].
      eapply wp_mono; [by apply (synchronize_spec n (Some i) js es5) |]. intros [] s6 es6 [Hi6 Hw6]. cbn [app].
      by apply leave_returned.
    + apply wp_ret. apply (leave_returned n i []); [| done]. split; [done |]. split; [| done]. eapply sent_out_cinv; [done |].
      intros Hs4 Hu4. by rewrite Hs4, Hu4 in Eagain.
  - destruct Hbuf as [Hu | ?]; [| lia]. assert (rest c = []) as Hr by (unfold rest; by rewrite Hu, andb_false_r).
    rewrite Hr, app_nil_r in H8. change (socks_closed c2) with (socks_closed c).
    change (socks_recv_tcp_pending c2) with (socks_recv_tcp_pending c - k).
    destruct (socks_closed c && (socks_recv_tcp_pending c - k =? 0)) eqn:Eend; cbn [when].
    + apply andb_true_iff in Eend as [Hsc He]. b2p. eapply wp_mono; [apply (free_client_spec 1 n (Some i) []); try done |].
      * right. by split.
      * intros [] s' es [Hi' Hw']. by apply leave_returned.
    + apply wp_ret. apply (leave_returned n i []); [| done]. split; [done |]. split; [| done].
      split; simpl; try (done || congruence); [by rewrite Hp, Hcc |]. intros _. split; simpl; try done.
      * congruence.
      * intros _. split_and!; [lia | lia | by left].
      * intros Hsc. split; [done |]. right. rewrite Hsc in Eend. simpl in Eend. b2p. lia.
      * unfold rest. simpl. by rewrite Hu, andb_false_r, app_nil_r.
Qed.

Lemma murder_spec n c e a m : 0 ≤ n → cinv c e → watched None [] (mk_sys (Some c) (n + 1) e a m) →
  wp client_murder (λ _ s' es, inv n s' ∧ client s' = None)
    (mk_sys (Some c) (n + 1) (e <| peer_gone := true |> <| server_gone := true |>) a m).
Proof.
  intros Hn [Hc Hp Hone Hab Hcon Hwait] Hw. set (e0 := e <| peer_gone := true |> <| server_gone := true |>).
  assert (core c e0) as Hc0 by (destruct Hc; split; try done; simpl; naive_solver). clear Hc Hwait Hcon.
  unfold client_murder. apply wp_bind, wp_cl. apply wp_bind.
  assert (wp (when (negb (client_closed c)) (tcp_err false;; tcp_recv false;; tcp_sent false;; client_abort_pcb;; upd (λ c, c <| client_closed := true |>)))
    (λ _ s es, ∃ c' e' m', s = mk_sys (Some c') (n + 1) e' a m' ∧ core c' e' ∧ client_closed c' = true ∧ pcb_open e' = false ∧
      peer_gone e' = true ∧ server_gone e' = true ∧ watched None [] s)
    (mk_sys (Some c) (n + 1) e0 a m)) as H1.
  { destruct (client_closed c) eqn:Ec; cbn [negb when].
    - apply wp_ret. exists c, e0, m. split_and!; done.
    - assert (aborted c = false) as Hnab by (destruct (aborted c); [by specialize (Hab eq_refl) | done]).
      apply wp_bind, wp_tcp_err; [done |]. apply wp_bind, wp_tcp_recv; [done |]. apply wp_bind, wp_tcp_sent; [done |].
      apply wp_bind, (wp_abort_pcb None []); [done | done | done |]. intros m' s1 Hw1. apply wp_upd. eexists _, _, m'.
      split; [done |]. split; [destruct Hc0; by split |]. split_and!; try done. by intros ? [= <-]. }
  eapply wp_mono; [exact H1 |]. intros [] s es (c1 & e1 & m1 & -> & Hc1 & Hcc1 & Hp1 & Hpg & Hsg & Hw1).
  apply wp_bind, wp_cl. apply wp_bind.
  assert (wp (when (negb (socks_closed c1)) (BSocksClient_Free;; upd (λ c, c <| socks_closed := true |>)))
    (λ _ s es, ∃ c' e' m', s = mk_sys (Some c') (n + 1) e' a m' ∧ ended e' ∧ client_closed c' = true ∧ socks_closed c' = true ∧ watched None [] s)
    (mk_sys (Some c1) (n + 1) e1 a m1)) as H2.
  { destruct (socks_closed c1) eqn:Es; cbn [negb when].
    - apply wp_ret. exists c1, e1, m1. split_and!; try done. eapply core_ended; try done. by left.
    - apply wp_bind, wp_socks_free; [by rewrite (i_socks _ _ Hc1), Es |]. apply wp_upd. eexists _, _, m1. split; [done |].
      split; [eapply core_freed_ended; [exact Hc1 | done | by right | by left] |]. split_and!; [done | done |]. by eapply watched_ext; [| | exact Hw1]. }
  eapply wp_mono; [exact H2 |]. intros [] s es2 (c2 & e2 & m2 & -> & He2 & Hcc2 & Hsc2 & Hw2).
  eapply wp_mono; [by apply (dealloc_none n None []) |]. intros [] s3 es3 (Hn3 & Hi3 & _). by split.
Qed.

(** ** Accepting a connection *)

(** Before: the stack has a new control block, nothing else. *)
Definition fresh_env : env := mk_env true false false false 0 false false None false [] [] [] [] false false.

(** The memory of a client, whatever it holds. *)
Definition client_memory (c : tcp_client) : Prop :=
  zlen (buf c) = TCP_WND ∧ zlen (socks_recv_buf c) = CLIENT_SOCKS_RECV_BUF_SIZE.

(** Evaluates the updates of the structure and of the environment. *)
Ltac flat :=
  cbn [set tcp_client_eta env_eta sys_eta fresh_env client num_clients en ans cells aborted dead_aborted client_closed buf buf_used socks_up
    socks_closed socks_recv_buf socks_recv_buf_used socks_recv_buf_sent socks_recv_waiting socks_recv_tcp_pending pcb_open cb_err cb_recv
    cb_sent unacked socks_open socks_ready send_busy recv_busy log_in log_out log_rin log_rout peer_gone server_gone].

Lemma accept_spec n mem js a m : 0 ≤ n → client_memory mem →
  wp (listener_accept_func true true mem js) (returned n) (mk_sys None n fresh_env a m).
Proof.
  intros Hn [Hb Hr]. unfold listener_accept_func. cbn [negb]. apply wp_bind, wp_uenv. apply wp_bind, wp_modify. flat.
  apply wp_bind, wp_upd. flat. apply wp_bind, wp_emit. apply wp_bind, wp_get. flat.
  apply wp_bind, wp_assert; [apply Z.leb_le; lia |]. apply wp_bind, wp_modify. flat.
  apply wp_bind, wp_upd. flat. apply wp_bind, wp_tcp_err; [done |]. flat. apply wp_bind, wp_tcp_recv; [done |]. flat.
  apply wp_bind, wp_upd. flat. apply wp_bind, wp_dead_enter; [done | by intros ? [= <-] |]. flat. intros i Hw1. apply wp_bind.
  eapply wp_mono; [apply (synchronize_spec n (Some i) js [ListAppend]) |].
  - split; [done |]. flat. split; [| done]. split; flat; try done.
    split; flat; try done. by exists [].
  - by apply (watched_app _ [] [ListAppend]); [set_solver |].
  - intros [] s' es [Hi Hw]. cbn [app] in Hw |- *. eapply wp_mono; [by apply (leave_returned n i (ListAppend :: es)) |].
    intros r s2 es2 Hres. done.
Qed.

(** ** Runs *)

(** Outside of callbacks. *)
Definition good (n : Z) (s : sys) : Prop := inv n s ∧ watched None [] s.

(** The value a callback returns says whether it aborted the control block. *)
Definition abort_reported (r : option Z) (es : list tcall) : Prop :=
  match r with Some r => (r = ERR_ABRT ↔ TcpAbort ∈ es) | None => True end.

Lemma step_spec n ev s : good n s → wp (step ev) (λ r s' es, good n s' ∧ abort_reported r es ∧ (ev = LMurder → client s' = None ∧ r = None)) s.
Proof.
  intros [[Hn Hi] Hw]. destruct s as [oc nc e a m]. simpl in Hi. unfold step. apply wp_bind, wp_genv.
  assert (good n (mk_sys oc nc e a m)) as Hsame by (by split).
  destruct oc as [c |].
  - destruct Hi as [Hi ->]. pose proof Hi as [Hc Hp Hone Hab Hcon Hwait].
    assert (∀ P : Prop, pcb_open e = true → (client_closed c = false → connected c e → P) → P) as Hopen.
    { intros P Ho HP. rewrite Hp in Ho. destruct (client_closed c); [done |]. by apply HP; [| apply Hcon]. }
    assert (∀ (f : TM Z) s, wp f (returned n) s → wp (r ← f; mret (Some r)) (λ r s' es, good n s' ∧ abort_reported r es ∧ True) s) as Hret.
    { intros f s Hf. apply wp_bind. eapply wp_mono; [exact Hf |]. intros r s' es (? & ? & ? & _). apply wp_ret. rewrite app_nil_r. done. }
    destruct ev as [| data js | | k js | j |].
    + destruct (pcb_open e && cb_err e) eqn:E; [| apply wp_ret; done]. apply andb_true_iff in E as [Ho _]. apply (Hopen _ Ho). intros Hcc _.
      apply wp_bind, wp_uenv. apply wp_bind. eapply wp_mono; [by apply err_func_spec |]. intros [] s' es [Hi' Hw']. by apply wp_ret.
    + destruct (pcb_open e && cb_recv e && (0 <? zlen data)) eqn:E; [| apply wp_ret; done]. b2p. apply Hopen; [done |]. intros Hcc Hco.
      eapply wp_mono; [apply Hret, recv_func_spec; try done |]; [| by intros ? ? ? (? & ? & _)].
      pose proof (i_recv _ _ Hco). destruct (socks_closed c); [simpl in *; congruence | done].
    + destruct (pcb_open e && cb_recv e) eqn:E; [| apply wp_ret; done]. b2p. apply Hopen; [done |]. intros Hcc Hco.
      apply wp_bind, wp_uenv. eapply wp_mono; [by apply Hret, fin_spec |]. by intros ? ? ? (? & ? & _).
    + destruct (pcb_open e && cb_sent e && (0 <? k) && (k <=? unacked e)) eqn:E; [| apply wp_ret; done]. b2p. apply Hopen; [done |].
      intros Hcc Hco. apply wp_bind, wp_uenv. eapply wp_mono; [apply Hret, sent_func_spec; try done |]; [| by intros ? ? ? (? & ? & _)].
      by rewrite <- (i_sent _ _ Hco).
    + apply wp_bind. eapply wp_mono; [by apply (fire_spec n None []) |]. intros [] s' es [Hi' Hw']. by apply wp_ret.
    + apply wp_bind, wp_get. cbn [client]. apply wp_bind, wp_uenv. apply wp_bind. eapply wp_mono; [by apply murder_spec |].
      intros [] s' es [Hi' Hn']. apply wp_ret. split; [| done]. split; [done |]. intros c' Hc'. congruence.
  - destruct Hi as [Hi ->]. destruct (d_ops _ Hi) as [Hb Hr]. rewrite (d_pcb _ Hi).
    destruct ev as [| | | | j |]; cbn [andb]; try (apply wp_ret; done).
    apply wp_bind. eapply wp_mono; [by apply (fire_spec n None []) |]. intros [] s' es [Hi' Hw']. by apply wp_ret.
Qed.

Lemma run_spec n evs : ∀ s, good n s → wp (run evs) (λ _ s' _, good n s') s.
Proof.
  induction evs as [| ev evs IH]; intros s Hg; cbn [run]; [by apply wp_ret |]. apply wp_bind.
  eapply wp_mono; [by apply (step_spec n) |]. intros r s1 es1 (Hg1 & _). by apply IH.
Qed.

(** A connection is accepted, then the events happen. *)
Definition relay_run (mem : tcp_client) (js : list socks_job) (evs : list event) : TM Z :=
  r ← listener_accept_func true true mem js; run evs;; mret r.

Lemma relay_run_spec n mem js evs a : 0 ≤ n → client_memory mem →
  wp (relay_run mem js evs) (λ _ s' _, good n s') (mk_sys None n fresh_env a ∅).
Proof.
  intros Hn Hm. apply wp_bind. eapply wp_mono; [by apply accept_spec |]. intros r s es (Hi & Hw & _).
  apply wp_bind. eapply wp_mono; [by apply (run_spec n) |]. intros [] s' es' Hg. by apply wp_ret.
Qed.

Lemma good_sides n s : good n s →
  match client s with
  | Some c => num_clients s = n + 1 ∧ (pcb_open (en s) = true ∨ socks_open (en s) = true)
  | None => num_clients s = n ∧ pcb_open (en s) = false ∧ socks_open (en s) = false
  end.
Proof.
  intros [[_ Hi] _]. destruct (client s) as [c |]; destruct Hi as [Hi Hnc].
  - split; [done |]. rewrite (i_pcb _ _ Hi), (i_socks _ _ (i_core _ _ Hi)). pose proof (i_one _ _ Hi) as H1.
    destruct (client_closed c); [right; by rewrite H1 | by left].
  - split_and!; [done | apply (d_pcb _ Hi) | apply (d_socks _ Hi)].
Qed.

(** ** Theorems *)

(** [C35] Whatever the stack and the SOCKS client do within their contracts, in any
    order, with jobs running inside the callbacks and with operations of the stack
    failing at any time, the relay of an accepted connection violates no assertion,
    uses no object that is gone and overlaps no stream operations. While the client
    exists at least one of its sides does; when it is freed, both are released and
    the count of clients is what it was. At the end of the program any client can
    be freed. *)
Theorem tcp_client_safe n mem js evs a : 0 ≤ n → client_memory mem →
  ∃ r s es, relay_run mem js evs (mk_sys None n fresh_env a ∅) = Some (r, s, es) ∧
    match client s with
    | Some c => num_clients s = n + 1 ∧ (pcb_open (en s) = true ∨ socks_open (en s) = true)
    | None => num_clients s = n ∧ pcb_open (en s) = false ∧ socks_open (en s) = false
    end ∧
    ∃ s' es', step LMurder s = Some (None, s', es') ∧ client s' = None ∧ num_clients s' = n ∧
      pcb_open (en s') = false ∧ socks_open (en s') = false.
Proof.
  intros Hn Hm. destruct (wp_inv _ _ _ (relay_run_spec n mem js evs a Hn Hm)) as (r & s & es & E & Hg).
  exists r, s, es. split; [exact E |]. split; [by apply good_sides |].
  destruct (wp_inv _ _ _ (step_spec n LMurder s Hg)) as (r' & s' & es' & E' & Hg' & _ & Hnone).
  destruct (Hnone eq_refl) as [Hc ->]. exists s', es'. split; [exact E' |]. split; [exact Hc |].
  apply good_sides in Hg'. rewrite Hc in Hg'. exact Hg'.
Qed.

(** [C36] Bytes are relayed in order, in both directions: after any run, what the
    server was sent is a prefix of what was taken from the local side, and what was
    written to the local side is a prefix of what was received from the server.
    When the client was freed, the server got everything unless the SOCKS
    connection failed or was closed by the server, and the local side got
    everything unless it closed, failed or was aborted. *)
Theorem tcp_client_streams n mem js evs a : 0 ≤ n → client_memory mem →
  ∃ r s es, relay_run mem js evs (mk_sys None n fresh_env a ∅) = Some (r, s, es) ∧
    (∃ x, log_in (en s) = log_out (en s) ++ x) ∧
    (∃ x, log_rin (en s) = log_rout (en s) ++ x) ∧
    (client s = None →
      (server_gone (en s) = false → log_out (en s) = log_in (en s)) ∧
      (peer_gone (en s) = false → log_rout (en s) = log_rin (en s))).
Proof.
  intros Hn Hm. destruct (wp_inv _ _ _ (relay_run_spec n mem js evs a Hn Hm)) as (r & s & es & E & Hg).
  exists r, s, es. split; [exact E |]. destruct Hg as [[_ Hi] _]. destruct (client s) as [c |]; destruct Hi as [Hi _].
  - apply i_core in Hi. split; [eexists; apply (i_login _ _ Hi) |]. split; [apply (i_prefix _ _ Hi) | intros [=]].
  - split; [apply (d_out _ Hi) |]. split; [apply (d_rout _ Hi) |]. intros _. split; [apply (d_all_out _ Hi) | apply (d_all_rout _ Hi)].
Qed.

(** A callback of the stack returns [ERR_ABRT] exactly when the control block
    was aborted while it ran, by itself or by a job that ran inside it; the stack
    uses a control block after any other answer. This holds for the callback that
    accepts the connection and for every later one, also when the client is freed
    meanwhile. *)
Theorem tcp_client_abort_result n mem js evs ev a : 0 ≤ n → client_memory mem →
  (∃ r s es, listener_accept_func true true mem js (mk_sys None n fresh_env a ∅) = Some (r, s, es) ∧
    (r = ERR_ABRT ↔ TcpAbort ∈ es)) ∧
  (∃ r s es, relay_run mem js evs (mk_sys None n fresh_env a ∅) = Some (r, s, es) ∧
    ∃ r' s' es', step ev s = Some (r', s', es') ∧ ∀ v, r' = Some v → (v = ERR_ABRT ↔ TcpAbort ∈ es')).
Proof.
  intros Hn Hm. split.
  - destruct (wp_inv _ _ _ (accept_spec n mem js a ∅ Hn Hm)) as (r & s & es & E & _ & _ & Hr & _). by exists r, s, es.
  - destruct (wp_inv _ _ _ (relay_run_spec n mem js evs a Hn Hm)) as (r & s & es & E & Hg). exists r, s, es. split; [exact E |].
    destruct (wp_inv _ _ _ (step_spec n ev s Hg)) as (r' & s' & es' & E' & _ & Hr & _).
    exists r', s', es'. split; [exact E' |]. intros v ->. exact Hr.
Qed.

(** ** Witnesses *)

(** Memory as [malloc] may return it. *)
Definition wit_mem : tcp_client :=
  mk_tcp_client true (Some 9%nat) true (replicate (Z.to_nat TCP_WND) 170) 77 true true (replicate (Z.to_nat CLIENT_SOCKS_RECV_BUF_SIZE) 85) 5 6 true 3.

Lemma wit_mem_ok : client_memory wit_mem.
Proof. split; vm_compute; reflexivity. Qed.

(** Every operation succeeds. *)
Definition wit_answers : answers := mk_answers [] [] [] [].

(** The local side sends three bytes and closes, the server answers two before it
    gets the third. *)
Definition wit_events : list event :=
  [LJob JUp; LRecv [1; 2; 3] [JSendDone 2]; LJob (JRecv [7; 8]); LSent 2 []; LFin; LJob (JSendDone 1)].

(** The client and the logs after a run. *)
Definition wit_state (x : option (Z * sys * list tcall)) : option (bool * Z * bool * bytes * bytes * bytes * bytes) :=
  match x with
  | Some (_, s, _) => Some (bool_decide (is_Some (client s)), num_clients s, server_gone (en s), log_in (en s), log_out (en s), log_rin (en s), log_rout (en s))
  | None => None
  end.

Lemma wit_run : wit_state (relay_run wit_mem [] wit_events (mk_sys None 4 fresh_env wit_answers ∅)) =
  Some (false, 4, false, [1; 2; 3], [1; 2; 3], [7; 8], [7; 8]).
Proof. vm_compute. reflexivity. Qed.

Lemma tcp_client_safe_witness : ∃ s,
  (∃ r es, relay_run wit_mem [] wit_events (mk_sys None 4 fresh_env wit_answers ∅) = Some (r, s, es)) ∧
  num_clients s = 4 ∧ ∃ s' es', step LMurder s = Some (None, s', es') ∧ num_clients s' = 4.
Proof.
  destruct (tcp_client_safe 4 wit_mem [] wit_events wit_answers ltac:(lia) wit_mem_ok) as (r & s & es & E & _ & s' & es' & E' & _ & Hn & _).
  exists s. pose proof wit_run as H. rewrite E in H. injection H as _ H _ _ _ _ _. split; [exists r, es; exact E |]. split; [exact H |].
  exists s', es'. split; [exact E' | exact Hn].
Defined.

Lemma tcp_client_streams_witness : ∃ s,
  (∃ r es, relay_run wit_mem [] wit_events (mk_sys None 4 fresh_env wit_answers ∅) = Some (r, s, es)) ∧
  log_in (en s) = [1; 2; 3] ∧ log_out (en s) = log_in (en s).
Proof.
  destruct (tcp_client_streams 4 wit_mem [] wit_events wit_answers ltac:(lia) wit_mem_ok) as (r & s & es & E & _ & _ & Hend).
  exists s. pose proof wit_run as H. rewrite E in H. injection H as Hc _ Hg Hin _ _ _. split; [exists r, es; exact E |]. split; [exact Hin |].
  apply Hend; [| exact Hg]. destruct (client s) as [c |]; [discriminate Hc | reflexivity].
Defined.

(** A job inside the callback receives data that the stack refuses to take. *)
Lemma tcp_client_abort_result_witness : ∃ r s es,
  listener_accept_func true true wit_mem [JUp; JRecv [5]] (mk_sys None 0 fresh_env (mk_answers [] [] [-6] []) ∅) = Some (r, s, es) ∧
  r = ERR_ABRT ∧ TcpAbort ∈ es.
Proof.
  destruct (tcp_client_abort_result 0 wit_mem [JUp; JRecv [5]] [] LFin (mk_answers [] [] [-6] []) ltac:(lia) wit_mem_ok)
    as [(r & s & es & E & Hr) _].
  exists r, s, es. split; [exact E |].
  assert (r = ERR_ABRT) as Hab.
  { assert ((match listener_accept_func true true wit_mem [JUp; JRecv [5]] (mk_sys None 0 fresh_env (mk_answers [] [] [-6] []) ∅) with
      Some (r, _, _) => Some r | None => None end) = Some ERR_ABRT) as H by (vm_compute; reflexivity).
    rewrite E in H. injection H as H. exact H. }
  split; [exact Hab | apply Hr; exact Hab].
Defined.
