(* ===== verification/Bufferevent.v ===== *)
(** * Buffered sockets (libevent/bufferevent.c, bufferevent_sock.c)

    The part of libevent that redsocks stands on: a socket with an input and an output
    buffer, the two events of the socket, water marks and callbacks. The buffers are the
    bytes in them. Left out are timeouts, rate limits, deferred callbacks, locks and
    connecting through libevent, none of which redsocks uses; adding and deleting an event
    does not fail. *)
From S2P Require Import Prelude.

(** ** Data *)

(** A set of [EV_READ] and [EV_WRITE]. *)
Record evset := Ev { ev_R : bool; ev_W : bool }.
Definition ev_none : evset := Ev false false.
Definition EV_READ : evset := Ev true false.
Definition EV_WRITE : evset := Ev false true.
Definition EV_BOTH : evset := Ev true true.
Definition ev_or (a b : evset) : evset := Ev (ev_R a || ev_R b) (ev_W a || ev_W b).
Definition ev_minus (a b : evset) : evset := Ev (ev_R a && negb (ev_R b)) (ev_W a && negb (ev_W b)).
#[export] Instance evset_eq_dec : EqDecision evset.
Proof. solve_decision. Defined.

(** Which function of the program a callback is. *)
Inductive data_cb := CB_NULL | CB_relay_connected | CB_subsys | CB_relay.
#[export] Instance data_cb_eq_dec : EqDecision data_cb.
Proof. solve_decision. Defined.

(** [ev_read] and [ev_write]: whether the event is added. [read_suspended]: for the sake
    of the high water mark. *)
Record bufferevent := mk_bufferevent {
  bev_fd : Z;
  input : bytes;
  output : bytes;
  enabled : evset;
  wm_read_low : Z; wm_read_high : Z;
  wm_write_low : Z; wm_write_high : Z;
  read_watermarks_cb : bool;
  read_suspended : bool;
  ev_read : bool; ev_write : bool;
  readcb : data_cb; writecb : data_cb;
}.
#[export] Instance eta_bufferevent : Eta bufferevent := λ r,
  mk_bufferevent (bev_fd r) (input r) (output r) (enabled r) (wm_read_low r) (wm_read_high r) (wm_write_low r) (wm_write_high r)
    (read_watermarks_cb r) (read_suspended r) (ev_read r) (ev_write r) (readcb r) (writecb r).

(** ** Operations *)

Definition be_socket_enable (event : evset) (b : bufferevent) : bufferevent :=
  b <| ev_read := ev_R event || ev_read b |> <| ev_write := ev_W event || ev_write b |>.
Definition be_socket_disable (event : evset) (b : bufferevent) : bufferevent :=
  b <| ev_read := negb (ev_R event) && ev_read b |> <| ev_write := negb (ev_W event) && ev_write b |>.

Definition bufferevent_suspend_read_ (b : bufferevent) : bufferevent :=
  (if read_suspended b then b else be_socket_disable EV_READ b) <| read_suspended := true |>.
Definition bufferevent_unsuspend_read_ (b : bufferevent) : bufferevent :=
  let b1 := b <| read_suspended := false |> in
  if ev_R (enabled b1) then be_socket_enable EV_READ b1 else b1.

(** The callback on the input buffer, when it is enabled. *)
Definition bufferevent_inbuf_wm_cb (b : bufferevent) : bufferevent :=
  if wm_read_high b <=? zlen (input b) then bufferevent_suspend_read_ b else bufferevent_unsuspend_read_ b.
Definition invoke_input (b : bufferevent) : bufferevent := if read_watermarks_cb b then bufferevent_inbuf_wm_cb b else b.

(** The callback on the output buffer. *)
Definition bufferevent_socket_outbuf_cb (n_added : Z) (b : bufferevent) : bufferevent :=
  if negb (n_added =? 0) && ev_W (enabled b) && negb (ev_write b) then b <| ev_write := true |> else b.

Definition bufferevent_enable (event : evset) (b : bufferevent) : bufferevent :=
  let impl_events := if read_suspended b then ev_minus event EV_READ else event in
  be_socket_enable impl_events (b <| enabled := ev_or (enabled b) event |>).
Definition bufferevent_disable (event : evset) (b : bufferevent) : bufferevent :=
  be_socket_disable event (b <| enabled := ev_minus (enabled b) event |>).

Definition bufferevent_setwatermark (events : evset) (lowmark highmark : Z) (b : bufferevent) : bufferevent :=
  let b := if ev_W events then b <| wm_write_low := lowmark |> <| wm_write_high := highmark |> else b in
  if ev_R events then
    let b := b <| wm_read_low := lowmark |> <| wm_read_high := highmark |> in
    if negb (highmark =? 0) then
      let b := b <| read_watermarks_cb := true |> in
      if highmark <=? zlen (input b) then bufferevent_suspend_read_ b else bufferevent_unsuspend_read_ b
    else bufferevent_unsuspend_read_ (b <| read_watermarks_cb := false |>)
  else b.

(** [bufferevent_new]: only writing is enabled. *)
Definition bufferevent_new (fd : Z) (rcb wcb : data_cb) : bufferevent :=
  mk_bufferevent fd [] [] EV_WRITE 0 0 0 0 false false false false rcb wcb.

(** [evbuffer_remove] on the input. *)
Definition evbuffer_remove (n : Z) (b : bufferevent) : bytes * bufferevent :=
  let d := ztake n (input b) in
  (d, if 0 <? zlen d then invoke_input (b <| input := zdrop n (input b) |>) else b).

(** [bufferevent_write_buffer]: the whole of another buffer is appended to the output; the
    other buffer is the input of a bufferevent, or a message. *)
Definition evbuffer_add (d : bytes) (b : bufferevent) : bufferevent :=
  if zlen d =? 0 then b else bufferevent_socket_outbuf_cb (zlen d) (b <| output := output b ++ d |>).
Definition bufferevent_write_buffer (to from : bufferevent) : bufferevent * bufferevent :=
  if zlen (input from) =? 0 then (to, from)
  else (evbuffer_add (input from) to, invoke_input (from <| input := [] |>)).

(** ** Events of the socket *)

Definition MAX_SINGLE_READ_DEFAULT : Z := 16384.
Definition MAX_SINGLE_WRITE_DEFAULT : Z := 16384.

(** What the kernel answers to a read and to a write. *)
Inductive read_answer := R_data (d : bytes) | R_eof | R_again | R_refused | R_error.
Inductive write_answer := W_sent (n : Z) | W_zero | W_again | W_error.

(** The callback that is to be run. *)
Inductive bev_cb := Cb_none | Cb_read | Cb_write | Cb_eof | Cb_error.

(** The most a read asks for. *)
Definition read_howmuch (b : bufferevent) : Z :=
  let howmuch := if negb (wm_read_high b =? 0) then wm_read_high b - zlen (input b) else -1 in
  if (howmuch <? 0) || (MAX_SINGLE_READ_DEFAULT <? howmuch) then MAX_SINGLE_READ_DEFAULT else howmuch.

Definition bufferevent_readcb (ans : read_answer) (b : bufferevent) : bufferevent * bev_cb :=
  if negb (wm_read_high b =? 0) && (wm_read_high b - zlen (input b) <=? 0) then (bufferevent_suspend_read_ b, Cb_none) else
  if read_suspended b then (b, Cb_none) else
  match ans with
  | R_data d =>
      let b := invoke_input (b <| input := input b ++ d |>) in
      (b, if wm_read_low b <=? zlen (input b) then Cb_read else Cb_none)
  | R_eof => (bufferevent_disable EV_READ b, Cb_eof)
  | R_again | R_refused => (b, Cb_none)
  | R_error => (bufferevent_disable EV_READ b, Cb_error)
  end.

(** With the bytes that were sent. *)
Definition bufferevent_writecb (ans : write_answer) (b : bufferevent) : bytes * bufferevent * bev_cb :=
  let finish (d : bytes) (b : bufferevent) :=
    let b := if zlen (output b) =? 0 then b <| ev_write := false |> else b in
    (d, b, if zlen (output b) <=? wm_write_low b then Cb_write else Cb_none) in
  if zlen (output b) =? 0 then finish [] b else
  match ans with
  | W_sent n => finish (ztake n (output b)) (b <| output := zdrop n (output b) |>)
  | W_again => ([], b, Cb_none)
  | W_zero | W_error => ([], bufferevent_disable EV_WRITE b, Cb_error)
  end.

(** The answers a kernel can give. *)
Definition read_answer_ok (b : bufferevent) (ans : read_answer) : Prop :=
  match ans with R_data d => 1 ≤ zlen d ≤ read_howmuch b | _ => True end.
Definition write_answer_ok (b : bufferevent) (ans : write_answer) : Prop :=
  match ans with W_sent n => 1 ≤ n ≤ Z.min MAX_SINGLE_WRITE_DEFAULT (zlen (output b)) | _ => True end.

(** ** Settled states

    Between callbacks the read event is added exactly when reading is enabled and the input
    is below the high water mark. [settle] puts a bufferevent in that state; the
    operations keep it. *)

Definition settle (b : bufferevent) : bufferevent :=
  let full := negb (wm_read_high b =? 0) && (wm_read_high b <=? zlen (input b)) in
  b <| read_watermarks_cb := negb (wm_read_high b =? 0) |> <| read_suspended := full |> <| ev_read := ev_R (enabled b) && negb full |>.
Definition settled (b : bufferevent) : Prop := b = settle b.

Lemma settle_settled b : settled (settle b).
Proof. done. Qed.

(** A settled bufferevent in terms of its other fields. *)
Lemma settled_fields b : settled b →
  read_watermarks_cb b = negb (wm_read_high b =? 0) ∧
  read_suspended b = negb (wm_read_high b =? 0) && (wm_read_high b <=? zlen (input b)) ∧
  ev_read b = ev_R (enabled b) && negb (read_suspended b).
Proof. destruct b. unfold settled, settle. cbn. intros [= -> -> ->]. done. Qed.

Ltac bev_cases := repeat match goal with
  | |- context [if ?b then _ else _] => lazymatch b with context [if _ then _ else _] => fail | _ => destruct b eqn:? end
  end.

Ltac settle_tac b :=
  let H := fresh in let H1 := fresh in let H2 := fresh in let H3 := fresh in
  intros H; destruct (settled_fields _ H) as (H1 & H2 & H3); clear H; destruct b as [fd inp out [er ew] rl rh wl wh cb sus r w rcb wcb]; cbn in H1, H2, H3; subst.

Lemma invoke_input_settle b d : settled b → invoke_input (b <| input := d |>) = settle (b <| input := d |>).
Proof.
  settle_tac b. unfold invoke_input, bufferevent_inbuf_wm_cb, settle, bufferevent_suspend_read_, bufferevent_unsuspend_read_, be_socket_disable, be_socket_enable. cbn.
  destruct (rh =? 0); cbn; [done |]. destruct (rh <=? zlen d), (rh <=? zlen inp), er; cbn; done.
Qed.

Lemma enable_settle e b : settled b →
  bufferevent_enable e b = settle (b <| enabled := ev_or (enabled b) e |> <| ev_write := ev_W e || ev_write b |>).
Proof.
  settle_tac b. destruct e as [[] []]; unfold bufferevent_enable, settle, be_socket_enable; cbn; destruct (rh =? 0), (rh <=? zlen inp), er; cbn; try done.
Qed.

Lemma disable_settle e b : settled b →
  bufferevent_disable e b = settle (b <| enabled := ev_minus (enabled b) e |> <| ev_write := negb (ev_W e) && ev_write b |>).
Proof.
  settle_tac b. destruct e as [[] []]; unfold bufferevent_disable, settle, be_socket_disable; cbn; destruct (rh =? 0), (rh <=? zlen inp), er; cbn; try done.
Qed.

Lemma setwatermark_settle e low high b : settled b →
  bufferevent_setwatermark e low high b = settle (
    let b := if ev_W e then b <| wm_write_low := low |> <| wm_write_high := high |> else b in
    if ev_R e then b <| wm_read_low := low |> <| wm_read_high := high |> else b).
Proof.
  settle_tac b. unfold bufferevent_setwatermark, settle, bufferevent_suspend_read_, bufferevent_unsuspend_read_, be_socket_disable, be_socket_enable.
  destruct e as [[] []]; cbn; destruct (rh =? 0), (high =? 0), (rh <=? zlen inp), (high <=? zlen inp), er; cbn; done.
Qed.

Lemma evbuffer_add_fields d b :
  evbuffer_add d b = b <| output := output b ++ d |> <| ev_write := negb (zlen d =? 0) && ev_W (enabled b) || ev_write b |>.
Proof.
  unfold evbuffer_add, bufferevent_socket_outbuf_cb. destruct b as [fd inp out [er ew] rl rh wl wh cb sus r w rcb wcb]. cbn.
  destruct (Z.eqb_spec (zlen d) 0) as [E | E]; cbn.
  - apply zlen_0_nil in E as ->. by rewrite app_nil_r.
  - destruct ew, w; done.
Qed.

Lemma settled_output b o w : settled b → settled (b <| output := o |> <| ev_write := w |>).
Proof. destruct b. unfold settled, settle. cbn. intros [= -> -> ->]. done. Qed.
Lemma settled_callbacks b r w : settled b → settled (b <| readcb := r |> <| writecb := w |>).
Proof. destruct b. unfold settled, settle. cbn. intros [= -> -> ->]. done. Qed.

(** The read event of a settled bufferevent: the kernel is asked for data that fits. *)
Lemma readcb_settle ans b : settled b → ev_read b = true → read_answer_ok b ans →
  bufferevent_readcb ans b = match ans with
    | R_data d => (settle (b <| input := input b ++ d |>), if wm_read_low b <=? zlen (input b ++ d) then Cb_read else Cb_none)
    | R_eof => (bufferevent_disable EV_READ b, Cb_eof)
    | R_again | R_refused => (b, Cb_none)
    | R_error => (bufferevent_disable EV_READ b, Cb_error)
    end.
Proof.
  intros Hs He _. destruct (settled_fields _ Hs) as (H1 & H2 & H3). rewrite He in H3. symmetry in H3. apply andb_prop in H3 as [_ H3]. apply negb_true_iff in H3.
  unfold bufferevent_readcb. rewrite H3. rewrite H3 in H2. symmetry in H2.
  assert (negb (wm_read_high b =? 0) && (wm_read_high b - zlen (input b) <=? 0) = false) as ->.
  { destruct (wm_read_high b =? 0); [done |]. cbn in *. apply Z.leb_gt in H2. apply Z.leb_gt. lia. }
  destruct ans; try done. rewrite invoke_input_settle by done. done.
Qed.

Lemma readcb_fits d b : settled b → ev_read b = true → read_answer_ok b (R_data d) → 0 < wm_read_high b → zlen (input b ++ d) ≤ wm_read_high b.
Proof.
  intros Hs He [_ Hd] Hh. destruct (settled_fields _ Hs) as (H1 & H2 & H3). rewrite He in H3. symmetry in H3. apply andb_prop in H3 as [_ H3]. apply negb_true_iff in H3.
  rewrite H3 in H2. symmetry in H2. unfold read_howmuch in Hd. rewrite (proj2 (Z.eqb_neq (wm_read_high b) 0)) in * by lia. cbn in *. apply Z.leb_gt in H2.
  rewrite zlen_app. rewrite (proj2 (Z.ltb_ge _ 0)) in Hd by lia. cbn [orb] in Hd. destruct (MAX_SINGLE_READ_DEFAULT <? _) eqn:E in Hd; b2p; lia.
Qed.

(** The write event, when the callback is to be run only for an empty output. *)
Lemma writecb_empty ans b : output b = [] → wm_write_low b = 0 → bufferevent_writecb ans b = ([], b <| ev_write := false |>, Cb_write).
Proof. intros Ho Hl. unfold bufferevent_writecb. rewrite Ho. cbn. rewrite Ho. cbn. by rewrite Hl. Qed.

Lemma writecb_sent n b : 1 ≤ n ≤ zlen (output b) → wm_write_low b = 0 →
  bufferevent_writecb (W_sent n) b =
  (ztake n (output b),
   if bool_decide (zdrop n (output b) = []) then b <| output := [] |> <| ev_write := false |> else b <| output := zdrop n (output b) |>,
   if bool_decide (zdrop n (output b) = []) then Cb_write else Cb_none).
Proof.
  intros Hn Hl. unfold bufferevent_writecb. rewrite (proj2 (Z.eqb_neq (zlen (output b)) 0)) by lia. cbn.
  destruct (zdrop n (output b)) as [| x l]; [cbn; by rewrite Hl |]. rewrite bool_decide_eq_false_2 by done.
  pose proof (zlen_nonneg l). rewrite (proj2 (Z.eqb_neq (zlen (x :: l)) 0)) by (rewrite zlen_cons; lia). cbn. rewrite Hl, (proj2 (Z.leb_gt (zlen (x :: l)) 0)) by (rewrite zlen_cons; lia). done.
Qed.

Lemma writecb_unsent ans b : output b ≠ [] → match ans with W_sent _ => False | _ => True end →
  bufferevent_writecb ans b = match ans with W_again => ([], b, Cb_none) | _ => ([], bufferevent_disable EV_WRITE b, Cb_error) end.
Proof. intros Ho Ha. unfold bufferevent_writecb. rewrite (proj2 (Z.eqb_neq (zlen (output b)) 0)) by (by intros ?%zlen_0_nil). by destruct ans. Qed.
