(* ===== verification/Redsocks.v ===== *)
(** * Clients of the transparent redirector (redsocks/redsocks.c)

    A client that was accepted, its connection to the proxy, the exchange with the proxy
    before data is relayed, and the two ways to relay: through the buffers of libevent and
    through pipes with [splice]. The protocol spoken to the proxy is a [relay_subsys].

    The state is the memory of the client, [None] once it is freed: an access after that
    makes the run undefined, as does a violated [assert]. System calls, and the data that
    passes through the sockets, are effects. Logging and the times of the last event are left
    out, and so is the accounting of connections, of which [F_list_del] is the trace. *)
From S2P Require Import Prelude Bufferevent.

(** ** Data *)

Inductive side := Client | Relay.
#[export] Instance side_eq_dec : EqDecision side.
Proof. solve_decision. Defined.
Definition other (s : side) : side := match s with Client => Relay | Relay => Client end.

Inductive shut_how := SHUT_RD | SHUT_WR.
#[export] Instance shut_how_eq_dec : EqDecision shut_how.
Proof. solve_decision. Defined.

(** An event of the splice pump: assigned, added, made active by the program. *)
Record pump_event := mk_pump_event { pe_init : bool; pe_fd : Z; pe_added : bool; pe_active : bool }.
#[export] Instance eta_pump_event : Eta pump_event := λ r, mk_pump_event (pe_init r) (pe_fd r) (pe_added r) (pe_active r).

(** A pipe: its two descriptors, [None] for -1; [pipe_data] is what the kernel has in it,
    [pipe_size] what the program counts. *)
Record splice_pipe := mk_splice_pipe { pipe_fds : option (Z * Z); pipe_size : Z; pipe_data : bytes }.
#[export] Instance eta_splice_pipe : Eta splice_pipe := λ r, mk_splice_pipe (pipe_fds r) (pipe_size r) (pipe_data r).

(** [do_password] and [to_skip] are the payload of the SOCKS5 client. The pipes and the four
    events are those of [redsocks_pump]. *)
Record redsocks_client := mk_redsocks_client {
  client : option bufferevent; relay : option bufferevent;
  state : Z;
  client_evshut : evset; relay_evshut : evset;
  do_password : bool; to_skip : Z;
  request : splice_pipe; reply : splice_pipe;
  client_read : pump_event; client_write : pump_event; relay_read : pump_event; relay_write : pump_event;
}.
#[export] Instance eta_redsocks_client : Eta redsocks_client := λ r,
  mk_redsocks_client (client r) (relay r) (state r) (client_evshut r) (relay_evshut r) (do_password r) (to_skip r) (request r) (reply r)
    (client_read r) (client_write r) (relay_read r) (relay_write r).

Inductive reff :=
| F_recv (s : side) (d : bytes)
| F_sent (s : side) (d : bytes)
| F_shutdown (s : side) (h : shut_how)
| F_close (fd : Z)
| F_pipe (r w : Z)
| F_list_del
| F_relaying.

Abbreviation RM := (M (option redsocks_client) reff).

(** Accesses to the memory of the client. *)
Definition deref : RM redsocks_client := λ s, match s with Some c => Some (c, Some c, []) | None => None end.
Definition store (f : redsocks_client → redsocks_client) : RM unit := c ← deref; modify (λ _, Some (f c)).

Definition bev_of (s : side) (c : redsocks_client) : option bufferevent := match s with Client => client c | Relay => relay c end.
Definition with_bev (s : side) (b : option bufferevent) (c : redsocks_client) : redsocks_client :=
  match s with Client => c <| client := b |> | Relay => c <| relay := b |> end.
Definition evshut (s : side) (c : redsocks_client) : evset := match s with Client => client_evshut c | Relay => relay_evshut c end.
Definition with_evshut (s : side) (e : evset) (c : redsocks_client) : redsocks_client :=
  match s with Client => c <| client_evshut := e |> | Relay => c <| relay_evshut := e |> end.

Definition the_bev (s : side) : RM bufferevent := c ← deref; lift (bev_of s c).
Definition on_bev (s : side) (f : bufferevent → bufferevent) : RM unit := b ← the_bev s; store (with_bev s (Some (f b))).

Definition REDSOCKS_RELAY_HALFBUFF : Z := 4096.
Definition pump_active : Z := -1.

(** The configuration of an instance. *)
Record redsocks_config := mk_redsocks_config { login : option bytes; password : option bytes; use_splice : bool; dest_ip : Z; dest_port : Z }.

(** Whether memory is to be had, for [calloc] and for the buffers of libevent. *)
Record memory := mk_memory { calloc_ok : bool; evbuffer_ok : bool }.

(** ** Release and shutdown *)

Definition redsocks_touch_client : RM unit := deref;; mret ().

Definition shut_both (c : redsocks_client) : bool :=
  bool_decide (relay_evshut c = EV_BOTH) && bool_decide (client_evshut c = EV_BOTH).

(** [bev_fd] is -1 once the descriptor has been taken away. *)
Definition redsocks_bufferevent_free (b : option bufferevent) : RM unit :=
  match b with Some b => when (negb (bev_fd b =? -1)) (emit (F_close (bev_fd b))) | None => mret () end.

Definition close_pipe (p : splice_pipe) : RM unit :=
  match pipe_fds p with Some (r, w) => emit (F_close r);; emit (F_close w) | None => mret () end.
Definition close_event (e : pump_event) : RM unit := when (pe_init e && negb (pe_fd e =? -1)) (emit (F_close (pe_fd e))).

Definition redsocks_drop_client (cf : redsocks_config) : RM unit :=
  c ← deref;
  redsocks_bufferevent_free (client c);;
  redsocks_bufferevent_free (relay c);;
  when (use_splice cf) (close_pipe (request c);; close_pipe (reply c);; close_event (client_read c);; close_event (relay_read c));;
  emit F_list_del;;
  modify (λ _, None).

Definition evhow (h : shut_how) : evset := match h with SHUT_RD => EV_READ | SHUT_WR => EV_WRITE end.

Definition redsocks_shutdown (cf : redsocks_config) (s : side) (h : shut_how) : RM unit :=
  c ← deref;
  let pevshut := evshut s c in
  when (negb (bool_decide (h = SHUT_RD) && ev_W pevshut)) (emit (F_shutdown s h));;
  on_bev s (bufferevent_disable (evhow h));;
  store (with_evshut s (ev_or pevshut (evhow h)));;
  c ← deref;
  when (shut_both c) (redsocks_drop_client cf).

(** ** Relaying through the buffers *)

Definition redsocks_write_buffer (from to : side) : RM unit :=
  bt ← the_bev to; bf ← the_bev from;
  let '(bt, bf) := bufferevent_write_buffer bt bf in
  store (λ c, with_bev from (Some bf) (with_bev to (Some bt) c)).

Definition redsocks_relay_readcb (from to : side) : RM unit :=
  bt ← the_bev to;
  if zlen (output bt) <? wm_write_high bt then redsocks_write_buffer from to
  else
    bf ← the_bev from;
    when (ev_R (enabled bf)) (on_bev from (bufferevent_disable EV_READ)).

Definition redsocks_relay_writecb (cf : redsocks_config) (from to : side) : RM unit :=
  c ← deref; bf ← the_bev from; bt ← the_bev to;
  let from_eof := ev_R (evshut from c) in
  if (zlen (input bf) =? 0) && from_eof then redsocks_shutdown cf to SHUT_WR
  else when (zlen (output bt) <? wm_write_high bt) (
    redsocks_write_buffer from to;;
    bf ← the_bev from;
    when (negb from_eof && negb (ev_R (enabled bf))) (on_bev from (bufferevent_enable EV_READ))).

Definition start_side (s : side) : RM unit :=
  c ← deref;
  on_bev s (bufferevent_enable (ev_minus EV_BOTH (evshut s c))).

Definition redsocks_start_bufferpump : RM unit :=
  on_bev Client (bufferevent_setwatermark EV_BOTH 0 REDSOCKS_RELAY_HALFBUFF);;
  on_bev Relay (bufferevent_setwatermark EV_BOTH 0 REDSOCKS_RELAY_HALFBUFF);;
  on_bev Client (λ b, b <| readcb := CB_relay |> <| writecb := CB_relay |>);;
  on_bev Relay (λ b, b <| readcb := CB_relay |> <| writecb := CB_relay |>);;
  start_side Client;;
  start_side Relay.

(** ** Relaying through pipes *)

Definition event_add (e : pump_event) : pump_event := e <| pe_added := true |>.
Definition event_del (e : pump_event) : pump_event := e <| pe_added := false |> <| pe_active := false |>.
Definition event_active (e : pump_event) : pump_event := e <| pe_active := true |>.
Definition event_assign (fd : Z) : pump_event := mk_pump_event true fd false false.

(** [bufferevent_setfd(ev, -1)]. *)
Definition bufferevent_dropfd (b : bufferevent) : bufferevent := b <| bev_fd := -1 |> <| ev_read := false |> <| ev_write := false |>.

Definition bufferevent_free_unused (b : option bufferevent) : option bufferevent :=
  match b with
  | Some b => if (zlen (input b) =? 0) && (zlen (output b) =? 0) then None else Some b
  | None => None
  end.
Definition redsocks_touch_pump : RM unit :=
  store (λ c, c <| client := bufferevent_free_unused (client c) |> <| relay := bufferevent_free_unused (relay c) |>).

(** The pipe from a side, and the events of a side. *)
Definition pipe_from (s : side) (c : redsocks_client) : splice_pipe := match s with Client => request c | Relay => reply c end.
Definition with_pipe (s : side) (p : splice_pipe) (c : redsocks_client) : redsocks_client :=
  match s with Client => c <| request := p |> | Relay => c <| reply := p |> end.
Definition read_event (s : side) (c : redsocks_client) : pump_event := match s with Client => client_read c | Relay => relay_read c end.
Definition with_read_event (s : side) (e : pump_event) (c : redsocks_client) : redsocks_client :=
  match s with Client => c <| client_read := e |> | Relay => c <| relay_read := e |> end.
Definition write_event (s : side) (c : redsocks_client) : pump_event := match s with Client => client_write c | Relay => relay_write c end.
Definition with_write_event (s : side) (e : pump_event) (c : redsocks_client) : redsocks_client :=
  match s with Client => c <| client_write := e |> | Relay => c <| relay_write := e |> end.
Definition on_read_event (s : side) (f : pump_event → pump_event) : RM unit := store (λ c, with_read_event s (f (read_event s c)) c).
Definition on_write_event (s : side) (f : pump_event → pump_event) : RM unit := store (λ c, with_write_event s (f (write_event s c)) c).

(** The write side of the pump towards [out], from the other side. An answer is for one
    write: all or a part was written, the call would block, or it failed. What is left of
    the source after it: *)
Inductive drain := D_none | D_full | D_short | D_block | D_fail.
Definition drained (avail : bytes) (ans : write_answer) : drain * bytes * bytes :=
  if zlen avail =? 0 then (D_none, [], avail) else
  match ans with
  | W_sent n => if zlen avail =? n then (D_full, avail, []) else (D_short, ztake n avail, zdrop n avail)
  | W_zero => (D_short, [], avail)
  | W_again => (D_block, [], avail)
  | W_error => (D_fail, [], avail)
  end.

(** One turn of the loop over the two buffers. [None]: the client was dropped;
    otherwise [has_data] and [can_write]. *)
Definition drain_source (cf : redsocks_config) (out : side) (get_src : redsocks_client → option bytes) (put_src : bytes → redsocks_client → redsocks_client)
    (ans : write_answer) (next : RM (option (bool * bool))) : RM (option (bool * bool)) :=
  c ← deref;
  match get_src c with
  | None => next
  | Some avail =>
      let '(r, sent, rest) := drained avail ans in
      when (negb (zlen sent =? 0)) (emit (F_sent out sent));;
      store (put_src rest);;
      match r with
      | D_none | D_full => next
      | D_short | D_block => mret (Some (true, false))
      | D_fail => redsocks_drop_client cf;; mret None
      end
  end.

Definition put_output (s : side) (d : bytes) (c : redsocks_client) : redsocks_client :=
  with_bev s ((λ b, b <| output := d |>) <$> bev_of s c) c.
Definition put_input (s : side) (d : bytes) (c : redsocks_client) : redsocks_client :=
  with_bev s ((λ b, b <| input := d |>) <$> bev_of s c) c.
Definition put_pipe (s : side) (n : Z) (d : bytes) (c : redsocks_client) : redsocks_client :=
  with_pipe s ((pipe_from s c) <| pipe_size := n |> <| pipe_data := d |>) c.

(** The pipe: [splice] is asked for the [size] that the program counts, and takes bytes
    from what the kernel has in the pipe. *)
Definition drain_pipe (cf : redsocks_config) (out : side) (ans : write_answer) : RM (option (bool * bool)) :=
  c ← deref;
  let pi := pipe_from (other out) c in
  let avail := pipe_size pi in
  if avail =? 0 then mret (Some (false, true)) else
  match ans with
  | W_sent n =>
      emit (F_sent out (ztake n (pipe_data pi)));;
      store (put_pipe (other out) (avail - n) (zdrop n (pipe_data pi)));;
      mret (Some (if avail =? n then (false, true) else (true, false)))
  | W_zero | W_again => mret (Some (true, false))
  | W_error => redsocks_drop_client cf;; mret None
  end.

(** The two buffers first, then the pipe. *)
Definition redsplice_drain (cf : redsocks_config) (out : side) (a0 a1 a2 : write_answer) : RM (option (bool * bool)) :=
  drain_source cf out (λ c, output <$> bev_of out c) (put_output out) a0 (
  drain_source cf out (λ c, input <$> bev_of (other out) c) (put_input (other out)) a1 (
  drain_pipe cf out a2)).

Definition redsplice_write_cb (cf : redsocks_config) (out : side) (a0 a1 a2 : write_answer) : RM unit :=
  let src := other out in
  r ← redsplice_drain cf out a0 a1 a2;
  match r with
  | None => mret ()
  | Some (has_data, can_write) =>
      c ← deref;
      let eof := negb has_data && ev_R (evshut src c) && negb (ev_W (evshut out c)) in
      dropped ← (if eof then
        emit (F_shutdown out SHUT_WR);;
        store (with_evshut out (ev_or (evshut out c) EV_WRITE));;
        assert (pipe_size (pipe_from src c) =? 0);;
        close_pipe (pipe_from src c);;
        store (with_pipe src ((pipe_from src c) <| pipe_fds := None |>));;
        c ← deref;
        (if shut_both c then redsocks_drop_client cf;; mret true else mret false)
      else mret false);
      let can_write := can_write && negb eof in
      if (dropped : bool) then mret () else
      assert (negb (can_write && has_data));;
      if negb can_write && has_data then on_read_event src event_del;; on_write_event out event_add
      else if can_write && negb has_data then on_read_event src event_add;; on_write_event out event_del
      else when (negb can_write && negb has_data) (on_read_event src event_del;; on_write_event out event_del)
  end.

(** The read side of the pump, from [inp]. *)
Definition redsplice_read_cb (cf : redsocks_config) (inp : side) (ans : read_answer) : RM unit :=
  match ans with
  | R_again => on_read_event inp event_del
  | R_refused | R_error => redsocks_drop_client cf
  | R_eof =>
      emit (F_shutdown inp SHUT_RD);;
      store (λ c, with_evshut inp (ev_or (evshut inp c) EV_READ) c);;
      on_read_event inp event_del;;
      on_write_event (other inp) event_active
  | R_data d =>
      emit (F_recv inp d);;
      store (λ c, let p := pipe_from inp c in with_pipe inp (p <| pipe_size := pipe_size p + zlen d |> <| pipe_data := pipe_data p ++ d |>) c);;
      on_write_event (other inp) event_active
  end.

(** [pipes]: the descriptors of the two pipes, as far as they can be had. *)
Definition redsocks_start_splicepump (pipes : option (Z * Z) * option (Z * Z)) : RM bool :=
  on_bev Client (bufferevent_disable EV_BOTH);;
  on_bev Relay (bufferevent_disable EV_BOTH);;
  match fst pipes with
  | None => mret false
  | Some req =>
      emit (F_pipe (fst req) (snd req));;
      store (λ c, c <| request := (request c) <| pipe_fds := Some req |> |>);;
      match snd pipes with
      | None => mret false
      | Some rep =>
          emit (F_pipe (fst rep) (snd rep));;
          store (λ c, c <| reply := (reply c) <| pipe_fds := Some rep |> |>);;
          br ← the_bev Relay; bc ← the_bev Client;
          store (λ c, c <| client_read := event_assign (bev_fd bc) |> <| client_write := event_assign (bev_fd bc) |>
                        <| relay_read := event_assign (bev_fd br) |> <| relay_write := event_assign (bev_fd br) |>);;
          on_bev Relay bufferevent_dropfd;;
          on_bev Client bufferevent_dropfd;;
          on_write_event Client event_active;;
          on_write_event Relay event_active;;
          on_read_event Client event_add;;
          on_read_event Relay event_add;;
          mret true
      end
  end.

Definition redsocks_start_relay (cf : redsocks_config) (pipes : option (Z * Z) * option (Z * Z)) : RM unit :=
  store (λ c, c <| state := pump_active |>);;
  ok ← (if use_splice cf then redsocks_start_splicepump pipes else redsocks_start_bufferpump;; mret true);
  if (ok : bool) then emit F_relaying else redsocks_drop_client cf.

(** ** Helpers of the protocols *)

Definition sizes_equal (a b : Z) : bool := a =? b.
Definition sizes_greater_equal (a b : Z) : bool := b <=? a.

Definition redsocks_read_expected (cf : redsocks_config) (comparator : Z → Z → bool) (expected : Z) : RM (option bytes) :=
  b ← the_bev Relay;
  if comparator (zlen (input b)) expected then
    let '(data, b) := evbuffer_remove expected b in
    store (with_bev Relay (Some b));;
    assert (zlen data =? expected);;
    mret (Some data)
  else redsocks_drop_client cf;; mret None.

Definition mkevbuffer (m : memory) (data : bytes) : option bytes := if evbuffer_ok m then Some data else None.

(** A message maker gives a buffer, or fails; there may be none. *)
Definition redsocks_write_helper (cf : redsocks_config) (mkmessage : option (RM (option bytes))) (st wm_only : Z) : RM unit :=
  ok ← match mkmessage with
       | None => mret true
       | Some mk =>
           buff ← mk;
           match buff with
           | None => mret false
           | Some d => on_bev Relay (evbuffer_add d);; mret true
           end
       end;
  if (ok : bool) then
    store (λ c, c <| state := st |>);;
    on_bev Relay (bufferevent_setwatermark EV_READ wm_only wm_only);;
    on_bev Relay (bufferevent_enable EV_READ)
  else redsocks_drop_client cf.

(** ** Protocols *)

(** What a callback may need from outside: memory, and the pipes of a pump. *)
Record outside := mk_outside { mem : memory; pipes : option (Z * Z) * option (Z * Z) }.

Record relay_subsys := mk_relay_subsys {
  ss_init : redsocks_config → redsocks_client → redsocks_client;
  ss_readcb : redsocks_config → outside → RM unit;
  ss_writecb : redsocks_config → outside → RM unit;
}.

(** ** Events *)

Section events.
Context (ss : relay_subsys) (cf : redsocks_config).

(** [connected]: that the socket reports no error. *)
Definition redsocks_relay_connected (connected : bool) (o : outside) : RM unit :=
  redsocks_touch_client;;
  if connected then
    on_bev Relay (λ b, b <| readcb := CB_subsys |> <| writecb := CB_subsys |>);;
    ss_writecb ss cf o
  else redsocks_drop_client cf.

Definition redsocks_event_error (s : side) (what : bev_cb) : RM unit :=
  redsocks_touch_client;;
  match what with
  | Cb_eof =>
      redsocks_shutdown cf s SHUT_RD;;
      c ← deref;
      match bev_of (other s) c with
      | Some antiev => when ((state c =? pump_active) && (zlen (output antiev) =? 0)) (redsocks_shutdown cf (other s) SHUT_WR)
      | None => mret ()
      end
  | _ => redsocks_drop_client cf
  end.

Definition run_readcb (s : side) (cb : data_cb) (o : outside) : RM unit :=
  match cb with
  | CB_NULL | CB_relay_connected => mret ()
  | CB_subsys => ss_readcb ss cf o
  | CB_relay => redsocks_touch_client;; redsocks_relay_readcb s (other s)
  end.
Definition run_writecb (s : side) (cb : data_cb) (connected : bool) (o : outside) : RM unit :=
  match cb with
  | CB_NULL => mret ()
  | CB_relay_connected => redsocks_relay_connected connected o
  | CB_subsys => ss_writecb ss cf o
  | CB_relay => redsocks_touch_client;; redsocks_relay_writecb cf (other s) s
  end.

Definition run_cb (s : side) (cb : bev_cb) (connected : bool) (o : outside) : RM unit :=
  match cb with
  | Cb_none => mret ()
  | Cb_read => b ← the_bev s; run_readcb s (readcb b) o
  | Cb_write => b ← the_bev s; run_writecb s (writecb b) connected o
  | Cb_eof | Cb_error => redsocks_event_error s cb
  end.

(** The socket of a side is readable, or writable, and its event is added; or an event of
    the splice pump is run. *)
Inductive event :=
| E_read (s : side) (ans : read_answer) (o : outside)
| E_write (s : side) (ans : write_answer) (connected : bool) (o : outside)
| E_pump_read (s : side) (ans : read_answer)
| E_pump_write (s : side) (a0 a1 a2 : write_answer).

Definition step (e : event) : RM unit :=
  match e with
  | E_read s ans o =>
      b ← the_bev s;
      let '(b, cb) := bufferevent_readcb ans b in
      match ans with R_data d => emit (F_recv s d) | _ => mret () end;;
      store (with_bev s (Some b));;
      run_cb s cb true o
  | E_write s ans connected o =>
      b ← the_bev s;
      let '(d, b, cb) := bufferevent_writecb ans b in
      when (negb (zlen d =? 0)) (emit (F_sent s d));;
      store (with_bev s (Some b));;
      run_cb s cb connected o
  | E_pump_read s ans =>
      redsocks_touch_pump;;
      redsplice_read_cb cf s ans
  | E_pump_write s a0 a1 a2 =>
      store (λ c, with_write_event s ((write_event s c) <| pe_active := false |>) c);;
      redsocks_touch_pump;;
      redsplice_write_cb cf s a0 a1 a2
  end.

(** The client as [redsocks_accept_client] leaves it once the connection to the proxy is
    under way. *)
Definition pump_event0 : pump_event := mk_pump_event false 0 false false.
Definition splice_pipe0 : splice_pipe := mk_splice_pipe None 0 [].
Definition accepted_client (client_fd relay_fd : Z) : redsocks_client :=
  ss_init ss cf (mk_redsocks_client
    (Some (bufferevent_enable EV_READ (bufferevent_new client_fd CB_NULL CB_NULL)))
    (Some (bufferevent_enable EV_WRITE (bufferevent_new relay_fd CB_NULL CB_relay_connected)))
    0 ev_none ev_none false 0 splice_pipe0 splice_pipe0 pump_event0 pump_event0 pump_event0 pump_event0).

End events.
