(* ===== verification/RelayProto.v ===== *)
(** * What a proxy protocol promises to the redirector

    Every protocol of redsocks works in the same way: a first message, then replies of a
    known size, and for each reply a decision: to send a message (or none) and wait for
    the next reply, to start relaying, or to give up. [RelayProto] states this of the
    callbacks of a [relay_subsys]; what happens to a client is proved against it. *)
From S2P Require Import Prelude Bufferevent Redsocks.

(** The state of a protocol, kept in the client. *)
Record pstate := mk_pstate { p_state : Z; p_password : bool; p_skip : Z }.
#[export] Instance eta_pstate : Eta pstate := λ r, mk_pstate (p_state r) (p_password r) (p_skip r).
Definition pstate_of (c : redsocks_client) : pstate := mk_pstate (state c) (do_password c) (to_skip c).

Inductive action := A_drop | A_send (msg : option bytes) (next : pstate) | A_relay.

Section action.
Context (cf : redsocks_config) (awaits : pstate → Z) (o : outside).

(** The decision, carried out with the helpers of the redirector. *)
Definition run_action (a : action) : RM unit :=
  match a with
  | A_drop => redsocks_drop_client cf
  | A_send msg p =>
      store (λ c, c <| to_skip := p_skip p |>);;
      redsocks_write_helper cf ((λ d, mret (mkevbuffer (mem o) d)) <$> msg) (p_state p) (awaits p)
  | A_relay => redsocks_start_relay cf (pipes o)
  end.

End action.

(** [greeting] is the first message, [awaits] the size of the reply that a state waits
    for, [reply_to] the decision. [quiet]: whether the protocol stops writing once its
    message has gone. *)
Class RelayProto (ss : relay_subsys) (cf : redsocks_config) := {
  with_password : bool;
  greeting : bytes;
  first_state : pstate;
  awaits : pstate → Z;
  reply_to : pstate → bytes → action;
  proto_state : pstate → Prop;
  quiet : bool;

  proto_init c : do_password c = false → ss_init ss cf c = c <| state := 0 |> <| do_password := with_password |>;
  proto_first : proto_state first_state ∧ p_password first_state = with_password ∧ p_skip first_state = 0;
  proto_awaits p : proto_state p → 0 < p_state p ∧ 0 < awaits p;
  proto_next p d msg p' : proto_state p → wf_bytes d → zlen d = awaits p → reply_to p d = A_send msg p' →
    proto_state p' ∧ p_password p' = p_password p;
  proto_quiet p d msg p' : quiet = true → reply_to p d = A_send msg p' → msg = None;
  proto_greets c o b : relay c = Some b → state c = 0 → do_password c = with_password → to_skip c = 0 → calloc_ok (mem o) = true →
    ss_writecb ss cf o (Some c) = run_action cf awaits o (A_send (Some greeting) first_state) (Some c);
  proto_writes c o b : relay c = Some b → proto_state (pstate_of c) →
    ss_writecb ss cf o (Some c) = (if quiet then on_bev Relay (bufferevent_disable EV_WRITE) else mret ()) (Some c);
  proto_reads c o b : relay c = Some b → proto_state (pstate_of c) → wf_bytes (input b) → zlen (input b) = awaits (pstate_of c) → calloc_ok (mem o) = true →
    ss_readcb ss cf o (Some c) =
    run_action cf awaits o (reply_to (pstate_of c) (input b)) (Some (c <| relay := Some (invoke_input (b <| input := [] |>)) |>));
}.

(** ** Runs of the accessors *)

Lemma run_deref {B} (k : redsocks_client → RM B) c : (deref ≫= k) (Some c) = k c (Some c).
Proof. apply run_nil. done. Qed.
Lemma run_store {B} f (k : unit → RM B) c : (store f ≫= k) (Some c) = k () (Some (f c)).
Proof. apply run_nil. done. Qed.
Lemma run_the_bev {B} s b (k : bufferevent → RM B) c : bev_of s c = Some b → (the_bev s ≫= k) (Some c) = k b (Some c).
Proof. intros H. apply run_nil. unfold the_bev. by rewrite run_deref, H. Qed.
Lemma run_on_bev {B} s f b (k : unit → RM B) c : bev_of s c = Some b → (on_bev s f ≫= k) (Some c) = k () (Some (with_bev s (Some (f b)) c)).
Proof. intros H. apply run_nil. unfold on_bev. by rewrite (run_the_bev _ b). Qed.

(** The descriptors that a client holds, and what its release does. *)
Definition bev_fds (b : option bufferevent) : list Z := match b with Some b => if bev_fd b =? -1 then [] else [bev_fd b] | None => [] end.
Definition pipe_ends (p : splice_pipe) : list Z := match pipe_fds p with Some (r, w) => [r; w] | None => [] end.
Definition event_fds (e : pump_event) : list Z := if pe_init e && negb (pe_fd e =? -1) then [pe_fd e] else [].
Definition held_fds (cf : redsocks_config) (c : redsocks_client) : list Z :=
  bev_fds (client c) ++ bev_fds (relay c) ++
  (if use_splice cf then pipe_ends (request c) ++ pipe_ends (reply c) ++ event_fds (client_read c) ++ event_fds (relay_read c) else []).

Lemma run_drop cf c : redsocks_drop_client cf (Some c) = Some ((), None, (F_close <$> held_fds cf c) ++ [F_list_del]).
Proof.
  unfold redsocks_drop_client. rewrite run_deref. unfold held_fds, bev_fds, pipe_ends, event_fds, redsocks_bufferevent_free, close_pipe, close_event, when.
  destruct (client c) as [bc |]; [destruct (bev_fd bc =? -1) |]; (destruct (relay c) as [br |]; [destruct (bev_fd br =? -1) |]); (destruct (use_splice cf); [| done]);
    (destruct (pipe_fds (request c)) as [[] |]); (destruct (pipe_fds (reply c)) as [[] |]); (destruct (pe_init (client_read c) && _)); destruct (pe_init (relay_read c) && _); done.
Qed.

(** A reply of just the expected size. *)
Lemma run_read_expected {B} cf cmp n b (k : option bytes → RM B) c :
  relay c = Some b → 0 < n → zlen (input b) = n → cmp n n = true →
  (redsocks_read_expected cf cmp n ≫= k) (Some c) = k (Some (input b)) (Some (c <| relay := Some (invoke_input (b <| input := [] |>)) |>)).
Proof.
  intros Hb Hn Hl Hc. apply run_nil. unfold redsocks_read_expected. rewrite (run_the_bev Relay b) by done. rewrite Hl, Hc. unfold evbuffer_remove.
  rewrite ztake_ge, zdrop_ge, Hl by lia. rewrite (proj2 (Z.ltb_lt 0 n)) by lia. rewrite run_store, run_assert by lia. done.
Qed.

(** A message maker that gives a message and changes nothing. *)
Lemma write_helper_maker cf mk r st n c : mk (Some c) = Some (r, Some c, []) →
  redsocks_write_helper cf (Some mk) st n (Some c) = redsocks_write_helper cf (Some (mret r)) st n (Some c).
Proof. intros H. cbv beta iota delta [redsocks_write_helper]. rewrite !run_assoc. rewrite (run_nil mk _ _ _ _ H). by rewrite run_ret. Qed.

Lemma to_skip_same c x : to_skip c = x → c <| to_skip := x |> = c.
Proof. intros <-. by destruct c. Qed.

(** An exchange: the messages sent and the replies consumed on the way to a state. *)
Inductive exchange `{RelayProto ss cf} : pstate → bytes → bytes → Prop :=
| exchange_first : exchange first_state greeting []
| exchange_next p p' sent got d msg : exchange p sent got → wf_bytes d → zlen d = awaits p → reply_to p d = A_send msg p' →
    exchange p' (sent ++ default [] msg) (got ++ d).

(** A complete one: the last reply makes relaying start. *)
Definition exchanged `{RelayProto ss cf} (sent got : bytes) : Prop :=
  ∃ p got' d, exchange p sent got' ∧ wf_bytes d ∧ zlen d = awaits p ∧ reply_to p d = A_relay ∧ got = got' ++ d.

Lemma exchange_state `{RelayProto ss cf} p sent got : exchange p sent got → proto_state p.
Proof.
  induction 1 as [| p p' sent got d msg _ IH Hw Hl Hr]; [apply proto_first |]. exact (proj1 (proto_next p d msg p' IH Hw Hl Hr)).
Qed.

Lemma exchange_password `{RelayProto ss cf} p sent got : exchange p sent got → p_password p = with_password.
Proof.
  induction 1 as [| p p' sent got d msg He IH Hw Hl Hr]; [apply proto_first |]. rewrite <- IH. exact (proj2 (proto_next p d msg p' (exchange_state _ _ _ He) Hw Hl Hr)).
Qed.
