(* ===== verification/RedsocksSocks.v ===== *)
(** * The SOCKS protocols of the redirector (redsocks/socks5.c, redsocks/socks4.c)

    The callbacks of both protocols, and that they keep what [RelayProto] promises. *)
From S2P Require Import Prelude ByteOrder Bufferevent Redsocks RelayProto.

(** ** SOCKS5 *)

Definition socks5_new : Z := 0.
Definition socks5_method_sent : Z := 1.
Definition socks5_auth_sent : Z := 2.
Definition socks5_request_sent : Z := 3.
Definition socks5_skip_domain : Z := 4.
Definition socks5_skip_address : Z := 5.

Definition socks5_ver : Z := 5.
Definition socks5_auth_none : Z := 0.
Definition socks5_auth_password : Z := 2.
Definition socks5_auth_invalid : Z := 255.
Definition socks5_password_ver : Z := 1.
Definition socks5_password_passed : Z := 0.
Definition socks5_addrtype_ipv4 : Z := 1.
Definition socks5_addrtype_domain : Z := 3.
Definition socks5_addrtype_ipv6 : Z := 4.
Definition socks5_status_succeeded : Z := 0.
Definition socks5_cmd_connect : Z := 1.

Definition sizeof_socks5_method_reply : Z := 2.
Definition sizeof_socks5_auth_reply : Z := 2.
Definition sizeof_socks5_reply : Z := 4.
Definition sizeof_socks5_addr_ipv4 : Z := 6.
Definition sizeof_socks5_addr_ipv6 : Z := 18.

Definition socks5_is_valid_cred (login password : option bytes) : bool :=
  match login, password with
  | Some login, Some password => if 255 <? zlen login then false else if 255 <? zlen password then false else true
  | _, _ => false
  end.

Definition socks5_instance_init (cf : redsocks_config) : redsocks_config :=
  match login cf, password cf with
  | Some _, Some _ => if socks5_is_valid_cred (login cf) (password cf) then cf else mk_redsocks_config None None (use_splice cf) (dest_ip cf) (dest_port cf)
  | None, None => cf
  | _, _ => mk_redsocks_config None None (use_splice cf) (dest_ip cf) (dest_port cf)
  end.

Definition has_cred (cf : redsocks_config) : bool := match login cf, password cf with Some _, Some _ => true | _, _ => false end.

Definition socks5_client_init (cf : redsocks_config) (c : redsocks_client) : redsocks_client :=
  c <| state := socks5_new |> <| do_password := has_cred cf |>.

(** A [calloc] that fails is not checked for. *)
Definition socks5_mkmethods_plain (m : memory) (do_password : bool) : RM (option bytes) :=
  assert (calloc_ok m);;
  mret (mkevbuffer m ([socks5_ver; 1 + Z.b2z do_password; socks5_auth_none] ++ (if do_password then [socks5_auth_password] else []))).
Definition socks5_mkmethods (m : memory) : RM (option bytes) := c ← deref; socks5_mkmethods_plain m (do_password c).

Definition socks5_mkpassword_plain (m : memory) (login password : bytes) : option bytes :=
  mkevbuffer m ([socks5_password_ver; u8 (zlen login)] ++ login ++ [u8 (zlen password)] ++ password).
Definition socks5_mkpassword (cf : redsocks_config) (m : memory) : RM (option bytes) :=
  l ← lift (login cf); p ← lift (password cf); mret (socks5_mkpassword_plain m l p).

Definition socks5_mkcommand_plain (m : memory) (cmd ip port : Z) : option bytes :=
  mkevbuffer m ([socks5_ver; cmd; 0; socks5_addrtype_ipv4] ++ le_bytes 4 ip ++ le_bytes 2 port).
Definition socks5_mkconnect (cf : redsocks_config) (m : memory) : RM (option bytes) :=
  mret (socks5_mkcommand_plain m socks5_cmd_connect (dest_ip cf) (dest_port cf)).

Definition socks5_write_cb (cf : redsocks_config) (o : outside) : RM unit :=
  redsocks_touch_client;;
  c ← deref;
  when (state c =? socks5_new)
    (redsocks_write_helper cf (Some (socks5_mkmethods (mem o))) socks5_method_sent sizeof_socks5_method_reply).

(** Whether the reply is a method that was offered. *)
Definition socks5_is_known_auth_method (ver method : Z) (do_password : bool) : bool :=
  if negb (ver =? socks5_ver) then false
  else if method =? socks5_auth_invalid then false
  else if negb (method =? socks5_auth_none) && negb ((method =? socks5_auth_password) && do_password) then false
  else true.

Definition socks5_read_auth_methods (cf : redsocks_config) (o : outside) : RM unit :=
  r ← redsocks_read_expected cf sizes_equal sizeof_socks5_method_reply;
  match r with
  | None => mret ()
  | Some reply =>
      c ← deref;
      if negb (socks5_is_known_auth_method (byte_at reply 0) (byte_at reply 1) (do_password c)) then redsocks_drop_client cf
      else if byte_at reply 1 =? socks5_auth_none then
        redsocks_write_helper cf (Some (socks5_mkconnect cf (mem o))) socks5_request_sent sizeof_socks5_reply
      else when (byte_at reply 1 =? socks5_auth_password)
        (redsocks_write_helper cf (Some (socks5_mkpassword cf (mem o))) socks5_auth_sent sizeof_socks5_auth_reply)
  end.

Definition socks5_read_auth_reply (cf : redsocks_config) (o : outside) : RM unit :=
  r ← redsocks_read_expected cf sizes_equal sizeof_socks5_auth_reply;
  match r with
  | None => mret ()
  | Some reply =>
      if negb (byte_at reply 0 =? socks5_password_ver) then redsocks_drop_client cf
      else if byte_at reply 1 =? socks5_password_passed then
        redsocks_write_helper cf (Some (socks5_mkconnect cf (mem o))) socks5_request_sent sizeof_socks5_reply
      else redsocks_drop_client cf
  end.

Definition socks5_read_reply (cf : redsocks_config) (o : outside) : RM unit :=
  r ← redsocks_read_expected cf sizes_greater_equal sizeof_socks5_reply;
  match r with
  | None => mret ()
  | Some reply =>
      if negb (byte_at reply 0 =? socks5_ver) then redsocks_drop_client cf
      else if byte_at reply 1 =? socks5_status_succeeded then
        if byte_at reply 3 =? socks5_addrtype_ipv4 then
          store (λ c, c <| to_skip := sizeof_socks5_addr_ipv4 |>);;
          redsocks_write_helper cf None socks5_skip_address sizeof_socks5_addr_ipv4
        else if byte_at reply 3 =? socks5_addrtype_ipv6 then
          store (λ c, c <| to_skip := sizeof_socks5_addr_ipv6 |>);;
          redsocks_write_helper cf None socks5_skip_address sizeof_socks5_addr_ipv6
        else if byte_at reply 3 =? socks5_addrtype_domain then
          redsocks_write_helper cf None socks5_skip_domain 1
        else redsocks_drop_client cf
      else redsocks_drop_client cf
  end.

Definition socks5_read_cb (cf : redsocks_config) (o : outside) : RM unit :=
  redsocks_touch_client;;
  c ← deref;
  if state c =? socks5_method_sent then socks5_read_auth_methods cf o
  else if state c =? socks5_auth_sent then socks5_read_auth_reply cf o
  else if state c =? socks5_request_sent then socks5_read_reply cf o
  else if state c =? socks5_skip_domain then
    r ← redsocks_read_expected cf sizes_greater_equal 1;
    match r with
    | None => mret ()
    | Some size =>
        store (λ c, c <| to_skip := byte_at size 0 + 2 |>);;
        c ← deref;
        redsocks_write_helper cf None socks5_skip_address (to_skip c)
    end
  else if state c =? socks5_skip_address then
    r ← redsocks_read_expected cf sizes_greater_equal (to_skip c);
    match r with
    | None => mret ()
    | Some _ => redsocks_start_relay cf (pipes o)
    end
  else redsocks_drop_client cf.

Definition socks5_subsys : relay_subsys := mk_relay_subsys socks5_client_init socks5_read_cb socks5_write_cb.

(** ** SOCKS4 *)

Definition socks4_new : Z := 0.
Definition socks4_request_sent : Z := 1.
Definition socks4_reply_came : Z := 2.
Definition socks4_ver : Z := 4.
Definition socks4_cmd_connect : Z := 1.
Definition socks4_status_ok : Z := 90.
Definition sizeof_socks4_reply : Z := 8.

Definition socks4_client_init (cf : redsocks_config) (c : redsocks_client) : redsocks_client := c <| state := socks4_new |>.

Definition socks4_read_cb (cf : redsocks_config) (o : outside) : RM unit :=
  c ← deref;
  assert (socks4_request_sent <=? state c);;
  redsocks_touch_client;;
  when (state c =? socks4_request_sent) (
    r ← redsocks_read_expected cf sizes_greater_equal sizeof_socks4_reply;
    match r with
    | None => mret ()
    | Some reply =>
        store (λ c, c <| state := socks4_reply_came |>);;
        if negb (byte_at reply 0 =? 0) then redsocks_drop_client cf
        else if byte_at reply 1 =? socks4_status_ok then redsocks_start_relay cf (pipes o)
        else redsocks_drop_client cf
    end).

(** The user name with its terminator. *)
Definition socks4_mkconnect (cf : redsocks_config) (m : memory) : RM (option bytes) :=
  let username := default [] (login cf) in
  assert (calloc_ok m);;
  mret (mkevbuffer m ([socks4_ver; socks4_cmd_connect] ++ le_bytes 2 (dest_port cf) ++ le_bytes 4 (dest_ip cf) ++ username ++ [0])).

Definition socks4_write_cb (cf : redsocks_config) (o : outside) : RM unit :=
  redsocks_touch_client;;
  c ← deref;
  if state c =? socks4_new then
    redsocks_write_helper cf (Some (socks4_mkconnect cf (mem o))) socks4_request_sent sizeof_socks4_reply
  else when (socks4_request_sent <=? state c) (on_bev Relay (bufferevent_disable EV_WRITE)).

Definition socks4_subsys : relay_subsys := mk_relay_subsys socks4_client_init socks4_read_cb socks4_write_cb.

(** ** The protocols *)

Section protocols.
Context (cf : redsocks_config).

Definition socks5_connect_msg : bytes := [socks5_ver; socks5_cmd_connect; 0; socks5_addrtype_ipv4] ++ le_bytes 4 (dest_ip cf) ++ le_bytes 2 (dest_port cf).
Definition socks5_password_msg : bytes :=
  let l := default [] (login cf) in
  let p := default [] (password cf) in
  [socks5_password_ver; u8 (zlen l)] ++ l ++ [u8 (zlen p)] ++ p.

(** The size of the reply in each state, as RFC 1928 and RFC 1929 lay it out. *)
Definition socks5_awaits (p : pstate) : Z :=
  if p_state p =? socks5_method_sent then 2
  else if p_state p =? socks5_auth_sent then 2
  else if p_state p =? socks5_request_sent then 4
  else if p_state p =? socks5_skip_domain then 1
  else p_skip p.

(** The decision on a reply. *)
Definition socks5_reply_to (p : pstate) (d : bytes) : action :=
  let b i := byte_at d i in
  let goto st := p <| p_state := st |> in
  let skip n := (p <| p_state := socks5_skip_address |>) <| p_skip := n |> in
  if p_state p =? socks5_method_sent then
    if negb (b 0 =? 5) then A_drop
    else if b 1 =? 0 then A_send (Some socks5_connect_msg) (goto socks5_request_sent)
    else if (b 1 =? 2) && p_password p then A_send (Some socks5_password_msg) (goto socks5_auth_sent)
    else A_drop
  else if p_state p =? socks5_auth_sent then
    if (b 0 =? 1) && (b 1 =? 0) then A_send (Some socks5_connect_msg) (goto socks5_request_sent) else A_drop
  else if p_state p =? socks5_request_sent then
    if negb ((b 0 =? 5) && (b 1 =? 0)) then A_drop
    else if b 3 =? 1 then A_send None (skip 6)
    else if b 3 =? 4 then A_send None (skip 18)
    else if b 3 =? 3 then A_send None (goto socks5_skip_domain)
    else A_drop
  else if p_state p =? socks5_skip_domain then A_send None (skip (b 0 + 2))
  else A_relay.

Definition socks5_state_ok (p : pstate) : Prop :=
  p_password p = has_cred cf ∧ 1 ≤ p_state p ≤ 5 ∧ (p_state p = socks5_skip_address → 0 < p_skip p).

(** A write helper after which the state is [p] is the action to send and wait. *)
Lemma run_send o msg p n c : to_skip c = p_skip p → n = socks5_awaits p →
  run_action cf socks5_awaits o (A_send msg p) (Some c) =
  redsocks_write_helper cf ((λ d, mret (mkevbuffer (mem o) d)) <$> msg) (p_state p) n (Some c).
Proof. intros Hs ->. unfold run_action. by rewrite run_store, (to_skip_same _ _ Hs). Qed.

Lemma socks5_reads c o b : relay c = Some b → socks5_state_ok (pstate_of c) → wf_bytes (input b) → zlen (input b) = socks5_awaits (pstate_of c) →
  ss_readcb socks5_subsys cf o (Some c) =
  run_action cf socks5_awaits o (socks5_reply_to (pstate_of c) (input b)) (Some (c <| relay := Some (invoke_input (b <| input := [] |>)) |>)).
Proof.
  intros Hb (Hp & Hs & Hk) Hw Hl. cbn [pstate_of p_state p_password p_skip] in *. cbn [ss_readcb socks5_subsys]. unfold socks5_read_cb, redsocks_touch_client, socks5_reply_to.
  rewrite run_assoc, run_deref, run_ret, run_deref. unfold socks5_awaits in Hl. cbn [pstate_of p_state p_password p_skip] in *.
  unfold socks5_method_sent, socks5_auth_sent, socks5_request_sent, socks5_skip_domain, socks5_skip_address in *.
  destruct (state c =? 1) eqn:E1; [| destruct (state c =? 2) eqn:E2; [| destruct (state c =? 3) eqn:E3; [| destruct (state c =? 4) eqn:E4]]]; b2p.
  - unfold socks5_read_auth_methods. rewrite (run_read_expected _ _ _ b) by done. rewrite run_deref. change (do_password (c <| relay := _ |>)) with (do_password c).
    unfold socks5_is_known_auth_method, socks5_ver, socks5_auth_invalid, socks5_auth_none, socks5_auth_password. destruct (byte_at (input b) 0 =? 5); [| done].
    cbn [negb]. destruct (byte_at (input b) 1 =? 255) eqn:E255; b2p.
    { rewrite E255. done. }
    destruct (byte_at (input b) 1 =? 0) eqn:E0; cbn [negb andb]; [by rewrite (run_send o _ _ sizeof_socks5_reply) |].
    destruct (byte_at (input b) 1 =? 2) eqn:E2; [| done]. destruct (do_password c); [| done]. cbn [negb andb when].
    rewrite (run_send o _ _ sizeof_socks5_auth_reply) by done. unfold has_cred in Hp. unfold socks5_password_msg.
    destruct (login cf) as [l |] eqn:El; [| done]. destruct (password cf) as [q |] eqn:Eq; [| done].
    apply write_helper_maker. unfold socks5_mkpassword. by rewrite run_lift, El, run_lift, Eq.
  - unfold socks5_read_auth_reply. rewrite (run_read_expected _ _ _ b) by done. unfold socks5_password_ver, socks5_password_passed.
    destruct (byte_at (input b) 0 =? 1); [| done]. cbn [negb andb]. destruct (byte_at (input b) 1 =? 0); [| done]. by rewrite (run_send o _ _ sizeof_socks5_reply).
  - unfold socks5_read_reply. rewrite (run_read_expected _ _ _ b) by done.
    unfold socks5_ver, socks5_status_succeeded, socks5_addrtype_ipv4, socks5_addrtype_ipv6, socks5_addrtype_domain, sizeof_socks5_addr_ipv4, sizeof_socks5_addr_ipv6.
    destruct (byte_at (input b) 0 =? 5); [| done]. cbn [negb andb]. destruct (byte_at (input b) 1 =? 0); [| done]. cbn [negb].
    destruct (byte_at (input b) 3 =? 1); [done |]. destruct (byte_at (input b) 3 =? 4); [done |]. destruct (byte_at (input b) 3 =? 3); [| done].
    by rewrite (run_send o None _ 1).
  - rewrite (run_read_expected _ _ _ b) by done. rewrite run_store, run_deref. done.
  - rewrite (proj2 (Z.eqb_eq (state c) 5)) by lia. rewrite (run_read_expected _ _ _ b); [done | done | apply Hk; lia | done | apply Z.leb_refl].
Qed.

Lemma socks5_greets c o b : relay c = Some b → state c = 0 → do_password c = has_cred cf → to_skip c = 0 → calloc_ok (mem o) = true →
  ss_writecb socks5_subsys cf o (Some c) =
  run_action cf socks5_awaits o (A_send (Some ([5; 1 + Z.b2z (has_cred cf); 0] ++ (if has_cred cf then [2] else [])))
    (mk_pstate socks5_method_sent (has_cred cf) 0)) (Some c).
Proof.
  intros Hb Hs Hp Hk Hm. rewrite (run_send o _ _ sizeof_socks5_method_reply) by done. cbn [ss_writecb socks5_subsys]. unfold socks5_write_cb, redsocks_touch_client.
  rewrite run_assoc, run_deref, run_ret, run_deref, Hs. cbn [when Z.eqb socks5_new fmap option_fmap option_map p_state]. apply write_helper_maker.
  unfold socks5_mkmethods, socks5_mkmethods_plain. by rewrite run_deref, run_assert, Hp.
Qed.

Lemma socks5_init c : do_password c = false → ss_init socks5_subsys cf c = c <| state := 0 |> <| do_password := has_cred cf |>.
Proof. done. Qed.

Lemma socks5_first : socks5_state_ok (mk_pstate socks5_method_sent (has_cred cf) 0) ∧ has_cred cf = has_cred cf ∧ 0 = 0.
Proof. split_and!; [| done | done]. by split. Qed.

Lemma socks5_waits p : socks5_state_ok p → 0 < p_state p ∧ 0 < socks5_awaits p.
Proof.
  intros (_ & Hs & Hk). split; [lia |]. unfold socks5_awaits, socks5_method_sent, socks5_auth_sent, socks5_request_sent, socks5_skip_domain, socks5_skip_address in *.
  repeat case_if; lia.
Qed.

Lemma socks5_next p d msg p' : socks5_state_ok p → wf_bytes d → zlen d = socks5_awaits p → socks5_reply_to p d = A_send msg p' →
  socks5_state_ok p' ∧ p_password p' = p_password p.
Proof.
  intros (Hp & Hs & Hk) Hw Hl. unfold socks5_reply_to. pose proof (byte_at_range d 0 Hw) as Hb0. unfold is_byte in Hb0.
  repeat case_if; intros [= <- <-]; (split; [| done]); (split; [done |]); cbn; unfold socks5_method_sent, socks5_auth_sent, socks5_request_sent, socks5_skip_domain, socks5_skip_address; lia.
Qed.

Lemma socks5_writes c o b : relay c = Some b → socks5_state_ok (pstate_of c) → ss_writecb socks5_subsys cf o (Some c) = (mret () : RM unit) (Some c).
Proof.
  intros Hb (_ & Hs & _). cbn [pstate_of p_state] in Hs. cbn [ss_writecb socks5_subsys]. unfold socks5_write_cb, redsocks_touch_client.
  rewrite run_assoc, run_deref, run_ret, run_deref. unfold socks5_new. by rewrite (proj2 (Z.eqb_neq (state c) 0)) by lia.
Qed.

Lemma socks5_quiet p d msg p' : false = true → socks5_reply_to p d = A_send msg p' → msg = None.
Proof. done. Qed.

#[export] Instance socks5_proto : RelayProto socks5_subsys cf := {|
  with_password := has_cred cf;
  greeting := [5; 1 + Z.b2z (has_cred cf); 0] ++ (if has_cred cf then [2] else []);
  first_state := mk_pstate socks5_method_sent (has_cred cf) 0;
  awaits := socks5_awaits;
  reply_to := socks5_reply_to;
  proto_state := socks5_state_ok;
  quiet := false;
  proto_init := socks5_init;
  proto_first := socks5_first;
  proto_awaits := socks5_waits;
  proto_next := socks5_next;
  proto_quiet := socks5_quiet;
  proto_greets := socks5_greets;
  proto_writes := socks5_writes;
  proto_reads c o b Hb Hs Hw Hl _ := socks5_reads c o b Hb Hs Hw Hl;
|}.

(** *** SOCKS4 *)

Definition socks4_connect_msg : bytes :=
  [socks4_ver; socks4_cmd_connect] ++ le_bytes 2 (dest_port cf) ++ le_bytes 4 (dest_ip cf) ++ default [] (login cf) ++ [0].
Definition socks4_reply_to (p : pstate) (d : bytes) : action := if (byte_at d 0 =? 0) && (byte_at d 1 =? 90) then A_relay else A_drop.
Definition socks4_state_ok (p : pstate) : Prop := p_state p = socks4_request_sent.

Lemma socks4_init c : do_password c = false → ss_init socks4_subsys cf c = c <| state := 0 |> <| do_password := false |>.
Proof. destruct c. cbn. by intros ->. Qed.

Lemma socks4_first : socks4_state_ok (mk_pstate socks4_request_sent false 0) ∧ false = false ∧ 0 = 0.
Proof. done. Qed.
Lemma socks4_waits p : socks4_state_ok p → 0 < p_state p ∧ 0 < 8.
Proof. unfold socks4_state_ok, socks4_request_sent. intros ->. lia. Qed.

Lemma socks4_next p d msg p' : socks4_state_ok p → wf_bytes d → zlen d = 8 → socks4_reply_to p d = A_send msg p' → socks4_state_ok p' ∧ p_password p' = p_password p.
Proof. intros _ _ _. unfold socks4_reply_to. by destruct (_ && _). Qed.

Lemma socks4_quiet p d msg p' : true = true → socks4_reply_to p d = A_send msg p' → msg = None.
Proof. intros _. unfold socks4_reply_to. by destruct (_ && _). Qed.

Lemma socks4_greets c o b : relay c = Some b → state c = 0 → do_password c = false → to_skip c = 0 → calloc_ok (mem o) = true →
  ss_writecb socks4_subsys cf o (Some c) = run_action cf (λ _, 8) o (A_send (Some socks4_connect_msg) (mk_pstate socks4_request_sent false 0)) (Some c).
Proof.
  intros Hb Hs Hp Hk Hm. unfold run_action. rewrite run_store, to_skip_same by done. cbn [ss_writecb socks4_subsys]. unfold socks4_write_cb, redsocks_touch_client.
  rewrite run_assoc, run_deref, run_ret, run_deref, Hs. cbn [Z.eqb socks4_new fmap option_fmap option_map p_state]. apply write_helper_maker.
  unfold socks4_mkconnect. by rewrite run_assert.
Qed.

Lemma socks4_writes c o b : relay c = Some b → socks4_state_ok (pstate_of c) →
  ss_writecb socks4_subsys cf o (Some c) = on_bev Relay (bufferevent_disable EV_WRITE) (Some c).
Proof.
  intros Hb Hs. unfold socks4_state_ok in Hs. cbn [pstate_of p_state] in Hs. cbn [ss_writecb socks4_subsys]. unfold socks4_write_cb, redsocks_touch_client.
  by rewrite run_assoc, run_deref, run_ret, run_deref, Hs.
Qed.

Lemma socks4_reads c o b : relay c = Some b → socks4_state_ok (pstate_of c) → zlen (input b) = 8 →
  ss_readcb socks4_subsys cf o (Some c) = run_action cf (λ _, 8) o (socks4_reply_to (pstate_of c) (input b)) (Some (c <| relay := Some (invoke_input (b <| input := [] |>)) |>)).
Proof.
  intros Hb Hs Hl. unfold socks4_state_ok in Hs. cbn [pstate_of p_state] in Hs. cbn [ss_readcb socks4_subsys]. unfold socks4_read_cb, redsocks_touch_client.
  rewrite run_deref, Hs, run_assert by done. rewrite run_assoc, run_deref, run_ret. cbn [when Z.eqb Pos.eqb socks4_request_sent].
  rewrite (run_read_expected _ _ _ b) by done. rewrite run_store. unfold socks4_reply_to, socks4_status_ok.
  destruct (byte_at (input b) 0 =? 0); cbn [negb andb run_action]; [destruct (byte_at (input b) 1 =? 90); [done |] |]; cbn [run_action]; by rewrite !run_drop.
Qed.

#[export] Instance socks4_proto : RelayProto socks4_subsys cf := {|
  with_password := false;
  greeting := socks4_connect_msg;
  first_state := mk_pstate socks4_request_sent false 0;
  awaits _ := 8;
  reply_to := socks4_reply_to;
  proto_state := socks4_state_ok;
  quiet := true;
  proto_init := socks4_init;
  proto_first := socks4_first;
  proto_awaits := socks4_waits;
  proto_next := socks4_next;
  proto_quiet := socks4_quiet;
  proto_greets := socks4_greets;
  proto_writes := socks4_writes;
  proto_reads c o b Hb Hs _ Hl _ := socks4_reads c o b Hb Hs Hl;
|}.
End protocols.
