(* ===== verification/RedsocksLaws.v ===== *)
(** * Invariant of a redirected client

    What has been received and sent is read off the effects. The invariant has four
    phases: the connection to the proxy is under way; the exchange with the proxy; relaying
    through the buffers; relaying through pipes. It is proved for every protocol that keeps
    [RelayProto]. *)
From S2P Require Import Prelude Bufferevent Redsocks RelayProto.

(** ** Histories *)

Definition recv_of (s : side) (e : reff) : bytes := match e with F_recv s' d => if bool_decide (s = s') then d else [] | _ => [] end.
Definition sent_of (s : side) (e : reff) : bytes := match e with F_sent s' d => if bool_decide (s = s') then d else [] | _ => [] end.
Definition recv (s : side) (h : list reff) : bytes := h ≫= recv_of s.
Definition sent (s : side) (h : list reff) : bytes := h ≫= sent_of s.
Definition closed_of (e : reff) : list Z := match e with F_close fd => [fd] | _ => [] end.
Definition opened_of (e : reff) : list Z := match e with F_pipe r w => [r; w] | _ => [] end.
Definition closed (h : list reff) : list Z := h ≫= closed_of.
Definition opened (h : list reff) : list Z := h ≫= opened_of.

Lemma recv_app s h k : recv s (h ++ k) = recv s h ++ recv s k.
Proof. apply bind_app. Qed.
Lemma sent_app s h k : sent s (h ++ k) = sent s h ++ sent s k.
Proof. apply bind_app. Qed.
Lemma closed_app h k : closed (h ++ k) = closed h ++ closed k.
Proof. apply bind_app. Qed.
Lemma opened_app h k : opened (h ++ k) = opened h ++ opened k.
Proof. apply bind_app. Qed.

(** The release of a client. *)
Definition release (cf : redsocks_config) (c : redsocks_client) : list reff := (F_close <$> held_fds cf c) ++ [F_list_del].

Lemma recv_closes s l : recv s (F_close <$> l) = [].
Proof. by induction l. Qed.
Lemma sent_closes s l : sent s (F_close <$> l) = [].
Proof. by induction l. Qed.
Lemma closed_closes l : closed (F_close <$> l) = l.
Proof. unfold closed. induction l as [| x l IH]; [done |]. cbn. by f_equal. Qed.
Lemma opened_closes l : opened (F_close <$> l) = [].
Proof. by induction l. Qed.
Lemma recv_release s cf c : recv s (release cf c) = [].
Proof. unfold release. by rewrite recv_app, recv_closes. Qed.
Lemma sent_release s cf c : sent s (release cf c) = [].
Proof. unfold release. by rewrite sent_app, sent_closes. Qed.
Lemma closed_release cf c : closed (release cf c) = held_fds cf c.
Proof. unfold release. rewrite closed_app, closed_closes. apply app_nil_r. Qed.
Lemma opened_release cf c : opened (release cf c) = [].
Proof. unfold release. by rewrite opened_app, opened_closes. Qed.
Lemma elem_release e cf c : e ∈ release cf c → e = F_list_del ∨ ∃ fd, e = F_close fd.
Proof.
  unfold release. rewrite elem_of_app, list_elem_of_fmap, list_elem_of_singleton. intros [(fd & -> & _) | ->]; eauto.
Qed.

(** ** Rules for the operations *)

Section rules.
Context (cf : redsocks_config).

Lemma wp_deref (Q : redsocks_client → option redsocks_client → list reff → Prop) c : Q c (Some c) [] → wp deref Q (Some c).
Proof. done. Qed.
Lemma wp_store f (Q : unit → option redsocks_client → list reff → Prop) c : Q () (Some (f c)) [] → wp (store f) Q (Some c).
Proof. done. Qed.
Lemma wp_the_bev s b (Q : bufferevent → option redsocks_client → list reff → Prop) c : bev_of s c = Some b → Q b (Some c) [] → wp (the_bev s) Q (Some c).
Proof. intros Hb HQ. apply wp_bind, wp_deref. cbn. rewrite Hb. exact HQ. Qed.
Lemma wp_on_bev s f b (Q : unit → option redsocks_client → list reff → Prop) c :
  bev_of s c = Some b → Q () (Some (with_bev s (Some (f b)) c)) [] → wp (on_bev s f) Q (Some c).
Proof. intros Hb HQ. apply wp_bind, (wp_the_bev _ b); [done |]. exact HQ. Qed.
Lemma wp_drop (Q : unit → option redsocks_client → list reff → Prop) c : Q () None (release cf c) → wp (redsocks_drop_client cf) Q (Some c).
Proof. intros HQ. unfold wp. by rewrite run_drop. Qed.
Lemma wp_touch (Q : unit → option redsocks_client → list reff → Prop) c : Q () (Some c) [] → wp redsocks_touch_client Q (Some c).
Proof. done. Qed.

(** The client after a shutdown, and the system call that it makes. *)
Definition shut_client (s : side) (h : shut_how) (b : bufferevent) (c : redsocks_client) : redsocks_client :=
  with_evshut s (ev_or (evshut s c) (evhow h)) (with_bev s (Some (bufferevent_disable (evhow h) b)) c).
Definition shut_call (s : side) (h : shut_how) (c : redsocks_client) : list reff :=
  if bool_decide (h = SHUT_RD) && ev_W (evshut s c) then [] else [F_shutdown s h].

Lemma wp_shutdown s h b (Q : unit → option redsocks_client → list reff → Prop) c : bev_of s c = Some b →
  (shut_both (shut_client s h b c) = true → Q () None (shut_call s h c ++ release cf (shut_client s h b c))) →
  (shut_both (shut_client s h b c) = false → Q () (Some (shut_client s h b c)) (shut_call s h c)) →
  wp (redsocks_shutdown cf s h) Q (Some c).
Proof.
  intros Hb H1 H2. apply wp_bind, wp_deref, wp_bind.
  assert (wp (when (negb (bool_decide (h = SHUT_RD) && ev_W (evshut s c))) (emit (F_shutdown s h))) (λ _ s' es, s' = Some c ∧ es = shut_call s h c) (Some c)) as Hw.
  { unfold when, shut_call. destruct (bool_decide _ && _); done. }
  eapply wp_mono; [exact Hw |]. intros [] ? ? [-> ->]. apply wp_bind, (wp_on_bev _ _ b); [done |]. apply wp_bind, wp_store, wp_bind, wp_deref.
  fold (shut_client s h b c). destruct (shut_both (shut_client s h b c)) eqn:E; cbn [when app]; [apply wp_drop | apply wp_ret; rewrite app_nil_r]; auto.
Qed.

Lemma wp_write_buffer from to bf bt (Q : unit → option redsocks_client → list reff → Prop) c :
  bev_of from c = Some bf → bev_of to c = Some bt → settled bf →
  Q () (Some (with_bev from (Some (settle (bf <| input := [] |>))) (with_bev to (Some (evbuffer_add (input bf) bt)) c))) [] →
  wp (redsocks_write_buffer from to) Q (Some c).
Proof.
  intros Hf Ht Hs HQ. apply wp_bind, (wp_the_bev _ bt); [done |]. apply wp_bind, (wp_the_bev _ bf); [done |]. cbn [app].
  assert (bufferevent_write_buffer bt bf = (evbuffer_add (input bf) bt, settle (bf <| input := [] |>))) as ->.
  { unfold bufferevent_write_buffer. destruct (Z.eqb_spec (zlen (input bf)) 0) as [E | E].
    - apply zlen_0_nil in E. unfold evbuffer_add. rewrite E. cbn. f_equal. transitivity (settle bf); [exact Hs |]. f_equal. destruct bf. cbn in *. by rewrite E.
    - by rewrite invoke_input_settle. }
  apply wp_store. exact HQ.
Qed.
End rules.

(** ** Events that can happen

    An event of a socket happens when it is added, and the kernel's answers fit what was asked
    for. Bytes are bytes, and memory for the messages is to be had from [calloc]. After its end
    a stream has no more data, and [splice] into a pipe only blocks when the pipe is not
    empty. *)

Definition drain_ok (avail : bytes) (ans : write_answer) : Prop := match ans with W_sent n => avail = [] ∨ 1 ≤ n ≤ zlen avail | _ => True end.

Definition event_ok (cf : redsocks_config) (e : event) (c : redsocks_client) : Prop :=
  match e with
  | E_read s ans o => ∃ b, bev_of s c = Some b ∧ ev_read b = true ∧ read_answer_ok b ans ∧ calloc_ok (mem o) = true ∧
      match ans with R_data d => wf_bytes d | _ => True end
  | E_write s ans connected o => ∃ b, bev_of s c = Some b ∧ ev_write b = true ∧ (output b ≠ [] → write_answer_ok b ans) ∧ calloc_ok (mem o) = true
  | E_pump_read s ans => use_splice cf = true ∧ pe_init (read_event s c) = true ∧ pe_added (read_event s c) = true ∧
      match ans with
      | R_data d => 1 ≤ zlen d ∧ ev_R (evshut s c) = false
      | R_again => pipe_data (pipe_from s c) ≠ []
      | _ => True
      end
  | E_pump_write s a0 a1 a2 => use_splice cf = true ∧ pe_init (write_event s c) = true ∧ (pe_added (write_event s c) = true ∨ pe_active (write_event s c) = true) ∧
      match bev_of s c with Some b => drain_ok (output b) a0 | None => True end ∧
      match bev_of (other s) c with Some b => drain_ok (input b) a1 | None => True end ∧
      drain_ok (pipe_data (pipe_from (other s) c)) a2
  end.

(** ** The invariant *)

Section invariant.
Context `{RP : RelayProto ss cf} (cfd rfd : Z).

Definition outb (s : side) (c : redsocks_client) : bytes := match bev_of s c with Some b => output b | None => [] end.
Definition inb (s : side) (c : redsocks_client) : bytes := match bev_of s c with Some b => input b | None => [] end.

(** The client's side before relaying: its data is collected. *)
Record pre_client (c : redsocks_client) (b : bufferevent) : Prop := {
  pc_bev : client c = Some b;
  pc_settled : settled b;
  pc_fd : bev_fd b = cfd;
  pc_out : output b = [];
  pc_evw : ev_write b = false;
  pc_en : enabled b = Ev (negb (ev_R (client_evshut c))) true;
  pc_wm : wm_read_low b = 0 ∧ wm_read_high b = 0;
  pc_cb : readcb b = CB_NULL ∧ writecb b = CB_NULL;
  pc_shut : ev_W (client_evshut c) = false;
  pc_pipes : request c = splice_pipe0 ∧ reply c = splice_pipe0;
  pc_events : client_read c = pump_event0 ∧ client_write c = pump_event0 ∧ relay_read c = pump_event0 ∧ relay_write c = pump_event0;
}.

Record connecting (c : redsocks_client) (b : bufferevent) : Prop := {
  co_bev : relay c = Some b;
  co_settled : settled b;
  co_fd : bev_fd b = rfd;
  co_in : input b = [];
  co_out : output b = [];
  co_en : enabled b = EV_WRITE;
  co_evw : ev_write b = true;
  co_wm : wm_read_high b = 0 ∧ wm_write_low b = 0;
  co_cb : readcb b = CB_NULL ∧ writecb b = CB_relay_connected;
  co_shut : relay_evshut c = ev_none;
  co_state : state c = 0 ∧ do_password c = with_password ∧ to_skip c = 0;
}.

(** The exchange: fewer bytes than awaited have come. *)
Record handshaking (p : pstate) (c : redsocks_client) (b : bufferevent) : Prop := {
  ha_bev : relay c = Some b;
  ha_settled : settled b;
  ha_fd : bev_fd b = rfd;
  ha_state : pstate_of c = p;
  ha_in : zlen (input b) < awaits p;
  ha_wf : wf_bytes (input b);
  ha_wm : wm_read_low b = awaits p ∧ wm_read_high b = awaits p ∧ wm_write_low b = 0;
  ha_cb : readcb b = CB_subsys ∧ writecb b = CB_subsys;
  ha_shut : ev_W (relay_evshut c) = false;
  ha_en_r : ev_R (enabled b) = negb (ev_R (relay_evshut c));
  ha_quiet : ev_W (enabled b) = false → output b = [] ∧ quiet = true;
  ha_evw : ev_write b = true → ev_W (enabled b) = true;
  ha_evw' : output b ≠ [] → ev_write b = true;
}.

(** Relaying through the buffers, in one direction. *)
Record pumped (c : redsocks_client) (X : side) (bX bY : bufferevent) : Prop := {
  pd_shut : ev_W (evshut (other X) c) = true → ev_R (evshut X c) = true ∧ output bY = [] ∧ ev_write bY = false ∧ (X = Relay → input bX = []);
  pd_en_w : ev_W (enabled bY) = negb (ev_W (evshut (other X) c));
  pd_en_r : ev_R (enabled bX) = true → ev_R (evshut X c) = false ∧ (X = Relay → input bX = []);
  pd_stop : ev_R (evshut X c) = false → ev_R (enabled bX) = false → output bY ≠ [];
  pd_evw : output bY ≠ [] ∨ input bX ≠ [] ∨ ev_R (evshut X c) = true → ev_W (evshut (other X) c) = false → ev_write bY = true;
}.

Record buf_bev (fd : Z) (b : bufferevent) : Prop := {
  bb_settled : settled b;
  bb_fd : bev_fd b = fd;
  bb_wm : wm_read_low b = 0 ∧ wm_read_high b = REDSOCKS_RELAY_HALFBUFF ∧ wm_write_low b = 0 ∧ wm_write_high b = REDSOCKS_RELAY_HALFBUFF;
  bb_cb : readcb b = CB_relay ∧ writecb b = CB_relay;
}.

Record bufpump (c : redsocks_client) (bc br : bufferevent) : Prop := {
  bp_client : client c = Some bc;
  bp_relay : relay c = Some br;
  bp_bc : buf_bev cfd bc;
  bp_br : buf_bev rfd br;
  bp_req : pumped c Client bc br;
  bp_rep : pumped c Relay br bc;
  bp_state : state c = pump_active;
  bp_pipes : request c = splice_pipe0 ∧ reply c = splice_pipe0;
}.

(** Relaying through pipes, in one direction: what is left in the buffers goes first. *)
Definition undelivered (X : side) (c : redsocks_client) : bytes := outb (other X) c ++ inb X c ++ pipe_data (pipe_from X c).
Definition write_pending (s : side) (c : redsocks_client) : Prop := pe_added (write_event s c) = true ∨ pe_active (write_event s c) = true.

Record spliced (c : redsocks_client) (X : side) : Prop := {
  sp_size : pipe_size (pipe_from X c) = zlen (pipe_data (pipe_from X c));
  sp_shut : ev_W (evshut (other X) c) = true → ev_R (evshut X c) = true ∧ undelivered X c = [] ∧ pipe_fds (pipe_from X c) = None ∧
              pe_added (read_event X c) = false ∧ ¬ write_pending (other X) c;
  sp_open : ev_W (evshut (other X) c) = false → pipe_fds (pipe_from X c) ≠ None;
  sp_pending : undelivered X c ≠ [] ∨ ev_R (evshut X c) = true → ev_W (evshut (other X) c) = false → write_pending (other X) c;
  sp_reading : ev_R (evshut X c) = false → pe_added (read_event X c) = true ∨ write_pending (other X) c;
}.

Definition event_of (fd : Z) (e : pump_event) : Prop := pe_init e = true ∧ pe_fd e = fd.
Definition detached (b : option bufferevent) : Prop := match b with Some b => bev_fd b = -1 ∧ ev_read b = false ∧ ev_write b = false | None => True end.

Record splicepump (c : redsocks_client) : Prop := {
  ss_client : detached (client c);
  ss_relay : detached (relay c);
  ss_events : event_of cfd (client_read c) ∧ event_of cfd (client_write c) ∧ event_of rfd (relay_read c) ∧ event_of rfd (relay_write c);
  ss_req : spliced c Client;
  ss_rep : spliced c Relay;
  ss_state : state c = pump_active;
}.

(** What the history and the buffers hold together. *)
Definition lead (got : bytes) (X : side) : bytes := match X with Client => [] | Relay => got end.
Definition start (msgs : bytes) (X : side) : bytes := match X with Client => msgs | Relay => [] end.
Definition flows (msgs got : bytes) (h : list reff) (c : redsocks_client) : Prop :=
  ∀ X, lead got X ++ sent (other X) h ++ undelivered X c = start msgs X ++ recv X h.

Definition shut_told (h : list reff) (c : redsocks_client) : Prop := ∀ s, F_shutdown s SHUT_WR ∈ h ↔ ev_W (evshut s c) = true.
Definition accounted (h : list reff) (fds : list Z) : Prop := closed h ++ fds ≡ₚ [cfd; rfd] ++ opened h.

Inductive cinv (h : list reff) (c : redsocks_client) : Prop :=
| cinv_connecting bc br : pre_client c bc → connecting c br → F_relaying ∉ h → shut_told h c → accounted h (held_fds cf c) →
    sent Relay h = [] → sent Client h = [] → recv Relay h = [] → recv Client h = input bc → cinv h c
| cinv_handshake p msgs got bc br : exchange p msgs got → pre_client c bc → handshaking p c br → F_relaying ∉ h → shut_told h c → accounted h (held_fds cf c) →
    sent Relay h ++ output br = msgs → sent Client h = [] → recv Relay h = got ++ input br → recv Client h = input bc → cinv h c
| cinv_buffers msgs got bc br : use_splice cf = false → exchanged msgs got → bufpump c bc br → shut_told h c → accounted h (held_fds cf c) →
    flows msgs got h c → cinv h c
| cinv_pipes msgs got : use_splice cf = true → exchanged msgs got → splicepump c → shut_told h c → accounted h (held_fds cf c) →
    flows msgs got h c → cinv h c.

(** What a history shows, whatever becomes of the client. *)
Definition told_exchange (h : list reff) : Prop :=
  (F_relaying ∉ h) ∧ sent Client h = [] ∧ (∀ s, F_shutdown s SHUT_WR ∉ h) ∧
  (sent Relay h = [] ∨ ∃ p msgs got, exchange p msgs got ∧ sent Relay h `prefix_of` msgs ∧ got `prefix_of` recv Relay h).
Definition told_relay (h : list reff) : Prop :=
  ∃ msgs got, exchanged msgs got ∧
    (sent Relay h) `prefix_of` (msgs ++ recv Client h) ∧ (got ++ sent Client h) `prefix_of` (recv Relay h) ∧
    (F_shutdown Client SHUT_WR ∈ h → got ++ sent Client h = recv Relay h) ∧
    (F_shutdown Relay SHUT_WR ∈ h → use_splice cf = true → sent Relay h = msgs ++ recv Client h).
Definition told (h : list reff) : Prop := told_exchange h ∨ told_relay h.

(** A client both of whose sockets are shut down in both directions has been released. *)
Definition good (h : list reff) (s : option redsocks_client) : Prop :=
  match s with Some c => cinv h c ∧ shut_both c = false | None => told h ∧ accounted h [] end.

(** ** Histories and the invariant *)

(** Effects that say nothing about data. *)
Definition silent (k : list reff) : Prop :=
  (∀ s, recv s k = [] ∧ sent s k = []) ∧ (F_relaying ∉ k) ∧ (∀ s, F_shutdown s SHUT_WR ∉ k).

Lemma silent_nil : silent [].
Proof. split_and!; [done | |]; intros; apply not_elem_of_nil. Qed.

Lemma silent_release c : silent (release cf c).
Proof.
  split_and!; [intros s; by rewrite recv_release, sent_release | |]; [intros H | intros s H]; apply elem_release in H as [? | [? ?]]; done.
Qed.

Lemma told_silent h k : told h → silent k → told (h ++ k).
Proof.
  intros Ht (Hd & Hr & Hs). assert (∀ s, recv s (h ++ k) = recv s h ∧ sent s (h ++ k) = sent s h) as He.
  { intros s. destruct (Hd s) as [E1 E2]. rewrite recv_app, sent_app, E1, E2, !app_nil_r. done. }
  assert (∀ s, F_shutdown s SHUT_WR ∈ (h ++ k) → F_shutdown s SHUT_WR ∈ h) as Hin by (intros s [? | ?]%elem_of_app; [done | by destruct (Hs s)]).
  destruct Ht as [(H1 & H2 & H3 & H4) | (msgs & got & H1 & H2 & H3 & H4 & H5)]; [left | right].
  - split_and!; [intros [? | ?]%elem_of_app; done | by rewrite (proj2 (He Client)) | by intros s ?%Hin; apply (H3 s) |].
    by rewrite (proj2 (He Relay)), (proj1 (He Relay)).
  - exists msgs, got. destruct (He Client) as [-> ->], (He Relay) as [-> ->]. split_and!; auto.
Qed.

Lemma good_drop h c : told h → accounted h (held_fds cf c) → good (h ++ release cf c) None.
Proof.
  intros Ht Ha. split; [apply told_silent; [done | apply silent_release] |]. unfold accounted in *. by rewrite closed_app, opened_app, closed_release, opened_release, !app_nil_r.
Qed.

Lemma told_flows msgs got h c : exchanged msgs got → flows msgs got h c →
  (F_shutdown Client SHUT_WR ∈ h → undelivered Relay c = []) → (F_shutdown Relay SHUT_WR ∈ h → use_splice cf = true → undelivered Client c = []) → told h.
Proof.
  intros He Hf Hc Hr. right. exists msgs, got. pose proof (Hf Client) as F1. pose proof (Hf Relay) as F2. cbn [lead start other app] in F1, F2.
  split_and!; [done | | | |].
  - exists (undelivered Client c). by rewrite <- F1.
  - exists (undelivered Relay c). by rewrite <- F2, <- app_assoc.
  - intros Hin. rewrite <- F2, (Hc Hin), app_nil_r. done.
  - intros Hin Hs. rewrite <- F1, (Hr Hin Hs), app_nil_r. done.
Qed.

Lemma cinv_told h c : cinv h c → told h.
Proof.
  intros [bc br Hpc Hco Hnr Hst Ha Hs1 Hs2 Hr1 Hr2 | p msgs got bc br He Hpc Hha Hnr Hst Ha Hs1 Hs2 Hr1 Hr2 | msgs got bc br Hu He Hb Hst Ha Hf | msgs got Hu He Hb Hst Ha Hf].
  - left. split_and!; [done | done | | by left]. intros [] Hin%Hst; cbn [evshut] in Hin; [by rewrite (pc_shut _ _ Hpc) in Hin | by rewrite (co_shut _ _ Hco) in Hin].
  - left. split_and!; [done | done | |]; [intros [] Hin%Hst; cbn [evshut] in Hin; [by rewrite (pc_shut _ _ Hpc) in Hin | by rewrite (ha_shut _ _ _ Hha) in Hin] |].
    right. exists p, msgs, got. rewrite Hr1. split_and!; [done | by exists (output br) | by exists (input br)].
  - eapply told_flows; [done | done | |]; [| by rewrite Hu]. intros Hin%Hst. destruct (pd_shut _ _ _ _ (bp_rep _ _ _ Hb) Hin) as (_ & Ho & _ & Hi).
    unfold undelivered, outb, inb. cbn [other bev_of pipe_from]. by rewrite (bp_client _ _ _ Hb), (bp_relay _ _ _ Hb), Ho, Hi, (proj2 (bp_pipes _ _ _ Hb)).
  - eapply told_flows; [done | done | |]; intros Hin%Hst; [apply (sp_shut _ _ (ss_rep _ Hb) Hin) | intros _; apply (sp_shut _ _ (ss_req _ Hb) Hin)].
Qed.

(** ** Steps of the invariant *)

Lemma shut_told_app h es c c' : shut_told h c → (∀ s, F_shutdown s SHUT_WR ∉ es) → (∀ s, ev_W (evshut s c') = ev_W (evshut s c)) → shut_told (h ++ es) c'.
Proof. intros Hh He Hc s. rewrite elem_of_app, Hc, <- (Hh s). split; [intros [? | ?]; [done | by destruct (He s)] | by left]. Qed.

Lemma accounted_app h es fds fds' : accounted h fds → closed es = [] → opened es = [] → fds' = fds → accounted (h ++ es) fds'.
Proof. unfold accounted. intros Ha Hc Ho ->. by rewrite closed_app, opened_app, Hc, Ho, !app_nil_r. Qed.

Lemma held_client c b b' : client c = Some b → bev_fd b' = bev_fd b → held_fds cf (c <| client := Some b' |>) = held_fds cf c.
Proof. intros Hb Hf. unfold held_fds, bev_fds. cbn. by rewrite Hb, Hf. Qed.
Lemma held_relay c b b' : relay c = Some b → bev_fd b' = bev_fd b → held_fds cf (c <| relay := Some b' |>) = held_fds cf c.
Proof. intros Hb Hf. unfold held_fds, bev_fds. cbn. by rewrite Hb, Hf. Qed.

Lemma wp_eq {A} (m m' : RM A) Q s s' : m s = m' s' → wp m' Q s' → wp m Q s.
Proof. unfold wp. by intros ->. Qed.

Lemma unshut s c : ev_W (evshut s c) = false → shut_both c = false.
Proof.
  unfold shut_both. destruct s; cbn; intros Hw; [destruct (bool_decide_reflect (client_evshut c = EV_BOTH)) as [E | _] | destruct (bool_decide_reflect (relay_evshut c = EV_BOTH)) as [E | _]];
    rewrite ?E, ?andb_false_r in *; done.
Qed.
Lemma good_unshut h c : cinv h c → ev_W (client_evshut c) = false → good h (Some c).
Proof. intros Hi Hw. split; [done | by apply (unshut Client)]. Qed.

Lemma good_snoc h e es s : good ((h ++ [e]) ++ es) s → good (h ++ e :: es) s.
Proof. by rewrite <- app_assoc. Qed.

Lemma evset_none e : ev_R e = false → ev_W e = false → e = ev_none.
Proof. destruct e. cbn. by intros -> ->. Qed.

End invariant.
