(* ===== verification/RedsocksExchange.v ===== *)
(** * The exchange with the proxy

    The events of a client up to the start of relaying keep the invariant. *)
From S2P Require Import Prelude Bufferevent Redsocks RelayProto RedsocksLaws.

Section exchange.
Context `{RP : RelayProto ss cf} (cfd rfd : Z).
Hypothesis fds_valid : cfd ≠ -1 ∧ rfd ≠ -1.
#[local] Set Default Proof Using "All".

(** ** The side of the client *)

(** Effects that only receive from the client or shut down reading. *)
Definition calm (es : list reff) : Prop :=
  recv Relay es = [] ∧ (∀ s, sent s es = []) ∧ (F_relaying ∉ es) ∧ (∀ s, F_shutdown s SHUT_WR ∉ es) ∧ closed es = [] ∧ opened es = [].

Lemma calm_nil : calm [].
Proof. by split_and!; try set_solver. Qed.
Lemma calm_recv d : calm [F_recv Client d].
Proof. by split_and!; try set_solver. Qed.
Lemma calm_shut s : calm [F_shutdown s SHUT_RD].
Proof. by split_and!; try set_solver. Qed.

(** What an event of the client's socket does before relaying. *)
Definition client_moved (c : redsocks_client) (bc : bufferevent) (s' : option redsocks_client) (es : list reff) : Prop :=
  (∃ b, bev_fd b = cfd ∧ s' = None ∧ es = release cf (c <| client := Some b |>)) ∨
  (∃ b e, s' = Some (c <| client := Some b |> <| client_evshut := e |>) ∧ pre_client cfd (c <| client := Some b |> <| client_evshut := e |>) b ∧
     input b = input bc ++ recv Client es ∧ calm es).

Lemma client_event c bc br ans o : pre_client cfd c bc → relay c = Some br → ev_W (relay_evshut c) = false → state c ≠ pump_active →
  event_ok cf (E_read Client ans o) c → wp (step ss cf (E_read Client ans o)) (λ _, client_moved c bc) (Some c).
Proof.
  intros Hpc Hr Hw Hst (b & Hb & He & Ha & Hm & Hd). cbn [bev_of] in Hb. rewrite (pc_bev _ _ _ Hpc) in Hb. injection Hb as <-.
  cbn [step]. apply wp_bind, (wp_the_bev _ bc); [apply Hpc |]. rewrite readcb_settle by (done || apply Hpc). pose proof (pc_wm _ _ _ Hpc) as [Hl Hh].
  pose proof (pc_settled _ _ _ Hpc) as Hse.
  destruct ans as [d | | | |]; cbn [app].
  - rewrite Hl, (proj2 (Z.leb_le 0 _)) by apply zlen_nonneg. apply wp_bind, wp_emit, wp_bind, wp_store. cbn [run_cb with_bev].
    apply wp_bind, (wp_the_bev _ (settle (bc <| input := input bc ++ d |>))); [done |].
    assert (readcb (settle (bc <| input := input bc ++ d |>)) = CB_NULL) as -> by apply Hpc. cbn [run_readcb]. apply wp_ret. right.
    exists (settle (bc <| input := input bc ++ d |>)), (client_evshut c). split_and!; [by destruct c | | cbn; by rewrite app_nil_r | apply calm_recv].
    constructor; try apply Hpc; done.
  - apply wp_bind, wp_ret, wp_bind, wp_store. cbn [run_cb with_bev redsocks_event_error app]. apply wp_bind, wp_touch, wp_bind.
    set (b1 := bufferevent_disable EV_READ bc). apply (wp_shutdown _ _ _ b1); [done | |].
    { intros Hb. apply andb_prop in Hb as [Hb _]. apply bool_decide_eq_true in Hb. cbn [shut_client with_bev with_evshut relay_evshut] in Hb. cbn in Hb. by rewrite Hb in Hw. }
    intros _. apply wp_bind, wp_deref. match goal with |- wp (match bev_of _ ?c1 with _ => _ end) _ _ => assert (bev_of (other Client) c1 = Some br) as -> by done;
      assert ((state c1 =? pump_active) = false) as -> by (by apply Z.eqb_neq) end.
    apply wp_ret. right. unfold shut_call, shut_client, b1. cbn. rewrite (pc_shut _ _ _ Hpc). cbn. rewrite (disable_settle _ bc), disable_settle by (done || apply settle_settled).
    eexists _, _. split_and!; [reflexivity | | cbn; by rewrite app_nil_r | apply calm_shut].
    constructor; try apply Hpc; try done; cbn; rewrite ?(pc_en _ _ _ Hpc), ?(pc_evw _ _ _ Hpc), ?(pc_shut _ _ _ Hpc); cbn; by destruct (ev_R (client_evshut c)).
  - apply wp_bind, wp_ret, wp_bind, wp_store, wp_ret. right. exists bc, (client_evshut c). split_and!; [by destruct c | | cbn; by rewrite app_nil_r | apply calm_nil].
    constructor; apply Hpc || done.
  - apply wp_bind, wp_ret, wp_bind, wp_store, wp_ret. right. exists bc, (client_evshut c). split_and!; [by destruct c | | cbn; by rewrite app_nil_r | apply calm_nil].
    constructor; apply Hpc || done.
  - apply wp_bind, wp_ret, wp_bind, wp_store. cbn [run_cb with_bev redsocks_event_error app]. apply wp_bind, wp_touch, wp_drop. left.
    eexists. split_and!; [| done | reflexivity]. rewrite disable_settle by done. apply Hpc.
Qed.

(** The invariant after an event of the client's socket. *)
Lemma client_moved_good h c bc s' es : cinv cfd rfd h c → pre_client cfd c bc → state c ≠ pump_active → client_moved c bc s' es → good cfd rfd (h ++ es) s'.
Proof.
  intros Hinv Hpc Hst [(b & Hb & -> & ->) | (b & e & -> & Hpc' & Hi & Hr & Hs & Hn & Hw & Hcl & Hop)].
  - apply good_drop; [by eapply cinv_told |]. rewrite (held_client _ bc) by (apply Hpc || rewrite Hb; symmetry; apply Hpc). by destruct Hinv.
  - assert (∀ s, ev_W (evshut s (c <| client := Some b |> <| client_evshut := e |>)) = ev_W (evshut s c)) as Hsh.
    { intros []; [| done]. cbn. rewrite (pc_shut _ _ _ Hpc). apply (pc_shut _ _ _ Hpc'). }
    assert (held_fds cf (c <| client := Some b |> <| client_evshut := e |>) = held_fds cf c) as Hh.
    { rewrite <- (held_client c bc b); [done | apply Hpc |]. rewrite (pc_fd _ _ _ Hpc). apply (pc_fd _ _ _ Hpc'). }
    destruct Hinv as [bc0 br Hpc0 Hco Hnr Hst0 Ha Hs1 Hs2 Hr1 Hr2 | p msgs got bc0 br He Hpc0 Hha Hnr Hst0 Ha Hs1 Hs2 Hr1 Hr2 | ? ? ? ? _ _ Hbp | ? ? _ _ Hbp];
      [| | by destruct Hst; apply Hbp | by destruct Hst; apply Hbp].
    + assert (bc0 = bc) as -> by (pose proof (pc_bev _ _ _ Hpc) as E; rewrite (pc_bev _ _ _ Hpc0) in E; by injection E).
      apply good_unshut; [| apply (pc_shut _ _ _ Hpc')]. eapply (cinv_connecting _ _ _ _ b br); [done | | set_solver | by eapply shut_told_app | by eapply accounted_app | | | |]; rewrite ?sent_app, ?recv_app, ?Hs, ?Hr, ?app_nil_r; try done.
      * constructor; apply Hco.
      * by rewrite Hr2, Hi.
    + assert (bc0 = bc) as -> by (pose proof (pc_bev _ _ _ Hpc) as E; rewrite (pc_bev _ _ _ Hpc0) in E; by injection E).
      apply good_unshut; [| apply (pc_shut _ _ _ Hpc')]. eapply (cinv_handshake _ _ _ _ p msgs got b br); [done | done | | set_solver | by eapply shut_told_app | by eapply accounted_app | | | |]; rewrite ?sent_app, ?recv_app, ?Hs, ?Hr, ?app_nil_r; try done.
      * constructor; apply Hha.
      * by rewrite Hr2, Hi.
Qed.

(** ** The side of the proxy *)

(** A reply has been taken from the input, or the connection has just been made. *)
Record ready (c : redsocks_client) (b : bufferevent) : Prop := {
  rd_bev : relay c = Some b;
  rd_settled : settled b;
  rd_fd : bev_fd b = rfd;
  rd_in : input b = [];
  rd_wm : wm_write_low b = 0;
  rd_cb : readcb b = CB_subsys ∧ writecb b = CB_subsys;
  rd_shut : relay_evshut c = ev_none;
  rd_quiet : ev_W (enabled b) = false → output b = [] ∧ quiet = true;
  rd_evw : ev_write b = true → ev_W (enabled b) = true;
  rd_evw' : output b ≠ [] → ev_write b = true;
}.

(** What holds of the history then. *)
Record ready_history (h : list reff) (c : redsocks_client) (bc b : bufferevent) (msgs got : bytes) : Prop := {
  rh_client : pre_client cfd c bc;
  rh_relay : ready c b;
  rh_told : told h;
  rh_shut : shut_told h c;
  rh_fds : accounted cfd rfd h (held_fds cf c);
  rh_quiet : F_relaying ∉ h;
  rh_sent : sent Relay h ++ output b = msgs;
  rh_sent' : sent Client h = [];
  rh_recv : recv Relay h = got;
  rh_recv' : recv Client h = input bc;
}.

Lemma send_ok h c bc b msgs got msg p o : ready_history h c bc b msgs got → exchange p (msgs ++ default [] msg) got → do_password c = p_password p →
  (msg ≠ None → ev_W (enabled b) = true) →
  wp (run_action cf awaits o (A_send msg p)) (λ _ s' es, good cfd rfd (h ++ es) s') (Some c).
Proof.
  intros [Hpc Hrd Ht Hsh Ha Hnr Hs Hs' Hr Hr'] He Hp Hen. destruct (proto_awaits p (exchange_state _ _ _ He)) as [Hpos Haw].
  cbn [run_action]. apply wp_bind, wp_store. unfold redsocks_write_helper. apply wp_bind. cbn [app].
  set (c1 := c <| to_skip := p_skip p |>).
  assert (∀ d, (d = [] ∨ ev_W (enabled b) = true) → default [] msg = d →
    wp (store (λ c, c <| state := p_state p |>);; on_bev Relay (bufferevent_setwatermark EV_READ (awaits p) (awaits p));; on_bev Relay (bufferevent_enable EV_READ))
      (λ _ s' es, good cfd rfd (h ++ es) s') (Some (c1 <| relay := Some (evbuffer_add d b) |>))) as Hgo.
  { intros d Hd Hmsg. apply wp_bind, wp_store. apply wp_bind, (wp_on_bev _ _ (evbuffer_add d b)); [done |].
    apply (wp_on_bev _ _ (bufferevent_setwatermark EV_READ (awaits p) (awaits p) (evbuffer_add d b))); [done |]. cbn [app with_bev].
    rewrite evbuffer_add_fields, setwatermark_settle by (apply settled_output, Hrd). rewrite enable_settle by apply settle_settled. rewrite app_nil_r.
    assert (evbuffer_out : d ≠ [] → zlen d ≠ 0) by (intros Hne E; by apply zlen_0_nil in E).
    match goal with |- good _ _ _ (Some ?c2) => match c2 with set relay (λ _, Some ?b2) _ => set (b' := b2); set (cc := c2) end end.
    destruct Hrd as [Hrb Hrs Hrf Hri Hrw [Hcb1 Hcb2] Hrsh Hrq Hre Hre'].
    apply good_unshut; [| apply (pc_shut _ _ _ Hpc)]. eapply (cinv_handshake _ _ _ _ p (msgs ++ d) got bc b'); [by rewrite <- Hmsg | | | done | | | | done | |].
    - constructor; apply Hpc.
    - constructor; try done; cbn; rewrite ?Hri, ?Hrw, ?Hrsh; cbn; try done.
      + unfold pstate_of. cbn. rewrite Hp. by destruct p.
      + constructor.
      + destruct (enabled b) as [er ew]. cbn in *. rewrite orb_true_r. done.
      + destruct (enabled b) as [er ew]. cbn in *. rewrite orb_false_r. intros ->. destruct (Hrq eq_refl) as [-> ->]. by destruct Hd as [-> |].
      + destruct (enabled b) as [er ew]. cbn in *. rewrite !orb_false_r. intros [[_ ?]%andb_prop | ?]%orb_prop; auto.
      + destruct (enabled b) as [er ew]. cbn in *. intros Hne. destruct Hd as [-> | ->].
        * rewrite app_nil_r in Hne. rewrite (Hre' Hne). by rewrite orb_true_r.
        * destruct d as [| x d]; [rewrite app_nil_r in Hne; rewrite (Hre' Hne); by rewrite orb_true_r |]. rewrite (proj2 (Z.eqb_neq (zlen (x :: d)) 0)) by (by apply evbuffer_out). done.
    - intros []; apply Hsh.
    - unfold accounted in *. erewrite <- (held_relay c b b') in Ha by done. done.
    - cbn. by rewrite app_assoc, Hs.
    - cbn. by rewrite Hri, app_nil_r.
    - done. }
  destruct msg as [d |]; cbn [fmap option_fmap option_map].
  - apply wp_bind, wp_ret. unfold mkevbuffer. destruct (evbuffer_ok (mem o)); cbn [app].
    + apply wp_bind, (wp_on_bev _ _ b); [apply Hrd |]. apply wp_ret. cbn [app]. apply Hgo; [right; by apply Hen | done].
    + apply wp_ret, wp_drop. cbn [app]. apply good_drop; [done |]. exact Ha.
  - apply wp_ret. cbn [app]. replace c1 with (c1 <| relay := Some (evbuffer_add [] b) |>); [apply Hgo; [by left | done] |].
    unfold c1. rewrite evbuffer_add_fields, app_nil_r. cbn. pose proof (rd_bev _ _ Hrd) as E. destruct c; cbn in *. subst. do 2 f_equal. by destruct b.
Qed.

Lemma shut_told_same h c c' : shut_told h c → (∀ s, evshut s c' = evshut s c) → shut_told h c'.
Proof. intros H E s. rewrite E. apply H. Qed.

(** Relaying through the buffers starts. *)
Lemma bufferpump_ok h c bc b msgs got : ready_history h c bc b msgs got → exchanged msgs got → use_splice cf = false →
  wp redsocks_start_bufferpump (λ _ s' es, es = [] ∧ good cfd rfd (h ++ [F_relaying]) s') (Some (c <| state := pump_active |>)).
Proof.
  intros [Hpc Hrd Ht Hsh Ha Hnr Hs Hs' Hr Hr'] He Hu. destruct Hrd as [Hrb Hrs Hrf Hri Hrw [Hcb1 Hcb2] Hrsh Hrq Hre Hre'].
  unfold redsocks_start_bufferpump, start_side.
  apply wp_bind, (wp_on_bev _ _ bc); [apply Hpc |]. apply wp_bind, (wp_on_bev _ _ b); [done |].
  apply wp_bind. eapply wp_on_bev; [done |]. apply wp_bind. eapply wp_on_bev; [done |].
  apply wp_bind, wp_bind, wp_deref. eapply wp_on_bev; [done |]. apply wp_bind, wp_deref. eapply wp_on_bev; [done |]. cbn [app]. split; [done |].
  rewrite !setwatermark_settle by (apply Hpc || done). cbn [ev_W ev_R EV_BOTH].
  rewrite !enable_settle by (apply settled_callbacks, settle_settled).
  match goal with |- good _ _ _ (Some ?c2) => set (cc := c2) end.
  destruct (bev_of Client cc) as [bc' |] eqn:Ebc; [| done]. destruct (bev_of Relay cc) as [br' |] eqn:Ebr; [| done]. injection Ebc as Ebc. injection Ebr as Ebr.
  assert (client cc = Some bc' ∧ relay cc = Some br' ∧ evshut Client cc = client_evshut c ∧ evshut Relay cc = ev_none ∧ state cc = pump_active ∧
    request cc = splice_pipe0 ∧ reply cc = splice_pipe0) as (Hc1 & Hc2 & Hc3 & Hc4 & Hc5 & Hc6 & Hc7).
  { split_and!; [by subst bc' | by subst br' | done | exact Hrsh | done | apply Hpc | apply Hpc]. }
  assert (buf_bev cfd bc' ∧ enabled bc' = Ev (negb (ev_R (client_evshut c))) true ∧ ev_write bc' = true ∧ input bc' = input bc ∧ output bc' = []) as (Hb1 & He1 & Hw1 & Hi1 & Ho1).
  { subst bc'. cbn. rewrite (pc_out _ _ _ Hpc), (pc_en _ _ _ Hpc). split_and!; try done; [| unfold ev_or, ev_minus; cbn; by destruct (ev_R (client_evshut c)) | by rewrite (pc_shut _ _ _ Hpc)].
    constructor; [apply settle_settled | apply Hpc | done | done]. }
  assert (buf_bev rfd br' ∧ enabled br' = Ev true true ∧ ev_write br' = true ∧ input br' = [] ∧ output br' = output b) as (Hb2 & He2 & Hw2 & Hi2 & Ho2).
  { subst br'. cbn. rewrite Hri, Hrsh. split_and!; try done. unfold ev_or. cbn. by rewrite !orb_true_r. }
  assert (held_fds cf cc = held_fds cf c) as Hh.
  { unfold held_fds, bev_fds. rewrite Hc1, Hc2, Hu, (pc_bev _ _ _ Hpc), Hrb, (bb_fd _ _ Hb1), (bb_fd _ _ Hb2), (pc_fd _ _ _ Hpc), Hrf. done. }
  clearbody cc. clear Ebc Ebr.
  apply good_unshut; [| rewrite <- (pc_shut _ _ _ Hpc), <- Hc3; done]. eapply (cinv_buffers _ _ _ _ msgs got bc' br'); [done | done | | | by eapply accounted_app |].
  - constructor; try done.
    + constructor; cbn [other]; rewrite ?Hc3, ?Hc4, ?He1, ?He2, ?Hw2; cbn; try done; by destruct (ev_R (client_evshut c)).
    + constructor; cbn [other]; rewrite ?Hc3, ?Hc4, ?He1, ?He2, ?Hw1, ?(pc_shut _ _ _ Hpc); cbn; done.
  - eapply shut_told_app; [exact Hsh | set_solver |]. intros []; [by rewrite Hc3 | by rewrite Hc4; cbn; rewrite Hrsh].
  - intros X. unfold undelivered, outb, inb. rewrite sent_app, recv_app. destruct X; cbn [other lead start bev_of pipe_from]; rewrite Hc1, Hc2, ?Hc6, ?Hc7, ?Hi1, ?Ho1, ?Hi2, ?Ho2; cbn; rewrite !app_nil_r.
    + by rewrite Hr', <- Hs, app_assoc.
    + by rewrite Hs', app_nil_r.
Qed.

(** Relaying through pipes starts, or a pipe cannot be had. *)
Lemma told_opened h es : told h → (∀ e, e ∈ es → ∃ r w, e = F_pipe r w) → told (h ++ es).
Proof.
  intros Ht He. apply told_silent; [done |]. split_and!; [| by intros (? & ? & ?)%He | by intros s (? & ? & ?)%He]. intros s.
  induction es as [| e es IH]; [done |]. destruct (He e) as (r & w & ->); [set_solver |]. apply IH. set_solver.
Qed.

Lemma splicepump_ok h c bc b msgs got pp : ready_history h c bc b msgs got → exchanged msgs got → use_splice cf = true →
  wp (redsocks_start_splicepump pp) (λ ok s' es, if ok then good cfd rfd (h ++ es ++ [F_relaying]) s'
    else ∃ c', s' = Some c' ∧ told (h ++ es) ∧ accounted cfd rfd (h ++ es) (held_fds cf c')) (Some (c <| state := pump_active |>)).
Proof.
  intros [Hpc Hrd Ht Hsh Ha Hnr Hs Hs' Hr Hr'] He Hu. destruct Hrd as [Hrb Hrs Hrf Hri Hrw [Hcb1 Hcb2] Hrsh Hrq Hre Hre'].
  assert (held_fds cf c = [cfd; rfd]) as Hheld.
  { unfold held_fds, bev_fds, pipe_ends, event_fds. destruct (pc_pipes _ _ _ Hpc) as [-> ->], (pc_events _ _ _ Hpc) as (-> & _ & -> & _).
    rewrite (pc_bev _ _ _ Hpc), Hrb, (pc_fd _ _ _ Hpc), Hrf, !(proj2 (Z.eqb_neq _ (-1))) by apply fds_valid. by rewrite Hu. }
  assert (closed h ≡ₚ opened h) as Hco.
  { unfold accounted in Ha. rewrite Hheld in Ha. apply (Permutation_app_inv_l [cfd; rfd]). rewrite <- Ha. apply Permutation_app_comm. }
  unfold redsocks_start_splicepump. apply wp_bind, (wp_on_bev _ _ bc); [apply Hpc |]. apply wp_bind, (wp_on_bev _ _ b); [done |]. cbn [app].
  rewrite !disable_settle by (apply Hpc || done). destruct pp as [[[r1 w1] |] p2]; cbn [fst snd].
  2: { apply wp_ret. eexists. split; [done |]. rewrite app_nil_r. split; [done |]. unfold accounted in *. rewrite Hheld in Ha. rewrite <- Ha. f_equiv.
       unfold held_fds, bev_fds, pipe_ends, event_fds. cbn. destruct (pc_pipes _ _ _ Hpc) as [-> ->], (pc_events _ _ _ Hpc) as (-> & _ & -> & _).
       rewrite (pc_fd _ _ _ Hpc), Hrf, !(proj2 (Z.eqb_neq _ (-1))) by apply fds_valid. by rewrite Hu. }
  apply wp_bind, wp_emit, wp_bind, wp_store. destruct p2 as [[r2 w2] |].
  2: { apply wp_ret. eexists. split; [done |]. split; [apply told_opened; [done | set_solver] |]. unfold accounted. rewrite closed_app, opened_app. cbn.
       unfold held_fds, bev_fds, pipe_ends, event_fds. cbn. destruct (pc_pipes _ _ _ Hpc) as [_ ->], (pc_events _ _ _ Hpc) as (-> & _ & -> & _).
       rewrite (pc_fd _ _ _ Hpc), Hrf, !(proj2 (Z.eqb_neq _ (-1))) by apply fds_valid. rewrite Hu, Hco. cbn. rewrite app_nil_r. 
       rewrite (Permutation_app_comm (opened h)). cbn. do 2 f_equiv. apply (Permutation_app_comm [r1; w1]). }
  apply wp_bind, wp_emit, wp_bind, wp_store. apply wp_bind. eapply wp_the_bev; [done |]. apply wp_bind. eapply wp_the_bev; [done |]. apply wp_bind, wp_store.
  apply wp_bind. eapply wp_on_bev; [done |]. apply wp_bind. eapply wp_on_bev; [done |].
  do 4 (apply wp_bind, wp_store). apply wp_ret. cbn [app].
  match goal with |- good _ _ _ (Some ?c2) => set (cc := c2) end.
  assert (evshut Client cc = client_evshut c ∧ evshut Relay cc = ev_none ∧ state cc = pump_active) as (Hc3 & Hc4 & Hc5) by done.
  assert (detached (client cc) ∧ detached (relay cc) ∧ outb Client cc = [] ∧ inb Client cc = input bc ∧ outb Relay cc = output b ∧ inb Relay cc = [])
    as (Hd1 & Hd2 & Ho1 & Hi1 & Ho2 & Hi2).
  { unfold outb, inb. cbn. rewrite (pc_out _ _ _ Hpc), Hri. done. }
  assert (request cc = mk_splice_pipe (Some (r1, w1)) 0 [] ∧ reply cc = mk_splice_pipe (Some (r2, w2)) 0 []) as [Hp1 Hp2].
  { cbn. destruct (pc_pipes _ _ _ Hpc) as [-> ->]. done. }
  assert (client_read cc = mk_pump_event true cfd true false ∧ client_write cc = mk_pump_event true cfd false true ∧
    relay_read cc = mk_pump_event true rfd true false ∧ relay_write cc = mk_pump_event true rfd false true) as (Hv1 & Hv2 & Hv3 & Hv4).
  { cbn. by rewrite (pc_fd _ _ _ Hpc), Hrf. }
  assert (held_fds cf cc = [r1; w1; r2; w2; cfd; rfd]) as Hh.
  { unfold held_fds, bev_fds, pipe_ends, event_fds. rewrite Hp1, Hp2, Hv1, Hv3, Hu. cbn. by rewrite !(proj2 (Z.eqb_neq _ (-1))) by apply fds_valid. }
  clearbody cc. apply good_unshut; [| rewrite <- (pc_shut _ _ _ Hpc), <- Hc3; done]. eapply (cinv_pipes _ _ _ _ msgs got); [done | done | | | |].
  - constructor; try done; [by rewrite Hv1, Hv2, Hv3, Hv4 | |].
    + constructor; unfold undelivered, write_pending; cbn [other pipe_from read_event write_event]; rewrite ?Hp1, ?Hc3, ?Hc4, ?Hv1, ?Hv4; cbn; auto; try done.
    + constructor; unfold undelivered, write_pending; cbn [other pipe_from read_event write_event]; rewrite ?Hp2, ?Hc3, ?Hc4, ?Hv3, ?Hv2, ?(pc_shut _ _ _ Hpc); cbn; auto; try done.
  - eapply shut_told_app; [exact Hsh | set_solver |]. intros []; [by rewrite Hc3 | by rewrite Hc4; cbn; rewrite Hrsh].
  - unfold accounted. rewrite closed_app, opened_app, Hh, Hco. change (closed [_; _; _]) with (@nil Z). rewrite app_nil_r.
    change [r1; w1; r2; w2; cfd; rfd] with ([r1; w1; r2; w2] ++ [cfd; rfd]). rewrite app_assoc. apply (Permutation_app_comm _ [cfd; rfd]).
  - intros X. unfold undelivered. rewrite sent_app, recv_app. destruct X; cbn [other lead start pipe_from]; rewrite ?Hp1, ?Hp2, ?Hi1, ?Ho1, ?Hi2, ?Ho2; cbn; rewrite !app_nil_r.
    + by rewrite Hr', <- Hs, app_assoc.
    + by rewrite Hs', app_nil_r.
Qed.

(** The decision to relay. *)
Lemma relay_ok h c bc b msgs got o : ready_history h c bc b msgs got → exchanged msgs got →
  wp (run_action cf awaits o A_relay) (λ _ s' es, good cfd rfd (h ++ es) s') (Some c).
Proof.
  intros Hrh He. cbn [run_action]. apply wp_bind, wp_store, wp_bind. destruct (use_splice cf) eqn:Hu; cbn [app].
  - eapply wp_mono; [by eapply splicepump_ok |]. intros [] s' es Hg; cbn beta iota.
    + apply wp_emit. done.
    + destruct Hg as (c' & -> & Ht & Ha). apply wp_drop. rewrite app_assoc. by apply good_drop.
  - apply wp_bind. eapply wp_mono; [by eapply bufferpump_ok |]. intros [] s' es [-> Hg]. apply wp_ret. cbn [app]. apply wp_emit. exact Hg.
Qed.

(** ** Events of the proxy's socket *)

(** The writable event that reports the connection. *)
Lemma connecting_write h c bc br ans conn o : pre_client cfd c bc → connecting rfd c br → F_relaying ∉ h → shut_told h c → accounted cfd rfd h (held_fds cf c) →
  sent Relay h = [] → sent Client h = [] → recv Relay h = [] → recv Client h = input bc → calloc_ok (mem o) = true →
  wp (step ss cf (E_write Relay ans conn o)) (λ _ s' es, good cfd rfd (h ++ es) s') (Some c).
Proof.
  intros Hpc Hco Hnr Hst Ha Hs1 Hs2 Hr1 Hr2 Hm. pose proof (cinv_told _ _ _ _ (cinv_connecting _ _ _ _ _ _ Hpc Hco Hnr Hst Ha Hs1 Hs2 Hr1 Hr2)) as Ht.
  destruct Hco as [Hb Hse Hfd Hi Ho Hen Hev [Hh Hl] [Hcb1 Hcb2] Hsh (Hs0 & Hp0 & Hk0)].
  cbn [step]. apply wp_bind, (wp_the_bev _ br); [done |]. rewrite writecb_empty by done. apply wp_bind, wp_ret, wp_bind, wp_store. cbn [run_cb with_bev app].
  apply wp_bind. eapply wp_the_bev; [done |]. assert (writecb (br <| ev_write := false |>) = CB_relay_connected) as -> by done. cbn [run_writecb app].
  apply wp_bind, wp_touch. destruct conn; cbn [app]; [| apply wp_drop, good_drop; [done |]; by rewrite (held_relay _ br)].
  apply wp_bind. eapply wp_on_bev; [done |]. cbn [with_bev app].
  match goal with |- wp _ _ (Some ?c2) => match c2 with set relay (λ _, Some ?b2) _ => set (b' := b2); set (cc := c2) end end.
  eapply wp_eq; [by apply (proto_greets cc o b') |].
  apply (send_ok h cc bc b' [] [] (Some greeting) first_state o); [| apply exchange_first | rewrite (proj1 (proj2 proto_first)); done | intros _; cbn; by rewrite Hen].
  constructor; try done.
  - constructor; apply Hpc.
  - constructor; try done; [by apply settled_callbacks, (settled_output _ (output br) false) | cbn; by rewrite ?Hen, ?Ho ..].
  - unfold accounted in *. by rewrite <- (held_relay c br b') in Ha.
  - cbn. by rewrite Hs1, Ho.
Qed.

Record hs_history (h : list reff) (c : redsocks_client) (p : pstate) (msgs got : bytes) (bc br : bufferevent) : Prop := {
  hh_ex : exchange p msgs got;
  hh_client : pre_client cfd c bc;
  hh_relay : handshaking rfd p c br;
  hh_quiet : F_relaying ∉ h;
  hh_shut : shut_told h c;
  hh_fds : accounted cfd rfd h (held_fds cf c);
  hh_sent : sent Relay h ++ output br = msgs;
  hh_sent' : sent Client h = [];
  hh_recv : recv Relay h = got ++ input br;
  hh_recv' : recv Client h = input bc;
}.

Lemma hs_cinv h c p msgs got bc br : hs_history h c p msgs got bc br → cinv cfd rfd h c.
Proof. intros [? ? ? ? ? ? ? ? ? ?]. by eapply cinv_handshake. Qed.
Lemma hs_good h c p msgs got bc br : hs_history h c p msgs got bc br → good cfd rfd h (Some c).
Proof. intros Hh. apply good_unshut; [by eapply hs_cinv | apply (pc_shut _ _ _ (hh_client _ _ _ _ _ _ _ Hh))]. Qed.

(** The proxy's side changes, the client's does not. *)
Lemma hs_step h es c p msgs got bc br br' e : hs_history h c p msgs got bc br →
  handshaking rfd p (c <| relay := Some br' |> <| relay_evshut := e |>) br' →
  (∀ s, F_shutdown s SHUT_WR ∉ es) → (F_relaying ∉ es) → closed es = [] → opened es = [] →
  sent Relay es ++ output br' = output br → sent Client es = [] → recv Client es = [] → input br' = input br ++ recv Relay es →
  good cfd rfd (h ++ es) (Some (c <| relay := Some br' |> <| relay_evshut := e |>)).
Proof.
  intros Hh Hha Hns Hnr Hcl Hop Hse Hse' Hre Hin. destruct Hh as [Hex Hpc Hha0 Hq Hst Ha Hs Hs' Hr Hr'].
  apply good_unshut; [| apply (pc_shut _ _ _ Hpc)]. eapply (cinv_handshake _ _ _ _ p msgs got bc br'); [done | constructor; apply Hpc | done | set_solver | | | | | |].
  - eapply shut_told_app; [exact Hst | done |]. intros []; [done |]. cbn. rewrite (ha_shut _ _ _ _ Hha0). apply (ha_shut _ _ _ _ Hha).
  - eapply accounted_app; [exact Ha | done | done |]. rewrite <- (held_relay c br br'); [done | apply Hha0 |]. rewrite (ha_fd _ _ _ _ Hha0). apply (ha_fd _ _ _ _ Hha).
  - by rewrite sent_app, <- app_assoc, Hse.
  - by rewrite sent_app, Hs', Hse'.
  - by rewrite recv_app, Hr, Hin, app_assoc.
  - by rewrite recv_app, Hre, app_nil_r.
Qed.

Lemma handshake_read h c p msgs got bc br ans o : hs_history h c p msgs got bc br → event_ok cf (E_read Relay ans o) c →
  wp (step ss cf (E_read Relay ans o)) (λ _ s' es, good cfd rfd (h ++ es) s') (Some c).
Proof.
  intros Hh (b & Hb & He & Ha & Hm & Hd). pose proof (cinv_told _ _ _ _ (hs_cinv _ _ _ _ _ _ _ Hh)) as Ht. pose proof (hh_relay _ _ _ _ _ _ _ Hh) as Hha.
  cbn [bev_of] in Hb. rewrite (ha_bev _ _ _ _ Hha) in Hb. injection Hb as <-. pose proof (ha_settled _ _ _ _ Hha) as Hse.
  destruct (ha_wm _ _ _ _ Hha) as (Hl & Hhi & Hwl). destruct (proto_awaits p (exchange_state _ _ _ (hh_ex _ _ _ _ _ _ _ Hh))) as [Hpos Haw].
  assert (ev_R (relay_evshut c) = false) as Hnr.
  { destruct (settled_fields _ Hse) as (_ & _ & E). rewrite He in E. symmetry in E. apply andb_prop in E as [E _]. rewrite (ha_en_r _ _ _ _ Hha) in E. by apply negb_true_iff. }
  assert (c <| relay := Some br |> = c) as Hsame by (pose proof (ha_bev _ _ _ _ Hha) as E; destruct c; cbn in *; by rewrite E).
  cbn [step]. apply wp_bind, (wp_the_bev _ br); [apply Hha |]. rewrite readcb_settle by done. destruct ans as [d | | | |]; cbn [app].
  - apply wp_bind, wp_emit, wp_bind, wp_store. cbn [with_bev app]. set (b1 := settle (br <| input := input br ++ d |>)).
    pose proof (readcb_fits d br Hse He Ha ltac:(lia)) as Hfit. rewrite Hl.
    assert (told (h ++ [F_recv Relay d])) as Ht1.
    { left. destruct Hh as [Hex Hpc _ Hq Hst _ Hs Hs' Hr Hr']. split_and!; [set_solver | by rewrite sent_app, Hs' | | right; exists p, msgs, got; split_and!; [done | |]].
      - intros s [Hin | Hin]%elem_of_app; [| set_solver]. apply Hst in Hin. destruct s; cbn in Hin; [by rewrite (pc_shut _ _ _ Hpc) in Hin | by rewrite (ha_shut _ _ _ _ Hha) in Hin].
      - rewrite sent_app. cbn. rewrite app_nil_r, <- Hs. by eexists.
      - rewrite recv_app, Hr, <- app_assoc. by eexists. }
    destruct (awaits p <=? zlen (input br ++ d)) eqn:Ecmp; b2p; cbn [run_cb].
    + apply wp_bind. eapply wp_the_bev; [done |]. assert (readcb b1 = CB_subsys) as -> by apply Hha. cbn [run_readcb app].
      set (c1 := c <| relay := Some b1 |>). assert (pstate_of c1 = p) as Hps by apply (ha_state _ _ _ _ Hha).
      assert (zlen (input b1) = awaits p) as Hlen by (cbn; lia). assert (wf_bytes (input b1)) as Hwf by (apply Forall_app; split; [apply Hha | done]).
      eapply wp_eq; [apply (proto_reads c1 o b1); [done | rewrite Hps; eapply exchange_state, Hh | done | by rewrite Hps | done] |].
      rewrite invoke_input_settle, Hps by apply settle_settled. set (b2 := settle (b1 <| input := [] |>)).
      assert (ready_history (h ++ [F_recv Relay d]) (c1 <| relay := Some b2 |>) bc b2 msgs (got ++ input b1)) as Hrh.
      { destruct Hh as [Hex Hpc _ Hq Hst Hac Hs Hs' Hr Hr']. constructor; try done.
        - constructor; apply Hpc.
        - constructor; try apply Hha; try done. cbn. apply evset_none; [done | apply Hha].
        - eapply shut_told_app; [exact Hst | set_solver | by intros []].
        - eapply accounted_app; [exact Hac | done | done |]. by rewrite <- (held_relay c br b2) by (apply Hha || done).
        - set_solver.
        - rewrite sent_app. cbn. by rewrite app_nil_r.
        - by rewrite sent_app, Hs'.
        - rewrite recv_app, Hr. cbn. by rewrite app_nil_r, app_assoc.
        - rewrite recv_app, Hr'. cbn. by rewrite app_nil_r. }
      destruct (reply_to p (input b1)) as [| msg p' |] eqn:Er.
      * cbn [run_action]. apply wp_drop, good_snoc, good_drop; [done | apply Hrh].
      * destruct (proto_next p _ _ _ (exchange_state _ _ _ (hh_ex _ _ _ _ _ _ _ Hh)) Hwf Hlen Er) as [Hp' Hpw].
        eapply wp_mono; [eapply (send_ok _ _ _ _ _ _ msg p' o Hrh) | intros ? ? es Hg; by apply good_snoc].
        -- eapply exchange_next; [apply Hh | done | done | done].
        -- rewrite Hpw, <- Hps. done.
        -- intros Hmsg. destruct (ev_W (enabled b2)) eqn:Ew; [done |]. destruct (ha_quiet _ _ _ _ Hha Ew) as [_ Hq]. by destruct Hmsg; eapply proto_quiet.
      * eapply wp_mono; [eapply (relay_ok _ _ _ _ _ _ o Hrh) | intros ? ? es Hg; by apply good_snoc].
        exists p, got, (input b1). split_and!; [apply Hh | done | done | done | done].
    + apply wp_ret. cbn [app]. replace (c <| relay := Some b1 |>) with (c <| relay := Some b1 |> <| relay_evshut := relay_evshut c |>) by (by destruct c).
      eapply hs_step; [exact Hh | | set_solver | set_solver | done | done | done | done | done | cbn; by rewrite app_nil_r].
      constructor; try apply Hha; try done. apply Forall_app. split; [apply Hha | done].
  - apply wp_bind, wp_ret, wp_bind, wp_store. cbn [run_cb with_bev redsocks_event_error app]. apply wp_bind, wp_touch, wp_bind.
    set (b1 := bufferevent_disable EV_READ br). apply (wp_shutdown _ _ _ b1); [done | |].
    { intros Hb. apply andb_prop in Hb as [_ Hb]. apply bool_decide_eq_true in Hb. cbn in Hb. pose proof (pc_shut _ _ _ (hh_client _ _ _ _ _ _ _ Hh)) as E. by rewrite Hb in E. }
    intros _. apply wp_bind, wp_deref. match goal with |- wp (match bev_of _ ?c1 with _ => _ end) _ _ => assert (bev_of (other Relay) c1 = Some bc) as -> by apply Hh;
      assert ((state c1 =? pump_active) = false) as -> end.
    { apply Z.eqb_neq. pose proof (ha_state _ _ _ _ Hha) as E. unfold pstate_of in E. subst p. cbn in *. unfold pump_active. lia. }
    apply wp_ret. assert (shut_call Relay SHUT_RD (c <| relay := Some b1 |>) = [F_shutdown Relay SHUT_RD]) as -> by (unfold shut_call; cbn; by rewrite (ha_shut _ _ _ _ Hha)).
    cbn [app]. change (good cfd rfd (h ++ [F_shutdown Relay SHUT_RD]) (Some (c <| relay := Some (bufferevent_disable EV_READ b1) |> <| relay_evshut := ev_or (relay_evshut c) EV_READ |>))).
    unfold b1. rewrite (disable_settle _ br), disable_settle by (done || apply settle_settled).
    eapply hs_step; [exact Hh | | set_solver | set_solver | done | done | done | done | done | cbn; by rewrite app_nil_r].
    constructor; try apply Hha; try done; cbn; rewrite ?(ha_shut _ _ _ _ Hha); try done.
    + destruct (enabled br) as [er ew]. cbn. by rewrite !andb_false_r, orb_true_r.
    + destruct (enabled br) as [er ew] eqn:Een. cbn. rewrite !andb_true_r. intros E. apply Hha. by rewrite Een.
    + destruct (enabled br) as [er ew] eqn:Een. cbn. rewrite !andb_true_r. intros E. apply Hha in E. by rewrite Een in E.
  - apply wp_bind, wp_ret, wp_bind, wp_store, wp_ret. cbn [app with_bev]. rewrite Hsame, app_nil_r. by eapply hs_good.
  - apply wp_bind, wp_ret, wp_bind, wp_store, wp_ret. cbn [app with_bev]. rewrite Hsame, app_nil_r. by eapply hs_good.
  - apply wp_bind, wp_ret, wp_bind, wp_store. cbn [run_cb with_bev redsocks_event_error app]. apply wp_bind, wp_touch, wp_drop. cbn [app].
    apply good_drop; [done |]. rewrite (held_relay _ br); [apply Hh | apply Hha |]. by rewrite disable_settle.
Qed.

Lemma handshake_write h c p msgs got bc br ans conn o : hs_history h c p msgs got bc br → event_ok cf (E_write Relay ans conn o) c →
  wp (step ss cf (E_write Relay ans conn o)) (λ _ s' es, good cfd rfd (h ++ es) s') (Some c).
Proof.
  intros Hh (b & Hb & He & Ha & Hm). pose proof (cinv_told _ _ _ _ (hs_cinv _ _ _ _ _ _ _ Hh)) as Ht. pose proof (hh_relay _ _ _ _ _ _ _ Hh) as Hha.
  cbn [bev_of] in Hb. rewrite (ha_bev _ _ _ _ Hha) in Hb. injection Hb as <-. pose proof (ha_settled _ _ _ _ Hha) as Hse.
  destruct (ha_wm _ _ _ _ Hha) as (Hl & Hhi & Hwl).
  (* what the write callback of the protocol does once the output is empty *)
  assert (∀ es b1, b1 = br <| output := [] |> <| ev_write := false |> → (∀ s, F_shutdown s SHUT_WR ∉ es) → (F_relaying ∉ es) → closed es = [] → opened es = [] →
    sent Relay es = output br → sent Client es = [] → recv Client es = [] → recv Relay es = [] →
    wp (run_cb ss cf Relay Cb_write conn o) (λ _ s' es', good cfd rfd (h ++ es ++ es') s') (Some (c <| relay := Some b1 |>))) as Hcb.
  { intros es b1 Hb1 H1 H2 H3 H4 H5 H6 H7 H8. cbn [run_cb]. apply wp_bind. eapply wp_the_bev; [done |]. assert (writecb b1 = CB_subsys) as -> by (subst b1; apply Hha). cbn [run_writecb].
    eapply wp_eq; [apply (proto_writes _ o b1); [done |]; change (proto_state (pstate_of c)); rewrite (ha_state _ _ _ _ Hha); eapply exchange_state, Hh |].
    destruct quiet eqn:Eq.
    - apply (wp_on_bev _ _ b1); [done |]. cbn [with_bev app]. rewrite app_nil_r. rewrite disable_settle by (subst b1; by apply settled_output).
      match goal with |- good _ _ _ (Some (set relay (λ _, Some ?b2) _)) => change (good cfd rfd (h ++ es) (Some (c <| relay := Some b2 |> <| relay_evshut := relay_evshut c |>))) end.
      subst b1. eapply hs_step; [exact Hh | | done | done | done | done | cbn; by rewrite app_nil_r | done | done | cbn; by rewrite H8, app_nil_r].
      constructor; try apply Hha; try done. cbn. rewrite <- (ha_en_r _ _ _ _ Hha). destruct (enabled br) as [er ew]. cbn. by rewrite !andb_true_r.
    - apply wp_ret. cbn [app]. rewrite app_nil_r.
      change (good cfd rfd (h ++ es) (Some (c <| relay := Some b1 |> <| relay_evshut := relay_evshut c |>))).
      subst b1. eapply hs_step; [exact Hh | | done | done | done | done | cbn; by rewrite app_nil_r | done | done | cbn; by rewrite H8, app_nil_r].
      constructor; try apply Hha; try done; [by apply settled_output |]. intros E. by destruct (ha_quiet _ _ _ _ Hha E). }
  cbn [step]. apply wp_bind, (wp_the_bev _ br); [apply Hha |]. destruct (decide (output br = [])) as [Ho | Ho].
  { rewrite writecb_empty by done. apply wp_bind, wp_ret, wp_bind, wp_store. cbn [app with_bev]. eapply wp_mono; [apply (Hcb []); try done; try (intros; apply not_elem_of_nil) |].
    - destruct br; cbn in *; by rewrite Ho.
    - by intros. }
  destruct ans as [n | | |].
  - specialize (Ha Ho). cbn in Ha. rewrite writecb_sent by (done || lia).
    assert ((zlen (ztake n (output br)) =? 0) = false) as -> by (apply Z.eqb_neq; rewrite zlen_ztake; lia). cbn [negb when]. apply wp_bind, wp_emit, wp_bind, wp_store.
    cbn [with_bev]. destruct (bool_decide_reflect (zdrop n (output br) = [])) as [Hz | Hz].
    + eapply wp_mono; [apply (Hcb [F_sent Relay (ztake n (output br))]); try done; try (intros; by rewrite list_elem_of_singleton) | by intros].
      cbn. rewrite app_nil_r. rewrite <- (ztake_zdrop n (output br)) at 2. by rewrite Hz, app_nil_r.
    + cbn [run_cb]. apply wp_ret. cbn [app].
      change (good cfd rfd (h ++ [F_sent Relay (ztake n (output br))]) (Some (c <| relay := Some (br <| output := zdrop n (output br) |>) |> <| relay_evshut := relay_evshut c |>))).
      eapply hs_step; [exact Hh | | set_solver | set_solver | done | done | cbn; rewrite app_nil_r; apply ztake_zdrop | done | done | cbn; by rewrite app_nil_r].
      constructor; try apply Hha; try done; [by apply (settled_output _ _ (ev_write br)) | by intros [? _]%(ha_quiet _ _ _ _ Hha)].
  - rewrite writecb_unsent by done. apply wp_bind, wp_ret, wp_bind, wp_store. apply wp_bind, wp_touch, wp_drop. cbn [app with_bev].
    apply good_drop; [done |]. rewrite (held_relay _ br); [apply Hh | apply Hha |]. by rewrite disable_settle.
  - rewrite writecb_unsent by done. apply wp_bind, wp_ret, wp_bind, wp_store, wp_ret. cbn [app with_bev]. rewrite app_nil_r.
    replace (c <| relay := Some br |>) with c; [by eapply hs_good |]. pose proof (ha_bev _ _ _ _ Hha) as E. destruct c; cbn in *. by rewrite E.
  - rewrite writecb_unsent by done. apply wp_bind, wp_ret, wp_bind, wp_store. apply wp_bind, wp_touch, wp_drop. cbn [app with_bev].
    apply good_drop; [done |]. rewrite (held_relay _ br); [apply Hh | apply Hha |]. by rewrite disable_settle.
Qed.


(** ** All events before relaying *)

Lemma exchange_step h c e : cinv cfd rfd h c → state c ≠ pump_active → event_ok cf e c → wp (step ss cf e) (λ _ s' es, good cfd rfd (h ++ es) s') (Some c).
Proof.
  intros Hinv Hst Hok. pose proof Hinv as Hinv0.
  destruct Hinv as [bc br Hpc Hco Hnr Hsh Ha Hs1 Hs2 Hr1 Hr2 | p msgs got bc br He Hpc Hha Hnr Hsh Ha Hs1 Hs2 Hr1 Hr2 | ? ? ? ? _ _ Hbp | ? ? _ _ Hbp];
    [| | by destruct Hst; apply Hbp | by destruct Hst; apply Hbp].
  - destruct e as [[] ans o | [] ans conn o | s ans | s a0 a1 a2].
    + eapply wp_mono; [eapply client_event; [done | apply Hco | by rewrite (co_shut _ _ _ Hco) | done | done] |]. intros [] s' es Hm. by eapply client_moved_good.
    + destruct Hok as (b & Hb & He & _). cbn in Hb. rewrite (co_bev _ _ _ Hco) in Hb. injection Hb as <-.
      destruct (settled_fields _ (co_settled _ _ _ Hco)) as (_ & _ & E). rewrite (co_en _ _ _ Hco), He in E. done.
    + destruct Hok as (b & Hb & He & _). cbn in Hb. rewrite (pc_bev _ _ _ Hpc) in Hb. injection Hb as <-. by rewrite (pc_evw _ _ _ Hpc) in He.
    + destruct Hok as (b & Hb & He & _ & Hm). by eapply connecting_write.
    + destruct Hok as (_ & Hi & _), (pc_events _ _ _ Hpc) as (E1 & E2 & E3 & E4). destruct s; cbn in Hi; [by rewrite E1 in Hi | by rewrite E3 in Hi].
    + destruct Hok as (_ & Hi & _), (pc_events _ _ _ Hpc) as (E1 & E2 & E3 & E4). destruct s; cbn in Hi; [by rewrite E2 in Hi | by rewrite E4 in Hi].
  - assert (hs_history h c p msgs got bc br) as Hh by done. destruct e as [[] ans o | [] ans conn o | s ans | s a0 a1 a2].
    + eapply wp_mono; [eapply client_event; [done | apply Hha | apply Hha | done | done] |]. intros [] s' es Hm. by eapply client_moved_good.
    + by eapply handshake_read.
    + destruct Hok as (b & Hb & He' & _). cbn in Hb. rewrite (pc_bev _ _ _ Hpc) in Hb. injection Hb as <-. by rewrite (pc_evw _ _ _ Hpc) in He'.
    + by eapply handshake_write.
    + destruct Hok as (_ & Hi & _), (pc_events _ _ _ Hpc) as (E1 & E2 & E3 & E4). destruct s; cbn in Hi; [by rewrite E1 in Hi | by rewrite E3 in Hi].
    + destruct Hok as (_ & Hi & _), (pc_events _ _ _ Hpc) as (E1 & E2 & E3 & E4). destruct s; cbn in Hi; [by rewrite E2 in Hi | by rewrite E4 in Hi].
Qed.

(** The start. *)
Lemma accepted_good : good cfd rfd [] (Some (accepted_client ss cf cfd rfd)).
Proof.
  unfold accepted_client. rewrite proto_init by done. rewrite !enable_settle by done.
  apply good_unshut; [| done]. eapply cinv_connecting; [constructor; done | constructor; done | set_solver | | | done | done | done | done].
  - intros s. split; [set_solver |]. by destruct s.
  - unfold accounted, held_fds, bev_fds. cbn. rewrite !(proj2 (Z.eqb_neq _ (-1))) by apply fds_valid. by destruct (use_splice cf).
Qed.

End exchange.
