(* ===== verification/RedsocksBuffers.v ===== *)
(** * Relaying through the buffers

    The events of a client that is relayed through the buffers of libevent keep the
    invariant: no byte is lost or reordered on the way, and an end of stream is passed on. *)
From S2P Require Import Prelude Bufferevent Redsocks RelayProto RedsocksLaws RedsocksExchange.

Section buffers.
Context `{RP : RelayProto ss cf} (cfd rfd : Z).

Definition fd_of (s : side) : Z := match s with Client => cfd | Relay => rfd end.

Record bp_history (h : list reff) (c : redsocks_client) (msgs got : bytes) (X : side) (bX bY : bufferevent) : Prop := {
  bh_mode : use_splice cf = false;
  bh_ex : exchanged msgs got;
  bh_X : bev_of X c = Some bX;
  bh_Y : bev_of (other X) c = Some bY;
  bh_bX : buf_bev (fd_of X) bX;
  bh_bY : buf_bev (fd_of (other X)) bY;
  bh_pX : pumped c X bX bY;
  bh_pY : pumped c (other X) bY bX;
  bh_state : state c = pump_active;
  bh_pipes : request c = splice_pipe0 ∧ reply c = splice_pipe0;
  bh_shut : shut_told h c;
  bh_fds : accounted cfd rfd h (held_fds cf c);
  bh_flows : flows msgs got h c;
}.

Lemma bp_of_cinv h c X : cinv cfd rfd h c → use_splice cf = false → state c = pump_active →
  ∃ msgs got bX bY, bp_history h c msgs got X bX bY.
Proof.
  intros [bc br Hpc Hco | p msgs got bc br He Hpc Hha | msgs got bc br Hu He Hb Hst Ha Hf | msgs got Hu] Hm Hs.
  - destruct (co_state _ _ _ Hco) as [E _]. by rewrite E in Hs.
  - destruct (proto_awaits p (exchange_state _ _ _ He)) as [Hp _]. pose proof (ha_state _ _ _ _ Hha) as E. subst p. cbn in Hp. by rewrite Hs in Hp.
  - exists msgs, got. destruct Hb. destruct X; [exists bc, br | exists br, bc]; by constructor.
  - by rewrite Hu in Hm.
Qed.

Lemma bp_cinv h c msgs got X bX bY : bp_history h c msgs got X bX bY → cinv cfd rfd h c.
Proof.
  intros [Hm He HX HY HbX HbY HpX HpY Hs Hp Hst Ha Hf]. destruct X; (eapply cinv_buffers; [done | done | | done | done | done]);
    [exact (Build_bufpump _ _ c bX bY HX HY HbX HbY HpX HpY Hs Hp) | exact (Build_bufpump _ _ c bY bX HY HX HbY HbX HpY HpX Hs Hp)].
Qed.

Lemma other_other s : other (other s) = s.
Proof. by destruct s. Qed.

(** A client whose buffers changed as one direction of the flow allows. *)
Definition upd (X : side) (bX bY : bufferevent) (eX eY : evset) (c : redsocks_client) : redsocks_client :=
  with_evshut X eX (with_evshut (other X) eY (with_bev X (Some bX) (with_bev (other X) (Some bY) c))).

Lemma upd_X X bX bY eX eY c : bev_of X (upd X bX bY eX eY c) = Some bX.
Proof. by destruct X. Qed.
Lemma upd_Y X bX bY eX eY c : bev_of (other X) (upd X bX bY eX eY c) = Some bY.
Proof. by destruct X. Qed.
Lemma upd_eX X bX bY eX eY c : evshut X (upd X bX bY eX eY c) = eX.
Proof. by destruct X. Qed.
Lemma upd_eY X bX bY eX eY c : evshut (other X) (upd X bX bY eX eY c) = eY.
Proof. by destruct X. Qed.

Lemma upd_shut_both X bX bY c : shut_both (upd X bX bY (evshut X c) (evshut (other X) c) c) = shut_both c.
Proof. by destruct X, c. Qed.

Lemma bp_update h es c msgs got X bX bY bX' bY' eX eY : bp_history h c msgs got X bX bY →
  buf_bev (fd_of X) bX' → buf_bev (fd_of (other X)) bY' →
  pumped (upd X bX' bY' eX eY c) X bX' bY' → pumped (upd X bX' bY' eX eY c) (other X) bY' bX' →
  shut_told (h ++ es) (upd X bX' bY' eX eY c) → closed es = [] → opened es = [] →
  sent (other X) es ++ output bY' ++ input bX' = output bY ++ input bX ++ recv X es →
  sent X es ++ output bX' ++ input bY' = output bX ++ input bY ++ recv (other X) es →
  bp_history (h ++ es) (upd X bX' bY' eX eY c) msgs got X bX' bY'.
Proof.
  intros [Hm He HX HY HbX HbY HpX HpY Hs Hp Hst Ha Hf] HbX' HbY' HpX' HpY' Hst' Hcl Hop HfX HfY. constructor; try done.
  - by destruct X.
  - by destruct X.
  - by destruct X.
  - by destruct X.
  - eapply accounted_app; [exact Ha | done | done |]. unfold held_fds, bev_fds. rewrite Hm.
    destruct X; cbn in *; rewrite HX, HY, (bb_fd _ _ HbX), (bb_fd _ _ HbX'), (bb_fd _ _ HbY), (bb_fd _ _ HbY'); done.
  - assert (∀ s, pipe_data (pipe_from s c) = [] ∧ pipe_data (pipe_from s (upd X bX' bY' eX eY c)) = []) as Hpd.
    { destruct Hp as [E1 E2]. destruct X; intros []; cbn; rewrite ?E1, ?E2; done. }
    intros s. specialize (Hf s). rewrite sent_app, recv_app, (app_assoc (start msgs s)), <- Hf, <- !app_assoc. f_equal. f_equal. unfold undelivered, outb, inb in *.
    destruct (Hpd s) as [E1 E2]. rewrite E1, E2, !app_nil_r.
    destruct (decide (s = X)) as [-> | Hne].
    + rewrite upd_X, upd_Y, HX, HY. rewrite <- app_assoc. exact HfX.
    + assert (s = other X) as -> by (destruct s, X; done). rewrite other_other, upd_X, upd_Y, HX, HY. rewrite <- app_assoc. exact HfY.
Qed.

(** A direction that did not change. *)
Lemma pumped_ext c c' X bX bY bX' bY' : pumped c X bX bY → ev_R (evshut X c') = ev_R (evshut X c) → ev_W (evshut (other X) c') = ev_W (evshut (other X) c) →
  input bX' = input bX → output bY' = output bY → ev_R (enabled bX') = ev_R (enabled bX) → ev_W (enabled bY') = ev_W (enabled bY) → ev_write bY' = ev_write bY →
  pumped c' X bX' bY'.
Proof. intros [H1 H2 H3 H4 H5] E1 E2 E3 E4 E5 E6 E7. constructor; rewrite ?E1, ?E2, ?E3, ?E4, ?E5, ?E6, ?E7; done. Qed.

Lemma buf_bev_settle fd b b' : buf_bev fd b → settled b' → bev_fd b' = bev_fd b → wm_read_low b' = wm_read_low b → wm_read_high b' = wm_read_high b →
  wm_write_low b' = wm_write_low b → wm_write_high b' = wm_write_high b → readcb b' = readcb b → writecb b' = writecb b → buf_bev fd b'.
Proof. intros [H1 H2 H3 H4] ? E1 E2 E3 E4 E5 E6 E7. constructor; rewrite ?E1, ?E2, ?E3, ?E4, ?E5, ?E6, ?E7; done. Qed.

Lemma cinv_fds h c : cinv cfd rfd h c → accounted cfd rfd h (held_fds cf c).
Proof. by intros []. Qed.

(** A shutdown after which the invariant would hold. *)
Lemma shutdown_good h c s hw b : bev_of s c = Some b → cinv cfd rfd (h ++ shut_call s hw c) (shut_client s hw b c) →
  wp (redsocks_shutdown cf s hw) (λ _ s' es, good cfd rfd (h ++ es) s') (Some c).
Proof.
  intros Hb Hi. eapply wp_shutdown; [done | |]; intros Hb2; [| by split]. rewrite app_assoc. apply good_drop; [by eapply cinv_told | by apply cinv_fds].
Qed.

(** Effects that belong to the direction from [X]. *)
Definition one_way (X : side) (es : list reff) : Prop :=
  sent X es = [] ∧ recv (other X) es = [] ∧ closed es = [] ∧ opened es = [] ∧ (∀ s, F_shutdown s SHUT_WR ∉ es).

Lemma one_way_nil X : one_way X [].
Proof. split_and!; try done. intros s. apply not_elem_of_nil. Qed.
Lemma one_way_single X e : sent_of X e = [] → recv_of (other X) e = [] → closed_of e = [] → opened_of e = [] → (∀ s, F_shutdown s SHUT_WR ≠ e) → one_way X [e].
Proof. intros H1 H2 H3 H4 H5. split_and!; cbn; rewrite ?app_nil_r; try done. intros s. by rewrite list_elem_of_singleton. Qed.
Lemma one_way_shut_rd X : one_way X [F_shutdown X SHUT_RD].
Proof. by apply one_way_single. Qed.
Lemma one_way_recv X d : one_way X [F_recv X d].
Proof. by apply one_way_single; destruct X. Qed.
Lemma one_way_sent X d : one_way X [F_sent (other X) d].
Proof. by apply one_way_single; destruct X. Qed.

(** Buffers that changed in the direction from [X] only. *)
Record one_way_bevs (X : side) (bX bY bX' bY' : bufferevent) : Prop := {
  ow_bX : buf_bev (fd_of X) bX';
  ow_bY : buf_bev (fd_of (other X)) bY';
  ow_out : output bX' = output bX;
  ow_evw : ev_write bX' = ev_write bX;
  ow_en_w : ev_W (enabled bX') = ev_W (enabled bX);
  ow_in : input bY' = input bY;
  ow_en_r : ev_R (enabled bY') = ev_R (enabled bY);
}.

(** A step in the direction from [X]. *)
Lemma one_way_ok h es c msgs got X bX bY bX' bY' eX : bp_history h c msgs got X bX bY → one_way X es → one_way_bevs X bX bY bX' bY' →
  ev_W eX = ev_W (evshut X c) → sent (other X) es ++ output bY' ++ input bX' = output bY ++ input bX ++ recv X es →
  pumped (upd X bX' bY' eX (evshut (other X) c) c) X bX' bY' →
  bp_history (h ++ es) (upd X bX' bY' eX (evshut (other X) c) c) msgs got X bX' bY'.
Proof.
  intros Hh (H1 & H2 & H3 & H4 & H5) [HbX HbY Ho He Hw Hi Hr] HeX Hf HpX.
  eapply (bp_update _ _ _ _ _ X bX bY); [exact Hh | done | done | done | | | done | done | done |].
  - eapply pumped_ext; [apply (bh_pY _ _ _ _ _ _ _ Hh) | ..]; rewrite ?other_other, ?upd_eX, ?upd_eY; done.
  - eapply shut_told_app; [apply Hh | done |]. intros s. destruct (decide (s = X)) as [-> | Hne]; [by rewrite upd_eX |].
    assert (s = other X) as -> by (destruct s, X; done). by rewrite upd_eY.
  - by rewrite H1, H2, Ho, Hi, app_nil_r.
Qed.

Lemma one_way_good h es c msgs got X bX bY bX' bY' : bp_history h c msgs got X bX bY → shut_both c = false → one_way X es → one_way_bevs X bX bY bX' bY' →
  sent (other X) es ++ output bY' ++ input bX' = output bY ++ input bX ++ recv X es →
  pumped (upd X bX' bY' (evshut X c) (evshut (other X) c) c) X bX' bY' →
  good cfd rfd (h ++ es) (Some (upd X bX' bY' (evshut X c) (evshut (other X) c) c)).
Proof. intros. split; [by eapply bp_cinv, one_way_ok | by rewrite upd_shut_both]. Qed.

(** Shutting down writing towards [other X] when [X] has ended and the output is empty. *)
Lemma shut_wr_ok h es c msgs got X bX bY bX' bY' eX : bp_history h c msgs got X bX bY → one_way X es → one_way_bevs X bX bY bX' bY' →
  ev_W eX = ev_W (evshut X c) → sent (other X) es ++ output bY' ++ input bX' = output bY ++ input bX ++ recv X es →
  ev_R eX = true → ev_R (enabled bX') = false → output bY' = [] → (X = Relay → input bX' = []) →
  wp (redsocks_shutdown cf (other X) SHUT_WR) (λ _ s' es', good cfd rfd ((h ++ es) ++ es') s') (Some (upd X bX' bY' eX (evshut (other X) c) c)).
Proof.
  intros Hh (H1 & H2 & H3 & H4 & H5) [HbX HbY Ho He Hw Hi Hr] HeX Hf Hrd Hen Hout Hin.
  apply (shutdown_good _ _ _ _ bY'); [apply upd_Y |].
  set (c1 := upd X bX' bY' eX (evshut (other X) c) c). assert (shut_call (other X) SHUT_WR c1 = [F_shutdown (other X) SHUT_WR]) as -> by done.
  replace (shut_client (other X) SHUT_WR bY' c1) with (upd X bX' (bufferevent_disable EV_WRITE bY') eX (ev_or (evshut (other X) c) EV_WRITE) c) by (by destruct X).
  rewrite disable_settle by apply (bb_settled _ _ HbY). rewrite <- app_assoc.
  eapply bp_cinv, (bp_update _ _ _ _ _ X bX bY); [exact Hh | done | | | | | | | |].
  - eapply buf_bev_settle; [exact HbY | apply settle_settled | done..].
  - constructor; rewrite ?upd_eX, ?upd_eY; cbn; rewrite ?orb_true_r, ?andb_false_r; try done; [by rewrite Hen | by rewrite Hrd].
  - eapply pumped_ext; [apply (bh_pY _ _ _ _ _ _ _ Hh) | ..]; rewrite ?other_other, ?upd_eX, ?upd_eY; cbn; rewrite ?orb_false_r, ?andb_true_r; done.
  - intros s. rewrite !elem_of_app, list_elem_of_singleton. destruct (decide (s = X)) as [-> | Hne].
    + rewrite upd_eX, HeX, <- (bh_shut _ _ _ _ _ _ _ Hh X). split; [intros [? | [? | [= E]]]; [done | by destruct (H5 X) | by destruct X] | by left].
    + assert (s = other X) as -> by (destruct s, X; done). rewrite upd_eY. cbn. rewrite orb_true_r. split; [done | by right; right].
  - by rewrite closed_app, H3.
  - by rewrite opened_app, H4.
  - rewrite sent_app, recv_app. cbn. by rewrite !app_nil_r.
  - rewrite sent_app, recv_app, H1, H2. cbn. by rewrite Ho, Hi, app_nil_r.
Qed.

Lemma eof_ok h c msgs got X bX bY : bp_history h c msgs got X bX bY → ev_read bX = true →
  wp (redsocks_event_error cf X Cb_eof) (λ _ s' es, good cfd rfd (h ++ es) s') (Some (with_bev X (Some (bufferevent_disable EV_READ bX)) c)).
Proof.
  intros Hh He. pose proof (bb_settled _ _ (bh_bX _ _ _ _ _ _ _ Hh)) as Hse. pose proof (bh_pX _ _ _ _ _ _ _ Hh) as HpX.
  destruct (settled_fields _ Hse) as (_ & _ & Een). rewrite He in Een. symmetry in Een. apply andb_prop in Een as [Een _].
  destruct (pd_en_r _ _ _ _ HpX Een) as [Hr Hi].
  assert (ev_W (evshut (other X) c) = false) as Hw by (destruct (ev_W (evshut (other X) c)) eqn:E; [| done]; destruct (pd_shut _ _ _ _ HpX E) as [E' _]; by rewrite Hr in E').
  set (b1 := bufferevent_disable EV_READ bX). set (b2 := bufferevent_disable EV_READ b1).
  assert (b2 = settle (bX <| enabled := Ev false (ev_W (enabled bX)) |>)) as Eb2.
  { unfold b2, b1. rewrite (disable_settle _ bX), disable_settle by (done || apply settle_settled). destruct bX as [? ? ? [[] []]]; done. }
  set (c1 := upd X b2 bY (ev_or (evshut X c) EV_READ) (evshut (other X) c) c). set (es := if ev_W (evshut X c) then [] else [F_shutdown X SHUT_RD]).
  assert (shut_client X SHUT_RD b1 (with_bev X (Some b1) c) = c1 ∧ shut_call X SHUT_RD (with_bev X (Some b1) c) = es) as [Ec Ecall].
  { unfold shut_call, es. pose proof (bh_Y _ _ _ _ _ _ _ Hh) as E. destruct X, c; cbn in *; rewrite E; done. }
  assert (one_way X es) as Hes by (unfold es; destruct (ev_W (evshut X c)); [apply one_way_nil | apply one_way_shut_rd]).
  assert (one_way_bevs X bX bY b2 bY) as How.
  { constructor; rewrite ?Eb2; try done; [| apply Hh]. eapply buf_bev_settle; [apply (bh_bX _ _ _ _ _ _ _ Hh) | apply settle_settled | done..]. }
  assert (sent (other X) es ++ output bY ++ input b2 = output bY ++ input bX ++ recv X es) as Hf.
  { rewrite Eb2. unfold es. destruct (ev_W (evshut X c)); cbn; by rewrite app_nil_r. }
  cbn [redsocks_event_error]. apply wp_bind, wp_touch, wp_bind. apply (wp_shutdown _ _ _ b1); [by destruct X | |]; rewrite Ec, Ecall; intros Hb.
  - exfalso. unfold shut_both in Hb. apply andb_prop in Hb as [B1 B2]. apply bool_decide_eq_true in B1, B2. unfold c1 in *. destruct X; cbn in *; [rewrite B1 in Hw | rewrite B2 in Hw]; done.
  - apply wp_bind, wp_deref. unfold c1 at 1. rewrite upd_Y. assert ((state c1 =? pump_active) = true) as -> by (apply Z.eqb_eq; destruct X; apply Hh). cbn [andb].
    destruct (Z.eqb_spec (zlen (output bY)) 0) as [Eo | Eo]; cbn [when].
    + apply zlen_0_nil in Eo. eapply wp_mono; [eapply (shut_wr_ok h es); [exact Hh | done | exact How | by cbn; rewrite orb_false_r | exact Hf | by cbn; rewrite orb_true_r | by rewrite Eb2 | done |] |].
      * intros HX. rewrite Eb2. by apply Hi.
      * intros [] s' es' Hg. cbn [app]. by rewrite app_assoc.
    + apply wp_ret. cbn [app]. rewrite app_nil_r. split; [| done]. eapply bp_cinv, one_way_ok; [exact Hh | done | exact How | by cbn; rewrite orb_false_r | exact Hf |].
      constructor; rewrite ?upd_eX, ?upd_eY, ?Eb2; cbn; rewrite ?orb_true_r, ?Hw; try done; [by rewrite (pd_en_w _ _ _ _ HpX), Hw |]. intros _ _. apply (pd_evw _ _ _ _ HpX); [left | done]. intros E. by rewrite E in Eo.
Qed.

(** Data from [X]. *)
Lemma relay_readcb_ok h c msgs got X bX bY d : bp_history h c msgs got X bX bY → shut_both c = false → ev_read bX = true → d ≠ [] →
  wp (redsocks_relay_readcb X (other X)) (λ _ s' es, good cfd rfd ((h ++ [F_recv X d]) ++ es) s')
    (Some (with_bev X (Some (settle (bX <| input := input bX ++ d |>))) c)).
Proof.
  intros Hh Hnb He Hd. pose proof (bb_settled _ _ (bh_bX _ _ _ _ _ _ _ Hh)) as Hse. pose proof (bh_pX _ _ _ _ _ _ _ Hh) as HpX.
  destruct (settled_fields _ Hse) as (_ & _ & Een). rewrite He in Een. symmetry in Een. apply andb_prop in Een as [Een _].
  destruct (pd_en_r _ _ _ _ HpX Een) as [Hr Hi].
  assert (ev_W (evshut (other X) c) = false) as Hw by (destruct (ev_W (evshut (other X) c)) eqn:E; [| done]; destruct (pd_shut _ _ _ _ HpX E) as [E' _]; by rewrite Hr in E').
  set (b1 := settle (bX <| input := input bX ++ d |>)). set (c0 := with_bev X (Some b1) c).
  assert (bev_of X c0 = Some b1 ∧ bev_of (other X) c0 = Some bY) as [HX HY] by (pose proof (bh_Y _ _ _ _ _ _ _ Hh) as E; destruct X; done).
  destruct (bb_wm _ _ (bh_bY _ _ _ _ _ _ _ Hh)) as (_ & _ & _ & Hhi).
  unfold redsocks_relay_readcb. apply wp_bind, (wp_the_bev _ bY); [done |]. rewrite Hhi. cbn [app].
  destruct (zlen (output bY) <? REDSOCKS_RELAY_HALFBUFF) eqn:E; b2p.
  - eapply wp_write_buffer; [done | done | apply settle_settled |]. rewrite evbuffer_add_fields, app_nil_r.
    match goal with |- good _ _ _ (Some (with_bev X (Some ?bx) (with_bev (other X) (Some ?by1) c0))) => set (bX' := bx); set (bY' := by1) end.
    assert (∀ b b', with_bev X (Some b) (with_bev (other X) (Some b') c0) = upd X b b' (evshut X c) (evshut (other X) c) c) as -> by (intros; destruct X, c; done).
    eapply one_way_good; [exact Hh | done | apply one_way_recv | | |].
    + constructor; try done; [eapply buf_bev_settle; [apply (bh_bX _ _ _ _ _ _ _ Hh) | apply settle_settled | done..] |].
      eapply buf_bev_settle; [apply (bh_bY _ _ _ _ _ _ _ Hh) | apply settled_output, (bh_bY _ _ _ _ _ _ _ Hh) | done..].
    + unfold bX', bY', b1. cbn. rewrite bool_decide_eq_true_2 by done. by destruct X; cbn; rewrite !app_nil_r.
    + constructor; rewrite ?upd_eX, ?upd_eY, ?Hw; try done; [unfold bY'; cbn; by rewrite (pd_en_w _ _ _ _ HpX), Hw | unfold bX', b1; cbn; by rewrite Een |].
      intros _ _. unfold bY', b1. cbn. rewrite (pd_en_w _ _ _ _ HpX), Hw, (proj2 (Z.eqb_neq _ 0)); [done |]. intros ?%zlen_0_nil. by apply app_nil in H as [_ ?].
  - apply wp_bind, (wp_the_bev _ b1); [done |]. assert (ev_R (enabled b1) = true) as -> by done. cbn [when app]. apply (wp_on_bev _ _ b1); [done |]. cbn [app]. rewrite app_nil_r.
    rewrite disable_settle by apply settle_settled. match goal with |- good _ _ _ (Some (with_bev X (Some ?bx) c0)) => set (bX' := bx) end.
    assert (∀ b, with_bev X (Some b) c0 = upd X b bY (evshut X c) (evshut (other X) c) c) as -> by (intros; pose proof (bh_Y _ _ _ _ _ _ _ Hh) as E'; destruct X, c; cbn in *; by rewrite E').
    assert (output bY ≠ []) as Ho by (intros E'; rewrite E' in E; unfold REDSOCKS_RELAY_HALFBUFF, zlen in E; cbn [length] in E; lia).
    eapply one_way_good; [exact Hh | done | apply one_way_recv | | |].
    + constructor; try done; [| apply Hh | by unfold bX', b1; cbn; rewrite andb_true_r]. eapply buf_bev_settle; [apply (bh_bX _ _ _ _ _ _ _ Hh) | apply settle_settled | done..].
    + unfold bX', b1. cbn. rewrite bool_decide_eq_true_2 by done. by destruct X; cbn; rewrite !app_nil_r.
    + constructor; rewrite ?upd_eX, ?upd_eY, ?Hw; try done; [by rewrite (pd_en_w _ _ _ _ HpX), Hw | unfold bX', b1; cbn; by rewrite andb_false_r |].
      intros _ _. apply (pd_evw _ _ _ _ HpX); [by left | done].
Qed.

(** The output towards [other X] is empty. *)
Lemma relay_writecb_ok h es c msgs got X bX bY : bp_history h c msgs got X bX bY → shut_both c = false → ev_write bY = true →
  one_way X es → sent (other X) es = output bY → recv X es = [] →
  wp (redsocks_relay_writecb cf X (other X)) (λ _ s' es', good cfd rfd ((h ++ es) ++ es') s')
    (Some (with_bev (other X) (Some (bY <| output := [] |> <| ev_write := false |>)) c)).
Proof.
  intros Hh Hnb He Hes Hse Hre. pose proof (bh_pX _ _ _ _ _ _ _ Hh) as HpX. pose proof (bb_settled _ _ (bh_bX _ _ _ _ _ _ _ Hh)) as HsX.
  pose proof (bb_settled _ _ (bh_bY _ _ _ _ _ _ _ Hh)) as HsY.
  assert (ev_W (evshut (other X) c) = false) as Hw by (destruct (ev_W (evshut (other X) c)) eqn:E; [| done]; destruct (pd_shut _ _ _ _ HpX E) as (_ & _ & E' & _); by rewrite He in E').
  set (b1 := bY <| output := [] |> <| ev_write := false |>). set (c0 := with_bev (other X) (Some b1) c).
  assert (bev_of X c0 = Some bX ∧ bev_of (other X) c0 = Some b1 ∧ evshut X c0 = evshut X c) as (HX & HY & HeX) by (pose proof (bh_X _ _ _ _ _ _ _ Hh) as E; destruct X; done).
  destruct (bb_wm _ _ (bh_bY _ _ _ _ _ _ _ Hh)) as (_ & _ & _ & Hhi).
  assert (buf_bev (fd_of (other X)) b1) as Hb1 by (eapply buf_bev_settle; [apply (bh_bY _ _ _ _ _ _ _ Hh) | by apply settled_output | done..]).
  unfold redsocks_relay_writecb. apply wp_bind, wp_deref, wp_bind, (wp_the_bev _ bX); [done |]. apply wp_bind, (wp_the_bev _ b1); [done |]. cbn [app]. rewrite HeX.
  destruct ((zlen (input bX) =? 0) && ev_R (evshut X c)) eqn:E; b2p.
  - assert (input bX = []) as Hi by (by apply zlen_0_nil).
    assert (c0 = upd X bX b1 (evshut X c) (evshut (other X) c) c) as -> by (unfold c0; pose proof (bh_X _ _ _ _ _ _ _ Hh) as E'; destruct X, c; cbn in *; by rewrite E').
    apply (shut_wr_ok h es c msgs got X bX bY); [done | done | constructor; try done; apply Hh | done | | done | | done | done].
    + by rewrite Hi, Hse, Hre, !app_nil_r.
    + destruct (ev_R (enabled bX)) eqn:Een; [| done]. destruct (pd_en_r _ _ _ _ HpX Een) as [E' _]. congruence.
  - assert ((zlen (output b1) <? wm_write_high b1) = true) as -> by (cbn; by rewrite Hhi). cbn [when].
    apply wp_bind. eapply wp_write_buffer; [done | done | done |]. rewrite evbuffer_add_fields.
    match goal with |- wp _ _ (Some (with_bev X (Some ?bx) (with_bev (other X) (Some ?by1) c0))) => set (bX1 := bx); set (bY' := by1) end.
    assert (∀ b b', with_bev X (Some b) (with_bev (other X) (Some b') c0) = upd X b b' (evshut X c) (evshut (other X) c) c) as Hupd by (intros; destruct X, c; done).
    rewrite Hupd. apply wp_bind, (wp_the_bev _ bX1); [apply upd_X |].
    assert (buf_bev (fd_of X) bX1) as HbX1 by (eapply buf_bev_settle; [apply (bh_bX _ _ _ _ _ _ _ Hh) | apply settle_settled | done..]).
    assert (ev_W (enabled bY) = true) as HenY by (by rewrite (pd_en_w _ _ _ _ HpX), Hw).
    assert (buf_bev (fd_of (other X)) bY') as HbY' by (eapply buf_bev_settle; [exact Hb1 | apply settled_output; by apply settled_output | done..]).
    assert (∀ bX', buf_bev (fd_of X) bX' → input bX' = [] → output bX' = output bX → ev_write bX' = ev_write bX → ev_W (enabled bX') = ev_W (enabled bX) →
      (ev_R (enabled bX') = negb (ev_R (evshut X c))) →
      good cfd rfd (h ++ es) (Some (upd X bX' bY' (evshut X c) (evshut (other X) c) c))) as Hgo.
    { intros bX' HbX' Hi' Ho' He' HeW HeR. eapply one_way_good; [exact Hh | done | done | constructor; done | |].
      - unfold bY', b1. cbn. by rewrite Hi', Hse, Hre, !app_nil_r.
      - constructor; rewrite ?upd_eX, ?upd_eY, ?Hw, ?Hi'; try done; [rewrite HeR; by intros ?%negb_true_iff | by rewrite HeR; intros -> |].
        intros Hne _. unfold bY', b1. cbn. rewrite HenY. destruct (Z.eqb_spec (zlen (input bX)) 0) as [E0 | E0]; [| done]. apply zlen_0_nil in E0. exfalso.
        unfold bY', b1 in Hne. cbn in Hne. rewrite E0 in *. cbn in E. destruct Hne as [? | [? | Hne]]; [done | done |]. by rewrite Hne in E. }
    destruct (negb (ev_R (evshut X c)) && negb (ev_R (enabled bX1))) eqn:En; b2p; cbn [when app].
    + apply (wp_on_bev _ _ bX1); [apply upd_X |]. rewrite !app_nil_r. rewrite enable_settle by apply settle_settled.
      match goal with |- good _ _ _ (Some (with_bev X (Some ?bx) _)) => set (bX' := bx) end.
      assert (∀ b, with_bev X (Some b) (upd X bX1 bY' (evshut X c) (evshut (other X) c) c) = upd X b bY' (evshut X c) (evshut (other X) c) c) as -> by (intros; by destruct X).
      apply Hgo; try done; [eapply buf_bev_settle; [exact HbX1 | apply settle_settled | done..] | |]; unfold bX', bX1; cbn.
      * by rewrite orb_false_r.
      * by rewrite orb_true_r; destruct (ev_R (evshut X c)).
    + apply wp_ret. rewrite !app_nil_r. apply Hgo; try done. unfold bX1. cbn. destruct (ev_R (enabled bX)) eqn:Een.
      * by destruct (pd_en_r _ _ _ _ HpX Een) as [-> _].
      * unfold bX1 in En. cbn in En. rewrite Een in En. by destruct (ev_R (evshut X c)).
Qed.

(** The events. *)
Lemma buffers_step h c e : cinv cfd rfd h c → shut_both c = false → use_splice cf = false → state c = pump_active → event_ok cf e c →
  wp (step ss cf e) (λ _ s' es, good cfd rfd (h ++ es) s') (Some c).
Proof.
  intros Hinv Hnb Hm Hst Hok. pose proof (cinv_told _ _ _ _ Hinv) as Ht.
  destruct e as [X ans o | Y ans conn o | s ans | s a0 a1 a2].
  - destruct (bp_of_cinv h c X Hinv Hm Hst) as (msgs & got & bX & bY & Hh). destruct Hok as (b & Hb & He & Ha & _ & Hd).
    rewrite (bh_X _ _ _ _ _ _ _ Hh) in Hb. injection Hb as <-. pose proof (bb_settled _ _ (bh_bX _ _ _ _ _ _ _ Hh)) as HsX.
    destruct (bb_wm _ _ (bh_bX _ _ _ _ _ _ _ Hh)) as (Hlo & _).
    assert (with_bev X (Some bX) c = c) as Hsame by (pose proof (bh_X _ _ _ _ _ _ _ Hh) as E; destruct X, c; cbn in *; by rewrite E).
    cbn [step]. apply wp_bind, (wp_the_bev _ bX); [apply Hh |]. rewrite readcb_settle by done. destruct ans as [d | | | |]; cbn [app].
    + rewrite Hlo, (proj2 (Z.leb_le 0 _)) by apply zlen_nonneg. apply wp_bind, wp_emit, wp_bind, wp_store. cbn [run_cb].
      apply wp_bind. eapply (wp_the_bev _ (settle (bX <| input := input bX ++ d |>))); [by destruct X |].
      assert (readcb (settle (bX <| input := input bX ++ d |>)) = CB_relay) as -> by apply (bh_bX _ _ _ _ _ _ _ Hh). cbn [run_readcb]. apply wp_bind, wp_touch.
      eapply wp_mono; [eapply relay_readcb_ok; [exact Hh | done | done |] |].
      * intros ->. destruct Ha as [Ha _]. unfold zlen in Ha. cbn [length] in Ha. lia.
      * intros [] s' es Hg. cbn [app]. by apply good_snoc.
    + apply wp_bind, wp_ret, wp_bind, wp_store. cbn [run_cb app]. by eapply eof_ok.
    + apply wp_bind, wp_ret, wp_bind, wp_store, wp_ret. cbn [app]. by rewrite Hsame, app_nil_r.
    + apply wp_bind, wp_ret, wp_bind, wp_store, wp_ret. cbn [app]. by rewrite Hsame, app_nil_r.
    + apply wp_bind, wp_ret, wp_bind, wp_store. apply wp_bind, wp_touch, wp_drop. cbn [app]. apply good_drop; [done |].
      replace (held_fds cf (with_bev X (Some (bufferevent_disable EV_READ bX)) c)) with (held_fds cf c); [by apply cinv_fds |].
      rewrite disable_settle by done. unfold held_fds, bev_fds. pose proof (bh_X _ _ _ _ _ _ _ Hh) as E. destruct X; cbn in *; by rewrite E.
  - destruct (bp_of_cinv h c (other Y) Hinv Hm Hst) as (msgs & got & bX & bY & Hh). destruct Hok as (b & Hb & He & Ha & _).
    pose proof (bh_Y _ _ _ _ _ _ _ Hh) as HY. rewrite other_other in HY. rewrite HY in Hb. injection Hb as <-.
    pose proof (bb_settled _ _ (bh_bY _ _ _ _ _ _ _ Hh)) as HsY. destruct (bb_wm _ _ (bh_bY _ _ _ _ _ _ _ Hh)) as (_ & _ & Hlo & _).
    assert (∀ es, one_way (other Y) es → sent Y es = output bY → recv (other Y) es = [] →
      wp (run_cb ss cf Y Cb_write conn o) (λ _ s' es', good cfd rfd (h ++ es ++ es') s') (Some (with_bev Y (Some (bY <| output := [] |> <| ev_write := false |>)) c))) as Hcb.
    { intros es H1 H2 H3. cbn [run_cb]. apply wp_bind. eapply (wp_the_bev _ (bY <| output := [] |> <| ev_write := false |>)); [by destruct Y |].
      assert (writecb (bY <| output := [] |> <| ev_write := false |>) = CB_relay) as -> by apply (bh_bY _ _ _ _ _ _ _ Hh). cbn [run_writecb]. apply wp_bind, wp_touch.
      pose proof (relay_writecb_ok h es c msgs got (other Y) bX bY Hh Hnb He H1) as Hrw. rewrite other_other in Hrw.
      eapply wp_mono; [by apply Hrw |]. intros [] s' es' Hg. cbn [app]. by rewrite app_assoc. }
    cbn [step]. apply wp_bind, (wp_the_bev _ bY); [done |]. destruct (decide (output bY = [])) as [Ho | Ho].
    { rewrite writecb_empty by done. apply wp_bind, wp_ret, wp_bind, wp_store. cbn [app].
      replace (bY <| ev_write := false |>) with (bY <| output := [] |> <| ev_write := false |>) by (destruct bY; cbn in *; by rewrite Ho).
      apply (Hcb []); [apply one_way_nil | by rewrite Ho | done]. }
    destruct ans as [n | | |].
    + specialize (Ha Ho). cbn in Ha. rewrite writecb_sent by (done || lia).
      assert ((zlen (ztake n (output bY)) =? 0) = false) as -> by (apply Z.eqb_neq; rewrite zlen_ztake; lia). cbn [negb when]. apply wp_bind, wp_emit, wp_bind, wp_store.
      pose proof (one_way_sent (other Y) (ztake n (output bY))) as Hone. rewrite other_other in Hone.
      destruct (bool_decide_reflect (zdrop n (output bY) = [])) as [Hz | Hz].
      * apply (Hcb [F_sent Y (ztake n (output bY))]); [done | | done]. cbn. rewrite bool_decide_eq_true_2, app_nil_r by done. by rewrite <- (ztake_zdrop n (output bY)) at 2; rewrite Hz, app_nil_r.
      * cbn [run_cb]. apply wp_ret. cbn [app].
        assert (with_bev Y (Some (bY <| output := zdrop n (output bY) |>)) c = upd (other Y) bX (bY <| output := zdrop n (output bY) |>) (evshut (other Y) c) (evshut (other (other Y)) c) c) as ->.
        { pose proof (bh_X _ _ _ _ _ _ _ Hh) as E. destruct Y, c; cbn in *; by rewrite E. }
        eapply one_way_good; [exact Hh | done | done | | |].
        -- constructor; try done; [apply Hh |]. eapply buf_bev_settle; [apply (bh_bY _ _ _ _ _ _ _ Hh) | by apply (settled_output _ _ (ev_write bY)) | done..].
        -- rewrite other_other. cbn. rewrite bool_decide_eq_true_2, !app_nil_r by done. by rewrite app_assoc, ztake_zdrop.
        -- pose proof (bh_pX _ _ _ _ _ _ _ Hh) as HpX. constructor; rewrite ?upd_eX, ?upd_eY; try apply HpX; try done.
           ++ intros E. destruct (pd_shut _ _ _ _ HpX E) as (_ & _ & E' & _). by rewrite He in E'.
    + rewrite writecb_unsent by done. apply wp_bind, wp_ret, wp_bind, wp_store. apply wp_bind, wp_touch, wp_drop. cbn [app]. apply good_drop; [done |].
      replace (held_fds cf (with_bev Y (Some (bufferevent_disable EV_WRITE bY)) c)) with (held_fds cf c); [by apply cinv_fds |].
      rewrite disable_settle by done. unfold held_fds, bev_fds. destruct Y; cbn in *; by rewrite HY.
    + rewrite writecb_unsent by done. apply wp_bind, wp_ret, wp_bind, wp_store, wp_ret. cbn [app]. rewrite app_nil_r.
      replace (with_bev Y (Some bY) c) with c; [done |]. destruct Y, c; cbn in *; by rewrite HY.
    + rewrite writecb_unsent by done. apply wp_bind, wp_ret, wp_bind, wp_store. apply wp_bind, wp_touch, wp_drop. cbn [app]. apply good_drop; [done |].
      replace (held_fds cf (with_bev Y (Some (bufferevent_disable EV_WRITE bY)) c)) with (held_fds cf c); [by apply cinv_fds |].
      rewrite disable_settle by done. unfold held_fds, bev_fds. destruct Y; cbn in *; by rewrite HY.
  - destruct Hok as [Hu _]. by rewrite Hm in Hu.
  - destruct Hok as [Hu _]. by rewrite Hm in Hu.
Qed.
End buffers.
