(* ===== verification/RedsocksSplice.v ===== *)
(** * Relaying through pipes

    The events of a client that is relayed with [splice] keep the invariant: what the
    buffers of libevent still hold goes first, no byte is lost or reordered, and the end of a
    stream is passed on exactly when all of it has been written. *)
From S2P Require Import Prelude Bufferevent Redsocks RelayProto RedsocksLaws.

Section splice.
Context `{RP : RelayProto ss cf} (cfd rfd : Z).

Lemma other_twice s : other (other s) = s.
Proof. by destruct s. Qed.
Lemma side_cases (X s : side) : s = X ∨ s = other X.
Proof. destruct X, s; auto. Qed.

(** What a direction depends on. *)
Definition observed (X : side) (c : redsocks_client) : bytes * splice_pipe * pump_event * pump_event * bool * bool :=
  (undelivered X c, pipe_from X c, read_event X c, write_event (other X) c, ev_R (evshut X c), ev_W (evshut (other X) c)).

Lemma spliced_ext X c c' : observed X c' = observed X c → spliced c X → spliced c' X.
Proof. intros [= E1 E2 E3 E4 E5 E6] [H1 H2 H3 H4 H5]. constructor; unfold write_pending in *; rewrite ?E1, ?E2, ?E3, ?E4, ?E5, ?E6; done. Qed.

(** While the direction from [X] is written: everything but the events of that direction. *)
Record mid (X : side) (h : list reff) (c : redsocks_client) : Prop := {
  md_mode : use_splice cf = true;
  md_flows : ∃ msgs got, exchanged msgs got ∧ flows msgs got h c;
  md_shut : shut_told h c;
  md_fds : accounted cfd rfd h (held_fds cf c);
  md_client : detached (client c);
  md_relay : detached (relay c);
  md_events : event_of cfd (client_read c) ∧ event_of cfd (client_write c) ∧ event_of rfd (relay_read c) ∧ event_of rfd (relay_write c);
  md_other : spliced c (other X);
  md_state : state c = pump_active;
  md_size : pipe_size (pipe_from X c) = zlen (pipe_data (pipe_from X c));
  md_open : pipe_fds (pipe_from X c) ≠ None;
  md_shut_w : ev_W (evshut (other X) c) = false;
}.

Lemma mid_told X h c : mid X h c → told h.
Proof.
  intros [Hm (msgs & got & He & Hf) Hs _ _ _ _ Ho _ _ _ Hw].
  assert (∀ X', F_shutdown (other X') SHUT_WR ∈ h → undelivered X' c = []) as Hu.
  { intros X' Hin%Hs. destruct (side_cases X X') as [-> | ->]; [by rewrite Hw in Hin |]. apply (sp_shut _ _ Ho Hin). }
  eapply told_flows; [done | done | intros Hin; by apply (Hu Relay) | intros Hin _; by apply (Hu Client)].
Qed.

Lemma mid_good X h c : mid X h c → spliced c X → good cfd rfd h (Some c).
Proof.
  intros [Hm (msgs & got & He & Hf) Hs Ha Hc Hr Hv Ho Hst _ _ Hw] HX. split; [| by eapply unshut]. eapply cinv_pipes; try done. destruct X; by constructor.
Qed.

(** Output, input and pipe of a direction. *)
Lemma undelivered_put_output X d c b : bev_of (other X) c = Some b →
  undelivered X (put_output (other X) d c) = d ++ inb X c ++ pipe_data (pipe_from X c) ∧ observed (other X) (put_output (other X) d c) = observed (other X) c.
Proof. intros Hb. unfold undelivered, observed, undelivered, outb, inb, put_output. destruct X; cbn in *; rewrite Hb; done. Qed.

Lemma undelivered_put_input X d c b : bev_of X c = Some b →
  undelivered X (put_input X d c) = outb (other X) c ++ d ++ pipe_data (pipe_from X c) ∧ observed (other X) (put_input X d c) = observed (other X) c.
Proof. intros Hb. unfold undelivered, observed, undelivered, outb, inb, put_input. destruct X; cbn in *; rewrite Hb; done. Qed.

Lemma undelivered_put_pipe X n d c :
  undelivered X (put_pipe X n d c) = outb (other X) c ++ inb X c ++ d ∧ observed (other X) (put_pipe X n d c) = observed (other X) c.
Proof. unfold undelivered, observed, undelivered, outb, inb, put_pipe. destruct X; done. Qed.

(** A part of what is undelivered was sent. *)
Definition sent_eff (s : side) (d : bytes) : list reff := if zlen d =? 0 then [] else [F_sent s d].

Lemma sent_eff_sent s d : sent s (sent_eff s d) = d ∧ sent (other s) (sent_eff s d) = [].
Proof.
  unfold sent_eff. destruct (Z.eqb_spec (zlen d) 0) as [E | E]; [by apply zlen_0_nil in E as -> |]. cbn. rewrite bool_decide_eq_true_2, app_nil_r by done. by destruct s.
Qed.

Lemma mid_sent X h c c' d : mid X h c → undelivered X c = d ++ undelivered X c' → observed (other X) c' = observed (other X) c →
  (∀ s, evshut s c' = evshut s c) → held_fds cf c' = held_fds cf c → detached (client c') → detached (relay c') →
  client_read c' = client_read c → client_write c' = client_write c → relay_read c' = relay_read c → relay_write c' = relay_write c → state c' = state c →
  pipe_size (pipe_from X c') = zlen (pipe_data (pipe_from X c')) → pipe_fds (pipe_from X c') = pipe_fds (pipe_from X c) →
  mid X (h ++ sent_eff (other X) d) c'.
Proof.
  intros [Hm (msgs & got & He & Hf) Hs Ha Hc Hr Hv Ho Hst Hsz Hop Hw] Hu Hob Hev Hh Hc' Hr' E1 E2 E3 E4 E5 Hsz' Hfd.
  assert (∀ s, recv s (sent_eff (other X) d) = []) as Hrv by (intros s; unfold sent_eff; by destruct (_ =? _)).
  destruct (sent_eff_sent (other X) d) as [Hs1 Hs2]. rewrite other_twice in Hs2.
  constructor; try done.
  - exists msgs, got. split; [done |]. intros X'. specialize (Hf X'). rewrite sent_app, recv_app, Hrv, app_nil_r, <- Hf. f_equal. destruct (side_cases X X') as [-> | ->].
    + by rewrite Hs1, Hu, <- !app_assoc.
    + rewrite other_twice, Hs2, app_nil_r. f_equal. by injection Hob.
  - eapply shut_told_app; [exact Hs | | intros s; by rewrite Hev]. intros s. unfold sent_eff. destruct (_ =? _); [apply not_elem_of_nil | by rewrite list_elem_of_singleton].
  - eapply accounted_app; [exact Ha | | | done]; unfold sent_eff; by destruct (_ =? _).
  - by rewrite E1, E2, E3, E4.
  - by eapply spliced_ext.
  - by rewrite E5.
  - by rewrite Hfd.
  - by rewrite Hev.
Qed.

Lemma held_detached c c' : use_splice cf = true → detached (client c) → detached (relay c) → detached (client c') → detached (relay c') →
  pipe_fds (request c') = pipe_fds (request c) → pipe_fds (reply c') = pipe_fds (reply c) → client_read c' = client_read c → relay_read c' = relay_read c →
  held_fds cf c' = held_fds cf c.
Proof.
  intros Hu H1 H2 H3 H4 E1 E2 E3 E4. unfold held_fds, pipe_ends. rewrite Hu, E1, E2, E3, E4. f_equal; [| f_equal].
  - unfold bev_fds. destruct (client c) as [b |], (client c') as [b' |]; cbn in *; try done; repeat match goal with H : _ ∧ _ |- _ => destruct H as [-> _] end; done.
  - unfold bev_fds. destruct (relay c) as [b |], (relay c') as [b' |]; cbn in *; try done; repeat match goal with H : _ ∧ _ |- _ => destruct H as [-> _] end; done.
Qed.

(** ** Writing *)

Definition drain_post (X : side) (h : list reff) (r : option (bool * bool)) (s : option redsocks_client) : Prop :=
  match r with
  | None => good cfd rfd h s
  | Some (has_data, can_write) => ∃ c, s = Some c ∧ mid X h c ∧ can_write = negb has_data ∧ (undelivered X c = [] ↔ has_data = false)
  end.

Lemma wp_sent_eff out d (Q : unit → option redsocks_client → list reff → Prop) s : Q () s (sent_eff out d) → wp (when (negb (zlen d =? 0)) (emit (F_sent out d))) Q s.
Proof. unfold sent_eff, when. by destruct (zlen d =? 0). Qed.

Lemma good_app h k es s : good cfd rfd (h ++ k ++ es) s ↔ good cfd rfd ((h ++ k) ++ es) s.
Proof. by rewrite app_assoc. Qed.

(** One source: all of it, or a part, or nothing is written. *)
Lemma stage_ok X h c get put ans next avail : mid X h c → get c = Some avail → drain_ok avail ans →
  (∀ d rest, avail = d ++ rest → mid X (h ++ sent_eff (other X) d) (put rest c)) →
  (∀ rest, rest ≠ [] → undelivered X (put rest c) ≠ []) →
  wp next (λ r s' es, drain_post X ((h ++ sent_eff (other X) avail) ++ es) r s') (Some (put [] c)) →
  wp (drain_source cf (other X) get put ans next) (λ r s' es, drain_post X (h ++ es) r s') (Some c).
Proof.
  intros Hm Hg Hok Hput Hne Hnext. unfold drain_source. apply wp_bind, wp_deref. rewrite Hg.
  destruct (drained avail ans) as [[r d] rest] eqn:Ed. apply wp_bind, wp_sent_eff. apply wp_bind, wp_store. cbn [app].
  assert (avail = d ++ rest ∧ match r with D_none | D_full => rest = [] | _ => rest ≠ [] end) as [Ea Hr].
  { unfold drained in Ed. destruct (Z.eqb_spec (zlen avail) 0) as [E | E]; [apply zlen_0_nil in E; by injection Ed as <- <- <- |].
    assert (avail ≠ []) as Hna by (by intros ->). destruct ans as [n | | |]; [| by injection Ed as <- <- <-..].
    destruct (Z.eqb_spec (zlen avail) n) as [En | En]; injection Ed as <- <- <-; [by rewrite app_nil_r |]. split; [by rewrite ztake_zdrop |].
    destruct Hok as [? | Hok]; [done |]. intros Hz. apply (f_equal zlen) in Hz. rewrite zlen_zdrop in Hz. change (zlen (@nil Z)) with 0 in Hz. lia. }
  specialize (Hput d rest Ea). destruct r.
  - subst rest. rewrite app_nil_r in Ea. subst d. eapply wp_mono; [exact Hnext |]. intros r s' es Hp. by rewrite app_assoc.
  - subst rest. rewrite app_nil_r in Ea. subst d. eapply wp_mono; [exact Hnext |]. intros r s' es Hp. by rewrite app_assoc.
  - apply wp_ret. rewrite app_nil_r. eexists. split_and!; [done | done | done |]. split; [intros E; by apply Hne in E | done].
  - apply wp_ret. rewrite app_nil_r. eexists. split_and!; [done | done | done |]. split; [intros E; by apply Hne in E | done].
  - apply wp_bind, wp_drop, wp_ret. rewrite app_nil_r, app_assoc. apply good_drop; [by eapply mid_told | apply Hput].
Qed.

Lemma detached_update (f : bufferevent → bufferevent) b : (∀ b, bev_fd (f b) = bev_fd b ∧ ev_read (f b) = ev_read b ∧ ev_write (f b) = ev_write b) → detached b → detached (f <$> b).
Proof. intros Hf. destruct b as [b |]; [| done]. cbn. by destruct (Hf b) as (-> & -> & ->). Qed.

Lemma stage_pipe X h c a2 : mid X h c → outb (other X) c = [] → inb X c = [] → drain_ok (pipe_data (pipe_from X c)) a2 →
  wp (drain_pipe cf (other X) a2) (λ r s' es, drain_post X (h ++ es) r s') (Some c).
Proof.
  intros Hm Ho Hi Hok. pose proof (md_size _ _ _ Hm) as Es.
  assert (undelivered X c = pipe_data (pipe_from X c)) as Eu0 by (unfold undelivered; by rewrite Ho, Hi).
  assert (∀ d rest n, pipe_data (pipe_from X c) = d ++ rest → n = zlen rest → mid X (h ++ sent_eff (other X) d) (put_pipe X n rest c)) as Hput.
  { intros d rest n Hd ->. destruct (undelivered_put_pipe X (zlen rest) rest c) as [Eu Eo]. apply (mid_sent X h c); try done; try apply Hm; try (by destruct X).
    - by rewrite Eu, Eu0, Ho, Hi, Hd.
    - by destruct X; apply Hm.
    - by destruct X; apply Hm. }
  unfold drain_pipe. apply wp_bind, wp_deref. rewrite other_twice, Es. cbv zeta. cbn [app]. destruct (Z.eqb_spec (zlen (pipe_data (pipe_from X c))) 0) as [E | E].
  { apply zlen_0_nil in E. apply wp_ret. rewrite app_nil_r. eexists. split_and!; [done | done | done |]. by rewrite Eu0, E. }
  assert (pipe_data (pipe_from X c) ≠ []) as Hne by (by intros Hz; rewrite Hz in E).
  assert (drain_post X h (Some (true, false)) (Some c)) as Hstay.
  { eexists. split_and!; [done | done | done |]. by rewrite Eu0. }
  destruct a2 as [n | | |]; [| by apply wp_ret; rewrite app_nil_r..|].
  - destruct Hok as [Hz | Hn]; [done |].
    apply wp_bind, wp_emit, wp_bind, wp_store, wp_ret. rewrite !app_nil_r. cbn [app].
    pose proof (Hput (ztake n (pipe_data (pipe_from X c))) (zdrop n (pipe_data (pipe_from X c))) (zlen (pipe_data (pipe_from X c)) - n) (eq_sym (ztake_zdrop _ _)) ltac:(rewrite zlen_zdrop; lia)) as Hp.
    unfold sent_eff in Hp. rewrite zlen_ztake, (proj2 (Z.eqb_neq _ _)) in Hp by lia.
    destruct (undelivered_put_pipe X (zlen (pipe_data (pipe_from X c)) - n) (zdrop n (pipe_data (pipe_from X c))) c) as [Eu _].
    destruct (Z.eqb_spec (zlen (pipe_data (pipe_from X c))) n) as [En | En]; (eexists; split_and!; [done | exact Hp | done |]; rewrite Eu, Ho, Hi; cbn [app]).
    + split; [done | intros _]. apply zlen_0_nil. rewrite zlen_zdrop. lia.
    + split; [| done]. intros Hz. apply (f_equal zlen) in Hz. rewrite zlen_zdrop in Hz. change (zlen (@nil Z)) with 0 in Hz. lia.
  - apply wp_bind, wp_drop, wp_ret. rewrite app_nil_r. apply good_drop; [by eapply mid_told | apply Hm].
Qed.

Lemma stage_input X h c a1 a2 : mid X h c → outb (other X) c = [] →
  match bev_of X c with Some b => drain_ok (input b) a1 | None => True end → drain_ok (pipe_data (pipe_from X c)) a2 →
  wp (drain_source cf (other X) (λ c, input <$> bev_of X c) (put_input X) a1
        (drain_pipe cf (other X) a2))
    (λ r s' es, drain_post X (h ++ es) r s') (Some c).
Proof.
  intros Hm Ho H1 H2. destruct (bev_of X c) as [b |] eqn:Hb.
  2: { unfold drain_source at 1. apply wp_bind, wp_deref. rewrite Hb. cbn [fmap option_fmap option_map app]. eapply wp_mono; [eapply stage_pipe; [done | done | unfold inb; by rewrite Hb | done] | done]. }
  assert (inb X c = input b) as Hib by (unfold inb; by rewrite Hb).
  assert (∀ d rest, input b = d ++ rest → mid X (h ++ sent_eff (other X) d) (put_input X rest c)) as Hput.
  { intros d rest Hd. destruct (undelivered_put_input X rest c b Hb) as [Eu Eo].
    assert (detached (client (put_input X rest c)) ∧ detached (relay (put_input X rest c))) as [D1 D2].
    { destruct X; cbn in *; split; try apply Hm; apply detached_update; done || apply Hm. }
    apply (mid_sent X h c); try done; try (by destruct X).
    - rewrite Eu. unfold undelivered. by rewrite Ho, Hib, Hd, <- !app_assoc.
    - apply held_detached; try apply Hm; done || by destruct X.
    - destruct X; apply Hm. }
  eapply stage_ok; [done | by rewrite Hb | done | exact Hput | |].
  - intros rest Hne. destruct (undelivered_put_input X rest c b Hb) as [-> _]. rewrite Ho. by destruct rest.
  - apply stage_pipe; [apply Hput; by rewrite app_nil_r | | | by destruct X].
    + rewrite <- Ho. unfold outb. by destruct X.
    + unfold inb, put_input. destruct X; cbn in *; by rewrite Hb.
Qed.

Lemma redsplice_drain_ok X h c a0 a1 a2 : mid X h c →
  match bev_of (other X) c with Some b => drain_ok (output b) a0 | None => True end →
  match bev_of X c with Some b => drain_ok (input b) a1 | None => True end → drain_ok (pipe_data (pipe_from X c)) a2 →
  wp (redsplice_drain cf (other X) a0 a1 a2) (λ r s' es, drain_post X (h ++ es) r s') (Some c).
Proof.
  intros Hm H0 H1 H2. unfold redsplice_drain. rewrite other_twice. destruct (bev_of (other X) c) as [b |] eqn:Hb.
  2: { unfold drain_source at 1. apply wp_bind, wp_deref. rewrite Hb. cbn [fmap option_fmap option_map app]. eapply wp_mono; [eapply stage_input; [done | unfold outb; by rewrite Hb | done | done] | done]. }
  assert (outb (other X) c = output b) as Hob by (unfold outb; by rewrite Hb).
  assert (∀ d rest, output b = d ++ rest → mid X (h ++ sent_eff (other X) d) (put_output (other X) rest c)) as Hput.
  { intros d rest Hd. destruct (undelivered_put_output X rest c b Hb) as [Eu Eo].
    assert (detached (client (put_output (other X) rest c)) ∧ detached (relay (put_output (other X) rest c))) as [D1 D2].
    { destruct X; cbn in *; split; try apply Hm; apply detached_update; done || apply Hm. }
    apply (mid_sent X h c); try done; try (by destruct X).
    - rewrite Eu. unfold undelivered. by rewrite Hob, Hd, <- !app_assoc.
    - apply held_detached; try apply Hm; done || by destruct X.
    - destruct X; apply Hm. }
  eapply stage_ok; [done | by rewrite Hb | done | exact Hput | |].
  - intros rest Hne. destruct (undelivered_put_output X rest c b Hb) as [-> _]. by destruct rest.
  - apply stage_input; [apply Hput; by rewrite app_nil_r | | | by destruct X].
    + unfold outb, put_output. destruct X; cbn in *; by rewrite Hb.
    + unfold put_output. by destruct X.
Qed.

(** *** The decision after writing *)

Definition keeps_fd (f : pump_event → pump_event) : Prop := ∀ e, pe_init (f e) = pe_init e ∧ pe_fd (f e) = pe_fd e.

(** The events of the direction change. *)
Definition evts (X : side) (f g : pump_event → pump_event) (c : redsocks_client) : redsocks_client :=
  with_write_event (other X) (g (write_event (other X) c)) (with_read_event X (f (read_event X c)) c).

Lemma event_of_keeps f fd e : keeps_fd f → event_of fd e → event_of fd (f e).
Proof. unfold event_of. intros Hf. destruct (Hf e) as [-> ->]. done. Qed.
Lemma event_fds_keeps f e : keeps_fd f → event_fds (f e) = event_fds e.
Proof. unfold event_fds. intros Hf. by destruct (Hf e) as [-> ->]. Qed.

Lemma mid_evts X h c f g : mid X h c → keeps_fd f → keeps_fd g → mid X h (evts X f g c).
Proof.
  intros [Hm Hf Hs Ha Hc Hr (E1 & E2 & E3 & E4) Ho Hst Hsz Hop Hw] Hkf Hkg. constructor; try (by destruct X); try done.
  - unfold accounted in *. rewrite <- Ha. f_equiv. unfold held_fds. rewrite Hm. destruct X; cbn; by rewrite event_fds_keeps.
  - destruct X; cbn; split_and!; try done; by apply event_of_keeps.
  - eapply spliced_ext; [| exact Ho]. by destruct X.
Qed.

Lemma evts_observed X f g c : observed X (evts X f g c) = (undelivered X c, pipe_from X c, f (read_event X c), g (write_event (other X) c), ev_R (evshut X c), ev_W (evshut (other X) c)).
Proof. by destruct X. Qed.

(** The pipe is closed and the other side told of the end. *)
Definition finished (X : side) (c : redsocks_client) : redsocks_client :=
  with_pipe X ((pipe_from X c) <| pipe_fds := None |>) (with_evshut (other X) (ev_or (evshut (other X) c) EV_WRITE) c).

Lemma finished_cinv X h c r w : mid X h c → undelivered X c = [] → ev_R (evshut X c) = true → pipe_fds (pipe_from X c) = Some (r, w) →
  cinv cfd rfd (h ++ [F_shutdown (other X) SHUT_WR; F_close r; F_close w]) (evts X event_del event_del (finished X c)).
Proof.
  intros [Hm (msgs & got & He & Hf) Hs Ha Hc Hr (E1 & E2 & E3 & E4) Ho Hst Hsz Hop Hw] Hu Hrd Hfd.
  assert (pipe_data (pipe_from X c) = []) as Hpd by (unfold undelivered in Hu; apply app_nil in Hu as [_ Hu]; by apply app_nil in Hu as [_ Hu]).
  set (c' := evts X event_del event_del (finished X c)).
  assert (spliced c' X) as HX.
  { constructor; unfold c'.
    - destruct X; cbn in *; rewrite Hsz; by rewrite Hpd.
    - intros _. split_and!; [by destruct X | rewrite <- Hu; by destruct X | by destruct X | by destruct X |]. unfold write_pending. destruct X; cbn; by intros [].
    - destruct X; cbn; by rewrite orb_true_r.
    - destruct X; cbn; rewrite orb_true_r; done.
    - destruct X; cbn in *; by rewrite Hrd. }
  assert (spliced c' (other X)) as HY.
  { eapply spliced_ext; [| exact Ho]. unfold c'. destruct X; cbn; unfold observed; cbn; by rewrite orb_false_r. }
  eapply (cinv_pipes _ _ _ _ msgs got); [done | done | | | |].
  - constructor; by destruct X.
  - intros s. rewrite elem_of_app. destruct (side_cases X s) as [-> | ->].
    + assert (evshut X c' = evshut X c) as -> by (by destruct X). rewrite <- (Hs X). split; [intros [? | Hin]; [done |] | by left].
      rewrite !elem_of_cons, elem_of_nil in Hin. destruct Hin as [[= E] | [? | [? | ?]]]; try done. by destruct X.
    + assert (ev_W (evshut (other X) c') = true) as -> by (destruct X; cbn; by rewrite orb_true_r). split; [done |]. intros _. right. rewrite elem_of_cons. by left.
  - unfold accounted in *. rewrite closed_app, opened_app. change (closed [_; F_close r; F_close w]) with [r; w]. change (opened [_; _; _]) with (@nil Z).
    rewrite app_nil_r, <- Ha, <- app_assoc. apply Permutation_app_head. unfold held_fds. rewrite Hm.
    assert (bev_fds (client c') = bev_fds (client c) ∧ bev_fds (relay c') = bev_fds (relay c) ∧ event_fds (client_read c') = event_fds (client_read c) ∧ event_fds (relay_read c') = event_fds (relay_read c))
      as (-> & -> & -> & ->) by (by destruct X).
    assert (pipe_ends (pipe_from X c) = [r; w]) as Hpe by (unfold pipe_ends; by rewrite Hfd).
    destruct X; cbn [pipe_from] in Hpe.
    + change (request c') with ((request c) <| pipe_fds := None |>). change (reply c') with (reply c). rewrite Hpe. change (pipe_ends (_ <| pipe_fds := None |>)) with (@nil Z). cbn [app].
      change (r :: w :: bev_fds (client c) ++ ?l) with ([r; w] ++ bev_fds (client c) ++ l). rewrite Permutation_app_swap_app. apply Permutation_app_head. apply (Permutation_app_swap_app [r; w]).
    + change (request c') with (request c). change (reply c') with ((reply c) <| pipe_fds := None |>). rewrite Hpe. change (pipe_ends (_ <| pipe_fds := None |>)) with (@nil Z). cbn [app].
      change (r :: w :: bev_fds (client c) ++ ?l) with ([r; w] ++ bev_fds (client c) ++ l). rewrite Permutation_app_swap_app. apply Permutation_app_head.
      rewrite Permutation_app_swap_app. apply Permutation_app_head. apply (Permutation_app_swap_app [r; w]).
  - intros X'. specialize (Hf X'). rewrite sent_app, recv_app. cbn. rewrite !app_nil_r. unfold c'. by destruct X, X'.
Qed.

Lemma evts_eq X f g c : with_write_event (other X) (g (write_event (other X) (with_read_event X (f (read_event X c)) c))) (with_read_event X (f (read_event X c)) c) = evts X f g c.
Proof. by destruct X. Qed.

(** A direction that is not shut down. *)
Lemma spliced_make X c u p r w eR : observed X c = (u, p, r, w, eR, false) → pipe_size p = zlen (pipe_data p) → pipe_fds p ≠ None →
  (u ≠ [] ∨ eR = true → pe_added w = true ∨ pe_active w = true) → (eR = false → pe_added r = true ∨ pe_added w = true ∨ pe_active w = true) → spliced c X.
Proof.
  intros [= E1 E2 E3 E4 E5 E6] H1 H2 H3 H4. constructor; unfold write_pending; rewrite ?E1, ?E2, ?E3, ?E4, ?E5, ?E6; try done; auto.
Qed.

Lemma spliced_writing X c : ev_W (evshut (other X) c) = false → pipe_size (pipe_from X c) = zlen (pipe_data (pipe_from X c)) → pipe_fds (pipe_from X c) ≠ None →
  write_pending (other X) c → spliced c X.
Proof. intros H1 H2 H3 H4. constructor; rewrite ?H1; try done; auto. Qed.

Lemma wp_close_pipe p r w (Q : unit → option redsocks_client → list reff → Prop) s : pipe_fds p = Some (r, w) → Q () s [F_close r; F_close w] → wp (close_pipe p) Q s.
Proof. intros E HQ. unfold close_pipe. by rewrite E. Qed.

Lemma write_cb_ok X h c a0 a1 a2 : mid X h c →
  match bev_of (other X) c with Some b => drain_ok (output b) a0 | None => True end →
  match bev_of X c with Some b => drain_ok (input b) a1 | None => True end → drain_ok (pipe_data (pipe_from X c)) a2 →
  wp (redsplice_write_cb cf (other X) a0 a1 a2) (λ _ s' es, good cfd rfd (h ++ es) s') (Some c).
Proof.
  intros Hm H0 H1 H2. unfold redsplice_write_cb. rewrite other_twice. apply wp_bind. eapply wp_mono; [by eapply redsplice_drain_ok |].
  intros [[has_data can_write] |] s' es Hp; [| apply wp_ret; by rewrite app_nil_r]. destruct Hp as (c1 & -> & Hm1 & -> & Hud).
  apply wp_bind, wp_deref. rewrite (md_shut_w _ _ _ Hm1). cbn [app]. destruct has_data.
  - (* short write *)
    cbn [negb andb]. apply wp_bind, wp_ret. apply wp_bind. cbn [negb andb]. apply wp_assert; [done |]. apply wp_bind, wp_store, wp_store. cbn [app]. rewrite app_nil_r.
    rewrite evts_eq. eapply mid_good; [by apply mid_evts |]. eapply spliced_make; [rewrite evts_observed, (md_shut_w _ _ _ Hm1); done | apply Hm1 | apply Hm1 | by left | by right; left].
  - assert (undelivered X c1 = []) as Hu by (by apply Hud). cbn [negb andb]. rewrite andb_true_r. destruct (ev_R (evshut X c1)) eqn:Er.
    + (* the end of the stream is passed on *)
      destruct (pipe_fds (pipe_from X c1)) as [[r w] |] eqn:Ep; [| by destruct (md_open _ _ _ Hm1)].
      assert (pipe_size (pipe_from X c1) = 0) as Hz.
      { rewrite (md_size _ _ _ Hm1). unfold undelivered in Hu. apply app_nil in Hu as [_ Hu]. apply app_nil in Hu as [_ Hu]. by rewrite Hu. }
      pose proof (finished_cinv X (h ++ es) c1 r w Hm1 Hu Er Ep) as Hfin. rewrite Hz.
      apply wp_bind, wp_bind, wp_emit, wp_bind, wp_store, wp_bind, wp_assert; [done |]. apply wp_bind, (wp_close_pipe _ r w); [done |]. apply wp_bind, wp_store, wp_bind, wp_deref.
      fold (finished X c1). destruct (shut_both (finished X c1)) eqn:Hnb.
      * apply wp_bind, wp_drop, wp_ret, wp_ret. cbn [app]. rewrite !app_nil_r.
        match goal with |- good _ _ (h ++ es ++ ?l) _ => replace (h ++ es ++ l) with (((h ++ es) ++ [F_shutdown (other X) SHUT_WR; F_close r; F_close w]) ++ release cf (finished X c1)) by (by rewrite <- !app_assoc) end.
        apply good_drop; [by eapply cinv_told |]. replace (held_fds cf (finished X c1)) with (held_fds cf (evts X event_del event_del (finished X c1))); [by destruct Hfin |].
        unfold held_fds. destruct X; done.
      * apply wp_ret. cbn [negb andb]. apply wp_bind, wp_assert; [done |]. cbn [when]. apply wp_bind, wp_store, wp_store. cbn [app]. rewrite evts_eq.
        match goal with |- good _ _ (h ++ es ++ ?l) _ => replace (h ++ es ++ l) with ((h ++ es) ++ [F_shutdown (other X) SHUT_WR; F_close r; F_close w]) by (by rewrite <- !app_assoc) end. split; [exact Hfin | rewrite <- Hnb; by destruct X].
    + apply wp_bind, wp_ret. cbn [negb andb]. apply wp_bind, wp_assert; [done |]. apply wp_bind, wp_store, wp_store. cbn [app]. rewrite app_nil_r, evts_eq.
      eapply mid_good; [by apply mid_evts |]. eapply spliced_make; [rewrite evts_observed, (md_shut_w _ _ _ Hm1), Hu, Er; done | apply Hm1 | apply Hm1 | by intros [] | by left].
Qed.

(** ** Reading *)

(** Freeing a bufferevent that holds nothing changes nothing else. *)
Definition touched (c : redsocks_client) : redsocks_client := c <| client := bufferevent_free_unused (client c) |> <| relay := bufferevent_free_unused (relay c) |>.

Lemma unused_same b : (match bufferevent_free_unused b with Some b => input b | None => [] end) = (match b with Some b => input b | None => [] end) ∧
  (match bufferevent_free_unused b with Some b => output b | None => [] end) = (match b with Some b => output b | None => [] end).
Proof.
  destruct b as [b |]; [| done]. cbn. destruct (Z.eqb_spec (zlen (input b)) 0) as [E1 | E1], (Z.eqb_spec (zlen (output b)) 0) as [E2 | E2]; cbn; try done.
  apply zlen_0_nil in E1 as ->. by apply zlen_0_nil in E2 as ->.
Qed.

Lemma unused_detached b : detached b → detached (bufferevent_free_unused b).
Proof. destruct b as [b |]; [| done]. cbn. by destruct (_ && _). Qed.

Lemma touched_undelivered X c : undelivered X (touched c) = undelivered X c.
Proof. unfold undelivered, outb, inb. destruct (unused_same (client c)) as [E1 E2], (unused_same (relay c)) as [E3 E4]. destruct X; cbn; rewrite ?E1, ?E2, ?E3, ?E4; done. Qed.

Lemma touched_cinv h c : cinv cfd rfd h c → use_splice cf = true → state c = pump_active → cinv cfd rfd h (touched c).
Proof.
  intros [bc br Hpc Hco | p msgs got bc br He Hpc Hha | msgs got bc br Hu He Hb Hst Ha Hf | msgs got Hu He Hsp Hst Ha Hf] Hm Hs.
  - destruct (co_state _ _ _ Hco) as [E _]. by rewrite E in Hs.
  - destruct (proto_awaits p (exchange_state _ _ _ He)) as [Hp _]. pose proof (ha_state _ _ _ _ Hha) as E. subst p. cbn in Hp. by rewrite Hs in Hp.
  - by rewrite Hu in Hm.
  - eapply cinv_pipes; [done | done | | done | |].
    + destruct Hsp as [H1 H2 H3 H4 H5 H6]. constructor; try done; [by apply unused_detached | by apply unused_detached | apply (spliced_ext _ c); [| done] | apply (spliced_ext _ c); [| done]]; unfold observed; by rewrite touched_undelivered.
    + unfold accounted in *. rewrite <- Ha. rewrite (held_detached c (touched c)); try done; try apply Hsp; apply unused_detached, Hsp.
    + intros X. rewrite touched_undelivered. apply Hf.
Qed.

(** The parts of the invariant, for one direction. *)
Lemma mid_of_cinv X h c : cinv cfd rfd h c → use_splice cf = true → state c = pump_active → ev_W (evshut (other X) c) = false → mid X h c ∧ spliced c X.
Proof.
  intros [bc br Hpc Hco | p msgs got bc br He Hpc Hha | msgs got bc br Hu He Hb Hst Ha Hf | msgs got Hu He Hsp Hst Ha Hf] Hm Hs Hw.
  - destruct (co_state _ _ _ Hco) as [E _]. by rewrite E in Hs.
  - destruct (proto_awaits p (exchange_state _ _ _ He)) as [Hp _]. pose proof (ha_state _ _ _ _ Hha) as E. subst p. cbn in Hp. by rewrite Hs in Hp.
  - by rewrite Hu in Hm.
  - destruct Hsp as [H1 H2 H3 H4 H5 H6]. assert (spliced c X ∧ spliced c (other X)) as [HX HY] by (by destruct X). split; [| done].
    constructor; try done; [by exists msgs, got | apply HX | by apply (sp_open _ _ HX)].
Qed.

(** The invariant after a step of the direction from [X] that leaves the other one alone. *)
Lemma read_ok X h c c' es : mid X h c → observed (other X) c' = observed (other X) c → spliced c' X →
  client c' = client c → relay c' = relay c → state c' = state c → (∀ s, ev_W (evshut s c') = ev_W (evshut s c)) →
  (∀ e, e ∈ [client_read; client_write; relay_read; relay_write] → pe_init (e c') = pe_init (e c) ∧ pe_fd (e c') = pe_fd (e c)) →
  pipe_fds (request c') = pipe_fds (request c) → pipe_fds (reply c') = pipe_fds (reply c) →
  undelivered X c' = undelivered X c ++ recv X es → recv (other X) es = [] → (∀ s, sent s es = []) → closed es = [] → opened es = [] → (∀ s, F_shutdown s SHUT_WR ∉ es) →
  good cfd rfd (h ++ es) (Some c').
Proof.
  intros [Hm (msgs & got & He & Hf) Hs Ha Hc Hr (V1 & V2 & V3 & V4) Ho Hst Hsz Hop Hw] Hob HX Ec Er Est Hew Hev Ep1 Ep2 Hu Hr' Hse Hcl Hopn Hns.
  destruct (Hev client_read) as [I1 F1]; [set_solver |]. destruct (Hev client_write) as [I2 F2]; [set_solver |].
  destruct (Hev relay_read) as [I3 F3]; [set_solver |]. destruct (Hev relay_write) as [I4 F4]; [set_solver |].
  assert (spliced c' (other X)) as HY by (by eapply spliced_ext).
  split; [| eapply unshut; by rewrite Hew]. eapply (cinv_pipes _ _ _ _ msgs got); [done | done | | | |].
  - constructor; rewrite ?Ec, ?Er, ?Est; try done; [by unfold event_of; rewrite I1, I2, I3, I4, F1, F2, F3, F4 | by destruct X | by destruct X].
  - by eapply shut_told_app.
  - eapply accounted_app; [exact Ha | done | done |]. unfold held_fds, pipe_ends, event_fds. by rewrite Ec, Er, Ep1, Ep2, I1, I3, F1, F3.
  - intros X'. specialize (Hf X'). rewrite sent_app, recv_app, Hse, app_nil_r. destruct (side_cases X X') as [-> | ->].
    + rewrite Hu, (app_assoc (start msgs X)), <- Hf. by rewrite <- !app_assoc.
    + rewrite Hr', app_nil_r, <- Hf. do 2 f_equal. by injection Hob.
Qed.

Lemma read_cb_ok X h c ans : cinv cfd rfd h c → use_splice cf = true → state c = pump_active → pe_added (read_event X c) = true →
  match ans with R_data d => 1 ≤ zlen d ∧ ev_R (evshut X c) = false | R_again => pipe_data (pipe_from X c) ≠ [] | _ => True end →
  wp (redsplice_read_cb cf X ans) (λ _ s' es, good cfd rfd (h ++ es) s') (Some c).
Proof.
  intros Hinv Hm Hst Had Hok.
  assert (ev_W (evshut (other X) c) = false) as Hw.
  { destruct (ev_W (evshut (other X) c)) eqn:E; [| done]. exfalso.
    destruct Hinv as [bc br Hpc Hco | p msgs got bc br He Hpc Hha | ? ? ? ? Hu | msgs got Hu He Hsp _ _ _].
    - destruct X; cbn in E; [by rewrite (co_shut _ _ _ Hco) in E | by rewrite (pc_shut _ _ _ Hpc) in E].
    - destruct X; cbn in E; [by rewrite (ha_shut _ _ _ _ Hha) in E | by rewrite (pc_shut _ _ _ Hpc) in E].
    - by rewrite Hu in Hm.
    - assert (spliced c X) as HX by (destruct X; apply Hsp). destruct (sp_shut _ _ HX E) as (_ & _ & _ & E' & _). by rewrite Had in E'. }
  destruct (mid_of_cinv X h c Hinv Hm Hst Hw) as [Hmid HX]. pose proof (md_size _ _ _ Hmid) as Hsz. pose proof (md_open _ _ _ Hmid) as Hop.
  destruct ans as [d | | | |]; cbn [redsplice_read_cb].
  - destruct Hok as [Hd Hr]. apply wp_bind, wp_emit, wp_bind, wp_store, wp_store. cbn [app].
    match goal with |- good _ _ _ (Some ?c2) => set (c' := c2) end. assert (undelivered X c' = undelivered X c ++ d) as Hu by (unfold undelivered, c', outb, inb; destruct X; cbn; by rewrite <- !app_assoc).
    eapply (read_ok X h c c' [F_recv X d] Hmid); try (by destruct X).
    + apply spliced_writing; [rewrite <- Hw; by destruct X | unfold c'; destruct X; cbn in *; rewrite zlen_app; lia | by destruct X | right; by destruct X].
    + intros e. rewrite !elem_of_cons, elem_of_nil. intros [-> | [-> | [-> | [-> | []]]]]; by destruct X.
    + rewrite Hu. cbn. by rewrite bool_decide_eq_true_2, app_nil_r.
    + intros s. by rewrite list_elem_of_singleton.
  - apply wp_bind, wp_emit, wp_bind, wp_store, wp_bind, wp_store, wp_store. cbn [app].
    match goal with |- good _ _ _ (Some ?c2) => set (c' := c2) end.
    eapply (read_ok X h c c' [F_shutdown X SHUT_RD] Hmid); try (by destruct X).
    + unfold c', observed. destruct X; cbn; by rewrite orb_false_r.
    + apply spliced_writing; [rewrite <- Hw; by destruct X | by destruct X | by destruct X | right; by destruct X].
    + intros s. unfold c'. destruct X, s; cbn; by rewrite ?orb_false_r.
    + intros e. rewrite !elem_of_cons, elem_of_nil. intros [-> | [-> | [-> | [-> | []]]]]; by destruct X.
    + cbn. rewrite app_nil_r. by destruct X.
    + intros s. by rewrite list_elem_of_singleton.
  - apply wp_store. rewrite app_nil_r. assert (undelivered X c ≠ []) as Hne by (unfold undelivered; intros [_ [_ E]%app_nil]%app_nil; done).
    pose proof (sp_pending _ _ HX (or_introl Hne) Hw) as Hpe. set (c' := with_read_event X (event_del (read_event X c)) c).
    rewrite <- (app_nil_r h). eapply (read_ok X h c c' [] Hmid); try (by destruct X).
    + apply spliced_writing; [rewrite <- Hw; by destruct X | by destruct X | by destruct X | by destruct X].
    + intros e. rewrite !elem_of_cons, elem_of_nil. intros [-> | [-> | [-> | [-> | []]]]]; by destruct X.
    + cbn. rewrite app_nil_r. by destruct X.
    + intros s. apply not_elem_of_nil.
  - apply wp_drop, good_drop; [by eapply cinv_told | by destruct Hinv].
  - apply wp_drop, good_drop; [by eapply cinv_told | by destruct Hinv].
Qed.

Lemma mid_touched X h c : mid X h c → mid X h (touched c).
Proof.
  intros [Hm (msgs & got & He & Hf) Hs Ha Hc Hr Hv Ho Hst Hsz Hop Hw]. constructor; try done; try (by destruct X).
  - exists msgs, got. split; [done |]. intros X'. rewrite touched_undelivered. apply Hf.
  - unfold accounted in *. rewrite <- Ha. rewrite (held_detached c (touched c)); try done; by apply unused_detached.
  - by apply unused_detached.
  - by apply unused_detached.
  - apply (spliced_ext _ c); [| done]. unfold observed. by rewrite touched_undelivered.
Qed.

Lemma touched_drain X c : 
  ∀ (f : bufferevent → bytes) a, match bev_of X c with Some b => drain_ok (f b) a | None => True end → match bev_of X (touched c) with Some b => drain_ok (f b) a | None => True end.
Proof. intros f a. destruct X; cbn; [destruct (client c) as [b |] | destruct (relay c) as [b |]]; cbn; try done; by destruct (_ && _). Qed.

(** The events. *)
Lemma splice_step h c e : cinv cfd rfd h c → use_splice cf = true → state c = pump_active → event_ok cf e c →
  wp (step ss cf e) (λ _ s' es, good cfd rfd (h ++ es) s') (Some c).
Proof.
  intros Hinv Hm Hst Hok.
  assert (splicepump cfd rfd c) as Hsp.
  { destruct Hinv as [bc br Hpc Hco | p msgs got bc br He Hpc Hha | ? ? ? ? Hu | ? ? _ _ Hsp]; [| | by rewrite Hu in Hm | done].
    - destruct (co_state _ _ _ Hco) as [E _]. by rewrite E in Hst.
    - destruct (proto_awaits p (exchange_state _ _ _ He)) as [Hp _]. pose proof (ha_state _ _ _ _ Hha) as E. subst p. cbn in Hp. by rewrite Hst in Hp. }
  destruct e as [X ans o | Y ans conn o | X ans | Y a0 a1 a2].
  - destruct Hok as (b & Hb & He & _). assert (detached (Some b)) as (_ & E & _) by (rewrite <- Hb; destruct X; apply Hsp). by rewrite He in E.
  - destruct Hok as (b & Hb & He & _). assert (detached (Some b)) as (_ & _ & E) by (rewrite <- Hb; destruct Y; apply Hsp). by rewrite He in E.
  - destruct Hok as (_ & _ & Had & Hans). cbn [step]. apply wp_bind, wp_store. fold (touched c).
    eapply wp_mono; [apply (read_cb_ok X h (touched c) ans); [by apply touched_cinv | done | done | by destruct X | by destruct X] | done].
  - destruct Hok as (_ & _ & Hpe & H0 & H1 & H2). set (X := other Y). assert (Y = other X) as EY by (by destruct Y).
    assert (ev_W (evshut (other X) c) = false) as Hw.
    { destruct (ev_W (evshut (other X) c)) eqn:E; [| done]. exfalso. assert (spliced c X) as HX by (destruct X; apply Hsp).
      destruct (sp_shut _ _ HX E) as (_ & _ & _ & _ & Hn). apply Hn. by rewrite <- EY. }
    destruct (mid_of_cinv X h c Hinv Hm Hst Hw) as [Hmid _]. cbn [step]. apply wp_bind, wp_store, wp_bind, wp_store. cbn [app].
    set (c1 := with_write_event Y ((write_event Y c) <| pe_active := false |>) c). fold (touched c1).
    assert (c1 = evts X id (λ e, e <| pe_active := false |>) c) as Ec1 by (unfold c1; rewrite EY; destruct X, c; done).
    assert (mid X h (touched c1)) as Hmid1 by (apply mid_touched; rewrite Ec1; by apply mid_evts).
    rewrite EY. eapply wp_mono; [apply (write_cb_ok X h (touched c1) a0 a1 a2 Hmid1) | done].
    + apply (touched_drain (other X) c1 output). rewrite <- EY. unfold c1. by destruct Y.
    + apply (touched_drain X c1 input). unfold c1. by destruct Y.
    + unfold c1, X. by destruct Y.
Qed.
End splice.
