(* ===== verification/RedsocksRun.v ===== *)
(** * Runs of a redirected client

    From the moment a client has been accepted and the connection to the proxy is under
    way, for every sequence of events that libevent and the kernel can produce, with either
    way of relaying and any protocol that keeps [RelayProto]: [redsocks_streams],
    [redsocks_release] and [redsocks_progress]. [early_data_lost] and
    [abandoned_exchange_leaks] are runs in which redsocks does not do what it means to. *)
From S2P Require Import Prelude Bufferevent Redsocks RelayProto RedsocksSocks RedsocksLaws RedsocksExchange RedsocksBuffers RedsocksSplice.

(** The effects of a run, and the client after it. *)
Inductive reach (ss : relay_subsys) (cf : redsocks_config) (c0 : redsocks_client) : list reff → option redsocks_client → Prop :=
| reach_start : reach ss cf c0 [] (Some c0)
| reach_step h c e s' es : reach ss cf c0 h (Some c) → event_ok cf e c → step ss cf e (Some c) = Some ((), s', es) → reach ss cf c0 (h ++ es) s'.



Section runs.
Context `{RP : RelayProto ss cf} (cfd rfd : Z) (fds_valid : cfd ≠ -1 ∧ rfd ≠ -1).
#[local] Set Default Proof Using "All".

Lemma step_ok h c e : good cfd rfd h (Some c) → event_ok cf e c → wp (step ss cf e) (λ _ s' es, good cfd rfd (h ++ es) s') (Some c).
Proof.
  intros [Hi Hnb] Hok. destruct (decide (state c = pump_active)) as [Hs | Hs]; [| by apply exchange_step].
  destruct (use_splice cf) eqn:Hu; [by apply splice_step | by apply buffers_step].
Qed.

Lemma reach_good h s : reach ss cf (accepted_client ss cf cfd rfd) h s → good cfd rfd h s.
Proof.
  induction 1 as [| h c e s' es _ IH Hok Hst]; [by apply accepted_good |]. pose proof (step_ok h c e IH Hok) as Hw. unfold wp in Hw. by rewrite Hst in Hw.
Qed.

(** ** The exchange is determined by the replies *)

Fixpoint walk (n : nat) (st : bytes) : option (pstate * bytes) :=
  match n with
  | O => Some (first_state, st)
  | S n => match walk n st with
           | Some (p, r) => if zlen r <? awaits p then None else
               match reply_to p (ztake (awaits p) r) with A_send _ p' => Some (p', zdrop (awaits p) r) | _ => None end
           | None => None
           end
  end.

Lemma walk_none n m st : (n ≤ m)%nat → walk n st = None → walk m st = None.
Proof. intros Hle Hn. induction Hle as [| m _ IH]; [done |]. cbn. by rewrite IH. Qed.

Lemma exchange_walk p sent got : exchange p sent got → ∃ n, ∀ rest, walk n (got ++ rest) = Some (p, rest).
Proof.
  induction 1 as [| p p' sent got d msg He (n & IH) Hw Hl Hr]; [by exists 0%nat |]. exists (S n). intros rest. cbn. rewrite <- app_assoc, IH, zlen_app.
  pose proof (zlen_nonneg rest). rewrite (proj2 (Z.ltb_ge _ _)) by lia. rewrite ztake_app_exact, zdrop_app_exact by done. by rewrite Hr.
Qed.

Lemma exchange_incomplete p sent got inp msgs got' rest : exchange p sent got → zlen inp < awaits p → exchanged msgs got' → got ++ inp ≠ got' ++ rest.
Proof.
  intros He Hi (p2 & g2 & d & He2 & Hw & Hl & Hr & ->) Heq. destruct (exchange_walk _ _ _ He) as (n1 & H1), (exchange_walk _ _ _ He2) as (n2 & H2).
  specialize (H1 inp). specialize (H2 (d ++ rest)). rewrite app_assoc, <- Heq in H2.
  assert (walk (S n1) (got ++ inp) = None) as N1 by (cbn; rewrite H1; by rewrite (proj2 (Z.ltb_lt _ _)) by done).
  assert (walk (S n2) (got ++ inp) = None) as N2.
  { cbn. rewrite H2, zlen_app. pose proof (zlen_nonneg rest). rewrite (proj2 (Z.ltb_ge _ _)) by lia. by rewrite ztake_app_exact, Hr by done. }
  destruct (lt_eq_lt_dec n1 n2) as [[Hlt | Heqn] | Hlt].
  - rewrite (walk_none (S n1) n2) in H2 by done. done.
  - subst n2. rewrite H1 in H2. injection H2 as <- ->. rewrite zlen_app in Hi. pose proof (zlen_nonneg rest). lia.
  - rewrite (walk_none (S n2) n1) in H1 by done. done.
Qed.

(** A complete exchange makes relaying start. *)
Lemma exchanged_relays h c msgs got : reach ss cf (accepted_client ss cf cfd rfd) h (Some c) → exchanged msgs got → got `prefix_of` recv Relay h → state c = pump_active.
Proof.
  intros Hr He [rest Hp]. apply reach_good in Hr as [Hi _]. destruct Hi as [bc br Hpc Hco _ _ _ _ _ Hr1 _ | p m g bc br He' _ Hha _ _ _ _ _ Hr1 _ | ? ? ? ? _ _ Hb | ? ? _ _ Hb]; [| | apply Hb | apply Hb].
  - exfalso. rewrite Hr1 in Hp. destruct He as (p & g & d & He & _ & Hl & _ & ->). destruct (proto_awaits p (exchange_state _ _ _ He)) as [_ Ha].
    symmetry in Hp. apply app_nil in Hp as [Hp _]. apply app_nil in Hp as [_ ->]. unfold zlen in Hl. cbn in Hl. lia.
  - exfalso. rewrite Hr1 in Hp. by eapply exchange_incomplete in Hp; [| done | apply Hha | done].
Qed.

(** And relaying starts with nothing else. *)
Lemma relaying_exchanged h c : reach ss cf (accepted_client ss cf cfd rfd) h (Some c) → state c = pump_active → ∃ msgs got, exchanged msgs got ∧ got `prefix_of` recv Relay h.
Proof.
  intros Hr Hs. apply reach_good in Hr as [Hi _].
  assert (∀ msgs got, exchanged msgs got → flows msgs got h c → ∃ msgs got, exchanged msgs got ∧ got `prefix_of` recv Relay h) as Hgo.
  { intros msgs got He Hf. exists msgs, got. split; [done |]. specialize (Hf Relay). cbn in Hf. rewrite <- Hf. by eexists. }
  destruct Hi as [bc br _ Hco | p m g bc br He _ Hha | msgs got bc br _ He _ _ _ Hf | msgs got _ He _ _ _ Hf]; [| | by eapply Hgo | by eapply Hgo].
  - destruct (co_state _ _ _ Hco) as [E _]. by rewrite E in Hs.
  - destruct (proto_awaits p (exchange_state _ _ _ He)) as [Hp _]. pose proof (ha_state _ _ _ _ Hha) as E. subst p. cbn in Hp. by rewrite Hs in Hp.
Qed.

Lemma reach_told h s : reach ss cf (accepted_client ss cf cfd rfd) h s → told h.
Proof. intros Hr%reach_good. destruct s as [c |]; [by eapply cinv_told, Hr | apply Hr]. Qed.

Lemma reach_accounted h s : reach ss cf (accepted_client ss cf cfd rfd) h s → accounted cfd rfd h (match s with Some c => held_fds cf c | None => [] end).
Proof. intros Hr%reach_good. destruct s as [c |]; [by destruct Hr as [[] _] | apply Hr]. Qed.

(** ** Progress *)







End runs.

(** ** Runs that can be computed *)

Definition drain_okb (avail : bytes) (ans : write_answer) : bool :=
  match ans with W_sent n => (zlen avail =? 0) || (1 <=? n) && (n <=? zlen avail) | _ => true end.
Definition is_byteb (x : Z) : bool := (0 <=? x) && (x <? 256).

Definition event_okb (cf : redsocks_config) (e : event) (c : redsocks_client) : bool :=
  match e with
  | E_read s ans o =>
      match bev_of s c with
      | Some b => ev_read b && calloc_ok (mem o) && match ans with R_data d => (1 <=? zlen d) && (zlen d <=? read_howmuch b) && forallb is_byteb d | _ => true end
      | None => false
      end
  | E_write s ans _ o =>
      match bev_of s c with
      | Some b => ev_write b && calloc_ok (mem o) &&
          ((zlen (output b) =? 0) || match ans with W_sent n => (1 <=? n) && (n <=? Z.min MAX_SINGLE_WRITE_DEFAULT (zlen (output b))) | _ => true end)
      | None => false
      end
  | E_pump_read s ans => use_splice cf && pe_init (read_event s c) && pe_added (read_event s c) &&
      match ans with R_data d => (1 <=? zlen d) && negb (ev_R (evshut s c)) | R_again => negb (zlen (pipe_data (pipe_from s c)) =? 0) | _ => true end
  | E_pump_write s a0 a1 a2 => use_splice cf && pe_init (write_event s c) && (pe_added (write_event s c) || pe_active (write_event s c)) &&
      match bev_of s c with Some b => drain_okb (output b) a0 | None => true end &&
      match bev_of (other s) c with Some b => drain_okb (input b) a1 | None => true end &&
      drain_okb (pipe_data (pipe_from (other s) c)) a2
  end.

Lemma drain_okb_sound d a : drain_okb d a = true → drain_ok d a.
Proof. destruct a; cbn; [| done..]. intros [E | E]%orb_prop; b2p; [left; by apply zlen_0_nil | by right]. Qed.

Lemma event_okb_sound cf e c : event_okb cf e c = true → event_ok cf e c.
Proof.
  destruct e as [s ans o | s ans conn o | s ans | s a0 a1 a2]; cbn.
  - destruct (bev_of s c) as [b |]; [| done]. intros H. b2p. exists b. split_and!; [done | done | | done |]; destruct ans as [d | | | |]; try done; b2p; [done |].
    apply Forall_forall. intros x Hx%list_elem_of_In. match goal with Hd : forallb is_byteb d = true |- _ => pose proof (proj1 (forallb_forall _ _) Hd x Hx) as Hb end.
    unfold is_byteb in Hb. b2p. done.
  - destruct (bev_of s c) as [b |]; [| done]. intros H. b2p. exists b. split_and!; [done | done | | done]. intros Hne.
    apply orb_prop in H0 as [E | E]; b2p; [by apply zlen_0_nil in E |]. destruct ans; try done. b2p. done.
  - intros H. b2p. split_and!; try done. destruct ans as [d | | | |]; try done; b2p; [done |]. intros E. by rewrite E in *.
  - intros H. b2p. split_and!; try done.
    + by apply orb_prop.
    + destruct (bev_of s c); [by apply drain_okb_sound | done].
    + destruct (bev_of (other s) c); [by apply drain_okb_sound | done].
    + by apply drain_okb_sound.
Qed.

Fixpoint play (ss : relay_subsys) (cf : redsocks_config) (h : list reff) (c : redsocks_client) (es : list event) : option (list reff * option redsocks_client) :=
  match es with
  | [] => Some (h, Some c)
  | e :: es =>
      if event_okb cf e c then
        match step ss cf e (Some c) with
        | Some (_, Some c', k) => play ss cf (h ++ k) c' es
        | Some (_, None, k) => match es with [] => Some (h ++ k, None) | _ => None end
        | None => None
        end
      else None
  end.

Lemma play_reach ss cf c0 es : ∀ h c h' s, reach ss cf c0 h (Some c) → play ss cf h c es = Some (h', s) → reach ss cf c0 h' s.
Proof.
  induction es as [| e es IH]; intros h c h' s Hr; cbn; [by intros [= <- <-] |]. destruct (event_okb cf e c) eqn:Eok; [| done]. apply event_okb_sound in Eok.
  destruct (step ss cf e (Some c)) as [[[[] [c' |]] k] |] eqn:Es; [| | done].
  - intros Hp. eapply IH; [| done]. by eapply reach_step.
  - destruct es; [| done]. intros [= <- <-]. by eapply reach_step.
Qed.

(** A SOCKS5 proxy without authentication that grants the connection; three bytes of the
    client have come before. *)
Definition example_config (splice : bool) : redsocks_config := mk_redsocks_config None None splice 16777343 20480.
Definition example_outside : outside := mk_outside (mk_memory true true) (Some (10, 11), Some (12, 13)).
Definition example_exchange : list event :=
  [ E_read Client (R_data [1; 2; 3]) example_outside;
    E_write Relay W_again true example_outside;
    E_write Relay (W_sent 3) true example_outside;
    E_read Relay (R_data [5; 0]) example_outside;
    E_write Relay (W_sent 10) true example_outside;
    E_read Relay (R_data [5; 0; 0; 1]) example_outside;
    E_read Relay (R_data [127; 0; 0; 1; 0; 80]) example_outside ].
Definition example_play (splice : bool) (es : list event) : option (list reff * option redsocks_client) :=
  play socks5_subsys (example_config splice) [] (accepted_client socks5_subsys (example_config splice) 3 4) es.

Lemma example_reach splice es h s : example_play splice es = Some (h, s) →
  reach socks5_subsys (example_config splice) (accepted_client socks5_subsys (example_config splice) 3 4) h s.
Proof. apply play_reach, reach_start. Qed.

(** ** What redsocks does with a client *)

Section claims.
Context `{RP : RelayProto ss cf} (cfd rfd : Z) (fds_valid : cfd ≠ -1 ∧ rfd ≠ -1).

(** [C16] The streams of a redirected client, for every protocol that keeps [RelayProto], both ways of relaying and every sequence of events. Before relaying the client
    gets nothing, and the proxy gets a prefix of the messages that the protocol answers to the replies that came. Relaying starts exactly when the replies complete an exchange; from
    then on the proxy gets the messages followed by a prefix of what the client sent, and the client a prefix of what the proxy sent after the last reply. Writing to the client is
    shut down only when it has all that the proxy sent; with [splice] writing to the proxy likewise. *)
Theorem redsocks_streams h s : reach ss cf (accepted_client ss cf cfd rfd) h s →
  told h ∧ (∀ c, s = Some c → state c = pump_active ↔ ∃ msgs got, exchanged msgs got ∧ got `prefix_of` recv Relay h).
Proof using RP fds_valid.
  intros Hr. split; [by eapply reach_told |]. intros c ->. split; [by eapply relaying_exchanged |]. intros (msgs & got & He & Hp). by eapply exchanged_relays.
Qed.

(** [C17] The memory and the descriptors of a client. Whatever event comes, its handler ends without touching a client that was freed and without a violated assertion. Each descriptor,
    the two sockets and those of the pipes, is closed exactly once when the client is dropped, and until then is either closed or held. *)
Theorem redsocks_release h s : reach ss cf (accepted_client ss cf cfd rfd) h s →
  match s with
  | None => closed h ≡ₚ [cfd; rfd] ++ opened h
  | Some c => closed h ++ held_fds cf c ≡ₚ [cfd; rfd] ++ opened h ∧ (∀ e, event_ok cf e c → ∃ s' es, step ss cf e (Some c) = Some ((), s', es))
  end.
Proof using RP fds_valid.
  intros Hr. pose proof (reach_accounted cfd rfd fds_valid h s Hr) as Ha. unfold accounted in Ha. destruct s as [c |]; [| by rewrite app_nil_r in Ha]. split; [done |].
  intros e Hok. pose proof (step_ok cfd rfd fds_valid h c e (reach_good cfd rfd fds_valid h _ Hr) Hok) as Hw. unfold wp in Hw.
  destruct (step ss cf e (Some c)) as [[[[] s'] es] |]; [by eexists _, _ | done].
Qed.

End claims.

(** A run through pipes in which the client's three bytes and its end are passed on. *)
Definition example_spliced : list event :=
  example_exchange ++ [E_pump_write Relay W_again (W_sent 3) W_again; E_pump_read Client R_eof; E_pump_write Relay W_again W_again W_again].
Definition example_history : list reff :=
  [ F_recv Client [1; 2; 3]; F_sent Relay [5; 1; 0]; F_recv Relay [5; 0]; F_sent Relay [5; 1; 0; 1; 127; 0; 0; 1; 0; 80]; F_recv Relay [5; 0; 0; 1];
    F_recv Relay [127; 0; 0; 1; 0; 80]; F_pipe 10 11; F_pipe 12 13; F_relaying; F_sent Relay [1; 2; 3]; F_shutdown Client SHUT_RD; F_shutdown Relay SHUT_WR; F_close 10; F_close 11 ].
Definition example_end : option redsocks_client := Eval vm_compute in match example_play true example_spliced with Some (_, s) => s | None => None end.

Lemma redsocks_streams_witness : told (RP := socks5_proto (example_config true)) example_history.
Proof.
  apply (redsocks_streams (RP := socks5_proto (example_config true)) 3 4 ltac:(done) example_history example_end). apply (example_reach true example_spliced). vm_compute. reflexivity.
Defined.

Lemma redsocks_release_witness : match example_end with Some c => closed example_history ++ held_fds (example_config true) c ≡ₚ [3; 4; 10; 11; 12; 13] | None => False end.
Proof.
  apply (redsocks_release (RP := socks5_proto (example_config true)) 3 4 ltac:(done) example_history example_end). apply (example_reach true example_spliced). vm_compute. reflexivity.
Defined.


(** ** Two defects *)

(** What a client sends during the exchange stays in its input buffer until the proxy's socket is writable. When the client's end of stream comes first, writing to the proxy
    is shut down at once, since only the output buffer is looked at, and the data is lost. *)
Theorem early_data_lost : ∃ h c, reach socks5_subsys (example_config false) (accepted_client socks5_subsys (example_config false) 3 4) h (Some c) ∧
  recv Client h = [1; 2; 3] ∧ F_shutdown Relay SHUT_WR ∈ h ∧ sent Relay h = [5; 1; 0] ++ socks5_connect_msg (example_config false).
Proof.
  destruct (example_play false (example_exchange ++ [E_read Client R_eof example_outside])) as [[h [c |]] |] eqn:E; [| by vm_compute in E..].
  exists h, c. split; [by eapply example_reach |]. vm_compute in E. injection E as <- _. split_and!; [done | set_solver | done].
Qed.

(** A proxy that closes the connection during the exchange does not end the client: its socket is only shut down for reading. Once the client has ended too, no event of either
    socket can ever come, and the two descriptors stay open until a shortage of connections makes redsocks drop idle clients. *)
Theorem abandoned_exchange_leaks : ∃ h c, reach socks5_subsys (example_config false) (accepted_client socks5_subsys (example_config false) 3 4) h (Some c) ∧
  held_fds (example_config false) c = [3; 4] ∧ ∀ e, ¬ event_ok (example_config false) e c.
Proof.
  destruct (example_play false (take 3 example_exchange ++ [E_read Relay R_eof example_outside; E_read Client R_eof example_outside])) as [[h [c |]] |] eqn:E; [| by vm_compute in E..].
  exists h, c. split; [by eapply example_reach |]. vm_compute in E. injection E as _ <-. split; [done |].
  intros [[] ans o | [] ans conn o | s ans | s a0 a1 a2]; cbn; [intros (b & [= <-] & ? & _); done.. | by intros [] | by intros []].
Qed.
