(* ===== verification/RedsocksAccept.v ===== *)
(** * Admission of clients (redsocks/redsocks.c)

    Accepting clients, the limit on their number, the drop of idle ones and the back-off of
    the listeners when connections or descriptors run out. A client is its address and the
    time of its last event; what it does to the rest is the list of effects of its handlers
    ([Redsocks]), of which closing a descriptor and leaving the list matter here. Times are in
    microseconds. [redsocks_admission] and [redsocks_accept_resumes] are what holds;
    [accept_stops_forever] and [accepted_client_freed] are runs that should not be. *)
From S2P Require Import Prelude Bufferevent Redsocks.

(** ** Data *)

Record instance := mk_instance { listener : bool; clients : list (Z * Z) }.
#[export] Instance eta_instance : Eta instance := λ r, mk_instance (listener r) (clients r).

(** [listener]: whether its event is added. [backoff_ev]: the delay of the timer, when it is
    pending. *)
Record admission := mk_admission { redsocks_conn : Z; instances : list instance; accept_backoff_ms : Z; backoff_ev : option Z }.
#[export] Instance eta_admission : Eta admission := λ r, mk_admission (redsocks_conn r) (instances r) (accept_backoff_ms r) (backoff_ev r).

(** The limits of the configuration. *)
Record limits := mk_limits { redsocks_conn_max : Z; connpres_idle_timeout : Z; max_accept_backoff_ms : Z }.

(** What the system answers: the time, a random number, the success of [close] and of
    [socket]; [fds] are the descriptors that a client holds. *)
Record surroundings := mk_surroundings { now : Z; red_randui32 : Z; close_ok : Z → bool; socket_ok : bool; fds : Z → list Z }.

Definition all_clients (a : admission) : list (Z * Z) := instances a ≫= clients.
Definition listed (id : Z) (a : admission) : bool := bool_decide (id ∈ (all_clients a).*1).

(** ** Operations *)

Section operations.
Context (lim : limits) (w : surroundings).

Definition set_listeners (on : bool) (a : admission) : admission := a <| instances := (λ i, i <| listener := on |>) <$> instances a |>.
Definition accept_enable (a : admission) : admission := set_listeners true a.

Definition conn_pressure_lowered (a : admission) : admission :=
  if redsocks_conn_max lim <=? redsocks_conn a then a
  else match backoff_ev a with Some _ => accept_enable (a <| backoff_ev := None |>) | None => a end.

Definition redsocks_close_internal (fd : Z) (a : admission) : admission := if close_ok w fd then conn_pressure_lowered a else a.

Definition list_del (id : Z) (a : admission) : admission :=
  a <| instances := (λ i, i <| clients := filter (λ c, fst c ≠ id) (clients i) |>) <$> instances a |>.
Definition redsocks_conn_list_del (id : Z) (a : admission) : admission :=
  let a := if listed id a then list_del id (a <| redsocks_conn := u32 (redsocks_conn a - 1) |>) else a in
  conn_pressure_lowered a.

(** The effects of a handler of client [id]. *)
Definition client_effect (id : Z) (a : admission) (e : reff) : admission :=
  match e with F_close fd => redsocks_close_internal fd a | F_list_del => redsocks_conn_list_del id a | _ => a end.
Definition client_effects (id : Z) (es : list reff) (a : admission) : admission := foldl (client_effect id) a es.

(** The release of a client, whose effects are those of [Redsocks.redsocks_drop_client]. *)
Definition drop_client (id : Z) (a : admission) : admission := client_effects id ((F_close <$> fds w id) ++ [F_list_del]) a.

(** [redsocks_touch_client]. *)
Definition touch (id t : Z) (a : admission) : admission :=
  a <| instances := (λ i, i <| clients := (λ c, if fst c =? id then (id, t) else c) <$> clients i |>) <$> instances a |>.

(** One turn of the loop over the clients. *)
Definition visit_client (max_idle : Z) (r : admission * Z) (c : Z * Z) : admission * Z :=
  let '(a, best_next) := r in let '(id, last_event) := c in
  let idle := now w - last_event in
  if (idle <=? 0) || (max_idle <=? idle) then (drop_client id a, 0)
  else let delay := max_idle - idle in (a, if delay <? best_next then delay else best_next).
Definition drop_idle_connections (a : admission) : admission * Z :=
  let max_idle := connpres_idle_timeout lim * 1000000 in
  foldl (visit_client max_idle) (a, max_idle) (all_clients a).

Definition conn_pressure_ongoing (a : admission) : bool :=
  if redsocks_conn_max lim <=? redsocks_conn a then true else negb (socket_ok w).

Definition clamp_value (v lo hi : Z) : Z := let v := if v <? lo then lo else v in if hi <? v then hi else v.

Definition conn_pressure (a : admission) : admission :=
  let '(a, next) := if negb (connpres_idle_timeout lim =? 0) then drop_idle_connections a else (a, 0) in
  if negb (connpres_idle_timeout lim =? 0) && (next =? 0) then a else
  let ms := clamp_value (u32 (Z.shiftl (accept_backoff_ms a) 1 + 1)) 1 (max_accept_backoff_ms lim) in
  let tvdelay := u32 (red_randui32 w mod ms + 1) * 1000 in
  let tvdelay := if negb (next =? 0) && (next <? tvdelay) then next else tvdelay in
  set_listeners false (a <| accept_backoff_ms := ms |> <| backoff_ev := Some tvdelay |>).

(** The timer has fired, so it is not pending. *)
Definition redsocks_accept_backoff (a : admission) : admission :=
  let a := a <| backoff_ev := None |> in
  if conn_pressure_ongoing a then conn_pressure a else accept_enable a.

Definition list_add (n : nat) (id last_event : Z) (a : admission) : admission :=
  a <| instances := alter (λ i, i <| clients := (id, last_event) :: clients i |>) n (instances a) |>.
Definition redsocks_conn_list_add (n : nat) (id last_event : Z) (a : admission) : option admission :=
  ASSERT (negb (listed id a));;
  ASSERT (redsocks_conn a <? redsocks_conn_max lim);;
  let a := list_add n id last_event (a <| redsocks_conn := u32 (redsocks_conn a + 1) |>) in
  Some (if redsocks_conn_max lim <=? redsocks_conn a then conn_pressure a else a).

(** How far the handler of a listener gets: [accept] fails, for lack of something or
    not; a check of the socket or the allocation fails; the client cannot be set up; it is
    listed, and then reading cannot be enabled, or the proxy not connected to (with a
    descriptor that is closed again), or all is well. *)
Inductive listed_answer := L_not_enabled | L_not_connected (relay_fd : option Z) | L_ok.
Inductive accept_answer :=
| AC_failed (lack : bool)
| AC_refused (client_fd : Z)
| AC_not_made (client_fd id : Z)
| AC_listed (id last_event : Z) (r : listed_answer).

Definition redsocks_accept_client (n : nat) (ans : accept_answer) (a : admission) : option admission :=
  ASSERT (redsocks_conn a <? redsocks_conn_max lim);;
  match ans with
  | AC_failed lack => Some (if lack then conn_pressure a else a)
  | AC_refused client_fd => Some (redsocks_close_internal client_fd (a <| accept_backoff_ms := 0 |>))
  | AC_not_made client_fd id => Some (redsocks_close_internal client_fd (redsocks_conn_list_del id (a <| accept_backoff_ms := 0 |>)))
  | AC_listed id last_event r =>
      a ← redsocks_conn_list_add n id last_event (a <| accept_backoff_ms := 0 |>);
      ASSERT (listed id a);; (* the client is used again *)
      Some match r with
      | L_not_enabled => drop_client id a
      | L_not_connected relay_fd => drop_client id (match relay_fd with Some fd => redsocks_close_internal fd a | None => a end)
      | L_ok => a
      end
  end.

(** The end of the program. *)
Definition redsocks_fini_instance (listen_fd : Z) (a : admission) : admission :=
  match instances a with
  | [] => a
  | i :: _ =>
      let a := foldl (λ a c, drop_client (fst c) a) a (clients i) in
      let a := a <| instances := alter (λ i, i <| listener := false |>) 0%nat (instances a) |> in
      let a := redsocks_close_internal listen_fd a in
      a <| instances := tail (instances a) |>
  end.
Definition redsocks_fini (listen_fds : list Z) (a : admission) : option admission :=
  let a := foldl (λ a fd, redsocks_fini_instance fd a) a listen_fds in
  ASSERT (redsocks_conn a =? 0);; Some a.

End operations.

(** ** Invariant

    [counted]: the counter is the number of clients in the lists, which is within the limit.
    [admitting]: no listener is on at the limit. *)

Definition counted (lim : limits) (a : admission) : Prop :=
  redsocks_conn a = zlen (all_clients a) ∧ NoDup (all_clients a).*1 ∧ redsocks_conn a ≤ redsocks_conn_max lim.
Definition admitting (lim : limits) (a : admission) : Prop := ∀ i, i ∈ instances a → listener i = true → redsocks_conn a < redsocks_conn_max lim.
Definition limits_ok (lim : limits) : Prop := 1 ≤ redsocks_conn_max lim < 2 ^ 32 ∧ 0 ≤ connpres_idle_timeout lim ∧ 1 ≤ max_accept_backoff_ms lim < 2 ^ 32.

(** The listeners are on, or the timer that puts them on is pending. *)
Definition resumes (a : admission) : Prop := Forall (λ i, listener i = true) (instances a) ∨ backoff_ev a ≠ None.

(** The delay of the timer. *)
Definition delay_ok (lim : limits) (a : admission) : Prop := ∀ d, backoff_ev a = Some d → 0 < d ≤ max_accept_backoff_ms lim * 1000.

Section invariant.
Context (lim : limits) (w : surroundings) (Hlim : limits_ok lim).
#[local] Set Default Proof Using "All".

Lemma set_listeners_clients on a : all_clients (set_listeners on a) = all_clients a.
Proof. unfold all_clients, set_listeners. cbn. induction (instances a) as [| i l IH]; [done |]. cbn. by f_equal. Qed.

Lemma lowered_fields a : let a' := conn_pressure_lowered lim a in
  all_clients a' = all_clients a ∧ redsocks_conn a' = redsocks_conn a ∧ accept_backoff_ms a' = accept_backoff_ms a ∧ (a' = a ∨ redsocks_conn a < redsocks_conn_max lim ∧ backoff_ev a' = None ∧ Forall (λ i, listener i = true) (instances a')).
Proof.
  unfold conn_pressure_lowered. destruct (_ <=? _) eqn:E; b2p; [by auto |]. destruct (backoff_ev a); [| by auto]. cbn. unfold accept_enable.
  split_and!; [apply set_listeners_clients | done | done |]. right. split_and!; [done | done |]. cbn. apply Forall_fmap, Forall_true. done.
Qed.

(** A close, and the check after it. *)
Lemma lowered_counted a : counted lim a → counted lim (conn_pressure_lowered lim a).
Proof. unfold counted. destruct (lowered_fields a) as (-> & -> & _). done. Qed.
Lemma lowered_admitting a : admitting lim a → admitting lim (conn_pressure_lowered lim a).
Proof. intros Ha. destruct (lowered_fields a) as (_ & E & _ & [-> | (Hlt & _)]); [done |]. intros i _ _. by rewrite E. Qed.
Lemma lowered_resumes a : resumes a → resumes (conn_pressure_lowered lim a).
Proof. intros Ha. destruct (lowered_fields a) as (_ & _ & _ & [-> | (_ & _ & Hf)]); [done | by left]. Qed.
Lemma lowered_delay a : delay_ok lim a → delay_ok lim (conn_pressure_lowered lim a).
Proof. intros Ha. destruct (lowered_fields a) as (_ & _ & _ & [-> | (_ & E & _)]); [done |]. intros d. by rewrite E. Qed.

Lemma close_fields fd a : all_clients (redsocks_close_internal lim w fd a) = all_clients a ∧ redsocks_conn (redsocks_close_internal lim w fd a) = redsocks_conn a.
Proof. unfold redsocks_close_internal. destruct (close_ok w fd); [| done]. split; apply lowered_fields. Qed.

(** Leaving the list. *)
Lemma list_del_clients id a : all_clients (list_del id a) = filter (λ c, fst c ≠ id) (all_clients a).
Proof. unfold all_clients, list_del. cbn. induction (instances a) as [| i l IH]; [done |]. cbn. rewrite IH. symmetry. apply filter_app. Qed.

Lemma filter_other id (l : list (Z * Z)) : NoDup l.*1 →
  NoDup (filter (λ c, fst c ≠ id) l).*1 ∧ zlen (filter (λ c, fst c ≠ id) l) = zlen l - Z.b2z (bool_decide (id ∈ l.*1)).
Proof.
  induction l as [| [x t] l IH]; [done |]. cbn [fmap list_fmap]. rewrite NoDup_cons. intros [Hx [IH1 IH2]%IH]. destruct (decide (x = id)) as [-> | Hne].
  - rewrite filter_cons_False by (cbn; naive_solver). split; [done |]. rewrite IH2, bool_decide_eq_false_2 by done. rewrite bool_decide_eq_true_2 by (by left). rewrite zlen_cons. cbn. lia.
  - rewrite filter_cons_True by done. cbn [fmap list_fmap]. split.
    + apply NoDup_cons. split; [| done]. intros Hin. apply Hx. apply list_elem_of_fmap in Hin as ([y u] & -> & Hin). apply list_elem_of_filter in Hin as [_ Hin]. apply list_elem_of_fmap. by exists (y, u).
    + rewrite !zlen_cons, IH2. replace (bool_decide (id ∈ (x, t).1 :: l.*1)) with (bool_decide (id ∈ l.*1)); [cbn; lia |]. apply bool_decide_ext. rewrite elem_of_cons. naive_solver.
Qed.

Lemma filter_none id (l : list (Z * Z)) : id ∉ l.*1 → filter (λ c, fst c ≠ id) l = l.
Proof.
  induction l as [| [x t] l IH]; [done |]. cbn [fmap list_fmap]. rewrite not_elem_of_cons. intros [Hx Hl]. rewrite filter_cons_True by (cbn in *; congruence). f_equal. by apply IH.
Qed.

Definition unlist (id : Z) (a : admission) : admission := if listed id a then list_del id (a <| redsocks_conn := u32 (redsocks_conn a - 1) |>) else a.

Lemma unlist_fields id a : counted lim a →
  counted lim (unlist id a) ∧ redsocks_conn (unlist id a) = redsocks_conn a - Z.b2z (listed id a) ∧ all_clients (unlist id a) = filter (λ c, fst c ≠ id) (all_clients a).
Proof.
  intros (Hc & Hn & Hm). destruct (filter_other id (all_clients a) Hn) as [F1 F2]. fold (listed id a) in F2. unfold unlist. destruct (listed id a) eqn:E; cbn [Z.b2z] in *.
  - assert (redsocks_conn (list_del id (a <| redsocks_conn := u32 (redsocks_conn a - 1) |>)) = redsocks_conn a - 1) as Ec.
    { cbn. apply u32_small. pose proof (zlen_nonneg (filter (λ c, fst c ≠ id) (all_clients a))). destruct Hlim as [? _]. lia. }
    unfold counted. rewrite Ec, list_del_clients. change (all_clients (a <| redsocks_conn := _ |>)) with (all_clients a). split_and!; try done; lia.
  - split_and!; [done | lia |]. symmetry. apply filter_none. by apply bool_decide_eq_false in E.
Qed.

Lemma list_del_fields id a : counted lim a → let a' := redsocks_conn_list_del lim id a in
  counted lim a' ∧ redsocks_conn a' = redsocks_conn a - Z.b2z (listed id a) ∧ all_clients a' = filter (λ c, fst c ≠ id) (all_clients a).
Proof.
  intros Hc. cbn zeta. change (redsocks_conn_list_del lim id a) with (conn_pressure_lowered lim (unlist id a)). destruct (unlist_fields id a Hc) as (H1 & H2 & H3).
  split_and!; [by apply lowered_counted | by rewrite (proj1 (proj2 (lowered_fields _))) | by rewrite (proj1 (lowered_fields _))].
Qed.

(** *** Properties that every operation keeps *)

Record steady (a : admission) : Prop := { st_counted : counted lim a; st_admitting : admitting lim a; st_delay : delay_ok lim a }.

Lemma lowered_steady a : steady a → steady (conn_pressure_lowered lim a).
Proof. intros [H1 H2 H3]. constructor; [by apply lowered_counted | by apply lowered_admitting | by apply lowered_delay]. Qed.
Lemma close_steady fd a : steady a → steady (redsocks_close_internal lim w fd a).
Proof. unfold redsocks_close_internal. destruct (close_ok w fd); [apply lowered_steady | done]. Qed.

Lemma list_del_steady id a : steady a → steady (redsocks_conn_list_del lim id a).
Proof.
  intros [H1 H2 H3]. change (redsocks_conn_list_del lim id a) with (conn_pressure_lowered lim (unlist id a)). destruct (unlist_fields id a H1) as (F1 & F2 & _).
  apply lowered_steady. constructor; [done | |].
  - intros i Hi Hl. rewrite F2. assert (∃ j, j ∈ instances a ∧ listener j = true) as (j & Hj & Hlj).
    { unfold unlist in Hi. destruct (listed id a); [| by exists i]. cbn in Hi. apply list_elem_of_fmap in Hi as (j & -> & Hj). by exists j. }
    specialize (H2 j Hj Hlj). destruct (listed id a); cbn; lia.
  - unfold delay_ok, unlist in *. by destruct (listed id a).
Qed.

Lemma close_resumes fd a : resumes a → resumes (redsocks_close_internal lim w fd a).
Proof. unfold redsocks_close_internal. destruct (close_ok w fd); [apply lowered_resumes | done]. Qed.

Lemma list_del_resumes id a : resumes a → resumes (redsocks_conn_list_del lim id a).
Proof.
  intros Hr. apply lowered_resumes. destruct (listed id a); [| done]. destruct Hr as [Hr | Hr]; [left | by right]. cbn. by apply Forall_fmap.
Qed.

(** The effects of the handlers of a client. *)
Lemma effects_steady id es : ∀ a, steady a → steady (client_effects lim w id es a).
Proof. unfold client_effects. induction es as [| e es IH]; [done |]. intros a Ha. cbn. apply IH. destruct e; cbn; try done; [by apply close_steady | by apply list_del_steady]. Qed.
Lemma effects_resumes id es : ∀ a, resumes a → resumes (client_effects lim w id es a).
Proof. unfold client_effects. induction es as [| e es IH]; [done |]. intros a Ha. cbn. apply IH. destruct e; cbn; try done; [by apply close_resumes | by apply list_del_resumes]. Qed.

Lemma closes_fields id l : ∀ a, counted lim a → let a' := client_effects lim w id (F_close <$> l) a in
  counted lim a' ∧ redsocks_conn a' = redsocks_conn a ∧ all_clients a' = all_clients a.
Proof.
  unfold client_effects. induction l as [| fd l IH]; [done |]. intros a Ha. cbn. destruct (close_fields fd a) as [E1 E2].
  destruct (IH (redsocks_close_internal lim w fd a)) as (H1 & H2 & H3); [unfold counted in *; by rewrite E1, E2 |]. rewrite H2, H3. done.
Qed.

(** A released client is no longer listed, and the counter says so. *)
Lemma drop_fields id a : counted lim a → let a' := drop_client lim w id a in
  counted lim a' ∧ redsocks_conn a' = redsocks_conn a - Z.b2z (listed id a) ∧ all_clients a' = filter (λ c, fst c ≠ id) (all_clients a).
Proof.
  intros Hc. unfold drop_client, client_effects. rewrite foldl_app. destruct (closes_fields id (fds w id) a Hc) as (H1 & H2 & H3). unfold client_effects in *. cbn.
  destruct (list_del_fields id _ H1) as (F1 & F2 & F3). rewrite F2, F3, H2, H3. split_and!; [done | | done]. unfold listed. by rewrite H3.
Qed.

(** The timer is left alone or stopped. *)
Lemma effects_delay id es : ∀ a, delay_ok lim a → delay_ok lim (client_effects lim w id es a).
Proof.
  unfold client_effects. induction es as [| e es IH]; [done |]. intros a Ha. cbn. apply IH. destruct e; cbn; try done.
  - unfold redsocks_close_internal. destruct (close_ok w fd); [by apply lowered_delay | done].
  - apply lowered_delay. by destruct (listed id a).
Qed.

(** *** Idle clients *)

Definition is_idle (max_idle : Z) (c : Z * Z) : Prop := now w - snd c ≤ 0 ∨ max_idle ≤ now w - snd c.

Lemma keys_functional (l : list (Z * Z)) x u v : NoDup l.*1 → (x, u) ∈ l → (x, v) ∈ l → u = v.
Proof.
  induction l as [| [y t] l IH]; [by intros _ ?%elem_of_nil |]. cbn [fmap list_fmap]. rewrite NoDup_cons, !elem_of_cons. intros [Hy Hn] [[= -> ->] | Hu] [E | Hv].
  - by injection E as ->.
  - destruct Hy. apply list_elem_of_fmap. by exists (y, v).
  - injection E as -> ->. destruct Hy. apply list_elem_of_fmap. by exists (y, u).
  - by apply IH.
Qed.

Lemma visit_ok max_idle l : ∀ a best, counted lim a → NoDup l.*1 → (∀ c, c ∈ l → c ∈ all_clients a) → 0 ≤ best ≤ max_idle →
  let r := foldl (visit_client lim w max_idle) (a, best) l in
  counted lim (fst r) ∧ 0 ≤ snd r ≤ max_idle ∧ (best = 0 → snd r = 0) ∧
  (∀ c, c ∈ all_clients a → ¬ is_idle max_idle c → c ∈ all_clients (fst r)) ∧
  (fst r = a ∧ (best = 0 ∨ 0 < snd r) ∨ snd r = 0 ∧ redsocks_conn (fst r) < redsocks_conn a).
Proof.
  induction l as [| [id t] l IH]; intros a best Hc Hn Hl Hb; cbn zeta.
  - cbn. split_and!; try done; try lia. left. split; [done |]. lia.
  - cbn [foldl visit_client fmap list_fmap] in *. apply NoDup_cons in Hn as [Hx Hn]. destruct ((now w - t <=? 0) || (max_idle <=? now w - t)) eqn:E.
    + assert ((id, t) ∈ all_clients a) as Hid by (apply Hl; by left).
      assert (listed id a = true) as Hli by (apply bool_decide_eq_true, list_elem_of_fmap; by exists (id, t)).
      destruct (drop_fields id a Hc) as (D1 & D2 & D3). rewrite Hli in D2. cbn in D2.
      destruct (IH (drop_client lim w id a) 0) as (H1 & H2 & H3 & H4 & H5); [done | done | | lia |].
      * intros [x u] Hin. rewrite D3. apply list_elem_of_filter. split; [| apply Hl; by right]. cbn. intros ->. apply Hx, list_elem_of_fmap. by exists (id, u).
      * split_and!; [done | lia | lia | intros _; by apply H3 | |].
        -- intros [x u] Hin Hni. apply H4; [| done]. rewrite D3. apply list_elem_of_filter. split; [| done]. cbn. intros ->.
           rewrite (keys_functional _ _ _ _ (proj1 (proj2 Hc)) Hin Hid) in Hni. apply Hni. unfold is_idle. cbn. apply orb_prop in E as [?%Z.leb_le | ?%Z.leb_le]; auto.
        -- right. split; [by apply H3 |]. destruct H5 as [[-> _] | [_ H5]]; lia.
    + destruct (IH a (if max_idle - (now w - t) <? best then max_idle - (now w - t) else best)) as (H1 & H2 & H3 & H4 & H5); [done | done | by intros c Hin; apply Hl; right | |].
      * b2p. destruct (_ <? _) eqn:E'; b2p; lia.
      * b2p. split_and!; [done | apply H2 | apply H2 | | done |].
        -- intros ->. apply H3. rewrite (proj2 (Z.ltb_ge _ _)); lia.
        -- destruct H5 as [[H5 H6] | H5]; [left; split; [done |] | by right]. destruct (max_idle - (now w - t) <? best) eqn:E'; b2p; lia.
Qed.

Lemma drop_idle_ok a : counted lim a → connpres_idle_timeout lim ≠ 0 → let r := drop_idle_connections lim w a in
  counted lim (fst r) ∧ 0 ≤ snd r ∧ (∀ c, c ∈ all_clients a → ¬ is_idle (connpres_idle_timeout lim * 1000000) c → c ∈ all_clients (fst r)) ∧
  (fst r = a ∧ 0 < snd r ∨ snd r = 0 ∧ redsocks_conn (fst r) < redsocks_conn a).
Proof.
  intros Hc Ht. destruct Hlim as (_ & Ht0 & _).
  destruct (visit_ok (connpres_idle_timeout lim * 1000000) (all_clients a) a (connpres_idle_timeout lim * 1000000)) as (H1 & H2 & _ & H4 & H5); [done | apply Hc | done | lia |].
  cbn zeta. unfold drop_idle_connections. split_and!; [done | lia | done |]. destruct H5 as [[H5 [? | H6]] | H5]; [lia | by left | by right].
Qed.

Lemma drop_idle_delay a : delay_ok lim a → delay_ok lim (fst (drop_idle_connections lim w a)).
Proof.
  unfold drop_idle_connections. cbn zeta. set (m := connpres_idle_timeout lim * 1000000). generalize m at 2. generalize (all_clients a). intros l. revert a.
  induction l as [| [id t] l IH]; [done |]. intros a best Ha. cbn. destruct (_ || _); [apply IH; by apply effects_delay | by apply IH].
Qed.

(** *** Pressure *)

Definition shed (a : admission) : admission * Z := if negb (connpres_idle_timeout lim =? 0) then drop_idle_connections lim w a else (a, 0).

Lemma shed_ok a : counted lim a → delay_ok lim a →
  counted lim (fst (shed a)) ∧ delay_ok lim (fst (shed a)) ∧ 0 ≤ snd (shed a) ∧
  (negb (connpres_idle_timeout lim =? 0) && (snd (shed a) =? 0) = true → redsocks_conn (fst (shed a)) < redsocks_conn a) ∧
  (∀ c, c ∈ all_clients a → (connpres_idle_timeout lim ≠ 0 → ¬ is_idle (connpres_idle_timeout lim * 1000000) c) → c ∈ all_clients (fst (shed a))).
Proof.
  intros Hc Hd. unfold shed. destruct (Z.eqb_spec (connpres_idle_timeout lim) 0) as [E | E]; cbn [negb]; [done |].
  destruct (drop_idle_ok a Hc E) as (H1 & H2 & H3 & H4). split_and!; [done | by apply drop_idle_delay | done | | by auto].
  intros Hz. cbn in Hz. b2p. destruct H4 as [[_ H4] | H4]; lia.
Qed.

(** The client list and the delay after pressure. *)
Lemma pressure_cases a : conn_pressure lim w a =
  (if negb (connpres_idle_timeout lim =? 0) && (snd (shed a) =? 0) then fst (shed a) else
   let ms := clamp_value (u32 (Z.shiftl (accept_backoff_ms (fst (shed a))) 1 + 1)) 1 (max_accept_backoff_ms lim) in
   let tvdelay := u32 (red_randui32 w mod ms + 1) * 1000 in
   let tvdelay := if negb (snd (shed a) =? 0) && (snd (shed a) <? tvdelay) then snd (shed a) else tvdelay in
   set_listeners false ((fst (shed a)) <| accept_backoff_ms := ms |> <| backoff_ev := Some tvdelay |>)).
Proof. unfold conn_pressure. fold (shed a). by destruct (shed a). Qed.

Lemma clamp_range v lo hi : lo ≤ hi → lo ≤ clamp_value v lo hi ≤ hi.
Proof. intros. unfold clamp_value. destruct (v <? lo) eqn:E1; destruct (hi <? _) eqn:E2; b2p; lia. Qed.

(** The limit may have been reached with the listeners still on. *)
Lemma pressure_steady a : counted lim a → delay_ok lim a → steady (conn_pressure lim w a).
Proof.
  intros Hc Hd. destruct (shed_ok a Hc Hd) as (H1 & H2 & H3 & H4 & _). rewrite pressure_cases. destruct (negb _ && _) eqn:E.
  - constructor; [done | | done]. intros i _ _. destruct Hc as (_ & _ & Hm). specialize (H4 eq_refl). lia.
  - cbn zeta. constructor.
    + unfold counted in *. by rewrite set_listeners_clients.
    + intros i Hi Hl. cbn in Hi. apply list_elem_of_fmap in Hi as (j & -> & _). done.
    + intros d. cbn. intros [= <-]. destruct Hlim as (_ & _ & Hb).
      set (ms := clamp_value _ 1 _). pose proof (clamp_range (u32 (Z.shiftl (accept_backoff_ms (fst (shed a))) 1 + 1)) 1 (max_accept_backoff_ms lim) ltac:(lia)) as Hms. fold ms in Hms.
      pose proof (Z.mod_pos_bound (red_randui32 w) ms ltac:(lia)). rewrite u32_small by lia.
      destruct (negb (snd (shed a) =? 0) && _) eqn:En; b2p; lia.
Qed.

Lemma pressure_keeps a c : counted lim a → delay_ok lim a → c ∈ all_clients a → (connpres_idle_timeout lim ≠ 0 → ¬ is_idle (connpres_idle_timeout lim * 1000000) c) →
  c ∈ all_clients (conn_pressure lim w a).
Proof.
  intros Hc Hd Hin Hi. destruct (shed_ok a Hc Hd) as (_ & _ & _ & _ & H5). rewrite pressure_cases. destruct (negb _ && _); [by apply H5 |]. cbn zeta. rewrite set_listeners_clients. by apply H5.
Qed.

Lemma pressure_resumes a : connpres_idle_timeout lim = 0 → resumes (conn_pressure lim w a).
Proof. intros E. unfold conn_pressure. rewrite E. by right. Qed.

(** *** Accepting *)

Lemma list_add_clients n id t a i : instances a !! n = Some i → all_clients (list_add n id t a) ≡ₚ (id, t) :: all_clients a.
Proof.
  unfold all_clients, list_add. cbn. generalize (instances a). intros l. revert n. induction l as [| j l IH]; intros [| n] Hn; try done.
  cbn in *. rewrite IH by done. symmetry. apply Permutation_middle.
Qed.

Lemma list_add_ok n id t a i : steady a → instances a !! n = Some i → listener i = true → listed id a = false →
  (connpres_idle_timeout lim ≠ 0 → 0 < now w - t < connpres_idle_timeout lim * 1000000) →
  ∃ a', redsocks_conn_list_add lim w n id t a = Some a' ∧ steady a' ∧ (id, t) ∈ all_clients a'.
Proof.
  intros [Hc Ha Hd] Hn Hl Hli Hidle. assert (redsocks_conn a < redsocks_conn_max lim) as Hlt by (eapply Ha; [by eapply list_elem_of_lookup_2 | done]).
  unfold redsocks_conn_list_add. rewrite Hli, (proj2 (Z.ltb_lt _ _)) by done. cbn [negb ASSERT mbind option_bind].
  set (a0 := a <| redsocks_conn := u32 (redsocks_conn a + 1) |>). set (a1 := list_add n id t a0).
  pose proof (list_add_clients n id t a0 i Hn) as Hp. fold a1 in Hp. change (all_clients a0) with (all_clients a) in Hp.
  assert (redsocks_conn a1 = redsocks_conn a + 1) as Hc1. { unfold a1, a0. cbn. apply u32_small. destruct Hc as (E & _). pose proof (zlen_nonneg (all_clients a)). destruct Hlim as [? _]. lia. }
  assert (counted lim a1) as Hcount.
  { destruct Hc as (E & Hnd & Hm). split_and!; [| | lia].
    - unfold zlen. rewrite Hp, Hc1, E. cbn. unfold zlen. lia.
    - rewrite Hp. cbn. apply NoDup_cons. split; [by apply bool_decide_eq_false in Hli | done]. }
  assert (delay_ok lim a1) as Hdel by exact Hd.
  assert ((id, t) ∈ all_clients a1) as Hin by (rewrite Hp; by left).
  eexists. split; [reflexivity |]. destruct (redsocks_conn_max lim <=? redsocks_conn a1) eqn:E; b2p.
  - split; [by apply pressure_steady |]. apply pressure_keeps; try done. intros Ht. specialize (Hidle Ht). unfold is_idle. cbn. lia.
  - split; [| done]. constructor; [done | | done]. intros j _ _. lia.
Qed.

Lemma steady_ms a ms : steady a → steady (a <| accept_backoff_ms := ms |>).
Proof. intros [H1 H2 H3]. by constructor. Qed.

Definition accept_ok (ans : accept_answer) (a : admission) : Prop :=
  match ans with
  | AC_not_made _ id => listed id a = false
  | AC_listed id t _ => listed id a = false ∧ (connpres_idle_timeout lim ≠ 0 → 0 < now w - t < connpres_idle_timeout lim * 1000000)
  | _ => True
  end.

Lemma drop_steady id a : steady a → steady (drop_client lim w id a).
Proof. apply effects_steady. Qed.

Lemma accept_client_ok n ans a i : steady a → instances a !! n = Some i → listener i = true → accept_ok ans a →
  ∃ a', redsocks_accept_client lim w n ans a = Some a' ∧ steady a'.
Proof.
  intros Hst Hn Hl Hok. assert (redsocks_conn a < redsocks_conn_max lim) as Hlt by (eapply Hst; [by eapply list_elem_of_lookup_2 | done]).
  unfold redsocks_accept_client. rewrite (proj2 (Z.ltb_lt _ _)) by done. cbn [ASSERT mbind option_bind].
  pose proof (steady_ms a 0 Hst) as Hst0. destruct ans as [lack | fd | fd id | id t rr].
  - eexists. split; [reflexivity |]. destruct lack; [apply pressure_steady; apply Hst | done].
  - eexists. split; [reflexivity |]. by apply close_steady.
  - eexists. split; [reflexivity |]. by apply close_steady, list_del_steady.
  - destruct Hok as [Hli Hidle]. destruct (list_add_ok n id t (a <| accept_backoff_ms := 0 |>) i Hst0 Hn Hl Hli Hidle) as (a1 & -> & Hst1 & Hin). cbn [mbind option_bind].
    assert (listed id a1 = true) as -> by (apply bool_decide_eq_true, list_elem_of_fmap; by exists (id, t)). cbn [ASSERT mbind option_bind].
    eexists. split; [reflexivity |]. destruct rr as [| [fd |] |]; [by apply drop_steady | by apply drop_steady, close_steady | by apply drop_steady | done].
Qed.

Lemma backoff_steady a : steady a → steady (redsocks_accept_backoff lim w a).
Proof.
  intros [H1 H2 H3]. unfold redsocks_accept_backoff, conn_pressure_ongoing. cbn [redsocks_conn set]. destruct (redsocks_conn_max lim <=? _) eqn:E; b2p; [by apply pressure_steady |].
  destruct (socket_ok w); [| by apply pressure_steady]. cbn [negb]. constructor; [| | done].
  - unfold counted, accept_enable. by rewrite set_listeners_clients.
  - by intros i _ _.
Qed.

(** *** Times of the last event *)

Lemma touch_clients id t a : all_clients (touch id t a) = (λ c, if fst c =? id then (id, t) else c) <$> all_clients a.
Proof using Type. unfold all_clients, touch. cbn. induction (instances a) as [| i l IH]; [done |]. cbn. rewrite IH. symmetry. apply fmap_app. Qed.

Lemma touch_keys id t a : (all_clients (touch id t a)).*1 = (all_clients a).*1.
Proof using Type.
  rewrite touch_clients, <- list_fmap_compose. apply list_fmap_ext. intros k [x u] _. cbn. destruct (Z.eqb_spec x id) as [-> |]; done.
Qed.

Lemma touch_steady id t a : steady a → steady (touch id t a).
Proof using Type.
  intros [(H1 & H2 & H3) H4 H5]. constructor; [| | done].
  - split_and!; [| by rewrite touch_keys | done]. rewrite touch_clients. unfold zlen. rewrite length_fmap. exact H1.
  - intros i Hi Hl. cbn in Hi. apply list_elem_of_fmap in Hi as (j & -> & Hj). by apply (H4 j).
Qed.

(** *** The end of the program *)

Lemma lowered_lists a : clients <$> instances (conn_pressure_lowered lim a) = clients <$> instances a.
Proof.
  unfold conn_pressure_lowered. destruct (_ <=? _); [done |]. destruct (backoff_ev a); [| done]. cbn. rewrite <- list_fmap_compose. by apply list_fmap_ext.
Qed.
Lemma close_lists fd a : clients <$> instances (redsocks_close_internal lim w fd a) = clients <$> instances a.
Proof. unfold redsocks_close_internal. destruct (close_ok w fd); [apply lowered_lists | done]. Qed.
Lemma all_clients_lists a b : clients <$> instances a = clients <$> instances b → all_clients a = all_clients b.
Proof.
  assert (∀ l : list instance, l ≫= clients = concat (clients <$> l)) as Hc by (induction l as [| i l IH]; [done |]; cbn; by rewrite IH). unfold all_clients. rewrite !Hc. by intros ->.
Qed.

(** The lists of the instances after releases. *)
Lemma drop_lists id a : clients <$> instances (drop_client lim w id a) = (λ l, filter (λ c, fst c ≠ id) l) <$> (clients <$> instances a).
Proof.
  assert (∀ l b, clients <$> instances (client_effects lim w id (F_close <$> l) b) = clients <$> instances b) as Hcl.
  { unfold client_effects. induction l as [| fd l IH]; [done |]. intros b. cbn. rewrite IH. apply close_lists. }
  unfold drop_client, client_effects. rewrite foldl_app. cbn. change (foldl (client_effect lim w id) a (F_close <$> fds w id)) with (client_effects lim w id (F_close <$> fds w id) a).
  set (b := client_effects lim w id (F_close <$> fds w id) a). specialize (Hcl (fds w id) a). fold b in Hcl. rewrite <- Hcl. unfold redsocks_conn_list_del. rewrite lowered_lists.
  destruct (listed id b) eqn:El; [cbn; by rewrite <- !list_fmap_compose |]. symmetry. rewrite <- list_fmap_compose. apply list_fmap_ext. intros k i Hi. cbn. apply filter_none.
  apply bool_decide_eq_false in El. intros Hin. apply El. apply list_elem_of_fmap in Hin as (c & -> & Hc). apply list_elem_of_fmap. exists c. split; [done |].
  unfold all_clients. apply list_elem_of_bind. exists i. split; [done |]. by eapply list_elem_of_lookup_2.
Qed.

Definition drop_all (l : list (Z * Z)) (a : admission) : admission := foldl (λ a c, drop_client lim w (fst c) a) a l.

Lemma drop_all_counted l : ∀ a, counted lim a → counted lim (drop_all l a).
Proof. unfold drop_all. induction l as [| c l IH]; [done |]. intros a Ha. cbn. by apply IH, drop_fields. Qed.

Lemma drop_all_lists l : ∀ a, clients <$> instances (drop_all l a) = (λ k, filter (λ c, fst c ∉ l.*1) k) <$> (clients <$> instances a).
Proof.
  unfold drop_all. induction l as [| d l IH]; intros a; cbn.
  - symmetry. rewrite <- list_fmap_compose. apply list_fmap_ext. intros k i _. cbn. induction (clients i) as [| c k' IH]; [done |]. rewrite filter_cons_True by apply not_elem_of_nil. by f_equal.
  - rewrite IH, drop_lists, <- !list_fmap_compose. apply list_fmap_ext. intros k i _. cbn. rewrite list_filter_filter. apply list_filter_iff. intros c. rewrite not_elem_of_cons. tauto.
Qed.

(** An instance is removed with all its clients. *)
Lemma fini_instance_ok fd a i l : counted lim a → instances a = i :: l →
  counted lim (redsocks_fini_instance lim w fd a) ∧ length (instances (redsocks_fini_instance lim w fd a)) = length l.
Proof.
  intros Hc Hi. unfold redsocks_fini_instance. rewrite Hi. fold (drop_all (clients i) a). pose proof (drop_all_counted (clients i) a Hc) as Hc1. pose proof (drop_all_lists (clients i) a) as Hl.
  set (a1 := drop_all (clients i) a) in *. rewrite Hi in Hl. destruct (instances a1) as [| i1 l1] eqn:E1; [done |]. cbn in Hl. injection Hl as Hh Ht.
  assert (clients i1 = []) as Hnil.
  { rewrite Hh. apply elem_of_nil_inv. intros c [Hn Hin]%list_elem_of_filter. apply Hn, list_elem_of_fmap. by exists c. }
  set (a2 := a1 <| instances := _ |>). assert (clients <$> instances a2 = clients <$> instances a1) as E2 by (unfold a2; cbn; by rewrite E1).
  pose proof (close_lists fd a2) as E3. set (a3 := redsocks_close_internal lim w fd a2) in *. rewrite E2, E1 in E3. destruct (instances a3) as [| i3 l3] eqn:Ei3; [done |]. cbn in E3. injection E3 as E3h E3t.
  assert (redsocks_conn a3 = redsocks_conn a1) as Ec by apply (close_fields fd a2).
  assert (all_clients (a3 <| instances := tail (i3 :: l3) |>) = all_clients a1) as Eall.
  { unfold all_clients. cbn. rewrite E1. cbn. rewrite Hnil. cbn. change (l3 ≫= clients = l1 ≫= clients).
    exact (all_clients_lists (mk_admission 0 l3 0 None) (mk_admission 0 l1 0 None) E3t). }
  split.
  - unfold counted in *. rewrite Eall. change (redsocks_conn (a3 <| instances := _ |>)) with (redsocks_conn a3). by rewrite Ec.
  - cbn. rewrite <- (length_fmap clients l3), E3t, Ht, !length_fmap. done.
Qed.

Lemma fini_ok fds0 : ∀ a, counted lim a → length fds0 = length (instances a) → ∃ a', redsocks_fini lim w fds0 a = Some a' ∧ all_clients a' = [].
Proof.
  unfold redsocks_fini. induction fds0 as [| fd l IH]; intros a Hc Hl.
  - cbn. destruct (instances a) as [| i k] eqn:E; [| done]. destruct Hc as (Hc & _). unfold all_clients in *. rewrite E in Hc. cbn in Hc. rewrite Hc. cbn. exists a. split; [done |]. unfold all_clients. by rewrite E.
  - cbn. destruct (instances a) as [| i k] eqn:E; [done |]. destruct (fini_instance_ok fd a i k Hc E) as [H1 H2]. apply IH; [done |]. rewrite H2. cbn in Hl. lia.
Qed.
End invariant.

(** ** Runs *)

Inductive admission_event :=
| V_accept (n : nat) (ans : accept_answer) (w : surroundings)
| V_backoff (w : surroundings)
| V_client (id : Z) (es : list reff) (w : surroundings)
| V_touch (id t : Z).

Definition admission_step (lim : limits) (v : admission_event) (a : admission) : option admission :=
  match v with
  | V_accept n ans w => redsocks_accept_client lim w n ans a
  | V_backoff w => Some (redsocks_accept_backoff lim w a)
  | V_client id es w => Some (client_effects lim w id es a)
  | V_touch id t => Some (touch id t a)
  end.

(** A connection comes when the listener is on; the memory of a new client is not that of
    another, and it was touched shortly before. The timer fires when it is pending; the events of
    a client come while it is listed. *)
Definition admission_ok (lim : limits) (v : admission_event) (a : admission) : Prop :=
  match v with
  | V_accept n ans w => (∃ i, instances a !! n = Some i ∧ listener i = true) ∧ accept_ok lim w ans a
  | V_backoff _ => backoff_ev a ≠ None
  | V_client id _ _ | V_touch id _ => listed id a = true
  end.

Definition admission_start (n : nat) : admission := mk_admission 0 (replicate n (mk_instance true [])) 0 None.

Inductive admitted_run (lim : limits) (n : nat) : admission → Prop :=
| admitted_start : admitted_run lim n (admission_start n)
| admitted_step a v a' : admitted_run lim n a → admission_ok lim v a → admission_step lim v a = Some a' → admitted_run lim n a'.

Section runs.
Context (lim : limits) (Hlim : limits_ok lim).
#[local] Set Default Proof Using "All".

Lemma start_steady n : steady lim (admission_start n).
Proof.
  assert (all_clients (admission_start n) = []) as E by (unfold all_clients; cbn; by induction n).
  constructor; [| | done]; [unfold counted; rewrite E; split_and!; [done | constructor |] |]; cbn; destruct Hlim as [? _]; [lia |]. intros i _ _. cbn. lia.
Qed.

Lemma step_steady v a : steady lim a → admission_ok lim v a → ∃ a', admission_step lim v a = Some a' ∧ steady lim a'.
Proof.
  intros Ha Hok. destruct v as [n ans w | w | id es w | id t]; cbn in *.
  - destruct Hok as [(i & Hi & Hl) Hok]. by eapply accept_client_ok.
  - eexists. split; [done |]. by apply backoff_steady.
  - eexists. split; [done |]. by apply effects_steady.
  - eexists. split; [done |]. by apply touch_steady.
Qed.

Lemma run_steady n a : admitted_run lim n a → steady lim a.
Proof.
  induction 1 as [| a v a' _ IH Hok Hst]; [apply start_steady |]. destruct (step_steady v a IH Hok) as (a1 & E & H1). rewrite Hst in E. by injection E as ->.
Qed.

Lemma touch_resumes id t a : resumes a → resumes (touch id t a).
Proof. intros [H | H]; [left | by right]. cbn. by apply Forall_fmap. Qed.

Lemma list_add_resumes w n id t a a' : connpres_idle_timeout lim = 0 → resumes a → redsocks_conn_list_add lim w n id t a = Some a' → resumes a'.
Proof.
  intros Ht Hr. unfold redsocks_conn_list_add, ASSERT. destruct (negb _); [| done]. cbn. destruct (_ <? _); [| done]. cbn. intros [= <-].
  destruct (_ <=? _); [by apply pressure_resumes |]. destruct Hr as [Hr | Hr]; [left | by right]. cbn. by apply Forall_alter.
Qed.

Lemma step_resumes v a a' : connpres_idle_timeout lim = 0 → resumes a → admission_step lim v a = Some a' → resumes a'.
Proof.
  intros Ht Hr. destruct v as [n ans w | w | id es w | id t]; cbn.
  - unfold redsocks_accept_client, ASSERT. destruct (_ <? _); [| done]. cbn. destruct ans as [lack | fd | fd id | id t rr].
    + intros [= <-]. destruct lack; [by apply pressure_resumes | done].
    + intros [= <-]. by apply close_resumes.
    + intros [= <-]. by apply close_resumes, list_del_resumes.
    + destruct (redsocks_conn_list_add lim w n id t _) as [a1 |] eqn:E; [| done]. cbn. apply list_add_resumes in E; [| done | done]. destruct (listed id a1); [| done]. cbn. intros [= <-].
      destruct rr as [| [fd |] |]; [by apply effects_resumes | by apply effects_resumes, close_resumes | by apply effects_resumes | done].
  - intros [= <-]. unfold redsocks_accept_backoff. destruct (conn_pressure_ongoing _ _ _); [by apply pressure_resumes |]. left. cbn. by apply Forall_fmap, Forall_true.
  - intros [= <-]. by apply effects_resumes.
  - intros [= <-]. by apply touch_resumes.
Qed.

(** [C19] The admission of clients. Whatever connections come, however far they get and whatever clients do, the counter is the number of clients in the lists and within the limit,
    and a listener is on only below the limit, so that no assertion of the handlers fails and no client is used after its release; the delay of the back-off is positive and within
    its limit; and the program can be ended at any time, with no client left. What is asked ([accept_ok]): the memory of a new client is not that of a listed one, and, when idle
    clients are dropped, the clock has moved on between the first event of a new client and the check for idle ones, by less than the idle time. Else the new client may itself be
    dropped as idle and be used after that, [accepted_client_freed]. *)
Theorem redsocks_admission n a : admitted_run lim n a →
  redsocks_conn a = zlen (all_clients a) ∧ NoDup (all_clients a).*1 ∧ redsocks_conn a ≤ redsocks_conn_max lim ∧
  (∀ i, i ∈ instances a → listener i = true → redsocks_conn a < redsocks_conn_max lim) ∧
  (∀ d, backoff_ev a = Some d → 0 < d ≤ max_accept_backoff_ms lim * 1000) ∧
  (∀ v, admission_ok lim v a → ∃ a', admission_step lim v a = Some a') ∧
  (∀ w listen_fds, length listen_fds = length (instances a) → ∃ a', redsocks_fini lim w listen_fds a = Some a' ∧ all_clients a' = []).
Proof.
  intros Hr%run_steady. pose proof Hr as [(H1 & H2 & H3) H4 H5]. split_and!; try done.
  - intros v Hok. destruct (step_steady v a Hr Hok) as (a' & E & _). by exists a'.
  - intros w l Hl. by apply fini_ok; [| apply Hr |].
Qed.

(** [C20] Without the drop of idle clients, accepting always goes on: at every moment all listeners are on, or the timer that turns them on again is pending. *)
Theorem redsocks_accept_resumes n a : connpres_idle_timeout lim = 0 → admitted_run lim n a → Forall (λ i, listener i = true) (instances a) ∨ backoff_ev a ≠ None.
Proof.
  intros Ht. induction 1 as [| a v a' _ IH _ Hst]; [left; by apply Forall_replicate | by eapply step_resumes].
Qed.
End runs.

(** ** Examples and defects *)

Definition example_world (t : Z) : surroundings := mk_surroundings t 0 (λ _, true) true (λ id, [10 * id; 10 * id + 1]).
Definition example_accept (id t : Z) : admission_event := V_accept 0 (AC_listed id t L_ok) (example_world (t + 1)).

(** Two clients are the limit. The second one comes just before the first is idle; when the timer of the back-off fires the first client is dropped. *)
Definition example_limits (idle : Z) : limits := mk_limits 2 idle 60000.

Definition example_full_state (idle : Z) : admission := mk_admission 2 [mk_instance false [(2, 9999500); (1, 0)]] 1 (Some (if idle =? 0 then 1000 else 499)).

Lemma example_full_run idle : idle = 0 ∨ idle = 10 → admitted_run (example_limits idle) 1 (example_full_state idle).
Proof.
  intros Hi. set (a1 := mk_admission 1 [mk_instance true [(1, 0)]] 0 None).
  eapply (admitted_step _ _ a1 (example_accept 2 9999500)); [eapply (admitted_step _ _ _ (example_accept 1 0)); [apply admitted_start | |] | |];
    try (by destruct Hi as [-> | ->]; vm_compute); (split; [by eexists |]; split; [done |]; cbn; destruct Hi; lia).
Qed.

Lemma example_limits_ok idle : 0 ≤ idle → limits_ok (example_limits idle).
Proof. intros. split_and!; cbn; lia. Qed.

Lemma redsocks_admission_witness : limits_ok (example_limits 10) ∧ 0 < 499 ≤ max_accept_backoff_ms (example_limits 10) * 1000.
Proof.
  split; [apply example_limits_ok; lia |].
  apply (redsocks_admission (example_limits 10) ltac:(apply example_limits_ok; lia) 1 (example_full_state 10)); [apply example_full_run; by right | reflexivity].
Defined.

Lemma redsocks_accept_resumes_witness : Forall (λ i, listener i = true) (instances (example_full_state 0)) ∨ backoff_ev (example_full_state 0) ≠ None.
Proof. apply (redsocks_accept_resumes (example_limits 0) ltac:(apply example_limits_ok; lia) 1); [reflexivity | apply example_full_run; by left]. Defined.

(** When the timer of the back-off fires at the limit and idle clients are dropped, neither is the timer set again nor are the listeners turned on: the check on every closed
    descriptor turns them on only while the timer is pending. No connection is accepted ever after, not even when all clients are gone. *)
Theorem accept_stops_forever : ∃ a, admitted_run (example_limits 10) 1 a ∧ all_clients a = [] ∧ ∀ v, ¬ admission_ok (example_limits 10) v a.
Proof.
  set (a1 := mk_admission 1 [mk_instance false [(2, 9999500)]] 1 None). set (a2 := mk_admission 0 [mk_instance false []] 1 None).
  exists a2. split.
  - eapply (admitted_step _ _ a1 (V_client 2 [F_close 20; F_close 21; F_list_del] (example_world 10000600))); [| done | by vm_compute].
    eapply (admitted_step _ _ (example_full_state 10) (V_backoff (example_world 10000000))); [apply example_full_run; by right | done | by vm_compute].
  - split; [done |]. intros [[| n] ans w | w | id es w | id t] Hok; try done.
    + destruct Hok as [(i & Hi & Hl) _]. injection Hi as <-. done.
    + destruct Hok as [(i & Hi & _) _]. done.
Qed.

(** A client whose first event is not before the time that the check for idle clients reads, because the clock has not moved or was set back, counts as idle. When it is the one
    that reaches the limit, it is released while it is being accepted, and used after that. *)
Theorem accepted_client_freed : let lim := mk_limits 1 10 60000 in
  admitted_run lim 1 (admission_start 1) ∧ admission_step lim (V_accept 0 (AC_listed 1 1000000 L_ok) (example_world 1000000)) (admission_start 1) = None.
Proof. split; [apply admitted_start | by vm_compute]. Qed.
